(* ===== verification/_CoqProject ===== *)
-Q . S2P
Prelude.v
KList.v
KListSort.v
KListOrd.v
KListSpec.v
Bitmap.v
Vaddr.v
Palloc.v
Cache.v
FsState.v
Inode.v
InodeSpec.v
FreeMapSpec.v
FsTheorems.v
OpenInodes.v
Directory.v
DirSpec.v
Arith.v
KListFamily.v
Hash.v
HashSpec.v
KString.v
KStringSpec.v
Thread.v
Synch.v
Sched.v
SchedInv.v
SchedSpec.v
SchedExec.v
SchedCreate.v
Boot.v
SchedTheorems.v
LibStd.v
Pagedir.v
PagedirSpec.v
PagedirTheorems.v
ArgStack.v
Exec.v
ExecSpec.v
Syscall.v
SyscallSpec.v
SyscallFiles.v
SyscallExamples.v
UserSyscall.v
Malloc.v
MallocSpec.v
MallocFree.v
MallocTheorems.v
MallocClient.v
Stdio.v
StdioSpec.v
Console.v
Ustar.v
Tokenizer.v
Intq.v
CharIO.v
Kbd.v
CharIOSpec.v
CharIOTheorems.v
Vga.v
BlockDev.v
Partition.v
Ide.v
IdeDisk.v
Descriptors.v
Idt.v
IdtTheorems.v
KernelMap.v
Random.v
CmdLine.v
Timer.v
Rtc.v
FixedPoint.v
Process.v
ProcessInv.v
ProcessStep.v
ProcessRun.v
ProcessPoints.v
ProcessTheorems.v
ProcessExamples.v
