(* ===== verification/Prelude.v ===== *)
(** * Pintos verified: threads, processes, virtual memory, interrupts and
      devices, the file system and the libraries

    The program is the teaching kernel under src/code_162/group/pintos/src/
    (paths below are relative to it).  The library models the C code as
    executable functions in a state and error monad and proves what the code
    promises to its callers.

    ** How C is modelled

    A routine that can change state is a [cmd S A]: a function from the state
    [S] to a result, or to the [fault] the C code would stop with (a failed
    ASSERT, a PANIC, a bad pointer, an index out of range, a lock acquired
    twice, a divide error).  A theorem that a routine returns [Ret] therefore
    says that none of these happens.  Integers are [Z], reduced with [u32],
    [s32] and the like where the C type wraps around.  A loop whose count is
    known recurses on it; another loop has fuel, and [NoFuel] is a fault of its
    own, so that theorems which conclude [Ret] also prove that the fuel was
    enough: pointer walks take the number of mapped nodes or bytes, which
    bounds every list or string in memory; searches take the length of the
    array; the division, rehashing and calibration loops take the number of
    bits; the actions of the command line take the number of words.

    ** Parts of the kernel and the files that model them

    Shared: Prelude (faults, monad, machine integers, rounding of lib/round.h,
    generic lemmas, tactics).

    Lists (lib/kernel/list.c): KList has every routine on a heap of [prev] and
    [next] pointers and the splice lemmas; KListSort and KListOrd prove the
    harder ones;
    KListSpec states the interface (a list refines a sequence); KListFamily
    handles many disjoint lists in one heap.
    Hash tables (lib/kernel/hash.c): Hash, HashSpec; an array of such lists.
    Bitmaps (lib/kernel/bitmap.c): Bitmap.
    64-bit division (lib/arithmetic.c): Arith.
    Strings (lib/string.c): KString, KStringSpec.
    Sorting, searching, atoi (lib/stdlib.c): LibStd.

    Threads (threads/thread.c, part of threads/interrupt.c): Thread has the
    kernel state ([struct thread] by page, ready and all lists, interrupt flag,
    tick counters) and the routines up to a context switch; Synch has
    threads/synch.c; Boot has [thread_init] and [thread_start].  Sched is the
    machine: each thread is a program of calls, a step runs one piece of code
    of the running thread up to the next point where interrupts are on, or
    takes a timer interrupt.  SchedInv states the invariant, SchedSpec,
    SchedExec and SchedCreate prove that the steps keep it, and
    SchedTheorems draws the conclusions for every execution.

    Virtual memory: Vaddr (threads/vaddr.h), Palloc (threads/palloc.c, on top
    of Bitmap), Pagedir (userprog/pagedir.c and threads/pte.h: page tables as
    pages of 1024 words, %cr3 and the translation cache), PagedirSpec,
    PagedirTheorems.

    File system: Cache (devices/block.c, filesys/cache.c) ends with the classes
    [SectorOps] and [SectorStore], the interface of a store of sectors, which
    both the cache and the raw device implement; FsState and Inode
    (filesys/inode.c, filesys/free-map.c, filesys/file.c) are written against
    it, InodeSpec, FreeMapSpec, FsTheorems and OpenInodes prove their
    properties; Directory and DirSpec have filesys/directory.c and
    filesys/filesys.c.

    Programs: ArgStack (userprog/process.c: [tokenize] and the
    stack [setup_stack] builds); Exec, ExecSpec (the loader: ELF headers,
    [validate_segment], [load_segment], [install_page], on top of the file
    system, the page directories and the argument stack, with a small
    executable on a formatted disk as an example).
    System calls (userprog/syscall.c): Syscall has the dispatcher and the
    handlers, whose state joins the file system, the caller's memory and page
    directory, its descriptors and the file system lock; SyscallSpec proves the
    lock protocol, SyscallFiles the contract of an open file, SyscallExamples
    runs them; UserSyscall has the stubs of lib/user/syscall.c and joins them
    with the kernel.
    Process life cycle (the rest of userprog/process.c, with [k_exec] and
    [k_wait], which suspend the caller and are parameters of the dispatcher):
    Process has every step between two points where another thread can run;
    ProcessInv, ProcessStep, ProcessRun and ProcessPoints prove the
    invariant, ProcessTheorems the protocol, ProcessExamples the hazards.

    Memory blocks (threads/malloc.c): Malloc, on top of Palloc and of lists in
    one heap; MallocSpec, MallocFree, MallocTheorems (invariant and the calls),
    MallocClient (the contract for callers).
    Formatted output (lib/stdio.c, lib/kernel/console.c, lib/user/console.c):
    Stdio, StdioSpec; Console has the kernel console and its lock.
    Archives (lib/ustar.c): Ustar.  Random numbers (lib/random.c):
    Random.  Fixed-point numbers (threads/fixed-point.h): FixedPoint.

    Processor and start-up: Descriptors (userprog/gdt.c, userprog/tss.c and the
    gates of threads/interrupt.c, as the processor reads them); Idt
    (threads/interrupt.c and userprog/exception.c, and the refinement of a table
    of entries), IdtTheorems (the 8259A controllers, the table after start-up,
    acknowledgement, exceptions); KernelMap
    ([paging_init] of threads/init.c, on Pagedir); CmdLine (the
    kernel command line: arguments, options, actions and the choice of block
    devices).  The handlers of devices and the stubs of intr-stubs.S are
    parameters of Idt; Thread has the same interrupt flag and context, as far
    as the scheduler needs them.

    Devices: Intq (devices/intq.c), CharIO (devices/serial.c, devices/input.c)
    and Kbd (devices/kbd.c), with every point where a caller sleeps;
    CharIOSpec and CharIOTheorems prove them for all interleavings.
    Vga (devices/vga.c).  BlockDev (the registry of devices/block.c and access
    through partitions), Partition (devices/partition.c).  Ide (devices/ide.c)
    is written against the class [ports] of the hardware; IdeDisk implements it
    by disks whose commands take any time, and shows that a disk behind the
    driver is a [SectorStore] again, so that the theorems on the file system
    hold on it, and that it is the array of sectors that BlockDev assumes.
    Timer (devices/timer.c, devices/pit.c) and Rtc (devices/rtc.c).
    Tokenizer has the tokenizer of the homework shell
    (code_162/personal/hw1/tokenizer.c).

    ** What the theorems show

    Threads: no assertion fails in any interleaving and each thread is in the
    queue its status says; locks exclude; no wake-up of a semaphore is lost;
    round-robin scheduling gives every ready thread the processor within a
    bounded number of ticks.
    Memory: the page allocator hands out only free pages and gets them back;
    the page directories refine one finite map per address space, and the
    translation cache is never stale.
    File system: the cache refines an array of sectors with LRU replacement and
    loses nothing at a flush; reads and writes reach exactly the bytes of a
    file through all levels of index blocks; allocation takes free sectors
    only; directory lookups find what was added.  Three theorems describe what
    the code does where it departs from its intention: appending inside a
    sector, writing past the end, and adding to a full directory.
    Programs: the words of a command line reach [main]; the loader copes with
    any file without a fault, and on success every segment is in memory with
    its bytes and rights; a descriptor refines a byte sequence with a position;
    handlers give the file system lock back, with three exceptions that are
    theorems too.
    Processes: in every orderly interleaving of exec, wait and exit nothing
    faults and a parent gets the status of its child once; the executions that
    are not orderly are shown to fault.
    Interrupts: whatever is registered, each gate leads to its stub, and user
    programs can enter only through the gates meant for them; every external
    interrupt is acknowledged; an exception of a program ends that program, one
    of the kernel panics.  Start-up: memory is mapped as meant, and a command
    line is run as written, except for the seed.
    Devices: no byte of the serial line or the keyboard is lost or reordered;
    the screen shows the text; partitions do not reach each other; the disk
    driver refines arrays of sectors for every latency of the disks, and finds
    the disks there are; calibration and sleeping terminate.  Theorems also state by how much calibration, the
    clock, the timer chip's divisor and fixed-point rounding miss their aim.
    Library: the memory allocator refines disjoint blocks with their contents;
    printf prints what its format says, on every console; archive headers round
    trip; the generator stays a permutation; lists refine sequences, hash tables refine sets; sorting, search,
    string and arithmetic routines meet their functional specifications.

    ** Bounds and assumptions

    The compare, hash and action callbacks, and malloc, are parameters; the
    classes [callbacks] and [StrcmpLike] and the named hypotheses of the
    theorems say what is asked of them, and each has an instance in a witness.
    Uninitialised memory (stack buffers, fresh allocations) is a parameter too.

    The speed of the machine, the bytes devices deliver, the addresses of
    assembly stubs and the clock are parameters as well.

    ** Not modelled

    Assembly (switch.S, start.S, intr-stubs.S, loader.S) appears only through
    its effect on the state.  The
    speaker, shutdown, panic messages with backtraces, the actions of
    filesys/fsutil.c (which call routines that are modelled, and print), the
    programs under examples/ and utils/, and the homework programs apart from
    the tokenizer, which use sockets, processes and sbrk of the host. *)
From Stdlib Require Export ZArith Lia.
From stdpp Require Export prelude gmap.

(** Prove a closed decidable statement by evaluating its decision procedure. *)
Ltac by_decision := apply (bool_decide_unpack _); vm_compute; exact I.

(** * Outcomes of kernel code

    A kernel routine returns, or stops in one of the ways the C code can
    stop: a failed [ASSERT], an explicit [PANIC], a dereference of a null or
    dangling pointer, an access outside an array, a lock acquired twice by
    its holder, a divide error (#DE) of the processor, or (in the model only)
    an exhausted loop bound. *)
Inductive fault : Set :=
  | AssertFail
  | KernelPanic
  | BadPtr
  | OutOfBounds
  | Deadlock
  | DivideError
  | NoFuel.

Inductive res (A : Type) : Type :=
  | Ret (a : A)
  | Err (e : fault).
Arguments Ret {A} a.
Arguments Err {A} e.

#[global] Instance fault_eq_dec : EqDecision fault.
Proof. solve_decision. Defined.

#[global] Instance res_ret : MRet res := λ A a, Ret a.
#[global] Instance res_bind : MBind res := λ A B f m,
  match m with Ret a => f a | Err e => Err e end.

(** * Stateful kernel code: a state and error monad over the state [S] *)
Definition cmd (S A : Type) : Type := S → res (A * S).

#[global] Instance cmd_ret {S} : MRet (cmd S) := λ A a s, Ret (a, s).
#[global] Instance cmd_bind {S} : MBind (cmd S) := λ A B f m s,
  match m s with Ret (a, s') => f a s' | Err e => Err e end.

Definition throw {S A} (e : fault) : cmd S A := λ _, Err e.
Definition gets {S A} (f : S → A) : cmd S A := λ s, Ret (f s, s).
Definition modify {S} (f : S → S) : cmd S unit := λ s, Ret (tt, f s).
Definition lift_res {S A} (r : res A) : cmd S A := λ s,
  match r with Ret a => Ret (a, s) | Err e => Err e end.

(** [ASSERT (c)]: kernel panic unless [c]. *)
Definition ASSERT {S} (c : bool) : cmd S unit := λ s,
  if c then Ret (tt, s) else Err AssertFail.
(** The same guard in a routine without state. *)
Definition RASSERT (c : bool) : res unit :=
  if c then Ret tt else Err AssertFail.

Section cmd_rules.
Context {S : Type}.

Lemma bind_Ret {A B} (m : cmd S A) (k : A → cmd S B) s a s' :
  m s = Ret (a, s') → (m ≫= k) s = k a s'.
Proof. unfold mbind, cmd_bind. by intros ->. Qed.

Lemma bind_Err {A B} (m : cmd S A) (k : A → cmd S B) s e :
  m s = Err e → (m ≫= k) s = Err e.
Proof. unfold mbind, cmd_bind. by intros ->. Qed.

Lemma bind_inv {A B} (m : cmd S A) (k : A → cmd S B) s b s'' :
  (m ≫= k) s = Ret (b, s'') → ∃ a s', m s = Ret (a, s') ∧ k a s' = Ret (b, s'').
Proof.
  unfold mbind, cmd_bind. destruct (m s) as [[a s']|e] eqn:E; [|done].
  intros H. by exists a, s'.
Qed.

Lemma bind_assoc {A B C} (m : cmd S A) (k : A → cmd S B) (f : B → cmd S C) s :
  ((m ≫= k) ≫= f) s = (m ≫= (λ a, k a ≫= f)) s.
Proof. unfold mbind, cmd_bind. by destruct (m s) as [[a s']|e]. Qed.

Lemma ret_run {A} (a : A) (s : S) : (mret a : cmd S A) s = Ret (a, s).
Proof. done. Qed.

Lemma gets_run {A} (f : S → A) (s : S) : gets f s = Ret (f s, s).
Proof. done. Qed.

Lemma modify_run (f : S → S) (s : S) : modify f s = Ret (tt, f s).
Proof. done. Qed.

Lemma ASSERT_run (c : bool) (s : S) : c = true → ASSERT c s = Ret (tt, s).
Proof. by intros ->. Qed.

Lemma ret_bind {A B} (a : A) (k : A → cmd S B) s : (mret a ≫= k) s = k a s.
Proof. done. Qed.

Lemma gets_bind {A B} (f : S → A) (k : A → cmd S B) s : (gets f ≫= k) s = k (f s) s.
Proof. done. Qed.

Lemma modify_bind {B} (f : S → S) (k : unit → cmd S B) s : (modify f ≫= k) s = k tt (f s).
Proof. done. Qed.

Lemma lift_bind {A B} (a : A) (k : A → cmd S B) s : (lift_res (Ret a) ≫= k) s = k a s.
Proof. done. Qed.

Lemma ASSERT_bind {B} (c : bool) (k : unit → cmd S B) s :
  c = true → (ASSERT c ≫= k) s = k tt s.
Proof. by intros ->. Qed.

Lemma ASSERT_bind_fail {B} (c : bool) (k : unit → cmd S B) s :
  c = false → (ASSERT c ≫= k) s = Err AssertFail.
Proof. by intros ->. Qed.
End cmd_rules.

(** * Machine integers

    Unsigned and signed 32-bit and 64-bit values are integers kept in range
    by explicit reduction. *)
Definition u8 (z : Z) : Z := (z mod 2 ^ 8)%Z.
Definition u32 (z : Z) : Z := (z mod 2 ^ 32)%Z.
Definition s32 (z : Z) : Z := ((z + 2 ^ 31) mod 2 ^ 32 - 2 ^ 31)%Z.
Definition u64 (z : Z) : Z := (z mod 2 ^ 64)%Z.
Definition s64 (z : Z) : Z := ((z + 2 ^ 63) mod 2 ^ 64 - 2 ^ 63)%Z.

(** round.h, for [X >= 0] and [STEP >= 1]. *)
Definition ROUND_UP (x step : Z) : Z := ((x + step - 1) / step * step)%Z.
Definition DIV_ROUND_UP (x step : Z) : Z := ((x + step - 1) / step)%Z.
Definition ROUND_DOWN (x step : Z) : Z := (x / step * step)%Z.

Lemma u32_small z : (0 <= z < 2 ^ 32)%Z → u32 z = z.
Proof. intros. by apply Z.mod_small. Qed.

Lemma u32_range z : (0 <= u32 z < 2 ^ 32)%Z.
Proof. apply Z.mod_pos_bound. lia. Qed.

Lemma s32_small z : (- 2 ^ 31 <= z < 2 ^ 31)%Z → s32 z = z.
Proof. intros. unfold s32. rewrite Z.mod_small; lia. Qed.

Lemma s32_range z : (- 2 ^ 31 <= s32 z < 2 ^ 31)%Z.
Proof. unfold s32. pose proof (Z.mod_pos_bound (z + 2 ^ 31) (2 ^ 32)). lia. Qed.

Lemma s64_small z : (- 2 ^ 63 <= z < 2 ^ 63)%Z → s64 z = z.
Proof. intros. unfold s64. rewrite Z.mod_small; lia. Qed.

Lemma div_round_up_spec x step :
  (0 <= x → 0 < step →
   step * (DIV_ROUND_UP x step - 1) < x <= step * DIV_ROUND_UP x step \/ x = 0)%Z.
Proof.
  intros Hx Hs. unfold DIV_ROUND_UP.
  pose proof (Z.div_mod (x + step - 1) step). pose proof (Z.mod_pos_bound (x + step - 1) step). lia.
Qed.

(** * Lists *)
Lemma filter_all {A} (P : A → Prop) `{∀ x, Decision (P x)} (l : list A) :
  (∀ x, x ∈ l → P x) → filter P l = l.
Proof.
  induction l as [|x l IH]; intros Hl; [done|].
  rewrite filter_cons_True by set_solver. f_equal. apply IH. set_solver.
Qed.

Lemma filter_fmap_ext {A B} (f : A → B) (P : A → Prop) (Q : B → Prop)
    `{∀ x, Decision (P x)} `{∀ y, Decision (Q y)} (l : list A) :
  (∀ x, x ∈ l → P x ↔ Q (f x)) → filter Q (f <$> l) = f <$> filter P l.
Proof.
  induction l as [|x l IH]; intros Hl; [done|]. rewrite fmap_cons.
  pose proof (Hl x ltac:(set_solver)) as Hx.
  destruct (decide (P x)) as [HP|HP].
  - rewrite !filter_cons_True by tauto. rewrite fmap_cons. f_equal. apply IH. set_solver.
  - rewrite !filter_cons_False by tauto. apply IH. set_solver.
Qed.

(** Concatenations of blocks of the same size [n]. *)
Section blocks.
Context {A B : Type} (n : nat) (f : A → list B) (Hf : ∀ t, length (f t) = n).

Lemma length_blocks (l : list A) : length (l ≫= f) = (n * length l)%nat.
Proof. induction l as [|a l IH]; simpl; [lia|]. rewrite length_app, Hf. unfold mbind in IH. rewrite IH. lia. Qed.

Lemma drop_blocks (l : list A) k v r :
  l !! k = Some v → (r <= n)%nat →
  drop (n * k + r) (l ≫= f) = drop r (f v) ++ (drop (S k) l ≫= f).
Proof.
  revert l. induction k as [|k IH]; intros [|a l] Hk Hr; try done; simpl in Hk.
  - injection Hk as ->. rewrite Nat.mul_0_r. simpl. rewrite drop_app_le by (rewrite Hf; lia). done.
  - change ((a :: l) ≫= f) with (f a ++ (l ≫= f)).
    rewrite drop_app_ge by (rewrite Hf; lia). rewrite Hf.
    replace (n * S k + r - n)%nat with (n * k + r)%nat by lia. by apply IH.
Qed.

Lemma take_drop_blocks (l : list A) k v r c :
  l !! k = Some v → (r + c <= n)%nat →
  take c (drop (n * k + r) (l ≫= f)) = take c (drop r (f v)).
Proof.
  intros Hk Hc. rewrite (drop_blocks l k v r) by (done || lia).
  rewrite take_app_le; [done|]. rewrite length_drop, Hf. lia.
Qed.
End blocks.

(** [l] with [p] written over it at offset [o]. *)
Definition splice {A} (o : nat) (p l : list A) : list A := take o l ++ p ++ drop (o + length p) l.

Lemma length_splice {A} o (p l : list A) :
  (o + length p <= length l)%nat → length (splice o p l) = length l.
Proof. intros H. unfold splice. rewrite !length_app, length_take, length_drop. lia. Qed.

Lemma splice_mid {A} r (p a b c : list A) :
  (r + length p <= length b)%nat →
  splice (length a + r) p (a ++ b ++ c) = a ++ splice r p b ++ c.
Proof.
  intros H. unfold splice. rewrite take_app_ge by lia.
  replace (length a + r - length a)%nat with r by lia.
  rewrite take_app_le by lia. rewrite (drop_app_ge a) by lia.
  replace (length a + r + length p - length a)%nat with (r + length p)%nat by lia.
  rewrite drop_app_le by lia. by rewrite !app_assoc.
Qed.

Lemma splice_splice {A} o (p q l : list A) :
  (o + length p <= length l)%nat →
  splice (o + length p) q (splice o p l) = splice o (p ++ q) l.
Proof.
  intros H. unfold splice at 1.
  assert (E : take (o + length p) (splice o p l) = take o l ++ p).
  { unfold splice. rewrite app_assoc, take_app_le by (rewrite length_app, length_take; lia).
    apply take_ge. rewrite length_app, length_take. lia. }
  rewrite E. unfold splice. rewrite length_app, <- !app_assoc. do 3 f_equal.
  rewrite app_assoc, drop_app_ge by (rewrite length_app, length_take; lia).
  rewrite drop_drop. f_equal. rewrite length_app, length_take. lia.
Qed.

Lemma take_splice {A} n o (p l : list A) :
  (o + length p <= n)%nat → take n (splice o p l) = splice o p (take n l).
Proof.
  intros Hn. unfold splice. rewrite take_take, Nat.min_l by lia.
  destruct (decide (o <= length l)%nat) as [Ho|Ho].
  - rewrite take_app_ge by (rewrite length_take; lia). f_equal.
    rewrite length_take, Nat.min_l by lia. rewrite take_app_ge by lia. f_equal.
    rewrite skipn_firstn_comm. f_equal. lia.
  - rewrite (take_ge l o), (drop_ge l), (drop_ge (take n l)) by (rewrite ?length_take; lia).
    rewrite !app_nil_r. apply take_ge. rewrite length_app. lia.
Qed.

Lemma splice_nil {A} o (l : list A) : splice o [] l = l.
Proof. unfold splice. simpl. rewrite Nat.add_0_r. apply take_drop. Qed.

(** * Locks in sequential code

    In a run of one thread a lock is free or held by that thread.
    [lock_acquire] asserts that the current thread does not hold the lock and
    [lock_release] that it does (threads/synch.c). *)
Definition lock_acquire_seq (held : bool) : res bool :=
  if held then Err AssertFail else Ret true.
Definition lock_release_seq (held : bool) : res bool :=
  if held then Ret false else Err AssertFail.
