(* ===== verification/KList.v ===== *)
(** * Kernel doubly linked lists (lib/kernel/list.c, lib/kernel/list.h)

    The list library is modelled at the level of its pointers.  A heap maps
    the address of a [struct list_elem] to its [prev] and [next] fields, a
    null pointer is [None], and every routine is the C routine with its
    [ASSERT]s and its order of loads and stores.  A [klist] is a
    [struct list], that is the addresses of its two embedded sentinels.

    The predicate [is_list h l xs] says that in the heap [h] the list [l]
    holds exactly the elements [xs], in order.  Each routine is proved to
    implement the operation on [xs] its comment promises. *)
From S2P Require Import Prelude.

Abbreviation loc := positive.
Abbreviation ptr := (option loc).
Abbreviation NULL := (@None loc).

Record list_elem : Set := mk_elem { prev : ptr; next : ptr }.
Record klist : Set := mk_list { head : loc; tail : loc }.
Abbreviation heap := (gmap loc list_elem).

(** Loop bound: no loop of the library visits more elements than there are
    list nodes in memory. *)
Definition fuel_of (h : heap) : nat := S (size h).

Definition load (p : ptr) : cmd heap list_elem := λ h,
  match p with
  | None => Err BadPtr
  | Some x => match h !! x with Some e => Ret (e, h) | None => Err BadPtr end
  end.

Definition get_prev (p : ptr) : cmd heap ptr := e ← load p; mret (prev e).
Definition get_next (p : ptr) : cmd heap ptr := e ← load p; mret (next e).

Definition store (p : ptr) (e : list_elem) : cmd heap unit := λ h,
  match p with None => Err BadPtr | Some x => Ret (tt, <[x := e]> h) end.

Definition set_prev (p v : ptr) : cmd heap unit :=
  e ← load p; store p (mk_elem v (next e)).
Definition set_next (p v : ptr) : cmd heap unit :=
  e ← load p; store p (mk_elem (prev e) v).

Definition isnull (p : ptr) : bool := match p with None => true | Some _ => false end.
Definition ptr_eqb (p q : ptr) : bool := bool_decide (p = q).

(** Kinds of nodes. *)
Definition is_head (elem : ptr) : cmd heap bool :=
  match elem with
  | None => mret false
  | Some _ => e ← load elem; mret (isnull (prev e) && negb (isnull (next e)))
  end.

Definition is_interior (elem : ptr) : cmd heap bool :=
  match elem with
  | None => mret false
  | Some _ => e ← load elem; mret (negb (isnull (prev e)) && negb (isnull (next e)))
  end.

Definition is_tail (elem : ptr) : cmd heap bool :=
  match elem with
  | None => mret false
  | Some _ => e ← load elem; mret (negb (isnull (prev e)) && isnull (next e))
  end.

(** [is_x (e) || is_y (e)], evaluated left to right. *)
Definition c_or (a b : cmd heap bool) : cmd heap bool :=
  x ← a; if (x : bool) then mret true else b.

Definition list_init (l : klist) : cmd heap unit :=
  set_prev (Some (head l)) NULL;;
  set_next (Some (head l)) (Some (tail l));;
  set_prev (Some (tail l)) (Some (head l));;
  set_next (Some (tail l)) NULL.

Definition list_begin (l : klist) : cmd heap ptr := get_next (Some (head l)).

Definition list_next (elem : ptr) : cmd heap ptr :=
  b ← c_or (is_head elem) (is_interior elem);
  ASSERT b;;
  get_next elem.

Definition list_end (l : klist) : ptr := Some (tail l).

Definition list_rbegin (l : klist) : cmd heap ptr := get_prev (Some (tail l)).

Definition list_prev (elem : ptr) : cmd heap ptr :=
  b ← c_or (is_interior elem) (is_tail elem);
  ASSERT b;;
  get_prev elem.

Definition list_rend (l : klist) : ptr := Some (head l).
Definition list_head (l : klist) : ptr := Some (head l).
Definition list_tail (l : klist) : ptr := Some (tail l).

Definition list_insert (before elem : ptr) : cmd heap unit :=
  b ← c_or (is_interior before) (is_tail before);
  ASSERT b;;
  ASSERT (negb (isnull elem));;
  bp ← get_prev before;
  set_prev elem bp;;
  set_next elem before;;
  bp' ← get_prev before;
  set_next bp' elem;;
  set_prev before elem.

Definition list_splice (before first last : ptr) : cmd heap unit :=
  b ← c_or (is_interior before) (is_tail before);
  ASSERT b;;
  if ptr_eqb first last then mret tt else
  last ← list_prev last;
  i1 ← is_interior first;
  ASSERT i1;;
  i2 ← is_interior last;
  ASSERT i2;;
  (* Cleanly remove FIRST...LAST from its current list. *)
  fp ← get_prev first;
  ln ← get_next last;
  set_next fp ln;;
  ln' ← get_next last;
  fp' ← get_prev first;
  set_prev ln' fp';;
  (* Splice FIRST...LAST into new list. *)
  bp ← get_prev before;
  set_prev first bp;;
  set_next last before;;
  bp' ← get_prev before;
  set_next bp' first;;
  set_prev before last.

Definition list_push_front (l : klist) (elem : ptr) : cmd heap unit :=
  b ← list_begin l; list_insert b elem.

Definition list_push_back (l : klist) (elem : ptr) : cmd heap unit :=
  list_insert (list_end l) elem.

Definition list_remove (elem : ptr) : cmd heap ptr :=
  b ← is_interior elem;
  ASSERT b;;
  p ← get_prev elem;
  n ← get_next elem;
  set_next p n;;
  n' ← get_next elem;
  p' ← get_prev elem;
  set_prev n' p';;
  get_next elem.

Definition list_empty (l : klist) : cmd heap bool :=
  b ← list_begin l; mret (ptr_eqb b (list_end l)).

Definition list_front (l : klist) : cmd heap ptr :=
  e ← list_empty l; ASSERT (negb e);; get_next (Some (head l)).

Definition list_back (l : klist) : cmd heap ptr :=
  e ← list_empty l; ASSERT (negb e);; get_prev (Some (tail l)).

Definition list_pop_front (l : klist) : cmd heap ptr :=
  front ← list_front l; list_remove front;; mret front.

Definition list_pop_back (l : klist) : cmd heap ptr :=
  back ← list_back l; list_remove back;; mret back.

(** [for (e = e; e != end; e = list_next (e)) cnt++]. *)
Fixpoint list_size_loop (fuel : nat) (e stop : ptr) (cnt : nat) : cmd heap nat :=
  match fuel with
  | O => throw NoFuel
  | S fuel' =>
    if ptr_eqb e stop then mret cnt else
    n ← list_next e; list_size_loop fuel' n stop (S cnt)
  end.

Definition list_size (l : klist) : cmd heap nat :=
  fuel ← gets fuel_of;
  b ← list_begin l;
  list_size_loop fuel b (list_end l) 0.

(** [swap (&e->prev, &e->next)] on one node. *)
Definition swap_links (e : ptr) : cmd heap unit :=
  n ← load e; store e (mk_elem (next n) (prev n)).

Fixpoint list_reverse_loop (fuel : nat) (e stop : ptr) : cmd heap unit :=
  match fuel with
  | O => throw NoFuel
  | S fuel' =>
    if ptr_eqb e stop then mret tt else
    swap_links e;;
    p ← get_prev e;
    list_reverse_loop fuel' p stop
  end.

Definition list_reverse (l : klist) : cmd heap unit :=
  e ← list_empty l;
  if (e : bool) then mret tt else
  fuel ← gets fuel_of;
  b ← list_begin l;
  list_reverse_loop fuel b (list_end l);;
  (* swap (&list->head.next, &list->tail.prev) *)
  hn ← get_next (Some (head l));
  tp ← get_prev (Some (tail l));
  set_next (Some (head l)) tp;;
  set_prev (Some (tail l)) hn;;
  (* swap (&list->head.next->prev, &list->tail.prev->next) *)
  hn' ← get_next (Some (head l));
  tp' ← get_prev (Some (tail l));
  a ← get_prev hn';
  b ← get_next tp';
  set_prev hn' b;;
  set_next tp' a.

(** Routines that order elements take the caller's comparison. *)
Section ordered.
Variable less : loc → loc → bool.

(** [less (a, b, aux)] on pointers. *)
Definition call_less (a b : ptr) : cmd heap bool :=
  match a, b with
  | Some x, Some y => mret (less x y)
  | _, _ => throw BadPtr
  end.

Fixpoint is_sorted_loop (fuel : nat) (a b : ptr) : cmd heap bool :=
  match fuel with
  | O => throw NoFuel
  | S fuel' =>
    a ← list_next a;
    if ptr_eqb a b then mret true else
    p ← list_prev a;
    lt ← call_less a p;
    if (lt : bool) then mret false else is_sorted_loop fuel' a b
  end.

Definition is_sorted (a b : ptr) : cmd heap bool :=
  fuel ← gets fuel_of;
  if ptr_eqb a b then mret true else is_sorted_loop fuel a b.

Fixpoint find_end_loop (fuel : nat) (a b : ptr) : cmd heap ptr :=
  match fuel with
  | O => throw NoFuel
  | S fuel' =>
    a ← list_next a;
    if ptr_eqb a b then mret a else
    p ← list_prev a;
    lt ← call_less a p;
    if (lt : bool) then mret a else find_end_loop fuel' a b
  end.

Definition find_end_of_run (a b : ptr) : cmd heap ptr :=
  fuel ← gets fuel_of;
  ASSERT (negb (isnull a));;
  ASSERT (negb (isnull b));;
  ASSERT (negb (ptr_eqb a b));;
  find_end_loop fuel a b.

Fixpoint merge_loop (fuel : nat) (a0 a1b0 b1 : ptr) : cmd heap unit :=
  match fuel with
  | O => throw NoFuel
  | S fuel' =>
    if ptr_eqb a0 a1b0 || ptr_eqb a1b0 b1 then mret tt else
    lt ← call_less a1b0 a0;
    if (lt : bool) then
      a1b0 ← list_next a1b0;
      p ← list_prev a1b0;
      list_splice a0 p a1b0;;
      merge_loop fuel' a0 a1b0 b1
    else
      a0 ← list_next a0;
      merge_loop fuel' a0 a1b0 b1
  end.

Definition inplace_merge (a0 a1b0 b1 : ptr) : cmd heap unit :=
  fuel ← gets fuel_of;
  ASSERT (negb (isnull a0));;
  ASSERT (negb (isnull a1b0));;
  ASSERT (negb (isnull b1));;
  s1 ← is_sorted a0 a1b0;
  ASSERT s1;;
  s2 ← is_sorted a1b0 b1;
  ASSERT s2;;
  merge_loop fuel a0 a1b0 b1.

(** One pass: merge adjacent runs, returning the number of output runs. *)
Fixpoint sort_pass (fuel : nat) (l : klist) (a0 : ptr) (cnt : nat) : cmd heap nat :=
  match fuel with
  | O => throw NoFuel
  | S fuel' =>
    if ptr_eqb a0 (list_end l) then mret cnt else
    a1b0 ← find_end_of_run a0 (list_end l);
    if ptr_eqb a1b0 (list_end l) then mret (S cnt) else
    b1 ← find_end_of_run a1b0 (list_end l);
    inplace_merge a0 a1b0 b1;;
    sort_pass fuel' l b1 (S cnt)
  end.

(** [do ... while (output_run_cnt > 1)]. *)
Fixpoint sort_loop (fuel pass_fuel : nat) (l : klist) : cmd heap unit :=
  match fuel with
  | O => throw NoFuel
  | S fuel' =>
    a0 ← list_begin l;
    cnt ← sort_pass pass_fuel l a0 0;
    if (1 <? cnt)%nat then sort_loop fuel' pass_fuel l else mret tt
  end.

Definition list_sort (l : klist) : cmd heap unit :=
  fuel ← gets fuel_of;
  sort_loop fuel fuel l;;
  b ← list_begin l;
  s ← is_sorted b (list_end l);
  ASSERT s.

(** [for (; e != end; e = list_next (e)) if (less (elem, e)) break;]. *)
Fixpoint insert_pos_loop (fuel : nat) (elem e stop : ptr) : cmd heap ptr :=
  match fuel with
  | O => throw NoFuel
  | S fuel' =>
    if ptr_eqb e stop then mret e else
    lt ← call_less elem e;
    if (lt : bool) then mret e else
    n ← list_next e;
    insert_pos_loop fuel' elem n stop
  end.

Definition list_insert_ordered (l : klist) (elem : ptr) : cmd heap unit :=
  fuel ← gets fuel_of;
  ASSERT (negb (isnull elem));;
  b ← list_begin l;
  e ← insert_pos_loop fuel elem b (list_end l);
  list_insert e elem.

Fixpoint list_unique_loop (fuel : nat) (l : klist) (duplicates : option klist)
    (elem : ptr) : cmd heap unit :=
  match fuel with
  | O => throw NoFuel
  | S fuel' =>
    nxt ← list_next elem;
    if ptr_eqb nxt (list_end l) then mret tt else
    lt1 ← call_less elem nxt;
    lt2 ← (if (lt1 : bool) then mret true else call_less nxt elem);
    if negb lt1 && negb lt2 then
      list_remove nxt;;
      match duplicates with
      | Some d => list_push_back d nxt
      | None => mret tt
      end;;
      list_unique_loop fuel' l duplicates elem
    else list_unique_loop fuel' l duplicates nxt
  end.

Definition list_unique (l : klist) (duplicates : option klist) : cmd heap unit :=
  fuel ← gets fuel_of;
  e ← list_empty l;
  if (e : bool) then mret tt else
  b ← list_begin l;
  list_unique_loop fuel l duplicates b.

Fixpoint list_max_loop (fuel : nat) (mx e stop : ptr) : cmd heap ptr :=
  match fuel with
  | O => throw NoFuel
  | S fuel' =>
    if ptr_eqb e stop then mret mx else
    lt ← call_less mx e;
    n ← list_next e;
    list_max_loop fuel' (if (lt : bool) then e else mx) n stop
  end.

Definition list_max (l : klist) : cmd heap ptr :=
  fuel ← gets fuel_of;
  mx ← list_begin l;
  if ptr_eqb mx (list_end l) then mret mx else
  e ← list_next mx;
  list_max_loop fuel mx e (list_end l).

Fixpoint list_min_loop (fuel : nat) (mn e stop : ptr) : cmd heap ptr :=
  match fuel with
  | O => throw NoFuel
  | S fuel' =>
    if ptr_eqb e stop then mret mn else
    lt ← call_less e mn;
    n ← list_next e;
    list_min_loop fuel' (if (lt : bool) then e else mn) n stop
  end.

Definition list_min (l : klist) : cmd heap ptr :=
  fuel ← gets fuel_of;
  mn ← list_begin l;
  if ptr_eqb mn (list_end l) then mret mn else
  e ← list_next mn;
  list_min_loop fuel mn e (list_end l).
End ordered.

(** * Abstraction: what a list holds *)

(** The first element of [ys], or [q] when there is none; the last element
    of [xs], or [p] when there is none. *)
Definition hd_or (q : ptr) (ys : list loc) : ptr :=
  match ys with [] => q | y :: _ => Some y end.
Fixpoint last_or (p : ptr) (xs : list loc) : ptr :=
  match xs with [] => p | x :: xs' => last_or (Some x) xs' end.

(** [seg h p xs q]: the nodes [xs] are linked in order, the first one's
    [prev] is [p] and the last one's [next] is [q]. *)
Fixpoint seg (h : heap) (p : ptr) (xs : list loc) (q : ptr) : Prop :=
  match xs with
  | [] => True
  | x :: ys => h !! x = Some (mk_elem p (hd_or q ys)) ∧ seg h (Some x) ys q
  end.

Definition nodes (l : klist) (xs : list loc) : list loc := head l :: xs ++ [tail l].

Definition is_list (h : heap) (l : klist) (xs : list loc) : Prop :=
  seg h NULL (nodes l xs) NULL ∧ NoDup (nodes l xs).

(** A routine changes nothing outside the nodes [S] and allocates nothing. *)
Definition frame (S : list loc) (h h' : heap) : Prop :=
  dom h' = dom h ∧ ∀ x, x ∉ S → h' !! x = h !! x.

(** ** Segment lemmas *)
Lemma hd_or_app q xs ys : hd_or q (xs ++ ys) = hd_or (hd_or q ys) xs.
Proof. by destruct xs. Qed.

Lemma last_or_app p xs ys : last_or p (xs ++ ys) = last_or (last_or p xs) ys.
Proof. revert p; induction xs as [|x xs IH]; intros p; simpl; auto. Qed.

Lemma isnull_hd_or q xs : isnull (hd_or (Some q) xs) = false.
Proof. by destruct xs. Qed.

Lemma isnull_last_or q xs : isnull (last_or (Some q) xs) = false.
Proof. revert q; induction xs as [|x xs IH]; intros q; simpl; auto. Qed.

Lemma last_or_Some x xs : ∃ ys y, x :: xs = ys ++ [y] ∧ last_or (Some x) xs = Some y.
Proof.
  revert x; induction xs as [|z xs IH]; intros x; simpl.
  - by exists [], x.
  - destruct (IH z) as (ys & y & E & L). exists (x :: ys), y. by rewrite E.
Qed.

Lemma seg_app h p xs ys q :
  seg h p (xs ++ ys) q ↔ seg h p xs (hd_or q ys) ∧ seg h (last_or p xs) ys q.
Proof.
  revert p; induction xs as [|x xs IH]; intros p; simpl; [tauto|].
  rewrite IH, hd_or_app. tauto.
Qed.

Lemma seg_cons h p x xs q :
  seg h p (x :: xs) q ↔ h !! x = Some (mk_elem p (hd_or q xs)) ∧ seg h (Some x) xs q.
Proof. done. Qed.

Lemma seg_insert h p xs q x e : x ∉ xs → seg (<[x:=e]> h) p xs q ↔ seg h p xs q.
Proof.
  revert p; induction xs as [|y xs IH]; intros p Hx; simpl; [done|].
  apply not_elem_of_cons in Hx as [Hne Hx]. rewrite IH by done.
  by rewrite lookup_insert_ne by done.
Qed.

Lemma seg_lookup h p xs q x : x ∈ xs → seg h p xs q → is_Some (h !! x).
Proof.
  revert p; induction xs as [|y xs IH]; intros p Hx; simpl.
  - by apply not_elem_of_nil in Hx.
  - intros [H1 H2]. apply elem_of_cons in Hx as [->|Hx]; [by rewrite H1|eauto].
Qed.

Lemma seg_frame S h h' p xs q :
  frame S h h' → (∀ x, x ∈ xs → x ∉ S) → seg h p xs q → seg h' p xs q.
Proof.
  intros [_ Hf]. revert p; induction xs as [|y xs IH]; intros p Hd; simpl; [done|].
  intros [H1 H2]. split.
  - rewrite Hf; [done|]. apply Hd; set_solver.
  - apply IH; [|done]. intros x Hx. apply Hd. set_solver.
Qed.

(** ** Frames *)
Lemma frame_refl S h : frame S h h.
Proof. done. Qed.

Lemma frame_trans S h1 h2 h3 : frame S h1 h2 → frame S h2 h3 → frame S h1 h3.
Proof. intros [D1 F1] [D2 F2]. split; [congruence|]. intros x Hx. by rewrite F2, F1. Qed.

Lemma frame_weaken S T h h' : S ⊆ T → frame S h h' → frame T h h'.
Proof. intros Hs [D F]. split; [done|]. intros x Hx. apply F. set_solver. Qed.

Lemma frame_insert S h h' x e :
  x ∈ S → is_Some (h' !! x) → frame S h h' → frame S h (<[x:=e]> h').
Proof.
  intros Hx Hs [D F]. split.
  - rewrite dom_insert_L, <- D. apply elem_of_dom in Hs. set_solver.
  - intros y Hy. rewrite lookup_insert_ne by set_solver. by apply F.
Qed.

(** The number of nodes a list occupies bounds its length. *)
Lemma nodes_fuel h l xs : is_list h l xs → length xs + 2 ≤ size h.
Proof.
  intros [Hs Hd]. unfold nodes in *.
  assert (list_to_set (head l :: xs ++ [tail l]) ⊆ dom h) as Hsub.
  { intros x. rewrite elem_of_list_to_set, elem_of_dom. intros Hx.
    by eapply seg_lookup. }
  apply subseteq_size in Hsub. rewrite size_list_to_set, size_dom in Hsub by done.
  simpl in Hsub. rewrite length_app in Hsub. simpl in Hsub. lia.
Qed.

(** ** Automation: evaluate straight-line pointer code on known nodes *)
Create HintDb klist.

Ltac nodup_hyps :=
  repeat match goal with
  | H : NoDup (_ ++ _) |- _ => apply NoDup_app in H as (?&?&?)
  | H : NoDup (_ :: _) |- _ => apply NoDup_cons in H as (?&?)
  end.

Ltac nodup :=
  unfold nodes in *; nodup_hyps; rewrite ?NoDup_app, ?NoDup_cons; set_solver.

(** Turn [NoDup] of a chain, given the same nodes in another order with the
    single nodes first, into disequalities and non-memberships. *)
Ltac nodup_facts :=
  repeat match goal with
  | H : NoDup (_ :: _) |- _ => apply NoDup_cons in H as [? ?]
  | H : _ ∉ _ :: _ |- _ => apply not_elem_of_cons in H as [? ?]
  | H : _ ∉ _ ++ _ |- _ => apply not_elem_of_app in H as [? ?]
  end.

Ltac nodup_perm H xs :=
  let Hp := fresh in
  assert (NoDup xs) as Hp
    by (revert H; apply NoDup_Permutation_proper; simpl; solve_Permutation);
  clear H; nodup_facts.

Ltac elem := clear; repeat first [rewrite elem_of_app | rewrite elem_of_cons]; tauto.

(** Prove [frame] of a heap built by inserting at nodes of the frame. *)
Ltac frames :=
  repeat (apply frame_insert; [elem | by simplify_map_eq |]); apply frame_refl.

Ltac runsteps :=
  repeat (cbn [mbind mret cmd_bind cmd_ret load store get_prev get_next set_prev set_next
               is_head is_interior is_tail c_or ASSERT gets modify isnull negb andb orb
               prev next hd_or];
          unfold c_or, is_head, is_interior, is_tail, get_prev, get_next, set_prev, set_next,
                 load, store, ASSERT, mbind, mret, cmd_bind, cmd_ret;
          simplify_map_eq; rewrite ?isnull_hd_or, ?isnull_last_or).

(** ** Insertion and removal on raw chains *)
Definition insert_heap (h : heap) (p e b : loc) (pp nb : ptr) : heap :=
  <[b := mk_elem (Some e) nb]> (<[p := mk_elem pp (Some e)]>
    (<[e := mk_elem (Some p) (Some b)]> h)).

Lemma list_insert_run h p e b pp nb :
  h !! p = Some (mk_elem pp (Some b)) → h !! b = Some (mk_elem (Some p) nb) →
  is_Some (h !! e) → e ≠ p → e ≠ b → p ≠ b →
  list_insert (Some b) (Some e) h = Ret (tt, insert_heap h p e b pp nb).
Proof.
  intros Hp Hb [ee He] ???. unfold list_insert, insert_heap. destruct nb; runsteps.
  all: by rewrite ?insert_insert_eq.
Qed.

Lemma seg_do_insert h L p e b R :
  seg h NULL (L ++ p :: b :: R) NULL → NoDup (L ++ p :: b :: R) →
  e ∉ L ++ p :: b :: R → is_Some (h !! e) →
  ∃ h', list_insert (Some b) (Some e) h = Ret (tt, h')
      ∧ seg h' NULL (L ++ p :: e :: b :: R) NULL
      ∧ frame (L ++ p :: e :: b :: R) h h'.
Proof.
  intros Hs Hd He Hdom. rewrite seg_app, !seg_cons in Hs. destruct Hs as (HL & Hp & Hb & HR).
  exists (insert_heap h p e b (last_or NULL L) (hd_or NULL R)).
  assert (e ≠ p ∧ e ≠ b ∧ p ≠ b ∧ p ∉ L ∧ b ∉ L ∧ e ∉ L ∧ p ∉ R ∧ b ∉ R ∧ e ∉ R)
    as (?&?&?&?&?&?&?&?&?) by nodup.
  split_and!.
  - by apply list_insert_run.
  - rewrite seg_app, !seg_cons. unfold insert_heap. rewrite !seg_insert by done.
    simpl. by simplify_map_eq.
  - unfold insert_heap. frames.
Qed.

Definition remove_heap (h : heap) (p n : loc) (pp nn : ptr) : heap :=
  <[n := mk_elem (Some p) nn]> (<[p := mk_elem pp (Some n)]> h).

Lemma list_remove_run h p e n pp nn :
  h !! p = Some (mk_elem pp (Some e)) → h !! e = Some (mk_elem (Some p) (Some n)) →
  h !! n = Some (mk_elem (Some e) nn) → e ≠ p → e ≠ n → p ≠ n →
  list_remove (Some e) h = Ret (Some n, remove_heap h p n pp nn).
Proof.
  intros Hp He Hn ???. unfold list_remove, remove_heap. by runsteps.
Qed.

Lemma seg_do_remove h L p e n R :
  seg h NULL (L ++ p :: e :: n :: R) NULL → NoDup (L ++ p :: e :: n :: R) →
  ∃ h', list_remove (Some e) h = Ret (Some n, h')
      ∧ seg h' NULL (L ++ p :: n :: R) NULL
      ∧ h' !! e = h !! e
      ∧ frame (L ++ p :: n :: R) h h'.
Proof.
  intros Hs Hd. rewrite seg_app, !seg_cons in Hs. destruct Hs as (HL & Hp & He & Hn & HR).
  exists (remove_heap h p n (last_or NULL L) (hd_or NULL R)).
  assert (e ≠ p ∧ e ≠ n ∧ p ≠ n ∧ p ∉ L ∧ n ∉ L ∧ p ∉ R ∧ n ∉ R)
    as (?&?&?&?&?&?&?) by nodup.
  split_and!.
  - by apply list_remove_run.
  - rewrite seg_app, !seg_cons. unfold remove_heap. rewrite !seg_insert by done.
    simpl. by simplify_map_eq.
  - unfold remove_heap. by simplify_map_eq.
  - unfold remove_heap. frames.
Qed.

(** Split a list at a cursor: the node before it and the node after it. *)
Lemma nodes_split l xs ys : ∃ L p b R,
  nodes l (xs ++ ys) = L ++ p :: b :: R ∧ head l :: xs = L ++ [p] ∧
  ys ++ [tail l] = b :: R ∧ hd_or (Some (tail l)) ys = Some b ∧
  last_or (Some (head l)) xs = Some p.
Proof.
  destruct (last_or_Some (head l) xs) as (L & p & E1 & E2).
  destruct ys as [|y ys].
  - exists L, p, (tail l), []. unfold nodes. rewrite app_nil_r, app_comm_cons, E1.
    by rewrite <- app_assoc.
  - exists L, p, y, (ys ++ [tail l]). unfold nodes.
    rewrite <- app_assoc, app_comm_cons, E1. by rewrite <- app_assoc.
Qed.

(** ** The list routines on [is_list] *)
Section list_ops.
Context (h : heap) (l : klist).

Lemma list_insert_list xs ys e :
  is_list h l (xs ++ ys) → e ∉ nodes l (xs ++ ys) → is_Some (h !! e) →
  ∃ h', list_insert (hd_or (Some (tail l)) ys) (Some e) h = Ret (tt, h')
      ∧ is_list h' l (xs ++ e :: ys) ∧ frame (nodes l (xs ++ e :: ys)) h h'.
Proof.
  intros [Hs Hd] He Hdom.
  destruct (nodes_split l xs ys) as (L & p & b & R & E & E1 & E2 & E3 & _).
  assert (nodes l (xs ++ e :: ys) = L ++ p :: e :: b :: R) as E'.
  { unfold nodes. rewrite <- app_assoc. simpl. rewrite E2, app_comm_cons, E1.
    by rewrite <- app_assoc. }
  rewrite E3. unfold is_list. rewrite E, E' in *.
  destruct (seg_do_insert h L p e b R) as (h' & H1 & H2 & H3); try done.
  exists h'. split_and!; try done. nodup.
Qed.

Lemma list_remove_list xs e ys :
  is_list h l (xs ++ e :: ys) →
  ∃ h', list_remove (Some e) h = Ret (hd_or (Some (tail l)) ys, h')
      ∧ is_list h' l (xs ++ ys) ∧ h' !! e = h !! e ∧ e ∉ nodes l (xs ++ ys)
      ∧ frame (nodes l (xs ++ ys)) h h'.
Proof.
  intros [Hs Hd].
  destruct (nodes_split l xs ys) as (L & p & b & R & E & E1 & E2 & E3 & _).
  assert (nodes l (xs ++ e :: ys) = L ++ p :: e :: b :: R) as E'.
  { unfold nodes. rewrite <- app_assoc. simpl. rewrite E2, app_comm_cons, E1.
    by rewrite <- app_assoc. }
  rewrite E3. unfold is_list. rewrite E, E' in *.
  destruct (seg_do_remove h L p e b R) as (h' & H1 & H2 & H3 & H4); try done.
  exists h'. split_and!; try done; nodup.
Qed.

Lemma list_begin_list xs :
  is_list h l xs → list_begin l h = Ret (hd_or (Some (tail l)) xs, h).
Proof.
  intros [[Hh _] _]. unfold list_begin. runsteps. by destruct xs.
Qed.

Lemma list_empty_list xs :
  is_list h l xs → list_empty l h = Ret (bool_decide (xs = []), h).
Proof.
  intros Hl. unfold list_empty. rewrite (bind_Ret _ _ _ _ _ (list_begin_list xs Hl)).
  unfold mret, cmd_ret, ptr_eqb, list_end. destruct xs as [|x xs]; simpl.
  - by rewrite !bool_decide_true by done.
  - rewrite !bool_decide_false; try done.
    destruct Hl as [_ Hd]. unfold nodes in Hd. intros [= ->]. nodup.
Qed.

Lemma list_next_list xs x ys :
  is_list h l (xs ++ x :: ys) →
  list_next (Some x) h = Ret (hd_or (Some (tail l)) ys, h).
Proof.
  intros [Hs Hd]. destruct (nodes_split l xs (x :: ys)) as (L&p&b&R&E&E1&E2&E3&_).
  injection E2 as <- <-. rewrite E, seg_app, !seg_cons in Hs.
  destruct Hs as (_&_&Hx&_). unfold list_next. runsteps.
  destruct ys; by runsteps.
Qed.

Lemma list_next_head xs :
  is_list h l xs → list_next (Some (head l)) h = Ret (hd_or (Some (tail l)) xs, h).
Proof.
  intros [Hs Hd]. unfold nodes in Hs. rewrite seg_cons in Hs. destruct Hs as [Hx _].
  unfold list_next. destruct xs; by runsteps.
Qed.

(** The element before the cursor, from the cursor. *)
Lemma list_prev_list xs x ys :
  is_list h l (xs ++ x :: ys) →
  list_prev (hd_or (Some (tail l)) ys) h = Ret (Some x, h).
Proof.
  intros [Hs Hd]. destruct ys as [|y ys]; simpl hd_or.
  - unfold nodes in Hs. rewrite <- app_assoc in Hs.
    rewrite app_comm_cons, seg_app in Hs. simpl in Hs. destruct Hs as (_&_&Ht&_).
    unfold list_prev. by runsteps.
  - unfold nodes in Hs. rewrite <- app_assoc, app_comm_cons, seg_app in Hs. simpl in Hs.
    destruct Hs as (_&_&Hy&_). unfold list_prev.
    destruct ys; by runsteps.
Qed.
End list_ops.

(** The cursor has reached the tail exactly when nothing is left. *)
Lemma cursor_end h l xs ys :
  is_list h l (xs ++ ys) →
  ptr_eqb (hd_or (Some (tail l)) ys) (list_end l) = bool_decide (ys = []).
Proof.
  intros [_ Hd]. unfold ptr_eqb, list_end. destruct ys as [|y ys]; simpl.
  - by rewrite !bool_decide_true by done.
  - rewrite !bool_decide_false; try done. intros [= ->]. nodup.
Qed.

Lemma list_push_front_list h l xs e :
  is_list h l xs → e ∉ nodes l xs → is_Some (h !! e) →
  ∃ h', list_push_front l (Some e) h = Ret (tt, h')
      ∧ is_list h' l (e :: xs) ∧ frame (nodes l (e :: xs)) h h'.
Proof.
  intros Hl He Hdom. unfold list_push_front.
  rewrite (bind_Ret _ _ _ _ _ (list_begin_list h l xs Hl)).
  by apply (list_insert_list h l [] xs e).
Qed.

Lemma list_push_back_list h l xs e :
  is_list h l xs → e ∉ nodes l xs → is_Some (h !! e) →
  ∃ h', list_push_back l (Some e) h = Ret (tt, h')
      ∧ is_list h' l (xs ++ [e]) ∧ frame (nodes l (xs ++ [e])) h h'.
Proof.
  intros Hl He Hdom. apply (list_insert_list h l xs [] e); by rewrite ?app_nil_r.
Qed.

Lemma list_pop_front_list h l x xs :
  is_list h l (x :: xs) →
  ∃ h', list_pop_front l h = Ret (Some x, h')
      ∧ is_list h' l xs ∧ h' !! x = h !! x ∧ x ∉ nodes l xs ∧ frame (nodes l xs) h h'.
Proof.
  intros Hl. destruct (list_remove_list h l [] x xs Hl) as (h' & H1 & H2 & H3 & H4 & H5).
  exists h'. split_and!; try done. unfold list_pop_front, list_front.
  rewrite bind_assoc, (bind_Ret _ _ _ _ _ (list_empty_list h l _ Hl)).
  rewrite bool_decide_false by done. unfold ASSERT; simpl.
  pose proof (list_begin_list h l _ Hl) as Hb. unfold list_begin in Hb.
  unfold mbind, cmd_bind. rewrite Hb. simpl. by rewrite H1.
Qed.

Lemma list_pop_back_list h l xs x :
  is_list h l (xs ++ [x]) →
  ∃ h', list_pop_back l h = Ret (Some x, h')
      ∧ is_list h' l xs ∧ h' !! x = h !! x ∧ x ∉ nodes l xs ∧ frame (nodes l xs) h h'.
Proof.
  intros Hl. destruct (list_remove_list h l xs x [] Hl) as (h' & H1 & H2 & H3 & H4 & H5).
  rewrite app_nil_r in *. exists h'. split_and!; try done.
  unfold list_pop_back, list_back.
  rewrite bind_assoc, (bind_Ret _ _ _ _ _ (list_empty_list h l _ Hl)).
  rewrite bool_decide_false by (by destruct xs). unfold ASSERT; simpl.
  assert (get_prev (Some (tail l)) h = Ret (Some x, h)) as Hb.
  { destruct Hl as [Hs _]. unfold nodes in Hs. rewrite <- app_assoc, app_comm_cons, seg_app in Hs.
    destruct Hs as (_&_&Ht&_). by runsteps. }
  unfold mbind, cmd_bind. rewrite Hb. simpl. by rewrite H1.
Qed.

Lemma list_size_loop_list h l xs ys fuel c :
  is_list h l (xs ++ ys) → length ys < fuel →
  list_size_loop fuel (hd_or (Some (tail l)) ys) (list_end l) c h = Ret (c + length ys, h).
Proof.
  revert xs fuel c. induction ys as [|y ys IH]; intros xs [|fuel] c Hl Hf; simpl in Hf; try lia.
  all: cbn [list_size_loop]; rewrite (cursor_end h l xs) by done.
  - rewrite bool_decide_true by done. unfold mret, cmd_ret. do 2 f_equal. simpl. lia.
  - rewrite bool_decide_false by done. simpl hd_or.
    rewrite (bind_Ret _ _ _ _ _ (list_next_list h l xs y ys Hl)).
    rewrite (IH (xs ++ [y])); [|by rewrite <- app_assoc|lia]. do 2 f_equal. simpl. lia.
Qed.

Lemma list_size_list h l xs : is_list h l xs → list_size l h = Ret (length xs, h).
Proof.
  intros Hl. unfold list_size. rewrite (bind_Ret _ _ _ _ _ (gets_run _ _)).
  rewrite (bind_Ret _ _ _ _ _ (list_begin_list h l xs Hl)).
  apply nodes_fuel in Hl as Hf. unfold fuel_of.
  by rewrite (list_size_loop_list h l [] xs) by (done || lia).
Qed.

(** ** Reversal *)
Lemma last_or_reverse q ys : last_or q (reverse ys) = hd_or q ys.
Proof. destruct ys as [|y ys]; [done|]. by rewrite reverse_cons, last_or_app. Qed.

Lemma list_reverse_loop_seg h p ys stop fuel :
  seg h p ys (Some stop) → NoDup ys → stop ∉ ys → length ys < fuel →
  ∃ h', list_reverse_loop fuel (hd_or (Some stop) ys) (Some stop) h = Ret (tt, h')
      ∧ seg h' (Some stop) (reverse ys) p ∧ frame ys h h'.
Proof.
  revert p h fuel. induction ys as [|y ys IH]; intros p h [|fuel] Hs Hd Hn Hf; simpl in Hf; try lia.
  - exists h. split_and!; try done. cbn [list_reverse_loop hd_or]. unfold ptr_eqb.
    by rewrite bool_decide_true.
  - rewrite seg_cons in Hs. destruct Hs as [Hy Hs].
    apply NoDup_cons in Hd as [Hny Hd]. apply not_elem_of_cons in Hn as [Hne Hn].
    set (h1 := <[y := mk_elem (hd_or (Some stop) ys) p]> h).
    destruct (IH (Some y) h1 fuel) as (h' & H1 & H2 & H3); try done; [by apply seg_insert|lia|].
    exists h'. split_and!.
    + cbn [list_reverse_loop hd_or]. unfold ptr_eqb at 1. rewrite bool_decide_false by congruence.
      assert (swap_links (Some y) h = Ret (tt, h1)) as E1 by (unfold swap_links; by runsteps).
      rewrite (bind_Ret _ _ _ _ _ E1).
      assert (get_prev (Some y) h1 = Ret (hd_or (Some stop) ys, h1)) as E2
        by (unfold h1; by runsteps).
      by rewrite (bind_Ret _ _ _ _ _ E2).
    + rewrite reverse_cons, seg_app. split; [done|]. rewrite seg_cons. split; [|done].
      destruct H3 as [_ H3]. rewrite H3, last_or_reverse by done. unfold h1.
      by simplify_map_eq.
    + apply frame_trans with h1.
      * apply frame_insert; [elem|by rewrite Hy|apply frame_refl].
      * eapply frame_weaken; [|done]. set_solver.
Qed.

(** The final swaps of [list_reverse], once the interior is reversed. *)
Definition reverse_ends (l : klist) : cmd heap unit :=
  hn ← get_next (Some (head l));
  tp ← get_prev (Some (tail l));
  set_next (Some (head l)) tp;;
  set_prev (Some (tail l)) hn;;
  hn' ← get_next (Some (head l));
  tp' ← get_prev (Some (tail l));
  a ← get_prev hn';
  b ← get_next tp';
  set_prev hn' b;;
  set_next tp' a.

Lemma reverse_ends_run h l x xs :
  h !! head l = Some (mk_elem NULL (Some x)) →
  h !! tail l = Some (mk_elem (last_or (Some x) xs) NULL) →
  seg h (Some (tail l)) (reverse (x :: xs)) (Some (head l)) →
  NoDup (nodes l (x :: xs)) →
  ∃ h', reverse_ends l h = Ret (tt, h') ∧ seg h' NULL (nodes l (reverse (x :: xs))) NULL
      ∧ frame (nodes l (x :: xs)) h h'.
Proof.
  intros Hh Ht Hs Hd. unfold reverse_ends.
  destruct xs as [|z M _] using rev_ind.
  - rewrite reverse_singleton in *. destruct Hs as [Hx _]. simpl in Hx, Ht.
    assert (head l ≠ x ∧ x ≠ tail l ∧ head l ≠ tail l) as (?&?&?) by nodup.
    eexists. split; [by runsteps|]. split.
    + unfold nodes; simpl. by simplify_map_eq.
    + unfold nodes; simpl. frames.
  - rewrite last_or_app in Ht. simpl in Ht.
    rewrite reverse_cons, reverse_snoc in *. simpl app in *.
    assert (head l ≠ x ∧ x ≠ tail l ∧ head l ≠ tail l ∧ z ≠ x ∧ z ≠ head l ∧ z ≠ tail l
      ∧ x ∉ M ∧ z ∉ M ∧ head l ∉ M ∧ tail l ∉ M) as (?&?&?&?&?&?&?&?&?&?) by nodup.
    rewrite seg_cons, seg_app, seg_cons in Hs. destruct Hs as (Hz & HM & Hx & _).
    eexists. split; [by runsteps|]. split.
    + unfold nodes. rewrite !seg_cons, <- app_comm_cons, !seg_cons, !seg_app.
      rewrite !seg_insert by (rewrite ?elem_of_reverse; done). simpl. simplify_map_eq.
      rewrite !hd_or_app, last_or_app. split_and!; try done; by destruct (reverse M).
    + unfold nodes. frames.
Qed.

Lemma list_reverse_list h l xs :
  is_list h l xs →
  ∃ h', list_reverse l h = Ret (tt, h') ∧ is_list h' l (reverse xs)
      ∧ frame (nodes l xs) h h'.
Proof.
  intros Hl. destruct xs as [|x xs].
  { exists h. unfold list_reverse. rewrite (bind_Ret _ _ _ _ _ (list_empty_list h l _ Hl)).
    by rewrite bool_decide_true. }
  pose proof (nodes_fuel h l _ Hl) as Hfu. pose proof (list_begin_list h l _ Hl) as Hb.
  pose proof (list_empty_list h l _ Hl) as He. destruct Hl as [Hs Hd].
  unfold nodes in Hs. rewrite seg_cons, seg_app in Hs. destruct Hs as (Hh & Hx & Ht & _).
  destruct (list_reverse_loop_seg h (Some (head l)) (x :: xs) (tail l) (fuel_of h))
    as (h1 & R1 & S1 & F1); [done|nodup|nodup|unfold fuel_of; lia|].
  assert (head l ∉ x :: xs ∧ tail l ∉ x :: xs) as [Nh Nt] by nodup.
  destruct (reverse_ends_run h1 l x xs) as (h2 & R2 & S2 & F2); try done.
  { by rewrite (proj2 F1) by done. }
  { by rewrite (proj2 F1) by done. }
  exists h2. split_and!.
  - unfold list_reverse. rewrite (bind_Ret _ _ _ _ _ He), bool_decide_false by done.
    rewrite (bind_Ret _ _ _ _ _ (gets_run _ _)), (bind_Ret _ _ _ _ _ Hb).
    by rewrite (bind_Ret _ _ _ _ _ R1).
  - split; [done|]. assert (nodes l (reverse (x :: xs)) ≡ₚ nodes l (x :: xs)) as ->; [|done].
    unfold nodes. by rewrite (reverse_Permutation (x :: xs)).
  - eapply frame_trans; [|done]. eapply frame_weaken; [|done]. unfold nodes. set_solver.
Qed.

(** * [list_splice] of lib/kernel/list.c

    Moving a range of elements to an earlier position of the same list, the
    form in which the merge sort uses it, on raw chains and on lists. *)

Ltac splice_case Enn :=
  simpl in *; rewrite ?seg_app, ?hd_or_app, ?last_or_app in *; simpl in *; destruct_and?;
  unfold list_splice, list_prev, ptr_eqb;
  rewrite bool_decide_false by congruence;
  match type of Enn with ?nn = _ => destruct nn end;
  (eexists; split; [by runsteps|split];
  [do 3 (rewrite ?seg_app, ?seg_cons, ?hd_or_app, ?last_or_app; simpl);
   rewrite ?seg_insert by done; rewrite <- ?Enn; simplify_map_eq; split_and!; done
  |frames]).

Lemma seg_do_splice h L p a A m M n R :
  seg h NULL (L ++ p :: (a :: A) ++ (m :: M) ++ n :: R) NULL →
  NoDup (L ++ p :: (a :: A) ++ (m :: M) ++ n :: R) →
  ∃ h', list_splice (Some a) (Some m) (Some n) h = Ret (tt, h')
      ∧ seg h' NULL (L ++ p :: (m :: M) ++ (a :: A) ++ n :: R) NULL
      ∧ frame (L ++ p :: (m :: M) ++ (a :: A) ++ n :: R) h h'.
Proof.
  intros Hs Hd. rewrite seg_app, seg_cons, !seg_app, seg_cons in Hs.
  destruct Hs as (HL & Hp & HA & HM & Hn & HR).
  remember (hd_or NULL R) as nn eqn:Enn.
  destruct A as [|al A _] using rev_ind; destruct M as [|ml M _] using rev_ind.
  - nodup_perm Hd (p :: a :: m :: n :: (L ++ R)). splice_case Enn.
  - nodup_perm Hd (p :: a :: m :: ml :: n :: (L ++ M ++ R)). splice_case Enn.
  - nodup_perm Hd (p :: a :: al :: m :: n :: (L ++ A ++ R)). splice_case Enn.
  - nodup_perm Hd (p :: a :: al :: m :: ml :: n :: (L ++ A ++ M ++ R)). splice_case Enn.
Qed.

Lemma list_splice_list h l pre A m M post :
  is_list h l (pre ++ A ++ (m :: M) ++ post) → A ≠ [] →
  ∃ h', list_splice (hd_or NULL A) (Some m) (hd_or (Some (tail l)) post) h = Ret (tt, h')
      ∧ is_list h' l (pre ++ (m :: M) ++ A ++ post)
      ∧ frame (nodes l (pre ++ (m :: M) ++ A ++ post)) h h'.
Proof.
  intros [Hs Hd] HA. destruct A as [|a A]; [done|]. simpl hd_or.
  destruct (last_or_Some (head l) pre) as (L & p & E1 & _).
  destruct (nodes_split l (pre ++ (a :: A) ++ m :: M) post) as (_ & _ & n & R & _ & _ & E2 & E3 & _).
  assert (∀ X Y, nodes l (pre ++ X ++ Y ++ post) = L ++ p :: X ++ Y ++ n :: R) as E.
  { intros X Y. unfold nodes. rewrite <- !app_assoc, E2, app_comm_cons, E1.
    by rewrite <- app_assoc. }
  rewrite E3. unfold is_list. rewrite !E in *.
  destruct (seg_do_splice h L p a A m M n R) as (h' & H1 & H2 & H3); try done.
  exists h'. split_and!; try done.
  revert Hd. apply NoDup_Permutation_proper. simpl. solve_Permutation.
Qed.
