(* ===== verification/KListSort.v ===== *)
(** * Ordering routines of lib/kernel/list.c

    [list_sort] is a natural merge sort: it finds maximal nondecreasing
    runs, merges adjacent pairs of runs in place, and repeats until one run
    is left.  The pointer code is proved to refine a pure version of the same
    algorithm on lists of runs, and the pure version to sort. *)
From Stdlib Require Import Sorted.
From S2P Require Import Prelude KList.

Section sorting.
Variable less : loc → loc → bool.

(** ** The algorithm on lists of elements *)

(** [run_split a xs]: the rest of the run that starts at [a], and what
    follows the run. *)
Fixpoint run_split (a : loc) (xs : list loc) : list loc * list loc :=
  match xs with
  | [] => ([], [])
  | x :: xs' =>
    if less x a then ([], xs) else let '(r, t) := run_split x xs' in (x :: r, t)
  end.

(** Nondecreasing from [a] on. *)
Fixpoint sortedb (a : loc) (xs : list loc) : bool :=
  match xs with [] => true | x :: xs' => negb (less x a) && sortedb x xs' end.

Fixpoint merge (A : list loc) : list loc → list loc :=
  fix go (B : list loc) : list loc :=
    match A, B with
    | [], _ => B
    | _, [] => A
    | a :: A', b :: B' => if less b a then b :: go B' else a :: merge A' B
    end.

(** The maximal runs of a list. *)
Fixpoint runs (xs : list loc) : list (list loc) :=
  match xs with
  | [] => []
  | x :: xs' =>
    match runs xs' with
    | (y :: r) :: rs => if less y x then [x] :: (y :: r) :: rs else (x :: y :: r) :: rs
    | _ => [[x]]
    end
  end.

Fixpoint merge_pairs (rs : list (list loc)) : list (list loc) :=
  match rs with r1 :: r2 :: rs' => merge r1 r2 :: merge_pairs rs' | _ => rs end.

Definition le (x y : loc) : Prop := less y x = false.

(** ** Facts about the pure algorithm *)
Lemma merge_nil_l B : merge [] B = B.
Proof. by destruct B. Qed.

Lemma merge_nil_r A : merge A [] = A.
Proof. by destruct A. Qed.

Lemma merge_cons a A b B :
  merge (a :: A) (b :: B) =
    if less b a then b :: merge (a :: A) B else a :: merge A (b :: B).
Proof. done. Qed.

Lemma merge_perm A B : merge A B ≡ₚ A ++ B.
Proof.
  revert B; induction A as [|a A IHA]; intros B; [by rewrite merge_nil_l|].
  induction B as [|b B IHB]; [by rewrite merge_nil_r, app_nil_r|].
  rewrite merge_cons. destruct (less b a).
  - rewrite IHB. solve_Permutation.
  - simpl. by rewrite IHA.
Qed.

Lemma merge_nonnil A B : A ≠ [] → merge A B ≠ [].
Proof. intros HA E. pose proof (merge_perm A B) as HP. rewrite E in HP.
  apply Permutation_nil in HP. by destruct A. Qed.

Lemma sortedb_Sorted a xs : sortedb a xs = true ↔ Sorted le (a :: xs).
Proof.
  revert a; induction xs as [|x xs IH]; intros a; simpl.
  - split; [|done]. by repeat constructor.
  - rewrite andb_true_iff, negb_true_iff, IH. split.
    + intros [H1 H2]. constructor; [done|]. by constructor.
    + intros H. inversion_clear H as [|?? H1 H2]. by inversion_clear H2.
Qed.

(** Only asymmetry of the comparison is needed for merged runs to be runs. *)
Hypothesis less_asym : ∀ x y, less x y = true → less y x = false.

Lemma HdRel_merge z A B :
  HdRel le z A → HdRel le z B → HdRel le z (merge A B).
Proof.
  destruct A as [|a A]; [by rewrite merge_nil_l|].
  destruct B as [|b B]; [by rewrite merge_nil_r|].
  intros HA HB. rewrite merge_cons.
  destruct (less b a); constructor; by inversion_clear HA; inversion_clear HB.
Qed.

Lemma merge_sorted A B : Sorted le A → Sorted le B → Sorted le (merge A B).
Proof.
  revert B; induction A as [|a A IHA]; intros B HA HB; [by rewrite merge_nil_l|].
  induction B as [|b B IHB]; [by rewrite merge_nil_r|]. rewrite merge_cons.
  destruct (less b a) eqn:E; constructor.
  - apply IHB. by inversion_clear HB.
  - apply HdRel_merge; [|by inversion_clear HB]. constructor. by apply less_asym.
  - apply IHA; [by inversion_clear HA|done].
  - apply HdRel_merge; [by inversion_clear HA|]. by constructor.
Qed.

Lemma runs_cons a xs :
  runs (a :: xs) = (a :: (run_split a xs).1) :: runs (run_split a xs).2.
Proof.
  revert a; induction xs as [|x xs IH]; intros a; [done|].
  change (runs (a :: x :: xs)) with
    (match runs (x :: xs) with
     | (y :: r) :: rs => if less y a then [a] :: (y :: r) :: rs else (a :: y :: r) :: rs
     | _ => [[a]] end).
  rewrite IH. simpl run_split. destruct (less x a).
  - simpl fst; simpl snd. by rewrite IH.
  - by destruct (run_split x xs).
Qed.

Lemma run_split_app a xs : xs = (run_split a xs).1 ++ (run_split a xs).2.
Proof.
  revert a; induction xs as [|x xs IH]; intros a; simpl; [done|].
  destruct (less x a); [done|]. specialize (IH x). destruct (run_split x xs). simpl in *.
  by rewrite IH.
Qed.

Lemma run_split_sorted a xs : sortedb a (run_split a xs).1 = true.
Proof.
  revert a; induction xs as [|x xs IH]; intros a; simpl; [done|].
  destruct (less x a) eqn:E; [done|]. specialize (IH x).
  destruct (run_split x xs). simpl in *. by rewrite E, IH.
Qed.

Lemma runs_concat xs : concat (runs xs) = xs.
Proof.
  remember (length xs) as n eqn:En. revert xs En.
  induction (lt_wf n) as [n _ IH]; intros [|a xs] ->; [done|].
  rewrite runs_cons. simpl. rewrite (run_split_app a xs) at 3.
  do 2 f_equal. eapply IH; [|done]. simpl.
  rewrite (run_split_app a xs) at 2. rewrite length_app. lia.
Qed.

Lemma runs_sorted xs : Forall (λ r, r ≠ [] ∧ Sorted le r) (runs xs).
Proof.
  remember (length xs) as n eqn:En. revert xs En.
  induction (lt_wf n) as [n _ IH]; intros [|a xs] ->; [constructor|].
  rewrite runs_cons. constructor.
  - split; [done|]. apply sortedb_Sorted, run_split_sorted.
  - eapply IH; [|done]. simpl. rewrite (run_split_app a xs) at 2. rewrite length_app. lia.
Qed.

Lemma runs_length xs : length (runs xs) ≤ length xs.
Proof.
  rewrite <- (runs_concat xs) at 2. rewrite length_concat.
  assert (Forall (λ r, r ≠ []) (runs xs)) as Hn.
  { eapply Forall_impl; [apply runs_sorted|]. by intros r [? _]. }
  induction Hn as [|r rs Hr _ IH]; simpl; [lia|]. destruct r; [done|]. simpl. lia.
Qed.

(** Prefixing a run adds at most one run. *)
Lemma runs_app_sorted r xs : Sorted le r → length (runs (r ++ xs)) ≤ S (length (runs xs)).
Proof.
  induction r as [|x r IH]; intros Hr; simpl app; [lia|].
  destruct r as [|y r].
  - simpl app. destruct xs as [|z xs]; [simpl; lia|]. rewrite runs_cons. simpl run_split.
    destruct (less z x); simpl fst; simpl snd; [simpl; lia|].
    rewrite (runs_cons z xs). destruct (run_split z xs). simpl. lia.
  - inversion_clear Hr as [|?? Hs Hh]. inversion_clear Hh as [|?? Hle].
    specialize (IH Hs). simpl app in *.
    rewrite runs_cons in IH |- *. simpl run_split. unfold le in Hle. rewrite Hle.
    destruct (run_split y (r ++ xs)). simpl in *. lia.
Qed.

Lemma runs_concat_le rs : Forall (Sorted le) rs → length (runs (concat rs)) ≤ length rs.
Proof.
  induction 1 as [|r rs Hr _ IH]; simpl; [lia|].
  pose proof (runs_app_sorted r (concat rs) Hr). lia.
Qed.

Lemma merge_pairs_ind (P : list (list loc) → Prop) :
  P [] → (∀ r, P [r]) → (∀ r1 r2 rs, P rs → P (r1 :: r2 :: rs)) → ∀ rs, P rs.
Proof.
  intros H0 H1 H2 rs. enough (P rs ∧ ∀ r, P (r :: rs)) by tauto.
  induction rs as [|r rs [IH1 IH2]]; [auto|]. split; [auto|]. intros r'. by apply H2.
Qed.

Lemma merge_pairs_sorted rs : Forall (Sorted le) rs → Forall (Sorted le) (merge_pairs rs).
Proof.
  induction rs as [| |r1 r2 rs IH] using merge_pairs_ind; [done..|].
  rewrite !Forall_cons. intros (H1 & H2 & H3). simpl. constructor; [|by apply IH].
  by apply merge_sorted.
Qed.

Lemma merge_pairs_perm rs : concat (merge_pairs rs) ≡ₚ concat rs.
Proof.
  induction rs as [| |r1 r2 rs IH] using merge_pairs_ind; [done..|].
  simpl. by rewrite merge_perm, IH, app_assoc.
Qed.

Lemma merge_pairs_length rs : 2 * length (merge_pairs rs) ≤ length rs + 1.
Proof. induction rs as [| |r1 r2 rs IH] using merge_pairs_ind; simpl in *; lia. Qed.

Lemma one_run_sorted xs : length (runs xs) ≤ 1 → Sorted le xs.
Proof.
  intros Hl. rewrite <- (runs_concat xs). pose proof (runs_sorted xs) as Hs.
  destruct (runs xs) as [|r [|]]; simpl in *; [constructor| |lia].
  rewrite app_nil_r. by apply Forall_cons in Hs as [[_ ?] _].
Qed.

(** ** The pointer code implements it *)
Lemma range_end h l pre ys post :
  is_list h l (pre ++ ys ++ post) →
  ptr_eqb (hd_or (Some (tail l)) (ys ++ post)) (hd_or (Some (tail l)) post)
    = bool_decide (ys = []).
Proof.
  intros [_ Hd]. unfold ptr_eqb. destruct ys as [|y ys]; simpl.
  - by rewrite !bool_decide_true by done.
  - rewrite !bool_decide_false; try done.
    destruct post as [|z post]; simpl; intros [= ->]; nodup.
Qed.

Lemma hd_or_tail_app l xs ys :
  hd_or (Some (tail l)) (xs ++ ys) = hd_or (hd_or (Some (tail l)) ys) xs.
Proof. apply hd_or_app. Qed.

Lemma find_end_loop_list h l pre a xs fuel :
  is_list h l (pre ++ a :: xs) → length xs < fuel →
  find_end_loop less fuel (Some a) (list_end l) h
    = Ret (hd_or (Some (tail l)) (run_split a xs).2, h).
Proof.
  revert pre a fuel. induction xs as [|x xs IH]; intros pre a [|fuel] Hl Hf; simpl in Hf; try lia.
  all: cbn [find_end_loop]; rewrite (bind_Ret _ _ _ _ _ (list_next_list h l pre a _ Hl)).
  all: rewrite (cursor_end h l (pre ++ [a])) by (by rewrite <- app_assoc).
  - by rewrite bool_decide_true.
  - rewrite bool_decide_false by done.
    rewrite (bind_Ret _ _ _ _ _ (list_prev_list h l pre a (x :: xs) Hl)).
    simpl call_less. rewrite ret_bind. simpl run_split.
    destruct (less x a); [done|].
    simpl hd_or. rewrite (IH (pre ++ [a])) by (rewrite <- ?app_assoc; done || lia).
    by destruct (run_split x xs).
Qed.

Lemma find_end_of_run_list h l pre a xs :
  is_list h l (pre ++ a :: xs) →
  find_end_of_run less (Some a) (list_end l) h
    = Ret (hd_or (Some (tail l)) (run_split a xs).2, h).
Proof.
  intros Hl. unfold find_end_of_run.
  rewrite gets_bind.
  pose proof (cursor_end h l pre (a :: xs) Hl) as Hc. simpl hd_or in Hc. rewrite Hc.
  rewrite bool_decide_false by done. apply nodes_fuel in Hl as Hf. rewrite length_app in Hf.
  rewrite !ASSERT_bind by done. simpl in Hf.
  apply (find_end_loop_list h l pre); [done|]. unfold fuel_of. lia.
Qed.

Lemma is_sorted_loop_list h l pre a xs post fuel :
  is_list h l (pre ++ a :: xs ++ post) → length xs < fuel →
  is_sorted_loop less fuel (Some a) (hd_or (Some (tail l)) post) h = Ret (sortedb a xs, h).
Proof.
  revert pre a fuel. induction xs as [|x xs IH]; intros pre a [|fuel] Hl Hf; simpl in Hf; try lia.
  all: cbn [is_sorted_loop]; rewrite (bind_Ret _ _ _ _ _ (list_next_list h l pre a _ Hl)).
  all: rewrite (range_end h l (pre ++ [a])) by (by rewrite <- app_assoc).
  - by rewrite bool_decide_true.
  - rewrite bool_decide_false by done.
    rewrite (bind_Ret _ _ _ _ _ (list_prev_list h l pre a (x :: xs ++ post) Hl)).
    simpl call_less. rewrite ret_bind. simpl sortedb.
    destruct (less x a); [done|]. simpl hd_or.
    by rewrite (IH (pre ++ [a])) by (rewrite <- ?app_assoc; done || lia).
Qed.

Lemma is_sorted_list h l pre A post :
  is_list h l (pre ++ A ++ post) →
  is_sorted less (hd_or (Some (tail l)) (A ++ post)) (hd_or (Some (tail l)) post) h
    = Ret (match A with [] => true | a :: xs => sortedb a xs end, h).
Proof.
  intros Hl. unfold is_sorted. rewrite gets_bind.
  rewrite (range_end h l pre) by done. destruct A as [|a A].
  - by rewrite bool_decide_true.
  - rewrite bool_decide_false by done. apply nodes_fuel in Hl as Hf.
    rewrite !length_app in Hf. simpl in Hf.
    apply (is_sorted_loop_list h l pre); [done|]. unfold fuel_of. lia.
Qed.

Lemma merge_loop_list h l pre A B post fuel :
  is_list h l (pre ++ A ++ B ++ post) → length A + length B < fuel →
  ∃ h', merge_loop less fuel (hd_or (Some (tail l)) (A ++ B ++ post))
          (hd_or (Some (tail l)) (B ++ post)) (hd_or (Some (tail l)) post) h = Ret (tt, h')
      ∧ is_list h' l (pre ++ merge A B ++ post)
      ∧ frame (nodes l (pre ++ A ++ B ++ post)) h h'.
Proof.
  revert h pre A B. induction fuel as [|fuel IH]; intros h pre A B Hl Hf; [lia|].
  cbn [merge_loop]. rewrite (range_end h l pre) by done.
  rewrite (range_end h l (pre ++ A)) by (by rewrite <- app_assoc).
  destruct A as [|a A].
  { exists h. rewrite bool_decide_true, merge_nil_l by done. by split_and!. }
  destruct B as [|b B].
  { exists h. rewrite (bool_decide_true ([] = [])) by done. rewrite orb_true_r, merge_nil_r.
    by split_and!. }
  rewrite !bool_decide_false by done. cbn [orb hd_or app call_less].
  rewrite ret_bind, merge_cons. simpl in Hf.
  destruct (less b a).
  - assert (is_list h l ((pre ++ a :: A) ++ b :: B ++ post)) as Hl'.
    { by rewrite <- app_assoc. }
    rewrite (bind_Ret _ _ _ _ _ (list_next_list h l _ b _ Hl')).
    rewrite (bind_Ret _ _ _ _ _ (list_prev_list h l _ b _ Hl')).
    destruct (list_splice_list h l pre (a :: A) b [] (B ++ post)) as (h1 & E1 & L1 & F1);
      [done|done|].
    simpl hd_or in E1 |- *. rewrite (bind_Ret _ _ _ _ _ E1).
    destruct (IH h1 (pre ++ [b]) (a :: A) B) as (h2 & E2 & L2 & F2);
      [by rewrite <- app_assoc|simpl; lia|].
    exists h2. split_and!; [done| |].
    + by rewrite <- app_assoc in L2.
    + eapply frame_trans; (eapply frame_weaken; [|done]); unfold nodes; set_solver.
  - rewrite (bind_Ret _ _ _ _ _ (list_next_list h l pre a _ Hl)).
    destruct (IH h (pre ++ [a]) A (b :: B)) as (h2 & E2 & L2 & F2);
      [by rewrite <- app_assoc|simpl; lia|].
    exists h2. split_and!; [done| |].
    + by rewrite <- app_assoc in L2.
    + eapply frame_weaken; [|done]; unfold nodes; set_solver.
Qed.

Lemma inplace_merge_list h l pre a A b B post :
  is_list h l (pre ++ (a :: A) ++ (b :: B) ++ post) →
  sortedb a A = true → sortedb b B = true →
  ∃ h', inplace_merge less (Some a) (Some b) (hd_or (Some (tail l)) post) h = Ret (tt, h')
      ∧ is_list h' l (pre ++ merge (a :: A) (b :: B) ++ post)
      ∧ frame (nodes l (pre ++ (a :: A) ++ (b :: B) ++ post)) h h'.
Proof.
  intros Hl HA HB. pose proof (nodes_fuel _ _ _ Hl) as Hf. rewrite !length_app in Hf.
  destruct (merge_loop_list h l pre (a :: A) (b :: B) post (fuel_of h)) as (h' & E & L & F);
    [done|unfold fuel_of; lia|].
  exists h'. split_and!; try done. unfold inplace_merge.
  rewrite gets_bind.
  rewrite isnull_hd_or, !ASSERT_bind by done.
  pose proof (is_sorted_list h l pre (a :: A) ((b :: B) ++ post) Hl) as S1.
  pose proof (is_sorted_list h l (pre ++ a :: A) (b :: B) post) as S2.
  rewrite <- app_assoc in S2. specialize (S2 Hl).
  rewrite (bind_Ret _ _ _ _ _ S1), HA, ASSERT_bind by done.
  by rewrite (bind_Ret _ _ _ _ _ S2), HB, ASSERT_bind by done.
Qed.

Lemma frame_perm S T h h' : S ≡ₚ T → frame S h h' → frame T h h'.
Proof. intros HP. apply frame_weaken. intros x. by rewrite HP. Qed.

Lemma nodes_perm l xs ys : xs ≡ₚ ys → nodes l xs ≡ₚ nodes l ys.
Proof. intros HP. unfold nodes. by rewrite HP. Qed.

Lemma sort_pass_list h l pre ys c fuel :
  is_list h l (pre ++ ys) → length ys < fuel →
  ∃ h', sort_pass less fuel l (hd_or (Some (tail l)) ys) c h
          = Ret (c + length (merge_pairs (runs ys)), h')
      ∧ is_list h' l (pre ++ concat (merge_pairs (runs ys)))
      ∧ frame (nodes l (pre ++ ys)) h h'.
Proof.
  revert h pre ys c. induction fuel as [|fuel IH]; intros h pre ys c Hl Hf; [lia|].
  cbn [sort_pass]. rewrite (cursor_end h l pre) by done. destruct ys as [|a xs].
  { rewrite bool_decide_true by done. exists h. split_and!; try done. simpl. by rewrite Nat.add_0_r. }
  rewrite bool_decide_false by done. cbn [hd_or].
  rewrite (bind_Ret _ _ _ _ _ (find_end_of_run_list h l pre a xs Hl)).
  rewrite runs_cons. pose proof (run_split_sorted a xs) as Hs1.
  pose proof (run_split_app a xs) as E1.
  destruct (run_split a xs) as [r1 t1]. simpl fst in *; simpl snd in *. subst xs.
  rewrite (cursor_end h l (pre ++ a :: r1)) by (by rewrite <- app_assoc).
  destruct t1 as [|b xs].
  { rewrite bool_decide_true by done. exists h. simpl. split_and!; try done.
    unfold mret, cmd_ret. do 2 f_equal. lia. }
  rewrite bool_decide_false by done. cbn [hd_or].
  assert (is_list h l ((pre ++ a :: r1) ++ b :: xs)) as Hl2 by (by rewrite <- app_assoc).
  rewrite (bind_Ret _ _ _ _ _ (find_end_of_run_list h l _ b xs Hl2)).
  rewrite runs_cons. pose proof (run_split_sorted b xs) as Hs2.
  pose proof (run_split_app b xs) as E2.
  destruct (run_split b xs) as [r2 t2]. simpl fst in *; simpl snd in *. subst xs.
  destruct (inplace_merge_list h l pre a r1 b r2 t2) as (h1 & E & L1 & F1); [done..|].
  rewrite (bind_Ret _ _ _ _ _ E). cbn [merge_pairs concat length].
  destruct (IH h1 (pre ++ merge (a :: r1) (b :: r2)) t2 (S c)) as (h2 & E3 & L2 & F2).
  { by rewrite <- app_assoc. }
  { simpl in Hf. rewrite length_app in Hf. simpl in Hf. rewrite length_app in Hf. lia. }
  exists h2. split_and!.
  - rewrite E3. do 2 f_equal. lia.
  - by rewrite <- app_assoc in L2.
  - eapply frame_trans; [done|]. eapply frame_perm; [|done]. apply nodes_perm.
    rewrite merge_perm. simpl. solve_Permutation.
Qed.

(** One pass over the whole list. *)
Definition pass (xs : list loc) : list loc := concat (merge_pairs (runs xs)).

Lemma runs_pass xs : length (runs (pass xs)) ≤ length (merge_pairs (runs xs)).
Proof.
  apply runs_concat_le, merge_pairs_sorted.
  eapply Forall_impl; [apply runs_sorted|]. by intros r [_ ?].
Qed.

Lemma pass_perm xs : pass xs ≡ₚ xs.
Proof. unfold pass. by rewrite merge_pairs_perm, runs_concat. Qed.

Lemma sort_loop_list h l xs fuel pf :
  is_list h l xs → length (runs xs) < fuel → length xs < pf →
  ∃ h' ys, sort_loop less fuel pf l h = Ret (tt, h') ∧ is_list h' l ys
      ∧ ys ≡ₚ xs ∧ Sorted le ys ∧ frame (nodes l xs) h h'.
Proof.
  revert h xs. induction fuel as [|fuel IH]; intros h xs Hl Hf Hpf; [lia|].
  cbn [sort_loop]. rewrite (bind_Ret _ _ _ _ _ (list_begin_list h l xs Hl)).
  destruct (sort_pass_list h l [] xs 0 pf) as (h1 & E1 & L1 & F1); [done..|].
  simpl app in *. fold (pass xs) in L1. rewrite (bind_Ret _ _ _ _ _ E1), Nat.add_0_l.
  pose proof (runs_pass xs) as Hr. pose proof (merge_pairs_length (runs xs)) as Hm.
  destruct (Nat.ltb_spec 1 (length (merge_pairs (runs xs)))) as [Hc|Hc].
  - destruct (IH h1 (pass xs)) as (h2 & ys & E2 & L2 & P2 & S2 & F2);
      [done|lia|by rewrite pass_perm|].
    exists h2, ys. split_and!; try done.
    + etrans; [done|apply pass_perm].
    + eapply frame_trans; [done|]. eapply frame_perm; [|done]. apply nodes_perm, pass_perm.
  - exists h1, (pass xs). split_and!; try done; [apply pass_perm|].
    apply one_run_sorted. lia.
Qed.

Lemma list_sort_list h l xs :
  is_list h l xs →
  ∃ h' ys, list_sort less l h = Ret (tt, h') ∧ is_list h' l ys
      ∧ ys ≡ₚ xs ∧ Sorted le ys ∧ frame (nodes l xs) h h'.
Proof.
  intros Hl. pose proof (nodes_fuel _ _ _ Hl) as Hf. pose proof (runs_length xs) as Hr.
  destruct (sort_loop_list h l xs (fuel_of h) (fuel_of h)) as (h' & ys & E & L & P & Hs & F);
    [done|unfold fuel_of; lia|unfold fuel_of; lia|].
  exists h', ys. split_and!; try done. unfold list_sort. rewrite gets_bind.
  rewrite (bind_Ret _ _ _ _ _ E), (bind_Ret _ _ _ _ _ (list_begin_list h' l ys L)).
  pose proof (is_sorted_list h' l [] ys []) as HS. rewrite app_nil_r in HS.
  simpl app in HS. specialize (HS L). simpl hd_or in HS at 2.
  rewrite (bind_Ret _ _ _ _ _ HS). apply ASSERT_run.
  destruct ys; [done|]. by apply sortedb_Sorted.
Qed.
End sorting.
