(* ===== verification/KListOrd.v ===== *)
(** * Ordered insertion, duplicate removal and extrema (lib/kernel/list.c)

    [list_insert_ordered], [list_unique], [list_max] and [list_min], proved
    against functions on the list's elements, and the theorems of the list
    component. *)
From Stdlib Require Import Sorted.
From S2P Require Import Prelude KList KListSort.

Section ordered.
Variable less : loc → loc → bool.

(** ** Insertion into a sorted list *)
Fixpoint insert_ord (e : loc) (xs : list loc) : list loc :=
  match xs with
  | [] => [e]
  | x :: xs' => if less e x then e :: xs else x :: insert_ord e xs'
  end.

Lemma insert_ord_split e xs : ∃ A B, xs = A ++ B ∧ insert_ord e xs = A ++ e :: B.
Proof.
  induction xs as [|x xs (A & B & -> & E)]; simpl; [by exists [], []|].
  destruct (less e x); [by exists [], (x :: A ++ B)|].
  exists (x :: A), B. by rewrite E.
Qed.

Lemma insert_pos_loop_list h l e pre ys fuel :
  is_list h l (pre ++ ys) → length ys < fuel →
  ∃ A B, ys = A ++ B ∧ insert_ord e ys = A ++ e :: B ∧
    insert_pos_loop less fuel (Some e) (hd_or (Some (tail l)) ys) (list_end l) h
      = Ret (hd_or (Some (tail l)) B, h).
Proof.
  revert pre fuel. induction ys as [|y ys IH]; intros pre [|fuel] Hl Hf; simpl in Hf; try lia.
  all: cbn [insert_pos_loop]; rewrite (cursor_end h l pre) by done.
  - exists [], []. by rewrite bool_decide_true.
  - rewrite bool_decide_false by done. cbn [hd_or call_less insert_ord]. rewrite ret_bind.
    destruct (less e y); [by exists [], (y :: ys)|].
    rewrite (bind_Ret _ _ _ _ _ (list_next_list h l pre y ys Hl)).
    destruct (IH (pre ++ [y]) fuel) as (A & B & -> & E1 & E2); [by rewrite <- app_assoc|lia|].
    exists (y :: A), B. by rewrite E1.
Qed.

Lemma list_insert_ordered_list h l xs e :
  is_list h l xs → e ∉ nodes l xs → is_Some (h !! e) →
  ∃ h', list_insert_ordered less l (Some e) h = Ret (tt, h')
      ∧ is_list h' l (insert_ord e xs) ∧ frame (nodes l (insert_ord e xs)) h h'.
Proof.
  intros Hl He Hdom. pose proof (nodes_fuel _ _ _ Hl) as Hf.
  destruct (insert_pos_loop_list h l e [] xs (fuel_of h)) as (A & B & -> & E1 & E2);
    [done|unfold fuel_of; lia|].
  destruct (list_insert_list h l A B e) as (h' & E & L & F); [done..|].
  exists h'. rewrite E1. split_and!; try done. unfold list_insert_ordered.
  rewrite gets_bind, ASSERT_bind by done.
  rewrite (bind_Ret _ _ _ _ _ (list_begin_list h l _ Hl)).
  by rewrite (bind_Ret _ _ _ _ _ E2).
Qed.

Lemma insert_ord_sorted e xs :
  (∀ x y, less x y = true → less y x = false) →
  Sorted (le less) xs → Sorted (le less) (insert_ord e xs).
Proof.
  intros Hasym. induction 1 as [|x xs Hs IH Hh]; simpl; [by repeat constructor|].
  destruct (less e x) eqn:E.
  - constructor; [by constructor|]. constructor. by apply Hasym.
  - constructor; [done|]. destruct xs as [|y ys]; simpl; [by constructor|].
    destruct (less e y); constructor; [done|]. by inversion_clear Hh.
Qed.

(** ** Removal of adjacent duplicates *)

(** What stays after [e], and what is removed. *)
Fixpoint uniq (e : loc) (xs : list loc) : list loc * list loc :=
  match xs with
  | [] => ([], [])
  | x :: xs' =>
    if negb (less e x) && negb (less x e)
    then let '(k, d) := uniq e xs' in (k, x :: d)
    else let '(k, d) := uniq x xs' in (x :: k, d)
  end.

(** The list [duplicates], when there is one, shares no node with [l]. *)
Definition dup_list (h : heap) (d : option klist) (ds : list loc) : Prop :=
  match d with None => ds = [] | Some d => is_list h d ds end.
Definition dup_nodes (d : option klist) (ds : list loc) : list loc :=
  match d with None => [] | Some d => nodes d ds end.

Lemma is_list_frame S h h' l xs :
  frame S h h' → (∀ x, x ∈ nodes l xs → x ∉ S) → is_list h l xs → is_list h' l xs.
Proof. intros HF Hd [Hs Hn]. split; [|done]. by eapply seg_frame. Qed.

Definition push_dup (d : option klist) (x : ptr) : cmd heap unit :=
  match d with Some d => list_push_back d x | None => mret tt end.

Lemma push_dup_list h l xs d ds x :
  is_list h l xs → dup_list h d ds → x ∉ nodes l xs → x ∉ dup_nodes d ds →
  is_Some (h !! x) → (∀ y, y ∈ nodes l xs → y ∉ dup_nodes d ds) →
  ∃ h' ds', push_dup d (Some x) h = Ret (tt, h') ∧ is_list h' l xs
    ∧ dup_list h' d ds' ∧ (d = None ∧ ds' = [] ∨ ds' = ds ++ [x])
    ∧ (∀ y, y ∈ dup_nodes d ds' → y = x ∨ y ∈ dup_nodes d ds)
    ∧ frame (x :: dup_nodes d ds) h h'.
Proof.
  intros Hl Hds Hx Hxd Hdom Hdisj. destruct d as [d|]; simpl in *.
  - destruct (list_push_back_list h d ds x) as (h' & E & L & F); [done..|].
    exists h', (ds ++ [x]). split_and!; try done; [|tauto| |].
    + eapply is_list_frame; [done| |done]. intros y Hy Hin.
      assert (y = x ∨ y ∈ nodes d ds) as [->|]; [|done|by eapply Hdisj].
      revert Hin. unfold nodes. clear. set_solver.
    + intros y. unfold nodes. clear. set_solver.
    + eapply frame_weaken; [|done]. unfold nodes. clear. set_solver.
  - exists h, []. split_and!; try done; [tauto|]. intros y. clear. set_solver.
Qed.

Lemma list_unique_loop_list h l pre e xs d ds fuel :
  is_list h l (pre ++ e :: xs) → dup_list h d ds →
  (∀ y, y ∈ nodes l (pre ++ e :: xs) → y ∉ dup_nodes d ds) → length xs < fuel →
  ∃ h', list_unique_loop less fuel l d (Some e) h = Ret (tt, h')
      ∧ is_list h' l (pre ++ e :: (uniq e xs).1)
      ∧ dup_list h' d (match d with None => [] | Some _ => ds ++ (uniq e xs).2 end).
Proof.
  revert h pre e xs ds.
  induction fuel as [|fuel IH]; intros h pre e xs ds Hl Hds Hdisj Hf; [lia|].
  cbn [list_unique_loop]. rewrite (bind_Ret _ _ _ _ _ (list_next_list h l pre e xs Hl)).
  rewrite (cursor_end h l (pre ++ [e])) by (by rewrite <- app_assoc).
  destruct xs as [|x xs].
  { rewrite bool_decide_true by done. exists h. simpl. split_and!; try done.
    destruct d; simpl in *; by rewrite ?app_nil_r. }
  rewrite bool_decide_false by done. cbn [hd_or call_less uniq]. rewrite ret_bind.
  destruct (less e x) eqn:E1; cbn [negb andb].
  { rewrite ret_bind. cbn [negb andb].
    destruct (IH h (pre ++ [e]) x xs ds) as (h' & E & L & D); rewrite <- ?app_assoc in *;
      [done..|simpl in Hf; lia|].
    exists h'. destruct (uniq x xs). by split_and!. }
  rewrite ret_bind. destruct (less x e) eqn:E2; cbn [negb andb].
  { destruct (IH h (pre ++ [e]) x xs ds) as (h' & E & L & D); rewrite <- ?app_assoc in *;
      [done..|simpl in Hf; lia|].
    exists h'. destruct (uniq x xs). by split_and!. }
  assert (is_list h l ((pre ++ [e]) ++ x :: xs)) as Hl' by (by rewrite <- app_assoc).
  destruct (list_remove_list h l _ x xs Hl') as (h1 & R1 & L1 & S1 & N1 & F1).
  rewrite (bind_Ret _ _ _ _ _ R1). rewrite <- app_assoc in *. simpl app in *.
  assert (x ∈ nodes l (pre ++ e :: x :: xs)) as Hxin by (unfold nodes; clear; set_solver).
  assert (∀ y, y ∈ nodes l (pre ++ e :: xs) → y ∈ nodes l (pre ++ e :: x :: xs)) as Hsub
    by (intros y; unfold nodes; clear; set_solver).
  destruct (push_dup_list h1 l (pre ++ e :: xs) d ds x) as (h2 & ds' & R2 & L2 & D2 & Eds & Hin & F2);
    [done| |done|by apply Hdisj| | |].
  { destruct d; simpl in *; [|done]. eapply is_list_frame; [done| |done].
    intros y Hy Hin. by eapply Hdisj; [apply Hsub|]. }
  { rewrite S1. destruct Hl as [Hs _]. by eapply seg_lookup. }
  { intros y Hy. by apply Hdisj, Hsub. }
  fold (push_dup d (Some x)). rewrite (bind_Ret _ _ _ _ _ R2).
  destruct (IH h2 pre e xs ds') as (h' & E & L & D); [done|done| |simpl in Hf; lia|].
  { intros y Hy Hy'. apply Hin in Hy' as [->|Hy']; [done|]. by eapply Hdisj; [apply Hsub|]. }
  exists h'. destruct (uniq e xs) as [k dd]. simpl in *. split_and!; [done..|].
  destruct d; simpl in *; [|done]. destruct Eds as [[? _]| ->]; [done|].
  by rewrite <- app_assoc in D.
Qed.

Lemma list_unique_list h l x xs d ds :
  is_list h l (x :: xs) → dup_list h d ds →
  (∀ y, y ∈ nodes l (x :: xs) → y ∉ dup_nodes d ds) →
  ∃ h', list_unique less l d h = Ret (tt, h')
      ∧ is_list h' l (x :: (uniq x xs).1)
      ∧ dup_list h' d (match d with None => [] | Some _ => ds ++ (uniq x xs).2 end).
Proof.
  intros Hl Hds Hdisj. pose proof (nodes_fuel _ _ _ Hl) as Hf. simpl in Hf.
  destruct (list_unique_loop_list h l [] x xs d ds (fuel_of h)) as (h' & E & L & D);
    [done..|unfold fuel_of; lia|].
  exists h'. split_and!; try done. unfold list_unique. rewrite gets_bind.
  rewrite (bind_Ret _ _ _ _ _ (list_empty_list h l _ Hl)), bool_decide_false by done.
  by rewrite (bind_Ret _ _ _ _ _ (list_begin_list h l _ Hl)).
Qed.

(** ** Extrema *)
Definition max_of (m : loc) (xs : list loc) : loc :=
  foldl (λ m e, if less m e then e else m) m xs.
Definition min_of (m : loc) (xs : list loc) : loc :=
  foldl (λ m e, if less e m then e else m) m xs.

Lemma list_max_loop_list h l pre m ys fuel :
  is_list h l (pre ++ ys) → length ys < fuel →
  list_max_loop less fuel (Some m) (hd_or (Some (tail l)) ys) (list_end l) h
    = Ret (Some (max_of m ys), h).
Proof.
  revert pre m fuel. induction ys as [|y ys IH]; intros pre m [|fuel] Hl Hf; simpl in Hf; try lia.
  all: cbn [list_max_loop]; rewrite (cursor_end h l pre) by done.
  - by rewrite bool_decide_true.
  - rewrite bool_decide_false by done. cbn [hd_or call_less]. rewrite ret_bind.
    rewrite (bind_Ret _ _ _ _ _ (list_next_list h l pre y ys Hl)). simpl max_of.
    destruct (less m y); apply (IH (pre ++ [y])); rewrite <- ?app_assoc; done || lia.
Qed.

Lemma list_max_list h l x xs :
  is_list h l (x :: xs) → list_max less l h = Ret (Some (max_of x xs), h).
Proof.
  intros Hl. pose proof (nodes_fuel _ _ _ Hl) as Hf. simpl in Hf. unfold list_max.
  rewrite gets_bind, (bind_Ret _ _ _ _ _ (list_begin_list h l _ Hl)).
  rewrite (cursor_end h l []), bool_decide_false by done. cbn [hd_or].
  rewrite (bind_Ret _ _ _ _ _ (list_next_list h l [] x xs Hl)).
  apply (list_max_loop_list h l [x]); [done|]. unfold fuel_of. lia.
Qed.

Lemma list_min_loop_list h l pre m ys fuel :
  is_list h l (pre ++ ys) → length ys < fuel →
  list_min_loop less fuel (Some m) (hd_or (Some (tail l)) ys) (list_end l) h
    = Ret (Some (min_of m ys), h).
Proof.
  revert pre m fuel. induction ys as [|y ys IH]; intros pre m [|fuel] Hl Hf; simpl in Hf; try lia.
  all: cbn [list_min_loop]; rewrite (cursor_end h l pre) by done.
  - by rewrite bool_decide_true.
  - rewrite bool_decide_false by done. cbn [hd_or call_less]. rewrite ret_bind.
    rewrite (bind_Ret _ _ _ _ _ (list_next_list h l pre y ys Hl)). simpl min_of.
    destruct (less y m); apply (IH (pre ++ [y])); rewrite <- ?app_assoc; done || lia.
Qed.

Lemma list_min_list h l x xs :
  is_list h l (x :: xs) → list_min less l h = Ret (Some (min_of x xs), h).
Proof.
  intros Hl. pose proof (nodes_fuel _ _ _ Hl) as Hf. simpl in Hf. unfold list_min.
  rewrite gets_bind, (bind_Ret _ _ _ _ _ (list_begin_list h l _ Hl)).
  rewrite (cursor_end h l []), bool_decide_false by done. cbn [hd_or].
  rewrite (bind_Ret _ _ _ _ _ (list_next_list h l [] x xs Hl)).
  apply (list_min_loop_list h l [x]); [done|]. unfold fuel_of. lia.
Qed.
End ordered.

(** [max_of] picks the first of the greatest elements, for any comparison
    whose incomparability is transitive. *)
Lemma max_of_first (less : loc → loc → bool) x xs :
  (∀ a b, less a b = true → less b a = false) →
  (∀ a b c, less a c = true → less a b = true ∨ less b c = true) →
  ∃ A B, x :: xs = A ++ max_of less x xs :: B
       ∧ Forall (λ a, less a (max_of less x xs) = true) A
       ∧ Forall (λ b, less (max_of less x xs) b = false) B.
Proof.
  intros Hasym Hneg. induction xs as [|y xs IH] using rev_ind.
  { exists [], []. by repeat split. }
  destruct IH as (A & B & E & HA & HB). unfold max_of in *. rewrite foldl_app. simpl.
  set (m := foldl _ x xs) in *. destruct (less m y) eqn:Em.
  - exists (x :: xs), []. split_and!; [done| |done]. rewrite E.
    apply Forall_app. split; [|apply Forall_cons; split; [done|]].
    + eapply Forall_impl; [exact HA|]. intros a Ha. simpl in Ha.
      destruct (Hneg m a y Em) as [H|H]; [|done]. apply Hasym in Ha. congruence.
    + eapply Forall_impl; [exact HB|]. intros b Hb. simpl in Hb.
      destruct (Hneg m b y Em) as [H|H]; congruence.
  - exists A, (B ++ [y]). split_and!; [by rewrite app_comm_cons, E, <- app_assoc|done|].
    apply Forall_app. by split; [|apply Forall_singleton].
Qed.
