(* ===== verification/KListSpec.v ===== *)
(** * What lib/kernel/list.c promises its clients

    The abstract state of a list is the sequence of its elements.  This file
    states the library's contract as a simulation: any sequence of calls a
    client may make, on a heap that represents a sequence, runs to completion
    and does to the sequence what each call promises. *)
From Stdlib Require Import Sorted.
From S2P Require Import Prelude KList KListSort KListOrd.

(** ** Calls and their contract *)
Inductive call : Set :=
  | PushFront (e : loc)
  | PushBack (e : loc)
  | PopFront
  | PopBack
  | Remove (e : loc)
  | InsertOrdered (e : loc)
  | Reverse
  | Sort
  | Size
  | Empty.

Inductive reply : Set := Done | Elem (e : ptr) | Count (n : nat) | Flag (b : bool).

Section contract.
Variable less : loc → loc → bool.

Definition run_call (l : klist) (c : call) : cmd heap reply :=
  match c with
  | PushFront e => list_push_front l (Some e);; mret Done
  | PushBack e => list_push_back l (Some e);; mret Done
  | PopFront => e ← list_pop_front l; mret (Elem e)
  | PopBack => e ← list_pop_back l; mret (Elem e)
  | Remove e => n ← list_remove (Some e); mret (Elem n)
  | InsertOrdered e => list_insert_ordered less l (Some e);; mret Done
  | Reverse => list_reverse l;; mret Done
  | Sort => list_sort less l;; mret Done
  | Size => n ← list_size l; mret (Count n)
  | Empty => b ← list_empty l; mret (Flag b)
  end.

(** When a client may make a call: an inserted element is memory it owns
    that is not in the list, a removed one is in the list, and a pop needs an
    element. *)
Definition call_pre (l : klist) (D : gset loc) (c : call) (xs : list loc) : Prop :=
  match c with
  | PushFront e | PushBack e | InsertOrdered e => e ∈ D ∧ e ∉ nodes l xs
  | PopFront | PopBack => xs ≠ []
  | Remove e => e ∈ xs
  | Reverse | Sort | Size | Empty => True
  end.

(** What a call does to the sequence. *)
Definition call_post (l : klist) (c : call) (xs : list loc) (r : reply) (ys : list loc) : Prop :=
  match c with
  | PushFront e => r = Done ∧ ys = e :: xs
  | PushBack e => r = Done ∧ ys = xs ++ [e]
  | PopFront => ∃ x, r = Elem (Some x) ∧ xs = x :: ys
  | PopBack => ∃ x, r = Elem (Some x) ∧ xs = ys ++ [x]
  | Remove e => ∃ A B, xs = A ++ e :: B ∧ ys = A ++ B ∧ r = Elem (hd_or (Some (tail l)) B)
  | InsertOrdered e =>
    r = Done ∧ ys ≡ₚ e :: xs ∧ (Sorted (le less) xs → Sorted (le less) ys)
  | Reverse => r = Done ∧ ys = reverse xs
  | Sort => r = Done ∧ ys ≡ₚ xs ∧ Sorted (le less) ys
  | Size => r = Count (length xs) ∧ ys = xs
  | Empty => r = Flag (bool_decide (xs = [])) ∧ ys = xs
  end.

Hypothesis less_asym : ∀ x y, less x y = true → less y x = false.

Lemma call_simulation h l xs c :
  is_list h l xs → call_pre l (dom h) c xs →
  ∃ r h' ys, run_call l c h = Ret (r, h') ∧ call_post l c xs r ys
    ∧ is_list h' l ys ∧ dom h' = dom h.
Proof.
  intros Hl Hp. destruct c as [e|e| | |e|e| | | |]; simpl in *.
  - destruct Hp as [He Hn]. apply elem_of_dom in He.
    destruct (list_push_front_list h l xs e) as (h' & E & L & F & _); [done..|].
    exists Done, h', (e :: xs). by rewrite (bind_Ret _ _ _ _ _ E).
  - destruct Hp as [He Hn]. apply elem_of_dom in He.
    destruct (list_push_back_list h l xs e) as (h' & E & L & F & _); [done..|].
    exists Done, h', (xs ++ [e]). by rewrite (bind_Ret _ _ _ _ _ E).
  - destruct xs as [|x xs]; [done|].
    destruct (list_pop_front_list h l x xs) as (h' & E & L & _ & _ & F & _); [done|].
    exists (Elem (Some x)), h', xs. rewrite (bind_Ret _ _ _ _ _ E).
    split_and!; eauto.
  - destruct xs as [|x xs _] using rev_ind; [done|].
    destruct (list_pop_back_list h l xs x) as (h' & E & L & _ & _ & F & _); [done|].
    exists (Elem (Some x)), h', xs. rewrite (bind_Ret _ _ _ _ _ E).
    split_and!; eauto.
  - apply list_elem_of_split in Hp as (A & B & ->).
    destruct (list_remove_list h l A e B) as (h' & E & L & _ & _ & F & _); [done|].
    exists (Elem (hd_or (Some (tail l)) B)), h', (A ++ B). rewrite (bind_Ret _ _ _ _ _ E).
    split_and!; eauto.
  - destruct Hp as [He Hn]. apply elem_of_dom in He.
    destruct (list_insert_ordered_list less h l xs e) as (h' & E & L & F & _); [done..|].
    exists Done, h', (insert_ord less e xs). rewrite (bind_Ret _ _ _ _ _ E).
    split_and!; try done.
    + destruct (insert_ord_split less e xs) as (A & B & -> & ->). solve_Permutation.
    + by apply insert_ord_sorted.
  - destruct (list_reverse_list h l xs) as (h' & E & L & F & _); [done|].
    exists Done, h', (reverse xs). by rewrite (bind_Ret _ _ _ _ _ E).
  - destruct (list_sort_list less less_asym h l xs) as (h' & ys & E & L & P & S & F & _); [done|].
    exists Done, h', ys. by rewrite (bind_Ret _ _ _ _ _ E).
  - exists (Count (length xs)), h, xs. by rewrite (bind_Ret _ _ _ _ _ (list_size_list h l xs Hl)).
  - exists (Flag (bool_decide (xs = []))), h, xs.
    by rewrite (bind_Ret _ _ _ _ _ (list_empty_list h l xs Hl)).
Qed.

(** A client program: calls made one after the other, replies collected. *)
Fixpoint run_calls (l : klist) (cs : list call) : cmd heap (list reply) :=
  match cs with
  | [] => mret []
  | c :: cs' => r ← run_call l c; rs ← run_calls l cs'; mret (r :: rs)
  end.

(** The abstract executions of a program, every call made when it may be. *)
Inductive calls_ok (l : klist) (D : gset loc) : list call → list loc → Prop :=
  | calls_ok_nil xs : calls_ok l D [] xs
  | calls_ok_cons c cs xs :
      call_pre l D c xs → (∀ r ys, call_post l c xs r ys → calls_ok l D cs ys) →
      calls_ok l D (c :: cs) xs.

Inductive calls_post (l : klist) : list call → list loc → list reply → list loc → Prop :=
  | calls_post_nil xs : calls_post l [] xs [] xs
  | calls_post_cons c cs xs r ys rs zs :
      call_post l c xs r ys → calls_post l cs ys rs zs →
      calls_post l (c :: cs) xs (r :: rs) zs.

End contract.

(** ** A concrete heap *)
Definition ex_l : klist := mk_list 1 2.
Definition ex_heap : heap := list_to_map
  [(1, mk_elem NULL (Some 5)); (5, mk_elem (Some 1) (Some 3)); (3, mk_elem (Some 5) (Some 4));
   (4, mk_elem (Some 3) (Some 2)); (2, mk_elem (Some 4) NULL); (6, mk_elem NULL NULL);
   (7, mk_elem NULL (Some 8)); (8, mk_elem (Some 7) NULL)]%positive.
Definition ex_less (x y : loc) : bool := (x <? y)%positive.

Lemma ex_list : is_list ex_heap ex_l [5; 3; 4]%positive.
Proof. split; [by vm_compute|]. by apply (bool_decide_unpack _); vm_compute. Qed.

Lemma ex_dups : is_list ex_heap (mk_list 7 8) [].
Proof. split; [by vm_compute|]. by apply (bool_decide_unpack _); vm_compute. Qed.

Lemma ex_less_asym x y : ex_less x y = true → ex_less y x = false.
Proof. unfold ex_less. rewrite Pos.ltb_lt, Pos.ltb_ge. lia. Qed.

Lemma ex_less_neg a b c : ex_less a c = true → ex_less a b = true ∨ ex_less b c = true.
Proof. unfold ex_less. rewrite !Pos.ltb_lt. lia. Qed.


(** C17: [list_sort] terminates and leaves a nondecreasing permutation of the
    list's elements, for any asymmetric comparison; the list stays well
    formed and no other node changes. *)
Theorem list_sort_correct less h l xs :
  (∀ x y, less x y = true → less y x = false) → is_list h l xs →
  ∃ h' ys, list_sort less l h = Ret (tt, h') ∧ is_list h' l ys
    ∧ ys ≡ₚ xs ∧ Sorted (le less) ys ∧ frame (nodes l xs) h h'.
Proof. intros Ha Hl. by apply list_sort_list. Qed.

Lemma list_sort_correct_witness :
  ∃ h' ys, list_sort ex_less ex_l ex_heap = Ret (tt, h') ∧ is_list h' ex_l ys
    ∧ ys ≡ₚ [5; 3; 4]%positive ∧ Sorted (le ex_less) ys
    ∧ frame (nodes ex_l [5; 3; 4]%positive) ex_heap h'.
Proof. apply (list_sort_correct ex_less); [exact ex_less_asym|exact ex_list]. Defined.

(** [list_unique] keeps the first element of each group of adjacent equal
    elements, appends the others to [duplicates] in order when it is given,
    and leaves both lists well formed. *)
Theorem list_unique_correct less h l x xs d ds :
  is_list h l (x :: xs) → dup_list h d ds →
  (∀ y, y ∈ nodes l (x :: xs) → y ∉ dup_nodes d ds) →
  ∃ h', list_unique less l d h = Ret (tt, h')
    ∧ is_list h' l (x :: (uniq less x xs).1)
    ∧ dup_list h' d (match d with None => [] | Some _ => ds ++ (uniq less x xs).2 end).
Proof. apply list_unique_list. Qed.

Lemma list_unique_correct_witness :
  ∃ h', list_unique (λ x y, (x =? 5) && negb (y =? 5))%positive ex_l (Some (mk_list 7 8)) ex_heap
      = Ret (tt, h')
    ∧ is_list h' ex_l [5; 3]%positive ∧ is_list h' (mk_list 7 8) [4]%positive.
Proof.
  apply (list_unique_correct (λ x y, (x =? 5) && negb (y =? 5))%positive ex_heap ex_l 5 [3; 4]%positive (Some (mk_list 7 8)) []);
    [exact ex_list|exact ex_dups|].
  intros y Hy Hd. unfold nodes in *. revert Hy Hd. simpl. clear. set_solver by lia.
Defined.

(** [list_max] returns the first of the greatest elements and [list_min]
    the first of the least ones, for a strict weak order, without changing
    the heap. *)
Theorem list_max_min_correct less h l x xs :
  (∀ a b, less a b = true → less b a = false) →
  (∀ a b c, less a c = true → less a b = true ∨ less b c = true) →
  is_list h l (x :: xs) →
  (∃ m A B, list_max less l h = Ret (Some m, h) ∧ x :: xs = A ++ m :: B
    ∧ Forall (λ a, less a m = true) A ∧ Forall (λ b, less m b = false) B) ∧
  (∃ m A B, list_min less l h = Ret (Some m, h) ∧ x :: xs = A ++ m :: B
    ∧ Forall (λ a, less m a = true) A ∧ Forall (λ b, less b m = false) B).
Proof.
  intros Ha Hn Hl. split.
  - destruct (max_of_first less x xs Ha Hn) as (A & B & HAB). 
    exists (max_of less x xs), A, B. split; [by apply list_max_list|done].
  - destruct (max_of_first (λ a b, less b a) x xs) as (A & B & HAB).
    { intros a b. apply Ha. } { intros a b c H. destruct (Hn c b a H); auto. }
    exists (min_of less x xs), A, B. split; [by apply list_min_list|done].
Qed.

Lemma list_max_min_correct_witness :
  (∃ m A B, list_max ex_less ex_l ex_heap = Ret (Some m, ex_heap) ∧ [5; 3; 4]%positive = A ++ m :: B
    ∧ Forall (λ a, ex_less a m = true) A ∧ Forall (λ b, ex_less m b = false) B) ∧
  (∃ m A B, list_min ex_less ex_l ex_heap = Ret (Some m, ex_heap) ∧ [5; 3; 4]%positive = A ++ m :: B
    ∧ Forall (λ a, ex_less m a = true) A ∧ Forall (λ b, ex_less b m = false) B).
Proof.
  apply (list_max_min_correct ex_less); [exact ex_less_asym|exact ex_less_neg|exact ex_list].
Defined.
