(* ===== verification/Bitmap.v ===== *)
(** * Bitmaps (lib/kernel/bitmap.c)

    A bitmap is an array of 32-bit elements ([unsigned long] on the i386
    target) that simulates an array of bits.  The routines are the C ones,
    with their [ASSERT]s; an index outside the element array is a fault.  The
    theorems relate them to the array of bits they simulate. *)
From S2P Require Import Prelude.
Local Open Scope Z_scope.

Definition ELEM_BITS : Z := 32.
Definition BITMAP_ERROR : Z := 2 ^ 32 - 1.

Record bitmap : Set := mk_bitmap { bit_cnt : Z; bits : list Z }.

Definition elem_idx (bit_idx : Z) : Z := bit_idx / ELEM_BITS.
Definition bit_mask (bit_idx : Z) : Z := Z.shiftl 1 (bit_idx mod ELEM_BITS).
Definition elem_cnt (cnt : Z) : Z := u32 (cnt + ELEM_BITS - 1) / ELEM_BITS.
Definition byte_cnt (cnt : Z) : Z := u32 (4 * elem_cnt cnt).

Definition last_mask (b : bitmap) : Z :=
  let last_bits := bit_cnt b mod ELEM_BITS in
  if last_bits =? 0 then 2 ^ 32 - 1 else Z.shiftl 1 last_bits - 1.

(** [b->bits[i]]. *)
Definition get_elem (b : bitmap) (i : Z) : res Z :=
  match bits b !! Z.to_nat i with Some w => Ret w | None => Err OutOfBounds end.
Definition set_elem (b : bitmap) (i w : Z) : res bitmap :=
  match bits b !! Z.to_nat i with
  | Some _ => Ret (mk_bitmap (bit_cnt b) (<[Z.to_nat i := w]> (bits b)))
  | None => Err OutOfBounds
  end.

(** The asm bodies: [|= mask], [&= ~mask] and [^= mask] on one element. *)
Definition bitmap_mark (b : bitmap) (bit_idx : Z) : res bitmap :=
  w ← get_elem b (elem_idx bit_idx);
  set_elem b (elem_idx bit_idx) (Z.lor w (bit_mask bit_idx)).

Definition bitmap_reset (b : bitmap) (bit_idx : Z) : res bitmap :=
  w ← get_elem b (elem_idx bit_idx);
  set_elem b (elem_idx bit_idx) (Z.land w (u32 (Z.lnot (bit_mask bit_idx)))).

Definition bitmap_flip (b : bitmap) (bit_idx : Z) : res bitmap :=
  w ← get_elem b (elem_idx bit_idx);
  set_elem b (elem_idx bit_idx) (Z.lxor w (bit_mask bit_idx)).

Definition bitmap_size (b : bitmap) : Z := bit_cnt b.

Definition bitmap_set (b : bitmap) (idx : Z) (value : bool) : res bitmap :=
  RASSERT (idx <? bit_cnt b);;
  if value then bitmap_mark b idx else bitmap_reset b idx.

Definition bitmap_test (b : bitmap) (idx : Z) : res bool :=
  RASSERT (idx <? bit_cnt b);;
  w ← get_elem b (elem_idx idx);
  mret (negb (Z.land w (bit_mask idx) =? 0)).

(** [for (i = 0; i < n; i++) bitmap_set (b, start + i, value)]. *)
Fixpoint set_loop (n : nat) (b : bitmap) (idx : Z) (value : bool) : res bitmap :=
  match n with
  | O => mret b
  | S n' => b' ← bitmap_set b (u32 idx) value; set_loop n' b' (idx + 1) value
  end.

Definition bitmap_set_multiple (b : bitmap) (start cnt : Z) (value : bool) : res bitmap :=
  RASSERT (start <=? bit_cnt b);;
  RASSERT (u32 (start + cnt) <=? bit_cnt b);;
  set_loop (Z.to_nat cnt) b start value.

Definition bitmap_set_all (b : bitmap) (value : bool) : res bitmap :=
  bitmap_set_multiple b 0 (bitmap_size b) value.

Fixpoint count_loop (n : nat) (b : bitmap) (idx : Z) (value : bool) (value_cnt : Z) : res Z :=
  match n with
  | O => mret value_cnt
  | S n' =>
    v ← bitmap_test b (u32 idx);
    count_loop n' b (idx + 1) value (if eqb v value then value_cnt + 1 else value_cnt)
  end.

Definition bitmap_count (b : bitmap) (start cnt : Z) (value : bool) : res Z :=
  RASSERT (start <=? bit_cnt b);;
  RASSERT (u32 (start + cnt) <=? bit_cnt b);;
  count_loop (Z.to_nat cnt) b start value 0.

Fixpoint contains_loop (n : nat) (b : bitmap) (idx : Z) (value : bool) : res bool :=
  match n with
  | O => mret false
  | S n' =>
    v ← bitmap_test b (u32 idx);
    if eqb v value then mret true else contains_loop n' b (idx + 1) value
  end.

Definition bitmap_contains (b : bitmap) (start cnt : Z) (value : bool) : res bool :=
  RASSERT (start <=? bit_cnt b);;
  RASSERT (u32 (start + cnt) <=? bit_cnt b);;
  contains_loop (Z.to_nat cnt) b start value.

Definition bitmap_any (b : bitmap) (start cnt : Z) : res bool :=
  bitmap_contains b start cnt true.
Definition bitmap_none (b : bitmap) (start cnt : Z) : res bool :=
  c ← bitmap_contains b start cnt true; mret (negb c).
Definition bitmap_all (b : bitmap) (start cnt : Z) : res bool :=
  c ← bitmap_contains b start cnt false; mret (negb c).

(** [for (i = start; i <= last; i++)]: [n] iterations are left. *)
Fixpoint scan_loop (n : nat) (b : bitmap) (i cnt : Z) (value : bool) : res Z :=
  match n with
  | O => mret BITMAP_ERROR
  | S n' =>
    c ← bitmap_contains b i cnt (negb value);
    if negb c then mret i else scan_loop n' b (i + 1) cnt value
  end.

Definition bitmap_scan (b : bitmap) (start cnt : Z) (value : bool) : res Z :=
  RASSERT (start <=? bit_cnt b);;
  if cnt <=? bit_cnt b then
    let last := bit_cnt b - cnt in
    scan_loop (Z.to_nat (last + 1 - start)) b start cnt value
  else mret BITMAP_ERROR.

Definition bitmap_scan_and_flip (b : bitmap) (start cnt : Z) (value : bool) : res (Z * bitmap) :=
  idx ← bitmap_scan b start cnt value;
  if idx =? BITMAP_ERROR then mret (idx, b) else
  b' ← bitmap_set_multiple b idx cnt (negb value);
  mret (idx, b').

(** Creation: [malloc] gives the header or not ([got_header]), and storage for
    the elements with arbitrary contents, or nothing. *)
Definition bitmap_create (got_header : bool) (storage : option (list Z)) (cnt : Z)
    : res (option bitmap) :=
  if got_header then
    match storage with
    | None => if cnt =? 0 then b ← bitmap_set_all (mk_bitmap cnt []) false; mret (Some b)
              else mret None
    | Some ws => b ← bitmap_set_all (mk_bitmap cnt ws) false; mret (Some b)
    end
  else mret None.

Definition bitmap_buf_size (cnt : Z) : Z := u32 (8 + byte_cnt cnt).

(** [bitmap_create_in_buf]: [ws] are the elements after the header. *)
Definition bitmap_create_in_buf (cnt : Z) (ws : list Z) (block_size : Z) : res bitmap :=
  RASSERT (bitmap_buf_size cnt <=? block_size);;
  bitmap_set_all (mk_bitmap cnt ws) false.

Definition bitmap_file_size (b : bitmap) : Z := byte_cnt (bit_cnt b).

(** * The array of bits *)
Definition bit (b : bitmap) (i : Z) : bool :=
  Z.testbit (default 0 (bits b !! Z.to_nat (elem_idx i))) (i mod ELEM_BITS).

(** Well-formed bitmaps: enough elements, each a 32-bit word. *)
Record wf (b : bitmap) : Prop := {
  wf_cnt : 0 <= bit_cnt b < 2 ^ 31;
  wf_len : elem_cnt (bit_cnt b) <= Z.of_nat (length (bits b));
  wf_words : Forall (λ w, 0 <= w < 2 ^ 32) (bits b)
}.

Lemma elem_cnt_eq cnt : 0 <= cnt < 2 ^ 31 → elem_cnt cnt = (cnt + 31) / 32.
Proof. intros H. unfold elem_cnt, ELEM_BITS. rewrite u32_small by lia. f_equal. lia. Qed.

Lemma land_mask_testbit w k : 0 <= k → negb (Z.land w (Z.shiftl 1 k) =? 0) = Z.testbit w k.
Proof.
  intros Hk. rewrite Z.shiftl_1_l.
  assert (Z.land w (2 ^ k) = if Z.testbit w k then 2 ^ k else 0) as ->.
  { apply Z.bits_inj'. intros n Hn. rewrite Z.land_spec, Z.pow2_bits_eqb by done.
    destruct (Z.eqb_spec k n) as [->|Hne].
    - rewrite andb_true_r. destruct (Z.testbit w n); [by rewrite Z.pow2_bits_true|by rewrite Z.bits_0].
    - rewrite andb_false_r. destruct (Z.testbit w k); [by rewrite Z.pow2_bits_false|by rewrite Z.bits_0]. }
  destruct (Z.testbit w k); [|done]. destruct (Z.eqb_spec (2 ^ k) 0); [|done].
  pose proof (Z.pow_pos_nonneg 2 k). lia.
Qed.

Lemma testbit_high w k : 0 <= w < 2 ^ 32 → 32 <= k → Z.testbit w k = false.
Proof.
  intros Hw Hk. destruct (Z.eq_dec w 0) as [->|]; [by rewrite Z.bits_0|].
  apply Z.bits_above_log2; [lia|]. apply Z.log2_lt_pow2; [lia|].
  pose proof (Z.pow_le_mono_r 2 32 k). lia.
Qed.

Lemma u32_testbit w k : 0 <= k < 32 → Z.testbit (u32 w) k = Z.testbit w k.
Proof. intros. unfold u32. by rewrite Z.mod_pow2_bits_low by lia. Qed.

Lemma word_bound w : 0 <= w → (∀ k, 32 <= k → Z.testbit w k = false) → 0 <= w < 2 ^ 32.
Proof.
  intros Hw Hb. split; [done|]. destruct (Z.eq_dec w 0); [lia|].
  apply Z.log2_lt_pow2; [lia|]. destruct (Z.lt_ge_cases (Z.log2 w) 32) as [|Hge]; [done|].
  specialize (Hb _ Hge). rewrite Z.bit_log2 in Hb by lia. done.
Qed.

Section bits.
Context (b : bitmap) (Hwf : wf b).

Lemma elem_lookup i : 0 <= i < bit_cnt b →
  ∃ w, bits b !! Z.to_nat (elem_idx i) = Some w ∧ 0 <= w < 2 ^ 32.
Proof.
  intros Hi. destruct Hwf as [Hc Hl Hw]. rewrite elem_cnt_eq in Hl by done.
  destruct (lookup_lt_is_Some_2 (bits b) (Z.to_nat (elem_idx i))) as [w E].
  { unfold elem_idx, ELEM_BITS. pose proof (Z.div_pos i 32).
    assert (i / 32 < (bit_cnt b + 31) / 32); [|lia].
    apply Z.div_lt_upper_bound; [lia|]. pose proof (Z.div_mod (bit_cnt b + 31) 32).
    pose proof (Z.mod_pos_bound (bit_cnt b + 31) 32). lia. }
  exists w. split; [done|]. by eapply Forall_lookup_1 in Hw.
Qed.

Lemma bitmap_test_bit i : 0 <= i < bit_cnt b → bitmap_test b i = Ret (bit b i).
Proof.
  intros Hi. destruct (elem_lookup i Hi) as (w & E & _). unfold bitmap_test, RASSERT.
  rewrite (proj2 (Z.ltb_lt _ _)) by lia. unfold get_elem, bit. simpl. rewrite E. simpl.
  unfold bit_mask. rewrite land_mask_testbit; [done|]. apply Z.mod_pos_bound. done.
Qed.

(** Replacing one word. *)
Lemma set_elem_bit i w' :
  0 <= i < bit_cnt b → 0 <= w' < 2 ^ 32 →
  ∃ b', set_elem b (elem_idx i) w' = Ret b' ∧ wf b' ∧ bit_cnt b' = bit_cnt b
    ∧ ∀ j, 0 <= j → bit b' j = if elem_idx j =? elem_idx i then Z.testbit w' (j mod 32) else bit b j.
Proof.
  intros Hi Hw'. destruct (elem_lookup i Hi) as (w & E & _). unfold set_elem. rewrite E.
  eexists. split; [done|]. split_and!; [|done|].
  - destruct Hwf as [Hc Hl Hw]. split; simpl; [done|by rewrite length_insert|].
    by apply Forall_insert.
  - intros j Hj. unfold bit. simpl. destruct (Z.eqb_spec (elem_idx j) (elem_idx i)) as [->|Hne].
    + rewrite list_lookup_insert_eq by (by eapply lookup_lt_Some). done.
    + rewrite list_lookup_insert_ne; [done|]. unfold elem_idx, ELEM_BITS in *.
      pose proof (Z.div_pos i 32). pose proof (Z.div_pos j 32). lia.
Qed.

Lemma same_index i j : 0 <= i → 0 <= j → elem_idx j = elem_idx i → j mod 32 = i mod 32 → j = i.
Proof.
  unfold elem_idx, ELEM_BITS. intros. pose proof (Z.div_mod i 32). pose proof (Z.div_mod j 32). lia.
Qed.

Lemma bitmap_set_bit i v : 0 <= i < bit_cnt b →
  ∃ b', bitmap_set b i v = Ret b' ∧ wf b' ∧ bit_cnt b' = bit_cnt b
    ∧ ∀ j, 0 <= j → bit b' j = if j =? i then v else bit b j.
Proof.
  intros Hi. destruct (elem_lookup i Hi) as (w & E & Hw). unfold bitmap_set, RASSERT.
  rewrite (proj2 (Z.ltb_lt _ _)) by lia. simpl. unfold bitmap_mark, bitmap_reset, get_elem.
  rewrite E. simpl. set (k := i mod 32).
  assert (0 <= k < 32) as Hk by (apply Z.mod_pos_bound; lia).
  set (w' := if v then Z.lor w (bit_mask i) else Z.land w (u32 (Z.lnot (bit_mask i)))).
  assert (∀ n, 0 <= n < 32 → Z.testbit w' n = if n =? k then v else Z.testbit w n) as Hbits.
  { intros n Hn. unfold w', bit_mask, ELEM_BITS. fold k. rewrite Z.shiftl_1_l. destruct v.
    - rewrite Z.lor_spec, Z.pow2_bits_eqb by lia. rewrite Z.eqb_sym.
      destruct (n =? k); [by rewrite orb_true_r|by rewrite orb_false_r].
    - rewrite Z.land_spec, u32_testbit, Z.lnot_spec, Z.pow2_bits_eqb by lia. rewrite Z.eqb_sym.
      destruct (n =? k); [by rewrite andb_false_r|by rewrite andb_true_r]. }
  assert (0 <= w' < 2 ^ 32) as Hw'.
  { apply word_bound.
    - unfold w'. destruct v; [apply Z.lor_nonneg; split; [lia|]|apply Z.land_nonneg; lia].
      unfold bit_mask. rewrite Z.shiftl_1_l. apply Z.pow_nonneg. lia.
    - intros n Hn. unfold w', bit_mask, ELEM_BITS. fold k. rewrite Z.shiftl_1_l. destruct v.
      + rewrite Z.lor_spec, Z.pow2_bits_eqb, testbit_high by lia.
        destruct (Z.eqb_spec k n); [lia|done].
      + by rewrite Z.land_spec, testbit_high by lia. }
  destruct (set_elem_bit i w' Hi Hw') as (b' & Eb & Wb & Cb & Bb).
  exists b'. split_and!; try done; [by destruct v|]. intros j Hj. rewrite Bb by done.
  destruct (Z.eqb_spec (elem_idx j) (elem_idx i)) as [Ei|Ne].
  - rewrite Hbits by (apply Z.mod_pos_bound; lia). unfold k.
    destruct (Z.eqb_spec (j mod 32) (i mod 32)) as [Em|Nm].
    + rewrite (same_index i j) by lia. by rewrite Z.eqb_refl.
    + destruct (Z.eqb_spec j i) as [->|_]; [done|]. unfold bit. by rewrite Ei, E.
  - destruct (Z.eqb_spec j i) as [->|_]; done.
Qed.
End bits.

(** * Ranges of bits *)
Definition range_is (b : bitmap) (start cnt : Z) (v : bool) : Prop :=
  ∀ j, start <= j < start + cnt → bit b j = v.

(** Reference: how many of the [n] bits from [i] on equal [v]. *)
Fixpoint count_bits (b : bitmap) (i : Z) (n : nat) (v : bool) : Z :=
  match n with
  | O => 0
  | S n' => (if eqb (bit b i) v then 1 else 0) + count_bits b (i + 1) n' v
  end.

Lemma set_loop_bits n b i v :
  wf b → 0 <= i → i + Z.of_nat n <= bit_cnt b →
  ∃ b', set_loop n b i v = Ret b' ∧ wf b' ∧ bit_cnt b' = bit_cnt b
    ∧ ∀ j, 0 <= j →
        bit b' j = if (i <=? j) && (j <? i + Z.of_nat n) then v else bit b j.
Proof.
  revert b i. induction n as [|n IH]; intros b i Hwf Hi Hn; cbn [set_loop].
  { exists b. split_and!; try done. intros j Hj.
    destruct (Z.leb_spec i j), (Z.ltb_spec j (i + Z.of_nat 0)); (lia || done). }
  pose proof (wf_cnt b Hwf). rewrite u32_small by lia.
  destruct (bitmap_set_bit b Hwf i v) as (b1 & E1 & W1 & C1 & B1); [lia|].
  rewrite E1. simpl. destruct (IH b1 (i + 1)) as (b2 & E2 & W2 & C2 & B2); [done|lia|lia|].
  exists b2. split_and!; [done|done|congruence|]. intros j Hj. rewrite B2, B1 by done.
  destruct (Z.leb_spec (i + 1) j), (Z.ltb_spec j (i + 1 + Z.of_nat n)),
    (Z.leb_spec i j), (Z.ltb_spec j (i + Z.of_nat (S n))), (Z.eqb_spec j i);
    simpl; (lia || done).
Qed.

Lemma bitmap_set_multiple_bits b start cnt v :
  wf b → 0 <= start → 0 <= cnt → start + cnt <= bit_cnt b →
  ∃ b', bitmap_set_multiple b start cnt v = Ret b' ∧ wf b' ∧ bit_cnt b' = bit_cnt b
    ∧ range_is b' start cnt v
    ∧ ∀ j, 0 <= j → ¬ (start <= j < start + cnt) → bit b' j = bit b j.
Proof.
  intros Hwf Hs Hc Hn. pose proof (wf_cnt b Hwf).
  destruct (set_loop_bits (Z.to_nat cnt) b start v) as (b' & E & W & C & B); [done|done|lia|].
  exists b'. rewrite Z2Nat.id in B by done.
  unfold bitmap_set_multiple, RASSERT. rewrite u32_small by lia.
  rewrite !(proj2 (Z.leb_le _ _)) by lia. split_and!; try done.
  - intros j Hj. rewrite B by lia.
    destruct (Z.leb_spec start j), (Z.ltb_spec j (start + cnt)); simpl; (lia || done).
  - intros j Hj Hno. rewrite B by lia.
    destruct (Z.leb_spec start j), (Z.ltb_spec j (start + cnt)); simpl; (lia || done).
Qed.

Lemma contains_loop_bits n b i v :
  wf b → 0 <= i → i + Z.of_nat n <= bit_cnt b →
  ∃ c, contains_loop n b i v = Ret c
     ∧ (c = false ↔ range_is b i (Z.of_nat n) (negb v)).
Proof.
  revert i. induction n as [|n IH]; intros i Hwf Hi Hn; cbn [contains_loop].
  { exists false. split; [done|]. split; [|done]. intros _ j ?. lia. }
  pose proof (wf_cnt b Hwf). rewrite u32_small, bitmap_test_bit by (done || lia). simpl.
  destruct (bit b i) eqn:Ebit, v; simpl;
    try (exists true; split; [done|]; split; [done|];
         intros HR; specialize (HR i); rewrite Ebit in HR; simpl in HR; naive_solver lia).
  all: destruct (IH (i + 1)) as (c & Ec & Hc); [done|lia|lia|];
    exists c; split; [done|]; rewrite Hc; split; intros HR j Hj;
    [destruct (Z.eq_dec j i) as [->|]; [done|]; apply HR; lia|apply HR; lia].
Qed.

Lemma bitmap_contains_bits b start cnt v :
  wf b → 0 <= start → 0 <= cnt → start + cnt <= bit_cnt b →
  ∃ c, bitmap_contains b start cnt v = Ret c ∧ (c = false ↔ range_is b start cnt (negb v)).
Proof.
  intros Hwf Hs Hc Hn. pose proof (wf_cnt b Hwf).
  destruct (contains_loop_bits (Z.to_nat cnt) b start v) as (c & E & H'); [done|done|lia|].
  exists c. rewrite Z2Nat.id in H' by done.
  unfold bitmap_contains, RASSERT. rewrite u32_small by lia.
  by rewrite !(proj2 (Z.leb_le _ _)) by lia.
Qed.

Lemma bitmap_all_bits b start cnt :
  wf b → 0 <= start → 0 <= cnt → start + cnt <= bit_cnt b →
  ∃ c, bitmap_all b start cnt = Ret c ∧ (c = true ↔ range_is b start cnt true).
Proof.
  intros. destruct (bitmap_contains_bits b start cnt false) as (c & E & Hc); [done..|].
  exists (negb c). unfold bitmap_all. rewrite E. simpl. split; [done|].
  rewrite <- Hc. by destruct c.
Qed.

Lemma count_loop_bits n b i v c :
  wf b → 0 <= i → i + Z.of_nat n <= bit_cnt b →
  count_loop n b i v c = Ret (c + count_bits b i n v).
Proof.
  revert i c. induction n as [|n IH]; intros i c Hwf Hi Hn; cbn [count_loop count_bits].
  { by rewrite Z.add_0_r. }
  pose proof (wf_cnt b Hwf). rewrite u32_small, bitmap_test_bit by (done || lia). simpl.
  rewrite IH by (done || lia). f_equal. destruct (eqb _ _); lia.
Qed.

(** Where a scan may stop: the group starts at or after [start] and fits. *)
Definition group_at (b : bitmap) (start cnt : Z) (v : bool) (i : Z) : Prop :=
  start <= i ∧ i + cnt <= bit_cnt b ∧ range_is b i cnt v.

Lemma scan_loop_bits n b i cnt v :
  wf b → 0 <= i → 0 <= cnt → i + Z.of_nat n + cnt <= bit_cnt b + 1 →
  ∃ r, scan_loop n b i cnt v = Ret r ∧
    ((r = BITMAP_ERROR ∧ ∀ k, i <= k < i + Z.of_nat n → ¬ range_is b k cnt v) ∨
     (i <= r < i + Z.of_nat n ∧ range_is b r cnt v ∧ ∀ k, i <= k < r → ¬ range_is b k cnt v)).
Proof.
  revert i. induction n as [|n IH]; intros i Hwf Hi Hc Hn; cbn [scan_loop].
  { exists BITMAP_ERROR. split; [done|]. left. split; [done|]. lia. }
  destruct (bitmap_contains_bits b i cnt (negb v)) as (c & E & H'); [done|done|done|lia|].
  rewrite negb_involutive in H'. rewrite E. simpl. destruct c; simpl.
  - destruct (IH (i + 1)) as (r & Er & Hr); [done|lia|done|lia|]. exists r. split; [done|].
    assert (¬ range_is b i cnt v) as Hno by (intros HR; by apply H' in HR).
    destruct Hr as [[-> Hr]|(Hr1 & Hr2 & Hr3)]; [left|right]; split_and!; try done; try lia.
    + intros k Hk. destruct (Z.eq_dec k i) as [->|]; [done|]. apply Hr. lia.
    + intros k Hk. destruct (Z.eq_dec k i) as [->|]; [done|]. apply Hr3. lia.
  - exists i. split; [done|]. right. split_and!; [lia|lia|by apply H'|]. lia.
Qed.

Lemma bitmap_scan_bits b start cnt v :
  wf b → 0 <= start <= bit_cnt b → 0 <= cnt < 2 ^ 32 →
  ∃ r, bitmap_scan b start cnt v = Ret r ∧
    ((r = BITMAP_ERROR ∧ ∀ k, ¬ group_at b start cnt v k) ∨
     (r ≠ BITMAP_ERROR ∧ group_at b start cnt v r ∧ ∀ k, k < r → ¬ group_at b start cnt v k)).
Proof.
  intros Hwf Hs Hc. pose proof (wf_cnt b Hwf) as Hcnt. unfold bitmap_scan, RASSERT.
  rewrite (proj2 (Z.leb_le start _)) by lia. simpl. destruct (Z.leb_spec cnt (bit_cnt b)) as [Hle|Hgt].
  - destruct (Z.le_gt_cases start (bit_cnt b - cnt + 1)) as [Hfit|Hno].
    2: { rewrite Z2Nat.nonpos by lia. exists BITMAP_ERROR. split; [done|]. left.
         split; [done|]. intros k (H1 & H2 & _). lia. }
    destruct (scan_loop_bits (Z.to_nat (bit_cnt b - cnt + 1 - start)) b start cnt v) as (r & E & Hr);
      [done|lia|lia|lia|].
    exists r. split; [done|]. unfold group_at.
    destruct Hr as [[-> Hr]|(Hr1 & Hr2 & Hr3)]; [left|right].
    + split; [done|]. intros k (H1 & H2 & H3). apply (Hr k); [lia|done].
    + unfold BITMAP_ERROR. split_and!; [lia|lia|lia|done|].
      intros k Hk (H1 & H2 & H3). apply (Hr3 k); [lia|done].
  - exists BITMAP_ERROR. split; [done|]. left. split; [done|]. intros k (H1 & H2 & _). lia.
Qed.

(** Clearing every bit of fresh storage. *)
Lemma bitmap_set_all_bits b v :
  wf b → ∃ b', bitmap_set_all b v = Ret b' ∧ wf b' ∧ bit_cnt b' = bit_cnt b
    ∧ range_is b' 0 (bit_cnt b) v.
Proof.
  intros Hwf. pose proof (wf_cnt b Hwf) as Hc. unfold bitmap_set_all, bitmap_size.
  destruct (bitmap_set_multiple_bits b 0 (bit_cnt b) v) as (b' & E & W & C & R & _); [done|lia..|].
  by exists b'.
Qed.

Lemma bitmap_scan_and_flip_bits b start cnt value :
  wf b → 0 <= start <= bit_cnt b → 0 <= cnt < 2 ^ 32 →
  ∃ r b', bitmap_scan_and_flip b start cnt value = Ret (r, b') ∧ wf b' ∧ bit_cnt b' = bit_cnt b ∧
    ((r = BITMAP_ERROR ∧ b' = b ∧ ∀ k, ¬ group_at b start cnt value k) ∨
     (r ≠ BITMAP_ERROR ∧ group_at b start cnt value r
      ∧ (∀ k, k < r → ¬ group_at b start cnt value k)
      ∧ range_is b' r cnt (negb value)
      ∧ ∀ j, 0 <= j → ¬ (r <= j < r + cnt) → bit b' j = bit b j)).
Proof.
  intros Hwf Hs Hc. destruct (bitmap_scan_bits b start cnt value) as (r & E & Hr); [done..|].
  unfold bitmap_scan_and_flip. rewrite E. simpl.
  destruct Hr as [[-> Hno]|(Hne & Hg & Hfirst)].
  - exists BITMAP_ERROR, b. rewrite Z.eqb_refl. split_and!; try done. by left.
  - rewrite (proj2 (Z.eqb_neq _ _)) by done. destruct Hg as (H1 & H2 & H3).
    destruct (bitmap_set_multiple_bits b r cnt (negb value)) as (b' & E' & W & C & R & K);
      [done|lia|lia|lia|].
    rewrite E'. exists r, b'. split_and!; try done. right. by split_and!.
Qed.

(** * Theorems *)


(** A bitmap of 40 bits over three words, bits 0, 1 and 3 set. *)
Definition ex_bitmap : bitmap := mk_bitmap 40 [11; 0; 77].

Lemma ex_bitmap_wf : wf ex_bitmap.
Proof. split; simpl; [lia|by rewrite elem_cnt_eq by lia|]. repeat constructor; lia. Qed.


(** the bulk operations act on the simulated array of bits:
    [bitmap_set_multiple] writes exactly the requested range, [bitmap_count]
    counts it, [bitmap_contains] searches it, and a range that runs past the
    end of the bitmap is an assertion failure for all three. *)
Theorem bitmap_ranges b start cnt value :
  wf b → 0 <= start → 0 <= cnt < 2 ^ 31 →
  (start + cnt <= bit_cnt b →
    (∃ b', bitmap_set_multiple b start cnt value = Ret b' ∧ wf b'
       ∧ range_is b' start cnt value
       ∧ ∀ j, 0 <= j → ¬ (start <= j < start + cnt) → bit b' j = bit b j)
    ∧ bitmap_count b start cnt value = Ret (count_bits b start (Z.to_nat cnt) value)
    ∧ ∃ c, bitmap_contains b start cnt value = Ret c
       ∧ (c = false ↔ range_is b start cnt (negb value))) ∧
  (bit_cnt b < start + cnt → start < 2 ^ 31 →
    bitmap_set_multiple b start cnt value = Err AssertFail
    ∧ bitmap_count b start cnt value = Err AssertFail
    ∧ bitmap_contains b start cnt value = Err AssertFail).
Proof.
  intros Hwf Hs Hc. pose proof (wf_cnt b Hwf) as Hcnt. split.
  - intros Hfit. split_and!.
    + destruct (bitmap_set_multiple_bits b start cnt value) as (b' & E & W & _ & R & K); [done|lia..|].
      by exists b'.
    + unfold bitmap_count, RASSERT. rewrite u32_small by lia.
      rewrite !(proj2 (Z.leb_le _ _)) by lia. simpl.
      by rewrite count_loop_bits by (done || lia).
    + by apply bitmap_contains_bits; [done|lia..].
  - intros Hout Hlt. unfold bitmap_set_multiple, bitmap_count, bitmap_contains, RASSERT.
    rewrite u32_small by lia. rewrite (proj2 (Z.leb_gt (start + cnt) _)) by lia.
    by destruct (start <=? bit_cnt b).
Qed.

Lemma bitmap_ranges_witness :
  ((∃ b', bitmap_set_multiple ex_bitmap 1 35 true = Ret b' ∧ wf b' ∧ range_is b' 1 35 true
       ∧ ∀ j, 0 <= j → ¬ (1 <= j < 1 + 35) → bit b' j = bit ex_bitmap j)
    ∧ bitmap_count ex_bitmap 1 35 true = Ret 2)
  ∧ bitmap_contains ex_bitmap 30 20 true = Err AssertFail.
Proof.
  split.
  - destruct (bitmap_ranges ex_bitmap 1 35 true ex_bitmap_wf) as [H _]; [lia|lia|].
    destruct H as (H1 & H2 & _); [simpl; lia|]. exact (conj H1 H2).
  - destruct (bitmap_ranges ex_bitmap 30 20 true ex_bitmap_wf) as [_ H]; [lia|lia|].
    apply H; simpl; lia.
Defined.
