(* ===== verification/Vaddr.v ===== *)
(** * Virtual addresses (threads/vaddr.h)

    Addresses are 32-bit unsigned values; a null pointer is address 0. *)
From S2P Require Import Prelude.
Local Open Scope Z_scope.

Definition PGBITS : Z := 12.
Definition PGSIZE : Z := Z.shiftl 1 PGBITS.
Definition PGMASK : Z := Z.shiftl (Z.shiftl 1 PGBITS - 1) 0.
Definition PHYS_BASE : Z := 0xc0000000.

Definition pg_ofs (va : Z) : Z := Z.land va PGMASK.
Definition pg_no (va : Z) : Z := Z.shiftr va PGBITS.
Definition pg_round_up (va : Z) : Z := Z.land (u32 (va + PGSIZE - 1)) (u32 (Z.lnot PGMASK)).
Definition pg_round_down (va : Z) : Z := Z.land va (u32 (Z.lnot PGMASK)).
Definition is_user_vaddr (va : Z) : bool := va <? PHYS_BASE.
Definition is_kernel_vaddr (va : Z) : bool := PHYS_BASE <=? va.
Definition ptov (paddr : Z) : res Z :=
  RASSERT (paddr <? PHYS_BASE);; mret (u32 (paddr + PHYS_BASE)).
Definition vtop (va : Z) : res Z :=
  RASSERT (is_kernel_vaddr va);; mret (u32 (va - PHYS_BASE)).

(** ** Arithmetic reading of the bit operations *)
Lemma pg_ofs_mod va : pg_ofs va = va mod 4096.
Proof.
  unfold pg_ofs. change PGMASK with (Z.ones 12). by rewrite Z.land_ones by lia.
Qed.

Lemma pg_no_div va : pg_no va = va / 4096.
Proof. unfold pg_no, PGBITS. by rewrite Z.shiftr_div_pow2 by lia. Qed.

Lemma land_not_mask va : 0 <= va < 2 ^ 32 → Z.land va (u32 (Z.lnot PGMASK)) = va / 4096 * 4096.
Proof.
  intros Hva. change (u32 (Z.lnot PGMASK)) with 0xfffff000.
  replace 0xfffff000 with (Z.shiftl (Z.ones 20) 12) by reflexivity.
  replace (va / 4096 * 4096) with (Z.shiftl (Z.shiftr va 12) 12)
    by (rewrite Z.shiftr_div_pow2, Z.shiftl_mul_pow2 by lia; done).
  apply Z.bits_inj'. intros n Hn. rewrite Z.land_spec, !Z.shiftl_spec by lia.
  destruct (Z.lt_ge_cases n 12) as [Hlt|Hge].
  - rewrite !(Z.testbit_neg_r _ (n - 12)) by lia. by rewrite andb_false_r.
  - rewrite Z.shiftr_spec by lia. replace (n - 12 + 12) with n by lia.
    destruct (Z.lt_ge_cases n 32) as [Hlt|Hge'].
    + rewrite Z.ones_spec_low by lia. by rewrite andb_true_r.
    + rewrite Z.ones_spec_high by lia. rewrite andb_false_r. symmetry.
      destruct (Z.eq_dec va 0) as [->|]; [by rewrite Z.bits_0|].
      apply Z.bits_above_log2; [lia|]. apply Z.log2_lt_pow2; [lia|].
      pose proof (Z.pow_le_mono_r 2 32 n). lia.
Qed.

Lemma pg_round_down_div va : 0 <= va < 2 ^ 32 → pg_round_down va = va / 4096 * 4096.
Proof. apply land_not_mask. Qed.

Lemma pg_round_up_div va :
  0 <= va <= 2 ^ 32 - 4096 → pg_round_up va = (va + 4095) / 4096 * 4096.
Proof.
  intros Hva. unfold pg_round_up. change PGSIZE with 4096. rewrite u32_small by lia.
  rewrite land_not_mask by lia. do 2 f_equal. lia.
Qed.
