(* ===== verification/Palloc.v ===== *)
(** * Page allocator (threads/palloc.c)

    Physical memory is split into a kernel pool and a user pool; each pool
    keeps a bitmap of its pages in use.  [ram] holds the contents of pages by
    page number.  The theorems show that a pool hands out pages that were
    free, inside the pool, marked in use and zeroed when asked, and that a
    freed group goes back to the pool it came from. *)
From S2P Require Import Prelude Bitmap Vaddr.
Local Open Scope Z_scope.

Record pool : Set := mk_pool { lock : bool; used_map : bitmap; base : Z }.

Record palloc_state : Set := mk_state {
  kernel_pool : pool;
  user_pool : pool;
  ram : gmap Z (list Z)
}.

Definition PAL_ASSERT : Z := 1.
Definition PAL_ZERO : Z := 2.
Definition PAL_USER : Z := 4.
Definition has_flag (flags f : Z) : bool := negb (Z.land flags f =? 0).

(** A page filled with the byte [v]. *)
Definition filled_page (v : Z) : list Z := replicate (Z.to_nat PGSIZE) v.
#[global] Arguments filled_page : simpl never.
#[local] Arguments u32 : simpl never.

(** [memset (page, v, PGSIZE * cnt)] on whole pages. *)
Fixpoint memset_pages (cnt : nat) (page v : Z) (m : gmap Z (list Z)) : gmap Z (list Z) :=
  match cnt with
  | O => m
  | S cnt' => <[page := filled_page v]> (memset_pages cnt' (page + 1) v m)
  end.

Definition get_pool (user : bool) (s : palloc_state) : pool :=
  if user then user_pool s else kernel_pool s.
Definition set_pool (user : bool) (p : pool) (s : palloc_state) : palloc_state :=
  if user then mk_state (kernel_pool s) p (ram s) else mk_state p (user_pool s) (ram s).

Definition palloc_get_multiple (flags page_cnt : Z) : cmd palloc_state Z := λ s,
  let user := has_flag flags PAL_USER in
  if page_cnt =? 0 then Ret (0, s) else
  let p := get_pool user s in
  match
    held ← lock_acquire_seq (lock p);
    '(page_idx, used') ← bitmap_scan_and_flip (used_map p) 0 page_cnt false;
    free ← lock_release_seq held;
    mret (page_idx, mk_pool free used' (base p))
  with
  | Err e => Err e
  | Ret (page_idx, p') =>
    let s := set_pool user p' s in
    let pages := if page_idx =? BITMAP_ERROR then 0 else u32 (base p' + PGSIZE * page_idx) in
    if pages =? 0 then
      if has_flag flags PAL_ASSERT then Err KernelPanic else Ret (pages, s)
    else if has_flag flags PAL_ZERO then
      Ret (pages, mk_state (kernel_pool s) (user_pool s)
                   (memset_pages (Z.to_nat page_cnt) (pg_no pages) 0 (ram s)))
    else Ret (pages, s)
  end.

Definition palloc_get_page (flags : Z) : cmd palloc_state Z := palloc_get_multiple flags 1.

Definition page_from_pool (p : pool) (page : Z) : bool :=
  let page_no := pg_no page in
  let start_page := pg_no (base p) in
  let end_page := u32 (start_page + bitmap_size (used_map p)) in
  (start_page <=? page_no) && (page_no <? end_page).

Definition palloc_free_multiple (pages page_cnt : Z) : cmd palloc_state unit := λ s,
  if negb (pg_ofs pages =? 0) then Err AssertFail else
  if (pages =? 0) || (page_cnt =? 0) then Ret (tt, s) else
  let free_in (user : bool) :=
    let p := get_pool user s in
    let page_idx := u32 (pg_no pages - pg_no (base p)) in
    let ram' := memset_pages (Z.to_nat page_cnt) (pg_no pages) 0xcc (ram s) in
    match
      all ← bitmap_all (used_map p) page_idx page_cnt;
      RASSERT all;;
      bitmap_set_multiple (used_map p) page_idx page_cnt false
    with
    | Err e => Err e
    | Ret used' =>
      let s' := set_pool user (mk_pool (lock p) used' (base p)) s in
      Ret (tt, mk_state (kernel_pool s') (user_pool s') ram')
    end in
  if page_from_pool (kernel_pool s) pages then free_in false
  else if page_from_pool (user_pool s) pages then free_in true
  else Err KernelPanic.

Definition palloc_free_page (page : Z) : cmd palloc_state unit := palloc_free_multiple page 1.

(** [ws]: what the memory that will hold the pool's bitmap contains. *)
Definition init_pool (pool_base page_cnt : Z) (ws : list Z) : res pool :=
  let bm_pages := DIV_ROUND_UP (bitmap_buf_size page_cnt) PGSIZE in
  if page_cnt <? bm_pages then Err KernelPanic else
  let page_cnt := page_cnt - bm_pages in
  um ← bitmap_create_in_buf page_cnt ws (bm_pages * PGSIZE);
  mret (mk_pool false um (u32 (pool_base + bm_pages * PGSIZE))).

Definition palloc_init (init_ram_pages user_page_limit : Z) (kws uws : list Z)
    (m : gmap Z (list Z)) : res palloc_state :=
  free_start ← ptov (1024 * 1024);
  free_end ← ptov (u32 (init_ram_pages * PGSIZE));
  let free_pages := u32 (free_end - free_start) / PGSIZE in
  let user_pages := free_pages / 2 in
  let user_pages := if user_page_limit <? user_pages then user_page_limit else user_pages in
  let kernel_pages := free_pages - user_pages in
  kp ← init_pool free_start kernel_pages kws;
  up ← init_pool (u32 (free_start + kernel_pages * PGSIZE)) user_pages uws;
  mret (mk_state kp up m).

(** * Invariant and ownership of pages *)
Definition pool_start (p : pool) : Z := pg_no (base p).
Definition pool_pages (p : pool) : Z := bit_cnt (used_map p).

Record pool_wf (p : pool) : Prop := {
  pw_map : wf (used_map p);
  pw_free : lock p = false;
  pw_aligned : pg_ofs (base p) = 0;
  pw_range : PHYS_BASE <= base p ∧ base p + 4096 * pool_pages p <= 2 ^ 32
}.

(** Both pools are well formed and the kernel pool lies below the user pool. *)
Definition pools_ok (s : palloc_state) : Prop :=
  pool_wf (kernel_pool s) ∧ pool_wf (user_pool s) ∧
  pool_start (kernel_pool s) + pool_pages (kernel_pool s) <= pool_start (user_pool s).

Definition in_pool (p : pool) (pn : Z) : Prop :=
  pool_start p <= pn < pool_start p + pool_pages p.

(** Page [pn] is allocated. *)
Definition in_use (user : bool) (s : palloc_state) (pn : Z) : Prop :=
  in_pool (get_pool user s) pn ∧
  bit (used_map (get_pool user s)) (pn - pool_start (get_pool user s)) = true.

Lemma aligned_base p : pg_ofs (base p) = 0 → base p = 4096 * pool_start p.
Proof.
  unfold pool_start. rewrite pg_ofs_mod, pg_no_div. intros H.
  pose proof (Z.div_mod (base p) 4096). lia.
Qed.

Lemma page_addr p i :
  pool_wf p → 0 <= i < pool_pages p →
  let a := u32 (base p + PGSIZE * i) in
  a ≠ 0 ∧ pg_ofs a = 0 ∧ pg_no a = pool_start p + i.
Proof.
  intros [_ _ Ha [Hlo Hhi]] Hi. simpl. rewrite (aligned_base p Ha) in *.
  change PGSIZE with 4096. unfold PHYS_BASE in *. rewrite u32_small by lia.
  rewrite pg_ofs_mod, pg_no_div.
  replace (4096 * pool_start p + 4096 * i) with ((pool_start p + i) * 4096) by lia.
  rewrite Z.mod_mul, Z.div_mul by lia. lia.
Qed.

Lemma page_from_pool_spec p a :
  pool_wf p → page_from_pool p a = true ↔ in_pool p (pg_no a).
Proof.
  intros [Hw _ Ha [Hlo Hhi]]. pose proof (wf_cnt _ Hw). unfold page_from_pool, in_pool.
  pose proof (aligned_base p Ha) as Hb. fold (pool_start p).
  unfold PHYS_BASE, bitmap_size, pool_pages in *.
  rewrite u32_small by lia. rewrite andb_true_iff, Z.leb_le, Z.ltb_lt. lia.
Qed.

Lemma memset_pages_lookup cnt page v m pn :
  memset_pages cnt page v m !! pn =
    if (page <=? pn) && (pn <? page + Z.of_nat cnt) then Some (filled_page v) else m !! pn.
Proof.
  revert page; induction cnt as [|cnt IH]; intros page; cbn [memset_pages].
  - destruct (Z.leb_spec page pn), (Z.ltb_spec pn (page + Z.of_nat 0)); simpl; (lia || done).
  - rewrite lookup_insert, IH. case_decide as E.
    + subst. rewrite (proj2 (Z.leb_le _ _)), (proj2 (Z.ltb_lt _ _)) by lia. done.
    + destruct (Z.leb_spec (page + 1) pn), (Z.ltb_spec pn (page + 1 + Z.of_nat cnt)),
        (Z.leb_spec page pn), (Z.ltb_spec pn (page + Z.of_nat (S cnt))); simpl; (lia || done).
Qed.

Lemma get_set_pool u u' p s :
  get_pool u (set_pool u' p s) = if eqb u u' then p else get_pool u s.
Proof. by destruct u, u'. Qed.

Lemma pools_ok_get u s : pools_ok s → pool_wf (get_pool u s).
Proof. intros (?&?&_). by destruct u. Qed.

(** Changing only the used map of a pool, and memory. *)
Definition with_map (u : bool) (b : bitmap) (m : gmap Z (list Z)) (s : palloc_state) : palloc_state :=
  let p := get_pool u s in
  let s' := set_pool u (mk_pool (lock p) b (base p)) s in
  mk_state (kernel_pool s') (user_pool s') m.

Lemma with_map_ok u b m s :
  pools_ok s → wf b → bit_cnt b = pool_pages (get_pool u s) → pools_ok (with_map u b m s).
Proof.
  intros (Hk & Hu & Hd) Hb Hc.
  assert (Hwf : pool_wf (mk_pool (lock (get_pool u s)) b (base (get_pool u s)))).
  { assert (Hg : pool_wf (get_pool u s)) by (by destruct u).
    destruct Hg as [_ ? ? ?]. split; try done. unfold pool_pages in *. simpl. by rewrite Hc. }
  unfold pools_ok, with_map, pool_start, pool_pages in *.
  destruct u; simpl in *; rewrite ?Hc; done.
Qed.

Lemma in_use_with_map u u' b m s pn :
  bit_cnt b = pool_pages (get_pool u s) →
  in_use u' (with_map u b m s) pn ↔
    if eqb u u' then in_pool (get_pool u s) pn ∧ bit b (pn - pool_start (get_pool u s)) = true
    else in_use u' s pn.
Proof.
  intros Hc. unfold in_use, with_map, in_pool, pool_pages, pool_start in *.
  by destruct u, u'; simpl in *; rewrite ?Hc.
Qed.

(** No [cnt] consecutive pages of the pool are free. *)
Definition exhausted (u : bool) (s : palloc_state) (cnt : Z) : Prop :=
  ∀ pn, ¬ (∀ i, 0 <= i < cnt → in_pool (get_pool u s) (pn + i) ∧ ¬ in_use u s (pn + i)).

(** The three ways [palloc_get_multiple] ends. *)
Lemma palloc_get_cases flags cnt s :
  pools_ok s → 0 < cnt < 2 ^ 31 →
  let u := has_flag flags PAL_USER in
  (∃ a b' m', palloc_get_multiple flags cnt s = Ret (a, with_map u b' m' s)
     ∧ a ≠ 0 ∧ pg_ofs a = 0 ∧ wf b' ∧ bit_cnt b' = pool_pages (get_pool u s)
     ∧ (∀ i, 0 <= i < cnt → in_pool (get_pool u s) (pg_no a + i) ∧ ¬ in_use u s (pg_no a + i))
     ∧ (∀ pn, in_pool (get_pool u s) pn →
         bit b' (pn - pool_start (get_pool u s)) =
           (((pg_no a <=? pn) && (pn <? pg_no a + cnt))
             || bit (used_map (get_pool u s)) (pn - pool_start (get_pool u s))))
     ∧ m' = if has_flag flags PAL_ZERO then memset_pages (Z.to_nat cnt) (pg_no a) 0 (ram s) else ram s) ∨
  (exhausted u s cnt ∧
   palloc_get_multiple flags cnt s = if has_flag flags PAL_ASSERT then Err KernelPanic else Ret (0, s)).
Proof.
  intros Hok Hcnt u. pose proof (pools_ok_get u s Hok) as Hp.
  destruct (Hp) as [Hw Hl Ha Hr]. pose proof (wf_cnt _ Hw) as Hc.
  destruct (bitmap_scan_and_flip_bits (used_map (get_pool u s)) 0 cnt false)
    as (r & b' & E & W & C & Hcase); [done|lia|lia|].
  unfold palloc_get_multiple. fold u. rewrite (proj2 (Z.eqb_neq cnt 0)) by lia.
  rewrite Hl. simpl. rewrite E. simpl.
  destruct Hcase as [(-> & -> & Hno)|(Hne & (G1 & G2 & G3) & _ & HR & HK)].
  - right. split.
    + intros pn Hall. apply (Hno (pn - pool_start (get_pool u s))). unfold group_at.
      pose proof (Hall 0 ltac:(lia)) as [H0 _]. pose proof (Hall (cnt - 1) ltac:(lia)) as [H1 _].
      unfold in_pool, pool_pages in *. split_and!; [lia|lia|]. intros j Hj.
      destruct (Hall (j - (pn - pool_start (get_pool u s)))) as [Hin Hnu]; [lia|].
      apply not_true_is_false. intros Hb. apply Hnu. unfold in_use. split; [done|].
      by replace (pn + _ - _) with j by lia.
    + simpl. destruct (has_flag flags PAL_ASSERT); [done|].
      destruct s as [[] [] ?], u; simpl in *; by subst.
  - left. rewrite (proj2 (Z.eqb_neq r BITMAP_ERROR)) by done.
    destruct (page_addr (get_pool u s) r) as (A1 & A2 & A3); [done|unfold pool_pages; lia|].
    set (a := u32 (base (get_pool u s) + PGSIZE * r)) in *.
    rewrite (proj2 (Z.eqb_neq a 0)) by done.
    exists a, b', (if has_flag flags PAL_ZERO
                   then memset_pages (Z.to_nat cnt) (pg_no a) 0 (ram s) else ram s).
    split_and!; try done.
    + unfold with_map. rewrite Hl.
      by destruct (has_flag flags PAL_ZERO), s as [[] [] ?], u; simpl in *; subst.
    + intros i Hi. unfold in_use, in_pool, pool_pages. rewrite A3. split; [lia|].
      intros [_ Hb]. rewrite G3 in Hb by lia. done.
    + intros pn Hpn. rewrite A3. unfold in_pool, pool_pages in Hpn.
      destruct (Z.leb_spec (pool_start (get_pool u s) + r) pn),
        (Z.ltb_spec pn (pool_start (get_pool u s) + r + cnt)); simpl;
        [rewrite HR by lia; done|rewrite HK by lia; done..].
Qed.

(** The page sets in use after a group is taken. *)
Lemma in_use_taken (u : bool) b' m' s a cnt :
  bit_cnt b' = pool_pages (get_pool u s) →
  (∀ i, 0 <= i < cnt → in_pool (get_pool u s) (pg_no a + i) ∧ ¬ in_use u s (pg_no a + i)) →
  (∀ pn, in_pool (get_pool u s) pn →
     bit b' (pn - pool_start (get_pool u s)) =
       (((pg_no a <=? pn) && (pn <? pg_no a + cnt))
         || bit (used_map (get_pool u s)) (pn - pool_start (get_pool u s)))) →
  ∀ u' pn, in_use u' (with_map u b' m' s) pn ↔
    in_use u' s pn ∨ (u' = u ∧ pg_no a <= pn < pg_no a + cnt).
Proof.
  intros Hc Hfree Hbit u' pn. rewrite in_use_with_map by done.
  destruct (Bool.eqb u u') eqn:E; [apply eqb_prop in E as <-|].
  - unfold in_use. split.
    + intros [Hin Hb]. rewrite Hbit, orb_true_iff, andb_true_iff, Z.leb_le, Z.ltb_lt in Hb by done.
      destruct Hb; [by right|by left].
    + intros [[Hin Hb]|[_ Hr]].
      * split; [done|]. rewrite Hbit, Hb by done. apply orb_true_r.
      * destruct (Hfree (pn - pg_no a)) as [Hin _]; [lia|].
        replace (pg_no a + (pn - pg_no a)) with pn in Hin by lia. split; [done|].
        rewrite Hbit, (proj2 (Z.leb_le _ _)), (proj2 (Z.ltb_lt _ _)) by (done || lia). done.
  - split; [by left|]. intros [?|[-> _]]; [done|]. by rewrite eqb_reflx in E.
Qed.

(** C19: [palloc_get_multiple] either hands out a page-aligned group of
    [page_cnt] pages of the pool the flags select, all of them free before and
    in use afterwards, with no other page of either pool changing state, or
    the pool has no such group, and then it returns a null pointer without
    changing anything or, under PAL_ASSERT, panics.  With PAL_ZERO the pages
    of the group, and no others, are zeroed. *)
Theorem palloc_get_multiple_fresh flags cnt s :
  pools_ok s → 0 < cnt < 2 ^ 31 →
  let u := has_flag flags PAL_USER in
  match palloc_get_multiple flags cnt s with
  | Err e => e = KernelPanic ∧ has_flag flags PAL_ASSERT = true ∧ exhausted u s cnt
  | Ret (a, s') =>
    pools_ok s' ∧
    if decide (a = 0) then s' = s ∧ exhausted u s cnt ∧ has_flag flags PAL_ASSERT = false
    else pg_ofs a = 0
      ∧ (∀ i, 0 <= i < cnt → in_pool (get_pool u s) (pg_no a + i) ∧ ¬ in_use u s (pg_no a + i))
      ∧ (∀ u' pn, in_use u' s' pn ↔
           in_use u' s pn ∨ (u' = u ∧ pg_no a <= pn < pg_no a + cnt))
      ∧ ∀ pn, ram s' !! pn =
          if has_flag flags PAL_ZERO && ((pg_no a <=? pn) && (pn <? pg_no a + cnt))
          then Some (filled_page 0) else ram s !! pn
  end.
Proof.
  intros Hok Hcnt u; subst u.
  destruct (palloc_get_cases flags cnt s Hok Hcnt)
    as [(a & b' & m' & -> & Hne & Hofs & Hw & Hc & Hfree & Hbit & ->)|[Hex ->]].
  - split; [by apply with_map_ok|]. rewrite decide_False by done.
    split_and!; [done|done|by apply in_use_taken|]. intros pn. simpl.
    destruct (has_flag flags PAL_ZERO); simpl; [|done].
    by rewrite memset_pages_lookup, Z2Nat.id by lia.
  - by destruct (has_flag flags PAL_ASSERT).
Qed.

(** A machine with a kernel pool of eight pages, two of them in use, and a
    user pool of four pages. *)
Definition ex_pools : palloc_state :=
  mk_state (mk_pool false (mk_bitmap 8 [5]) (PHYS_BASE + 0x100000))
           (mk_pool false (mk_bitmap 4 [0]) (PHYS_BASE + 0x200000)) ∅.

Lemma ex_pools_ok : pools_ok ex_pools.
Proof.
  assert (W : ∀ n w, 0 <= n <= 32 → 0 <= w < 2 ^ 32 → wf (mk_bitmap n [w])).
  { intros n w Hn Hw. split; simpl; [lia|
      rewrite elem_cnt_eq by lia; pose proof (Z.div_lt_upper_bound (n + 31) 32 2); lia|by apply Forall_singleton]. }
  unfold pools_ok, ex_pools; simpl. split_and!.
  - split; [by apply W| | |]; vm_compute; by repeat split.
  - split; [by apply W| | |]; vm_compute; by repeat split.
  - by vm_compute.
Qed.

Lemma palloc_get_multiple_fresh_witness :
  ∃ s', palloc_get_multiple PAL_ZERO 2 ex_pools = Ret (0xc0103000, s')
    ∧ in_use false s' 0xc0104 ∧ ram s' !! 0xc0104 = Some (filled_page 0).
Proof.
  pose proof (palloc_get_multiple_fresh PAL_ZERO 2 ex_pools ex_pools_ok ltac:(lia)) as H.
  destruct (palloc_get_multiple PAL_ZERO 2 ex_pools) as [[a s']|e] eqn:E;
    assert (Ea : match palloc_get_multiple PAL_ZERO 2 ex_pools with
                 | Ret (a, _) => a | Err _ => 0 end = 0xc0103000) by (by vm_compute);
    rewrite E in Ea; [subst a|done].
  destruct H as [_ H]. rewrite decide_False in H by done. destruct H as (_ & _ & Hu & Hr).
  exists s'. split; [done|]. rewrite Hu, Hr. split; [|done].
  right. split; [done|]. split; by vm_compute.
Defined.

(** The pools are disjoint, so the free path finds the owner of a page. *)
Lemma owner_pool u s a :
  pools_ok s → in_pool (get_pool u s) (pg_no a) →
  page_from_pool (kernel_pool s) a = negb u ∧ page_from_pool (user_pool s) a = u.
Proof.
  intros (Hk & Hu & Hd) Hin.
  pose proof (page_from_pool_spec _ a Hk) as [Ek1 Ek2]. pose proof (page_from_pool_spec _ a Hu) as [Eu1 Eu2].
  unfold in_pool in *. pose proof (wf_cnt _ (pw_map _ Hk)). pose proof (wf_cnt _ (pw_map _ Hu)).
  unfold pool_pages in *.
  destruct u; simpl in *; split; try auto; apply not_true_is_false; intros E;
    [apply Ek1 in E|apply Eu1 in E]; lia.
Qed.

(** Freeing a group of pages that are in use. *)
Lemma palloc_free_run u a cnt s :
  pools_ok s → pg_ofs a = 0 → a ≠ 0 → 0 < cnt →
  (∀ i, 0 <= i < cnt → in_use u s (pg_no a + i)) →
  ∃ b', palloc_free_multiple a cnt s =
      Ret (tt, with_map u b' (memset_pages (Z.to_nat cnt) (pg_no a) 0xcc (ram s)) s)
    ∧ wf b' ∧ bit_cnt b' = pool_pages (get_pool u s)
    ∧ ∀ pn, in_pool (get_pool u s) pn →
        bit b' (pn - pool_start (get_pool u s)) =
          (negb ((pg_no a <=? pn) && (pn <? pg_no a + cnt))
            && bit (used_map (get_pool u s)) (pn - pool_start (get_pool u s))).
Proof.
  intros Hok Hofs Hne Hcnt Huse. pose proof (pools_ok_get u s Hok) as Hp.
  destruct Hp as [Hw Hl Ha Hr]. pose proof (wf_cnt _ Hw) as Hc.
  destruct (Huse 0) as [Hin0 _]; [lia|]. destruct (Huse (cnt - 1)) as [Hin1 _]; [lia|].
  rewrite Z.add_0_r in Hin0. destruct (owner_pool u s a Hok Hin0) as [Ek Eu].
  unfold palloc_free_multiple. rewrite Hofs, Ek, Eu.
  rewrite (proj2 (Z.eqb_neq a 0)), (proj2 (Z.eqb_neq cnt 0)) by lia. cbn [negb orb Z.eqb].
  assert (Hb : 0 <= pg_no a - pool_start (get_pool u s)
    ∧ pg_no a - pool_start (get_pool u s) + cnt <= bit_cnt (used_map (get_pool u s)))
    by (unfold in_pool, pool_pages in *; lia).
  pose (i := pg_no a - pool_start (get_pool u s)).
  assert (Hi : u32 (pg_no a - pg_no (base (get_pool u s))) = i) by (apply u32_small; unfold pool_start in *; lia).
  destruct (bitmap_all_bits (used_map (get_pool u s)) i cnt) as (c & Ec & Hcc); [done|unfold i; lia..|].
  assert (c = true) as ->.
  { apply Hcc. intros j Hj. destruct (Huse (j - i)) as [_ Hbit]; [lia|].
    unfold i in *. by replace (pg_no a + _ - _) with j in Hbit by lia. }
  destruct (bitmap_set_multiple_bits (used_map (get_pool u s)) i cnt false)
    as (b' & Eb & Wb & Cb & Rb & Kb); [done|unfold i; lia..|].
  exists b'. split_and!; [|done|done|].
  - unfold with_map. destruct u; cbn [negb get_pool] in *; rewrite Hi, Ec; cbn [mbind res_bind RASSERT]; by rewrite Eb.
  - intros pn Hpn. unfold in_pool, pool_pages in Hpn.
    destruct (Z.leb_spec (pg_no a) pn), (Z.ltb_spec pn (pg_no a + cnt)); simpl;
      [rewrite Rb by (unfold i; lia); done|rewrite Kb by (unfold i; lia); done..].
Qed.

(** Freeing a group that [palloc_get_multiple] handed out succeeds,
    returns it to the pool it came from (the pages in use are those in use
    before the allocation) and overwrites it with 0xcc bytes. *)
Theorem palloc_get_free_roundtrip flags cnt s a s1 :
  pools_ok s → 0 < cnt < 2 ^ 31 →
  palloc_get_multiple flags cnt s = Ret (a, s1) → a ≠ 0 →
  ∃ s2, palloc_free_multiple a cnt s1 = Ret (tt, s2) ∧ pools_ok s2
    ∧ (∀ u pn, in_use u s2 pn ↔ in_use u s pn)
    ∧ ∀ pn, pg_no a <= pn < pg_no a + cnt → ram s2 !! pn = Some (filled_page 0xcc).
Proof.
  intros Hok Hcnt Hget Hne.
  destruct (palloc_get_cases flags cnt s Hok Hcnt)
    as [(a' & b' & m' & E & Hne' & Hofs & Hw & Hc & Hfree & Hbit & _)|[_ E]]; rewrite E in Hget;
    [injection Hget as -> <-|by destruct (has_flag flags PAL_ASSERT); simplify_eq].
  set (u := has_flag flags PAL_USER) in *.
  pose proof (in_use_taken u b' m' s a cnt Hc Hfree Hbit) as Htaken.
  assert (Hok1 : pools_ok (with_map u b' m' s)) by (by apply with_map_ok).
  destruct (palloc_free_run u a cnt _ Hok1 Hofs Hne) as (b2 & Ef & W2 & C2 & B2); [lia| |].
  { intros i Hi. apply Htaken. right. split; [done|lia]. }
  eexists. split; [exact Ef|]. split_and!; [by apply with_map_ok| |].
  - intros u' pn. rewrite in_use_with_map by done.
    destruct (Bool.eqb u u') eqn:Eu; [apply eqb_prop in Eu as <-|].
    + transitivity (in_use u (with_map u b' m' s) pn ∧ ¬ (pg_no a <= pn < pg_no a + cnt)).
      * unfold in_use. split.
        -- intros [Hin Hb]. rewrite B2, andb_true_iff, negb_true_iff, andb_false_iff, Z.leb_gt, Z.ltb_ge in Hb by done.
           split; [tauto|lia].
        -- intros [[Hin Hb] Hr]. split; [done|]. rewrite B2, Hb, andb_true_r by done.
           apply negb_true_iff, andb_false_iff. rewrite Z.leb_gt, Z.ltb_ge. lia.
      * rewrite Htaken. split; [tauto|]. intros Hpn. split; [by left|]. intros Hr.
        apply (proj2 (Hfree (pn - pg_no a) ltac:(lia))). by replace (pg_no a + _) with pn by lia.
    + rewrite Htaken. split; [|by left]. intros [?|[-> _]]; [done|]. by rewrite eqb_reflx in Eu.
  - intros pn Hpn. simpl. rewrite memset_pages_lookup, Z2Nat.id by lia.
    by rewrite (proj2 (Z.leb_le _ _)), (proj2 (Z.ltb_lt _ _)) by lia.
Qed.

Lemma palloc_get_free_roundtrip_witness :
  ∃ a s1 s2, palloc_get_multiple PAL_USER 3 ex_pools = Ret (a, s1)
    ∧ palloc_free_multiple a 3 s1 = Ret (tt, s2)
    ∧ ∀ u pn, in_use u s2 pn ↔ in_use u ex_pools pn.
Proof.
  destruct (palloc_get_multiple PAL_USER 3 ex_pools) as [[a s1]|e] eqn:E;
    assert (Ea : match palloc_get_multiple PAL_USER 3 ex_pools with
                 | Ret (a, _) => a | Err _ => 0 end = 0xc0200000) by (by vm_compute);
    rewrite E in Ea; [subst a|done].
  destruct (palloc_get_free_roundtrip PAL_USER 3 ex_pools 0xc0200000 s1 ex_pools_ok ltac:(lia) E)
    as (s2 & Ef & _ & Hu & _); [done|].
  by exists 0xc0200000, s1, s2.
Defined.

(** * Initialisation *)

(** Pages that the bitmap of a pool of [cnt] pages takes from the pool. *)
Definition bm_pages (cnt : Z) : Z := DIV_ROUND_UP (bitmap_buf_size cnt) PGSIZE.

Lemma bm_pages_bound cnt : 0 < cnt <= 2 ^ 18 → 1 <= bm_pages cnt <= cnt.
Proof.
  intros Hc. unfold bm_pages, bitmap_buf_size, byte_cnt. rewrite elem_cnt_eq by lia.
  pose proof (Z.div_mod (cnt + 31) 32 ltac:(lia)). pose proof (Z.mod_pos_bound (cnt + 31) 32 ltac:(lia)).
  rewrite (u32_small (4 * _)), u32_small by (rewrite ?u32_small; lia).
  unfold DIV_ROUND_UP. change PGSIZE with 4096.
  set (q := (cnt + 31) / 32) in *. clearbody q.
  pose proof (Z.div_mod (8 + 4 * q + 4096 - 1) 4096 ltac:(lia)).
  pose proof (Z.mod_pos_bound (8 + 4 * q + 4096 - 1) 4096 ltac:(lia)). lia.
Qed.

(** Memory that can hold the words of a bitmap of [cnt] bits. *)
Definition buf_ok (ws : list Z) (cnt : Z) : Prop :=
  elem_cnt cnt <= Z.of_nat (length ws) ∧ Forall (λ w, 0 <= w < 2 ^ 32) ws.

Lemma init_pool_ok pool_base cnt ws :
  pg_ofs pool_base = 0 → PHYS_BASE <= pool_base → pool_base + 4096 * cnt < 2 ^ 32 →
  0 < cnt <= 2 ^ 18 → buf_ok ws cnt →
  ∃ p, init_pool pool_base cnt ws = Ret p ∧ pool_wf p
    ∧ pool_start p = pg_no pool_base + bm_pages cnt ∧ pool_pages p = cnt - bm_pages cnt
    ∧ range_is (used_map p) 0 (pool_pages p) false.
Proof.
  intros Hofs Hlo Hhi Hcnt [Hlen Hws]. pose proof (bm_pages_bound cnt Hcnt) as Hbm.
  unfold init_pool. fold (bm_pages cnt). rewrite (proj2 (Z.ltb_ge _ _)) by lia.
  assert (Hmono : elem_cnt (cnt - bm_pages cnt) <= elem_cnt cnt).
  { rewrite !elem_cnt_eq by lia. apply Z.div_le_mono; lia. }
  assert (Hsz : bitmap_buf_size (cnt - bm_pages cnt) <= bm_pages cnt * PGSIZE).
  { transitivity (bitmap_buf_size cnt).
    - unfold bitmap_buf_size, byte_cnt. rewrite !elem_cnt_eq in * by lia.
      pose proof (Z.div_mod (cnt + 31) 32 ltac:(lia)). pose proof (Z.mod_pos_bound (cnt + 31) 32 ltac:(lia)).
      assert (0 <= (cnt - bm_pages cnt + 31) / 32) by (apply Z.div_pos; lia).
      rewrite !u32_small by (rewrite ?u32_small; lia). lia.
    - pose proof (div_round_up_spec (bitmap_buf_size cnt) PGSIZE (proj1 (u32_range _)) ltac:(done)).
      unfold bm_pages in *. pose proof (u32_range (8 + byte_cnt cnt)). fold (bitmap_buf_size cnt) in *.
      change PGSIZE with 4096 in *. lia. }
  unfold bitmap_create_in_buf. rewrite (proj2 (Z.leb_le _ _)) by done. simpl.
  destruct (bitmap_set_all_bits (mk_bitmap (cnt - bm_pages cnt) ws) false) as (b' & E & W & C & R).
  { split; simpl; [lia|lia|done]. }
  rewrite E. simpl in *. eexists. split; [reflexivity|].
  assert (Hb : u32 (pool_base + bm_pages cnt * PGSIZE) = pool_base + bm_pages cnt * 4096)
    by (apply u32_small; change PGSIZE with 4096; unfold PHYS_BASE in *; lia).
  unfold pool_pages, pool_start. simpl. rewrite Hb, C. split_and!; [split|..]; simpl; try done.
  - rewrite pg_ofs_mod, Z.mod_add by lia. by rewrite <- pg_ofs_mod.
  - unfold pool_pages. simpl. lia.
  - by rewrite !pg_no_div, Z.div_add by lia.
Qed.

(** [palloc_init] on a machine with at least 258 pages and less than 1 GB of memory
    and a non-zero user page limit succeeds: the pools are well formed and
    disjoint, no page is in use, both lie above the first megabyte and within
    memory, and the user pool has at most [user_page_limit] pages. *)
Theorem palloc_init_establishes init_ram_pages user_page_limit kws uws m :
  258 <= init_ram_pages < 2 ^ 18 → 0 < user_page_limit →
  buf_ok kws (2 ^ 18) → buf_ok uws (2 ^ 18) →
  ∃ s, palloc_init init_ram_pages user_page_limit kws uws m = Ret s ∧ pools_ok s
    ∧ (∀ u pn, ¬ in_use u s pn)
    ∧ (∀ u pn, in_pool (get_pool u s) pn →
         pg_no PHYS_BASE + 256 < pn < pg_no PHYS_BASE + init_ram_pages)
    ∧ pool_pages (user_pool s) < user_page_limit.
Proof.
  intros Hr Hl [Hk1 Hk2] [Hu1 Hu2]. unfold palloc_init, ptov.
  rewrite (u32_small (init_ram_pages * _)) by (change PGSIZE with 4096; lia).
  rewrite (proj2 (Z.ltb_lt (init_ram_pages * PGSIZE) _)) by (change PGSIZE with 4096; unfold PHYS_BASE; lia).
  change PGSIZE with 4096. simpl mbind. change (u32 (1024 * 1024 + PHYS_BASE)) with 0xc0100000.
  assert (Ef : u32 (u32 (init_ram_pages * 4096 + PHYS_BASE) - 0xc0100000) / 4096 = init_ram_pages - 256).
  { unfold u32. rewrite Zminus_mod_idemp_l. unfold PHYS_BASE.
    rewrite Z.mod_small by lia.
    replace (_ - _) with ((init_ram_pages - 256) * 4096) by lia. by rewrite Z.div_mul by lia. }
  rewrite Ef. set (f := init_ram_pages - 256) in *.
  set (up := if user_page_limit <? f / 2 then user_page_limit else f / 2).
  assert (Hup : 1 <= up <= user_page_limit ∧ up <= f / 2).
  { pose proof (Z.div_le_mono 2 f 2 ltac:(lia) ltac:(lia)) as H2. change (2 / 2) with 1 in H2.
    unfold up. destruct (Z.ltb_spec user_page_limit (f / 2)); lia. }
  pose proof (Z.div_mod f 2 ltac:(lia)). pose proof (Z.mod_pos_bound f 2 ltac:(lia)).
  clearbody up. assert (Hmono : ∀ n, 0 <= n <= 2 ^ 18 → elem_cnt n <= elem_cnt (2 ^ 18)).
  { intros n Hn. rewrite !elem_cnt_eq by lia. apply Z.div_le_mono; lia. }
  destruct (init_pool_ok 0xc0100000 (f - up) kws) as (kp & -> & Wk & Sk & Pk & Rk);
    [done|done|lia|lia|split; [pose proof (Hmono (f - up)); lia|done]|].
  simpl mbind. rewrite (u32_small (_ + _)) by lia.
  destruct (init_pool_ok (0xc0100000 + (f - up) * 4096) up uws) as (upool & -> & Wu & Su & Pu & Ru);
    [by rewrite pg_ofs_mod, Z.mod_add by lia|unfold PHYS_BASE; lia|lia|lia
    |split; [pose proof (Hmono up); lia|done]|].
  rewrite pg_no_div, Z.div_add in Su by lia. change (0xc0100000 / 4096) with 0xc0100 in Su.
  change (pg_no 0xc0100000) with 0xc0100 in Sk. change (pg_no PHYS_BASE) with 0xc0000.
  pose proof (bm_pages_bound up ltac:(lia)). pose proof (bm_pages_bound (f - up) ltac:(lia)).
  exists (mk_state kp upool m). unfold pools_ok, in_use, in_pool, get_pool. simpl. split_and!; try done.
  - lia.
  - intros [] pn [Hin Hb]; simpl in *; [rewrite Ru in Hb by lia|rewrite Rk in Hb by lia]; done.
  - intros [] pn Hin; simpl in *; lia.
  - lia.
Qed.

Lemma palloc_init_establishes_witness :
  ∃ s, palloc_init 1024 100 (replicate (Z.to_nat 8192) 0) (replicate (Z.to_nat 8192) 7) ∅ = Ret s
    ∧ pools_ok s ∧ ∀ u pn, ¬ in_use u s pn.
Proof.
  assert (Hb : ∀ w, 0 <= w < 2 ^ 32 → buf_ok (replicate (Z.to_nat 8192) w) (2 ^ 18)).
  { intros w Hw. split; [by rewrite length_replicate; vm_compute|by apply Forall_replicate]. }
  destruct (palloc_init_establishes 1024 100 (replicate (Z.to_nat 8192) 0) (replicate (Z.to_nat 8192) 7) ∅)
    as (s & E & Hok & Hu & _); [lia|lia|by apply Hb|by apply Hb|].
  exists s. split; [exact E|]. split; [exact Hok|exact Hu].
Defined.
