(* ===== verification/Cache.v ===== *)
(** * Block devices and the buffer cache (devices/block.c, filesys/cache.c)

    A block device is a numbered store of 512-byte sectors behind the checks
    of block.c.  The cache keeps up to [CACHE_SIZE] sectors in [blocks]; the
    first [length LRU_list] of them are occupied and [LRU_list] orders their
    indices from the most to the least recently used.

    The theorems give the cache two readings.  As a store, the pair of cache
    and device holds one value per sector ([contents]) that reads and writes
    access like a plain array, whatever is cached and dirty, and a flush makes
    the device alone hold it.  As a cache, the tags in recency order
    ([recency]) follow the least-recently-used policy.  [SectorOps] and
    [SectorStore] state the first reading as the interface the inode layer is
    built on; the cache is one instance of it. *)
From S2P Require Import Prelude.
Local Open Scope Z_scope.

(** * Block devices *)
Definition BLOCK_SECTOR_SIZE : Z := 512.
Definition zero_sector : list Z := replicate (Z.to_nat BLOCK_SECTOR_SIZE) 0.
#[global] Arguments zero_sector : simpl never.

Inductive block_type : Set :=
  | BLOCK_KERNEL | BLOCK_FILESYS | BLOCK_SCRATCH | BLOCK_SWAP | BLOCK_RAW | BLOCK_FOREIGN.

#[global] Instance block_type_eq_dec : EqDecision block_type.
Proof. solve_decision. Defined.

(** [sectors]: what the driver behind [block_operations] stores; a sector
    never written reads as zeros. *)
Record block : Set := mk_block {
  type : block_type;
  size : Z;
  sectors : gmap Z (list Z);
  read_cnt : Z;
  write_cnt : Z
}.

Definition dev_read (b : block) (sector : Z) : list Z := default zero_sector (sectors b !! sector).

Definition check_sector (b : block) (sector : Z) : res unit :=
  if size b <=? sector then Err KernelPanic else Ret tt.

Definition block_read (b : block) (sector : Z) : res (list Z * block) :=
  check_sector b sector;;
  mret (dev_read b sector,
        mk_block (type b) (size b) (sectors b) (u64 (read_cnt b + 1)) (write_cnt b)).

Definition block_write (b : block) (sector : Z) (buffer : list Z) : res block :=
  check_sector b sector;;
  RASSERT (negb (bool_decide (type b = BLOCK_FOREIGN)));;
  mret (mk_block (type b) (size b) (<[sector := buffer]> (sectors b))
                 (read_cnt b) (u64 (write_cnt b + 1))).

Definition block_size (b : block) : Z := size b.

(** * The cache *)
Definition CACHE_SIZE : nat := 64.

Record cache_block : Set := mk_cb {
  sector_tag : Z;
  sector : list Z;
  block_lock : bool;
  dirty_bit : bool
}.

Record cache : Set := mk_cache {
  blocks : list cache_block;
  LRU_list : list nat;
  LRU_lock : bool;
  fs_device : block
}.

Definition upd_blocks (f : list cache_block → list cache_block) (c : cache) : cache :=
  mk_cache (f (blocks c)) (LRU_list c) (LRU_lock c) (fs_device c).
Definition upd_LRU (f : list nat → list nat) (c : cache) : cache :=
  mk_cache (blocks c) (f (LRU_list c)) (LRU_lock c) (fs_device c).
Definition set_LRU_lock (b : bool) (c : cache) : cache :=
  mk_cache (blocks c) (LRU_list c) b (fs_device c).
Definition set_device (d : block) (c : cache) : cache :=
  mk_cache (blocks c) (LRU_list c) (LRU_lock c) d.

Definition get_block (i : nat) : cmd cache cache_block := λ c,
  match blocks c !! i with Some b => Ret (b, c) | None => Err OutOfBounds end.
Definition put_block (i : nat) (b : cache_block) : cmd cache unit :=
  modify (upd_blocks (<[i := b]>)).

Definition acquire_LRU : cmd cache unit :=
  held ← gets LRU_lock; held' ← lift_res (lock_acquire_seq held); modify (set_LRU_lock held').
Definition release_LRU : cmd cache unit :=
  held ← gets LRU_lock; held' ← lift_res (lock_release_seq held); modify (set_LRU_lock held').
Definition acquire_block (i : nat) : cmd cache unit :=
  b ← get_block i; held' ← lift_res (lock_acquire_seq (block_lock b));
  put_block i (mk_cb (sector_tag b) (sector b) held' (dirty_bit b)).
Definition release_block (i : nat) : cmd cache unit :=
  b ← get_block i; held' ← lift_res (lock_release_seq (block_lock b));
  put_block i (mk_cb (sector_tag b) (sector b) held' (dirty_bit b)).

Definition set_tag (i : nat) (tag : Z) : cmd cache unit :=
  b ← get_block i; put_block i (mk_cb tag (sector b) (block_lock b) (dirty_bit b)).
Definition set_sector (i : nat) (d : list Z) : cmd cache unit :=
  b ← get_block i; put_block i (mk_cb (sector_tag b) d (block_lock b) (dirty_bit b)).
Definition set_dirty (i : nat) (d : bool) : cmd cache unit :=
  b ← get_block i; put_block i (mk_cb (sector_tag b) (sector b) (block_lock b) d).

(** [list_remove (&block->elem)]: the element must be on the list. *)
Definition LRU_remove (i : nat) : cmd cache unit := λ c,
  if decide (i ∈ LRU_list c) then Ret (tt, upd_LRU (filter (λ j, j ≠ i)) c) else Err BadPtr.
Definition LRU_push_front (i : nat) : cmd cache unit := modify (upd_LRU (cons i)).
Definition LRU_pop_back : cmd cache nat := λ c,
  match last (LRU_list c) with
  | Some i => Ret (i, upd_LRU (λ l, take (pred (length l)) l) c)
  | None => Err AssertFail
  end.

Definition dev_block_read (s : Z) : cmd cache (list Z) :=
  d ← gets fs_device; '(buf, d') ← lift_res (block_read d s);
  modify (set_device d');; mret buf.
Definition dev_block_write (s : Z) (buf : list Z) : cmd cache unit :=
  d ← gets fs_device; d' ← lift_res (block_write d s buf); modify (set_device d').

(** The search [for (; i < size; i += 1)] of both operations: [n] iterations
    are left at index [i]. *)
Fixpoint find_loop (n i : nat) (s : Z) : cmd cache (option nat) :=
  match n with
  | O => mret None
  | S n' => b ← get_block i;
            if sector_tag b =? s then mret (Some i) else find_loop n' (S i) s
  end.

Definition cache_init (c : cache) : cache :=
  mk_cache ((λ b, mk_cb (sector_tag b) (sector b) false (dirty_bit b)) <$> blocks c) [] false (fs_device c).

Definition cache_read (s : Z) : cmd cache (list Z) :=
  acquire_LRU;;
  size ← gets (λ c, length (LRU_list c));
  hit ← find_loop size 0 s;
  match hit with
  | Some i =>
    LRU_remove i;; LRU_push_front i;;
    acquire_block i;; release_LRU;;
    b ← get_block i;
    release_block i;;
    mret (sector b)
  | None =>
    if (size <? 64)%nat then
      let i := size in
      set_dirty i false;; set_tag i s;;
      LRU_push_front i;;
      acquire_block i;; release_LRU;;
      buf ← dev_block_read s; set_sector i buf;;
      b ← get_block i;
      release_block i;;
      mret (sector b)
    else
      i ← LRU_pop_back; LRU_push_front i;;
      acquire_block i;;
      b ← get_block i;
      let old_sector := sector_tag b in
      set_tag i s;;
      release_LRU;;
      b ← get_block i;
      (if dirty_bit b then dev_block_write old_sector (sector b);; set_dirty i false else mret tt);;
      buf ← dev_block_read s; set_sector i buf;;
      b ← get_block i;
      release_block i;;
      mret (sector b)
  end.

Definition cache_write (s : Z) (buffer : list Z) : cmd cache unit :=
  acquire_LRU;;
  size ← gets (λ c, length (LRU_list c));
  hit ← find_loop size 0 s;
  match hit with
  | Some i =>
    LRU_remove i;; LRU_push_front i;;
    acquire_block i;; release_LRU;;
    set_dirty i true;; set_sector i buffer;;
    release_block i
  | None =>
    if (size <? 64)%nat then
      let i := size in
      set_dirty i true;; set_tag i s;;
      LRU_push_front i;;
      acquire_block i;; release_LRU;;
      set_sector i buffer;;
      release_block i
    else
      i ← LRU_pop_back; LRU_push_front i;;
      acquire_block i;;
      b ← get_block i;
      let old_sector := sector_tag b in
      set_tag i s;;
      release_LRU;;
      b ← get_block i;
      (if dirty_bit b then dev_block_write old_sector (sector b) else mret tt);;
      set_dirty i true;; set_sector i buffer;;
      release_block i
  end.

Fixpoint flush_loop (n i : nat) : cmd cache unit :=
  match n with
  | O => mret tt
  | S n' =>
    b ← get_block i;
    (if dirty_bit b then
       acquire_block i;;
       b ← get_block i;
       dev_block_write (sector_tag b) (sector b);;
       set_dirty i false;;
       release_block i
     else mret tt);;
    flush_loop n' (S i)
  end.

Definition cache_flush : cmd cache unit :=
  acquire_LRU;;
  size ← gets (λ c, length (LRU_list c));
  flush_loop size 0;;
  release_LRU.

(** * Invariant, contents and recency *)
Definition occupied (c : cache) (i : nat) (b : cache_block) : Prop :=
  (i < length (LRU_list c))%nat ∧ blocks c !! i = Some b.

(** The index of the cached copy of sector [s]. *)
Definition cached_at (c : cache) (s : Z) : option (nat * cache_block) :=
  list_find (λ b, sector_tag b = s) (take (length (LRU_list c)) (blocks c)).

(** The value of sector [s]: the cached copy if there is one, else what the
    device holds. *)
Definition contents (c : cache) (s : Z) : list Z :=
  match cached_at c s with
  | Some (_, b) => sector b
  | None => dev_read (fs_device c) s
  end.

(** Cached sectors, most recently used first. *)
Definition recency (c : cache) : list Z :=
  (λ i, from_option sector_tag (-1) (blocks c !! i)) <$> LRU_list c.

(** Touching sector [s] in an abstract LRU cache of [CACHE_SIZE] entries. *)
Definition lru_touch (s : Z) (l : list Z) : list Z :=
  s :: take (pred CACHE_SIZE) (filter (λ t, t ≠ s) l).

Record cache_ok (c : cache) : Prop := {
  ok_len : length (blocks c) = CACHE_SIZE;
  ok_perm : LRU_list c ≡ₚ seq 0 (length (LRU_list c));
  ok_size : (length (LRU_list c) <= CACHE_SIZE)%nat;
  ok_lock : LRU_lock c = false;
  ok_locks : ∀ i b, blocks c !! i = Some b → block_lock b = false;
  ok_uniq : ∀ i j b b', occupied c i b → occupied c j b' → sector_tag b = sector_tag b' → i = j;
  ok_tag : ∀ i b, occupied c i b → 0 <= sector_tag b < size (fs_device c);
  ok_data : ∀ i b, occupied c i b → length (sector b) = Z.to_nat BLOCK_SECTOR_SIZE;
  ok_clean : ∀ i b, occupied c i b → dirty_bit b = false →
    sector b = dev_read (fs_device c) (sector_tag b);
  ok_type : type (fs_device c) ≠ BLOCK_FOREIGN;
  ok_dev : ∀ s, length (dev_read (fs_device c) s) = Z.to_nat BLOCK_SECTOR_SIZE
}.

Lemma cached_at_Some c s i b :
  cached_at c s = Some (i, b) → occupied c i b ∧ sector_tag b = s.
Proof.
  unfold cached_at, occupied. intros (H & Hs & _)%list_find_Some.
  apply lookup_take_Some in H as [? ?]. done.
Qed.

Lemma cached_at_None c s i b : cached_at c s = None → occupied c i b → sector_tag b ≠ s.
Proof.
  unfold cached_at, occupied. intros H%list_find_None [Hi Hb].
  rewrite Forall_lookup in H. apply (H i). by apply lookup_take_Some.
Qed.

Lemma cached_at_occupied c i b :
  cache_ok c → occupied c i b → cached_at c (sector_tag b) = Some (i, b).
Proof.
  intros Hok Hocc. destruct (cached_at c (sector_tag b)) as [[j b']|] eqn:E.
  - apply cached_at_Some in E as [Hj Ht].
    assert (i = j) as <- by by eapply ok_uniq. destruct Hocc, Hj. naive_solver.
  - by eapply cached_at_None in E.
Qed.

Lemma contents_hit c i b : cache_ok c → occupied c i b → contents c (sector_tag b) = sector b.
Proof. intros Hok H. unfold contents. by rewrite (cached_at_occupied c i b). Qed.

Lemma contents_miss c s :
  (∀ i b, occupied c i b → sector_tag b ≠ s) → contents c s = dev_read (fs_device c) s.
Proof.
  intros H. unfold contents. destruct (cached_at c s) as [[i b]|] eqn:E; [|done].
  apply cached_at_Some in E as [??]. naive_solver.
Qed.

Lemma find_loop_run n i s c :
  (i + n <= length (blocks c))%nat →
  ∃ r, find_loop n i s c = Ret (r, c) ∧
    match r with
    | Some j => (i <= j < i + n)%nat ∧ ∃ b, blocks c !! j = Some b ∧ sector_tag b = s
    | None => ∀ j b, (i <= j < i + n)%nat → blocks c !! j = Some b → sector_tag b ≠ s
    end.
Proof.
  revert i. induction n as [|n IH]; intros i Hlen; cbn [find_loop].
  - exists None. split; [done|]. intros j b ?. lia.
  - destruct (lookup_lt_is_Some_2 (blocks c) i) as [b Hb]; [lia|].
    rewrite (bind_Ret _ _ _ b c) by (unfold get_block; by rewrite Hb).
    destruct (Z.eqb_spec (sector_tag b) s) as [E|E].
    + eexists. split; [done|]. split; [lia|]. naive_solver.
    + destruct (IH (S i)) as ([j|] & -> & Hr); [lia|eexists; split; [done|]..].
      * destruct Hr as [? ?]. split; [lia|done].
      * intros j b' Hj Hb'. destruct (decide (j = i)) as [->|]; [naive_solver|].
        apply (Hr j); [lia|done].
Qed.

(** The search finds the occupied block of the sector, or there is none. *)
Lemma find_run c s :
  cache_ok c →
  (∃ i b, occupied c i b ∧ sector_tag b = s ∧
     ∀ k, find_loop (length (LRU_list c)) 0 s (set_LRU_lock k c) = Ret (Some i, set_LRU_lock k c)) ∨
  ((∀ i b, occupied c i b → sector_tag b ≠ s) ∧
     ∀ k, find_loop (length (LRU_list c)) 0 s (set_LRU_lock k c) = Ret (None, set_LRU_lock k c)).
Proof.
  intros Hok. pose proof (ok_len c Hok). pose proof (ok_size c Hok).
  destruct (find_loop_run (length (LRU_list c)) 0 s c) as (r & E & Hr); [lia|].
  assert (Hk : ∀ n i k, find_loop n i s (set_LRU_lock k c) =
    match find_loop n i s c with Ret (r, _) => Ret (r, set_LRU_lock k c) | Err e => Err e end).
  { clear. intros n. induction n as [|n IH]; intros i k; [done|]. cbn [find_loop].
    unfold mbind, cmd_bind, get_block. simpl. destruct (blocks c !! i); [|done].
    case_match; [done|]. apply IH. }
  destruct r as [j|]; [left|right].
  - destruct Hr as (Hj & b & Hb & Ht). exists j, b. split_and!; [split; [lia|done]|done|].
    intros k. by rewrite Hk, E.
  - split; [intros i b [? ?]; by apply (Hr i); [lia|]|]. intros k. by rewrite Hk, E.
Qed.

(** * Installing a sector in a block

    Every branch of a read or write ends by putting sector [s] with data [d]
    in block [i], which becomes the most recently used. *)
Definition install (c : cache) (i : nat) (s : Z) (d : list Z) (dirty : bool)
    (l' : list nat) (dev' : block) : cache :=
  mk_cache (<[i := mk_cb s d false dirty]> (blocks c)) (i :: l') false dev'.

Section install.
Context (c : cache) (i : nat) (s : Z) (d : list Z) (dirty : bool) (l' : list nat) (dev' : block).
Context (Hok : cache_ok c).
Context (Hperm : i :: l' ≡ₚ seq 0 (S (length l'))).
Context (Hroom : (S (length l') <= CACHE_SIZE)%nat).
Context (Hsame : ∀ j, j ∈ l' → (j < length (LRU_list c))%nat).
Context (Hgrow : (length (LRU_list c) <= S (length l'))%nat).
Context (Hfresh : ∀ j b, occupied c j b → sector_tag b = s → j = i).
Context (Hs : 0 <= s < size (fs_device c)).
Context (Hd : length d = Z.to_nat BLOCK_SECTOR_SIZE).
Context (Hdev : size dev' = size (fs_device c) ∧ type dev' = type (fs_device c)).
Context (Hdevlen : ∀ t, length (dev_read dev' t) = Z.to_nat BLOCK_SECTOR_SIZE).
Context (Hkeep : ∀ j b, occupied c j b → j ≠ i →
           dev_read dev' (sector_tag b) = dev_read (fs_device c) (sector_tag b)).
Context (Hclean : dirty = false → d = dev_read dev' s).
Context (Hold : ∀ t, t ≠ s → (∀ j b, occupied c j b → j ≠ i → sector_tag b ≠ t) →
           dev_read dev' t = contents c t).

Let c' := install c i s d dirty l' dev'.

Lemma install_index j : (j < S (length l'))%nat ↔ j = i ∨ j ∈ l'.
Proof.
  rewrite <- elem_of_cons, Hperm. rewrite elem_of_seq. lia.
Qed.

Lemma install_occupied j b :
  occupied c' j b ↔ (j = i ∧ b = mk_cb s d false dirty) ∨ (j ≠ i ∧ occupied c j b).
Proof.
  pose proof (ok_len c Hok) as Hlen. unfold occupied. simpl. split.
  - intros [Hj Hb]. destruct (decide (j = i)) as [->|Hne].
    + rewrite list_lookup_insert_eq in Hb by lia. naive_solver.
    + rewrite list_lookup_insert_ne in Hb by done. right. split_and!; [done| |done].
      apply Hsame. apply install_index in Hj. naive_solver.
  - intros [[-> ->]|(Hne & Hj & Hb)].
    + assert (i < S (length l'))%nat by (apply install_index; by left).
      rewrite list_lookup_insert_eq by lia. done.
    + rewrite list_lookup_insert_ne by done. split; [lia|done].
Qed.

Lemma install_ok : cache_ok c'.
Proof.
  destruct Hdev as [Hsz Hty]. pose proof Hok as [].
  split; simpl; try done.
  - by rewrite length_insert.
  - intros j b Hj. destruct (decide (j = i)) as [->|Hne].
    + rewrite list_lookup_insert_eq in Hj; [naive_solver|].
      apply lookup_lt_Some in Hj. by rewrite length_insert in Hj.
    + rewrite list_lookup_insert_ne in Hj by done. eauto.
  - intros j k b b' [[-> ->]|[? Hb]]%install_occupied [[-> ->]|[? Hb']]%install_occupied; simpl;
      intros He; [done|symmetry in He; naive_solver|naive_solver|eauto].
  - intros j b [[-> ->]|[? Hb]]%install_occupied; simpl; rewrite Hsz; eauto.
  - intros j b [[-> ->]|[? Hb]]%install_occupied; simpl; eauto.
  - intros j b [[-> ->]|[? Hb]]%install_occupied; simpl; [done|].
    intros Hd0. rewrite (Hkeep j b) by done. eauto.
  - by rewrite Hty.
Qed.

Lemma install_contents t : contents c' t = if decide (t = s) then d else contents c t.
Proof.
  pose proof install_ok as Hok'. case_decide as E.
  - subst t. apply (contents_hit c' i (mk_cb s d false dirty)); [done|].
    apply install_occupied. by left.
  - destruct (cached_at c' t) as [[j b]|] eqn:Hc.
    + apply cached_at_Some in Hc as [Hocc <-].
      rewrite (contents_hit c' j b) by done.
      apply install_occupied in Hocc as [[-> ->]|[Hne Hb]]; [done|].
      by rewrite (contents_hit c j b).
    + rewrite contents_miss by (intros; by eapply cached_at_None). apply Hold; [done|].
      intros j b Hb Hne. eapply cached_at_None; [done|]. apply install_occupied. by right.
Qed.

Lemma install_recency :
  recency c' = s :: ((λ j, from_option sector_tag (-1) (blocks c !! j)) <$> l').
Proof.
  pose proof (ok_len c Hok) as Hlen.
  assert (Hnd : NoDup (i :: l')) by (rewrite Hperm; apply NoDup_seq).
  assert (Hi : (i < S (length l'))%nat) by (apply install_index; by left).
  unfold recency. simpl. rewrite list_lookup_insert_eq by lia. simpl. f_equal.
  apply list_fmap_ext. intros k j Hj. rewrite list_lookup_insert_ne; [done|].
  intros ->. apply NoDup_cons in Hnd as [Hnd _]. apply Hnd. by eapply list_elem_of_lookup_2.
Qed.
End install.

(** * The branches of a read and of a write *)
Lemma get_block_bind {B} i (k : cache_block → cmd cache B) c b :
  blocks c !! i = Some b → (get_block i ≫= k) c = k b c.
Proof. intros H. unfold mbind, cmd_bind, get_block. by rewrite H. Qed.

Lemma dev_read_bind {B} s (k : list Z → cmd cache B) c :
  s < size (fs_device c) →
  (dev_block_read s ≫= k) c =
    k (dev_read (fs_device c) s)
      (set_device (mk_block (type (fs_device c)) (size (fs_device c)) (sectors (fs_device c))
                     (u64 (read_cnt (fs_device c) + 1)) (write_cnt (fs_device c))) c).
Proof.
  intros H. unfold dev_block_read, block_read, check_sector.
  unfold mbind, cmd_bind, gets, lift_res. rewrite (proj2 (Z.leb_gt _ _)) by done. done.
Qed.

Lemma dev_write_bind {B} s d (k : unit → cmd cache B) c :
  s < size (fs_device c) → type (fs_device c) ≠ BLOCK_FOREIGN →
  (dev_block_write s d ≫= k) c =
    k tt (set_device (mk_block (type (fs_device c)) (size (fs_device c))
            (<[s := d]> (sectors (fs_device c)))
            (read_cnt (fs_device c)) (u64 (write_cnt (fs_device c) + 1))) c).
Proof.
  intros H Ht. unfold dev_block_write, block_write, check_sector.
  unfold mbind, cmd_bind, gets, lift_res. rewrite (proj2 (Z.leb_gt _ _)) by done. simpl.
  by rewrite bool_decide_eq_false_2.
Qed.

Ltac crun :=
  repeat first
    [ progress simpl
    | rewrite bind_assoc
    | rewrite gets_bind | rewrite modify_bind | rewrite ret_bind | rewrite lift_bind
    | rewrite modify_run | rewrite ret_run
    | erewrite get_block_bind by (simpl; rewrite ?list_lookup_insert_eq by (rewrite ?length_insert; lia); done)
    | rewrite dev_read_bind by (simpl; lia)
    | rewrite dev_write_bind by (simpl; (lia || done)) ].

Section branches.
Context (c : cache) (s : Z) (Hok : cache_ok c) (Hs : 0 <= s < size (fs_device c)).

Lemma acquire_LRU_bind {B} (k : unit → cmd cache B) :
  (acquire_LRU ≫= k) c = k tt (set_LRU_lock true c).
Proof. unfold acquire_LRU, mbind, cmd_bind, gets, lift_res. by rewrite (ok_lock c Hok). Qed.

(** Both operations start with the search. *)
Lemma search_bind {B} r (k : nat → option nat → cmd cache B) :
  (∀ k, find_loop (length (LRU_list c)) 0 s (set_LRU_lock k c) = Ret (r, set_LRU_lock k c)) →
  (acquire_LRU ≫= λ _, gets (λ c, length (LRU_list c)) ≫= λ size, find_loop size 0 s ≫= k size) c =
    k (length (LRU_list c)) r (set_LRU_lock true c).
Proof.
  intros Hf. rewrite acquire_LRU_bind, gets_bind. simpl.
  by rewrite (bind_Ret _ _ _ _ _ (Hf true)).
Qed.

Ltac ops_unfold :=
  unfold LRU_push_front, acquire_block, release_LRU, release_block, set_tag, set_sector, set_dirty, put_block.
Ltac ops_done :=
  unfold install, upd_blocks, upd_LRU, set_LRU_lock, set_device; simpl;
  rewrite ?list_insert_insert_eq; simpl; by subst.

Section hit.
Context (i : nat) (b : cache_block) (Hocc : occupied c i b) (Ht : sector_tag b = s).
Context (Hf : ∀ k, find_loop (length (LRU_list c)) 0 s (set_LRU_lock k c) = Ret (Some i, set_LRU_lock k c)).
Let l' := filter (λ j, j ≠ i) (LRU_list c).

Lemma hit_remove k : LRU_remove i (set_LRU_lock k c) = Ret (tt, upd_LRU (filter (λ j, j ≠ i)) (set_LRU_lock k c)).
Proof.
  destruct Hocc as [Hi _]. unfold LRU_remove. simpl.
  rewrite decide_True; [done|]. rewrite (ok_perm c Hok). apply elem_of_seq. lia.
Qed.

Lemma cache_read_hit : cache_read s c = Ret (sector b, install c i s (sector b) (dirty_bit b) l' (fs_device c)).
Proof.
  destruct Hocc as [Hi Hb]. pose proof (ok_locks c Hok i b Hb) as Hl.
  pose proof (lookup_lt_Some _ _ _ Hb) as Hlt.
  unfold cache_read. erewrite search_bind by apply Hf. cbv beta iota zeta. rewrite (bind_Ret _ _ _ _ _ (hit_remove true)).
  ops_unfold. crun. rewrite Hl. crun. ops_done.
Qed.

Lemma cache_write_hit d : cache_write s d c = Ret (tt, install c i s d true l' (fs_device c)).
Proof.
  destruct Hocc as [Hi Hb]. pose proof (ok_locks c Hok i b Hb) as Hl.
  pose proof (lookup_lt_Some _ _ _ Hb) as Hlt.
  unfold cache_write. erewrite search_bind by apply Hf. cbv beta iota zeta. rewrite (bind_Ret _ _ _ _ _ (hit_remove true)).
  ops_unfold. crun. rewrite Hl. crun. ops_done.
Qed.
End hit.
Section miss.
Context (Hmiss : ∀ i b, occupied c i b → sector_tag b ≠ s).
Context (Hf : ∀ k, find_loop (length (LRU_list c)) 0 s (set_LRU_lock k c) = Ret (None, set_LRU_lock k c)).

(** The device after a counted read. *)
Definition dev_after_read (d : block) : block :=
  mk_block (type d) (size d) (sectors d) (u64 (read_cnt d + 1)) (write_cnt d).
(** The device after the dirty contents of a victim block are written back. *)
Definition dev_after_evict (b : cache_block) (d : block) : block :=
  if dirty_bit b
  then mk_block (type d) (size d) (<[sector_tag b := sector b]> (sectors d)) (read_cnt d) (u64 (write_cnt d + 1))
  else d.

Section room.
Context (Hroom : (length (LRU_list c) < CACHE_SIZE)%nat).
Let i := length (LRU_list c).

Lemma cache_read_room :
  cache_read s c = Ret (dev_read (fs_device c) s,
    install c i s (dev_read (fs_device c) s) false (LRU_list c) (dev_after_read (fs_device c))).
Proof.
  pose proof (ok_len c Hok) as Hlen.
  destruct (lookup_lt_is_Some_2 (blocks c) i) as [b Hb]; [unfold i; lia|].
  pose proof (ok_locks c Hok i b Hb) as Hl. pose proof (lookup_lt_Some _ _ _ Hb) as Hlt.
  unfold cache_read. erewrite search_bind by apply Hf. cbv beta iota zeta. fold i.
  rewrite (proj2 (Nat.ltb_lt i 64)) by (unfold i, CACHE_SIZE in *; lia).
  ops_unfold. crun. rewrite Hl. crun. ops_done.
Qed.

Lemma cache_write_room d :
  cache_write s d c = Ret (tt, install c i s d true (LRU_list c) (fs_device c)).
Proof.
  pose proof (ok_len c Hok) as Hlen.
  destruct (lookup_lt_is_Some_2 (blocks c) i) as [b Hb]; [unfold i; lia|].
  pose proof (ok_locks c Hok i b Hb) as Hl. pose proof (lookup_lt_Some _ _ _ Hb) as Hlt.
  unfold cache_write. erewrite search_bind by apply Hf. cbv beta iota zeta. fold i.
  rewrite (proj2 (Nat.ltb_lt i 64)) by (unfold i, CACHE_SIZE in *; lia).
  ops_unfold. crun. rewrite Hl. crun. ops_done.
Qed.
End room.

Section evict.
Context (i : nat) (b : cache_block) (l0 : list nat).
Context (Hl0 : LRU_list c = l0 ++ [i]) (Hfull : length (LRU_list c) = CACHE_SIZE).
Context (Hocc : occupied c i b).

Lemma evict_pop k : LRU_pop_back (set_LRU_lock k c) = Ret (i, upd_LRU (λ _, l0) (set_LRU_lock k c)).
Proof.
  unfold LRU_pop_back. simpl. rewrite Hl0, last_snoc. do 2 f_equal. unfold upd_LRU. simpl. f_equal.
  rewrite Hl0, length_app. simpl. rewrite Nat.add_1_r. simpl. by rewrite take_app_length.
Qed.

Lemma cache_read_evict :
  let dev := dev_after_evict b (fs_device c) in
  cache_read s c = Ret (dev_read dev s, install c i s (dev_read dev s) false l0 (dev_after_read dev)).
Proof.
  destruct (Hocc) as [Hi Hb]. pose proof (ok_locks c Hok i b Hb) as Hl.
  pose proof (lookup_lt_Some _ _ _ Hb) as Hlt. pose proof (ok_tag c Hok i b Hocc) as Htag.
  pose proof (ok_type c Hok) as Hty.
  unfold cache_read. erewrite search_bind by apply Hf. cbv beta iota zeta.
  rewrite Hfull. change (CACHE_SIZE <? 64)%nat with false. cbv iota. rewrite (bind_Ret _ _ _ _ _ (evict_pop true)).
  ops_unfold. unfold dev_after_evict, dev_after_read. crun. rewrite Hl. crun.
  destruct (dirty_bit b) eqn:Hd; crun; ops_done.
Qed.

Lemma cache_write_evict d :
  cache_write s d c = Ret (tt, install c i s d true l0 (dev_after_evict b (fs_device c))).
Proof.
  destruct (Hocc) as [Hi Hb]. pose proof (ok_locks c Hok i b Hb) as Hl.
  pose proof (lookup_lt_Some _ _ _ Hb) as Hlt. pose proof (ok_tag c Hok i b Hocc) as Htag.
  pose proof (ok_type c Hok) as Hty.
  unfold cache_write. erewrite search_bind by apply Hf. cbv beta iota zeta.
  rewrite Hfull. change (CACHE_SIZE <? 64)%nat with false. cbv iota. rewrite (bind_Ret _ _ _ _ _ (evict_pop true)).
  ops_unfold. unfold dev_after_evict, dev_after_read. crun. rewrite Hl. crun.
  destruct (dirty_bit b) eqn:Hd; crun; ops_done.
Qed.
End evict.
End miss.
End branches.

(** What the list part of each branch provides. *)
Record list_pre (c : cache) (i : nat) (s : Z) (l' : list nat) : Prop := {
  lp_perm : i :: l' ≡ₚ seq 0 (S (length l'));
  lp_room : (S (length l') <= CACHE_SIZE)%nat;
  lp_same : ∀ j, j ∈ l' → (j < length (LRU_list c))%nat;
  lp_grow : (length (LRU_list c) <= S (length l'))%nat;
  lp_fresh : ∀ j b, occupied c j b → sector_tag b = s → j = i;
  lp_recency : (λ j, from_option sector_tag (-1) (blocks c !! j)) <$> l' =
               take (pred CACHE_SIZE) (filter (λ t, t ≠ s) (recency c))
}.

Lemma recency_length c : length (recency c) = length (LRU_list c).
Proof. apply length_fmap. Qed.

Lemma recency_miss c s :
  cache_ok c → (∀ i b, occupied c i b → sector_tag b ≠ s) →
  filter (λ t, t ≠ s) (recency c) = recency c.
Proof.
  intros Hok Hm. apply filter_all. intros t Ht.
  apply list_elem_of_fmap in Ht as (j & -> & Hj).
  rewrite (ok_perm c Hok), elem_of_seq in Hj. pose proof (ok_len c Hok). pose proof (ok_size c Hok).
  destruct (lookup_lt_is_Some_2 (blocks c) j) as [b Hb]; [lia|]. rewrite Hb. simpl.
  apply (Hm j). split; [lia|done].
Qed.

Lemma filter_out_perm (l : list nat) i :
  NoDup l → i ∈ l → i :: filter (λ j, j ≠ i) l ≡ₚ l.
Proof.
  induction 1 as [|x l Hx Hnd IH]; intros Hin; [by apply elem_of_nil in Hin|].
  destruct (decide (x = i)) as [->|Hne].
  - rewrite filter_cons_False by naive_solver.
    rewrite filter_all; [done|]. intros y Hy ->. done.
  - rewrite filter_cons_True by done. apply elem_of_cons in Hin as [->|Hin]; [done|].
    rewrite Permutation_swap, IH by done. done.
Qed.

Lemma hit_list_pre c i b :
  cache_ok c → occupied c i b → list_pre c i (sector_tag b) (filter (λ j, j ≠ i) (LRU_list c)).
Proof.
  intros Hok [Hi Hb]. pose proof (ok_perm c Hok) as Hp. pose proof (ok_size c Hok).
  assert (Hnd : NoDup (LRU_list c)) by (rewrite Hp; apply NoDup_seq).
  assert (Hin : i ∈ LRU_list c) by (rewrite Hp; apply elem_of_seq; lia).
  pose proof (filter_out_perm _ _ Hnd Hin) as Hf.
  assert (Hlen : S (length (filter (λ j, j ≠ i) (LRU_list c))) = length (LRU_list c))
    by (apply Permutation_length in Hf; done).
  split; try (rewrite ?Hlen; lia).
  - rewrite Hlen, Hf. done.
  - intros j Hj%list_elem_of_filter. destruct Hj as [_ Hj]. rewrite Hp, elem_of_seq in Hj. lia.
  - intros j b' Ho Ht. eapply ok_uniq; [done|done|split; [exact Hi|exact Hb]|done].
  - assert (E : filter (λ t, t ≠ sector_tag b) (recency c) =
       (λ j, from_option sector_tag (-1) (blocks c !! j)) <$> filter (λ j, j ≠ i) (LRU_list c)).
    { apply filter_fmap_ext. intros j Hj. rewrite Hp, elem_of_seq in Hj.
      destruct (lookup_lt_is_Some_2 (blocks c) j) as [b' Hb']; [pose proof (ok_len c Hok); lia|].
      rewrite Hb'. simpl. split; [|naive_solver]. intros Hne Ht. apply Hne.
      eapply (ok_uniq c Hok); [split; [|exact Hb']; lia|split; [exact Hi|exact Hb]|done]. }
    rewrite E, take_ge; [done|]. rewrite length_fmap. lia.
Qed.

Lemma room_list_pre c s :
  cache_ok c → (∀ i b, occupied c i b → sector_tag b ≠ s) →
  (length (LRU_list c) < CACHE_SIZE)%nat →
  list_pre c (length (LRU_list c)) s (LRU_list c).
Proof.
  intros Hok Hm Hr. pose proof (ok_perm c Hok) as Hp. split; try lia.
  - rewrite seq_S, <- Hp. simpl. by rewrite (Permutation_app_comm _ [_]).
  - intros j Hj. rewrite Hp, elem_of_seq in Hj. lia.
  - intros j b Ho Ht. by apply Hm in Ho.
  - rewrite recency_miss, take_ge by (done || (rewrite recency_length; lia)). done.
Qed.

Lemma evict_list_pre c i s l0 :
  cache_ok c → (∀ i b, occupied c i b → sector_tag b ≠ s) →
  LRU_list c = l0 ++ [i] → length (LRU_list c) = CACHE_SIZE → list_pre c i s l0.
Proof.
  intros Hok Hm Hl Hfull. pose proof (ok_perm c Hok) as Hp.
  assert (Hlen : length (LRU_list c) = S (length l0)) by (rewrite Hl, length_app; simpl; lia).
  split; try lia.
  - rewrite <- Hlen, <- Hp, Hl. by rewrite (Permutation_app_comm _ [_]).
  - intros j Hj. assert (Hj' : j ∈ LRU_list c) by (rewrite Hl; set_solver).
    rewrite Hp, elem_of_seq in Hj'. lia.
  - intros j b Ho Ht. by apply Hm in Ho.
  - rewrite recency_miss by done. unfold recency. rewrite Hl, fmap_app.
    rewrite take_app_length'; [done|]. rewrite length_fmap. lia.
Qed.

(** What the device part of each branch provides. *)
Record dev_pre (c : cache) (i : nat) (s : Z) (d : list Z) (dirty : bool) (dev' : block) : Prop := {
  dp_size : size dev' = size (fs_device c) ∧ type dev' = type (fs_device c);
  dp_len : ∀ t, length (dev_read dev' t) = Z.to_nat BLOCK_SECTOR_SIZE;
  dp_keep : ∀ j b, occupied c j b → j ≠ i →
    dev_read dev' (sector_tag b) = dev_read (fs_device c) (sector_tag b);
  dp_clean : dirty = false → d = dev_read dev' s;
  dp_old : ∀ t, t ≠ s → (∀ j b, occupied c j b → j ≠ i → sector_tag b ≠ t) →
    dev_read dev' t = contents c t
}.

Lemma install_spec c i s d dirty l' dev' :
  cache_ok c → 0 <= s < size (fs_device c) → length d = Z.to_nat BLOCK_SECTOR_SIZE →
  list_pre c i s l' → dev_pre c i s d dirty dev' →
  let c' := install c i s d dirty l' dev' in
  cache_ok c' ∧ (∀ t, contents c' t = if decide (t = s) then d else contents c t)
  ∧ recency c' = lru_touch s (recency c) ∧ size (fs_device c') = size (fs_device c).
Proof.
  intros Hok Hs Hd [] [Hsz]. simpl. split_and!.
  - by apply install_ok.
  - intros t. by apply install_contents.
  - rewrite install_recency by done. unfold lru_touch. by f_equal.
  - apply Hsz.
Qed.

Lemma same_dev_pre c i s d dirty dev' :
  cache_ok c → (∀ b, occupied c i b → sector_tag b = s) →
  (dirty = false → d = dev_read (fs_device c) s) →
  (size dev' = size (fs_device c) ∧ type dev' = type (fs_device c)
   ∧ sectors dev' = sectors (fs_device c)) →
  dev_pre c i s d dirty dev'.
Proof.
  intros Hok Hi Hc (Hs & Ht & Hsec).
  assert (E : ∀ t, dev_read dev' t = dev_read (fs_device c) t)
    by (intros t; unfold dev_read; by rewrite Hsec).
  split; try done.
  - intros t. rewrite E. by apply ok_dev.
  - intros ?. rewrite E. auto.
  - intros t Hne Hj. rewrite E, contents_miss; [done|].
    intros j b Ho. destruct (decide (j = i)) as [->|]; [|by eapply Hj].
    rewrite (Hi b Ho). done.
Qed.

Lemma evict_read c b t :
  dev_read (dev_after_evict b (fs_device c)) t =
    if decide (dirty_bit b = true ∧ t = sector_tag b) then sector b else dev_read (fs_device c) t.
Proof.
  unfold dev_after_evict, dev_read. destruct (dirty_bit b) eqn:Hd; cbn [sectors].
  - rewrite lookup_insert. case_decide as E1; case_decide as E2; naive_solver.
  - case_decide; naive_solver.
Qed.

Lemma evict_dev_pre c i b s d dirty dev' :
  cache_ok c → occupied c i b →
  (dirty = false → d = dev_read dev' s) →
  size dev' = size (fs_device c) → type dev' = type (fs_device c) →
  (∀ t, dev_read dev' t = dev_read (dev_after_evict b (fs_device c)) t) →
  dev_pre c i s d dirty dev'.
Proof.
  intros Hok Ho Hc Hsz Hty E. split; [done| | |done|].
  - intros t. rewrite E, evict_read. case_decide; [by eapply ok_data|by apply ok_dev].
  - intros j b' Hj Hne. rewrite E, evict_read. case_decide as D; [|done].
    destruct D as [_ D]. exfalso. apply Hne. by eapply (ok_uniq c Hok).
  - intros t Hne Hj. rewrite E, evict_read. case_decide as D.
    + destruct D as [_ ->]. symmetry. by eapply contents_hit.
    + destruct (decide (t = sector_tag b)) as [->|Hnt].
      * rewrite (contents_hit c i b) by done. symmetry. eapply ok_clean; [done|done|].
        destruct (dirty_bit b); naive_solver.
      * rewrite contents_miss; [done|]. intros j b' Hj'.
        destruct (decide (j = i)) as [->|]; [|by eapply Hj].
        destruct Ho, Hj'. naive_solver.
Qed.

(** The block the eviction takes is the last of the recency list. *)
Lemma victim c :
  cache_ok c → ¬ (length (LRU_list c) < CACHE_SIZE)%nat →
  ∃ l0 i b, LRU_list c = l0 ++ [i] ∧ length (LRU_list c) = CACHE_SIZE ∧ occupied c i b.
Proof.
  intros Hok Hfull. pose proof (ok_size c Hok). pose proof (ok_len c Hok).
  destruct (exists_last (l := LRU_list c)) as (l0 & i & Hl); [by intros E; rewrite E in Hfull; simpl in Hfull; unfold CACHE_SIZE in *; lia|].
  assert (Hi : i ∈ LRU_list c) by (rewrite Hl; set_solver).
  rewrite (ok_perm c Hok), elem_of_seq in Hi.
  destruct (lookup_lt_is_Some_2 (blocks c) i) as [b Hb]; [lia|].
  exists l0, i, b. split_and!; [done|lia|]. split; [lia|done].
Qed.

(** A counted read leaves what the device stores unchanged. *)
Lemma dev_after_read_read d t : dev_read (dev_after_read d) t = dev_read d t.
Proof. done. Qed.

Lemma dev_after_evict_size b d : size (dev_after_evict b d) = size d ∧ type (dev_after_evict b d) = type d.
Proof. unfold dev_after_evict. by destruct (dirty_bit b). Qed.

Section access.
Context (c : cache) (s : Z) (Hok : cache_ok c) (Hs : 0 <= s < size (fs_device c)).

Lemma cache_read_run :
  ∃ c', cache_read s c = Ret (contents c s, c') ∧ cache_ok c'
    ∧ (∀ t, contents c' t = contents c t)
    ∧ recency c' = lru_touch s (recency c) ∧ size (fs_device c') = size (fs_device c).
Proof.
  assert (Hsame : ∀ d c', (∀ t, contents c' t = if decide (t = s) then d else contents c t) →
    d = contents c s → ∀ t, contents c' t = contents c t).
  { intros d c' H -> t. rewrite H. by case_decide as E; [subst|]. }
  destruct (find_run c s Hok) as [(i & b & Ho & Ht & Hf)|[Hm Hf]].
  - rewrite (cache_read_hit c s Hok Hs i b Ho Ht Hf). subst s. rewrite (contents_hit c i b) by done.
    destruct (install_spec c i (sector_tag b) (sector b) (dirty_bit b) (filter (λ j, j ≠ i) (LRU_list c))
      (fs_device c)) as (O & C & R & Z); [done|done|by eapply ok_data|by apply hit_list_pre| |].
    { apply same_dev_pre; [done| |by apply (ok_clean c Hok i)|done].
      intros b' Ho'. destruct Ho, Ho'. naive_solver. }
    eexists. split; [done|]. split_and!; try done. eapply Hsame; [done|]. by rewrite (contents_hit c i b).
  - rewrite (contents_miss c s Hm).
    destruct (decide (length (LRU_list c) < CACHE_SIZE)%nat) as [Hr|Hr].
    + rewrite (cache_read_room c s Hok Hs Hf Hr).
      edestruct (install_spec c) as (O & C & R & Z); [done|done| |by apply room_list_pre| |].
      3: { eexists. split; [done|]. split_and!; try done.
           eapply Hsame; [done|]. by rewrite contents_miss. }
      * by apply ok_dev.
      * apply same_dev_pre; [done| |done|done]. intros b [? _]. lia.
    + destruct (victim c Hok Hr) as (l0 & i & b & Hl & Hfull & Ho).
      rewrite (cache_read_evict c s Hok Hs Hf i b l0 Hl Hfull Ho).
      assert (E : dev_read (dev_after_evict b (fs_device c)) s = dev_read (fs_device c) s).
      { rewrite evict_read, decide_False; [done|]. intros [_ ->]. by apply (Hm i b). }
      rewrite E. pose proof (dev_after_evict_size b (fs_device c)) as [Z1 Z2].
      edestruct (install_spec c) as (O & C & R & Z); [done|done| |by eapply evict_list_pre| |].
      3: { eexists. split; [done|]. split_and!; try done.
           eapply Hsame; [done|]. by rewrite contents_miss. }
      * by apply ok_dev.
      * by eapply evict_dev_pre.
Qed.

Lemma cache_write_run d :
  length d = Z.to_nat BLOCK_SECTOR_SIZE →
  ∃ c', cache_write s d c = Ret (tt, c') ∧ cache_ok c'
    ∧ (∀ t, contents c' t = if decide (t = s) then d else contents c t)
    ∧ recency c' = lru_touch s (recency c) ∧ size (fs_device c') = size (fs_device c).
Proof.
  intros Hd. destruct (find_run c s Hok) as [(i & b & Ho & Ht & Hf)|[Hm Hf]].
  - rewrite (cache_write_hit c s Hok Hs i b Ho Ht Hf d). subst s. eexists. split; [done|].
    apply install_spec; [done|done|done|by apply hit_list_pre|].
    apply same_dev_pre; [done| |done|done]. intros b' Ho'. destruct Ho, Ho'. naive_solver.
  - destruct (decide (length (LRU_list c) < CACHE_SIZE)%nat) as [Hr|Hr].
    + rewrite (cache_write_room c s Hok Hf Hr). eexists. split; [done|].
      apply install_spec; [done|done|done|by apply room_list_pre|].
      apply same_dev_pre; [done| |done|done]. intros b [? _]. lia.
    + destruct (victim c Hok Hr) as (l0 & i & b & Hl & Hfull & Ho).
      rewrite (cache_write_evict c s Hok Hf i b l0 Hl Hfull Ho). eexists. split; [done|].
      apply install_spec; [done|done|done|by eapply evict_list_pre|].
      pose proof (dev_after_evict_size b (fs_device c)) as [Z1 Z2]. by eapply evict_dev_pre.
Qed.
End access.

(** * Flushing *)

(** Writing back block [i]. *)
Definition flushed (c : cache) (i : nat) (b : cache_block) : cache :=
  mk_cache (<[i := mk_cb (sector_tag b) (sector b) false false]> (blocks c)) (LRU_list c) (LRU_lock c)
    (mk_block (type (fs_device c)) (size (fs_device c))
       (<[sector_tag b := sector b]> (sectors (fs_device c)))
       (read_cnt (fs_device c)) (u64 (write_cnt (fs_device c) + 1))).

Section flushed.
Context (c : cache) (i : nat) (b : cache_block) (Hok : cache_ok c) (Hocc : occupied c i b).

Lemma flushed_occupied j b' :
  occupied (flushed c i b) j b' ↔
    (j = i ∧ b' = mk_cb (sector_tag b) (sector b) false false) ∨ (j ≠ i ∧ occupied c j b').
Proof.
  destruct Hocc as [Hi Hb]. pose proof (lookup_lt_Some _ _ _ Hb) as Hlt. unfold occupied. simpl.
  destruct (decide (j = i)) as [->|Hne].
  - rewrite list_lookup_insert_eq by done. naive_solver.
  - rewrite list_lookup_insert_ne by done. naive_solver.
Qed.

Lemma flushed_read t :
  dev_read (fs_device (flushed c i b)) t =
    if decide (t = sector_tag b) then sector b else dev_read (fs_device c) t.
Proof.
  unfold flushed, dev_read; cbn [fs_device sectors]. rewrite lookup_insert.
  case_decide; case_decide; naive_solver.
Qed.

Lemma flushed_ok : cache_ok (flushed c i b).
Proof.
  destruct (Hocc) as [Hi Hb]. pose proof (lookup_lt_Some _ _ _ Hb) as Hlt. pose proof Hok as [].
  split; try done.
  - simpl. by rewrite length_insert.
  - intros j b' Hj. simpl in Hj. destruct (decide (j = i)) as [->|Hne].
    + rewrite list_lookup_insert_eq in Hj by done. naive_solver.
    + rewrite list_lookup_insert_ne in Hj by done. eauto.
  - intros j k b1 b2 [[-> ->]|[? H1]]%flushed_occupied [[-> ->]|[? H2]]%flushed_occupied; simpl; eauto.
  - intros j b1 [[-> ->]|[? H1]]%flushed_occupied; simpl; eauto.
  - intros j b1 [[-> ->]|[? H1]]%flushed_occupied; simpl; eauto.
  - intros j b1 [[-> ->]|[? H1]]%flushed_occupied Hd; rewrite flushed_read; case_decide as E; eauto.
    + done.
    + exfalso. eauto.
  - intros t. rewrite flushed_read. case_decide; eauto.
Qed.

Lemma flushed_contents t : contents (flushed c i b) t = contents c t.
Proof.
  destruct (cached_at (flushed c i b) t) as [[j b']|] eqn:E.
  - apply cached_at_Some in E as [Ho <-]. rewrite (contents_hit _ j b') by (done || apply flushed_ok).
    apply flushed_occupied in Ho as [[-> ->]|[Hne Ho]]; simpl;
      [by rewrite (contents_hit c i b)|by rewrite (contents_hit c j b')].
  - pose proof (cached_at_None _ _ i (mk_cb (sector_tag b) (sector b) false false) E) as Hi.
    rewrite contents_miss by (intros; by eapply cached_at_None).
    rewrite flushed_read, decide_False.
    + symmetry. apply contents_miss. intros j b' Ho. destruct (decide (j = i)) as [->|Hne].
      * destruct (Hocc) as [_ Hb], Ho as [_ Hb']. rewrite Hb in Hb'. injection Hb' as <-.
        apply Hi, flushed_occupied. by left.
      * eapply cached_at_None; [done|]. apply flushed_occupied. by right.
    + intros ->. apply Hi; [|done]. apply flushed_occupied. by left.
Qed.
End flushed.

Lemma set_LRU_lock_id c : cache_ok c → set_LRU_lock false (set_LRU_lock true c) = c.
Proof. intros Hok. pose proof (ok_lock c Hok). destruct c; simpl in *. by subst. Qed.

Lemma flush_loop_run n i c :
  cache_ok c → (i + n = length (LRU_list c))%nat →
  (∀ j b, (j < i)%nat → occupied c j b → dirty_bit b = false) →
  ∃ c', flush_loop n i (set_LRU_lock true c) = Ret (tt, set_LRU_lock true c') ∧ cache_ok c'
    ∧ LRU_list c' = LRU_list c ∧ (∀ t, contents c' t = contents c t)
    ∧ (∀ j b, occupied c' j b → dirty_bit b = false)
    ∧ recency c' = recency c ∧ size (fs_device c') = size (fs_device c).
Proof.
  revert i c. induction n as [|n IH]; intros i c Hok Hn Hclean; cbn [flush_loop].
  { exists c. split_and!; try done. intros j b Ho. apply (Hclean j b); [|done]. destruct Ho. lia. }
  pose proof (ok_len c Hok). pose proof (ok_size c Hok).
  destruct (lookup_lt_is_Some_2 (blocks c) i) as [b Hb]; [lia|].
  assert (Ho : occupied c i b) by (split; [lia|done]).
  rewrite (get_block_bind _ _ _ b) by done. destruct (dirty_bit b) eqn:Hd.
  - assert (E : ∀ B (k : unit → cmd cache B),
      ((acquire_block i;; b ← get_block i; dev_block_write (sector_tag b) (sector b);;
        set_dirty i false;; release_block i) ≫= k) (set_LRU_lock true c) =
      k tt (set_LRU_lock true (flushed c i b))).
    { intros B k. pose proof (ok_locks c Hok i b Hb) as Hl. pose proof (lookup_lt_Some _ _ _ Hb) as Hlt.
      pose proof (ok_tag c Hok i b Ho). pose proof (ok_type c Hok).
      unfold acquire_block, release_block, set_dirty, put_block. crun. rewrite Hl. crun.
      unfold flushed, upd_blocks, set_LRU_lock, set_device; simpl. by rewrite !list_insert_insert_eq. }
    rewrite E. destruct (IH (S i) (flushed c i b)) as (c' & -> & O & L & C & D & R & S).
    + by apply flushed_ok.
    + simpl. lia.
    + intros j b' Hj [[-> ->]|[Hne Ho']]%flushed_occupied; [done| |done]. apply (Hclean j); [lia|done].
    + exists c'. split_and!; try done.
      * intros t. rewrite C. by apply flushed_contents.
      * rewrite R. unfold recency. simpl. apply list_fmap_ext. intros k j _.
        destruct (decide (j = i)) as [->|Hne]; [|by rewrite list_lookup_insert_ne].
        rewrite list_lookup_insert_eq by (by eapply lookup_lt_Some). by rewrite Hb.
  - rewrite ret_bind. apply IH; [done|lia|]. intros j b' Hj Ho'.
    destruct (decide (j = i)) as [->|Hne]; [destruct Ho, Ho'; naive_solver|].
    apply (Hclean j); [lia|done].
Qed.

Lemma cache_flush_run c :
  cache_ok c →
  ∃ c', cache_flush c = Ret (tt, c') ∧ cache_ok c' ∧ (∀ t, contents c' t = contents c t)
    ∧ (∀ t, dev_read (fs_device c') t = contents c t) ∧ recency c' = recency c
    ∧ size (fs_device c') = size (fs_device c).
Proof.
  intros Hok. destruct (flush_loop_run (length (LRU_list c)) 0 c) as (c' & E & O & L & C & D & R & S);
    [done|done|lia|]. exists c'. split_and!; try done.
  - unfold cache_flush. rewrite acquire_LRU_bind by done. rewrite gets_bind. simpl.
    rewrite (bind_Ret _ _ _ _ _ E). unfold release_LRU. crun. by rewrite set_LRU_lock_id.
  - intros t. rewrite <- C. destruct (cached_at c' t) as [[j b]|] eqn:Hc.
    + apply cached_at_Some in Hc as [Ho <-]. rewrite (contents_hit c' j b) by done.
      symmetry. eapply ok_clean; eauto.
    + symmetry. apply contents_miss. intros. by eapply cached_at_None.
Qed.

(** * The interface to the inode layer *)
Class SectorOps (St : Type) : Type := {
  st_read : Z → cmd St (list Z);
  st_write : Z → list Z → cmd St unit
}.

(** A store of [st_size] sectors that behaves like an array of sectors. *)
Class SectorStore (St : Type) `{SectorOps St} : Type := {
  st_inv : St → Prop;
  st_size : St → Z;
  st_contents : St → Z → list Z;
  st_contents_len : ∀ x s, st_inv x → length (st_contents x s) = Z.to_nat BLOCK_SECTOR_SIZE;
  st_read_spec : ∀ x s, st_inv x → 0 <= s < st_size x →
    ∃ x', st_read s x = Ret (st_contents x s, x') ∧ st_inv x' ∧ st_size x' = st_size x
      ∧ ∀ t, st_contents x' t = st_contents x t;
  st_write_spec : ∀ x s d, st_inv x → 0 <= s < st_size x → length d = Z.to_nat BLOCK_SECTOR_SIZE →
    ∃ x', st_write s d x = Ret (tt, x') ∧ st_inv x' ∧ st_size x' = st_size x
      ∧ ∀ t, st_contents x' t = if decide (t = s) then d else st_contents x t
}.

#[global] Instance cache_sector_ops : SectorOps cache :=
  { st_read := cache_read; st_write := cache_write }.

#[global, program] Instance cache_sector_store : SectorStore cache :=
  { st_inv := cache_ok; st_size c := size (fs_device c); st_contents := contents }.
Next Obligation.
  intros c s Hok. unfold contents. destruct (cached_at c s) as [[i b]|] eqn:E; [|by apply ok_dev].
  apply cached_at_Some in E as [Ho _]. by eapply ok_data.
Qed.
Next Obligation.
  intros c s Hok Hs. destruct (cache_read_run c s Hok Hs) as (c' & E & O & C & _ & S).
  by exists c'.
Qed.
Next Obligation.
  intros c s d Hok Hs Hd. destruct (cache_write_run c s Hok Hs d Hd) as (c' & E & O & C & _ & S).
  by exists c'.
Qed.

(** The device without the cache is a store too. *)
#[global] Instance block_sector_ops : SectorOps block :=
  { st_read s b := block_read b s;
    st_write s d b := match block_write b s d with Ret b' => Ret (tt, b') | Err e => Err e end }.

Definition block_ok (b : block) : Prop :=
  type b ≠ BLOCK_FOREIGN ∧ ∀ s, length (dev_read b s) = Z.to_nat BLOCK_SECTOR_SIZE.

#[global, program] Instance block_sector_store : SectorStore block :=
  { st_inv := block_ok; st_size := size; st_contents := dev_read }.
Next Obligation. by intros b s [_ H]. Qed.
Next Obligation.
  intros b s Hok Hs. simpl. unfold block_read, check_sector.
  rewrite (proj2 (Z.leb_gt _ _)) by lia. simpl. eexists. by split_and!.
Qed.
Next Obligation.
  intros b s d [Ht Hl] Hs Hd. simpl. unfold block_write, check_sector.
  rewrite (proj2 (Z.leb_gt _ _)) by lia. simpl. rewrite bool_decide_eq_false_2 by done. simpl.
  assert (C : ∀ t, dev_read (mk_block (type b) (size b) (<[s := d]> (sectors b)) (read_cnt b)
                     (u64 (write_cnt b + 1))) t = if decide (t = s) then d else dev_read b t).
  { intros t. unfold dev_read. cbn [sectors]. rewrite lookup_insert.
    case_decide; case_decide; naive_solver. }
  eexists. split_and!; [done| |done|exact C]. split; [done|].
  intros t. rewrite C. case_decide; auto.
Qed.

(** * Sequences of cache operations *)
Inductive cache_op : Set := Rd (s : Z) | Wr (s : Z) (d : list Z) | Flush.

Definition run_op (o : cache_op) : cmd cache (list Z) :=
  match o with
  | Rd s => cache_read s
  | Wr s d => cache_write s d;; mret []
  | Flush => cache_flush;; mret []
  end.

Fixpoint run_ops (os : list cache_op) : cmd cache (list (list Z)) :=
  match os with
  | [] => mret []
  | o :: os' => r ← run_op o; rs ← run_ops os'; mret (r :: rs)
  end.

(** The operations on a plain array of sectors. *)
Definition op_effect (o : cache_op) (m : Z → list Z) : Z → list Z :=
  match o with Wr s d => λ t, if decide (t = s) then d else m t | _ => m end.
Definition op_result (o : cache_op) (m : Z → list Z) : list Z :=
  match o with Rd s => m s | _ => [] end.
(** The operations on an abstract recency list. *)
Definition op_recency (o : cache_op) (l : list Z) : list Z :=
  match o with Rd s | Wr s _ => lru_touch s l | Flush => l end.

Definition op_ok (n : Z) (o : cache_op) : Prop :=
  match o with
  | Rd s => 0 <= s < n
  | Wr s d => 0 <= s < n ∧ length d = Z.to_nat BLOCK_SECTOR_SIZE
  | Flush => True
  end.

Fixpoint ops_results (os : list cache_op) (m : Z → list Z) : list (list Z) :=
  match os with [] => [] | o :: os' => op_result o m :: ops_results os' (op_effect o m) end.
Definition ops_effect (os : list cache_op) (m : Z → list Z) : Z → list Z :=
  foldl (λ m o, op_effect o m) m os.

Lemma op_effect_ext o m m' : (∀ t, m t = m' t) → ∀ t, op_effect o m t = op_effect o m' t.
Proof. intros H t. destruct o; simpl; rewrite ?H; done. Qed.

Lemma ops_effect_ext os m m' : (∀ t, m t = m' t) → ∀ t, ops_effect os m t = ops_effect os m' t.
Proof.
  revert m m'. induction os as [|o os IH]; intros m m' H t; [apply H|].
  apply IH, op_effect_ext, H.
Qed.

Lemma ops_results_ext os m m' : (∀ t, m t = m' t) → ops_results os m = ops_results os m'.
Proof.
  revert m m'. induction os as [|o os IH]; intros m m' H; [done|]. simpl. f_equal.
  - destruct o; simpl; auto.
  - apply IH, op_effect_ext, H.
Qed.

Lemma run_op_run o c :
  cache_ok c → op_ok (size (fs_device c)) o →
  ∃ c', run_op o c = Ret (op_result o (contents c), c') ∧ cache_ok c'
    ∧ (∀ t, contents c' t = op_effect o (contents c) t)
    ∧ recency c' = op_recency o (recency c) ∧ size (fs_device c') = size (fs_device c).
Proof.
  intros Hok Ho. destruct o as [s|s d|]; simpl in *.
  - destruct (cache_read_run c s Hok Ho) as (c' & E & O & C & R & S). by exists c'.
  - destruct Ho as [Hs Hd]. destruct (cache_write_run c s Hok Hs d Hd) as (c' & E & O & C & R & S).
    exists c'. by rewrite (bind_Ret _ _ _ _ _ E).
  - destruct (cache_flush_run c Hok) as (c' & E & O & C & _ & R & S).
    exists c'. by rewrite (bind_Ret _ _ _ _ _ E).
Qed.

Lemma run_ops_run os c :
  cache_ok c → Forall (op_ok (size (fs_device c))) os →
  ∃ c', run_ops os c = Ret (ops_results os (contents c), c') ∧ cache_ok c'
    ∧ (∀ t, contents c' t = ops_effect os (contents c) t)
    ∧ recency c' = foldl (λ l o, op_recency o l) (recency c) os
    ∧ size (fs_device c') = size (fs_device c).
Proof.
  revert c. induction os as [|o os IH]; intros c Hok Hall; [by exists c|].
  apply Forall_cons in Hall as [Ho Hall].
  destruct (run_op_run o c Hok Ho) as (c1 & E1 & O1 & C1 & R1 & S1).
  destruct (IH c1 O1) as (c2 & E2 & O2 & C2 & R2 & S2); [by rewrite S1|].
  exists c2. simpl. rewrite (bind_Ret _ _ _ _ _ E1), (bind_Ret _ _ _ _ _ E2), ret_run.
  rewrite (ops_results_ext os _ _ C1). split_and!; try done.
  - intros t. rewrite C2. by apply ops_effect_ext.
  - by rewrite R2, R1.
  - by rewrite S2.
Qed.

(** C20: Any sequence of cache reads, writes and flushes on valid sectors runs
    without fault, returns what the same sequence returns on a plain array of
    sectors, ends with the array's contents, and orders the cached sectors by
    the least-recently-used policy with [CACHE_SIZE] entries. *)
Theorem cache_refines_array os c :
  cache_ok c → Forall (op_ok (size (fs_device c))) os →
  ∃ c', run_ops os c = Ret (ops_results os (contents c), c') ∧ cache_ok c'
    ∧ (∀ t, contents c' t = ops_effect os (contents c) t)
    ∧ recency c' = foldl (λ l o, op_recency o l) (recency c) os.
Proof.
  intros Hok Hos. destruct (run_ops_run os c Hok Hos) as (c' & ? & ? & ? & ? & _). by exists c'.
Qed.

(** Static storage at boot: zeroed blocks, then [cache_init]. *)
Definition boot_cache (dev : block) : cache :=
  cache_init (mk_cache (replicate CACHE_SIZE (mk_cb 0 zero_sector false false)) [] false dev).

Lemma boot_cache_ok dev : block_ok dev → cache_ok (boot_cache dev).
Proof.
  intros [Ht Hl]. unfold boot_cache, cache_init.
  split; cbn [blocks LRU_list LRU_lock fs_device length]; try done; try lia.
  - intros i b. rewrite list_lookup_fmap, fmap_Some. intros (b' & _ & ->). done.
  - intros i j b b' [? _]. simpl in *. lia.
  - intros i b [? _]. simpl in *. lia.
  - intros i b [? _]. simpl in *. lia.
  - intros i b [? _]. simpl in *. lia.
Qed.

(** A device of ten sectors, sector 3 filled with sevens. *)
Definition ex_dev : block :=
  mk_block BLOCK_FILESYS 10 {[ 3 := replicate (Z.to_nat 512) 7 ]} 0 0.

Lemma ex_dev_ok : block_ok ex_dev.
Proof.
  split; [done|]. intros s. unfold dev_read, ex_dev. cbn [sectors].
  destruct (decide (s = 3)) as [->|]; [by rewrite lookup_singleton_eq|].
  by rewrite lookup_singleton_ne.
Qed.

Lemma cache_refines_array_witness :
  ∃ c', run_ops [Rd 3; Wr 5 zero_sector; Rd 3] (boot_cache ex_dev) =
          Ret ([replicate (Z.to_nat 512) 7; []; replicate (Z.to_nat 512) 7], c')
    ∧ recency c' = [3; 5].
Proof.
  destruct (cache_refines_array [Rd 3; Wr 5 zero_sector; Rd 3] (boot_cache ex_dev)
    (boot_cache_ok _ ex_dev_ok)) as (c' & E & _ & _ & R).
  { repeat (apply Forall_cons; split); [simpl; lia|simpl; split; [lia|done]|simpl; lia|apply Forall_nil_2]. }
  exists c'. split; [rewrite E; by vm_compute|]. rewrite R. by vm_compute.
Defined.

(** After any sequence of operations followed by a flush, the device alone
    holds every sector's current value, so a machine that boots with an empty
    cache on that device reads the same contents. *)
Theorem cache_flush_durable os c :
  cache_ok c → Forall (op_ok (size (fs_device c))) os →
  ∃ rs c', run_ops (os ++ [Flush]) c = Ret (rs, c') ∧ cache_ok c'
    ∧ (∀ t, dev_read (fs_device c') t = ops_effect os (contents c) t)
    ∧ (∀ t, contents (boot_cache (fs_device c')) t = contents c' t).
Proof.
  intros Hok Hos. destruct (run_ops_run os c Hok Hos) as (c1 & E1 & O1 & C1 & _ & S1).
  destruct (cache_flush_run c1 O1) as (c2 & E2 & O2 & C2 & D2 & _ & _).
  assert (E : ∀ os x x1 rs, run_ops os x = Ret (rs, x1) →
    run_ops (os ++ [Flush]) x = (cache_flush;; mret (rs ++ [[]])) x1).
  { clear. intros os. induction os as [|o os IH]; intros x x1 rs H; simpl in *.
    - rewrite ret_run in H. injection H as <- <-. by rewrite bind_assoc.
    - apply bind_inv in H as (r & x' & Ho & H). apply bind_inv in H as (rs' & x'' & Hr & H).
      rewrite ret_run in H. injection H as <- <-.
      rewrite (bind_Ret _ _ _ _ _ Ho). unfold mbind, cmd_bind at 1. rewrite (IH _ _ _ Hr).
      unfold mbind, cmd_bind. by destruct (cache_flush x'') as [[[] ?]|]. }
  exists (ops_results os (contents c) ++ [[]]), c2.
  rewrite (E _ _ _ _ E1), (bind_Ret _ _ _ _ _ E2). split_and!; try done.
  - intros t. by rewrite D2, C1.
  - intros t. rewrite C2, <- D2. rewrite contents_miss; [done|].
    intros i b [Hi _]. simpl in Hi. lia.
Qed.

Lemma cache_flush_durable_witness :
  ∃ rs c', run_ops [Wr 5 zero_sector; Wr 3 zero_sector; Flush] (boot_cache ex_dev) = Ret (rs, c')
    ∧ dev_read (fs_device c') 3 = zero_sector.
Proof.
  destruct (cache_flush_durable [Wr 5 zero_sector; Wr 3 zero_sector] (boot_cache ex_dev)
    (boot_cache_ok _ ex_dev_ok)) as (rs & c' & E & _ & D & _).
  { repeat (apply Forall_cons; split); [simpl; split; [lia|done]..|apply Forall_nil_2]. }
  exists rs, c'. split; [exact E|]. rewrite D. by vm_compute.
Defined.
