(* ===== verification/FsState.v ===== *)
(** * File system state and sector layout

    The state shared by free-map.c, inode.c, file.c and directory.c: the
    sector store, the free map with its lock and backing file, the open
    inodes, and the heap objects of the layer ([struct inode], [struct file],
    [struct dir]).  Memory allocation draws from [mem], the outcomes of the
    coming allocations; when it is used up every allocation succeeds.

    A sector is 512 bytes.  An index sector is read as 128 little-endian
    words, the sector of an on-disk inode as a [struct inode_disk]. *)
From S2P Require Import Prelude Bitmap Cache.
Local Open Scope Z_scope.

(** * Little-endian words *)
Definition le_word (b0 b1 b2 b3 : Z) : Z := b0 + 2 ^ 8 * b1 + 2 ^ 16 * b2 + 2 ^ 24 * b3.
Definition le_bytes (w : Z) : list Z :=
  [w mod 2 ^ 8; w / 2 ^ 8 mod 2 ^ 8; w / 2 ^ 16 mod 2 ^ 8; w / 2 ^ 24 mod 2 ^ 8].

Fixpoint words_of (bs : list Z) : list Z :=
  match bs with
  | b0 :: b1 :: b2 :: b3 :: bs' => le_word b0 b1 b2 b3 :: words_of bs'
  | _ => []
  end.
Definition bytes_of (ws : list Z) : list Z := ws ≫= le_bytes.

Definition is_u32 (w : Z) : Prop := 0 <= w < 2 ^ 32.
#[global] Instance is_u32_dec w : Decision (is_u32 w).
Proof. unfold is_u32. apply _. Defined.

Lemma le_word_bytes w : is_u32 w →
  le_word (w mod 2 ^ 8) (w / 2 ^ 8 mod 2 ^ 8) (w / 2 ^ 16 mod 2 ^ 8) (w / 2 ^ 24 mod 2 ^ 8) = w.
Proof.
  unfold is_u32, le_word. intros Hw.
  replace (w / 2 ^ 24) with (w / 2 ^ 8 / 2 ^ 8 / 2 ^ 8) by (rewrite !Z.div_div by lia; done).
  replace (w / 2 ^ 16) with (w / 2 ^ 8 / 2 ^ 8) by (rewrite !Z.div_div by lia; done).
  pose proof (Z.div_mod w (2 ^ 8) ltac:(lia)). pose proof (Z.div_mod (w / 2 ^ 8) (2 ^ 8) ltac:(lia)).
  pose proof (Z.div_mod (w / 2 ^ 8 / 2 ^ 8) (2 ^ 8) ltac:(lia)).
  rewrite (Z.mod_small (w / 2 ^ 8 / 2 ^ 8 / 2 ^ 8)); [lia|].
  split; [repeat apply Z.div_pos; lia|]. rewrite !Z.div_div by lia. apply Z.div_lt_upper_bound; lia.
Qed.

Lemma words_of_bytes_of ws : Forall is_u32 ws → words_of (bytes_of ws) = ws.
Proof.
  induction 1 as [|w ws Hw Hws IH]; [done|]. simpl. rewrite le_word_bytes by done. by f_equal.
Qed.

Lemma bytes_of_length ws : length (bytes_of ws) = (4 * length ws)%nat.
Proof. induction ws as [|w ws IH]; [done|]. simpl. fold (bytes_of ws). rewrite IH. lia. Qed.

Lemma bytes_of_app ws vs : bytes_of (ws ++ vs) = bytes_of ws ++ bytes_of vs.
Proof. apply bind_app. Qed.

Lemma words_of_length bs n : length bs = (4 * n)%nat → length (words_of bs) = n.
Proof.
  revert bs. induction n as [|n IH]; intros bs H.
  { by rewrite Nat.mul_0_r in H; apply length_zero_iff_nil in H as ->. }
  destruct bs as [|b0 [|b1 [|b2 [|b3 bs]]]]; simpl in H; try lia.
  simpl. f_equal. apply IH. lia.
Qed.

(** * On-disk inodes *)
Definition INODE_MAGIC : Z := 0x494e4f44.
Definition MAX_INODE_SIZE : Z := 0x800000.

Record inode_disk : Set := mk_disk {
  direct : list Z;
  indirect : Z;
  doubly_indirect : Z;
  dlength : Z;
  magic : Z;
  unused : list Z
}.

Definition inode_words (d : inode_disk) : list Z :=
  direct d ++ [indirect d; doubly_indirect d; u32 (dlength d); magic d] ++ unused d.

(** A sector buffer cast to a [struct inode_disk], and back. *)
Definition decode_inode (buff : list Z) : inode_disk :=
  let ws := words_of buff in
  mk_disk (take 12 ws) (nth 12 ws 0) (nth 13 ws 0) (s32 (nth 14 ws 0)) (nth 15 ws 0) (drop 16 ws).
Definition encode_inode (d : inode_disk) : list Z := bytes_of (inode_words d).

(** [calloc (1, sizeof (struct inode_disk))]. *)
Definition zero_inode : inode_disk := mk_disk (replicate 12 0) 0 0 0 0 (replicate 112 0).

Record inode_disk_wf (d : inode_disk) : Prop := {
  dw_direct : length (direct d) = 12%nat ∧ Forall is_u32 (direct d);
  dw_indirect : is_u32 (indirect d);
  dw_doubly : is_u32 (doubly_indirect d);
  dw_length : - 2 ^ 31 <= dlength d < 2 ^ 31;
  dw_magic : is_u32 (magic d);
  dw_unused : length (unused d) = 112%nat ∧ Forall is_u32 (unused d)
}.

Lemma u32_s32 z : - 2 ^ 31 <= z < 2 ^ 31 → s32 (u32 z) = z.
Proof.
  intros Hz. unfold s32, u32. rewrite Zplus_mod_idemp_l. rewrite Z.mod_small; lia.
Qed.

Lemma decode_encode_inode d : inode_disk_wf d → decode_inode (encode_inode d) = d.
Proof.
  intros [[Hd1 Hd2] Hi Hdi Hl Hm [Hu1 Hu2]]. unfold decode_inode, encode_inode.
  rewrite words_of_bytes_of.
  - unfold inode_words. rewrite take_app_length' by done.
    rewrite !(app_nth2 (direct d)) by lia. rewrite Hd1. simpl nth. rewrite u32_s32 by done.
    rewrite drop_app_ge by lia. rewrite Hd1. simpl drop. by destruct d.
  - unfold inode_words. repeat (apply Forall_app_2 || apply Forall_cons_2 || apply Forall_nil_2); try done.
    apply u32_range.
Qed.

Lemma encode_inode_length d : inode_disk_wf d → length (encode_inode d) = Z.to_nat BLOCK_SECTOR_SIZE.
Proof.
  intros [[Hd1 _] _ _ _ _ [Hu1 _]]. unfold encode_inode.
  rewrite bytes_of_length. unfold inode_words. rewrite !length_app, Hd1, Hu1. done.
Qed.

Lemma zero_inode_wf : inode_disk_wf zero_inode.
Proof. split; try done; try (split; [done|apply Forall_replicate; done]). Qed.

(** * In-memory objects *)
Definition addr := positive.

Record inode : Set := mk_inode {
  i_sector : Z;
  open_cnt : Z;
  removed : bool;
  deny_write_cnt : Z
}.

Record file : Set := mk_file { f_inode : option addr; pos : Z; deny_write : bool }.
Record dir : Set := mk_dir { d_inode : option addr; d_pos : Z }.

Record fs (St : Type) : Type := mk_fs {
  store : St;
  free_map : bitmap;
  free_map_lock : bool;
  free_map_file : option addr;
  inodes : gmap addr inode;
  open_inodes : list addr;
  files : gmap addr file;
  dirs : gmap addr dir;
  brk : addr;
  mem : list bool
}.
Arguments mk_fs {St}.
Arguments store {St}.
Arguments free_map {St}.
Arguments free_map_lock {St}.
Arguments free_map_file {St}.
Arguments inodes {St}.
Arguments open_inodes {St}.
Arguments files {St}.
Arguments dirs {St}.
Arguments brk {St}.
Arguments mem {St}.

Section state.
Context {St : Type}.
Implicit Types x : fs St.

Definition set_store (v : St) x := mk_fs v (free_map x) (free_map_lock x) (free_map_file x) (inodes x) (open_inodes x) (files x) (dirs x) (brk x) (mem x).
Definition set_free_map (v : bitmap) x := mk_fs (store x) v (free_map_lock x) (free_map_file x) (inodes x) (open_inodes x) (files x) (dirs x) (brk x) (mem x).
Definition set_fm_lock (v : bool) x := mk_fs (store x) (free_map x) v (free_map_file x) (inodes x) (open_inodes x) (files x) (dirs x) (brk x) (mem x).
Definition set_fm_file (v : option addr) x := mk_fs (store x) (free_map x) (free_map_lock x) v (inodes x) (open_inodes x) (files x) (dirs x) (brk x) (mem x).
Definition set_inodes (v : gmap addr inode) x := mk_fs (store x) (free_map x) (free_map_lock x) (free_map_file x) v (open_inodes x) (files x) (dirs x) (brk x) (mem x).
Definition set_open_inodes (v : list addr) x := mk_fs (store x) (free_map x) (free_map_lock x) (free_map_file x) (inodes x) v (files x) (dirs x) (brk x) (mem x).
Definition set_files (v : gmap addr file) x := mk_fs (store x) (free_map x) (free_map_lock x) (free_map_file x) (inodes x) (open_inodes x) v (dirs x) (brk x) (mem x).
Definition set_dirs (v : gmap addr dir) x := mk_fs (store x) (free_map x) (free_map_lock x) (free_map_file x) (inodes x) (open_inodes x) (files x) v (brk x) (mem x).
Definition set_mem (v : list bool) x := mk_fs (store x) (free_map x) (free_map_lock x) (free_map_file x) (inodes x) (open_inodes x) (files x) (dirs x) (brk x) v.
Definition set_brk (v : addr) x := mk_fs (store x) (free_map x) (free_map_lock x) (free_map_file x) (inodes x) (open_inodes x) (files x) (dirs x) v (mem x).

(** One allocation: [None] when it fails, else a fresh address. *)
Definition malloc : cmd (fs St) (option addr) := λ x,
  match mem x with
  | false :: m => Ret (None, set_mem m x)
  | _ => Ret (Some (brk x), set_brk (Pos.succ (brk x)) (set_mem (tail (mem x)) x))
  end.

(** [*p] for a pointer to an inode, a file or a directory. *)
Definition deref {A} (h : fs St → gmap addr A) (p : option addr) : cmd (fs St) A := λ x,
  match p ≫= λ a, h x !! a with Some v => Ret (v, x) | None => Err BadPtr end.
Definition put_inode (p : option addr) (v : inode) : cmd (fs St) unit := λ x,
  match p with Some a => Ret (tt, set_inodes (<[a := v]> (inodes x)) x) | None => Err BadPtr end.
Definition put_file (p : option addr) (v : file) : cmd (fs St) unit := λ x,
  match p with Some a => Ret (tt, set_files (<[a := v]> (files x)) x) | None => Err BadPtr end.
Definition put_dir (p : option addr) (v : dir) : cmd (fs St) unit := λ x,
  match p with Some a => Ret (tt, set_dirs (<[a := v]> (dirs x)) x) | None => Err BadPtr end.

Definition isnull (p : option addr) : bool := match p with None => true | Some _ => false end.

(** [arr[i]] and [arr[i] = v] on a C array. *)
Definition at_index (arr : list Z) (i : Z) : cmd (fs St) Z :=
  lift_res (if i <? 0 then Err OutOfBounds else
            match arr !! Z.to_nat i with Some v => Ret v | None => Err OutOfBounds end).
Definition set_index (arr : list Z) (i v : Z) : cmd (fs St) (list Z) :=
  lift_res (if (i <? 0) || (Z.of_nat (length arr) <=? i) then Err OutOfBounds
            else Ret (<[Z.to_nat i := v]> arr)).

Context `{SectorOps St}.

(** [cache_read] and [cache_write] on the store of the file system. *)
Definition sread (s : Z) : cmd (fs St) (list Z) := λ x,
  match st_read s (store x) with Ret (d, y) => Ret (d, set_store y x) | Err e => Err e end.
Definition swrite (s : Z) (d : list Z) : cmd (fs St) unit := λ x,
  match st_write s d (store x) with Ret (_, y) => Ret (tt, set_store y x) | Err e => Err e end.
End state.
