(* ===== verification/Inode.v ===== *)
(** * Inodes, the free map and files
      (filesys/inode.c, filesys/free-map.c, filesys/file.c)

    The three files call each other: growing a file allocates sectors, which
    rewrites the free map's own file, which is a write to an inode.  The
    routines below therefore take the routine they call back into,
    [inode_write_at], as the parameter [write_at]; [inode_write_at] closes the
    loop with a bound [WRITE_DEPTH] on the nesting.  A write to a file nests at
    most one write of its own data (when it is copied to new sectors) and each
    sector allocation nests one write of the free map's file, which never
    allocates, so depth three is enough; [NoFuel] marks a deeper nesting. *)
From S2P Require Import Prelude Bitmap Cache FsState.
Local Open Scope Z_scope.

Definition FREE_MAP_SECTOR : Z := 0.
Definition ROOT_DIR_SECTOR : Z := 1.

Definition bytes_to_sectors (size : Z) : Z := u32 (Z.quot (s32 (size + BLOCK_SECTOR_SIZE - 1)) BLOCK_SECTOR_SIZE).

Section fs.
Context {St : Type} `{SectorOps St}.
#[local] Abbreviation cmd := (cmd (fs St)).

(** * Reading *)
Definition inode_length (inode : option addr) : cmd Z :=
  ino ← deref inodes inode;
  buff ← sread (i_sector ino);
  mret (dlength (decode_inode buff)).

Definition byte_to_sector (inode : option addr) (pos : Z) : cmd Z :=
  ASSERT (negb (isnull inode));;
  ino ← deref inodes inode;
  buff ← sread (i_sector ino);
  let data := decode_inode buff in
  if pos <=? dlength data then
    sector ←
      (if (0 <=? pos) && (pos <? 12 * BLOCK_SECTOR_SIZE)
       then at_index (direct data) (Z.quot pos BLOCK_SECTOR_SIZE) else mret 0);
    '(sector, pos) ←
      (if (12 * BLOCK_SECTOR_SIZE <=? pos) && (pos <? (12 + 128) * BLOCK_SECTOR_SIZE) then
         buffer ← sread (indirect data);
         let pos := pos - 12 * BLOCK_SECTOR_SIZE in
         sector ← at_index (words_of buffer) (Z.quot pos BLOCK_SECTOR_SIZE);
         mret (sector, pos)
       else mret (sector, pos));
    (if ((12 + 128) * BLOCK_SECTOR_SIZE <=? pos) && (pos <? MAX_INODE_SIZE) then
       let pos := pos - (12 + 128) * BLOCK_SECTOR_SIZE in
       buffer ← sread (doubly_indirect data);
       sector ← at_index (words_of buffer) (Z.quot pos (128 * BLOCK_SECTOR_SIZE));
       buffer ← sread sector;
       let pos := Z.quot pos BLOCK_SECTOR_SIZE in
       at_index (words_of buffer) (Z.rem (Z.rem pos (128 * BLOCK_SECTOR_SIZE)) 128)
     else mret sector)
  else mret 1.

(** The loop of [inode_read_at]; [bounce] says whether the bounce buffer is
    allocated and [acc] is what the caller's buffer holds so far. *)
Fixpoint read_loop (fuel : nat) (inode : option addr) (size offset : Z) (bounce : bool)
    (acc : list Z) : cmd (list Z) :=
  match fuel with
  | O => throw NoFuel
  | S fuel' =>
    if size <=? 0 then mret acc else
    sector_idx ← byte_to_sector inode offset;
    let sector_ofs := Z.rem offset BLOCK_SECTOR_SIZE in
    len ← inode_length inode;
    let inode_left := len - offset in
    let sector_left := BLOCK_SECTOR_SIZE - sector_ofs in
    let min_left := if inode_left <? sector_left then inode_left else sector_left in
    let chunk_size := if size <? min_left then size else min_left in
    if chunk_size <=? 0 then mret acc else
    if (sector_ofs =? 0) && (chunk_size =? BLOCK_SECTOR_SIZE) then
      d ← sread sector_idx;
      read_loop fuel' inode (size - chunk_size) (offset + chunk_size) bounce (acc ++ d)
    else
      ok ← (if bounce then mret true else p ← malloc; mret (negb (isnull p)));
      if negb ok then mret acc else
      d ← sread sector_idx;
      let piece := take (Z.to_nat chunk_size) (drop (Z.to_nat sector_ofs) d) in
      read_loop fuel' inode (size - chunk_size) (offset + chunk_size) true (acc ++ piece)
  end.

(** The bytes read; the return value is their number. *)
Definition inode_read_at (inode : option addr) (size offset : Z) : cmd (list Z) :=
  ino ← deref inodes inode;
  buff ← sread (i_sector ino);
  let data := decode_inode buff in
  if dlength data <=? offset then mret [] else
  let size := if dlength data <? size then dlength data else size in
  read_loop (S (Z.to_nat size)) inode size offset false [].

(** * Open inodes *)
Definition inode_init : cmd unit := modify (set_open_inodes []).

Definition inode_reopen (inode : option addr) : cmd (option addr) :=
  (if isnull inode then mret tt else
     ino ← deref inodes inode;
     put_inode inode (mk_inode (i_sector ino) (open_cnt ino + 1) (removed ino) (deny_write_cnt ino)));;
  mret inode.

Fixpoint open_search (l : list addr) (sector : Z) : cmd (option addr) :=
  match l with
  | [] => mret None
  | a :: l' => ino ← deref inodes (Some a);
               if i_sector ino =? sector then mret (Some a) else open_search l' sector
  end.

Definition inode_open (sector : Z) : cmd (option addr) :=
  l ← gets open_inodes;
  found ← open_search l sector;
  match found with
  | Some a => inode_reopen (Some a)
  | None =>
    p ← malloc;
    match p with
    | None => mret None
    | Some a =>
      modify (λ x, set_open_inodes (a :: open_inodes x) x);;
      put_inode (Some a) (mk_inode sector 1 false 0);;
      mret (Some a)
    end
  end.

Definition inode_get_inumber (inode : option addr) : cmd Z :=
  ino ← deref inodes inode; mret (i_sector ino).

Definition inode_remove (inode : option addr) : cmd unit :=
  ASSERT (negb (isnull inode));;
  ino ← deref inodes inode;
  put_inode inode (mk_inode (i_sector ino) (open_cnt ino) true (deny_write_cnt ino)).

Definition inode_deny_write (inode : option addr) : cmd unit :=
  ino ← deref inodes inode;
  put_inode inode (mk_inode (i_sector ino) (open_cnt ino) (removed ino) (deny_write_cnt ino + 1));;
  ASSERT (deny_write_cnt ino + 1 <=? open_cnt ino).

Definition inode_allow_write (inode : option addr) : cmd unit :=
  ino ← deref inodes inode;
  ASSERT (0 <? deny_write_cnt ino);;
  ASSERT (deny_write_cnt ino <=? open_cnt ino);;
  put_inode inode (mk_inode (i_sector ino) (open_cnt ino) (removed ino) (deny_write_cnt ino - 1)).

(** * Routines that call back into [inode_write_at] *)
Section callback.
Context (write_at : option addr → list Z → Z → Z → cmd Z).

Definition file_write_at (file : option addr) (buffer : list Z) (size file_ofs : Z) : cmd Z :=
  f ← deref files file; write_at (f_inode f) buffer size file_ofs.

Definition bitmap_write (b : bitmap) (file : option addr) : cmd bool :=
  let size := s32 (byte_cnt (bit_cnt b)) in
  n ← file_write_at file (take (Z.to_nat size) (bytes_of (bits b))) size 0;
  mret (n =? size).

Definition fm_acquire : cmd unit :=
  held ← gets free_map_lock; held' ← lift_res (lock_acquire_seq held); modify (set_fm_lock held').
Definition fm_release : cmd unit :=
  held ← gets free_map_lock; held' ← lift_res (lock_release_seq held); modify (set_fm_lock held').

(** [Some s]: returns true with [*sectorp = s]; [None]: returns false and
    leaves [*sectorp] as it was. *)
Definition free_map_allocate (cnt : Z) : cmd (option Z) :=
  fm_acquire;;
  b ← gets free_map;
  '(sector, b') ← lift_res (bitmap_scan_and_flip b 0 cnt false);
  modify (set_free_map b');;
  f ← gets free_map_file;
  sector ←
    (if (sector =? BITMAP_ERROR) || isnull f then mret sector else
       b ← gets free_map;
       ok ← bitmap_write b f;
       if (ok : bool) then mret sector else
         b ← gets free_map;
         b' ← lift_res (bitmap_set_multiple b sector cnt false);
         modify (set_free_map b');;
         mret BITMAP_ERROR);
  fm_release;;
  mret (if sector =? BITMAP_ERROR then None else Some sector).

Definition free_map_release (sector cnt : Z) : cmd unit :=
  fm_acquire;;
  b ← gets free_map;
  all ← lift_res (bitmap_all b sector cnt);
  ASSERT all;;
  b' ← lift_res (bitmap_set_multiple b sector cnt false);
  modify (set_free_map b');;
  f ← gets free_map_file;
  ok ← bitmap_write b' f;
  fm_release.

Fixpoint release_loop (n : nat) (i : Z) (sectorp : list Z) : cmd unit :=
  match n with
  | O => mret tt
  | S n' => s ← at_index sectorp i; free_map_release s 1;; release_loop n' (i + 1) sectorp
  end.
Definition free_map_release_array (sectorp : list Z) (cnt : Z) : cmd unit :=
  release_loop (Z.to_nat cnt) 0 sectorp.

(** The result and the array as the call leaves it. *)
Fixpoint allocate_loop (n : nat) (i upto : Z) (sectorp : list Z) : cmd (bool * list Z) :=
  match n with
  | O => mret (true, sectorp)
  | S n' =>
    if upto <=? i then
      sectorp' ← set_index sectorp i 0; allocate_loop n' (i + 1) upto sectorp'
    else
      r ← free_map_allocate 1;
      match r with
      | Some s => sectorp' ← set_index sectorp i s; allocate_loop n' (i + 1) upto sectorp'
      | None => free_map_release_array sectorp i;; mret (false, sectorp)
      end
  end.
Definition free_map_allocate_array (cnt upto : Z) (sectorp : list Z) : cmd (bool * list Z) :=
  allocate_loop (Z.to_nat cnt) 0 upto sectorp.

Fixpoint zero_loop (n : nat) (i : Z) (sectors : list Z) : cmd unit :=
  match n with
  | O => mret tt
  | S n' => s ← at_index sectors i; swrite s zero_sector;; zero_loop n' (i + 1) sectors
  end.
Definition zero_out (size : Z) (sectors : list Z) : cmd unit := zero_loop (Z.to_nat size) 0 sectors.

Definition with_direct (a : list Z) (d : inode_disk) : inode_disk :=
  mk_disk a (indirect d) (doubly_indirect d) (dlength d) (magic d) (unused d).
Definition with_indirect (s : Z) (d : inode_disk) : inode_disk :=
  mk_disk (direct d) s (doubly_indirect d) (dlength d) (magic d) (unused d).
Definition with_doubly (s : Z) (d : inode_disk) : inode_disk :=
  mk_disk (direct d) (indirect d) s (dlength d) (magic d) (unused d).
Definition with_length (l : Z) (d : inode_disk) : inode_disk :=
  mk_disk (direct d) (indirect d) (doubly_indirect d) l (magic d) (unused d).

Definition allocate_direct_blocks (sectors : Z) (disk_inode : inode_disk) : cmd (Z * inode_disk) :=
  if sectors <? 12 then
    '(ok, a) ← free_map_allocate_array 12 sectors (direct disk_inode);
    let disk_inode := with_direct a disk_inode in
    if (ok : bool) then zero_out sectors a;; mret (sectors, disk_inode) else mret (0, disk_inode)
  else
    '(ok, a) ← free_map_allocate_array 12 12 (direct disk_inode);
    let disk_inode := with_direct a disk_inode in
    if (ok : bool) then zero_out 12 a;; mret (12, disk_inode) else mret (0, disk_inode).

Definition allocate_indirect_blocks (sectors : Z) (disk_inode : inode_disk) : cmd (Z * inode_disk) :=
  let buffer := replicate 128 0 in
  r ← free_map_allocate 1;
  match r with
  | None => mret (0, disk_inode)
  | Some s =>
    let disk_inode := with_indirect s disk_inode in
    '(allocated, buffer) ←
      (if sectors <? 128 then
         '(ok, a) ← free_map_allocate_array 128 sectors buffer;
         if (ok : bool) then zero_out sectors a;; mret (sectors, a) else mret (0, a)
       else
         '(ok, a) ← free_map_allocate_array 128 128 buffer;
         if (ok : bool) then zero_out 128 a;; mret (128, a) else mret (0, a));
    swrite s (bytes_of buffer);;
    mret (allocated, disk_inode)
  end.

(** [None]: one of the [return 0] statements inside the loop. *)
Fixpoint doubly_loop (fuel : nat) (sectors left i allocated : Z) (buffer : list Z) :
    cmd (option (Z * list Z)) :=
  match fuel with
  | O => throw NoFuel
  | S fuel' =>
    if left <=? 0 then mret (Some (allocated, buffer)) else
    let doubly_buffer := replicate 128 0 in
    r ← (if left <? 128 then
           '(ok, a) ← free_map_allocate_array 128 left doubly_buffer;
           if (ok : bool) then zero_out sectors a;; mret (Some (a, left)) else mret None
         else
           '(ok, a) ← free_map_allocate_array 128 128 doubly_buffer;
           if (ok : bool) then zero_out 128 a;; mret (Some (a, 128)) else mret None);
    match r with
    | None => mret None
    | Some (doubly_buffer, n) =>
      s ← free_map_allocate 1;
      match s with
      | None => mret None
      | Some s =>
        buffer ← set_index buffer i s;
        swrite s (bytes_of doubly_buffer);;
        doubly_loop fuel' sectors (left - n) (i + 1) (allocated + n) buffer
      end
    end
  end.

Definition allocate_doubly_indirect_blocks (sectors : Z) (disk_inode : inode_disk)
    : cmd (Z * inode_disk) :=
  ASSERT (sectors <? 128 * 127);;
  r ← free_map_allocate 1;
  match r with
  | None => mret (0, disk_inode)
  | Some s =>
    let disk_inode := with_doubly s disk_inode in
    r ← doubly_loop (S (Z.to_nat sectors)) sectors sectors 0 0 (replicate 128 0);
    match r with
    | None => mret (0, disk_inode)
    | Some (allocated, buffer) => swrite s (bytes_of buffer);; mret (allocated, disk_inode)
    end
  end.

Definition allocate_blocks (sectors : Z) (disk_inode : inode_disk) : cmd (bool * inode_disk) :=
  if 128 * 128 <? sectors then mret (false, disk_inode) else
  let remaining := if 0 <? sectors then sectors else 1 in
  '(allocated, disk_inode) ← allocate_direct_blocks remaining disk_inode;
  let success := 0 <? allocated in
  let remaining := if success then remaining - allocated else remaining in
  let so_far := if success then allocated else 0 in
  '(success, remaining, so_far, disk_inode) ←
    (if success && (so_far =? 12) && (0 <? remaining) then
       '(allocated, disk_inode) ← allocate_indirect_blocks remaining disk_inode;
       if 0 <? allocated then mret (true, remaining - allocated, so_far + allocated, disk_inode)
       else mret (false, remaining, so_far, disk_inode)
     else mret (success, remaining, so_far, disk_inode));
  (if success && (so_far =? 128 + 12) && (0 <? remaining) then
     '(allocated, disk_inode) ← allocate_doubly_indirect_blocks remaining disk_inode;
     mret (0 <? allocated, disk_inode)
   else mret (success, disk_inode)).

Definition inode_create (sector length : Z) : cmd bool :=
  ASSERT (0 <=? length);;
  p ← malloc;
  if isnull p then mret false else
  let sectors := bytes_to_sectors length in
  let disk_inode := mk_disk (direct zero_inode) 0 0 length INODE_MAGIC (unused zero_inode) in
  '(ok, disk_inode) ← allocate_blocks sectors disk_inode;
  if (ok : bool) then swrite sector (encode_inode disk_inode);; mret true else mret false.

Definition free_direct (inode : option addr) (sectors : Z) : cmd unit :=
  ino ← deref inodes inode;
  buff ← sread (i_sector ino);
  let data := decode_inode buff in
  free_map_release_array (direct data) sectors.

Definition free_indirect (inode : option addr) (sectors : Z) : cmd unit :=
  ino ← deref inodes inode;
  buff ← sread (i_sector ino);
  let data := decode_inode buff in
  buffer ← sread (indirect data);
  free_map_release_array (words_of buffer) sectors.

Fixpoint free_doubly_loop (fuel : nat) (free_left i : Z) (buffer : list Z) : cmd unit :=
  match fuel with
  | O => throw NoFuel
  | S fuel' =>
    if free_left <=? 0 then mret tt else
    s ← at_index buffer i;
    doubly_buffer ← sread s;
    let n := if free_left <? 128 then free_left else 128 in
    free_map_release_array (words_of doubly_buffer) n;;
    free_doubly_loop fuel' (free_left - n) (i + 1) buffer
  end.

Definition free_doubly_indirect (inode : option addr) (sectors : Z) : cmd unit :=
  ino ← deref inodes inode;
  buff ← sread (i_sector ino);
  let data := decode_inode buff in
  buffer ← sread (doubly_indirect data);
  free_doubly_loop (S (Z.to_nat sectors)) sectors 0 (words_of buffer).

Definition free_all_sectors (inode : option addr) (sectors : Z) : cmd unit :=
  ASSERT (sectors <=? 128 * 128);;
  (if sectors <=? 12 then free_direct inode sectors else mret tt);;
  (if (12 <? sectors) && (sectors <=? 12 + 128) then
     free_direct inode 12;; free_indirect inode (sectors - 12)
   else mret tt);;
  (if 12 + 128 <? sectors then
     free_direct inode 12;; free_indirect inode (sectors - 12);;
     free_doubly_indirect inode (sectors - (12 + 128))
   else mret tt).

Definition inode_close (inode : option addr) : cmd unit :=
  match inode with
  | None => mret tt
  | Some a =>
    ino ← deref inodes inode;
    let ino := mk_inode (i_sector ino) (open_cnt ino - 1) (removed ino) (deny_write_cnt ino) in
    put_inode inode ino;;
    if open_cnt ino =? 0 then
      l ← gets open_inodes;
      (if decide (a ∈ l) then modify (set_open_inodes (filter (λ b, b ≠ a) l)) else throw BadPtr);;
      (if removed ino then
         buff ← sread (i_sector ino);
         free_map_release (i_sector ino) 1;;
         free_all_sectors inode (bytes_to_sectors (dlength (decode_inode buff)))
       else mret tt);;
      modify (λ x, set_inodes (delete a (inodes x)) x)
    else mret tt
  end.

(** The new sectors and length are stored in the routine's own copy of the
    on-disk inode, [data]. *)
Definition resize_inode (inode : option addr) (resize : Z) (copy_back : bool) : cmd bool :=
  let sectors := bytes_to_sectors resize in
  ino ← deref inodes inode;
  buff ← sread (i_sector ino);
  let data := decode_inode buff in
  if negb copy_back then
    '(success, data) ← allocate_blocks sectors data;
    let data := with_length resize data in
    mret success
  else
    let old_size := dlength data in
    p ← malloc;
    (if isnull p then throw BadPtr else mret tt);;
    old_buffer ← inode_read_at inode old_size 0;
    if Z.of_nat (length old_buffer) =? old_size then
      free_all_sectors inode (bytes_to_sectors old_size);;
      '(success, data) ← allocate_blocks sectors data;
      if (success : bool) then
        let data := with_length resize data in
        written ← write_at inode old_buffer old_size 0;
        mret (written =? old_size)
      else mret false
    else mret false.

(** The loop of [inode_write_at] and the number of bytes it wrote. *)
Fixpoint write_loop (fuel : nat) (inode : option addr) (buffer : list Z) (size offset bytes_written : Z)
    (bounce : bool) : cmd Z :=
  match fuel with
  | O => throw NoFuel
  | S fuel' =>
    if size <=? 0 then mret bytes_written else
    sector_idx ← byte_to_sector inode offset;
    let sector_ofs := Z.rem offset BLOCK_SECTOR_SIZE in
    let sector_left := BLOCK_SECTOR_SIZE - sector_ofs in
    let chunk_size := if Z.rem size BLOCK_SECTOR_SIZE =? 0 then BLOCK_SECTOR_SIZE else size in
    let chunk_size := if sector_left <? chunk_size then sector_left else chunk_size in
    ok ← (if bounce then mret true else p ← malloc; mret (negb (isnull p)));
    if negb ok then mret bytes_written else
    b ← (if (0 <? sector_ofs) || (chunk_size <? sector_left) then sread sector_idx else mret zero_sector);
    let piece := take (Z.to_nat chunk_size) (drop (Z.to_nat bytes_written) buffer) in
    let b := take (Z.to_nat sector_ofs) b ++ piece ++ drop (Z.to_nat (sector_ofs + chunk_size)) b in
    swrite sector_idx b;;
    write_loop fuel' inode buffer (size - chunk_size) (offset + chunk_size)
      (bytes_written + chunk_size) true
  end.

(** The change of [data->length] at the end is to the routine's own copy. *)
Definition inode_write_body (inode : option addr) (buffer : list Z) (size offset : Z) : cmd Z :=
  ino ← deref inodes inode;
  buff ← sread (i_sector ino);
  let data := decode_inode buff in
  if negb (deny_write_cnt ino =? 0) then mret 0 else
  let do_not_change_length := s32 (offset + size) <=? dlength data in
  let sectors_of n := s32 (if bytes_to_sectors n =? 0 then 1 else bytes_to_sectors n) in
  let a := sectors_of (s32 (offset + size)) in
  let b := sectors_of (dlength data) in
  resize_written ←
    (if b <? a then resize_inode inode (s32 (offset + size)) (0 <? dlength data) else mret false);
  bytes_written ← write_loop (S (Z.to_nat size)) inode buffer size offset 0 false;
  let data := if negb resize_written && negb do_not_change_length
              then with_length (s32 (dlength data + bytes_written)) data else data in
  mret bytes_written.
End callback.

(** * Closing the loop *)
Fixpoint write_at_depth (depth : nat) (inode : option addr) (buffer : list Z) (size offset : Z) : cmd Z :=
  match depth with
  | O => throw NoFuel
  | S d => inode_write_body (write_at_depth d) inode buffer size offset
  end.

Definition WRITE_DEPTH : nat := 3.
Definition inode_write_at : option addr → list Z → Z → Z → cmd Z := write_at_depth WRITE_DEPTH.

(** * Files (file.c) *)
Definition file_open (inode : option addr) : cmd (option addr) :=
  p ← malloc;
  match inode, p with
  | Some _, Some _ => put_file p (mk_file inode 0 false);; mret p
  | _, _ => inode_close inode_write_at inode;; mret None
  end.

Definition file_reopen (file : option addr) : cmd (option addr) :=
  f ← deref files file; i ← inode_reopen (f_inode f); file_open i.

Definition file_deny_write (file : option addr) : cmd unit :=
  ASSERT (negb (isnull file));;
  f ← deref files file;
  if negb (deny_write f) then
    put_file file (mk_file (f_inode f) (pos f) true);; inode_deny_write (f_inode f)
  else mret tt.

Definition file_allow_write (file : option addr) : cmd unit :=
  ASSERT (negb (isnull file));;
  f ← deref files file;
  if deny_write f then
    put_file file (mk_file (f_inode f) (pos f) false);; inode_allow_write (f_inode f)
  else mret tt.

Definition file_close (file : option addr) : cmd unit :=
  match file with
  | None => mret tt
  | Some a =>
    file_allow_write file;;
    f ← deref files file;
    inode_close inode_write_at (f_inode f);;
    modify (λ x, set_files (delete a (files x)) x)
  end.

Definition file_get_inode (file : option addr) : cmd (option addr) :=
  f ← deref files file; mret (f_inode f).

Definition file_read (file : option addr) (size : Z) : cmd (list Z) :=
  f ← deref files file;
  d ← inode_read_at (f_inode f) size (pos f);
  f ← deref files file;
  put_file file (mk_file (f_inode f) (pos f + Z.of_nat (length d)) (deny_write f));;
  mret d.

Definition file_read_at (file : option addr) (size file_ofs : Z) : cmd (list Z) :=
  f ← deref files file; inode_read_at (f_inode f) size file_ofs.

Definition file_write (file : option addr) (buffer : list Z) (size : Z) : cmd Z :=
  f ← deref files file;
  n ← inode_write_at (f_inode f) buffer size (pos f);
  f ← deref files file;
  put_file file (mk_file (f_inode f) (pos f + n) (deny_write f));;
  mret n.

Definition file_length (file : option addr) : cmd Z :=
  ASSERT (negb (isnull file));;
  f ← deref files file; inode_length (f_inode f).

Definition file_seek (file : option addr) (new_pos : Z) : cmd unit :=
  ASSERT (negb (isnull file));;
  ASSERT (0 <=? new_pos);;
  f ← deref files file;
  put_file file (mk_file (f_inode f) new_pos (deny_write f)).

Definition file_tell (file : option addr) : cmd Z :=
  ASSERT (negb (isnull file));;
  f ← deref files file; mret (pos f).

(** * Opening and closing the free map (free-map.c) *)
Definition bitmap_read (b : bitmap) (file : option addr) : cmd (bool * bitmap) :=
  if 0 <? bit_cnt b then
    let size := s32 (byte_cnt (bit_cnt b)) in
    d ← file_read_at file size 0;
    let old := bytes_of (bits b) in
    let ws := words_of (d ++ drop (length d) old) in
    let last := elem_cnt (bit_cnt b) - 1 in
    w ← at_index ws last;
    ws ← set_index ws last (Z.land w (last_mask b));
    mret (Z.of_nat (length d) =? size, mk_bitmap (bit_cnt b) ws)
  else mret (true, b).

(** [ws]: the storage that [bitmap_create] obtains, when it obtains any. *)
Definition free_map_init (device_size : Z) (got_header : bool) (ws : option (list Z)) : cmd unit :=
  b ← lift_res (bitmap_create got_header ws device_size);
  match b with
  | None => throw KernelPanic
  | Some b =>
    b ← lift_res (bitmap_mark b FREE_MAP_SECTOR);
    b ← lift_res (bitmap_mark b ROOT_DIR_SECTOR);
    modify (set_free_map b);; modify (set_fm_lock false)
  end.

Definition free_map_open : cmd unit :=
  i ← inode_open FREE_MAP_SECTOR;
  f ← file_open i;
  modify (set_fm_file f);;
  (if isnull f then throw KernelPanic else mret tt);;
  b ← gets free_map;
  '(ok, b) ← bitmap_read b f;
  modify (set_free_map b);;
  if (ok : bool) then mret tt else throw KernelPanic.

Definition free_map_close : cmd unit :=
  f ← gets free_map_file; file_close f.

Definition free_map_create : cmd unit :=
  b ← gets free_map;
  ok ← inode_create inode_write_at FREE_MAP_SECTOR (bitmap_file_size b);
  (if (ok : bool) then mret tt else throw KernelPanic);;
  i ← inode_open FREE_MAP_SECTOR;
  f ← file_open i;
  modify (set_fm_file f);;
  (if isnull f then throw KernelPanic else mret tt);;
  b ← gets free_map;
  ok ← bitmap_write inode_write_at b f;
  if (ok : bool) then mret tt else throw KernelPanic.
End fs.
