(* ===== verification/InodeSpec.v ===== *)
(** * Reading and writing the data of an inode

    [file_ok] describes an on-disk inode whose index and data sectors are
    valid and pairwise distinct; [file_bytes] is the data it holds.  The
    theorems show that [byte_to_sector] finds the sector of each byte, that
    [inode_read_at] returns the bytes of the file in the requested range, and
    that [inode_write_at] inside the file replaces exactly the requested bytes,
    for every store that satisfies [SectorStore]. *)
From S2P Require Import Prelude Bitmap Cache FsState Inode.
Local Open Scope Z_scope.

Section spec.
Context {St : Type} `{SectorStore St}.
Implicit Types x : fs St.
#[local] Abbreviation cmd := (cmd (fs St)).

Definition sectors_of x : Z → list Z := st_contents (store x).
Definition dev_size x : Z := st_size (store x).

(** From [x] to [x'] only the store changed, to contents [m'], and memory was
    allocated. *)
Record steps_to x (m' : Z → list Z) x' : Prop := {
  st_ok : st_inv (store x');
  st_sz : dev_size x' = dev_size x;
  st_m : ∀ t, sectors_of x' t = m' t;
  st_fm : free_map x' = free_map x;
  st_fl : free_map_lock x' = free_map_lock x;
  st_ff : free_map_file x' = free_map_file x;
  st_in : inodes x' = inodes x;
  st_op : open_inodes x' = open_inodes x;
  st_fi : files x' = files x;
  st_di : dirs x' = dirs x;
  st_mem : mem x = [] → mem x' = []
}.
Definition quiet x x' : Prop := steps_to x (sectors_of x) x'.

Lemma steps_trans x x1 x2 m1 m2 : steps_to x m1 x1 → steps_to x1 m2 x2 → steps_to x m2 x2.
Proof. intros [] []. split; try congruence. auto. Qed.

Lemma steps_ext x x' m m' : steps_to x m x' → (∀ t, m t = m' t) → steps_to x m' x'.
Proof. intros [] E. split; try done. intros t. by rewrite <- E. Qed.

Lemma quiet_refl x : st_inv (store x) → quiet x x.
Proof. intros. by split. Qed.

Lemma quiet_trans x x1 x2 : quiet x x1 → quiet x1 x2 → quiet x x2.
Proof.
  intros Q1 Q2. eapply steps_trans; [exact Q1|]. eapply steps_ext; [exact Q2|]. apply Q1.
Qed.

Lemma quiet_steps x x1 x2 m : quiet x x1 → steps_to x1 m x2 → steps_to x m x2.
Proof. apply steps_trans. Qed.

Lemma quiet_inv x x' : quiet x x' → st_inv (store x').
Proof. by intros []. Qed.

Lemma quiet_sectors x x' t : quiet x x' → sectors_of x' t = sectors_of x t.
Proof. by intros []. Qed.

Lemma sectors_length x s : st_inv (store x) → length (sectors_of x s) = Z.to_nat BLOCK_SECTOR_SIZE.
Proof. apply st_contents_len. Qed.

Lemma sread_run x s :
  st_inv (store x) → 0 <= s < dev_size x →
  ∃ x', sread s x = Ret (sectors_of x s, x') ∧ quiet x x'.
Proof.
  intros Hi Hs. destruct (st_read_spec (store x) s Hi Hs) as (y & E & I & S & C).
  exists (set_store y x). unfold sread. rewrite E. split; [done|]. by split.
Qed.

Definition upd (s : Z) (d : list Z) (m : Z → list Z) : Z → list Z :=
  λ t, if decide (t = s) then d else m t.

Lemma swrite_run x s d :
  st_inv (store x) → 0 <= s < dev_size x → length d = Z.to_nat BLOCK_SECTOR_SIZE →
  ∃ x', swrite s d x = Ret (tt, x') ∧ steps_to x (upd s d (sectors_of x)) x'.
Proof.
  intros Hi Hs Hd. destruct (st_write_spec (store x) s d Hi Hs Hd) as (y & E & I & S & C).
  exists (set_store y x). unfold swrite. rewrite E. split; [done|]. by split.
Qed.

Lemma malloc_run x : st_inv (store x) → mem x = [] → ∃ a x', malloc x = Ret (Some a, x') ∧ quiet x x'.
Proof.
  intros Hi Hm. unfold malloc. rewrite Hm. do 2 eexists. split; [done|]. split; try done.
Qed.

Lemma deref_bind {A B} (h : fs St → gmap addr A) a v (k : A → cmd B) x :
  h x !! a = Some v → (deref h (Some a) ≫= k) x = k v x.
Proof. intros E. unfold deref, mbind, cmd_bind. simpl. by rewrite E. Qed.

Lemma at_index_run arr i x v :
  0 <= i → arr !! Z.to_nat i = Some v → at_index (St := St) arr i x = Ret (v, x).
Proof. intros Hi Hv. unfold at_index. rewrite (proj2 (Z.ltb_ge _ _)) by lia. by rewrite Hv. Qed.

(** * Layout of a file *)

(** Sectors a file of [len] bytes has: at least one. *)
Definition nblocks (len : Z) : Z := Z.max 1 ((len + 511) / 512).

(** The sector of logical block [k] of the inode [d]. *)
Definition block_of (m : Z → list Z) (d : inode_disk) (k : Z) : Z :=
  if k <? 12 then nth (Z.to_nat k) (direct d) 0
  else if k <? 140 then nth (Z.to_nat (k - 12)) (words_of (m (indirect d))) 0
  else let sub := nth (Z.to_nat ((k - 140) / 128)) (words_of (m (doubly_indirect d))) 0 in
       nth (Z.to_nat ((k - 140) mod 128)) (words_of (m sub)) 0.

(** The index sectors of the inode [d] with [nb] blocks. *)
Definition meta (m : Z → list Z) (d : inode_disk) (nb : Z) : list Z :=
  (if 12 <? nb then [indirect d] else []) ++
  (if 140 <? nb then
     doubly_indirect d :: take (Z.to_nat ((nb - 140 + 127) / 128)) (words_of (m (doubly_indirect d)))
   else []).

Definition data (m : Z → list Z) (d : inode_disk) (nb : Z) : list Z :=
  (λ k, block_of m d (Z.of_nat k)) <$> seq 0 (Z.to_nat nb).

Definition inode_at (m : Z → list Z) (s : Z) : inode_disk := decode_inode (m s).

(** The inode in sector [s], its index sectors and its [nb] data sectors are
    on the device and pairwise distinct. *)
Record file_ok (m : Z → list Z) (dsz s nb : Z) : Prop := {
  fo_nb : 1 <= nb <= 16384;
  fo_range : Forall (λ t, 0 <= t < dsz) (s :: meta m (inode_at m s) nb ++ data m (inode_at m s) nb);
  fo_nodup : NoDup (s :: meta m (inode_at m s) nb ++ data m (inode_at m s) nb)
}.

(** All bytes of the file's sectors. *)
Definition raw_bytes (m : Z → list Z) (s nb : Z) : list Z := data m (inode_at m s) nb ≫= m.
(** The bytes of the file. *)
Definition file_bytes (m : Z → list Z) (s : Z) : list Z :=
  let len := dlength (inode_at m s) in take (Z.to_nat len) (raw_bytes m s (nblocks len)).

Lemma data_lookup m d nb k :
  0 <= k < nb → data m d nb !! Z.to_nat k = Some (block_of m d k).
Proof.
  intros Hk. unfold data. rewrite list_lookup_fmap, lookup_seq_lt by lia. simpl. do 2 f_equal. lia.
Qed.

Lemma data_length m d nb : length (data m d nb) = Z.to_nat nb.
Proof. unfold data. by rewrite length_fmap, length_seq. Qed.

Lemma file_ok_block m dsz s nb k :
  file_ok m dsz s nb → 0 <= k < nb → 0 <= block_of m (inode_at m s) k < dsz.
Proof.
  intros [_ Hr _] Hk. apply Forall_cons in Hr as [_ Hr]. apply Forall_app in Hr as [_ Hr].
  rewrite Forall_lookup in Hr. eapply Hr. by apply data_lookup.
Qed.

Lemma file_ok_sector m dsz s nb : file_ok m dsz s nb → 0 <= s < dsz.
Proof. intros [_ Hr _]. by apply Forall_cons in Hr as [? _]. Qed.

Lemma file_ok_meta m dsz s nb t :
  file_ok m dsz s nb → t ∈ meta m (inode_at m s) nb → 0 <= t < dsz.
Proof.
  intros [_ Hr _] Ht. apply Forall_cons in Hr as [_ Hr]. apply Forall_app in Hr as [Hr _].
  rewrite Forall_forall in Hr. by apply Hr.
Qed.

Lemma index_words x s : st_inv (store x) → length (words_of (sectors_of x s)) = 128%nat.
Proof. intros Hi. apply words_of_length. by rewrite sectors_length. Qed.

Lemma index_word_run x x' s i :
  st_inv (store x) → 0 <= i < 128 →
  at_index (words_of (sectors_of x s)) i x' = Ret (nth (Z.to_nat i) (words_of (sectors_of x s)) 0, x').
Proof.
  intros Hi Hr. apply at_index_run; [lia|]. 
  destruct (lookup_lt_is_Some_2 (words_of (sectors_of x s)) (Z.to_nat i)) as [v Hv];
    [rewrite index_words by done; lia|].
  rewrite Hv. f_equal. symmetry. by apply nth_lookup_Some.
Qed.

Lemma direct_length x s : st_inv (store x) → length (direct (inode_at (sectors_of x) s)) = 12%nat.
Proof.
  intros Hi. unfold inode_at, decode_inode. simpl. rewrite length_take, index_words by done. lia.
Qed.

Lemma meta_indirect m d nb : 12 < nb → indirect d ∈ meta m d nb.
Proof. intros Hn. unfold meta. rewrite (proj2 (Z.ltb_lt 12 nb)) by lia. set_solver. Qed.

Lemma meta_doubly m d nb : 140 < nb → doubly_indirect d ∈ meta m d nb.
Proof. intros Hn. unfold meta. rewrite (proj2 (Z.ltb_lt 140 nb)) by lia. set_solver. Qed.

Lemma meta_sub m d nb j :
  140 < nb → length (words_of (m (doubly_indirect d))) = 128%nat → 0 <= j < 128 → 128 * j < nb - 140 →
  nth (Z.to_nat j) (words_of (m (doubly_indirect d))) 0 ∈ meta m d nb.
Proof.
  intros Hn Hl Hj Hjn. unfold meta. rewrite (proj2 (Z.ltb_lt 140 nb)) by lia.
  apply elem_of_app. right. apply elem_of_cons. right.
  destruct (lookup_lt_is_Some_2 (words_of (m (doubly_indirect d))) (Z.to_nat j)) as [v Hv]; [lia|].
  rewrite (nth_lookup_Some _ _ _ _ Hv). apply list_elem_of_lookup. exists (Z.to_nat j).
  apply lookup_take_Some. split; [done|].
  assert (j < (nb - 140 + 127) / 128); [|lia]. apply Z.lt_le_trans with (j + 1); [lia|].
  apply Z.div_le_lower_bound; lia.
Qed.

(** The layout of a file depends only on its inode and index sectors. *)
Lemma layout_frame m m' s nb :
  nb <= 16384 → (∀ t, length (words_of (m t)) = 128%nat) →
  (∀ t, t ∈ s :: meta m (inode_at m s) nb → m' t = m t) →
  inode_at m' s = inode_at m s ∧ meta m' (inode_at m s) nb = meta m (inode_at m s) nb
  ∧ ∀ k, 0 <= k < nb → block_of m' (inode_at m s) k = block_of m (inode_at m s) k.
Proof.
  intros Hnb Hw Hm. split_and!.
  - unfold inode_at. by rewrite Hm by set_solver.
  - unfold meta at 1 2. destruct (Z.ltb_spec 140 nb) as [C|]; [|done].
    rewrite (Hm (doubly_indirect _)); [done|]. apply elem_of_cons. right. by apply meta_doubly.
  - intros k Hk. unfold block_of. destruct (Z.ltb_spec k 12); [done|].
    destruct (Z.ltb_spec k 140).
    + rewrite Hm; [done|]. apply elem_of_cons. right. apply meta_indirect. lia.
    + rewrite (Hm (doubly_indirect _)) by (apply elem_of_cons; right; apply meta_doubly; lia).
      rewrite Hm; [done|]. apply elem_of_cons. right.
      pose proof (Z.div_mod (k - 140) 128 ltac:(lia)). pose proof (Z.mod_pos_bound (k - 140) 128 ltac:(lia)).
      apply meta_sub; [lia|done| |lia].
      split; [apply Z.div_pos; lia|apply Z.div_lt_upper_bound; lia].
Qed.

Lemma data_ext m m' d d' nb :
  (∀ k, 0 <= k < nb → block_of m' d' k = block_of m d k) → data m' d' nb = data m d nb.
Proof.
  intros Hk. unfold data. apply list_fmap_ext. intros i k Hi. apply lookup_seq in Hi as [-> Hi].
  apply Hk. lia.
Qed.

Lemma file_ok_frame m m' dsz s nb :
  file_ok m dsz s nb → (∀ t, length (words_of (m t)) = 128%nat) →
  (∀ t, t ∈ s :: meta m (inode_at m s) nb → m' t = m t) → file_ok m' dsz s nb.
Proof.
  intros [Hnb Hr Hn] Hw Hm. destruct (layout_frame m m' s nb) as (E1 & E2 & E3); [lia|done|done|].
  pose proof (data_ext m m' _ _ nb E3) as E4. split; [done|..]; rewrite E1, E2, E4; done.
Qed.

Lemma words_128 x : st_inv (store x) → ∀ t, length (words_of (sectors_of x t)) = 128%nat.
Proof. intros Hi t. by apply index_words. Qed.

(** The index sectors read to find logical block [k]. *)
Definition index_reads (m : Z → list Z) (d : inode_disk) (k : Z) : list Z :=
  if k <? 12 then []
  else if k <? 140 then [indirect d]
  else if k <? 16384 then
    [doubly_indirect d; nth (Z.to_nat ((k - 140) / 128)) (words_of (m (doubly_indirect d))) 0]
  else [].

Definition in_range (dsz : Z) (l : list Z) : Prop := Forall (λ t, 0 <= t < dsz) l.

(** The doubly indirect case: two index sectors are read. *)
Lemma doubly_run x d pos :
  st_inv (store x) → 140 * 512 <= pos < 16384 * 512 →
  in_range (dev_size x) (index_reads (sectors_of x) d (pos / 512)) →
  ∃ x', (buffer ← sread (doubly_indirect d);
         sector ← at_index (words_of buffer) (Z.quot (pos - 140 * 512) (128 * BLOCK_SECTOR_SIZE));
         buffer ← sread sector;
         at_index (words_of buffer)
           (Z.rem (Z.rem (Z.quot (pos - 140 * 512) BLOCK_SECTOR_SIZE) (128 * BLOCK_SECTOR_SIZE)) 128)) x
      = Ret (block_of (sectors_of x) d (pos / 512), x') ∧ quiet x x'.
Proof.
  intros Hi Hpos Hr. unfold BLOCK_SECTOR_SIZE. rewrite !Z.quot_div_nonneg by lia.
  set (k := pos / 512) in *.
  assert (Hk : 140 <= k < 16384).
  { unfold k. split; [apply Z.div_le_lower_bound; lia|apply Z.div_lt_upper_bound; lia]. }
  assert (E1 : (pos - 140 * 512) / 512 = k - 140)
    by (replace (pos - 140 * 512) with (pos + (- 140) * 512) by lia; rewrite Z.div_add by lia; unfold k; lia).
  assert (E2 : (pos - 140 * 512) / (128 * 512) = (k - 140) / 128)
    by (rewrite (Z.mul_comm 128 512), <- Z.div_div, E1 by lia; done).
  rewrite E1, E2. rewrite (Z.rem_small (k - 140)), Z.rem_mod_nonneg by lia.
  assert (Hj : 0 <= (k - 140) / 128 < 128)
    by (split; [apply Z.div_pos; lia|apply Z.div_lt_upper_bound; lia]).
  pose proof (Z.mod_pos_bound (k - 140) 128 ltac:(lia)) as Hm.
  unfold in_range, index_reads in Hr.
  rewrite (proj2 (Z.ltb_ge k 12)), (proj2 (Z.ltb_ge k 140)), (proj2 (Z.ltb_lt k 16384)) in Hr by lia.
  rewrite Forall_cons, Forall_singleton in Hr. destruct Hr as [Hr1 Hr2].
  destruct (sread_run x (doubly_indirect d) Hi Hr1) as (x1 & R1 & Q1).
  rewrite (bind_Ret _ _ _ _ _ R1), (bind_Ret _ _ _ _ _ (index_word_run x x1 _ _ Hi Hj)).
  rewrite <- (st_sz _ _ _ Q1) in Hr2.
  destruct (sread_run x1 _ (quiet_inv _ _ Q1) Hr2) as (x2 & R2 & Q2).
  rewrite (bind_Ret _ _ _ _ _ R2), (index_word_run x1 x2 _ _ (quiet_inv _ _ Q1) Hm).
  exists x2. split; [|by eapply quiet_trans]. do 2 f_equal. rewrite (quiet_sectors _ _ _ Q1).
  unfold block_of. rewrite (proj2 (Z.ltb_ge k 12)), (proj2 (Z.ltb_ge k 140)) by lia. done.
Qed.

(** [byte_to_sector] inside the file, up to and including its end. *)
Lemma byte_to_sector_run x a ino pos :
  st_inv (store x) → inodes x !! a = Some ino → 0 <= i_sector ino < dev_size x →
  let d := inode_at (sectors_of x) (i_sector ino) in
  0 <= pos → pos <= dlength d → in_range (dev_size x) (index_reads (sectors_of x) d (pos / 512)) →
  ∃ x', byte_to_sector (Some a) pos x =
          Ret (if pos <? MAX_INODE_SIZE then block_of (sectors_of x) d (pos / 512) else 0, x')
        ∧ quiet x x'.
Proof.
  intros Hi Ha Hs d Hpos Hlen Hr.
  unfold byte_to_sector. rewrite ASSERT_bind, (deref_bind _ _ ino) by done.
  destruct (sread_run x (i_sector ino) Hi Hs) as (x1 & R1 & Q1).
  rewrite (bind_Ret _ _ _ _ _ R1). fold (inode_at (sectors_of x) (i_sector ino)). fold d. cbv zeta.
  rewrite (proj2 (Z.leb_le pos _)) by done. unfold BLOCK_SECTOR_SIZE, MAX_INODE_SIZE.
  destruct (Z.lt_ge_cases pos (12 * 512)) as [C1|C1].
  { rewrite (proj2 (Z.leb_le 0 pos)), (proj2 (Z.ltb_lt pos (12 * 512))) by lia. cbn [andb].
    rewrite (Z.quot_div_nonneg pos 512) by lia.
    assert (Hk : 0 <= pos / 512 < 12) by (split; [apply Z.div_pos; lia|apply Z.div_lt_upper_bound; lia]).
    destruct (lookup_lt_is_Some_2 (direct d) (Z.to_nat (pos / 512))) as [v Hv];
      [unfold d; rewrite direct_length by done; lia|].
    rewrite (bind_Ret _ _ _ _ _ (at_index_run _ _ x1 v (proj1 Hk) Hv)).
    rewrite (proj2 (Z.leb_gt (12 * 512) pos)) by lia. cbn [andb]. rewrite ret_bind. cbv beta iota.
    rewrite (proj2 (Z.leb_gt ((12 + 128) * 512) pos)) by lia. cbn [andb].
    exists x1. split; [|done]. rewrite ret_run, (proj2 (Z.ltb_lt pos _)) by lia.
    unfold block_of. rewrite (proj2 (Z.ltb_lt (pos / 512) 12)) by lia.
    by rewrite (nth_lookup_Some _ _ _ _ Hv). }
  rewrite (proj2 (Z.ltb_ge pos (12 * 512))), andb_false_r, ret_bind by lia.
  rewrite (proj2 (Z.leb_le (12 * 512) pos)) by lia.
  destruct (Z.lt_ge_cases pos (140 * 512)) as [C2|C2].
  { rewrite (proj2 (Z.ltb_lt pos ((12 + 128) * 512))) by lia. cbn [andb].
    assert (E : (pos - 12 * 512) / 512 = pos / 512 - 12)
      by (replace (pos - 12 * 512) with (pos + (- 12) * 512) by lia; rewrite Z.div_add by lia; lia).
    assert (Hk : 12 <= pos / 512 < 140)
      by (split; [apply Z.div_le_lower_bound; lia|apply Z.div_lt_upper_bound; lia]).
    unfold in_range, index_reads in Hr.
    rewrite (proj2 (Z.ltb_ge _ 12)), (proj2 (Z.ltb_lt _ 140)), Forall_singleton in Hr by lia.
    rewrite <- (st_sz _ _ _ Q1) in Hr.
    destruct (sread_run x1 (indirect d) (quiet_inv _ _ Q1) Hr) as (x2 & R2 & Q2).
    rewrite bind_assoc, (bind_Ret _ _ _ _ _ R2), (Z.quot_div_nonneg (pos - 12 * 512) 512), E, bind_assoc by lia.
    rewrite (bind_Ret _ _ _ _ _ (index_word_run x1 x2 (indirect d) (pos / 512 - 12)
      (quiet_inv _ _ Q1) ltac:(lia))), ret_bind.
    cbv beta iota. rewrite (proj2 (Z.leb_gt ((12 + 128) * 512) (pos - 12 * 512))) by lia. cbn [andb].
    exists x2. split; [|by eapply quiet_trans].
    rewrite ret_run, (quiet_sectors _ _ _ Q1), (proj2 (Z.ltb_lt pos _)) by lia.
    unfold block_of. rewrite (proj2 (Z.ltb_ge _ 12)), (proj2 (Z.ltb_lt _ 140)) by lia. done. }
  rewrite (proj2 (Z.ltb_ge pos ((12 + 128) * 512))) by lia. cbn [andb]. rewrite ret_bind. cbv beta iota.
  rewrite (proj2 (Z.leb_le ((12 + 128) * 512) pos)) by lia. cbn [andb].
  destruct (Z.ltb_spec pos 0x800000) as [C3|C3]; [|by exists x1].
  assert (Hm : ∀ t, sectors_of x1 t = sectors_of x t) by apply Q1.
  assert (E : block_of (sectors_of x1) d (pos / 512) = block_of (sectors_of x) d (pos / 512)
    ∧ index_reads (sectors_of x1) d (pos / 512) = index_reads (sectors_of x) d (pos / 512)).
  { unfold block_of, index_reads. by rewrite !Hm. }
  destruct E as [E E']. destruct (doubly_run x1 d pos) as (x2 & R2 & Q2); [by eapply quiet_inv|lia| |].
  { by rewrite (st_sz _ _ _ Q1), E'. }
  rewrite E in R2. exists x2. split; [exact R2|by eapply quiet_trans].
Qed.

Lemma byte_to_sector_past x a ino pos :
  st_inv (store x) → inodes x !! a = Some ino → 0 <= i_sector ino < dev_size x →
  dlength (inode_at (sectors_of x) (i_sector ino)) < pos →
  ∃ x', byte_to_sector (Some a) pos x = Ret (1, x') ∧ quiet x x'.
Proof.
  intros Hi Ha Hs Hpos. unfold byte_to_sector. rewrite ASSERT_bind, (deref_bind _ _ ino) by done.
  destruct (sread_run x (i_sector ino) Hi Hs) as (x1 & R1 & Q1).
  rewrite (bind_Ret _ _ _ _ _ R1). fold (inode_at (sectors_of x) (i_sector ino)). cbv zeta.
  rewrite (proj2 (Z.leb_gt pos _)) by done. by exists x1.
Qed.

Lemma inode_length_run x a ino :
  st_inv (store x) → inodes x !! a = Some ino → 0 <= i_sector ino < dev_size x →
  ∃ x', inode_length (Some a) x = Ret (dlength (inode_at (sectors_of x) (i_sector ino)), x') ∧ quiet x x'.
Proof.
  intros Hi Ha Hs. unfold inode_length. rewrite (deref_bind _ _ ino) by done.
  destruct (sread_run x (i_sector ino) Hi Hs) as (x1 & R1 & Q1).
  rewrite (bind_Ret _ _ _ _ _ R1). by exists x1.
Qed.

(** The blocks of a well-formed file are found through valid sectors. *)
Lemma file_ok_reads x s nb k :
  st_inv (store x) → file_ok (sectors_of x) (dev_size x) s nb → 0 <= k < nb →
  in_range (dev_size x) (index_reads (sectors_of x) (inode_at (sectors_of x) s) k).
Proof.
  intros Hi Hf Hk. pose proof (fo_nb _ _ _ _ Hf). unfold in_range, index_reads.
  destruct (Z.ltb_spec k 12); [apply Forall_nil_2|].
  destruct (Z.ltb_spec k 140).
  { apply Forall_singleton. eapply file_ok_meta; [done|]. apply meta_indirect. lia. }
  rewrite (proj2 (Z.ltb_lt k 16384)) by lia.
  pose proof (Z.div_mod (k - 140) 128 ltac:(lia)). pose proof (Z.mod_pos_bound (k - 140) 128 ltac:(lia)).
  apply Forall_cons. split; [|apply Forall_singleton]; (eapply file_ok_meta; [done|]).
  - apply meta_doubly. lia.
  - apply meta_sub; [lia|by apply index_words| |lia].
    split; [apply Z.div_pos; lia|apply Z.div_lt_upper_bound; lia].
Qed.

(** * Reading *)
Section reading.
Context (a : addr) (ino : inode) (m : Z → list Z) (dsz nb : Z).
Let s := i_sector ino.
Let len := dlength (inode_at m s).

(** The inode [a] is open on a well-formed file with [nb] blocks. *)
Definition open_ok x : Prop :=
  st_inv (store x) ∧ inodes x !! a = Some ino ∧ dev_size x = dsz ∧ (∀ t, sectors_of x t = m t).

Lemma open_ok_quiet x x' : open_ok x → quiet x x' → open_ok x'.
Proof.
  intros (Hi & Ha & Hd & Hm) Q. destruct (Q). split_and!; [done|congruence|congruence|].
  intros t. by rewrite (quiet_sectors x x').
Qed.

Context (Hf : file_ok m dsz s nb).
Context (Hlen : 0 <= len <= 512 * nb).

Lemma open_lookup x pos :
  open_ok x → 0 <= pos <= len →
  pos < 512 * nb ∨ in_range dsz (index_reads m (inode_at m s) nb) →
  ∃ v x', byte_to_sector (Some a) pos x = Ret (v, x') ∧ quiet x x'
    ∧ (pos < 512 * nb → v = block_of m (inode_at m s) (pos / 512)).
Proof.
  intros (Hi & Ha & Hd & Hm) Hpos Hnext. pose proof (fo_nb _ _ _ _ Hf) as Hnb.
  assert (Em : ∀ d k, block_of (sectors_of x) d k = block_of m d k
    ∧ index_reads (sectors_of x) d k = index_reads m d k).
  { intros d k. unfold block_of, index_reads. by rewrite !Hm. }
  assert (Es : inode_at (sectors_of x) s = inode_at m s) by (unfold inode_at; by rewrite Hm).
  assert (Hk : 0 <= pos / 512 <= nb)
    by (split; [apply Z.div_pos; lia|apply Z.div_le_upper_bound; lia]).
  destruct (byte_to_sector_run x a ino pos) as (x' & R & Q); [done|done| |lia| | |].
  - rewrite Hd. by eapply file_ok_sector.
  - fold s. rewrite Es. fold len. lia.
  - fold s. rewrite Es, (proj2 (Em _ _)), Hd. destruct (decide (pos / 512 = nb)) as [E|Hne].
    { rewrite E. destruct Hnext; [|done]. pose proof (Z.mul_div_le pos 512). lia. }
    assert (Hf' : file_ok (sectors_of x) (dev_size x) s nb).
    { rewrite Hd. destruct Hf. split; [done|..];
        rewrite Es; rewrite (data_ext m _ (inode_at m s)) by (intros; apply Em);
        unfold meta; rewrite Hm; done. }
    pose proof (file_ok_reads x s nb (pos / 512) Hi Hf' ltac:(lia)) as Hr.
    by rewrite Es, (proj2 (Em _ _)), Hd in Hr.
  - eexists _, x'. split; [exact R|]. split; [done|]. intros Hlt.
    rewrite (proj2 (Z.ltb_lt pos _)) by (unfold MAX_INODE_SIZE; lia). fold s. rewrite Es. apply Em.
Qed.

Lemma open_length x : open_ok x → ∃ x', inode_length (Some a) x = Ret (len, x') ∧ quiet x x'.
Proof.
  intros (Hi & Ha & Hd & Hm).
  destruct (inode_length_run x a ino Hi Ha) as (x' & R & Q).
  { rewrite Hd. by eapply file_ok_sector. }
  exists x'. split; [|done]. rewrite R. unfold len, inode_at. fold s. by rewrite Hm.
Qed.

(** The bytes of the file from the sectors. *)
Let bytes : list Z := take (Z.to_nat len) (raw_bytes m s nb).
Context (Hsec : ∀ t, length (m t) = 512%nat).

Lemma raw_length : length (raw_bytes m s nb) = Z.to_nat (512 * nb).
Proof.
  unfold raw_bytes. rewrite (length_blocks 512) by done. rewrite data_length.
  pose proof (fo_nb _ _ _ _ Hf). lia.
Qed.

Lemma bytes_length : length bytes = Z.to_nat len.
Proof. unfold bytes. rewrite length_take, raw_length. lia. Qed.

(** The part of one sector that a step of the loop copies. *)
Lemma chunk_bytes offset c :
  0 <= offset → 0 < c → offset mod 512 + c <= 512 → offset + c <= len →
  take (Z.to_nat c) (drop (Z.to_nat (offset mod 512)) (m (block_of m (inode_at m s) (offset / 512)))) =
  take (Z.to_nat c) (drop (Z.to_nat offset) bytes).
Proof.
  intros Ho Hc Hr Hl. pose proof (Z.div_mod offset 512 ltac:(lia)) as Hdm.
  pose proof (Z.mod_pos_bound offset 512 ltac:(lia)).
  assert (Hk : 0 <= offset / 512 < nb) by (split; [apply Z.div_pos; lia|apply Z.div_lt_upper_bound; lia]).
  unfold bytes. rewrite skipn_firstn_comm, take_take, Nat.min_l by lia.
  replace (Z.to_nat offset) with (512 * Z.to_nat (offset / 512) + Z.to_nat (offset mod 512))%nat by lia.
  unfold raw_bytes. symmetry. apply take_drop_blocks; [done|by apply data_lookup|lia].
Qed.

Lemma open_sread x k :
  open_ok x → 0 <= k < nb →
  ∃ x', sread (block_of m (inode_at m s) k) x = Ret (m (block_of m (inode_at m s) k), x') ∧ quiet x x'.
Proof.
  intros (Hi & Ha & Hd & Hm) Hk.
  destruct (sread_run x (block_of m (inode_at m s) k) Hi) as (x' & R & Q).
  { rewrite Hd. by eapply file_ok_block. }
  exists x'. by rewrite <- Hm.
Qed.

(** One allocation for the bounce buffer, at most. *)
Lemma bounce_run x (b : bool) :
  st_inv (store x) → mem x = [] →
  ∃ x', (if b then mret true else p ← malloc; mret (negb (isnull p))) x = Ret (true, x') ∧ quiet x x'.
Proof.
  intros Hi Hm. destruct b; [exists x; split; [done|by apply quiet_refl]|].
  destruct (malloc_run x Hi Hm) as (p & x' & R & Q). exists x'. by rewrite (bind_Ret _ _ _ _ _ R).
Qed.

Lemma take_step {A} (l : list A) n c o :
  (c <= n)%nat → take n (drop o l) = take c (drop o l) ++ take (n - c) (drop (o + c) l).
Proof.
  intros Hc. rewrite <- (take_drop c (drop o l)) at 1. rewrite drop_drop.
  destruct (decide (c <= length (drop o l))%nat) as [Hl|Hl].
  - rewrite take_app_ge by (rewrite length_take; lia). rewrite length_take, Nat.min_l by lia. done.
  - rewrite (drop_ge l (o + c)) by (rewrite length_drop in Hl; lia).
    by rewrite !app_nil_r, take_take, take_nil, app_nil_r, Nat.min_r by lia.
Qed.

Context (Hnext : in_range dsz (index_reads m (inode_at m s) nb)).

Lemma read_loop_run fuel : ∀ size offset bounce acc x,
  open_ok x → mem x = [] → 0 <= offset <= len → (Z.to_nat size < fuel)%nat →
  ∃ x', read_loop fuel (Some a) size offset bounce acc x =
          Ret (acc ++ take (Z.to_nat size) (drop (Z.to_nat offset) bytes), x') ∧ quiet x x'.
Proof.
  induction fuel as [|fuel IH]; intros size offset bounce acc x Hx Hmem Ho Hfuel; [lia|]. cbn [read_loop].
  destruct (Z.leb_spec size 0) as [Hsz|Hsz].
  { exists x. replace (Z.to_nat size) with 0%nat by lia. rewrite take_0, app_nil_r.
    split; [done|]. apply quiet_refl, Hx. }
  destruct (open_lookup x offset Hx Ho (or_intror Hnext)) as (v & x1 & R1 & Q1 & Hv). rewrite (bind_Ret _ _ _ _ _ R1).
  pose proof (open_ok_quiet _ _ Hx Q1) as Hx1.
  destruct (open_length x1 Hx1) as (x2 & R2 & Q2). rewrite (bind_Ret _ _ _ _ _ R2).
  pose proof (open_ok_quiet _ _ Hx1 Q2) as Hx2. pose proof (quiet_trans _ _ _ Q1 Q2) as Q12.
  unfold BLOCK_SECTOR_SIZE. rewrite Z.rem_mod_nonneg by lia.
  pose proof (Z.mod_pos_bound offset 512 ltac:(lia)) as Hr.
  set (ml := if len - offset <? 512 - offset mod 512 then len - offset else 512 - offset mod 512).
  assert (Hml : ml = Z.min (len - offset) (512 - offset mod 512))
    by (unfold ml; destruct (Z.ltb_spec (len - offset) (512 - offset mod 512)); lia).
  set (c := if size <? ml then size else ml). clearbody ml.
  assert (Hc : c = Z.min size ml) by (unfold c; destruct (Z.ltb_spec size ml); lia). clearbody c.
  destruct (Z.leb_spec c 0) as [Hc0|Hc0].
  { exists x2. rewrite drop_ge by (rewrite bytes_length; lia). by rewrite take_nil, app_nil_r. }
  assert (Hk : 0 <= offset / 512 < nb) by (split; [apply Z.div_pos; lia|apply Z.div_lt_upper_bound; lia]).
  rewrite (take_step bytes (Z.to_nat size) (Z.to_nat c)) by lia.
  replace (Z.to_nat size - Z.to_nat c)%nat with (Z.to_nat (size - c)) by lia.
  replace (Z.to_nat offset + Z.to_nat c)%nat with (Z.to_nat (offset + c)) by lia.
  rewrite <- chunk_bytes, app_assoc by lia. specialize (Hv ltac:(lia)). subst v.
  assert (Hnext_x : ∀ x3 bo, quiet x x3 → ∃ x', read_loop fuel (Some a) (size - c) (offset + c) bo
    (acc ++ take (Z.to_nat c) (drop (Z.to_nat (offset mod 512)) (m (block_of m (inode_at m s) (offset / 512))))) x3 =
    Ret ((acc ++ take (Z.to_nat c) (drop (Z.to_nat (offset mod 512)) (m (block_of m (inode_at m s) (offset / 512))))) ++
         take (Z.to_nat (size - c)) (drop (Z.to_nat (offset + c)) bytes), x') ∧ quiet x x').
  { intros x3 bo Q3. destruct (IH (size - c) (offset + c) bo (acc ++ take (Z.to_nat c)
      (drop (Z.to_nat (offset mod 512)) (m (block_of m (inode_at m s) (offset / 512)))))
      x3) as (x4 & R4 & Q4); [exact (open_ok_quiet _ _ Hx Q3)|by apply (st_mem _ _ _ Q3)|lia|lia|].
    exists x4. split; [done|by eapply quiet_trans]. }
  destruct ((offset mod 512 =? 0) && (c =? 512)) eqn:Hfull.
  - apply andb_true_iff in Hfull as [E1%Z.eqb_eq E2%Z.eqb_eq].
    destruct (open_sread x2 _ Hx2 Hk) as (x3 & R3 & Q3). rewrite (bind_Ret _ _ _ _ _ R3).
    rewrite E1, E2 in Hnext_x |- *. rewrite drop_0, take_ge in Hnext_x |- * by (rewrite Hsec; lia).
    apply Hnext_x. by eapply quiet_trans.
  - destruct (bounce_run x2 bounce) as (x3 & R3 & Q3); [by apply Hx2|by apply (st_mem _ _ _ Q12)|].
    rewrite (bind_Ret _ _ _ _ _ R3). cbn [negb].
    destruct (open_sread x3 _ (open_ok_quiet _ _ Hx2 Q3) Hk) as (x4 & R4 & Q4).
    rewrite (bind_Ret _ _ _ _ _ R4). apply Hnext_x. eauto using quiet_trans.
Qed.

Lemma inode_read_run x size offset :
  open_ok x → mem x = [] → 0 <= offset → 
  ∃ x', inode_read_at (Some a) size offset x =
          Ret (take (Z.to_nat size) (drop (Z.to_nat offset) bytes), x') ∧ quiet x x'.
Proof.
  intros Hx Hmem Ho. destruct (Hx) as (Hi & Ha & Hd & Hm).
  unfold inode_read_at. rewrite (deref_bind _ _ ino) by done.
  destruct (sread_run x s Hi) as (x1 & R1 & Q1); [rewrite Hd; by eapply file_ok_sector|].
  rewrite (bind_Ret _ _ _ _ _ R1). cbv zeta.
  replace (dlength (decode_inode (sectors_of x s))) with len by (unfold len, inode_at; by rewrite Hm).
  destruct (Z.leb_spec len offset) as [Hp|Hp].
  { exists x1. rewrite drop_ge by (rewrite bytes_length; lia). by rewrite take_nil. }
  set (size' := if len <? size then len else size).
  assert (Hs' : size' = Z.min len size) by (unfold size'; destruct (Z.ltb_spec len size); lia).
  clearbody size'.
  destruct (read_loop_run (S (Z.to_nat size')) size' offset false [] x1) as (x2 & R2 & Q2);
    [exact (open_ok_quiet _ _ Hx Q1)|by apply (st_mem _ _ _ Q1)|lia|lia|].
  exists x2. split; [|by eapply quiet_trans]. rewrite R2. simpl. do 2 f_equal.
  destruct (Z.le_ge_cases size len); [by replace size' with size by lia|].
  replace size' with len by lia. rewrite !take_ge; [done|..]; rewrite length_drop, bytes_length; lia.
Qed.
End reading.

(** * Writing in place *)

(** Replacing part of one block of a file. *)
Lemma raw_upd (l : list Z) (m : Z → list Z) k v r p :
  NoDup l → l !! k = Some v → (∀ t, length (m t) = 512%nat) → (r + length p <= 512)%nat →
  l ≫= upd v (splice r p (m v)) m = splice (512 * k + r) p (l ≫= m).
Proof.
  intros Hnd Hk Hl Hp. pose proof (lookup_lt_Some _ _ _ Hk) as Hlt.
  rewrite <- (take_drop_middle l k v Hk) in Hnd |- *.
  assert (Hkeep : ∀ l', v ∉ l' → l' ≫= upd v (splice r p (m v)) m = l' ≫= m).
  { intros l' Hv. induction l' as [|w l' IH]; [done|]. simpl.
    rewrite not_elem_of_cons in Hv. destruct Hv as [Hne Hv]. f_equal; [|by apply IH].
    unfold upd. by rewrite decide_False. }
  rewrite !bind_app, !bind_cons. apply NoDup_app in Hnd as (_ & Hd1 & Hd2). apply NoDup_cons in Hd2 as [Hd2 _].
  rewrite !Hkeep; [|done|intros Hin; apply (Hd1 v Hin); set_solver].
  unfold upd at 1. rewrite decide_True by done. rewrite <- splice_mid by (rewrite Hl; lia).
  do 2 f_equal. rewrite (length_blocks 512) by done. rewrite length_take. lia.
Qed.

Lemma file_ok_sep m dsz s nb k :
  file_ok m dsz s nb → 0 <= k < nb →
  block_of m (inode_at m s) k ∉ s :: meta m (inode_at m s) nb.
Proof.
  intros [_ _ Hn] Hk Hin. rewrite app_comm_cons in Hn. apply NoDup_app in Hn as (_ & Hd & _).
  apply (Hd _ Hin). apply list_elem_of_lookup. exists (Z.to_nat k). by apply data_lookup.
Qed.

Lemma file_ok_data m dsz s nb : file_ok m dsz s nb → NoDup (data m (inode_at m s) nb).
Proof. intros [_ _ Hn]. rewrite app_comm_cons in Hn. by apply NoDup_app in Hn as (_ & _ & ?). Qed.

(** Overwriting data sectors keeps the layout. *)
Lemma layout_data m m' dsz s nb :
  file_ok m dsz s nb → (∀ t, length (m t) = 512%nat) →
  (∀ t, t ∉ data m (inode_at m s) nb → m' t = m t) →
  inode_at m' s = inode_at m s ∧ meta m' (inode_at m s) nb = meta m (inode_at m s) nb
  ∧ data m' (inode_at m s) nb = data m (inode_at m s) nb ∧ file_ok m' dsz s nb.
Proof.
  intros Hf Hl Hm.
  assert (Hw : ∀ t, length (words_of (m t)) = 128%nat) by (intros t; apply words_of_length; by rewrite Hl).
  assert (Hk : ∀ t, t ∈ s :: meta m (inode_at m s) nb → m' t = m t).
  { intros t Ht. apply Hm. intros Hd. destruct Hf as [_ _ Hn].
    rewrite app_comm_cons in Hn. apply NoDup_app in Hn as (_ & Hdj & _). by apply (Hdj t). }
  destruct (layout_frame m m' s nb) as (E1 & E2 & E3); [apply Hf|done|done|].
  split_and!; [done|done|by apply data_ext|by eapply file_ok_frame].
Qed.

Section writing.
Context (a : addr) (ino : inode) (dsz nb : Z) (buffer : list Z).
Let s := i_sector ino.

(** One step of the loop: the sector's new contents. *)
Lemma new_sector (b : list Z) ofs c (piece : list Z) :
  length b = 512%nat → 0 <= ofs < 512 → 0 < c <= 512 - ofs → length piece = Z.to_nat c →
  take (Z.to_nat ofs) (if (0 <? ofs) || (c <? 512 - ofs) then b else zero_sector) ++ piece ++
    drop (Z.to_nat (ofs + c)) (if (0 <? ofs) || (c <? 512 - ofs) then b else zero_sector) =
  splice (Z.to_nat ofs) piece b.
Proof.
  intros Hb Ho Hc Hp. unfold splice. rewrite Hp.
  replace (Z.to_nat ofs + Z.to_nat c)%nat with (Z.to_nat (ofs + c)) by lia.
  destruct ((0 <? ofs) || (c <? 512 - ofs)) eqn:E; [done|].
  apply orb_false_iff in E as [E1%Z.ltb_ge E2%Z.ltb_ge].
  replace ofs with 0 by lia. replace c with 512 by lia. rewrite !drop_ge; [done|by rewrite Hb|done].
Qed.

Lemma write_loop_run fuel : ∀ size offset bw bounce m x,
  open_ok a ino m dsz x → mem x = [] → file_ok m dsz s nb → (∀ t, length (m t) = 512%nat) →
  0 <= offset → 0 <= size → 0 <= bw → (0 < size → offset <= dlength (inode_at m s)) →
  offset + size <= 512 * nb → 512 * (nb - 1) <= dlength (inode_at m s) <= 512 * nb →
  bw + size = Z.of_nat (length buffer) → (Z.to_nat size < fuel)%nat →
  ∃ m' x', write_loop fuel (Some a) buffer size offset bw bounce x = Ret (bw + size, x')
    ∧ steps_to x m' x' ∧ (∀ t, length (m' t) = 512%nat)
    ∧ (∀ t, t ∉ data m (inode_at m s) nb → m' t = m t)
    ∧ raw_bytes m' s nb = splice (Z.to_nat offset) (drop (Z.to_nat bw) buffer) (raw_bytes m s nb).
Proof.
  induction fuel as [|fuel IH]; intros size offset bw bounce m x Hx Hmem Hf Hl Ho Hsz Hbw Hoff Hend Hlen Hbuf Hfuel;
    [lia|]. cbn [write_loop].
  destruct (Z.leb_spec size 0) as [Hs0|Hs0].
  { exists m, x. replace (bw + size) with bw by lia. split_and!; try done.
    - destruct Hx as (Hi & _ & _ & Hm). eapply steps_ext; [by apply quiet_refl|done].
    - rewrite drop_ge by lia. by rewrite splice_nil. }
  pose proof (fo_nb _ _ _ _ Hf) as Hnb. specialize (Hoff Hs0).
  destruct (open_lookup a ino m dsz nb Hf ltac:(fold s; lia) x offset Hx) as (v & x1 & R1 & Q1 & Hv);
    [fold s; lia|left; lia|]. specialize (Hv ltac:(lia)). rewrite (bind_Ret _ _ _ _ _ R1).
  unfold BLOCK_SECTOR_SIZE. rewrite !Z.rem_mod_nonneg by lia.
  pose proof (Z.mod_pos_bound offset 512 ltac:(lia)) as Hr. pose proof (Z.div_mod offset 512 ltac:(lia)) as Hdm.
  set (c0 := if size mod 512 =? 0 then 512 else size).
  assert (Hc0 : 0 < c0 <= size ∧ (c0 < size → 512 <= c0)).
  { unfold c0. destruct (Z.eqb_spec (size mod 512) 0) as [E|]; [|lia].
    apply Z.mod_divide in E as [q Hq]; lia. }
  clearbody c0. set (c := if 512 - offset mod 512 <? c0 then 512 - offset mod 512 else c0).
  assert (Hc : c = Z.min (512 - offset mod 512) c0)
    by (unfold c; destruct (Z.ltb_spec (512 - offset mod 512) c0); lia). clearbody c.
  pose proof (open_ok_quiet _ _ _ _ _ _ Hx Q1) as Hx1.
  destruct (bounce_run x1 bounce) as (x2 & R2 & Q2); [apply Hx1|by apply (st_mem _ _ _ Q1)|].
  rewrite (bind_Ret _ _ _ _ _ R2). cbn [negb].
  pose proof (open_ok_quiet _ _ _ _ _ _ Hx1 Q2) as Hx2. pose proof (quiet_trans _ _ _ Q1 Q2) as Q12.
  assert (Hk : 0 <= offset / 512 < nb) by (split; [apply Z.div_pos; lia|apply Z.div_lt_upper_bound; lia]).
  fold s in Hv. pose proof (file_ok_block _ _ _ _ _ Hf Hk) as Hvr. rewrite <- Hv in Hvr.
  assert (Hread : ∃ x3, (if (0 <? offset mod 512) || (c <? 512 - offset mod 512) then sread v
      else mret zero_sector) x2 = Ret (if (0 <? offset mod 512) || (c <? 512 - offset mod 512) then m v
      else zero_sector, x3) ∧ quiet x2 x3).
  { destruct (_ || _); [|exists x2; split; [done|apply quiet_refl, Hx2]].
    rewrite Hv. by apply (open_sread a ino m dsz nb Hf). }
  destruct Hread as (x3 & R3 & Q3). rewrite (bind_Ret _ _ _ _ _ R3).
  set (piece := take (Z.to_nat c) (drop (Z.to_nat bw) buffer)).
  assert (Hpl : length piece = Z.to_nat c) by (unfold piece; rewrite length_take, length_drop; lia).
  rewrite (new_sector (m v) (offset mod 512) c piece) by (done || lia).
  pose proof (open_ok_quiet _ _ _ _ _ _ Hx2 Q3) as Hx3. destruct (Hx3) as (Hi3 & Ha3 & Hd3 & Hm3).
  destruct (swrite_run x3 v (splice (Z.to_nat (offset mod 512)) piece (m v))) as (x4 & R4 & S4);
    [done|by rewrite Hd3|rewrite length_splice; rewrite Hl; [done|lia]|].
  rewrite (bind_Ret _ _ _ _ _ R4).
  set (m1 := upd v (splice (Z.to_nat (offset mod 512)) piece (m v)) m).
  assert (Hm1 : ∀ t, t ∉ data m (inode_at m s) nb → m1 t = m t).
  { intros t Ht. unfold m1, upd. rewrite decide_False; [done|]. intros ->. apply Ht.
    apply list_elem_of_lookup. exists (Z.to_nat (offset / 512)). rewrite Hv. by apply data_lookup. }
  assert (Hl1 : ∀ t, length (m1 t) = 512%nat).
  { intros t. unfold m1, upd. case_decide; [|done]. rewrite length_splice; rewrite Hl; [done|lia]. }
  destruct (layout_data m m1 dsz s nb Hf Hl Hm1) as (E1 & E2 & E3 & Hf1).
  assert (S14 : steps_to x m1 x4).
  { eapply quiet_steps; [exact Q12|]. eapply quiet_steps; [exact Q3|].
    eapply steps_ext; [exact S4|]. intros t. unfold m1, upd. by rewrite Hm3. }
  assert (Hraw : raw_bytes m1 s nb = splice (Z.to_nat offset) piece (raw_bytes m s nb)).
  { unfold raw_bytes. rewrite E1, E3. unfold m1.
    rewrite (raw_upd _ m (Z.to_nat (offset / 512)) v); [f_equal; lia|by eapply file_ok_data| |done|lia].
    rewrite Hv. by apply data_lookup. }
  destruct (IH (size - c) (offset + c) (bw + c) true m1 x4) as (m' & x' & R' & S' & L' & K' & B');
    [|by apply (st_mem _ _ _ S14)|done|done|lia|lia|lia|rewrite E1; lia|lia|rewrite E1; lia|lia|lia|].
  { destruct Hx as (_ & Ha & Hd & _). split_and!; [apply S14| | |apply S14].
    - by rewrite (st_in _ _ _ S14).
    - by rewrite (st_sz _ _ _ S14). }
  exists m', x'. rewrite R'. split_and!; [do 2 f_equal; lia|by eapply steps_trans|done| |].
  - intros t Ht. rewrite K'; [by apply Hm1|]. by rewrite E1, E3.
  - rewrite B', Hraw. replace (Z.to_nat (offset + c)) with (Z.to_nat offset + length piece)%nat by lia.
    rewrite splice_splice.
    + f_equal. unfold piece. replace (Z.to_nat (bw + c)) with (Z.to_nat bw + Z.to_nat c)%nat by lia.
      rewrite <- drop_drop. apply take_drop.
    + pose proof (raw_length ino m dsz nb Hf Hl) as HL. fold s in HL. rewrite HL. lia.
Qed.
End writing.

Lemma bytes_to_sectors_div n : 0 <= n < 2 ^ 30 → bytes_to_sectors n = (n + 511) / 512.
Proof.
  intros Hn. unfold bytes_to_sectors, BLOCK_SECTOR_SIZE. rewrite s32_small by lia.
  replace (n + 512 - 1) with (n + 511) by lia. rewrite Z.quot_div_nonneg by lia. apply u32_small.
  pose proof (Z.div_pos (n + 511) 512). pose proof (Z.div_le_upper_bound (n + 511) 512 (n + 511)). lia.
Qed.

Lemma nblocks_bound len : 0 <= len → len <= 512 * nblocks len.
Proof.
  intros Hl. unfold nblocks. pose proof (Z.div_mod (len + 511) 512 ltac:(lia)).
  pose proof (Z.mod_pos_bound (len + 511) 512 ltac:(lia)). lia.
Qed.

(** The number of sectors the resize test computes for [n] bytes. *)
Lemma resize_sectors n :
  0 <= n < 2 ^ 30 → s32 (if bytes_to_sectors n =? 0 then 1 else bytes_to_sectors n) = nblocks n.
Proof.
  intros Hn. rewrite bytes_to_sectors_div by done. unfold nblocks.
  pose proof (Z.div_pos (n + 511) 512 ltac:(lia) ltac:(lia)).
  pose proof (Z.div_le_upper_bound (n + 511) 512 (n + 511) ltac:(lia) ltac:(lia)).
  destruct (Z.eqb_spec ((n + 511) / 512) 0); rewrite s32_small by lia; lia.
Qed.

Lemma nblocks_mono n n' : n <= n' → nblocks n <= nblocks n'.
Proof. intros Hn. unfold nblocks. pose proof (Z.div_le_mono (n + 511) (n' + 511) 512). lia. Qed.

(** The inode [a] is open on a well-formed file whose sectors are allocated. *)
Record good_inode x (a : addr) (ino : inode) : Prop := {
  gi_store : st_inv (store x);
  gi_open : inodes x !! a = Some ino;
  gi_len : 0 <= dlength (inode_at (sectors_of x) (i_sector ino)) <= MAX_INODE_SIZE;
  gi_file : file_ok (sectors_of x) (dev_size x) (i_sector ino)
              (nblocks (dlength (inode_at (sectors_of x) (i_sector ino))));
  gi_next : in_range (dev_size x) (index_reads (sectors_of x) (inode_at (sectors_of x) (i_sector ino))
              (nblocks (dlength (inode_at (sectors_of x) (i_sector ino)))));
  gi_sep : nblocks (dlength (inode_at (sectors_of x) (i_sector ino))) = 140 →
    doubly_indirect (inode_at (sectors_of x) (i_sector ino)) = FREE_MAP_SECTOR
    ∧ FREE_MAP_SECTOR ∉ data (sectors_of x) (inode_at (sectors_of x) (i_sector ino)) 140
}.

(** What a file is depends on its inode and index sectors only; a file of 140
    blocks also has a null doubly indirect pointer, which reads sector 0. *)
Lemma good_inode_frame x x' a ino :
  good_inode x a ino → st_inv (store x') → inodes x' !! a = Some ino → dev_size x' = dev_size x →
  let d := inode_at (sectors_of x) (i_sector ino) in
  (∀ t, t ∈ i_sector ino :: meta (sectors_of x) d (nblocks (dlength d)) → sectors_of x' t = sectors_of x t) →
  (nblocks (dlength d) = 140 → sectors_of x' FREE_MAP_SECTOR = sectors_of x FREE_MAP_SECTOR) →
  good_inode x' a ino ∧ inode_at (sectors_of x') (i_sector ino) = d
  ∧ data (sectors_of x') d (nblocks (dlength d)) = data (sectors_of x) d (nblocks (dlength d))
  ∧ meta (sectors_of x') d (nblocks (dlength d)) = meta (sectors_of x) d (nblocks (dlength d)).
Proof.
  intros [Hi Ha Hl Hf Hn Hs] Hi' Ha' Hz d Hm H0'. fold d in Hl, Hf, Hn, Hs.
  set (nb := nblocks (dlength d)) in *. pose proof (fo_nb _ _ _ _ Hf) as Hnb.
  destruct (layout_frame (sectors_of x) (sectors_of x') (i_sector ino) nb) as (E1 & E2 & E3);
    [lia|by apply words_128|done|]. fold d in E1, E2, E3.
  pose proof (data_ext _ _ _ _ nb E3) as E4. split; [|done].
  split; rewrite ?E1, ?Hz; fold nb; try done.
  - eapply file_ok_frame; [done|by apply words_128|done].
  - replace (index_reads (sectors_of x') d nb) with (index_reads (sectors_of x) d nb); [done|].
    unfold index_reads. destruct (nb <? 12); [done|]. destruct (Z.ltb_spec nb 140); [done|].
    destruct (nb <? 16384); [|done]. destruct (decide (nb = 140)) as [E|Hne].
    + destruct (Hs E) as [Hd0 _]. by rewrite Hd0, (H0' E).
    + rewrite Hm; [done|]. apply elem_of_cons. right. apply meta_doubly. lia.
  - intros E. rewrite E in E4. rewrite E4. by apply Hs.
Qed.

(** Changing only data sectors of the file keeps it well formed. *)
Lemma good_inode_data x x' a ino :
  good_inode x a ino → st_inv (store x') → inodes x' !! a = Some ino → dev_size x' = dev_size x →
  (∀ t, t ∉ data (sectors_of x) (inode_at (sectors_of x) (i_sector ino))
              (nblocks (dlength (inode_at (sectors_of x) (i_sector ino)))) →
     sectors_of x' t = sectors_of x t) →
  good_inode x' a ino.
Proof.
  intros Hg Hi' Ha' Hz Hm. apply (good_inode_frame x); try done.
  - intros t Ht. apply Hm. intros Hd. pose proof (fo_nodup _ _ _ _ (gi_file _ _ _ Hg)) as Hn.
    rewrite app_comm_cons in Hn. apply NoDup_app in Hn as (_ & Hn & _). by apply (Hn t).
  - intros E. apply Hm. rewrite E. by apply (gi_sep _ _ _ Hg).
Qed.

Lemma good_open x a ino : good_inode x a ino → open_ok a ino (sectors_of x) (dev_size x) x.
Proof. intros []. by split_and!. Qed.

(** The part of [inode_write_at] before the loop, when no sectors are missing. *)
Lemma write_body_loop write_at x a ino buffer size offset :
  good_inode x a ino → deny_write_cnt ino = 0 → 0 <= offset → 0 <= size →
  offset + size <= 512 * nblocks (dlength (inode_at (sectors_of x) (i_sector ino))) →
  ∃ x1, quiet x x1 ∧
    inode_write_body write_at (Some a) buffer size offset x =
      write_loop (S (Z.to_nat size)) (Some a) buffer size offset 0 false x1.
Proof.
  intros Hg Hdw Ho Hsz Hb. destruct (Hg) as [Hi Ha Hl Hf _ _]. unfold MAX_INODE_SIZE in Hl.
  unfold inode_write_body. rewrite (deref_bind _ _ ino) by done.
  destruct (sread_run x (i_sector ino) Hi (file_ok_sector _ _ _ _ Hf)) as (x1 & R1 & Q1).
  exists x1. split; [done|]. rewrite (bind_Ret _ _ _ _ _ R1).
  fold (inode_at (sectors_of x) (i_sector ino)). set (d := inode_at (sectors_of x) (i_sector ino)) in *.
  rewrite Hdw. cbn [Z.eqb negb]. cbv zeta.
  assert (Hnb : nblocks (dlength d) <= 16384) by (destruct Hf; lia).
  rewrite (s32_small (offset + size)), !resize_sectors by lia.
  assert (Hle : nblocks (offset + size) <= nblocks (dlength d)).
  { unfold nblocks at 1. pose proof (Z.div_lt_upper_bound (offset + size + 511) 512 (nblocks (dlength d) + 1)).
    unfold nblocks in *. lia. }
  rewrite (proj2 (Z.ltb_ge _ _)) by lia. rewrite ret_bind.
  unfold mbind at 1, cmd_bind. by destruct (write_loop _ _ _ _ _ _ _ x1) as [[? ?]|].
Qed.

Lemma nblocks_lower len : 0 <= len → 512 * (nblocks len - 1) <= len.
Proof.
  intros Hl. unfold nblocks. pose proof (Z.div_mod (len + 511) 512 ltac:(lia)).
  pose proof (Z.mod_pos_bound (len + 511) 512 ltac:(lia)). lia.
Qed.

(** A write that starts at or before the end of the file and stays in its
    sectors: where the bytes go. *)
Lemma write_in_sectors write_at x a ino buffer size offset :
  good_inode x a ino → mem x = [] → deny_write_cnt ino = 0 →
  let m := sectors_of x in let s := i_sector ino in let len := dlength (inode_at m s) in
  0 <= offset <= len → size = Z.of_nat (length buffer) → offset + size <= 512 * nblocks len →
  ∃ m' x', inode_write_body write_at (Some a) buffer size offset x = Ret (size, x')
    ∧ steps_to x m' x'
    ∧ (∀ t, t ∉ data m (inode_at m s) (nblocks len) → m' t = m t)
    ∧ inode_at m' s = inode_at m s
    ∧ raw_bytes m' s (nblocks len) = splice (Z.to_nat offset) buffer (raw_bytes m s (nblocks len))
    ∧ file_ok m' (dev_size x) s (nblocks len).
Proof.
  intros Hg Hmem Hdw m s len Ho Hsz Hlen. destruct (Hg) as [Hi Ha Hl Hf _ _].
  fold m s in Hl, Hf. fold len in Hl, Hf. pose proof (nblocks_bound len ltac:(lia)) as Hb.
  pose proof (nblocks_lower len ltac:(lia)) as Hb'.
  destruct (write_body_loop write_at x a ino buffer size offset Hg Hdw) as (x1 & Q1 & ->);
    [lia|lia|fold m s; fold len; lia|].
  assert (Hsec : ∀ t, length (m t) = 512%nat) by (intros t; by apply sectors_length).
  destruct (write_loop_run a ino (dev_size x) (nblocks len) buffer (S (Z.to_nat size)) size offset 0 false m x1)
    as (m' & x' & R & S' & L & K & B); try lia; try done.
  - apply (open_ok_quiet _ _ _ _ x); [by apply good_open|done].
  - by apply (st_mem _ _ _ Q1).
  - intros _. fold s. fold len. lia.
  - destruct (layout_data m m' (dev_size x) s (nblocks len) Hf Hsec K) as (E1 & E2 & E3 & Hf').
    exists m', x'. split_and!; [done|by eapply quiet_steps|done|done| |done].
    fold s in B. by rewrite B, drop_0.
Qed.

(** A write inside the file. *)
Lemma write_in_place write_at x a ino buffer size offset :
  good_inode x a ino → mem x = [] → deny_write_cnt ino = 0 →
  let m := sectors_of x in let s := i_sector ino in let len := dlength (inode_at m s) in
  0 <= offset → size = Z.of_nat (length buffer) → offset + size <= len →
  ∃ m' x', inode_write_body write_at (Some a) buffer size offset x = Ret (size, x')
    ∧ steps_to x m' x'
    ∧ (∀ t, t ∉ data m (inode_at m s) (nblocks len) → m' t = m t)
    ∧ inode_at m' s = inode_at m s
    ∧ file_bytes m' s = splice (Z.to_nat offset) buffer (file_bytes m s)
    ∧ file_ok m' (dev_size x) s (nblocks len).
Proof.
  intros Hg Hmem Hdw m s len Ho Hsz Hlen. pose proof (gi_len _ _ _ Hg) as Hl. fold m s in Hl. fold len in Hl.
  destruct (write_in_sectors write_at x a ino buffer size offset Hg Hmem Hdw)
    as (m' & x' & R & S' & K & E & B & O); [fold m s len; lia|done| |].
  { fold m s. fold len. pose proof (nblocks_bound len). lia. }
  exists m', x'. split_and!; try done. unfold file_bytes. fold m s in B, E. rewrite E.
  fold len in B |- *. rewrite B. apply take_splice. lia.
Qed.

Lemma file_bytes_ext (m m' : Z → list Z) s : (∀ t, m t = m' t) → file_bytes m s = file_bytes m' s.
Proof.
  intros Hm. unfold file_bytes, raw_bytes, inode_at. rewrite Hm. f_equal.
  assert (Hext : ∀ l : list Z, l ≫= m = l ≫= m').
  { intros l. induction l as [|t l IH]; [done|]. rewrite !bind_cons, Hm. by rewrite IH. }
  rewrite Hext. f_equal. apply data_ext. intros k _. unfold block_of. by rewrite !Hm.
Qed.

Lemma inode_read_good x a ino size offset :
  good_inode x a ino → mem x = [] → 0 <= offset →
  ∃ x', inode_read_at (Some a) size offset x =
          Ret (take (Z.to_nat size) (drop (Z.to_nat offset) (file_bytes (sectors_of x) (i_sector ino))), x')
    ∧ quiet x x'.
Proof.
  intros Hg Hmem Ho. destruct (Hg) as [Hi Ha Hl Hf Hn _].
  apply (inode_read_run a ino (sectors_of x) (dev_size x)
    (nblocks (dlength (inode_at (sectors_of x) (i_sector ino)))) Hf); try done.
  - pose proof (nblocks_bound _ (proj1 Hl)). lia.
  - intros t. by apply sectors_length.
Qed.
End spec.
