(* ===== verification/FreeMapSpec.v ===== *)
(** * Sector allocation and file creation

    [mounted] is the state of the file system once the free map's file is
    open: the bitmap covers the device, the free map's own sectors are marked,
    and its file is a well-formed inode of the right length.  The theorems
    show that allocating and releasing sectors moves exactly the intended
    bits, keeps the bitmap and its file in step and leaves all sectors in use
    alone, and that [inode_create] builds a well-formed file of zeros out of
    sectors that were free. *)
From S2P Require Import Prelude Bitmap Cache FsState Inode InodeSpec.
Local Open Scope Z_scope.

Section alloc.
Context {St : Type} `{SectorStore St}.
Implicit Types x : fs St.
#[local] Abbreviation cmd := (cmd (fs St)).

Definition used x (t : Z) : Prop := bit (free_map x) t = true.
#[global] Instance used_dec x t : Decision (used x t).
Proof. unfold used. apply _. Defined.

(** The inode of the free map's file and all its sectors. *)
Definition fm_inode x : inode_disk := inode_at (sectors_of x) FREE_MAP_SECTOR.
Definition fm_data x : list Z := data (sectors_of x) (fm_inode x) (nblocks (dlength (fm_inode x))).
Definition fm_all x : list Z :=
  FREE_MAP_SECTOR :: meta (sectors_of x) (fm_inode x) (nblocks (dlength (fm_inode x))) ++ fm_data x.

Record mounted x : Prop := {
  mo_wf : wf (free_map x);
  mo_cnt : bit_cnt (free_map x) = dev_size x;
  mo_lock : free_map_lock x = false;
  mo_file : ∃ f file a ino, free_map_file x = Some f ∧ files x !! f = Some file
    ∧ f_inode file = Some a ∧ good_inode x a ino ∧ i_sector ino = FREE_MAP_SECTOR
    ∧ deny_write_cnt ino = 0;
  mo_len : dlength (fm_inode x) = byte_cnt (bit_cnt (free_map x));
  mo_used : Forall (used x) (fm_all x)
}.

(** [x'] comes from [x] by work that touches only free-map data, the sectors
    [W], and the bits of the free map. *)
Record keeps x (W : list Z) x' : Prop := {
  ke_mounted : mounted x';
  ke_size : dev_size x' = dev_size x;
  ke_m : ∀ t, t ∉ W → t ∉ fm_data x → sectors_of x' t = sectors_of x t;
  ke_fm : fm_all x' = fm_all x ∧ fm_data x' = fm_data x;
  ke_file : free_map_file x' = free_map_file x;
  ke_in : inodes x' = inodes x;
  ke_op : open_inodes x' = open_inodes x;
  ke_fi : files x' = files x;
  ke_di : dirs x' = dirs x;
  ke_mem : mem x = [] → mem x' = []
}.

Lemma keeps_refl x : mounted x → keeps x [] x.
Proof. intros. by split. Qed.

Lemma keeps_trans x x1 x2 W1 W2 : keeps x W1 x1 → keeps x1 W2 x2 → keeps x (W1 ++ W2) x2.
Proof.
  intros [? ? M1 [F1 F1']] [? ? M2 [F2 F2']]. split; try congruence.
  - intros t Ht Hd. rewrite M2, M1; [done|set_solver|done|set_solver|by rewrite F1'].
  - split; congruence.
  - auto.
Qed.

Lemma keeps_weaken x x' W W' : keeps x W x' → W ⊆ W' → keeps x W' x'.
Proof. intros [? ? M1] HW. split; try done. intros t Ht. apply M1. set_solver. Qed.

Lemma mounted_store x : mounted x → st_inv (store x).
Proof. intros [_ _ _ (f & file & a & ino & _ & _ & _ & [] & _)]. done. Qed.

Lemma byte_cnt_eq n : 0 <= n < 2 ^ 31 → byte_cnt n = 4 * ((n + 31) / 32) ∧ byte_cnt n < 2 ^ 29.
Proof.
  intros Hn. unfold byte_cnt. rewrite elem_cnt_eq by done.
  pose proof (Z.div_pos (n + 31) 32). pose proof (Z.div_lt_upper_bound (n + 31) 32 (2 ^ 26 + 1)).
  rewrite u32_small by lia. lia.
Qed.

Lemma bits_bytes_length x :
  mounted x → length (take (Z.to_nat (byte_cnt (bit_cnt (free_map x)))) (bytes_of (bits (free_map x)))) =
              Z.to_nat (byte_cnt (bit_cnt (free_map x))).
Proof.
  intros Hm. destruct (mo_wf x Hm) as [Hc Hl _]. destruct (byte_cnt_eq _ Hc) as [E _].
  rewrite elem_cnt_eq in Hl by done. rewrite length_take, bytes_of_length, E.
  apply Nat.min_l. lia.
Qed.

(** Everything the state says besides the bitmap itself. *)
Record same_but_map x x' : Prop := {
  sm_store : store x' = store x;
  sm_file : free_map_file x' = free_map_file x;
  sm_in : inodes x' = inodes x;
  sm_op : open_inodes x' = open_inodes x;
  sm_fi : files x' = files x;
  sm_di : dirs x' = dirs x;
  sm_mem : mem x' = mem x
}.

Section calls.
Context (w : option addr → list Z → Z → Z → cmd Z).
Let F := inode_write_body w.

(** Writing the bitmap [b'] to the free map's file, from a state [x] that is
    mounted up to its in-memory bitmap and lock. *)
Lemma bitmap_write_run x0 x b' :
  mounted x0 → same_but_map x0 x → mem x = [] →
  wf b' → bit_cnt b' = bit_cnt (free_map x0) →
  ∃ m' x', bitmap_write F b' (free_map_file x) x = Ret (true, x') ∧ steps_to x m' x'
    ∧ (∀ t, t ∉ fm_data x0 → m' t = sectors_of x0 t)
    ∧ inode_at m' FREE_MAP_SECTOR = fm_inode x0
    ∧ file_bytes m' FREE_MAP_SECTOR = take (Z.to_nat (byte_cnt (bit_cnt b'))) (bytes_of (bits b'))
    ∧ file_ok m' (dev_size x0) FREE_MAP_SECTOR (nblocks (dlength (fm_inode x0))).
Proof.
  intros Hmo Hs Hmem Hw Hc. destruct (mo_file x0 Hmo) as (f & file & a & ino & Ef & Efi & Eino & Hg & Es & Ed).
  pose proof (mo_len x0 Hmo) as Hlen. destruct Hs as [S1 S2 S3 S4 S5 S6 S7].
  assert (Hg' : good_inode x a ino).
  { destruct Hg. split; unfold sectors_of, dev_size in *; rewrite ?S1; try done. by rewrite S3. }
  destruct (byte_cnt_eq _ (wf_cnt _ Hw)) as [Hb1 Hb2].
  assert (Hbuf : length (take (Z.to_nat (byte_cnt (bit_cnt b'))) (bytes_of (bits b'))) =
                 Z.to_nat (byte_cnt (bit_cnt b'))).
  { destruct Hw as [Hwc Hl _]. rewrite elem_cnt_eq in Hl by done.
    rewrite length_take, bytes_of_length. apply Nat.min_l. lia. }
  assert (Hpos : 0 <= byte_cnt (bit_cnt b')) by (rewrite Hb1; pose proof (Z.div_pos (bit_cnt b' + 31) 32); pose proof (wf_cnt _ Hw); lia).
  unfold bitmap_write, file_write_at. rewrite s32_small by lia.
  rewrite bind_assoc, S2, Ef, (deref_bind files f file) by (by rewrite S5). rewrite Eino.
  assert (Em : sectors_of x = sectors_of x0) by (unfold sectors_of; by rewrite S1).
  assert (Ez : dev_size x = dev_size x0) by (unfold dev_size; by rewrite S1).
  destruct (write_in_place w x a ino (take (Z.to_nat (byte_cnt (bit_cnt b'))) (bytes_of (bits b')))
    (byte_cnt (bit_cnt b')) 0 Hg' Hmem Ed) as (m' & x' & R & S' & K & E1 & B & O);
    [lia|rewrite Hbuf; lia| |].
  { rewrite Em, Es. fold (fm_inode x0). rewrite Hlen, Hc. lia. }
  rewrite Em, Es in *. fold (fm_inode x0) in *. rewrite Ez in O.
  exists m', x'. fold F in R. rewrite (bind_Ret _ _ _ _ _ R), ret_run, Z.eqb_refl.
  split_and!; try done. rewrite B. unfold splice. rewrite drop_ge, app_nil_r; [done|].
  rewrite Hbuf. unfold file_bytes. fold (fm_inode x0). rewrite length_take, Hlen, Hc. simpl. lia.
Qed.

(** The state after the map was changed to [b'] and written. *)
Lemma mounted_after x0 x1 :
  mounted x0 → st_inv (store x1) → dev_size x1 = dev_size x0 →
  (∀ t, t ∉ fm_data x0 → sectors_of x1 t = sectors_of x0 t) →
  wf (free_map x1) → bit_cnt (free_map x1) = bit_cnt (free_map x0) → free_map_lock x1 = false →
  (∀ t, t ∈ fm_all x0 → used x1 t) →
  free_map_file x1 = free_map_file x0 → inodes x1 = inodes x0 → open_inodes x1 = open_inodes x0 →
  files x1 = files x0 → dirs x1 = dirs x0 → mem x1 = [] →
  keeps x0 [] x1.
Proof.
  intros Hmo Hi Hz K Hw Hc Hl Hu Ff Fi Fo Ffi Fd Fm.
  destruct (mo_file x0 Hmo) as (f & file & a & ino & Ef & Efi & Eino & Hg & Es & Ed).
  pose proof (gi_file _ _ _ Hg) as G4. rewrite Es in G4. fold (fm_inode x0) in G4.
  destruct (layout_data _ (sectors_of x1) _ _ _ G4) as (E1 & E2 & E3 & O);
    [intros t; apply sectors_length, Hg|done|].
  fold (fm_inode x0) in E1, E2, E3. fold (fm_inode x1) in E1.
  assert (Ed1 : fm_data x1 = fm_data x0) by (unfold fm_data; by rewrite E1, E3).
  assert (Ea1 : fm_all x1 = fm_all x0) by (unfold fm_all; by rewrite Ed1, E1, E2).
  split; try done. split; try done.
  - rewrite Hc, Hz. apply Hmo.
  - exists f, file, a, ino. split_and!; try congruence.
    apply (good_inode_data x0); [done|done|by rewrite Fi; apply Hg|done|].
    by rewrite Es.
  - rewrite E1, Hc. apply Hmo.
  - rewrite Ea1. apply Forall_forall. done.
  - intros t _. apply K.
Qed.

(** Both [free_map_allocate] and [free_map_release] change the bitmap and
    write it back while they hold the lock. *)
Lemma update_map_run x b' :
  mounted x → mem x = [] → wf b' → bit_cnt b' = bit_cnt (free_map x) →
  (∀ t, t ∈ fm_all x → bit b' t = true) →
  ∃ x2, bitmap_write F b' (free_map_file x) (set_free_map b' (set_fm_lock true x)) = Ret (true, x2)
    ∧ keeps x [] (set_fm_lock false x2) ∧ free_map x2 = b' ∧ free_map_lock x2 = true
    ∧ file_bytes (sectors_of x2) FREE_MAP_SECTOR = take (Z.to_nat (byte_cnt (bit_cnt b'))) (bytes_of (bits b')).
Proof.
  intros Hmo Hmem Hw Hc Hu.
  destruct (bitmap_write_run x (set_free_map b' (set_fm_lock true x)) b') as (m' & x2 & R & S' & K & E1 & B & _);
    [done|by split|done|done|done|].
  exists x2. destruct S' as [T1 T2 T3 T4 T5 T6 T7 T8 T9 T10 T11]. simpl in *.
  split_and!; [done| |done|done|].
  - apply mounted_after; simpl; try done.
    + intros t Ht. change (sectors_of (set_fm_lock false x2) t) with (sectors_of x2 t). by rewrite T3, K.
    + by rewrite T4.
    + by rewrite T4.
    + intros t Ht. unfold used. simpl. rewrite T4. by apply Hu.
    + by apply T11.
  - rewrite <- B. by apply file_bytes_ext.
Qed.

Lemma fm_all_range x t : mounted x → t ∈ fm_all x → 0 <= t < dev_size x.
Proof.
  intros Hmo Ht. destruct (mo_file x Hmo) as (f & file & a & ino & _ & _ & _ & Hg & Es & _).
  pose proof (fo_range _ _ _ _ (gi_file _ _ _ Hg)) as Hr. rewrite Es in Hr.
  rewrite Forall_forall in Hr. by apply Hr.
Qed.

Lemma fm_acquire_bind {B} (k : unit → cmd B) x :
  free_map_lock x = false → (fm_acquire ≫= k) x = k tt (set_fm_lock true x).
Proof. intros E. unfold fm_acquire, mbind, cmd_bind, gets, lift_res. by rewrite E. Qed.

Lemma fm_release_bind {B} (k : unit → cmd B) x :
  free_map_lock x = true → (fm_release ≫= k) x = k tt (set_fm_lock false x).
Proof. intros E. unfold fm_release, mbind, cmd_bind, gets, lift_res. by rewrite E. Qed.

Lemma fm_release_run x : free_map_lock x = true → fm_release x = Ret (tt, set_fm_lock false x).
Proof. intros E. unfold fm_release, mbind, cmd_bind, gets, lift_res. by rewrite E. Qed.

Lemma mounted_file x : mounted x → isnull (free_map_file x) = false.
Proof. intros [_ _ _ (f & ? & ? & ? & -> & _)]. done. Qed.

Lemma free_map_allocate_run x cnt :
  mounted x → mem x = [] → 0 < cnt < 2 ^ 32 →
  (∃ r x', free_map_allocate F cnt x = Ret (Some r, x') ∧ keeps x [] x'
     ∧ 0 <= r ∧ r + cnt <= dev_size x
     ∧ (∀ t, r <= t < r + cnt → ¬ used x t)
     ∧ (∀ t, 0 <= t → used x' t ↔ used x t ∨ r <= t < r + cnt)
     ∧ file_bytes (sectors_of x') FREE_MAP_SECTOR =
         take (Z.to_nat (byte_cnt (dev_size x))) (bytes_of (bits (free_map x')))) ∨
  (free_map_allocate F cnt x = Ret (None, x) ∧
   ∀ r, 0 <= r → r + cnt <= dev_size x → ¬ (∀ t, r <= t < r + cnt → ¬ used x t)).
Proof.
  intros Hmo Hmem Hcnt. pose proof (mo_wf x Hmo) as Hw. pose proof (mo_cnt x Hmo) as Hcn.
  unfold free_map_allocate. rewrite fm_acquire_bind by apply Hmo. rewrite gets_bind. simpl free_map.
  destruct (bitmap_scan_and_flip_bits (free_map x) 0 cnt false) as (r & b' & E & W & C & Hcase);
    [done|pose proof (wf_cnt _ Hw); lia|lia|].
  rewrite E, lift_bind. cbv beta iota. rewrite modify_bind, gets_bind. simpl free_map_file.
  rewrite (mounted_file x Hmo), orb_false_r.
  destruct Hcase as [(-> & -> & Hno)|(Hne & (G1 & G2 & G3) & _ & HR & HK)].
  - right. rewrite Z.eqb_refl. rewrite ret_bind, fm_release_bind by done. split.
    + rewrite ret_run. pose proof (mo_lock x Hmo). by destruct x; simpl in *; subst.
    + intros r Hr1 Hr2 Hall. apply (Hno r). split_and!; [lia|lia|]. intros j Hj.
      apply not_true_is_false. by apply Hall.
  - left. rewrite (proj2 (Z.eqb_neq r BITMAP_ERROR)) by done.
    destruct (update_map_run x b') as (x2 & R & Kp & Efm & El & B); [done|done|done|done| |].
    { intros t Ht. pose proof (fm_all_range x t Hmo Ht).
      destruct (decide (r <= t < r + cnt)); [by rewrite HR by lia|].
      rewrite HK by lia. pose proof (mo_used x Hmo) as Hu. rewrite Forall_forall in Hu. by apply Hu. }
    rewrite bind_assoc, gets_bind. simpl free_map. rewrite bind_assoc, (bind_Ret _ _ _ _ _ R).
    cbv beta iota. rewrite ret_bind, fm_release_bind by done. rewrite ret_run.
    rewrite (proj2 (Z.eqb_neq r BITMAP_ERROR)) by done.
    exists r, (set_fm_lock false x2). split_and!; try done; try lia.
    + intros t Ht Hu. unfold used in Hu. rewrite G3 in Hu by lia. done.
    + intros t Ht. unfold used. simpl. rewrite Efm. destruct (decide (r <= t < r + cnt)).
      * rewrite HR by lia. split; [by right|done].
      * rewrite HK by lia. split; [by left|]. intros [?|?]; [done|lia].
    + change (sectors_of (set_fm_lock false x2)) with (sectors_of x2). simpl.
      rewrite B, Efm, C, Hcn. done.
Qed.

Lemma free_map_release_run x r cnt :
  mounted x → mem x = [] → 0 <= r → 0 <= cnt → r + cnt <= dev_size x →
  (∀ t, r <= t < r + cnt → used x t ∧ t ∉ fm_all x) →
  ∃ x', free_map_release F r cnt x = Ret (tt, x') ∧ keeps x [] x'
    ∧ (∀ t, 0 <= t → used x' t ↔ used x t ∧ ¬ (r <= t < r + cnt))
    ∧ file_bytes (sectors_of x') FREE_MAP_SECTOR =
        take (Z.to_nat (byte_cnt (dev_size x))) (bytes_of (bits (free_map x'))).
Proof.
  intros Hmo Hmem Hr Hcnt Hle Hu. pose proof (mo_wf x Hmo) as Hw. pose proof (mo_cnt x Hmo) as Hcn.
  unfold free_map_release. rewrite fm_acquire_bind by apply Hmo. rewrite gets_bind. simpl free_map.
  destruct (bitmap_all_bits (free_map x) r cnt) as (c & -> & Hc); [done|lia..|].
  assert (c = true) as -> by (apply Hc; intros j Hj; apply Hu; lia).
  rewrite lift_bind, ASSERT_bind by done.
  destruct (bitmap_set_multiple_bits (free_map x) r cnt false) as (b' & -> & W & C & HR & HK); [done|lia..|].
  rewrite lift_bind, modify_bind, gets_bind. simpl free_map_file.
  destruct (update_map_run x b') as (x2 & R & Kp & Efm & El & B); [done|done|done|done| |].
  { intros t Ht. pose proof (fm_all_range x t Hmo Ht).
    rewrite HK; [|lia|by intros Hin; apply (Hu t Hin)].
    pose proof (mo_used x Hmo) as Huu. rewrite Forall_forall in Huu. by apply Huu. }
  rewrite (bind_Ret _ _ _ _ _ R), fm_release_run by done.
  exists (set_fm_lock false x2). split_and!; try done.
  - intros t Ht. unfold used. simpl. rewrite Efm. destruct (decide (r <= t < r + cnt)).
    + rewrite HR by lia. split; [done|]. intros [_ ?]. lia.
    + rewrite HK by lia. split; [done|]. by intros [? _].
  - change (sectors_of (set_fm_lock false x2)) with (sectors_of x2). simpl.
    rewrite B, Efm, C, Hcn. done.
Qed.

(** [new] are sectors that were free in [x0] and are in use in [x], and
    nothing else changed in the map. *)
Record taken x0 (new : list Z) x : Prop := {
  ta_keeps : keeps x0 [] x;
  ta_nodup : NoDup new;
  ta_fresh : Forall (λ t, 0 <= t < dev_size x0 ∧ ¬ used x0 t) new;
  ta_used : ∀ t, 0 <= t → used x t ↔ used x0 t ∨ t ∈ new
}.

Lemma fresh_not_fm x0 t : mounted x0 → ¬ used x0 t → t ∉ fm_all x0.
Proof.
  intros Hmo Hu Hin. apply Hu. pose proof (mo_used x0 Hmo) as Hall. rewrite Forall_forall in Hall.
  by apply Hall.
Qed.

Lemma taken_refl x : mounted x → taken x [] x.
Proof. intros Hmo. split; [by apply keeps_refl|apply NoDup_nil_2|apply Forall_nil_2|]. set_solver. Qed.

Lemma release_loop_run x0 : mounted x0 → ∀ new i arr x,
  taken x0 new x → mem x = [] →
  (∀ k t, new !! k = Some t → arr !! (Z.to_nat i + k)%nat = Some t) → 0 <= i →
  ∃ x', release_loop F (length new) i arr x = Ret (tt, x') ∧ taken x0 [] x' ∧ mem x' = [].
Proof.
  intros Hmo. induction new as [|s new IH]; intros i arr x Ht Hmem Harr Hi; [by exists x|].
  cbn [release_loop length]. destruct (Ht) as [Kp Hnd Hfr Hu].
  apply Forall_cons in Hfr as [[Hs1 Hs2] Hfr]. apply NoDup_cons in Hnd as [Hnin Hnd].
  erewrite bind_Ret by (apply at_index_run; [done|]; rewrite <- (Nat.add_0_r (Z.to_nat i)); by apply Harr).
  destruct (free_map_release_run x s 1) as (x1 & R1 & K1 & U1 & _); [apply Kp|done|lia|lia| | |].
  { rewrite (ke_size _ _ _ Kp). lia. }
  { intros t Ht1. replace t with s by lia. split.
    - apply Hu; [lia|]. right. set_solver.
    - rewrite (proj1 (ke_fm _ _ _ Kp)). by apply fresh_not_fm. }
  rewrite (bind_Ret _ _ _ _ _ R1). apply IH.
  - split; [|done|done|].
    + pose proof (keeps_trans _ _ _ _ _ Kp K1) as K01. by eapply keeps_weaken.
    + intros t Ht0. rewrite U1, Hu by done. rewrite elem_of_cons. split.
      * intros [[?|[->|?]] Hn]; [by left|lia|by right].
      * intros [Hut|Hin]; (split; [auto|]); intros Hts; assert (t = s) by lia; subst; done.
  - by apply (ke_mem _ _ _ K1).
  - intros k t Hk. specialize (Harr (S k) t Hk). rewrite <- Harr. f_equal. lia.
  - lia.
Qed.

(** What [free_map_allocate_array] leaves in an array of [n] entries. *)
Definition array_result x0 (n upto : Z) (r : bool * list Z) x : Prop :=
  mem x = [] ∧ length (snd r) = Z.to_nat n ∧
  if fst r then ∃ new, taken x0 new x ∧ Z.of_nat (length new) = Z.min n upto
    ∧ snd r = new ++ replicate (Z.to_nat n - length new) 0
  else taken x0 [] x.

Lemma allocate_loop_run x0 upto : mounted x0 → 0 <= upto → ∀ n i arr new x,
  taken x0 new x → mem x = [] → 0 <= i → Z.of_nat (length new) = Z.min i upto →
  take (Z.to_nat i) arr = new ++ replicate (Z.to_nat i - length new) 0 →
  length arr = (Z.to_nat i + n)%nat →
  ∃ r x', allocate_loop F n i upto arr x = Ret (r, x') ∧ array_result x0 (i + Z.of_nat n) upto r x'.
Proof.
  intros Hmo Hup. induction n as [|n IH]; intros i arr new x Ht Hmem Hi Hnew Harr Hlen; cbn [allocate_loop].
  { exists (true, arr), x. split; [done|]. split; [done|]. split; [simpl; lia|]. exists new. rewrite Z.add_0_r.
    split_and!; [done|done|]. rewrite <- Harr. simpl. rewrite take_ge; [done|lia]. }
  assert (Hset : ∀ v, set_index (St := St) arr i v = lift_res (Ret (<[Z.to_nat i := v]> arr))).
  { intros v. unfold set_index. rewrite (proj2 (Z.ltb_ge i 0)), (proj2 (Z.leb_gt _ i)) by lia. done. }
  assert (Htk : ∀ v, take (Z.to_nat (i + 1)) (<[Z.to_nat i := v]> arr) = take (Z.to_nat i) arr ++ [v]).
  { intros v. replace (Z.to_nat (i + 1)) with (S (Z.to_nat i)) by lia.
    rewrite (take_S_r _ _ v) by (apply list_lookup_insert_eq; lia). by rewrite take_insert_ge. }
  replace (i + Z.of_nat (S n)) with (i + 1 + Z.of_nat n) by lia.
  destruct (Z.leb_spec upto i) as [C|C].
  - rewrite Hset, lift_bind. apply (IH _ _ new); try done; try lia.
    + rewrite Htk, Harr, <- app_assoc. f_equal. rewrite <- replicate_S_end. f_equal. lia.
    + rewrite length_insert. lia.
  - destruct (Ht) as [Kp Hnd Hfr Hu].
    assert (Hrep : (Z.to_nat i - length new)%nat = 0%nat) by lia. rewrite Hrep, app_nil_r in Harr.
    destruct (free_map_allocate_run x 1) as [(s & x1 & R1 & K1 & S1 & S2 & S3 & U1 & _)|[R1 _]];
      [apply Kp|done|lia| |]; rewrite (bind_Ret _ _ _ _ _ R1).
    + rewrite Hset, lift_bind. apply (IH _ _ (new ++ [s])).
      * specialize (S3 s ltac:(lia)). rewrite Hu in S3 by lia. split.
        -- pose proof (keeps_trans _ _ _ _ _ Kp K1). by eapply keeps_weaken.
        -- apply NoDup_app. split_and!; [done|set_solver|apply NoDup_singleton].
        -- apply Forall_app. split; [done|]. apply Forall_singleton. rewrite (ke_size _ _ _ Kp) in S2.
           split; [lia|tauto].
        -- intros t Ht0. rewrite U1, Hu by done. rewrite elem_of_app, list_elem_of_singleton.
           split; [|naive_solver lia]. intros [?|?]; [tauto|]. right. right. lia.
      * by apply (ke_mem _ _ _ K1).
      * lia.
      * rewrite length_app. simpl. lia.
      * rewrite Htk, Harr, length_app. simpl.
        replace (Z.to_nat (i + 1) - (length new + 1))%nat with 0%nat by lia. by rewrite app_nil_r.
      * rewrite length_insert. lia.
    + unfold free_map_release_array. replace (Z.to_nat i) with (length new) by lia.
      destruct (release_loop_run x0 Hmo new 0 arr x Ht Hmem) as (x2 & R2 & T2 & M2); [|lia|].
      { intros k t Hk. simpl. rewrite <- Harr in Hk. by apply lookup_take_Some in Hk as [? _]. }
      rewrite (bind_Ret _ _ _ _ _ R2), ret_run. exists (false, arr), x2.
      split; [done|]. split; [done|]. split; [simpl; lia|done].
Qed.

Lemma allocate_array_run x cnt upto arr :
  mounted x → mem x = [] → 0 <= upto → Z.of_nat (length arr) = cnt →
  ∃ r x', free_map_allocate_array F cnt upto arr x = Ret (r, x') ∧ array_result x cnt upto r x'.
Proof.
  intros Hmo Hmem Hup Hlen. unfold free_map_allocate_array.
  destruct (allocate_loop_run x upto Hmo Hup (Z.to_nat cnt) 0 arr [] x) as (r & x' & R & A);
    [by apply taken_refl|done|lia|simpl; lia|done|lia|].
  exists r, x'. split; [done|]. by replace cnt with (0 + Z.of_nat (Z.to_nat cnt)) by lia.
Qed.

(** [new] are sectors taken since [x0], and only they and the free map's data
    were written. *)
Record grown x0 (new : list Z) x : Prop := {
  gr_keeps : keeps x0 new x;
  gr_nodup : NoDup new;
  gr_fresh : Forall (λ t, 0 <= t < dev_size x0 ∧ ¬ used x0 t) new;
  gr_used : ∀ t, 0 <= t → used x t ↔ used x0 t ∨ t ∈ new
}.

Lemma taken_grown x0 new x : taken x0 new x → grown x0 new x.
Proof. intros [K N F' U]. split; try done. eapply keeps_weaken; [done|set_solver]. Qed.

Lemma grown_trans x0 x1 x2 A B : grown x0 A x1 → grown x1 B x2 → grown x0 (A ++ B) x2.
Proof.
  intros [K1 N1 F1 U1] [K2 N2 F2 U2]. rewrite Forall_forall in F1. rewrite Forall_forall in F2.
  rewrite (ke_size _ _ _ K1) in F2.
  assert (HB : ∀ t, t ∈ B → ¬ used x0 t ∧ t ∉ A).
  { intros t Ht. destruct (F2 t Ht) as [Hr Hn]. rewrite U1 in Hn by lia. tauto. }
  split.
  - by eapply keeps_trans.
  - apply NoDup_app. split_and!; [done| |done]. intros t Ha Hb. by apply (HB t Hb).
  - apply Forall_forall. intros t [Ht|Ht]%elem_of_app; [by apply F1|].
    split; [by apply F2|by apply HB].
  - intros t Ht. rewrite U2, U1 by done. rewrite elem_of_app. tauto.
Qed.

Lemma swrite_keeps x t d :
  mounted x → t ∉ fm_all x → 0 <= t < dev_size x → length d = Z.to_nat BLOCK_SECTOR_SIZE →
  ∃ x', swrite t d x = Ret (tt, x') ∧ keeps x [t] x' ∧ free_map x' = free_map x
    ∧ ∀ u, sectors_of x' u = if decide (u = t) then d else sectors_of x u.
Proof.
  intros Hmo Hnt Hr Hd.
  destruct (swrite_run x t d) as (x' & R & S'); [by apply mounted_store|done|done|].
  exists x'. destruct S' as [T1 T2 T3 T4 T5 T6 T7 T8 T9 T10 T11]. split_and!; try done.
  destruct (mo_file x Hmo) as (f & file & a & ino & Ef & Efi & Eino & Hg & Es & Ed).
  assert (Hm : ∀ u, u ≠ t → sectors_of x' u = sectors_of x u).
  { intros u Hu. rewrite T3. unfold upd. by rewrite decide_False. }
  assert (Hall : ∀ u, u ∈ fm_all x → sectors_of x' u = sectors_of x u).
  { intros u Hu. apply Hm. by intros ->. }
  unfold fm_all, fm_data in Hall. rewrite app_comm_cons in Hall.
  destruct (good_inode_frame x x' a ino Hg) as (Hg' & E1 & E2 & E3);
    [done|rewrite T7; apply Hg|done| | |].
  { rewrite Es. intros u Hu. apply Hall. apply elem_of_app. by left. }
  { intros _. apply Hall. set_solver. }
  rewrite Es in E1, E2, E3. fold (fm_inode x) in E1, E2, E3. fold (fm_inode x') in E1.
  assert (Ed1 : fm_data x' = fm_data x) by (unfold fm_data; by rewrite E1, E2).
  assert (Ea1 : fm_all x' = fm_all x) by (unfold fm_all; by rewrite Ed1, E1, E3).
  split; try done.
  - destruct Hmo as [M1 M2 M3 M4 M5 M6]. split.
    + by rewrite T4.
    + by rewrite T4, T2.
    + by rewrite T5.
    + exists f, file, a, ino. split_and!; try done; congruence.
    + by rewrite E1, T4.
    + rewrite Ea1. unfold used in *. by rewrite T4.
  - intros u Hu _. apply Hm. set_solver.
Qed.

Lemma zero_loop_run : ∀ new i arr x,
  mounted x → mem x = [] → Forall (λ t, 0 <= t < dev_size x ∧ t ∉ fm_all x) new →
  (∀ k t, new !! k = Some t → arr !! (Z.to_nat i + k)%nat = Some t) → 0 <= i →
  ∃ x', zero_loop (length new) i arr x = Ret (tt, x') ∧ keeps x new x' ∧ free_map x' = free_map x
    ∧ ∀ u, sectors_of x' u = if decide (u ∈ new) then zero_sector else sectors_of x u.
Proof.
  induction new as [|t new IH]; intros i arr x Hmo Hmem Hall Harr Hi.
  { exists x. split_and!; [done|by apply keeps_refl|done|]. intros u. by rewrite decide_False by set_solver. }
  apply Forall_cons in Hall as [[Hr Hn] Hall]. cbn [zero_loop length].
  erewrite bind_Ret by (apply at_index_run; [done|]; rewrite <- (Nat.add_0_r (Z.to_nat i)); by apply Harr).
  destruct (swrite_keeps x t zero_sector Hmo Hn Hr) as (x1 & R1 & K1 & Fm1 & C1); [done|].
  rewrite (bind_Ret _ _ _ _ _ R1).
  destruct (IH (i + 1) arr x1) as (x2 & R2 & K2 & Fm2 & C2).
  - apply K1.
  - by apply (ke_mem _ _ _ K1).
  - by rewrite (ke_size _ _ _ K1), (proj1 (ke_fm _ _ _ K1)).
  - intros k u Hk. specialize (Harr (S k) u Hk). rewrite <- Harr. f_equal. lia.
  - lia.
  - exists x2. split_and!; [done|by apply (keeps_trans _ _ _ [t] new K1 K2)|congruence|].
    intros u. rewrite C2, C1. destruct (decide (u ∈ new)); [by rewrite decide_True by set_solver|].
    destruct (decide (u = t)); [by rewrite decide_True by set_solver|].
    by rewrite decide_False by set_solver.
Qed.

(** Zeroing the sectors just taken. *)
Lemma zero_taken x0 new x (rest : list Z) :
  mounted x0 → taken x0 new x → mem x = [] →
  ∃ x', zero_out (Z.of_nat (length new)) (new ++ rest) x = Ret (tt, x') ∧ grown x0 new x' ∧ mem x' = []
    ∧ ∀ u, u ∈ new → sectors_of x' u = zero_sector.
Proof.
  intros Hmo [K N Fr U] Hmem. unfold zero_out. rewrite Nat2Z.id.
  destruct (zero_loop_run new 0 (new ++ rest) x) as (x' & R & K' & Fm & C); [apply K|done| | |lia|].
  - rewrite (ke_size _ _ _ K), (proj1 (ke_fm _ _ _ K)). eapply Forall_impl; [exact Fr|].
    simpl. intros t [Ht Hu]. split; [done|]. by apply fresh_not_fm.
  - intros k t Hk. simpl. by apply lookup_app_l_Some.
  - exists x'. split_and!; [done| |by apply (ke_mem _ _ _ K')|].
    + split; [by apply (keeps_trans _ _ _ [] new K K')|done|done|].
      intros t Ht. unfold used at 1. rewrite Fm. by apply U.
    + intros u Hu. by rewrite C, decide_True.
Qed.

(** An array of [n] sectors allocated and zeroed, or nothing taken. *)
Lemma allocate_zero_run x (n upto : Z) arr :
  mounted x → mem x = [] → 0 <= upto <= n → Z.of_nat (length arr) = n →
  ∃ ok arr' x', free_map_allocate_array F n upto arr x = Ret ((ok, arr'), x') ∧
    if ok : bool then
      ∃ new x'', arr' = new ++ replicate (Z.to_nat n - length new) 0 ∧ Z.of_nat (length new) = upto
        ∧ zero_out upto arr' x' = Ret (tt, x'') ∧ grown x new x'' ∧ mem x'' = []
        ∧ ∀ u, u ∈ new → sectors_of x'' u = zero_sector
    else taken x [] x' ∧ mem x' = [] ∧ length arr' = Z.to_nat n.
Proof.
  intros Hmo Hmem Hup Hlen.
  destruct (allocate_array_run x n upto arr Hmo Hmem ltac:(lia) Hlen) as ([ok arr'] & x' & R & Hm & Hla & Hr).
  exists ok, arr', x'. split; [done|]. destruct ok; simpl in Hr; [|done].
  destruct Hr as (new & Ht & Hl & ->). rewrite Z.min_r in Hl by lia.
  destruct (zero_taken x new x' (replicate (Z.to_nat n - length new) 0) Hmo Ht Hm) as (x'' & R' & G & M & C).
  rewrite Hl in R'. by exists new, x''.
Qed.

Lemma allocate_direct_run x sectors d :
  mounted x → mem x = [] → 0 < sectors → length (direct d) = 12%nat →
  ∃ n d' x', allocate_direct_blocks F sectors d x = Ret ((n, d'), x') ∧ mem x' = [] ∧
    ((n = 0 ∧ taken x [] x') ∨
     (n = Z.min sectors 12 ∧ ∃ new, Z.of_nat (length new) = n ∧ grown x new x'
        ∧ d' = with_direct (new ++ replicate (12 - length new) 0) d
        ∧ ∀ u, u ∈ new → sectors_of x' u = zero_sector)).
Proof.
  intros Hmo Hmem Hs Hd. unfold allocate_direct_blocks.
  assert (Hgen : ∀ upto, 0 < upto <= 12 → 
    ∃ n d' x', (('(ok, a) ← free_map_allocate_array F 12 upto (direct d);
      if (ok : bool) then zero_out upto a;; mret (upto, with_direct a d) else mret (0, with_direct a d)) x = Ret ((n, d'), x'))
      ∧ mem x' = [] ∧ ((n = 0 ∧ taken x [] x') ∨ (n = upto ∧ ∃ new, Z.of_nat (length new) = n ∧ grown x new x'
        ∧ d' = with_direct (new ++ replicate (12 - length new) 0) d
        ∧ ∀ u, u ∈ new → sectors_of x' u = zero_sector))).
  { intros upto Hup. destruct (allocate_zero_run x 12 upto (direct d)) as (ok & arr' & x' & R & Hr);
      [done|done|lia|by rewrite Hd|]. rewrite (bind_Ret _ _ _ _ _ R). destruct ok.
    - destruct Hr as (new & x'' & -> & Hl & R' & G & M & C). cbv beta iota. rewrite (bind_Ret _ _ _ _ _ R').
      eexists _, _, x''. split; [done|]. split; [done|]. right. split; [done|]. by exists new.
    - destruct Hr as (T & M & _). cbv beta iota. eexists _, _, x'. split; [done|]. split; [done|]. by left. }
  destruct (Z.ltb_spec sectors 12).
  - rewrite Z.min_l by lia. apply Hgen. lia.
  - rewrite Z.min_r by lia. apply Hgen. lia.
Qed.

Lemma allocate_indirect_run x sectors d :
  mounted x → mem x = [] → 0 < sectors → dev_size x < 2 ^ 32 →
  ∃ n d' x' new, allocate_indirect_blocks F sectors d x = Ret ((n, d'), x') ∧ mem x' = [] ∧ grown x new x' ∧
    (n = 0 ∨
     (n = Z.min sectors 128 ∧ ∃ s blocks, new = s :: blocks ∧ Z.of_nat (length blocks) = n
        ∧ d' = with_indirect s d ∧ sectors_of x' s = bytes_of (blocks ++ replicate (128 - length blocks) 0)
        ∧ ∀ u, u ∈ blocks → sectors_of x' u = zero_sector)).
Proof.
  intros Hmo Hmem Hs Hdev. unfold allocate_indirect_blocks.
  destruct (free_map_allocate_run x 1) as [(s & x1 & R1 & K1 & S1 & S2 & S3 & U1 & _)|[R1 _]];
    [done|done|lia| |]; rewrite (bind_Ret _ _ _ _ _ R1).
  2:{ eexists _, _, x, []. split; [done|]. split; [done|].
      split; [by apply taken_grown, taken_refl|by left]. }
  pose proof (ke_mounted _ _ _ K1) as Hmo1. pose proof (ke_mem _ _ _ K1 Hmem) as Hmem1.
  assert (G1 : grown x [s] x1).
  { split; [eapply keeps_weaken; [done|set_solver]|apply NoDup_singleton| |].
    - apply Forall_singleton. split; [lia|apply S3; lia].
    - intros t Ht. rewrite U1 by done. rewrite list_elem_of_singleton. split; intros [?|?]; (by left) || (right; lia). }
  assert (Hus : used x1 s) by (apply U1; [lia|right; lia]).
  assert (Hs_fm : s ∉ fm_all x1).
  { rewrite (proj1 (ke_fm _ _ _ K1)). apply fresh_not_fm; [done|apply S3; lia]. }
  (* the last step: the index block is written *)
  assert (Hlast : ∀ (blocks : list Z) (n : Z) x2 B, grown x1 blocks x2 → mem x2 = [] → length B = 128%nat →
    (∀ u, u ∈ blocks → sectors_of x2 u = zero_sector) →
    ∃ x3, (swrite s (bytes_of B);; mret (n, with_indirect s d)) x2 = Ret ((n, with_indirect s d), x3)
      ∧ mem x3 = [] ∧ grown x (s :: blocks) x3 ∧ sectors_of x3 s = bytes_of B
      ∧ ∀ u, u ∈ blocks → sectors_of x3 u = zero_sector).
  { intros blocks n x2 B G2 Hm2 Hlen Hz.
    pose proof (gr_keeps _ _ _ G2) as K2. pose proof (gr_fresh _ _ _ G2) as F2. rewrite Forall_forall in F2.
    destruct (swrite_keeps x2 s (bytes_of B)) as (x3 & R3 & K3 & Fm3 & C3);
      [apply K2|by rewrite (proj1 (ke_fm _ _ _ K2))|rewrite (ke_size _ _ _ K2), (ke_size _ _ _ K1); lia| |].
    { rewrite bytes_of_length, Hlen. done. }
    exists x3. rewrite (bind_Ret _ _ _ _ _ R3). split_and!; [done|by apply (ke_mem _ _ _ K3)| | |].
    - pose proof (grown_trans _ _ _ _ _ G1 G2) as [K02 N02 F02 U02]. split; try done.
      + eapply keeps_weaken; [eapply keeps_trans; [exact K02|exact K3]|]. set_solver.
      + intros t Ht. unfold used at 1. rewrite Fm3. by apply U02.
    - by rewrite C3, decide_True.
    - intros u Hu. rewrite C3, decide_False; [by apply Hz|]. intros ->. by apply (F2 s Hu). }
  assert (Hgen : ∀ upto, 0 < upto <= 128 → ∃ n x' new,
    (('(allocated, buffer) ← ('(ok, a) ← free_map_allocate_array F 128 upto (replicate 128 0);
        if (ok : bool) then zero_out upto a;; mret (upto, a) else mret (0, a));
      swrite s (bytes_of buffer);; mret (allocated, with_indirect s d)) x1 = Ret ((n, with_indirect s d), x'))
    ∧ mem x' = [] ∧ grown x new x' ∧
    (n = 0 ∨ (n = upto ∧ ∃ blocks, new = s :: blocks ∧ Z.of_nat (length blocks) = n
        ∧ sectors_of x' s = bytes_of (blocks ++ replicate (128 - length blocks) 0)
        ∧ ∀ u, u ∈ blocks → sectors_of x' u = zero_sector))).
  { intros upto Hup. destruct (allocate_zero_run x1 128 upto (replicate 128 0)) as (ok & arr' & x2 & R2 & Hr);
      [done|done|lia|by rewrite length_replicate|].
    rewrite bind_assoc, (bind_Ret _ _ _ _ _ R2). destruct ok.
    - destruct Hr as (new & x3 & -> & Hl & R' & G & M & C).
      cbv beta iota. rewrite bind_assoc, (bind_Ret _ _ _ _ _ R'), ret_bind. cbv beta iota.
      destruct (Hlast new upto x3 (new ++ replicate (128 - length new) 0) G M) as (x4 & E4 & M4 & G4 & C4 & Z4);
        [rewrite length_app, length_replicate; lia|done|].
      exists upto, x4, (s :: new). split_and!; [done|done|done|]. right. split; [done|]. by exists new.
    - destruct Hr as (T & M & Hla). cbv beta iota. rewrite ret_bind. cbv beta iota.
      destruct (Hlast [] 0 x2 arr' (taken_grown _ _ _ T) M ltac:(lia)) as (x4 & -> & M4 & G4 & _); [set_solver|].
      exists 0, x4, [s]. split_and!; [done|done|done|by left]. }
  cbv zeta. destruct (Z.ltb_spec sectors 128).
  - rewrite Z.min_l by lia. destruct (Hgen sectors ltac:(lia)) as (n & x' & new & R & M & G & C).
    exists n, (with_indirect s d), x', new. split_and!; [done|done|done|].
    destruct C as [->|(-> & blocks & -> & L & C & Z0)]; [by left|right]. split; [done|]. by exists s, blocks.
  - rewrite Z.min_r by lia. destruct (Hgen 128 ltac:(lia)) as (n & x' & new & R & M & G & C).
    exists n, (with_indirect s d), x', new. split_and!; [done|done|done|].
    destruct C as [->|(-> & blocks & -> & L & C & Z0)]; [by left|right]. split; [done|]. by exists s, blocks.
Qed.

(** What [allocate_blocks] built for [nb] blocks: the direct sectors [dir] and,
    past twelve, the index sector [ind] with the sectors [more]. *)
Record built x' (nb : Z) (d d' : inode_disk) (new dir more : list Z) (ind : Z) : Prop := {
  bu_dir : Z.of_nat (length dir) = Z.min nb 12;
  bu_more : Z.of_nat (length more) = Z.max 0 (nb - 12);
  bu_new : new = dir ++ (if 12 <? nb then ind :: more else []);
  bu_disk : d' = (if 12 <? nb then with_indirect ind else id)
                   (with_direct (dir ++ replicate (12 - length dir) 0) d);
  bu_index : 12 < nb → sectors_of x' ind = bytes_of (more ++ replicate (128 - length more) 0);
  bu_zero : ∀ u, u ∈ dir ++ more → sectors_of x' u = zero_sector
}.

Lemma allocate_blocks_run x sectors d :
  mounted x → mem x = [] → 0 <= sectors <= 140 → length (direct d) = 12%nat → dev_size x < 2 ^ 32 →
  ∃ ok d' x' new, allocate_blocks F sectors d x = Ret ((ok, d'), x') ∧ mem x' = [] ∧ grown x new x' ∧
    (ok = true → ∃ dir more ind, built x' (Z.max 1 sectors) d d' new dir more ind).
Proof.
  intros Hmo Hmem Hs Hd Hdev. unfold allocate_blocks.
  rewrite (proj2 (Z.ltb_ge (128 * 128) sectors)) by lia.
  set (nb := if 0 <? sectors then sectors else 1).
  assert (Hnb : nb = Z.max 1 sectors) by (unfold nb; destruct (Z.ltb_spec 0 sectors); lia).
  rewrite <- Hnb. clearbody nb.
  destruct (allocate_direct_run x nb d Hmo Hmem ltac:(lia) Hd) as (n & d1 & x1 & R1 & M1 & C1).
  rewrite (bind_Ret _ _ _ _ _ R1). cbv beta iota zeta.
  destruct C1 as [(-> & T1)|(Hn & dir & Hl & G1 & -> & Z1)].
  { cbn [Z.ltb Z.compare andb]. rewrite ret_bind. eexists false, _, x1, []. split; [done|].
    split; [done|]. split; [by apply taken_grown|done]. }
  rewrite (proj2 (Z.ltb_lt 0 n)) by lia. cbv iota. rewrite andb_true_l.
  destruct (Z.lt_ge_cases 12 nb) as [C|C].
  - replace n with 12 in * by lia. rewrite Z.eqb_refl, (proj2 (Z.ltb_lt 0 (nb - 12))) by lia. cbn [andb].
    pose proof (gr_keeps _ _ _ G1) as K1.
    destruct (allocate_indirect_run x1 (nb - 12) (with_direct (dir ++ replicate (12 - length dir) 0) d))
      as (n2 & d2 & x2 & new2 & R2 & M2 & G2 & C2); [apply K1|done|lia|by rewrite (ke_size _ _ _ K1)|].
    rewrite bind_assoc, (bind_Ret _ _ _ _ _ R2). cbv beta iota.
    pose proof (grown_trans _ _ _ _ _ G1 G2) as G12.
    destruct C2 as [->|(-> & ind & more & -> & Hl2 & -> & Ci & Z2)].
    { cbn [Z.ltb Z.compare]. rewrite ret_bind. cbv beta iota. cbn [andb].
      eexists false, _, x2, _. split; [done|]. by split. }
    rewrite (proj2 (Z.ltb_lt 0 (Z.min (nb - 12) 128))) by lia. rewrite ret_bind. cbv beta iota.
    rewrite (proj2 (Z.ltb_ge 0 (nb - 12 - Z.min (nb - 12) 128))), andb_false_r, ret_run by lia.
    eexists true, _, x2, _. split; [done|]. split_and!; [done|done|]. intros _. exists dir, more, ind.
    rewrite Z.min_l in Hl2 by lia.
    split; rewrite ?(proj2 (Z.ltb_lt 12 nb)) by lia; try done; try lia.
    intros u [Hu|Hu]%elem_of_app; [|by apply Z2]. rewrite <- (Z1 u Hu).
    pose proof (gr_fresh _ _ _ G1) as F1. pose proof (gr_fresh _ _ _ G2) as F2.
    rewrite Forall_forall in F1. rewrite Forall_forall in F2. destruct (F1 u Hu) as [Hr Hnu].
    apply (ke_m _ _ _ (gr_keeps _ _ _ G2)).
    + intros Hin. apply (F2 u Hin). apply (gr_used _ _ _ G1); [lia|by right].
    + rewrite (proj2 (ke_fm _ _ _ K1)). intros Hin. apply (fresh_not_fm x u Hmo Hnu).
      unfold fm_all. set_solver.
  - replace n with nb in * by lia. rewrite (proj2 (Z.ltb_ge 0 (nb - nb))), andb_false_r, ret_bind by lia.
    cbv beta iota. rewrite (proj2 (Z.ltb_ge 0 (nb - nb))), andb_false_r, ret_run by lia.
    eexists true, _, x1, dir. split; [done|]. split_and!; [done|done|]. intros _. exists dir, [], 0.
    split; rewrite ?(proj2 (Z.ltb_ge 12 nb)) by lia; try done; try lia.
    + simpl. lia.
    + by rewrite app_nil_r.
    + by rewrite app_nil_r.
Qed.

Lemma nth_app_zeros (l : list Z) n k :
  (k < length l)%nat → nth k (l ++ replicate n 0) 0 = nth k l 0.
Proof. intros Hk. by apply app_nth1. Qed.

Lemma built_layout (m : Z → list Z) nb d dir more :
  1 <= nb <= 140 → Z.of_nat (length dir) = Z.min nb 12 → Z.of_nat (length more) = Z.max 0 (nb - 12) →
  direct d = dir ++ replicate (12 - length dir) 0 → Forall is_u32 more →
  (12 < nb → m (indirect d) = bytes_of (more ++ replicate (128 - length more) 0)) →
  data m d nb = dir ++ more ∧ meta m d nb = if 12 <? nb then [indirect d] else [].
Proof.
  intros Hnb Hd Hm Hdir Hu Hi. split.
  - apply list_eq_same_length with (n := Z.to_nat nb); [rewrite length_app; lia|apply data_length|].
    intros k a b Hk Ha Hb. replace k with (Z.to_nat (Z.of_nat k)) in Ha by lia.
    rewrite data_lookup in Ha by lia. injection Ha as <-. unfold block_of.
    destruct (Z.ltb_spec (Z.of_nat k) 12).
    + rewrite lookup_app_l in Hb by lia. rewrite Hdir, Nat2Z.id, nth_app_zeros by lia.
      by apply nth_lookup_Some.
    + rewrite (proj2 (Z.ltb_lt _ 140)) by lia. rewrite lookup_app_r in Hb by lia.
      rewrite Hi by lia. rewrite words_of_bytes_of by (apply Forall_app_2; [done|by apply Forall_replicate]).
      replace (Z.to_nat (Z.of_nat k - 12)) with (k - length dir)%nat by lia.
      rewrite nth_app_zeros by lia. by apply nth_lookup_Some.
  - unfold meta. rewrite (proj2 (Z.ltb_ge 140 nb)) by lia. by rewrite app_nil_r.
Qed.

Lemma zero_file (l : list Z) (m : Z → list Z) :
  (∀ u, u ∈ l → m u = zero_sector) → l ≫= m = replicate (512 * length l) 0.
Proof.
  induction l as [|u l IH]; intros Hz; [done|]. rewrite bind_cons, Hz, IH by set_solver.
  unfold zero_sector. rewrite <- replicate_add. f_equal. simpl length. unfold BLOCK_SECTOR_SIZE. lia.
Qed.

(** The new file, as the on-disk inode in [sector] describes it. *)
Record created x x' (sector len : Z) (new : list Z) : Prop := {
  cr_len : dlength (inode_at (sectors_of x') sector) = len;
  cr_magic : magic (inode_at (sectors_of x') sector) = INODE_MAGIC;
  cr_file : file_ok (sectors_of x') (dev_size x) sector (nblocks len);
  cr_sectors : meta (sectors_of x') (inode_at (sectors_of x') sector) (nblocks len)
    ++ data (sectors_of x') (inode_at (sectors_of x') sector) (nblocks len) ≡ₚ new;
  cr_bytes : file_bytes (sectors_of x') sector = replicate (Z.to_nat len) 0
}.

Lemma inode_create_run x sector len :
  mounted x → mem x = [] → 0 <= len <= 140 * 512 →
  0 <= sector < dev_size x → used x sector → sector ∉ fm_all x →
  ∃ ok x' new, inode_create F sector len x = Ret (ok, x') ∧ mounted x' ∧ mem x' = []
    ∧ NoDup new ∧ Forall (λ t, 0 <= t < dev_size x ∧ ¬ used x t) new
    ∧ (∀ t, 0 <= t → used x' t ↔ used x t ∨ t ∈ new)
    ∧ keeps x (sector :: new) x'
    ∧ (if ok : bool then created x x' sector len new
       else sectors_of x' sector = sectors_of x sector).
Proof.
  intros Hmo Hmem Hlen Hsr Hsu Hsf. unfold inode_create. rewrite ASSERT_bind by (apply Z.leb_le; lia).
  destruct (malloc_run x (mounted_store x Hmo) Hmem) as (p & x0 & R0 & Q0).
  rewrite (bind_Ret _ _ _ _ _ R0). cbn [isnull].
  assert (Hk0 : keeps x [] x0 ∧ free_map x0 = free_map x ∧ ∀ t, sectors_of x0 t = sectors_of x t).
  { unfold malloc in R0. rewrite Hmem in R0. injection R0 as _ <-. simpl. split_and!; [|done|done].
    split; try done. destruct Hmo as [? ? ? (f & file & a & ino & ? & ? & ? & [] & ? & ?) ? ?].
    split; try done. exists f, file, a, ino. by split_and!. }
  destruct Hk0 as (K0 & Fm0 & C0). pose proof (ke_mounted _ _ _ K0) as Hmo0.
  set (d0 := mk_disk (direct zero_inode) 0 0 len INODE_MAGIC (unused zero_inode)).
  rewrite bytes_to_sectors_div by lia.
  assert (Hdv : dev_size x < 2 ^ 31) by (rewrite <- (mo_cnt x Hmo); apply (wf_cnt _ (mo_wf x Hmo))).
  assert (Hsec : 0 <= (len + 511) / 512 <= 140)
    by (split; [apply Z.div_pos; lia|apply Z.lt_succ_r, Z.div_lt_upper_bound; lia]).
  destruct (allocate_blocks_run x0 ((len + 511) / 512) d0) as (ok & d' & x1 & new & R1 & M1 & G1 & C1);
    [done|by apply (ke_mem _ _ _ K0)|done|done|rewrite (ke_size _ _ _ K0); lia|].
  rewrite (bind_Ret _ _ _ _ _ R1). cbv beta iota.
  assert (G : grown x new x1).
  { destruct G1 as [K N Fr U]. split; try done.
    - apply (keeps_trans _ _ _ [] new K0 K).
    - rewrite (ke_size _ _ _ K0) in Fr. unfold used in *. by rewrite Fm0 in Fr.
    - intros t Ht. rewrite U by done. unfold used. by rewrite Fm0. }
  destruct (G) as [K N Fr U]. pose proof Fr as Fr'. rewrite Forall_forall in Fr'.
  assert (Hns : sector ∉ new) by (intros Hin; by apply (Fr' _ Hin)).
  destruct ok.
  2:{ exists false, x1, new. split_and!; try done.
      - apply K.
      - eapply keeps_weaken; [done|set_solver].
      - apply (ke_m _ _ _ K); [done|]. intros Hin. apply Hsf. unfold fm_all. set_solver. }
  destruct C1 as (dir & more & ind & [B1 B2 B3 B4 B5 B6]); [done|].
  fold (nblocks len) in B1, B2, B3, B4, B5. set (nb := nblocks len) in *.
  assert (Hnb : 1 <= nb <= 140) by (unfold nb, nblocks; lia).
  assert (Hu32 : ∀ t, t ∈ new → is_u32 t) by (intros t Ht; unfold is_u32; pose proof (Fr' t Ht); lia).
  assert (Hdir : direct d' = dir ++ replicate (12 - length dir) 0) by (rewrite B4; by destruct (12 <? nb)).
  assert (Hind : 12 < nb → indirect d' = ind) by (intros C; rewrite B4, (proj2 (Z.ltb_lt 12 nb) C); done).
  assert (Hwf : inode_disk_wf d').
  { assert (Hi : is_u32 (indirect d')).
    { rewrite B4. destruct (12 <? nb) eqn:E; [|done]. simpl. apply Hu32. rewrite B3. set_solver. }
    split; [|done|by rewrite B4; destruct (12 <? nb)|rewrite B4; destruct (12 <? nb); simpl; lia
           |rewrite B4; by destruct (12 <? nb)|rewrite B4; destruct (12 <? nb); by apply zero_inode_wf].
    rewrite Hdir. split; [rewrite length_app, length_replicate; lia|].
    apply Forall_app_2; [|by apply Forall_replicate]. apply Forall_forall. intros t Ht. apply Hu32.
    rewrite B3. set_solver. }
  destruct (swrite_keeps x1 sector (encode_inode d')) as (x2 & R2 & K2 & Fm2 & C2);
    [apply K|by rewrite (proj1 (ke_fm _ _ _ K))|by rewrite (ke_size _ _ _ K)|by apply encode_inode_length|].
  rewrite (bind_Ret _ _ _ _ _ R2), ret_run.
  assert (Hat : inode_at (sectors_of x2) sector = d').
  { unfold inode_at. rewrite C2, decide_True by done. by apply decode_encode_inode. }
  assert (Hnew : ∀ t, t ∈ new → sectors_of x2 t = sectors_of x1 t).
  { intros t Ht. rewrite C2, decide_False; [done|]. by intros ->. }
  destruct (built_layout (sectors_of x2) nb d' dir more Hnb B1 B2 Hdir) as [Hdata Hmeta].
  { apply Forall_forall. intros t Ht. apply Hu32. rewrite B3.
    destruct (Z.ltb_spec 12 nb); [set_solver|]. destruct more; [set_solver|simpl in B2; lia]. }
  { intros C. rewrite (Hind C), Hnew, B5 by (done || (rewrite B3, (proj2 (Z.ltb_lt 12 nb) C); set_solver)). done. }
  assert (Hnil : ¬ 12 < nb → more = []) by (intros; destruct more; [done|simpl in B2; lia]).
  assert (Hperm : meta (sectors_of x2) d' nb ++ data (sectors_of x2) d' nb ≡ₚ new).
  { rewrite Hmeta, Hdata, B3. destruct (Z.ltb_spec 12 nb) as [C|C].
    - rewrite (Hind C). simpl. apply Permutation_middle.
    - rewrite Hnil by lia. done. }
  exists true, x2, new. split_and!; try done.
  - apply K2.
  - by apply (ke_mem _ _ _ K2).
  - intros t Ht. unfold used at 1. rewrite Fm2. by apply U.
  - eapply keeps_weaken; [apply (keeps_trans _ _ _ _ _ K K2)|set_solver].
  - split; rewrite ?Hat; fold nb; try done.
    + rewrite B4. by destruct (12 <? nb).
    + rewrite B4. by destruct (12 <? nb).
    + split; [lia|..]; rewrite Hat, Hperm.
      * apply Forall_cons. split; [done|]. eapply Forall_impl; [exact Fr|]. by intros t [? _].
      * by apply NoDup_cons.
    + assert (Hdl : dlength d' = len) by (rewrite B4; by destruct (12 <? nb)).
      unfold file_bytes, raw_bytes. rewrite Hat, Hdl. fold nb. rewrite Hdata, zero_file.
      * rewrite take_replicate. f_equal. rewrite length_app. pose proof (nblocks_bound len ltac:(lia)). lia.
      * intros u Hu. rewrite Hnew, B6; [done|done|]. rewrite B3.
        destruct (Z.ltb_spec 12 nb); [set_solver|]. rewrite Hnil in Hu by lia. set_solver.
Qed.
End calls.
End alloc.
