(* ===== verification/FsTheorems.v ===== *)
(** * Properties of the inode layer

    The properties of inode.c and free-map.c for every store that satisfies
    [SectorStore], with a small formatted device as the running example. *)
From S2P Require Import Prelude Bitmap Cache FsState Inode InodeSpec FreeMapSpec.
Local Open Scope Z_scope.

(** * A formatted device of 64 sectors *)
Definition ex_disk : block := mk_block BLOCK_FILESYS 64 ∅ 0 0.
Definition ex_unformatted : fs block :=
  mk_fs ex_disk (mk_bitmap 0 []) false None ∅ [] ∅ ∅ 1%positive [].

(** [filesys_init] with formatting, up to the directories; then a file of 600
    bytes is created in a fresh sector and opened. *)
Definition ex_boot : cmd (fs block) (option addr) :=
  inode_init;; free_map_init 64 true (Some [0; 0]);;
  free_map_create;; free_map_close;; free_map_open;;
  s ← free_map_allocate inode_write_at 1;
  match s with
  | None => throw KernelPanic
  | Some s => ok ← inode_create inode_write_at s 600; inode_open s
  end.
Definition ex_fs : fs block :=
  Eval vm_compute in match ex_boot ex_unformatted with Ret (_, x) => x | Err _ => ex_unformatted end.
(** The file opened last. *)
Definition ex_addr : addr := Eval vm_compute in
  match ex_boot ex_unformatted with Ret (Some a, _) => a | _ => 1%positive end.
Definition ex_inode : inode := mk_inode 3 1 false 0.


Lemma block_ok_sectors (b : block) :
  type b ≠ BLOCK_FOREIGN → map_Forall (λ _ d, length d = Z.to_nat BLOCK_SECTOR_SIZE) (sectors b) → block_ok b.
Proof.
  intros Ht Hm. split; [done|]. intros s. unfold dev_read.
  destruct (sectors b !! s) as [d|] eqn:E; [by apply (Hm s)|done].
Qed.

Lemma ex_store_ok : st_inv (store ex_fs).
Proof. apply block_ok_sectors; [done|by_decision]. Qed.

Lemma ex_good : good_inode ex_fs ex_addr ex_inode.
Proof.
  split; [exact ex_store_ok|by vm_compute| | |by_decision|].
  - split; by_decision.
  - split; [split|..]; by_decision.
  - intros E. by vm_compute in E.
Qed.

Lemma ex_mounted : mounted ex_fs.
Proof.
  split; [split| | | | |].
  - split; by_decision.
  - by_decision.
  - by_decision.
  - by_decision.
  - by_decision.
  - exists 6%positive, (mk_file (Some 5%positive) 0 false), 5%positive, (mk_inode 0 1 false 0).
    split_and!; [by vm_compute|by vm_compute|by vm_compute| |by vm_compute|by vm_compute].
    split; [exact ex_store_ok|by vm_compute| | |by_decision|].
    + split; by_decision.
    + split; [split|..]; by_decision.
    + intros E. by vm_compute in E.
  - by_decision.
  - by_decision.
Qed.

Section theorems.
Context {St : Type} `{SectorStore St}.
Implicit Types x : fs St.

(** C24: [inode_read_at] on an open, well-formed file returns exactly the bytes
    of the file from [offset] on, at most [size] of them and never past the
    end of the file, whatever mix of direct, indirect and doubly indirect
    sectors holds them, and it changes no sector. *)
Theorem inode_read_at_correct x a ino size offset :
  good_inode x a ino → mem x = [] → 0 <= offset →
  ∃ x', inode_read_at (Some a) size offset x =
          Ret (take (Z.to_nat size) (drop (Z.to_nat offset) (file_bytes (sectors_of x) (i_sector ino))), x')
    ∧ quiet x x' ∧ good_inode x' a ino.
Proof.
  intros Hg Hmem Ho. destruct (inode_read_good x a ino size offset Hg Hmem Ho) as (x' & R & Q).
  exists x'. split_and!; [exact R|done|].
  apply (good_inode_data x); [done|by apply Q|by rewrite (st_in _ _ _ Q); apply Hg|by apply Q|].
  intros t _. by apply Q.
Qed.

(** A write inside an open file. *)
Lemma inode_write_good x a ino buffer size offset :
  good_inode x a ino → mem x = [] → deny_write_cnt ino = 0 →
  0 <= offset → size = Z.of_nat (length buffer) →
  offset + size <= dlength (inode_at (sectors_of x) (i_sector ino)) →
  ∃ x', inode_write_at (Some a) buffer size offset x = Ret (size, x')
    ∧ file_bytes (sectors_of x') (i_sector ino) =
        splice (Z.to_nat offset) buffer (file_bytes (sectors_of x) (i_sector ino))
    ∧ inode_at (sectors_of x') (i_sector ino) = inode_at (sectors_of x) (i_sector ino)
    ∧ (∀ t, t ∉ data (sectors_of x) (inode_at (sectors_of x) (i_sector ino))
               (nblocks (dlength (inode_at (sectors_of x) (i_sector ino)))) →
         sectors_of x' t = sectors_of x t)
    ∧ good_inode x' a ino ∧ inodes x' = inodes x ∧ free_map x' = free_map x
    ∧ files x' = files x ∧ mem x' = [].
Proof.
  intros Hg Hmem Hd Ho Hs Hl.
  destruct (write_in_place (write_at_depth 2) x a ino buffer size offset Hg Hmem Hd Ho Hs Hl)
    as (m' & x' & R & S' & K & E & B & _).
  assert (K' : ∀ t, t ∉ data (sectors_of x) (inode_at (sectors_of x) (i_sector ino))
     (nblocks (dlength (inode_at (sectors_of x) (i_sector ino)))) → sectors_of x' t = sectors_of x t).
  { intros t Ht. rewrite (st_m _ _ _ S'). by apply K. }
  exists x'. split_and!; [exact R| | |done| |apply S'|apply S'|apply S'|by apply (st_mem _ _ _ S')].
  - rewrite <- B. by apply file_bytes_ext, S'.
  - rewrite <- E. unfold inode_at. by rewrite (st_m _ _ _ S').
  - apply (good_inode_data x); [done|apply S'|by rewrite (st_in _ _ _ S'); apply Hg|apply S'|done].
Qed.

(** [inode_write_at] inside the file returns [size], replaces exactly the
    bytes from [offset] on by the buffer, and leaves the file's length, its
    layout and every sector outside its data unchanged. *)
Theorem inode_write_at_in_place x a ino buffer size offset :
  good_inode x a ino → mem x = [] → deny_write_cnt ino = 0 →
  0 <= offset → size = Z.of_nat (length buffer) →
  offset + size <= dlength (inode_at (sectors_of x) (i_sector ino)) →
  ∃ x', inode_write_at (Some a) buffer size offset x = Ret (size, x')
    ∧ file_bytes (sectors_of x') (i_sector ino) =
        splice (Z.to_nat offset) buffer (file_bytes (sectors_of x) (i_sector ino))
    ∧ inode_at (sectors_of x') (i_sector ino) = inode_at (sectors_of x) (i_sector ino)
    ∧ (∀ t, t ∉ data (sectors_of x) (inode_at (sectors_of x) (i_sector ino))
               (nblocks (dlength (inode_at (sectors_of x) (i_sector ino)))) →
         sectors_of x' t = sectors_of x t)
    ∧ good_inode x' a ino ∧ inodes x' = inodes x ∧ free_map x' = free_map x.
Proof.
  intros Hg Hmem Hd Ho Hs Hl.
  destruct (inode_write_good x a ino buffer size offset Hg Hmem Hd Ho Hs Hl) as (x' & H1 & H2 & H3 & H4 & H5 & H6 & H7 & _).
  exists x'. by split_and!.
Qed.

(** While writes to an inode are denied, [inode_write_at] writes nothing
    and returns 0. *)
Theorem inode_write_at_denied x a ino buffer size offset :
  good_inode x a ino → deny_write_cnt ino ≠ 0 →
  ∃ x', inode_write_at (Some a) buffer size offset x = Ret (0, x') ∧ quiet x x'.
Proof.
  intros [Hi Ha _ Hf _ _] Hd. unfold inode_write_at, WRITE_DEPTH. cbn [write_at_depth].
  unfold inode_write_body. rewrite (deref_bind _ _ ino) by done.
  destruct (sread_run x (i_sector ino) Hi (file_ok_sector _ _ _ _ Hf)) as (x1 & R1 & Q1).
  rewrite (bind_Ret _ _ _ _ _ R1). cbv zeta. rewrite (proj2 (Z.eqb_neq _ 0)) by done. by exists x1.
Qed.

(** [free_map_allocate] takes the sectors of a group that was free, marks
    exactly them, leaves every sector but the free map's own data unchanged,
    and has the free map's file hold the new map; when it fails there was no
    such group and nothing changed. *)
Theorem free_map_allocate_correct x cnt :
  mounted x → mem x = [] → 0 < cnt < 2 ^ 32 →
  ∃ r x', free_map_allocate inode_write_at cnt x = Ret (r, x') ∧
    match r with
    | Some s => keeps x [] x' ∧ 0 <= s ∧ s + cnt <= dev_size x
        ∧ (∀ t, s <= t < s + cnt → ¬ used x t)
        ∧ (∀ t, 0 <= t → used x' t ↔ used x t ∨ s <= t < s + cnt)
        ∧ file_bytes (sectors_of x') FREE_MAP_SECTOR =
            take (Z.to_nat (byte_cnt (dev_size x))) (bytes_of (bits (free_map x')))
    | None => x' = x ∧
        ∀ s, 0 <= s → s + cnt <= dev_size x → ¬ (∀ t, s <= t < s + cnt → ¬ used x t)
    end.
Proof.
  intros Hm Hmem Hc.
  destruct (free_map_allocate_run (write_at_depth 2) x cnt Hm Hmem Hc)
    as [(s & x' & R & Hr)|(R & Hr)].
  - exists (Some s), x'. split; [exact R|]. tauto.
  - exists None, x. split; [exact R|]. done.
Qed.

(** Releasing sectors that were just allocated gives back the set of
    sectors in use before, again with the free map's file in step. *)
Theorem free_map_allocate_release x cnt s x1 :
  mounted x → mem x = [] → 0 < cnt < 2 ^ 32 →
  free_map_allocate inode_write_at cnt x = Ret (Some s, x1) →
  ∃ x2, free_map_release inode_write_at s cnt x1 = Ret (tt, x2) ∧ keeps x [] x2
    ∧ (∀ t, 0 <= t → used x2 t ↔ used x t)
    ∧ file_bytes (sectors_of x2) FREE_MAP_SECTOR =
        take (Z.to_nat (byte_cnt (dev_size x))) (bytes_of (bits (free_map x2))).
Proof.
  intros Hm Hmem Hc Ha.
  destruct (free_map_allocate_run (write_at_depth 2) x cnt Hm Hmem Hc)
    as [(s' & x' & R & K & Hs & Hle & Hf & Hu & _)|(R & _)];
    change (inode_write_body (write_at_depth 2)) with (@inode_write_at St _) in R;
    rewrite R in Ha; [injection Ha as -> ->|done].
  destruct (free_map_release_run (write_at_depth 2) x1 s cnt) as (x2 & R2 & K2 & U2 & B2);
    [apply K|by apply (ke_mem _ _ _ K)|lia|lia|by rewrite (ke_size _ _ _ K)| |].
  { intros t Ht. split; [apply Hu; [lia|by right]|]. rewrite (proj1 (ke_fm _ _ _ K)).
    apply fresh_not_fm; auto. }
  exists x2. split_and!; [exact R2| | |].
  - eapply keeps_weaken; [apply (keeps_trans _ _ _ _ _ K K2)|set_solver].
  - intros t Ht. rewrite U2, Hu by done. split; [|intros Hut; split; [by left|]].
    + intros [[?|?] ?]; [done|lia].
    + intros Hr. by apply (Hf t).
  - by rewrite B2, (ke_size _ _ _ K).
Qed.


(** A write that starts inside the file or at its end and runs past the
    end, within the sectors the file already has, reports all bytes written
    but does not extend the file: the length on disk stays, and the bytes past
    the old end are not part of the file afterwards. *)
Theorem append_not_recorded x a ino buffer size offset :
  good_inode x a ino → mem x = [] → deny_write_cnt ino = 0 →
  size = Z.of_nat (length buffer) →
  0 <= offset <= dlength (inode_at (sectors_of x) (i_sector ino)) →
  dlength (inode_at (sectors_of x) (i_sector ino)) < offset + size →
  offset + size <= 512 * nblocks (dlength (inode_at (sectors_of x) (i_sector ino))) →
  ∃ x', inode_write_at (Some a) buffer size offset x = Ret (size, x')
    ∧ dlength (inode_at (sectors_of x') (i_sector ino)) = dlength (inode_at (sectors_of x) (i_sector ino))
    ∧ file_bytes (sectors_of x') (i_sector ino) =
        take (Z.to_nat offset) (file_bytes (sectors_of x) (i_sector ino)) ++
        take (Z.to_nat (dlength (inode_at (sectors_of x) (i_sector ino)) - offset)) buffer.
Proof.
  intros Hg Hmem Hd Hs Ho Hpast Hroom. pose proof (gi_len _ _ _ Hg) as Hl.
  destruct (write_in_sectors (write_at_depth 2) x a ino buffer size offset Hg Hmem Hd Ho Hs Hroom)
    as (m' & x' & R & S' & _ & E & B & _).
  assert (Hraw : length (raw_bytes (sectors_of x) (i_sector ino)
    (nblocks (dlength (inode_at (sectors_of x) (i_sector ino))))) =
    Z.to_nat (512 * nblocks (dlength (inode_at (sectors_of x) (i_sector ino))))).
  { apply (raw_length ino (sectors_of x) (dev_size x) _ (gi_file _ _ _ Hg)).
    intros t. apply sectors_length, Hg. }
  exists x'. split; [exact R|]. rewrite (file_bytes_ext _ m') by apply S'. unfold file_bytes.
  replace (inode_at (sectors_of x') (i_sector ino)) with (inode_at m' (i_sector ino))
    by (unfold inode_at; by rewrite (st_m _ _ _ S')).
  rewrite E. split; [done|]. cbv zeta. rewrite B. unfold splice.
  set (len := dlength (inode_at (sectors_of x) (i_sector ino))) in *.
  rewrite take_app_ge by (rewrite length_take; lia). rewrite take_take, Nat.min_l by lia. f_equal.
  rewrite length_take, Nat.min_l by lia. rewrite take_app_le by lia. f_equal. lia.
Qed.

(** A write that starts past the end of the file but inside its last
    allocated sector does not reach the file: [byte_to_sector] answers 1 for
    such an offset, so the bytes are written over sector 1, which holds the
    inode of the root directory, and nothing else changes. *)
Theorem write_past_eof_overwrites_root x a ino buffer size offset :
  good_inode x a ino → mem x = [] → deny_write_cnt ino = 0 → ROOT_DIR_SECTOR < dev_size x →
  size = Z.of_nat (length buffer) → 0 < size → offset mod 512 + size <= 512 →
  dlength (inode_at (sectors_of x) (i_sector ino)) < offset →
  offset + size <= 512 * nblocks (dlength (inode_at (sectors_of x) (i_sector ino))) →
  ∃ x', inode_write_at (Some a) buffer size offset x = Ret (size, x')
    ∧ ∀ t, sectors_of x' t =
        if decide (t = ROOT_DIR_SECTOR)
        then splice (Z.to_nat (offset mod 512)) buffer (sectors_of x ROOT_DIR_SECTOR)
        else sectors_of x t.
Proof.
  intros Hg Hmem Hd Hdev Hs Hpos Hfit Hpast Hroom. destruct (Hg) as [Hi Ha Hl Hf _ _].
  destruct (write_body_loop (write_at_depth 2) x a ino buffer size offset Hg Hd) as (x1 & Q1 & E); [lia|lia|lia|].
  change (inode_write_body (write_at_depth 2)) with (@inode_write_at St _) in E. rewrite E.
  destruct (Z.to_nat size) as [|n] eqn:En; [lia|]. cbn [write_loop].
  rewrite (proj2 (Z.leb_gt size 0)) by lia.
  pose proof (open_ok_quiet _ _ _ _ _ _ (good_open _ _ _ Hg) Q1) as (Hi1 & Ha1 & Hd1 & Hm1).
  destruct (byte_to_sector_past x1 a ino offset Hi1 Ha1) as (x2 & R2 & Q2).
  { rewrite Hd1. by eapply file_ok_sector. }
  { unfold inode_at. by rewrite Hm1. }
  rewrite (bind_Ret _ _ _ _ _ R2). unfold BLOCK_SECTOR_SIZE. rewrite !Z.rem_mod_nonneg by lia.
  pose proof (Z.mod_pos_bound offset 512 ltac:(lia)) as Hr.
  set (c0 := if size mod 512 =? 0 then 512 else size).
  assert (Hc0 : c0 = size).
  { unfold c0. destruct (Z.eqb_spec (size mod 512) 0) as [Em|]; [|done].
    apply Z.mod_divide in Em as [q Hq]; lia. }
  rewrite Hc0. rewrite (proj2 (Z.ltb_ge (512 - offset mod 512) size)) by lia.
  pose proof (quiet_trans _ _ _ Q1 Q2) as Q12.
  destruct (bounce_run x2 false) as (x3 & R3 & Q3); [apply Q12|by apply (st_mem _ _ _ Q12)|].
  rewrite (bind_Ret _ _ _ _ _ R3). cbn [negb]. pose proof (quiet_trans _ _ _ Q12 Q3) as Q13.
  assert (Hread : ∃ x4, (if (0 <? offset mod 512) || (size <? 512 - offset mod 512) then sread 1
      else mret zero_sector) x3 = Ret (if (0 <? offset mod 512) || (size <? 512 - offset mod 512)
      then sectors_of x 1 else zero_sector, x4) ∧ quiet x3 x4).
  { destruct (_ || _); [|exists x3; split; [done|apply quiet_refl, Q13]].
    destruct (sread_run x3 1) as (x4 & R4 & Q4); [apply Q13|rewrite (st_sz _ _ _ Q13); unfold ROOT_DIR_SECTOR in *; lia|].
    exists x4. by rewrite <- (quiet_sectors _ _ 1 Q13). }
  destruct Hread as (x4 & R4 & Q4). rewrite (bind_Ret _ _ _ _ _ R4).
  rewrite (take_ge (drop (Z.to_nat 0) buffer)) by (rewrite length_drop; lia). cbn [Z.to_nat drop].
  pose proof (sectors_length x 1 Hi) as Hl1.
  rewrite (new_sector ino (sectors_of x 1) (offset mod 512) size buffer) by (done || lia).
  pose proof (quiet_trans _ _ _ Q13 Q4) as Q14.
  destruct (swrite_run x4 1 (splice (Z.to_nat (offset mod 512)) buffer (sectors_of x 1))) as (x5 & R5 & S5).
  { apply Q14. }
  { rewrite (st_sz _ _ _ Q14). unfold ROOT_DIR_SECTOR in *. lia. }
  { rewrite length_splice; rewrite sectors_length by done; unfold BLOCK_SECTOR_SIZE; lia. }
  rewrite (bind_Ret _ _ _ _ _ R5). exists x5. split.
  - destruct n as [|n]; [|cbn [write_loop]].
    + cbn [write_loop]. rewrite (proj2 (Z.leb_le (size - size) 0)) by lia. by rewrite ret_run.
    + rewrite (proj2 (Z.leb_le (size - size) 0)) by lia. by rewrite ret_run.
  - intros t. rewrite (st_m _ _ _ S5). unfold upd. by rewrite (quiet_sectors _ _ t Q14).
Qed.
End theorems.

(** * The theorems on the example device *)
Lemma inode_read_at_correct_witness :
  ∃ x', inode_read_at (Some ex_addr) 100 550 ex_fs = Ret (replicate 50 0, x') ∧ good_inode x' ex_addr ex_inode.
Proof.
  destruct (inode_read_at_correct ex_fs ex_addr ex_inode 100 550 ex_good eq_refl ltac:(lia)) as (x' & R & _ & G).
  exists x'. split; [rewrite R|exact G]. by vm_compute.
Defined.

Lemma inode_write_at_in_place_witness :
  ∃ x', inode_write_at (Some ex_addr) [7; 8; 9] 3 511 ex_fs = Ret (3, x')
    ∧ take 5 (drop 510 (file_bytes (sectors_of x') 3)) = [0; 7; 8; 9; 0].
Proof.
  destruct (inode_write_at_in_place ex_fs ex_addr ex_inode [7; 8; 9] 3 511 ex_good)
    as (x' & R & B & _); [done|done|lia|done|by vm_compute|].
  exists x'. split; [exact R|]. change 3 with (i_sector ex_inode). rewrite B. by vm_compute.
Defined.

(** The example device with writes to the open file denied. *)
Definition ex_fs_denied : fs block :=
  set_inodes (<[ex_addr := mk_inode 3 1 false 1]> (inodes ex_fs)) ex_fs.

Lemma inode_write_at_denied_witness :
  ∃ x', inode_write_at (Some ex_addr) [7] 1 0 ex_fs_denied = Ret (0, x') ∧ quiet ex_fs_denied x'.
Proof.
  apply (inode_write_at_denied ex_fs_denied ex_addr (mk_inode 3 1 false 1)); [|done].
  destruct ex_good as [G1 G2 G3 G4 G5 G6]. split; try done.
Defined.

Lemma free_map_allocate_correct_witness :
  ∃ x', free_map_allocate inode_write_at 2 ex_fs = Ret (Some 6, x') ∧ keeps ex_fs [] x'.
Proof.
  destruct (free_map_allocate_correct ex_fs 2 ex_mounted eq_refl ltac:(lia)) as (r & x' & R & Hr).
  assert (E : r = Some 6).
  { assert (Hv : match free_map_allocate inode_write_at 2 ex_fs with Ret (r, _) => r | Err _ => None end = Some 6)
      by (by vm_compute). by rewrite R in Hv. }
  subst r. exists x'. split; [exact R|apply Hr].
Defined.

Lemma free_map_allocate_release_witness :
  ∃ x1 x2, free_map_allocate inode_write_at 2 ex_fs = Ret (Some 6, x1)
    ∧ free_map_release inode_write_at 6 2 x1 = Ret (tt, x2)
    ∧ ∀ t, 0 <= t → used x2 t ↔ used ex_fs t.
Proof.
  assert (Hv : match free_map_allocate inode_write_at 2 ex_fs with Ret (r, _) => r | Err _ => None end = Some 6)
    by (by vm_compute).
  destruct (free_map_allocate inode_write_at 2 ex_fs) as [[r x1]|] eqn:R; [subst r|done].
  destruct (free_map_allocate_release ex_fs 2 6 x1 ex_mounted eq_refl ltac:(lia) R) as (x2 & R2 & _ & U & _).
  exists x1, x2. split; [done|]. split; [exact R2|exact U].
Defined.


Lemma write_past_eof_overwrites_root_witness :
  ∃ x', inode_write_at (Some ex_addr) [7; 8] 2 700 ex_fs = Ret (2, x')
    ∧ sectors_of x' ROOT_DIR_SECTOR = splice 188 [7; 8] (sectors_of ex_fs ROOT_DIR_SECTOR)
    ∧ file_bytes (sectors_of x') 3 = file_bytes (sectors_of ex_fs) 3.
Proof.
  destruct (write_past_eof_overwrites_root ex_fs ex_addr ex_inode [7; 8] 2 700 ex_good)
    as (x' & R & C); [done|done|done|done|lia|by vm_compute|by vm_compute|by vm_compute|].
  exists x'. split; [exact R|]. split; [by rewrite C|].
  unfold file_bytes, inode_at. rewrite C, decide_False by done.
  f_equal. unfold raw_bytes, data, inode_at. rewrite C, decide_False by done.
  vm_compute seq. cbn [fmap list_fmap]. 
  rewrite !bind_cons, !C. by vm_compute.
Defined.

Lemma append_not_recorded_witness :
  ∃ x', inode_write_at (Some ex_addr) [7; 8; 9] 3 599 ex_fs = Ret (3, x')
    ∧ dlength (inode_at (sectors_of x') 3) = 600
    ∧ drop 598 (file_bytes (sectors_of x') 3) = [0; 7].
Proof.
  destruct (append_not_recorded ex_fs ex_addr ex_inode [7; 8; 9] 3 599 ex_good)
    as (x' & R & L & B); [done|done|done|split; by vm_compute|by vm_compute|by vm_compute|].
  exists x'. split; [exact R|]. change 3 with (i_sector ex_inode). rewrite L, B.
  split; by vm_compute.
Defined.
