(* ===== verification/OpenInodes.v ===== *)
(** * The table of open inodes (filesys/inode.c)

    Opening an inode that is open already returns the same [struct inode], so
    that all its openers share its removal mark and write-deny count.
    [table_ok] is the invariant behind this; the abstract view of the table
    is the map from sectors to their inodes. *)
From S2P Require Import Prelude Bitmap Cache FsState Inode InodeSpec.
Local Open Scope Z_scope.

Section table.
Context {St : Type} `{SectorOps St}.
Implicit Types x : fs St.

(** The inodes in memory are the elements of [open_inodes], each has an
    opener, no two are of the same sector, and new memory is fresh. *)
Record table_ok x : Prop := {
  to_nodup : NoDup (open_inodes x);
  to_dom : ∀ a, a ∈ open_inodes x ↔ is_Some (inodes x !! a);
  to_count : ∀ a ino, inodes x !! a = Some ino → 0 < open_cnt ino;
  to_inj : ∀ a b i j, inodes x !! a = Some i → inodes x !! b = Some j → i_sector i = i_sector j → a = b;
  to_fresh : ∀ a, is_Some (inodes x !! a) → (a < brk x)%positive
}.

(** The inode open on sector [s]. *)
Definition opened x (s : Z) (a : addr) (ino : inode) : Prop :=
  inodes x !! a = Some ino ∧ i_sector ino = s.

Definition with_count (n : Z) (ino : inode) : inode :=
  mk_inode (i_sector ino) n (removed ino) (deny_write_cnt ino).

Lemma open_search_run x s : table_ok x → ∀ l, (∀ a, a ∈ l → is_Some (inodes x !! a)) →
  ∃ r, open_search l s x = Ret (r, x) ∧
    match r with
    | Some a => a ∈ l ∧ ∃ ino, opened x s a ino
    | None => ∀ a ino, a ∈ l → inodes x !! a = Some ino → i_sector ino ≠ s
    end.
Proof.
  intros Hok. induction l as [|a l IH]; intros Hl; [exists None; split; [done|set_solver]|].
  destruct (Hl a) as [ino Ha]; [set_solver|]. cbn [open_search]. rewrite (deref_bind _ _ ino) by done.
  destruct (Z.eqb_spec (i_sector ino) s) as [E|E].
  - exists (Some a). split; [done|]. split; [set_solver|]. by exists ino.
  - destruct IH as ([b|] & -> & Hr); [set_solver|eexists; split; [done|]..].
    + destruct Hr as [Hb Hr]. split; [set_solver|done].
    + intros b j [->|Hb]%elem_of_cons Hj; [|by eapply Hr]. congruence.
Qed.

(** The two outcomes of [inode_open]. *)
Lemma inode_open_run x s :
  table_ok x →
  (∃ a ino, opened x s a ino ∧ inode_open s x =
     Ret (Some a, set_inodes (<[a := with_count (open_cnt ino + 1) ino]> (inodes x)) x)) ∨
  ((∀ a ino, ¬ opened x s a ino) ∧
   ((mem x = false :: tail (mem x) ∧ inode_open s x = Ret (None, set_mem (tail (mem x)) x)) ∨
    inode_open s x = Ret (Some (brk x),
      mk_fs (store x) (free_map x) (free_map_lock x) (free_map_file x)
        (<[brk x := mk_inode s 1 false 0]> (inodes x)) (brk x :: open_inodes x) (files x) (dirs x)
        (Pos.succ (brk x)) (tail (mem x))))).
Proof.
  intros Hok. unfold inode_open. rewrite gets_bind.
  destruct (open_search_run x s Hok (open_inodes x)) as (r & R & Hr); [apply Hok|].
  rewrite (bind_Ret _ _ _ _ _ R). destruct r as [a|].
  - left. destruct Hr as (_ & ino & Ha & Hs). exists a, ino. split; [done|].
    unfold inode_reopen. simpl isnull. cbv iota. rewrite bind_assoc, (deref_bind _ _ ino) by done. done.
  - right. split.
    + intros a ino [Ha Hs]. eapply Hr; [|done|done]. apply Hok. eauto.
    + unfold malloc, mbind, cmd_bind. destruct (mem x) as [|[] m] eqn:E; [right|right|left]; done.
Qed.

Lemma table_ok_count x a ino n :
  table_ok x → inodes x !! a = Some ino → 0 < n →
  table_ok (set_inodes (<[a := with_count n ino]> (inodes x)) x).
Proof.
  intros [T1 T2 T3 T4 T5] Ha Hn. split; simpl; [done|..].
  - intros b. rewrite T2. destruct (decide (b = a)) as [->|]; [rewrite lookup_insert_eq, Ha|by rewrite lookup_insert_ne].
    split; eauto.
  - intros b j. rewrite lookup_insert_Some. intros [[<- <-]|[_ Hj]]; [done|eauto].
  - intros b c i j. rewrite !lookup_insert_Some.
    intros [[<- <-]|[? Hi]] [[<- <-]|[? Hj]] Hs; simpl in *; eauto.
  - intros b. destruct (decide (b = a)) as [->|]; [intros _; apply T5; eauto|rewrite lookup_insert_ne by done; auto].
Qed.

Lemma table_ok_new x s :
  table_ok x → (∀ a ino, ¬ opened x s a ino) →
  table_ok (mk_fs (store x) (free_map x) (free_map_lock x) (free_map_file x)
        (<[brk x := mk_inode s 1 false 0]> (inodes x)) (brk x :: open_inodes x) (files x) (dirs x)
        (Pos.succ (brk x)) (tail (mem x))).
Proof.
  intros [T1 T2 T3 T4 T5] Hno.
  assert (Hbrk : inodes x !! brk x = None).
  { destruct (inodes x !! brk x) eqn:E; [|done]. assert (brk x < brk x)%positive by (apply T5; eauto). lia. }
  split; simpl.
  - apply NoDup_cons. split; [|done]. rewrite T2, Hbrk. by intros [??].
  - intros b. rewrite elem_of_cons, T2. destruct (decide (b = brk x)) as [->|Hne].
    + rewrite lookup_insert_eq. naive_solver.
    + rewrite lookup_insert_ne by done. naive_solver.
  - intros b j. rewrite lookup_insert_Some. intros [[<- <-]|[_ Hj]]; [done|eauto].
  - intros b c i j. rewrite !lookup_insert_Some.
    intros [[<- <-]|[? Hi]] [[<- <-]|[? Hj]] Hs; simpl in *; [done| | |eauto].
    + exfalso. by apply (Hno c j).
    + exfalso. by apply (Hno b i).
  - intros b. destruct (decide (b = brk x)) as [->|]; [lia|]. rewrite lookup_insert_ne by done.
    intros Hb%T5. lia.
Qed.

(** Closing an inode that is not removed. *)
Lemma inode_close_run x w a ino :
  table_ok x → inodes x !! a = Some ino → removed ino = false →
  inode_close w (Some a) x =
    Ret (tt, if open_cnt ino =? 1
             then set_inodes (delete a (inodes x)) (set_open_inodes (filter (λ b, b ≠ a) (open_inodes x)) x)
             else set_inodes (<[a := with_count (open_cnt ino - 1) ino]> (inodes x)) x).
Proof.
  intros [T1 T2 T3 T4 T5] Ha Hr. unfold inode_close. rewrite (deref_bind _ _ ino) by done.
  unfold put_inode. erewrite bind_Ret by done. cbn [open_cnt].
  destruct (Z.eqb_spec (open_cnt ino) 1) as [E|E].
  - rewrite E. change (1 - 1 =? 0) with true. cbv iota. rewrite gets_bind. simpl open_inodes.
    rewrite decide_True by (apply T2; eauto). rewrite modify_bind. cbn [removed]. rewrite Hr, ret_bind.
    rewrite modify_run. do 2 f_equal. unfold set_inodes, set_open_inodes. simpl. f_equal.
    by rewrite delete_insert_eq.
  - rewrite (proj2 (Z.eqb_neq (open_cnt ino - 1) 0)) by lia. done.
Qed.

Lemma table_ok_delete x a :
  table_ok x →
  table_ok (set_inodes (delete a (inodes x)) (set_open_inodes (filter (λ b, b ≠ a) (open_inodes x)) x)).
Proof.
  intros [T1 T2 T3 T4 T5]. split; simpl.
  - by apply NoDup_filter.
  - intros b. rewrite list_elem_of_filter, T2. destruct (decide (b = a)) as [->|].
    + rewrite lookup_delete_eq. split; [tauto|by intros [??]].
    + rewrite lookup_delete_ne by done. tauto.
  - intros b j [_ Hj]%lookup_delete_Some. eauto.
  - intros b c i j [_ Hi]%lookup_delete_Some [_ Hj]%lookup_delete_Some. eauto.
  - intros b [j [_ Hj]%lookup_delete_Some]. apply T5. eauto.
Qed.

(** [inode_open] keeps the table well formed and gives one [struct inode]
    per sector: if the sector is open it returns that inode with one more
    opener, else it adds a new inode with one opener; with no memory left it
    returns null and the table stays. *)
Theorem inode_open_shared x s :
  table_ok x →
  ∃ r x', inode_open s x = Ret (r, x') ∧ table_ok x' ∧ store x' = store x ∧
    match r with
    | None => mem x ≠ [] ∧ inodes x' = inodes x ∧ open_inodes x' = open_inodes x
    | Some a => ∃ ino, opened x' s a ino ∧ (∀ b, b ≠ a → inodes x' !! b = inodes x !! b) ∧
        (inodes x !! a = Some (with_count (open_cnt ino - 1) ino) ∨
         (open_cnt ino = 1 ∧ ∀ b j, ¬ opened x s b j))
    end.
Proof.
  intros Hok. destruct (inode_open_run x s Hok)
    as [(a & ino & [Ha Hs] & ->)|(Hno & [(Hm & ->)| ->])].
  - eexists (Some a), _. split; [done|]. split; [apply table_ok_count; [done|done|pose proof (to_count x Hok a ino Ha); lia]|].
    split; [done|]. exists (with_count (open_cnt ino + 1) ino). split_and!.
    + split; simpl; [apply lookup_insert_eq|done].
    + intros b Hb. simpl. by rewrite lookup_insert_ne.
    + left. rewrite Ha. unfold with_count. simpl. replace (open_cnt ino + 1 - 1) with (open_cnt ino) by lia.
      by destruct ino.
  - eexists None, _. split; [done|]. split; [by destruct Hok|]. split_and!; try done. by intros E; rewrite E in Hm.
  - eexists (Some _), _. split; [done|]. split; [by apply table_ok_new|]. split; [done|].
    exists (mk_inode s 1 false 0). split_and!.
    + split; simpl; [apply lookup_insert_eq|done].
    + intros b Hb. simpl. by rewrite lookup_insert_ne.
    + by right.
Qed.

(** Opening a sector and closing the result restores the table: the
    inode loses the opener it gained, and disappears if it had none before. *)
Theorem inode_open_close x s a x1 w :
  table_ok x → (∀ b ino, opened x s b ino → removed ino = false) →
  inode_open s x = Ret (Some a, x1) →
  ∃ x2, inode_close w (Some a) x1 = Ret (tt, x2) ∧ table_ok x2
    ∧ inodes x2 = inodes x ∧ open_inodes x2 = open_inodes x ∧ store x2 = store x.
Proof.
  intros Hok Hrm Hop. destruct (inode_open_run x s Hok)
    as [(b & ino & [Ha Hs] & E)|(Hno & [(Hm & E)| E])]; rewrite E in Hop; [|done|].
  - injection Hop as -> <-. pose proof (to_count x Hok a ino Ha).
    assert (Hok1 : table_ok (set_inodes (<[a := with_count (open_cnt ino + 1) ino]> (inodes x)) x))
      by (apply table_ok_count; [done|done|lia]).
    rewrite (inode_close_run _ w a (with_count (open_cnt ino + 1) ino)); [|done|apply lookup_insert_eq|exact (Hrm a ino (conj Ha Hs))].
    cbn [open_cnt with_count]. rewrite (proj2 (Z.eqb_neq _ 1)) by lia.
    eexists. split; [done|].
    assert (Ei : <[a := with_count (open_cnt ino + 1 - 1) (with_count (open_cnt ino + 1) ino)]>
      (<[a := with_count (open_cnt ino + 1) ino]> (inodes x)) = inodes x).
    { rewrite insert_insert_eq. apply insert_id. rewrite Ha. unfold with_count. simpl.
      replace (open_cnt ino + 1 - 1) with (open_cnt ino) by lia. by destruct ino. }
    split_and!; try done. apply table_ok_count; [done|apply lookup_insert_eq|lia].
  - injection Hop as <- <-. pose proof (table_ok_new x s Hok Hno) as Hok1.
    rewrite (inode_close_run _ w (brk x) (mk_inode s 1 false 0)); [|done|apply lookup_insert_eq|done].
    change (open_cnt (mk_inode s 1 false 0) =? 1) with true. cbv iota.
    eexists. split; [done|]. split; [by apply table_ok_delete|]. simpl. split_and!; [| |done].
    + apply delete_insert_id. destruct (inodes x !! brk x) eqn:Eb; [|done].
      assert (brk x < brk x)%positive by (apply (to_fresh x Hok); eauto). lia.
    + rewrite filter_cons_False by naive_solver. apply filter_all. intros b Hb ->.
      apply (to_dom x Hok) in Hb. apply (to_fresh x Hok) in Hb. lia.
Qed.
End table.

(** * An example table: sector 3 open once *)
Definition ex_table : fs block :=
  mk_fs (mk_block BLOCK_FILESYS 8 ∅ 0 0) (mk_bitmap 0 []) false None
    {[ 1%positive := mk_inode 3 1 false 0 ]} [1%positive] ∅ ∅ 2%positive [].

Lemma ex_table_ok : table_ok ex_table.
Proof.
  split; simpl.
  - apply NoDup_singleton.
  - intros a. rewrite list_elem_of_singleton. destruct (decide (a = 1%positive)) as [->|Hne].
    + by rewrite lookup_singleton_eq.
    + rewrite lookup_singleton_ne by done. split; [done|by intros [??]].
  - intros a ino [<- <-]%lookup_singleton_Some. done.
  - intros a b i j [<- <-]%lookup_singleton_Some [<- <-]%lookup_singleton_Some. done.
  - intros a [ino [<- <-]%lookup_singleton_Some]. done.
Qed.

Lemma inode_open_shared_witness :
  ∃ x', inode_open 3 ex_table = Ret (Some 1%positive, x') ∧ table_ok x'.
Proof.
  destruct (inode_open_shared ex_table 3 ex_table_ok) as (r & x' & R & T & _).
  assert (E : r = Some 1%positive).
  { assert (V : match inode_open 3 ex_table with Ret (r, _) => r | Err _ => None end = Some 1%positive) by done.
    by rewrite R in V. }
  subst r. by exists x'.
Defined.

Lemma inode_open_close_witness :
  ∃ x1 x2, inode_open 5 ex_table = Ret (Some 2%positive, x1)
    ∧ inode_close inode_write_at (Some 2%positive) x1 = Ret (tt, x2) ∧ inodes x2 = inodes ex_table.
Proof.
  assert (V : match inode_open 5 ex_table with Ret (r, _) => r | Err _ => None end = Some 2%positive) by done.
  destruct (inode_open 5 ex_table) as [[r x1]|] eqn:R; [subst r|done].
  destruct (inode_open_close ex_table 5 2%positive x1 inode_write_at ex_table_ok) as (x2 & R2 & _ & E & _ & _);
    [|exact R|by exists x1, x2].
  intros b ino [Hb _]. change (({[ 1%positive := mk_inode 3 1 false 0 ]} : gmap addr inode) !! b = Some ino) in Hb.
  apply lookup_singleton_Some in Hb as [<- <-]. done.
Defined.
