(* ===== verification/Directory.v ===== *)
(** * Directories and the file system interface
      (filesys/directory.c, filesys/filesys.c)

    C strings are lists of bytes without their terminator; a character array
    or a [struct dir_entry] is the list of its raw bytes, so that what the
    code leaves in a buffer is visible.  The arguments called [junk] are the
    contents of uninitialised local variables. *)
From S2P Require Import Prelude Bitmap Cache FsState Inode.
Local Open Scope Z_scope.

Definition NAME_MAX : Z := 14.
Definition slash : Z := 47.
Definition dot : list Z := [46].
Definition dot_dot : list Z := [46; 46].

(** The string that starts at the head of a buffer. *)
Fixpoint cstr (buf : list Z) : list Z :=
  match buf with
  | [] => []
  | c :: buf' => if c =? 0 then [] else c :: cstr buf'
  end.

(** [memcpy] of [src] to the start of [dst]. *)
Definition overlay (src dst : list Z) : list Z := src ++ drop (length src) dst.

(** [strlcpy (dst, src, size)]. *)
Definition strlcpy (dst src : list Z) (size : Z) : list Z :=
  if size <=? 0 then dst else overlay (take (Z.to_nat (size - 1)) src ++ [0]) dst.

(** * Directory entries: 4 bytes of sector, 15 of name, two flags, padding *)
Definition DIR_ENTRY_SIZE : Z := 24.

Definition e_sector (e : list Z) : Z := nth 0 (words_of e) 0.
Definition e_name (e : list Z) : list Z := cstr (drop 4 e).
Definition e_in_use (e : list Z) : bool := negb (nth 19 e 0 =? 0).
Definition e_is_dir (e : list Z) : bool := negb (nth 20 e 0 =? 0).

Definition b2z (b : bool) : Z := if b then 1 else 0.
Definition set_sector_ (s : Z) (e : list Z) : list Z := le_bytes s ++ drop 4 e.
Definition set_name_ (nm : list Z) (e : list Z) : list Z :=
  take 4 e ++ strlcpy (take 15 (drop 4 e)) nm 15 ++ drop 19 e.
Definition set_in_use_ (b : bool) (e : list Z) : list Z := <[19%nat := b2z b]> e.
Definition set_is_dir_ (b : bool) (e : list Z) : list Z := <[20%nat := b2z b]> e.

(** * Path names *)

(** The copying loop of [get_next_part]: [n] characters are in [part]. *)
Fixpoint part_loop (src part : list Z) (n : nat) : option (list Z * nat * list Z) :=
  match src with
  | [] => Some (part, n, [])
  | c :: src' =>
    if c =? slash then Some (part, n, src)
    else if Z.of_nat n <? NAME_MAX then part_loop src' (<[n := c]> part) (S n)
    else None
  end.

Fixpoint skip_slashes (src : list Z) : list Z :=
  match src with
  | c :: src' => if c =? slash then skip_slashes src' else src
  | [] => []
  end.

(** The return value, the buffer [part] and the updated [*srcp].  On a
    too-long component the buffer holds its first characters. *)
Definition get_next_part (part src0 : list Z) : Z * list Z * list Z :=
  let src := skip_slashes src0 in
  match src with
  | [] => (0, part, src0)
  | _ =>
    match part_loop src part 0 with
    | Some (part', n, src') => (1, <[n := 0]> part', src')
    | None => (-1, overlay (take (Z.to_nat NAME_MAX) src) part, src0)
    end
  end.

(** No directory has more entries than the largest file holds. *)
Definition DIR_FUEL : nat := Z.to_nat (MAX_INODE_SIZE / DIR_ENTRY_SIZE + 2).

Section dirs.
Context {St : Type} `{SectorOps St}.
#[local] Abbreviation cmd := (cmd (fs St)).

Definition dir_create (sector entry_cnt : Z) : cmd bool :=
  inode_create inode_write_at sector (s32 (entry_cnt * DIR_ENTRY_SIZE)).

Definition dir_open (inode : option addr) : cmd (option addr) :=
  p ← malloc;
  match inode, p with
  | Some _, Some _ => put_dir p (mk_dir inode 0);; mret p
  | _, _ => inode_close inode_write_at inode;; mret None
  end.

Definition dir_open_root : cmd (option addr) :=
  i ← inode_open ROOT_DIR_SECTOR; dir_open i.

Definition dir_reopen (dir : option addr) : cmd (option addr) :=
  d ← deref dirs dir; i ← inode_reopen (d_inode d); dir_open i.

Definition dir_close (dir : option addr) : cmd unit :=
  match dir with
  | None => mret tt
  | Some a =>
    d ← deref dirs dir;
    inode_close inode_write_at (d_inode d);;
    modify (λ x, set_dirs (delete a (dirs x)) x)
  end.

Definition dir_get_inode (dir : option addr) : cmd (option addr) :=
  d ← deref dirs dir; mret (d_inode d).

(** The loop of [lookup]: the entry and its offset when it is found. *)
Fixpoint lookup_loop (fuel : nat) (inode : option addr) (name : list Z) (ofs : Z) (e : list Z) :
    cmd (option (list Z * Z)) :=
  match fuel with
  | O => throw NoFuel
  | S fuel' =>
    d ← inode_read_at inode DIR_ENTRY_SIZE ofs;
    let e := overlay d e in
    if negb (Z.of_nat (length d) =? DIR_ENTRY_SIZE) then mret None else
    if e_in_use e && bool_decide (name = e_name e) then mret (Some (e, ofs))
    else lookup_loop fuel' inode name (ofs + DIR_ENTRY_SIZE) e
  end.

Definition lookup (dir : option addr) (name junk : list Z) : cmd (option (list Z * Z)) :=
  ASSERT (negb (isnull dir));;
  d ← deref dirs dir;
  lookup_loop DIR_FUEL (d_inode d) name 0 junk.

(** Whether the entry exists, [*inode] and [*is_dir]. *)
Definition dir_lookup (dir : option addr) (name junk : list Z) : cmd (bool * option addr * bool) :=
  ASSERT (negb (isnull dir));;
  r ← lookup dir name junk;
  match r with
  | Some (e, _) => i ← inode_open (e_sector e); mret (negb (isnull i), i, e_is_dir e)
  | None => mret (false, None, e_is_dir junk)
  end.

(** The search of [dir_add] for a free slot: the buffer and the offset. *)
Fixpoint slot_loop (fuel : nat) (inode : option addr) (ofs : Z) (e : list Z) : cmd (list Z * Z) :=
  match fuel with
  | O => throw NoFuel
  | S fuel' =>
    d ← inode_read_at inode DIR_ENTRY_SIZE ofs;
    let e := overlay d e in
    if negb (Z.of_nat (length d) =? DIR_ENTRY_SIZE) then mret (e, ofs) else
    if negb (e_in_use e) then mret (e, ofs)
    else slot_loop fuel' inode (ofs + DIR_ENTRY_SIZE) e
  end.

Definition dir_add (dir : option addr) (name : list Z) (inode_sector : Z) (is_dir : bool) (junk : list Z)
    : cmd bool :=
  ASSERT (negb (isnull dir));;
  if bool_decide (name = []) || (NAME_MAX <? Z.of_nat (length name)) then mret false else
  r ← lookup dir name junk;
  match r with
  | Some _ => mret false
  | None =>
    d ← deref dirs dir;
    '(e, ofs) ← slot_loop DIR_FUEL (d_inode d) 0 junk;
    let e := set_is_dir_ is_dir (set_sector_ inode_sector (set_name_ name (set_in_use_ true e))) in
    n ← inode_write_at (d_inode d) e DIR_ENTRY_SIZE ofs;
    mret (n =? DIR_ENTRY_SIZE)
  end.

(** Reading entries from [dir->pos] on; [e.name] never is the address of
    [dot_dot] or [dot], so the comparison with them always holds. *)
Fixpoint readdir_loop (fuel : nat) (dir : option addr) (name e : list Z) : cmd (bool * list Z) :=
  match fuel with
  | O => throw NoFuel
  | S fuel' =>
    d ← deref dirs dir;
    data ← inode_read_at (d_inode d) DIR_ENTRY_SIZE (d_pos d);
    let e := overlay data e in
    if negb (Z.of_nat (length data) =? DIR_ENTRY_SIZE) then mret (false, name) else
    put_dir dir (mk_dir (d_inode d) (d_pos d + DIR_ENTRY_SIZE));;
    if e_in_use e then mret (true, strlcpy name (e_name e) (NAME_MAX + 1))
    else readdir_loop fuel' dir name e
  end.

Definition dir_readdir (dir : option addr) (name junk : list Z) : cmd (bool * list Z) :=
  readdir_loop DIR_FUEL dir name junk.

(** [name] is a string of the caller, never the arrays [dot_dot] and [dot] of
    directory.c, so the address comparison with them never holds. *)
Definition dir_remove (dir : option addr) (name junk : list Z) : cmd bool :=
  ASSERT (negb (isnull dir));;
  r ← lookup dir name junk;
  match r with
  | None => inode_close inode_write_at None;; mret false
  | Some (e, ofs) =>
    inode ← inode_open (e_sector e);
    if isnull inode then inode_close inode_write_at inode;; mret false else
    go_on ← (if e_is_dir e then
               dir_copy ← dir_reopen dir;
               '(more, _) ← dir_readdir dir_copy (replicate 15 0) junk;
               if negb more then mret false else dir_close dir_copy;; mret true
             else mret true);
    if negb go_on then inode_close inode_write_at inode;; mret false else
    d ← deref dirs dir;
    n ← inode_write_at (d_inode d) (set_in_use_ false e) DIR_ENTRY_SIZE ofs;
    if negb (n =? DIR_ENTRY_SIZE) then inode_close inode_write_at inode;; mret false else
    inode_remove inode;;
    inode_close inode_write_at inode;;
    mret true
  end.

Definition init_dir (parent child : option addr) (junk : list Z) : cmd unit :=
  i ← dir_get_inode parent;
  parent_inode_number ← inode_get_inumber i;
  ok ← dir_add child dot_dot parent_inode_number true junk;
  i ← dir_get_inode child;
  child_inode_number ← inode_get_inumber i;
  ok ← dir_add child dot child_inode_number true junk;
  mret tt.

(** The loop of [path_resolution]: the result, [*dir] and [name]. *)
Fixpoint path_loop (fuel : nat) (num : Z) (dir : option addr) (name path junk : list Z) :
    cmd (bool * option addr * list Z) :=
  match fuel with
  | O => throw NoFuel
  | S fuel' =>
    if negb (num =? 1) then mret (num =? 0, dir, name) else
    '(success, inode, is_dir) ← dir_lookup dir (cstr name) junk;
    dir ← (if success && is_dir then dir_close dir;; dir_open inode else mret dir);
    if negb success then mret (bool_decide (path = []), dir, name) else
    if negb is_dir then mret (bool_decide (path = []), dir, name) else
    let '(num, name, path) := get_next_part name path in
    path_loop fuel' num dir name path junk
  end.

(** [cwd] is [thread_current ()->cwd]. *)
Definition path_resolution (cwd : option addr) (name path junk : list Z) :
    cmd (bool * option addr * list Z) :=
  dir ← (match path with c :: _ => if c =? slash then dir_open_root else dir_reopen cwd
                       | [] => dir_reopen cwd end);
  let '(num, name, path') := get_next_part name path in
  path_loop (S (S (length path))) num dir name path' junk.

(** * filesys.c *)
Definition filesys_create (name : list Z) (initial_size : Z) (dir : option addr) (is_dir : bool) (junk : list Z)
    : cmd bool :=
  if isnull dir then mret false else
  s ← free_map_allocate inode_write_at 1;
  let inode_sector := default 0 s in
  success ←
    (match s with
     | None => mret false
     | Some _ =>
       ok ← (if is_dir then dir_create inode_sector initial_size
             else inode_create inode_write_at inode_sector initial_size);
       if (ok : bool) then dir_add dir name inode_sector is_dir junk else mret false
     end);
  (if negb success && negb (inode_sector =? 0)
   then free_map_release inode_write_at inode_sector 1 else mret tt);;
  mret success.

(** The new object: an open directory or an open file.  [is_dir0]: what
    [*is_dir] holds before the call. *)
Definition filesys_open (dir : option addr) (name junk : list Z) (is_dir0 : bool)
    : cmd (bool * option addr) :=
  '(inode, is_dir) ←
    (if isnull dir then mret (None, is_dir0)
     else '(_, inode, is_dir) ← dir_lookup dir name junk; mret (inode, is_dir));
  if (is_dir : bool) then p ← dir_open inode; mret (true, p) else p ← file_open inode; mret (false, p).

Definition filesys_remove (name : list Z) (dir : option addr) (junk : list Z) : cmd bool :=
  if isnull dir then mret false else dir_remove dir name junk.

Definition do_format : cmd unit :=
  free_map_create;;
  ok ← dir_create ROOT_DIR_SECTOR 16;
  (if (ok : bool) then mret tt else throw KernelPanic);;
  free_map_close.

(** The device and the bitmap storage are found; returns the root directory
    that becomes the current directory of the main thread. *)
Definition filesys_init (format : bool) (device_size : Z) (ws : list Z) (junk : list Z) : cmd (option addr) :=
  inode_init;;
  free_map_init device_size true (Some ws);;
  (if format then do_format else mret tt);;
  free_map_open;;
  root ← dir_open_root;
  init_dir root root junk;;
  mret root.
End dirs.

(** [flush]: [cache_flush] on the store. *)
Definition on_store {St} (flush : cmd St unit) : cmd (fs St) unit := λ x,
  match flush (store x) with Ret (_, y) => Ret (tt, set_store y x) | Err e => Err e end.
Definition filesys_done {St} `{SectorOps St} (flush : cmd St unit) : cmd (fs St) unit :=
  free_map_close;; on_store flush.
