(* ===== verification/DirSpec.v ===== *)
(** * Path components and directory entries

    [get_next_part] walks a path name component by component; the first group
    of theorems compares it with splitting the path at slashes.  The second
    group reads a directory as the list of its entries ([dirents]): [lookup]
    finds the first entry in use with the name, and [dir_add] fills the first
    free slot so that later lookups find it. *)
From S2P Require Import Prelude Bitmap Cache FsState Inode InodeSpec FsTheorems Directory.
Local Open Scope Z_scope.

(** * Path names *)

(** The text up to the next slash. *)
Fixpoint component (src : list Z) : list Z :=
  match src with
  | [] => []
  | c :: src' => if c =? slash then [] else c :: component src'
  end.

Definition nonzero (s : list Z) : Prop := Forall (λ c, c ≠ 0) s.

Lemma cstr_app s rest : nonzero s → cstr (s ++ 0 :: rest) = s.
Proof.
  induction 1 as [|c s Hc Hs IH]; [done|]. simpl. rewrite (proj2 (Z.eqb_neq c 0)) by done. by rewrite IH.
Qed.

Lemma component_app src : ∃ rest, src = component src ++ rest ∧ (rest = [] ∨ ∃ r, rest = slash :: r).
Proof.
  induction src as [|c src (rest & E & Hr)]; [by exists []; split; [|left]|]. simpl.
  destruct (Z.eqb_spec c slash) as [->|Hc].
  - exists (slash :: src). split; [done|]. right. by exists src.
  - exists rest. split; [simpl; by f_equal|done].
Qed.

(** The copying loop moves the component into the buffer, or finds it too
    long. *)
Lemma part_loop_run src : ∀ done part,
  length part = 15%nat → take (length done) part = done → (length done <= 14)%nat →
  let comp := component src in
  if decide (length done + length comp <= 14)%nat then
    ∃ part', part_loop src part (length done) =
               Some (part', (length done + length comp)%nat, drop (length comp) src)
      ∧ length part' = 15%nat ∧ take (length done + length comp) part' = done ++ comp
  else part_loop src part (length done) = None.
Proof.
  induction src as [|c src IH]; intros dn part Hl Ht Hd; simpl.
  - rewrite decide_True by lia. exists part. rewrite Nat.add_0_r, app_nil_r. done.
  - destruct (Z.eqb_spec c slash) as [->|Hc]; simpl.
    { rewrite decide_True by lia. exists part. rewrite Nat.add_0_r, app_nil_r. done. }
    unfold NAME_MAX. destruct (Z.ltb_spec (Z.of_nat (length dn)) 14) as [Hn|Hn].
    + specialize (IH (dn ++ [c]) (<[length dn := c]> part)). simpl in IH.
      rewrite length_insert, length_app in IH. simpl in IH.
      rewrite Nat.add_1_r in IH.
      assert (Ht' : take (S (length dn)) (<[length dn := c]> part) = dn ++ [c]).
      { rewrite (take_S_r _ _ c) by (apply list_lookup_insert_eq; lia). by rewrite take_insert_ge, Ht. }
      specialize (IH Hl Ht' ltac:(lia)).
      destruct (decide (S (length dn) + length (component src) <= 14)%nat).
      * rewrite decide_True by lia. destruct IH as (part' & E & L & T). exists part'.
        rewrite E. split; [do 3 f_equal; lia|]. split; [done|].
        replace (length dn + S (length (component src)))%nat with (S (length dn) + length (component src))%nat by lia.
        rewrite T. by rewrite <- app_assoc.
      * rewrite decide_False by lia. done.
    + rewrite decide_False by lia. done.
Qed.

Lemma get_next_part_cases part src :
  length part = 15%nat → nonzero src →
  let comp := component (skip_slashes src) in
  if decide (skip_slashes src = []) then get_next_part part src = (0, part, src)
  else if decide (length comp <= 14)%nat then
    ∃ part', get_next_part part src = (1, part', drop (length comp) (skip_slashes src))
      ∧ cstr part' = comp ∧ length part' = 15%nat
  else ∃ part', get_next_part part src = (-1, part', src).
Proof.
  intros Hl Hz. unfold get_next_part. set (s := skip_slashes src).
  case_decide as E; [by rewrite E|].
  assert (Hs : nonzero (component s)).
  { assert (Hzs : nonzero s).
    { subst s. clear -Hz. induction Hz as [|c src Hc Hz IH]; [by apply Forall_nil_2|]. simpl.
      destruct (c =? slash); [done|by apply Forall_cons]. }
    clear -Hzs. induction Hzs as [|c s' Hc Hz IH]; [by apply Forall_nil_2|]. simpl.
    destruct (c =? slash); [by apply Forall_nil_2|by apply Forall_cons]. }
  pose proof (part_loop_run s [] part Hl eq_refl ltac:(simpl; lia)) as Hp. simpl in Hp.
  case_decide as C.
  - destruct Hp as (part' & Ep & L & T). destruct s as [|c s'] eqn:Es; [done|]. rewrite Ep.
    eexists. split; [done|]. split; [|by rewrite length_insert].
    rewrite <- (take_drop_middle (<[length (component (c :: s')) := 0]> part') (length (component (c :: s'))) 0)
      by (apply list_lookup_insert_eq; lia).
    rewrite take_insert_ge by lia. rewrite T. by apply cstr_app.
  - destruct s; [done|]. rewrite Hp. by eexists.
Qed.

(** Calling [get_next_part] until it returns something other than 1: the
    components in order and the last return value. *)
Fixpoint walk (fuel : nat) (part src : list Z) : list (list Z) * Z :=
  match fuel with
  | O => ([], 1)
  | S fuel' =>
    let '(r, part', src') := get_next_part part src in
    if r =? 1 then let '(l, r') := walk fuel' part' src' in (cstr part' :: l, r') else ([], r)
  end.

(** The pieces of a string between slashes. *)
Fixpoint split_slash (src : list Z) : list (list Z) :=
  match src with
  | [] => [[]]
  | c :: src' =>
    if c =? slash then [] :: split_slash src'
    else match split_slash src' with p :: ps => (c :: p) :: ps | [] => [[c]] end
  end.
Definition nonempty (p : list Z) : Prop := p ≠ [].
#[global] Instance nonempty_dec p : Decision (nonempty p).
Proof. unfold nonempty. apply _. Defined.

(** The components of a path: the nonempty pieces. *)
Definition components (src : list Z) : list (list Z) := filter nonempty (split_slash src).

Lemma split_slash_ne src : split_slash src ≠ [].
Proof. destruct src as [|c src]; simpl; [done|]. destruct (c =? slash); [done|]. by destruct (split_slash src). Qed.

Lemma split_slash_component src :
  split_slash src = component src :: tail (split_slash src).
Proof.
  induction src as [|c src IH]; [done|]. simpl. destruct (c =? slash); [done|].
  pose proof (split_slash_ne src). destruct (split_slash src) as [|p ps]; [done|].
  by injection IH as ->.
Qed.

Lemma split_slash_tail src :
  tail (split_slash src) =
    match drop (length (component src)) src with [] => [] | _ :: r => split_slash r end.
Proof.
  induction src as [|c src IH]; [done|]. simpl. destruct (c =? slash) eqn:E; [done|]. simpl.
  rewrite <- IH. pose proof (split_slash_ne src). by destruct (split_slash src).
Qed.

Lemma components_skip src : components src = components (skip_slashes src).
Proof.
  induction src as [|c src IH]; [done|]. simpl. destruct (c =? slash) eqn:E; [|done].
  rewrite <- IH. unfold components. simpl. rewrite E. by rewrite filter_cons_False by (by intros []).
Qed.

Lemma component_ne src : skip_slashes src ≠ [] → component (skip_slashes src) ≠ [].
Proof.
  induction src as [|c src IH]; [done|]. simpl. destruct (c =? slash) eqn:E; [done|].
  simpl. by rewrite E.
Qed.

Lemma skip_slashes_length src : (length (skip_slashes src) <= length src)%nat.
Proof. induction src as [|c src IH]; [done|]. simpl. destruct (c =? slash); simpl; lia. Qed.

(** Taking the first component off a path. *)
Lemma components_next src :
  skip_slashes src ≠ [] →
  components src = component (skip_slashes src) ::
    components (drop (length (component (skip_slashes src))) (skip_slashes src)).
Proof.
  intros Hne. rewrite components_skip. set (s := skip_slashes src) in *.
  unfold components at 1. rewrite split_slash_component, filter_cons_True by (by apply component_ne).
  f_equal. rewrite split_slash_tail.
  destruct (component_app s) as (rest & E & Hr).
  assert (Ed : drop (length (component s)) s = rest) by (rewrite E at 2; apply drop_app_length).
  rewrite Ed. destruct Hr as [->|(r & ->)]; [done|].
  unfold components. simpl. by rewrite filter_cons_False by (by intros []).
Qed.

Definition short (p : list Z) : bool := (length p <=? 14)%nat.

Fixpoint take_short (l : list (list Z)) : list (list Z) :=
  match l with p :: l' => if short p then p :: take_short l' else [] | [] => [] end.

Lemma nonzero_drop n s : nonzero s → nonzero (drop n s).
Proof. apply Forall_drop. Qed.

Lemma nonzero_skip s : nonzero s → nonzero (skip_slashes s).
Proof.
  induction 1 as [|c s Hc Hs IH]; [by apply Forall_nil_2|]. simpl.
  destruct (c =? slash); [done|by apply Forall_cons].
Qed.

Lemma walk_run fuel : ∀ part src,
  length part = 15%nat → nonzero src → (length src < fuel)%nat →
  walk fuel part src = (take_short (components src), if forallb short (components src) then 0 else -1).
Proof.
  induction fuel as [|fuel IH]; intros part src Hl Hz Hf; [lia|]. cbn [walk].
  pose proof (get_next_part_cases part src Hl Hz) as Hg. cbv zeta in Hg.
  destruct (decide (skip_slashes src = [])) as [E|E].
  { rewrite Hg. simpl. rewrite components_skip, E. done. }
  rewrite components_next by done. set (comp := component (skip_slashes src)) in *. cbn [take_short forallb].
  destruct (decide (length comp <= 14)%nat) as [C|C].
  - destruct Hg as (part' & Eg & Ec & Lp). rewrite Eg. cbv iota beta. change (1 =? 1) with true. cbv iota.
    assert (Hcl : (length comp > 0)%nat).
    { pose proof (component_ne src E). fold comp in H. destruct comp; [done|simpl; lia]. }
    rewrite (IH part'); [|done|by apply nonzero_drop, nonzero_skip|].
    + assert (Es : short comp = true) by (by apply Nat.leb_le). by rewrite Ec, Es.
    + rewrite length_drop. pose proof (skip_slashes_length src).
      destruct (skip_slashes src) eqn:Es; [done|]. simpl length in *. lia.
  - destruct Hg as (part' & Eg). rewrite Eg. cbv iota beta. change (-1 =? 1) with false. cbv iota.
    assert (Es : short comp = false) by (apply Nat.leb_gt; lia). by rewrite Es.
Qed.

(** Calling [get_next_part] repeatedly on a path yields its components,
    the nonempty pieces between slashes, in order, and then returns 0; if a
    component is longer than NAME_MAX it yields those before it and returns
    -1.  It terminates on every path. *)
Theorem get_next_part_splits part path :
  length part = 15%nat → nonzero path →
  walk (S (length path)) part path =
    (take_short (components path), if forallb short (components path) then 0 else -1).
Proof. intros Hl Hz. apply walk_run; [done|done|lia]. Qed.

Lemma get_next_part_splits_witness :
  walk 10 (replicate 15 0) [47; 97; 98; 47; 47; 99; 46; 100; 47] = ([[97; 98]; [99; 46; 100]], 0).
Proof.
  pose proof (get_next_part_splits (replicate 15 0) [47; 97; 98; 47; 47; 99; 46; 100; 47] eq_refl
    ltac:(repeat (apply Forall_cons; split; [done|]); apply Forall_nil_2)) as E.
  etransitivity; [exact E|]. by vm_compute.
Defined.

(** * Directory entries *)

(** The entries of a directory whose file holds [bytes]. *)
Definition dirents (bytes : list Z) : list (list Z) :=
  (λ k, take 24 (drop (24 * k) bytes)) <$> seq 0 (length bytes / 24).

(** The entry [lookup] looks for. *)
Definition entry_for (name : list Z) (e : list Z) : Prop := e_in_use e = true ∧ name = e_name e.
#[global] Instance entry_for_dec name e : Decision (entry_for name e).
Proof. unfold entry_for. apply _. Defined.

Definition slot_free (e : list Z) : Prop := e_in_use e = false.
#[global] Instance slot_free_dec e : Decision (slot_free e).
Proof. unfold slot_free. apply _. Defined.

Lemma dirents_length bytes : length (dirents bytes) = (length bytes / 24)%nat.
Proof. unfold dirents. by rewrite length_fmap, length_seq. Qed.

Lemma dirents_lookup bytes k :
  (k < length bytes / 24)%nat → dirents bytes !! k = Some (take 24 (drop (24 * k) bytes)).
Proof. intros Hk. unfold dirents. rewrite list_lookup_fmap, lookup_seq_lt by done. done. Qed.

Lemma dirent_full (bytes : list Z) k :
  (k < length bytes / 24)%nat ↔ (24 * k + 24 <= length bytes)%nat.
Proof.
  pose proof (Nat.div_mod (length bytes) 24 ltac:(lia)). pose proof (Nat.mod_upper_bound (length bytes) 24 ltac:(lia)). lia.
Qed.

(** A read of one entry: 24 bytes when the entry exists, fewer at the end. *)
Lemma dirent_read (bytes : list Z) k :
  take 24 (drop (24 * k) bytes) = default (drop (24 * k) bytes) (dirents bytes !! k) ∧
  (length (take 24 (drop (24 * k) bytes)) = 24%nat ↔ (k < length (dirents bytes))%nat).
Proof.
  rewrite dirents_length. split.
  - destruct (decide (k < length bytes / 24)%nat) as [Hk|Hk]; [by rewrite dirents_lookup|].
    rewrite (lookup_ge_None_2 (dirents bytes)) by (rewrite dirents_length; lia). simpl.
    apply take_ge. rewrite length_drop. rewrite dirent_full in Hk. lia.
  - rewrite length_take, length_drop, dirent_full. lia.
Qed.

Section lookups.
Context {St : Type} `{SectorStore St}.
Implicit Types x : fs St.

(** The directory [da] is open on the well-formed file of inode [a]. *)
Record good_dir x (da a : addr) (ino : inode) : Prop := {
  gd_dir : ∃ p, dirs x !! da = Some (mk_dir (Some a) p);
  gd_inode : good_inode x a ino;
  gd_mem : mem x = []
}.

Definition dir_bytes x (ino : inode) : list Z := file_bytes (sectors_of x) (i_sector ino).

Lemma good_inode_quiet x x' a ino : good_inode x a ino → quiet x x' → good_inode x' a ino.
Proof.
  intros Hg Q. apply (good_inode_data x); [done|by apply Q|by rewrite (st_in _ _ _ Q); apply Hg|by apply Q|].
  intros t _. by apply Q.
Qed.

Lemma good_dir_quiet x x' da a ino :
  good_dir x da a ino → quiet x x' → good_dir x' da a ino ∧ dir_bytes x' ino = dir_bytes x ino.
Proof.
  intros [D G M] Q. split.
  - split; [by rewrite (st_di _ _ _ Q)|by eapply good_inode_quiet|by apply (st_mem _ _ _ Q)].
  - apply file_bytes_ext. apply Q.
Qed.

Lemma entry_read x da a ino k :
  good_dir x da a ino →
  ∃ x', inode_read_at (Some a) DIR_ENTRY_SIZE (24 * Z.of_nat k) x =
          Ret (take 24 (drop (24 * k) (dir_bytes x ino)), x')
    ∧ quiet x x' ∧ good_dir x' da a ino ∧ dir_bytes x' ino = dir_bytes x ino.
Proof.
  intros Hd. destruct (inode_read_good x a ino DIR_ENTRY_SIZE (24 * Z.of_nat k)) as (x' & R & Q);
    [apply Hd|apply Hd|lia|].
  exists x'. split; [|split; [done|by apply (good_dir_quiet x)]]. rewrite R. unfold dir_bytes.
  do 4 f_equal. lia.
Qed.

Lemma overlay_full d e : length d = 24%nat → length e = 24%nat → overlay d e = d.
Proof. intros Hd He. unfold overlay. rewrite drop_ge by lia. apply app_nil_r. Qed.

Lemma overlay_length d e : (length d <= length e)%nat → length (overlay d e) = length e.
Proof. intros Hd. unfold overlay. rewrite length_app, length_drop. lia. Qed.

(** Both search loops walk the entries from index [k] on. *)
Lemma lookup_loop_run da a ino name fuel : ∀ k e x,
  good_dir x da a ino → length e = 24%nat →
  (length (dirents (dir_bytes x ino)) < fuel + k)%nat → (0 < fuel)%nat →
  (∀ j f, (j < k)%nat → dirents (dir_bytes x ino) !! j = Some f → ¬ entry_for name f) →
  ∃ x', lookup_loop fuel (Some a) name (24 * Z.of_nat k) e x =
      Ret ((λ p : nat * list Z, (p.2, 24 * Z.of_nat p.1)) <$> list_find (entry_for name) (dirents (dir_bytes x ino)), x')
    ∧ quiet x x'.
Proof.
  induction fuel as [|fuel IH]; intros k e x Hd He Hf Hpos Hno; [lia|]. cbn [lookup_loop].
  destruct (entry_read x da a ino k Hd) as (x1 & R1 & Q1 & Hd1 & B1). rewrite (bind_Ret _ _ _ _ _ R1).
  set (bs := dir_bytes x ino) in *. destruct (dirent_read bs k) as [Hr1 Hr2].
  set (d := take 24 (drop (24 * k) bs)) in *. unfold DIR_ENTRY_SIZE.
  destruct (decide (k < length (dirents bs))%nat) as [Hk|Hk].
  - destruct (lookup_lt_is_Some_2 (dirents bs) k Hk) as [f Hfk]. rewrite Hfk in Hr1. simpl in Hr1.
    apply Hr2 in Hk as Hd24. rewrite Hd24. change (Z.of_nat 24 =? 24) with true. cbn [negb].
    rewrite overlay_full, Hr1 by done.
    destruct (e_in_use f && bool_decide (name = e_name f)) eqn:Em.
    + exists x1. split; [|done]. rewrite ret_run.
      assert (Hfind : list_find (entry_for name) (dirents bs) = Some (k, f)).
      { apply list_find_Some. split_and!; [done| |].
        - apply andb_true_iff in Em as [? ?%bool_decide_eq_true]. done.
        - intros j y Hj Hlt. by apply (Hno j). }
      by rewrite Hfind.
    + destruct (IH (S k) f x1 Hd1) as (x2 & R2 & Q2).
      * by rewrite <- Hr1.
      * rewrite B1. lia.
      * lia.
      * rewrite B1. intros j y Hj Hy. destruct (decide (j = k)) as [->|]; [|apply (Hno j); [lia|done]].
        rewrite Hfk in Hy. injection Hy as <-. intros [Hu Hn]. rewrite Hu in Em. simpl in Em.
        by rewrite bool_decide_eq_true_2 in Em.
      * exists x2. rewrite B1 in R2. split; [|by eapply quiet_trans].
        rewrite <- R2. f_equal. lia.
  - assert (Hd24 : length d ≠ 24%nat) by tauto.
    rewrite (proj2 (Z.eqb_neq _ 24)) by lia. cbn [negb]. exists x1. split; [|done].
    assert (Hfind : list_find (entry_for name) (dirents bs) = None).
    { apply list_find_None, Forall_lookup. intros j y Hy. apply (Hno j y); [|done].
      apply lookup_lt_Some in Hy. lia. }
    by rewrite Hfind.
Qed.

Lemma slot_loop_run da a ino fuel : ∀ k e x,
  good_dir x da a ino → length e = 24%nat →
  (length (dirents (dir_bytes x ino)) < fuel + k)%nat → (0 < fuel)%nat →
  (k <= length (dirents (dir_bytes x ino)))%nat →
  (∀ j f, (j < k)%nat → dirents (dir_bytes x ino) !! j = Some f → ¬ slot_free f) →
  ∃ e' x', slot_loop fuel (Some a) (24 * Z.of_nat k) e x =
      Ret ((e', 24 * match list_find slot_free (dirents (dir_bytes x ino)) with
                     | Some p => Z.of_nat p.1
                     | None => Z.of_nat (length (dirents (dir_bytes x ino)))
                     end), x')
    ∧ quiet x x' ∧ length e' = 24%nat
    ∧ ∀ p, list_find slot_free (dirents (dir_bytes x ino)) = Some p → e' = p.2.
Proof.
  induction fuel as [|fuel IH]; intros k e x Hd He Hf Hpos Hkn Hno; [lia|]. cbn [slot_loop].
  destruct (entry_read x da a ino k Hd) as (x1 & R1 & Q1 & Hd1 & B1). rewrite (bind_Ret _ _ _ _ _ R1).
  set (bs := dir_bytes x ino) in *. destruct (dirent_read bs k) as [Hr1 Hr2].
  set (d := take 24 (drop (24 * k) bs)) in *. unfold DIR_ENTRY_SIZE.
  assert (Hdl : (length d <= 24)%nat) by (unfold d; rewrite length_take; lia).
  destruct (decide (k < length (dirents bs))%nat) as [Hk|Hk].
  - destruct (lookup_lt_is_Some_2 (dirents bs) k Hk) as [f Hfk]. rewrite Hfk in Hr1. simpl in Hr1.
    apply Hr2 in Hk as Hd24. rewrite Hd24. change (Z.of_nat 24 =? 24) with true. cbn [negb].
    rewrite overlay_full, Hr1 by done. destruct (e_in_use f) eqn:Em; cbn [negb].
    + destruct (IH (S k) f x1 Hd1) as (e' & x2 & R2 & Q2 & L2 & P2).
      * by rewrite <- Hr1.
      * rewrite B1. lia.
      * lia.
      * rewrite B1. lia.
      * rewrite B1. intros j y Hj Hy. destruct (decide (j = k)) as [->|]; [|apply (Hno j); [lia|done]].
        rewrite Hfk in Hy. injection Hy as <-. unfold slot_free. by rewrite Em.
      * exists e', x2. rewrite B1 in R2, P2. split_and!; [|by eapply quiet_trans|done|done].
        rewrite <- R2. f_equal. lia.
    + assert (Hfind : list_find slot_free (dirents bs) = Some (k, f)).
      { apply list_find_Some. split_and!; [done|done|]. intros j y Hj Hlt. by apply (Hno j). }
      rewrite Hfind. exists f, x1. split_and!; [done|done|by rewrite <- Hr1|]. by intros p [= <-].
  - assert (Hd24 : length d ≠ 24%nat) by tauto.
    rewrite (proj2 (Z.eqb_neq _ 24)) by lia. cbn [negb].
    assert (Hfind : list_find slot_free (dirents bs) = None).
    { apply list_find_None, Forall_lookup. intros j y Hy. apply (Hno j y); [|done].
      apply lookup_lt_Some in Hy. lia. }
    rewrite Hfind. exists (overlay d e), x1. split_and!; [|done|by rewrite overlay_length; lia|done].
    rewrite ret_run. do 3 f_equal. lia.
Qed.

Lemma file_bytes_length x a ino :
  good_inode x a ino →
  length (file_bytes (sectors_of x) (i_sector ino)) = Z.to_nat (dlength (inode_at (sectors_of x) (i_sector ino))).
Proof.
  intros Hg. pose proof (gi_len _ _ _ Hg) as Hl.
  apply (bytes_length ino (sectors_of x) (dev_size x) _ (gi_file _ _ _ Hg)).
  - pose proof (nblocks_bound _ (proj1 Hl)). lia.
  - intros t. apply sectors_length, Hg.
Qed.

Lemma dir_fuel x da a ino :
  good_dir x da a ino → (length (dirents (dir_bytes x ino)) < DIR_FUEL)%nat.
Proof.
  intros Hd. rewrite dirents_length. unfold dir_bytes. rewrite (file_bytes_length x a) by apply Hd.
  pose proof (gi_len _ _ _ (gd_inode _ _ _ _ Hd)) as Hl.
  unfold DIR_FUEL. apply Nat2Z.inj_lt. rewrite Nat2Z.inj_div, !Z2Nat.id by (done || lia).
  unfold DIR_ENTRY_SIZE. pose proof (Z.div_le_mono _ MAX_INODE_SIZE 24 ltac:(lia) (proj2 Hl)). lia.
Qed.

Lemma lookup_run x da a ino name junk :
  good_dir x da a ino → length junk = 24%nat →
  ∃ x', lookup (Some da) name junk x =
      Ret ((λ p : nat * list Z, (p.2, 24 * Z.of_nat p.1)) <$> list_find (entry_for name) (dirents (dir_bytes x ino)), x')
    ∧ quiet x x'.
Proof.
  intros Hd Hj. destruct (gd_dir _ _ _ _ Hd) as [p Hp]. pose proof (dir_fuel _ _ _ _ Hd) as Hf.
  unfold lookup. rewrite ASSERT_bind, (deref_bind _ _ _ _ _ Hp) by done. cbn [d_inode].
  change 0 with (24 * Z.of_nat 0) at 1. apply (lookup_loop_run da); [done|done|lia|lia|lia].
Qed.

(** The entry [dir_add] writes. *)
Definition new_entry (name : list Z) (s : Z) (is_dir : bool) (e : list Z) : list Z :=
  set_is_dir_ is_dir (set_sector_ s (set_name_ name (set_in_use_ true e))).

Definition valid_name (name : list Z) : Prop :=
  name ≠ [] ∧ nonzero name ∧ (length name <= 14)%nat.

Lemma new_entry_fields name s is_dir e :
  length e = 24%nat → valid_name name → is_u32 s →
  let e' := new_entry name s is_dir e in
  length e' = 24%nat ∧ entry_for name e' ∧ e_sector e' = s ∧ e_is_dir e' = is_dir.
Proof.
  intros He (_ & Hz & Hn) Hs. unfold new_entry, set_name_, strlcpy.
  change (15 <=? 0) with false. cbv iota. change (Z.to_nat (15 - 1)) with 14%nat.
  rewrite (take_ge name) by lia.
  set (e1 := set_in_use_ true e). assert (L1 : length e1 = 24%nat) by (by unfold e1, set_in_use_; rewrite length_insert).
  set (nf := overlay (name ++ [0]) (take 15 (drop 4 e1))).
  assert (Lnf : length nf = 15%nat).
  { unfold nf. rewrite overlay_length; rewrite length_take, length_drop, L1; [done|].
    rewrite length_app. simpl. lia. }
  assert (L2 : length (take 4 e1 ++ nf ++ drop 19 e1) = 24%nat)
    by (rewrite !length_app, length_take, length_drop, Lnf, L1; done).
  unfold set_sector_. rewrite drop_app_ge by (rewrite length_take; lia).
  rewrite length_take, L1. change (4 - 4 `min` 24)%nat with 0%nat. rewrite drop_0.
  assert (L3 : length (le_bytes s ++ nf ++ drop 19 e1) = 24%nat)
    by (rewrite !length_app, length_drop, Lnf, L1; done).
  unfold set_is_dir_. rewrite length_insert. split; [done|].
  set (e3 := le_bytes s ++ nf ++ drop 19 e1) in *.
  assert (Hu : nth 19 e1 0 = 1).
  { unfold e1, set_in_use_. apply nth_lookup_Some. rewrite list_lookup_insert_eq by lia. done. }
  assert (Hd19 : ∃ r, drop 19 e1 = 1 :: r).
  { destruct (drop 19 e1) as [|u r] eqn:Ed; [apply (f_equal length) in Ed; rewrite length_drop, L1 in Ed; done|].
    exists r. f_equal. rewrite <- Hu. symmetry. apply nth_lookup_Some.
    rewrite <- (Nat.add_0_r 19), <- lookup_drop, Ed. done. }
  destruct Hd19 as [r Hd19]. split_and!.
  - unfold entry_for, e_in_use, e_name. split.
    + replace (nth 19 (<[20%nat := b2z is_dir]> e3) 0) with 1; [done|]. symmetry. apply nth_lookup_Some.
      rewrite list_lookup_insert_ne by lia. unfold e3.
      rewrite lookup_app_r by (simpl; lia). rewrite lookup_app_r by (simpl; lia).
      rewrite Hd19, Lnf. done.
    + unfold e3. rewrite drop_insert_ge by lia. rewrite (drop_app_length' (le_bytes s)) by done.
      rewrite insert_app_r_alt by (rewrite Lnf; lia).
      unfold nf, overlay. rewrite <- !app_assoc. symmetry. by apply cstr_app.
  - unfold e_sector, e3. rewrite insert_app_r_alt by (simpl; lia).
    destruct (nf ++ drop 19 e1) eqn:En; simpl; by rewrite le_word_bytes.
  - unfold e_is_dir. replace (nth 20 (<[20%nat := b2z is_dir]> e3) 0) with (b2z is_dir); [by destruct is_dir|].
    symmetry. apply nth_lookup_Some. rewrite list_lookup_insert_eq by lia. done.
Qed.

Lemma dirents_splice bytes k e :
  (k < length (dirents bytes))%nat → length e = 24%nat →
  dirents (splice (24 * k) e bytes) = <[k := e]> (dirents bytes).
Proof.
  intros Hk He. rewrite dirents_length in Hk. pose proof Hk as Hk'. rewrite dirent_full in Hk'.
  assert (Hl : length (splice (24 * k) e bytes) = length bytes) by (apply length_splice; lia).
  apply list_eq_same_length with (n := (length bytes / 24)%nat);
    [by rewrite length_insert, dirents_length|by rewrite dirents_length, Hl|].
  intros j f g Hj Hf Hg. rewrite dirents_lookup in Hf by (by rewrite Hl). injection Hf as <-.
  apply dirent_full in Hj as Hj'. unfold splice. rewrite He.
  destruct (decide (j = k)) as [->|Hne].
  - rewrite list_lookup_insert_eq in Hg by (by rewrite dirents_length). injection Hg as <-.
    rewrite drop_app_ge by (rewrite length_take; lia). rewrite length_take, Nat.min_l by lia.
    rewrite Nat.sub_diag, drop_0. by apply take_app_length'.
  - rewrite list_lookup_insert_ne in Hg by done. rewrite dirents_lookup in Hg by done. injection Hg as <-.
    destruct (decide (j < k)%nat).
    + rewrite drop_app_le by (rewrite length_take; lia). rewrite take_app_le by (rewrite length_drop, length_take; lia).
      rewrite skipn_firstn_comm, take_take. f_equal. lia.
    + rewrite drop_app_ge by (rewrite length_take; lia). rewrite length_take, Nat.min_l by lia.
      rewrite drop_app_ge by lia. rewrite drop_drop. do 2 f_equal. lia.
Qed.

(** Filling a free slot does not disturb the search for another name. *)
Lemma find_insert name name' k e0 e (l : list (list Z)) :
  l !! k = Some e0 → slot_free e0 → entry_for name e → name' ≠ name →
  list_find (entry_for name') (<[k := e]> l) = list_find (entry_for name') l.
Proof.
  intros Hk0 Hfree [_ He] Hne.
  assert (Hnew : ¬ entry_for name' e) by (intros [_ ?]; congruence).
  assert (Hold : ¬ entry_for name' e0) by (intros [Hu _]; unfold slot_free in Hfree; congruence).
  revert k Hk0. induction l as [|f l IH]; intros [|k] Hk; try done; simpl in *.
  - injection Hk as ->. by rewrite !decide_False.
  - destruct (decide (entry_for name' f)); [done|]. by rewrite (IH k).
Qed.

Lemma find_new name k e0 e (l : list (list Z)) :
  l !! k = Some e0 → list_find (entry_for name) l = None → entry_for name e →
  list_find (entry_for name) (<[k := e]> l) = Some (k, e).
Proof.
  intros Hk0 Hno He. apply list_find_None in Hno. rewrite Forall_lookup in Hno.
  apply list_find_Some. split_and!; [|done|].
  - apply list_lookup_insert_eq. by eapply lookup_lt_Some.
  - intros j y Hj Hlt. rewrite list_lookup_insert_ne in Hj by lia. by apply (Hno j).
Qed.

(** [dir_add] up to its write. *)
Lemma dir_add_prefix x da a ino name s is_dir junk :
  good_dir x da a ino → length junk = 24%nat → valid_name name →
  list_find (entry_for name) (dirents (dir_bytes x ino)) = None →
  ∃ e x1, quiet x x1 ∧ good_dir x1 da a ino ∧ dir_bytes x1 ino = dir_bytes x ino ∧ length e = 24%nat ∧
    dir_add (Some da) name s is_dir junk x =
      (n ← inode_write_at (Some a) (new_entry name s is_dir e) DIR_ENTRY_SIZE
             (24 * match list_find slot_free (dirents (dir_bytes x ino)) with
                   | Some p => Z.of_nat p.1
                   | None => Z.of_nat (length (dirents (dir_bytes x ino)))
                   end);
       mret (n =? DIR_ENTRY_SIZE)) x1.
Proof.
  intros Hd Hj (Hne & Hz & Hn) Hno. unfold dir_add. rewrite ASSERT_bind by done.
  rewrite bool_decide_eq_false_2 by done. unfold NAME_MAX.
  rewrite (proj2 (Z.ltb_ge 14 _)) by lia. cbn [orb].
  destruct (lookup_run x da a ino name junk Hd Hj) as (x1 & R1 & Q1). rewrite (bind_Ret _ _ _ _ _ R1), Hno.
  cbn [fmap option_fmap option_map]. destruct (good_dir_quiet _ _ _ _ _ Hd Q1) as [Hd1 B1].
  destruct (gd_dir _ _ _ _ Hd1) as [p Hp]. rewrite (deref_bind _ _ _ _ _ Hp). cbn [d_inode].
  pose proof (dir_fuel _ _ _ _ Hd1) as Hf.
  destruct (slot_loop_run da a ino DIR_FUEL 0 junk x1) as (e & x2 & R2 & Q2 & L2 & _); [done|done|lia|lia|lia|lia|].
  change (24 * Z.of_nat 0) with 0 in R2. rewrite (bind_Ret _ _ _ _ _ R2), B1.
  destruct (good_dir_quiet _ _ _ _ _ Hd1 Q2) as [Hd2 B2].
  exists e, x2. split_and!; [by eapply quiet_trans|done|congruence|done|done].
Qed.

(** [lookup] returns the first entry in use with the given name, with its
    byte offset in the directory, and nothing when there is none. *)
Theorem lookup_first_entry x da a ino name junk :
  good_dir x da a ino → length junk = 24%nat →
  ∃ r x', lookup (Some da) name junk x = Ret (r, x') ∧ quiet x x' ∧
    match r with
    | Some (e, ofs) => ∃ k, dirents (dir_bytes x ino) !! k = Some e ∧ ofs = 24 * Z.of_nat k
        ∧ e_in_use e = true ∧ e_name e = name
        ∧ ∀ j f, (j < k)%nat → dirents (dir_bytes x ino) !! j = Some f → ¬ entry_for name f
    | None => ∀ f, f ∈ dirents (dir_bytes x ino) → ¬ entry_for name f
    end.
Proof.
  intros Hd Hj. destruct (lookup_run x da a ino name junk Hd Hj) as (x' & R & Q).
  destruct (list_find (entry_for name) (dirents (dir_bytes x ino))) as [[k e]|] eqn:E; simpl in R.
  - exists (Some (e, 24 * Z.of_nat k)), x'. split_and!; [done|done|].
    apply list_find_Some in E as (E1 & [E2 E3] & E4). exists k. split_and!; try done.
    intros j f Hjk Hf. by eapply E4.
  - exists None, x'. split_and!; [done|done|]. apply list_find_None in E. by rewrite Forall_forall in E.
Qed.


(** Adding a name to a directory without a free slot, whose last sector
    has room for one more entry, reports success but loses the entry: the
    directory's length is not extended, and the name is not found
    afterwards. *)
Theorem dir_add_full_lost x da a ino name s is_dir junk :
  good_dir x da a ino → deny_write_cnt ino = 0 → length junk = 24%nat → valid_name name → is_u32 s →
  list_find (entry_for name) (dirents (dir_bytes x ino)) = None →
  list_find slot_free (dirents (dir_bytes x ino)) = None →
  let len := dlength (inode_at (sectors_of x) (i_sector ino)) in
  len = 24 * Z.of_nat (length (dirents (dir_bytes x ino))) → len + 24 <= 512 * nblocks len →
  ∃ x', dir_add (Some da) name s is_dir junk x = Ret (true, x')
    ∧ list_find (entry_for name) (dirents (dir_bytes x' ino)) = None.
Proof.
  intros Hd Hdw Hj Hn Hs Hno Hk len Hlen Hroom.
  destruct (dir_add_prefix x da a ino name s is_dir junk Hd Hj Hn Hno) as (e & x1 & Q1 & Hd1 & B1 & Le & ->).
  rewrite Hk. destruct (new_entry_fields name s is_dir e Le Hn Hs) as (L' & _).
  set (e' := new_entry name s is_dir e) in *. rewrite <- Hlen.
  assert (Elen : dlength (inode_at (sectors_of x1) (i_sector ino)) = len)
    by (unfold len, inode_at; by rewrite (quiet_sectors _ _ _ Q1)).
  pose proof (gi_len _ _ _ (gd_inode _ _ _ _ Hd1)) as Hl1. rewrite Elen in Hl1.
  destruct (write_in_sectors (write_at_depth 2) x1 a ino e' DIR_ENTRY_SIZE len
    (gd_inode _ _ _ _ Hd1) (gd_mem _ _ _ _ Hd1) Hdw) as (m' & x2 & R2 & S2 & K2 & E2 & B2 & _);
    [rewrite Elen; lia|by rewrite L'|rewrite Elen; done|].
  change (inode_write_body (write_at_depth 2)) with (@inode_write_at St _) in R2.
  rewrite (bind_Ret _ _ _ _ _ R2), ret_run, Z.eqb_refl. exists x2. split; [done|].
  assert (Hb2 : dir_bytes x2 ino = dir_bytes x ino); [|by rewrite Hb2].
  unfold dir_bytes at 1. rewrite (file_bytes_ext _ m') by apply S2. rewrite <- B1.
  unfold dir_bytes, file_bytes. rewrite E2, Elen. rewrite Elen in B2. rewrite B2. unfold splice.
  pose proof (raw_length ino (sectors_of x1) (dev_size x1) _ (gi_file _ _ _ (gd_inode _ _ _ _ Hd1))
    (λ t, sectors_length x1 t (gi_store _ _ _ (gd_inode _ _ _ _ Hd1)))) as Hraw.
  rewrite Elen in Hraw. rewrite take_app_le by (rewrite length_take, Hraw; lia).
  by rewrite take_take, Nat.min_id.
Qed.
End lookups.

(** * A formatted device with an open root directory *)
Definition ex_junk : list Z := replicate 24 0.
Definition ex_root_fs : fs block :=
  Eval vm_compute in match filesys_init true 64 [0; 0] ex_junk ex_unformatted with
                     | Ret (_, x) => x | Err _ => ex_unformatted end.
Definition ex_root : addr :=
  Eval vm_compute in match filesys_init true 64 [0; 0] ex_junk ex_unformatted with
                     | Ret (Some d, _) => d | _ => 1%positive end.
Definition ex_root_inode : addr :=
  Eval vm_compute in match dirs ex_root_fs !! ex_root with Some (mk_dir (Some a) _) => a | _ => 1%positive end.
Definition ex_ino : inode := mk_inode ROOT_DIR_SECTOR 1 false 0.

(** The same with all sixteen entries in use. *)
Fixpoint ex_fill (n : nat) : cmd (fs block) unit :=
  match n with
  | O => mret tt
  | S n' => ok ← dir_add (Some ex_root) [100; 65 + Z.of_nat n'] 9 false ex_junk; ex_fill n'
  end.
Definition ex_full_fs : fs block :=
  Eval vm_compute in match ex_fill 14 ex_root_fs with Ret (_, x) => x | Err _ => ex_root_fs end.

Lemma ex_root_good : good_dir ex_root_fs ex_root ex_root_inode ex_ino.
Proof.
  split; [by eexists; vm_compute| |done].
  split; [apply block_ok_sectors; [done|by_decision]|by vm_compute| | |by_decision|].
  - split; by_decision.
  - split; [split|..]; by_decision.
  - intros E. by vm_compute in E.
Qed.

Lemma ex_full_good : good_dir ex_full_fs ex_root ex_root_inode ex_ino.
Proof.
  split; [by eexists; vm_compute| |done].
  split; [apply block_ok_sectors; [done|by_decision]|by vm_compute| | |by_decision|].
  - split; by_decision.
  - split; [split|..]; by_decision.
  - intros E. by vm_compute in E.
Qed.

Definition ex_name : list Z := [97; 98; 99].
Lemma ex_name_valid : valid_name ex_name.
Proof. split_and!; [done|repeat (apply Forall_cons; split; [done|]); apply Forall_nil_2|simpl; lia]. Qed.

Lemma lookup_first_entry_witness :
  ∃ e x', lookup (Some ex_root) dot_dot ex_junk ex_root_fs = Ret (Some (e, 0), x') ∧ e_name e = dot_dot.
Proof.
  destruct (lookup_first_entry ex_root_fs ex_root ex_root_inode ex_ino dot_dot ex_junk ex_root_good eq_refl)
    as (r & x' & R & _ & Hr).
  assert (V : match lookup (Some ex_root) dot_dot ex_junk ex_root_fs with
              | Ret (Some (_, o), _) => o | _ => -1 end = 0) by (by vm_compute).
  rewrite R in V. destruct r as [[e o]|]; [subst o|done].
  destruct Hr as (k & _ & _ & _ & Hn & _). exists e, x'. split; [exact R|exact Hn].
Defined.


Lemma dir_add_full_lost_witness :
  ∃ x', dir_add (Some ex_root) ex_name 9 false ex_junk ex_full_fs = Ret (true, x')
    ∧ list_find (entry_for ex_name) (dirents (dir_bytes x' ex_ino)) = None.
Proof.
  apply (dir_add_full_lost ex_full_fs ex_root ex_root_inode ex_ino ex_name 9 false ex_junk
    ex_full_good eq_refl eq_refl ex_name_valid); [split; done|by vm_compute..].
Defined.
