(* ===== verification/Arith.v ===== *)
(** 64-bit division on a 32-bit machine (lib/arithmetic.c).

    [divl] is the x86 instruction: it traps when the quotient does not fit 32
    bits.  [udiv64] builds the 64-bit quotient from it, by schoolbook division
    for a 32-bit divisor and by the normalising estimate of Hacker's Delight
    otherwise.  The theorems show that it never traps for a nonzero divisor and
    returns the exact quotient, what the signed version returns on every
    input, and which remainders the 32-bit return type of [umod64] and
    [smod64] can deliver. *)
From S2P Require Import Prelude.
Open Scope Z_scope.

(** [divl]: divide error if the quotient does not fit (or [d = 0]). *)
Definition divl (n d : Z) : res Z :=
  let n1 := u32 (Z.shiftr n 32) in
  let n0 := u32 n in
  let num := n1 * 2 ^ 32 + n0 in
  if (d =? 0) || (2 ^ 32 <=? num / d) then Err DivideError else Ret (num / d).

(** One step of [nlz]: if [x <= limit] add [k] and shift left by [k]. *)
Definition nlz_step (limit k : Z) (nx : Z * Z) : Z * Z :=
  let '(n, x) := nx in
  if x <=? limit then (n + k, u32 (Z.shiftl x k)) else (n, x).

Definition nlz (x : Z) : Z :=
  let s := nlz_step 0x0000FFFF 16 (0, x) in
  let s := nlz_step 0x00FFFFFF 8 s in
  let s := nlz_step 0x0FFFFFFF 4 s in
  let s := nlz_step 0x3FFFFFFF 2 s in
  let '(n, x) := s in
  if x <=? 0x7FFFFFFF then n + 1 else n.

Definition udiv64 (n d : Z) : res Z :=
  if Z.shiftr d 32 =? 0 then
    let b := Z.shiftl 1 32 in
    let n1 := u32 (Z.shiftr n 32) in
    let n0 := u32 n in
    let d0 := u32 d in
    if d0 =? 0 then Err DivideError else
    q ← divl (u64 (b * (n1 mod d0) + n0)) d0;
    Ret (u64 (q + b * (n1 / d0)))
  else if n <? d then Ret 0
  else
    let d1 := u32 (Z.shiftr d 32) in
    let s := nlz d1 in
    q0 ← divl (Z.shiftr n 1) (u32 (Z.shiftr (u64 (Z.shiftl d s)) 32));
    let q := Z.shiftr q0 (31 - s) in
    Ret (if u64 (n - u64 (u64 (q - 1) * d)) <? d then u64 (q - 1) else q).

(** The remainder is returned as a [uint32_t]. *)
Definition umod64 (n d : Z) : res Z :=
  q ← udiv64 n d; Ret (u32 (u64 (n - u64 (d * q)))).

Definition sdiv64 (n d : Z) : res Z :=
  let n_abs := if 0 <=? n then u64 n else u64 (- u64 n) in
  let d_abs := if 0 <=? d then u64 d else u64 (- u64 d) in
  q_abs ← udiv64 n_abs d_abs;
  Ret (if eqb (n <? 0) (d <? 0) then s64 q_abs else s64 (- s64 q_abs)).

(** The remainder is returned as an [int32_t]. *)
Definition smod64 (n d : Z) : res Z :=
  q ← sdiv64 n d; Ret (s32 (s64 (n - s64 (d * q)))).

(** The entry points GCC calls. *)
Definition __divdi3 (n d : Z) : res Z := sdiv64 n d.
Definition __moddi3 (n d : Z) : res Z := smod64 n d.
Definition __udivdi3 (n d : Z) : res Z := udiv64 n d.
Definition __umoddi3 (n d : Z) : res Z := umod64 n d.

(** * Lemmas *)
Lemma u64_small z : 0 <= z < 2 ^ 64 → u64 z = z.
Proof. intros. by apply Z.mod_small. Qed.

Lemma shiftr_div a k : 0 <= k → Z.shiftr a k = a / 2 ^ k.
Proof. apply Z.shiftr_div_pow2. Qed.

Lemma divl_ok n d :
  0 <= n < 2 ^ 64 → 0 < d → n / d < 2 ^ 32 → divl n d = Ret (n / d).
Proof.
  intros Hn Hd Hq. unfold divl. rewrite shiftr_div by lia.
  rewrite (u32_small (n / 2 ^ 32)).
  2:{ split; [apply Z.div_pos; lia|]. apply Z.div_lt_upper_bound; lia. }
  replace (n / 2 ^ 32 * 2 ^ 32 + u32 n) with n by (unfold u32; pose proof (Z.div_mod n (2 ^ 32)); lia).
  rewrite (proj2 (Z.eqb_neq d 0)) by lia. by rewrite (proj2 (Z.leb_gt _ _)) by lia.
Qed.

(** [nlz] normalises: shifting left by it sets bit 31. *)
Definition norm_from (lo x0 : Z) (s : Z * Z) : Prop :=
  0 <= s.1 ∧ s.2 = x0 * 2 ^ s.1 ∧ lo <= s.2 < 2 ^ 32.

Lemma nlz_step_norm x0 lo limit k s :
  norm_from lo x0 s → 0 < k → 0 < lo →
  (limit + 1) * 2 ^ k = 2 ^ 32 →
  norm_from (Z.min (lo * 2 ^ k) (limit + 1)) x0 (nlz_step limit k s).
Proof.
  intros (Hn & Hx & Hr) Hk Hlo Hlim. destruct s as [n x]; simpl in *.
  assert (0 < 2 ^ k) by (apply Z.pow_pos_nonneg; lia).
  unfold nlz_step, norm_from. destruct (Z.leb_spec x limit); cbn [fst snd].
  - rewrite Z.shiftl_mul_pow2 by lia. rewrite u32_small by nia.
    rewrite Z.pow_add_r by lia. repeat split; nia.
  - repeat split; nia.
Qed.

Lemma nlz_norm x :
  0 < x < 2 ^ 32 → 0 <= nlz x <= 31 ∧ 2 ^ 31 <= x * 2 ^ nlz x < 2 ^ 32.
Proof.
  intros Hx. unfold nlz.
  assert (H0 : norm_from 1 x (0, x)) by (unfold norm_from; cbn [fst snd]; lia).
  apply (nlz_step_norm x 1 0x0000FFFF 16) in H0; [|lia..].
  apply (nlz_step_norm x _ 0x00FFFFFF 8) in H0; [|lia..].
  apply (nlz_step_norm x _ 0x0FFFFFFF 4) in H0; [|lia..].
  apply (nlz_step_norm x _ 0x3FFFFFFF 2) in H0; [|lia..].
  destruct (nlz_step 0x3FFFFFFF 2 _) as [n y]. destruct H0 as (Hn & Hy & Hr); cbn [fst snd] in *.
  assert (Hlt : ∀ m, 0 <= m → x * 2 ^ m < 2 ^ 32 → m <= 31).
  { intros m Hm Hb. destruct (Z.le_gt_cases m 31); [done|].
    assert (2 ^ 32 <= 2 ^ m) by (apply Z.pow_le_mono_r; lia). nia. }
  destruct (Z.leb_spec y 0x7FFFFFFF).
  - assert (E : x * 2 ^ (n + 1) = 2 * y) by (rewrite Z.pow_add_r by lia; lia).
    rewrite E. split; [|lia]. split; [lia|]. apply Hlt; lia.
  - rewrite <- Hy. split; [|lia]. split; [lia|]. apply Hlt; lia.
Qed.

(** The 32-bit divisor case. *)
Lemma udiv64_small n d :
  0 <= n < 2 ^ 64 → 0 < d < 2 ^ 32 → udiv64 n d = Ret (n / d).
Proof.
  intros Hn Hd. unfold udiv64. rewrite !shiftr_div by lia.
  rewrite (Z.div_small d) by lia. rewrite Z.eqb_refl, Z.shiftl_1_l.
  assert (Hn1 : 0 <= n / 2 ^ 32 < 2 ^ 32).
  { split; [apply Z.div_pos; lia|apply Z.div_lt_upper_bound; lia]. }
  rewrite (u32_small (n / 2 ^ 32)) by done. rewrite (u32_small d) by lia.
  rewrite (proj2 (Z.eqb_neq d 0)) by lia.
  set (n1 := n / 2 ^ 32) in *. pose proof (u32_range n) as Hn0. set (n0 := u32 n) in *.
  assert (En : n = 2 ^ 32 * n1 + n0) by (unfold n0, n1, u32; apply Z.div_mod; lia).
  pose proof (Z.mod_pos_bound n1 d ltac:(lia)) as Hm. pose proof (Z.div_mod n1 d ltac:(lia)) as E1.
  assert (Hb : 0 <= 2 ^ 32 * (n1 mod d) + n0 < 2 ^ 64) by nia.
  rewrite u64_small by done.
  assert (Hq : (2 ^ 32 * (n1 mod d) + n0) / d < 2 ^ 32) by (apply Z.div_lt_upper_bound; nia).
  rewrite divl_ok by (done || lia). unfold mbind, res_bind. f_equal.
  assert (E : n / d = (2 ^ 32 * (n1 mod d) + n0) / d + 2 ^ 32 * (n1 / d)).
  { rewrite <- Z.div_add by lia. f_equal. nia. }
  rewrite <- E. apply u64_small. split; [apply Z.div_pos; lia|].
  apply Z.div_lt_upper_bound; nia.
Qed.

(** The estimate: dividing by the top part [v * w] of [d = v * w + r]
    overshoots by at most one. *)
Lemma estimate n d v w r :
  d = v * w + r → 0 <= r < w → 0 < v → 0 <= n → (n / d + 1) * r <= v * w →
  n / d <= n / (v * w) <= n / d + 1.
Proof.
  intros Hd Hr Hv Hn Hb. assert (Hvw : 0 < v * w) by nia.
  pose proof (Z.div_mod n d ltac:(lia)) as E. pose proof (Z.mod_pos_bound n d ltac:(lia)) as Hm.
  assert (0 <= n / d) by (apply Z.div_pos; lia).
  split.
  - apply Z.div_le_lower_bound; nia.
  - assert (n / (v * w) < n / d + 2); [|lia]. apply Z.div_lt_upper_bound; nia.
Qed.

Lemma norm_shift d s :
  0 <= s <= 31 → 2 ^ 31 <= d / 2 ^ 32 * 2 ^ s < 2 ^ 32 → 0 <= d < 2 ^ 64 →
  d * 2 ^ s < 2 ^ 64.
Proof.
  intros Hs Hn Hd. pose proof (Z.div_mod d (2 ^ 32) ltac:(lia)).
  pose proof (Z.mod_pos_bound d (2 ^ 32) ltac:(lia)).
  assert (E : 2 ^ (32 - s) * 2 ^ s = 2 ^ 32) by (rewrite <- Z.pow_add_r by lia; f_equal; lia).
  assert (0 < 2 ^ s) by (apply Z.pow_pos_nonneg; lia).
  assert (0 < 2 ^ (32 - s)) by (apply Z.pow_pos_nonneg; lia).
  assert (d / 2 ^ 32 < 2 ^ (32 - s)) by nia. nia.
Qed.

(** The quotient [q] the large-divisor case computes before its correction. *)
Lemma udiv64_estimate n d (s := nlz (d / 2 ^ 32)) :
  0 <= n < 2 ^ 64 → 2 ^ 32 <= d < 2 ^ 64 →
  ∃ q0, divl (n / 2) (d * 2 ^ s / 2 ^ 32) = Ret q0 ∧
        n / d <= q0 / 2 ^ (31 - s) <= n / d + 1.
Proof.
  intros Hn Hd.
  assert (Hd1 : 0 < d / 2 ^ 32 < 2 ^ 32).
  { split; [apply Z.div_str_pos; lia|apply Z.div_lt_upper_bound; lia]. }
  destruct (nlz_norm _ Hd1) as [Hs Hnorm]. fold s in Hs, Hnorm.
  pose proof (norm_shift d s Hs Hnorm ltac:(lia)) as Hds.
  assert (Ew : 2 ^ (32 - s) * 2 ^ s = 2 ^ 32) by (rewrite <- Z.pow_add_r by lia; f_equal; lia).
  assert (Hs0 : 0 < 2 ^ s) by (apply Z.pow_pos_nonneg; lia).
  assert (Hw0 : 0 < 2 ^ (32 - s)) by (apply Z.pow_pos_nonneg; lia).
  set (w := 2 ^ (32 - s)) in *. set (v := d * 2 ^ s / 2 ^ 32).
  assert (Ev : v = d / w).
  { unfold v. rewrite <- Ew. rewrite Z.div_mul_cancel_r; lia. }
  assert (Hv : 2 ^ 31 <= v).
  { unfold v. apply Z.div_le_lower_bound; [lia|].
    pose proof (Z.div_mod d (2 ^ 32) ltac:(lia)). pose proof (Z.mod_pos_bound d (2 ^ 32) ltac:(lia)). nia. }
  pose proof (Z.div_mod d w ltac:(lia)) as Ed. pose proof (Z.mod_pos_bound d w ltac:(lia)) as Hr.
  rewrite <- Ev in Ed.
  exists (n / 2 / v). split.
  { apply divl_ok; [|lia|].
    - split; [apply Z.div_pos; lia|apply Z.div_lt_upper_bound; lia].
    - apply Z.div_lt_upper_bound; [lia|]. apply Z.div_lt_upper_bound; lia. }
  assert (Eq : n / 2 / v / 2 ^ (31 - s) = n / (v * w)).
  { assert (0 < 2 ^ (31 - s)) by (apply Z.pow_pos_nonneg; lia).
    rewrite !Z.div_div by lia. f_equal. unfold w.
    replace (32 - s) with (Z.succ (31 - s)) by lia. rewrite Z.pow_succ_r by lia. lia. }
  rewrite Eq. apply (estimate n d v w (d mod w)); [lia|lia|lia|lia|].
  assert (Hq : n / d < 2 ^ s * 2).
  { apply Z.div_lt_upper_bound; [lia|]. assert (2 ^ 31 * w <= d) by nia. nia. }
  assert (0 <= n / d) by (apply Z.div_pos; lia).
  apply (Z.le_trans _ (2 ^ s * 2 * (w - 1))); [apply Z.mul_le_mono_nonneg; lia|].
  replace (2 ^ s * 2 * (w - 1)) with (2 ^ 33 - 2 * 2 ^ s) by lia.
  apply (Z.le_trans _ (2 ^ 31 * w)); [|apply Z.mul_le_mono_nonneg_r; lia].
  destruct (decide (s = 31)) as [Es|]; [unfold w; rewrite Es; lia|].
  assert (2 ^ 2 <= w) by (unfold w; apply Z.pow_le_mono_r; lia). lia.
Qed.

Lemma udiv64_large n d :
  0 <= n < 2 ^ 64 → 2 ^ 32 <= d < 2 ^ 64 → udiv64 n d = Ret (n / d).
Proof.
  intros Hn Hd. unfold udiv64. rewrite !shiftr_div by lia.
  assert (Hd1 : 0 < d / 2 ^ 32 < 2 ^ 32).
  { split; [apply Z.div_str_pos; lia|apply Z.div_lt_upper_bound; lia]. }
  rewrite (proj2 (Z.eqb_neq _ 0)) by lia.
  destruct (Z.ltb_spec n d); [rewrite Z.div_small by lia; done|].
  rewrite (u32_small (d / 2 ^ 32)) by lia. cbv zeta.
  destruct (nlz_norm _ Hd1) as [Hs Hnorm].
  pose proof (norm_shift d _ Hs Hnorm ltac:(lia)) as Hds.
  assert (0 < 2 ^ nlz (d / 2 ^ 32)) by (apply Z.pow_pos_nonneg; lia).
  rewrite Z.shiftl_mul_pow2, u64_small by lia.
  rewrite (u32_small (_ / 2 ^ 32)).
  2:{ split; [apply Z.div_pos; lia|apply Z.div_lt_upper_bound; lia]. }
  change (2 ^ 1) with 2.
  destruct (udiv64_estimate n d Hn Hd) as (q0 & -> & Hq). unfold mbind, res_bind.
  rewrite shiftr_div by lia. set (q := q0 / _) in *. f_equal.
  pose proof (Z.div_mod n d ltac:(lia)) as En. pose proof (Z.mod_pos_bound n d ltac:(lia)) as Hm.
  assert (1 <= n / d) by (apply Z.div_le_lower_bound; lia).
  assert (n / d < 2 ^ 32) by (apply Z.div_lt_upper_bound; lia).
  rewrite (u64_small (q - 1)) by lia.
  assert (0 <= (q - 1) * d <= n) by nia. rewrite (u64_small ((q - 1) * d)) by lia.
  rewrite u64_small by lia.
  destruct (Z.ltb_spec (n - (q - 1) * d) d); nia.
Qed.

Lemma udiv64_exact n d :
  0 <= n < 2 ^ 64 → 0 < d < 2 ^ 64 → udiv64 n d = Ret (n / d).
Proof.
  intros Hn Hd. destruct (Z.lt_ge_cases d (2 ^ 32)).
  - apply udiv64_small; lia.
  - apply udiv64_large; lia.
Qed.

Lemma u64_abs n : - 2 ^ 63 <= n < 2 ^ 63 →
  (if 0 <=? n then u64 n else u64 (- u64 n)) = Z.abs n.
Proof.
  intros Hn. destruct (Z.leb_spec 0 n).
  - rewrite u64_small; lia.
  - assert (E : u64 n = n + 2 ^ 64).
    { unfold u64. rewrite <- (Z.mod_add n 1) by lia. rewrite Z.mod_small; lia. }
    rewrite E. assert (E' : u64 (- (n + 2 ^ 64)) = - n).
    { unfold u64. rewrite <- (Z.mod_add _ 1) by lia. rewrite Z.mod_small; lia. }
    rewrite E'. lia.
Qed.

Lemma quot_abs_sign n d :
  d <> 0 → n ÷ d = if eqb (n <? 0) (d <? 0) then Z.abs n / Z.abs d else - (Z.abs n / Z.abs d).
Proof.
  intros Hd.
  destruct (Z.ltb_spec n 0), (Z.ltb_spec d 0); cbn [eqb].
  - rewrite <- Z.quot_opp_opp by lia. rewrite Z.quot_div_nonneg by lia. f_equal; lia.
  - rewrite <- (Z.opp_involutive n) at 1. rewrite Z.quot_opp_l by lia.
    rewrite Z.quot_div_nonneg by lia. do 2 f_equal; lia.
  - rewrite <- (Z.opp_involutive d) at 1. rewrite Z.quot_opp_r by lia.
    rewrite Z.quot_div_nonneg by lia. do 2 f_equal; lia.
  - rewrite Z.quot_div_nonneg by lia. f_equal; lia.
Qed.

Lemma sdiv64_exact n d :
  - 2 ^ 63 <= n < 2 ^ 63 → - 2 ^ 63 <= d < 2 ^ 63 → d <> 0 →
  sdiv64 n d = Ret (s64 (n ÷ d)).
Proof.
  intros Hn Hd Hd0. unfold sdiv64. rewrite !u64_abs by done.
  rewrite udiv64_exact by lia. unfold mbind, res_bind. f_equal.
  rewrite quot_abs_sign by done. destruct (eqb _ _); [done|].
  assert (0 <= Z.abs n / Z.abs d <= 2 ^ 63).
  { split; [apply Z.div_pos; lia|]. apply Z.div_le_upper_bound; nia. }
  destruct (decide (Z.abs n / Z.abs d = 2 ^ 63)) as [->|]; [done|].
  by rewrite (s64_small (Z.abs n / _)) by lia.
Qed.

Lemma s64_mod_2_64 z : s64 z mod 2 ^ 64 = z mod 2 ^ 64.
Proof.
  unfold s64. rewrite <- (Z.mod_add (_ - 2 ^ 63) 0) by lia.
  replace ((z + 2 ^ 63) mod 2 ^ 64 - 2 ^ 63 + 0 * 2 ^ 64) with ((z + 2 ^ 63) mod 2 ^ 64 + - 2 ^ 63) by lia.
  rewrite Z.add_mod_idemp_l by lia. f_equal. lia.
Qed.

Lemma s32_mod z z' : z mod 2 ^ 32 = z' mod 2 ^ 32 → s32 z = s32 z'.
Proof.
  intros E. unfold s32. f_equal. rewrite <- Z.add_mod_idemp_l by lia.
  rewrite E, Z.add_mod_idemp_l by lia. done.
Qed.

Lemma mod_64_32 z z' : z mod 2 ^ 64 = z' mod 2 ^ 64 → z mod 2 ^ 32 = z' mod 2 ^ 32.
Proof.
  assert (H : ∀ x, x mod 2 ^ 32 = (x mod 2 ^ 64) mod 2 ^ 32).
  { intros x. pose proof (Z.div_mod x (2 ^ 64) ltac:(lia)) as E.
    rewrite E at 1. replace (2 ^ 64 * (x / 2 ^ 64) + x mod 2 ^ 64)
      with (x mod 2 ^ 64 + (2 ^ 32 * (x / 2 ^ 64)) * 2 ^ 32) by lia.
    by rewrite Z.mod_add by lia. }
  intros E. by rewrite H, E, <- H.
Qed.

(** * Theorems *)

(** C28: 64-bit unsigned division never raises a divide error for a nonzero
    divisor and returns the exact quotient, for every 64-bit dividend and
    divisor; its remainder routine returns the low 32 bits of the exact
    remainder, which is the remainder itself whenever the divisor fits 32
    bits. *)
Theorem udivdi3_umoddi3_exact (n d : Z) :
  0 <= n < 2 ^ 64 → 0 < d < 2 ^ 64 →
  __udivdi3 n d = Ret (n / d) ∧
  __umoddi3 n d = Ret ((n mod d) mod 2 ^ 32) ∧
  (d <= 2 ^ 32 → __umoddi3 n d = Ret (n mod d)).
Proof.
  intros Hn Hd.
  assert (E : __umoddi3 n d = Ret ((n mod d) mod 2 ^ 32)).
  { unfold __umoddi3, umod64. rewrite udiv64_exact by done. unfold mbind, res_bind.
    pose proof (Z.div_mod n d ltac:(lia)). pose proof (Z.mod_pos_bound n d ltac:(lia)).
    assert (0 <= d * (n / d)) by (apply Z.mul_nonneg_nonneg; [lia|apply Z.div_pos; lia]).
    rewrite (u64_small (d * _)) by lia. rewrite u64_small by lia.
    unfold u32. do 2 f_equal. lia. }
  split; [by apply udiv64_exact|]. split; [done|]. intros Hd'. rewrite E. f_equal.
  apply Z.mod_small. pose proof (Z.mod_pos_bound n d). lia.
Qed.

Lemma udivdi3_umoddi3_exact_witness :
  __udivdi3 (2 ^ 64 - 1) (3 * 2 ^ 33 + 5) = Ret ((2 ^ 64 - 1) / (3 * 2 ^ 33 + 5)) ∧
  __umoddi3 (2 ^ 64 - 1) 1000 = Ret ((2 ^ 64 - 1) mod 1000).
Proof.
  destruct (udivdi3_umoddi3_exact (2 ^ 64 - 1) (3 * 2 ^ 33 + 5)) as [H1 _]; [lia..|].
  destruct (udivdi3_umoddi3_exact (2 ^ 64 - 1) 1000) as (_ & _ & H2); [lia..|].
  split; [exact H1|apply H2; lia].
Defined.

(** signed 64-bit division truncates toward zero and wraps only for the
    one overflowing case; its remainder routine returns the truncated
    remainder reduced to 32 bits. *)
Theorem divdi3_moddi3_exact (n d : Z) :
  - 2 ^ 63 <= n < 2 ^ 63 → - 2 ^ 63 <= d < 2 ^ 63 → d <> 0 →
  (¬ (n = - 2 ^ 63 ∧ d = -1) → __divdi3 n d = Ret (n ÷ d)) ∧
  (n = - 2 ^ 63 ∧ d = -1 → __divdi3 n d = Ret (- 2 ^ 63)) ∧
  __moddi3 n d = Ret (s32 (Z.rem n d)).
Proof.
  intros Hn Hd Hd0. unfold __divdi3, __moddi3, smod64. rewrite !sdiv64_exact by done.
  split; [|split].
  - intros Hov. f_equal. apply s64_small.
    assert (Hq : Z.abs (n ÷ d) = Z.abs n / Z.abs d).
    { rewrite <- Z.quot_abs by done. apply Z.quot_div_nonneg; lia. }
    assert (Z.abs n / Z.abs d <= Z.abs n) by (apply Z.div_le_upper_bound; nia).
    destruct (decide (n = - 2 ^ 63)) as [->|]; [|lia].
    destruct (decide (d = 1)) as [->|]; [done|].
    assert (Z.abs (- 2 ^ 63) / Z.abs d < 2 ^ 63); [|lia].
    apply Z.div_lt_upper_bound; lia.
  - intros [-> ->]. done.
  - unfold mbind, res_bind. f_equal. apply s32_mod, mod_64_32.
    rewrite s64_mod_2_64, Zminus_mod, s64_mod_2_64, <- Z.mul_mod_idemp_r, s64_mod_2_64,
      Z.mul_mod_idemp_r, <- Zminus_mod by lia.
    f_equal. pose proof (Z.quot_rem' n d). lia.
Qed.

Lemma divdi3_moddi3_exact_witness :
  __divdi3 (-7) 2 = Ret (-7 ÷ 2) ∧ __divdi3 (- 2 ^ 63) (-1) = Ret (- 2 ^ 63) ∧
  __moddi3 (-7) 2 = Ret (s32 (Z.rem (-7) 2)).
Proof.
  destruct (divdi3_moddi3_exact (-7) 2) as (H1 & _ & H3); [lia..|].
  destruct (divdi3_moddi3_exact (- 2 ^ 63) (-1)) as (_ & H2 & _); [lia..|].
  split; [apply H1; lia|split; [apply H2; lia|exact H3]].
Defined.
