(* ===== verification/KListFamily.v ===== *)
(** Families of disjoint kernel lists.

    Clients of list.c (hash tables, the descriptor lists of malloc) keep many
    lists in one memory.  [family h F] says that [F] gives the contents of
    disjoint lists of the heap [h]; the lemmas restate the list routines on
    one member of a family and show that the others keep their contents. *)
From S2P Require Import Prelude KList.

Abbreviation fam := (list (klist * list loc)).

Definition fnodes (F : fam) : list loc := F ≫= λ p, nodes p.1 p.2.

Definition family (h : heap) (F : fam) : Prop :=
  Forall (λ p, is_list h p.1 p.2) F ∧ NoDup (fnodes F).

Lemma fnodes_app F G : fnodes (F ++ G) = fnodes F ++ fnodes G.
Proof. apply bind_app. Qed.

Lemma fnodes_cons l xs F : fnodes ((l, xs) :: F) = nodes l xs ++ fnodes F.
Proof. done. Qed.

Lemma elem_of_fnodes x F : x ∈ fnodes F ↔ ∃ p, p ∈ F ∧ x ∈ nodes p.1 p.2.
Proof. unfold fnodes. rewrite list_elem_of_bind. naive_solver. Qed.

Lemma elem_of_nodes x l xs : x ∈ nodes l xs ↔ x = head l ∨ x ∈ xs ∨ x = tail l.
Proof. unfold nodes. rewrite elem_of_cons, elem_of_app, list_elem_of_singleton. tauto. Qed.

#[global] Instance fnodes_perm : Proper ((≡ₚ) ==> (≡ₚ)) fnodes.
Proof. intros F G HFG. unfold fnodes. by rewrite HFG. Qed.

#[global] Instance family_perm h : Proper ((≡ₚ) ==> iff) (family h).
Proof. intros F G HFG. unfold family. by rewrite HFG. Qed.

Section family.
Context (h : heap).

Lemma family_app F G :
  family h (F ++ G) ↔ family h F ∧ family h G ∧ (∀ x, x ∈ fnodes F → x ∉ fnodes G).
Proof. unfold family. rewrite Forall_app, fnodes_app, NoDup_app. tauto. Qed.

Lemma family_cons l xs F :
  family h ((l, xs) :: F) ↔ is_list h l xs ∧ family h F ∧ (∀ x, x ∈ nodes l xs → x ∉ fnodes F).
Proof.
  unfold family. rewrite Forall_cons, fnodes_cons, NoDup_app. simpl. split.
  - tauto.
  - intros (Hl & HF & Hd). split_and!; try tauto. apply Hl.
Qed.

Lemma family_middle A l xs B :
  family h (A ++ (l, xs) :: B) ↔ family h ((l, xs) :: A ++ B).
Proof. by rewrite Permutation_middle. Qed.

Lemma family_get A l xs B : family h (A ++ (l, xs) :: B) → is_list h l xs.
Proof. rewrite family_middle, family_cons. tauto. Qed.

Lemma family_dom F x : family h F → x ∈ fnodes F → is_Some (h !! x).
Proof.
  intros [HF _] (p & Hp & Hx)%elem_of_fnodes. rewrite Forall_forall in HF.
  destruct (HF p Hp) as [Hs _]. by eapply seg_lookup.
Qed.
End family.

(** Changing memory away from a family keeps it. *)
Lemma family_frame S h h' F :
  frame S h h' → (∀ x, x ∈ fnodes F → x ∉ S) → family h F → family h' F.
Proof.
  intros Hf Hd [HF Hn]. split; [|done]. rewrite Forall_forall in *. intros p Hp.
  destruct (HF p Hp) as [Hs ?]. split; [|done]. eapply seg_frame; [done| |done].
  intros x Hx. apply Hd, elem_of_fnodes. eauto.
Qed.

(** Replacing one member, by a routine that touches only its nodes. *)
Lemma family_update h h' l xs xs' F S :
  family h ((l, xs) :: F) → is_list h' l xs' → frame S h h' →
  (∀ x, x ∈ S ∨ x ∈ xs' → x ∉ fnodes F) → family h' ((l, xs') :: F).
Proof.
  rewrite !family_cons. intros (Hl & HF & Hd) Hl' Hf HS. split_and!; [done| |].
  - eapply family_frame; [done| |done]. intros x Hx HxS. apply (HS x); [by left|done].
  - intros x. rewrite elem_of_nodes. intros [->|[Hx| ->]].
    + apply Hd, elem_of_nodes. tauto.
    + apply HS. by right.
    + apply Hd, elem_of_nodes. tauto.
Qed.

Section routines.
Context (h : heap) (A : fam) (l : klist) (B : fam).

Lemma family_push_front xs e :
  family h (A ++ (l, xs) :: B) → e ∉ fnodes (A ++ (l, xs) :: B) → is_Some (h !! e) →
  ∃ h', list_push_front l (Some e) h = Ret (tt, h')
      ∧ family h' (A ++ (l, e :: xs) :: B) ∧ frame (nodes l (e :: xs)) h h'.
Proof.
  rewrite family_middle. intros HF He Hs.
  assert (He' : e ∉ nodes l xs ∧ e ∉ fnodes (A ++ B)).
  { rewrite fnodes_app, fnodes_cons in He. rewrite fnodes_app. set_solver. }
  pose proof (proj1 (family_cons _ _ _ _) HF) as (Hl & _ & Hd).
  destruct (list_push_front_list h l xs e) as (h' & H1 & H2 & H3); [done..|tauto|done|].
  exists h'. split_and!; [done| |done]. rewrite family_middle.
  eapply family_update; [done..|]. intros x. rewrite elem_of_nodes, !elem_of_cons.
  intros Hx Hx'. apply (Hd x); [|done]. rewrite elem_of_nodes.
  destruct Hx as [[|[[->|]|]]|[->|]]; tauto.
Qed.

Lemma family_push_back xs e :
  family h (A ++ (l, xs) :: B) → e ∉ fnodes (A ++ (l, xs) :: B) → is_Some (h !! e) →
  ∃ h', list_push_back l (Some e) h = Ret (tt, h')
      ∧ family h' (A ++ (l, xs ++ [e]) :: B) ∧ dom h' = dom h.
Proof.
  rewrite family_middle. intros HF He Hs.
  assert (He' : e ∉ nodes l xs ∧ e ∉ fnodes (A ++ B)).
  { rewrite fnodes_app, fnodes_cons in He. rewrite fnodes_app. set_solver. }
  pose proof (proj1 (family_cons _ _ _ _) HF) as (Hl & _ & Hd).
  destruct (list_push_back_list h l xs e) as (h' & H1 & H2 & H3); [done..|tauto|done|].
  exists h'. split_and!; [done| |apply H3]. rewrite family_middle.
  eapply family_update; [done..|]. intros x. rewrite elem_of_nodes, !elem_of_app, list_elem_of_singleton.
  intros Hx Hx'. assert (Hne : x ≠ e) by (intros ->; tauto). apply (Hd x); [|done]. rewrite elem_of_nodes. tauto.
Qed.

Lemma family_remove xs e ys :
  family h (A ++ (l, xs ++ e :: ys) :: B) →
  ∃ h', list_remove (Some e) h = Ret (hd_or (Some (tail l)) ys, h')
      ∧ family h' (A ++ (l, xs ++ ys) :: B) ∧ e ∉ fnodes (A ++ (l, xs ++ ys) :: B)
      ∧ is_Some (h' !! e) ∧ frame (nodes l (xs ++ ys)) h h'.
Proof.
  rewrite family_middle. intros HF.
  pose proof (proj1 (family_cons _ _ _ _) HF) as (Hl & _ & Hd).
  assert (He : e ∈ nodes l (xs ++ e :: ys)) by (apply elem_of_nodes; set_solver).
  destruct (list_remove_list h l xs e ys Hl) as (h' & H1 & H2 & H3 & H4 & H5).
  exists h'. split_and!; [done| | | |done].
  - rewrite family_middle. eapply family_update; [done..|]. intros x Hx. apply Hd.
    rewrite !elem_of_nodes in *. set_solver.
  - rewrite fnodes_app, fnodes_cons. specialize (Hd e He).
    rewrite fnodes_app in Hd. set_solver.
  - rewrite H3. destruct Hl as [Hs _]. by eapply seg_lookup.
Qed.
End routines.

(** [list_init] on unused sentinels adds an empty member. *)
Lemma list_init_run h l :
  is_Some (h !! head l) → is_Some (h !! tail l) → head l ≠ tail l →
  ∃ h', list_init l h = Ret (tt, h') ∧ is_list h' l [] ∧ frame [head l; tail l] h h'.
Proof.
  intros [[p n] Hh] [[p' n'] Ht] Hne. unfold list_init. eexists. split; [by runsteps|]. split.
  - split; [|unfold nodes; apply NoDup_cons; split; [set_solver|apply NoDup_singleton]].
    unfold nodes. cbn [seg app hd_or]. split_and!; by simplify_map_eq.
  - frames.
Qed.

(** A family depends on its own nodes only. *)
Lemma seg_agree h h' p xs q :
  (∀ x, x ∈ xs → h' !! x = h !! x) → seg h p xs q → seg h' p xs q.
Proof.
  revert p. induction xs as [|y xs IH]; intros p Ha; simpl; [done|]. intros [H1 H2]. split.
  - rewrite Ha; [done|set_solver].
  - apply IH; [|done]. intros x Hx. apply Ha. set_solver.
Qed.

Lemma family_agree h h' F :
  (∀ x, x ∈ fnodes F → h' !! x = h !! x) → family h F → family h' F.
Proof.
  intros Ha [HF Hn]. split; [|done]. rewrite Forall_forall in *. intros p Hp.
  destruct (HF p Hp) as [Hs ?]. split; [|done]. eapply seg_agree; [|done].
  intros x Hx. apply Ha, elem_of_fnodes. eauto.
Qed.

(** The sentinels of an array of lists, and the array with every list empty. *)
Definition sentinels (bs : list klist) : list loc := bs ≫= λ b, [head b; tail b].
Definition empties (bs : list klist) : fam := (λ b, (b, [])) <$> bs.

Lemma fnodes_empties bs : fnodes (empties bs) = sentinels bs.
Proof. unfold fnodes, empties, sentinels. induction bs as [|b bs IH]; [done|]. simpl. by f_equal; f_equal. Qed.

Lemma elem_of_fnodes_zip x bs xss :
  length xss = length bs → x ∈ fnodes (zip bs xss) ↔ x ∈ sentinels bs ∨ x ∈ concat xss.
Proof.
  unfold fnodes, sentinels. revert xss. induction bs as [|b bs IH]; intros [|xs xss] E; try done.
  - simpl. set_solver.
  - injection E as E. specialize (IH xss E). simpl. unfold mbind in IH.
    rewrite !elem_of_cons, !elem_of_app, list_elem_of_singleton, IH. tauto.
Qed.

Lemma zip_split (bs : list klist) (xss : list (list loc)) i b xs :
  bs !! i = Some b → xss !! i = Some xs →
  ∃ A B, zip bs xss = A ++ (b, xs) :: B ∧ ∀ xs', zip bs (<[i:=xs']> xss) = A ++ (b, xs') :: B.
Proof.
  revert bs xss. induction i as [|i IH]; intros [|b' bs] [|ys xss] Hb Hx; try done; simpl in *.
  - simplify_eq. by exists [], (zip bs xss).
  - destruct (IH bs xss Hb Hx) as (A & B & E & E'). exists ((b', ys) :: A), B.
    split; [by rewrite E|]. intros xs'. simpl. by rewrite E'.
Qed.

Lemma concat_update (xss : list (list loc)) i xs xs' ys :
  xss !! i = Some xs → xs' ≡ₚ ys ++ xs → concat (<[i:=xs']> xss) ≡ₚ ys ++ concat xss.
Proof.
  revert i. induction xss as [|zs xss IH]; intros [|i] Hi E; try done; simpl in *.
  - simplify_eq. by rewrite E, app_assoc.
  - rewrite (IH i Hi E), !(app_assoc zs), !(app_assoc ys). by rewrite (Permutation_app_comm zs).
Qed.

Lemma concat_update_remove (xss : list (list loc)) i xs e ys :
  xss !! i = Some (xs ++ e :: ys) → concat xss ≡ₚ e :: concat (<[i:=xs ++ ys]> xss).
Proof.
  intros Hi. transitivity (concat (<[i:=xs ++ e :: ys]> (<[i:=xs ++ ys]> xss))).
  - by rewrite list_insert_insert_eq, list_insert_id.
  - apply (concat_update _ i (xs ++ ys) _ [e]).
    + rewrite list_lookup_insert_eq; [done|]. by eapply lookup_lt_Some.
    + simpl. by rewrite Permutation_middle.
Qed.

Lemma family_pop_front h A l x xs B :
  family h (A ++ (l, x :: xs) :: B) →
  ∃ h', list_pop_front l h = Ret (Some x, h') ∧ family h' (A ++ (l, xs) :: B) ∧ dom h' = dom h.
Proof.
  rewrite family_middle. intros HF.
  pose proof (proj1 (family_cons _ _ _ _) HF) as (Hl & _ & Hd).
  destruct (list_pop_front_list h l x xs Hl) as (h' & H1 & H2 & _ & _ & H5).
  exists h'. split_and!; [done| |apply H5]. rewrite family_middle.
  eapply family_update; [done..|]. intros y Hy. apply Hd. rewrite !elem_of_nodes in *. set_solver.
Qed.

(** Reinitialising a member empties it. *)
Lemma family_reinit h A l xs B :
  family h (A ++ (l, xs) :: B) →
  ∃ h', list_init l h = Ret (tt, h') ∧ family h' (A ++ (l, []) :: B) ∧ dom h' = dom h.
Proof.
  rewrite family_middle. intros HF.
  pose proof (proj1 (family_cons _ _ _ _) HF) as ([Hs Hnd] & _ & Hd).
  destruct (list_init_run h l) as (h' & H1 & H2 & H3).
  - eapply seg_lookup; [|done]. apply elem_of_nodes. tauto.
  - eapply seg_lookup; [|done]. apply elem_of_nodes. tauto.
  - unfold nodes in Hnd. apply NoDup_cons in Hnd as [Hnd _]. set_solver.
  - exists h'. split_and!; [done| |apply H3]. rewrite family_middle.
    eapply family_update; [done..|]. intros y Hy. apply Hd. rewrite elem_of_nodes. set_solver.
Qed.
