(* ===== verification/Hash.v ===== *)
(** * Hash tables (lib/kernel/hash.c, lib/kernel/hash.h)

    A table is an array of [struct list] buckets; an element embeds a
    [struct list_elem], so an element is the address of its list node in the
    heap of KList.v.  Every routine below works on that heap through the list
    routines.  [malloc] of an array of buckets is a parameter: it may fail, or
    return sentinels that were not in use.  The hash and comparison functions
    are the client's callbacks [h->hash] and [h->less] (with [aux] applied).
    A destructor or action callback is represented by the sequence of
    elements it is called on. *)
From S2P Require Import Prelude KList.

(** [struct hash]: [buckets] is the array, empty for a null pointer. *)
Record hash := mk_hash { elem_cnt : Z; bucket_cnt : Z; buckets : list klist }.

(** [struct hash_iterator]: the index of the bucket and the element. *)
Record hash_iterator := mk_iter { it_bucket : nat; it_elem : ptr }.

(** [free (buckets)]: the sentinels leave memory. *)
Definition free_buckets (bs : list klist) : cmd heap unit :=
  modify (λ hp, foldr (λ b hp, delete (head b) (delete (tail b) hp)) hp bs).

(** ** Fowler-Noll-Vo hashes *)
Definition FNV_32_PRIME : Z := 16777619.
Definition FNV_32_BASIS : Z := 2166136261.

Fixpoint hash_bytes_loop (hash : Z) (buf : list Z) : Z :=
  match buf with
  | [] => hash
  | b :: buf => hash_bytes_loop (Z.lxor (u32 (hash * FNV_32_PRIME)) b) buf
  end.
Definition hash_bytes (buf : list Z) : Z := hash_bytes_loop FNV_32_BASIS buf.

(** The characters of [s] up to its terminator. *)
Fixpoint hash_string_loop (hash : Z) (s : list Z) : res Z :=
  match s with
  | [] => Err OutOfBounds
  | c :: s => if (c =? 0)%Z then Ret hash
              else hash_string_loop (Z.lxor (u32 (hash * FNV_32_PRIME)) c) s
  end.
Definition hash_string (s : list Z) : res Z := hash_string_loop FNV_32_BASIS s.

(** The four bytes of an [int] in memory, least significant first. *)
Definition int_bytes (i : Z) : list Z :=
  (λ k, Z.land (Z.shiftr (u32 i) (8 * Z.of_nat k)) 255) <$> seq 0 4.
Definition hash_int (i : Z) : Z := hash_bytes (int_bytes i).

(** ** Choice of the number of buckets *)
Definition turn_off_least_1bit (x : Z) : Z := Z.land x (x - 1).
Definition is_power_of_2 (x : Z) : bool :=
  negb (x =? 0)%Z && (turn_off_least_1bit x =? 0)%Z.

Definition BEST_ELEMS_PER_BUCKET : Z := 2.

(** [while (!is_power_of_2 (x)) x = turn_off_least_1bit (x);] each step
    clears one of at most 32 bits. *)
Fixpoint power_loop (fuel : nat) (x : Z) : res Z :=
  if is_power_of_2 x then Ret x else
  match fuel with
  | O => Err NoFuel
  | S fuel => power_loop fuel (turn_off_least_1bit x)
  end.
Definition best_bucket_cnt (elem_cnt : Z) : res Z :=
  let n := (elem_cnt / BEST_ELEMS_PER_BUCKET)%Z in
  power_loop 32 (if (n <? 4)%Z then 4%Z else n).

Section hash.
Context (hash_fn : loc → Z) (less : loc → loc → bool).
Context (malloc_buckets : Z → cmd heap (option (list klist))).

Definition find_bucket (h : hash) (e : loc) : cmd heap klist :=
  let bucket_idx := Z.land (hash_fn e) (u32 (bucket_cnt h - 1)) in
  match buckets h !! Z.to_nat bucket_idx with
  | Some b => mret b
  | None => throw OutOfBounds
  end.

Fixpoint find_elem_loop (fuel : nat) (bucket : klist) (e : loc) (i : ptr) : cmd heap ptr :=
  match fuel with
  | O => throw NoFuel
  | S fuel =>
      if ptr_eqb i (list_end bucket) then mret NULL else
      match i with
      | None => throw BadPtr
      | Some hi =>
          if negb (less hi e) && negb (less e hi) then mret (Some hi)
          else i' ← list_next i; find_elem_loop fuel bucket e i'
      end
  end.
Definition find_elem (bucket : klist) (e : loc) : cmd heap ptr :=
  fuel ← gets fuel_of;
  i ← list_begin bucket;
  find_elem_loop fuel bucket e i.

Definition insert_elem (h : hash) (bucket : klist) (e : loc) : cmd heap hash :=
  list_push_front bucket (Some e);;
  mret (mk_hash (u32 (elem_cnt h + 1)) (bucket_cnt h) (buckets h)).

Definition remove_elem (h : hash) (e : loc) : cmd heap hash :=
  list_remove (Some e);;
  mret (mk_hash (u32 (elem_cnt h - 1)) (bucket_cnt h) (buckets h)).

(** The inner loop of [rehash]: move the rest of one old bucket. *)
Fixpoint move_loop (fuel : nat) (h : hash) (old_bucket : klist) (elem : ptr) : cmd heap unit :=
  match fuel with
  | O => throw NoFuel
  | S fuel =>
      if ptr_eqb elem (list_end old_bucket) then mret tt else
      match elem with
      | None => throw BadPtr
      | Some e =>
          new_bucket ← find_bucket h e;
          next ← list_next elem;
          list_remove elem;;
          list_push_front new_bucket elem;;
          move_loop fuel h old_bucket next
      end
  end.

Fixpoint move_buckets (h : hash) (old : list klist) : cmd heap unit :=
  match old with
  | [] => mret tt
  | old_bucket :: old =>
      fuel ← gets fuel_of;
      elem ← list_begin old_bucket;
      move_loop fuel h old_bucket elem;;
      move_buckets h old
  end.

Fixpoint init_buckets (bs : list klist) : cmd heap unit :=
  match bs with
  | [] => mret tt
  | b :: bs => list_init b;; init_buckets bs
  end.

Definition rehash (h : hash) : cmd heap hash :=
  new_bucket_cnt ← lift_res (best_bucket_cnt (elem_cnt h));
  if (new_bucket_cnt =? bucket_cnt h)%Z then mret h else
  new_buckets ← malloc_buckets new_bucket_cnt;
  match new_buckets with
  | None => mret h
  | Some bs =>
      init_buckets bs;;
      let h' := mk_hash (elem_cnt h) new_bucket_cnt bs in
      move_buckets h' (buckets h);;
      free_buckets (buckets h);;
      mret h'
  end.

(** [while (!list_empty (bucket))] of [hash_clear], with a destructor. *)
Fixpoint clear_bucket_loop (fuel : nat) (bucket : klist) : cmd heap (list loc) :=
  match fuel with
  | O => throw NoFuel
  | S fuel =>
      b ← list_empty bucket;
      if (b : bool) then mret [] else
      e ← list_pop_front bucket;
      match e with
      | None => throw BadPtr
      | Some x => xs ← clear_bucket_loop fuel bucket; mret (x :: xs)
      end
  end.

Fixpoint clear_loop (destructor : bool) (bs : list klist) : cmd heap (list loc) :=
  match bs with
  | [] => mret []
  | bucket :: bs =>
      fuel ← gets fuel_of;
      xs ← (if destructor then clear_bucket_loop fuel bucket else mret []);
      list_init bucket;;
      ys ← clear_loop destructor bs;
      mret (xs ++ ys)
  end.

(** Returns the elements the destructor was called on, in order. *)
Definition hash_clear (h : hash) (destructor : bool) : cmd heap (list loc * hash) :=
  xs ← clear_loop destructor (buckets h);
  mret (xs, mk_hash 0 (bucket_cnt h) (buckets h)).

Definition hash_init : cmd heap (option hash) :=
  bs ← malloc_buckets 4;
  match bs with
  | None => mret None
  | Some bs => r ← hash_clear (mk_hash 0 4 bs) false; mret (Some r.2)
  end.

Definition hash_destroy (h : hash) (destructor : bool) : cmd heap (list loc) :=
  xs ← (if destructor then r ← hash_clear h true; mret r.1 else mret []);
  free_buckets (buckets h);;
  mret xs.

Definition hash_insert (h : hash) (new : loc) : cmd heap (ptr * hash) :=
  bucket ← find_bucket h new;
  old ← find_elem bucket new;
  h ← (match old with None => insert_elem h bucket new | Some _ => mret h end);
  h ← rehash h;
  mret (old, h).

Definition hash_replace (h : hash) (new : loc) : cmd heap (ptr * hash) :=
  bucket ← find_bucket h new;
  old ← find_elem bucket new;
  h ← (match old with Some o => remove_elem h o | None => mret h end);
  h ← insert_elem h bucket new;
  h ← rehash h;
  mret (old, h).

Definition hash_find (h : hash) (e : loc) : cmd heap ptr :=
  bucket ← find_bucket h e;
  find_elem bucket e.

Definition hash_delete (h : hash) (e : loc) : cmd heap (ptr * hash) :=
  bucket ← find_bucket h e;
  found ← find_elem bucket e;
  match found with
  | Some f => h ← remove_elem h f; h ← rehash h; mret (found, h)
  | None => mret (found, h)
  end.

Definition hash_size (h : hash) : Z := elem_cnt h.
Definition hash_empty (h : hash) : bool := (elem_cnt h =? 0)%Z.

(** ** Iteration *)
Fixpoint apply_loop (fuel : nat) (bucket : klist) (elem : ptr) : cmd heap (list loc) :=
  match fuel with
  | O => throw NoFuel
  | S fuel =>
      if ptr_eqb elem (list_end bucket) then mret [] else
      next ← list_next elem;
      match elem with
      | None => throw BadPtr
      | Some e => xs ← apply_loop fuel bucket next; mret (e :: xs)
      end
  end.

Fixpoint apply_buckets (bs : list klist) : cmd heap (list loc) :=
  match bs with
  | [] => mret []
  | bucket :: bs =>
      fuel ← gets fuel_of;
      elem ← list_begin bucket;
      xs ← apply_loop fuel bucket elem;
      ys ← apply_buckets bs;
      mret (xs ++ ys)
  end.

(** Returns the elements the action was called on, in order. *)
Definition hash_apply (h : hash) : cmd heap (list loc) := apply_buckets (buckets h).

Definition bucket_at (h : hash) (i : nat) : cmd heap klist :=
  match buckets h !! i with Some b => mret b | None => throw OutOfBounds end.

Definition hash_first (h : hash) : cmd heap hash_iterator :=
  b ← bucket_at h 0;
  mret (mk_iter 0 (list_head b)).

(** [while (i->elem == list_end (i->bucket))]; [fuel] bounds the buckets left. *)
Fixpoint next_bucket_loop (fuel : nat) (h : hash) (i : hash_iterator) : cmd heap hash_iterator :=
  match fuel with
  | O => throw NoFuel
  | S fuel =>
      b ← bucket_at h (it_bucket i);
      if ptr_eqb (it_elem i) (list_end b) then
        if (bucket_cnt h <=? Z.of_nat (S (it_bucket i)))%Z
        then mret (mk_iter (S (it_bucket i)) NULL)
        else b' ← bucket_at h (S (it_bucket i));
             e ← list_begin b';
             next_bucket_loop fuel h (mk_iter (S (it_bucket i)) e)
      else mret i
  end.

Definition hash_next (h : hash) (i : hash_iterator) : cmd heap hash_iterator :=
  e ← list_next (it_elem i);
  next_bucket_loop (S (length (buckets h))) h (mk_iter (it_bucket i) e).

Definition hash_cur (i : hash_iterator) : ptr := it_elem i.

(** The documented idiom: [hash_first (&i, h); while (hash_next (&i)) ...]. *)
Fixpoint iterate_loop (fuel : nat) (h : hash) (i : hash_iterator) : cmd heap (list loc) :=
  match fuel with
  | O => throw NoFuel
  | S fuel =>
      i' ← hash_next h i;
      match hash_cur i' with
      | None => mret []
      | Some e => xs ← iterate_loop fuel h i'; mret (e :: xs)
      end
  end.
Definition iterate (fuel : nat) (h : hash) : cmd heap (list loc) :=
  i ← hash_first h; iterate_loop fuel h i.
End hash.
