(* ===== verification/HashSpec.v ===== *)
(** Correctness of the hash tables: a table refines a finite set of elements
    with no two equal ones, whatever allocation does. *)
From S2P Require Import Prelude KList KListFamily Hash.
Open Scope Z_scope.

(** ** The number of buckets *)
Lemma land_double y z : Z.land (2 * y) (2 * z + 1) = 2 * Z.land y z.
Proof.
  apply Z.bits_inj'. intros n Hn. rewrite Z.land_spec. destruct (Z.eq_dec n 0) as [->|].
  - by rewrite !Z.testbit_even_0.
  - replace n with (Z.succ (n - 1)) by lia.
    rewrite !Z.testbit_even_succ, Z.testbit_odd_succ, Z.land_spec by lia. done.
Qed.

Lemma land_odd y : Z.land (2 * y + 1) (2 * y) = 2 * y.
Proof.
  apply Z.bits_inj'. intros n Hn. rewrite Z.land_spec. destruct (Z.eq_dec n 0) as [->|].
  - by rewrite !Z.testbit_even_0, andb_false_r.
  - replace n with (Z.succ (n - 1)) by lia.
    rewrite !Z.testbit_even_succ, Z.testbit_odd_succ by lia. apply andb_diag.
Qed.

(** [turn_off_least_1bit] clears the lowest set bit. *)
Lemma turn_off_spec (k : nat) m :
  0 <= m → turn_off_least_1bit (2 ^ Z.of_nat k * (2 * m + 1)) = 2 ^ Z.of_nat (S k) * m.
Proof.
  intros Hm. unfold turn_off_least_1bit. induction k as [|k IH].
  - change (2 ^ Z.of_nat 0) with 1. change (2 ^ Z.of_nat 1) with 2.
    rewrite !Z.mul_1_l, Z.add_simpl_r. apply land_odd.
  - rewrite (Nat2Z.inj_succ (S k)), (Nat2Z.inj_succ k), !Z.pow_succ_r in * by lia.
    set (w := 2 ^ Z.of_nat k * (2 * m + 1)) in *.
    replace (2 * 2 ^ Z.of_nat k * (2 * m + 1)) with (2 * w) by (unfold w; lia).
    replace (2 * w - 1) with (2 * (w - 1) + 1) by lia. rewrite land_double, IH. lia.
Qed.

Lemma power_loop_spec (j k fuel : nat) m :
  0 < m < 2 ^ Z.of_nat j → (j <= fuel)%nat →
  power_loop fuel (2 ^ Z.of_nat k * m) = Ret (2 ^ Z.log2 (2 ^ Z.of_nat k * m)).
Proof.
  revert k fuel m. induction j as [|j IH]; intros k fuel m Hm Hf.
  { change (2 ^ Z.of_nat 0) with 1 in Hm. lia. }
  rewrite Nat2Z.inj_succ, Z.pow_succ_r in Hm by lia.
  destruct (Z.Even_or_Odd m) as [[m' ->]|[m' ->]].
  - replace (2 ^ Z.of_nat k * (2 * m')) with (2 ^ Z.of_nat (S k) * m').
    + apply IH; lia.
    + rewrite Nat2Z.inj_succ, Z.pow_succ_r by lia. lia.
  - destruct fuel as [|fuel]; [lia|].
    assert (0 < 2 ^ Z.of_nat k) by (apply Z.pow_pos_nonneg; lia).
    assert (0 < 2 ^ Z.of_nat (S k)) by (apply Z.pow_pos_nonneg; lia).
    cbn [power_loop]. unfold is_power_of_2. rewrite turn_off_spec by lia.
    rewrite (proj2 (Z.eqb_neq _ 0)) by nia. cbn [negb andb].
    destruct (Z.eqb_spec (2 ^ Z.of_nat (S k) * m') 0) as [E|E].
    + replace m' with 0 by nia. rewrite Z.mul_1_r, Z.log2_pow2 by lia. done.
    + rewrite IH by nia. do 2 f_equal.
      rewrite !(Z.mul_comm (2 ^ Z.of_nat _)), !Z.log2_mul_pow2 by lia.
      rewrite Z.log2_succ_double by lia. lia.
Qed.

Lemma best_bucket_cnt_spec n :
  0 <= n < 2 ^ 32 →
  ∃ k, 2 <= k < 32 ∧ best_bucket_cnt n = Ret (2 ^ k) ∧ 2 ^ k <= Z.max 4 (n / 2) < 2 ^ (k + 1).
Proof.
  intros Hn. unfold best_bucket_cnt, BEST_ELEMS_PER_BUCKET.
  assert (0 <= n / 2 < 2 ^ 31) by (split; [apply Z.div_pos; lia|apply Z.div_lt_upper_bound; lia]).
  replace (if n / 2 <? 4 then 4 else n / 2) with (Z.max 4 (n / 2)) by (destruct (Z.ltb_spec (n / 2) 4); lia).
  set (x := Z.max 4 (n / 2)) in *. assert (4 <= x < 2 ^ 32) by lia.
  pose proof (power_loop_spec 32 0 32 x) as E. change (2 ^ Z.of_nat 0) with 1 in E.
  rewrite Z.mul_1_l in E. rewrite E by (split; [lia|done] || lia). exists (Z.log2 x).
  pose proof (Z.log2_spec x ltac:(lia)) as [? ?].
  split_and!; [|apply Z.log2_lt_pow2; lia|done|done|by rewrite Z.add_1_r].
  change 2 with (Z.log2 4). apply Z.log2_le_mono. lia.
Qed.

(** ** Loops over an array of lists *)
(** New buckets, initialised. *)
Lemma init_buckets_run bs F hp :
  family hp F → NoDup (sentinels bs) →
  (∀ x, x ∈ sentinels bs → is_Some (hp !! x) ∧ x ∉ fnodes F) →
  ∃ hp', init_buckets bs hp = Ret (tt, hp') ∧ family hp' (F ++ empties bs) ∧ dom hp' = dom hp.
Proof.
  revert F hp. induction bs as [|b bs IH]; intros F hp HF Hnd Hs; cbn [init_buckets].
  { exists hp. by rewrite app_nil_r. }
  change (sentinels (b :: bs)) with (head b :: tail b :: sentinels bs) in *.
  apply NoDup_cons in Hnd as [Hh [Ht Hnd]%NoDup_cons].
  destruct (Hs (head b)) as [Hsh Hfh]; [set_solver|]. destruct (Hs (tail b)) as [Hst Hft]; [set_solver|].
  destruct (list_init_run hp b) as (hp1 & Hrun & Hl & Hf); [done|done|set_solver|].
  rewrite (bind_Ret _ _ _ _ _ Hrun).
  assert (HF1 : family hp1 ((b, []) :: F)).
  { apply family_cons. split_and!; [done| |].
    - eapply family_frame; [done| |done]. set_solver.
    - intros x. rewrite elem_of_nodes. set_solver. }
  destruct Hf as [Hd _].
  destruct (IH ((b, []) :: F) hp1 HF1 Hnd) as (hp2 & Hrun2 & HF2 & Hd2).
  { intros x Hx. destruct (Hs x) as [Hsx Hfx]; [set_solver|]. split.
    - apply elem_of_dom. rewrite Hd. by apply elem_of_dom.
    - rewrite fnodes_cons, elem_of_app, elem_of_nodes. set_solver. }
  exists hp2. split_and!; [done| |congruence]. revert HF2. apply family_perm.
  change (empties (b :: bs)) with ((b, []) :: empties bs). simpl. by rewrite Permutation_middle.
Qed.

Lemma free_buckets_lookup bs hp :
  ∃ hp', free_buckets bs hp = Ret (tt, hp') ∧ ∀ x, x ∉ sentinels bs → hp' !! x = hp !! x.
Proof.
  eexists. split; [done|]. induction bs as [|b bs IH]; [done|]. intros x.
  change (sentinels (b :: bs)) with (head b :: tail b :: sentinels bs).
  rewrite !not_elem_of_cons. intros (? & ? & ?). simpl.
  rewrite !lookup_delete_ne by done. by apply IH.
Qed.

Lemma free_buckets_gone bs hp hp' x :
  free_buckets bs hp = Ret (tt, hp') → x ∈ sentinels bs → hp' !! x = None.
Proof.
  intros [= <-]. induction bs as [|b bs IH]; [set_solver|].
  change (sentinels (b :: bs)) with (head b :: tail b :: sentinels bs). simpl.
  rewrite !elem_of_cons. intros Hx. rewrite !lookup_delete_None. naive_solver.
Qed.

Lemma zip_empties (bs : list klist) : zip bs (replicate (length bs) []) = empties bs.
Proof. induction bs as [|b bs IH]; [done|]. simpl. by rewrite IH. Qed.

Lemma concat_replicate_nil n : concat (replicate n (@nil loc)) = [].
Proof. by induction n. Qed.

(** [hash_clear] without a destructor is [list_init] of every bucket. *)
Lemma clear_init bs hp hp' :
  init_buckets bs hp = Ret (tt, hp') → clear_loop false bs hp = Ret ([], hp').
Proof.
  revert hp. induction bs as [|b bs IH]; intros hp; cbn [init_buckets clear_loop].
  { intros [= ->]. done. }
  intros ([] & hp1 & H1 & H2)%bind_inv. rewrite gets_bind, ret_bind, (bind_Ret _ _ _ _ _ H1).
  by rewrite (bind_Ret _ _ _ _ _ (IH _ H2)).
Qed.

Lemma apply_loop_run hp b xs ys fuel :
  is_list hp b (xs ++ ys) → (length ys < fuel)%nat →
  apply_loop fuel b (hd_or (Some (tail b)) ys) hp = Ret (ys, hp).
Proof.
  revert xs fuel. induction ys as [|y ys IH]; intros xs [|fuel] Hl Hf; simpl in Hf; try lia.
  all: cbn [apply_loop]; rewrite (cursor_end hp b xs) by done.
  - by rewrite bool_decide_true by done.
  - rewrite bool_decide_false by done. cbn [hd_or].
    rewrite (bind_Ret _ _ _ _ _ (list_next_list hp b xs y ys Hl)).
    rewrite (bind_Ret _ _ _ _ _ (IH (xs ++ [y]) fuel ltac:(by rewrite <- app_assoc) ltac:(lia))). done.
Qed.

Lemma apply_buckets_run hp bs xss F :
  length xss = length bs → family hp (F ++ zip bs xss) → apply_buckets bs hp = Ret (concat xss, hp).
Proof.
  revert xss F. induction bs as [|b bs IH]; intros [|xs xss] F Hlen HF; try done.
  injection Hlen as Hlen. simpl zip in HF. pose proof (family_get _ _ _ _ _ HF) as Hl.
  apply nodes_fuel in Hl as Hf. cbn [apply_buckets].
  rewrite gets_bind, (bind_Ret _ _ _ _ _ (list_begin_list hp b xs Hl)).
  rewrite (bind_Ret _ _ _ _ _ (apply_loop_run hp b [] xs (fuel_of hp) Hl ltac:(unfold fuel_of; lia))).
  rewrite cons_middle, app_assoc in HF. by rewrite (bind_Ret _ _ _ _ _ (IH _ _ Hlen HF)).
Qed.

Lemma bucket_at_run hp h i b : buckets h !! i = Some b → bucket_at h i hp = Ret (b, hp).
Proof. intros Hb. unfold bucket_at. by rewrite Hb. Qed.

Lemma clear_bucket_loop_run A b xs B hp fuel :
  family hp (A ++ (b, xs) :: B) → (length xs < fuel)%nat →
  ∃ hp', clear_bucket_loop fuel b hp = Ret (xs, hp') ∧ family hp' (A ++ (b, []) :: B) ∧ dom hp' = dom hp.
Proof.
  revert hp fuel. induction xs as [|x xs IH]; intros hp [|fuel] HF Hf; simpl in Hf; try lia.
  all: cbn [clear_bucket_loop];
    rewrite (bind_Ret _ _ _ _ _ (list_empty_list hp b _ (family_get _ _ _ _ _ HF))).
  - rewrite bool_decide_true by done. by exists hp.
  - rewrite bool_decide_false by done.
    destruct (family_pop_front hp A b x xs B HF) as (hp1 & Hp & HF1 & Hd1).
    rewrite (bind_Ret _ _ _ _ _ Hp).
    destruct (IH hp1 fuel HF1 ltac:(lia)) as (hp2 & Hrun & HF2 & Hd2).
    rewrite (bind_Ret _ _ _ _ _ Hrun). exists hp2. split_and!; [done..|congruence].
Qed.

Lemma clear_loop_run bs xss F hp :
  length xss = length bs → family hp (F ++ zip bs xss) →
  ∃ hp', clear_loop true bs hp = Ret (concat xss, hp') ∧ family hp' (F ++ empties bs) ∧ dom hp' = dom hp.
Proof.
  revert xss F hp. induction bs as [|b bs IH]; intros [|xs xss] F hp Hlen HF; try done; [by exists hp|].
  injection Hlen as Hlen. simpl zip in HF.
  pose proof (nodes_fuel _ _ _ (family_get _ _ _ _ _ HF)) as Hf. cbn [clear_loop].
  destruct (clear_bucket_loop_run F b xs (zip bs xss) hp (fuel_of hp) HF) as (hp1 & Hc & HF1 & Hd1);
    [unfold fuel_of; lia|].
  destruct (family_reinit _ _ _ _ _ HF1) as (hp2 & Hi & HF2 & Hd2).
  rewrite gets_bind, (bind_Ret _ _ _ _ _ Hc), (bind_Ret _ _ _ _ _ Hi).
  rewrite cons_middle, app_assoc in HF2.
  destruct (IH xss _ hp2 Hlen HF2) as (hp3 & Hrun & HF3 & Hd3). rewrite (bind_Ret _ _ _ _ _ Hrun).
  exists hp3. split_and!; [done| |congruence].
  rewrite <- app_assoc in HF3. done.
Qed.

(** ** Well-formed tables *)
Section table.
Context (hash_fn : loc → Z) (less : loc → loc → bool).
Context (malloc_buckets : Z → cmd heap (option (list klist))).

(** The bucket an element belongs in. *)
Definition home (h : hash) (e : loc) : nat :=
  Z.to_nat (Z.land (hash_fn e) (u32 (bucket_cnt h - 1))).

(** [xss] are the contents of the buckets; [R] is the rest of memory. *)
Record table_ok (R : fam) (hp : heap) (h : hash) (xss : list (list loc)) : Prop := {
  t_len : length xss = length (buckets h);
  t_cnt : bucket_cnt h = Z.of_nat (length (buckets h));
  t_pow : ∃ k, 2 <= k < 32 ∧ bucket_cnt h = 2 ^ k;
  t_fam : family hp (R ++ zip (buckets h) xss);
  t_home : ∀ i xs x, xss !! i = Some xs → x ∈ xs → home h x = i }.

Context (hash_range : ∀ e, 0 <= hash_fn e < 2 ^ 32).

Lemma home_lt R hp h xss e : table_ok R hp h xss → (home h e < length (buckets h))%nat.
Proof.
  intros [_ Hc (k & Hk & Ek) _ _]. unfold home.
  assert (0 < 2 ^ k < 2 ^ 32) by (split; [apply Z.pow_pos_nonneg; lia|apply Z.pow_lt_mono_r; lia]).
  rewrite u32_small by lia. rewrite Ek, Z.sub_1_r, <- Z.ones_equiv, Z.land_ones by lia.
  pose proof (Z.mod_pos_bound (hash_fn e) (2 ^ k)). lia.
Qed.

Lemma find_bucket_run R hp h xss e :
  table_ok R hp h xss →
  ∃ b xs, find_bucket hash_fn h e hp = Ret (b, hp) ∧
          buckets h !! home h e = Some b ∧ xss !! home h e = Some xs.
Proof.
  intros Ht. pose proof (home_lt R hp h xss e Ht) as Hlt.
  destruct (lookup_lt_is_Some_2 (buckets h) (home h e) Hlt) as [b Hb].
  destruct (lookup_lt_is_Some_2 xss (home h e)) as [xs Hxs]; [rewrite (t_len _ _ _ _ Ht); done|].
  exists b, xs. split_and!; [|done..]. unfold find_bucket. unfold home in Hb. by rewrite Hb.
Qed.

(** The elements of bucket [i], and replacing them. *)
Lemma table_split R hp h xss i b xs :
  table_ok R hp h xss → buckets h !! i = Some b → xss !! i = Some xs →
  ∃ A B, R ++ zip (buckets h) xss = A ++ (b, xs) :: B ∧
    ∀ xs', R ++ zip (buckets h) (<[i:=xs']> xss) = A ++ (b, xs') :: B.
Proof using.
  intros Ht Hb Hx. destruct (zip_split (buckets h) xss i b xs Hb Hx) as (A & B & E & E').
  exists (R ++ A), B. rewrite E, <- app_assoc. split; [done|]. intros xs'. by rewrite E', <- app_assoc.
Qed.

Lemma table_update R hp hp' h xss i xs' :
  table_ok R hp h xss → (i < length xss)%nat →
  family hp' (R ++ zip (buckets h) (<[i:=xs']> xss)) →
  (∀ x, x ∈ xs' → home h x = i) → table_ok R hp' h (<[i:=xs']> xss).
Proof using.
  intros [H1 H2 H3 H4 H5] Hi HF Hh. split; [by rewrite length_insert|done..|].
  intros j ys x Hj Hx. destruct (decide (i = j)) as [<-|Hne].
  - rewrite list_lookup_insert_eq in Hj by done. simplify_eq. by apply Hh.
  - rewrite list_lookup_insert_ne in Hj by done. by eapply H5.
Qed.

Lemma bucket_push R hp h xss e b xs :
  table_ok R hp h xss → buckets h !! home h e = Some b → xss !! home h e = Some xs →
  e ∉ fnodes (R ++ zip (buckets h) xss) → is_Some (hp !! e) →
  ∃ hp', list_push_front b (Some e) hp = Ret (tt, hp') ∧ dom hp' = dom hp ∧
         table_ok R hp' h (<[home h e:=e :: xs]> xss).
Proof.
  intros Ht Hb Hx He Hs. destruct (table_split R hp h xss _ b xs Ht Hb Hx) as (A & B & E & E').
  pose proof (t_fam _ _ _ _ Ht) as HF. rewrite E in HF, He.
  destruct (family_push_front hp A b B xs e HF He Hs) as (hp' & Hrun & HF' & [Hd _]).
  exists hp'. split_and!; [done..|]. rewrite <- E' in HF'.
  apply (table_update R hp); [done|by eapply lookup_lt_Some|done|].
  intros x [->|Hxx]%elem_of_cons; [done|]. by eapply t_home.
Qed.

Lemma bucket_remove R hp h xss i b xs e ys :
  table_ok R hp h xss → buckets h !! i = Some b → xss !! i = Some (xs ++ e :: ys) →
  ∃ q hp', list_remove (Some e) hp = Ret (q, hp') ∧ dom hp' = dom hp ∧
         table_ok R hp' h (<[i:=xs ++ ys]> xss) ∧
         e ∉ fnodes (R ++ zip (buckets h) (<[i:=xs ++ ys]> xss)) ∧ is_Some (hp' !! e).
Proof.
  intros Ht Hb Hx. destruct (table_split R hp h xss _ b _ Ht Hb Hx) as (A & B & E & E').
  pose proof (t_fam _ _ _ _ Ht) as HF. rewrite E in HF.
  destruct (family_remove hp A b B xs e ys HF) as (hp' & Hrun & HF' & He & Hs & [Hd _]).
  eexists _, hp'. rewrite E'. split_and!; [done..| |done|done]. rewrite <- E' in HF'.
  apply (table_update R hp); [done|by eapply lookup_lt_Some|done|].
  intros x Hxx. eapply t_home; [done..|]. set_solver.
Qed.

(** *** Searching a bucket *)
Definition eqv (x y : loc) : bool := negb (less x y) && negb (less y x).

Fixpoint first_eqv (e : loc) (xs : list loc) : ptr :=
  match xs with [] => None | x :: xs => if eqv x e then Some x else first_eqv e xs end.

Lemma first_eqv_Some e xs x :
  first_eqv e xs = Some x → x ∈ xs ∧ eqv x e = true.
Proof.
  induction xs as [|y xs IH]; simpl; [done|]. destruct (eqv y e) eqn:E.
  - intros [= ->]. split; [set_solver|done].
  - intros H. destruct (IH H). split; [set_solver|done].
Qed.

Lemma first_eqv_None e xs x : first_eqv e xs = None → x ∈ xs → eqv x e = false.
Proof.
  induction xs as [|y xs IH]; simpl; [set_solver|]. destruct (eqv y e) eqn:E; [done|].
  intros H [->|Hx]%elem_of_cons; [done|auto].
Qed.

Lemma find_elem_loop_run hp b xs ys e fuel :
  is_list hp b (xs ++ ys) → (length ys < fuel)%nat →
  find_elem_loop less fuel b e (hd_or (Some (tail b)) ys) hp = Ret (first_eqv e ys, hp).
Proof.
  revert xs fuel. induction ys as [|y ys IH]; intros xs [|fuel] Hl Hf; simpl in Hf; try lia.
  all: cbn [find_elem_loop]; rewrite (cursor_end hp b xs) by done.
  - by rewrite bool_decide_true by done.
  - rewrite bool_decide_false by done. cbn [hd_or first_eqv]. unfold eqv.
    destruct (negb _ && negb _); [done|].
    rewrite (bind_Ret _ _ _ _ _ (list_next_list hp b xs y ys Hl)).
    apply (IH (xs ++ [y])); [by rewrite <- app_assoc|lia].
Qed.

Lemma find_elem_run hp b xs e :
  is_list hp b xs → find_elem less b e hp = Ret (first_eqv e xs, hp).
Proof.
  intros Hl. unfold find_elem. rewrite gets_bind, (bind_Ret _ _ _ _ _ (list_begin_list hp b xs Hl)).
  apply nodes_fuel in Hl as Hf. apply (find_elem_loop_run hp b [] xs); [done|]. unfold fuel_of. lia.
Qed.

(** *** Rehashing *)
Lemma table_rest R R' hp h xss :
  R ≡ₚ R' → table_ok R hp h xss → table_ok R' hp h xss.
Proof. intros E [H1 H2 H3 H4 H5]. split; try done. by rewrite <- E. Qed.

(** Moving one element from a list of the rest into its bucket. *)
Lemma move_elem R hp h xss b ob e ys :
  table_ok ((ob, e :: ys) :: R) hp h xss → buckets h !! home h e = Some b →
  ∃ hp' q xs, list_remove (Some e) hp = Ret (q, hp') ∧ xss !! home h e = Some xs ∧
  ∃ hp'', list_push_front b (Some e) hp' = Ret (tt, hp'') ∧ dom hp'' = dom hp ∧
         table_ok ((ob, ys) :: R) hp'' h (<[home h e:=e :: xs]> xss).
Proof.
  intros Ht Hb. pose proof Ht as [H1 H2 H3 H4 H5].
  destruct (find_bucket_run _ _ _ _ e Ht) as (? & xs & _ & _ & Hxs).
  destruct (family_remove hp [] ob (R ++ zip (buckets h) xss) [] e ys H4)
    as (hp' & Hrm & HF & He & Hs & [Hd _]). simpl in *.
  assert (Ht' : table_ok ((ob, ys) :: R) hp' h xss) by (split; done).
  destruct (bucket_push _ hp' h xss e b xs Ht' Hb Hxs) as (hp'' & Hp & Hd' & Ht''); [done..|].
  eexists hp', _, xs. split_and!; [done..|]. exists hp''. split_and!; [done|congruence|done].
Qed.

Lemma move_loop_run R hp h xss ob ys fuel :
  table_ok ((ob, ys) :: R) hp h xss → (length ys < fuel)%nat →
  ∃ hp' xss', move_loop hash_fn fuel h ob (hd_or (Some (tail ob)) ys) hp = Ret (tt, hp') ∧
    table_ok ((ob, []) :: R) hp' h xss' ∧ concat xss' ≡ₚ ys ++ concat xss ∧ dom hp' = dom hp.
Proof.
  revert hp xss fuel. induction ys as [|y ys IH]; intros hp xss [|fuel] Ht Hf; simpl in Hf; try lia.
  all: pose proof (family_get hp [] ob _ _ (t_fam _ _ _ _ Ht)) as Hl.
  all: cbn [move_loop]; rewrite (cursor_end hp ob []) by done.
  - rewrite bool_decide_true by done. by exists hp, xss.
  - rewrite bool_decide_false by done. cbn [hd_or].
    destruct (find_bucket_run _ _ _ _ y Ht) as (b & ? & Hfb & Hb & _).
    rewrite (bind_Ret _ _ _ _ _ Hfb), (bind_Ret _ _ _ _ _ (list_next_list hp ob [] y ys Hl)).
    destruct (move_elem R hp h xss b ob y ys Ht Hb)
      as (hp1 & q & xs & Hrm & Hxs & hp2 & Hpf & Hd2 & Ht2).
    rewrite (bind_Ret _ _ _ _ _ Hrm), (bind_Ret _ _ _ _ _ Hpf).
    destruct (IH hp2 _ fuel Ht2) as (hp3 & xss3 & Hrun & Ht3 & Hp3 & Hd3); [lia|].
    exists hp3, xss3. split_and!; [done..| |congruence]. rewrite Hp3.
    rewrite (concat_update xss _ xs _ [y]) by done. simpl. by rewrite Permutation_middle.
Qed.

Lemma move_buckets_run R hp h xss olds yss :
  length yss = length olds →
  table_ok (R ++ zip olds yss) hp h xss →
  ∃ hp' xss', move_buckets hash_fn h olds hp = Ret (tt, hp') ∧
    table_ok (R ++ empties olds) hp' h xss' ∧ concat xss' ≡ₚ concat yss ++ concat xss ∧
    dom hp' = dom hp.
Proof.
  revert R yss hp xss. induction olds as [|ob olds IH]; intros R [|ys yss] hp xss Hlen Ht; try done.
  { by exists hp, xss. }
  injection Hlen as Hlen. simpl zip in Ht.
  assert (Ht0 : table_ok ((ob, ys) :: R ++ zip olds yss) hp h xss).
  { eapply table_rest; [|done]. by rewrite Permutation_middle. }
  pose proof (family_get hp [] ob _ _ (t_fam _ _ _ _ Ht0)) as Hl.
  cbn [move_buckets]. rewrite gets_bind, (bind_Ret _ _ _ _ _ (list_begin_list hp ob ys Hl)).
  apply nodes_fuel in Hl as Hf.
  destruct (move_loop_run _ hp h xss ob ys (fuel_of hp) Ht0) as (hp1 & xss1 & Hrun & Ht1 & Hp1 & Hd1).
  { unfold fuel_of. lia. }
  rewrite (bind_Ret _ _ _ _ _ Hrun).
  destruct (IH ((ob, []) :: R) yss hp1 xss1 Hlen Ht1) as (hp2 & xss2 & Hrun2 & Ht2 & Hp2 & Hd2).
  exists hp2, xss2. split_and!; [done| | |congruence].
  - eapply table_rest; [|done]. simpl. by rewrite Permutation_middle.
  - rewrite Hp2, Hp1. simpl. rewrite !(app_assoc _ _ (concat xss)). by rewrite (Permutation_app_comm ys).
Qed.

(** [malloc] returns unused memory or fails. *)
Definition malloc_ok : Prop := ∀ n hp,
  malloc_buckets n hp = Ret (None, hp) ∨
  ∃ bs hp', malloc_buckets n hp = Ret (Some bs, hp') ∧ Z.of_nat (length bs) = n ∧
    NoDup (sentinels bs) ∧ (∀ x, x ∈ sentinels bs → hp !! x = None ∧ is_Some (hp' !! x)) ∧ hp ⊆ hp'.
Context (Hmalloc : malloc_ok).

(** The elements [D] of the client: in memory, and no part of the table's
    arrays or of the rest of memory. *)
Context (D : gset loc) (R : fam).
Definition clients (hp : heap) (h : hash) : Prop :=
  ∀ x, x ∈ D → is_Some (hp !! x) ∧ x ∉ sentinels (buckets h) ∧ x ∉ fnodes R.

Lemma table_clients_dom hp hp' h : dom hp' = dom hp → clients hp h → clients hp' h.
Proof using.
  intros Hd Hc x Hx. destruct (Hc x Hx) as (Hs & ?). split; [|done].
  apply elem_of_dom. rewrite Hd. by apply elem_of_dom.
Qed.

(** A table with freshly initialised buckets. *)
Lemma fresh_table F hp h k :
  family hp (F ++ empties (buckets h)) → bucket_cnt h = Z.of_nat (length (buckets h)) →
  2 <= k < 32 → bucket_cnt h = 2 ^ k →
  table_ok F hp h (replicate (length (buckets h)) []).
Proof using.
  intros HF Hc Hk Ek. split; [by rewrite length_replicate|done|by exists k|by rewrite zip_empties|].
  intros i xs x [-> _]%lookup_replicate Hx. by apply not_elem_of_nil in Hx.
Qed.

Lemma rehash_move hp h xss k bs hp' :
  table_ok R hp h xss → clients hp h → 2 <= k < 32 →
  Z.of_nat (length bs) = 2 ^ k → NoDup (sentinels bs) →
  (∀ x, x ∈ sentinels bs → hp !! x = None ∧ is_Some (hp' !! x)) → hp ⊆ hp' →
  ∃ hp2 xss2, let h' := mk_hash (elem_cnt h) (2 ^ k) bs in
    (init_buckets bs;; move_buckets hash_fn h' (buckets h);; free_buckets (buckets h);; mret h') hp'
      = Ret (h', hp2) ∧
    table_ok R hp2 h' xss2 ∧ concat xss2 ≡ₚ concat xss ∧ clients hp2 h'.
Proof.
  intros Ht Hc Hk Hlen Hnd Hfresh Hsub. set (h' := mk_hash (elem_cnt h) (2 ^ k) bs).
  pose proof Ht as [Hl _ _ HF _].
  assert (HF' : family hp' (R ++ zip (buckets h) xss)).
  { eapply family_agree; [|done]. intros x Hx. destruct (family_dom _ _ x HF Hx) as [e He].
    rewrite He. by eapply lookup_weaken. }
  destruct (init_buckets_run bs _ hp' HF' Hnd) as (hp1 & Hrun1 & HF1 & Hd1).
  { intros x Hx. destruct (Hfresh x Hx) as [Hn ?]. split; [done|]. intros Hx'.
    destruct (family_dom _ _ x HF Hx') as [e He]. congruence. }
  pose proof (fresh_table _ hp1 h' k HF1 (eq_sym Hlen) Hk eq_refl) as Ht1.
  destruct (move_buckets_run R hp1 h' _ (buckets h) xss Hl Ht1) as (hp2 & xss2 & Hrun2 & Ht2 & Hp2 & Hd2).
  destruct (free_buckets_lookup (buckets h) hp2) as (hp3 & Hrun3 & Hfree).
  exists hp3, xss2. cbn zeta.
  rewrite (bind_Ret _ _ _ _ _ Hrun1), (bind_Ret _ _ _ _ _ Hrun2), (bind_Ret _ _ _ _ _ Hrun3).
  split_and!; [done| | |].
  - destruct Ht2 as [? ? ? HF2 ?]. split; [done..| |done].
    assert (HF3 : family hp2 ((R ++ zip bs xss2) ++ empties (buckets h))).
    { revert HF2. apply family_perm. rewrite <- !app_assoc. by rewrite (Permutation_app_comm (empties _)). }
    apply family_app in HF3 as (HF3 & _ & Hdis). eapply family_agree; [|done].
    intros x Hx. apply Hfree. rewrite <- fnodes_empties. by apply Hdis.
  - rewrite Hp2, concat_replicate_nil. by rewrite app_nil_r.
  - intros x Hx. destruct (Hc x Hx) as ([e He] & Hns & HnR). split_and!; [| |done].
    + rewrite Hfree by done. apply elem_of_dom. rewrite Hd2, Hd1. apply elem_of_dom.
      exists e. by eapply lookup_weaken.
    + intros Hx'. destruct (Hfresh x Hx') as [? _]. congruence.
Qed.

Lemma rehash_run hp h xss :
  table_ok R hp h xss → clients hp h → 0 <= elem_cnt h < 2 ^ 32 →
  ∃ hp' h' xss', rehash hash_fn malloc_buckets h hp = Ret (h', hp') ∧ table_ok R hp' h' xss' ∧
    concat xss' ≡ₚ concat xss ∧ elem_cnt h' = elem_cnt h ∧ clients hp' h'.
Proof.
  intros Ht Hc Hn. unfold rehash.
  destruct (best_bucket_cnt_spec (elem_cnt h) Hn) as (k & Hk & -> & _). rewrite lift_bind.
  destruct (Z.eqb_spec (2 ^ k) (bucket_cnt h)) as [E|E]; [by exists hp, h, xss|].
  destruct (Hmalloc (2 ^ k) hp) as [Hm|(bs & hp1 & Hm & Hlen & Hnd & Hfr & Hsub)];
    rewrite (bind_Ret _ _ _ _ _ Hm); [by exists hp, h, xss|].
  destruct (rehash_move hp h xss k bs hp1) as (hp2 & xss2 & Hrun & Ht2 & Hp & Hc2); [done..|].
  by exists hp2, (mk_hash (elem_cnt h) (2 ^ k) bs), xss2.
Qed.

(** ** Tables as finite sets *)
Definition holds (hp : heap) (h : hash) (S : gset loc) : Prop := ∃ xss,
  table_ok R hp h xss ∧ clients hp h ∧ S = list_to_set (concat xss) ∧ S ⊆ D ∧
  elem_cnt h = Z.of_nat (length (concat xss)) ∧
  (∀ x y, x ∈ S → y ∈ S → eqv x y = true → x = y).

(** What the client's callbacks promise: [less] is a strict weak order as far
    as equality goes, and equal elements have equal hashes. *)
Class callbacks : Prop := {
  eqv_refl : ∀ x, eqv x x = true;
  eqv_trans : ∀ x y z, eqv x y = true → eqv y z = true → eqv x z = true;
  eqv_hash : ∀ x y, eqv x y = true → hash_fn x = hash_fn y }.
Context `{!callbacks}.
Context (D_small : Z.of_nat (size D) < 2 ^ 32).

Lemma eqv_sym x y : eqv x y = eqv y x.
Proof. unfold eqv. apply andb_comm. Qed.

Lemma table_NoDup hp h xss : table_ok R hp h xss → NoDup (concat xss).
Proof using.
  intros [Hl _ _ [_ Hnd] _]. rewrite fnodes_app in Hnd. apply NoDup_app in Hnd as (_ & _ & Hnd).
  revert Hl Hnd. generalize (buckets h) as bs. unfold fnodes.
  induction xss as [|xs xss IH]; intros [|b bs] Hl Hnd; try done.
  injection Hl as Hl. simpl in Hnd. apply NoDup_cons in Hnd as [_ Hnd].
  rewrite <- app_assoc in Hnd. apply NoDup_app in Hnd as (H1 & H2 & Hnd).
  apply NoDup_app in Hnd as (_ & _ & Hnd). simpl. apply NoDup_app. split_and!; [done| |by eapply IH].
  intros x Hx Hx'. apply (H2 x Hx), elem_of_app. right.
  apply (elem_of_fnodes_zip x bs xss Hl). by right.
Qed.

Lemma holds_size hp h S : holds hp h S → elem_cnt h = Z.of_nat (size S) ∧ Z.of_nat (size S) < 2 ^ 32.
Proof using D_small.
  intros (xss & Ht & _ & -> & HD & Hn & _). rewrite Hn, size_list_to_set by by eapply table_NoDup.
  split; [done|]. apply subseteq_size in HD. rewrite size_list_to_set in HD by by eapply table_NoDup. lia.
Qed.

Lemma table_elem hp h xss x :
  table_ok R hp h xss → x ∈ concat xss ↔ ∃ xs, xss !! home h x = Some xs ∧ x ∈ xs.
Proof using.
  intros Ht. rewrite list_elem_of_In, in_concat. setoid_rewrite <- list_elem_of_In. split.
  - intros (xs & [i Hi]%list_elem_of_lookup & Hx). exists xs. split; [|done].
    by rewrite (t_home _ _ _ _ Ht i xs x Hi Hx).
  - intros (xs & Hi & Hx). exists xs. split; [|done]. by eapply list_elem_of_lookup_2.
Qed.

Lemma eqv_home h x y : eqv x y = true → home h x = home h y.
Proof. intros E. unfold home. by rewrite (eqv_hash x y E). Qed.

(** Searching the home bucket decides membership up to equality. *)
Lemma table_find_run hp h xss e :
  table_ok R hp h xss →
  ∃ b xs, find_bucket hash_fn h e hp = Ret (b, hp) ∧ find_elem less b e hp = Ret (first_eqv e xs, hp) ∧
    buckets h !! home h e = Some b ∧ xss !! home h e = Some xs ∧
    (∀ x, first_eqv e xs = Some x → x ∈ concat xss ∧ eqv x e = true ∧ home h x = home h e ∧ x ∈ xs) ∧
    (first_eqv e xs = None → ∀ x, x ∈ concat xss → eqv x e = false).
Proof.
  intros Ht. destruct (find_bucket_run R hp h xss e Ht) as (b & xs & Hf & Hb & Hx).
  destruct (table_split R hp h xss _ b xs Ht Hb Hx) as (A & B & E & _).
  pose proof (t_fam _ _ _ _ Ht) as HF. rewrite E in HF. apply family_get in HF.
  exists b, xs. split_and!; [done|by apply find_elem_run|done..| |].
  - intros x [Hin Hq]%first_eqv_Some. pose proof (eqv_home h x e Hq) as Hh.
    split_and!; [|done..]. apply (table_elem hp h xss x Ht). exists xs. by rewrite Hh.
  - intros Hn x (xs' & Hi & Hin)%(table_elem hp h xss x Ht). destruct (eqv x e) eqn:Hq; [|done].
    rewrite (eqv_home h x e Hq), Hx in Hi. simplify_eq.
    pose proof (first_eqv_None _ _ _ Hn Hin). congruence.
Qed.

Lemma table_count hp h xss n :
  table_ok R hp h xss → table_ok R hp (mk_hash n (bucket_cnt h) (buckets h)) xss.
Proof. intros [H1 H2 H3 H4 H5]. by split. Qed.

Lemma insert_elem_run hp h xss e b xs :
  table_ok R hp h xss → clients hp h → e ∈ D → e ∉ concat xss →
  buckets h !! home h e = Some b → xss !! home h e = Some xs →
  ∃ hp' h' xss', insert_elem h b e hp = Ret (h', hp') ∧ table_ok R hp' h' xss' ∧ clients hp' h' ∧
    concat xss' ≡ₚ e :: concat xss ∧ elem_cnt h' = u32 (elem_cnt h + 1).
Proof.
  intros Ht Hc HD He Hb Hx. destruct (Hc e HD) as (Hs & Hns & HnR).
  destruct (bucket_push R hp h xss e b xs Ht Hb Hx) as (hp' & Hrun & Hd & Ht'); [|done|].
  { rewrite fnodes_app, elem_of_app, (elem_of_fnodes_zip _ _ _ (t_len _ _ _ _ Ht)). tauto. }
  eexists hp', _, _. unfold insert_elem. rewrite (bind_Ret _ _ _ _ _ Hrun).
  split_and!; [done|by apply table_count| | |done].
  - by apply (table_clients_dom hp).
  - by apply (concat_update xss _ xs _ [e]).
Qed.

Lemma remove_elem_run hp h xss e :
  table_ok R hp h xss → clients hp h → e ∈ concat xss →
  ∃ hp' h' xss', remove_elem h e hp = Ret (h', hp') ∧ table_ok R hp' h' xss' ∧ clients hp' h' ∧
    concat xss ≡ₚ e :: concat xss' ∧ elem_cnt h' = u32 (elem_cnt h - 1) ∧
    buckets h' = buckets h ∧ bucket_cnt h' = bucket_cnt h.
Proof.
  intros Ht Hc (xs & Hx & (l1 & l2 & ->)%list_elem_of_split)%(table_elem hp h xss e Ht).
  destruct (lookup_lt_is_Some_2 (buckets h) (home h e)) as [b Hb]; [by eapply home_lt|].
  destruct (bucket_remove R hp h xss _ b l1 e l2 Ht Hb Hx) as (q & hp' & Hrun & Hd & Ht' & _ & _).
  eexists hp', _, _. unfold remove_elem. rewrite (bind_Ret _ _ _ _ _ Hrun).
  split_and!; [done|by apply table_count| | |done..].
  - by apply (table_clients_dom hp).
  - by apply concat_update_remove.
Qed.

(** *** The calls and what they mean for the set *)
Inductive hash_call : Set := HInsert (e : loc) | HReplace (e : loc) | HFind (e : loc) | HDelete (e : loc).

Definition call_elem (c : hash_call) : loc :=
  match c with HInsert e | HReplace e | HFind e | HDelete e => e end.

Definition run_hash_call (h : hash) (c : hash_call) : cmd heap (ptr * hash) :=
  match c with
  | HInsert e => hash_insert hash_fn less malloc_buckets h e
  | HReplace e => hash_replace hash_fn less malloc_buckets h e
  | HFind e => r ← hash_find hash_fn less h e; mret (r, h)
  | HDelete e => hash_delete hash_fn less malloc_buckets h e
  end.

(** The element reported: the equal one, if any. *)
Definition reported (S : gset loc) (e : loc) (r : ptr) : Prop :=
  match r with
  | Some x => x ∈ S ∧ eqv x e = true
  | None => ∀ x, x ∈ S → eqv x e = false
  end.

Definition set_after (S : gset loc) (c : hash_call) (r : ptr) : gset loc :=
  let old : gset loc := match r with Some x => {[x]} | None => ∅ end in
  match c, r with
  | HInsert e, None => {[e]} ∪ S
  | HInsert _, Some _ => S
  | HReplace e, _ => {[e]} ∪ (S ∖ old)
  | HFind _, _ => S
  | HDelete _, _ => S ∖ old
  end.

Definition call_ok (c : hash_call) : Prop :=
  match c with HInsert e | HReplace e => e ∈ D | HFind _ | HDelete _ => True end.

(** Re-establishing [holds] after a change of the contents and a rehash. *)
Lemma holds_rehash hp h xss S :
  table_ok R hp h xss → clients hp h → S = list_to_set (concat xss) → S ⊆ D →
  elem_cnt h = Z.of_nat (length (concat xss)) →
  (∀ x y, x ∈ S → y ∈ S → eqv x y = true → x = y) →
  ∃ hp' h', rehash hash_fn malloc_buckets h hp = Ret (h', hp') ∧ holds hp' h' S.
Proof.
  intros Ht Hc HS HD Hn Hu.
  assert (Hsz : Z.of_nat (length (concat xss)) < 2 ^ 32).
  { subst S. apply subseteq_size in HD. rewrite size_list_to_set in HD by by eapply table_NoDup. lia. }
  destruct (rehash_run hp h xss Ht Hc) as (hp' & h' & xss' & Hrun & Ht' & Hp & Hn' & Hc'); [lia|].
  exists hp', h'. split; [done|]. exists xss'. split_and!; try done.
  - rewrite HS. apply set_eq. intros x. by rewrite !elem_of_list_to_set, Hp.
  - by rewrite Hn', Hn, Hp.
Qed.

Lemma reported_cons_unique (S : gset loc) e :
  (∀ x y, x ∈ S → y ∈ S → eqv x y = true → x = y) → (∀ x, x ∈ S → eqv x e = false) →
  ∀ x y, x ∈ {[e]} ∪ S → y ∈ {[e]} ∪ S → eqv x y = true → x = y.
Proof.
  intros Hu Hn x y [->%elem_of_singleton|Hx]%elem_of_union [->%elem_of_singleton|Hy]%elem_of_union Hq;
    try done; [|specialize (Hn x Hx); congruence|auto].
  rewrite eqv_sym in Hq. specialize (Hn y Hy). congruence.
Qed.

Lemma find_reported hp h xss S e :
  table_ok R hp h xss → S = list_to_set (concat xss) →
  ∃ b xs r, find_bucket hash_fn h e hp = Ret (b, hp) ∧ find_elem less b e hp = Ret (r, hp) ∧
    buckets h !! home h e = Some b ∧ xss !! home h e = Some xs ∧ reported S e r.
Proof.
  intros Ht ->. destruct (table_find_run hp h xss e Ht) as (b & xs & H1 & H2 & H3 & H4 & HS & HN).
  exists b, xs, (first_eqv e xs). split_and!; try done. unfold reported.
  destruct (first_eqv e xs) as [x|] eqn:E.
  - destruct (HS x eq_refl) as (? & ? & _). by rewrite elem_of_list_to_set.
  - intros x Hx. apply HN; [done|]. by apply elem_of_list_to_set in Hx.
Qed.

Lemma perm_cons_size (xs ys : list loc) x (S : gset loc) :
  xs ≡ₚ x :: ys → S = list_to_set xs → NoDup xs → S ∖ {[x]} = list_to_set ys ∧ x ∉ ys.
Proof.
  intros Hp -> Hnd. rewrite Hp in Hnd. apply NoDup_cons in Hnd as [Hx _]. split; [|done].
  apply set_eq. intros y. rewrite elem_of_difference, elem_of_list_to_set, Hp, elem_of_cons,
    elem_of_list_to_set, elem_of_singleton. split; [tauto|]. intros Hy. split; [tauto|]. by intros ->.
Qed.

Lemma insert_sim hp h S e :
  holds hp h S → e ∈ D →
  ∃ r h' hp', hash_insert hash_fn less malloc_buckets h e hp = Ret ((r, h'), hp') ∧
    reported S e r ∧ holds hp' h' (set_after S (HInsert e) r).
Proof.
  intros Hh HeD. pose proof (holds_size _ _ _ Hh) as [Hsz Hlt].
  destruct Hh as (xss & Ht & Hc & HS & HD & Hn & Hu).
  destruct (find_reported hp h xss S e Ht HS) as (b & xs & r & H1 & H2 & H3 & H4 & Hr).
  unfold hash_insert. rewrite (bind_Ret _ _ _ _ _ H1), (bind_Ret _ _ _ _ _ H2).
  destruct r as [x|]; simpl in Hr.
  - rewrite ret_bind.
    destruct (holds_rehash hp h xss S) as (hp' & h' & Hrun & Hh'); [done..|].
    rewrite (bind_Ret _ _ _ _ _ Hrun). by exists (Some x), h', hp'.
  - assert (HeS : e ∉ S) by (intros He; specialize (Hr e He); rewrite eqv_refl in Hr; done).
    destruct (insert_elem_run hp h xss e b xs) as (hp1 & h1 & xss1 & Hi & Ht1 & Hc1 & Hp1 & Hn1); try done.
    { intros He. apply HeS. subst S. by apply elem_of_list_to_set. }
    rewrite (bind_Ret _ _ _ _ _ Hi).
    destruct (holds_rehash hp1 h1 xss1 ({[e]} ∪ S)) as (hp' & h' & Hrun & Hh'); try done.
    + subst S. apply set_eq. intros x. rewrite elem_of_list_to_set, Hp1. set_solver.
    + set_solver.
    + assert (Hsz1 : (size ({[e]} ∪ S) ≤ size D)%nat) by (apply subseteq_size; set_solver).
      rewrite size_union, size_singleton in Hsz1 by set_solver.
      rewrite Hn1, Hp1, u32_small by lia. simpl length. lia.
    + by apply reported_cons_unique.
    + rewrite (bind_Ret _ _ _ _ _ Hrun). by exists None, h', hp'.
Qed.

Lemma find_sim hp h S e :
  holds hp h S → ∃ r, hash_find hash_fn less h e hp = Ret (r, hp) ∧ reported S e r.
Proof.
  intros (xss & Ht & Hc & HS & HD & Hn & Hu).
  destruct (find_reported hp h xss S e Ht HS) as (b & xs & r & H1 & H2 & H3 & H4 & Hr).
  exists r. unfold hash_find. by rewrite (bind_Ret _ _ _ _ _ H1).
Qed.

Lemma delete_sim hp h S e :
  holds hp h S →
  ∃ r h' hp', hash_delete hash_fn less malloc_buckets h e hp = Ret ((r, h'), hp') ∧
    reported S e r ∧ holds hp' h' (set_after S (HDelete e) r).
Proof.
  intros Hh. pose proof (holds_size _ _ _ Hh) as [Hsz Hlt].
  destruct Hh as (xss & Ht & Hc & HS & HD & Hn & Hu).
  destruct (find_reported hp h xss S e Ht HS) as (b & xs & r & H1 & H2 & H3 & H4 & Hr).
  unfold hash_delete. rewrite (bind_Ret _ _ _ _ _ H1), (bind_Ret _ _ _ _ _ H2).
  destruct r as [x|]; simpl in Hr.
  - destruct Hr as [Hx Hq]. assert (Hx' : x ∈ concat xss) by (subst S; by apply elem_of_list_to_set in Hx).
    destruct (remove_elem_run hp h xss x Ht Hc Hx') as (hp1 & h1 & xss1 & Hi & Ht1 & Hc1 & Hp1 & Hn1 & _).
    destruct (perm_cons_size _ _ x S Hp1 HS) as [HS1 Hx1]; [by eapply table_NoDup|].
    rewrite (bind_Ret _ _ _ _ _ Hi).
    destruct (holds_rehash hp1 h1 xss1 (S ∖ {[x]})) as (hp' & h' & Hrun & Hh'); try done.
    + set_solver.
    + apply Permutation_length in Hp1. simpl in Hp1. rewrite Hn1, u32_small by lia. lia.
    + intros y z. rewrite !elem_of_difference. naive_solver.
    + rewrite (bind_Ret _ _ _ _ _ Hrun). by exists (Some x), h', hp'.
  - exists None, h, hp. split_and!; [done..|]. simpl. rewrite difference_empty_L.
    exists xss. by split_and!.
Qed.

(** The first half of [hash_replace]: the equal element, if any, is gone. *)
Lemma replace_remove hp h xss S e b r
    (S1 := match r with Some x => S ∖ {[x]} | None => S end) :
  table_ok R hp h xss → clients hp h → S = list_to_set (concat xss) →
  elem_cnt h = Z.of_nat (length (concat xss)) → Z.of_nat (size S) < 2 ^ 32 →
  (∀ x y, x ∈ S → y ∈ S → eqv x y = true → x = y) →
  buckets h !! home h e = Some b → reported S e r →
  ∃ hp1 h1 xss1 xs1,
    (match r with Some o => remove_elem h o | None => mret h end) hp = Ret (h1, hp1) ∧
    table_ok R hp1 h1 xss1 ∧ clients hp1 h1 ∧ S1 = list_to_set (concat xss1) ∧
    elem_cnt h1 = Z.of_nat (length (concat xss1)) ∧ buckets h1 !! home h1 e = Some b ∧
    xss1 !! home h1 e = Some xs1 ∧ (∀ x, x ∈ S1 → eqv x e = false).
Proof.
  intros Ht Hc HS Hn Hsz Hu Hb Hr. destruct r as [x|]; simpl in Hr.
  2:{ destruct (find_bucket_run R hp h xss e Ht) as (? & xs & _ & _ & Hxs). by exists hp, h, xss, xs. }
  destruct Hr as [Hx Hq]. assert (Hx' : x ∈ concat xss) by (subst S; by apply elem_of_list_to_set in Hx).
  destruct (remove_elem_run hp h xss x Ht Hc Hx')
    as (hp1 & h1 & xss1 & Hi & Ht1 & Hc1 & Hp1 & Hn1 & Hb1 & Hc1').
  destruct (perm_cons_size _ _ x S Hp1 HS) as [HS1 Hx1]; [by eapply table_NoDup|].
  assert (Eh : home h1 e = home h e) by (unfold home; by rewrite Hc1').
  destruct (find_bucket_run R hp1 h1 xss1 e Ht1) as (b1 & xs1 & _ & Hb1' & Hxs1).
  exists hp1, h1, xss1, xs1. split_and!; try done.
  - rewrite HS, size_list_to_set in Hsz by by eapply table_NoDup.
    apply Permutation_length in Hp1. simpl in Hp1. rewrite Hn1, u32_small by lia. lia.
  - by rewrite Eh, Hb1.
  - intros y [Hy Hne%not_elem_of_singleton]%elem_of_difference. destruct (eqv y e) eqn:E; [|done].
    destruct Hne. apply Hu; [done..|]. apply (eqv_trans y e x); [done|]. by rewrite eqv_sym.
Qed.

Lemma replace_sim hp h S e :
  holds hp h S → e ∈ D →
  ∃ r h' hp', hash_replace hash_fn less malloc_buckets h e hp = Ret ((r, h'), hp') ∧
    reported S e r ∧ holds hp' h' (set_after S (HReplace e) r).
Proof.
  intros Hh HeD. pose proof (holds_size _ _ _ Hh) as [Hsz Hlt].
  destruct Hh as (xss & Ht & Hc & HS & HD & Hn & Hu).
  destruct (find_reported hp h xss S e Ht HS) as (b & xs & r & H1 & H2 & H3 & H4 & Hr).
  unfold hash_replace. rewrite (bind_Ret _ _ _ _ _ H1), (bind_Ret _ _ _ _ _ H2).
  destruct (replace_remove hp h xss S e b r) as
    (hp1 & h1 & xss1 & xs1 & Hrun1 & Ht1 & Hc1 & HS1 & Hn1 & Hb1 & Hx1 & Hno); [done..|].
  rewrite (bind_Ret _ _ _ _ _ Hrun1).
  set (S1 := match r with Some x => S ∖ {[x]} | None => S end) in *.
  assert (HeS1 : e ∉ S1) by (intros He; specialize (Hno e He); rewrite eqv_refl in Hno; done).
  assert (HS1S : S1 ⊆ S) by (unfold S1; destruct r; set_solver).
  destruct (insert_elem_run hp1 h1 xss1 e b xs1) as (hp2 & h2 & xss2 & Hi & Ht2 & Hc2 & Hp2 & Hn2); try done.
  { intros He. apply HeS1. rewrite HS1. by apply elem_of_list_to_set. }
  rewrite (bind_Ret _ _ _ _ _ Hi).
  destruct (holds_rehash hp2 h2 xss2 ({[e]} ∪ S1)) as (hp' & h' & Hrun & Hh'); try done.
  - rewrite HS1. apply set_eq. intros x. rewrite elem_of_list_to_set, Hp2. set_solver.
  - set_solver.
  - assert (Hsz1 : (size ({[e]} ∪ S1) ≤ size D)%nat) by (apply subseteq_size; set_solver).
    rewrite size_union, size_singleton in Hsz1 by set_solver.
    rewrite HS1, size_list_to_set in Hsz1 by by eapply table_NoDup.
    rewrite Hn2, Hp2, u32_small by lia. simpl length. lia.
  - apply reported_cons_unique; [|done]. intros x y Hx Hy. apply Hu; set_solver.
  - rewrite (bind_Ret _ _ _ _ _ Hrun). exists r, h', hp'. split_and!; [done..|].
    unfold set_after. replace (S ∖ _) with S1; [done|]. unfold S1. destruct r; [done|].
    by rewrite difference_empty_L.
Qed.

Lemma hash_call_sim hp h S c :
  holds hp h S → call_ok c →
  ∃ r h' hp', run_hash_call h c hp = Ret ((r, h'), hp') ∧
    reported S (call_elem c) r ∧ holds hp' h' (set_after S c r).
Proof.
  intros Hh Hc. destruct c as [e|e|e|e]; simpl in Hc.
  - by apply insert_sim.
  - by apply replace_sim.
  - destruct (find_sim hp h S e Hh) as (r & Hrun & Hr). exists r, h, hp.
    unfold run_hash_call. by rewrite (bind_Ret _ _ _ _ _ Hrun).
  - by apply delete_sim.
Qed.

Fixpoint run_hash_calls (h : hash) (cs : list hash_call) : cmd heap (list ptr * hash) :=
  match cs with
  | [] => mret ([], h)
  | c :: cs => a ← run_hash_call h c; b ← run_hash_calls a.2 cs; mret (a.1 :: b.1, b.2)
  end.

(** The set semantics of a sequence of calls with the replies [rs]. *)
Inductive set_calls : gset loc → list hash_call → list ptr → gset loc → Prop :=
  | set_calls_nil S : set_calls S [] [] S
  | set_calls_cons S c cs r rs S' :
      reported S (call_elem c) r → set_calls (set_after S c r) cs rs S' →
      set_calls S (c :: cs) (r :: rs) S'.

Lemma hash_calls_sim cs hp h S :
  holds hp h S → Forall call_ok cs →
  ∃ rs h' hp' S', run_hash_calls h cs hp = Ret ((rs, h'), hp') ∧ set_calls S cs rs S' ∧ holds hp' h' S'.
Proof.
  revert hp h S. induction cs as [|c cs IH]; intros hp h S Hh Hok.
  { exists [], h, hp, S. split_and!; [done|constructor|done]. }
  apply Forall_cons in Hok as [Hc Hok].
  destruct (hash_call_sim hp h S c Hh Hc) as (r & h1 & hp1 & Hrun & Hr & Hh1).
  destruct (IH hp1 h1 _ Hh1 Hok) as (rs & h2 & hp2 & S2 & Hrun2 & Hs & Hh2).
  exists (r :: rs), h2, hp2, S2. cbn [run_hash_calls].
  rewrite (bind_Ret _ _ _ _ _ Hrun). cbn [fst snd]. rewrite (bind_Ret _ _ _ _ _ Hrun2).
  split_and!; [done| |done]. by econstructor.
Qed.

Lemma init_sim hp :
  family hp R → (∀ x, x ∈ D → is_Some (hp !! x) ∧ x ∉ fnodes R) →
  hash_init malloc_buckets hp = Ret (None, hp) ∨
  ∃ h hp', hash_init malloc_buckets hp = Ret (Some h, hp') ∧ holds hp' h ∅.
Proof using Hmalloc.
  intros HF HD. unfold hash_init. destruct (Hmalloc 4 hp) as [Hm|(bs & hp1 & Hm & Hlen & Hnd & Hfr & Hsub)];
    rewrite (bind_Ret _ _ _ _ _ Hm); [by left|right].
  assert (HF1 : family hp1 R).
  { eapply family_agree; [|done]. intros x Hx. destruct (family_dom _ _ x HF Hx) as [e He].
    rewrite He. by eapply lookup_weaken. }
  destruct (init_buckets_run bs R hp1 HF1 Hnd) as (hp2 & Hrun & HF2 & Hd2).
  { intros x Hx. destruct (Hfr x Hx) as [Hn ?]. split; [done|]. intros Hx'.
    destruct (family_dom _ _ x HF Hx') as [e He]. congruence. }
  set (h := mk_hash 0 4 bs). exists h, hp2. split.
  { unfold hash_clear. rewrite bind_assoc. cbn [buckets bucket_cnt].
    by rewrite (bind_Ret _ _ _ _ _ (clear_init _ _ _ Hrun)). }
  exists (replicate (length bs) []). rewrite concat_replicate_nil.
  split_and!; [by apply (fresh_table R hp2 h 2)| |done..].
  intros x Hx. destruct (HD x Hx) as [[e He] HR]. split_and!; [| |done].
  - apply elem_of_dom. rewrite Hd2. apply elem_of_dom. exists e. by eapply lookup_weaken.
  - intros Hx'. destruct (Hfr x Hx') as [? _]. congruence.
Qed.

(** *** Iteration *)
(** [hash_next] has [rest] still to deliver. *)
Definition remaining (h : hash) (xss : list (list loc)) (it : hash_iterator) (rest : list loc) : Prop :=
  ∃ b pre post, buckets h !! it_bucket it = Some b ∧
    rest = post ++ concat (drop (S (it_bucket it)) xss) ∧
    ((it_elem it = Some (head b) ∧ xss !! it_bucket it = Some post) ∨
     (∃ x, it_elem it = Some x ∧ xss !! it_bucket it = Some (pre ++ x :: post))).

Lemma bucket_list hp h xss i b xs :
  table_ok R hp h xss → buckets h !! i = Some b → xss !! i = Some xs → is_list hp b xs.
Proof using.
  intros Ht Hb Hx. destruct (table_split R hp h xss i b xs Ht Hb Hx) as (A & B & E & _).
  pose proof (t_fam _ _ _ _ Ht) as HF. rewrite E in HF. by apply family_get in HF.
Qed.

Lemma next_bucket_loop_run hp h xss fuel i b pre post :
  table_ok R hp h xss → buckets h !! i = Some b → xss !! i = Some (pre ++ post) →
  (length (buckets h) - i <= fuel)%nat →
  ∃ it, next_bucket_loop fuel h (mk_iter i (hd_or (Some (tail b)) post)) hp = Ret (it, hp) ∧
    match post ++ concat (drop (S i) xss) with
    | [] => it_elem it = NULL
    | y :: rest => it_elem it = Some y ∧ remaining h xss it rest
    end.
Proof using. clear D_small.
  intros Ht. revert i b pre post. induction fuel as [|fuel IH]; intros i b pre post Hb Hx Hf.
  { apply lookup_lt_Some in Hb. lia. }
  pose proof (bucket_list hp h xss i b _ Ht Hb Hx) as Hl. cbn [next_bucket_loop].
  cbn [it_bucket it_elem]. rewrite (bind_Ret _ _ _ _ _ (bucket_at_run hp h i b Hb)), (cursor_end hp b pre) by done.
  destruct post as [|y post]; [rewrite bool_decide_true by done|rewrite bool_decide_false by done].
  2:{ eexists. split; [done|]. simpl. split; [done|]. exists b, pre, post. simpl. split_and!; [done..|]. eauto. }
  rewrite (t_cnt _ _ _ _ Ht). pose proof (t_len _ _ _ _ Ht) as Hlen.
  destruct (Z.leb_spec (Z.of_nat (length (buckets h))) (Z.of_nat (S i))) as [Hle|Hgt].
  - eexists. split; [done|]. rewrite drop_ge by lia. done.
  - destruct (lookup_lt_is_Some_2 (buckets h) (S i) ltac:(lia)) as [b' Hb'].
    destruct (lookup_lt_is_Some_2 xss (S i) ltac:(lia)) as [xs' Hx'].
    rewrite (bind_Ret _ _ _ _ _ (bucket_at_run hp h _ b' Hb')).
    rewrite (bind_Ret _ _ _ _ _ (list_begin_list hp b' xs' (bucket_list hp h xss _ b' _ Ht Hb' Hx'))).
    destruct (IH (S i) b' [] xs' Hb' Hx' ltac:(lia)) as (it & Hrun & Hit).
    exists it. split; [done|]. rewrite (drop_S _ _ _ Hx'). done.
Qed.

Lemma hash_next_run hp h xss it rest :
  table_ok R hp h xss → remaining h xss it rest →
  ∃ it', hash_next h it hp = Ret (it', hp) ∧
    match rest with [] => it_elem it' = NULL | y :: rest => it_elem it' = Some y ∧ remaining h xss it' rest end.
Proof using. clear D_small.
  intros Ht (b & pre & post & Hb & -> & Hpos). unfold hash_next.
  destruct Hpos as [[Ee Hx]|(x & Ee & Hx)]; rewrite Ee.
  - rewrite (bind_Ret _ _ _ _ _ (list_next_head hp b post (bucket_list hp h xss _ b _ Ht Hb Hx))).
    apply (next_bucket_loop_run hp h xss _ _ b [] post); [done..|lia].
  - rewrite (bind_Ret _ _ _ _ _ (list_next_list hp b pre x post (bucket_list hp h xss _ b _ Ht Hb Hx))).
    apply (next_bucket_loop_run hp h xss _ _ b (pre ++ [x]) post); [done..| |lia].
    by rewrite <- app_assoc.
Qed.

Lemma iterate_loop_run hp h xss it rest fuel :
  table_ok R hp h xss → remaining h xss it rest → (length rest < fuel)%nat →
  iterate_loop fuel h it hp = Ret (rest, hp).
Proof using. clear D_small.
  intros Ht. revert it fuel. induction rest as [|y rest IH]; intros it [|fuel] Hr Hf; simpl in Hf; try lia.
  all: cbn [iterate_loop]; destruct (hash_next_run hp h xss it _ Ht Hr) as (it' & Hrun & Hit);
    rewrite (bind_Ret _ _ _ _ _ Hrun); unfold hash_cur; simpl in Hit.
  - by rewrite Hit.
  - destruct Hit as [-> Hit]. by rewrite (bind_Ret _ _ _ _ _ (IH it' fuel Hit ltac:(lia))).
Qed.

Lemma iterate_run hp h xss fuel :
  table_ok R hp h xss → (length (concat xss) < fuel)%nat → iterate fuel h hp = Ret (concat xss, hp).
Proof using. clear D_small.
  intros Ht Hf. pose proof Ht as [Hlen Hc (k & Hk & Ek) _ _].
  assert (0 < 2 ^ k) by (apply Z.pow_pos_nonneg; lia).
  destruct (lookup_lt_is_Some_2 (buckets h) 0 ltac:(lia)) as [b Hb].
  destruct (lookup_lt_is_Some_2 xss 0 ltac:(lia)) as [xs Hx].
  unfold iterate, hash_first. rewrite bind_assoc, (bind_Ret _ _ _ _ _ (bucket_at_run hp h _ b Hb)), ret_bind.
  apply (iterate_loop_run hp h xss); [done| |done].
  exists b, [], xs. simpl. destruct xss as [|xs0 xss]; [done|]. simpl in Hx. simplify_eq.
  simpl. rewrite drop_0. tauto.
Qed.

(** *** Clearing *)
Lemma clear_sim hp h S :
  holds hp h S →
  ∃ xs h' hp', hash_clear h true hp = Ret ((xs, h'), hp') ∧ NoDup xs ∧ list_to_set xs = S ∧
    buckets h' = buckets h ∧ holds hp' h' ∅.
Proof using.
  intros (xss & Ht & Hc & HS & HD & Hn & Hu). pose proof Ht as [Hlen Hcnt (k & Hk & Ek) HF _].
  destruct (clear_loop_run (buckets h) xss R hp Hlen HF) as (hp1 & Hrun & HF1 & Hd1).
  exists (concat xss), (mk_hash 0 (bucket_cnt h) (buckets h)), hp1.
  unfold hash_clear. rewrite (bind_Ret _ _ _ _ _ Hrun).
  split_and!; [done|by eapply table_NoDup|done|done|].
  exists (replicate (length (buckets h)) []). rewrite concat_replicate_nil.
  split_and!; [|by apply (table_clients_dom hp)|done..].
  by apply (fresh_table R hp1 (mk_hash 0 (bucket_cnt h) (buckets h)) k).
Qed.
End table.

(** ** Theorems *)

(** C27: a hash table refines a finite set.  For every client whose callbacks
    are consistent (equal elements hash alike) and every behaviour of
    [malloc], [hash_init] either reports failure or yields an empty table,
    and then any sequence of insert, replace, find and delete calls runs
    without fault, each reports exactly the equal element of the set if there
    is one, the table holds the resulting set with its size and with no two
    equal elements, growing and shrinking its buckets on the way, and every
    other list in memory is intact. *)
Theorem hash_refines_set hash_fn less malloc_buckets D R hp cs :
  (∀ e, 0 <= hash_fn e < 2 ^ 32) → malloc_ok malloc_buckets → callbacks hash_fn less →
  Z.of_nat (size D) < 2 ^ 32 → family hp R → (∀ x, x ∈ D → is_Some (hp !! x) ∧ x ∉ fnodes R) →
  Forall (call_ok D) cs →
  hash_init malloc_buckets hp = Ret (None, hp) ∨
  ∃ h0 hp0 rs h hp' S,
    hash_init malloc_buckets hp = Ret (Some h0, hp0) ∧
    run_hash_calls hash_fn less malloc_buckets h0 cs hp0 = Ret ((rs, h), hp') ∧
    set_calls less ∅ cs rs S ∧ holds hash_fn less D R hp' h S ∧
    hash_size h = Z.of_nat (size S) ∧ hash_empty h = bool_decide (S = ∅) ∧ family hp' R.
Proof.
  intros Hr Hm Hcb HD HF Hcl Hcs.
  assert (Hinit : _ ∨ ∃ h0 hp0, _) by by eapply (init_sim hash_fn less malloc_buckets).
  destruct Hinit as [?|(h0 & hp0 & Hi & Hh0)]; [by left|right].
  edestruct (hash_calls_sim hash_fn less malloc_buckets) as (rs & h & hp' & S & Hrun & Hs & Hh); [done..|].
  exists h0, hp0, rs, h, hp', S. pose proof Hh as Hsz. apply holds_size in Hsz as [Hsz _]; [|done].
  split_and!; try done.
  - unfold hash_empty. rewrite Hsz. destruct (decide (S = ∅)) as [->|Hne].
    + by rewrite bool_decide_true by done.
    + rewrite bool_decide_false by done. apply Z.eqb_neq. intros E.
      apply Hne, leibniz_equiv, size_empty_iff. lia.
  - destruct Hh as (xss & Ht & _). pose proof (t_fam _ _ _ _ _ Ht) as HF'. by apply family_app in HF' as [? _].
Qed.

(** iterating a table, with the documented [hash_first]/[hash_next] idiom
    or with [hash_apply], delivers every element of the set exactly once and
    then a null pointer, without changing memory. *)
Theorem hash_iteration_complete hash_fn less D R hp h S :
  Z.of_nat (size D) < 2 ^ 32 → holds hash_fn less D R hp h S →
  ∃ xs, hash_apply h hp = Ret (xs, hp) ∧ iterate (1 + size S) h hp = Ret (xs, hp) ∧
        NoDup xs ∧ list_to_set xs = S.
Proof.
  intros HD Hh. pose proof Hh as Hsz. apply holds_size in Hsz as [Hsz _]; [|done].
  destruct Hh as (xss & Ht & _ & HS & _ & Hn & _). exists (concat xss). split_and!; [..|done].
  - eapply apply_buckets_run; [apply (t_len _ _ _ _ _ Ht)|apply (t_fam _ _ _ _ _ Ht)].
  - eapply iterate_run; [done|]. lia.
  - by eapply table_NoDup.
Qed.

(** clearing a table with a destructor calls it once on every element and
    leaves a usable empty table; destroying it does the same and releases the
    bucket array, leaving every other list intact. *)
Theorem hash_clear_destroy hash_fn less D R hp h S :
  holds hash_fn less D R hp h S →
  ∃ xs h' hp' hp'', NoDup xs ∧ list_to_set xs = S ∧
    hash_clear h true hp = Ret ((xs, h'), hp') ∧ holds hash_fn less D R hp' h' ∅ ∧
    hash_destroy h true hp = Ret (xs, hp'') ∧ family hp'' R ∧
    (∀ x, x ∈ sentinels (buckets h) → hp'' !! x = None).
Proof.
  intros Hh. edestruct (clear_sim hash_fn less) as (xs & h' & hp' & Hrun & Hnd & HS & Hb & Hh'); [done..|].
  destruct (free_buckets_lookup (buckets h) hp') as (hp'' & Hfree & Hkeep).
  exists xs, h', hp', hp''. split_and!; try done.
  - unfold hash_destroy. rewrite bind_assoc, (bind_Ret _ _ _ _ _ Hrun), ret_bind.
    by rewrite (bind_Ret _ _ _ _ _ Hfree).
  - destruct Hh' as (xss & Ht & _). pose proof Ht as [Hlen _ _ HF _].
    apply family_app in HF as (HF & _ & Hd). eapply family_agree; [|done]. intros x Hx. apply Hkeep.
    intros Hx'. apply (Hd x Hx). apply elem_of_fnodes_zip; [done|]. rewrite Hb. by left.
  - intros x. by eapply free_buckets_gone.
Qed.

(** *** A concrete client *)
Fixpoint pair_up (l : list loc) : list klist :=
  match l with a :: b :: l => mk_list a b :: pair_up l | _ => [] end.

(** An allocator that takes addresses not in use, and fails above 1000. *)
Definition ex_malloc (n : Z) : cmd heap (option (list klist)) := λ hp,
  if (0 <=? n) && (n <=? 1000) then
    let new := fresh_list (2 * Z.to_nat n) (dom hp) in
    Ret (Some (pair_up new), foldr (λ x hp, <[x := mk_elem None None]> hp) hp new)
  else Ret (None, hp).

Lemma pair_up_spec n l :
  length l = (2 * n)%nat → length (pair_up l) = n ∧ sentinels (pair_up l) = l.
Proof.
  revert l. induction n as [|n IH]; intros l Hl.
  - by destruct l.
  - destruct l as [|a [|b l]]; simpl in Hl; try lia. destruct (IH l ltac:(lia)) as [H1 H2].
    cbn [pair_up length]. change (sentinels (mk_list a b :: pair_up l)) with (a :: b :: sentinels (pair_up l)).
    by rewrite H1, H2.
Qed.

Lemma ex_malloc_ok : malloc_ok ex_malloc.
Proof.
  intros n hp. unfold ex_malloc. destruct ((0 <=? n) && (n <=? 1000)) eqn:E; [right|by left].
  apply andb_prop in E as [E1%Z.leb_le _].
  set (new := fresh_list _ _). destruct (pair_up_spec (Z.to_nat n) new) as [Hlen Hs].
  { apply length_fresh_list. }
  assert (Hnd : NoDup new) by apply NoDup_fresh_list.
  assert (Hfr : ∀ x, x ∈ new → hp !! x = None).
  { intros x Hx. apply not_elem_of_dom. by eapply fresh_list_is_fresh. }
  eexists _, _. rewrite Hs. split_and!; [done|lia|done| |].
  - intros x Hx. split; [by apply Hfr|]. clear Hnd Hfr Hlen Hs. clearbody new. induction new as [|y new IH]; [set_solver|].
    simpl. destruct (decide (x = y)) as [->|]; [by rewrite lookup_insert_eq|].
    rewrite lookup_insert_ne by done. apply IH. set_solver.
  - clear Hs Hlen. clearbody new. induction new as [|y new IH]; [done|]. simpl.
    apply NoDup_cons in Hnd as [Hy Hnd]. etransitivity; [apply IH; [done|]; intros; apply Hfr; set_solver|].
    apply insert_subseteq. specialize (Hfr y ltac:(set_solver)). revert Hy Hfr. clear.
    induction new as [|z new IH]; [done|]. simpl. intros Hy Hfr.
    rewrite lookup_insert_ne by set_solver. apply IH; set_solver.
Qed.

(** Elements are equal when their addresses agree modulo 8. *)
Definition ex_key (x : loc) : Z := Z.pos x mod 8.
Definition ex_key_less (x y : loc) : bool := ex_key x <? ex_key y.

#[local] Instance ex_callbacks : callbacks ex_key ex_key_less.
Proof.
  split; unfold eqv, ex_key_less; intros.
  - by rewrite Z.ltb_irrefl.
  - apply andb_prop in H as [H1 H2], H0 as [H3 H4]. rewrite !negb_true_iff, !Z.ltb_ge in *.
    apply andb_true_intro. rewrite !negb_true_iff, !Z.ltb_ge. lia.
  - apply andb_prop in H as [H1 H2]. rewrite !negb_true_iff, !Z.ltb_ge in *. lia.
Qed.

Lemma ex_key_range e : 0 <= ex_key e < 2 ^ 32.
Proof. unfold ex_key. pose proof (Z.mod_pos_bound (Z.pos e) 8). lia. Qed.

Definition ex_D : gset loc := list_to_set [1; 2; 3; 9]%positive.
Definition ex_hp : heap := list_to_map ((λ x, (x, mk_elem None None)) <$> [1; 2; 3; 9]%positive).

Lemma ex_D_ok x : x ∈ ex_D → is_Some (ex_hp !! x) ∧ x ∉ fnodes [].
Proof.
  intros Hx. split; [|set_solver]. unfold ex_D in Hx. rewrite elem_of_list_to_set in Hx.
  repeat (apply elem_of_cons in Hx as [->|Hx]; [by eexists|]). set_solver.
Qed.

Lemma ex_family : family ex_hp [].
Proof. split; constructor. Qed.

Definition ex_calls : list hash_call := [HInsert 1; HInsert 9; HInsert 2; HReplace 9; HDelete 2; HFind 17]%positive.

Lemma ex_calls_ok : Forall (call_ok ex_D) ex_calls.
Proof. unfold ex_calls. repeat constructor; simpl; try done; unfold ex_D; set_solver. Qed.

Lemma hash_refines_set_witness :
  hash_init ex_malloc ex_hp = Ret (None, ex_hp) ∨
  ∃ h0 hp0 rs h hp' S,
    hash_init ex_malloc ex_hp = Ret (Some h0, hp0) ∧
    run_hash_calls ex_key ex_key_less ex_malloc h0 ex_calls hp0 = Ret ((rs, h), hp') ∧
    set_calls ex_key_less ∅ ex_calls rs S ∧ holds ex_key ex_key_less ex_D [] hp' h S ∧
    hash_size h = Z.of_nat (size S) ∧ hash_empty h = bool_decide (S = ∅) ∧ family hp' [].
Proof.
  apply (hash_refines_set ex_key ex_key_less ex_malloc ex_D [] ex_hp ex_calls).
  - exact ex_key_range.
  - exact ex_malloc_ok.
  - exact ex_callbacks.
  - reflexivity.
  - exact ex_family.
  - exact ex_D_ok.
  - exact ex_calls_ok.
Defined.

(** A table of four buckets with two elements in bucket 1. *)
Definition ex_table : hash :=
  mk_hash 2 4 [mk_list 101 102; mk_list 103 104; mk_list 105 106; mk_list 107 108]%positive.
Definition ex_table_hp : heap := list_to_map
  [(101, mk_elem None (Some 102)); (102, mk_elem (Some 101) None);
   (103, mk_elem None (Some 1)); (1, mk_elem (Some 103) (Some 5));
   (5, mk_elem (Some 1) (Some 104)); (104, mk_elem (Some 5) None);
   (105, mk_elem None (Some 106)); (106, mk_elem (Some 105) None);
   (107, mk_elem None (Some 108)); (108, mk_elem (Some 107) None)]%positive.
Definition ex_table_D : gset loc := list_to_set [1; 5]%positive.

Lemma ex_table_holds : holds ex_key ex_key_less ex_table_D [] ex_table_hp ex_table ex_table_D.
Proof.
  assert (HD : ∀ x, x ∈ ex_table_D → x = 1%positive ∨ x = 5%positive).
  { intros x. unfold ex_table_D. rewrite elem_of_list_to_set, !elem_of_cons, elem_of_nil. tauto. }
  exists [[]; [1; 5]; []; []]%positive. split_and!; try done.
  - split; try done.
    + by exists 2.
    + split; [|by_decision].
      repeat (apply Forall_cons; split); [..|apply Forall_nil; done];
        (split; [by cbv|by_decision]).
    + intros [|[|[|[|i]]]] xs x Hx Hin; simpl in Hx; simplify_eq; try (by apply not_elem_of_nil in Hin).
      rewrite !elem_of_cons, elem_of_nil in Hin. by destruct Hin as [->|[->|[]]].
  - intros x [-> | ->]%HD; (split; [by eexists|]); (split; [by_decision|set_solver]).
  - intros x y [-> | ->]%HD [-> | ->]%HD; done.
Qed.

Lemma hash_iteration_complete_witness :
  ∃ xs, hash_apply ex_table ex_table_hp = Ret (xs, ex_table_hp) ∧
        iterate (1 + size ex_table_D) ex_table ex_table_hp = Ret (xs, ex_table_hp) ∧
        NoDup xs ∧ list_to_set xs = ex_table_D.
Proof.
  apply (hash_iteration_complete ex_key ex_key_less ex_table_D [] ex_table_hp ex_table ex_table_D).
  - reflexivity.
  - exact ex_table_holds.
Defined.

Lemma hash_clear_destroy_witness :
  ∃ xs h' hp' hp'', NoDup xs ∧ list_to_set xs = ex_table_D ∧
    hash_clear ex_table true ex_table_hp = Ret ((xs, h'), hp') ∧
    holds ex_key ex_key_less ex_table_D [] hp' h' ∅ ∧
    hash_destroy ex_table true ex_table_hp = Ret (xs, hp'') ∧ family hp'' [] ∧
    (∀ x, x ∈ sentinels (buckets ex_table) → hp'' !! x = None).
Proof. exact (hash_clear_destroy ex_key ex_key_less ex_table_D [] ex_table_hp ex_table ex_table_D ex_table_holds). Defined.
