(* ===== verification/KString.v ===== *)
(** * Strings and memory blocks (lib/string.c)

    Memory is a finite map from addresses to bytes; a null pointer is address
    0 and an access to an unmapped address is a fault.  A counted loop
    ([while (size-- > 0)]) recurses on the count; a loop that runs to a null
    byte is bounded by the number of mapped bytes, which no string can
    exceed.  A [char] is kept as its byte, since the routines compare
    characters for equality only, or as [unsigned char]. *)
From S2P Require Import Prelude.
Open Scope Z_scope.

Abbreviation mem := (gmap Z Z).

Definition load8 (p : Z) : cmd mem Z := λ m,
  match m !! p with Some b => Ret (b, m) | None => Err BadPtr end.
Definition store8 (p b : Z) : cmd mem unit := λ m,
  match m !! p with Some _ => Ret (tt, <[p := b]> m) | None => Err BadPtr end.
Definition str_fuel (m : mem) : nat := S (size m).

(** [while (size-- > 0) *dst++ = *src++;] *)
Fixpoint copy_up (n : nat) (dst src : Z) : cmd mem unit :=
  match n with
  | O => mret tt
  | S n => b ← load8 src; store8 dst b;; copy_up n (dst + 1) (src + 1)
  end.
(** [while (size-- > 0) *--dst = *--src;] *)
Fixpoint copy_down (n : nat) (dst src : Z) : cmd mem unit :=
  match n with
  | O => mret tt
  | S n => b ← load8 (src - 1); store8 (dst - 1) b;; copy_down n (dst - 1) (src - 1)
  end.

Definition memcpy (dst src : Z) (size : nat) : cmd mem Z :=
  ASSERT (negb (dst =? 0) || (size =? 0)%nat);;
  ASSERT (negb (src =? 0) || (size =? 0)%nat);;
  copy_up size dst src;;
  mret dst.

(** The local [dst], not the parameter, is returned: after the upward loop it
    has advanced by [size]; after the downward loop it is back. *)
Definition memmove (dst src : Z) (size : nat) : cmd mem Z :=
  ASSERT (negb (dst =? 0) || (size =? 0)%nat);;
  ASSERT (negb (src =? 0) || (size =? 0)%nat);;
  if dst <? src then
    copy_up size dst src;; mret (dst + Z.of_nat size)
  else
    copy_down size (dst + Z.of_nat size) (src + Z.of_nat size);; mret dst.

Fixpoint memcmp_loop (n : nat) (a b : Z) : cmd mem Z :=
  match n with
  | O => mret 0
  | S n =>
      x ← load8 a; y ← load8 b;
      if negb (x =? y) then mret (if y <? x then 1 else -1)
      else memcmp_loop n (a + 1) (b + 1)
  end.
Definition memcmp (a b : Z) (size : nat) : cmd mem Z :=
  ASSERT (negb (a =? 0) || (size =? 0)%nat);;
  ASSERT (negb (b =? 0) || (size =? 0)%nat);;
  memcmp_loop size a b.

Fixpoint strcmp_loop (fuel : nat) (a b : Z) : cmd mem Z :=
  match fuel with
  | O => throw NoFuel
  | S fuel =>
      x ← load8 a;
      y ← load8 b;
      if negb (x =? 0) && (x =? y) then strcmp_loop fuel (a + 1) (b + 1)
      else mret (if x <? y then -1 else if y <? x then 1 else 0)
  end.
Definition strcmp (a b : Z) : cmd mem Z :=
  ASSERT (negb (a =? 0));;
  ASSERT (negb (b =? 0));;
  fuel ← gets str_fuel;
  strcmp_loop fuel a b.

Fixpoint memchr_loop (n : nat) (block ch : Z) : cmd mem Z :=
  match n with
  | O => mret 0
  | S n => x ← load8 block; if x =? ch then mret block else memchr_loop n (block + 1) ch
  end.
Definition memchr (block ch : Z) (size : nat) : cmd mem Z :=
  ASSERT (negb (block =? 0) || (size =? 0)%nat);;
  memchr_loop size block (u8 ch).

Fixpoint strchr_loop (fuel : nat) (string c : Z) : cmd mem Z :=
  match fuel with
  | O => throw NoFuel
  | S fuel =>
      x ← load8 string;
      if x =? c then mret string
      else if x =? 0 then mret 0
      else strchr_loop fuel (string + 1) c
  end.
Definition strchr (string c : Z) : cmd mem Z :=
  ASSERT (negb (string =? 0));;
  fuel ← gets str_fuel;
  strchr_loop fuel string (u8 c).

Fixpoint strcspn_loop (fuel : nat) (string stop length : Z) : cmd mem Z :=
  match fuel with
  | O => throw NoFuel
  | S fuel =>
      x ← load8 (string + length);
      if x =? 0 then mret length else
      r ← strchr stop x;
      if negb (r =? 0) then mret length else strcspn_loop fuel string stop (length + 1)
  end.
Definition strcspn (string stop : Z) : cmd mem Z :=
  fuel ← gets str_fuel; strcspn_loop fuel string stop 0.

Fixpoint strpbrk_loop (fuel : nat) (string stop : Z) : cmd mem Z :=
  match fuel with
  | O => throw NoFuel
  | S fuel =>
      x ← load8 string;
      if x =? 0 then mret 0 else
      r ← strchr stop x;
      if negb (r =? 0) then mret string else strpbrk_loop fuel (string + 1) stop
  end.
Definition strpbrk (string stop : Z) : cmd mem Z :=
  fuel ← gets str_fuel; strpbrk_loop fuel string stop.

Fixpoint strrchr_loop (fuel : nat) (string c p : Z) : cmd mem Z :=
  match fuel with
  | O => throw NoFuel
  | S fuel =>
      x ← load8 string;
      if x =? 0 then mret p
      else strrchr_loop fuel (string + 1) c (if x =? c then string else p)
  end.
Definition strrchr (string c : Z) : cmd mem Z :=
  fuel ← gets str_fuel; strrchr_loop fuel string (u8 c) 0.

Fixpoint strspn_loop (fuel : nat) (string skip length : Z) : cmd mem Z :=
  match fuel with
  | O => throw NoFuel
  | S fuel =>
      x ← load8 (string + length);
      if x =? 0 then mret length else
      r ← strchr skip x;
      if r =? 0 then mret length else strspn_loop fuel string skip (length + 1)
  end.
Definition strspn (string skip : Z) : cmd mem Z :=
  fuel ← gets str_fuel; strspn_loop fuel string skip 0.

Fixpoint strlen_loop (fuel : nat) (p : Z) : cmd mem Z :=
  match fuel with
  | O => throw NoFuel
  | S fuel => x ← load8 p; if x =? 0 then mret p else strlen_loop fuel (p + 1)
  end.
Definition strlen (string : Z) : cmd mem Z :=
  ASSERT (negb (string =? 0));;
  fuel ← gets str_fuel;
  p ← strlen_loop fuel string;
  mret (p - string).

(** [string[length] != 0 && length < maxlen]: the byte is read first. *)
Fixpoint strnlen_loop (fuel : nat) (string maxlen length : Z) : cmd mem Z :=
  match fuel with
  | O => throw NoFuel
  | S fuel =>
      x ← load8 (string + length);
      if negb (x =? 0) && (length <? maxlen)
      then strnlen_loop fuel string maxlen (length + 1) else mret length
  end.
Definition strnlen (string maxlen : Z) : cmd mem Z :=
  fuel ← gets str_fuel; strnlen_loop fuel string maxlen 0.

(** [for (i = 0; i <= haystack_len - needle_len; i++)]; [n] rounds are left. *)
Fixpoint strstr_loop (n : nat) (haystack needle : Z) (needle_len : nat) (i : Z) : cmd mem Z :=
  match n with
  | O => mret 0
  | S n =>
      r ← memcmp (haystack + i) needle needle_len;
      if r =? 0 then mret (haystack + i)
      else strstr_loop n haystack needle needle_len (i + 1)
  end.
Definition strstr (haystack needle : Z) : cmd mem Z :=
  haystack_len ← strlen haystack;
  needle_len ← strlen needle;
  if needle_len <=? haystack_len
  then strstr_loop (Z.to_nat (haystack_len - needle_len + 1)) haystack needle (Z.to_nat needle_len) 0
  else mret 0.

(** [while (strchr (delimiters, *s) != NULL)]: [None] when the string ended. *)
Fixpoint skip_delims (fuel : nat) (s delimiters : Z) : cmd mem (Z * bool) :=
  match fuel with
  | O => throw NoFuel
  | S fuel =>
      x ← load8 s;
      r ← strchr delimiters x;
      if negb (r =? 0) then
        if x =? 0 then mret (s, true) else skip_delims fuel (s + 1) delimiters
      else mret (s, false)
  end.
Fixpoint skip_token (fuel : nat) (s delimiters : Z) : cmd mem Z :=
  match fuel with
  | O => throw NoFuel
  | S fuel =>
      x ← load8 s;
      r ← strchr delimiters x;
      if r =? 0 then skip_token fuel (s + 1) delimiters else mret s
  end.
(** Returns the token and the new value of the saved pointer. *)
Definition strtok_r (s delimiters save_ptr : Z) : cmd mem (Z * Z) :=
  ASSERT (negb (delimiters =? 0));;
  let s := if s =? 0 then save_ptr else s in
  ASSERT (negb (s =? 0));;
  fuel ← gets str_fuel;
  a ← skip_delims fuel s delimiters;
  if (a.2 : bool) then mret (0, a.1) else
  let token := a.1 in
  s ← skip_token fuel token delimiters;
  x ← load8 s;
  if negb (x =? 0) then store8 s 0;; mret (token, s + 1) else mret (token, s).

Fixpoint memset_loop (n : nat) (dst value : Z) : cmd mem unit :=
  match n with
  | O => mret tt
  | S n => store8 dst value;; memset_loop n (dst + 1) value
  end.
Definition memset (dst value : Z) (size : nat) : cmd mem Z :=
  ASSERT (negb (dst =? 0) || (size =? 0)%nat);;
  memset_loop size dst (u8 value);;
  mret dst.

Definition strlcpy (dst src size : Z) : cmd mem Z :=
  ASSERT (negb (dst =? 0));;
  ASSERT (negb (src =? 0));;
  src_len ← strlen src;
  (if 0 <? size then
     let dst_len := if src_len <? size - 1 then src_len else size - 1 in
     memcpy dst src (Z.to_nat dst_len);;
     store8 (dst + dst_len) 0
   else mret tt);;
  mret src_len.

Definition strlcat (dst src size : Z) : cmd mem Z :=
  ASSERT (negb (dst =? 0));;
  ASSERT (negb (src =? 0));;
  src_len ← strlen src;
  dst_len ← strlen dst;
  (if (0 <? size) && (dst_len <? size) then
     let copy_cnt := if src_len <? size - dst_len - 1 then src_len else size - dst_len - 1 in
     memcpy (dst + dst_len) src (Z.to_nat copy_cnt);;
     store8 (dst + dst_len + copy_cnt) 0
   else mret tt);;
  mret (u32 (src_len + dst_len)).
