(* ===== verification/KStringSpec.v ===== *)
(** Correctness of the string and memory-block routines of lib/string.c. *)
From S2P Require Import Prelude KString.
Open Scope Z_scope.

(** ** Bytes in memory *)
Fixpoint bytes_at (m : mem) (p : Z) (bs : list Z) : Prop :=
  match bs with [] => True | b :: bs => m !! p = Some b ∧ bytes_at m (p + 1) bs end.

(** Memory after writing [bs] at [p]. *)
Fixpoint write (m : mem) (p : Z) (bs : list Z) : mem :=
  match bs with [] => m | b :: bs => <[p := b]> (write m (p + 1) bs) end.

Definition mapped (m : mem) (p : Z) (n : nat) : Prop :=
  ∀ x, p <= x < p + Z.of_nat n → is_Some (m !! x).

(** A string: its characters, none of them null, then a null byte. *)
Definition cstr (m : mem) (p : Z) (s : list Z) : Prop :=
  0 < p ∧ 0 ∉ s ∧ bytes_at m p (s ++ [0]).

Lemma load8_run m p b : m !! p = Some b → load8 p m = Ret (b, m).
Proof. unfold load8. by intros ->. Qed.

Lemma store8_run m p b : is_Some (m !! p) → store8 p b m = Ret (tt, <[p := b]> m).
Proof. unfold store8. by intros [x ->]. Qed.

Lemma load8_bind {A} (k : Z → cmd mem A) m p b : m !! p = Some b → (load8 p ≫= k) m = k b m.
Proof. intros E. by rewrite (bind_Ret _ _ _ _ _ (load8_run _ _ _ E)). Qed.

Lemma store8_bind {A} (k : unit → cmd mem A) m p b :
  is_Some (m !! p) → (store8 p b ≫= k) m = k tt (<[p := b]> m).
Proof. intros E. by rewrite (bind_Ret _ _ _ _ _ (store8_run _ _ _ E)). Qed.

Lemma bytes_at_app m p xs ys :
  bytes_at m p (xs ++ ys) ↔ bytes_at m p xs ∧ bytes_at m (p + Z.of_nat (length xs)) ys.
Proof.
  revert p. induction xs as [|x xs IH]; intros p; simpl.
  - rewrite Z.add_0_r. tauto.
  - rewrite IH. replace (p + 1 + Z.of_nat (length xs)) with (p + Z.of_nat (S (length xs))) by lia. tauto.
Qed.

Lemma bytes_at_lookup m p bs x :
  bytes_at m p bs → p <= x < p + Z.of_nat (length bs) → m !! x = bs !! Z.to_nat (x - p).
Proof.
  revert p. induction bs as [|b bs IH]; intros p Hb Hx; simpl in *; [lia|]. destruct Hb as [H1 H2].
  destruct (decide (x = p)) as [->|Hne]; [by rewrite Z.sub_diag|].
  rewrite (IH (p + 1)) by (done || lia). by replace (Z.to_nat (x - p)) with (S (Z.to_nat (x - (p + 1)))) by lia.
Qed.

Lemma bytes_at_mapped m p bs : bytes_at m p bs → mapped m p (length bs).
Proof.
  intros Hb x Hx. rewrite (bytes_at_lookup m p bs) by done. apply lookup_lt_is_Some. lia.
Qed.

Lemma bytes_at_agree m m' p bs :
  (∀ x, p <= x < p + Z.of_nat (length bs) → m' !! x = m !! x) → bytes_at m p bs → bytes_at m' p bs.
Proof.
  revert p. induction bs as [|b bs IH]; intros p Ha Hb; simpl in *; [done|]. destruct Hb as [H1 H2].
  split; [by rewrite Ha by lia|]. apply IH; [|done]. intros x Hx. apply Ha. lia.
Qed.

Lemma bytes_at_insert_ne m p bs x b :
  (x < p ∨ p + Z.of_nat (length bs) <= x) → bytes_at m p bs → bytes_at (<[x:=b]> m) p bs.
Proof. intros Hx. apply bytes_at_agree. intros y Hy. apply lookup_insert_ne. lia. Qed.

Lemma bytes_at_size m p bs : bytes_at m p bs → (length bs ≤ size m)%nat.
Proof.
  revert m p. induction bs as [|b bs IH]; intros m p Hb; simpl in *; [lia|]. destruct Hb as [H1 H2].
  assert (Hd : bytes_at (delete p m) (p + 1) bs).
  { eapply bytes_at_agree; [|done]. intros x Hx. apply lookup_delete_ne. lia. }
  apply IH in Hd. rewrite map_size_delete_Some in Hd by (by eexists).
  assert (size m ≠ 0%nat) by (intros E%map_size_empty_inv; subst; done). lia.
Qed.

Lemma write_lookup_out m p bs x :
  (x < p ∨ p + Z.of_nat (length bs) <= x) → write m p bs !! x = m !! x.
Proof.
  revert p. induction bs as [|b bs IH]; intros p Hx; simpl in *; [done|].
  rewrite lookup_insert_ne by lia. apply IH. lia.
Qed.

Lemma bytes_at_write m p bs : bytes_at (write m p bs) p bs.
Proof.
  revert p. induction bs as [|b bs IH]; intros p; simpl; [done|]. split; [apply lookup_insert_eq|].
  apply bytes_at_insert_ne; [lia|apply IH].
Qed.

Lemma write_insert_comm m p bs x b :
  (x < p ∨ p + Z.of_nat (length bs) <= x) → write (<[x:=b]> m) p bs = <[x:=b]> (write m p bs).
Proof.
  revert p. induction bs as [|c bs IH]; intros p Hx; simpl in *; [done|].
  rewrite IH by lia. apply insert_insert_ne. lia.
Qed.

Lemma write_snoc m p bs b :
  write m p (bs ++ [b]) = write (<[p + Z.of_nat (length bs) := b]> m) p bs.
Proof.
  revert p. induction bs as [|c bs IH]; intros p; simpl; [by rewrite Z.add_0_r|].
  rewrite IH. do 3 f_equal. lia.
Qed.

(** ** Copying *)
Lemma copy_up_run m dst src bs :
  bytes_at m src bs → mapped m dst (length bs) →
  dst <= src ∨ src + Z.of_nat (length bs) <= dst →
  copy_up (length bs) dst src m = Ret (tt, write m dst bs).
Proof.
  revert m dst src. induction bs as [|b bs IH]; intros m dst src Hb Hd Ho; [done|].
  destruct Hb as [H1 H2]. cbn [copy_up length]. simpl length in *.
  rewrite (load8_bind _ _ _ b) by done. rewrite store8_bind by (apply Hd; lia).
  rewrite IH.
  - simpl. rewrite write_insert_comm by lia. done.
  - apply bytes_at_insert_ne; [lia|done].
  - intros x Hx. rewrite lookup_insert_ne by lia. apply Hd. lia.
  - lia.
Qed.

Lemma copy_down_run m dst src bs :
  bytes_at m src bs → mapped m dst (length bs) → src <= dst →
  copy_down (length bs) (dst + Z.of_nat (length bs)) (src + Z.of_nat (length bs)) m
    = Ret (tt, write m dst bs).
Proof.
  revert m. induction bs as [|b bs IH] using rev_ind; intros m Hb Hd Ho; [done|].
  apply bytes_at_app in Hb as [H1 [H2 _]]. rewrite length_app in *. simpl length in *.
  replace (length bs + 1)%nat with (S (length bs)) in * by lia. cbn [copy_down].
  replace (src + Z.of_nat (S (length bs)) - 1) with (src + Z.of_nat (length bs)) by lia.
  replace (dst + Z.of_nat (S (length bs)) - 1) with (dst + Z.of_nat (length bs)) by lia.
  rewrite (load8_bind _ _ _ b) by done. rewrite store8_bind by (apply Hd; lia).
  rewrite IH.
  - by rewrite write_snoc.
  - apply bytes_at_insert_ne; [lia|done].
  - intros x Hx. rewrite lookup_insert_ne by lia. apply Hd. lia.
  - done.
Qed.

Lemma nonnull_or_empty p n : 0 < p → negb (p =? 0) || (n =? 0)%nat = true.
Proof. intros Hp. rewrite (proj2 (Z.eqb_neq p 0)) by lia. done. Qed.

Lemma memcpy_run m dst src bs :
  0 < dst → 0 < src → bytes_at m src bs → mapped m dst (length bs) →
  dst <= src ∨ src + Z.of_nat (length bs) <= dst →
  memcpy dst src (length bs) m = Ret (dst, write m dst bs).
Proof.
  intros Hd Hs Hb Hm Ho. unfold memcpy. rewrite !ASSERT_bind by by apply nonnull_or_empty.
  by rewrite (bind_Ret _ _ _ _ _ (copy_up_run m dst src bs Hb Hm Ho)).
Qed.

Lemma memset_run n m dst v :
  mapped m dst n → memset_loop n dst v m = Ret (tt, write m dst (replicate n v)).
Proof.
  revert m dst. induction n as [|n IH]; intros m dst Hm; [done|]. cbn [memset_loop replicate write].
  rewrite store8_bind by (apply Hm; lia). rewrite IH.
  - rewrite write_insert_comm by lia. done.
  - intros x Hx. rewrite lookup_insert_ne by lia. apply Hm. lia.
Qed.

(** ** Walking a string *)
Lemma cstr_cons m p c s : cstr m p (c :: s) ↔ 0 < p ∧ c ≠ 0 ∧ m !! p = Some c ∧ cstr m (p + 1) s.
Proof. unfold cstr. simpl. rewrite not_elem_of_cons. intuition lia. Qed.

Lemma cstr_nil m p : cstr m p [] ↔ 0 < p ∧ m !! p = Some 0.
Proof. unfold cstr. simpl. intuition set_solver. Qed.

Lemma cstr_fuel m p s : cstr m p s → (length s < str_fuel m)%nat.
Proof.
  intros (_ & _ & Hb). apply bytes_at_size in Hb. rewrite length_app in Hb. simpl in Hb.
  unfold str_fuel. lia.
Qed.

Lemma cstr_agree m m' p s :
  (∀ x, p <= x <= p + Z.of_nat (length s) → m' !! x = m !! x) → cstr m p s → cstr m' p s.
Proof.
  intros Ha (H1 & H2 & H3). split_and!; [done..|]. eapply bytes_at_agree; [|done].
  intros x. rewrite length_app. simpl. intros Hx. apply Ha. lia.
Qed.

Lemma cstr_drop m p s n :
  cstr m p s → (n <= length s)%nat → cstr m (p + Z.of_nat n) (drop n s).
Proof.
  revert p s. induction n as [|n IH]; intros p s Hs Hn.
  - by rewrite Z.add_0_r, drop_0.
  - destruct s as [|c s]; simpl in Hn; [lia|]. apply cstr_cons in Hs as (_ & _ & _ & Hs).
    replace (p + Z.of_nat (S n)) with (p + 1 + Z.of_nat n) by lia. apply IH; [done|lia].
Qed.

Lemma eqb_false x y : x ≠ y → (x =? y) = false.
Proof. apply Z.eqb_neq. Qed.

Lemma strlen_loop_run m p s fuel :
  cstr m p s → (length s < fuel)%nat → strlen_loop fuel p m = Ret (p + Z.of_nat (length s), m).
Proof.
  revert p fuel. induction s as [|c s IH]; intros p [|fuel] Hs Hf; simpl in Hf; try lia; cbn [strlen_loop].
  - apply cstr_nil in Hs as [_ Hs]. rewrite (load8_bind _ _ _ 0) by done. rewrite Z.eqb_refl.
    unfold mret, cmd_ret. simpl. by rewrite Z.add_0_r.
  - apply cstr_cons in Hs as (_ & Hc & Hl & Hs). rewrite (load8_bind _ _ _ c), eqb_false by done.
    rewrite (IH _ _ Hs) by lia. do 2 f_equal. simpl. lia.
Qed.

Lemma strlen_run m p s : cstr m p s → strlen p m = Ret (Z.of_nat (length s), m).
Proof.
  intros Hs. unfold strlen. rewrite ASSERT_bind, gets_bind.
  2:{ rewrite eqb_false; [done|]. destruct Hs. lia. }
  rewrite (bind_Ret _ _ _ _ _ (strlen_loop_run m p s _ Hs (cstr_fuel _ _ _ Hs))).
  unfold mret, cmd_ret. do 2 f_equal. lia.
Qed.

(** Comparison of byte strings as [unsigned char]s. *)
Fixpoint lexcmp (s t : list Z) : Z :=
  match s, t with
  | [], [] => 0
  | [], _ :: _ => -1
  | _ :: _, [] => 1
  | x :: s, y :: t => if x <? y then -1 else if y <? x then 1 else lexcmp s t
  end.

Lemma lexcmp_eq s t : lexcmp s t = 0 ↔ s = t.
Proof.
  revert t. induction s as [|x s IH]; intros [|y t]; simpl; try done.
  destruct (Z.ltb_spec x y); [split; [done|intros [=]; lia]|].
  destruct (Z.ltb_spec y x); [split; [done|intros [=]; lia]|].
  rewrite IH. assert (x = y) by lia. naive_solver.
Qed.

Lemma lexcmp_opp s t : lexcmp t s = - lexcmp s t.
Proof.
  revert t. induction s as [|x s IH]; intros [|y t]; simpl; try done.
  destruct (Z.ltb_spec x y), (Z.ltb_spec y x); try lia; done.
Qed.

Lemma strcmp_loop_run m a b s t fuel :
  cstr m a s → cstr m b t → Forall (λ x, 0 <= x) s → Forall (λ x, 0 <= x) t → (length s < fuel)%nat →
  strcmp_loop fuel a b m = Ret (lexcmp s t, m).
Proof.
  revert a b t fuel. induction s as [|x s IH]; intros a b t [|fuel] Hs Ht Hbs Hbt Hf; simpl in Hf; try lia;
    cbn [strcmp_loop].
  - apply cstr_nil in Hs as [_ Hs]. rewrite (load8_bind _ _ _ 0) by done.
    destruct t as [|y t].
    + apply cstr_nil in Ht as [_ Ht]. by rewrite (load8_bind _ _ _ 0) by done.
    + apply cstr_cons in Ht as (_ & Hy & Ht & _). rewrite (load8_bind _ _ _ y) by done.
      apply Forall_cons in Hbt as [? _]. cbn [lexcmp]. rewrite Z.eqb_refl. cbn [negb andb].
      destruct (Z.ltb_spec 0 y); [done|lia].
  - apply cstr_cons in Hs as (_ & Hx & Hs & Hs'). rewrite (load8_bind _ _ _ x) by done.
    apply Forall_cons in Hbs as [? Hbs]. rewrite (eqb_false x 0) by done. cbn [negb andb].
    destruct t as [|y t].
    + apply cstr_nil in Ht as [_ Ht]. rewrite (load8_bind _ _ _ 0), (eqb_false x 0) by done.
      cbn [lexcmp]. destruct (Z.ltb_spec x 0); [lia|]. by destruct (Z.ltb_spec 0 x); [|lia].
    + apply cstr_cons in Ht as (_ & Hy & Ht & Ht'). rewrite (load8_bind _ _ _ y) by done.
      apply Forall_cons in Hbt as [? Hbt]. cbn [lexcmp]. destruct (Z.eqb_spec x y) as [->|Hne].
      * rewrite Z.ltb_irrefl. apply IH; [done..|lia].
      * destruct (Z.ltb_spec x y); [done|]. destruct (Z.ltb_spec y x); [done|lia].
Qed.

(** ** Searching *)
(** Position of the first byte equal to [c]. *)
Fixpoint index_of (c : Z) (bs : list Z) : option nat :=
  match bs with
  | [] => None
  | b :: bs => if b =? c then Some O else S <$> index_of c bs
  end.

(** The address of position [i] of a block at [p], or a null pointer. *)
Definition addr_of (p : Z) (i : option nat) : Z :=
  match i with Some i => p + Z.of_nat i | None => 0 end.

Lemma addr_of_S p i : addr_of p (S <$> i) = addr_of (p + 1) i.
Proof. destruct i; simpl; lia. Qed.

Lemma index_of_None c bs : index_of c bs = None ↔ c ∉ bs.
Proof.
  induction bs as [|b bs IH]; simpl; [set_solver|]. rewrite not_elem_of_cons.
  destruct (Z.eqb_spec b c); [naive_solver|]. rewrite fmap_None, IH. naive_solver.
Qed.

Lemma index_of_Some c bs i :
  index_of c bs = Some i ↔ bs !! i = Some c ∧ c ∉ take i bs.
Proof.
  revert i. induction bs as [|b bs IH]; intros i; simpl; [naive_solver|].
  destruct (Z.eqb_spec b c) as [->|Hne].
  - split; [intros [= <-]; set_solver|]. intros [Hi Hn]. destruct i; [done|]. simpl in Hn. set_solver.
  - destruct i as [|i]; simpl.
    + rewrite fmap_Some. naive_solver.
    + rewrite not_elem_of_cons. destruct (index_of c bs) as [j|] eqn:E; simpl; naive_solver.
Qed.

Lemma strchr_loop_run m p s c fuel :
  cstr m p s → (length s < fuel)%nat →
  strchr_loop fuel p c m = Ret (addr_of p (index_of c (s ++ [0])), m).
Proof.
  revert p fuel. induction s as [|x s IH]; intros p [|fuel] Hs Hf; simpl in Hf; try lia; cbn [strchr_loop].
  - apply cstr_nil in Hs as [_ Hs]. rewrite (load8_bind _ _ _ 0) by done. cbn [app index_of].
    destruct (Z.eqb_spec 0 c); simpl; [|done]. unfold mret, cmd_ret. do 2 f_equal. lia.
  - apply cstr_cons in Hs as (_ & Hx & Hs & Hs'). rewrite (load8_bind _ _ _ x) by done.
    cbn [app index_of]. destruct (Z.eqb_spec x c).
    + unfold mret, cmd_ret. do 2 f_equal. simpl. lia.
    + rewrite eqb_false by done. rewrite (IH _ _ Hs') by lia. by rewrite addr_of_S.
Qed.

Lemma strchr_run m p s c :
  cstr m p s → strchr p c m = Ret (addr_of p (index_of (u8 c) (s ++ [0])), m).
Proof.
  intros Hs. unfold strchr. rewrite ASSERT_bind, gets_bind.
  2:{ rewrite eqb_false; [done|]. destruct Hs. lia. }
  apply strchr_loop_run; [done|by eapply cstr_fuel].
Qed.

(** As a test: is the byte a character of the string, or the terminator? *)
Definition in_str (s : list Z) (x : Z) : bool := bool_decide (x ∈ s ∨ x = 0).

Lemma strchr_test m p s x :
  cstr m p s → 0 <= x < 256 →
  ∃ r, strchr p x m = Ret (r, m) ∧ (r =? 0) = negb (in_str s x).
Proof.
  intros Hs Hx. eexists. split; [by apply (strchr_run m p s)|].
  assert (u8 x = x) as -> by (unfold u8; rewrite Z.mod_small; lia).
  unfold in_str. destruct (index_of x (s ++ [0])) as [i|] eqn:E.
  - apply index_of_Some in E as [E _]. apply list_elem_of_lookup_2 in E.
    apply elem_of_app in E. rewrite list_elem_of_singleton in E.
    rewrite bool_decide_true by tauto. simpl. apply eqb_false. destruct Hs. lia.
  - apply index_of_None in E. rewrite not_elem_of_app, list_elem_of_singleton in E.
    rewrite bool_decide_false by tauto. done.
Qed.

(** Length of the longest prefix of [s] whose characters satisfy [P]. *)
Fixpoint spn (P : Z → bool) (s : list Z) : nat :=
  match s with [] => O | x :: s => if P x then S (spn P s) else O end.

Lemma spn_le P s : (spn P s <= length s)%nat.
Proof. induction s as [|x s IH]; simpl; [lia|]. destruct (P x); lia. Qed.

Lemma spn_prefix P s : Forall (λ x, P x = true) (take (spn P s) s).
Proof. induction s as [|x s IH]; simpl; [done|]. destruct (P x) eqn:E; simpl; auto. Qed.

Lemma spn_stop P s x : s !! spn P s = Some x → P x = false.
Proof. induction s as [|y s IH]; simpl; [done|]. destruct (P y) eqn:E; simpl; [done|]. by intros [= <-]. Qed.

Definition byte (x : Z) : Prop := 0 <= x < 256.

Section spans.
Context (m : mem) (d : Z) (ds : list Z) (Hds : cstr m d ds).

Lemma in_str_nz x : x ≠ 0 → in_str ds x = bool_decide (x ∈ ds).
Proof using. intros Hx. unfold in_str. apply bool_decide_ext. tauto. Qed.

Lemma strspn_loop_run p s n fuel :
  cstr m (p + n) s → Forall byte s → (length s < fuel)%nat →
  strspn_loop fuel p d n m = Ret (n + Z.of_nat (spn (in_str ds) s), m).
Proof.
  revert n fuel. induction s as [|x s IH]; intros n [|fuel] Hs Hb Hf; simpl in Hf; try lia; cbn [strspn_loop].
  - apply cstr_nil in Hs as [_ Hs]. rewrite (load8_bind _ _ _ 0) by done. simpl. rewrite Z.add_0_r. done.
  - apply cstr_cons in Hs as (_ & Hx & Hs & Hs'). rewrite (load8_bind _ _ _ x), eqb_false by done.
    apply Forall_cons in Hb as [Hbx Hb]. destruct (strchr_test m d ds x Hds Hbx) as (r & Hr & Er).
    rewrite (bind_Ret _ _ _ _ _ Hr), Er. cbn [spn]. destruct (in_str ds x); cbn [negb].
    + rewrite IH; [f_equal; f_equal; lia| |done|lia]. by rewrite Z.add_assoc.
    + simpl. by rewrite Z.add_0_r.
Qed.

Lemma strcspn_loop_run p s n fuel :
  cstr m (p + n) s → Forall byte s → (length s < fuel)%nat →
  strcspn_loop fuel p d n m = Ret (n + Z.of_nat (spn (λ x, negb (in_str ds x)) s), m).
Proof.
  revert n fuel. induction s as [|x s IH]; intros n [|fuel] Hs Hb Hf; simpl in Hf; try lia; cbn [strcspn_loop].
  - apply cstr_nil in Hs as [_ Hs]. rewrite (load8_bind _ _ _ 0) by done. simpl. rewrite Z.add_0_r. done.
  - apply cstr_cons in Hs as (_ & Hx & Hs & Hs'). rewrite (load8_bind _ _ _ x), eqb_false by done.
    apply Forall_cons in Hb as [Hbx Hb]. destruct (strchr_test m d ds x Hds Hbx) as (r & Hr & Er).
    rewrite (bind_Ret _ _ _ _ _ Hr), Er. cbn [spn]. destruct (in_str ds x); cbn [negb].
    + simpl. by rewrite Z.add_0_r.
    + rewrite IH; [f_equal; f_equal; lia| |done|lia]. by rewrite Z.add_assoc.
Qed.

Lemma strpbrk_loop_run p s fuel (n := spn (λ x, negb (in_str ds x)) s) :
  cstr m p s → Forall byte s → (length s < fuel)%nat →
  strpbrk_loop fuel p d m = Ret (if decide (n = length s) then 0 else p + Z.of_nat n, m).
Proof.
  subst n. revert p fuel. induction s as [|x s IH]; intros p [|fuel] Hs Hb Hf; simpl in Hf; try lia; cbn [strpbrk_loop].
  - apply cstr_nil in Hs as [_ Hs]. by rewrite (load8_bind _ _ _ 0) by done.
  - apply cstr_cons in Hs as (_ & Hx & Hs & Hs'). rewrite (load8_bind _ _ _ x), eqb_false by done.
    apply Forall_cons in Hb as [Hbx Hb]. destruct (strchr_test m d ds x Hds Hbx) as (r & Hr & Er).
    rewrite (bind_Ret _ _ _ _ _ Hr), Er. cbn [spn length]. destruct (in_str ds x); cbn [negb].
    + rewrite decide_False by lia. by rewrite Z.add_0_r.
    + rewrite IH by (done || lia). do 2 f_equal.
      destruct (decide (_ = length s)); [rewrite decide_True by lia|rewrite decide_False by lia]; lia.
Qed.

(** The two scans of [strtok_r]. *)
Lemma skip_delims_run p s fuel (n := spn (in_str ds) s) :
  cstr m p s → Forall byte s → (length s < fuel)%nat →
  skip_delims fuel p d m = Ret ((p + Z.of_nat n, bool_decide (n = length s)), m).
Proof.
  subst n. revert p fuel. induction s as [|x s IH]; intros p [|fuel] Hs Hb Hf; simpl in Hf; try lia; cbn [skip_delims].
  - apply cstr_nil in Hs as [_ Hs]. rewrite (load8_bind _ _ _ 0) by done.
    destruct (strchr_test m d ds 0 Hds) as (r & Hr & Er); [lia|].
    rewrite (bind_Ret _ _ _ _ _ Hr), Er. unfold in_str. rewrite bool_decide_true by tauto. simpl.
    by rewrite Z.add_0_r.
  - apply cstr_cons in Hs as (_ & Hx & Hs & Hs'). rewrite (load8_bind _ _ _ x) by done.
    apply Forall_cons in Hb as [Hbx Hb]. destruct (strchr_test m d ds x Hds Hbx) as (r & Hr & Er).
    rewrite (bind_Ret _ _ _ _ _ Hr), Er. cbn [spn length]. destruct (in_str ds x); cbn [negb].
    + rewrite eqb_false by done. rewrite IH by (done || lia). do 3 f_equal; [lia|].
      apply bool_decide_ext. lia.
    + rewrite bool_decide_false by lia. simpl. by rewrite Z.add_0_r.
Qed.

Lemma skip_token_run p s fuel (n := spn (λ x, negb (in_str ds x)) s) :
  cstr m p s → Forall byte s → (length s < fuel)%nat →
  skip_token fuel p d m = Ret (p + Z.of_nat n, m).
Proof.
  subst n. revert p fuel. induction s as [|x s IH]; intros p [|fuel] Hs Hb Hf; simpl in Hf; try lia; cbn [skip_token].
  - apply cstr_nil in Hs as [_ Hs]. rewrite (load8_bind _ _ _ 0) by done.
    destruct (strchr_test m d ds 0 Hds) as (r & Hr & Er); [lia|].
    rewrite (bind_Ret _ _ _ _ _ Hr), Er. unfold in_str. rewrite bool_decide_true by tauto. simpl.
    by rewrite Z.add_0_r.
  - apply cstr_cons in Hs as (_ & Hx & Hs & Hs'). rewrite (load8_bind _ _ _ x) by done.
    apply Forall_cons in Hb as [Hbx Hb]. destruct (strchr_test m d ds x Hds Hbx) as (r & Hr & Er).
    rewrite (bind_Ret _ _ _ _ _ Hr), Er. cbn [spn]. destruct (in_str ds x); cbn [negb].
    + simpl. by rewrite Z.add_0_r.
    + rewrite IH by (done || lia). do 2 f_equal. lia.
Qed.
End spans.

(** ** Tokens *)
(** The fields of [s] between delimiters, empty ones included. *)
Fixpoint split_on (D : Z → bool) (s : list Z) : list (list Z) :=
  match s with
  | [] => [[]]
  | c :: s =>
      if D c then [] :: split_on D s
      else match split_on D s with w :: ws => (c :: w) :: ws | [] => [[c]] end
  end.
Definition fields (D : Z → bool) (s : list Z) : list (list Z) :=
  filter (λ w, w ≠ []) (split_on D s).

(** The documented idiom: call [strtok_r] until it returns a null pointer. *)
Fixpoint tokenize (fuel : nat) (s d save : Z) : cmd mem (list Z) :=
  match fuel with
  | O => throw NoFuel
  | S fuel =>
      a ← strtok_r s d save;
      if a.1 =? 0 then mret [] else ts ← tokenize fuel 0 d a.2; mret (a.1 :: ts)
  end.

Lemma split_on_nonempty D s : split_on D s ≠ [].
Proof. destruct s as [|c s]; simpl; [done|]. destruct (D c); [done|]. by destruct (split_on D s). Qed.

Lemma fields_skip D s : fields D s = fields D (drop (spn D s) s).
Proof.
  induction s as [|c s IH]; simpl; [done|]. destruct (D c) eqn:E; [|done].
  simpl. rewrite <- IH. unfold fields. simpl. rewrite E. by rewrite filter_cons_False by (intros H; by apply H).
Qed.

Lemma split_on_token D s (k := spn (λ x, negb (D x)) s) :
  split_on D s = take k s :: (if decide (k = length s) then [] else split_on D (drop (S k) s)).
Proof.
  subst k. induction s as [|c s IH]; simpl; [done|]. destruct (D c); simpl; [by rewrite drop_0|].
  rewrite IH. destruct (decide (_ = length s)); [rewrite decide_True by lia|rewrite decide_False by lia]; done.
Qed.

Lemma fields_token D s (k := spn (λ x, negb (D x)) s) :
  (0 < k)%nat → fields D s = take k s :: fields D (drop (S k) s).
Proof.
  intros Hk. unfold fields. rewrite split_on_token. fold k.
  rewrite filter_cons_True.
  2:{ intros E%(f_equal length). rewrite length_take in E. pose proof (spn_le (λ x, negb (D x)) s). simpl in E. lia. }
  f_equal. destruct (decide (k = length s)) as [E|]; [|done].
  rewrite drop_ge by lia. simpl. by rewrite filter_cons_False by (intros H; by apply H).
Qed.

Section strtok.
Context (d : Z) (ds : list Z).
Abbreviation isd := (in_str ds).
Abbreviation notd := (λ x, negb (in_str ds x)).

(** One call on the string at [p]: the leading delimiters are skipped, and
    the delimiter after the token becomes a null byte. *)
Lemma strtok_r_run m p s s0 save (n := spn isd s) (k := spn notd (drop n s)) :
  cstr m d ds → cstr m p s → Forall byte s →
  (s0 = p ∨ s0 = 0 ∧ save = p) →
  strtok_r s0 d save m =
    if decide (n = length s) then Ret ((0, p + Z.of_nat n), m)
    else let e := p + Z.of_nat (n + k) in
         if decide (n + k = length s)%nat then Ret ((p + Z.of_nat n, e), m)
         else Ret ((p + Z.of_nat n, e + 1), <[e := 0]> m).
Proof.
  intros Hds Hs Hb Hp. unfold strtok_r.
  assert (Es : (if s0 =? 0 then save else s0) = p).
  { destruct Hp as [->|[-> ->]]; [|done]. rewrite eqb_false; [done|]. destruct Hs. lia. }
  rewrite ASSERT_bind by (rewrite eqb_false; [done|destruct Hds; lia]). cbv zeta.
  rewrite Es, ASSERT_bind, gets_bind by (rewrite eqb_false; [done|destruct Hs; lia]).
  rewrite (bind_Ret _ _ _ _ _ (skip_delims_run m d ds Hds p s _ Hs Hb (cstr_fuel _ _ _ Hs))).
  fold n. cbn [fst snd]. destruct (decide (n = length s)) as [E|Hn].
  { by rewrite bool_decide_true by done. }
  rewrite bool_decide_false by done. pose proof (spn_le isd s) as Hle. fold n in Hle.
  pose proof (cstr_drop m p s n Hs Hle) as Ht.
  assert (Hbt : Forall byte (drop n s)) by by apply Forall_drop.
  rewrite (bind_Ret _ _ _ _ _ (skip_token_run m d ds Hds _ _ _ Ht Hbt (cstr_fuel _ _ _ Ht))). fold k.
  pose proof (spn_le notd (drop n s)) as Hk. fold k in Hk. rewrite length_drop in Hk.
  replace (p + Z.of_nat n + Z.of_nat k) with (p + Z.of_nat (n + k)) by lia.
  assert (Hr : cstr m (p + Z.of_nat (n + k)) (drop (n + k) s)) by (apply cstr_drop; [done|lia]).
  destruct (decide (n + k = length s)%nat) as [E|Hne].
  - rewrite drop_ge in Hr by lia. apply cstr_nil in Hr as [_ Hr]. by rewrite (load8_bind _ _ _ 0) by done.
  - destruct (drop (n + k) s) as [|x r] eqn:E.
    { apply (f_equal length) in E. rewrite length_drop in E. simpl in E. lia. }
    apply cstr_cons in Hr as (_ & Hx & Hr & _). rewrite (load8_bind _ _ _ x), eqb_false by done.
    cbn [negb]. by rewrite store8_bind by by eexists.
Qed.

Lemma token_pos s (n := spn isd s) : n ≠ length s → (0 < spn notd (drop n s))%nat.
Proof.
  intros Hn. pose proof (spn_le isd s) as Hle. fold n in Hle.
  destruct (lookup_lt_is_Some_2 s n ltac:(lia)) as [x Hx].
  rewrite (drop_S _ _ _ Hx). simpl. rewrite (spn_stop _ _ _ Hx). simpl. lia.
Qed.

Lemma cstr_token m p s k :
  cstr m p s → (k <= length s)%nat →
  cstr (<[p + Z.of_nat k := 0]> m) p (take k s).
Proof.
  intros (Hp & Hz & Hb) Hk. split_and!; [done| |].
  - intros H0. apply Hz. rewrite <- (take_drop k s). apply elem_of_app. by left.
  - apply bytes_at_app. rewrite length_take, Nat.min_l by lia. split; [|by simpl; rewrite lookup_insert_eq].
    apply bytes_at_insert_ne; [rewrite length_take; lia|].
    rewrite <- (take_drop k s), <- app_assoc in Hb. by apply bytes_at_app in Hb as [? _].
Qed.

(** The same call described by what it leaves: the token as a string of its
    own, and the rest of the string at the saved pointer. *)
Lemma strtok_r_step m p s s0 save (n := spn isd s) (k := spn notd (drop n s)) :
  cstr m d ds → cstr m p s → Forall byte s → (s0 = p ∨ s0 = 0 ∧ save = p) → n ≠ length s →
  ∃ m1 p1, strtok_r s0 d save m = Ret ((p + Z.of_nat n, p1), m1) ∧
    cstr m1 (p + Z.of_nat n) (take k (drop n s)) ∧ cstr m1 p1 (drop (S (n + k)) s) ∧
    p + Z.of_nat (n + k) <= p1 ∧ p1 + Z.of_nat (length s - S (n + k)) = p + Z.of_nat (length s) ∧
    (∀ x, x < p ∨ p + Z.of_nat (length s) <= x → m1 !! x = m !! x).
Proof.
  intros Hds Hs Hb Hp Hne. pose proof (strtok_r_run m p s s0 save Hds Hs Hb Hp) as Hrun.
  fold n k in Hrun. rewrite decide_False in Hrun by done. set (e := p + Z.of_nat (n + k)) in *.
  pose proof (spn_le isd s) as Hn. pose proof (spn_le notd (drop n s)) as Hk.
  fold n in Hn. fold k in Hk. rewrite length_drop in Hk.
  pose proof (cstr_drop m p s n Hs Hn) as Ht. cbv zeta in Hrun.
  destruct (decide (n + k = length s)%nat) as [E|Hne'].
  - exists m, e. rewrite (drop_ge s (S (n + k))) by lia.
    pose proof (cstr_drop m p s (n + k) Hs ltac:(lia)) as Hnul.
    rewrite drop_ge in Hnul by lia. split_and!; [done| |done|done|lia|done].
    rewrite take_ge by (rewrite length_drop; lia). done.
  - exists (<[e:=0]> m), (e + 1). split_and!; [done| | |lia|lia|intros x Hx; apply lookup_insert_ne; lia].
    + unfold e. rewrite Nat2Z.inj_add, Z.add_assoc. apply cstr_token; [done|rewrite length_drop; lia].
    + pose proof (cstr_drop m p s (S (n + k)) Hs ltac:(lia)) as Hr.
      replace (e + 1) with (p + Z.of_nat (S (n + k))) by lia.
      eapply cstr_agree; [|exact Hr]. intros x Hx. apply lookup_insert_ne. lia.
Qed.

Lemma fields_all_delims s : spn isd s = length s → fields isd s = [].
Proof.
  intros E. rewrite fields_skip, E, drop_all. unfold fields. simpl.
  by rewrite filter_cons_False by (intros H; by apply H).
Qed.

Lemma tokenize_run fuel m p s s0 save :
  cstr m d ds → cstr m p s → Forall byte s →
  d + Z.of_nat (length ds) < p ∨ p + Z.of_nat (length s) < d →
  (s0 = p ∨ s0 = 0 ∧ save = p) → (length s < fuel)%nat →
  ∃ ps m', tokenize fuel s0 d save m = Ret (ps, m') ∧ Forall2 (cstr m') ps (fields isd s) ∧
    (∀ x, x < p ∨ p + Z.of_nat (length s) <= x → m' !! x = m !! x).
Proof.
  revert m p s s0 save. induction fuel as [|fuel IH]; intros m p s s0 save Hds Hs Hb Hdis Hp Hf; [lia|].
  cbn [tokenize]. destruct (decide (spn isd s = length s)) as [En|Hne].
  { pose proof (strtok_r_run m p s s0 save Hds Hs Hb Hp) as Hrun. rewrite decide_True in Hrun by done.
    rewrite (bind_Ret _ _ _ _ _ Hrun). exists [], m. by rewrite fields_all_delims. }
  destruct (strtok_r_step m p s s0 save Hds Hs Hb Hp Hne)
    as (m1 & p1 & Hrun1 & Htok & Hrest & He & Hend & Hag).
  pose proof (token_pos s Hne) as Hk0. assert (0 < p) by apply Hs.
  set (n := spn isd s) in *. set (k := spn notd (drop n s)) in *.
  rewrite (bind_Ret _ _ _ _ _ Hrun1). cbn [fst snd]. rewrite eqb_false by lia.
  assert (Hds1 : cstr m1 d ds) by (eapply cstr_agree; [|done]; intros x Hx; apply Hag; lia).
  destruct (IH m1 p1 (drop (S (n + k)) s) 0 p1 Hds1 Hrest) as (ps & m2 & Hrun2 & Hall & Hag2);
    [by apply Forall_drop|rewrite length_drop; lia|by right|rewrite length_drop; lia|].
  rewrite length_drop in Hag2.
  rewrite (bind_Ret _ _ _ _ _ Hrun2). exists (p + Z.of_nat n :: ps), m2. split_and!; [done| |].
  - rewrite fields_skip. fold n. rewrite fields_token by done. fold k. constructor.
    + eapply cstr_agree; [|exact Htok]. intros x. rewrite length_take, length_drop. intros Hx. apply Hag2. lia.
    + rewrite drop_drop. replace (n + S k)%nat with (S (n + k)) by lia. done.
  - intros x Hx. rewrite Hag2 by lia. by apply Hag.
Qed.
End strtok.

(** ** Substrings *)
Lemma memcmp_loop_run m a b xs ys :
  length xs = length ys → bytes_at m a xs → bytes_at m b ys →
  memcmp_loop (length xs) a b m = Ret (lexcmp xs ys, m).
Proof.
  revert a b ys. induction xs as [|x xs IH]; intros a b [|y ys] Hl Ha Hb; try done.
  injection Hl as Hl. destruct Ha as [Ha Ha'], Hb as [Hb Hb']. cbn [memcmp_loop length lexcmp].
  rewrite (load8_bind _ _ _ x), (load8_bind _ _ _ y) by done. destruct (Z.eqb_spec x y) as [->|Hne].
  - cbn [negb]. rewrite Z.ltb_irrefl. by apply IH.
  - cbn [negb]. unfold mret, cmd_ret. do 2 f_equal.
    destruct (Z.ltb_spec y x), (Z.ltb_spec x y); lia.
Qed.

(** [nd] occurs in [hs] at position [i]. *)
Definition occurs (nd hs : list Z) (i : nat) : Prop := take (length nd) (drop i hs) = nd.

Lemma cstr_bytes_sub m p s i n :
  cstr m p s → (i + n <= length s)%nat → bytes_at m (p + Z.of_nat i) (take n (drop i s)).
Proof.
  intros Hs Hl. pose proof (cstr_drop m p s i Hs ltac:(lia)) as (_ & _ & Hb).
  rewrite <- (take_drop n (drop i s)), <- app_assoc in Hb. by apply bytes_at_app in Hb as [? _].
Qed.

Lemma strstr_loop_run m h hs nd_p nd r i :
  cstr m h hs → cstr m nd_p nd → (i + r + length nd = S (length hs))%nat →
  ∃ q, strstr_loop r h nd_p (length nd) (Z.of_nat i) m = Ret (q, m) ∧
    ((∃ j, (i <= j)%nat ∧ q = h + Z.of_nat j ∧ occurs nd hs j ∧ ∀ j', (i <= j' < j)%nat → ¬ occurs nd hs j') ∨
     (q = 0 ∧ ∀ j, (i <= j < i + r)%nat → ¬ occurs nd hs j)).
Proof.
  intros Hh Hn. revert i. induction r as [|r IH]; intros i Hlen; cbn [strstr_loop].
  { exists 0. split; [done|]. right. split; [done|]. lia. }
  assert (Hpos : 0 < h ∧ 0 < nd_p) by (split; [apply Hh|apply Hn]).
  assert (Hlt : length (take (length nd) (drop i hs)) = length nd) by (rewrite length_take, length_drop; lia).
  assert (Hcmp : memcmp (h + Z.of_nat i) nd_p (length nd) m = Ret (lexcmp (take (length nd) (drop i hs)) nd, m)).
  { unfold memcmp. rewrite !ASSERT_bind by (apply nonnull_or_empty; lia). rewrite <- Hlt at 1.
    apply memcmp_loop_run; [done|apply cstr_bytes_sub; [done|lia]|].
    destruct Hn as (_ & _ & Hb). by apply bytes_at_app in Hb as [? _]. }
  rewrite (bind_Ret _ _ _ _ _ Hcmp).
  destruct (Z.eqb_spec (lexcmp (take (length nd) (drop i hs)) nd) 0) as [E|E]; rewrite lexcmp_eq in E.
  - eexists. split; [done|]. left. exists i. split_and!; [lia|done..|lia].
  - replace (Z.of_nat i + 1) with (Z.of_nat (S i)) by lia.
    destruct (IH (S i) ltac:(lia)) as (q & Hrun & Hq). exists q. split; [done|].
    assert (Hi : ∀ j, (i <= j)%nat → ¬ (S i <= j)%nat → ¬ occurs nd hs j).
    { intros j ? ?. replace j with i by lia. done. }
    destruct Hq as [(j & Hj & Eq & Ho & Hno)|[Eq Hno]]; [left; exists j|right].
    + split_and!; [lia|done..|]. intros j' Hj'. destruct (decide (S i <= j')%nat); [apply Hno|apply Hi]; lia.
    + split; [done|]. intros j Hj. destruct (decide (S i <= j)%nat); [apply Hno|apply Hi]; lia.
Qed.

(** ** Theorems *)

(** [memmove] is correct for every overlap: it leaves the [size] bytes
    that were at [src] at [dst] and changes nothing else; [memcpy] does the
    same when the blocks do not overlap or [dst] is below [src].  The pointer
    [memmove] returns is [dst] only when [dst >= src]; otherwise it is the end
    of the destination. *)
Theorem memmove_memcpy_correct m dst src bs :
  0 < dst → 0 < src → bytes_at m src bs → mapped m dst (length bs) →
  memmove dst src (length bs) m
    = Ret (if dst <? src then dst + Z.of_nat (length bs) else dst, write m dst bs) ∧
  (dst <= src ∨ src + Z.of_nat (length bs) <= dst →
   memcpy dst src (length bs) m = Ret (dst, write m dst bs)) ∧
  bytes_at (write m dst bs) dst bs ∧
  (∀ x, x < dst ∨ dst + Z.of_nat (length bs) <= x → write m dst bs !! x = m !! x).
Proof.
  intros Hd Hs Hb Hm. split_and!.
  - unfold memmove. rewrite !ASSERT_bind by by apply nonnull_or_empty.
    destruct (Z.ltb_spec dst src).
    + by rewrite (bind_Ret _ _ _ _ _ (copy_up_run m dst src bs Hb Hm ltac:(lia))).
    + by rewrite (bind_Ret _ _ _ _ _ (copy_down_run m dst src bs Hb Hm ltac:(lia))).
  - by apply memcpy_run.
  - apply bytes_at_write.
  - apply write_lookup_out.
Qed.

(** Memory holding the two strings of the examples. *)
Definition ex_mem : mem :=
  write (write (list_to_map ((λ i, (Z.of_nat i, 7)) <$> seq 1 60)) 10 [32; 97; 98; 32; 32; 99; 0]) 30 [32; 0].

Lemma ex_str : cstr ex_mem 10 [32; 97; 98; 32; 32; 99] ∧ cstr ex_mem 30 [32].
Proof. split; (split; [lia|]); (split; [by_decision|vm_compute; repeat split]). Qed.

Lemma ex_mapped p n : 0 < p → p + Z.of_nat n <= 61 → mapped ex_mem p n.
Proof.
  intros Hp Hn x Hx. assert (H : bool_decide (Forall (λ i, is_Some (ex_mem !! Z.of_nat i)) (seq 1 60)) = true)
    by by vm_compute.
  apply bool_decide_eq_true in H. rewrite Forall_forall in H.
  rewrite <- (Z2Nat.id x) by lia. apply H. apply elem_of_seq. lia.
Qed.

Lemma memmove_memcpy_correct_witness :
  memmove 12 10 6 ex_mem = Ret (12, write ex_mem 12 [32; 97; 98; 32; 32; 99]) ∧
  memmove 9 10 6 ex_mem = Ret (15, write ex_mem 9 [32; 97; 98; 32; 32; 99]).
Proof.
  split.
  - apply (memmove_memcpy_correct ex_mem 12 10 [32; 97; 98; 32; 32; 99]); [lia|lia|vm_compute; repeat split|].
    apply ex_mapped; simpl; lia.
  - apply (memmove_memcpy_correct ex_mem 9 10 [32; 97; 98; 32; 32; 99]); [lia|lia|vm_compute; repeat split|].
    apply ex_mapped; simpl; lia.
Defined.

(** [strcmp] orders strings lexicographically by unsigned characters, is 0
    exactly on equal strings and antisymmetric, and terminates on every pair
    of strings. *)
Theorem strcmp_correct m a b s t :
  cstr m a s → cstr m b t → Forall byte s → Forall byte t →
  strcmp a b m = Ret (lexcmp s t, m) ∧ strcmp b a m = Ret (- lexcmp s t, m) ∧
  (lexcmp s t = 0 ↔ s = t).
Proof.
  assert (Hone : ∀ a b s t, cstr m a s → cstr m b t → Forall byte s → Forall byte t →
    strcmp a b m = Ret (lexcmp s t, m)).
  { clear. intros a b s t Hs Ht Hbs Hbt. unfold strcmp.
    rewrite !ASSERT_bind, gets_bind by (rewrite eqb_false; [done|destruct Hs, Ht; lia]).
    apply strcmp_loop_run; [done..| | |by eapply cstr_fuel].
    - eapply Forall_impl; [done|]. unfold byte. lia.
    - eapply Forall_impl; [done|]. unfold byte. lia. }
  intros Hs Ht Hbs Hbt. split_and!; [by apply Hone| |apply lexcmp_eq].
  rewrite <- lexcmp_opp. by apply Hone.
Qed.

Lemma strcmp_correct_witness : strcmp 10 30 ex_mem = Ret (1, ex_mem).
Proof.
  destruct ex_str as [H1 H2].
  apply (strcmp_correct ex_mem 10 30 [32; 97; 98; 32; 32; 99] [32] H1 H2); repeat constructor; lia.
Defined.

(** C29: calling [strtok_r] until it returns a null pointer yields exactly the
    nonempty fields of the string between delimiters, in order: each returned
    pointer is a string equal to its field in the final memory, and nothing
    outside the string is changed. *)
Theorem strtok_r_tokens m p s d ds save :
  cstr m d ds → cstr m p s → Forall byte s →
  d + Z.of_nat (length ds) < p ∨ p + Z.of_nat (length s) < d →
  ∃ ps m', tokenize (S (length s)) p d save m = Ret (ps, m') ∧
    Forall2 (cstr m') ps (fields (in_str ds) s) ∧
    (∀ x, x < p ∨ p + Z.of_nat (length s) <= x → m' !! x = m !! x).
Proof. intros Hd Hs Hb Hdis. apply tokenize_run; [done..|by left|lia]. Qed.

Lemma strtok_r_tokens_witness :
  fields (in_str [32]) [32; 97; 98; 32; 32; 99] = [[97; 98]; [99]] ∧
  ∃ ps m', tokenize 7 10 30 0 ex_mem = Ret (ps, m') ∧
    Forall2 (cstr m') ps (fields (in_str [32]) [32; 97; 98; 32; 32; 99]) ∧
    (∀ x, x < 10 ∨ 10 + 6 <= x → m' !! x = ex_mem !! x).
Proof.
  destruct ex_str as [H1 H2]. split; [by cbv|].
  apply (strtok_r_tokens ex_mem 10 [32; 97; 98; 32; 32; 99] 30 [32] 0 H2 H1); [repeat constructor; lia|].
  right. simpl. lia.
Defined.

(** [strstr] returns the address of the first occurrence of the needle,
    or a null pointer when there is none. *)
Theorem strstr_first m h hs q nd :
  cstr m h hs → cstr m q nd →
  ∃ r, strstr h q m = Ret (r, m) ∧
    ((∃ j, r = h + Z.of_nat j ∧ occurs nd hs j ∧ ∀ j', (j' < j)%nat → ¬ occurs nd hs j') ∨
     (r = 0 ∧ ∀ j, (j <= length hs)%nat → ¬ occurs nd hs j)).
Proof.
  intros Hh Hn. unfold strstr.
  rewrite (bind_Ret _ _ _ _ _ (strlen_run m h hs Hh)), (bind_Ret _ _ _ _ _ (strlen_run m q nd Hn)).
  assert (Hlong : ∀ j, (length hs < j + length nd)%nat → (j <= length hs)%nat → ¬ occurs nd hs j).
  { intros j Hj Hj' Ho. apply (f_equal length) in Ho. rewrite length_take, length_drop in Ho. lia. }
  destruct (Z.leb_spec (Z.of_nat (length nd)) (Z.of_nat (length hs))) as [Hle|Hgt].
  2:{ exists 0. split; [done|]. right. split; [done|]. intros j Hj. apply Hlong; lia. }
  rewrite Nat2Z.id.
  destruct (strstr_loop_run m h hs q nd (Z.to_nat (Z.of_nat (length hs) - Z.of_nat (length nd) + 1)) 0 Hh Hn)
    as (r & Hrun & Hr); [lia|].
  exists r. split; [done|]. destruct Hr as [(j & _ & Eq & Ho & Hno)|[Eq Hno]]; [left; exists j|right].
  - split_and!; [done..|]. intros j' Hj'. apply Hno. lia.
  - split; [done|]. intros j Hj. destruct (decide (length hs < j + length nd)%nat); [by apply Hlong|].
    apply Hno. lia.
Qed.

Lemma strstr_first_witness :
  ∃ r, strstr 10 30 ex_mem = Ret (r, ex_mem) ∧
    ((∃ j, r = 10 + Z.of_nat j ∧ occurs [32] [32; 97; 98; 32; 32; 99] j ∧
           ∀ j', (j' < j)%nat → ¬ occurs [32] [32; 97; 98; 32; 32; 99] j') ∨
     (r = 0 ∧ ∀ j, (j <= 6)%nat → ¬ occurs [32] [32; 97; 98; 32; 32; 99] j)).
Proof. exact (strstr_first ex_mem 10 _ 30 _ (proj1 ex_str) (proj2 ex_str)). Defined.

Lemma write_cstr m p s :
  0 < p → 0 ∉ s → cstr (write m p (s ++ [0])) p s.
Proof. intros Hp Hz. split_and!; [done..|]. apply bytes_at_write. Qed.

(** [memcpy] of a prefix of a string followed by a null byte, the common tail
    of [strlcpy] and [strlcat]. *)
Lemma copy_prefix m dst src s n :
  0 < dst → cstr m src s → (n <= length s)%nat → mapped m dst (S n) →
  dst + Z.of_nat n < src ∨ src + Z.of_nat (length s) < dst →
  (memcpy dst src n;; store8 (dst + Z.of_nat n) 0) m = Ret (tt, write m dst (take n s ++ [0])).
Proof.
  intros Hd (Hs & Hz & Hb) Hn Hm Hdis.
  assert (Hlen : length (take n s) = n) by (rewrite length_take; lia).
  assert (Hbs : bytes_at m src (take n s)).
  { rewrite <- (take_drop n s), <- app_assoc in Hb. by apply bytes_at_app in Hb as [? _]. }
  pose proof (memcpy_run m dst src (take n s) Hd Hs Hbs) as Hrun. rewrite Hlen in Hrun.
  rewrite (bind_Ret _ _ _ _ _ (Hrun ltac:(intros x Hx; apply Hm; lia) ltac:(lia))).
  rewrite store8_run by (rewrite write_lookup_out by lia; apply Hm; lia).
  rewrite write_snoc, write_insert_comm, Hlen by lia. done.
Qed.

(** Truncating copy and append into a buffer of [size] bytes. *)
Section truncating.
Context (m : mem) (dst src : Z) (s : list Z) (size : Z).
Context (Hs : cstr m src s) (Hsz : 0 < size) (Hm : mapped m dst (Z.to_nat size)) (Hdst : 0 < dst).
Context (Hdis : dst + size <= src ∨ src + Z.of_nat (length s) < dst).

Lemma copy_nonnull : negb (dst =? 0) = true ∧ negb (src =? 0) = true.
Proof. destruct Hs. rewrite !eqb_false by lia. done. Qed.

Lemma take_nonnull n : 0 ∉ take n s.
Proof.
  destruct Hs as (_ & Hz & _). intros H0. apply Hz. rewrite <- (take_drop n s). apply elem_of_app. by left.
Qed.

Lemma strlcpy_run :
  ∃ m', strlcpy dst src size m = Ret (Z.of_nat (length s), m') ∧
     cstr m' dst (take (Z.to_nat size - 1) s) ∧
     ∀ x, x < dst ∨ dst + size <= x → m' !! x = m !! x.
Proof.
  pose proof copy_nonnull as Ass. pose proof take_nonnull as Hzt.
  set (n := Nat.min (Z.to_nat size - 1) (length s)).
  exists (write m dst (take n s ++ [0])). split_and!.
  - unfold strlcpy. rewrite !ASSERT_bind by tauto.
    rewrite (bind_Ret _ _ _ _ _ (strlen_run m src s Hs)), (proj2 (Z.ltb_lt 0 size)) by done. cbv zeta.
    replace (if Z.of_nat (length s) <? size - 1 then Z.of_nat (length s) else size - 1) with (Z.of_nat n)
      by (destruct (Z.ltb_spec (Z.of_nat (length s)) (size - 1)); lia).
    rewrite Nat2Z.id. rewrite (bind_Ret _ _ _ _ _ (copy_prefix m dst src s n Hdst Hs ltac:(lia)
      ltac:(intros x Hx; apply Hm; lia) ltac:(lia))). done.
  - replace (take (Z.to_nat size - 1) s) with (take n s); [apply write_cstr; [done|apply Hzt]|].
    unfold n. by rewrite <- take_take, (take_ge s (length s)).
  - intros x Hx. apply write_lookup_out. rewrite length_app, length_take. simpl. lia.
Qed.

Lemma strlcat_run t :
  cstr m dst t → Z.of_nat (length t) < size →
  ∃ m', strlcat dst src size m = Ret (u32 (Z.of_nat (length s) + Z.of_nat (length t)), m') ∧
     cstr m' dst (take (Z.to_nat size - 1) (t ++ s)) ∧
     ∀ x, x < dst ∨ dst + size <= x → m' !! x = m !! x.
Proof.
  intros Ht Hlt. pose proof copy_nonnull as Ass. pose proof take_nonnull as Hzt.
  set (n := Nat.min (Z.to_nat size - length t - 1) (length s)).
  exists (write m (dst + Z.of_nat (length t)) (take n s ++ [0])). split_and!.
  - unfold strlcat. rewrite !ASSERT_bind by tauto.
    rewrite (bind_Ret _ _ _ _ _ (strlen_run m src s Hs)), (bind_Ret _ _ _ _ _ (strlen_run m dst t Ht)).
    rewrite (proj2 (Z.ltb_lt 0 size)), (proj2 (Z.ltb_lt _ size)) by done. cbv zeta. cbn [andb].
    replace (if Z.of_nat (length s) <? size - Z.of_nat (length t) - 1 then Z.of_nat (length s)
             else size - Z.of_nat (length t) - 1) with (Z.of_nat n)
      by (destruct (Z.ltb_spec (Z.of_nat (length s)) (size - Z.of_nat (length t) - 1)); lia).
    rewrite Nat2Z.id. rewrite (bind_Ret _ _ _ _ _ (copy_prefix m (dst + Z.of_nat (length t)) src s n
      ltac:(lia) Hs ltac:(lia) ltac:(intros x Hx; apply Hm; lia) ltac:(lia))). done.
  - replace (take (Z.to_nat size - 1) (t ++ s)) with (t ++ take n s).
    2:{ rewrite take_app, (take_ge t) by lia. f_equal.
        unfold n. rewrite <- take_take, (take_ge s (length s)) by lia. f_equal. lia. }
    split_and!; [done|apply not_elem_of_app; split; [apply Ht|apply Hzt]|].
    rewrite <- app_assoc. apply bytes_at_app. split; [|apply bytes_at_write].
    destruct Ht as (_ & _ & Hb). apply bytes_at_app in Hb as [Hb _].
    eapply bytes_at_agree; [|done]. intros x Hx. apply write_lookup_out. lia.
  - intros x Hx. apply write_lookup_out. rewrite length_app, length_take. simpl. lia.
Qed.
End truncating.

(** [strlcpy] copies as much of the source as fits in [size] bytes with a
    terminator, and [strlcat] appends as much as fits: the destination ends up
    as the string of at most [size - 1] characters, nothing outside it is
    touched, and the returned length is that of the untruncated string. *)
Theorem strlcpy_strlcat_correct m dst src s t size :
  cstr m src s → cstr m dst t → 0 < size → mapped m dst (Z.to_nat size) →
  dst + size <= src ∨ src + Z.of_nat (length s) < dst →
  Z.of_nat (length t) < size →
  (∃ m', strlcpy dst src size m = Ret (Z.of_nat (length s), m') ∧
     cstr m' dst (take (Z.to_nat size - 1) s) ∧
     ∀ x, x < dst ∨ dst + size <= x → m' !! x = m !! x) ∧
  (∃ m', strlcat dst src size m = Ret (u32 (Z.of_nat (length s) + Z.of_nat (length t)), m') ∧
     cstr m' dst (take (Z.to_nat size - 1) (t ++ s)) ∧
     ∀ x, x < dst ∨ dst + size <= x → m' !! x = m !! x).
Proof.
  intros Hs Ht Hsz Hm Hdis Hlt. assert (Hd : 0 < dst) by apply Ht. split.
  - by apply strlcpy_run.
  - by apply strlcat_run.
Qed.

Lemma strlcpy_strlcat_correct_witness :
  (∃ m', strlcpy 30 10 4 ex_mem = Ret (6, m') ∧ cstr m' 30 [32; 97; 98] ∧
     ∀ x, x < 30 ∨ 30 + 4 <= x → m' !! x = ex_mem !! x) ∧
  (∃ m', strlcat 30 10 4 ex_mem = Ret (u32 (6 + 1), m') ∧ cstr m' 30 [32; 32; 97] ∧
     ∀ x, x < 30 ∨ 30 + 4 <= x → m' !! x = ex_mem !! x).
Proof.
  apply (strlcpy_strlcat_correct ex_mem 30 10 [32; 97; 98; 32; 32; 99] [32] 4 (proj1 ex_str) (proj2 ex_str)).
  - lia.
  - apply ex_mapped; simpl; lia.
  - right. simpl. lia.
  - simpl. lia.
Defined.

(** the scanning routines: [strchr] finds the first occurrence (the
    terminator included), [strspn] and [strcspn] measure the longest prefix of
    characters inside and outside the set, and [strpbrk] returns the first
    character of the set or a null pointer. *)
Theorem string_scans_correct m p s d ds c :
  cstr m p s → cstr m d ds → Forall byte s → byte c →
  (∃ r, strchr p c m = Ret (r, m) ∧
     (∀ i, (s ++ [0]) !! i = Some c → c ∉ take i s → r = p + Z.of_nat i) ∧ (c ∉ s → c ≠ 0 → r = 0)) ∧
  (∃ n, strspn p d m = Ret (Z.of_nat n, m) ∧ (n <= length s)%nat ∧
     Forall (λ x, x ∈ ds) (take n s) ∧ (∀ x, s !! n = Some x → x ∉ ds)) ∧
  (∃ n, strcspn p d m = Ret (Z.of_nat n, m) ∧ (n <= length s)%nat ∧
     Forall (λ x, x ∉ ds) (take n s) ∧ (∀ x, s !! n = Some x → x ∈ ds) ∧
     strpbrk p d m = Ret (if decide (n = length s) then 0 else p + Z.of_nat n, m)).
Proof.
  intros Hs Hd Hb Hc. assert (Hz : 0 ∉ s) by apply Hs. pose proof (cstr_fuel _ _ _ Hs) as Hf.
  assert (Hin : ∀ x, x ∈ s → in_str ds x = bool_decide (x ∈ ds)).
  { intros x Hx. apply in_str_nz. by intros ->. }
  assert (Htake : ∀ n x, x ∈ take n s → x ∈ s).
  { intros n x Hx. rewrite <- (take_drop n s). apply elem_of_app. by left. }
  split_and!.
  - eexists. split; [by apply (strchr_run m p s)|].
    assert (u8 c = c) as -> by (unfold u8, byte in *; rewrite Z.mod_small; lia). split.
    + intros i Hi Hn. rewrite (proj2 (index_of_Some c (s ++ [0]) i)); [done|]. split; [done|].
      apply lookup_lt_Some in Hi. rewrite length_app in Hi. simpl in Hi. by rewrite take_app_le by lia.
    + intros Hn H0. rewrite (proj2 (index_of_None c (s ++ [0]))); [done|]. set_solver.
  - exists (spn (in_str ds) s). unfold strspn. rewrite gets_bind.
    rewrite (strspn_loop_run m d ds Hd p s 0) by (by rewrite ?Z.add_0_r || done).
    split_and!; [done|apply spn_le| |].
    + pose proof (spn_prefix (in_str ds) s) as H. rewrite !Forall_forall in *. intros x Hx.
      specialize (H x Hx). rewrite Hin in H by by eapply Htake. by apply bool_decide_eq_true in H.
    + intros x Hx. pose proof (spn_stop _ _ _ Hx) as H. rewrite Hin in H by by eapply list_elem_of_lookup_2.
      by apply bool_decide_eq_false in H.
  - exists (spn (λ x, negb (in_str ds x)) s). unfold strcspn, strpbrk. rewrite !gets_bind.
    rewrite (strcspn_loop_run m d ds Hd p s 0) by (by rewrite ?Z.add_0_r || done).
    split_and!; [done|apply spn_le| | |by apply (strpbrk_loop_run m d ds)].
    + pose proof (spn_prefix (λ x, negb (in_str ds x)) s) as H. rewrite !Forall_forall in *. intros x Hx.
      specialize (H x Hx). simpl in H. rewrite Hin in H by by eapply Htake.
      apply negb_true_iff in H. by apply bool_decide_eq_false in H.
    + intros x Hx. pose proof (spn_stop _ _ _ Hx) as H. simpl in H.
      rewrite Hin in H by by eapply list_elem_of_lookup_2.
      apply negb_false_iff in H. by apply bool_decide_eq_true in H.
Qed.

Lemma string_scans_correct_witness :
  ∃ n, strcspn 10 30 ex_mem = Ret (Z.of_nat n, ex_mem) ∧ (n <= 6)%nat ∧
    Forall (λ x, x ∉ [32]) (take n [32; 97; 98; 32; 32; 99]) ∧
    (∀ x, [32; 97; 98; 32; 32; 99] !! n = Some x → x ∈ [32]) ∧
    strpbrk 10 30 ex_mem = Ret (if decide (n = 6%nat) then 0 else 10 + Z.of_nat n, ex_mem).
Proof.
  apply (string_scans_correct ex_mem 10 [32; 97; 98; 32; 32; 99] 30 [32] 98 (proj1 ex_str) (proj2 ex_str)).
  - repeat constructor; lia.
  - unfold byte. lia.
Defined.
