(* ===== verification/Thread.v ===== *)
(** * Kernel threads and the scheduler (threads/thread.c, threads/thread.h)

    The kernel state holds every [struct thread] by the address of its page,
    the ready list and the list of all threads, the interrupt flag and the
    time-slice counters, and the synchronisation objects of threads/synch.c,
    whose wait queues share the [elem] member of [struct thread] with the
    ready list.  A list of threads is the sequence of its elements (the
    pointer level is KList.v); because [elem] can be in one list only, linking
    a thread that is already in the ready list or in a wait queue is a fault.

    A routine that gives up the processor ([schedule]) changes [current]; what
    the routine does after it is resumed is part of the code of the thread,
    which Sched.v keeps. *)
From S2P Require Import Prelude.
From stdpp Require Import sets.

Abbreviation tptr := positive.
(** The address of a semaphore: one of its own, or inside the lock [l]. *)
Abbreviation sref := (positive + positive)%type.

Inductive thread_status : Set :=
  | THREAD_RUNNING | THREAD_READY | THREAD_BLOCKED | THREAD_DYING.
#[global] Instance thread_status_eq_dec : EqDecision thread_status.
Proof. solve_decision. Defined.

Definition TID_ERROR : Z := -1.
Definition PRI_MIN : Z := 0.
Definition PRI_DEFAULT : Z := 31.
Definition PRI_MAX : Z := 63.
Definition MAX_FILE_DESCRIPTORS : nat := 128.
Definition THREAD_MAGIC : Z := 0xcd6abf4b.
Definition TIME_SLICE : Z := 4.

Record semaphore : Set := mk_sema { value : Z; waiters : list tptr }.
Record wait_status : Set := mk_ws { exit_code : Z; ws_tid : Z; ref_count : Z }.

(** [struct thread]; pointers to objects of other components are addresses,
    [fd_in_use] is the [in_use] member of each descriptor, and [stack] is the
    saved stack pointer as an offset from the start of the page. *)
Record thread : Set := mk_thread {
  tid : Z; status : thread_status; name : list Z; stack : Z; priority : Z;
  pagedir : option positive; magic : Z;
  fd_in_use : list bool; num_fds : Z; file : option positive;
  child_loaded : option positive; parent_load : option positive;
  children : list positive; my_wait_status : option positive; cwd : option positive }.

Record kernel := mk_kernel {
  threads : gmap tptr thread;
  ready_list : list tptr; all_list : list tptr; current : tptr;
  idle_thread : option tptr; initial_thread : option tptr; next_tid : Z;
  thread_ticks : Z; idle_ticks : Z; kernel_ticks : Z; user_ticks : Z;
  intr_on : bool; in_external_intr : bool; yield_on_return : bool;
  semas : gmap sref semaphore; holders : gmap positive (option tptr);
  conds : gmap positive (list positive); waits : gmap positive wait_status }.

(** ** Field updates *)
Definition with_threads (f : gmap tptr thread → gmap tptr thread) (k : kernel) : kernel :=
  mk_kernel (f (threads k)) (ready_list k) (all_list k) (current k) (idle_thread k) (initial_thread k)
    (next_tid k) (thread_ticks k) (idle_ticks k) (kernel_ticks k) (user_ticks k)
    (intr_on k) (in_external_intr k) (yield_on_return k) (semas k) (holders k) (conds k) (waits k).
Definition with_ready (l : list tptr) (k : kernel) : kernel :=
  mk_kernel (threads k) l (all_list k) (current k) (idle_thread k) (initial_thread k)
    (next_tid k) (thread_ticks k) (idle_ticks k) (kernel_ticks k) (user_ticks k)
    (intr_on k) (in_external_intr k) (yield_on_return k) (semas k) (holders k) (conds k) (waits k).
Definition with_all (l : list tptr) (k : kernel) : kernel :=
  mk_kernel (threads k) (ready_list k) l (current k) (idle_thread k) (initial_thread k)
    (next_tid k) (thread_ticks k) (idle_ticks k) (kernel_ticks k) (user_ticks k)
    (intr_on k) (in_external_intr k) (yield_on_return k) (semas k) (holders k) (conds k) (waits k).
Definition with_current (t : tptr) (k : kernel) : kernel :=
  mk_kernel (threads k) (ready_list k) (all_list k) t (idle_thread k) (initial_thread k)
    (next_tid k) (thread_ticks k) (idle_ticks k) (kernel_ticks k) (user_ticks k)
    (intr_on k) (in_external_intr k) (yield_on_return k) (semas k) (holders k) (conds k) (waits k).
Definition with_ticks (slice idle kern user : Z) (k : kernel) : kernel :=
  mk_kernel (threads k) (ready_list k) (all_list k) (current k) (idle_thread k) (initial_thread k)
    (next_tid k) slice idle kern user
    (intr_on k) (in_external_intr k) (yield_on_return k) (semas k) (holders k) (conds k) (waits k).
Definition with_intr (on ext yield : bool) (k : kernel) : kernel :=
  mk_kernel (threads k) (ready_list k) (all_list k) (current k) (idle_thread k) (initial_thread k)
    (next_tid k) (thread_ticks k) (idle_ticks k) (kernel_ticks k) (user_ticks k)
    on ext yield (semas k) (holders k) (conds k) (waits k).
Definition with_next_tid (n : Z) (k : kernel) : kernel :=
  mk_kernel (threads k) (ready_list k) (all_list k) (current k) (idle_thread k) (initial_thread k)
    n (thread_ticks k) (idle_ticks k) (kernel_ticks k) (user_ticks k)
    (intr_on k) (in_external_intr k) (yield_on_return k) (semas k) (holders k) (conds k) (waits k).
Definition with_semas (f : gmap sref semaphore → gmap sref semaphore) (k : kernel) : kernel :=
  mk_kernel (threads k) (ready_list k) (all_list k) (current k) (idle_thread k) (initial_thread k)
    (next_tid k) (thread_ticks k) (idle_ticks k) (kernel_ticks k) (user_ticks k)
    (intr_on k) (in_external_intr k) (yield_on_return k) (f (semas k)) (holders k) (conds k) (waits k).
Definition with_holder (l : positive) (h : option tptr) (k : kernel) : kernel :=
  mk_kernel (threads k) (ready_list k) (all_list k) (current k) (idle_thread k) (initial_thread k)
    (next_tid k) (thread_ticks k) (idle_ticks k) (kernel_ticks k) (user_ticks k)
    (intr_on k) (in_external_intr k) (yield_on_return k) (semas k) (<[l:=h]> (holders k)) (conds k) (waits k).
Definition with_cond (c : positive) (ws : list positive) (k : kernel) : kernel :=
  mk_kernel (threads k) (ready_list k) (all_list k) (current k) (idle_thread k) (initial_thread k)
    (next_tid k) (thread_ticks k) (idle_ticks k) (kernel_ticks k) (user_ticks k)
    (intr_on k) (in_external_intr k) (yield_on_return k) (semas k) (holders k) (<[c:=ws]> (conds k)) (waits k).
Definition with_wait (w : positive) (s : wait_status) (k : kernel) : kernel :=
  mk_kernel (threads k) (ready_list k) (all_list k) (current k) (idle_thread k) (initial_thread k)
    (next_tid k) (thread_ticks k) (idle_ticks k) (kernel_ticks k) (user_ticks k)
    (intr_on k) (in_external_intr k) (yield_on_return k) (semas k) (holders k) (conds k) (<[w:=s]> (waits k)).

Definition set_status (s : thread_status) (t : thread) : thread :=
  mk_thread (tid t) s (name t) (stack t) (priority t) (pagedir t) (magic t) (fd_in_use t) (num_fds t)
    (file t) (child_loaded t) (parent_load t) (children t) (my_wait_status t) (cwd t).
Definition set_tid (n : Z) (t : thread) : thread :=
  mk_thread n (status t) (name t) (stack t) (priority t) (pagedir t) (magic t) (fd_in_use t) (num_fds t)
    (file t) (child_loaded t) (parent_load t) (children t) (my_wait_status t) (cwd t).
Definition set_stack (n : Z) (t : thread) : thread :=
  mk_thread (tid t) (status t) (name t) n (priority t) (pagedir t) (magic t) (fd_in_use t) (num_fds t)
    (file t) (child_loaded t) (parent_load t) (children t) (my_wait_status t) (cwd t).
Definition set_priority (p : Z) (t : thread) : thread :=
  mk_thread (tid t) (status t) (name t) (stack t) p (pagedir t) (magic t) (fd_in_use t) (num_fds t)
    (file t) (child_loaded t) (parent_load t) (children t) (my_wait_status t) (cwd t).

(** ** Access to threads *)
Definition load_thread (p : tptr) : cmd kernel thread := λ k,
  match threads k !! p with Some t => Ret (t, k) | None => Err BadPtr end.
Definition upd_thread (p : tptr) (f : thread → thread) : cmd kernel unit := λ k,
  match threads k !! p with
  | Some t => Ret (tt, with_threads (<[p := f t]>) k)
  | None => Err BadPtr
  end.

(** Is the [elem] member of thread [p] in the ready list or a wait queue? *)
Definition linked (k : kernel) (p : tptr) : bool :=
  bool_decide (p ∈ ready_list k) ||
  existsb (λ s, bool_decide (p ∈ waiters s.2)) (map_to_list (semas k)).

Definition running_thread : cmd kernel tptr := gets current.

Definition is_thread (t : option tptr) : cmd kernel bool :=
  match t with
  | None => mret false
  | Some p => th ← load_thread p; mret (magic th =? THREAD_MAGIC)%Z
  end.

Definition thread_current : cmd kernel tptr :=
  t ← running_thread;
  b ← is_thread (Some t);
  ASSERT b;;
  th ← load_thread t;
  ASSERT (bool_decide (status th = THREAD_RUNNING));;
  mret t.

Definition thread_tid : cmd kernel Z := t ← thread_current; th ← load_thread t; mret (tid th).
Definition thread_name : cmd kernel (list Z) := t ← thread_current; th ← load_thread t; mret (name th).
Definition thread_get_priority : cmd kernel Z := t ← thread_current; th ← load_thread t; mret (priority th).
Definition thread_set_priority (new_priority : Z) : cmd kernel unit :=
  t ← thread_current; upd_thread t (set_priority new_priority).
Definition thread_set_nice (nice : Z) : cmd kernel unit := mret tt.
Definition thread_get_nice : cmd kernel Z := mret 0%Z.
Definition thread_get_load_avg : cmd kernel Z := mret 0%Z.
Definition thread_get_recent_cpu : cmd kernel Z := mret 0%Z.

(** ** Interrupt level (threads/interrupt.c) *)
Definition intr_get_level : cmd kernel bool := gets intr_on.
Definition intr_context : cmd kernel bool := gets in_external_intr.
Definition intr_enable : cmd kernel bool :=
  old ← intr_get_level;
  c ← intr_context;
  ASSERT (negb c);;
  modify (λ k, with_intr true (in_external_intr k) (yield_on_return k) k);;
  mret old.
Definition intr_disable : cmd kernel bool :=
  old ← intr_get_level;
  modify (λ k, with_intr false (in_external_intr k) (yield_on_return k) k);;
  mret old.
Definition intr_set_level (level : bool) : cmd kernel bool :=
  if level then intr_enable else intr_disable.
Definition intr_yield_on_return : cmd kernel unit :=
  c ← intr_context;
  ASSERT c;;
  modify (λ k, with_intr (intr_on k) (in_external_intr k) true k).

(** ** Scheduling *)
Definition push_ready (p : tptr) : cmd kernel unit := λ k,
  if linked k p then Err BadPtr else Ret (tt, with_ready (ready_list k ++ [p]) k).

Definition next_thread_to_run : cmd kernel (option tptr) :=
  r ← gets ready_list;
  match r with
  | [] => gets idle_thread
  | p :: r => modify (with_ready r);; mret (Some p)
  end.

(** [process_activate] loads the page directory and the task state segment;
    of the kernel state it only reads the current thread. *)
Definition thread_schedule_tail (prev : option tptr) : cmd kernel unit :=
  cur ← running_thread;
  level ← intr_get_level;
  ASSERT (negb level);;
  upd_thread cur (set_status THREAD_RUNNING);;
  modify (λ k, with_ticks 0 (idle_ticks k) (kernel_ticks k) (user_ticks k) k);;
  thread_current;;
  match prev with
  | None => mret tt
  | Some p =>
      th ← load_thread p;
      init ← gets initial_thread;
      if bool_decide (status th = THREAD_DYING) && negb (bool_decide (Some p = init)) then
        ASSERT (negb (bool_decide (p = cur)));;
        modify (with_threads (delete p))
      else mret tt
  end.

Definition schedule : cmd kernel unit :=
  cur ← running_thread;
  next ← next_thread_to_run;
  level ← intr_get_level;
  ASSERT (negb level);;
  c ← load_thread cur;
  ASSERT (negb (bool_decide (status c = THREAD_RUNNING)));;
  b ← is_thread next;
  ASSERT b;;
  match next with
  | None => throw BadPtr
  | Some n =>
      if bool_decide (cur = n) then thread_schedule_tail None
      else modify (with_current n);; thread_schedule_tail (Some cur)
  end.

Definition thread_block : cmd kernel unit :=
  c ← intr_context;
  ASSERT (negb c);;
  level ← intr_get_level;
  ASSERT (negb level);;
  t ← thread_current;
  upd_thread t (set_status THREAD_BLOCKED);;
  schedule.

Definition thread_unblock (t : tptr) : cmd kernel unit :=
  b ← is_thread (Some t);
  ASSERT b;;
  old_level ← intr_disable;
  th ← load_thread t;
  ASSERT (bool_decide (status th = THREAD_BLOCKED));;
  push_ready t;;
  upd_thread t (set_status THREAD_READY);;
  intr_set_level old_level;;
  mret tt.

(** [thread_yield] up to the switch; returns the level that the yielding
    thread restores when it runs again. *)
Definition thread_yield : cmd kernel bool :=
  cur ← thread_current;
  c ← intr_context;
  ASSERT (negb c);;
  old_level ← intr_disable;
  idle ← gets idle_thread;
  (if negb (bool_decide (Some cur = idle)) then push_ready cur else mret tt);;
  upd_thread cur (set_status THREAD_READY);;
  schedule;;
  mret old_level.

(** The end of [thread_exit], after the files are closed and [process_exit]
    has run: the thread leaves the list of all threads and dies. *)
Definition thread_exit_tail : cmd kernel unit :=
  intr_disable;;
  t ← thread_current;
  modify (λ k, with_all (filter (λ x, x ≠ t) (all_list k)) k);;
  upd_thread t (set_status THREAD_DYING);;
  schedule.

(** The action runs on every thread in the order of the list of all threads. *)
Fixpoint foreach_loop (func : tptr → cmd kernel unit) (l : list tptr) : cmd kernel unit :=
  match l with
  | [] => mret tt
  | t :: l => func t;; foreach_loop func l
  end.
Definition thread_foreach (func : tptr → cmd kernel unit) : cmd kernel unit :=
  level ← intr_get_level;
  ASSERT (negb level);;
  l ← gets all_list;
  foreach_loop func l.

Definition thread_tick : cmd kernel unit :=
  t ← thread_current;
  th ← load_thread t;
  modify (λ k,
    if bool_decide (Some t = idle_thread k)
    then with_ticks (thread_ticks k) (idle_ticks k + 1) (kernel_ticks k) (user_ticks k) k
    else if bool_decide (is_Some (pagedir th))
    then with_ticks (thread_ticks k) (idle_ticks k) (kernel_ticks k) (user_ticks k + 1) k
    else with_ticks (thread_ticks k) (idle_ticks k) (kernel_ticks k + 1) (user_ticks k) k);;
  modify (λ k, with_ticks (u32 (thread_ticks k + 1)) (idle_ticks k) (kernel_ticks k) (user_ticks k) k);;
  n ← gets thread_ticks;
  if (TIME_SLICE <=? n)%Z then intr_yield_on_return else mret tt.

(** A timer interrupt taken by the running thread, up to the switch
    ([intr_handler] for an external interrupt): the processor clears the
    interrupt flag, the handler runs in interrupt context, and the thread
    yields on return if the handler asked for it.  Returns whether it did. *)
Definition timer_interrupt : cmd kernel bool :=
  modify (λ k, with_intr false (in_external_intr k) (yield_on_return k) k);;
  c ← intr_context;
  ASSERT (negb c);;
  modify (λ k, with_intr (intr_on k) true false k);;
  thread_tick;;
  level ← intr_get_level;
  ASSERT (negb level);;
  c ← intr_context;
  ASSERT c;;
  modify (λ k, with_intr (intr_on k) false (yield_on_return k) k);;
  y ← gets yield_on_return;
  if (y : bool) then thread_yield;; mret true
  else modify (λ k, with_intr true (in_external_intr k) (yield_on_return k) k);; mret false.

(** ** Creating threads *)

(** [init_thread]: the page is cleared and set up as a blocked thread. *)
Definition init_thread (t : tptr) (nm : list Z) (prio : Z) : cmd kernel unit :=
  ASSERT ((PRI_MIN <=? prio) && (prio <=? PRI_MAX))%Z;;
  modify (with_threads (<[t := mk_thread 0 THREAD_BLOCKED (take 15 nm) 4096 prio None THREAD_MAGIC
    (replicate MAX_FILE_DESCRIPTORS false) 0 None None None [] None None]>));;
  old_level ← intr_disable;
  modify (λ k, with_all (all_list k ++ [t]) k);;
  intr_set_level old_level;;
  mret tt.

Definition alloc_frame (t : tptr) (size : Z) : cmd kernel Z :=
  b ← is_thread (Some t);
  ASSERT b;;
  ASSERT (size mod 4 =? 0)%Z;;
  upd_thread t (λ th, set_stack (stack th - size) th);;
  th ← load_thread t;
  mret (stack th).

(** [tid = next_tid++], inside the critical section of [allocate_tid]. *)
Definition take_tid : cmd kernel Z :=
  n ← gets next_tid;
  modify (λ k, with_next_tid (s32 (next_tid k + 1)) k);;
  mret n.

Section create.
(** [dir_reopen] of the file system: a new handle, or none. *)
Context (dir_reopen : positive → option positive).

(** The parent's entry for the child is the front of its list of children, if
    that entry is not yet taken. *)
Definition claim_wait_status (parent : thread) (tid : Z) : cmd kernel (option positive) :=
  match children parent with
  | [] => mret None
  | w :: _ =>
      ws ← gets waits;
      match ws !! w with
      | None => throw BadPtr
      | Some st =>
          if (ref_count st =? -1)%Z
          then modify (with_wait w (mk_ws (-1) tid 2));; mret (Some w)
          else mret None
      end
  end.

(** [thread_create] after [allocate_tid]: stack frames (kernel_thread 12,
    switch_entry 4 and switch_threads 28 bytes), the fields inherited from the
    parent, and the run queue. *)
Definition thread_create_finish (t : tptr) (tid : Z) : cmd kernel Z :=
  upd_thread t (set_tid tid);;
  alloc_frame t 12;;
  alloc_frame t 4;;
  alloc_frame t 28;;
  cur ← thread_current;
  parent ← load_thread cur;
  ws ← claim_wait_status parent tid;
  upd_thread t (λ th,
    mk_thread (Thread.tid th) (status th) (name th) (stack th) (priority th) (pagedir th) (magic th)
      (fd_in_use th) 0 None None (child_loaded parent) (children th) ws
      (match cwd parent with None => cwd th | Some d => dir_reopen d end));;
  upd_thread t (λ th,
    mk_thread (Thread.tid th) (status th) (name th) (stack th) (priority th) (pagedir th) (magic th)
      (take 2 (fd_in_use th) ++ replicate (MAX_FILE_DESCRIPTORS - 2) false) (num_fds th) (file th)
      (child_loaded th) (parent_load th) (children th) (my_wait_status th) (cwd th));;
  thread_unblock t;;
  mret tid.
End create.
