(* ===== verification/Synch.v ===== *)
(** * Semaphores, locks and condition variables (threads/synch.c)

    Interrupts are off inside the semaphore routines, so their bodies are
    atomic; a lock or condition routine is a sequence of such bodies between
    which the thread can be preempted.  The routines are therefore given as
    code: a list of [instr]s, each an atomic piece of a routine.  A thread that
    sleeps inside [sema_down] resumes at the loop test ([I_sema_down_loop]). *)
From S2P Require Import Prelude Thread.

Definition load_sema (s : sref) : cmd kernel semaphore := λ k,
  match semas k !! s with Some x => Ret (x, k) | None => Err BadPtr end.
Definition store_sema (s : sref) (x : semaphore) : cmd kernel unit :=
  modify (with_semas (<[s := x]>)).

(** [list_push_back (&sema->waiters, &t->elem)]. *)
Definition push_waiter (s : sref) (t : tptr) : cmd kernel unit :=
  x ← load_sema s;
  l ← gets (λ k, linked k t);
  if (l : bool) then throw BadPtr else store_sema s (mk_sema (value x) (waiters x ++ [t])).

Definition sema_init (s : sref) (v : Z) : cmd kernel unit := store_sema s (mk_sema v []).

(** One evaluation of [while (sema->value == 0)] with interrupts off: either
    the thread is queued and another one runs, or the value is taken and
    [old_level] restored.  Returns whether the value was taken. *)
Definition sema_down_loop (s : sref) (old_level : bool) : cmd kernel bool :=
  x ← load_sema s;
  if (value x =? 0)%Z then
    t ← thread_current;
    push_waiter s t;;
    thread_block;;
    mret false
  else
    store_sema s (mk_sema (value x - 1) (waiters x));;
    intr_set_level old_level;;
    mret true.

(** The entry of [sema_down]; returns the saved level too. *)
Definition sema_down (s : sref) : cmd kernel (bool * bool) :=
  c ← intr_context;
  ASSERT (negb c);;
  old_level ← intr_disable;
  b ← sema_down_loop s old_level;
  mret (b, old_level).

Definition sema_try_down (s : sref) : cmd kernel bool :=
  old_level ← intr_disable;
  x ← load_sema s;
  success ← (if (0 <? value x)%Z
             then store_sema s (mk_sema (value x - 1) (waiters x));; mret true
             else mret false);
  intr_set_level old_level;;
  mret success.

Definition sema_up (s : sref) : cmd kernel unit :=
  old_level ← intr_disable;
  x ← load_sema s;
  (match waiters x with
   | [] => mret tt
   | t :: ws => store_sema s (mk_sema (value x) ws);; thread_unblock t
   end);;
  x ← load_sema s;
  store_sema s (mk_sema (u32 (value x + 1)) (waiters x));;
  intr_set_level old_level;;
  mret tt.

Definition lock_init (l : positive) : cmd kernel unit :=
  modify (with_holder l None);;
  sema_init (inr l) 1.

Definition lock_held_by_current_thread (l : positive) : cmd kernel bool :=
  hs ← gets holders;
  t ← thread_current;
  match hs !! l with
  | None => throw BadPtr
  | Some h => mret (bool_decide (h = Some t))
  end.

Definition cond_init (c : positive) : cmd kernel unit := modify (with_cond c []).

(** ** Code of the routines *)
Inductive instr : Set :=
  | I_intr_set (level : bool)                   (* intr_set_level (level) *)
  | I_sema_down (s : sref)
  | I_sema_down_loop (s : sref) (old_level : bool)
  | I_sema_up (s : sref)
  | I_assert_held (l : positive)                (* ASSERT (lock_held_by_current_thread (l)) *)
  | I_assert_not_held (l : positive)
  | I_set_holder (l : positive)                 (* l->holder = thread_current () *)
  | I_clear_holder (l : positive)               (* l->holder = NULL *)
  | I_try (l : positive)                        (* success = sema_try_down (...) *)
  | I_cond_wait (c l : positive)                (* waiter set up and queued *)
  | I_signal (c : positive)
  | I_broadcast (c l : positive)
  | I_yield
  | I_create (nm : list Z) (prio : Z)           (* palloc_get_page, init_thread *)
  | I_take_tid (t : tptr)
  | I_create_finish (t : tptr) (tid : Z)
  | I_exit
  | I_idle_block.

Definition lock_acquire (l : positive) : list instr :=
  [I_assert_not_held l; I_sema_down (inr l); I_set_holder l].

Definition lock_try_acquire (l : positive) : list instr := [I_assert_not_held l; I_try l].

Definition lock_release (l : positive) : list instr :=
  [I_assert_held l; I_clear_holder l; I_sema_up (inr l)].

(** [cond_wait] queues a semaphore [w] of its own, on the caller's stack. *)
Definition cond_wait (c l : positive) : list instr := [I_assert_held l; I_cond_wait c l].
Definition cond_wait_rest (l w : positive) : list instr :=
  lock_release l ++ [I_sema_down (inl w)] ++ lock_acquire l.
(** An address that holds no semaphore. *)
Definition fresh_sema (k : kernel) : positive :=
  fresh (list_to_set (omap (λ s : sref, match s with inl p => Some p | inr _ => None end)
                           (elements (dom (semas k)))) : gset positive).

Definition cond_signal (c l : positive) : list instr := [I_assert_held l; I_signal c].

Definition cond_broadcast (c l : positive) : list instr := [I_broadcast c l].

(** The lock of [allocate_tid]. *)
Definition tid_lock : positive := 1.

(** [thread_create], with [allocate_tid] in the middle. *)
Definition thread_create (nm : list Z) (prio : Z) : list instr := [I_create nm prio].
Definition allocate_tid (t : tptr) : list instr := lock_acquire tid_lock ++ [I_take_tid t].
Definition thread_create_rest (t : tptr) (tid : Z) : list instr :=
  lock_release tid_lock ++ [I_create_finish t tid].

(** ** Machines: the kernel state, the code each thread still has to run, and
    (as a history variable) the locks each thread has acquired *)
Record machine := mk_machine {
  kern : kernel; code : gmap tptr (list instr); held : gmap tptr (gset positive) }.

Definition on_kern {A} (f : cmd kernel A) : cmd machine A := λ m,
  match f (kern m) with
  | Ret (a, k) => Ret (a, mk_machine k (code m) (held m))
  | Err e => Err e
  end.
Definition set_code (t : tptr) (c : list instr) : cmd machine unit :=
  modify (λ m, mk_machine (kern m) (<[t := c]> (code m)) (held m)).
Definition drop_code (t : tptr) : cmd machine unit :=
  modify (λ m, mk_machine (kern m) (delete t (code m)) (delete t (held m))).
Definition held_by (m : machine) (t : tptr) : gset positive := default ∅ (held m !! t).
Definition upd_held (t : tptr) (f : gset positive → gset positive) : cmd machine unit :=
  modify (λ m, mk_machine (kern m) (code m) (<[t := f (held_by m t)]> (held m))).

Section exec.
(** [dir_reopen] of the file system and [palloc_get_page] of the page
    allocator. *)
Context (dir_reopen : positive → option positive) (palloc_get_page : kernel → option tptr).

(** Execute [i] in thread [t], which has [rest] to run after it; another
    thread may be the current one afterwards. *)
Definition exec (t : tptr) (i : instr) (rest : list instr) : cmd machine unit :=
  match i with
  | I_intr_set level => on_kern (intr_set_level level);; set_code t rest
  | I_sema_down s =>
      r ← on_kern (sema_down s);
      set_code t (if (r.1 : bool) then rest else I_sema_down_loop s r.2 :: rest)
  | I_sema_down_loop s old =>
      b ← on_kern (sema_down_loop s old);
      set_code t (if (b : bool) then rest else I_sema_down_loop s old :: rest)
  | I_sema_up s => on_kern (sema_up s);; set_code t rest
  | I_assert_held l =>
      b ← on_kern (lock_held_by_current_thread l); ASSERT b;; set_code t rest
  | I_assert_not_held l =>
      b ← on_kern (lock_held_by_current_thread l); ASSERT (negb b);; set_code t rest
  | I_set_holder l =>
      c ← on_kern thread_current;
      on_kern (modify (with_holder l (Some c)));; upd_held t (λ H, {[l]} ∪ H);; set_code t rest
  | I_clear_holder l =>
      on_kern (modify (with_holder l None));; upd_held t (λ H, H ∖ {[l]});; set_code t rest
  | I_try l =>
      b ← on_kern (sema_try_down (inr l));
      set_code t (if (b : bool) then I_set_holder l :: rest else rest)
  | I_cond_wait c l =>
      w ← gets (λ m, fresh_sema (kern m));
      on_kern (sema_init (inl w) 0);;
      cs ← gets (λ m, conds (kern m));
      match cs !! c with
      | None => throw BadPtr
      | Some ws => on_kern (modify (with_cond c (ws ++ [w])));; set_code t (cond_wait_rest l w ++ rest)
      end
  | I_signal c =>
      cs ← gets (λ m, conds (kern m));
      match cs !! c with
      | None => throw BadPtr
      | Some [] => set_code t rest
      | Some (w :: ws) => on_kern (modify (with_cond c ws));; set_code t (I_sema_up (inl w) :: rest)
      end
  | I_broadcast c l =>
      cs ← gets (λ m, conds (kern m));
      match cs !! c with
      | None => throw BadPtr
      | Some [] => set_code t rest
      | Some (_ :: _) => set_code t (cond_signal c l ++ I_broadcast c l :: rest)
      end
  | I_yield => old ← on_kern thread_yield; set_code t (I_intr_set old :: rest)
  | I_create nm prio =>
      page ← gets (λ m, palloc_get_page (kern m));
      match page with
      | None => set_code t rest
      | Some p => on_kern (init_thread p nm prio);; set_code t (allocate_tid p ++ rest)
      end
  | I_take_tid p => n ← on_kern take_tid; set_code t (thread_create_rest p n ++ rest)
  | I_create_finish p n =>
      on_kern (thread_create_finish dir_reopen p n);;
      set_code p [I_intr_set true];; upd_held p (λ _, ∅);; set_code t rest
  | I_exit => on_kern thread_exit_tail;; drop_code t
  | I_idle_block =>
      on_kern intr_disable;; on_kern thread_block;; set_code t [I_intr_set true; I_idle_block]
  end.
End exec.
