(* ===== verification/Sched.v ===== *)
(** * Concurrent executions of the kernel's threads

    A machine steps by executing the next piece of code of the running thread,
    by a call the running thread makes to thread.c or synch.c, or by a timer
    interrupt while interrupts are enabled.  This file defines the steps and
    the invariant of the scheduler; SchedSpec.v shows that every step keeps it
    and what follows. *)
From S2P Require Import Prelude Thread Synch.

(** ** Calls *)
Inductive api : Set :=
  | A_down (s : positive) | A_up (s : positive)
  | A_acquire (l : positive) | A_try (l : positive) | A_release (l : positive)
  | A_wait (c l : positive) | A_signal (c l : positive) | A_broadcast (c l : positive)
  | A_yield | A_create (nm : list Z) (prio : Z) | A_exit.

Definition api_code (a : api) : list instr :=
  match a with
  | A_down s => [I_sema_down (inl s)]
  | A_up s => [I_sema_up (inl s)]
  | A_acquire l => lock_acquire l
  | A_try l => lock_try_acquire l
  | A_release l => lock_release l
  | A_wait c l => cond_wait c l
  | A_signal c l => cond_signal c l
  | A_broadcast c l => cond_broadcast c l
  | A_yield => [I_yield]
  | A_create nm prio => thread_create nm prio
  | A_exit => [I_exit]
  end.

(** What a caller must ensure, as the comments of the routines ask: objects are
    initialised, a lock is not acquired twice, only a held lock is released or
    used with a condition variable, a priority is in range, and a thread exits
    without locks. *)
Definition api_ok (k : kernel) (H : gset positive) (a : api) : Prop :=
  match a with
  | A_down s | A_up s => is_Some (semas k !! inl s)
  | A_acquire l | A_try l => is_Some (holders k !! l) ∧ l ∉ H
  | A_release l => l ∈ H
  | A_wait c l | A_signal c l | A_broadcast c l => is_Some (conds k !! c) ∧ l ∈ H
  | A_yield => True
  | A_create _ prio => (PRI_MIN <= prio <= PRI_MAX)%Z ∧ tid_lock ∉ H
  | A_exit => H = ∅
  end.

Section steps.
Context (dir_reopen : positive → option positive) (palloc_get_page : kernel → option tptr).

Inductive label : Set := L_exec | L_call (a : api) | L_tick.

(** What the running thread (or the timer) does next: a result, or a fault. *)
Inductive attempt (m : machine) : label → res (unit * machine) → Prop :=
  | attempt_exec i c :
      code m !! current (kern m) = Some (i :: c) →
      attempt m L_exec (exec dir_reopen palloc_get_page (current (kern m)) i c m)
  | attempt_call a :
      code m !! current (kern m) = Some [] →
      api_ok (kern m) (held_by m (current (kern m))) a →
      attempt m (L_call a) (set_code (current (kern m)) (api_code a) m)
  | attempt_tick c :
      intr_on (kern m) = true →
      code m !! current (kern m) = Some c →
      attempt m L_tick
        ((y ← on_kern timer_interrupt;
          if (y : bool) then set_code (current (kern m)) (I_intr_set true :: c) else mret tt) m).

Definition step (m : machine) (a : label) (m' : machine) : Prop := attempt m a (Ret (tt, m')).

Inductive steps : machine → list label → machine → Prop :=
  | steps_refl m : steps m [] m
  | steps_step m a m' ls m'' : step m a m' → steps m' ls m'' → steps m (a :: ls) m''.
End steps.

(** ** The invariant of the scheduler *)
Definition stat (k : kernel) (p : tptr) : option thread_status := status <$> threads k !! p.

(** The thread under construction in a piece of code. *)
Definition build_of (i : instr) : option tptr :=
  match i with I_take_tid p | I_create_finish p _ => Some p | _ => None end.
Definition builds (c : list instr) : list tptr := omap build_of c.

(** The idle thread is at the head of its loop, or about to enable interrupts
    there. *)
Inductive idle_code : list instr → Prop :=
  | idle_loop : idle_code [I_idle_block]
  | idle_resumed c : idle_code c → idle_code (I_intr_set true :: c).

Record sched_ok (k : kernel) (cd : gmap tptr (list instr)) : Prop := {
  s_magic : ∀ p th, threads k !! p = Some th → magic th = THREAD_MAGIC;
  s_idle : ∃ i c, idle_thread k = Some i ∧ cd !! i = Some c ∧ idle_code c;
  s_ready_nodup : NoDup (ready_list k);
  s_ready : ∀ p, p ∈ ready_list k ↔ stat k p = Some THREAD_READY ∧ idle_thread k ≠ Some p;
  s_wait : ∀ s x p, semas k !! s = Some x → p ∈ waiters x →
    stat k p = Some THREAD_BLOCKED ∧ idle_thread k ≠ Some p ∧
    ∃ old c, cd !! p = Some (I_sema_down_loop s old :: c);
  s_wait_nodup : ∀ s x, semas k !! s = Some x → NoDup (waiters x);
  s_blocked : ∀ p, stat k p = Some THREAD_BLOCKED → idle_thread k = Some p ∨
    (∃ s x, semas k !! s = Some x ∧ p ∈ waiters x) ∨ (∃ t c, cd !! t = Some c ∧ p ∈ builds c);
  s_build : ∀ t c p, cd !! t = Some c → p ∈ builds c → stat k p = Some THREAD_BLOCKED ∧ cd !! p = None;
  s_build_uniq : ∀ t c t' c' p, cd !! t = Some c → cd !! t' = Some c' →
    p ∈ builds c → p ∈ builds c' → t = t';
  s_build_nodup : ∀ t c, cd !! t = Some c → NoDup (builds c);
  s_run : ∀ p, stat k p = Some THREAD_RUNNING → p = current k;
  s_code : ∀ p, is_Some (cd !! p) → ∃ st, stat k p = Some st ∧ st ≠ THREAD_DYING;
  s_alive : ∀ p st, stat k p = Some st → st = THREAD_READY ∨ st = THREAD_RUNNING → is_Some (cd !! p);
  s_ext : in_external_intr k = false }.

(** ** Lemmas on statuses *)
Lemma stat_insert k p q th :
  stat (with_threads (<[p := th]>) k) q = if decide (p = q) then Some (status th) else stat k q.
Proof.
  unfold stat. cbn. destruct (decide (p = q)) as [->|Hne].
  - by rewrite lookup_insert_eq.
  - by rewrite lookup_insert_ne.
Qed.

Lemma stat_Some k p st : stat k p = Some st ↔ ∃ th, threads k !! p = Some th ∧ status th = st.
Proof. unfold stat. rewrite fmap_Some. naive_solver. Qed.

Lemma linked_false k p :
  p ∉ ready_list k → (∀ s x, semas k !! s = Some x → p ∉ waiters x) → linked k p = false.
Proof.
  intros Hr Hw. unfold linked. rewrite bool_decide_false by done. simpl.
  destruct (existsb _ _) eqn:E; [|done]. apply existsb_exists in E as ([s x] & Hin & Hb).
  apply list_elem_of_In, elem_of_map_to_list in Hin. apply bool_decide_eq_true in Hb.
  exfalso. by eapply Hw.
Qed.

(** ** Running the basic routines *)
Lemma load_thread_bind {A} (f : thread → cmd kernel A) k p th :
  threads k !! p = Some th → (load_thread p ≫= f) k = f th k.
Proof. intros E. unfold load_thread, mbind, cmd_bind. by rewrite E. Qed.

Lemma upd_thread_bind {A} (f : unit → cmd kernel A) k p g th :
  threads k !! p = Some th → (upd_thread p g ≫= f) k = f tt (with_threads (<[p := g th]>) k).
Proof. intros E. unfold upd_thread, mbind, cmd_bind. by rewrite E. Qed.

Lemma upd_thread_run k p g th :
  threads k !! p = Some th → upd_thread p g k = Ret (tt, with_threads (<[p := g th]>) k).
Proof. intros E. unfold upd_thread. by rewrite E. Qed.

Lemma is_thread_bind {A} (f : bool → cmd kernel A) k p th :
  threads k !! p = Some th → magic th = THREAD_MAGIC → (is_thread (Some p) ≫= f) k = f true k.
Proof.
  intros E Hm. unfold is_thread. rewrite bind_assoc, (load_thread_bind _ _ _ th) by done.
  by rewrite ret_bind, Hm, Z.eqb_refl.
Qed.

Lemma thread_current_bind {A} (f : tptr → cmd kernel A) k th :
  threads k !! current k = Some th → magic th = THREAD_MAGIC → status th = THREAD_RUNNING →
  (thread_current ≫= f) k = f (current k) k.
Proof.
  intros E Hm Hs. unfold thread_current, running_thread.
  rewrite bind_assoc, gets_bind, bind_assoc, (is_thread_bind _ _ _ th) by done.
  rewrite bind_assoc, ASSERT_bind, bind_assoc, (load_thread_bind _ _ _ th) by done.
  rewrite bind_assoc, ASSERT_bind by by apply bool_decide_eq_true. done.
Qed.

(** *** Switching threads *)
(** The thread [schedule] picks, and what is left of the ready list. *)
Definition pick (k : kernel) : option (tptr * list tptr) :=
  match ready_list k with
  | [] => (λ i, (i, [])) <$> idle_thread k
  | p :: r => Some (p, r)
  end.

(** The kernel after a switch to [n]; [dead] is the thread that is freed. *)
Definition switched (k : kernel) (n : tptr) (th : thread) (r : list tptr) (dead : option tptr) : kernel :=
  let k := with_ticks 0 (idle_ticks k) (kernel_ticks k) (user_ticks k)
             (with_threads (<[n := set_status THREAD_RUNNING th]>) (with_current n (with_ready r k))) in
  match dead with None => k | Some p => with_threads (delete p) k end.

Definition dead_of (k : kernel) (th : thread) (n : tptr) : option tptr :=
  if bool_decide (current k = n) then None
  else if bool_decide (status th = THREAD_DYING) && negb (bool_decide (Some (current k) = initial_thread k))
  then Some (current k) else None.

Lemma schedule_run k th n thn r :
  threads k !! current k = Some th → status th ≠ THREAD_RUNNING → intr_on k = false →
  pick k = Some (n, r) → threads k !! n = Some thn → magic thn = THREAD_MAGIC →
  schedule k = Ret (tt, switched k n thn r (dead_of k th n)).
Proof.
  intros Hc Hs Hi Hp Hn Hm. unfold schedule, running_thread. rewrite gets_bind.
  assert (Hnext : next_thread_to_run k = Ret (Some n, with_ready r k)).
  { unfold pick in Hp. unfold next_thread_to_run. rewrite gets_bind.
    destruct (ready_list k) as [|p r'] eqn:Er.
    - destruct (idle_thread k) as [i|] eqn:Ei; simpl in Hp; simplify_eq.
      unfold gets. rewrite Ei. do 2 f_equal. destruct k; simpl in *. by subst.
    - simplify_eq. done. }
  rewrite (bind_Ret _ _ _ _ _ Hnext). unfold intr_get_level. rewrite gets_bind.
  rewrite ASSERT_bind by (cbn; by rewrite Hi).
  rewrite (load_thread_bind _ _ _ th) by done. rewrite ASSERT_bind by by rewrite bool_decide_false.
  rewrite (is_thread_bind _ _ _ thn) by done. rewrite ASSERT_bind by done.
  unfold dead_of, switched. destruct (decide (current k = n)) as [E|Hne].
  - rewrite !(bool_decide_true (current k = n)) by done. unfold thread_schedule_tail, running_thread.
    rewrite gets_bind. cbn [current with_ready]. rewrite E. unfold intr_get_level. rewrite gets_bind.
    rewrite ASSERT_bind by (cbn; by rewrite Hi). rewrite (upd_thread_bind _ _ _ _ thn) by done.
    rewrite modify_bind. rewrite (thread_current_bind _ _ (set_status THREAD_RUNNING thn)); [|cbn; rewrite E; apply lookup_insert_eq|done|done].
    unfold mret, cmd_ret. do 2 f_equal. unfold with_ticks, with_threads, with_current, with_ready. cbn. by rewrite E.
  - rewrite !(bool_decide_false (current k = n)) by done. rewrite modify_bind.
    unfold thread_schedule_tail, running_thread. rewrite gets_bind. cbn [current with_current].
    unfold intr_get_level. rewrite gets_bind. rewrite ASSERT_bind by (cbn; by rewrite Hi).
    rewrite (upd_thread_bind _ _ _ _ thn) by done. rewrite modify_bind.
    rewrite (thread_current_bind _ _ (set_status THREAD_RUNNING thn)); [|cbn; apply lookup_insert_eq|done|done].
    rewrite (load_thread_bind _ _ _ th) by (cbn; by rewrite lookup_insert_ne).
    rewrite gets_bind. cbn [initial_thread with_ticks with_threads with_current with_ready].
    destruct (_ && _); [|done]. rewrite ASSERT_bind by by rewrite bool_decide_false. done.
Qed.

Lemma stat_switched k n th r dead q :
  dead ≠ Some n →
  stat (switched k n th r dead) q =
    if decide (q = n) then Some THREAD_RUNNING else if decide (dead = Some q) then None else stat k q.
Proof.
  intros Hd. unfold switched, stat. destruct dead as [p|]; cbn.
  - destruct (decide (q = n)) as [->|Hq].
    + rewrite lookup_delete_ne by congruence. by rewrite lookup_insert_eq.
    + destruct (decide (Some p = Some q)) as [[= ->]|Hp].
      * by rewrite lookup_delete_eq.
      * rewrite lookup_delete_ne by congruence. by rewrite lookup_insert_ne.
  - destruct (decide (q = n)) as [->|Hq]; [by rewrite lookup_insert_eq|].
    rewrite decide_False by done. by rewrite lookup_insert_ne.
Qed.

Lemma switched_threads k n th r dead q th' :
  threads k !! n = Some th →
  threads (switched k n th r dead) !! q = Some th' →
  ∃ th0, threads k !! q = Some th0 ∧ magic th' = magic th0 ∧ children th' = children th0.
Proof.
  intros Hn Hq.
  assert (H : <[n:=set_status THREAD_RUNNING th]> (threads k) !! q = Some th').
  { unfold switched in Hq. destruct dead as [p|]; cbn in Hq; [|done].
    by apply lookup_delete_Some in Hq as [_ Hq]. }
  apply lookup_insert_Some in H as [[<- <-]|[_ H]]; eauto.
Qed.

(** What [schedule] leaves alone. *)
Record same_objects (k k' : kernel) : Prop := {
  o_semas : semas k' = semas k; o_holders : holders k' = holders k; o_conds : conds k' = conds k;
  o_waits : waits k' = waits k; o_idle : idle_thread k' = idle_thread k;
  o_children : ∀ q th', threads k' !! q = Some th' → ∃ th0, threads k !! q = Some th0 ∧ children th' = children th0 }.

Section switch.
Context (k : kernel) (cd : gmap tptr (list instr)) (Hok : sched_ok k cd).
Context (th : thread) (Hcur : threads k !! current k = Some th) (Hs : status th ≠ THREAD_RUNNING).

Lemma not_running p : stat k p ≠ Some THREAD_RUNNING.
Proof using Hok Hcur Hs.
  intros Hp. pose proof (s_run _ _ Hok p Hp) as ->. apply stat_Some in Hp as (th' & E & Es). congruence.
Qed.

(** The thread picked has code, and is ready or the idle thread. *)
Lemma pick_ok : ∃ n r thn, pick k = Some (n, r) ∧ threads k !! n = Some thn ∧
  is_Some (cd !! n) ∧ (stat k n = Some THREAD_READY ∨ idle_thread k = Some n) ∧
  NoDup r ∧ (∀ q, q ∈ r ↔ q ∈ ready_list k ∧ q ≠ n) ∧
  (ready_list k = [] ∧ idle_thread k = Some n ∨ ready_list k = n :: r ∧ idle_thread k ≠ Some n).
Proof using Hok Hcur Hs.
  destruct (s_idle _ _ Hok) as (i & c & Hi & Hc & _). unfold pick.
  pose proof (s_ready_nodup _ _ Hok) as Hnd. destruct (ready_list k) as [|n r] eqn:Er.
  - rewrite Hi. destruct (s_code _ _ Hok i) as (st & Hst & _); [by eexists|].
    apply stat_Some in Hst as (thi & Hti & _). exists i, [], thi. split_and!; try done; [by right|set_solver|by left].
  - apply NoDup_cons in Hnd as [Hn Hnd]. destruct (proj1 (s_ready _ _ Hok n)) as [Hst Hni]; [rewrite Er; set_solver|].
    pose proof (s_alive _ _ Hok n _ Hst ltac:(auto)) as Hcn.
    pose proof Hst as (thn & Htn & _)%stat_Some. exists n, r, thn. split_and!; try done; [by left| |by right].
    intros q. rewrite elem_of_cons. set_solver.
Qed.

Lemma switch_ok :
  intr_on k = false →
  ∃ k' n, schedule k = Ret (tt, k') ∧ sched_ok k' cd ∧ current k' = n ∧
    stat k' n = Some THREAD_RUNNING ∧ same_objects k k' ∧ intr_on k' = false ∧
    (∀ p, is_Some (cd !! p) → p ≠ n → stat k' p = stat k p) ∧
    is_Some (cd !! n) ∧ stat k n ≠ Some THREAD_DYING ∧
    thread_ticks k' = 0%Z ∧
    (ready_list k = [] ∧ ready_list k' = [] ∨ ready_list k = n :: ready_list k').
Proof using Hok Hcur Hs.
  intros Hi. destruct pick_ok as (n & r & thn & Hp & Htn & Hcn & Hn & Hnd & Hr & Hrd).
  pose proof (schedule_run k th n thn r Hcur Hs Hi Hp Htn (s_magic _ _ Hok _ _ Htn)) as Hrun.
  set (dead := dead_of k th n) in *. exists (switched k n thn r dead), n.
  assert (Hdn : dead ≠ Some n).
  { unfold dead, dead_of. destruct (decide (current k = n)) as [E|E];
      [by rewrite bool_decide_true|rewrite bool_decide_false by done]. destruct (_ && _); congruence. }
  assert (Hdd : ∀ q, dead = Some q → stat k q = Some THREAD_DYING).
  { intros q Hq. unfold dead, dead_of in Hq. destruct (bool_decide (current k = n)); [done|].
    destruct (bool_decide (status th = _)) eqn:E; [|done]. apply bool_decide_eq_true in E.
    destruct (negb _); simpl in Hq; simplify_eq. apply stat_Some. eauto. }
  assert (Hst : ∀ q, stat (switched k n thn r dead) q =
    if decide (q = n) then Some THREAD_RUNNING else if decide (dead = Some q) then None else stat k q)
    by (intros q; by apply stat_switched).
  assert (Hkeep : ∀ q, is_Some (cd !! q) → q ≠ n → stat (switched k n thn r dead) q = stat k q).
  { intros q Hq Hne. rewrite Hst, decide_False by done. destruct (decide (dead = Some q)) as [E|]; [|done].
    destruct (s_code _ _ Hok q Hq) as (st & Es & Hnd'). rewrite (Hdd q E) in Es. congruence. }
  assert (Hsub : ∀ q st, st ≠ THREAD_DYING → stat k q = Some st → q ≠ n → stat (switched k n thn r dead) q = Some st).
  { intros q st Hst' Hq Hne. rewrite Hst, decide_False by done.
    destruct (decide (dead = Some q)) as [E|]; [rewrite (Hdd q E) in Hq; congruence|done]. }
  assert (Hinv : ∀ q st, stat (switched k n thn r dead) q = Some st → q ≠ n → stat k q = Some st).
  { intros q st Hq Hne. rewrite Hst, decide_False in Hq by done. by destruct (decide (dead = Some q)). }
  assert (Hobj : same_objects k (switched k n thn r dead)).
  { split; try (unfold switched; by destruct dead).
    intros q th' Hq. destruct (switched_threads k n thn r dead q th' Htn Hq) as (th0 & ? & _ & ?). eauto. }
  assert (Hrl : ready_list (switched k n thn r dead) = r) by (unfold switched; by destruct dead).
  assert (Hn' : stat k n = Some THREAD_READY ∨ stat k n = Some THREAD_BLOCKED ∧ idle_thread k = Some n).
  { destruct Hn as [|Hid]; [auto|]. destruct (s_code _ _ Hok n Hcn) as (st & Es & Hd).
    pose proof (not_running n). destruct st; naive_solver. }
  split_and!; try done.
  - destruct Hok. split; cbn; try (rewrite ?(o_idle _ _ Hobj), ?(o_semas _ _ Hobj), ?Hrl; eauto).
    + intros q th' Hq. destruct (switched_threads k n thn r dead q th' Htn Hq) as (th0 & ? & -> & _). eauto.
    + intros q. rewrite Hr, s_ready0. split.
      * intros [[Hq Hqi] Hqn]. split; [|done]. by apply Hsub.
      * intros [Hq Hqi]. assert (q ≠ n) by (intros ->; rewrite Hst, decide_True in Hq by done; done). eauto.
    + intros s x p Hx Hpx. destruct (s_wait0 s x p Hx Hpx) as (Hb & Hpi & Hc). split_and!; [|done..].
      apply Hsub; [done..|]. intros ->. destruct Hn' as [|[_ ?]]; congruence.
    + intros p Hpb. assert (p ≠ n) by (intros ->; rewrite Hst, decide_True in Hpb by done; done). eauto.
    + intros t c p Hc Hpc. destruct (s_build0 t c p Hc Hpc) as [Hb Hcp]. split; [|done].
      apply Hsub; [done..|]. intros ->. destruct Hcn as [? ?]. congruence.
    + intros p Hp'. unfold switched. destruct dead; cbn; destruct (decide (p = n)); try done;
        apply Hinv in Hp'; try done; by destruct (not_running p).
    + intros p Hp'. destruct (decide (p = n)) as [->|]; [rewrite Hst, decide_True by done; eauto|].
      rewrite Hkeep by done. eauto.
    + intros p st Hp' Hst'. destruct (decide (p = n)) as [->|]; [done|]. eauto.
    + unfold switched. by destruct dead.
  - unfold switched. by destruct dead.
  - by rewrite Hst, decide_True.
  - unfold switched. by destruct dead.
  - destruct (s_code _ _ Hok n Hcn) as (st & -> & ?). congruence.
  - unfold switched. by destruct dead.
  - rewrite Hrl. destruct Hrd as [[Hr0 Hin]|[Hr0 _]]; [|auto]. left. split; [done|].
    unfold pick in Hp. rewrite Hr0, Hin in Hp. by simplify_eq/=.
Qed.
End switch.
