(* ===== verification/SchedInv.v ===== *)
(** The invariant of machines: scheduler, code of the threads, locks and
    wake-ups, with the lemmas that frame its parts. *)
From S2P Require Import Prelude Thread Synch Sched.

(** ** Code of a thread that holds the locks [H] *)
Definition lock_in (k : kernel) (l : positive) : Prop := is_Some (holders k !! l).
Definition cond_in (k : kernel) (c : positive) : Prop := is_Some (conds k !! c).
Definition sema_in (k : kernel) (s : positive) : Prop := is_Some (semas k !! inl s).

(** Code at a point where the thread is not inside a lock routine's hand-over:
    taking the semaphore of a lock is followed by recording the holder, and
    clearing the holder by giving the semaphore back. *)
Fixpoint wf (k : kernel) (H : gset positive) (c : list instr) : Prop :=
  match c with
  | [] => True
  | I_sema_down (inr l) :: I_set_holder l' :: c => l' = l ∧ lock_in k l ∧ l ∉ H ∧ wf k ({[l]} ∪ H) c
  | I_clear_holder l :: I_sema_up (inr l') :: c => l' = l ∧ l ∈ H ∧ wf k (H ∖ {[l]}) c
  | I_sema_down (inl s) :: c | I_sema_up (inl s) :: c => sema_in k s ∧ wf k H c
  | I_assert_held l :: c => l ∈ H ∧ wf k H c
  | I_assert_not_held l :: c => lock_in k l ∧ l ∉ H ∧ wf k H c
  | I_try l :: c => lock_in k l ∧ l ∉ H ∧ c = []
  | I_cond_wait cv l :: c => l ∈ H ∧ cond_in k cv ∧ wf k H c
  | I_signal cv :: c => cond_in k cv ∧ wf k H c
  | I_broadcast cv l :: c => l ∈ H ∧ cond_in k cv ∧ wf k H c
  | I_yield :: c => wf k H c
  | I_create _ prio :: c => (PRI_MIN <= prio <= PRI_MAX)%Z ∧ tid_lock ∉ H ∧ wf k H c
  | I_take_tid _ :: c => tid_lock ∈ H ∧ wf k (H ∖ {[tid_lock]}) c
  | I_create_finish _ _ :: c => wf k H c
  | I_exit :: c => H = ∅ ∧ c = []
  | _ => False
  end.

Definition not_loop (c : list instr) : Prop := ∀ s old c', c ≠ I_sema_down_loop s old :: c'.

(** Code of a thread at any point: resumed after an interrupt, asleep in
    [sema_down], or inside a hand-over. *)
Fixpoint wfc (k : kernel) (H : gset positive) (c : list instr) : Prop :=
  match c with
  | I_intr_set _ :: c => not_loop c ∧ wfc k H c
  | I_sema_down_loop s _ :: c => wf k H (I_sema_down s :: c)
  | I_set_holder l :: c => lock_in k l ∧ l ∉ H ∧ wf k ({[l]} ∪ H) c
  | I_sema_up (inr l) :: c => lock_in k l ∧ l ∉ H ∧ wf k H c
  | _ => wf k H c
  end.

(** Objects are never destroyed. *)
Definition objects_grow (k k' : kernel) : Prop :=
  (∀ l, lock_in k l → lock_in k' l) ∧ (∀ c, cond_in k c → cond_in k' c) ∧ (∀ s, sema_in k s → sema_in k' s).

Lemma wf_mono k k' H c : objects_grow k k' → wf k H c → wf k' H c.
Proof.
  intros (Hl & Hc & Hs).
  assert (Hn : ∀ n c H, (length c <= n)%nat → wf k H c → wf k' H c); [|eauto].
  clear H c. induction n as [|n IH]; intros [|i c] H Hle; simpl in Hle; try done; [lia|].
  destruct i as [lv|[s|l]|[s|l] o|[s|l]|l|l|l|l|l|cv l|cv|cv l| |nm p|p|p n'| |]; simpl; try done;
    try (intros; destruct_and?; split_and!; eauto; apply IH; [lia|done]).
  - destruct c as [|[] c]; try done. simpl in Hle. intros (-> & H1 & H2 & H3). split_and!; eauto. apply IH; [lia|done].
  - destruct c as [|[| | |[|]| | | | | | | | | | | | | |] c]; try done. simpl in Hle.
    intros (-> & H1 & H2). split_and!; eauto. apply IH; [lia|done].
  - naive_solver.
  - apply IH. lia.
  - apply IH. lia.
Qed.

Lemma wfc_mono k k' H c : objects_grow k k' → wfc k H c → wfc k' H c.
Proof.
  intros Hg. induction c as [|i c IH]; [done|].
  destruct i as [lv|[s|l]|s o|[s|l]|l|l|l|l|l|cv l|cv|cv l| |nm p|p|p n'| |]; cbn [wfc];
    try (by apply (wf_mono k k')).
  - naive_solver.
  - destruct Hg as (Hl & ? & ?). intros (? & ? & ?). split_and!; eauto. by eapply wf_mono.
  - destruct Hg as (Hl & ? & ?). intros (? & ? & ?). split_and!; eauto. by eapply wf_mono.
Qed.

Lemma wf_not_loop k H c : wf k H c → not_loop c.
Proof. intros Hw s old c' ->. done. Qed.

Lemma wf_wfc k H c : wf k H c → wfc k H c.
Proof. destruct c as [|[lv|[s|l]|s o|[s|l]|l|l|l|l|l|cv l|cv|cv l| |nm p|p|p n'| |] c]; done. Qed.

(** ** Locks *)
(** Between taking the semaphore of [l] and recording the holder, or between
    clearing the holder and giving the semaphore back. *)
Fixpoint pend (l : positive) (c : list instr) : Prop :=
  match c with
  | I_intr_set _ :: c => pend l c
  | I_set_holder l' :: _ => l = l'
  | I_sema_up (inr l') :: _ => l = l'
  | _ => False
  end.

Lemma wf_not_pend k H c l : wf k H c → ¬ pend l c.
Proof. destruct c as [|[lv|[s|l']|s o|[s|l']|l'|l'|l'|l'|l'|cv l'|cv|cv l'| |nm p|p|p n'| |] c]; simpl; tauto. Qed.

Section parts.
Context (k : kernel) (cd : gmap tptr (list instr)) (hb : tptr → gset positive).

Definition pending (l : positive) (t : tptr) : Prop := ∃ c, cd !! t = Some c ∧ pend l c.

(** A lock is free, held by the thread its [holder] names, or changing hands
    in exactly one thread. *)
Definition lock_ok (l : positive) (h : option tptr) : Prop :=
  ∃ x, semas k !! inr l = Some x ∧
    ((h = None ∧ value x = 1%Z ∧ ∀ t, ¬ pending l t) ∨
     (∃ t, h = Some t ∧ value x = 0%Z ∧ l ∈ hb t ∧ ∀ t', ¬ pending l t') ∨
     (∃ t, h = None ∧ value x = 0%Z ∧ pending l t ∧ ∀ t', pending l t' → t' = t)).

(** ** Wake-ups *)
(** [p] was woken from semaphore [s] and has not yet tested its value again. *)
Definition woken (s : sref) (p : tptr) : Prop :=
  (stat k p = Some THREAD_READY ∨ stat k p = Some THREAD_RUNNING) ∧
  ∃ old c, cd !! p = Some (I_sema_down_loop s old :: c).

Definition enough_woken (s : sref) (x : semaphore) : Prop :=
  ∃ W, NoDup W ∧ (value x <= Z.of_nat (length W))%Z ∧ ∀ p, p ∈ W → woken s p.

Definition wake_ok : Prop := ∀ s x, semas k !! s = Some x →
  (0 <= value x)%Z ∧ (waiters x ≠ [] → enough_woken s x).
End parts.

(** ** The whole invariant *)
Record minv (m : machine) : Prop := {
  i_sched : sched_ok (kern m) (code m);
  i_run : stat (kern m) (current (kern m)) = Some THREAD_RUNNING;
  i_intr : ∀ s old c, code m !! current (kern m) = Some (I_sema_down_loop s old :: c) → intr_on (kern m) = false;
  i_wf : ∀ t c, code m !! t = Some c → idle_thread (kern m) ≠ Some t → wfc (kern m) (held_by m t) c;
  i_locks : ∀ l h, holders (kern m) !! l = Some h → lock_ok (kern m) (code m) (held_by m) l h;
  i_held : ∀ t l, l ∈ held_by m t → holders (kern m) !! l = Some (Some t) ∧ is_Some (code m !! t);
  i_wake : wake_ok (kern m) (code m);
  i_conds : ∀ c ws w, conds (kern m) !! c = Some ws → w ∈ ws → sema_in (kern m) w;
  i_waits : ∀ p th w ws, threads (kern m) !! p = Some th → children th = w :: ws → is_Some (waits (kern m) !! w);
  i_tid : lock_in (kern m) tid_lock;
  i_ticks : (0 <= thread_ticks (kern m) < TIME_SLICE)%Z }.

(** ** What a step does to the run queue: [d] ticks pass and threads are
    appended, or the processor is given to the front of the queue *)
Definition moves (d : Z) (k k' : kernel) : Prop :=
  (current k' = current k ∧ thread_ticks k' = (thread_ticks k + d)%Z ∧ ∃ new, ready_list k' = ready_list k ++ new) ∨
  (thread_ticks k' = 0%Z ∧ ∃ new, ready_list k ++ new = current k' :: ready_list k' ∨
     (ready_list k ++ new = [] ∧ ready_list k' = [])).

Lemma stay_app k k' new :
  current k' = current k → thread_ticks k' = thread_ticks k → ready_list k' = ready_list k ++ new → moves 0 k k'.
Proof. intros Hc Ht Hr. left. split_and!; [done|lia|eauto]. Qed.

Lemma stay k k' :
  current k' = current k → thread_ticks k' = thread_ticks k → ready_list k' = ready_list k → moves 0 k k'.
Proof. intros Hc Ht Hr. apply (stay_app _ _ []); [done..|]. by rewrite app_nil_r. Qed.

(** ** Framing the parts *)
(** Kernel changes that touch neither threads nor queues. *)
Record quiet (k k' : kernel) : Prop := {
  q_threads : ∀ p, stat k' p = stat k p;
  q_magic : ∀ p th', threads k' !! p = Some th' → ∃ th, threads k !! p = Some th ∧ magic th' = magic th ∧ children th' = children th;
  q_ready : ready_list k' = ready_list k; q_current : current k' = current k;
  q_idle : idle_thread k' = idle_thread k; q_ext : in_external_intr k' = in_external_intr k;
  q_semas : ∀ s x', semas k' !! s = Some x' →
    (semas k !! s = None ∧ waiters x' = []) ∨ ∃ x, semas k !! s = Some x ∧ waiters x' = waiters x;
  q_semas' : ∀ s x, semas k !! s = Some x → ∃ x', semas k' !! s = Some x' ∧ waiters x' = waiters x }.

Lemma quiet_same k : quiet k k.
Proof. split; eauto. Qed.

Lemma sched_quiet k k' cd : quiet k k' → sched_ok k cd → sched_ok k' cd.
Proof.
  intros [Ht Hm Hr Hc Hi He Hs Hs'] [Gm Gi Grn Gr Gw Gwn Gb Gbu Gbq Gbn Grun Gc Ga Ge].
  split; rewrite ?Hr, ?Hi, ?Hc, ?He; try setoid_rewrite Ht; eauto.
  - intros p th' Hp. destruct (Hm p th' Hp) as (th & ? & -> & _). eauto.
  - intros s x p Hx Hp. destruct (Hs s x Hx) as [[_ E]|(x0 & E & Ew)]; [rewrite E in Hp; set_solver|].
    rewrite Ew in Hp. eauto.
  - intros s x Hx. destruct (Hs s x Hx) as [[_ E]|(x0 & E & Ew)]; [rewrite E; constructor|rewrite Ew; eauto].
  - intros p Hp. destruct (Gb p Hp) as [|[(s & x & E & Hw)|]]; eauto.
    destruct (Hs' s x E) as (x' & E' & Ew). right; left. exists s, x'. by rewrite Ew.
Qed.

(** New code for the running thread, building the same threads. *)
Lemma sched_code k cd t c c' :
  sched_ok k cd → cd !! t = Some c → stat k t ≠ Some THREAD_BLOCKED → builds c' = builds c →
  (idle_thread k = Some t → idle_code c') → sched_ok k (<[t:=c']> cd).
Proof.
  intros [? Hidle ? ? Hwait ? Hblk Hbld Huq Hnd ? Hcode Hal ?] Ht Hst Hb Hid.
  assert (Hget : ∀ q c0, <[t:=c']> cd !! q = Some c0 → ∃ c1, cd !! q = Some c1 ∧ builds c0 = builds c1).
  { intros q c0 [[<- <-]|[_ Hq]]%lookup_insert_Some; eauto. }
  assert (Hnone : ∀ q, cd !! q = None → <[t:=c']> cd !! q = None).
  { intros q Hq. rewrite lookup_insert_ne; [done|]. intros ->. congruence. }
  split; try done.
  - destruct Hidle as (i & ci & Hi & Hci & Hic). destruct (decide (t = i)) as [->|Hne].
    + exists i, c'. rewrite lookup_insert_eq. auto.
    + exists i, ci. by rewrite lookup_insert_ne.
  - intros s x p Hx Hp. destruct (Hwait s x p Hx Hp) as (H1 & H2 & old & c0 & H3). split_and!; [done..|].
    exists old, c0. rewrite lookup_insert_ne; [done|]. intros ->. congruence.
  - intros p Hp. destruct (Hblk p Hp) as [|[|(t0 & c0 & Hc0 & Hp0)]]; [auto..|right; right].
    destruct (decide (t = t0)) as [->|Hne].
    + exists t0, c'. rewrite lookup_insert_eq. simplify_eq. by rewrite Hb.
    + exists t0, c0. by rewrite lookup_insert_ne.
  - intros t0 c0 p Hc0 Hp. destruct (Hget _ _ Hc0) as (c1 & Hc1 & E). rewrite E in Hp.
    destruct (Hbld t0 c1 p Hc1 Hp). eauto.
  - intros t0 c0 t1 c1 p H0 H1 Hp0 Hp1. destruct (Hget _ _ H0) as (c2 & ? & E0), (Hget _ _ H1) as (c3 & ? & E1).
    rewrite E0 in Hp0. rewrite E1 in Hp1. eauto.
  - intros t0 c0 H0. destruct (Hget _ _ H0) as (c2 & ? & ->). eauto.
  - intros p [c0 Hc0]. destruct (Hget _ _ Hc0) as (c1 & Hc1 & _). eauto.
  - intros p st Hp Hst'. destruct (decide (t = p)) as [->|]; [rewrite lookup_insert_eq; eauto|].
    rewrite lookup_insert_ne by done. eauto.
Qed.

Lemma pending_insert cd t c l t' :
  pending (<[t:=c]> cd) l t' ↔ (t' = t ∧ pend l c) ∨ (t' ≠ t ∧ pending cd l t').
Proof.
  unfold pending. destruct (decide (t' = t)) as [->|Hne].
  - setoid_rewrite lookup_insert_eq. naive_solver.
  - setoid_rewrite lookup_insert_ne; [|done]. naive_solver.
Qed.

(** A lock whose semaphore, holder and pending threads stay as they are. *)
Lemma lock_frame k k' cd cd' hb hb' l h :
  (∀ x, semas k !! inr l = Some x → ∃ x', semas k' !! inr l = Some x' ∧ value x' = value x) →
  (∀ t, pending cd' l t ↔ pending cd l t) → (∀ t, l ∈ hb t → l ∈ hb' t) →
  lock_ok k cd hb l h → lock_ok k' cd' hb' l h.
Proof.
  intros Hs Hp Hh (x & Hx & Hc). destruct (Hs x Hx) as (x' & Hx' & Ev). exists x'. split; [done|].
  rewrite Ev. setoid_rewrite Hp. naive_solver.
Qed.

Lemma woken_frame k k' cd cd' s p :
  (stat k p = Some THREAD_READY ∨ stat k p = Some THREAD_RUNNING →
   stat k' p = Some THREAD_READY ∨ stat k' p = Some THREAD_RUNNING) →
  (∀ old c, cd !! p = Some (I_sema_down_loop s old :: c) → ∃ old c, cd' !! p = Some (I_sema_down_loop s old :: c)) →
  woken k cd s p → woken k' cd' s p.
Proof. unfold woken. naive_solver. Qed.

Lemma wake_frame k k' cd cd' :
  (∀ s x', semas k' !! s = Some x' →
     (0 <= value x')%Z ∧ (waiters x' = [] ∨
       ∃ x, semas k !! s = Some x ∧ waiters x = waiters x' ∧ (value x' <= value x)%Z)) →
  (∀ s p, woken k cd s p → woken k' cd' s p) → wake_ok k cd → wake_ok k' cd'.
Proof.
  intros Hs Hw Hok s x' Hx'. destruct (Hs s x' Hx') as [Hv Hx]. split; [done|]. intros Hne.
  destruct Hx as [|(x & Hx & Ew & Hle)]; [done|]. destruct (Hok s x Hx) as [_ H].
  destruct H as (W & Hnd & Hlen & HW); [congruence|]. exists W. split_and!; [done|lia|auto].
Qed.

(** ** Queueing the running thread *)
Section queue.
Context (k : kernel) (cd : gmap tptr (list instr)) (Hok : sched_ok k cd).
Context (t : tptr) (th : thread) (c : list instr).
Context (Hth : threads k !! t = Some th) (Hrun : status th = THREAD_RUNNING) (Hc : cd !! t = Some c).
Context (k2 : kernel) (c' : list instr) (Hb : builds c' = builds c).
Context (Hcur : current k2 = current k) (Hidle : idle_thread k2 = idle_thread k).
Context (Hext : in_external_intr k2 = in_external_intr k).

Lemma queue_stat st p :
  threads k2 = <[t := set_status st th]> (threads k) →
  stat k2 p = if decide (t = p) then Some st else stat k p.
Proof using.
  intros E. unfold stat. rewrite E. clear. destruct (decide (t = p)) as [->|];
    [by rewrite lookup_insert_eq|by rewrite lookup_insert_ne].
Qed.

Lemma stat_t : stat k t = Some THREAD_RUNNING.
Proof using Hth Hrun. apply stat_Some. eauto. Qed.

(** Parts of the invariant that do not depend on where [t] is queued. *)
Lemma queue_code q c0 : <[t:=c']> cd !! q = Some c0 → ∃ c1, cd !! q = Some c1 ∧ builds c0 = builds c1.
Proof using Hc Hb. intros [[<- <-]|[_ Hq]]%lookup_insert_Some; eauto. Qed.

Lemma queue_none q : cd !! q = None → <[t:=c']> cd !! q = None.
Proof using Hc. intros Hq. rewrite lookup_insert_ne; [done|]. congruence. Qed.

Lemma queue_some q : is_Some (cd !! q) → is_Some (<[t:=c']> cd !! q).
Proof using. clear. destruct (decide (t = q)) as [->|]; [rewrite lookup_insert_eq; eauto|by rewrite lookup_insert_ne]. Qed.

Lemma queue_build q c0 p : cd !! q = Some c0 → p ∈ builds c0 → ∃ c1, <[t:=c']> cd !! q = Some c1 ∧ p ∈ builds c1.
Proof using Hc Hb.
  intros Hq Hp. clear -Hc Hb Hq Hp. destruct (decide (t = q)) as [->|].
  - exists c'. rewrite lookup_insert_eq. simplify_eq. by rewrite Hb.
  - exists c0. by rewrite lookup_insert_ne.
Qed.

(** [t] becomes [st] (ready or blocked), is queued as [wait] and [ready] say. *)
Lemma sched_queue st :
  threads k2 = <[t := set_status st th]> (threads k) → st ≠ THREAD_RUNNING → st ≠ THREAD_DYING →
  NoDup (ready_list k2) →
  (∀ p, p ∈ ready_list k2 ↔ p ∈ ready_list k ∨ p = t ∧ st = THREAD_READY ∧ idle_thread k ≠ Some t) →
  (∀ s x', semas k2 !! s = Some x' → ∃ x, semas k !! s = Some x ∧ NoDup (waiters x') ∧
     ∀ p, p ∈ waiters x' ↔ p ∈ waiters x ∨ p = t ∧ st = THREAD_BLOCKED ∧ idle_thread k ≠ Some t ∧
            ∃ old rest, c' = I_sema_down_loop s old :: rest) →
  (∀ s x, semas k !! s = Some x → ∃ x', semas k2 !! s = Some x' ∧ ∀ p, p ∈ waiters x → p ∈ waiters x') →
  (st = THREAD_BLOCKED → idle_thread k = Some t ∨ ∃ s x', semas k2 !! s = Some x' ∧ t ∈ waiters x') →
  (idle_thread k = Some t → idle_code c') → sched_ok k2 (<[t:=c']> cd).
Proof using Hok Hth Hrun Hc Hb Hcur Hidle Hext.
  intros Et Hnr Hnd Hrn Hr Hw Hw' Hbl Hid.
  assert (Hst : ∀ p, stat k2 p = if decide (t = p) then Some st else stat k p) by (intros; by apply queue_stat).
  pose proof stat_t as Hstt. destruct Hok as [Gm Gi Grn Gr Gw Gwn Gb Gbu Gbq Gbn Grun Gc Ga Ge].
  split; rewrite ?Hidle, ?Hcur, ?Hext; try done.
  - intros p thp. rewrite Et. intros [[<- <-]|[_ Hp]]%lookup_insert_Some; [apply (Gm t th Hth)|eauto].
  - destruct Gi as (i & ci & Hi & Hci & Hic). destruct (decide (t = i)) as [->|].
    + exists i, c'. rewrite lookup_insert_eq. auto.
    + exists i, ci. by rewrite lookup_insert_ne.
  - intros p. rewrite Hr, Gr, Hst. destruct (decide (t = p)) as [<-|Hne]; [rewrite Hstt|]; naive_solver.
  - intros s x' p Hx' Hp. destruct (Hw s x' Hx') as (x & Hx & _ & Hiff). apply Hiff in Hp.
    rewrite Hst. destruct Hp as [Hp|(-> & -> & Hi & old & rest & ->)].
    + destruct (Gw s x p Hx Hp) as (E & Hi & old & c0 & Hc0). rewrite decide_False by congruence.
      split_and!; [done..|]. exists old, c0. by rewrite lookup_insert_ne by congruence.
    + rewrite decide_True by done. split_and!; [done..|]. exists old, rest. by rewrite lookup_insert_eq.
  - intros s x' Hx'. by destruct (Hw s x' Hx') as (x & _ & ? & _).
  - intros p. rewrite Hst. destruct (decide (t = p)) as [<-|Hne].
    + intros [= ->]. destruct (Hbl eq_refl) as [|(s & x' & ? & ?)]; [by left|right; left; eauto].
    + intros Hp. destruct (Gb p Hp) as [|[(s & x & Hx & Hpx)|(t0 & c0 & Hc0 & Hp0)]]; [auto| |].
      * destruct (Hw' s x Hx) as (x' & Hx' & Hin). right; left. exists s, x'. auto.
      * destruct (queue_build t0 c0 p Hc0 Hp0) as (c1 & ? & ?). right; right. exists t0, c1. auto.
  - intros t0 c0 p Hc0 Hp. destruct (queue_code _ _ Hc0) as (c1 & Hc1 & E). rewrite E in Hp.
    destruct (Gbu t0 c1 p Hc1 Hp) as [Hs Hn]. rewrite Hst, decide_False by congruence.
    split; [done|]. by apply queue_none.
  - intros t0 c0 t1 c1 p H0 H1 Hp0 Hp1. destruct (queue_code _ _ H0) as (c2 & ? & E0), (queue_code _ _ H1) as (c3 & ? & E1).
    rewrite E0 in Hp0. rewrite E1 in Hp1. eauto.
  - intros t0 c0 H0. destruct (queue_code _ _ H0) as (c2 & ? & ->). eauto.
  - intros p. rewrite Hst. destruct (decide (t = p)) as [<-|Hne]; [congruence|]. auto.
  - intros p [c0 Hc0]. rewrite Hst. destruct (decide (t = p)) as [<-|Hne]; [eauto|].
    rewrite lookup_insert_ne in Hc0 by done. eauto.
  - intros p st'. rewrite Hst. destruct (decide (t = p)) as [<-|Hne]; [rewrite lookup_insert_eq; eauto|].
    intros Hp Hs'. apply queue_some. eauto.
Qed.
End queue.

(** ** Waking the front of a wait queue *)
Section wake.
Context (k : kernel) (cd : gmap tptr (list instr)) (Hok : sched_ok k cd).

Lemma waiter_unique s x s' x' p :
  semas k !! s = Some x → p ∈ waiters x → semas k !! s' = Some x' → p ∈ waiters x' → s = s'.
Proof using Hok.
  intros Hx Hp Hx' Hp'. destruct (s_wait _ _ Hok s x p Hx Hp) as (_ & _ & o & c & Hc).
  destruct (s_wait _ _ Hok s' x' p Hx' Hp') as (_ & _ & o' & c' & Hc'). congruence.
Qed.

Context (k2 : kernel) (s : sref) (x : semaphore) (p : tptr) (ws : list tptr) (v : Z) (th : thread).
Context (Hx : semas k !! s = Some x) (Hw : waiters x = p :: ws) (Hth : threads k !! p = Some th).
Context (Et : threads k2 = <[p := set_status THREAD_READY th]> (threads k)).
Context (Er : ready_list k2 = ready_list k ++ [p]).
Context (Es : ∀ s', semas k2 !! s' = if decide (s' = s) then Some (mk_sema v ws) else semas k !! s').
Context (Ec : current k2 = current k) (Ei : idle_thread k2 = idle_thread k).
Context (Ee : in_external_intr k2 = in_external_intr k).

Lemma wake_stat q : stat k2 q = if decide (p = q) then Some THREAD_READY else stat k q.
Proof using Et.
  unfold stat. rewrite Et. clear. destruct (decide (p = q)) as [->|];
    [by rewrite lookup_insert_eq|by rewrite lookup_insert_ne].
Qed.

Lemma front_waits : stat k p = Some THREAD_BLOCKED ∧ idle_thread k ≠ Some p ∧
  ∃ old c, cd !! p = Some (I_sema_down_loop s old :: c).
Proof using Hok Hx Hw. apply (s_wait _ _ Hok s x p Hx). rewrite Hw. by left. Qed.

(** Every wait queue is a part of the old one without [p]. *)
Lemma wake_queue s' x' : semas k2 !! s' = Some x' →
  ∃ x0, semas k !! s' = Some x0 ∧ NoDup (waiters x') ∧ ∀ q, q ∈ waiters x' ↔ q ∈ waiters x0 ∧ q ≠ p.
Proof using Hok Hx Hw Es.
  rewrite Es. destruct (decide (s' = s)) as [->|Hne].
  - intros [= <-]. exists x. cbn [waiters]. pose proof (s_wait_nodup _ _ Hok s x Hx) as Hnd.
    rewrite Hw in Hnd |- *. apply NoDup_cons in Hnd as [Hp Hnd]. split_and!; [done..|].
    intros q. rewrite elem_of_cons. split; [|tauto]. intros Hq. split; [by right|]. by intros ->.
  - intros Hx'. exists x'. split_and!; [done|by apply (s_wait_nodup _ _ Hok s')|]. intros q. split; [|tauto].
    intros Hq. split; [done|]. intros ->. apply Hne, (waiter_unique s' x' s x p); [done..|]. rewrite Hw. by left.
Qed.

Lemma sched_wake : sched_ok k2 cd.
Proof using Hok Hx Hw Hth Et Er Es Ec Ei Ee.
  destruct front_waits as (Hpb & Hpi & old & c & Hpc).
  destruct Hok as [Gm Gi Grn Gr Gw Gwn Gb Gbu Gbq Gbn Grun Gc Ga Ge].
  split; rewrite ?Ei, ?Ec, ?Ee; try done.
  - intros q thq. rewrite Et. intros [[<- <-]|[_ Hq]]%lookup_insert_Some; [apply (Gm p th Hth)|eauto].
  - rewrite Er. apply NoDup_app. split_and!; [done| |apply NoDup_singleton].
    intros q Hq ->%list_elem_of_singleton. apply Gr in Hq as [? _]. congruence.
  - intros q. rewrite Er, elem_of_app, list_elem_of_singleton, Gr, wake_stat.
    destruct (decide (p = q)) as [<-|]; naive_solver.
  - intros s' x' q Hx' Hq. destruct (wake_queue s' x' Hx') as (x0 & Hx0 & _ & Hin).
    destruct (proj1 (Hin q) Hq) as [Hq' Hne]. rewrite wake_stat, decide_False by done. eauto.
  - intros s' x' Hx'. by destruct (wake_queue s' x' Hx') as (x0 & _ & ? & _).
  - intros q. rewrite wake_stat. destruct (decide (p = q)) as [<-|Hne]; [done|]. intros Hq.
    destruct (Gb q Hq) as [|[(s' & x0 & Hx0 & Hqx)|]]; [auto| |auto]. right; left.
    destruct (semas k2 !! s') as [x'|] eqn:Hx'.
    + exists s', x'. split; [done|]. destruct (wake_queue s' x' Hx') as (x1 & Hx1 & _ & Hin).
      apply Hin. split; congruence.
    + rewrite Es in Hx'. destruct (decide _); congruence.
  - intros t c0 q Hc0 Hq. destruct (Gbu t c0 q Hc0 Hq) as [Hs Hn]. rewrite wake_stat, decide_False by congruence. done.
  - intros q. rewrite wake_stat. destruct (decide (p = q)) as [<-|]; [done|auto].
  - intros q Hq. rewrite wake_stat. destruct (decide (p = q)) as [<-|]; [by eexists|auto].
  - intros q st. rewrite wake_stat. destruct (decide (p = q)) as [<-|]; [eauto|apply Ga].
Qed.
End wake.
