(* ===== verification/SchedSpec.v ===== *)
(** Every step of a machine keeps the invariant and none of them faults. *)
From S2P Require Import Prelude Thread Synch Sched SchedInv.

Lemma on_kern_bind {A B} (f : cmd kernel A) (g : A → cmd machine B) m a k :
  f (kern m) = Ret (a, k) → (on_kern f ≫= g) m = g a (mk_machine k (code m) (held m)).
Proof. intros E. unfold mbind, cmd_bind, on_kern. by rewrite E. Qed.

Lemma set_code_run t c m : set_code t c m = Ret (tt, mk_machine (kern m) (<[t:=c]> (code m)) (held m)).
Proof. done. Qed.

Lemma set_code_bind {A} (f : unit → cmd machine A) t c m :
  (set_code t c ≫= f) m = f tt (mk_machine (kern m) (<[t:=c]> (code m)) (held m)).
Proof. done. Qed.

(** The step succeeded, moved the run queue as it should, and the invariant
    holds again. *)
Definition good (d : Z) (m : machine) (r : res (unit * machine)) : Prop :=
  ∃ m', r = Ret (tt, m') ∧ moves d (kern m) (kern m') ∧ minv m'.

Lemma not_loop_insert (cd : gmap tptr (list instr)) t c s old c0 :
  not_loop c → <[t:=c]> cd !! t ≠ Some (I_sema_down_loop s old :: c0).
Proof. intros H. rewrite lookup_insert_eq. intros [= E]. by apply (H s old c0). Qed.

(** ** Steps that end in a switch: everything but the scheduling order is
    established before [schedule] runs *)
Lemma switch_minv k2 cd hd th :
  sched_ok k2 cd → threads k2 !! current k2 = Some th → status th ≠ THREAD_RUNNING → intr_on k2 = false →
  (∀ t c, cd !! t = Some c → idle_thread k2 ≠ Some t → wfc k2 (default ∅ (hd !! t)) c) →
  (∀ l h, holders k2 !! l = Some h → lock_ok k2 cd (λ t, default ∅ (hd !! t)) l h) →
  (∀ t l, l ∈ (default ∅ (hd !! t) : gset positive) → holders k2 !! l = Some (Some t) ∧ is_Some (cd !! t)) →
  wake_ok k2 cd →
  (∀ c ws w, conds k2 !! c = Some ws → w ∈ ws → sema_in k2 w) →
  (∀ p th w ws, threads k2 !! p = Some th → children th = w :: ws → is_Some (waits k2 !! w)) →
  lock_in k2 tid_lock →
  ∃ k', schedule k2 = Ret (tt, k') ∧ thread_ticks k' = 0%Z ∧ in_external_intr k' = false ∧
    (ready_list k2 = [] ∧ ready_list k' = [] ∨ ready_list k2 = current k' :: ready_list k') ∧
    minv (mk_machine k' cd hd).
Proof.
  intros Hok Hcur Hs Hi Hwf Hlk Hh Hwk Hcd Hch Htid.
  destruct (switch_ok k2 cd Hok th Hcur Hs Hi)
    as (k' & n & Hrun & Hok' & Hn & Hrn & Hobj & Hi' & Hkeep & Hcn & _ & Htk & Hrl).
  assert (Hg : objects_grow k2 k').
  { destruct Hobj. unfold objects_grow, lock_in, cond_in, sema_in. rewrite o_holders, o_conds, o_semas. auto. }
  exists k'. split_and!; [done..|by apply (s_ext _ _ Hok')|by rewrite Hn|]. destruct Hobj as [Os Oh Oc Ow Oi Och].
  split; cbn [kern code]; unfold held_by; cbn [held].
  - done.
  - by rewrite Hn.
  - done.
  - intros t c Hc. rewrite Oi. intros Hni. eapply wfc_mono; [done|]. eauto.
  - intros l h. rewrite Oh. intros Hl. eapply lock_frame; [| | |by apply Hlk].
    + intros x. rewrite Os. eauto.
    + done.
    + done.
  - intros t l. rewrite Oh. eauto.
  - eapply wake_frame; [| |done].
    + intros s x'. rewrite Os. intros Hx. destruct (Hwk s x' Hx) as [? _]. split; [done|]. right. exists x'. auto with lia.
    + intros s p Hw. pose proof Hw as (_ & old & c & Hc). revert Hw. apply woken_frame; [|eauto].
      intros Hst. destruct (decide (p = n)) as [->|]; [auto|]. by rewrite Hkeep by eauto.
  - unfold sema_in. rewrite Os, Oc. eauto.
  - intros p th' w ws Hp Hc. destruct (Och p th' Hp) as (th0 & Hp0 & E). rewrite Ow. rewrite E in Hc. eauto.
  - destruct Hg as (Hgl & _). by apply Hgl.
  - rewrite Htk. done.
Qed.

Section spec.
Context (dir_reopen : positive → option positive) (palloc_get_page : kernel → option tptr).
Context (m : machine) (Hm : minv m).
Abbreviation k := (kern m).
Abbreviation t := (current (kern m)).
Abbreviation H := (held_by m (current (kern m))).

Lemma cur_thread : ∃ th, threads k !! t = Some th ∧ magic th = THREAD_MAGIC ∧ status th = THREAD_RUNNING.
Proof using Hm.
  destruct (proj1 (stat_Some _ _ _) (i_run _ Hm)) as (th & E & Es). exists th.
  split_and!; [done|by eapply (s_magic _ _ (i_sched _ Hm))|done].
Qed.

Lemma current_bind {A} (f : tptr → cmd kernel A) : (thread_current ≫= f) k = f t k.
Proof using Hm. destruct cur_thread as (th & ? & ? & ?). by apply (thread_current_bind f k th). Qed.

Lemma current_run : thread_current k = Ret (t, k).
Proof using Hm.
  pose proof (current_bind (λ a, mret a)) as E. unfold mbind, cmd_bind in E.
  by destruct (thread_current k) as [[a k0]|e].
Qed.

Lemma cur_not_blocked : stat k t ≠ Some THREAD_BLOCKED.
Proof using Hm. rewrite (i_run _ Hm). done. Qed.

Lemma cur_not_linked s x : semas k !! s = Some x → t ∉ waiters x.
Proof using Hm.
  intros Hx Ht. destruct (s_wait _ _ (i_sched _ Hm) s x t Hx Ht) as [E _]. by apply cur_not_blocked.
Qed.

Lemma cur_not_ready : t ∉ ready_list k.
Proof using Hm.
  intros Ht. apply (s_ready _ _ (i_sched _ Hm)) in Ht as [E _]. rewrite (i_run _ Hm) in E. done.
Qed.

(** The idle thread runs idle code only. *)
Lemma idle_is c : idle_thread k = Some t → code m !! t = Some c → idle_code c.
Proof using Hm.
  intros Hi Hc. destruct (s_idle _ _ (i_sched _ Hm)) as (i & c' & Hi' & Hc' & ?). congruence.
Qed.

Lemma not_idle i c : code m !! t = Some (i :: c) → i ≠ I_idle_block → (∀ b, i ≠ I_intr_set b) → idle_thread k ≠ Some t.
Proof using Hm.
  intros Hc H1 H2 Hi. pose proof (idle_is _ Hi Hc) as E. inversion E; subst; [done|by eapply H2].
Qed.

(** ** Steps of the running thread that do not switch *)
(** In general: the thread goes on with [c'] and the locks [H'], and threads
    may have been started. *)
Section local.
Context (k' : kernel) (cd' : gmap tptr (list instr)) (c' : list instr).
Context (hd : gmap tptr (gset positive)) (H' : gset positive).
Context (Hg : objects_grow k k') (Hnl : not_loop c') (Hwf : idle_thread k ≠ Some t → wfc k' H' c').
Context (Hhd : ∀ t', default ∅ (hd !! t') = if decide (t' = t) then H' else held_by m t').

Lemma local_core :
  sched_ok k' cd' → idle_thread k' = idle_thread k → current k' = t → stat k' t = Some THREAD_RUNNING → thread_ticks k' = thread_ticks k →
  cd' !! t = Some c' →
  (∀ t' c0, t' ≠ t → cd' !! t' = Some c0 → code m !! t' = Some c0 ∨ c0 = [I_intr_set true]) →
  (∀ t', is_Some (code m !! t') → is_Some (cd' !! t')) →
  (∀ l, l ∈ H' → holders k' !! l = Some (Some t)) →
  (∀ l t', t' ≠ t → l ∈ held_by m t' → holders k' !! l = holders k !! l) →
  (∀ l h, holders k' !! l = Some h → lock_ok k' cd' (λ t', if decide (t' = t) then H' else held_by m t') l h) →
  wake_ok k' cd' →
  (∀ cv ws w, conds k' !! cv = Some ws → w ∈ ws → sema_in k' w) →
  (∀ p th w ws, threads k' !! p = Some th → children th = w :: ws → is_Some (waits k' !! w)) →
  minv (mk_machine k' cd' hd).
Proof using Hm Hg Hnl Hwf Hhd.
  intros Hok Hidt Hcur Hrun Htk Hct Hoth Hsome HH HO HL HW HC Hwt. destruct Hm as [Hs Hr Hi Hw Hlk Hh Hwk Hcd Hch Htid Hti].
  assert (Hhb : ∀ t', held_by (mk_machine k' cd' hd) t' = if decide (t' = t) then H' else held_by m t')
    by apply Hhd.
  split; cbn [kern code]; [done|by rewrite Hcur| | | | |done..| |by rewrite Htk].
  - intros s old c0. rewrite Hcur, Hct. intros [= E]. by destruct (Hnl s old c0).
  - intros t' c0 Hc0 Hni. rewrite Hidt in Hni. rewrite Hhb. destruct (decide (t' = t)) as [->|Hne].
    + rewrite Hct in Hc0; simplify_eq; auto.
    + destruct (Hoth t' c0 Hne Hc0) as [Hc1| ->]; [|by split].
      eapply wfc_mono; [done|]. by apply Hw.
  - intros l h Hl. specialize (HL l h Hl). destruct HL as (x & Hx & HL). exists x. split; [done|].
    setoid_rewrite Hhb. done.
  - intros t' l. rewrite Hhb. destruct (decide (t' = t)) as [->|Hne].
    + intros Hl. rewrite Hct. eauto.
    + intros Hl. destruct (Hh t' l Hl) as [E1 E2]. rewrite (HO l t') by done. eauto.
  - destruct Hg as (Hgl & _). by apply Hgl.
Qed.

End local.

Lemma insert_others c' t' c0 : t' ≠ t → <[t:=c']> (code m) !! t' = Some c0 → code m !! t' = Some c0 ∨ c0 = [I_intr_set true].
Proof using. intros Hne Hc0. rewrite lookup_insert_ne in Hc0 by done. auto. Qed.

Lemma insert_some c' t' : is_Some (code m !! t') → is_Some (<[t:=c']> (code m) !! t').
Proof using.
  clear. destruct (decide (t = t')) as [<-|]; [rewrite lookup_insert_eq; eauto|by rewrite lookup_insert_ne].
Qed.

(** The kernel change is quiet. *)
Section quietly.
Context (k' : kernel) (c c' : list instr) (hd : gmap tptr (gset positive)) (H' : gset positive).
Context (Hc : code m !! t = Some c) (Hq : quiet k k') (Hg : objects_grow k k').
Context (Hb : builds c' = builds c) (Hid : idle_thread k = Some t → idle_code c').
Context (Hnl : not_loop c') (Hwf : idle_thread k ≠ Some t → wfc k' H' c').
Context (Hhd : ∀ t', default ∅ (hd !! t') = if decide (t' = t) then H' else held_by m t').

Lemma local_ok :
  thread_ticks k' = thread_ticks k →
  (∀ l, l ∈ H' → holders k' !! l = Some (Some t)) →
  (∀ l t', t' ≠ t → l ∈ held_by m t' → holders k' !! l = holders k !! l) →
  (∀ l h, holders k' !! l = Some h →
     lock_ok k' (<[t:=c']> (code m)) (λ t', if decide (t' = t) then H' else held_by m t') l h) →
  wake_ok k' (<[t:=c']> (code m)) →
  (∀ cv ws w, conds k' !! cv = Some ws → w ∈ ws → sema_in k' w) →
  (∀ w, is_Some (waits k !! w) → is_Some (waits k' !! w)) →
  minv (mk_machine k' (<[t:=c']> (code m)) hd).
Proof using Hm Hc Hq Hg Hb Hid Hnl Hwf Hhd.
  intros Htk HH HO HL HW HC Hwt. destruct Hm as [Hs Hr Hi Hw Hlk Hh Hwk Hcd Hch Htid Hti].
  apply (local_core k' _ c' hd H'); try done.
  - eapply sched_code; [by eapply sched_quiet|done| |done|].
    + rewrite (q_threads _ _ Hq), Hr. done.
    + by rewrite (q_idle _ _ Hq).
  - apply (q_idle _ _ Hq).
  - apply (q_current _ _ Hq).
  - by rewrite (q_threads _ _ Hq).
  - apply lookup_insert_eq.
  - apply insert_others.
  - apply insert_some.
  - intros p th w ws Hp Hchd. destruct (q_magic _ _ Hq p th Hp) as (th0 & Hp0 & _ & E).
    rewrite E in Hchd. eauto.
Qed.
End quietly.

(** The same when no lock is involved. *)
Lemma plain_ok k' c c' :
  code m !! t = Some c → quiet k k' → objects_grow k k' → builds c' = builds c →
  (idle_thread k = Some t → idle_code c') → not_loop c' → (idle_thread k ≠ Some t → wfc k' H c') → thread_ticks k' = thread_ticks k →
  holders k' = holders k → (∀ l, semas k' !! inr l = semas k !! inr l) →
  (∀ l, pend l c' ↔ pend l c) → wake_ok k' (<[t:=c']> (code m)) →
  (∀ cv ws w, conds k' !! cv = Some ws → w ∈ ws → sema_in k' w) →
  (∀ w, is_Some (waits k !! w) → is_Some (waits k' !! w)) →
  minv (mk_machine k' (<[t:=c']> (code m)) (held m)).
Proof using Hm.
  intros Hc Hq Hg Hb Hid Hnl Hwf Htk Hho Hse Hpe HW HC Hwt.
  apply (local_ok k' c c' (held m) H); try done.
  - intros t'. fold (held_by m t'). by destruct (decide (t' = t)) as [->|].
  - intros l Hl. rewrite Hho. by apply (i_held _ Hm).
  - intros l t' _ _. by rewrite Hho.
  - intros l h Hl. rewrite Hho in Hl. eapply lock_frame; [| | |by apply (i_locks _ Hm)].
    + intros x Hx. exists x. by rewrite Hse.
    + intros t'. rewrite pending_insert. unfold pending. split.
      * intros [[-> Hp]|[_ Hp]]; [exists c; by rewrite <- Hpe|done].
      * intros (c0 & Hc0 & Hp). destruct (decide (t' = t)) as [->|]; [left|right]; [|by eauto].
        split; [done|]. simplify_eq. by apply Hpe.
    + intros t' Hl'. by destruct (decide (t' = t)) as [->|].
Qed.

(** Wake-ups when only the code of the running thread changes. *)
Lemma wake_code k' c c' :
  code m !! t = Some c → not_loop c → (∀ p, stat k' p = stat k p) →
  (∀ s x', semas k' !! s = Some x' →
     (0 <= value x')%Z ∧ (waiters x' = [] ∨
       ∃ x, semas k !! s = Some x ∧ waiters x = waiters x' ∧ (value x' <= value x)%Z)) →
  wake_ok k' (<[t:=c']> (code m)).
Proof using Hm.
  intros Hc Hnl Hst Hs. eapply wake_frame; [done| |by apply (i_wake _ Hm)].
  intros s p. apply woken_frame; [by rewrite Hst|]. intros old c0 Hp.
  rewrite lookup_insert_ne; [eauto|]. intros <-. rewrite Hc in Hp. simplify_eq. by apply (Hnl s old c0).
Qed.

Lemma wake_same s x' : semas k !! s = Some x' →
  (0 <= value x')%Z ∧ (waiters x' = [] ∨ ∃ x, semas k !! s = Some x ∧ waiters x = waiters x' ∧ (value x' <= value x)%Z).
Proof using Hm. intros Hx. destruct (i_wake _ Hm s x' Hx) as [? _]. eauto 10 with lia. Qed.

Lemma grow_refl k0 : objects_grow k0 k0.
Proof using. split_and!; auto. Qed.

(** A step that only changes the code of the running thread. *)
Lemma code_ok c c' :
  code m !! t = Some c → not_loop c → builds c' = builds c → (idle_thread k = Some t → idle_code c') →
  not_loop c' → (idle_thread k ≠ Some t → wfc k H c') → (∀ l, pend l c' ↔ pend l c) →
  minv (mk_machine k (<[t:=c']> (code m)) (held m)).
Proof using Hm.
  intros. apply (plain_ok k c c'); auto using quiet_same, grow_refl.
  - eapply wake_code; [done..|apply wake_same].
  - by apply (i_conds _ Hm).
Qed.

(** ** One instruction at a time *)
Abbreviation run := (exec dir_reopen palloc_get_page t).

Lemma code_wf i c :
  code m !! t = Some (i :: c) → i ≠ I_idle_block → (∀ b, i ≠ I_intr_set b) → wfc k H (i :: c).
Proof using Hm. intros Hc H1 H2. apply (i_wf _ Hm); [done|]. by eapply not_idle. Qed.

Lemma quiet_intr on y : quiet k (with_intr on (in_external_intr k) y k).
Proof using. split; eauto. Qed.

Lemma intr_set_run k0 level :
  in_external_intr k0 = false →
  intr_set_level level k0 = Ret (intr_on k0, with_intr level (in_external_intr k0) (yield_on_return k0) k0).
Proof using.
  intros He. destruct level; simpl; [|done]. unfold intr_enable, intr_get_level, intr_context.
  rewrite !gets_bind, ASSERT_bind by by rewrite He. done.
Qed.

Lemma exec_intr_set level c : code m !! t = Some (I_intr_set level :: c) → good 0 m (run (I_intr_set level) c m).
Proof using Hm.
  intros Hc.
  assert (Hwf : not_loop c ∧ (idle_thread k ≠ Some t → wfc k H c) ∧ (idle_thread k = Some t → idle_code c)).
  { destruct (decide (idle_thread k = Some t)) as [Hi|Hi].
    - pose proof (idle_is _ Hi Hc) as E. inversion E as [|c0 E']; subst. split_and!; [by inversion E'|done|done].
    - destruct (i_wf _ Hm _ _ Hc Hi) as [? ?]. by split_and!. }
  destruct Hwf as (Hnl & Hwf & Hid). unfold exec. pose proof (s_ext _ _ (i_sched _ Hm)) as He.
  rewrite (on_kern_bind _ _ _ _ _ (intr_set_run k level He)).
  eexists. split_and!; [apply set_code_run|by apply stay|]. cbn [kern code held].
  apply (plain_ok (with_intr level (in_external_intr k) (yield_on_return k) k) (I_intr_set level :: c)); try done.
  - apply quiet_intr.
  - intros Hni. eapply wfc_mono; [|by apply Hwf]. by split_and!.
  - eapply wake_code; [done|done|done|]. apply wake_same.
  - apply (i_conds _ Hm).
Qed.

Lemma lock_held_run l h :
  holders k !! l = Some h → lock_held_by_current_thread l k = Ret (bool_decide (h = Some t), k).
Proof using Hm. intros E. unfold lock_held_by_current_thread. rewrite gets_bind, current_bind, E. done. Qed.

(** The holder of a lock has it among its locks. *)
Lemma holder_held l t' : holders k !! l = Some (Some t') → l ∈ held_by m t'.
Proof using Hm.
  intros Hl. destruct (i_locks _ Hm _ _ Hl) as (x & _ & [(E & _)|[(t0 & [= ->] & _ & ? & _)|(t0 & E & _)]]); done.
Qed.

Lemma exec_assert_held l c : code m !! t = Some (I_assert_held l :: c) → good 0 m (run (I_assert_held l) c m).
Proof using Hm.
  intros Hc. pose proof (code_wf _ _ Hc ltac:(done) ltac:(done)) as [Hl Hwf]. unfold exec.
  destruct (i_held _ Hm _ _ Hl) as [Hh _].
  rewrite (on_kern_bind _ _ _ _ _ (lock_held_run l _ Hh)), bool_decide_true by done.
  rewrite ASSERT_bind by done. eexists. split_and!; [apply set_code_run|by apply stay|]. cbn [kern code held].
  apply (code_ok (I_assert_held l :: c)); try done.
  - intros Hi. by destruct (not_idle _ _ Hc ltac:(done) ltac:(done)).
  - by eapply wf_not_loop.
  - intros _. by apply wf_wfc.
  - intros l'. split; [|done]. intros Hp. by apply (wf_not_pend _ _ _ _ Hwf) in Hp.
Qed.

Lemma exec_assert_not_held l c :
  code m !! t = Some (I_assert_not_held l :: c) → good 0 m (run (I_assert_not_held l) c m).
Proof using Hm.
  intros Hc. pose proof (code_wf _ _ Hc ltac:(done) ltac:(done)) as ([h Hh] & Hl & Hwf). unfold exec.
  rewrite (on_kern_bind _ _ _ _ _ (lock_held_run l _ Hh)).
  rewrite bool_decide_false by (intros ->; by apply Hl, holder_held).
  rewrite ASSERT_bind by done. eexists. split_and!; [apply set_code_run|by apply stay|]. cbn [kern code held].
  apply (code_ok (I_assert_not_held l :: c)); try done.
  - intros Hi. by destruct (not_idle _ _ Hc ltac:(done) ltac:(done)).
  - by eapply wf_not_loop.
  - intros _. by apply wf_wfc.
  - intros l'. split; [|done]. intros Hp. by apply (wf_not_pend _ _ _ _ Hwf) in Hp.
Qed.

(** A thread inside a hand-over of [l] is the only one. *)
Lemma lock_pending l h c :
  holders k !! l = Some h → code m !! t = Some c → pend l c →
  h = None ∧ (∃ x, semas k !! inr l = Some x ∧ value x = 0%Z) ∧ ∀ t', pending (code m) l t' → t' = t.
Proof using Hm.
  intros Hh Hc Hp. assert (Ht : pending (code m) l t) by (exists c; done).
  destruct (i_locks _ Hm _ _ Hh) as (x & Hx & [(_ & _ & Hn)|[(t0 & _ & _ & _ & Hn)|(t0 & -> & Hv & _ & Hu)]]).
  - by destruct (Hn t).
  - by destruct (Hn t).
  - split_and!; [done|eauto|]. intros t' Ht'. by rewrite (Hu t' Ht'), (Hu t Ht).
Qed.

(** Other locks are not affected by a change of the code of the thread that
    is not pending on them before or after. *)
Lemma other_lock k' c c' H' l' h :
  code m !! t = Some c → holders k !! l' = Some h →
  semas k' !! inr l' = semas k !! inr l' → (pend l' c' ↔ pend l' c) → (l' ∈ H → l' ∈ H') →
  lock_ok k' (<[t:=c']> (code m)) (λ t', if decide (t' = t) then H' else held_by m t') l' h.
Proof using Hm.
  intros Hc Hh Hs Hp Hin. eapply lock_frame; [| | |by apply (i_locks _ Hm)].
  - intros x Hx. exists x. by rewrite Hs.
  - intros t'. rewrite pending_insert. unfold pending. split.
    + intros [[-> Hp']|[_ Hp']]; [exists c; by rewrite <- Hp|done].
    + intros (c0 & Hc0 & Hp'). destruct (decide (t' = t)) as [->|]; [left|right]; [|by eauto].
      split; [done|]. simplify_eq. by apply Hp.
  - intros t' Hl'. destruct (decide (t' = t)) as [->|]; auto.
Qed.

Lemma held_upd f t' :
  default ∅ (<[t:=f H]> (held m) !! t') = if decide (t' = t) then f H else held_by m t'.
Proof using.
  destruct (decide (t' = t)) as [->|Hne]; [by rewrite lookup_insert_eq|by rewrite lookup_insert_ne].
Qed.

Lemma quiet_holder l h : quiet k (with_holder l h k).
Proof using. split; eauto. Qed.

Lemma grow_holder l h : objects_grow k (with_holder l h k).
Proof using.
  split_and!; auto. intros l' Hl'. unfold lock_in. cbn. destruct (decide (l = l')) as [->|];
    [rewrite lookup_insert_eq; eauto|by rewrite lookup_insert_ne].
Qed.

Lemma exec_set_holder l c : code m !! t = Some (I_set_holder l :: c) → good 0 m (run (I_set_holder l) c m).
Proof using Hm.
  intros Hc. pose proof (code_wf _ _ Hc ltac:(done) ltac:(done)) as ([h Hh] & Hl & Hwf). unfold exec.
  destruct (lock_pending l h _ Hh Hc eq_refl) as (-> & (x & Hx & Hv) & Hu).
  rewrite (on_kern_bind _ _ _ _ _ current_run).
  rewrite (on_kern_bind _ _ _ tt (with_holder l (Some t) k)) by done.
  eexists. split_and!; [done|by apply stay|]. cbn [kern code held held_by].
  apply (local_ok (with_holder l (Some t) k) (I_set_holder l :: c) c _ ({[l]} ∪ H)); try done.
  - apply quiet_holder.
  - apply grow_holder.
  - intros Hi. by destruct (not_idle _ _ Hc ltac:(done) ltac:(done)).
  - by eapply wf_not_loop.
  - intros _. apply wf_wfc. eapply wf_mono; [apply grow_holder|done].
  - apply (held_upd (λ H, {[l]} ∪ H)).
  - intros l' [->%elem_of_singleton|Hl']%elem_of_union; cbn; [by rewrite lookup_insert_eq|].
    rewrite lookup_insert_ne by (intros ->; done). by apply (i_held _ Hm).
  - intros l' t' Hne Hl'. cbn. rewrite lookup_insert_ne; [done|]. intros <-.
    destruct (i_held _ Hm _ _ Hl') as [E _]. congruence.
  - intros l' h' Hl'. cbn in Hl'. apply lookup_insert_Some in Hl' as [[<- <-]|[Hne Hl']].
    + exists x. split; [done|]. right; left. exists t. split_and!; [done..| |].
      * rewrite decide_True by done. set_solver.
      * intros t'. rewrite pending_insert. intros [[-> Hp]|[Hne Hp]].
        -- by apply (wf_not_pend _ _ _ _ Hwf) in Hp.
        -- by apply Hne, Hu.
    + apply (other_lock _ (I_set_holder l :: c)); try done; [|set_solver].
      split; [intros Hp; by apply (wf_not_pend _ _ _ _ Hwf) in Hp|simpl; congruence].
  - eapply wake_code; [done|done|done|]. apply wake_same.
  - apply (i_conds _ Hm).
Qed.

Lemma exec_clear_holder l c : code m !! t = Some (I_clear_holder l :: c) → good 0 m (run (I_clear_holder l) c m).
Proof using Hm.
  intros Hc. pose proof (code_wf _ _ Hc ltac:(done) ltac:(done)) as Hwf. cbn [wfc wf] in Hwf.
  destruct c as [|[lv|s|s o|[s|l0]|l0|l0|l0|l0|l0|cv l0|cv|cv l0| |nm p|p|p n'| |] c]; try done.
  destruct Hwf as (-> & Hl & Hwf). unfold exec.
  destruct (i_held _ Hm _ _ Hl) as [Hh _].
  destruct (i_locks _ Hm _ _ Hh) as (x & Hx & [(? & _)|[(t0 & [= <-] & Hv & _ & Hn)|(t0 & ? & _)]]); [done| |done].
  rewrite (on_kern_bind _ _ _ tt (with_holder l None k)) by done.
  eexists. split_and!; [done|by apply stay|]. cbn [kern code held held_by].
  apply (local_ok (with_holder l None k) (I_clear_holder l :: I_sema_up (inr l) :: c) _ _ (H ∖ {[l]})); try done.
  - apply quiet_holder.
  - apply grow_holder.
  - intros Hi. by destruct (not_idle _ _ Hc ltac:(done) ltac:(done)).
  - intros _. cbn [wfc]. split_and!; [unfold lock_in; cbn; rewrite lookup_insert_eq; eauto|set_solver|].
    eapply wf_mono; [apply grow_holder|done].
  - apply (held_upd (λ H, H ∖ {[l]})).
  - intros l' [Hl' Hne%not_elem_of_singleton]%elem_of_difference. cbn.
    rewrite lookup_insert_ne by done. by apply (i_held _ Hm).
  - intros l' t' Hne Hl'. cbn. rewrite lookup_insert_ne; [done|]. intros <-.
    destruct (i_held _ Hm _ _ Hl') as [E _]. congruence.
  - intros l' h' Hl'. cbn in Hl'. apply lookup_insert_Some in Hl' as [[<- <-]|[Hne Hl']].
    + exists x. split; [done|]. right; right. exists t. split_and!; [done..| |].
      * exists (I_sema_up (inr l) :: c). by rewrite lookup_insert_eq.
      * intros t'. rewrite pending_insert. intros [[-> _]|[_ Hp]]; [done|]. by destruct (Hn t').
    + apply (other_lock _ (I_clear_holder l :: I_sema_up (inr l) :: c)); [done..| |set_solver].
      simpl. split; [congruence|done].
  - eapply wake_code; [done|done|done|]. apply wake_same.
  - apply (i_conds _ Hm).
Qed.

(** *** Semaphores *)
(** The kernel with the value of semaphore [s] changed and interrupts set. *)
Definition set_value (s : sref) (x : semaphore) (v : Z) (on : bool) : kernel :=
  with_intr on (in_external_intr k) (yield_on_return k) (with_semas (<[s := mk_sema v (waiters x)]>) k).

Lemma set_value_lookup s x v on s' :
  semas (set_value s x v on) !! s' = if decide (s' = s) then Some (mk_sema v (waiters x)) else semas k !! s'.
Proof using.
  cbn. destruct (decide (s' = s)) as [->|]; [by rewrite lookup_insert_eq|by rewrite lookup_insert_ne].
Qed.

Lemma quiet_value s x v on : semas k !! s = Some x → quiet k (set_value s x v on).
Proof using.
  intros Hx. split; eauto.
  - intros s' x'. rewrite set_value_lookup. destruct (decide (s' = s)) as [->|]; [|eauto].
    intros [= <-]. eauto.
  - intros s' x' Hx'. rewrite set_value_lookup. destruct (decide (s' = s)) as [->|]; [|eauto].
    simplify_eq. eauto.
Qed.

Lemma grow_value s x v on : semas k !! s = Some x → objects_grow k (set_value s x v on).
Proof using.
  intros Hx. split_and!; auto. intros s' Hs'. unfold sema_in. rewrite set_value_lookup.
  destruct (decide _); [eauto|done].
Qed.

(** Taking a positive value: the thread goes on with [c'], which for the
    semaphore of a lock records the holder next. *)
Lemma take_ok s x c c' on :
  code m !! t = Some c → semas k !! s = Some x → (0 < value x)%Z → idle_thread k ≠ Some t →
  builds c' = builds c → not_loop c' → wfc (set_value s x (value x - 1) on) H c' →
  (∀ s' o c0, c = I_sema_down_loop s' o :: c0 → s' = s) →
  (∀ l, pend l c' ↔ s = inr l) → (∀ l, ¬ pend l c) → (∀ l, s = inr l → lock_in k l) →
  minv (mk_machine (set_value s x (value x - 1) on) (<[t:=c']> (code m)) (held m)).
Proof using Hm.
  intros Hc Hx Hv Hni Hb Hnl Hwf Hlp Hp' Hp Hlk.
  apply (local_ok (set_value s x (value x - 1) on) c c' (held m) H); try done.
  - by apply quiet_value.
  - by apply grow_value.
  - intros t'. fold (held_by m t'). by destruct (decide (t' = t)) as [->|].
  - apply (i_held _ Hm).
  - intros l h Hl. destruct (decide (s = inr l)) as [->|Hne].
    + destruct (i_locks _ Hm _ _ Hl) as (x0 & Hx0 & Hcs). rewrite Hx in Hx0. simplify_eq.
      exists (mk_sema (value x0 - 1) (waiters x0)). rewrite set_value_lookup, decide_True by done. split; [done|].
      destruct Hcs as [(-> & Hv1 & Hn)|[(t0 & _ & Hv0 & _)|(t0 & _ & Hv0 & _)]]; [|lia..].
      right; right. exists t. cbn [value]. split_and!; [done|lia| |].
      * exists c'. rewrite lookup_insert_eq. split; [done|]. by apply Hp'.
      * intros t'. rewrite pending_insert. intros [[-> _]|[_ Hpd]]; [done|]. by destruct (Hn t').
    + apply (other_lock _ c); [done|done| | |done].
      * rewrite set_value_lookup, decide_False by congruence. done.
      * rewrite Hp'. split; [done|]. intros Hf. by destruct (Hp l).
  - intros s' x'. rewrite set_value_lookup. destruct (decide (s' = s)) as [->|Hne].
    + intros [= <-]. cbn [value waiters]. split; [lia|]. intros Hw.
      destruct (i_wake _ Hm _ _ Hx) as [_ Hen]. destruct (Hen Hw) as (W & Hnd & Hlen & HW).
      exists (filter (λ p, p ≠ t) W). split_and!; [by apply NoDup_filter| |].
      * assert (length W <= S (length (filter (λ p, p ≠ t) W)))%nat; [|cbn [value]; lia].
        clear -Hnd. induction W as [|p W IH]; [simpl; lia|]. apply NoDup_cons in Hnd as [Hp Hnd].
        destruct (decide (p = t)) as [->|Hpt].
        -- rewrite filter_cons_False by (intros Hf; by apply Hf). rewrite filter_all; [simpl; lia|].
           intros q Hq ->. done.
        -- rewrite filter_cons_True by done. specialize (IH Hnd). simpl in *. lia.
      * intros p [Hpt HpW]%list_elem_of_filter. specialize (HW p HpW). revert HW.
        apply woken_frame; [done|]. intros old c0 Hp0. rewrite lookup_insert_ne by done. eauto.
    + intros Hx'. destruct (i_wake _ Hm _ _ Hx') as [Hv' Hen]. split; [done|]. intros Hw.
      destruct (Hen Hw) as (W & Hnd & Hlen & HW). exists W. split_and!; [done..|]. intros p HpW.
      specialize (HW p HpW). revert HW. apply woken_frame; [done|]. intros old c0 Hp0.
      rewrite lookup_insert_ne; [eauto|]. intros <-. rewrite Hc in Hp0. simplify_eq. by destruct (Hlp _ _ _ eq_refl).
  - intros cv ws w Hcv Hw. destruct (grow_value s x (value x - 1) on Hx) as (_ & _ & Hgs).
    apply Hgs. by apply (i_conds _ Hm cv ws).
Qed.

(** *** Giving up the processor *)
(** The thread is made ready or blocked and goes on with [c'] when it is
    scheduled again. *)
Lemma leave_minv k2 th st c c' :
  code m !! t = Some c → sched_ok k2 (<[t:=c']> (code m)) → threads k !! t = Some th →
  threads k2 = <[t := set_status st th]> (threads k) → st ≠ THREAD_RUNNING →
  current k2 = t → intr_on k2 = false → holders k2 = holders k → conds k2 = conds k → waits k2 = waits k →
  (∀ s x, semas k !! s = Some x → ∃ x', semas k2 !! s = Some x' ∧ value x' = value x) →
  idle_thread k2 = idle_thread k → (idle_thread k ≠ Some t → wfc k2 H c') → (∀ l, pend l c' ↔ pend l c) →
  (∀ s x', semas k2 !! s = Some x' → (0 <= value x')%Z ∧ (waiters x' = [] ∨ value x' = 0%Z ∨
     (∀ o c0, c ≠ I_sema_down_loop s o :: c0) ∧
     ∃ x, semas k !! s = Some x ∧ waiters x = waiters x' ∧ (value x' <= value x)%Z)) →
  ∃ k', schedule k2 = Ret (tt, k') ∧ thread_ticks k' = 0%Z ∧ in_external_intr k' = false ∧
    (ready_list k2 = [] ∧ ready_list k' = [] ∨ ready_list k2 = current k' :: ready_list k') ∧
    minv (mk_machine k' (<[t:=c']> (code m)) (held m)).
Proof using Hm.
  intros Hc Hok Hth Hths Hst Hcur Hi Hho Hco Hwa Hse Hidt Hwf Hp Hwk.
  assert (Hg : objects_grow k k2).
  { unfold objects_grow, lock_in, cond_in, sema_in. rewrite Hho, Hco. split_and!; [auto..|].
    intros s [x Hx]. destruct (Hse _ _ Hx) as (x' & ? & _). eauto. }
  apply (switch_minv k2 (<[t:=c']> (code m)) (held m) (set_status st th)); try done.
  - rewrite Hths, Hcur. apply lookup_insert_eq.
  - intros t' c0 Hc0. rewrite Hidt. intros Hni. apply lookup_insert_Some in Hc0 as [[<- <-]|[_ Hc0]]; [auto|].
    eapply wfc_mono; [done|]. by apply (i_wf _ Hm).
  - intros l h. rewrite Hho. intros Hl. eapply lock_frame; [| | |by apply (i_locks _ Hm)].
    + intros x Hx. apply (Hse _ _ Hx).
    + intros t'. rewrite pending_insert. unfold pending. split.
      * intros [[-> Hp0]|[_ Hp0]]; [exists c; split; [done|by apply Hp]|done].
      * intros (c0 & Hc0 & Hp0). destruct (decide (t' = t)) as [->|]; [left|right; eauto].
        split; [done|]. simplify_eq. by apply Hp.
    + done.
  - intros t' l Hl. rewrite Hho. destruct (i_held _ Hm _ _ Hl) as [? Hs]. split; [done|]. by apply insert_some.
  - intros s x' Hx'. destruct (Hwk s x' Hx') as [Hv Hcs]. split; [done|]. intros Hw.
    destruct Hcs as [?|[?|(Hnl & x & Hx & Ew & Hle)]]; [done| |].
    { exists []. split_and!; [constructor|simpl; lia|set_solver]. }
    destruct (i_wake _ Hm _ _ Hx) as [_ Hen]. destruct Hen as (W & Hnd & Hlen & HW); [congruence|].
    exists W. split_and!; [done|lia|]. intros p HpW. specialize (HW p HpW). assert (p ≠ t).
    { intros ->. destruct HW as (_ & o & c0 & Hc0). rewrite Hc in Hc0. simplify_eq. by destruct (Hnl o c0). }
    revert HW. apply woken_frame; [|intros o c0 ?; rewrite lookup_insert_ne by done; eauto].
    unfold stat. rewrite Hths, lookup_insert_ne by done. done.
  - intros cv ws w. rewrite Hco. intros Hcv Hw. destruct Hg as (_ & _ & Hgs). apply Hgs. by apply (i_conds _ Hm cv ws).
  - intros p thp w ws. rewrite Hths, Hwa. intros [[<- <-]|[_ Hp']]%lookup_insert_Some; cbn; by eapply (i_waits _ Hm).
  - destruct Hg as (Hgl & _). apply Hgl, (i_tid _ Hm).
Qed.

Lemma moves_switch k2 k' new :
  thread_ticks k' = 0%Z → ready_list k2 = ready_list k ++ new →
  (ready_list k2 = [] ∧ ready_list k' = [] ∨ ready_list k2 = current k' :: ready_list k') → ∀ d, moves d k k'.
Proof using. intros Ht Hr Hc d. right. split; [done|]. exists new. rewrite <- Hr. destruct Hc as [[]|]; auto. Qed.

(** Going to sleep on [s]. *)
Lemma block_ok s x c rest old :
  code m !! t = Some c → semas k !! s = Some x → value x = 0%Z → idle_thread k ≠ Some t →
  builds rest = builds c → wf k H (I_sema_down s :: rest) →
  (∀ s' o c0, c = I_sema_down_loop s' o :: c0 → s' = s) → (∀ l, ¬ pend l c) →
  ∃ k', sema_down_loop s old (with_intr false (in_external_intr k) (yield_on_return k) k) = Ret (false, k') ∧
    moves 0 k k' ∧ minv (mk_machine k' (<[t:=I_sema_down_loop s old :: rest]> (code m)) (held m)).
Proof using Hm.
  clear dir_reopen palloc_get_page.
  intros Hc Hx Hv Hni Hb Hwf Hlp Hp. destruct cur_thread as (th & Hth & Hmg & Hst).
  pose proof (s_ext _ _ (i_sched _ Hm)) as He.
  set (k1 := with_intr false (in_external_intr k) (yield_on_return k) k).
  set (k2 := with_threads (<[t := set_status THREAD_BLOCKED th]>)
               (with_semas (<[s := mk_sema (value x) (waiters x ++ [t])]>) k1)).
  set (c' := I_sema_down_loop s old :: rest).
  assert (Hsem : ∀ s', semas k2 !! s' = if decide (s' = s) then Some (mk_sema (value x) (waiters x ++ [t])) else semas k !! s').
  { intros s'. cbn. destruct (decide (s' = s)) as [->|]; [by rewrite lookup_insert_eq|by rewrite lookup_insert_ne]. }
  assert (Hok : sched_ok k2 (<[t:=c']> (code m))).
  { apply (sched_queue k (code m) (i_sched _ Hm) t th c Hth Hst Hc k2 c' Hb eq_refl eq_refl eq_refl THREAD_BLOCKED); try done.
    - apply (s_ready_nodup _ _ (i_sched _ Hm)).
    - intros p. cbn. naive_solver.
    - intros s' x'. rewrite Hsem. destruct (decide (s' = s)) as [->|Hne].
      + intros [= <-]. exists x. cbn [waiters]. split_and!; [done| |].
        * apply NoDup_app. split_and!; [by apply (s_wait_nodup _ _ (i_sched _ Hm) s)| |apply NoDup_singleton].
          intros p Hpx ->%list_elem_of_singleton. by eapply cur_not_linked.
        * intros p. rewrite elem_of_app, list_elem_of_singleton. unfold c'. naive_solver.
      + intros Hx'. exists x'. split_and!; [done|by apply (s_wait_nodup _ _ (i_sched _ Hm) s')|].
        intros p. unfold c'. naive_solver.
    - intros s' x' Hx'. rewrite Hsem. destruct (decide (s' = s)) as [->|Hne]; [|eauto].
      simplify_eq. eexists. split; [done|]. cbn [waiters]. set_solver.
    - intros _. right. exists s. rewrite Hsem, decide_True by done. eexists. split; [done|]. cbn [waiters]. set_solver. }
  destruct (leave_minv k2 th THREAD_BLOCKED c c') as (k' & Hrun & Htk & _ & Hrl & Hm'); try done.
  - intros s' x0 Hx0. rewrite Hsem. destruct (decide _) as [->|]; [|eauto]. simplify_eq. eauto.
  - intros _. unfold c'. cbn [wfc]. eapply wf_mono; [|done]. split_and!; auto.
    intros s'. unfold sema_in. rewrite Hsem. destruct (decide _); [eauto|done].
  - intros l. split; [done|]. intros Hl. by destruct (Hp l).
  - intros s' x'. rewrite Hsem. destruct (decide (s' = s)) as [->|Hne].
    + intros [= <-]. cbn [value waiters]. split; [lia|auto].
    + intros Hx'. destruct (i_wake _ Hm _ _ Hx') as [Hv' _]. split; [done|]. right; right. split; [|eauto with lia].
      intros o c0 ->. by destruct (Hlp _ _ _ eq_refl).
  - exists k'. split_and!; [|by apply (moves_switch k2 k' []); [|rewrite app_nil_r|]|done]. unfold sema_down_loop.
    assert (Hx1 : load_sema s k1 = Ret (x, k1)) by (unfold load_sema; cbn; by rewrite Hx).
    rewrite (bind_Ret _ _ _ _ _ Hx1), Hv, Z.eqb_refl.
    rewrite (thread_current_bind _ k1 th) by done. cbn [current with_intr k1].
    assert (Hpush : push_waiter s t k1 = Ret (tt, with_semas (<[s := mk_sema (value x) (waiters x ++ [t])]>) k1)).
    { unfold push_waiter. rewrite (bind_Ret _ _ _ _ _ Hx1), gets_bind.
      rewrite linked_false; [done|apply cur_not_ready|]. intros s' x'. apply cur_not_linked. }
    rewrite (bind_Ret _ _ _ _ _ Hpush). unfold thread_block, intr_context, intr_get_level.
    rewrite bind_assoc, gets_bind, bind_assoc, ASSERT_bind by (cbn; by rewrite He).
    rewrite bind_assoc, gets_bind, bind_assoc, ASSERT_bind by done.
    rewrite bind_assoc, (thread_current_bind _ _ th) by done.
    rewrite bind_assoc, (upd_thread_bind _ _ _ _ th) by done.
    by rewrite (bind_Ret _ _ _ _ _ Hrun).
Qed.
End spec.
