(* ===== verification/SchedExec.v ===== *)
(** The instructions of semaphores, locks and condition variables, and of
    giving up the processor: each runs without a fault and keeps the
    invariant. *)
From S2P Require Import Prelude Thread Synch Sched SchedInv SchedSpec.

Lemma with_intr_id k : with_intr (intr_on k) (in_external_intr k) (yield_on_return k) k = k.
Proof. by destruct k. Qed.

Section exec.
Context (m : machine) (Hm : minv m).
Abbreviation k := (kern m).
Abbreviation t := (current (kern m)).
Abbreviation H := (held_by m (current (kern m))).

(** ** Semaphores *)
(** What the code after a [sema_down] looks like. *)
Lemma down_code s rest :
  wf k H (I_sema_down s :: rest) →
  ∃ x, semas k !! s = Some x ∧ (0 <= value x)%Z ∧ not_loop rest ∧
    (∀ k', objects_grow k k' → wfc k' H rest) ∧ (∀ l, pend l rest ↔ s = inr l) ∧ (∀ l, s = inr l → lock_in k l).
Proof using Hm.
  destruct s as [s|l]; cbn [wf].
  - intros [[x Hx] Hwf]. exists x. split_and!; [done|by eapply (i_wake _ Hm)|by eapply wf_not_loop| | |done].
    + intros k' Hg. apply wf_wfc. by eapply wf_mono.
    + intros l. split; [|done]. intros Hp. by apply (wf_not_pend _ _ _ _ Hwf) in Hp.
  - destruct rest as [|[| | | | | |l'| | | | | | | | | | |] rest]; try done. intros (-> & [h Hh] & Hl & Hwf).
    destruct (i_locks _ Hm _ _ Hh) as (x & Hx & _). exists x.
    split_and!; [done|by eapply (i_wake _ Hm)|done| | |].
    + intros k' Hg. cbn [wfc]. split_and!; [apply Hg; by eexists|done|by eapply wf_mono].
    + intros l0. cbn. split; congruence.
    + intros l0 [= <-]. by eexists.
Qed.

Lemma down_ok s old0 c rest old :
  code m !! t = Some c → c = I_sema_down s :: rest ∨ c = I_sema_down_loop s old0 :: rest →
  ∃ b k', sema_down_loop s old (with_intr false (in_external_intr k) (yield_on_return k) k) = Ret (b, k') ∧
    moves 0 k k' ∧
    minv (mk_machine k' (<[t := if (b : bool) then rest else I_sema_down_loop s old :: rest]> (code m)) (held m)).
Proof using Hm.
  intros Hc Hcs.
  assert (Hni : idle_thread k ≠ Some t) by (destruct Hcs as [->| ->]; by eapply not_idle).
  assert (Hwf : wf k H (I_sema_down s :: rest)).
  { pose proof (i_wf _ Hm _ _ Hc Hni) as Hwf. destruct Hcs as [->| ->]; [by destruct s|done]. }
  destruct (down_code s rest Hwf) as (x & Hx & Hv & Hnl & Hwf' & Hp & Hl).
  assert (Hb : builds rest = builds c) by (by destruct Hcs as [->| ->]).
  assert (Hlp : ∀ s' o c0, c = I_sema_down_loop s' o :: c0 → s' = s) by (destruct Hcs as [->| ->]; congruence).
  assert (Hnp : ∀ l, ¬ pend l c) by (destruct Hcs as [->| ->]; auto).
  destruct (decide (value x = 0)%Z) as [Hv0|Hv0].
  - destruct (block_ok m Hm s x c rest old) as (k' & ? & ? & ?); try done. by exists false, k'.
  - exists true, (set_value m s x (value x - 1) old). split_and!.
    + unfold sema_down_loop.
      assert (Hx1 : load_sema s (with_intr false (in_external_intr k) (yield_on_return k) k) =
        Ret (x, with_intr false (in_external_intr k) (yield_on_return k) k)) by (unfold load_sema; cbn; by rewrite Hx).
      rewrite (bind_Ret _ _ _ _ _ Hx1). rewrite (proj2 (Z.eqb_neq _ _)) by done.
      unfold store_sema. rewrite modify_bind.
      erewrite bind_Ret; [|apply intr_set_run, (s_ext _ _ (i_sched _ Hm))]. done.
    + by apply stay.
    + apply (take_ok m Hm s x c rest old); try done; [lia|]. by apply Hwf', grow_value.
Qed.

(** What [sema_up] does: the front waiter becomes ready and the value grows. *)
Record upped (s : sref) (x : semaphore) (k' : kernel) : Prop := {
  u_sched : sched_ok k' (code m);
  u_semas : ∀ s', semas k' !! s' =
    if decide (s' = s) then Some (mk_sema (u32 (value x + 1)) (tail (waiters x))) else semas k !! s';
  u_idle : idle_thread k' = idle_thread k; u_current : current k' = t; u_holders : holders k' = holders k; u_conds : conds k' = conds k;
  u_waits : waits k' = waits k; u_ticks : thread_ticks k' = thread_ticks k; u_intr : intr_on k' = intr_on k;
  u_ready : ready_list k' = ready_list k ++ take 1 (waiters x);
  u_stat : ∀ q, stat k q ≠ Some THREAD_BLOCKED → stat k' q = stat k q;
  u_front : ∀ p ws, waiters x = p :: ws → stat k p = Some THREAD_BLOCKED ∧ woken k' (code m) s p;
  u_children : ∀ q th', threads k' !! q = Some th' → ∃ th, threads k !! q = Some th ∧ children th' = children th }.

Lemma load_sema_bind {A} (f : semaphore → cmd kernel A) k0 s x :
  semas k0 !! s = Some x → (load_sema s ≫= f) k0 = f x k0.
Proof using. intros E. unfold load_sema, mbind, cmd_bind. by rewrite E. Qed.

Lemma sema_up_run s x : semas k !! s = Some x → ∃ k', sema_up s k = Ret (tt, k') ∧ upped s x k'.
Proof using Hm.
  intros Hx. pose proof (s_ext _ _ (i_sched _ Hm)) as He. pose proof (i_sched _ Hm) as Hok.
  unfold sema_up, intr_disable, intr_get_level, store_sema.
  rewrite bind_assoc, gets_bind, bind_assoc, modify_bind, ret_bind, (load_sema_bind _ _ _ x) by done.
  destruct (waiters x) as [|p ws] eqn:Hw.
  - rewrite ret_bind, (load_sema_bind _ _ _ x) by done. rewrite modify_bind.
    erewrite bind_Ret; [|apply intr_set_run, He]. exists (set_value m s x (u32 (value x + 1)) (intr_on k)).
    split; [done|].
    split; try done.
    + eapply sched_quiet; [|done]. by apply quiet_value.
    + intros s'. by rewrite set_value_lookup, Hw.
    + by rewrite Hw, app_nil_r.
    + intros p ws Hw'. congruence.
    + eauto.
  - assert (Hp : p ∈ waiters x) by (rewrite Hw; by left).
    destruct (s_wait _ _ Hok s x p Hx Hp) as (Hpb & Hpi & old & c & Hpc).
    pose proof Hpb as (th & Hth & Hst)%stat_Some.
    rewrite bind_assoc, modify_bind. unfold thread_unblock, intr_disable, intr_get_level.
    rewrite bind_assoc, (is_thread_bind _ _ _ th) by (done || by eapply (s_magic _ _ Hok)).
    rewrite bind_assoc, ASSERT_bind by done.
    rewrite bind_assoc, bind_assoc, gets_bind, bind_assoc, modify_bind, ret_bind.
    rewrite bind_assoc, (load_thread_bind _ _ _ th) by done.
    rewrite bind_assoc, ASSERT_bind by by rewrite bool_decide_true.
    rewrite bind_assoc. erewrite bind_Ret; cycle 1.
    { unfold push_ready. rewrite linked_false; [done|cbn|].
      - intros Hr. apply (s_ready _ _ Hok) in Hr as [? _]. congruence.
      - intros s' x'. cbn. intros [[<- <-]|[Hne Hx']]%lookup_insert_Some; cbn.
        + pose proof (s_wait_nodup _ _ Hok s x Hx) as Hnd. rewrite Hw in Hnd. by apply NoDup_cons in Hnd as [? _].
        + intros Hp'. apply Hne. by eapply (waiter_unique k (code m) Hok s x s' x' p). }
    rewrite bind_assoc, (upd_thread_bind _ _ _ _ th) by done.
    rewrite bind_assoc. erewrite bind_Ret; [|apply intr_set_run, He]. rewrite ret_bind.
    erewrite load_sema_bind; [|cbn; apply lookup_insert_eq]. rewrite modify_bind.
    erewrite bind_Ret; [|apply intr_set_run, He]. eexists. split; [done|].
    match goal with |- upped _ _ ?k' => set (k2 := k') end.
    assert (Hs : ∀ s', semas k2 !! s' =
      if decide (s' = s) then Some (mk_sema (u32 (value x + 1)) ws) else semas k !! s').
    { intros s'. cbn. destruct (decide (s' = s)) as [->|]; [by rewrite lookup_insert_eq|by rewrite !lookup_insert_ne]. }
    split; eauto.
    + eapply (sched_wake k (code m) Hok k2 s x p ws _ th); done.
    + intros s'. rewrite Hs, Hw. done.
    + rewrite Hw. done.
    + intros q Hq. rewrite (wake_stat k k2 p th eq_refl), decide_False by congruence. done.
    + intros p' ws' Hw'. rewrite Hw in Hw'. simplify_eq. split; [done|]. split; [|eauto].
      left. by rewrite (wake_stat k k2 p' th eq_refl), decide_True.
    + intros q th'. cbn. intros [[<- <-]|[_ Hq]]%lookup_insert_Some; eauto.
Qed.

Section instrs.
Context (dir_reopen : positive → option positive) (palloc_get_page : kernel → option tptr).
Abbreviation run := (exec dir_reopen palloc_get_page t).

Lemma exec_sema_down s rest : code m !! t = Some (I_sema_down s :: rest) → good 0 m (run (I_sema_down s) rest m).
Proof using Hm.
  intros Hc. destruct (down_ok s true _ rest (intr_on k) Hc ltac:(auto)) as (b & k' & Hrun & Hmv & Hm').
  unfold exec.
  assert (E : sema_down s k = Ret ((b, intr_on k), k')).
  { unfold sema_down, intr_context, intr_disable, intr_get_level.
    rewrite gets_bind, ASSERT_bind by by rewrite (s_ext _ _ (i_sched _ Hm)).
    rewrite bind_assoc, gets_bind, bind_assoc, modify_bind. rewrite ret_bind. by rewrite (bind_Ret _ _ _ _ _ Hrun). }
  rewrite (on_kern_bind _ _ _ _ _ E). eexists. by split_and!; [apply set_code_run| |].
Qed.

Lemma exec_sema_down_loop s old rest :
  code m !! t = Some (I_sema_down_loop s old :: rest) → good 0 m (run (I_sema_down_loop s old) rest m).
Proof using Hm.
  intros Hc. destruct (down_ok s old _ rest old Hc ltac:(auto)) as (b & k' & Hrun & Hmv & Hm').
  unfold exec. rewrite <- (i_intr _ Hm _ _ _ Hc), with_intr_id in Hrun.
  rewrite (on_kern_bind _ _ _ _ _ Hrun). eexists. by split_and!; [apply set_code_run| |].
Qed.

(** The code after a [sema_up], and the lock it releases. *)
Lemma up_code s rest :
  wfc k H (I_sema_up s :: rest) →
  ∃ x, semas k !! s = Some x ∧ (0 <= value x)%Z ∧ wf k H rest ∧ (∀ l, pend l (I_sema_up s :: rest) ↔ s = inr l) ∧
    (∀ l, s = inr l → lock_in k l).
Proof using Hm.
  destruct s as [s|l]; cbn [wfc wf].
  - intros [[x Hx] Hwf]. exists x. split_and!; [done|by eapply (i_wake _ Hm)|done|done|done].
  - intros ([h Hh] & _ & Hwf). destruct (i_locks _ Hm _ _ Hh) as (x & Hx & _). exists x.
    split_and!; [done|by eapply (i_wake _ Hm)|done| |].
    + intros l'. cbn. split; congruence.
    + intros l' [= <-]. by eexists.
Qed.

Lemma wake_upped s x k' rest :
  semas k !! s = Some x → (0 <= value x)%Z → upped s x k' → code m !! t = Some (I_sema_up s :: rest) →
  wake_ok k' (<[t:=rest]> (code m)).
Proof using Hm.
  clear dir_reopen palloc_get_page. intros Hx Hv [_ Us _ _ _ _ _ _ _ _ Ust Uf _] Hc.
  assert (Hfr : ∀ s' p, woken k (code m) s' p → woken k' (<[t:=rest]> (code m)) s' p).
  { intros s' p (Hp & o & c0 & Hc0). assert (p ≠ t) by (intros ->; congruence).
    split; [rewrite Ust; [done|intros E; rewrite E in Hp; naive_solver]|]. rewrite lookup_insert_ne by done. eauto. }
  intros s' x'. rewrite Us. destruct (decide (s' = s)) as [->|Hne].
  - intros [= <-]. cbn [value waiters]. pose proof (Z.mod_pos_bound (value x + 1) (2 ^ 32) ltac:(lia)) as Hb.
    split; [unfold u32; lia|]. destruct (waiters x) as [|p ws] eqn:Hw; [done|]. simpl. intros Hws.
    destruct (i_wake _ Hm _ _ Hx) as [_ Hen]. destruct Hen as (W & Hnd & Hlen & HW); [by rewrite Hw|].
    destruct (Uf p ws eq_refl) as [Hpb Hpw]. exists (p :: W). split_and!.
    + apply NoDup_cons. split; [|done]. intros Hp. destruct (HW p Hp) as [E _]. rewrite Hpb in E. naive_solver.
    + cbn [value length]. unfold u32. pose proof (Z.mod_le (value x + 1) (2 ^ 32) ltac:(lia) ltac:(lia)). lia.
    + intros q [->|Hq]%elem_of_cons; [|by apply Hfr, HW]. destruct Hpw as (H1 & o & c0 & H2).
      split; [done|]. rewrite lookup_insert_ne; [eauto|]. intros <-. congruence.
  - intros Hx'. destruct (i_wake _ Hm _ _ Hx') as [Hv' Hen]. split; [done|]. intros Hw.
    destruct (Hen Hw) as (W & Hnd & Hlen & HW). exists W. split_and!; [done..|]. auto.
Qed.

Lemma exec_sema_up s rest : code m !! t = Some (I_sema_up s :: rest) → good 0 m (run (I_sema_up s) rest m).
Proof using Hm.
  intros Hc. destruct (up_code s rest (code_wf m Hm _ _ Hc ltac:(done) ltac:(done))) as (x & Hx & Hv & Hwf & Hp & Hl).
  destruct (sema_up_run s x Hx) as (k' & Hrun & Hu). unfold exec. rewrite (on_kern_bind _ _ _ _ _ Hrun).
  pose proof (wake_upped s x k' rest Hx Hv Hu Hc) as Hwk. destruct Hu as [Uok Us Uid Uc Uh Ucd Uw Ut Ui Ur Ust Uf Uch].
  eexists. split_and!; [apply set_code_run|by eapply stay_app|]. cbn [kern code held].
  assert (Hg : objects_grow k k').
  { unfold objects_grow, lock_in, cond_in, sema_in. rewrite Uh, Ucd. split_and!; [done..|].
    intros s' Hs'. rewrite Us. destruct (decide _); [eauto|done]. }
  apply (local_core m Hm k' _ rest (held m) H); try done.
  - by eapply wf_not_loop.
  - intros _. apply wf_wfc. by eapply wf_mono.
  - intros t'. fold (held_by m t'). by destruct (decide (t' = t)) as [->|].
  - eapply sched_code; [done|done| |done|].
    + rewrite Ust; rewrite (i_run _ Hm); done.
    + intros Hi. destruct (s_idle _ _ Uok) as (i & ci & Hi' & Hci & Hid). simplify_eq. inversion Hid.
  - rewrite Ust; by rewrite (i_run _ Hm).
  - apply lookup_insert_eq.
  - intros t' c0. apply insert_others.
  - intros t'. apply insert_some.
  - rewrite Uh. apply (i_held _ Hm).
  - by rewrite Uh.
  - intros l h. rewrite Uh. intros Hh. destruct (decide (s = inr l)) as [->|Hne].
    + destruct (lock_pending m Hm l h _ Hh Hc (proj2 (Hp l) eq_refl)) as (-> & (x0 & Hx0 & Hv0) & Hu).
      eexists. rewrite Us, decide_True by done. split; [done|]. left. cbn [value]. simplify_eq.
      rewrite Hv0. split_and!; [done..|]. intros t'. rewrite pending_insert. intros [[-> Hp']|[Hne Hp']].
      * by apply (wf_not_pend _ _ _ _ Hwf) in Hp'.
      * by apply Hne, Hu.
    + apply (other_lock m Hm _ (I_sema_up s :: rest)); [done|done| | |done].
      * rewrite Us, decide_False by congruence. done.
      * rewrite Hp. split; [|done]. intros Hp'. by apply (wf_not_pend _ _ _ _ Hwf) in Hp'.
  - rewrite Ucd. intros cv ws w Hcv Hw. destruct Hg as (_ & _ & Hgs). apply Hgs. by apply (i_conds _ Hm cv ws).
  - intros p th w ws Hp' Hch. destruct (Uch p th Hp') as (th0 & Hp0 & E). rewrite Uw. rewrite E in Hch.
    by eapply (i_waits _ Hm).
Qed.

Lemma exec_try l rest : code m !! t = Some (I_try l :: rest) → good 0 m (run (I_try l) rest m).
Proof using Hm.
  intros Hc. pose proof (code_wf m Hm _ _ Hc ltac:(done) ltac:(done)) as (Hl & Hh & ->). pose proof (s_ext _ _ (i_sched _ Hm)) as He.
  assert (Hni : idle_thread k ≠ Some t) by by eapply not_idle.
  pose proof Hl as [h Hlh]. destruct (i_locks _ Hm _ _ Hlh) as (x & Hx & _).
  unfold exec, sema_try_down, intr_disable, intr_get_level, store_sema.
  destruct (decide (0 < value x)%Z) as [Hv|Hv].
  - erewrite on_kern_bind; cycle 1.
    { rewrite bind_assoc, gets_bind, bind_assoc, modify_bind, ret_bind, (load_sema_bind _ _ _ x) by done.
      rewrite (proj2 (Z.ltb_lt _ _)) by done. rewrite bind_assoc, modify_bind, ret_bind.
      erewrite bind_Ret; [|apply intr_set_run, He]. done. }
    eexists. split_and!; [apply set_code_run|by apply stay|].
    apply (take_ok m Hm (inr l) x (I_try l :: []) _ (intr_on k)); try done.
    + cbn. intros l'. split; congruence.
    + auto.
    + congruence.
  - rewrite (on_kern_bind _ _ _ false k); cycle 1.
    { rewrite bind_assoc, gets_bind, bind_assoc, modify_bind, ret_bind, (load_sema_bind _ _ _ x) by done.
      rewrite (proj2 (Z.ltb_ge _ _)) by lia. rewrite ret_bind.
      erewrite bind_Ret; [|apply intr_set_run, He]. unfold mret, cmd_ret. do 2 f_equal. exact (with_intr_id k). }
    eexists. split_and!; [apply set_code_run|by apply stay|]. by apply (code_ok m Hm (I_try l :: [])).
Qed.

(** ** Condition variables *)
Lemma fresh_sema_none k0 : semas k0 !! inl (fresh_sema k0) = None.
Proof using.
  destruct (semas k0 !! inl (fresh_sema k0)) as [x|] eqn:E; [|done]. exfalso.
  unfold fresh_sema in E. set (used := list_to_set _) in E. apply (is_fresh used).
  unfold used at 2. apply elem_of_list_to_set, list_elem_of_omap. exists (inl (fresh used)).
  split; [|done]. apply elem_of_elements, elem_of_dom. eauto.
Qed.

Lemma exec_cond_wait cv l rest :
  code m !! t = Some (I_cond_wait cv l :: rest) → good 0 m (run (I_cond_wait cv l) rest m).
Proof using Hm.
  intros Hc. pose proof (code_wf m Hm _ _ Hc ltac:(done) ltac:(done)) as (Hl & [ws Hcv] & Hwf). unfold exec. rewrite gets_bind.
  set (w := fresh_sema k). pose proof (fresh_sema_none k) as Hw. fold w in Hw.
  set (k1 := with_semas (<[inl w := mk_sema 0 []]>) k).
  rewrite (on_kern_bind _ _ _ tt k1) by done. rewrite gets_bind. cbn [kern conds k1 with_semas]. rewrite Hcv.
  set (k2 := with_cond cv (ws ++ [w]) k1). rewrite (on_kern_bind _ _ _ tt k2) by done.
  eexists. split_and!; [apply set_code_run|by apply stay|]. cbn [kern code held].
  assert (Hsem : ∀ s, semas k2 !! s = if decide (s = inl w) then Some (mk_sema 0 []) else semas k !! s).
  { intros s. cbn. destruct (decide (s = inl w)) as [->|]; [by rewrite lookup_insert_eq|by rewrite lookup_insert_ne]. }
  assert (Hg : objects_grow k k2).
  { split_and!; [done| |].
    - intros c' Hc'. unfold cond_in. cbn. destruct (decide (cv = c')) as [<-|];
        [rewrite lookup_insert_eq; eauto|by rewrite lookup_insert_ne].
    - intros s Hs. unfold sema_in. rewrite Hsem. destruct (decide _); [eauto|done]. }
  assert (Hgw : sema_in k2 w) by (unfold sema_in; rewrite Hsem, decide_True by done; eauto).
  apply (plain_ok m Hm k2 (I_cond_wait cv l :: rest)); try done.
  - split; try done; [eauto| |].
    + intros s x'. rewrite Hsem. destruct (decide _) as [->|]; [intros [= <-]; auto|eauto].
    + intros s x Hx. exists x. rewrite Hsem, decide_False by congruence. done.
  - intros Hi. by destruct (not_idle m Hm _ _ Hc ltac:(done) ltac:(done)).
  - intros _. destruct (i_held _ Hm _ _ Hl) as [Hh _]. assert (Hlk : lock_in k2 l) by by eexists.
    cbn [wfc wf cond_wait_rest lock_release lock_acquire app]. split_and!; [done..|set_solver|done|done|set_solver|].
    rewrite <- union_difference_singleton_L by done. by eapply wf_mono.
  - eapply (wake_code m Hm); [done|done|done|]. intros s x'. rewrite Hsem. destruct (decide _) as [->|].
    + intros [= <-]. cbn. auto with lia.
    + apply (wake_same m Hm).
  - intros cv' ws' w'. cbn. intros [[<- <-]|[_ Hcv']]%lookup_insert_Some.
    + intros [Hw'| ->%list_elem_of_singleton]%elem_of_app; [|done]. apply Hg. by apply (i_conds _ Hm cv ws).
    + intros Hw'. apply Hg. by apply (i_conds _ Hm cv' ws').
Qed.

Lemma exec_signal cv rest : code m !! t = Some (I_signal cv :: rest) → good 0 m (run (I_signal cv) rest m).
Proof using Hm.
  intros Hc. pose proof (code_wf m Hm _ _ Hc ltac:(done) ltac:(done)) as ([ws Hcv] & Hwf). unfold exec. rewrite gets_bind, Hcv.
  assert (Hni : idle_thread k ≠ Some t) by by eapply not_idle.
  assert (Hnp : ∀ l, pend l rest ↔ pend l (I_signal cv :: rest)).
  { intros l. split; [|done]. intros Hp. by apply (wf_not_pend _ _ _ _ Hwf) in Hp. }
  destruct ws as [|w ws].
  - eexists. split_and!; [apply set_code_run|by apply stay|].
    apply (code_ok m Hm (I_signal cv :: rest)); try done; [by eapply wf_not_loop|intros _; by apply wf_wfc].
  - rewrite (on_kern_bind _ _ _ tt (with_cond cv ws k)) by done.
    eexists. split_and!; [apply set_code_run|by apply stay|]. cbn [kern code held].
    assert (Hg : objects_grow k (with_cond cv ws k)).
    { split_and!; [done| |done]. intros c' Hc'. unfold cond_in. cbn. destruct (decide (cv = c')) as [<-|];
        [rewrite lookup_insert_eq; eauto|by rewrite lookup_insert_ne]. }
    apply (plain_ok m Hm _ (I_signal cv :: rest)); try done.
    + split; eauto.
    + intros _. cbn [wfc wf]. split; [|by eapply wf_mono]. apply Hg, (i_conds _ Hm cv (w :: ws)); [done|by left].
    + eapply (wake_code m Hm); [done|done|done|apply (wake_same m Hm)].
    + intros cv' ws' w'. cbn. intros [[<- <-]|[_ Hcv']]%lookup_insert_Some Hw.
      * apply Hg, (i_conds _ Hm cv (w :: ws)); [done|by right].
      * by apply Hg, (i_conds _ Hm cv' ws').
Qed.

Lemma exec_broadcast cv l rest :
  code m !! t = Some (I_broadcast cv l :: rest) → good 0 m (run (I_broadcast cv l) rest m).
Proof using Hm.
  intros Hc. pose proof (code_wf m Hm _ _ Hc ltac:(done) ltac:(done)) as (Hl & [ws Hcv] & Hwf). unfold exec. rewrite gets_bind, Hcv.
  assert (Hni : idle_thread k ≠ Some t) by by eapply not_idle.
  destruct ws as [|w ws]; eexists; (split_and!; [apply set_code_run|by apply stay|]);
    apply (code_ok m Hm (I_broadcast cv l :: rest)); try done.
  - by eapply wf_not_loop.
  - intros _. by apply wf_wfc.
  - intros l'. split; [|done]. intros Hp. by apply (wf_not_pend _ _ _ _ Hwf) in Hp.
  - intros _. cbn [wfc wf cond_signal app]. by split_and!; [|eexists| |eexists|].
Qed.
End instrs.
End exec.

(** The steps that give up the processor without waiting: [thread_yield], the
    timer interrupt, the idle thread's loop and the end of a thread. *)

Section switch.
Context (m : machine) (Hm : minv m).
Abbreviation k := (kern m).
Abbreviation t := (current (kern m)).
Abbreviation H := (held_by m (current (kern m))).

(** The kernel in the middle of a step: interrupts and tick counters differ. *)
Definition retimed (on y : bool) (a b c d : Z) : kernel := with_intr on false y (with_ticks a b c d k).

(** The ready list after [thread_yield] queued the thread. *)
Definition yielded : list tptr :=
  if bool_decide (Some t = idle_thread k) then ready_list k else ready_list k ++ [t].

Lemma yield_ok on y n1 n2 n3 n4 c c' :
  code m !! t = Some c → not_loop c → builds c' = builds c → (idle_thread k ≠ Some t → wfc k H c') → (∀ l, pend l c' ↔ pend l c) →
  (idle_thread k = Some t → idle_code c') →
  ∃ k', thread_yield (retimed on y n1 n2 n3 n4) = Ret (on, k') ∧ (∀ d, moves d k k') ∧
    minv (mk_machine k' (<[t:=c']> (code m)) (held m)).
Proof using Hm.
  intros Hc Hnl Hb Hwf Hp Hid. destruct (cur_thread m Hm) as (th & Hth & Hmg & Hst).
  set (k0 := retimed on y n1 n2 n3 n4).
  set (k2 := with_threads (<[t := set_status THREAD_READY th]>) (with_ready yielded (with_intr false false y k0))).
  pose proof (i_sched _ Hm) as Hok0.
  assert (Hok : sched_ok k2 (<[t:=c']> (code m))).
  { apply (sched_queue k (code m) Hok0 t th c Hth Hst Hc k2 c' Hb eq_refl eq_refl
      (eq_sym (s_ext _ _ Hok0)) THREAD_READY); try done.
    - cbn. unfold yielded. destruct (bool_decide _); [by apply (s_ready_nodup _ _ Hok0)|].
      apply NoDup_app. split_and!; [by apply (s_ready_nodup _ _ Hok0)| |apply NoDup_singleton].
      intros p Hpr ->%list_elem_of_singleton. by apply (cur_not_ready m Hm).
    - intros p. cbn. unfold yielded. case_bool_decide as E.
      + split; [auto|]. intros [|(_ & _ & Hf)]; [done|]. by rewrite E in Hf.
      + rewrite elem_of_app, list_elem_of_singleton. split; [|tauto].
        intros [|]; [auto|]. right. split_and!; congruence.
    - intros s x Hx. exists x. split_and!; [done|by apply (s_wait_nodup _ _ Hok0 s)|]. intros p. split; [auto|].
      intros [|(_ & ? & _)]; done.
    - intros s x Hx. exists x. auto. }
  destruct (leave_minv m Hm k2 th THREAD_READY c c') as (k' & Hrun & Htk & Hext & Hrl & Hm'); try done.
  - intros s x Hx. eauto.
  - intros Hni. eapply wfc_mono; [|by apply Hwf]. by split_and!.
  - intros s x Hx. destruct (i_wake _ Hm _ _ Hx) as [Hv _]. split; [done|]. right; right. split; [|eauto with lia].
    intros o c1 ->. by destruct (Hnl s o c1).
  - exists k'. split_and!; [|by apply (moves_switch m k2 k' (if bool_decide (Some t = idle_thread k) then [] else [t])); [|cbn; unfold yielded; destruct (bool_decide _); [rewrite app_nil_r|]|]|done].
    unfold thread_yield, intr_context, intr_disable, intr_get_level.
    rewrite (thread_current_bind _ _ th) by done. rewrite gets_bind, ASSERT_bind by done.
    rewrite bind_assoc, gets_bind, bind_assoc, modify_bind, ret_bind, gets_bind.
    set (k1 := with_intr false (in_external_intr k0) (yield_on_return k0) k0).
    assert (E : (if negb (bool_decide (Some (current k0) = idle_thread k1)) then push_ready (current k0) else mret tt) k1
      = Ret (tt, with_ready yielded k1)).
    { unfold yielded. cbn. case_bool_decide; [done|]. cbn. unfold push_ready.
      rewrite linked_false; [done|apply (cur_not_ready m Hm)|]. intros s x. apply (cur_not_linked m Hm). }
    rewrite (bind_Ret _ _ _ _ _ E). rewrite (upd_thread_bind _ _ _ _ th) by done.
    by rewrite (bind_Ret _ _ _ _ _ Hrun).
Qed.

Section instrs.
Context (dir_reopen : positive → option positive) (palloc_get_page : kernel → option tptr).
Abbreviation run := (exec dir_reopen palloc_get_page t).

Lemma exec_yield rest : code m !! t = Some (I_yield :: rest) → good 0 m (run I_yield rest m).
Proof using Hm.
  intros Hc. pose proof (code_wf m Hm _ _ Hc ltac:(done) ltac:(done)) as Hwf. cbn [wfc wf] in Hwf.
  destruct (yield_ok (intr_on k) (yield_on_return k) (thread_ticks k) (idle_ticks k) (kernel_ticks k) (user_ticks k)
    _ (I_intr_set (intr_on k) :: rest) Hc) as (k' & Hrun & Hmv & Hm'); try done.
  - intros _. split; [by eapply wf_not_loop|by apply wf_wfc].
  - intros l. cbn. split; [|done]. intros Hp. by apply (wf_not_pend _ _ _ _ Hwf) in Hp.
  - intros Hi. by destruct (not_idle m Hm _ _ Hc ltac:(done) ltac:(done)).
  - assert (E : retimed (intr_on k) (yield_on_return k) (thread_ticks k) (idle_ticks k) (kernel_ticks k) (user_ticks k) = k).
    { unfold retimed. rewrite <- (s_ext _ _ (i_sched _ Hm)) at 1. exact (with_intr_id k). }
    rewrite E in Hrun. unfold exec. rewrite (on_kern_bind _ _ _ _ _ Hrun).
    eexists. by split_and!; [apply set_code_run|apply Hmv|].
Qed.

(** ** The idle thread *)
Lemma exec_idle_block rest : code m !! t = Some (I_idle_block :: rest) → good 0 m (run I_idle_block rest m).
Proof using Hm.
  intros Hc. destruct (cur_thread m Hm) as (th & Hth & Hmg & Hst). pose proof (i_sched _ Hm) as Hok0.
  assert (Hi : idle_thread k = Some t).
  { destruct (decide (idle_thread k = Some t)) as [|Hi]; [done|]. by destruct (i_wf _ Hm _ _ Hc Hi). }
  pose proof (idle_is m Hm _ Hi Hc) as Hic. inversion Hic; subst rest. clear Hic.
  pose proof (s_ext _ _ Hok0) as He. set (c' := [I_intr_set true; I_idle_block]).
  set (k2 := with_threads (<[t := set_status THREAD_BLOCKED th]>)
    (with_intr false (in_external_intr k) (yield_on_return k) k)).
  assert (Hok : sched_ok k2 (<[t:=c']> (code m))).
  { apply (sched_queue k (code m) Hok0 t th [I_idle_block] Hth Hst Hc k2 c' eq_refl eq_refl eq_refl eq_refl THREAD_BLOCKED); try done.
    - apply (s_ready_nodup _ _ Hok0).
    - intros p. split; [auto|]. intros [|(_ & ? & _)]; done.
    - intros s x Hx. exists x. split_and!; [done|by apply (s_wait_nodup _ _ Hok0 s)|]. intros p. split; [auto|].
      intros [|(_ & _ & ? & _)]; done.
    - intros s x Hx. exists x. auto.
    - auto.
    - intros _. do 2 constructor. }
  destruct (leave_minv m Hm k2 th THREAD_BLOCKED [I_idle_block] c') as (k' & Hrun & Htk & Hext & Hrl & Hm'); try done.
  - eauto.
  - intros s x Hx. destruct (i_wake _ Hm _ _ Hx) as [Hv _]. split; [done|]. right; right. split; [done|eauto with lia].
  - unfold exec. rewrite (on_kern_bind _ _ _ (intr_on k) (with_intr false (in_external_intr k) (yield_on_return k) k)) by done.
    erewrite on_kern_bind; cycle 1.
    { unfold thread_block, intr_context, intr_get_level. rewrite gets_bind, ASSERT_bind by (cbn; by rewrite He).
      rewrite gets_bind, ASSERT_bind by done. rewrite (thread_current_bind _ _ th) by done.
      rewrite (upd_thread_bind _ _ _ _ th) by done. exact Hrun. }
    eexists. split_and!; [apply set_code_run| |done]. by apply (moves_switch m k2 k' []); [|rewrite app_nil_r|].
Qed.

(** ** The end of a thread *)
Lemma sched_exit th k2 :
  code m !! t = Some [I_exit] → idle_thread k ≠ Some t → threads k !! t = Some th →
  threads k2 = <[t := set_status THREAD_DYING th]> (threads k) → ready_list k2 = ready_list k →
  semas k2 = semas k → current k2 = t → idle_thread k2 = idle_thread k → in_external_intr k2 = false →
  sched_ok k2 (delete t (code m)).
Proof using Hm.
  clear dir_reopen palloc_get_page. intros Hc Hni Hth Et Er Es Ec Ei Ee.
  assert (Hst : ∀ p, stat k2 p = if decide (t = p) then Some THREAD_DYING else stat k p) by (intros; by apply (queue_stat k t th)).
  pose proof (i_run _ Hm) as Hrun. pose proof (cur_not_ready m Hm) as Hnr.
  destruct (i_sched _ Hm) as [Gm Gi Grn Gr Gw Gwn Gb Gbu Gbq Gbn Grun Gc Ga Ge].
  split; rewrite ?Er, ?Es, ?Ei, ?Ec, ?Ee; try done.
  - intros p thp. rewrite Et. intros [[<- <-]|[_ Hp]]%lookup_insert_Some; [apply (Gm t th Hth)|eauto].
  - destruct Gi as (i & ci & Hi & Hci & Hic). exists i, ci. rewrite lookup_delete_ne by congruence. done.
  - intros p. rewrite Gr, Hst. destruct (decide (t = p)) as [<-|]; [rewrite Hrun; naive_solver|done].
  - intros s x p Hx Hp. destruct (Gw s x p Hx Hp) as (E & Hpi & old & c0 & Hc0).
    rewrite Hst, decide_False by congruence. split_and!; [done..|]. exists old, c0.
    by rewrite lookup_delete_ne by congruence.
  - intros p. rewrite Hst. destruct (decide (t = p)) as [<-|Hne]; [done|]. intros Hp.
    destruct (Gb p Hp) as [|[|(t0 & c0 & Hc0 & Hp0)]]; [auto|auto|]. right; right. exists t0, c0.
    rewrite lookup_delete_ne; [done|]. intros <-. rewrite Hc in Hc0. simplify_eq. set_solver.
  - intros t0 c0 p [_ Hc0]%lookup_delete_Some Hp. destruct (Gbu t0 c0 p Hc0 Hp) as [Hs Hn].
    rewrite Hst, decide_False by congruence. split; [done|]. rewrite lookup_delete_ne by congruence. done.
  - intros t0 c0 t1 c1 p [_ H0]%lookup_delete_Some [_ H1]%lookup_delete_Some. eauto.
  - intros t0 c0 [_ H0]%lookup_delete_Some. eauto.
  - intros p. rewrite Hst. destruct (decide (t = p)) as [<-|]; [done|auto].
  - intros p [c0 [Hne Hc0]%lookup_delete_Some]. rewrite Hst, decide_False by done. eauto.
  - intros p st. rewrite Hst. destruct (decide (t = p)) as [<-|Hne]; [naive_solver|].
    rewrite lookup_delete_ne by done. apply Ga.
Qed.

Lemma exec_exit rest : code m !! t = Some (I_exit :: rest) → good 0 m (run I_exit rest m).
Proof using Hm.
  intros Hc. pose proof (code_wf m Hm _ _ Hc ltac:(done) ltac:(done)) as [HH ->].
  assert (Hni : idle_thread k ≠ Some t) by by eapply not_idle.
  destruct (cur_thread m Hm) as (th & Hth & Hmg & Hst).
  set (k2 := with_threads (<[t := set_status THREAD_DYING th]>)
    (with_all (filter (λ x, x ≠ t) (all_list k)) (with_intr false (in_external_intr k) (yield_on_return k) k))).
  assert (Hhb : ∀ t', default ∅ (delete t (held m) !! t') = held_by m t').
  { intros t'. destruct (decide (t = t')) as [<-|]; [by rewrite lookup_delete_eq|by rewrite lookup_delete_ne]. }
  destruct (switch_minv k2 (delete t (code m)) (delete t (held m)) (set_status THREAD_DYING th))
    as (k' & Hrun & Htk & _ & Hrl & Hm'); try done.
  - apply (sched_exit th); try done. apply (s_ext _ _ (i_sched _ Hm)).
  - cbn. apply lookup_insert_eq.
  - intros t' c0 [_ Hc0]%lookup_delete_Some Hni'. rewrite Hhb. eapply wfc_mono; [|by apply (i_wf _ Hm)]. by split_and!.
  - intros l h Hl. eapply lock_frame; [| | |by apply (i_locks _ Hm)].
    + eauto.
    + intros t'. unfold pending. split.
      * intros (c0 & [_ Hc0]%lookup_delete_Some & Hp). eauto.
      * intros (c0 & Hc0 & Hp). exists c0. rewrite lookup_delete_ne; [done|]. intros <-. by simplify_eq.
    + intros t' Hl'. by rewrite Hhb.
  - intros t' l. rewrite Hhb. intros Hl. destruct (i_held _ Hm _ _ Hl) as [? ?]. split; [done|].
    rewrite lookup_delete_ne; [done|]. intros <-. by rewrite HH in Hl.
  - eapply wake_frame; [apply (wake_same m Hm)| |by apply (i_wake _ Hm)].
    intros s p Hw. assert (p ≠ t) by (intros ->; destruct Hw as (_ & o & c0 & Hc0); congruence).
    revert Hw. apply woken_frame; [|intros o c0 ?; rewrite lookup_delete_ne by done; eauto].
    unfold k2. rewrite stat_insert, decide_False by done. done.
  - apply (i_conds _ Hm).
  - intros p thp w ws. cbn. intros [[<- <-]|[_ Hp']]%lookup_insert_Some; cbn; by eapply (i_waits _ Hm).
  - apply (i_tid _ Hm).
  - unfold exec. erewrite on_kern_bind; cycle 1.
    { unfold thread_exit_tail. rewrite (bind_Ret _ _ _ (intr_on k) (with_intr false (in_external_intr k) (yield_on_return k) k)) by done.
      rewrite (thread_current_bind _ _ th) by done. rewrite modify_bind.
      rewrite (upd_thread_bind _ _ _ _ th) by done. exact Hrun. }
    eexists. split_and!; [done| |done]. by apply (moves_switch m k2 k' []); [|rewrite app_nil_r|].
Qed.
End instrs.

(** ** The timer interrupt *)
Lemma retimed_minv on y n1 n2 n3 n4 :
  (0 <= n1 < TIME_SLICE)%Z → (∀ c, code m !! t = Some c → not_loop c) →
  minv (mk_machine (retimed on y n1 n2 n3 n4) (code m) (held m)).
Proof using Hm.
  intros Hn Hnl. destruct Hm as [Hs Hr Hi Hw Hlk Hh Hwk Hcd Hch Htid Hti]. split; try done.
  - cbn [kern code]. eapply sched_quiet; [|done]. split; try done; [eauto|by rewrite (s_ext _ _ Hs)|eauto|eauto].
  - intros s old c Hc. by destruct (Hnl _ Hc s old c).
  - intros t' c Hc Hni. eapply wfc_mono; [|by apply Hw]. by split_and!.
Qed.

(** The handler: the counters grow, and at the end of the time slice the
    thread is to yield. *)
Lemma tick_run th :
  threads k !! t = Some th → magic th = THREAD_MAGIC → status th = THREAD_RUNNING →
  ∃ n2 n3 n4, timer_interrupt k =
    if (TIME_SLICE <=? thread_ticks k + 1)%Z
    then (thread_yield;; mret true) (retimed false true (thread_ticks k + 1) n2 n3 n4)
    else Ret (false, retimed true false (thread_ticks k + 1) n2 n3 n4).
Proof using Hm.
  intros Hth Hmg Hst. pose proof (i_ticks _ Hm) as Hti. unfold TIME_SLICE in *.
  assert (Hu : u32 (thread_ticks k + 1) = (thread_ticks k + 1)%Z) by (unfold u32; apply Z.mod_small; lia).
  pose proof (s_ext _ _ (i_sched _ Hm)) as He.
  unfold timer_interrupt, thread_tick, intr_context, intr_get_level. rewrite modify_bind.
  rewrite gets_bind, ASSERT_bind by (cbn; by rewrite He). rewrite modify_bind.
  rewrite bind_assoc, (thread_current_bind _ _ th) by done.
  rewrite bind_assoc, (load_thread_bind _ _ _ th) by done. rewrite bind_assoc, modify_bind.
  rewrite bind_assoc, modify_bind. cbn [current with_intr idle_thread].
  destruct (bool_decide (Some t = idle_thread k)); [|destruct (bool_decide (is_Some (pagedir th)))];
    rewrite bind_assoc, gets_bind; cbn [thread_ticks with_ticks with_intr]; rewrite Hu;
    do 3 eexists; unfold TIME_SLICE; (destruct (4 <=? thread_ticks k + 1)%Z;
    [unfold intr_yield_on_return, intr_context; rewrite bind_assoc, gets_bind, bind_assoc, ASSERT_bind by done|];
    [rewrite modify_bind, gets_bind, ASSERT_bind, gets_bind, ASSERT_bind, modify_bind, gets_bind by done; reflexivity
    |rewrite ret_bind, gets_bind, ASSERT_bind, gets_bind, ASSERT_bind, modify_bind, gets_bind by done; reflexivity]).
Qed.

Lemma tick_ok c :
  intr_on k = true → code m !! t = Some c →
  good 1 m ((y ← on_kern timer_interrupt; if (y : bool) then set_code t (I_intr_set true :: c) else mret tt) m).
Proof using Hm.
  intros Hon Hc. destruct (cur_thread m Hm) as (th & Hth & Hmg & Hst).
  assert (Hnl : not_loop c).
  { intros s o c0 ->. rewrite (i_intr _ Hm _ _ _ Hc) in Hon. done. }
  destruct (tick_run th Hth Hmg Hst) as (n2 & n3 & n4 & Hrun). pose proof (i_ticks _ Hm) as Hti.
  destruct (TIME_SLICE <=? thread_ticks k + 1)%Z eqn:E.
  - destruct (yield_ok false true (thread_ticks k + 1) n2 n3 n4 c (I_intr_set true :: c) Hc Hnl)
      as (k' & Hy & Hmv & Hm'); try done.
    + intros Hni. split; [done|]. by apply (i_wf _ Hm).
    + intros Hi. constructor. by apply (idle_is m Hm).
    + rewrite (bind_Ret _ _ _ _ _ Hy) in Hrun. rewrite (on_kern_bind _ _ _ _ _ Hrun).
      eexists. by split_and!; [apply set_code_run|apply Hmv|].
  - rewrite (on_kern_bind _ _ _ _ _ Hrun). apply Z.leb_gt in E. eexists. split_and!; [done| |].
    + left. split_and!; [done|done|]. exists []. by rewrite app_nil_r.
    + apply retimed_minv; [lia|]. intros c0 Hc0. by simplify_eq.
Qed.
End switch.
