(* ===== verification/SchedCreate.v ===== *)
(** Thread creation: [thread_create] and [allocate_tid]. *)
From S2P Require Import Prelude Thread Synch Sched SchedInv SchedSpec SchedExec.

Section sched.
Context (k : kernel) (cd : gmap tptr (list instr)) (Hok : sched_ok k cd).
Context (k2 : kernel) (t p : tptr) (c c' : list instr) (th : thread).
Context (Hc : cd !! t = Some c) (Hni : idle_thread k ≠ Some t).
Context (Hrun : stat k t = Some THREAD_RUNNING).
Context (Et : threads k2 = <[p := th]> (threads k)) (Hmg : magic th = THREAD_MAGIC).
Context (Es : semas k2 = semas k) (Ec : current k2 = current k) (Ei : idle_thread k2 = idle_thread k).
Context (Ee : in_external_intr k2 = in_external_intr k).

Lemma create_stat q : stat k2 q = if decide (p = q) then Some (status th) else stat k q.
Proof using Et.
  unfold stat. rewrite Et. clear. destruct (decide (p = q)) as [->|];
    [by rewrite lookup_insert_eq|by rewrite lookup_insert_ne].
Qed.

Lemma create_magic q thq : threads k2 !! q = Some thq → magic thq = THREAD_MAGIC.
Proof using Hok Et Hmg. rewrite Et. intros [[<- <-]|[_ Hq]]%lookup_insert_Some; [done|by eapply (s_magic _ _ Hok)]. Qed.

(** A new page becomes a blocked thread that [t] builds. *)
Lemma sched_new :
  threads k !! p = None → status th = THREAD_BLOCKED → ready_list k2 = ready_list k → builds c' = p :: builds c →
  sched_ok k2 (<[t:=c']> cd).
Proof using Hok Hc Hni Hrun Et Hmg Es Ec Ei Ee.
  intros Hp Hst Er Hb. assert (Hsp : stat k p = None) by (unfold stat; by rewrite Hp).
  pose proof create_stat as Hs. rewrite Hst in Hs. assert (Htp : t ≠ p) by congruence.
  pose proof create_magic as Hmg'. destruct Hok as [Gm Gi Grn Gr Gw Gwn Gb Gbu Gbq Gbn Grun Gc Ga Ge].
  assert (Hcp : cd !! p = None).
  { destruct (cd !! p) eqn:E; [|done]. destruct (Gc p) as (st & ? & _); [eauto|congruence]. }
  assert (Hget : ∀ t0 c0 q, <[t:=c']> cd !! t0 = Some c0 → q ∈ builds c0 →
    (t0 = t ∧ q = p) ∨ ∃ c1, cd !! t0 = Some c1 ∧ q ∈ builds c1).
  { intros t0 c0 q [[<- <-]|[_ H0]]%lookup_insert_Some Hq; [|eauto]. rewrite Hb in Hq.
    apply elem_of_cons in Hq as [->|]; [auto|eauto]. }
  assert (Hold : ∀ t0 c0, cd !! t0 = Some c0 → p ∉ builds c0).
  { intros t0 c0 H0 Hq. destruct (Gbu t0 c0 p H0 Hq). congruence. }
  split; rewrite ?Er, ?Es, ?Ei, ?Ec, ?Ee; try done.
  - destruct Gi as (i & ci & Hi & Hci & Hic). exists i, ci. rewrite lookup_insert_ne by congruence. done.
  - intros q. rewrite Gr, Hs. destruct (decide (p = q)) as [<-|]; [rewrite Hsp; naive_solver|done].
  - intros s x q Hx Hq. destruct (Gw s x q Hx Hq) as (E & Hpi & old & c0 & Hc0).
    rewrite Hs, decide_False by congruence. split_and!; [done..|]. exists old, c0.
    by rewrite lookup_insert_ne by congruence.
  - intros q. rewrite Hs. destruct (decide (p = q)) as [<-|Hne].
    + intros _. right; right. exists t, c'. rewrite lookup_insert_eq, Hb. split; [done|by left].
    + intros Hq. destruct (Gb q Hq) as [|[|(t0 & c0 & Hc0 & Hq0)]]; [auto..|]. right; right.
      destruct (decide (t = t0)) as [<-|]; [|exists t0, c0; by rewrite lookup_insert_ne].
      exists t, c'. rewrite lookup_insert_eq, Hb. split; [done|]. right. congruence.
  - intros t0 c0 q H0 Hq. destruct (Hget t0 c0 q H0 Hq) as [[-> ->]|(c1 & H1 & Hq1)].
    + rewrite Hs, decide_True by done. by rewrite lookup_insert_ne.
    + destruct (Gbu t0 c1 q H1 Hq1) as [E Hn]. rewrite Hs, decide_False by congruence.
      rewrite lookup_insert_ne by congruence. done.
  - intros t0 c0 t1 c1 q H0 H1 Hq0 Hq1.
    destruct (Hget _ _ _ H0 Hq0) as [[-> ->]|(c2 & H2 & Hq2)], (Hget _ _ _ H1 Hq1) as [[-> Hqp]|(c3 & H3 & Hq3)]; try done.
    + by destruct (Hold _ _ H3).
    + subst. by destruct (Hold _ _ H2).
    + eauto.
  - intros t0 c0 [[<- <-]|[_ H0]]%lookup_insert_Some; [|eauto]. rewrite Hb. apply NoDup_cons. eauto.
  - intros q. rewrite Hs. destruct (decide (p = q)) as [<-|]; [done|auto].
  - intros q [c0 H0]. rewrite Hs. destruct (decide (p = q)) as [<-|]; [by eexists|].
    apply lookup_insert_Some in H0 as [[<- <-]|[_ H0]]; eauto.
  - intros q st. rewrite Hs. destruct (decide (p = q)) as [<-|Hne]; [naive_solver|]. intros Hq Hst'.
    destruct (decide (t = q)) as [<-|]; [rewrite lookup_insert_eq; eauto|]. rewrite lookup_insert_ne by done. eauto.
Qed.

(** The thread that [t] built becomes ready, with code of its own. *)
Lemma sched_start :
  status th = THREAD_READY → ready_list k2 = ready_list k ++ [p] → builds c = p :: builds c' →
  sched_ok k2 (<[t:=c']> (<[p:=[I_intr_set true]]> cd)).
Proof using Hok Hc Hni Hrun Et Hmg Es Ec Ei Ee.
  intros Hst Er Hb. pose proof create_stat as Hs. rewrite Hst in Hs.
  pose proof create_magic as Hmg'. destruct Hok as [Gm Gi Grn Gr Gw Gwn Gb Gbu Gbq Gbn Grun Gc Ga Ge].
  destruct (Gbu t c p Hc) as [Hpb Hcp]; [rewrite Hb; by left|]. assert (Htp : t ≠ p) by congruence.
  assert (Hpi : idle_thread k ≠ Some p).
  { intros Hi. destruct Gi as (i & ci & Hi' & Hci & _). congruence. }
  assert (Hpw : ∀ s x, semas k !! s = Some x → p ∉ waiters x).
  { intros s x Hx Hq. destruct (Gw s x p Hx Hq) as (_ & _ & o & c0 & H0). congruence. }
  assert (Hlk : ∀ q, q ≠ t → q ≠ p → <[t:=c']> (<[p:=[I_intr_set true]]> cd) !! q = cd !! q).
  { intros q H1 H2. by rewrite !lookup_insert_ne. }
  assert (Hlt : <[t:=c']> (<[p:=[I_intr_set true]]> cd) !! t = Some c') by apply lookup_insert_eq.
  assert (Hlp : <[t:=c']> (<[p:=[I_intr_set true]]> cd) !! p = Some [I_intr_set true])
    by (rewrite lookup_insert_ne by done; apply lookup_insert_eq).
  pose proof (Gbn t c Hc) as Hnd. rewrite Hb in Hnd. apply NoDup_cons in Hnd as [Hpc' Hnd'].
  assert (Hget : ∀ t0 c0 q, <[t:=c']> (<[p:=[I_intr_set true]]> cd) !! t0 = Some c0 → q ∈ builds c0 →
    q ≠ p ∧ ∃ c1, cd !! t0 = Some c1 ∧ q ∈ builds c1).
  { intros t0 c0 q H0 Hq. destruct (decide (t0 = t)) as [->|H1].
    - rewrite Hlt in H0. simplify_eq. split; [by intros ->|]. exists c. rewrite Hb. split; [done|by right].
    - destruct (decide (t0 = p)) as [->|H2]; [rewrite Hlp in H0; simplify_eq; by apply elem_of_nil in Hq|].
      rewrite Hlk in H0 by done. split; [|eauto]. intros ->. apply H1. eapply Gbq; [done..|]. rewrite Hb. by left. }
  set (cd' := <[t:=c']> (<[p:=[I_intr_set true]]> cd)) in *.
  split; rewrite ?Es, ?Ei, ?Ec, ?Ee; try done.
  - destruct Gi as (i & ci & Hi & Hci & Hic). exists i, ci. rewrite Hlk by congruence. done.
  - rewrite Er. apply NoDup_app. split_and!; [done| |apply NoDup_singleton].
    intros q Hq ->%list_elem_of_singleton. apply Gr in Hq as [? _]. congruence.
  - intros q. rewrite Er, elem_of_app, list_elem_of_singleton, Gr, Hs.
    destruct (decide (p = q)) as [<-|]; naive_solver.
  - intros s x q Hx Hq. destruct (Gw s x q Hx Hq) as (E & Hqi & old & c0 & Hc0).
    assert (q ≠ p) by (intros ->; by destruct (Hpw s x Hx)).
    rewrite Hs, decide_False by done. split_and!; [done..|]. exists old, c0. rewrite Hlk; [done|congruence|done].
  - intros q. rewrite Hs. destruct (decide (p = q)) as [<-|Hne]; [done|].
    intros Hq. destruct (Gb q Hq) as [|[|(t0 & c0 & Hc0 & Hq0)]]; [auto..|]. right; right.
    destruct (decide (t0 = t)) as [->|].
    + exists t, c'. split; [done|]. rewrite Hc in Hc0. simplify_eq. rewrite Hb in Hq0.
      by apply elem_of_cons in Hq0 as [->|].
    + exists t0, c0. rewrite Hlk; [done|done|congruence].
  - intros t0 c0 q H0 Hq. destruct (Hget t0 c0 q H0 Hq) as (Hqp & c1 & H1 & Hq1).
    destruct (Gbu t0 c1 q H1 Hq1) as [E Hn]. rewrite Hs, decide_False by done. rewrite Hlk; [done|congruence|done].
  - intros t0 c0 t1 c1 q H0 H1 Hq0 Hq1.
    destruct (Hget _ _ _ H0 Hq0) as (_ & c2 & H2 & Hq2), (Hget _ _ _ H1 Hq1) as (_ & c3 & H3 & Hq3). eauto.
  - intros t0 c0 H0. destruct (decide (t0 = t)) as [->|H1]; [by simplify_eq|].
    destruct (decide (t0 = p)) as [->|H2]; [simplify_eq; constructor|]. rewrite Hlk in H0 by done. eauto.
  - intros q. rewrite Hs. destruct (decide (p = q)) as [<-|]; [done|auto].
  - intros q [c0 H0]. rewrite Hs. destruct (decide (p = q)) as [<-|Hne]; [by eexists|].
    destruct (decide (q = t)) as [->|]; [eauto|]. rewrite Hlk in H0 by done. eauto.
  - intros q st. rewrite Hs. destruct (decide (p = q)) as [<-|Hne]; [eauto|]. intros Hq Hst'.
    destruct (decide (q = t)) as [->|]; [eauto|]. rewrite Hlk by done. eauto.
Qed.
End sched.

Lemma with_threads_twice p a b k :
  with_threads (<[p:=a]>) (with_threads (<[p:=b]>) k) = with_threads (<[p:=a]>) k.
Proof. unfold with_threads. cbn. by rewrite insert_insert_eq. Qed.

Lemma alloc_frame_bind {A} (f : Z → cmd kernel A) p n th k :
  magic th = THREAD_MAGIC → (n mod 4 = 0)%Z →
  (alloc_frame p n ≫= f) (with_threads (<[p:=th]>) k) =
    f (stack th - n)%Z (with_threads (<[p:=set_stack (stack th - n) th]>) k).
Proof.
  intros Hm Hn. unfold alloc_frame. rewrite bind_assoc, (is_thread_bind _ _ _ th); [|apply lookup_insert_eq|done].
  rewrite bind_assoc, ASSERT_bind, bind_assoc, ASSERT_bind by (done || by apply Z.eqb_eq).
  rewrite bind_assoc, (upd_thread_bind _ _ _ _ th) by apply lookup_insert_eq. rewrite with_threads_twice.
  rewrite bind_assoc, (load_thread_bind _ _ _ (set_stack (stack th - n) th)) by apply lookup_insert_eq. done.
Qed.

Section create.
Context (m : machine) (Hm : minv m).
Abbreviation k := (kern m).
Abbreviation t := (current (kern m)).
Abbreviation H := (held_by m (current (kern m))).

(** Claiming the parent's entry changes the table of entries only. *)
Lemma claim_run parent n p th :
  threads k !! t = Some parent →
  ∃ ws kw, claim_wait_status parent n (with_threads (<[p:=th]>) k) = Ret (ws, with_threads (<[p:=th]>) kw) ∧
    (kw = k ∨ ∃ w st, kw = with_wait w st k).
Proof using Hm.
  intros Hp. unfold claim_wait_status. destruct (children parent) as [|w ws] eqn:E; [by exists None, k; auto|].
  rewrite gets_bind. cbn. destruct (i_waits _ Hm _ _ _ _ Hp E) as [st ->].
  destruct (ref_count st =? -1)%Z; [|by exists None, k; auto].
  exists (Some w), (with_wait w (mk_ws (-1) n 2) k). split; [done|eauto].
Qed.

(** What [thread_create] has done when it returns. *)
Record created (p : tptr) (k' : kernel) : Prop := {
  c_thread : ∃ th0 th', threads k !! p = Some th0 ∧ threads k' = <[p := th']> (threads k) ∧
    status th' = THREAD_READY ∧ magic th' = THREAD_MAGIC ∧ children th' = children th0;
  c_ready : ready_list k' = ready_list k ++ [p];
  c_semas : semas k' = semas k; c_holders : holders k' = holders k; c_conds : conds k' = conds k;
  c_current : current k' = t; c_idle : idle_thread k' = idle_thread k;
  c_ext : in_external_intr k' = in_external_intr k; c_ticks : thread_ticks k' = thread_ticks k;
  c_waits : ∀ w, is_Some (waits k !! w) → is_Some (waits k' !! w) }.

Section instrs.
Context (dir_reopen : positive → option positive) (palloc_get_page : kernel → option tptr).
Abbreviation run := (exec dir_reopen palloc_get_page t).

Lemma create_finish_run p n rest :
  code m !! t = Some (I_create_finish p n :: rest) →
  ∃ k', thread_create_finish dir_reopen p n k = Ret (n, k') ∧ created p k'.
Proof using Hm.
  intros Hc. pose proof (i_sched _ Hm) as Hok. destruct (cur_thread m Hm) as (tht & Htt & Hmt & Hst).
  destruct (s_build _ _ Hok t _ p Hc) as [Hpb Hcp]; [by left|].
  pose proof Hpb as (th & Hth & Hs)%stat_Some. pose proof (s_magic _ _ Hok _ _ Hth) as Hmg.
  assert (Htp : t ≠ p) by (intros E; rewrite <- E in *; congruence).
  unfold thread_create_finish. rewrite (upd_thread_bind _ _ _ _ th) by done.
  rewrite !alloc_frame_bind by done. match goal with |- context [with_threads (<[p:=?x]>) k] => set (th1 := x) end.
  rewrite (thread_current_bind _ _ tht) by (cbn; rewrite ?lookup_insert_ne by done; done).
  rewrite (load_thread_bind _ _ _ tht) by (cbn; rewrite ?lookup_insert_ne by done; done).
  destruct (claim_run tht n p th1 Htt) as (ws & kw & Hcl & Hkw). rewrite (bind_Ret _ _ _ _ _ Hcl).
  rewrite (upd_thread_bind _ _ _ _ th1) by apply lookup_insert_eq. rewrite with_threads_twice.
  erewrite upd_thread_bind by apply lookup_insert_eq. rewrite with_threads_twice.
  match goal with |- context [with_threads (<[p:=?x]>) kw] => set (th2 := x) end.
  assert (Hk : in_external_intr kw = false ∧ ready_list kw = ready_list k ∧ semas kw = semas k)
    by (pose proof (s_ext _ _ Hok); destruct Hkw as [->|(w & st & ->)]; done).
  destruct Hk as (He & Hr & Hse).
  eexists. split.
  - unfold thread_unblock, intr_disable, intr_get_level.
    rewrite bind_assoc, (is_thread_bind _ _ _ th2) by (done || apply lookup_insert_eq).
    rewrite bind_assoc, ASSERT_bind by done.
    rewrite bind_assoc, bind_assoc, gets_bind, bind_assoc, modify_bind, ret_bind.
    rewrite bind_assoc, (load_thread_bind _ _ _ th2) by apply lookup_insert_eq.
    rewrite bind_assoc, ASSERT_bind by by rewrite bool_decide_true.
    rewrite bind_assoc. erewrite bind_Ret; cycle 1.
    { unfold push_ready. rewrite linked_false; [done|cbn; rewrite Hr|cbn; rewrite Hse].
      - intros Hpr. apply (s_ready _ _ Hok) in Hpr as [? _]. congruence.
      - intros s x Hx Hpx. destruct (s_wait _ _ Hok s x p Hx Hpx) as (_ & _ & o & c & ?). congruence. }
    rewrite bind_assoc, (upd_thread_bind _ _ _ _ th2) by apply lookup_insert_eq.
    rewrite bind_assoc. erewrite bind_Ret; [|apply intr_set_run; cbn; exact He]. done.
  - assert (Hth' : ∀ f, <[p:=f]> (<[p:=th2]> (threads k)) = <[p:=f]> (threads k)) by (intros f; apply insert_insert_eq).
    destruct Hkw as [->|(w & st & ->)]; split; try done.
    + exists th, (set_status THREAD_READY th2). split_and!; try done. apply Hth'.
    + exists th, (set_status THREAD_READY th2). split_and!; try done. apply Hth'.
    + intros w0 Hw0. cbn. destruct (decide (w = w0)) as [<-|]; [rewrite lookup_insert_eq; eauto|].
      by rewrite lookup_insert_ne.
Qed.

(** Locks and wake-ups when threads are added and the running thread goes on
    with [c']. *)
Lemma lock_start k' cd' c c' l h :
  code m !! t = Some c → cd' !! t = Some c' → (∀ l, ¬ pend l c) → (∀ l, ¬ pend l c') →
  (∀ t', t' ≠ t → cd' !! t' = code m !! t' ∨ (code m !! t' = None ∧ cd' !! t' = Some [I_intr_set true])) →
  semas k' = semas k → holders k !! l = Some h →
  lock_ok k' cd' (λ t', if decide (t' = t) then H else held_by m t') l h.
Proof using Hm.
  intros Hc Hc' Hp Hp' Hoth Hs Hh. eapply lock_frame; [| | |by apply (i_locks _ Hm)].
  - intros x Hx. rewrite Hs. eauto.
  - intros t'. unfold pending. destruct (decide (t' = t)) as [->|Hne].
    + split; intros (c0 & Hc0 & Hp0); simplify_eq; exfalso; [by eapply Hp'|by eapply Hp].
    + destruct (Hoth t' Hne) as [->|[-> ->]]; [done|]. split; intros (c0 & Hc0 & Hp0); simplify_eq; done.
  - intros t' Hl. by destruct (decide (t' = t)) as [->|].
Qed.

Lemma wake_start k' cd' c :
  code m !! t = Some c → not_loop c → (∀ t', t' ≠ t → is_Some (code m !! t') → cd' !! t' = code m !! t') →
  semas k' = semas k → (∀ q, is_Some (code m !! q) → stat k' q = stat k q) → wake_ok k' cd'.
Proof using Hm.
  intros Hc Hnl Hoth Hs Hst. eapply wake_frame; [| |by apply (i_wake _ Hm)].
  - rewrite Hs. apply (wake_same m Hm).
  - intros s q Hw. pose proof Hw as (_ & o & c0 & Hc0).
    assert (q ≠ t) by (intros ->; rewrite Hc in Hc0; simplify_eq; by apply (Hnl s o c0)).
    revert Hw. apply woken_frame; [by rewrite Hst by eauto|]. intros o' c1 Hq. rewrite Hoth; eauto.
Qed.

Lemma exec_take_tid p rest : code m !! t = Some (I_take_tid p :: rest) → good 0 m (run (I_take_tid p) rest m).
Proof using Hm.
  intros Hc. pose proof (code_wf m Hm _ _ Hc ltac:(done) ltac:(done)) as [Hl Hwf]. unfold exec.
  erewrite on_kern_bind; [|unfold take_tid; rewrite gets_bind, modify_bind; done].
  eexists. split_and!; [apply set_code_run|by apply stay|].
  apply (plain_ok m Hm _ (I_take_tid p :: rest)); try done.
  - split; eauto.
  - intros Hi. by destruct (not_idle m Hm _ _ Hc ltac:(done) ltac:(done)).
  - intros _. cbn [wfc wf thread_create_rest lock_release app]. split_and!; [done..|]. eapply wf_mono; [|done]. by split_and!.
  - eapply (wake_code m Hm); [done|done|done|apply (wake_same m Hm)].
  - apply (i_conds _ Hm).
Qed.

Lemma init_thread_run p nm prio :
  (PRI_MIN <= prio <= PRI_MAX)%Z → ∃ th, init_thread p nm prio k =
    Ret (tt, with_all (all_list k ++ [p]) (with_threads (<[p := th]>) k)) ∧
    status th = THREAD_BLOCKED ∧ magic th = THREAD_MAGIC ∧ children th = [].
Proof using Hm.
  intros Hp. unfold init_thread, PRI_MIN, PRI_MAX in *. rewrite ASSERT_bind by (apply andb_true_intro; lia).
  rewrite modify_bind. unfold intr_disable, intr_get_level.
  rewrite bind_assoc, gets_bind, bind_assoc, modify_bind, ret_bind, modify_bind.
  erewrite bind_Ret; [|apply intr_set_run; apply (s_ext _ _ (i_sched _ Hm))].
  match goal with |- context [with_threads (<[p:=?x]>) k] => exists x end. done.
Qed.

Lemma exec_create nm prio rest :
  (∀ k p, palloc_get_page k = Some p → threads k !! p = None) →
  code m !! t = Some (I_create nm prio :: rest) → good 0 m (run (I_create nm prio) rest m).
Proof using Hm.
  intros Hpal Hc. pose proof (code_wf m Hm _ _ Hc ltac:(done) ltac:(done)) as (Hprio & Hl & Hwf).
  assert (Hni : idle_thread k ≠ Some t) by by eapply not_idle. unfold exec. rewrite gets_bind.
  assert (Hnp : ∀ l, ¬ pend l rest) by (intros l Hp; by apply (wf_not_pend _ _ _ _ Hwf) in Hp).
  destruct (palloc_get_page k) as [p|] eqn:Hp; cycle 1.
  { eexists. split_and!; [apply set_code_run|by apply stay|].
    apply (code_ok m Hm (I_create nm prio :: rest)); try done; [by eapply wf_not_loop|intros _; by apply wf_wfc|].
    intros l. split; [|done]. intros Hpe. by destruct (Hnp l). }
  pose proof (Hpal k p Hp) as Hfree. destruct (init_thread_run p nm prio Hprio) as (th & Hrun & Hst & Hmg & Hch).
  rewrite (on_kern_bind _ _ _ _ _ Hrun). eexists. split_and!; [apply set_code_run|by apply stay|].
  cbn [kern code held]. set (k2 := with_all _ _). set (c' := allocate_tid p ++ rest).
  assert (Hs : ∀ q, is_Some (code m !! q) → stat k2 q = stat k q).
  { intros q Hq. rewrite (create_stat k k2 p th eq_refl), decide_False; [done|]. intros <-.
    destruct (s_code _ _ (i_sched _ Hm) p Hq) as (st & E & _). unfold stat in E. by rewrite Hfree in E. }
  apply (local_core m Hm k2 _ c' (held m) H); try done.
  - intros _. destruct (i_tid _ Hm) as [h Hh]. assert (Hlk : lock_in k2 tid_lock) by by eexists.
    cbn [wfc wf allocate_tid lock_acquire app c']. split_and!; [done..|set_solver|].
    replace (({[tid_lock]} ∪ H) ∖ {[tid_lock]}) with H by set_solver. eapply wf_mono; [|done]. by split_and!.
  - intros t'. fold (held_by m t'). by destruct (decide (t' = t)) as [->|].
  - by apply (sched_new k (code m) (i_sched _ Hm) k2 t p (I_create nm prio :: rest) c' th Hc Hni (i_run _ Hm)).
  - rewrite Hs by eauto. apply (i_run _ Hm).
  - apply lookup_insert_eq.
  - intros t' c0. apply insert_others.
  - intros t'. apply insert_some.
  - apply (i_held _ Hm).
  - intros l h Hh. eapply (lock_start k2 _ (I_create nm prio :: rest) c'); [done| |intros l0 []|intros l0 []| |done|done].
    + by rewrite lookup_insert_eq.
    + intros t' Hne. left. by rewrite lookup_insert_ne.
  - eapply (wake_start k2 _ (I_create nm prio :: rest)); try done.
    intros t' Hne _. by rewrite lookup_insert_ne.
  - apply (i_conds _ Hm).
  - intros q thq w ws. cbn. intros [[<- <-]|[_ Hq]]%lookup_insert_Some Hch'; [congruence|]. by eapply (i_waits _ Hm).
Qed.

Lemma exec_create_finish p n rest :
  code m !! t = Some (I_create_finish p n :: rest) → good 0 m (run (I_create_finish p n) rest m).
Proof using Hm.
  intros Hc. pose proof (code_wf m Hm _ _ Hc ltac:(done) ltac:(done)) as Hwf. cbn [wfc wf] in Hwf.
  assert (Hni : idle_thread k ≠ Some t) by by eapply not_idle.
  destruct (s_build _ _ (i_sched _ Hm) t _ p Hc) as [Hpb Hcp]; [by left|].
  assert (Htp : p ≠ t) by congruence.
  assert (Hnp : ∀ l, ¬ pend l rest) by (intros l Hp; by apply (wf_not_pend _ _ _ _ Hwf) in Hp).
  destruct (create_finish_run p n rest Hc) as (k' & Hrun & [(th0 & th & Hth0 & Eth & Hst & Hmg & Hch) Er Es Eh Ecd Ec Ei Ee Etk Hw]).
  unfold exec. rewrite (on_kern_bind _ _ _ _ _ Hrun). rewrite set_code_bind.
  eexists. split_and!; [done|by eapply stay_app|]. cbn [kern code held].
  set (cd' := <[t:=rest]> (<[p:=[I_intr_set true]]> (code m))).
  assert (Hoth : ∀ t', t' ≠ t → cd' !! t' = code m !! t' ∨ (code m !! t' = None ∧ cd' !! t' = Some [I_intr_set true])).
  { intros t' Hne. unfold cd'. rewrite lookup_insert_ne by done. destruct (decide (t' = p)) as [->|].
    - rewrite lookup_insert_eq. auto.
    - rewrite lookup_insert_ne by done. auto. }
  assert (Hct : cd' !! t = Some rest) by apply lookup_insert_eq.
  assert (Hg : objects_grow k k') by (unfold objects_grow, lock_in, cond_in, sema_in; rewrite Eh, Ecd, Es; auto).
  assert (Hs : ∀ q, is_Some (code m !! q) → stat k' q = stat k q).
  { intros q Hq. rewrite (create_stat k k' p th Eth), decide_False; [done|]. intros <-. by destruct Hq; congruence. }
  apply (local_core m Hm k' cd' rest _ H); try done.
  - by eapply wf_not_loop.
  - intros _. apply wf_wfc. by eapply wf_mono.
  - intros t'. cbn. destruct (decide (t' = p)) as [->|].
    + rewrite lookup_insert_eq, decide_False by done. cbn. symmetry. apply set_eq. intros l. split; [|set_solver].
      intros Hl. destruct (i_held _ Hm _ _ Hl) as [_ [? ?]]. congruence.
    + rewrite lookup_insert_ne by done. fold (held_by m t'). by destruct (decide (t' = t)) as [->|].
  - by apply (sched_start k (code m) (i_sched _ Hm) k' t p (I_create_finish p n :: rest) rest th Hc Hni (i_run _ Hm)).
  - rewrite Hs by eauto. apply (i_run _ Hm).
  - intros t' c0 Hne Hc0. destruct (Hoth t' Hne) as [E|[_ E]]; rewrite E in Hc0; [auto|]. right. congruence.
  - intros t' Ht'. destruct (decide (t' = t)) as [->|Hne]; [eauto|]. destruct (Hoth t' Hne) as [->|[_ ->]]; eauto.
  - rewrite Eh. apply (i_held _ Hm).
  - by rewrite Eh.
  - intros l h. rewrite Eh. intros Hh. apply (lock_start k' cd' (I_create_finish p n :: rest) rest); try done. intros l0 [].
  - apply (wake_start k' cd' (I_create_finish p n :: rest)); try done.
    intros t' Hne Ht'. destruct (Hoth t' Hne) as [|[E _]]; [done|]. rewrite E in Ht'. by destruct Ht'.
  - rewrite Ecd. intros cv ws w Hcv Hw'. apply Hg. by apply (i_conds _ Hm cv ws).
  - intros q thq w ws. rewrite Eth. intros [[<- <-]|[_ Hq]]%lookup_insert_Some Hch'.
    + apply Hw. rewrite Hch in Hch'. by eapply (i_waits _ Hm).
    + apply Hw. by eapply (i_waits _ Hm).
Qed.
End instrs.
End create.
