(* ===== verification/Boot.v ===== *)
(** * Starting the threads (threads/thread.c: [thread_init], [thread_start],
    [idle])

    [thread_init] turns the code that runs at boot into the thread "main";
    [thread_start] creates the idle thread and waits until it has stored its
    own address in [idle_thread].  Nothing else runs meanwhile and the timer
    does not tick, so the start is one computation, which ends in the machine
    [booted]. *)
From S2P Require Import Prelude Thread Synch Sched.

Definition with_roles (idle init : option tptr) (k : kernel) : kernel :=
  mk_kernel (threads k) (ready_list k) (all_list k) (current k) idle init
    (next_tid k) (thread_ticks k) (idle_ticks k) (kernel_ticks k) (user_ticks k)
    (intr_on k) (in_external_intr k) (yield_on_return k) (semas k) (holders k) (conds k) (waits k).

(** The kernel's memory before [thread_init]: zeroes, [next_tid] is 1. *)
Definition no_threads (p : tptr) : kernel :=
  mk_kernel ∅ [] [] p None None 1 0 0 0 0 false false false ∅ ∅ ∅ ∅.

Definition main_name : list Z := [109; 97; 105; 110]%Z.
Definition idle_name : list Z := [105; 100; 108; 101]%Z.

(** [allocate_tid] called while only one thread exists. *)
Definition allocate_first_tid : cmd kernel Z :=
  b ← lock_held_by_current_thread tid_lock;
  ASSERT (negb b);;
  sema_down (inr tid_lock);;
  t ← thread_current;
  modify (with_holder tid_lock (Some t));;
  n ← take_tid;
  b ← lock_held_by_current_thread tid_lock;
  ASSERT b;;
  modify (with_holder tid_lock None);;
  sema_up (inr tid_lock);;
  mret n.

Definition thread_init : cmd kernel unit :=
  level ← intr_get_level;
  ASSERT (negb level);;
  lock_init tid_lock;;
  modify (with_ready []);;
  modify (with_all []);;
  p ← running_thread;
  modify (λ k, with_roles (idle_thread k) (Some p) k);;
  init_thread p main_name PRI_DEFAULT;;
  upd_thread p (set_status THREAD_RUNNING);;
  n ← allocate_first_tid;
  upd_thread p (set_tid n).

Section start.
Context (dir_reopen : positive → option positive) (palloc_get_page : kernel → option tptr).

(** Run the current thread, whichever it is, until it has no code left. *)
Fixpoint run_code (fuel : nat) : cmd machine unit := λ m,
  match fuel, code m !! current (kern m) with
  | S fuel, Some (i :: c) =>
      (exec dir_reopen palloc_get_page (current (kern m)) i c;; run_code fuel) m
  | _, _ => Ret (tt, m)
  end.

Definition idle_started : positive := 1.

(** The start of [idle], run by the idle thread; its loop is the instruction
    [I_idle_block]. *)
Definition idle : cmd machine unit :=
  t ← on_kern thread_current;
  on_kern (modify (λ k, with_roles (Some t) (initial_thread k) k));;
  set_code t [I_sema_up (inl idle_started); I_idle_block].

(** [thread_start]: the main thread sleeps in [sema_down] until the idle
    thread has run. *)
Definition thread_start (fuel : nat) : cmd machine unit :=
  t ← on_kern thread_current;
  on_kern (sema_init (inl idle_started) 0);;
  set_code t (thread_create idle_name PRI_MIN);;
  run_code fuel;;
  set_code t [I_intr_set true; I_sema_down (inl idle_started)];;
  run_code fuel;;
  idle;;
  run_code fuel.

Definition boot (p : tptr) : res (unit * machine) :=
  (on_kern thread_init;; thread_start 20) (mk_machine (no_threads p) {[p := []]} ∅).
End start.

(** ** The machine after the start *)
Definition boot_thread (n : Z) (s : thread_status) (nm : list Z) (stk prio : Z) : thread :=
  mk_thread n s nm stk prio None THREAD_MAGIC (replicate MAX_FILE_DESCRIPTORS false) 0 None None None [] None None.

Definition booted : machine :=
  mk_machine
    (mk_kernel
       {[1%positive := boot_thread 1 THREAD_RUNNING main_name 4096 PRI_DEFAULT;
         2%positive := boot_thread 2 THREAD_BLOCKED idle_name 4052 PRI_MIN]}
       [] [1; 2]%positive 1%positive (Some 2%positive) (Some 1%positive) 3 0 0 0 0 true false false
       {[inr tid_lock := mk_sema 1 []; inl idle_started := mk_sema 0 []]} {[tid_lock := None]} ∅ ∅)
    {[1%positive := []; 2%positive := [I_intr_set true; I_idle_block]]}
    {[1%positive := ∅; 2%positive := ∅]}.

(** The page allocator of these examples hands out the lowest page that holds no
    thread. *)
Definition lowest_page (k : kernel) : option tptr :=
  find (λ p, bool_decide (threads k !! p = None)) [1; 2; 3; 4; 5; 6]%positive.

Lemma lowest_page_free k p : lowest_page k = Some p → threads k !! p = None.
Proof. intros [_ H]%find_some. by apply bool_decide_eq_true in H. Qed.

Lemma boot_booted : boot Some lowest_page 1 = Ret (tt, booted).
Proof. vm_compute. reflexivity. Qed.
