(* ===== verification/SchedTheorems.v ===== *)
(** * Scheduling and synchronisation: what every execution satisfies

    The executions are the runs of Sched.v: any interleaving of calls, pieces
    of code and timer interrupts, starting from a machine that satisfies the
    invariant, such as the one [thread_start] leaves (Boot.v). *)
From S2P Require Import Prelude Thread Synch Sched SchedInv SchedSpec SchedExec SchedCreate Boot.

Section theorems.
Context (dir_reopen : positive → option positive) (palloc_get_page : kernel → option tptr).
(** [palloc_get_page] returns a free page: it holds no thread. *)
Context (Hpal : ∀ k p, palloc_get_page k = Some p → threads k !! p = None).

(** ** One step *)
Lemma exec_good m i c :
  minv m → code m !! current (kern m) = Some (i :: c) →
  good 0 m (exec dir_reopen palloc_get_page (current (kern m)) i c m).
Proof using Hpal.
  intros Hm Hc. destruct i.
  - by apply exec_intr_set.
  - by apply exec_sema_down.
  - by apply exec_sema_down_loop.
  - by apply exec_sema_up.
  - by apply exec_assert_held.
  - by apply exec_assert_not_held.
  - by apply exec_set_holder.
  - by apply exec_clear_holder.
  - by apply exec_try.
  - by apply exec_cond_wait.
  - by apply exec_signal.
  - by apply exec_broadcast.
  - by apply exec_yield.
  - by apply exec_create.
  - by apply exec_take_tid.
  - by apply exec_create_finish.
  - by apply exec_exit.
  - by apply exec_idle_block.
Qed.

(** A call is allowed by [api_ok]: its code is well formed. *)
Lemma api_wf m a :
  minv m → api_ok (kern m) (held_by m (current (kern m))) a →
  wf (kern m) (held_by m (current (kern m))) (api_code a).
Proof using.
  clear. intros Hm Ha.
  assert (Hin : ∀ l, l ∈ held_by m (current (kern m)) → lock_in (kern m) l)
    by (intros l Hl; destruct (i_held _ Hm _ _ Hl) as [? _]; by eexists).
  destruct a; cbn [api_code lock_acquire lock_try_acquire lock_release cond_wait cond_signal cond_broadcast
    thread_create wf]; cbn [api_ok] in Ha; try (split_and!; tauto); auto.
Qed.

Lemma call_good m a :
  minv m → code m !! current (kern m) = Some [] → api_ok (kern m) (held_by m (current (kern m))) a →
  good 0 m (set_code (current (kern m)) (api_code a) m).
Proof using.
  intros Hm Hc Ha. pose proof (api_wf m a Hm Ha) as Hwf.
  eexists. split_and!; [apply set_code_run|by apply stay|]. apply (code_ok m Hm []); try done.
  - by destruct a.
  - intros Hi. pose proof (idle_is m Hm _ Hi Hc) as E. inversion E.
  - by eapply wf_not_loop.
  - intros _. by apply wf_wfc.
  - intros l. split; [|done]. intros Hp. by apply (wf_not_pend _ _ _ _ Hwf) in Hp.
Qed.

Definition ticks_of (a : label) : Z := match a with L_tick => 1 | _ => 0 end.

Lemma attempt_good m a r :
  minv m → attempt dir_reopen palloc_get_page m a r → good (ticks_of a) m r.
Proof using Hpal.
  intros Hm [i c Hc|a' Hc Ha|c Hi Hc]; [by apply exec_good|by apply call_good|by apply tick_ok].
Qed.

Lemma step_good m a m' :
  minv m → step dir_reopen palloc_get_page m a m' → moves (ticks_of a) (kern m) (kern m') ∧ minv m'.
Proof using Hpal. intros Hm Hs. destruct (attempt_good m a _ Hm Hs) as (m2 & E & ? & ?). by simplify_eq. Qed.

Lemma steps_minv m ls m' : minv m → steps dir_reopen palloc_get_page m ls m' → minv m'.
Proof using Hpal. intros Hm. induction 1 as [|m a m' ls m'' Hs _ IH]; [done|]. apply IH. by eapply step_good. Qed.

(** C1: The kernel's threads never fail an assertion and never corrupt a queue:
    in every state reached from a state that satisfies the invariant, by any
    interleaving of calls to thread.c and synch.c and of timer interrupts,
    whatever happens next succeeds (no ASSERT fires and no list element is
    linked twice); exactly the running thread has status RUNNING; a thread is
    in the ready list iff it is READY and not the idle thread; a thread in the
    wait queue of a semaphore is BLOCKED and will test the value again when it
    is woken. *)
Theorem threads_never_fault m ls m' :
  minv m → steps dir_reopen palloc_get_page m ls m' →
  (∀ a r, attempt dir_reopen palloc_get_page m' a r → ∃ m'', r = Ret (tt, m'')) ∧
  (∀ p, stat (kern m') p = Some THREAD_RUNNING ↔ p = current (kern m')) ∧
  NoDup (ready_list (kern m')) ∧
  (∀ p, p ∈ ready_list (kern m') ↔ stat (kern m') p = Some THREAD_READY ∧ idle_thread (kern m') ≠ Some p) ∧
  (∀ s x p, semas (kern m') !! s = Some x → p ∈ waiters x →
     stat (kern m') p = Some THREAD_BLOCKED ∧ ∃ old c, code m' !! p = Some (I_sema_down_loop s old :: c)).
Proof using Hpal.
  intros Hm Hs. pose proof (steps_minv _ _ _ Hm Hs) as Hm'. pose proof (i_sched _ Hm') as Hok. split_and!.
  - intros a r Ha. destruct (attempt_good m' a r Hm' Ha) as (m'' & -> & _). eauto.
  - intros p. split; [apply (s_run _ _ Hok)|]. intros ->. apply (i_run _ Hm').
  - apply (s_ready_nodup _ _ Hok).
  - apply (s_ready _ _ Hok).
  - intros s x p Hx Hp. destruct (s_wait _ _ Hok s x p Hx Hp) as (? & _ & ?). auto.
Qed.

(** C2: Locks are mutually exclusive: in every reachable state a lock that a
    thread has acquired and not yet released is recorded as held by that thread
    and by no other, and its semaphore is 0, so nobody else can acquire it. *)
Theorem lock_mutual_exclusion m ls m' t l :
  minv m → steps dir_reopen palloc_get_page m ls m' → l ∈ held_by m' t →
  holders (kern m') !! l = Some (Some t) ∧ (∀ t', l ∈ held_by m' t' → t' = t) ∧
  ∃ x, semas (kern m') !! inr l = Some x ∧ value x = 0%Z.
Proof using Hpal.
  intros Hm Hs Hl. pose proof (steps_minv _ _ _ Hm Hs) as Hm'. destruct (i_held _ Hm' _ _ Hl) as [Hh _].
  split_and!; [done| |].
  - intros t' Hl'. destruct (i_held _ Hm' _ _ Hl') as [Hh' _]. congruence.
  - destruct (i_locks _ Hm' _ _ Hh) as (x & Hx & [(? & _)|[(t0 & _ & ? & _)|(t0 & ? & _)]]); [done|eauto|done].
Qed.

(** C3: No wake-up is lost: in every reachable state, if threads wait for a
    semaphore whose value is positive, then at least as many threads as the
    value have been woken, can run, and will test the value when they do. *)
Theorem no_lost_wakeup m ls m' s x :
  minv m → steps dir_reopen palloc_get_page m ls m' → semas (kern m') !! s = Some x → waiters x ≠ [] →
  ∃ W, NoDup W ∧ (value x <= Z.of_nat (length W))%Z ∧
    ∀ p, p ∈ W → (p = current (kern m') ∨ p ∈ ready_list (kern m')) ∧
      ∃ old c, code m' !! p = Some (I_sema_down_loop s old :: c).
Proof using Hpal.
  intros Hm Hs Hx Hw. pose proof (steps_minv _ _ _ Hm Hs) as Hm'. pose proof (i_sched _ Hm') as Hok.
  destruct (i_wake _ Hm' _ _ Hx) as [_ Hen]. destruct (Hen Hw) as (W & Hnd & Hlen & HW).
  exists W. split_and!; [done..|]. intros p Hp. destruct (HW p Hp) as (Hst & old & c & Hc). split; [|eauto].
  destruct Hst as [Hst|Hst]; [right|left; by apply (s_run _ _ Hok)]. apply (s_ready _ _ Hok). split; [done|].
  intros Hi. destruct (s_idle _ _ Hok) as (i & ci & Hi' & Hci & Hid). simplify_eq. inversion Hid.
Qed.

(** ** Fairness *)
Definition ticks (ls : list label) : Z := foldr (λ a n, (ticks_of a + n)%Z) 0%Z ls.

Lemma fair_run ls m m' i p :
  minv m → steps dir_reopen palloc_get_page m ls m' → ready_list (kern m) !! i = Some p →
  (TIME_SLICE * (Z.of_nat i + 1) <= ticks ls + thread_ticks (kern m))%Z →
  ∃ ls1 ls2 m1, ls = ls1 ++ ls2 ∧ steps dir_reopen palloc_get_page m ls1 m1 ∧
    steps dir_reopen palloc_get_page m1 ls2 m' ∧ current (kern m1) = p.
Proof using Hpal.
  intros Hm Hs. revert i Hm. induction Hs as [m|m a m1 ls m' Hs Hss IH]; intros i Hm Hi Hle.
  { pose proof (i_ticks _ Hm). unfold TIME_SLICE in *. simpl in Hle. lia. }
  destruct (step_good _ _ _ Hm Hs) as [Hmv Hm1]. pose proof (i_ticks _ Hm) as Ht. unfold TIME_SLICE in *.
  change (ticks (a :: ls)) with (ticks_of a + ticks ls)%Z in Hle.
  destruct Hmv as [(_ & Etk & new & Er)|(Etk & new & [Er|[E _]])].
  - destruct (IH i Hm1) as (l1 & l2 & m2 & -> & H1 & H2 & H3); [rewrite Er; by apply lookup_app_l_Some|lia|].
    exists (a :: l1), l2, m2. split_and!; [done|by econstructor|done..].
  - apply (lookup_app_l_Some _ new) in Hi. rewrite Er in Hi. destruct i as [|i]; simplify_eq/=.
    + exists [a], ls, m1. split_and!; [done| |done|done]. econstructor; [done|constructor].
    + destruct (IH i Hm1 Hi) as (l1 & l2 & m2 & -> & H1 & H2 & H3).
      { destruct a; simpl in Hle; lia. }
      exists (a :: l1), l2, m2. split_and!; [done|by econstructor|done..].
  - apply app_eq_nil in E as [E _]. by rewrite E in Hi.
Qed.

(** C4: Scheduling is fair: in any execution, a thread at position [i] of the
    ready list gets the processor before [TIME_SLICE * (i + 1)] timer ticks have
    been taken. *)
Theorem round_robin_fair m0 ls0 m ls m' i p :
  minv m0 → steps dir_reopen palloc_get_page m0 ls0 m →
  steps dir_reopen palloc_get_page m ls m' → ready_list (kern m) !! i = Some p →
  (TIME_SLICE * (Z.of_nat i + 1) <= ticks ls)%Z →
  ∃ ls1 ls2 m1, ls = ls1 ++ ls2 ∧ steps dir_reopen palloc_get_page m ls1 m1 ∧
    steps dir_reopen palloc_get_page m1 ls2 m' ∧ current (kern m1) = p.
Proof using Hpal.
  intros Hm0 H0 Hs Hi Hle. pose proof (steps_minv _ _ _ Hm0 H0) as Hm. pose proof (i_ticks _ Hm).
  apply (fair_run ls m m' i p); [done..|lia].
Qed.
End theorems.

(** ** A concrete execution *)
(** After the start the main thread takes the lock of [allocate_tid], and
    creates a thread after releasing it. *)
Ltac small_map := repeat match goal with
  | H : (_ !! _ = Some _) |- _ =>
      apply lookup_insert_Some in H as [[<- <-]|[_ H]] || apply lookup_singleton_Some in H as [<- <-] ||
      (apply lookup_empty_Some in H; destruct H)
  end.

Lemma booted_stat p st :
  stat (kern booted) p = Some st →
  (p = 1%positive ∧ st = THREAD_RUNNING) ∨ (p = 2%positive ∧ st = THREAD_BLOCKED).
Proof. intros (th & H & <-)%stat_Some. cbn in H. small_map; auto. Qed.

Lemma booted_code p c :
  code booted !! p = Some c → (p = 1%positive ∧ c = []) ∨ (p = 2%positive ∧ c = [I_intr_set true; I_idle_block]).
Proof. cbn. intros H. small_map; auto. Qed.

Lemma booted_sema s x :
  semas (kern booted) !! s = Some x →
  (s = inr tid_lock ∧ x = mk_sema 1 []) ∨ (s = inl idle_started ∧ x = mk_sema 0 []).
Proof. cbn. intros H. small_map; auto. Qed.

Lemma booted_held t : held_by booted t = ∅.
Proof.
  unfold held_by. destruct (held booted !! t) as [H|] eqn:E; [|done]. cbn in E. by small_map.
Qed.

Lemma booted_sched : sched_ok (kern booted) (code booted).
Proof.
  split.
  - intros p th H. cbn in H. by small_map.
  - exists 2%positive, [I_intr_set true; I_idle_block]. split_and!; [done..|]. do 2 constructor.
  - constructor.
  - intros p. split; [by intros ?%elem_of_nil|]. intros [[[_ ?]|[_ ?]]%booted_stat _]; done.
  - intros s x p [[_ ->]|[_ ->]]%booted_sema H; by apply elem_of_nil in H.
  - intros s x [[_ ->]|[_ ->]]%booted_sema; constructor.
  - intros p [[_ ?]|[-> _]]%booted_stat; [done|by left].
  - intros t c p [[_ ->]|[_ ->]]%booted_code H; by apply elem_of_nil in H.
  - intros t c t' c' p [[_ ->]|[_ ->]]%booted_code _ H; by apply elem_of_nil in H.
  - intros t c [[_ ->]|[_ ->]]%booted_code; constructor.
  - intros p [[-> _]|[_ ?]]%booted_stat; done.
  - intros p [c [[-> _]|[-> _]]%booted_code]; by eexists.
  - intros p st [[-> _]|[-> ->]]%booted_stat; [by eexists|]. by intros [|].
  - done.
Qed.

Lemma booted_minv : minv booted.
Proof.
  split.
  - apply booted_sched.
  - done.
  - done.
  - intros t c [[-> ->]|[-> ->]]%booted_code Hi; [done|]. by destruct Hi.
  - intros l h H. cbn in H. small_map. eexists. split; [reflexivity|]. left. split_and!; [done..|].
    intros t (c & [[-> ->]|[-> ->]]%booted_code & Hp); done.
  - intros t l. by rewrite booted_held, elem_of_empty.
  - intros s x [[-> ->]|[-> ->]]%booted_sema; done.
  - intros c ws w H. cbn in H. by rewrite lookup_empty in H.
  - intros p th w ws H. cbn in H. by small_map.
  - by eexists.
  - done.
Qed.

(** *** Runs that can be evaluated *)
#[global] Instance api_ok_dec k H a : Decision (api_ok k H a).
Proof. destruct a; simpl; apply _. Defined.

Definition run_label (m : machine) (a : label) : option machine :=
  match a, code m !! current (kern m) with
  | L_exec, Some (i :: c) =>
      match exec Some lowest_page (current (kern m)) i c m with Ret (_, m') => Some m' | Err _ => None end
  | L_call a, Some [] =>
      if bool_decide (api_ok (kern m) (held_by m (current (kern m))) a)
      then Some (mk_machine (kern m) (<[current (kern m) := api_code a]> (code m)) (held m)) else None
  | L_tick, Some c =>
      if intr_on (kern m) then
        match (y ← on_kern timer_interrupt;
               if (y : bool) then set_code (current (kern m)) (I_intr_set true :: c) else mret tt) m with
        | Ret (_, m') => Some m'
        | Err _ => None
        end
      else None
  | _, _ => None
  end.

Definition run_labels (ls : list label) (m : machine) : option machine := foldl (λ o a, m ← o; run_label m a) (Some m) ls.

Lemma run_label_step m a m' : run_label m a = Some m' → step Some lowest_page m a m'.
Proof.
  unfold run_label, step. destruct a as [|a|], (code m !! current (kern m)) as [[|i c]|] eqn:E; try done.
  - destruct (exec _ _ _ _ _ _) as [[[] m2]|] eqn:Ex; [|done]. intros [= ->]. rewrite <- Ex. by constructor.
  - destruct (bool_decide _) eqn:Hb; [|done]. apply bool_decide_eq_true in Hb. intros [= <-].
    exact (attempt_call _ _ m a E Hb).
  - destruct (intr_on (kern m)) eqn:Hi; [|done]. destruct ((_ ≫= _ : cmd machine unit) m) as [[[] m2]|] eqn:Ex; [|done].
    intros [= ->]. rewrite <- Ex. by constructor.
  - destruct (intr_on (kern m)) eqn:Hi; [|done]. destruct ((_ ≫= _ : cmd machine unit) m) as [[[] m2]|] eqn:Ex; [|done].
    intros [= ->]. rewrite <- Ex. by constructor.
Qed.

Lemma run_labels_none ls : foldl (λ o a, m ← o; run_label m a) None ls = None.
Proof. by induction ls. Qed.

Lemma run_labels_steps ls m m' : run_labels ls m = Some m' → steps Some lowest_page m ls m'.
Proof.
  unfold run_labels. revert m. induction ls as [|a ls IH]; simpl; intros m E.
  - simplify_eq. constructor.
  - destruct (run_label m a) as [m1|] eqn:E1; [|by rewrite run_labels_none in E].
    econstructor; [by apply run_label_step|by apply IH].
Qed.

(** The main thread creates two threads; it and the first of them wait for a
    semaphore, which the second ups. *)
Definition creation : list label := L_call (A_create [119]%Z PRI_DEFAULT) :: replicate 9 L_exec.
Definition waiting : list label :=
  creation ++ creation ++ [L_call (A_down idle_started); L_exec; L_exec; L_call (A_down idle_started); L_exec;
    L_exec; L_call (A_up idle_started); L_exec].
Definition after (ls : list label) : machine := default booted (run_labels ls booted).

Lemma after_steps ls : bool_decide (is_Some (run_labels ls booted)) = true → steps Some lowest_page booted ls (after ls).
Proof. intros [m E]%bool_decide_eq_true. unfold after. rewrite E. by apply run_labels_steps. Qed.

Example waiting_state :
  semas (kern (after waiting)) !! inl idle_started = Some (mk_sema 1 [3]%positive) ∧
  ready_list (kern (after waiting)) = [1]%positive ∧ current (kern (after waiting)) = 4%positive.
Proof. vm_compute. auto. Qed.

Lemma threads_never_fault_witness :
  (∀ a r, attempt Some lowest_page (after waiting) a r → ∃ m'', r = Ret (tt, m'')) ∧
  stat (kern (after waiting)) 4%positive = Some THREAD_RUNNING.
Proof.
  destruct (threads_never_fault Some lowest_page lowest_page_free booted waiting (after waiting) booted_minv
    (after_steps waiting ltac:(vm_compute; reflexivity))) as (H1 & H2 & _).
  split; [exact H1|]. apply H2. vm_compute. reflexivity.
Defined.

(** The main thread holds the lock of [allocate_tid] in the middle of a creation. *)
Definition holding : list label := L_call (A_create [119]%Z PRI_DEFAULT) :: replicate 4 L_exec.

Lemma lock_mutual_exclusion_witness :
  holders (kern (after holding)) !! tid_lock = Some (Some 1%positive) ∧
  ∀ t', tid_lock ∈ held_by (after holding) t' → t' = 1%positive.
Proof.
  destruct (lock_mutual_exclusion Some lowest_page lowest_page_free booted holding (after holding) 1 tid_lock
    booted_minv (after_steps holding ltac:(vm_compute; reflexivity))) as (H1 & H2 & _).
  - apply (bool_decide_eq_true_1 (tid_lock ∈ held_by (after holding) 1%positive)). vm_compute. reflexivity.
  - split; [exact H1|exact H2].
Defined.

Lemma no_lost_wakeup_witness : ∃ W, NoDup W ∧ (1 <= Z.of_nat (length W))%Z ∧
  ∀ p, p ∈ W → p = current (kern (after waiting)) ∨ p ∈ ready_list (kern (after waiting)).
Proof.
  destruct (no_lost_wakeup Some lowest_page lowest_page_free booted waiting (after waiting) (inl idle_started)
    (mk_sema 1 [3]%positive) booted_minv (after_steps waiting ltac:(vm_compute; reflexivity)))
    as (W & H1 & H2 & H3).
  - vm_compute. reflexivity.
  - discriminate.
  - exists W. split; [exact H1|]. split; [exact H2|]. intros p Hp. apply (H3 p Hp).
Defined.

Lemma round_robin_fair_witness : ∃ ls1 ls2 m1, replicate 4 L_tick = ls1 ++ ls2 ∧
  steps Some lowest_page (after creation) ls1 m1 ∧
  steps Some lowest_page m1 ls2 (default booted (run_labels (replicate 4 L_tick) (after creation))) ∧
  current (kern m1) = 3%positive.
Proof.
  apply (round_robin_fair Some lowest_page lowest_page_free booted creation (after creation) (replicate 4 L_tick)
    _ 0 3 booted_minv (after_steps creation ltac:(vm_compute; reflexivity))).
  - apply run_labels_steps. vm_compute. reflexivity.
  - vm_compute. reflexivity.
  - vm_compute. discriminate.
Defined.
