(* ===== verification/LibStd.v ===== *)
(** * Conversion, sorting and searching (lib/stdlib.c, lib/ctype.h)

    The routines work on the byte memory of KString.v: an array is [cnt]
    elements of [size] bytes each.  A comparison callback reads the two
    elements it is given, so it is a function of their bytes; with its [aux]
    argument applied it is the parameter [compare]. *)
From S2P Require Import Prelude KString KStringSpec.
Open Scope Z_scope.

(** ** lib/ctype.h *)
Definition isdigit (c : Z) : bool := (48 <=? c) && (c <=? 57).
Definition isspace (c : Z) : bool :=
  (c =? 32) || (c =? 12) || (c =? 10) || (c =? 13) || (c =? 9) || (c =? 11).

(** ** [atoi] *)
Fixpoint skip_spaces (fuel : nat) (s : Z) : cmd mem Z :=
  match fuel with
  | O => throw NoFuel
  | S fuel => c ← load8 s; if isspace c then skip_spaces fuel (s + 1) else mret s
  end.

(** The value is accumulated as a negative number.  Signed overflow wraps, as
    the kernel is compiled for a two's complement machine. *)
Fixpoint digit_loop (fuel : nat) (s value : Z) : cmd mem Z :=
  match fuel with
  | O => throw NoFuel
  | S fuel =>
      c ← load8 s;
      if isdigit c then digit_loop fuel (s + 1) (s32 (value * 10 - (c - 48))) else mret value
  end.

Definition atoi (s : Z) : cmd mem Z :=
  ASSERT (negb (s =? 0));;
  fuel ← gets str_fuel;
  s ← skip_spaces fuel s;
  c ← load8 s;
  let negative := (c =? 45) in
  let s := if (c =? 43) || (c =? 45) then s + 1 else s in
  value ← digit_loop fuel s 0;
  mret (if negative then value else s32 (- value)).

(** ** Sorting *)
(** The [n] bytes at [p]. *)
Fixpoint load_block (n : nat) (p : Z) : cmd mem (list Z) :=
  match n with
  | O => mret []
  | S n => b ← load8 p; bs ← load_block n (p + 1); mret (b :: bs)
  end.

Section sort.
Context (compare : list Z → list Z → Z).

(** [for (i = 0; i < size; i++)]: exchange [a[i]] and [b[i]]. *)
Fixpoint swap_loop (n : nat) (a b : Z) : cmd mem unit :=
  match n with
  | O => mret tt
  | S n =>
      t ← load8 a;
      u ← load8 b;
      store8 a u;;
      store8 b t;;
      swap_loop n (a + 1) (b + 1)
  end.

Definition do_swap (array a_idx b_idx size : Z) : cmd mem unit :=
  swap_loop (Z.to_nat size) (array + (a_idx - 1) * size) (array + (b_idx - 1) * size).

Definition do_compare (array a_idx b_idx size : Z) : cmd mem Z :=
  a ← load_block (Z.to_nat size) (array + (a_idx - 1) * size);
  b ← load_block (Z.to_nat size) (array + (b_idx - 1) * size);
  mret (compare a b).

Fixpoint heapify (fuel : nat) (array i cnt size : Z) : cmd mem unit :=
  match fuel with
  | O => throw NoFuel
  | S fuel =>
      let left := u32 (2 * i) in
      let right := u32 (2 * i + 1) in
      max ← (if left <=? cnt then
               c ← do_compare array left i size;
               mret (if 0 <? c then left else i)
             else mret i);
      max ← (if right <=? cnt then
               c ← do_compare array right max size;
               mret (if 0 <? c then right else max)
             else mret max);
      if max =? i then mret tt
      else do_swap array i max size;; heapify fuel array max cnt size
  end.

(** [for (i = cnt / 2; i > 0; i--) heapify (...)], started at [i = n]. *)
Fixpoint build_loop (n : nat) (array cnt size : Z) : cmd mem unit :=
  match n with
  | O => mret tt
  | S n' => heapify (S (Z.to_nat cnt)) array (Z.of_nat n) cnt size;; build_loop n' array cnt size
  end.

(** [for (i = cnt; i > 1; i--)], started at [i = n]. *)
Fixpoint sort_loop (n : nat) (array size : Z) : cmd mem unit :=
  match n with
  | S ((S _) as n') =>
      do_swap array 1 (Z.of_nat n) size;;
      heapify n array 1 (Z.of_nat n') size;;
      sort_loop n' array size
  | _ => mret tt
  end.

Definition sort (array cnt size : Z) : cmd mem unit :=
  ASSERT (negb (array =? 0) || (cnt =? 0));;
  ASSERT (0 <? size);;
  build_loop (Z.to_nat (cnt / 2)) array cnt size;;
  sort_loop (Z.to_nat cnt) array size.

(** [qsort] passes its comparison function through [compare_thunk]. *)
Definition compare_thunk (a b : list Z) : Z := compare a b.

(** ** Searching: the address of a match, or 0 *)
Fixpoint search_loop (fuel : nat) (key : list Z) (first last size : Z) : cmd mem Z :=
  match fuel with
  | O => throw NoFuel
  | S fuel =>
      if first <? last then
        let range := (last - first) / size in
        let middle := first + range / 2 * size in
        x ← load_block (Z.to_nat size) middle;
        let cmp := compare key x in
        if cmp <? 0 then search_loop fuel key first middle size
        else if 0 <? cmp then search_loop fuel key (middle + size) last size
        else mret middle
      else mret 0
  end.

Definition binary_search (key : list Z) (array cnt size : Z) : cmd mem Z :=
  search_loop (S (Z.to_nat cnt)) key array (array + size * cnt) size.
End sort.

Definition qsort (array cnt size : Z) (compare : list Z → list Z → Z) : cmd mem unit :=
  sort (compare_thunk compare) array cnt size.
Definition bsearch (key : list Z) (array cnt size : Z) (compare : list Z → list Z → Z) : cmd mem Z :=
  binary_search (compare_thunk compare) key array cnt size.

(** Correctness of [sort], [binary_search] and [atoi] of lib/stdlib.c. *)

(** ** Arrays in memory *)
Lemma write_lookup m p bs i b : bs !! i = Some b → write m p bs !! (p + Z.of_nat i) = Some b.
Proof.
  intros Hb. pose proof (lookup_lt_Some _ _ _ Hb). rewrite (bytes_at_lookup _ p bs); [|apply bytes_at_write|lia].
  by replace (Z.to_nat (p + Z.of_nat i - p)) with i by lia.
Qed.

Lemma write_insert m p bs i b :
  (i < length bs)%nat → <[p + Z.of_nat i := b]> (write m p bs) = write m p (<[i := b]> bs).
Proof.
  revert p i. induction bs as [|c bs IH]; intros p i Hi; simpl in Hi; [lia|]. destruct i as [|i]; simpl.
  - rewrite Z.add_0_r. apply insert_insert_eq.
  - rewrite insert_insert_ne by lia. f_equal. rewrite <- IH by lia. f_equal. lia.
Qed.

Lemma load_block_run m p bs : bytes_at m p bs → load_block (length bs) p m = Ret (bs, m).
Proof.
  revert p. induction bs as [|b bs IH]; intros p Hb; [done|]. destruct Hb as [H1 H2]. simpl.
  rewrite (load8_bind _ _ _ b) by done. by rewrite (bind_Ret _ _ _ _ _ (IH _ H2)).
Qed.

Lemma app_prefix {A} (P U Q V : list A) : P ++ U ++ Q ++ V = (P ++ U ++ Q) ++ V.
Proof. by rewrite <- !(assoc_L (++)). Qed.

(** The bytes of two separate blocks of an array are exchanged. *)
Lemma swap_loop_run m p P A Q B R :
  length A = length B →
  swap_loop (length A) (p + Z.of_nat (length P)) (p + Z.of_nat (length (P ++ A ++ Q))) (write m p (P ++ A ++ Q ++ B ++ R))
  = Ret (tt, write m p (P ++ B ++ Q ++ A ++ R)).
Proof.
  revert P Q B. induction A as [|x A IH]; intros P Q B Hl; destruct B as [|y B]; simpl in Hl; try lia; [done|].
  assert (Hx : (P ++ (x :: A) ++ Q ++ (y :: B) ++ R) !! length P = Some x)
    by (rewrite lookup_app_r, Nat.sub_diag by lia; done).
  assert (Hy : (P ++ (x :: A) ++ Q ++ (y :: B) ++ R) !! length (P ++ (x :: A) ++ Q) = Some y).
  { rewrite app_prefix.
    rewrite lookup_app_r, Nat.sub_diag by lia. done. }
  cbn [length swap_loop]. rewrite (load8_bind _ _ _ x) by by apply write_lookup.
  rewrite (load8_bind _ _ _ y) by by apply write_lookup.
  rewrite store8_bind by (eexists; by apply write_lookup). rewrite write_insert by (by eapply lookup_lt_Some).
  assert (E1 : <[length P := y]> (P ++ (x :: A) ++ Q ++ (y :: B) ++ R) = P ++ (y :: A) ++ Q ++ (y :: B) ++ R)
    by (rewrite insert_app_r_alt, Nat.sub_diag by lia; done).
  rewrite E1. clear E1.
  assert (Hy' : (P ++ (y :: A) ++ Q ++ (y :: B) ++ R) !! length (P ++ (x :: A) ++ Q) = Some y).
  { replace (length (P ++ (x :: A) ++ Q)) with (length (P ++ (y :: A) ++ Q)) by (rewrite !length_app; simpl; lia).
    rewrite app_prefix.
    rewrite lookup_app_r, Nat.sub_diag by lia. done. }
  rewrite store8_bind by (eexists; by apply write_lookup). rewrite write_insert by (by eapply lookup_lt_Some).
  assert (E2 : <[length (P ++ (x :: A) ++ Q) := x]> (P ++ (y :: A) ++ Q ++ (y :: B) ++ R) =
    (P ++ [y]) ++ A ++ (Q ++ [x]) ++ B ++ R).
  { replace (length (P ++ (x :: A) ++ Q)) with (length (P ++ (y :: A) ++ Q)) by (rewrite !length_app; simpl; lia).
    rewrite app_prefix.
    rewrite insert_app_r_alt, Nat.sub_diag by lia. cbn [list_insert]. simplify_list_eq. done. }
  rewrite E2. clear E2.
  replace (p + Z.of_nat (length P) + 1) with (p + Z.of_nat (length (P ++ [y]))) by (rewrite length_app; simpl; lia).
  replace (p + Z.of_nat (length (P ++ (x :: A) ++ Q)) + 1) with (p + Z.of_nat (length ((P ++ [y]) ++ A ++ (Q ++ [x]))))
    by (rewrite !length_app; simpl; rewrite ?length_app; simpl; lia).
  rewrite IH by lia. by rewrite <- !(assoc_L (++)).
Qed.

(** ** Elements by 1-based index *)
Definition get (xs : list (list Z)) (i : nat) : list Z := nth (i - 1) xs [].
Definition lswap (i j : nat) (xs : list (list Z)) : list (list Z) :=
  <[(i - 1)%nat := get xs j]> (<[(j - 1)%nat := get xs i]> xs).

Lemma get_lookup xs i : (1 ≤ i ≤ length xs)%nat → xs !! (i - 1)%nat = Some (get xs i).
Proof. intros Hi. unfold get. apply lookup_nth_default || (destruct (lookup_lt_is_Some_2 xs (i - 1)) as [x Hx]; [lia|]; rewrite Hx; f_equal; symmetry; apply nth_lookup_Some, Hx). Qed.

Lemma length_lswap i j xs : length (lswap i j xs) = length xs.
Proof. unfold lswap. by rewrite !length_insert. Qed.

Lemma get_lswap i j xs k : (1 ≤ i)%nat → (i < j ≤ length xs)%nat → (1 ≤ k ≤ length xs)%nat →
  get (lswap i j xs) k = if decide (k = i) then get xs j else if decide (k = j) then get xs i else get xs k.
Proof.
  intros Hi Hj Hk. apply (inj Some). rewrite <- get_lookup by (rewrite length_lswap; lia). unfold lswap.
  destruct (decide (k = i)) as [->|]; [by rewrite list_lookup_insert_eq by (rewrite length_insert; lia)|].
  rewrite list_lookup_insert_ne by lia.
  destruct (decide (k = j)) as [->|]; [by rewrite list_lookup_insert_eq by lia|].
  rewrite list_lookup_insert_ne by lia. by apply get_lookup.
Qed.

Lemma lswap_split i j xs : (1 ≤ i)%nat → (i < j ≤ length xs)%nat →
  ∃ X1 X2 X3, xs = X1 ++ get xs i :: X2 ++ get xs j :: X3 ∧ length X1 = (i - 1)%nat ∧ length X2 = (j - i - 1)%nat ∧
    lswap i j xs = X1 ++ get xs j :: X2 ++ get xs i :: X3.
Proof.
  intros Hi Hj. pose proof (get_lookup xs i ltac:(lia)) as Gi. pose proof (get_lookup xs j ltac:(lia)) as Gj.
  unfold lswap. set (a := get xs i) in *. set (b := get xs j) in *. clearbody a b.
  apply list_elem_of_split_length in Gi as (X1 & Y & -> & H1).
  rewrite lookup_app_r in Gj by lia. destruct (j - 1 - length X1)%nat as [|d] eqn:Ed; [lia|]. simpl in Gj.
  apply list_elem_of_split_length in Gj as (X2 & X3 & -> & H2). exists X1, X2, X3. split_and!; [done|lia|lia|].
  replace (j - 1)%nat with (length X1 + S (length X2))%nat by lia. replace (i - 1)%nat with (length X1 + 0)%nat by lia.
  rewrite insert_app_r. simpl. replace (length X2) with (length X2 + 0)%nat by lia. rewrite insert_app_r. simpl.
  rewrite insert_app_r. done.
Qed.

Lemma lswap_perm i j xs : (1 ≤ i)%nat → (i < j ≤ length xs)%nat → lswap i j xs ≡ₚ xs.
Proof.
  intros Hi Hj. destruct (lswap_split i j xs Hi Hj) as (X1 & X2 & X3 & E & _ & _ & ->). rewrite E at 3.
  solve_Permutation.
Qed.

Section arrays.
Context (m : mem) (p : Z) (n : nat).
Abbreviation sized := (Forall (λ x : list Z, length x = n)).
Abbreviation arr xs := (write m p (concat xs)).

Lemma length_concat_sized xs : sized xs → length (concat xs) = (length xs * n)%nat.
Proof using. induction 1 as [|x xs Hx _ IH]; simpl; [done|]. rewrite length_app. lia. Qed.

Lemma get_sized xs i : sized xs → (1 ≤ i ≤ length xs)%nat → length (get xs i) = n.
Proof using. intros Hs Hi. eapply (Forall_lookup_1 (λ x : list Z, length x = n) xs); [done|by apply get_lookup]. Qed.

Lemma lswap_sized i j xs : sized xs → (1 ≤ i)%nat → (i < j ≤ length xs)%nat → sized (lswap i j xs).
Proof using. intros Hs Hi Hj. by rewrite lswap_perm. Qed.

Lemma elem_bytes xs i : sized xs → (1 ≤ i ≤ length xs)%nat →
  bytes_at (arr xs) (p + (Z.of_nat i - 1) * Z.of_nat n) (get xs i).
Proof using.
  intros Hs Hi. pose proof (bytes_at_write m p (concat xs)) as Hb.
  pose proof (get_lookup xs i Hi) as Hg. apply list_elem_of_split_length in Hg as (X1 & X2 & E & Hl).
  assert (Hs1 : sized X1) by (rewrite E in Hs; by apply Forall_app in Hs as [? _]).
  revert Hb. rewrite E at 2. rewrite concat_app. simpl. rewrite !bytes_at_app. intros (_ & Hb & _).
  rewrite length_concat_sized in Hb by done.
  replace (p + (Z.of_nat i - 1) * Z.of_nat n) with (p + Z.of_nat (length X1 * n)) by nia. done.
Qed.

Lemma load_elem_run xs i : sized xs → (1 ≤ i ≤ length xs)%nat →
  load_block n (p + (Z.of_nat i - 1) * Z.of_nat n) (arr xs) = Ret (get xs i, arr xs).
Proof using.
  intros Hs Hi. rewrite <- (get_sized xs i Hs Hi) at 1. by apply load_block_run, elem_bytes.
Qed.

Context (compare : list Z → list Z → Z).

Lemma do_compare_run xs i j : sized xs → (1 ≤ i ≤ length xs)%nat → (1 ≤ j ≤ length xs)%nat →
  do_compare compare p (Z.of_nat i) (Z.of_nat j) (Z.of_nat n) (arr xs) = Ret (compare (get xs i) (get xs j), arr xs).
Proof using.
  intros Hs Hi Hj. unfold do_compare. rewrite Nat2Z.id.
  rewrite (bind_Ret _ _ _ _ _ (load_elem_run xs i Hs Hi)).
  by rewrite (bind_Ret _ _ _ _ _ (load_elem_run xs j Hs Hj)).
Qed.

Lemma do_swap_run xs i j : sized xs → (1 ≤ i)%nat → (i < j ≤ length xs)%nat →
  do_swap p (Z.of_nat i) (Z.of_nat j) (Z.of_nat n) (arr xs) = Ret (tt, arr (lswap i j xs)).
Proof using.
  intros Hs Hi Hj. unfold do_swap. rewrite Nat2Z.id.
  pose proof (get_sized xs i Hs ltac:(lia)) as Li. pose proof (get_sized xs j Hs ltac:(lia)) as Lj.
  destruct (lswap_split i j xs Hi Hj) as (X1 & X2 & X3 & E & H1 & H2 & ->).
  assert (Hs' : sized X1 ∧ sized X2).
  { rewrite E in Hs. apply Forall_app in Hs as [? Hs]. apply Forall_cons in Hs as [_ Hs].
    by apply Forall_app in Hs as [? _]. }
  destruct Hs' as [Hs1 Hs2]. set (a := get xs i) in *. set (b := get xs j) in *. clearbody a b. subst xs.
  rewrite !concat_app. simpl. rewrite !concat_app. simpl.
  pose proof (swap_loop_run m p (concat X1) a (concat X2) b (concat X3) ltac:(lia)) as Hrun.
  rewrite !length_app, !length_concat_sized, Li in Hrun by done.
  replace (p + (Z.of_nat i - 1) * Z.of_nat n) with (p + Z.of_nat (length X1 * n)) by nia.
  replace (p + (Z.of_nat j - 1) * Z.of_nat n) with (p + Z.of_nat (length X1 * n + (n + length X2 * n))) by nia.
  exact Hrun.
Qed.

(** ** Heaps *)
(** What [compare] promises: the sign is antisymmetric and the order it
    describes is transitive. *)
Context (Hanti : ∀ x y, 0 < compare x y → compare y x <= 0).
Context (Htrans : ∀ x y z, compare x y <= 0 → compare y z <= 0 → compare x z <= 0).
Context (Hrefl : ∀ x, compare x x <= 0).
Abbreviation le x y := (compare x y <= 0).
Abbreviation child c q := (c = 2 * q ∨ c = 2 * q + 1)%nat.

Definition heap (lo cnt : nat) (xs : list (list Z)) : Prop :=
  ∀ q c, (lo ≤ q)%nat → child c q → (c ≤ cnt)%nat → le (get xs c) (get xs q).
(** A heap except that the element at [i] may be too small. *)
Definition heap_but (lo cnt : nat) (xs : list (list Z)) (i : nat) : Prop :=
  (∀ q c, (lo ≤ q)%nat → q ≠ i → child c q → (c ≤ cnt)%nat → le (get xs c) (get xs q)) ∧
  (∀ q c, (lo ≤ q)%nat → child i q → child c i → (c ≤ cnt)%nat → le (get xs c) (get xs q)).

(** Rearranged within the first [cnt] elements. *)
Definition within (cnt : nat) (xs ys : list (list Z)) : Prop :=
  ys ≡ₚ xs ∧ (∀ i, (1 ≤ i ≤ cnt)%nat → ∃ i', (1 ≤ i' ≤ cnt)%nat ∧ get ys i = get xs i') ∧
  (∀ i, (cnt < i ≤ length xs)%nat → get ys i = get xs i).

Lemma within_refl cnt xs : within cnt xs xs.
Proof using. split_and!; [done|eauto|done]. Qed.

Lemma within_trans cnt xs ys zs : within cnt xs ys → within cnt ys zs → within cnt xs zs.
Proof using.
  intros (P1 & I1 & O1) (P2 & I2 & O2). pose proof (Permutation_length P1) as L. split_and!.
  - by rewrite P2.
  - intros i Hi. destruct (I2 i Hi) as (j & Hj & ->). destruct (I1 j Hj) as (k & Hk & ->). eauto.
  - intros i Hi. rewrite O2 by lia. by apply O1.
Qed.

Lemma within_swap cnt xs i j : (1 ≤ i)%nat → (i < j ≤ cnt)%nat → (cnt ≤ length xs)%nat → within cnt xs (lswap i j xs).
Proof using.
  intros Hi Hj Hc. split_and!.
  - apply lswap_perm; lia.
  - intros k Hk. rewrite get_lswap by lia. destruct (decide (k = i)); [exists j; split; [lia|done]|].
    destruct (decide (k = j)); [exists i; split; [lia|done]|]. eauto.
  - intros k Hk. rewrite get_lswap by lia. rewrite !decide_False by lia. done.
Qed.

(** The larger of [i] and its children, as [heapify] finds it. *)
Definition pick_max (xs : list (list Z)) (cnt i : nat) : nat :=
  let a := if (2 * i <=? cnt)%nat then if 0 <? compare (get xs (2 * i)) (get xs i) then (2 * i)%nat else i else i in
  if (2 * i + 1 <=? cnt)%nat
  then if 0 <? compare (get xs (2 * i + 1)) (get xs a) then (2 * i + 1)%nat else a else a.

Lemma pick_max_spec xs cnt i : (1 ≤ i ≤ cnt)%nat →
  (pick_max xs cnt i = i ∨ child (pick_max xs cnt i) i) ∧ (i ≤ pick_max xs cnt i ≤ cnt)%nat ∧
  (∀ c, child c i → (c ≤ cnt)%nat → le (get xs c) (get xs (pick_max xs cnt i))) ∧
  le (get xs i) (get xs (pick_max xs cnt i)).
Proof using Hanti Htrans Hrefl.
  intros Hi. unfold pick_max.
  destruct (2 * i <=? cnt)%nat eqn:E1; [apply Nat.leb_le in E1|apply Nat.leb_gt in E1];
  destruct (2 * i + 1 <=? cnt)%nat eqn:E2; try (apply Nat.leb_le in E2); try (apply Nat.leb_gt in E2); try lia;
  try destruct (Z.ltb_spec 0 (compare (get xs (2 * i)) (get xs i)));
  repeat match goal with |- context [0 <? ?c] => destruct (Z.ltb_spec 0 c) end;
  split_and!; try lia; try (intros c [->| ->] Hc; try lia); eauto.
Qed.

Lemma heap_but_swap lo cnt xs i j :
  (1 ≤ lo)%nat → (lo ≤ i)%nat → child j i → (j ≤ cnt)%nat → (cnt ≤ length xs)%nat → heap_but lo cnt xs i →
  (∀ c, child c i → (c ≤ cnt)%nat → le (get xs c) (get xs j)) → le (get xs i) (get xs j) →
  heap_but lo cnt (lswap i j xs) j.
Proof using.
  intros Hlo Hi Hji Hj Hc [H1 H2] Hmax Hij. split.
  - intros q c Hq Hqj Hcq Hcc. rewrite !get_lswap by lia. destruct (decide (q = i)) as [->|Hqi].
    + rewrite (decide_False (P := c = i)) by lia. destruct (decide (c = j)); auto.
    + rewrite (decide_False (P := q = j)) by done. destruct (decide (c = i)) as [->|]; [by apply H2|].
      rewrite decide_False by lia. auto.
  - intros q c Hq Hjq Hcj Hcc. assert (q = i) as -> by lia. rewrite !get_lswap by lia.
    rewrite (decide_False (P := c = i)) by lia. rewrite (decide_False (P := c = j)) by lia. rewrite decide_True by done.
    apply H1; [lia..|done|done].
Qed.

(** One round of [heapify]. *)
Lemma heapify_round fuel xs cnt i :
  sized xs → (1 ≤ i ≤ cnt)%nat → (cnt ≤ length xs)%nat → Z.of_nat cnt < 2 ^ 31 →
  heapify compare (S fuel) p (Z.of_nat i) (Z.of_nat cnt) (Z.of_nat n) (arr xs) =
    let j := pick_max xs cnt i in
    if decide (j = i) then Ret (tt, arr xs)
    else heapify compare fuel p (Z.of_nat j) (Z.of_nat cnt) (Z.of_nat n) (arr (lswap i j xs)).
Proof using Hanti Htrans Hrefl.
  intros Hs Hi Hc Hb. cbn [heapify]. rewrite !u32_small by lia.
  set (a := if (2 * i <=? cnt)%nat then if 0 <? compare (get xs (2 * i)) (get xs i) then (2 * i)%nat else i else i).
  assert (Ha : (1 ≤ a ≤ cnt)%nat).
  { unfold a. destruct (Nat.leb_spec (2 * i) cnt); [|lia]. destruct (0 <? _); lia. }
  rewrite (bind_Ret _ _ _ (Z.of_nat a) (arr xs)); cycle 1.
  { unfold a. destruct (Nat.leb_spec (2 * i) cnt) as [Hl|Hl].
    - rewrite (proj2 (Z.leb_le _ _)) by lia. replace (2 * Z.of_nat i) with (Z.of_nat (2 * i)) by lia.
      rewrite (bind_Ret _ _ _ _ _ (do_compare_run xs (2 * i) i Hs ltac:(lia) ltac:(lia))).
      by destruct (0 <? _).
    - rewrite (proj2 (Z.leb_gt _ _)) by lia. done. }
  rewrite (bind_Ret _ _ _ (Z.of_nat (pick_max xs cnt i)) (arr xs)); cycle 1.
  { unfold pick_max. cbv zeta. fold a. destruct (Nat.leb_spec (2 * i + 1) cnt) as [Hl|Hl].
    - rewrite (proj2 (Z.leb_le _ _)) by lia. replace (2 * Z.of_nat i + 1) with (Z.of_nat (2 * i + 1)) by lia.
      rewrite (bind_Ret _ _ _ _ _ (do_compare_run xs (2 * i + 1) a Hs ltac:(lia) ltac:(lia))).
      by destruct (0 <? compare (get xs (2 * i + 1)) (get xs a)).
    - rewrite (proj2 (Z.leb_gt _ _)) by lia. done. }
  destruct (pick_max_spec xs cnt i Hi) as (Hch & Hle & _). cbn zeta.
  destruct (decide (pick_max xs cnt i = i)) as [->|Hne]; [by rewrite Z.eqb_refl|].
  rewrite (proj2 (Z.eqb_neq _ _)) by lia.
  by rewrite (bind_Ret _ _ _ _ _ (do_swap_run xs i (pick_max xs cnt i) Hs ltac:(lia) ltac:(lia))).
Qed.

Lemma heapify_run fuel lo cnt xs i :
  sized xs → (1 ≤ lo ≤ i)%nat → (i ≤ cnt ≤ length xs)%nat → Z.of_nat cnt < 2 ^ 31 → (cnt - i < fuel)%nat →
  heap_but lo cnt xs i →
  ∃ ys, heapify compare fuel p (Z.of_nat i) (Z.of_nat cnt) (Z.of_nat n) (arr xs) = Ret (tt, arr ys) ∧
    sized ys ∧ within cnt xs ys ∧ heap lo cnt ys.
Proof using Hanti Htrans Hrefl.
  revert xs i. induction fuel as [|fuel IH]; intros xs i Hs Hlo Hc Hb Hf Hh; [lia|].
  rewrite heapify_round by lia || done. cbn zeta.
  destruct (pick_max_spec xs cnt i ltac:(lia)) as (Hch & Hle & Hmax & Hij).
  set (j := pick_max xs cnt i) in *. destruct (decide (j = i)) as [Ej|Ej].
  - exists xs. split_and!; [done..|apply within_refl|]. intros q c Hq Hcq Hcc. destruct (decide (q = i)) as [->|].
    + rewrite Ej in Hmax. by apply Hmax.
    + by apply (proj1 Hh).
  - destruct Hch as [?|Hch]; [done|].
    destruct (IH (lswap i j xs) j) as (ys & Hrun & Hys & Hw & Hhp); rewrite ?length_lswap; try lia.
    + apply lswap_sized; [done|lia..].
    + by apply heap_but_swap; try lia.
    + exists ys. split_and!; [done..| |done]. eapply within_trans; [|done]. apply within_swap; lia.
Qed.

(** ** Heap sort *)
Lemma build_run k cnt xs :
  sized xs → (k ≤ cnt ≤ length xs)%nat → Z.of_nat cnt < 2 ^ 31 → heap (S k) cnt xs →
  ∃ ys, build_loop compare k p (Z.of_nat cnt) (Z.of_nat n) (arr xs) = Ret (tt, arr ys) ∧
    sized ys ∧ within cnt xs ys ∧ heap 1 cnt ys.
Proof using Hanti Htrans Hrefl.
  revert xs. induction k as [|k IH]; intros xs Hs Hk Hb Hh.
  { exists xs. split_and!; [done..|apply within_refl|done]. }
  cbn [build_loop]. rewrite Nat2Z.id.
  destruct (heapify_run (S cnt) (S k) cnt xs (S k)) as (ys & Hrun & Hys & Hw & Hhp); try done; try lia.
  { split; intros q c Hq; [|lia]. intros Hne. apply Hh. lia. }
  rewrite (bind_Ret _ _ _ _ _ Hrun). pose proof (Permutation_length (proj1 Hw)).
  destruct (IH ys) as (zs & Hrun' & Hzs & Hw' & Hhp'); try done; [lia|].
  exists zs. split_and!; [done..| |done]. by eapply within_trans.
Qed.

Lemma heap_root cnt xs i : heap 1 cnt xs → (1 ≤ i ≤ cnt)%nat → le (get xs i) (get xs 1).
Proof using Htrans Hrefl.
  intros Hh. induction (lt_wf i) as [i _ IH]. intros Hi. destruct (decide (i = 1)%nat) as [->|]; [apply Hrefl|].
  assert (Hi2 : (i = 2 * (i / 2) ∨ i = 2 * (i / 2) + 1)%nat).
  { pose proof (Nat.div_mod i 2 ltac:(lia)). pose proof (Nat.mod_upper_bound i 2 ltac:(lia)). lia. }
  eapply Htrans; [apply (Hh (i / 2)%nat); [lia|done|lia]|]. apply IH; lia.
Qed.

(** The invariant of the second loop: a heap of [k] elements, none greater
    than the sorted rest. *)
Definition half_sorted (k : nat) (xs : list (list Z)) : Prop :=
  heap 1 k xs ∧ ∀ i j, (1 ≤ i)%nat → (i ≤ j)%nat → (k < j ≤ length xs)%nat → le (get xs i) (get xs j).

Lemma half_sorted_step k xs ys :
  (2 ≤ k ≤ length xs)%nat → half_sorted k xs → within (k - 1) (lswap 1 k xs) ys → heap 1 (k - 1) ys →
  half_sorted (k - 1) ys.
Proof using Htrans Hrefl.
  intros Hk [Hh Hr] (Hp & Hin & Hout) Hhy. split; [done|]. intros i j Hi Hij Hj.
  pose proof (Permutation_length Hp) as Hl. rewrite length_lswap in Hl, Hout.
  assert (Hgj : get ys j = if decide (j = k) then get xs 1 else get xs j).
  { rewrite Hout by lia. rewrite get_lswap by lia. rewrite decide_False by lia. done. }
  assert (Hgi : ∃ i', (1 ≤ i')%nat ∧ (i' ≤ k ∨ i' = i ∧ k < i)%nat ∧ get ys i = get xs i').
  { destruct (decide (i < k)%nat).
    - destruct (Hin i ltac:(lia)) as (i0 & Hi0 & ->). rewrite get_lswap by lia.
      destruct (decide (i0 = 1)%nat); [exists k; split_and!; [lia..|done]|]. rewrite decide_False by lia.
      exists i0. split_and!; [lia..|done].
    - rewrite Hout by lia. rewrite get_lswap by lia. rewrite decide_False by lia.
      destruct (decide (i = k)); [exists 1%nat; split_and!; [lia..|done]|]. exists i. split_and!; [lia..|done]. }
  destruct Hgi as (i' & Hi1 & Hi2 & ->). rewrite Hgj. destruct (decide (j = k)) as [->|Hjk].
  - apply (heap_root k); [done|lia].
  - apply Hr; lia.
Qed.

Lemma sort_loop_run k xs :
  sized xs → (k ≤ length xs)%nat → Z.of_nat k < 2 ^ 31 → half_sorted k xs →
  ∃ ys, sort_loop compare k p (Z.of_nat n) (arr xs) = Ret (tt, arr ys) ∧ sized ys ∧ ys ≡ₚ xs ∧ half_sorted 1 ys.
Proof using Hanti Htrans Hrefl.
  revert xs. induction k as [|k IH]; intros xs Hs Hk Hb Hh.
  { exists xs. split_and!; [done..|]. destruct Hh as [Hh Hr]. split; [intros q c; lia|]. intros; apply Hr; lia. }
  destruct k as [|k]; [by exists xs|]. set (k2 := S (S k)) in *.
  change (sort_loop compare k2 p (Z.of_nat n)) with
    (do_swap p 1 (Z.of_nat k2) (Z.of_nat n);; heapify compare k2 p 1 (Z.of_nat (S k)) (Z.of_nat n);;
     sort_loop compare (S k) p (Z.of_nat n)).
  rewrite (bind_Ret _ _ _ _ _ (do_swap_run xs 1 k2 Hs ltac:(lia) ltac:(lia))).
  destruct (heapify_run k2 1 (S k) (lswap 1 k2 xs) 1) as (ys & Hrun & Hys & Hw & Hhp);
    rewrite ?length_lswap; try lia.
  - apply lswap_sized; [done|lia..].
  - split; intros q c Hq; [|lia]. intros Hne Hcq Hcc. rewrite !get_lswap by lia. rewrite !decide_False by lia.
    apply (proj1 Hh); lia.
  - rewrite (bind_Ret _ _ _ _ _ Hrun). pose proof (Permutation_length (proj1 Hw)) as Hl. rewrite length_lswap in Hl.
    destruct (IH ys) as (zs & Hrun' & Hzs & Hp & Hs1); try done; try lia.
    + assert (E : (k2 - 1)%nat = S k) by lia. rewrite <- E in Hw, Hhp |- *.
      apply (half_sorted_step k2 xs ys); [lia|done..].
    + exists zs. split_and!; [done..| |done]. rewrite Hp, (proj1 Hw). apply lswap_perm; lia.
Qed.

Lemma sort_run xs :
  0 < p → (0 < n)%nat → sized xs → Z.of_nat (length xs) < 2 ^ 31 →
  ∃ ys, sort compare p (Z.of_nat (length xs)) (Z.of_nat n) (arr xs) = Ret (tt, arr ys) ∧ sized ys ∧ ys ≡ₚ xs ∧
    half_sorted 1 ys.
Proof using Hanti Htrans Hrefl.
  intros Hp Hn Hs Hb. unfold sort. rewrite ASSERT_bind by (apply orb_true_iff; left; by rewrite (proj2 (Z.eqb_neq _ _)) by lia).
  rewrite ASSERT_bind by (apply Z.ltb_lt; lia). set (cnt := length xs) in *.
  assert (Hd : Z.to_nat (Z.of_nat cnt / 2) = (cnt / 2)%nat) by (pose proof (Nat2Z.inj_div cnt 2); lia). rewrite Hd.
  pose proof (Nat.div_mod cnt 2 ltac:(lia)). pose proof (Nat.mod_upper_bound cnt 2 ltac:(lia)).
  destruct (build_run (cnt / 2) cnt xs) as (ys & Hrun & Hys & Hw & Hhp); try done; try lia.
  { intros q c Hq Hc Hcc. lia. }
  rewrite (bind_Ret _ _ _ _ _ Hrun), Nat2Z.id. pose proof (Permutation_length (proj1 Hw)) as Hl.
  destruct (sort_loop_run cnt ys) as (zs & Hrun' & Hzs & Hpz & Hsz); try done; try lia.
  { split; [done|]. lia. }
  exists zs. split_and!; [done..| |done]. by rewrite Hpz, (proj1 Hw).
Qed.
End arrays.

(** ** The contract of a comparison function: "a strcmp()-type result" *)
Class StrcmpLike (compare : list Z → list Z → Z) : Prop := {
  cmp_sign x y : compare x y < 0 ↔ 0 < compare y x;
  cmp_trans x y z : compare x y <= 0 → compare y z <= 0 → compare x z <= 0 }.

Lemma cmp_anti compare `{StrcmpLike compare} x y : 0 < compare x y → compare y x <= 0.
Proof. rewrite <- cmp_sign. lia. Qed.

Lemma cmp_refl compare `{StrcmpLike compare} x : compare x x <= 0.
Proof. pose proof (cmp_sign x x). lia. Qed.

(** The elements of [xs] are in nondecreasing order. *)
Definition in_order (compare : list Z → list Z → Z) (xs : list (list Z)) : Prop :=
  ∀ i j x y, (i ≤ j)%nat → xs !! i = Some x → xs !! j = Some y → compare x y <= 0.

Lemma half_sorted_in_order compare `{StrcmpLike compare} xs : half_sorted compare 1 xs → in_order compare xs.
Proof.
  intros [_ Hr] i j x y Hij Hx Hy. pose proof (lookup_lt_Some _ _ _ Hy).
  destruct (decide (i = j)) as [->|]; [simplify_eq; by apply cmp_refl|].
  assert (Ex : get xs (S i) = x) by (unfold get; rewrite Nat.sub_succ, Nat.sub_0_r; by apply nth_lookup_Some).
  assert (Ey : get xs (S j) = y) by (unfold get; rewrite Nat.sub_succ, Nat.sub_0_r; by apply nth_lookup_Some).
  rewrite <- Ex, <- Ey. apply Hr; lia.
Qed.

Lemma write_same m p bs : bytes_at m p bs → write m p bs = m.
Proof.
  revert p. induction bs as [|b bs IH]; intros p Hb; simpl; [done|]. destruct Hb as [H1 H2].
  rewrite IH by done. by apply insert_id.
Qed.

(** ** Searching *)
Section search.
Context (compare : list Z → list Z → Z) `{!StrcmpLike compare}.
Context (m : mem) (p : Z) (n : nat) (xs : list (list Z)) (key : list Z).
Context (Hn : (0 < n)%nat) (Hs : Forall (λ x, length x = n) xs) (Hb : bytes_at m p (concat xs)).
Context (Ho : in_order compare xs).

Lemma smaller_before i j x y :
  (i ≤ j)%nat → xs !! i = Some x → xs !! j = Some y → 0 < compare key y → 0 < compare key x.
Proof using Ho StrcmpLike0.
  clear Hn Hs Hb. intros Hij Hx Hy Hc. pose proof (Ho i j x y Hij Hx Hy) as Hxy.
  destruct (Z.ltb_spec 0 (compare key x)) as [|Hk]; [done|].
  pose proof (cmp_trans key x y Hk Hxy). lia.
Qed.

Lemma greater_after i j x y :
  (i ≤ j)%nat → xs !! i = Some x → xs !! j = Some y → compare key x < 0 → compare key y < 0.
Proof using Ho StrcmpLike0.
  clear Hn Hs Hb. intros Hij Hx Hy Hc. pose proof (Ho i j x y Hij Hx Hy) as Hxy. apply cmp_sign.
  apply cmp_sign in Hc. destruct (Z.ltb_spec 0 (compare y key)) as [|Hk]; [done|].
  pose proof (cmp_trans x y key Hxy Hk). lia.
Qed.

Lemma search_loop_run fuel lo hi :
  (lo ≤ hi ≤ length xs)%nat → (hi - lo < fuel)%nat →
  (∀ i x, (i < lo)%nat → xs !! i = Some x → 0 < compare key x) →
  (∀ i x, (hi ≤ i)%nat → xs !! i = Some x → compare key x < 0) →
  ∃ r, search_loop compare fuel key (p + Z.of_nat lo * Z.of_nat n) (p + Z.of_nat hi * Z.of_nat n) (Z.of_nat n) m
    = Ret (r, m) ∧
    ((∃ i x, r = p + Z.of_nat i * Z.of_nat n ∧ xs !! i = Some x ∧ compare key x = 0) ∨
     (r = 0 ∧ ∀ x, x ∈ xs → compare key x ≠ 0)).
Proof using Hn Hs Hb Ho StrcmpLike0.
  revert lo hi. induction fuel as [|fuel IH]; intros lo hi Hle Hf Hlo Hhi; [lia|]. cbn [search_loop].
  destruct (decide (lo = hi)) as [->|Hne].
  { rewrite (proj2 (Z.ltb_ge _ _)) by lia. exists 0. split; [done|]. right. split; [done|].
    intros x [i Hi]%list_elem_of_lookup. destruct (decide (i < hi)%nat) as [Hlt|Hge];
      [pose proof (Hlo i x Hlt Hi)|pose proof (Hhi i x ltac:(lia) Hi)]; lia. }
  rewrite (proj2 (Z.ltb_lt _ _)) by nia.
  replace (p + Z.of_nat hi * Z.of_nat n - (p + Z.of_nat lo * Z.of_nat n)) with (Z.of_nat (hi - lo) * Z.of_nat n) by nia.
  rewrite Z.div_mul by lia. set (mid := (lo + (hi - lo) / 2)%nat).
  assert (Hm : Z.of_nat lo + Z.of_nat (hi - lo) / 2 = Z.of_nat mid).
  { unfold mid. pose proof (Nat2Z.inj_div (hi - lo) 2). lia. }
  assert (Hmb : (lo ≤ mid < hi)%nat) by (unfold mid; pose proof (Nat.div_lt (hi - lo) 2 ltac:(lia) ltac:(lia)); lia).
  replace (p + Z.of_nat lo * Z.of_nat n + Z.of_nat (hi - lo) / 2 * Z.of_nat n) with (p + Z.of_nat mid * Z.of_nat n) by nia.
  destruct (lookup_lt_is_Some_2 xs mid) as [x Hx]; [lia|].
  assert (Hld : load_block (Z.to_nat (Z.of_nat n)) (p + Z.of_nat mid * Z.of_nat n) m = Ret (x, m)).
  { pose proof (load_elem_run m p n xs (S mid) Hs ltac:(lia)) as Hl. rewrite write_same in Hl by done.
    rewrite Nat2Z.id. replace (Z.of_nat (S mid) - 1) with (Z.of_nat mid) in Hl by lia. rewrite Hl. do 2 f_equal.
    unfold get. rewrite Nat.sub_succ, Nat.sub_0_r. by apply nth_lookup_Some. }
  rewrite (bind_Ret _ _ _ _ _ Hld). destruct (Z.ltb_spec (compare key x) 0) as [Hc|Hc].
  - apply IH; [lia|lia|done|]. intros i y Hi Hy. by eapply (greater_after mid i).
  - destruct (Z.ltb_spec 0 (compare key x)) as [Hc'|Hc'].
    + replace (p + Z.of_nat mid * Z.of_nat n + Z.of_nat n) with (p + Z.of_nat (S mid) * Z.of_nat n) by nia.
      apply IH; [lia|lia| |done]. intros i y Hi Hy. eapply (smaller_before i mid); [lia|done..].
    + eexists. split; [done|]. left. exists mid, x. split_and!; [done..|lia].
Qed.
End search.

(** ** Decimal numbers *)
Definition decimal (ds : list Z) : Z := foldl (λ v c, v * 10 + (c - 48)) 0 ds.

Lemma s32_step v d : s32 (s32 v * 10 - d) = s32 (v * 10 - d).
Proof.
  unfold s32. f_equal. pose proof (Z.div_mod (v + 2 ^ 31) (2 ^ 32) ltac:(lia)) as E.
  set (q := (v + 2 ^ 31) / 2 ^ 32) in *. set (r := (v + 2 ^ 31) mod 2 ^ 32) in *.
  replace (v * 10 - d + 2 ^ 31) with ((r - 2 ^ 31) * 10 - d + 2 ^ 31 + (q * 10) * 2 ^ 32) by lia.
  by rewrite Z.mod_add by lia.
Qed.

Lemma s32_opp v : s32 (- s32 v) = s32 (- v).
Proof.
  unfold s32. f_equal. pose proof (Z.div_mod (v + 2 ^ 31) (2 ^ 32) ltac:(lia)) as E.
  set (q := (v + 2 ^ 31) / 2 ^ 32) in *. set (r := (v + 2 ^ 31) mod 2 ^ 32) in *.
  replace (- v + 2 ^ 31) with (- (r - 2 ^ 31) + 2 ^ 31 + (- q) * 2 ^ 32) by lia.
  by rewrite Z.mod_add by lia.
Qed.

Lemma skip_spaces_run m s sp r rest fuel :
  Forall (λ c, isspace c = true) sp → isspace r = false → bytes_at m s (sp ++ r :: rest) → (length sp < fuel)%nat →
  skip_spaces fuel s m = Ret (s + Z.of_nat (length sp), m).
Proof.
  intros Hsp Hr. revert s fuel. induction Hsp as [|c sp Hc _ IH]; intros s [|fuel] Hb Hf; simpl in *; try lia.
  - destruct Hb as [H1 _]. rewrite (load8_bind _ _ _ r) by done. by rewrite Hr, Z.add_0_r.
  - destruct Hb as [H1 H2]. rewrite (load8_bind _ _ _ c) by done. rewrite Hc, (IH (s + 1)) by (done || lia).
    do 2 f_equal. lia.
Qed.

Lemma digit_loop_run m s ds r rest fuel v :
  Forall (λ c, isdigit c = true) ds → isdigit r = false → bytes_at m s (ds ++ r :: rest) → (length ds < fuel)%nat →
  digit_loop fuel s (s32 (- v)) m = Ret (s32 (- foldl (λ v c, v * 10 + (c - 48)) v ds), m).
Proof.
  intros Hd Hr. revert s fuel v. induction Hd as [|c ds Hc _ IH]; intros s [|fuel] v Hb Hf; simpl in *; try lia.
  - destruct Hb as [H1 _]. rewrite (load8_bind _ _ _ r) by done. by rewrite Hr.
  - destruct Hb as [H1 H2]. rewrite (load8_bind _ _ _ c) by done. rewrite Hc, s32_step.
    replace (- v * 10 - (c - 48)) with (- (v * 10 + (c - 48))) by lia. apply IH; [done|lia].
Qed.

(** ** Theorems *)
(** C32: [sort] (and [qsort]) terminates on every array of fewer than 2^31
    elements of any size, leaves a permutation of the elements in nondecreasing
    order of the comparison function, and touches nothing outside the array. *)
Theorem sort_correct compare `{StrcmpLike compare} m p n xs :
  0 < p → (0 < n)%nat → Forall (λ x, length x = n) xs → Z.of_nat (length xs) < 2 ^ 31 →
  bytes_at m p (concat xs) →
  ∃ ys m', sort compare p (Z.of_nat (length xs)) (Z.of_nat n) m = Ret (tt, m') ∧
    qsort p (Z.of_nat (length xs)) (Z.of_nat n) compare m = Ret (tt, m') ∧
    bytes_at m' p (concat ys) ∧ ys ≡ₚ xs ∧ Forall (λ x, length x = n) ys ∧ in_order compare ys ∧
    ∀ a, a < p ∨ p + Z.of_nat (length xs * n) <= a → m' !! a = m !! a.
Proof.
  intros Hp Hn Hs Hl Hb.
  destruct (sort_run m p n compare (cmp_anti compare) cmp_trans (cmp_refl compare) xs Hp Hn Hs Hl)
    as (ys & Hrun & Hys & Hperm & Hso). rewrite write_same in Hrun by done.
  exists ys, (write m p (concat ys)). split_and!; try done.
  - apply bytes_at_write.
  - by apply half_sorted_in_order.
  - intros a Ha. apply write_lookup_out. rewrite (length_concat_sized n) by done.
    by rewrite (Permutation_length Hperm).
Qed.

Definition by_head (x y : list Z) : Z := hd 0 x - hd 0 y.
#[global] Instance by_head_like : StrcmpLike by_head.
Proof. split; unfold by_head; lia. Qed.

Definition ex_array : mem := list_to_map (zip (seqZ 100 6) [3; 30; 1; 10; 2; 20]).

Lemma sort_correct_witness : ∃ ys m',
  sort by_head 100 3 2 ex_array = Ret (tt, m') ∧ ys ≡ₚ [[3; 30]; [1; 10]; [2; 20]] ∧ in_order by_head ys ∧
  bytes_at m' 100 (concat ys).
Proof.
  destruct (sort_correct by_head ex_array 100 2 [[3; 30]; [1; 10]; [2; 20]]) as (ys & m' & H1 & _ & H2 & H3 & _ & H4 & _).
  - lia.
  - lia.
  - repeat constructor.
  - simpl. lia.
  - vm_compute. auto 10.
  - exists ys, m'. split; [exact H1|]. split; [exact H3|]. split; [exact H4|exact H2].
Defined.

(** [binary_search] (and [bsearch]) on a sorted array terminates without
    changing memory; it returns the address of an element equal to the key, and
    a null pointer only if no element is. *)
Theorem binary_search_correct compare `{StrcmpLike compare} m p n xs key :
  (0 < n)%nat → Forall (λ x, length x = n) xs → bytes_at m p (concat xs) → in_order compare xs →
  ∃ r, binary_search compare key p (Z.of_nat (length xs)) (Z.of_nat n) m = Ret (r, m) ∧
    bsearch key p (Z.of_nat (length xs)) (Z.of_nat n) compare m = Ret (r, m) ∧
    ((∃ i x, r = p + Z.of_nat i * Z.of_nat n ∧ xs !! i = Some x ∧ compare key x = 0) ∨
     (r = 0 ∧ ∀ x, x ∈ xs → compare key x ≠ 0)).
Proof.
  intros Hn Hs Hb Ho. unfold bsearch, binary_search, compare_thunk. rewrite Nat2Z.id.
  destruct (search_loop_run compare m p n xs key Hn Hs Hb Ho (S (length xs)) 0 (length xs)) as (r & Hrun & Hr).
  - lia.
  - lia.
  - intros i x Hi. lia.
  - intros i x Hi Hx. apply lookup_lt_Some in Hx. lia.
  - simpl Z.of_nat in Hrun at 1. rewrite Z.mul_0_l, Z.add_0_r in Hrun.
    replace (Z.of_nat (length xs) * Z.of_nat n) with (Z.of_nat n * Z.of_nat (length xs)) in Hrun by lia.
    exists r. split; [exact Hrun|]. split; [exact Hrun|done].
Qed.

Definition ex_sorted : mem := list_to_map (zip (seqZ 100 6) [1; 10; 2; 20; 3; 30]).

Lemma binary_search_correct_witness : ∃ r,
  binary_search by_head [2] 100 3 2 ex_sorted = Ret (r, ex_sorted) ∧
  ((∃ i x, r = 100 + Z.of_nat i * 2 ∧ [[1; 10]; [2; 20]; [3; 30]] !! i = Some x ∧ by_head [2] x = 0) ∨
   (r = 0 ∧ ∀ x, x ∈ [[1; 10]; [2; 20]; [3; 30]] → by_head [2] x ≠ 0)).
Proof.
  destruct (binary_search_correct by_head ex_sorted 100 2 [[1; 10]; [2; 20]; [3; 30]] [2]) as (r & H1 & _ & H2).
  - lia.
  - repeat constructor.
  - vm_compute. auto 10.
  - intros i j x y Hij Hx Hy. destruct i as [|[|[|i]]], j as [|[|[|j]]]; simplify_eq/=; unfold by_head; simpl; lia.
  - exists r. split; [exact H1|exact H2].
Defined.

(** [atoi] reads optional white space, an optional sign and a nonempty run
    of decimal digits up to the first other character, and returns their value
    (modulo 2^32, as an [int]), so every [int] written in decimal is read
    exactly, the smallest one included. *)
Theorem atoi_correct m s sp sign ds rest :
  Forall (λ c, isspace c = true) sp → sign ∈ [[]; [43]; [45]] → ds ≠ [] → Forall (λ c, isdigit c = true) ds →
  (∀ c r, rest = c :: r → isdigit c = false) → cstr m s (sp ++ sign ++ ds ++ rest) →
  let v := if bool_decide (sign = [45]) then - decimal ds else decimal ds in
  atoi s m = Ret (s32 v, m) ∧ (- 2 ^ 31 <= v < 2 ^ 31 → atoi s m = Ret (v, m)).
Proof.
  intros Hsp Hsg Hne Hd Hr Hc v. assert (E : atoi s m = Ret (s32 v, m)); [|split; [done|]; intros; by rewrite <- (s32_small v)].
  pose proof (cstr_fuel _ _ _ Hc) as Hf. rewrite !length_app in Hf. destruct Hc as (Hp & _ & Hb).
  assert (Hrest : ∃ r rs, rest ++ [0] = r :: rs ∧ isdigit r = false).
  { destruct rest as [|c rs]; [by exists 0, []|]. exists c, (rs ++ [0]). split; [done|]. by eapply Hr. }
  destruct Hrest as (r & rs & Er & Hrd).
  rewrite <- !(assoc_L (++)), Er in Hb. clear Er Hr.
  destruct ds as [|d ds]; [done|]. pose proof (Forall_inv Hd) as Hd1. cbv beta in Hd1.
  assert (Hds : 48 <= d <= 57) by (unfold isdigit in Hd1; lia).
  assert (Hfirst : ∃ c cs, sign ++ (d :: ds) ++ r :: rs = c :: cs ∧ isspace c = false ∧
    (c =? 45) = bool_decide (sign = [45]) ∧ (c =? 43) || (c =? 45) = bool_decide (sign ≠ [])).
  { rewrite !elem_of_cons, elem_of_nil in Hsg. destruct Hsg as [->|[->|[->|[]]]]; cbn [app]; do 2 eexists; (split; [done|]); [|done..].
    unfold isspace. split_and!; [lia|rewrite bool_decide_false by done; lia|rewrite bool_decide_false by (intros E; by apply E); lia]. }
  destruct Hfirst as (c & cs & Ec & Hsc & Hneg & Hskip). unfold atoi.
  rewrite ASSERT_bind by (by rewrite eqb_false by lia). rewrite gets_bind.
  assert (Hsk : skip_spaces (str_fuel m) s m = Ret (s + Z.of_nat (length sp), m)).
  { apply (skip_spaces_run m s sp c cs); [done..|by rewrite <- Ec|lia]. }
  rewrite (bind_Ret _ _ _ _ _ Hsk). apply bytes_at_app in Hb as [_ Hb].
  rewrite (load8_bind _ _ _ c) by (rewrite Ec in Hb; by destruct Hb). rewrite Hskip, Hneg.
  apply bytes_at_app in Hb as [_ Hb].
  set (s1 := if bool_decide (sign ≠ []) then s + Z.of_nat (length sp) + 1 else s + Z.of_nat (length sp)).
  assert (Hs1 : s1 = s + Z.of_nat (length sp) + Z.of_nat (length sign)).
  { unfold s1. clear -Hsg. rewrite !elem_of_cons, elem_of_nil in Hsg. destruct Hsg as [->|[->|[->|[]]]]; simpl; lia. }
  rewrite <- Hs1 in Hb. pose proof (digit_loop_run m s1 (d :: ds) r rs (str_fuel m) 0 Hd Hrd Hb ltac:(lia)) as Hdl.
  change (s32 (-0)) with 0 in Hdl. rewrite (bind_Ret _ _ _ _ _ Hdl). fold (decimal (d :: ds)).
  unfold v, mret, cmd_ret. destruct (bool_decide (sign = [45])); [done|]. by rewrite s32_opp, Z.opp_involutive.
Qed.

Definition ex_digits : mem := list_to_map (zip (seqZ 100 6) [32; 45; 52; 50; 120; 0]).

Lemma atoi_correct_witness : atoi 100 ex_digits = Ret (-42, ex_digits).
Proof.
  destruct (atoi_correct ex_digits 100 [32] [45] [52; 50] [120]) as [_ H].
  - repeat constructor.
  - right. right. left.
  - discriminate.
  - repeat constructor.
  - intros c r [= <- <-]. reflexivity.
  - split; [lia|]. split; [by_decision|]. vm_compute. auto 10.
  - apply H. vm_compute. split; [discriminate|reflexivity].
Defined.
