(* ===== verification/Pagedir.v ===== *)
(** * Page directories (userprog/pagedir.c, threads/pte.h)

    The kernel's page directories and page tables are pages of 1024 words, by
    the kernel virtual address of the page.  [cr3] holds the physical address
    of the active page directory and [tlb] the translations the processor has
    cached since it was last loaded.  Freed pages are recorded in order.

    [palloc_get_page] is a parameter here: it takes a page from the kernel
    pool, or none. *)
From S2P Require Import Prelude Vaddr.
Open Scope Z_scope.

(** ** threads/pte.h *)
Definition PTSHIFT : Z := PGBITS.
Definition PTBITS : Z := 10.
Definition PTMASK : Z := Z.shiftl (Z.shiftl 1 PTBITS - 1) PTSHIFT.
Definition PDSHIFT : Z := PTSHIFT + PTBITS.
Definition pt_no (va : Z) : Z := Z.shiftr (Z.land va PTMASK) PTSHIFT.
Definition pd_no (va : Z) : Z := Z.shiftr va PDSHIFT.

Definition PTE_ADDR : Z := 0xfffff000.
Definition PTE_P : Z := 0x1.
Definition PTE_W : Z := 0x2.
Definition PTE_U : Z := 0x4.
Definition PTE_A : Z := 0x20.
Definition PTE_D : Z := 0x40.
Definition flag (e f : Z) : bool := negb (Z.land e f =? 0).

Definition pde_create (pt : Z) : res Z :=
  RASSERT (pg_ofs pt =? 0);;
  a ← vtop pt;
  mret (Z.lor (Z.lor (Z.lor a PTE_U) PTE_P) PTE_W).
Definition pde_get_pt (pde : Z) : res Z :=
  RASSERT (flag pde PTE_P);;
  ptov (Z.land pde PTE_ADDR).
Definition pte_create_kernel (page : Z) (writable : bool) : res Z :=
  RASSERT (pg_ofs page =? 0);;
  a ← vtop page;
  mret (Z.lor (Z.lor a PTE_P) (if writable then PTE_W else 0)).
Definition pte_create_user (page : Z) (writable : bool) : res Z :=
  e ← pte_create_kernel page writable;
  mret (Z.lor e PTE_U).
Definition pte_get_page (pte : Z) : res Z := ptov (Z.land pte PTE_ADDR).

(** ** State *)
Record vm := mk_vm { tables : gmap Z (list Z); cr3 : Z; tlb : gmap Z Z; freed : list Z }.

Definition load_word (p i : Z) : cmd vm Z := λ s,
  match tables s !! p with
  | None => Err BadPtr
  | Some ws => match ws !! Z.to_nat i with Some w => Ret (w, s) | None => Err OutOfBounds end
  end.
Definition store_word (p i w : Z) : cmd vm unit := λ s,
  match tables s !! p with
  | None => Err BadPtr
  | Some ws =>
      if (Z.to_nat i <? length ws)%nat
      then Ret (tt, mk_vm (<[p := <[Z.to_nat i := w]> ws]> (tables s)) (cr3 s) (tlb s) (freed s))
      else Err OutOfBounds
  end.
(** [palloc_free_page]: the page is given back; if it held a table its words
    are gone. *)
Definition palloc_free_page (p : Z) : cmd vm unit :=
  modify (λ s, mk_vm (delete p (tables s)) (cr3 s) (tlb s) (freed s ++ [p])).

Section pagedir.
Context (palloc_get_page : vm → option Z) (init_page_dir init_ram_pages : Z).

(** A page of kernel memory with the given words. *)
Definition get_page_with (ws : list Z) : cmd vm (option Z) := λ s,
  match palloc_get_page s with
  | None => Ret (None, s)
  | Some p => Ret (Some p, mk_vm (<[p := ws]> (tables s)) (cr3 s) (tlb s) (freed s))
  end.
Definition zero_page : list Z := replicate 1024 0.

(** [memcpy (pd, init_page_dir, PGSIZE)] copies all 1024 words. *)
Definition pagedir_create : cmd vm (option Z) :=
  ws ← gets (λ s, tables s !! init_page_dir);
  match ws with
  | None => throw BadPtr
  | Some ws => get_page_with ws
  end.

(** Loading [cr3] empties the translation cache. *)
Definition pagedir_activate (pd : option Z) : cmd vm unit :=
  let pd := default init_page_dir pd in
  a ← lift_res (vtop pd);
  modify (λ s, mk_vm (tables s) a ∅ (freed s)).

Definition active_pd : cmd vm Z := a ← gets cr3; lift_res (ptov a).

Definition invalidate_pagedir (pd : Z) : cmd vm unit :=
  a ← active_pd;
  if a =? pd then pagedir_activate (Some pd) else mret tt.

(** The address of a page table entry: its table and index. *)
Definition lookup_page (pd vaddr : Z) (create : bool) : cmd vm (option (Z * Z)) :=
  ASSERT (negb (pd =? 0));;
  ASSERT (negb create || is_user_vaddr vaddr);;
  pde ← load_word pd (pd_no vaddr);
  found ← (if pde =? 0 then
             if create then
               pt ← get_page_with zero_page;
               match pt with
               | None => mret false
               | Some pt =>
                   e ← lift_res (pde_create pt);
                   store_word pd (pd_no vaddr) e;;
                   mret true
               end
             else mret false
           else mret true);
  if (found : bool) then
    pde ← load_word pd (pd_no vaddr);
    pt ← lift_res (pde_get_pt pde);
    mret (Some (pt, pt_no vaddr))
  else mret None.

Definition pagedir_set_page (pd upage kpage : Z) (writable : bool) : cmd vm bool :=
  ASSERT (pg_ofs upage =? 0);;
  ASSERT (pg_ofs kpage =? 0);;
  ASSERT (is_user_vaddr upage);;
  a ← lift_res (vtop kpage);
  ASSERT (Z.shiftr a PTSHIFT <? init_ram_pages);;
  ASSERT (negb (pd =? init_page_dir));;
  pte ← lookup_page pd upage true;
  match pte with
  | None => mret false
  | Some (pt, i) =>
      e ← load_word pt i;
      ASSERT (negb (flag e PTE_P));;
      e ← lift_res (pte_create_user kpage writable);
      store_word pt i e;;
      mret true
  end.

(** The kernel address of the byte, or 0. *)
Definition pagedir_get_page (pd uaddr : Z) : cmd vm Z :=
  ASSERT (is_user_vaddr uaddr);;
  pte ← lookup_page pd uaddr false;
  match pte with
  | None => mret 0
  | Some (pt, i) =>
      e ← load_word pt i;
      if flag e PTE_P then p ← lift_res (pte_get_page e); mret (p + pg_ofs uaddr) else mret 0
  end.

Definition pagedir_clear_page (pd upage : Z) : cmd vm unit :=
  ASSERT (pg_ofs upage =? 0);;
  ASSERT (is_user_vaddr upage);;
  pte ← lookup_page pd upage false;
  match pte with
  | None => mret tt
  | Some (pt, i) =>
      e ← load_word pt i;
      if flag e PTE_P then
        store_word pt i (Z.land e (u32 (Z.lnot PTE_P)));;
        invalidate_pagedir pd
      else mret tt
  end.

(** The dirty and accessed bits are read and written the same way. *)
Definition test_flag (f pd vpage : Z) : cmd vm bool :=
  pte ← lookup_page pd vpage false;
  match pte with
  | None => mret false
  | Some (pt, i) => e ← load_word pt i; mret (flag e f)
  end.
Definition write_flag (f pd vpage : Z) (on : bool) : cmd vm unit :=
  pte ← lookup_page pd vpage false;
  match pte with
  | None => mret tt
  | Some (pt, i) =>
      e ← load_word pt i;
      if on then store_word pt i (Z.lor e f)
      else store_word pt i (Z.land e (u32 (Z.lnot f)));; invalidate_pagedir pd
  end.
Definition pagedir_is_dirty (pd vpage : Z) : cmd vm bool := test_flag PTE_D pd vpage.
Definition pagedir_set_dirty (pd vpage : Z) (dirty : bool) : cmd vm unit := write_flag PTE_D pd vpage dirty.
Definition pagedir_is_accessed (pd vpage : Z) : cmd vm bool := test_flag PTE_A pd vpage.
Definition pagedir_set_accessed (pd vpage : Z) (accessed : bool) : cmd vm unit := write_flag PTE_A pd vpage accessed.

(** [for (pte = pt; pte < pt + PGSIZE / sizeof *pte; pte++)], from entry [i]. *)
Fixpoint free_pages_loop (n : nat) (pt i : Z) : cmd vm unit :=
  match n with
  | O => mret tt
  | S n =>
      e ← load_word pt i;
      (if flag e PTE_P then p ← lift_res (pte_get_page e); palloc_free_page p else mret tt);;
      free_pages_loop n pt (i + 1)
  end.
(** [for (pde = pd; pde < pd + pd_no (PHYS_BASE); pde++)], from entry [i]. *)
Fixpoint free_tables_loop (n : nat) (pd i : Z) : cmd vm unit :=
  match n with
  | O => mret tt
  | S n =>
      e ← load_word pd i;
      (if flag e PTE_P then
         pt ← lift_res (pde_get_pt e);
         free_pages_loop 1024 pt 0;;
         palloc_free_page pt
       else mret tt);;
      free_tables_loop n pd (i + 1)
  end.
Definition pagedir_destroy (pd : option Z) : cmd vm unit :=
  match pd with
  | None => mret tt
  | Some pd =>
      ASSERT (negb (pd =? init_page_dir));;
      free_tables_loop (Z.to_nat (pd_no PHYS_BASE)) pd 0;;
      palloc_free_page pd
  end.

(** ** The processor: an access through the active page directory caches the
    translation of the page *)
Definition translate (s : vm) (pd va : Z) : option Z :=
  ws ← tables s !! pd;
  pde ← ws !! Z.to_nat (pd_no va);
  if flag pde PTE_P then
    pt ← tables s !! (Z.land pde PTE_ADDR + PHYS_BASE);
    e ← pt !! Z.to_nat (pt_no va);
    if flag e PTE_P then Some e else None
  else None.

Definition cpu_access (va : Z) : cmd vm bool := λ s,
  match translate s (cr3 s + PHYS_BASE) va with
  | Some e => Ret (true, mk_vm (tables s) (cr3 s) (<[pg_no va := e]> (tlb s)) (freed s))
  | None => Ret (false, s)
  end.
End pagedir.
