(* ===== verification/PagedirSpec.v ===== *)
(** Correctness of the page directories: the routines change exactly the
    translation the processor performs, and never leave a stale one cached. *)
From S2P Require Import Prelude Vaddr Pagedir.
Open Scope Z_scope.

(** ** Bits of an entry *)
Lemma flag_bit e k : 0 <= k → flag e (2 ^ k) = Z.testbit e k.
Proof.
  intros Hk. unfold flag. destruct (Z.testbit e k) eqn:E.
  - apply negb_true_iff, Z.eqb_neq. intros H0. assert (Z.testbit (Z.land e (2 ^ k)) k = true) as Hb.
    { rewrite Z.land_spec, E, Z.pow2_bits_true by lia. done. }
    rewrite H0, Z.bits_0 in Hb. done.
  - apply negb_false_iff, Z.eqb_eq. apply Z.bits_inj'. intros n Hn. rewrite Z.land_spec, Z.bits_0.
    destruct (decide (n = k)) as [->|]; [by rewrite E|]. rewrite Z.pow2_bits_false by lia. by rewrite andb_false_r.
Qed.

Lemma flag_P e : flag e PTE_P = Z.testbit e 0.
Proof. exact (flag_bit e 0 ltac:(lia)). Qed.
Lemma flag_W e : flag e PTE_W = Z.testbit e 1.
Proof. exact (flag_bit e 1 ltac:(lia)). Qed.
Lemma flag_A e : flag e PTE_A = Z.testbit e 5.
Proof. exact (flag_bit e 5 ltac:(lia)). Qed.
Lemma flag_D e : flag e PTE_D = Z.testbit e 6.
Proof. exact (flag_bit e 6 ltac:(lia)). Qed.

Lemma addr_bit n : 0 <= n → Z.testbit PTE_ADDR n = (12 <=? n) && (n <? 32).
Proof.
  intros Hn. replace PTE_ADDR with (Z.shiftl (Z.ones 20) 12) by reflexivity.
  rewrite Z.shiftl_spec by lia. destruct (Z.leb_spec 12 n).
  - destruct (Z.ltb_spec n 32); [rewrite Z.ones_spec_low by lia|rewrite Z.ones_spec_high by lia]; done.
  - by rewrite Z.testbit_neg_r by lia.
Qed.

(** A kernel page and its physical address. *)
Definition kpage_ok (p : Z) : Prop := PHYS_BASE <= p < 2 ^ 32 ∧ p mod 4096 = 0.

Lemma kpage_bits p n : kpage_ok p → 0 <= n → (n < 12 ∨ 32 <= n) → Z.testbit (p - PHYS_BASE) n = false.
Proof.
  intros [Hp Hm] Hn Hr. unfold PHYS_BASE in *. assert (Ha : (p - 0xc0000000) mod 2 ^ 12 = 0).
  { replace (p - 0xc0000000) with (p + (- 0xc0000) * 4096) by lia. change (2 ^ 12) with 4096. by rewrite Z.mod_add by lia. }
  destruct Hr as [Hr|Hr].
  - rewrite <- (Z.mod_pow2_bits_low _ 12) by lia. by rewrite Ha, Z.bits_0.
  - destruct (Z.eq_dec (p - 0xc0000000) 0) as [->|]; [by rewrite Z.bits_0|].
    apply Z.bits_above_log2; [lia|]. apply Z.log2_lt_pow2; [lia|]. pose proof (Z.pow_le_mono_r 2 32 n). lia.
Qed.

Lemma vtop_run p : kpage_ok p → vtop p = Ret (p - PHYS_BASE).
Proof.
  intros [Hp _]. unfold vtop, RASSERT, is_kernel_vaddr. rewrite (proj2 (Z.leb_le _ _)) by lia. simpl.
  unfold mret, res_ret. f_equal. apply u32_small. unfold PHYS_BASE in *. lia.
Qed.

Lemma kpage_ofs p : kpage_ok p → (pg_ofs p =? 0) = true.
Proof. intros [_ Hm]. rewrite pg_ofs_mod, Hm. done. Qed.

(** The address part of an entry made from a page and flag bits. *)
Lemma addr_of_page p f : kpage_ok p → (∀ n, 12 <= n → Z.testbit f n = false) →
  Z.land (Z.lor (p - PHYS_BASE) f) PTE_ADDR = p - PHYS_BASE.
Proof.
  intros Hp Hf. apply Z.bits_inj'. intros n Hn. rewrite Z.land_spec, Z.lor_spec, addr_bit by lia.
  destruct (Z.leb_spec 12 n); simpl; cycle 1.
  { rewrite andb_false_r. symmetry. apply kpage_bits; [done|lia|lia]. }
  rewrite Hf by lia. destruct (Z.ltb_spec n 32); [by rewrite orb_false_r, andb_true_r|].
  rewrite andb_false_r. symmetry. apply kpage_bits; [done|lia|lia].
Qed.

Lemma flag_of_page p f k : kpage_ok p → 0 <= k < 12 → Z.testbit (Z.lor (p - PHYS_BASE) f) k = Z.testbit f k.
Proof. intros Hp Hk. rewrite Z.lor_spec, (kpage_bits p k) by (done || lia). done. Qed.

Lemma small_bits f n : 0 <= f < 4096 → 12 <= n → Z.testbit f n = false.
Proof.
  intros Hf Hn. destruct (Z.eq_dec f 0) as [->|]; [by rewrite Z.bits_0|]. apply Z.bits_above_log2; [lia|].
  apply Z.log2_lt_pow2; [lia|]. pose proof (Z.pow_le_mono_r 2 12 n). lia.
Qed.

(** ** The entries the routines build *)
Lemma pde_create_run p : kpage_ok p → ∃ e, pde_create p = Ret e ∧ e ≠ 0 ∧ flag e PTE_P = true ∧
  Z.land e PTE_ADDR = p - PHYS_BASE.
Proof.
  intros Hp. unfold pde_create, RASSERT. rewrite kpage_ofs by done. simpl. rewrite vtop_run by done. simpl.
  rewrite <- !Z.lor_assoc. change (Z.lor PTE_U (Z.lor PTE_P PTE_W)) with 7. eexists. split; [done|].
  assert (HP : flag (Z.lor (p - PHYS_BASE) 7) PTE_P = true) by (rewrite flag_P, flag_of_page by (done || lia); done).
  split_and!; [intros E; by rewrite E in HP|done|]. apply addr_of_page; [done|]. intros n Hn. by apply small_bits.
Qed.

Lemma pte_create_user_run p w : kpage_ok p → ∃ e, pte_create_user p w = Ret e ∧ flag e PTE_P = true ∧
  Z.land e PTE_ADDR = p - PHYS_BASE ∧ flag e PTE_W = w ∧ flag e PTE_A = false ∧ flag e PTE_D = false.
Proof.
  intros Hp. unfold pte_create_user, pte_create_kernel, RASSERT. rewrite kpage_ofs by done. simpl.
  rewrite vtop_run by done. simpl. rewrite <- !Z.lor_assoc. eexists. split; [done|].
  rewrite flag_P, flag_W, flag_A, flag_D, !flag_of_page by (done || lia). destruct w; split_and!; try done;
    apply addr_of_page; try done; intros n Hn; by apply small_bits.
Qed.

Lemma clear_bit e k n : 0 <= k < 12 → 0 <= n < 32 →
  Z.testbit (Z.land e (u32 (Z.lnot (2 ^ k)))) n = Z.testbit e n && negb (n =? k).
Proof.
  intros Hk Hn. rewrite Z.land_spec. f_equal. unfold u32. rewrite Z.mod_pow2_bits_low by lia.
  rewrite Z.lnot_spec, Z.pow2_bits_eqb by lia. by rewrite Z.eqb_sym.
Qed.

Lemma clear_addr e k : 0 <= k < 12 → Z.land (Z.land e (u32 (Z.lnot (2 ^ k)))) PTE_ADDR = Z.land e PTE_ADDR.
Proof.
  intros Hk. apply Z.bits_inj'. intros n Hn. rewrite !(Z.land_spec _ PTE_ADDR), addr_bit by lia.
  destruct (Z.leb_spec 12 n); simpl; [|by rewrite !andb_false_r].
  destruct (Z.ltb_spec n 32); [|by rewrite !andb_false_r]. rewrite clear_bit by lia.
  rewrite (proj2 (Z.eqb_neq _ _)) by lia. by rewrite andb_true_r.
Qed.

Lemma set_addr e k : 0 <= k < 12 → Z.land (Z.lor e (2 ^ k)) PTE_ADDR = Z.land e PTE_ADDR.
Proof.
  intros Hk. apply Z.bits_inj'. intros n Hn. rewrite !Z.land_spec, Z.lor_spec, addr_bit by lia.
  destruct (Z.leb_spec 12 n); simpl; [|by rewrite !andb_false_r]. rewrite Z.pow2_bits_false by lia. by rewrite orb_false_r.
Qed.

(** ** Addresses *)
Definition user_va (va : Z) : Prop := 0 <= va < PHYS_BASE.

Lemma pd_no_div va : pd_no va = va / 2 ^ 22.
Proof. unfold pd_no. change PDSHIFT with 22. by rewrite Z.shiftr_div_pow2 by lia. Qed.

Lemma pt_no_mod va : pt_no va = va / 2 ^ 12 mod 2 ^ 10.
Proof.
  unfold pt_no. change PTMASK with (Z.shiftl (Z.ones 10) 12). change PTSHIFT with 12.
  rewrite <- Z.shiftr_div_pow2, <- Z.land_ones by lia. apply Z.bits_inj'. intros n Hn.
  rewrite Z.shiftr_spec, !Z.land_spec, Z.shiftl_spec, Z.shiftr_spec by lia. by replace (n + 12 - 12) with n by lia.
Qed.

Lemma index_range va : user_va va → 0 <= pd_no va < 768 ∧ 0 <= pt_no va < 1024.
Proof.
  unfold user_va, PHYS_BASE. intros Hva. rewrite pd_no_div, pt_no_mod.
  pose proof (Z.mod_pos_bound (va / 2 ^ 12) (2 ^ 10) ltac:(lia)). split; [|lia].
  split; [apply Z.div_pos; lia|]. apply Z.div_lt_upper_bound; lia.
Qed.

(** A page is determined by its two indices. *)
Lemma index_inj va va' : pd_no va = pd_no va' → pt_no va = pt_no va' → pg_no va = pg_no va'.
Proof.
  rewrite !pd_no_div, !pt_no_mod, !pg_no_div. intros H1 H2. change 4096 with (2 ^ 12).
  assert (E : ∀ v, v / 2 ^ 22 = v / 2 ^ 12 / 2 ^ 10) by (intros v; rewrite Z.div_div by lia; done).
  rewrite !E in H1. rewrite (Z.div_mod (va / 2 ^ 12) (2 ^ 10)), (Z.div_mod (va' / 2 ^ 12) (2 ^ 10)) by lia. congruence.
Qed.

Lemma index_same va va' : pg_no va = pg_no va' → pd_no va = pd_no va' ∧ pt_no va = pt_no va'.
Proof.
  rewrite !pd_no_div, !pt_no_mod, !pg_no_div. change 4096 with (2 ^ 12). intros E.
  assert (E2 : ∀ v, v / 2 ^ 22 = v / 2 ^ 12 / 2 ^ 10) by (intros v; rewrite Z.div_div by lia; done).
  by rewrite !E2, E.
Qed.

(** ** The invariant *)
Definition pt_of (e : Z) : Z := Z.land e PTE_ADDR + PHYS_BASE.
Definition low_addr (e : Z) : Prop := Z.land e PTE_ADDR < 2 ^ 32 - PHYS_BASE.

Lemma ptov_run e : low_addr e → ptov (Z.land e PTE_ADDR) = Ret (pt_of e).
Proof.
  unfold low_addr, PHYS_BASE. intros He. assert (0 <= Z.land e PTE_ADDR) by (apply Z.land_nonneg; right; done).
  unfold ptov, RASSERT, PHYS_BASE. rewrite (proj2 (Z.ltb_lt _ _)) by lia. simpl. unfold mret, res_ret, pt_of, PHYS_BASE.
  f_equal. apply u32_small. lia.
Qed.

Lemma translate_eq s pd va wsd pde :
  tables s !! pd = Some wsd → wsd !! Z.to_nat (pd_no va) = Some pde →
  translate s pd va = if flag pde PTE_P then
    match tables s !! pt_of pde with
    | Some pt => match pt !! Z.to_nat (pt_no va) with Some e => if flag e PTE_P then Some e else None | None => None end
    | None => None
    end else None.
Proof. intros H1 H2. unfold translate, mbind, option_bind. by rewrite H1, H2. Qed.

Lemma flag_zero f : flag 0 f = false.
Proof. done. Qed.

Section spec.
Context (init_page_dir : Z).

(** [dirs] are the page directories in use, the kernel's own among them.  A
    nonzero user entry of a directory points to a page table that no other
    entry uses. *)
Record vm_ok (s : vm) (dirs : gset Z) : Prop := {
  v_len : ∀ p ws, tables s !! p = Some ws → length ws = 1024%nat;
  v_dir : ∀ pd, pd ∈ dirs → kpage_ok pd ∧ is_Some (tables s !! pd);
  v_pde : ∀ pd ws i e, pd ∈ dirs → tables s !! pd = Some ws → (i < 768)%nat → ws !! i = Some e → e ≠ 0 →
    flag e PTE_P = true ∧ low_addr e ∧ is_Some (tables s !! pt_of e) ∧ pt_of e ∉ dirs;
  v_inj : ∀ pd ws i e pd' ws' i' e', pd ∈ dirs → tables s !! pd = Some ws → (i < 768)%nat → ws !! i = Some e → e ≠ 0 →
    pd' ∈ dirs → tables s !! pd' = Some ws' → (i' < 768)%nat → ws' !! i' = Some e' → e' ≠ 0 →
    pt_of e = pt_of e' → pd = pd' ∧ i = i';
  v_pte : ∀ pd va e, pd ∈ dirs → user_va va → translate s pd va = Some e → low_addr e;
  v_init : init_page_dir ∈ dirs ∧
    ∀ ws i, tables s !! init_page_dir = Some ws → (i < 768)%nat → ws !! i = Some 0;
  v_active : cr3 s + PHYS_BASE ∈ dirs }.

(** The entry for [va] is word [pt_no va] of the table [pt] with words [ws]. *)
Record found (s : vm) (pd va pt : Z) (ws : list Z) (e : Z) : Prop := {
  f_pde : ∃ wsd pde, tables s !! pd = Some wsd ∧ wsd !! Z.to_nat (pd_no va) = Some pde ∧ pde ≠ 0 ∧ pt = pt_of pde;
  f_pt : tables s !! pt = Some ws;
  f_pte : ws !! Z.to_nat (pt_no va) = Some e }.

Lemma load_word_bind {A} (k : Z → cmd vm A) s p i ws w :
  tables s !! p = Some ws → ws !! Z.to_nat i = Some w → (load_word p i ≫= k) s = k w s.
Proof using. intros E1 E2. unfold load_word, mbind, cmd_bind. by rewrite E1, E2. Qed.

Definition put (s : vm) (p i w : Z) (ws : list Z) : vm :=
  mk_vm (<[p := <[Z.to_nat i := w]> ws]> (tables s)) (cr3 s) (tlb s) (freed s).

Lemma store_word_run s p i w ws :
  tables s !! p = Some ws → (Z.to_nat i < length ws)%nat → store_word p i w s = Ret (tt, put s p i w ws).
Proof using. intros E Hi. unfold store_word. rewrite E, (proj2 (Nat.ltb_lt _ _)) by done. done. Qed.

Lemma lift_step {A B} (r : res A) (k : A → cmd vm B) s a : r = Ret a → (lift_res r ≫= k) s = k a s.
Proof using. intros ->. done. Qed.

Section ok.
Context (s : vm) (dirs : gset Z) (Hok : vm_ok s dirs).

Lemma dir_nonzero pd : pd ∈ dirs → pd ≠ 0.
Proof using Hok. intros Hpd. destruct (v_dir _ _ Hok pd Hpd) as [[H _] _]. unfold PHYS_BASE in H. lia. Qed.

(** The directory entry for a user address. *)
Lemma user_pde pd va : pd ∈ dirs → user_va va → ∃ wsd pde,
  tables s !! pd = Some wsd ∧ wsd !! Z.to_nat (pd_no va) = Some pde ∧ length wsd = 1024%nat.
Proof using Hok.
  intros Hpd Hva. destruct (v_dir _ _ Hok pd Hpd) as [_ [wsd Hw]]. pose proof (v_len _ _ Hok _ _ Hw) as Hl.
  destruct (index_range va Hva) as [H1 _]. destruct (lookup_lt_is_Some_2 wsd (Z.to_nat (pd_no va))) as [e He]; [lia|eauto].
Qed.

Lemma translate_found pd va pt ws e :
  pd ∈ dirs → user_va va → found s pd va pt ws e → translate s pd va = if flag e PTE_P then Some e else None.
Proof using Hok.
  intros Hpd Hva [(wsd & pde & H1 & H2 & H3 & ->) H4 H5]. destruct (index_range va Hva) as [Hi _].
  destruct (v_pde _ _ Hok pd wsd (Z.to_nat (pd_no va)) pde Hpd H1 ltac:(lia) H2 H3) as (HP & _).
  by rewrite (translate_eq s pd va wsd pde H1 H2), HP, H4, H5.
Qed.

Lemma translate_missing pd va wsd :
  tables s !! pd = Some wsd → wsd !! Z.to_nat (pd_no va) = Some 0 → translate s pd va = None.
Proof using. intros H1 H2. by rewrite (translate_eq s pd va wsd 0 H1 H2), flag_zero. Qed.

(** A nonzero entry leads to the page table entry. *)
Lemma found_pde pd va wsd pde :
  pd ∈ dirs → user_va va → tables s !! pd = Some wsd → wsd !! Z.to_nat (pd_no va) = Some pde → pde ≠ 0 →
  pde_get_pt pde = Ret (pt_of pde) ∧ ∃ ws e, found s pd va (pt_of pde) ws e.
Proof using Hok.
  intros Hpd Hva H1 H2 H3. destruct (index_range va Hva) as [Hi Hj].
  destruct (v_pde _ _ Hok pd wsd (Z.to_nat (pd_no va)) pde Hpd H1 ltac:(lia) H2 H3) as (HP & Hlow & [ws Hws] & _). split.
  - unfold pde_get_pt, RASSERT. rewrite HP. simpl. by apply ptov_run.
  - pose proof (v_len _ _ Hok _ _ Hws). destruct (lookup_lt_is_Some_2 ws (Z.to_nat (pt_no va))) as [e He]; [lia|].
    exists ws, e. split; [by exists wsd, pde|done|done].
Qed.

Lemma lookup_tail pd va wsd pde ws e :
  tables s !! pd = Some wsd → wsd !! Z.to_nat (pd_no va) = Some pde → pde_get_pt pde = Ret (pt_of pde) →
  found s pd va (pt_of pde) ws e →
  (pde ← load_word pd (pd_no va); pt ← lift_res (pde_get_pt pde); mret (Some (pt, pt_no va))) s
    = Ret (Some (pt_of pde, pt_no va), s).
Proof using. intros H1 H2 H3 _. rewrite (load_word_bind _ _ _ _ wsd pde) by done. by rewrite (lift_step _ _ _ (pt_of pde)). Qed.

Lemma lookup_false (pal : vm → option Z) pd va : pd ∈ dirs → user_va va →
  (lookup_page pal pd va false s = Ret (None, s) ∧ translate s pd va = None) ∨
  ∃ pt ws e, lookup_page pal pd va false s = Ret (Some (pt, pt_no va), s) ∧ found s pd va pt ws e.
Proof using Hok.
  intros Hpd Hva. pose proof (dir_nonzero pd Hpd). destruct (user_pde pd va Hpd Hva) as (wsd & pde & H1 & H2 & _).
  unfold lookup_page. rewrite ASSERT_bind by (by rewrite (proj2 (Z.eqb_neq _ _))). rewrite ASSERT_bind by done.
  rewrite (load_word_bind _ _ _ _ wsd pde) by done. destruct (Z.eqb_spec pde 0) as [->|Hne].
  - left. split; [done|]. by eapply translate_missing.
  - right. destruct (found_pde pd va wsd pde Hpd Hva H1 H2 Hne) as (Hpt & ws & e & Hf). exists (pt_of pde), ws, e.
    split; [|done]. rewrite ret_bind. by eapply lookup_tail.
Qed.

(** Writing a page table entry changes one translation of one directory. *)
Lemma put_entry pd va pt ws e e' :
  pd ∈ dirs → user_va va → found s pd va pt ws e → (flag e' PTE_P = true → low_addr e') →
  vm_ok (put s pt (pt_no va) e' ws) dirs ∧
  found (put s pt (pt_no va) e' ws) pd va pt (<[Z.to_nat (pt_no va) := e']> ws) e' ∧
  ∀ pd' va', pd' ∈ dirs → user_va va' → translate (put s pt (pt_no va) e' ws) pd' va' =
    if decide (pd' = pd ∧ pg_no va' = pg_no va) then (if flag e' PTE_P then Some e' else None) else translate s pd' va'.
Proof using Hok.
  intros Hpd Hva Hf Hlow. destruct Hf as [(wsd & pde & H1 & H2 & H3 & Hpt) H4 H5].
  destruct (index_range va Hva) as [Hi Hj].
  destruct (v_pde _ _ Hok pd wsd (Z.to_nat (pd_no va)) pde Hpd H1 ltac:(lia) H2 H3) as (HP & Hpl & _ & Hnd). rewrite <- Hpt in Hnd.
  pose proof (v_len _ _ Hok _ _ H4) as Hlen.
  assert (Hdir : ∀ pd', pd' ∈ dirs → tables (put s pt (pt_no va) e' ws) !! pd' = tables s !! pd').
  { intros pd' Hpd'. cbn. rewrite lookup_insert_ne; [done|]. intros <-. done. }
  assert (Hsome : ∀ p, is_Some (tables s !! p) → is_Some (tables (put s pt (pt_no va) e' ws) !! p)).
  { intros p Hp. cbn. destruct (decide (pt = p)) as [<-|]; [rewrite lookup_insert_eq; eauto|by rewrite lookup_insert_ne]. }
  assert (Htr : ∀ pd' va', pd' ∈ dirs → user_va va' → translate (put s pt (pt_no va) e' ws) pd' va' =
    if decide (pd' = pd ∧ pg_no va' = pg_no va) then (if flag e' PTE_P then Some e' else None) else translate s pd' va').
  { intros pd' va' Hpd' Hva'. destruct (user_pde pd' va' Hpd' Hva') as (wsd' & pde' & G1 & G2 & _).
    destruct (index_range va' Hva') as [Hi' Hj'].
    destruct (decide (pde' = 0)) as [->|Hne'].
    { rewrite (translate_missing pd' va' wsd') by done.
      assert (translate (put s pt (pt_no va) e' ws) pd' va' = None) as ->.
      { rewrite <- Hdir in G1 by done. by rewrite (translate_eq _ pd' va' wsd' 0 G1 G2), flag_zero. }
      destruct (decide _) as [[-> Hpg]|]; [|done]. apply index_same in Hpg as [Hpg _]. exfalso. congruence. }
    destruct (v_pde _ _ Hok pd' wsd' (Z.to_nat (pd_no va')) pde' Hpd' G1 ltac:(lia) G2 Hne') as (HP' & _ & [ws' Hws'] & _).
    rewrite (translate_eq s pd' va' wsd' pde' G1 G2). rewrite <- Hdir in G1 by done.
    rewrite (translate_eq _ pd' va' wsd' pde' G1 G2), HP'. rewrite Hdir in G1 by done. cbn [tables put].
    destruct (decide (pt = pt_of pde')) as [Ept|Ept].
    - destruct (v_inj _ _ Hok pd wsd (Z.to_nat (pd_no va)) pde pd' wsd' (Z.to_nat (pd_no va')) pde' Hpd H1 ltac:(lia) H2 H3 Hpd' G1 ltac:(lia) G2 Hne') as [<- Hidx];
        [by rewrite <- Hpt|]. rewrite <- Ept, lookup_insert_eq.
      destruct (decide (pt_no va' = pt_no va)) as [Ej|Ej].
      + rewrite Ej, list_lookup_insert_eq by lia. rewrite decide_True; [done|]. split; [done|].
        apply index_inj; [lia|done].
      + rewrite list_lookup_insert_ne by lia. rewrite decide_False by (intros [_ Hpg]; by apply index_same in Hpg as [_ ?]).
        by rewrite H4.
    - rewrite lookup_insert_ne by done. rewrite decide_False; [done|]. intros [-> Hpg].
      apply index_same in Hpg as [Hpg _]. rewrite Hpg in G2. simplify_eq. }
  split_and!; [|split|done].
  - split.
    + intros p ws0. cbn. intros [[<- <-]|[_ Hp]]%lookup_insert_Some; [by rewrite length_insert|by eapply (v_len _ _ Hok)].
    + intros pd' Hpd'. destruct (v_dir _ _ Hok pd' Hpd') as [? ?]. split; [done|]. by apply Hsome.
    + intros pd' ws0 i e0 Hpd'. rewrite Hdir by done. intros G1 G2 G3 G4.
      destruct (v_pde _ _ Hok pd' ws0 i e0 Hpd' G1 G2 G3 G4) as (? & ? & ? & ?). split_and!; auto.
    + intros pd' ws0 i e0 pd2 ws2 i2 e2 Hpd'. rewrite Hdir by done. intros G1 G2 G3 G4 Hpd2. rewrite Hdir by done.
      by eapply (v_inj _ _ Hok).
    + intros pd' va' e0 Hpd' Hva'. rewrite Htr by done. destruct (decide _); [|by apply (v_pte _ _ Hok)].
      destruct (flag e' PTE_P) eqn:EP; [|done]. intros [= <-]. auto.
    + destruct (v_init _ _ Hok) as [Hin Hz]. split; [done|]. intros ws0 i. rewrite Hdir by done. apply Hz.
    + apply (v_active _ _ Hok).
  - exists wsd, pde. rewrite Hdir by done. done.
  - cbn. by rewrite lookup_insert_eq.
  - rewrite list_lookup_insert_eq; [done|]. lia.
Qed.

(** *** A new page table *)
Section fresh.
Context (pd va p e : Z) (wsd : list Z).
Context (Hpd : pd ∈ dirs) (Hni : init_page_dir ≠ pd) (Hva : user_va va) (Hwsd : tables s !! pd = Some wsd).
Context (Hzero : wsd !! Z.to_nat (pd_no va) = Some 0) (Hp : kpage_ok p) (Hfree : tables s !! p = None).
Context (He : e ≠ 0) (HeP : flag e PTE_P = true) (Hea : Z.land e PTE_ADDR = p - PHYS_BASE).
Abbreviation s1 := (mk_vm (<[p := zero_page]> (tables s)) (cr3 s) (tlb s) (freed s)).
Abbreviation s2 := (put s1 pd (pd_no va) e wsd).

Lemma fresh_pt : pt_of e = p.
Proof using Hea. unfold pt_of. rewrite Hea. lia. Qed.

Lemma fresh_tables q : tables s2 !! q =
  if decide (q = pd) then Some (<[Z.to_nat (pd_no va) := e]> wsd)
  else if decide (q = p) then Some zero_page else tables s !! q.
Proof using.
  cbn. destruct (decide (q = pd)) as [->|]; [by rewrite lookup_insert_eq|]. rewrite lookup_insert_ne by done.
  destruct (decide (q = p)) as [->|]; [by rewrite lookup_insert_eq|by rewrite lookup_insert_ne].
Qed.

Lemma fresh_not_dir : p ∉ dirs.
Proof using Hok Hfree. intros Hin. destruct (v_dir _ _ Hok p Hin) as [_ [? ?]]. congruence. Qed.

(** A user entry of a directory is the new one or an old one. *)
Lemma fresh_entry pd' ws' i' e' :
  pd' ∈ dirs → tables s2 !! pd' = Some ws' → ws' !! i' = Some e' →
  (pd' = pd ∧ i' = Z.to_nat (pd_no va) ∧ e' = e) ∨
  (∃ ws0, tables s !! pd' = Some ws0 ∧ ws0 !! i' = Some e' ∧ (pd' ≠ pd ∨ i' ≠ Z.to_nat (pd_no va))).
Proof using Hok Hva Hwsd Hfree Hpd He HeP Hea.
  intros Hpd' Ht Hw. rewrite fresh_tables in Ht. destruct (decide (pd' = pd)) as [->|Hne].
  - simplify_eq. destruct (decide (i' = Z.to_nat (pd_no va))) as [->|Hi].
    + left. rewrite list_lookup_insert_eq in Hw; [by simplify_eq|]. destruct (index_range va Hva) as [H1 _].
      rewrite (v_len _ _ Hok _ _ Hwsd). lia.
    + right. rewrite list_lookup_insert_ne in Hw by done. eauto.
  - rewrite decide_False in Ht by (intros ->; by apply fresh_not_dir). right. exists ws'. auto.
Qed.

Lemma fresh_old_pt pd' ws' i' e' :
  pd' ∈ dirs → tables s !! pd' = Some ws' → (i' < 768)%nat → ws' !! i' = Some e' → e' ≠ 0 →
  pt_of e' ≠ p ∧ tables s2 !! pt_of e' = tables s !! pt_of e'.
Proof using Hok Hfree Hpd.
  intros Hpd' Ht Hi Hw Hne. destruct (v_pde _ _ Hok pd' ws' i' e' Hpd' Ht Hi Hw Hne) as (_ & _ & [w0 Hw0] & Hnd).
  assert (pt_of e' ≠ p) by congruence. split; [done|]. rewrite fresh_tables, !decide_False; [done|done|]. congruence.
Qed.

Lemma fresh_translate pd' va' : pd' ∈ dirs → user_va va' → translate s2 pd' va' = translate s pd' va'.
Proof using Hok Hva Hwsd Hfree Hzero HeP Hea Hpd He Hp.
  intros Hpd' Hva'. destruct (index_range va' Hva') as [Hi' Hj'].
  destruct (user_pde pd' va' Hpd' Hva') as (wsd' & pde' & G1 & G2 & _).
  assert (Hlen : ∃ w2 e2, tables s2 !! pd' = Some w2 ∧ w2 !! Z.to_nat (pd_no va') = Some e2).
  { rewrite fresh_tables. pose proof (v_len _ _ Hok _ _ Hwsd). destruct (decide (pd' = pd)) as [->|].
    - eexists. destruct (lookup_lt_is_Some_2 (<[Z.to_nat (pd_no va):=e]> wsd) (Z.to_nat (pd_no va'))) as [e2 He2];
        [rewrite length_insert; lia|eauto].
    - rewrite decide_False by (intros ->; by apply fresh_not_dir). eauto. }
  destruct Hlen as (w2 & e2 & F1 & F2). rewrite (translate_eq _ pd' va' w2 e2 F1 F2).
  destruct (fresh_entry pd' w2 _ e2 Hpd' F1 F2) as [(-> & Hidx & ->)|(ws0 & F3 & F4 & _)].
  - rewrite HeP, fresh_pt, fresh_tables. rewrite decide_False by (intros ->; congruence). rewrite decide_True by done.
    rewrite (translate_missing pd va' wsd Hwsd) by (by rewrite Hidx).
    unfold zero_page. rewrite lookup_replicate_2 by lia. done.
  - rewrite (translate_eq s pd' va' ws0 e2 F3 F4). destruct (decide (e2 = 0)) as [->|Hne]; [by rewrite flag_zero|].
    destruct (fresh_old_pt pd' ws0 (Z.to_nat (pd_no va')) e2 Hpd' F3 ltac:(lia) F4 Hne) as [_ ->]. done.
Qed.

Lemma fresh_ok : vm_ok s2 dirs ∧ found s2 pd va p zero_page 0.
Proof using Hok Hva Hwsd Hfree Hzero HeP Hea Hpd He Hp Hni.
  destruct (index_range va Hva) as [Hi Hj]. pose proof (v_len _ _ Hok _ _ Hwsd) as Hlen.
  assert (Hsome : ∀ q, is_Some (tables s !! q) → is_Some (tables s2 !! q)).
  { intros q Hq. rewrite fresh_tables. destruct (decide _); [eauto|]. destruct (decide _); eauto. }
  assert (Hpp : tables s2 !! p = Some zero_page).
  { rewrite fresh_tables, decide_False by (intros ->; congruence). by rewrite decide_True. }
  assert (Hlow : low_addr e) by (unfold low_addr; rewrite Hea; destruct Hp as [? _]; lia).
  split; [split|split].
  - intros q ws. rewrite fresh_tables. destruct (decide (q = pd)); [intros E%(inj Some); rewrite <- E, length_insert; exact Hlen|].
    destruct (decide (q = p)); [intros E%(inj Some); rewrite <- E; apply length_replicate|]. apply (v_len _ _ Hok).
  - intros pd' Hpd'. destruct (v_dir _ _ Hok pd' Hpd') as [? ?]. split; [done|]. by apply Hsome.
  - intros pd' ws' i' e' Hpd' Ht Hi' Hw Hne.
    destruct (fresh_entry pd' ws' i' e' Hpd' Ht Hw) as [(-> & -> & ->)|(ws0 & F3 & F4 & _)].
    + rewrite fresh_pt. split_and!; [done|done|by eexists|apply fresh_not_dir].
    + destruct (v_pde _ _ Hok pd' ws0 i' e' Hpd' F3 Hi' F4 Hne) as (? & ? & ? & ?). split_and!; auto.
  - intros pd1 w1 i1 e1 pd2 w2 i2 e2 Hd1 T1 L1 W1 N1 Hd2 T2 L2 W2 N2 Ept.
    destruct (fresh_entry pd1 w1 i1 e1 Hd1 T1 W1) as [(-> & -> & ->)|(ws1 & F1 & G1 & _)],
      (fresh_entry pd2 w2 i2 e2 Hd2 T2 W2) as [(-> & -> & ->)|(ws2 & F2 & G2 & _)].
    + done.
    + rewrite fresh_pt in Ept. by destruct (fresh_old_pt pd2 ws2 i2 e2 Hd2 F2 L2 G2 N2).
    + rewrite fresh_pt in Ept. by destruct (fresh_old_pt pd1 ws1 i1 e1 Hd1 F1 L1 G1 N1).
    + by eapply (v_inj _ _ Hok).
  - intros pd' va' e' Hpd' Hva'. rewrite fresh_translate by done. by apply (v_pte _ _ Hok).
  - destruct (v_init _ _ Hok) as [Hin Hz]. split; [done|]. intros ws0 i. rewrite fresh_tables, decide_False by done.
    rewrite decide_False by (intros E; by apply fresh_not_dir; rewrite <- E). apply Hz.
  - apply (v_active _ _ Hok).
  - exists (<[Z.to_nat (pd_no va) := e]> wsd), e. rewrite fresh_tables, decide_True by done.
    rewrite list_lookup_insert_eq by lia. split_and!; [done..|]. by rewrite fresh_pt.
  - done.
  - unfold zero_page. apply lookup_replicate_2. lia.
Qed.
End fresh.

(** [lookup_page] with [create]: it fails only if allocation does, and changes
    no translation. *)
Lemma lookup_true (pal : vm → option Z) pd va :
  (∀ s p, pal s = Some p → kpage_ok p ∧ tables s !! p = None) → pd ∈ dirs → init_page_dir ≠ pd → user_va va →
  (lookup_page pal pd va true s = Ret (None, s) ∧ pal s = None) ∨
  ∃ s' pt ws e, lookup_page pal pd va true s = Ret (Some (pt, pt_no va), s') ∧ vm_ok s' dirs ∧ found s' pd va pt ws e ∧
    (∀ pd' va', pd' ∈ dirs → user_va va' → translate s' pd' va' = translate s pd' va') ∧
    cr3 s' = cr3 s ∧ tlb s' = tlb s ∧ freed s' = freed s.
Proof using Hok.
  intros Hpal Hpd Hni Hva. pose proof (dir_nonzero pd Hpd). destruct (user_pde pd va Hpd Hva) as (wsd & pde & H1 & H2 & Hl).
  destruct (index_range va Hva) as [Hi Hj].
  unfold lookup_page. rewrite ASSERT_bind by (by rewrite (proj2 (Z.eqb_neq _ _))).
  rewrite ASSERT_bind by (apply Z.ltb_lt; unfold user_va in Hva; lia).
  rewrite (load_word_bind _ _ _ _ wsd pde) by done. destruct (Z.eqb_spec pde 0) as [->|Hne].
  - destruct (pal s) as [p|] eqn:Ep; [right|left; split; [|done]].
    + destruct (Hpal s p Ep) as [Hp Hfree]. destruct (pde_create_run p Hp) as (e & Hce & He & HeP & Hea).
      destruct (fresh_ok pd va p e wsd Hpd Hni Hva H1 H2 Hp Hfree He HeP Hea) as [Hok2 Hf2].
      exists (put (mk_vm (<[p := zero_page]> (tables s)) (cr3 s) (tlb s) (freed s)) pd (pd_no va) e wsd), p, zero_page, 0.
      split_and!; try done.
      * assert (Hpd1 : tables (mk_vm (<[p := zero_page]> (tables s)) (cr3 s) (tlb s) (freed s)) !! pd = Some wsd)
          by (cbn [tables]; rewrite lookup_insert_ne by congruence; done).
        assert (Hgp0 : get_page_with pal zero_page s =
          Ret (Some p, mk_vm (<[p := zero_page]> (tables s)) (cr3 s) (tlb s) (freed s))).
        { unfold get_page_with. by rewrite Ep. }
        erewrite bind_Ret; cycle 1.
        { rewrite (bind_Ret _ _ _ _ _ Hgp0). rewrite (lift_step _ _ _ e) by done.
          rewrite (bind_Ret _ _ _ _ _ (store_word_run _ _ (pd_no va) e _ Hpd1 ltac:(lia))). reflexivity. }
        cbv beta iota. rewrite (load_word_bind _ _ _ _ (<[Z.to_nat (pd_no va) := e]> wsd) e);
          [|cbn; by rewrite lookup_insert_eq|apply list_lookup_insert_eq; lia].
        assert (Hgp : pde_get_pt e = Ret p).
        { unfold pde_get_pt, RASSERT. rewrite HeP. cbn [mbind res_bind].
          rewrite ptov_run by (unfold low_addr; rewrite Hea; destruct Hp as [? _]; lia).
          f_equal. unfold pt_of. rewrite Hea. lia. }
        by rewrite (lift_step _ _ _ p).
      * intros pd' va' Hpd' Hva'. by apply fresh_translate.
    + assert (Hgp0 : get_page_with pal zero_page s = Ret (None, s)) by (unfold get_page_with; by rewrite Ep).
      erewrite bind_Ret; [|rewrite (bind_Ret _ _ _ _ _ Hgp0); reflexivity]. reflexivity.
  - right. destruct (found_pde pd va wsd pde Hpd Hva H1 H2 Hne) as (Hpt & ws & e & Hf). exists s, (pt_of pde), ws, e.
    split_and!; try done. rewrite ret_bind. by eapply lookup_tail.
Qed.
End ok.
End spec.
