(* ===== verification/PagedirTheorems.v ===== *)
(** * What the page directories promise: a map of user pages per address space *)
From S2P Require Import Prelude Vaddr Pagedir PagedirSpec.
Open Scope Z_scope.

(** ** Calls and the abstract address spaces *)
Inductive vcall : Set :=
  | VSet (pd upage kpage : Z) (writable : bool)
  | VGet (pd uaddr : Z)
  | VClear (pd upage : Z)
  | VTest (dirty : bool) (pd vpage : Z)               (* is_dirty or is_accessed *)
  | VMark (dirty : bool) (pd vpage : Z) (on : bool)   (* set_dirty or set_accessed *)
  | VActivate (pd : option Z)
  | VTouch (va : Z).                                  (* the processor accesses [va] *)

(** The frame of a mapped page (its kernel address) and its attributes. *)
Record page_info : Set := mk_info { frame : Z; writable : bool; accessed : bool; dirty : bool }.
(** The active address space, and the mapped pages of each by page number. *)
Record spaces := mk_spaces { active : Z; pages : gmap (Z * Z) page_info }.

Definition info (e : Z) : page_info := mk_info (pt_of e) (flag e PTE_W) (flag e PTE_A) (flag e PTE_D).
Definition mark (d on : bool) (i : page_info) : page_info :=
  if d then mk_info (frame i) (writable i) (accessed i) on else mk_info (frame i) (writable i) on (dirty i).
Definition marked (d : bool) (i : page_info) : bool := if d then dirty i else accessed i.

(** The contract of a call: abstract state, result (as a word), new state.  A
    mapping can fail for want of memory; a test of a page that is not mapped
    has no promised result. *)
Inductive astep : vcall → spaces → Z → spaces → Prop :=
  | A_set_ok pd u k w a :
      astep (VSet pd u k w) a 1 (mk_spaces (active a) (<[(pd, pg_no u) := mk_info k w false false]> (pages a)))
  | A_set_fail pd u k w a : astep (VSet pd u k w) a 0 a
  | A_get pd u a :
      astep (VGet pd u) a (match pages a !! (pd, pg_no u) with Some i => frame i + pg_ofs u | None => 0 end) a
  | A_clear pd u a : astep (VClear pd u) a 0 (mk_spaces (active a) (delete (pd, pg_no u) (pages a)))
  | A_test d pd v a b :
      (∀ i, pages a !! (pd, pg_no v) = Some i → b = marked d i) → astep (VTest d pd v) a (Z.b2z b) a
  | A_mark d pd v on a :
      astep (VMark d pd v on) a 0 (mk_spaces (active a) (alter (mark d on) (pd, pg_no v) (pages a)))
  | A_activate pd a : astep (VActivate (Some pd)) a 0 (mk_spaces pd (pages a))
  | A_touch v a : astep (VTouch v) a (Z.b2z (bool_decide (is_Some (pages a !! (active a, pg_no v))))) a.

Section theorems.
Context (pal : vm → option Z) (init_page_dir init_ram_pages : Z) (dirs : gset Z).

Definition avalid (c : vcall) (a : spaces) : Prop :=
  match c with
  | VSet pd u k _ =>
      pd ∈ dirs ∧ pd ≠ init_page_dir ∧ user_va u ∧ pg_ofs u = 0 ∧ kpage_ok k ∧
      Z.shiftr (k - PHYS_BASE) PTSHIFT < init_ram_pages ∧ pages a !! (pd, pg_no u) = None
  | VGet pd u => pd ∈ dirs ∧ user_va u
  | VClear pd u => pd ∈ dirs ∧ user_va u ∧ pg_ofs u = 0
  | VTest _ pd v | VMark _ pd v _ => pd ∈ dirs ∧ user_va v
  | VActivate pd => ∃ p, pd = Some p ∧ p ∈ dirs
  | VTouch v => user_va v
  end.

Definition word (r : bool) : Z := Z.b2z r.
Definition run_vcall (c : vcall) : cmd vm Z :=
  match c with
  | VSet pd u k w => b ← pagedir_set_page pal init_page_dir init_ram_pages pd u k w; mret (word b)
  | VGet pd u => pagedir_get_page pal pd u
  | VClear pd u => pagedir_clear_page pal init_page_dir pd u;; mret 0
  | VTest true pd v => b ← pagedir_is_dirty pal pd v; mret (word b)
  | VTest false pd v => b ← pagedir_is_accessed pal pd v; mret (word b)
  | VMark true pd v on => pagedir_set_dirty pal init_page_dir pd v on;; mret 0
  | VMark false pd v on => pagedir_set_accessed pal init_page_dir pd v on;; mret 0
  | VActivate pd => pagedir_activate init_page_dir pd;; mret 0
  | VTouch v => b ← cpu_access v; mret (word b)
  end.

(** The page tables represent the abstract address spaces. *)
Record represents (s : vm) (a : spaces) : Prop := {
  r_ok : vm_ok init_page_dir s dirs;
  r_active : active a = cr3 s + PHYS_BASE;
  r_pages : ∀ pd va, pd ∈ dirs → user_va va → info <$> translate s pd va = pages a !! (pd, pg_no va) }.

(** A cached translation leads to the same frame with the same rights as the
    page tables do. *)
Definition tlb_ok (s : vm) : Prop := ∀ va e, user_va va → tlb s !! pg_no va = Some e →
  ∃ e', translate s (cr3 s + PHYS_BASE) va = Some e' ∧ pt_of e' = pt_of e ∧ flag e' PTE_W = flag e PTE_W.

Lemma tlb_empty s : tlb s = ∅ → tlb_ok s.
Proof using. intros E va e _. rewrite E, lookup_empty. done. Qed.

Lemma tlb_same s s' :
  tlb s' = tlb s → cr3 s' = cr3 s →
  (∀ va e, user_va va → translate s (cr3 s + PHYS_BASE) va = Some e → ∃ e', translate s' (cr3 s + PHYS_BASE) va = Some e' ∧
     pt_of e' = pt_of e ∧ flag e' PTE_W = flag e PTE_W) → tlb_ok s → tlb_ok s'.
Proof using.
  intros Et Ec Htr H va e Hva. rewrite Et, Ec. intros Hl. destruct (H va e Hva Hl) as (e1 & H1 & H2 & H3).
  destruct (Htr va e1 Hva H1) as (e2 & ? & ? & ?). exists e2. split_and!; congruence.
Qed.

Lemma activate_run s pd : kpage_ok pd →
  pagedir_activate init_page_dir (Some pd) s = Ret (tt, mk_vm (tables s) (pd - PHYS_BASE) ∅ (freed s)).
Proof using. intros Hp. unfold pagedir_activate. cbn [default from_option]. by rewrite (lift_step _ _ _ (pd - PHYS_BASE)) by by apply vtop_run. Qed.

Lemma invalidate_run s1 pd : vm_ok init_page_dir s1 dirs → invalidate_pagedir init_page_dir pd s1 =
  Ret (tt, mk_vm (tables s1) (cr3 s1) (if decide (pd = cr3 s1 + PHYS_BASE) then ∅ else tlb s1) (freed s1)).
Proof using.
  intros Hok. destruct (v_dir _ _ _ Hok _ (v_active _ _ _ Hok)) as [Hk _].
  assert (Hv : ptov (cr3 s1) = Ret (cr3 s1 + PHYS_BASE)).
  { destruct Hk as [Hk _]. unfold PHYS_BASE in *. unfold ptov, RASSERT, PHYS_BASE.
    rewrite (proj2 (Z.ltb_lt _ _)) by lia. cbn [mbind res_bind mret res_ret]. by rewrite u32_small by lia. }
  unfold invalidate_pagedir, active_pd. rewrite bind_assoc, gets_bind, (lift_step _ _ _ (cr3 s1 + PHYS_BASE)) by done.
  destruct (decide (pd = cr3 s1 + PHYS_BASE)) as [->|Hne].
  - rewrite Z.eqb_refl, activate_run by done. do 3 f_equal. lia.
  - rewrite (proj2 (Z.eqb_neq _ _)) by done. by destruct s1.
Qed.

Lemma represents_retlb s a t : represents s a → represents (mk_vm (tables s) (cr3 s) t (freed s)) a.
Proof using. intros [[H1 H2 H3 H4 H5 H6 H7] H8 H9]. split; [by split|done..]. Qed.

Context (s : vm) (a : spaces).

(** Writing one page table entry changes one page of one address space. *)
Lemma put_represents pd va pt ws e e' ps :
  represents s a → pd ∈ dirs → user_va va → found s pd va pt ws e → (flag e' PTE_P = true → low_addr e') →
  (∀ key, ps !! key = if decide (key = (pd, pg_no va)) then (if flag e' PTE_P then Some (info e') else None)
                      else pages a !! key) →
  represents (put s pt (pt_no va) e' ws) (mk_spaces (active a) ps).
Proof using.
  intros [Hok Hac Hpg] Hpd Hva Hf Hlow Hps.
  destruct (put_entry init_page_dir s dirs Hok pd va pt ws e e' Hpd Hva Hf Hlow) as (Hok' & _ & Htr).
  split; [done|done|]. intros pd' va' Hpd' Hva'. cbn [pages]. rewrite Htr, Hps by done.
  destruct (decide (pd' = pd ∧ pg_no va' = pg_no va)) as [[-> ->]|Hne].
  - rewrite decide_True by done. by destruct (flag e' PTE_P).
  - rewrite decide_False by (intros [= -> E]; by apply Hne). by apply Hpg.
Qed.

(** The cache stays right when the entry keeps its frame and rights, or was
    not present, or the cache is emptied. *)
Lemma put_tlb pd va pt ws e e' t :
  vm_ok init_page_dir s dirs → pd ∈ dirs → user_va va → found s pd va pt ws e → (flag e' PTE_P = true → low_addr e') →
  t = ∅ ∨ t = tlb s ∧ (flag e PTE_P = true → pd ≠ cr3 s + PHYS_BASE ∨
     flag e' PTE_P = true ∧ pt_of e' = pt_of e ∧ flag e' PTE_W = flag e PTE_W) → tlb_ok s →
  tlb_ok (mk_vm (tables (put s pt (pt_no va) e' ws)) (cr3 s) t (freed s)).
Proof using.
  intros Hok Hpd Hva Hf Hlow Ht Htlb. destruct Ht as [->|[-> Hp]]; [by apply tlb_empty|].
  destruct (put_entry init_page_dir s dirs Hok pd va pt ws e e' Hpd Hva Hf Hlow) as (_ & _ & Htr).
  pose proof (translate_found init_page_dir s dirs Hok pd va pt ws e Hpd Hva Hf) as Hold.
  eapply (tlb_same s); [done|done| |done]. intros va' e1 Hva' He1.
  change (translate (mk_vm _ _ _ _)) with (translate (put s pt (pt_no va) e' ws)).
  rewrite Htr; [|apply (v_active _ _ _ Hok)|done].
  destruct (decide (cr3 s + PHYS_BASE = pd ∧ pg_no va' = pg_no va)) as [[Epd Epg]|Hne]; [|eauto].
  assert (He1' : translate s pd va = Some e1).
  { rewrite <- He1, Epd. unfold translate. destruct (index_same _ _ Epg) as [-> ->]. done. }
  rewrite Hold in He1'. destruct (flag e PTE_P) eqn:EP; [|done]. injection He1' as <-.
  destruct (Hp eq_refl) as [|(-> & ? & ?)]; [congruence|eauto].
Qed.

(** The entry found for a page tells whether it is mapped. *)
Lemma found_pages pd va pt ws e :
  represents s a → pd ∈ dirs → user_va va → found s pd va pt ws e →
  pages a !! (pd, pg_no va) = if flag e PTE_P then Some (info e) else None.
Proof using.
  intros [Hok Hac Hpg] Hpd Hva Hf. rewrite <- (Hpg pd va Hpd Hva).
  rewrite (translate_found init_page_dir s dirs Hok pd va pt ws e Hpd Hva Hf). by destruct (flag e PTE_P).
Qed.

Lemma missing_pages pd va :
  represents s a → pd ∈ dirs → user_va va → translate s pd va = None → pages a !! (pd, pg_no va) = None.
Proof using. intros [_ _ Hpg] Hpd Hva Ht. by rewrite <- (Hpg pd va Hpd Hva), Ht. Qed.

Lemma found_low pd va pt ws e :
  vm_ok init_page_dir s dirs → pd ∈ dirs → user_va va → found s pd va pt ws e → flag e PTE_P = true → low_addr e.
Proof using.
  intros Hok Hpd Hva Hf HP. eapply (v_pte _ _ _ Hok pd va); [done..|].
  by rewrite (translate_found init_page_dir s dirs Hok pd va pt ws e Hpd Hva Hf), HP.
Qed.

Lemma found_len pd va pt ws e : vm_ok init_page_dir s dirs → user_va va → found s pd va pt ws e →
  (Z.to_nat (pt_no va) < length ws)%nat.
Proof using. intros _ _ [_ _ H]. by eapply lookup_lt_Some. Qed.

(** *** Each call *)
Abbreviation goal c := (∃ r s' a', run_vcall c s = Ret (r, s') ∧ astep c a r a' ∧ represents s' a' ∧ (tlb_ok s → tlb_ok s')).

Lemma get_page_run pd u : represents s a → pd ∈ dirs → user_va u →
  pagedir_get_page pal pd u s
    = Ret (match pages a !! (pd, pg_no u) with Some i => frame i + pg_ofs u | None => 0 end, s).
Proof using.
  intros Hrep Hpd Hu. pose proof (r_ok _ _ Hrep) as Hok.
  unfold pagedir_get_page. rewrite ASSERT_bind by (apply Z.ltb_lt; unfold user_va in Hu; lia).
  destruct (lookup_false init_page_dir s dirs Hok pal pd u Hpd Hu) as [[Hl Ht]|(pt & ws & e & Hl & Hf)];
    rewrite (bind_Ret _ _ _ _ _ Hl).
  - by rewrite (missing_pages pd u Hrep Hpd Hu Ht).
  - rewrite (load_word_bind _ _ _ _ ws e) by apply Hf.
    rewrite (found_pages pd u pt ws e Hrep Hpd Hu Hf). destruct (flag e PTE_P) eqn:EP; [|done].
    rewrite (lift_step _ _ _ (pt_of e)); [done|]. unfold pte_get_page. apply ptov_run. by eapply found_low.
Qed.

Lemma vget_ok pd u : represents s a → avalid (VGet pd u) a → goal (VGet pd u).
Proof using.
  intros Hrep (Hpd & Hu). do 3 eexists. split_and!; [|apply A_get|done|done]. cbn [run_vcall]. by apply get_page_run.
Qed.

Lemma vclear_ok pd u : represents s a → avalid (VClear pd u) a → goal (VClear pd u).
Proof using.
  intros Hrep (Hpd & Hu & Hofs). pose proof (r_ok _ _ Hrep) as Hok. cbn [run_vcall]. unfold pagedir_clear_page.
  rewrite bind_assoc, ASSERT_bind by (by rewrite Hofs). rewrite bind_assoc, ASSERT_bind by (apply Z.ltb_lt; unfold user_va in Hu; lia).
  rewrite bind_assoc.
  destruct (lookup_false init_page_dir s dirs Hok pal pd u Hpd Hu) as [[Hl Ht]|(pt & ws & e & Hl & Hf)];
    rewrite (bind_Ret _ _ _ _ _ Hl).
  - do 3 eexists. split_and!; [done|apply A_clear| |done].
    rewrite delete_id by by apply missing_pages. by destruct a.
  - rewrite bind_assoc, (load_word_bind _ _ _ _ ws e) by apply Hf.
    pose proof (found_pages pd u pt ws e Hrep Hpd Hu Hf) as Hpg. destruct (flag e PTE_P) eqn:EP; cycle 1.
    { do 3 eexists. split_and!; [done|apply A_clear| |done]. rewrite delete_id by done. by destruct a. }
    set (e' := Z.land e (u32 (Z.lnot PTE_P))). assert (HP' : flag e' PTE_P = false).
    { rewrite flag_P. unfold e'. change PTE_P with (2 ^ 0). rewrite clear_bit by lia. by rewrite andb_false_r. }
    assert (Hrep' : represents (put s pt (pt_no u) e' ws) (mk_spaces (active a) (delete (pd, pg_no u) (pages a)))).
    { apply (put_represents pd u pt ws e); try done; [by rewrite HP'|]. intros key. rewrite HP'.
      destruct (decide _) as [->|]; [by rewrite lookup_delete_eq|by rewrite lookup_delete_ne]. }
    rewrite bind_assoc.
    rewrite (bind_Ret _ _ _ _ _ (store_word_run s pt (pt_no u) e' ws (f_pt _ _ _ _ _ _ Hf) (found_len pd u pt ws e Hok Hu Hf))).
    rewrite (bind_Ret _ _ _ _ _ (invalidate_run _ pd (r_ok _ _ Hrep'))).
    do 3 eexists. split_and!; [done|apply A_clear|by apply represents_retlb|].
    intros Htlb. cbn [tables cr3 tlb freed put]. apply (put_tlb pd u pt ws e e'); try done; [by rewrite HP'|].
    destruct (decide (pd = cr3 s + PHYS_BASE)); [by left|right]. split; [done|]. by left.
Qed.

Lemma vtest_ok d pd v : represents s a → avalid (VTest d pd v) a → goal (VTest d pd v).
Proof using.
  intros Hrep (Hpd & Hu). pose proof (r_ok _ _ Hrep) as Hok.
  assert (Hrun : ∀ f, ∃ b, test_flag pal f pd v s = Ret (b, s) ∧
    ∀ i, pages a !! (pd, pg_no v) = Some i → ∃ e, i = info e ∧ b = flag e f).
  { intros f. unfold test_flag.
    destruct (lookup_false init_page_dir s dirs Hok pal pd v Hpd Hu) as [[Hl Ht]|(pt & ws & e & Hl & Hf)];
      rewrite (bind_Ret _ _ _ _ _ Hl).
    - exists false. split; [done|]. intros i. by rewrite (missing_pages pd v Hrep Hpd Hu Ht).
    - rewrite (load_word_bind _ _ _ _ ws e) by apply Hf. exists (flag e f). split; [done|]. intros i.
      rewrite (found_pages pd v pt ws e Hrep Hpd Hu Hf). destruct (flag e PTE_P); [|done]. intros [= <-]. eauto. }
  destruct d; cbn [run_vcall]; [destruct (Hrun PTE_D) as (b & Hb & Hi)|destruct (Hrun PTE_A) as (b & Hb & Hi)];
    unfold pagedir_is_dirty, pagedir_is_accessed; rewrite (bind_Ret _ _ _ _ _ Hb);
    (do 3 eexists; split_and!; [done|apply A_test|done|done]); intros i Hpi; destruct (Hi i Hpi) as (e & -> & ->); done.
Qed.

Lemma vtouch_ok v : represents s a → avalid (VTouch v) a → goal (VTouch v).
Proof using.
  intros Hrep Hv. pose proof (r_ok _ _ Hrep) as Hok. pose proof (v_active _ _ _ Hok) as Hact.
  do 3 eexists. split_and!; [|apply A_touch| |]; cycle 1.
  - instantiate (1 := match translate s (cr3 s + PHYS_BASE) v with
      | Some e => mk_vm (tables s) (cr3 s) (<[pg_no v := e]> (tlb s)) (freed s) | None => s end).
    destruct (translate _ _ _); [by apply represents_retlb|done].
  - intros Htlb. destruct (translate s (cr3 s + PHYS_BASE) v) as [e|] eqn:E; [|done].
    intros va e0 Hva. cbn [tlb cr3]. change (translate (mk_vm _ _ _ _)) with (translate s).
    intros [[Epg <-]|[_ Hl]]%lookup_insert_Some; [|by apply Htlb]. exists e. split_and!; [|done|done].
    rewrite <- E. unfold translate. destruct (index_same _ _ Epg) as [-> ->]. done.
  - cbn [run_vcall]. rewrite (r_active _ _ Hrep), <- (r_pages _ _ Hrep) by done. unfold cpu_access, mbind, cmd_bind.
    by destruct (translate s (cr3 s + PHYS_BASE) v).
Qed.

Lemma vactivate_ok pd : represents s a → avalid (VActivate pd) a → goal (VActivate pd).
Proof using.
  intros Hrep (p & -> & Hp). pose proof (r_ok _ _ Hrep) as Hok. destruct (v_dir _ _ _ Hok p Hp) as [Hk _].
  cbn [run_vcall]. rewrite (bind_Ret _ _ _ _ _ (activate_run s p Hk)).
  do 3 eexists. split_and!; [done|apply A_activate| |intros _; by apply tlb_empty].
  destruct Hrep as [[H1 H2 H3 H4 H5 H6 H7] H8 H9]. split; [split; try done|cbn; lia|done].
  cbn [cr3]. by replace (p - PHYS_BASE + PHYS_BASE) with p by lia.
Qed.

(** The entry with a flag other than P and W changed. *)
Definition with_flag (k : Z) (on : bool) (e : Z) : Z :=
  if on then Z.lor e (2 ^ k) else Z.land e (u32 (Z.lnot (2 ^ k))).

Lemma with_flag_bit k on e n : 0 <= k < 12 → 0 <= n < 12 →
  Z.testbit (with_flag k on e) n = if n =? k then on else Z.testbit e n.
Proof using.
  intros Hk Hn. unfold with_flag. destruct on.
  - rewrite Z.lor_spec, Z.pow2_bits_eqb, Z.eqb_sym by lia. destruct (n =? k); [apply orb_true_r|apply orb_false_r].
  - rewrite clear_bit by lia. destruct (n =? k); [apply andb_false_r|apply andb_true_r].
Qed.

Lemma with_flag_addr k on e : 0 <= k < 12 → Z.land (with_flag k on e) PTE_ADDR = Z.land e PTE_ADDR.
Proof using. intros Hk. unfold with_flag. destruct on; [by apply set_addr|by apply clear_addr]. Qed.

Lemma write_flag_ok k pd v on :
  2 <= k < 12 → represents s a → pd ∈ dirs → user_va v →
  ∃ s', write_flag pal init_page_dir (2 ^ k) pd v on s = Ret (tt, s') ∧
    represents s' (mk_spaces (active a) (alter (λ i, mk_info (frame i) (writable i)
      (if k =? 5 then on else accessed i) (if k =? 6 then on else dirty i)) (pd, pg_no v) (pages a))) ∧ (tlb_ok s → tlb_ok s').
Proof using.
  intros Hk Hrep Hpd Hu. pose proof (r_ok _ _ Hrep) as Hok. unfold write_flag.
  destruct (lookup_false init_page_dir s dirs Hok pal pd v Hpd Hu) as [[Hl Ht]|(pt & ws & e & Hl & Hf)];
    rewrite (bind_Ret _ _ _ _ _ Hl).
  { exists s. split_and!; [done| |done]. rewrite alter_id; [by destruct a|].
    intros i. by rewrite (missing_pages pd v Hrep Hpd Hu Ht). }
  rewrite (load_word_bind _ _ _ _ ws e) by apply Hf. set (e' := with_flag k on e).
  assert (Ha : Z.land e' PTE_ADDR = Z.land e PTE_ADDR) by (apply with_flag_addr; lia).
  assert (HP : flag e' PTE_P = flag e PTE_P).
  { rewrite !flag_P. unfold e'. rewrite with_flag_bit, (proj2 (Z.eqb_neq _ _)) by lia. done. }
  assert (HW : flag e' PTE_W = flag e PTE_W).
  { rewrite !flag_W. unfold e'. rewrite with_flag_bit, (proj2 (Z.eqb_neq _ _)) by lia. done. }
  assert (Hlow : flag e' PTE_P = true → low_addr e').
  { rewrite HP. unfold low_addr. rewrite Ha. by eapply found_low. }
  assert (Hinfo : info e' = mk_info (frame (info e)) (writable (info e))
    (if k =? 5 then on else accessed (info e)) (if k =? 6 then on else dirty (info e))).
  { unfold info, pt_of. cbn [frame writable accessed dirty]. rewrite Ha, HW. f_equal.
    - rewrite !flag_A. unfold e'. rewrite with_flag_bit, Z.eqb_sym by lia. done.
    - rewrite !flag_D. unfold e'. rewrite with_flag_bit, Z.eqb_sym by lia. done. }
  pose proof (found_pages pd v pt ws e Hrep Hpd Hu Hf) as Hpg.
  assert (Hrep' : represents (put s pt (pt_no v) e' ws) (mk_spaces (active a) (alter (λ i, mk_info (frame i) (writable i)
      (if k =? 5 then on else accessed i) (if k =? 6 then on else dirty i)) (pd, pg_no v) (pages a)))).
  { apply (put_represents pd v pt ws e); try done. intros key. rewrite HP.
    destruct (decide _) as [->|]; [|by rewrite lookup_alter_ne]. rewrite lookup_alter_eq, Hpg.
    destruct (flag e PTE_P); [|done]. cbn [fmap option_fmap option_map]. by rewrite Hinfo. }
  pose proof (store_word_run s pt (pt_no v) e' ws (f_pt _ _ _ _ _ _ Hf) (found_len pd v pt ws e Hok Hu Hf)) as Hst.
  destruct on.
  - exists (put s pt (pt_no v) e' ws). split_and!; [exact Hst|done|]. intros Htlb.
    apply (put_tlb pd v pt ws e e' (tlb s)); try done. right. split; [done|]. intros HPe. right.
    split_and!; [by rewrite HP|unfold pt_of; by rewrite Ha|done].
  - rewrite (bind_Ret _ _ _ _ _ Hst), (invalidate_run _ pd (r_ok _ _ Hrep')).
    eexists. split_and!; [done|by apply represents_retlb|]. intros Htlb. cbn [tables cr3 tlb freed put].
    apply (put_tlb pd v pt ws e e'); try done. destruct (decide (pd = cr3 s + PHYS_BASE)); [by left|right].
    split; [done|]. by left.
Qed.

Lemma vmark_ok d pd v on : represents s a → avalid (VMark d pd v on) a → goal (VMark d pd v on).
Proof using.
  intros Hrep (Hpd & Hu). destruct d; cbn [run_vcall]; unfold pagedir_set_dirty, pagedir_set_accessed.
  - destruct (write_flag_ok 6 pd v on ltac:(lia) Hrep Hpd Hu) as (s' & Hrun & Hrep' & Ht).
    change (2 ^ 6) with PTE_D in Hrun. rewrite (bind_Ret _ _ _ _ _ Hrun). do 3 eexists. by split_and!; [|apply A_mark| |].
  - destruct (write_flag_ok 5 pd v on ltac:(lia) Hrep Hpd Hu) as (s' & Hrun & Hrep' & Ht).
    change (2 ^ 5) with PTE_A in Hrun. rewrite (bind_Ret _ _ _ _ _ Hrun). do 3 eexists. by split_and!; [|apply A_mark| |].
Qed.
End theorems.

Section set_page.
Context (pal : vm → option Z) (init_page_dir init_ram_pages : Z) (dirs : gset Z).
(** [palloc_get_page] returns a free page of the kernel pool. *)
Context (Hpal : ∀ s p, pal s = Some p → kpage_ok p ∧ tables s !! p = None).

(** [pagedir_set_page] maps the page, or reports that no page table could be
    allocated and changes nothing. *)
Lemma set_page_cases s a pd u kp w :
  represents init_page_dir dirs s a → avalid init_page_dir init_ram_pages dirs (VSet pd u kp w) a →
  (pagedir_set_page pal init_page_dir init_ram_pages pd u kp w s = Ret (false, s) ∧ pal s = None) ∨
  ∃ s', pagedir_set_page pal init_page_dir init_ram_pages pd u kp w s = Ret (true, s') ∧
    represents init_page_dir dirs s'
      (mk_spaces (active a) (<[(pd, pg_no u) := mk_info kp w false false]> (pages a))) ∧
    (tlb_ok s → tlb_ok s').
Proof using Hpal.
  intros Hrep (Hpd & Hni & Hu & Hofs & Hk & Hram & Hnone). pose proof (r_ok _ _ _ _ Hrep) as Hok.
  unfold pagedir_set_page.
  rewrite ASSERT_bind by (by rewrite Hofs). rewrite ASSERT_bind by (by apply kpage_ofs).
  rewrite ASSERT_bind by (apply Z.ltb_lt; unfold user_va in Hu; lia).
  rewrite (lift_step _ _ _ (kp - PHYS_BASE)) by by apply vtop_run.
  rewrite ASSERT_bind by by apply Z.ltb_lt.
  rewrite ASSERT_bind by (by rewrite (proj2 (Z.eqb_neq _ _))).
  destruct (lookup_true init_page_dir s dirs Hok pal pd u Hpal Hpd (not_eq_sym Hni) Hu) as [[Hl Hno]|(s1 & pt & ws & e & Hl & Hok1 & Hf & Htr & Ec & Et & _)];
    rewrite (bind_Ret _ _ _ _ _ Hl).
  { by left. }
  right.
  assert (Hrep1 : represents init_page_dir dirs s1 a).
  { split; [done|by rewrite Ec, (r_active _ _ _ _ Hrep)|]. intros pd' va' Hpd' Hva'. rewrite Htr by done.
    by apply (r_pages _ _ _ _ Hrep). }
  pose proof (found_pages init_page_dir dirs s1 a pd u pt ws e Hrep1 Hpd Hu Hf) as Hpg. rewrite Hnone in Hpg.
  assert (HP : flag e PTE_P = false) by (by destruct (flag e PTE_P)).
  rewrite (load_word_bind _ _ _ _ ws e) by apply Hf.
  rewrite ASSERT_bind by by rewrite HP.
  destruct (pte_create_user_run kp w Hk) as (e' & He' & HP' & Ha' & HW' & HA' & HD').
  rewrite (lift_step _ _ _ e') by done.
  rewrite (bind_Ret _ _ _ _ _ (store_word_run s1 pt (pt_no u) e' ws (f_pt _ _ _ _ _ _ Hf)
    (found_len init_page_dir dirs s1 pd u pt ws e Hok1 Hu Hf))).
  assert (Hlow : low_addr e') by (unfold low_addr; rewrite Ha'; destruct Hk; lia).
  eexists. split_and!; [done| |].
  - apply (put_represents init_page_dir dirs s1 a pd u pt ws e); try done. intros key.
    destruct (decide _) as [->|]; [|by rewrite lookup_insert_ne]. rewrite lookup_insert_eq, HP'. f_equal.
    unfold info, pt_of. rewrite Ha', HW', HA', HD'. f_equal. lia.
  - intros Htlb. apply (put_tlb init_page_dir dirs s1 pd u pt ws e e' (tlb s1)); try done.
    + right. split; [done|]. by rewrite HP.
    + eapply (tlb_same s); [done|done| |done]. intros va1 e1 Hva1 He1.
      rewrite Htr; [eauto|apply (v_active _ _ _ Hok)|done].
Qed.


Lemma vset_ok s a pd u kp w :
  represents init_page_dir dirs s a → avalid init_page_dir init_ram_pages dirs (VSet pd u kp w) a →
  ∃ r s' a', run_vcall pal init_page_dir init_ram_pages (VSet pd u kp w) s = Ret (r, s') ∧ astep (VSet pd u kp w) a r a' ∧
    represents init_page_dir dirs s' a' ∧ (tlb_ok s → tlb_ok s').
Proof using Hpal.
  intros Hrep Hv. cbn [run_vcall].
  destruct (set_page_cases s a pd u kp w Hrep Hv) as [[Hrun _]|(s' & Hrun & Hrep' & Ht)]; rewrite (bind_Ret _ _ _ _ _ Hrun).
  - do 3 eexists. by split_and!; [|apply A_set_fail| |].
  - do 3 eexists. by split_and!; [|apply A_set_ok| |].
Qed.

Lemma vcall_ok c s a :
  represents init_page_dir dirs s a → avalid init_page_dir init_ram_pages dirs c a →
  ∃ r s' a', run_vcall pal init_page_dir init_ram_pages c s = Ret (r, s') ∧ astep c a r a' ∧
    represents init_page_dir dirs s' a' ∧ (tlb_ok s → tlb_ok s').
Proof using Hpal.
  intros Hrep Hv. destruct c.
  - by apply vset_ok.
  - by apply vget_ok.
  - by apply vclear_ok.
  - by apply vtest_ok.
  - by apply vmark_ok.
  - by apply vactivate_ok.
  - by apply vtouch_ok.
Qed.

(** ** Sequences of calls *)
Fixpoint run_vcalls (cs : list vcall) : cmd vm (list Z) :=
  match cs with
  | [] => mret []
  | c :: cs => r ← run_vcall pal init_page_dir init_ram_pages c; rs ← run_vcalls cs; mret (r :: rs)
  end.

(** The calls are allowed by the abstract states they meet, and [rs] are
    results the contract permits. *)
Inductive asteps : list vcall → spaces → list Z → spaces → Prop :=
  | asteps_nil a : asteps [] a [] a
  | asteps_cons c cs a r a' rs a'' :
      avalid init_page_dir init_ram_pages dirs c a → astep c a r a' → asteps cs a' rs a'' →
      asteps (c :: cs) a (r :: rs) a''.

(** Whatever the results of the earlier calls are, the next one is allowed. *)
Fixpoint allowed (cs : list vcall) (a : spaces) : Prop :=
  match cs with
  | [] => True
  | c :: cs => avalid init_page_dir init_ram_pages dirs c a ∧ ∀ r a', astep c a r a' → allowed cs a'
  end.


End set_page.

(** ** A concrete machine *)
Definition ex_init : Z := 0xc0100000.
Definition ex_pd : Z := 0xc0200000.
Definition ex_pt : Z := 0xc0300000.
Definition ex_vm : vm := mk_vm {[ex_init := zero_page; ex_pd := zero_page]} (ex_pd - PHYS_BASE) ∅ [].
Definition ex_dirs : gset Z := {[ex_init; ex_pd]}.
Definition ex_pal (s : vm) : option Z := if decide (tables s !! ex_pt = None) then Some ex_pt else None.

Lemma ex_pal_free s p : ex_pal s = Some p → kpage_ok p ∧ tables s !! p = None.
Proof.
  unfold ex_pal. destruct (decide _) as [H|]; [|done]. intros [= <-]. split; [|done]. by split.
Qed.

Lemma zero_translate s pd va : tables s !! pd = Some zero_page → translate s pd va = None.
Proof.
  intros H. unfold translate, mbind, option_bind. rewrite H. destruct (zero_page !! Z.to_nat (pd_no va)) as [e|] eqn:E; [|done].
  apply lookup_replicate in E as [-> _]. done.
Qed.

Lemma ex_tables p ws : tables ex_vm !! p = Some ws → ws = zero_page.
Proof. cbn [tables ex_vm]. intros [[_ H]|[_ [_ H]%lookup_singleton_Some]]%lookup_insert_Some; by symmetry. Qed.

Lemma ex_dir pd : pd ∈ ex_dirs → kpage_ok pd ∧ tables ex_vm !! pd = Some zero_page.
Proof.
  unfold ex_dirs. rewrite elem_of_union, !elem_of_singleton. intros [->| ->]; (split; [by split|]); reflexivity.
Qed.

Lemma ex_represents : represents ex_init ex_dirs ex_vm (mk_spaces ex_pd ∅).
Proof.
  split; [split| |].
  - intros p ws ->%ex_tables. apply length_replicate.
  - intros pd [Hk Ht]%ex_dir. split; [done|by eexists].
  - intros pd ws i e _ ->%ex_tables _ [-> _]%lookup_replicate. done.
  - intros pd ws i e pd' ws' i' e' _ ->%ex_tables _ [-> _]%lookup_replicate. done.
  - intros pd va e [_ Ht]%ex_dir _. by rewrite (zero_translate _ _ _ Ht).
  - split; [unfold ex_dirs; set_solver|]. intros ws i ->%ex_tables Hi. apply lookup_replicate_2. lia.
  - cbn [cr3 ex_vm]. replace (ex_pd - PHYS_BASE + PHYS_BASE) with ex_pd by done. unfold ex_dirs. set_solver.
  - done.
  - intros pd va [_ Ht]%ex_dir _. rewrite (zero_translate _ _ _ Ht). cbn [pages]. by rewrite lookup_empty.
Qed.

Definition ex_calls : list vcall :=
  [VSet ex_pd 0x8048000 0xc0400000 true; VTouch 0x8048123; VClear ex_pd 0x8048000; VGet ex_pd 0x8048123].

Lemma ex_allowed : allowed ex_init 4096 ex_dirs ex_calls (mk_spaces ex_pd ∅).
Proof.
  assert (Hin : ex_pd ∈ ex_dirs) by (unfold ex_dirs; set_solver).
  split; [split_and!; try done|]. intros r1 a1 _. split; [done|]. intros r2 a2 _. split; [done|]. intros r3 a3 _.
  split; [done|]. done.
Qed.



(** The calls of the example map the page, use it, and unmap it. *)
Example ex_results : (λ r, match r with Ret (rs, s) => Some (rs, bool_decide (tlb s = ∅)) | Err _ => None end)
  (run_vcalls ex_pal ex_init 4096 ex_calls ex_vm) = Some ([1; 1; 0; 0], true).
Proof. vm_compute. reflexivity. Qed.

(** * Creating and destroying page directories

    [pagedir_create] gives an address space with no user pages and the kernel's
    mappings; [pagedir_destroy] returns every page the directory references,
    each page table and the directory itself, and leaves the other address
    spaces alone. *)

(** The pages a table maps, and what is freed for one directory entry. *)
Definition frames (ws : list Z) : list Z := omap (λ e, if flag e PTE_P then Some (pt_of e) else None) ws.
Definition entry_pages (T : gmap Z (list Z)) (e : Z) : list Z :=
  if flag e PTE_P then frames (default [] (T !! pt_of e)) ++ [pt_of e] else [].
Definition entry_tables (es : list Z) : list Z := omap (λ e, if flag e PTE_P then Some (pt_of e) else None) es.

Definition free_all (ps : list Z) (T : gmap Z (list Z)) : gmap Z (list Z) := foldr delete T ps.

Lemma free_all_lookup ps T q : free_all ps T !! q = if decide (q ∈ ps) then None else T !! q.
Proof.
  induction ps as [|p ps IH]; cbn [free_all foldr]; [by rewrite decide_False by apply not_elem_of_nil|].
  destruct (decide (q = p)) as [->|Hne].
  - rewrite lookup_delete_eq, decide_True; [done|by left].
  - rewrite lookup_delete_ne by done. fold (free_all ps T). rewrite IH. destruct (decide (q ∈ ps)).
    + rewrite decide_True; [done|by right].
    + rewrite decide_False; [done|]. by intros [|]%elem_of_cons.
Qed.

Lemma free_all_cons p ps T : free_all ps (delete p T) = free_all (p :: ps) T.
Proof.
  apply map_eq. intros q. rewrite !free_all_lookup. destruct (decide (q ∈ ps)).
  - rewrite decide_True; [done|by right].
  - destruct (decide (q = p)) as [->|].
    + rewrite lookup_delete_eq, decide_True; [done|by left].
    + rewrite lookup_delete_ne, decide_False; [done| |done]. by intros [|]%elem_of_cons.
Qed.

(** The pages mapped by a table, given back one by one. *)
Lemma free_pages_run pt ws c t n i fr T :
  T !! pt = Some ws → (Z.to_nat i + n = length ws)%nat → 0 <= i →
  (∀ e, e ∈ ws → flag e PTE_P = true → low_addr e ∧ T !! pt_of e = None) →
  free_pages_loop n pt i (mk_vm T c t fr) = Ret (tt, mk_vm T c t (fr ++ frames (drop (Z.to_nat i) ws))).
Proof.
  revert i fr. induction n as [|n IH]; intros i fr HT Hlen Hi Hws.
  { rewrite drop_ge by lia. simpl. by rewrite app_nil_r. }
  destruct (lookup_lt_is_Some_2 ws (Z.to_nat i)) as [e He]; [lia|]. cbn [free_pages_loop].
  rewrite (load_word_bind _ _ _ _ ws e) by done. rewrite (drop_S _ e) by done.
  replace (S (Z.to_nat i)) with (Z.to_nat (i + 1)) by lia. unfold frames. cbn [omap list_omap]. fold (frames (drop (Z.to_nat (i + 1)) ws)).
  destruct (flag e PTE_P) eqn:EP.
  - destruct (Hws e) as [Hlow Hnone]; [by eapply list_elem_of_lookup_2|done|].
    erewrite bind_Ret; cycle 1.
    { rewrite (lift_step _ _ _ (pt_of e)); [unfold palloc_free_page, modify; reflexivity|]. by apply ptov_run. }
    cbn [tables cr3 tlb freed]. rewrite delete_id by done. rewrite IH by (done || lia). do 3 f_equal.
    by rewrite <- (assoc_L (++)).
  - rewrite ret_bind. by apply IH; [|lia|lia|].
Qed.

Section destroy.
Context (init_page_dir : Z) (T0 : gmap Z (list Z)) (c : Z) (t : gmap Z Z) (pd : Z) (wsd : list Z).
Context (Hpd : T0 !! pd = Some wsd).
(** The entries point to tables of their own; mapped pages are not tables. *)
Context (Hes : ∀ e, e ∈ take 768 wsd → flag e PTE_P = true → low_addr e ∧ pt_of e ≠ pd ∧
  ∃ ws, T0 !! pt_of e = Some ws ∧ length ws = 1024%nat ∧
    ∀ e', e' ∈ ws → flag e' PTE_P = true → low_addr e' ∧ T0 !! pt_of e' = None).

Lemma free_tables_run n i fr T :
  (Z.to_nat i + n = 768)%nat → 0 <= i → length wsd = 1024%nat →
  let es := drop (Z.to_nat i) (take 768 wsd) in
  NoDup (entry_tables es) → (∀ q, T !! q = None ∨ T !! q = T0 !! q) → T !! pd = Some wsd →
  (∀ p, p ∈ entry_tables es → T !! p = T0 !! p) →
  free_tables_loop n pd i (mk_vm T c t fr) =
    Ret (tt, mk_vm (free_all (entry_tables es) T) c t (fr ++ concat (entry_pages T0 <$> es))).
Proof using Hes.
  revert i fr T. induction n as [|n IH]; intros i fr T Hn Hi Hlen es Hnd Hsub HT Hrest; unfold es in *; clear es.
  { rewrite drop_ge by (rewrite length_take; lia). simpl. by rewrite app_nil_r. }
  destruct (lookup_lt_is_Some_2 wsd (Z.to_nat i)) as [e He]; [lia|].
  assert (He' : take 768 wsd !! Z.to_nat i = Some e) by (rewrite lookup_take_lt by lia; done).
  cbn [free_tables_loop]. rewrite (load_word_bind _ _ _ _ wsd e) by done.
  rewrite (drop_S _ e) in Hnd, Hrest |- * by done.
  replace (S (Z.to_nat i)) with (Z.to_nat (i + 1)) in * by lia.
  unfold entry_tables in Hnd, Hrest |- *. cbn [omap list_omap] in Hnd, Hrest |- *.
  fold (entry_tables (drop (Z.to_nat (i + 1)) (take 768 wsd))) in Hnd, Hrest |- *.
  rewrite fmap_cons. cbn [concat]. unfold entry_pages at 1. destruct (flag e PTE_P) eqn:EP; cycle 1.
  { rewrite ret_bind. apply IH; [lia..|done|done|done|done|done]. }
  destruct (Hes e) as (Hlow & Hne & ws & Hws & Hl & Hpg); [by eapply list_elem_of_lookup_2|done|].
  apply NoDup_cons in Hnd as [Hnin Hnd].
  assert (HTe : T !! pt_of e = Some ws) by (rewrite Hrest by (by left); done).
  erewrite bind_Ret; cycle 1.
  { rewrite (lift_step _ _ _ (pt_of e)); cycle 1.
    { unfold pde_get_pt, RASSERT. rewrite EP. cbn [mbind res_bind]. by apply ptov_run. }
    rewrite (bind_Ret _ _ _ tt (mk_vm T c t (fr ++ frames ws))); cycle 1.
    { rewrite (free_pages_run _ ws); [by rewrite drop_0|done|done|lia|].
      intros e' He1 HP'. destruct (Hpg e' He1 HP') as [? Hn0]. split; [done|]. destruct (Hsub (pt_of e')); congruence. }
    unfold palloc_free_page, modify. reflexivity. }
  cbn [tables cr3 tlb freed]. rewrite IH; [|lia|lia|done|done| | |].
  - rewrite free_all_cons. do 3 f_equal. rewrite Hws. cbn [default from_option]. by rewrite <- !(assoc_L (++)).
  - intros q. destruct (decide (q = pt_of e)) as [->|]; [rewrite lookup_delete_eq; auto|]. rewrite lookup_delete_ne by done. auto.
  - rewrite lookup_delete_ne by done. done.
  - intros p Hp. rewrite lookup_delete_ne by (intros <-; done). apply Hrest. by right.
Qed.
End destroy.

(** ** Creation *)
Section create.
Context (init_page_dir : Z) (dirs : gset Z) (s : vm) (Hok : vm_ok init_page_dir s dirs).
Context (p : Z) (ws : list Z) (Hp : kpage_ok p) (Hfree : tables s !! p = None).
Context (Hws : tables s !! init_page_dir = Some ws).
Abbreviation s' := (mk_vm (<[p := ws]> (tables s)) (cr3 s) (tlb s) (freed s)).

Lemma create_not_dir : p ∉ dirs.
Proof using Hok Hfree. intros Hin. destruct (v_dir _ _ _ Hok p Hin) as [_ [? ?]]. congruence. Qed.

Lemma create_tables q : tables s !! q ≠ None → tables s' !! q = tables s !! q.
Proof using Hfree. intros Hq. cbn [tables]. rewrite lookup_insert_ne; [done|]. congruence. Qed.

(** A user entry of a directory of the new state that is not zero is an old one. *)
Lemma create_entry pd w i e : pd ∈ {[p]} ∪ dirs → tables s' !! pd = Some w → (i < 768)%nat → w !! i = Some e → e ≠ 0 →
  pd ∈ dirs ∧ tables s !! pd = Some w.
Proof using Hok Hws.
  intros Hpd Hw Hi He Hne. cbn [tables] in Hw. apply lookup_insert_Some in Hw as [[<- <-]|[Hpd' Hw]].
  - destruct (v_init _ _ _ Hok) as [_ Hz]. rewrite (Hz ws i Hws Hi) in He. congruence.
  - split; [|done]. apply elem_of_union in Hpd as [->%elem_of_singleton|]; done.
Qed.

Lemma create_translate pd va : pd ∈ dirs → user_va va → translate s' pd va = translate s pd va.
Proof using Hok Hfree.
  intros Hpd Hva. destruct (user_pde _ s dirs Hok pd va Hpd Hva) as (w & e & H1 & H2 & _).
  destruct (index_range va Hva) as [Hi _]. rewrite (translate_eq s pd va w e H1 H2).
  assert (H1' : tables s' !! pd = Some w) by (by rewrite create_tables by congruence).
  rewrite (translate_eq s' pd va w e H1' H2). destruct (decide (e = 0)) as [->|Hne]; [done|].
  destruct (v_pde _ _ _ Hok pd w (Z.to_nat (pd_no va)) e Hpd H1 ltac:(lia) H2 Hne) as (_ & _ & [x Hx] & _).
  rewrite create_tables by congruence. done.
Qed.

Lemma create_empty va : user_va va → translate s' p va = None.
Proof using Hok Hws.
  intros Hva. destruct (index_range va Hva) as [Hi _]. destruct (v_init _ _ _ Hok) as [_ Hz].
  eapply translate_missing; [cbn [tables]; apply lookup_insert_eq|]. apply (Hz ws); [done|lia].
Qed.

Lemma create_ok : vm_ok init_page_dir s' ({[p]} ∪ dirs).
Proof using Hok Hws Hp Hfree.
  pose proof create_not_dir as Hnd.
  assert (Hsome : ∀ q, is_Some (tables s !! q) → is_Some (tables s' !! q)) by (intros q [x Hx]; rewrite create_tables; eauto || congruence).
  split.
  - intros q w. cbn [tables]. intros [[_ <-]|[_ Hq]]%lookup_insert_Some; by eapply (v_len _ _ _ Hok).
  - intros pd [->%elem_of_singleton|Hpd]%elem_of_union.
    + split; [done|]. cbn [tables]. rewrite lookup_insert_eq. eauto.
    + destruct (v_dir _ _ _ Hok pd Hpd) as [? ?]. split; [done|]. by apply Hsome.
  - intros pd w i e Hpd Hw Hi He Hne. destruct (create_entry pd w i e Hpd Hw Hi He Hne) as [Hpd' Hw'].
    destruct (v_pde _ _ _ Hok pd w i e Hpd' Hw' Hi He Hne) as (? & ? & Hpt & Hnin). split_and!; [done|done|by apply Hsome|].
    apply not_elem_of_union. split; [|done]. apply not_elem_of_singleton. intros E. rewrite E, Hfree in Hpt. by destruct Hpt.
  - intros pd w i e pd2 w2 i2 e2 Hpd Hw Hi He Hne Hpd2 Hw2 Hi2 He2 Hne2.
    destruct (create_entry pd w i e Hpd Hw Hi He Hne) as [? ?], (create_entry pd2 w2 i2 e2 Hpd2 Hw2 Hi2 He2 Hne2) as [? ?].
    by eapply (v_inj _ _ _ Hok).
  - intros pd va e [->%elem_of_singleton|Hpd]%elem_of_union Hva; [by rewrite create_empty|].
    rewrite create_translate by done. by apply (v_pte _ _ _ Hok).
  - destruct (v_init _ _ _ Hok) as [Hin Hz]. split; [set_solver|]. intros w i. rewrite create_tables by congruence. apply Hz.
  - pose proof (v_active _ _ _ Hok). set_solver.
Qed.
End create.

(** ** Destruction *)
Lemma index_of_pair i j : (i < 768)%nat → (j < 1024)%nat →
  let va := Z.of_nat i * 2 ^ 22 + Z.of_nat j * 2 ^ 12 in
  user_va va ∧ Z.to_nat (pd_no va) = i ∧ Z.to_nat (pt_no va) = j.
Proof.
  intros Hi Hj va. unfold user_va, PHYS_BASE. split; [lia|]. rewrite pd_no_div, pt_no_mod. unfold va. split.
  - rewrite Z.div_add_l by lia. rewrite Z.div_small by lia. lia.
  - replace (Z.of_nat i * 2 ^ 22 + Z.of_nat j * 2 ^ 12) with ((Z.of_nat i * 2 ^ 10 + Z.of_nat j) * 2 ^ 12) by lia.
    rewrite Z.div_mul by lia. rewrite Z.add_comm, Z.mod_add by lia. rewrite Z.mod_small by lia. lia.
Qed.

Section destroy_ok.
Context (init_page_dir : Z) (dirs : gset Z) (s : vm) (Hok : vm_ok init_page_dir s dirs).
Context (pd : Z) (wsd : list Z) (Hpd : pd ∈ dirs) (Hni : pd ≠ init_page_dir) (Hna : pd ≠ cr3 s + PHYS_BASE).
Context (Hwsd : tables s !! pd = Some wsd).
(** The user pages of the directory are not page tables. *)
Context (Hapart : ∀ va e, user_va va → translate s pd va = Some e → tables s !! pt_of e = None).
Abbreviation es := (take 768 wsd).

Lemma dir_entry e i : es !! i = Some e → flag e PTE_P = true → (i < 768)%nat ∧ wsd !! i = Some e ∧ e ≠ 0.
Proof using.
  intros He HP. pose proof (lookup_lt_Some _ _ _ He) as Hl. rewrite length_take in Hl.
  rewrite lookup_take_lt in He by lia. split_and!; [lia|done|]. intros ->. done.
Qed.

Lemma dir_entries e : e ∈ es → flag e PTE_P = true → low_addr e ∧ pt_of e ≠ pd ∧
  ∃ ws, tables s !! pt_of e = Some ws ∧ length ws = 1024%nat ∧
    ∀ e', e' ∈ ws → flag e' PTE_P = true → low_addr e' ∧ tables s !! pt_of e' = None.
Proof using Hok Hpd Hwsd Hapart.
  intros [i He]%list_elem_of_lookup HP. destruct (dir_entry e i He HP) as (Hi & Hw & Hne).
  destruct (v_pde _ _ _ Hok pd wsd i e Hpd Hwsd Hi Hw Hne) as (_ & Hlow & [ws Hws] & Hnd).
  pose proof (v_len _ _ _ Hok _ _ Hws) as Hl. split_and!; [done|congruence|]. exists ws. split_and!; [done|done|].
  intros e' [j Hj]%list_elem_of_lookup HP'. pose proof (lookup_lt_Some _ _ _ Hj) as Hjl.
  destruct (index_of_pair i j Hi ltac:(lia)) as (Hva & Ei & Ej). set (va := Z.of_nat i * 2 ^ 22 + Z.of_nat j * 2 ^ 12) in *.
  assert (Ht : translate s pd va = Some e').
  { rewrite (translate_eq s pd va wsd e Hwsd) by (by rewrite Ei). by rewrite HP, Hws, Ej, Hj, HP'. }
  split; [by apply (v_pte _ _ _ Hok pd va)|by apply (Hapart va)].
Qed.

Lemma entry_tables_elem p : p ∈ entry_tables es ↔ ∃ i e, es !! i = Some e ∧ flag e PTE_P = true ∧ p = pt_of e.
Proof using.
  unfold entry_tables. rewrite list_elem_of_omap. split.
  - intros (e & [i Hi]%list_elem_of_lookup & He). destruct (flag e PTE_P) eqn:E; [|done]. simplify_eq. eauto.
  - intros (i & e & Hi & HP & ->). exists e. split; [by eapply list_elem_of_lookup_2|]. by rewrite HP.
Qed.

Lemma entry_tables_nodup : NoDup (entry_tables es).
Proof using Hok Hpd Hwsd.
  assert (H : ∀ l k, (∀ i e, l !! i = Some e → es !! (k + i)%nat = Some e) → NoDup (entry_tables l)).
  { induction l as [|e l IH]; intros k Hl; [constructor|]. unfold entry_tables. cbn [omap list_omap]. fold (entry_tables l).
    assert (IH' : NoDup (entry_tables l)).
    { apply (IH (S k)). intros i e' Hi. replace (S k + i)%nat with (k + S i)%nat by lia. by apply Hl. }
    destruct (flag e PTE_P) eqn:EP; [|done]. apply NoDup_cons. split; [|done].
    unfold entry_tables. rewrite list_elem_of_omap. intros (e' & [j Hj]%list_elem_of_lookup & He').
    destruct (flag e' PTE_P) eqn:EP'; [|done]. injection He' as Ept.
    pose proof (Hl 0%nat e eq_refl) as H0. pose proof (Hl (S j) e' Hj) as H1.
    destruct (dir_entry e _ H0 EP) as (L0 & W0 & N0), (dir_entry e' _ H1 EP') as (L1 & W1 & N1).
    destruct (v_inj _ _ _ Hok pd wsd _ e pd wsd _ e' Hpd Hwsd L0 W0 N0 Hpd Hwsd L1 W1 N1 (eq_sym Ept)). lia. }
  apply (H es 0%nat). done.
Qed.

Abbreviation s' := (mk_vm (delete pd (free_all (entry_tables es) (tables s))) (cr3 s) (tlb s)
  (freed s ++ concat (entry_pages (tables s) <$> es) ++ [pd])).

Lemma destroy_run : pagedir_destroy init_page_dir (Some pd) s = Ret (tt, s').
Proof using Hok Hpd Hwsd Hapart Hni Hna.
  unfold pagedir_destroy. rewrite ASSERT_bind by (by rewrite (proj2 (Z.eqb_neq _ _))).
  change (Z.to_nat (pd_no PHYS_BASE)) with 768%nat.
  pose proof (free_tables_run (tables s) (cr3 s) (tlb s) pd wsd dir_entries 768 0 (freed s) (tables s) eq_refl ltac:(lia)
    (v_len _ _ _ Hok _ _ Hwsd)) as Hrun. cbv zeta in Hrun. change (Z.to_nat 0) with 0%nat in Hrun. rewrite drop_0 in Hrun.
  assert (Hs : s = mk_vm (tables s) (cr3 s) (tlb s) (freed s)) by by destruct s.
  rewrite Hs at 1. rewrite (bind_Ret _ _ _ _ _ (Hrun entry_tables_nodup ltac:(auto) Hwsd ltac:(auto))).
  unfold palloc_free_page, modify. cbn [tables cr3 tlb freed]. by rewrite <- (assoc_L (++)).
Qed.

(** What another directory uses is not freed. *)
Lemma kept_dir pd' : pd' ∈ dirs → pd' ≠ pd → tables s' !! pd' = tables s !! pd'.
Proof using Hok Hpd Hwsd.
  intros Hpd' Hne. cbn [tables]. rewrite lookup_delete_ne, free_all_lookup by done. rewrite decide_False; [done|].
  intros (i & e & Hi & HP & ->)%entry_tables_elem. destruct (dir_entry e i Hi HP) as (Hl & Hw & Hn).
  by destruct (v_pde _ _ _ Hok pd wsd i e Hpd Hwsd Hl Hw Hn) as (_ & _ & _ & ?).
Qed.

Lemma kept_table pd' ws i e : pd' ∈ dirs → pd' ≠ pd → tables s !! pd' = Some ws → (i < 768)%nat → ws !! i = Some e → e ≠ 0 →
  tables s' !! pt_of e = tables s !! pt_of e.
Proof using Hok Hpd Hwsd.
  intros Hpd' Hne Hws Hi He Hn. destruct (v_pde _ _ _ Hok pd' ws i e Hpd' Hws Hi He Hn) as (_ & _ & _ & Hnd).
  cbn [tables]. rewrite lookup_delete_ne by congruence. rewrite free_all_lookup, decide_False; [done|].
  intros (i' & e' & Hi' & HP & Ept)%entry_tables_elem. destruct (dir_entry e' i' Hi' HP) as (Hl & Hw & Hn').
  by destruct (v_inj _ _ _ Hok pd' ws i e pd wsd i' e' Hpd' Hws Hi He Hn Hpd Hwsd Hl Hw Hn' Ept).
Qed.

Lemma destroy_translate pd' va : pd' ∈ dirs → pd' ≠ pd → user_va va → translate s' pd' va = translate s pd' va.
Proof using Hok Hpd Hwsd.
  intros Hpd' Hne Hva. destruct (user_pde _ s dirs Hok pd' va Hpd' Hva) as (w & e & H1 & H2 & _).
  destruct (index_range va Hva) as [Hi _]. rewrite (translate_eq s pd' va w e H1 H2).
  assert (H1' : tables s' !! pd' = Some w) by (by rewrite kept_dir).
  rewrite (translate_eq s' pd' va w e H1' H2). destruct (decide (e = 0)) as [->|Hn]; [done|].
  rewrite (kept_table pd' w (Z.to_nat (pd_no va)) e) by (done || lia). done.
Qed.

Lemma destroy_ok : vm_ok init_page_dir s' (dirs ∖ {[pd]}).
Proof using Hok Hpd Hwsd Hni Hna Hapart.
  assert (Hd : ∀ q, q ∈ dirs ∖ {[pd]} → q ∈ dirs ∧ q ≠ pd) by set_solver.
  split.
  - intros q w. cbn [tables]. intros [_ Hq]%lookup_delete_Some. rewrite free_all_lookup in Hq.
    destruct (decide _); [done|]. by eapply (v_len _ _ _ Hok).
  - intros q [Hq Hne]%Hd. destruct (v_dir _ _ _ Hok q Hq) as [? ?]. split; [done|]. by rewrite kept_dir.
  - intros q w i e [Hq Hne]%Hd. rewrite kept_dir by done. intros Hw Hi He Hn.
    destruct (v_pde _ _ _ Hok q w i e Hq Hw Hi He Hn) as (? & ? & ? & ?).
    split_and!; [done|done|by rewrite (kept_table q w i e)|set_solver].
  - intros q w i e q2 w2 i2 e2 [Hq Hne]%Hd. rewrite kept_dir by done. intros ? ? ? ? [Hq2 Hne2]%Hd. rewrite kept_dir by done.
    by eapply (v_inj _ _ _ Hok).
  - intros q va e [Hq Hne]%Hd Hva. rewrite destroy_translate by done. by apply (v_pte _ _ _ Hok).
  - destruct (v_init _ _ _ Hok) as [Hin Hz]. split; [set_solver|]. intros w i. rewrite kept_dir by done. apply Hz.
  - pose proof (v_active _ _ _ Hok). cbn [cr3]. set_solver.
Qed.
End destroy_ok.

(** ** Theorems *)
(** [pagedir_create] either reports that no page is free and changes
    nothing, or returns a new directory: it has no user pages and the mappings
    of the kernel's own directory, and every other directory keeps its user
    pages. *)
Theorem pagedir_create_correct pal init_page_dir dirs s a :
  (∀ s p, pal s = Some p → kpage_ok p ∧ tables s !! p = None) → represents init_page_dir dirs s a →
  (pal s = None ∧ pagedir_create pal init_page_dir s = Ret (None, s)) ∨
  ∃ p s', pagedir_create pal init_page_dir s = Ret (Some p, s') ∧ p ∉ dirs ∧
    vm_ok init_page_dir s' ({[p]} ∪ dirs) ∧ (∀ va, user_va va → translate s' p va = None) ∧
    (∀ va, translate s' p va = translate s' init_page_dir va) ∧
    (∀ pd va, pd ∈ dirs → user_va va → translate s' pd va = translate s pd va).
Proof.
  intros Hpal Hrep. pose proof (r_ok _ _ _ _ Hrep) as Hok. destruct (v_init _ _ _ Hok) as [Hin _].
  destruct (v_dir _ _ _ Hok _ Hin) as [_ [ws Hws]]. unfold pagedir_create. rewrite gets_bind, Hws. unfold get_page_with.
  destruct (pal s) as [p|] eqn:Ep; [right|by left]. destruct (Hpal s p Ep) as [Hp Hfree].
  do 2 eexists. split_and!; [done|by eapply create_not_dir|by apply create_ok|intros va Hva; by eapply create_empty| |].
  - intros va. unfold translate, mbind, option_bind. cbn [tables].
    rewrite lookup_insert_eq, lookup_insert_ne, Hws by congruence. done.
  - intros pd va Hpd Hva. by eapply create_translate.
Qed.

(** [pagedir_destroy] of a directory that is not active gives back, in
    order, every page its user entries map, each of its page tables after the
    pages it maps, and the directory; the other directories keep their user
    pages and stay well formed. *)
Theorem pagedir_destroy_correct init_page_dir dirs s a pd wsd :
  represents init_page_dir dirs s a → pd ∈ dirs → pd ≠ init_page_dir → pd ≠ active a →
  tables s !! pd = Some wsd → (∀ va e, user_va va → translate s pd va = Some e → tables s !! pt_of e = None) →
  ∃ s', pagedir_destroy init_page_dir (Some pd) s = Ret (tt, s') ∧
    freed s' = freed s ++ concat (entry_pages (tables s) <$> take 768 wsd) ++ [pd] ∧
    (∀ va e, user_va va → translate s pd va = Some e → pt_of e ∈ freed s') ∧
    represents init_page_dir (dirs ∖ {[pd]}) s' a.
Proof.
  intros [Hok Hac Hpg] Hpd Hni Hna Hw Hap. rewrite Hac in Hna.
  pose proof (destroy_run init_page_dir dirs s Hok pd wsd Hpd Hni Hna Hw Hap) as Hrun.
  eexists. split_and!; [exact Hrun|done| |split; [|done|]].
  - intros va e Hva Ht. destruct (user_pde _ s dirs Hok pd va Hpd Hva) as (w & pde & H1 & H2 & _).
    assert (w = wsd) as -> by congruence. destruct (index_range va Hva) as [Hi Hj].
    rewrite (translate_eq s pd va wsd pde Hw H2) in Ht. destruct (flag pde PTE_P) eqn:EP; [|done].
    destruct (tables s !! pt_of pde) as [pt|] eqn:Ept; [|done]. destruct (pt !! _) as [e0|] eqn:Ee; [|done].
    destruct (flag e0 PTE_P) eqn:EP0; [|done]. injection Ht as ->. cbn [freed].
    apply elem_of_app. right. apply elem_of_app. left. apply list_elem_of_In, in_concat. exists (entry_pages (tables s) pde). split; apply list_elem_of_In.
    + apply list_elem_of_fmap. exists pde. split; [done|]. apply (list_elem_of_lookup_2 _ (Z.to_nat (pd_no va))).
      rewrite lookup_take_lt by lia. done.
    + unfold entry_pages. rewrite EP, Ept. cbn [default from_option]. apply elem_of_app. left.
      apply list_elem_of_omap. exists e. split; [eapply list_elem_of_lookup_2; exact Ee|rewrite EP0; reflexivity].
  - by eapply destroy_ok.
  - intros pd' va [? ?%not_elem_of_singleton]%elem_of_difference Hva.
    rewrite (destroy_translate init_page_dir dirs) by done. by apply Hpg.
Qed.

(** ** Examples *)
Lemma pagedir_create_correct_witness :
  (ex_pal ex_vm = None ∧ pagedir_create ex_pal ex_init ex_vm = Ret (None, ex_vm)) ∨
  ∃ p s', pagedir_create ex_pal ex_init ex_vm = Ret (Some p, s') ∧ p ∉ ex_dirs.
Proof.
  destruct (pagedir_create_correct ex_pal ex_init ex_dirs ex_vm (mk_spaces ex_pd ∅) ex_pal_free ex_represents)
    as [H|(p & s' & H1 & H2 & _)]; [left; exact H|right]. exists p, s'. split; [exact H1|exact H2].
Defined.

(** The example with the kernel's own directory active. *)
Definition ex_idle : vm := mk_vm (tables ex_vm) (ex_init - PHYS_BASE) ∅ [].

Lemma ex_idle_represents : represents ex_init ex_dirs ex_idle (mk_spaces ex_init ∅).
Proof.
  destruct ex_represents as [[H1 H2 H3 H4 H5 H6 H7] H8 H9]. split; [by split|done|done].
Qed.

Lemma pagedir_destroy_correct_witness : ∃ s', pagedir_destroy ex_init (Some ex_pd) ex_idle = Ret (tt, s') ∧
  represents ex_init (ex_dirs ∖ {[ex_pd]}) s' (mk_spaces ex_init ∅).
Proof.
  destruct (pagedir_destroy_correct ex_init ex_dirs ex_idle (mk_spaces ex_init ∅) ex_pd zero_page) as (s' & H1 & _ & _ & H2).
  - exact ex_idle_represents.
  - unfold ex_dirs. set_solver.
  - discriminate.
  - discriminate.
  - reflexivity.
  - intros va e Hva Ht. rewrite zero_translate in Ht; [discriminate|reflexivity].
  - exists s'. split; [exact H1|exact H2].
Defined.
