(* ===== verification/ArgStack.v ===== *)
(** * Passing arguments to a program (userprog/process.c: [tokenize] and the
      stack [setup_stack] builds)

    The bytes are those the running thread sees at virtual addresses; [argv]
    and [argc] are the global variables of process.c.  A pointer into the
    kernel's stack (the local array [argv_addr]) never leaves the routine, so
    the array is a value of the model. *)
From S2P Require Import Prelude Vaddr KString KStringSpec.
Open Scope Z_scope.

Definition ARG_LIMIT : Z := 1024.

Record args := mk_args { bytes : mem; argv : list Z; argc : Z }.

Definition on_bytes {A} (f : cmd mem A) : cmd args A := λ g,
  match f (bytes g) with Ret (a, m) => Ret (a, mk_args m (argv g) (argc g)) | Err e => Err e end.

(** [argv[i]] and [argv[i] = p]. *)
Definition get_argv (i : Z) : cmd args Z := λ g,
  if i <? 0 then Err OutOfBounds else
  match argv g !! Z.to_nat i with Some p => Ret (p, g) | None => Err OutOfBounds end.
Definition set_argv (i p : Z) : cmd args unit := λ g,
  if (0 <=? i) && (i <? Z.of_nat (length (argv g)))
  then Ret (tt, mk_args (bytes g) (<[Z.to_nat i := p]> (argv g)) (argc g))
  else Err OutOfBounds.
Definition set_argc (n : Z) : cmd args unit := modify (λ g, mk_args (bytes g) (argv g) n).

(** ** [tokenize]
    [delim] is the address of the string of one space.  The loop makes at most
    [ARG_LIMIT] rounds. *)
Fixpoint tokenize_loop (fuel : nat) (delim file_name saveptr i : Z) : cmd args Z :=
  match fuel with
  | O => throw NoFuel
  | S fuel =>
      r ← on_bytes (strtok_r file_name delim saveptr);
      let token := r.1 in
      if token =? 0 then mret i else
      set_argv i token;;
      let i := i + 1 in
      if i =? ARG_LIMIT then mret i else tokenize_loop fuel delim 0 r.2 i
  end.

(** [saveptr]: what the local variable holds before the first call. *)
Definition tokenize (delim saveptr file_name : Z) : cmd args unit :=
  i ← tokenize_loop (Z.to_nat ARG_LIMIT) delim file_name saveptr 0;
  set_argv i 0;;
  set_argc i.

(** ** Building the stack *)
(** The bytes of a 32-bit word in memory. *)
Definition word_bytes (w : Z) : list Z :=
  [u32 w mod 256; u32 w / 2 ^ 8 mod 256; u32 w / 2 ^ 16 mod 256; u32 w / 2 ^ 24].
Fixpoint store_bytes (p : Z) (bs : list Z) : cmd mem unit :=
  match bs with [] => mret tt | b :: bs => store8 p b;; store_bytes (p + 1) bs end.
(** A word stored through [esp], by assignment or by a [memcpy] from a local. *)
Definition store32 (p w : Z) : cmd mem unit := store_bytes p (word_bytes w).

(** [*esp -= n]. *)
Definition down (esp n : Z) : Z := u32 (esp - n).

(** [for (k = argc - 1; k >= 0; k--)]: the strings, last one first; the result
    is the stack pointer and [argv_addr] from index [k] on. *)
Fixpoint push_strings (k : nat) (esp : Z) (argv_addr : list Z) : cmd args (Z * list Z) :=
  match k with
  | O => mret (esp, argv_addr)
  | S k =>
      arg ← get_argv (Z.of_nat k);
      n ← on_bytes (strlen arg);
      let len := n + 1 in
      let esp := down esp len in
      on_bytes (strlcpy esp arg len);;
      push_strings k esp (esp :: argv_addr)
  end.

(** [for (j = argc - 1; j >= 0; j--)]: their addresses. *)
Fixpoint push_addrs (j : nat) (argv_addr : list Z) (esp : Z) : cmd args Z :=
  match j with
  | O => mret esp
  | S j =>
      let esp := down esp 4 in
      match argv_addr !! j with
      | None => throw OutOfBounds
      | Some a => on_bytes (ASSERT (negb (esp =? 0));; store32 esp a);; push_addrs j argv_addr esp
      end
  end.

Definition word_align (esp : Z) : Z := if negb (esp mod 4 =? 0) then esp - esp mod 4 else esp.

(** The body of [if (success)] in [setup_stack]; the result is [*esp]. *)
Definition push_arguments : cmd args Z :=
  n ← gets argc;
  r ← push_strings (Z.to_nat n) PHYS_BASE [];
  let argv_addr := r.2 in
  let esp := word_align r.1 in
  let esp := down esp 4 in
  on_bytes (store32 esp 0);;
  esp ← push_addrs (Z.to_nat n) argv_addr esp;
  let ptr := esp in
  let esp := down esp 4 in
  on_bytes (ASSERT (negb (esp =? 0));; store32 esp ptr);;
  let esp := down esp 4 in
  on_bytes (store32 esp n);;
  let esp := down esp 4 in
  on_bytes (memset esp 0 4);;
  mret esp.

(** Correctness of argument passing: the words of a command line reach the new
    program's stack. *)

(** ** The monad of process.c's globals *)
Lemma on_bytes_bind {A B} (f : cmd mem A) (k : A → cmd args B) g a m :
  f (bytes g) = Ret (a, m) → (on_bytes f ≫= k) g = k a (mk_args m (argv g) (argc g)).
Proof. intros H. unfold on_bytes, mbind, cmd_bind. by rewrite H. Qed.

Lemma on_bytes_err {A B} (f : cmd mem A) (k : A → cmd args B) g e :
  f (bytes g) = Err e → (on_bytes f ≫= k) g = Err e.
Proof. intros H. unfold on_bytes, mbind, cmd_bind. by rewrite H. Qed.

Lemma get_argv_bind {A} (k : Z → cmd args A) g (i : nat) p :
  argv g !! i = Some p → (get_argv (Z.of_nat i) ≫= k) g = k p g.
Proof.
  intros H. unfold get_argv, mbind, cmd_bind. rewrite (proj2 (Z.ltb_ge _ _)) by lia. by rewrite Nat2Z.id, H.
Qed.

Lemma set_argv_bind {A} (k : unit → cmd args A) g (i : nat) p :
  (i < length (argv g))%nat →
  (set_argv (Z.of_nat i) p ≫= k) g = k tt (mk_args (bytes g) (<[i := p]> (argv g)) (argc g)).
Proof.
  intros H. unfold set_argv, mbind, cmd_bind. rewrite (proj2 (Z.leb_le _ _)), (proj2 (Z.ltb_lt _ _)) by lia.
  by rewrite Nat2Z.id.
Qed.

(** ** Splitting the command line *)
Lemma tokenize_loop_run fuel d ds m av ac p s s0 save i :
  cstr m d ds → cstr m p s → Forall byte s →
  d + Z.of_nat (length ds) < p ∨ p + Z.of_nat (length s) < d →
  (s0 = p ∨ s0 = 0 ∧ save = p) → length av = 1024%nat → (i < 1024)%nat → (1024 - i <= fuel)%nat →
  ∃ ps m', tokenize_loop fuel d s0 save (Z.of_nat i) (mk_args m av ac)
      = Ret (Z.of_nat (i + length ps), mk_args m' (take i av ++ ps ++ drop (i + length ps) av) ac) ∧
    Forall2 (cstr m') ps (take (1024 - i) (fields (in_str ds) s)) ∧
    Forall (λ q, p <= q <= p + Z.of_nat (length s)) ps ∧
    (∀ x, x < p ∨ p + Z.of_nat (length s) <= x → m' !! x = m !! x).
Proof.
  revert m av p s s0 save i. induction fuel as [|fuel IH];
    intros m av p s s0 save i Hds Hs Hb Hdis Hp Hav Hi Hf; [lia|].
  cbn [tokenize_loop]. destruct (decide (spn (in_str ds) s = length s)) as [En|Hne].
  { pose proof (strtok_r_run d ds m p s s0 save Hds Hs Hb Hp) as Hrun. rewrite decide_True in Hrun by done.
    rewrite (on_bytes_bind _ _ (mk_args m av ac) _ _ Hrun). exists [], m.
    rewrite fields_all_delims, take_nil by done. split_and!; [|constructor|constructor|done].
    cbn [fst bytes argv argc length app]. rewrite Nat.add_0_r, take_drop. done. }
  destruct (strtok_r_step d ds m p s s0 save Hds Hs Hb Hp Hne)
    as (m1 & p1 & Hrun1 & Htok & Hrest & He & Hend & Hag).
  pose proof (token_pos ds s Hne) as Hk0. assert (0 < p) by apply Hs.
  pose proof (spn_le (in_str ds) s) as Hn1.
  pose proof (spn_le (λ x, negb (in_str ds x)) (drop (spn (in_str ds) s) s)) as Hk1.
  rewrite length_drop in Hk1.
  set (n := spn (in_str ds) s) in *. set (k := spn (λ x, negb (in_str ds x)) (drop n s)) in *.
  rewrite (on_bytes_bind _ _ (mk_args m av ac) _ _ Hrun1). cbn [fst snd bytes argv argc].
  rewrite eqb_false by lia. rewrite set_argv_bind by (cbn [argv]; lia). cbn [bytes argv argc].
  assert (Hds1 : cstr m1 d ds) by (eapply cstr_agree; [|done]; intros x Hx; apply Hag; lia).
  assert (Efs : fields (in_str ds) s = take k (drop n s) :: fields (in_str ds) (drop (S (n + k)) s)).
  { rewrite fields_skip. fold n. rewrite fields_token by done. fold k.
    rewrite drop_drop. by replace (n + S k)%nat with (S (n + k)) by lia. }
  assert (Eav : take (S i) (<[i:=p + Z.of_nat n]> av) = take i av ++ [p + Z.of_nat n]).
  { rewrite (take_S_r _ _ (p + Z.of_nat n)) by (apply list_lookup_insert_eq; lia). by rewrite take_insert_ge by lia. }
  destruct (Z.eqb_spec (Z.of_nat i + 1) ARG_LIMIT) as [El|El]; unfold ARG_LIMIT in El.
  - exists [p + Z.of_nat n], m1. replace (1024 - i)%nat with 1%nat by lia. rewrite Efs. cbn [take]. rewrite take_0.
    split_and!; [|constructor; [done|constructor]|constructor; [lia|constructor]|done].
    cbn [length]. replace (Z.of_nat i + 1) with (Z.of_nat (i + 1)) by lia. unfold mret, cmd_ret. do 3 f_equal.
    rewrite <- (take_drop (S i) (<[i:=_]> av)), Eav, <- (assoc_L (++)). do 2 f_equal.
    rewrite drop_insert_lt by lia. by rewrite Nat.add_1_r.
  - destruct (IH m1 (<[i := p + Z.of_nat n]> av) p1 (drop (S (n + k)) s) 0 p1 (S i) Hds1 Hrest)
      as (ps & m2 & Hrun2 & Hall & Hps & Hag2);
      [by apply Forall_drop|rewrite length_drop; lia|by right|by rewrite length_insert|lia|lia|].
    rewrite length_drop in Hag2, Hps. replace (Z.of_nat i + 1) with (Z.of_nat (S i)) by lia.
    exists (p + Z.of_nat n :: ps), m2. split_and!.
    + rewrite Hrun2. cbn [length]. replace (S i + length ps)%nat with (i + S (length ps))%nat by lia.
      rewrite Eav, <- (assoc_L (++)), drop_insert_lt by lia. done.
    + rewrite Efs. replace (1024 - i)%nat with (S (1024 - S i)) by lia. cbn [take]. constructor; [|done].
      eapply cstr_agree; [|exact Htok]. intros x. rewrite length_take, length_drop. intros Hx. apply Hag2. lia.
    + constructor; [lia|]. eapply Forall_impl; [exact Hps|]. cbv beta. lia.
    + intros x Hx. rewrite Hag2 by lia. by apply Hag.
Qed.

(** ** Storing words *)
Lemma word_bytes_length w : length (word_bytes w) = 4%nat.
Proof. done. Qed.

Lemma store_bytes_run m p bs : mapped m p (length bs) → store_bytes p bs m = Ret (tt, write m p bs).
Proof.
  revert m p. induction bs as [|b bs IH]; intros m p Hm; [done|]. cbn [store_bytes write]. cbn [length] in Hm.
  rewrite store8_bind by (apply Hm; lia). rewrite IH; [|intros x Hx; rewrite lookup_insert_ne by lia; apply Hm; lia].
  by rewrite write_insert_comm by lia.
Qed.

Lemma store32_run m p w : mapped m p 4 → store32 p w m = Ret (tt, write m p (word_bytes w)).
Proof. apply (store_bytes_run m p (word_bytes w)). Qed.

Lemma store32_unmapped m p w : m !! p = None → store32 p w m = Err BadPtr.
Proof. intros H. unfold store32, word_bytes. cbn [store_bytes]. unfold store8, mbind, cmd_bind. by rewrite H. Qed.

Lemma mapped_write m q bs p n : mapped m p n → mapped (write m q bs) p n.
Proof.
  intros Hm x Hx. apply Hm in Hx. revert q. induction bs as [|b bs IH]; intros q; simpl; [done|].
  destruct (decide (q = x)) as [->|]; [by rewrite lookup_insert_eq; eexists|by rewrite lookup_insert_ne].
Qed.

Lemma mapped_sub m p n q k : mapped m p n → p <= q → q + Z.of_nat k <= p + Z.of_nat n → mapped m q k.
Proof. intros Hm H1 H2 x Hx. apply Hm. lia. Qed.

(** ** The size of the stack frame *)
Definition arg_size (s : list Z) : Z := Z.of_nat (length s) + 1.
Fixpoint args_size (ss : list (list Z)) : Z :=
  match ss with [] => 0 | s :: ss => arg_size s + args_size ss end.
(** Strings rounded up to a word, the null sentinel and the addresses, then
    [argv], [argc] and the return address. *)
Definition frame_size (ss : list (list Z)) : Z :=
  ROUND_UP (args_size ss) 4 + 4 * (Z.of_nat (length ss) + 1) + 12.

Lemma args_size_nonneg ss : 0 <= args_size ss.
Proof. induction ss as [|s ss IH]; simpl; [lia|]. unfold arg_size. lia. Qed.

Lemma args_size_app ss ts : args_size (ss ++ ts) = args_size ss + args_size ts.
Proof. induction ss as [|s ss IH]; simpl; lia. Qed.

Lemma args_size_take_S ss k s :
  ss !! k = Some s → args_size (take (S k) ss) = args_size (take k ss) + arg_size s.
Proof. intros H. rewrite (take_S_r _ _ _ H), args_size_app. simpl. lia. Qed.

(** The strings of [argv] are kernel memory; the stack is the page below. *)
Definition STACK : Z := PHYS_BASE - PGSIZE.
Ltac consts := unfold STACK, PHYS_BASE in *; change PGSIZE with 4096 in *.

Section push.
Context (av : list Z) (ac : Z) (ps : list Z) (ss : list (list Z)).
Context (Hav : ∀ i p, ps !! i = Some p → av !! i = Some p) (Hlen : length ps = length ss).
Context (Hk : Forall (λ p, PHYS_BASE <= p) ps).

(** Strings are kernel memory, which the pushes leave alone. *)
Definition strings_ok (m : mem) : Prop := Forall2 (cstr m) ps ss.

Lemma strings_ok_agree m m' : (∀ x, PHYS_BASE <= x → m' !! x = m !! x) → strings_ok m → strings_ok m'.
Proof using Hk.
  unfold strings_ok. intros Ha H. clear Hav Hlen. induction H as [|p s ps' ss' Hc _ IH]; [constructor|].
  apply Forall_cons in Hk as [Hp Hk']. constructor; [|by apply IH].
  eapply cstr_agree; [|exact Hc]. intros x Hx. apply Ha. lia.
Qed.

Lemma push_string_run m esp k p s :
  strings_ok m → mapped m STACK (Z.to_nat PGSIZE) → ps !! k = Some p → ss !! k = Some s →
  esp <= PHYS_BASE → STACK <= esp - arg_size s →
  ∃ m', strlen p m = Ret (Z.of_nat (length s), m) ∧
    strlcpy (down esp (Z.of_nat (length s) + 1)) p (Z.of_nat (length s) + 1) m = Ret (Z.of_nat (length s), m') ∧
    down esp (Z.of_nat (length s) + 1) = esp - arg_size s ∧
    cstr m' (esp - arg_size s) s ∧ mapped m' STACK (Z.to_nat PGSIZE) ∧
    (∀ x, x < esp - arg_size s ∨ esp <= x → m' !! x = m !! x).
Proof using Hk.
  clear Hlen Hav. intros Hss Hm Hp Hs Hesp Hlo. unfold arg_size in *. consts.
  assert (Hc : cstr m p s) by (eapply Forall2_lookup_lr; [exact Hss|done|done]).
  assert (Hpk : 0xc0000000 <= p) by (eapply Forall_lookup_1 in Hk; [|done]; exact Hk).
  assert (Hd : down esp (Z.of_nat (length s) + 1) = esp - (Z.of_nat (length s) + 1)).
  { unfold down. apply u32_small. lia. }
  destruct (strlcpy_run m (esp - (Z.of_nat (length s) + 1)) p s (Z.of_nat (length s) + 1) Hc) as (m' & Hrun & Hcs & Hag).
  - lia.
  - eapply mapped_sub; [exact Hm|lia|lia].
  - lia.
  - lia.
  - exists m'. rewrite Hd. split_and!; [by apply strlen_run|done|done| | |].
    + by rewrite take_ge in Hcs by lia.
    + intros x Hx. destruct (decide (x < esp - (Z.of_nat (length s) + 1) ∨ esp <= x)) as [Ho|Hi].
      * rewrite Hag by lia. by apply Hm.
      * destruct Hcs as (_ & _ & Hb). apply bytes_at_mapped in Hb. apply Hb. rewrite length_app. simpl.
        rewrite take_ge by lia. lia.
    + intros x Hx. apply Hag. lia.
Qed.

Lemma push_strings_run k m esp addrs :
  (k <= length ss)%nat → strings_ok m → mapped m STACK (Z.to_nat PGSIZE) → esp <= PHYS_BASE →
  STACK <= esp - args_size (take k ss) →
  ∃ m' new, push_strings k esp addrs (mk_args m av ac)
      = Ret ((esp - args_size (take k ss), new ++ addrs), mk_args m' av ac) ∧
    Forall2 (cstr m') new (take k ss) ∧ mapped m' STACK (Z.to_nat PGSIZE) ∧
    Forall (λ q, esp - args_size (take k ss) <= q < esp) new ∧
    (∀ x, x < esp - args_size (take k ss) ∨ esp <= x → m' !! x = m !! x).
Proof using Hav Hlen Hk.
  revert m esp addrs. induction k as [|k IH]; intros m esp addrs Hkl Hss Hm Hesp Hlo.
  { exists m, []. cbn [push_strings take args_size]. rewrite Z.sub_0_r. by split_and!; [|constructor| |constructor|]. }
  destruct (lookup_lt_is_Some_2 ss k ltac:(lia)) as [s Hs]. destruct (lookup_lt_is_Some_2 ps k ltac:(lia)) as [p Hp].
  rewrite (args_size_take_S _ _ _ Hs) in *. pose proof (args_size_nonneg (take k ss)) as Hnn.
  destruct (push_string_run m esp k p s Hss Hm Hp Hs Hesp ltac:(lia)) as (m1 & Hln & Hcp & Hd & Hc & Hm1 & Hag).
  assert (Hs0 : 0 < arg_size s) by (unfold arg_size; lia).
  assert (Hss1 : strings_ok m1) by (eapply strings_ok_agree; [|exact Hss]; intros x Hx; apply Hag; lia).
  destruct (IH m1 (esp - arg_size s) ((esp - arg_size s) :: addrs) ltac:(lia) Hss1 Hm1 ltac:(lia) ltac:(lia))
    as (m2 & new & Hrun & Hf & Hm2 & Hin & Hag2).
  exists m2, (new ++ [esp - arg_size s]). split_and!.
  - cbn [push_strings]. rewrite (get_argv_bind _ (mk_args m av ac) k p) by by apply Hav.
    rewrite (on_bytes_bind _ _ (mk_args m av ac) _ _ Hln). cbn [bytes argv argc]. cbv zeta.
    rewrite (on_bytes_bind _ _ (mk_args m av ac) _ _ Hcp), Hd. cbn [bytes argv argc]. rewrite Hrun.
    rewrite <- (assoc_L (++)). do 3 f_equal. lia.
  - rewrite (take_S_r _ _ _ Hs). apply Forall2_app; [done|]. constructor; [|constructor].
    eapply cstr_agree; [|exact Hc]. intros x Hx. apply Hag2. lia.
  - done.
  - apply Forall_app. split; [|repeat constructor; lia]. eapply Forall_impl; [exact Hin|]. cbv beta. lia.
  - intros x Hx. rewrite Hag2 by lia. apply Hag. lia.
Qed.
End push.

(** The addresses, lowest last: [argv[0]] ends up at the stack pointer. *)
Lemma push_addrs_run j m av ac addrs esp :
  (j <= length addrs)%nat → mapped m STACK (Z.to_nat PGSIZE) → esp <= PHYS_BASE →
  STACK <= esp - 4 * Z.of_nat j →
  ∃ m', push_addrs j addrs esp (mk_args m av ac) = Ret (esp - 4 * Z.of_nat j, mk_args m' av ac) ∧
    (∀ i a, (i < j)%nat → addrs !! i = Some a → bytes_at m' (esp - 4 * Z.of_nat (j - i)) (word_bytes a)) ∧
    mapped m' STACK (Z.to_nat PGSIZE) ∧
    (∀ x, x < esp - 4 * Z.of_nat j ∨ esp <= x → m' !! x = m !! x).
Proof.
  revert m esp. induction j as [|j IH]; intros m esp Hj Hm Hesp Hlo.
  { exists m. cbn [push_addrs]. rewrite Z.mul_0_r, Z.sub_0_r. split_and!; [done|lia|done|done]. }
  destruct (lookup_lt_is_Some_2 addrs j ltac:(lia)) as [a Ha]. cbn [push_addrs]. rewrite Ha.
  assert (Hd : down esp 4 = esp - 4) by (unfold down; consts; apply u32_small; lia).
  assert (Hst : (ASSERT (negb (down esp 4 =? 0));; store32 (down esp 4) a) m = Ret (tt, write m (esp - 4) (word_bytes a))).
  { rewrite Hd, ASSERT_bind by (rewrite eqb_false; [done|consts; lia]).
    apply store32_run. eapply mapped_sub; [exact Hm|consts; lia|consts; lia]. }
  rewrite (on_bytes_bind _ _ (mk_args m av ac) _ _ Hst), Hd. cbn [bytes argv argc].
  destruct (IH (write m (esp - 4) (word_bytes a)) (esp - 4)) as (m' & Hrun & Hws & Hm' & Hag);
    [lia|by apply mapped_write|lia|lia|].
  exists m'. split_and!.
  - rewrite Hrun. do 2 f_equal. lia.
  - intros i b Hi Hb. destruct (decide (i = j)) as [->|Hne].
    + assert (b = a) as -> by congruence. replace (S j - j)%nat with 1%nat by lia.
      eapply bytes_at_agree; [|apply bytes_at_write]. intros x Hx. rewrite word_bytes_length in Hx. apply Hag. lia.
    + replace (esp - 4 * Z.of_nat (S j - i)) with (esp - 4 - 4 * Z.of_nat (j - i)) by lia. apply Hws; [lia|done].
  - done.
  - intros x Hx. rewrite Hag by lia. apply write_lookup_out. rewrite word_bytes_length. lia.
Qed.

(** ** The stack a program starts with *)
Definition word_at (m : mem) (p w : Z) : Prop := bytes_at m p (word_bytes w).

(** What [main (argc, argv)] finds at the stack pointer. *)
Record main_frame (m : mem) (esp : Z) (ss : list (list Z)) : Prop := {
  mf_align : esp mod 4 = 0;
  mf_range : STACK <= esp < PHYS_BASE;
  mf_return : word_at m esp 0;
  mf_argc : word_at m (esp + 4) (Z.of_nat (length ss));
  mf_argv : word_at m (esp + 8) (esp + 12);
  mf_arg : ∀ i s, ss !! i = Some s →
    ∃ a, word_at m (esp + 12 + 4 * Z.of_nat i) a ∧ esp < a < PHYS_BASE ∧ cstr m a s;
  mf_null : word_at m (esp + 12 + 4 * Z.of_nat (length ss)) 0 }.

Lemma word_align_run L : 0 <= L → word_align (PHYS_BASE - L) = PHYS_BASE - ROUND_UP L 4.
Proof.
  intros HL. unfold word_align, ROUND_UP, DIV_ROUND_UP, PHYS_BASE.
  destruct (Z.eqb_spec ((0xc0000000 - L) mod 4) 0); simpl; Z.div_mod_to_equations; lia.
Qed.

Lemma round_up_4 L : 0 <= L → L <= ROUND_UP L 4 < L + 4 ∧ ROUND_UP L 4 mod 4 = 0.
Proof. intros HL. unfold ROUND_UP, DIV_ROUND_UP. split; Z.div_mod_to_equations; lia. Qed.

Lemma down_run esp n : 0 <= n → STACK <= esp - n → esp <= PHYS_BASE → down esp n = esp - n.
Proof. intros. unfold down. consts. apply u32_small. lia. Qed.

Lemma word_at_agree m m' p w : (∀ x, p <= x < p + 4 → m' !! x = m !! x) → word_at m p w → word_at m' p w.
Proof. intros Ha. apply bytes_at_agree. intros x Hx. apply Ha. rewrite word_bytes_length in Hx. lia. Qed.

Lemma mapped4 m p : mapped m STACK (Z.to_nat PGSIZE) → STACK <= p → p + 4 <= PHYS_BASE → mapped m p 4.
Proof. intros Hm H1 H2. eapply mapped_sub; [exact Hm|lia|consts; lia]. Qed.

Lemma write_word_out m p w x : x < p ∨ p + 4 <= x → write m p (word_bytes w) !! x = m !! x.
Proof. intros Hx. apply write_lookup_out. by rewrite word_bytes_length. Qed.

(** The last three words: [argv], [argc] and the return address. *)
Lemma push_tail_run m av n e :
  mapped m STACK (Z.to_nat PGSIZE) → STACK <= e - 12 → e <= PHYS_BASE →
  ∃ m', (on_bytes (ASSERT (negb (down e 4 =? 0));; store32 (down e 4) e);;
     on_bytes (store32 (down (down e 4) 4) n);;
     on_bytes (memset (down (down (down e 4) 4) 4) 0 4);;
     mret (down (down (down e 4) 4) 4)) (mk_args m av n) = Ret (e - 12, mk_args m' av n) ∧
    word_at m' (e - 12) 0 ∧ word_at m' (e - 8) n ∧ word_at m' (e - 4) e ∧
    ∀ x, x < e - 12 ∨ e <= x → m' !! x = m !! x.
Proof.
  intros Hm He1 He2. rewrite (down_run e), (down_run (e - 4)), (down_run (e - 4 - 4)) by lia.
  replace (e - 4 - 4 - 4) with (e - 12) by lia. replace (e - 4 - 4) with (e - 8) by lia.
  set (m4 := write m (e - 4) (word_bytes e)). set (m5 := write m4 (e - 8) (word_bytes n)).
  set (m6 := write m5 (e - 12) (word_bytes 0)).
  assert (Hst6 : memset (e - 12) 0 4 m5 = Ret (e - 12, m6)).
  { unfold memset. rewrite ASSERT_bind by (apply nonnull_or_empty; consts; lia). change (u8 0) with 0.
    rewrite (bind_Ret _ _ _ _ _ (memset_run 4 m5 (e - 12) 0 ltac:(apply mapped4; [by repeat apply mapped_write|lia|lia]))). done. }
  exists m6. split_and!.
  - erewrite on_bytes_bind; [|rewrite ASSERT_bind by (rewrite eqb_false; [done|consts; lia]);
      apply store32_run, mapped4; [done|lia|lia]].
    erewrite on_bytes_bind; [|apply store32_run, mapped4; [by apply mapped_write|lia|lia]].
    by erewrite on_bytes_bind; [|exact Hst6].
  - apply bytes_at_write.
  - apply (word_at_agree m5); [|apply bytes_at_write]. intros x Hx. apply write_word_out. lia.
  - apply (word_at_agree m4); [|apply bytes_at_write]. intros x Hx. unfold m6, m5. by rewrite !write_word_out by lia.
  - intros x Hx. unfold m6, m5, m4. by rewrite !write_word_out by lia.
Qed.

Lemma push_arguments_run m av ps ss :
  (∀ i p, ps !! i = Some p → av !! i = Some p) → Forall (λ p, PHYS_BASE <= p) ps →
  Forall2 (cstr m) ps ss → mapped m STACK (Z.to_nat PGSIZE) → frame_size ss <= PGSIZE →
  ∃ m', push_arguments (mk_args m av (Z.of_nat (length ss)))
      = Ret (PHYS_BASE - frame_size ss, mk_args m' av (Z.of_nat (length ss))) ∧
    main_frame m' (PHYS_BASE - frame_size ss) ss ∧
    (∀ x, x < STACK ∨ PHYS_BASE <= x → m' !! x = m !! x).
Proof.
  intros Hav Hk Hss Hm Hfit. pose proof (Forall2_length _ _ _ Hss) as Hlen. set (n := length ss) in *.
  pose proof (args_size_nonneg ss) as Hnn. destruct (round_up_4 (args_size ss) Hnn) as [Hru Hr4].
  assert (Hfs : frame_size ss = ROUND_UP (args_size ss) 4 + 4 * (Z.of_nat n + 1) + 12) by done.
  pose proof (word_align_run (args_size ss) Hnn) as Hal. set (R := ROUND_UP (args_size ss) 4) in *.
  assert (Htk : take n ss = ss) by (apply take_ge; lia). assert (HST : STACK = PHYS_BASE - PGSIZE) by done.
  destruct (push_strings_run av (Z.of_nat n) ps ss Hav Hlen Hk n m PHYS_BASE [] ltac:(lia) Hss Hm ltac:(lia)
              ltac:(rewrite Htk; lia)) as (m1 & new & Hrun1 & Hf1 & Hm1 & Hin1 & Hag1).
  rewrite Htk in *. rewrite app_nil_r in Hrun1. pose proof (Forall2_length _ _ _ Hf1) as Hnl. fold n in Hnl.
  set (e0 := PHYS_BASE - R) in *. set (m2 := write m1 (e0 - 4) (word_bytes 0)).
  assert (Hm2 : mapped m2 STACK (Z.to_nat PGSIZE)) by by apply mapped_write.
  destruct (push_addrs_run n m2 av (Z.of_nat n) new (e0 - 4) ltac:(lia) Hm2 ltac:(lia) ltac:(lia))
    as (m3 & Hrun3 & Hws3 & Hm3 & Hag3).
  set (e3 := e0 - 4 - 4 * Z.of_nat n) in *.
  destruct (push_tail_run m3 av (Z.of_nat n) e3 Hm3 ltac:(lia) ltac:(lia)) as (m6 & Hrun6 & Hret & Hac & Hargv & Hag6).
  assert (He : PHYS_BASE - frame_size ss = e3 - 12) by lia. exists m6. rewrite He. split_and!.
  - unfold push_arguments. rewrite gets_bind. cbn [argc]. rewrite Nat2Z.id.
    rewrite (bind_Ret _ _ _ _ _ Hrun1). cbn [fst snd]. cbv zeta. rewrite Hal, (down_run e0) by lia.
    erewrite on_bytes_bind; [|apply store32_run, mapped4; [done|lia|lia]]. cbn [bytes argv argc]. fold m2.
    rewrite (bind_Ret _ _ _ _ _ Hrun3). exact Hrun6.
  - split.
    + unfold e3, e0, PHYS_BASE. Z.div_mod_to_equations. lia.
    + lia.
    + done.
    + by replace (e3 - 12 + 4) with (e3 - 8) by lia.
    + replace (e3 - 12 + 8) with (e3 - 4) by lia. by replace (e3 - 12 + 12) with e3 by lia.
    + intros i s Hs. destruct (lookup_lt_is_Some_2 new i) as [a Ha]; [rewrite Hnl; by eapply lookup_lt_Some|].
      pose proof (lookup_lt_Some _ _ _ Hs) as Hi. pose proof (Forall_lookup_1 _ _ _ _ Hin1 Ha) as Hra. cbv beta in Hra.
      exists a. split_and!; [|lia|lia|].
      * eapply word_at_agree; [intros x Hx; apply Hag6; lia|].
        replace (e3 - 12 + 12 + 4 * Z.of_nat i) with (e0 - 4 - 4 * Z.of_nat (n - i)) by lia. apply Hws3; [lia|done].
      * apply (cstr_agree m1); [|eapply Forall2_lookup_lr; [exact Hf1|done|done]].
        intros x Hx. rewrite Hag6, Hag3 by lia. apply write_word_out. lia.
    + fold n. replace (e3 - 12 + 12 + 4 * Z.of_nat n) with (e0 - 4) by lia.
      apply (word_at_agree m2); [|apply bytes_at_write]. intros x Hx. by rewrite Hag6, Hag3 by lia.
  - intros x Hx. rewrite Hag6, Hag3 by lia. unfold m2. rewrite write_word_out by lia. apply Hag1. lia.
Qed.

(** ** A frame that does not fit
    The page below the stack is not mapped: the first byte stored there is a
    page fault in the kernel. *)
Definition no_page_below (m : mem) : Prop := ∀ x, STACK - PGSIZE <= x < STACK → m !! x = None.

Lemma strlcpy_unmapped m dst src s :
  cstr m src s → m !! dst = None → 0 < dst → strlcpy dst src (Z.of_nat (length s) + 1) m = Err BadPtr.
Proof.
  intros Hc Hd Hp. assert (0 < src) by apply Hc. unfold strlcpy. rewrite !ASSERT_bind by by rewrite eqb_false by lia.
  rewrite (bind_Ret _ _ _ _ _ (strlen_run m src s Hc)), (proj2 (Z.ltb_lt 0 _)) by lia. cbv zeta.
  rewrite (proj2 (Z.ltb_ge _ _)) by lia. replace (Z.of_nat (length s) + 1 - 1) with (Z.of_nat (length s)) by lia.
  rewrite Nat2Z.id. unfold memcpy. destruct s as [|c s].
  - cbn [length copy_up]. rewrite Z.add_0_r, !orb_true_r. unfold mbind, cmd_bind, store8. cbn. by rewrite Hd.
  - destruct Hc as (_ & _ & Hb & _). cbn [length copy_up Nat.eqb]. rewrite !orb_false_r.
    unfold mbind, cmd_bind, load8, store8. cbn [app] in Hb.
    unfold ASSERT. rewrite !eqb_false by lia. cbn [negb]. unfold mret, cmd_ret. by rewrite Hb, Hd.
Qed.

Lemma push_strings_fault av ac ps ss k m esp addrs :
  (∀ i p, ps !! i = Some p → av !! i = Some p) → Forall (λ p, PHYS_BASE <= p) ps →
  strings_ok ps ss m → mapped m STACK (Z.to_nat PGSIZE) → no_page_below m → Forall (λ s, arg_size s <= PGSIZE) ss →
  (k <= length ss)%nat → STACK <= esp <= PHYS_BASE → esp - args_size (take k ss) < STACK →
  push_strings k esp addrs (mk_args m av ac) = Err BadPtr.
Proof.
  intros Hav Hk Hss Hm Hno Hsz. pose proof (Forall2_length _ _ _ Hss) as Hlen.
  revert m esp addrs Hss Hm Hno. induction k as [|k IH]; intros m esp addrs Hss Hm Hno Hkl Hesp Hlo.
  { rewrite take_0 in Hlo. cbn [args_size] in Hlo. lia. }
  destruct (lookup_lt_is_Some_2 ss k ltac:(lia)) as [s Hs]. destruct (lookup_lt_is_Some_2 ps k ltac:(lia)) as [p Hp].
  rewrite (args_size_take_S _ _ _ Hs) in Hlo. cbn [push_strings].
  rewrite (get_argv_bind _ (mk_args m av ac) k p) by by apply Hav.
  assert (Hc : cstr m p s) by (eapply Forall2_lookup_lr; [exact Hss|done|done]).
  assert (Hs0 : 0 < arg_size s <= PGSIZE) by (split; [unfold arg_size; lia|by eapply Forall_lookup_1 in Hsz]).
  destruct (decide (STACK <= esp - arg_size s)) as [Hfit|Hout].
  - destruct (push_string_run ps ss Hk m esp k p s Hss Hm Hp Hs ltac:(lia) Hfit)
      as (m1 & Hln & Hcp & Hd & Hcs & Hm1 & Hag).
    rewrite (on_bytes_bind _ _ (mk_args m av ac) _ _ Hln). cbn [bytes argv argc]. cbv zeta.
    rewrite (on_bytes_bind _ _ (mk_args m av ac) _ _ Hcp), Hd. cbn [bytes argv argc]. apply IH; try lia.
    + eapply strings_ok_agree; [done| |exact Hss]. intros x Hx. apply Hag. lia.
    + done.
    + intros x Hx. rewrite Hag by lia. by apply Hno.
  - rewrite (on_bytes_bind _ _ (mk_args m av ac) _ _ (strlen_run m p s Hc)). cbn [bytes argv argc]. cbv zeta.
    assert (Hd : down esp (Z.of_nat (length s) + 1) = esp - arg_size s).
    { unfold down, arg_size in *. consts. apply u32_small. lia. }
    rewrite Hd. apply on_bytes_err, strlcpy_unmapped; [done|apply Hno; lia|consts; lia].
Qed.

Lemma push_addrs_fault j m av ac addrs esp :
  (j <= length addrs)%nat → mapped m STACK (Z.to_nat PGSIZE) → no_page_below m → STACK <= esp <= PHYS_BASE →
  esp mod 4 = 0 → esp - 4 * Z.of_nat j < STACK → push_addrs j addrs esp (mk_args m av ac) = Err BadPtr.
Proof.
  revert m esp. induction j as [|j IH]; intros m esp Hj Hm Hno Hesp H4 Hlo; [lia|].
  destruct (lookup_lt_is_Some_2 addrs j ltac:(lia)) as [a Ha]. cbn [push_addrs]. rewrite Ha.
  assert (Hd : down esp 4 = esp - 4) by (unfold down; consts; apply u32_small; lia). rewrite Hd.
  assert (HA : negb (esp - 4 =? 0) = true) by (rewrite eqb_false; [done|consts; lia]).
  destruct (decide (STACK <= esp - 4)) as [Hfit|Hout].
  - erewrite on_bytes_bind; [|rewrite ASSERT_bind by done; apply store32_run;
      eapply mapped_sub; [exact Hm|lia|consts; lia]]. cbn [bytes argv argc]. apply IH.
    + lia.
    + by apply mapped_write.
    + intros x Hx. rewrite write_word_out by lia. by apply Hno.
    + lia.
    + Z.div_mod_to_equations. lia.
    + lia.
  - apply on_bytes_err. rewrite ASSERT_bind by done. apply store32_unmapped, Hno. consts. lia.
Qed.

(** The remaining words: [argv], [argc] and the return address. *)
Lemma push_tail_fault m av n e3 :
  mapped m STACK (Z.to_nat PGSIZE) → no_page_below m → STACK <= e3 <= PHYS_BASE → e3 mod 4 = 0 → e3 - 12 < STACK →
  (on_bytes (ASSERT (negb (down e3 4 =? 0));; store32 (down e3 4) e3);;
   on_bytes (store32 (down (down e3 4) 4) n);;
   on_bytes (memset (down (down (down e3 4) 4) 4) 0 4);;
   mret (down (down (down e3 4) 4) 4)) (mk_args m av n) = Err BadPtr.
Proof.
  intros Hm Hno He H4 Hlo.
  assert (H1 : down e3 4 = e3 - 4) by (unfold down; consts; apply u32_small; lia).
  assert (H2 : down (e3 - 4) 4 = e3 - 8) by (unfold down; consts; rewrite u32_small; lia).
  assert (H3 : down (e3 - 8) 4 = e3 - 12) by (unfold down; consts; rewrite u32_small; lia).
  rewrite H1, H2, H3. assert (HA : negb (e3 - 4 =? 0) = true) by (rewrite eqb_false; [done|consts; lia]).
  destruct (decide (STACK <= e3 - 4)) as [F1|N1].
  2:{ apply on_bytes_err. rewrite ASSERT_bind by done. apply store32_unmapped, Hno. consts. lia. }
  erewrite on_bytes_bind; [|rewrite ASSERT_bind by done; apply store32_run;
    eapply mapped_sub; [exact Hm|lia|consts; lia]]. cbn [bytes argv argc].
  set (m4 := write m (e3 - 4) (word_bytes e3)). assert (Hno4 : no_page_below m4).
  { intros x Hx. unfold m4. rewrite write_word_out by lia. by apply Hno. }
  destruct (decide (STACK <= e3 - 8)) as [F2|N2].
  2:{ apply on_bytes_err, store32_unmapped, Hno4. consts. lia. }
  erewrite on_bytes_bind; [|apply store32_run; eapply mapped_sub; [apply mapped_write; exact Hm|lia|consts; lia]].
  apply on_bytes_err. cbn [bytes]. unfold memset. rewrite ASSERT_bind by (apply nonnull_or_empty; consts; lia).
  unfold mbind at 1, cmd_bind at 1. cbn [memset_loop]. unfold mbind at 1, cmd_bind at 1, store8.
  rewrite write_word_out by lia. rewrite Hno4; [done|]. consts. lia.
Qed.

Lemma push_arguments_fault m av ps ss :
  (∀ i p, ps !! i = Some p → av !! i = Some p) → Forall (λ p, PHYS_BASE <= p) ps →
  Forall2 (cstr m) ps ss → mapped m STACK (Z.to_nat PGSIZE) → no_page_below m →
  Forall (λ s, arg_size s <= PGSIZE) ss → PGSIZE < frame_size ss →
  push_arguments (mk_args m av (Z.of_nat (length ss))) = Err BadPtr.
Proof.
  intros Hav Hk Hss Hm Hno Hsz Hbig. pose proof (Forall2_length _ _ _ Hss) as Hlen. set (n := length ss) in *.
  pose proof (args_size_nonneg ss) as Hnn. destruct (round_up_4 (args_size ss) Hnn) as [Hru Hr4].
  assert (Hfs : frame_size ss = ROUND_UP (args_size ss) 4 + 4 * (Z.of_nat n + 1) + 12) by done.
  pose proof (word_align_run (args_size ss) Hnn) as Hal. set (R := ROUND_UP (args_size ss) 4) in *.
  assert (Htk : take n ss = ss) by (apply take_ge; lia). assert (HST : STACK = PHYS_BASE - PGSIZE) by done.
  unfold push_arguments. rewrite gets_bind. cbn [argc]. rewrite Nat2Z.id.
  destruct (decide (STACK <= PHYS_BASE - args_size ss)) as [F1|N1].
  2:{ unfold mbind at 1, cmd_bind at 1. rewrite (push_strings_fault av (Z.of_nat n) ps ss); try done; rewrite ?Htk; lia. }
  destruct (push_strings_run av (Z.of_nat n) ps ss Hav Hlen Hk n m PHYS_BASE [] ltac:(lia) Hss Hm ltac:(lia)
              ltac:(rewrite Htk; lia)) as (m1 & new & Hrun1 & Hf1 & Hm1 & _ & Hag1).
  rewrite Htk in *. rewrite app_nil_r in Hrun1. pose proof (Forall2_length _ _ _ Hf1) as Hnl. fold n in Hnl.
  rewrite (bind_Ret _ _ _ _ _ Hrun1). cbn [fst snd]. cbv zeta. rewrite Hal.
  set (e0 := PHYS_BASE - R) in *.
  assert (He0 : STACK <= e0 ∧ e0 mod 4 = 0) by (unfold e0; consts; Z.div_mod_to_equations; lia).
  assert (Hno1 : no_page_below m1) by (intros x Hx; rewrite Hag1 by lia; by apply Hno).
  assert (Hd0 : down e0 4 = e0 - 4) by (unfold down; consts; apply u32_small; lia). rewrite Hd0.
  destruct (decide (STACK <= e0 - 4)) as [F2|N2].
  2:{ apply on_bytes_err, store32_unmapped, Hno1. consts. lia. }
  erewrite on_bytes_bind; [|apply store32_run; eapply mapped_sub; [exact Hm1|lia|consts; lia]]. cbn [bytes argv argc].
  set (m2 := write m1 (e0 - 4) (word_bytes 0)).
  assert (Hm2 : mapped m2 STACK (Z.to_nat PGSIZE)) by by apply mapped_write.
  assert (Hno2 : no_page_below m2).
  { intros x Hx. unfold m2. rewrite write_word_out by lia. by apply Hno1. }
  destruct (decide (STACK <= e0 - 4 - 4 * Z.of_nat n)) as [F3|N3].
  2:{ unfold mbind at 1, cmd_bind at 1. rewrite push_addrs_fault; try done; try lia. Z.div_mod_to_equations; lia. }
  destruct (push_addrs_run n m2 av (Z.of_nat n) new (e0 - 4) ltac:(lia) Hm2 ltac:(lia) F3)
    as (m3 & Hrun3 & _ & Hm3 & Hag3).
  rewrite (bind_Ret _ _ _ _ _ Hrun3). apply push_tail_fault; [done| |lia|Z.div_mod_to_equations; lia|lia].
  intros x Hx. rewrite Hag3 by lia. by apply Hno2.
Qed.

(** ** From the command line to the program's stack *)
Lemma split_on_length D s w : w ∈ split_on D s → (length w <= length s)%nat.
Proof.
  revert w. induction s as [|c s IH]; intros w; simpl.
  - rewrite list_elem_of_singleton. by intros ->.
  - destruct (D c); [rewrite elem_of_cons; intros [->|H%IH]; simpl; lia|].
    destruct (split_on D s) as [|w0 ws]; [rewrite list_elem_of_singleton; intros ->; simpl; lia|].
    rewrite elem_of_cons. intros [->|H].
    + specialize (IH w0 (list_elem_of_here _ _)). simpl. lia.
    + specialize (IH w (list_elem_of_further _ _ _ H)). lia.
Qed.

Lemma fields_length D s : Forall (λ w, (length w <= length s)%nat) (fields D s).
Proof.
  apply Forall_forall. intros w Hw. unfold fields in Hw. apply list_elem_of_filter in Hw as [_ Hw].
  by eapply split_on_length.
Qed.

(** The words of a command line. *)
Definition words (s : list Z) : list (list Z) := fields (in_str [32]) s.

Lemma lookup_front {A} (ps : list A) v tl i p : ps !! i = Some p → (ps ++ v :: tl) !! i = Some p.
Proof. intros H. rewrite lookup_app_l; [done|]. by eapply lookup_lt_Some. Qed.

(** [tokenize] fills [argv] with one string per word and a null pointer, or
    runs over the end of the array. *)
Lemma tokenize_words m d p s av ac save :
  cstr m d [32] → cstr m p s → Forall byte s → d + 1 < p ∨ p + Z.of_nat (length s) < d → length av = 1024%nat →
  if decide (length (words s) < 1024)%nat then
    ∃ ps m', ArgStack.tokenize d save p (mk_args m av ac)
        = Ret (tt, mk_args m' (ps ++ 0 :: drop (S (length ps)) av) (Z.of_nat (length (words s)))) ∧
      Forall2 (cstr m') ps (words s) ∧ Forall (λ q, p <= q) ps ∧
      (∀ x, x < p ∨ p + Z.of_nat (length s) <= x → m' !! x = m !! x)
  else ArgStack.tokenize d save p (mk_args m av ac) = Err OutOfBounds.
Proof.
  intros Hd Hs Hb Hdis Hav. unfold ArgStack.tokenize.
  destruct (tokenize_loop_run (Z.to_nat ARG_LIMIT) d [32] m av ac p s p save 0) as (ps & m' & Hrun & Hf & Hps & Hag);
    [done|done|done|cbn [length]; lia|by left|done|lia|unfold ARG_LIMIT; lia|].
  rewrite (bind_Ret _ _ _ _ _ Hrun). fold (words s) in Hf. rewrite Nat.sub_0_r in Hf.
  pose proof (Forall2_length _ _ _ Hf) as Hlen. rewrite length_take in Hlen. rewrite take_0, Nat.add_0_l, app_nil_l.
  destruct (decide (length (words s) < 1024)%nat) as [Hlt|Hge].
  - assert (Hpl : length ps = length (words s)) by lia. rewrite take_ge in Hf by lia.
    exists ps, m'. rewrite set_argv_bind by (cbn [argv]; rewrite length_app, length_drop; lia).
    split_and!; [|done|eapply Forall_impl; [exact Hps|]; cbv beta; lia|done].
    unfold set_argc, modify. cbn [bytes argv argc]. rewrite Hpl. do 3 f_equal.
    rewrite insert_app_r_alt by lia. f_equal. replace (length (words s) - length ps)%nat with 0%nat by lia.
    destruct (lookup_lt_is_Some_2 av (length (words s)) ltac:(lia)) as [v Hv].
    by rewrite (drop_S _ _ _ Hv).
  - assert (length ps = 1024%nat) as Hpl by lia. unfold set_argv, mbind, cmd_bind. cbn [argv].
    rewrite length_app, length_drop. rewrite (proj2 (Z.ltb_ge _ _)) by lia. by rewrite andb_false_r.
Qed.

(** The memory the new process sees: the kernel's, with a stack page. *)
Definition with_stack (m m' : mem) : Prop :=
  mapped m' STACK (Z.to_nat PGSIZE) ∧ ∀ x, PHYS_BASE <= x → m' !! x = m !! x.

Lemma strings_with_stack m m' ps ss :
  Forall (λ p, PHYS_BASE <= p) ps → with_stack m m' → Forall2 (cstr m) ps ss → Forall2 (cstr m') ps ss.
Proof. intros Hk [_ Ha]. apply (strings_ok_agree ps ss Hk m m' Ha). Qed.

(** C7: A command line of fewer than [ARG_LIMIT] words whose frame fits the
    stack page reaches the program: [tokenize] splits it, and once the stack
    page is mapped the pushes leave exactly the frame that [main (argc, argv)]
    expects, word-aligned, with [argc] the number of words, [argv[i]] the i-th
    word and [argv[argc]] null, and touch nothing outside the stack page. *)
Theorem arguments_reach_program m d p s av ac save :
  cstr m d [32] → cstr m p s → Forall byte s → PHYS_BASE <= p → d + 1 < p ∨ p + Z.of_nat (length s) < d →
  length av = 1024%nat → (length (words s) < 1024)%nat → frame_size (words s) <= PGSIZE →
  ∃ g, ArgStack.tokenize d save p (mk_args m av ac) = Ret (tt, g) ∧ argc g = Z.of_nat (length (words s)) ∧
    ∀ m2, with_stack (bytes g) m2 →
      ∃ m3, push_arguments (mk_args m2 (argv g) (argc g))
          = Ret (PHYS_BASE - frame_size (words s), mk_args m3 (argv g) (argc g)) ∧
        main_frame m3 (PHYS_BASE - frame_size (words s)) (words s) ∧
        ∀ x, x < STACK ∨ PHYS_BASE <= x → m3 !! x = m2 !! x.
Proof.
  intros Hd Hs Hb Hp Hdis Hav Hlt Hfit. pose proof (tokenize_words m d p s av ac save Hd Hs Hb Hdis Hav) as H.
  rewrite decide_True in H by done. destruct H as (ps & m' & Hrun & Hf & Hps & _).
  eexists. split; [exact Hrun|]. split; [done|]. intros m2 Hw. cbn [bytes argv argc] in *.
  assert (Hk : Forall (λ q, PHYS_BASE <= q) ps) by (eapply Forall_impl; [exact Hps|]; cbv beta; lia).
  apply (push_arguments_run m2 _ ps); [|done|by eapply strings_with_stack|apply Hw|done].
  intros i q Hq. by apply lookup_front.
Qed.

(** Outside those limits the kernel does not survive the command line: with
    [ARG_LIMIT] words or more [tokenize] stores its null pointer past the end
    of [argv]; with fewer words whose frame is larger than a page, [setup_stack]
    writes below the stack page and faults. *)
Theorem arguments_limits m d p s av ac save :
  cstr m d [32] → cstr m p s → Forall byte s → PHYS_BASE <= p → d + 1 < p ∨ p + Z.of_nat (length s) < d →
  length av = 1024%nat → Z.of_nat (length s) < PGSIZE →
  ((1024 <= length (words s))%nat → ArgStack.tokenize d save p (mk_args m av ac) = Err OutOfBounds) ∧
  ((length (words s) < 1024)%nat → PGSIZE < frame_size (words s) →
   ∃ g, ArgStack.tokenize d save p (mk_args m av ac) = Ret (tt, g) ∧
     ∀ m2, with_stack (bytes g) m2 → no_page_below m2 → push_arguments (mk_args m2 (argv g) (argc g)) = Err BadPtr).
Proof.
  intros Hd Hs Hb Hp Hdis Hav Hl. pose proof (tokenize_words m d p s av ac save Hd Hs Hb Hdis Hav) as H.
  split; intros Hw; [by rewrite decide_False in H by lia|]. intros Hbig. rewrite decide_True in H by done.
  destruct H as (ps & m' & Hrun & Hf & Hps & _). eexists. split; [exact Hrun|].
  intros m2 Hst Hno. cbn [bytes argv argc] in *.
  assert (Hk : Forall (λ q, PHYS_BASE <= q) ps) by (eapply Forall_impl; [exact Hps|]; cbv beta; lia).
  apply (push_arguments_fault m2 _ ps); [|done|by eapply strings_with_stack|apply Hst|done| |done].
  - intros i q Hq. by apply lookup_front.
  - eapply Forall_impl; [apply fields_length|]. cbv beta. intros w Hlw. unfold arg_size. lia.
Qed.

(** ** A command line in memory *)
Definition ex_line : list Z := [101; 99; 104; 111; 32; 32; 97; 32; 98; 99].   (* "echo  a bc" *)
Definition ex_cmd : Z := 0xc0002000.
Definition ex_delim : Z := 0xc0001000.
Definition ex_kernel (s : list Z) : mem := write (write ∅ ex_delim [32; 0]) ex_cmd (s ++ [0]).

Lemma ex_kernel_ok s : 0 ∉ s → cstr (ex_kernel s) ex_delim [32] ∧ cstr (ex_kernel s) ex_cmd s.
Proof.
  intros Hz. split; split_and!; [done|by_decision| |done|done|].
  - eapply bytes_at_agree; [|apply bytes_at_write]. intros x Hx. apply write_lookup_out. cbn in Hx. unfold ex_delim, ex_cmd in *. lia.
  - apply bytes_at_write.
Qed.

Lemma ex_places (s : list Z) : PHYS_BASE <= ex_cmd ∧ (ex_delim + 1 < ex_cmd ∨ ex_cmd + Z.of_nat (length s) < ex_delim).
Proof. split; [|left]; by_decision. Qed.

Lemma arguments_reach_program_witness :
  ∃ g, ArgStack.tokenize ex_delim 0 ex_cmd (mk_args (ex_kernel ex_line) (replicate 1024 0) 0) = Ret (tt, g) ∧
    argc g = 3 ∧
    ∀ m2, with_stack (bytes g) m2 →
      ∃ m3, push_arguments (mk_args m2 (argv g) (argc g)) = Ret (PHYS_BASE - 40, mk_args m3 (argv g) (argc g)) ∧
        main_frame m3 (PHYS_BASE - 40) [[101; 99; 104; 111]; [97]; [98; 99]] ∧
        ∀ x, x < STACK ∨ PHYS_BASE <= x → m3 !! x = m2 !! x.
Proof.
  assert (Hz : 0 ∉ ex_line) by by_decision. destruct (ex_kernel_ok ex_line Hz) as [H1 H2].
  assert (Hb : Forall byte ex_line) by (repeat (constructor; [unfold byte; lia|]); constructor).
  assert (Hf : frame_size (words ex_line) <= PGSIZE) by by_decision.
  assert (Hl : (length (words ex_line) < 1024)%nat) by by_decision.
  exact (arguments_reach_program _ _ _ _ (replicate 1024 0) 0 0 H1 H2 Hb (proj1 (ex_places ex_line))
    (proj2 (ex_places ex_line)) (length_replicate 1024 0) Hl Hf).
Defined.

(** [n] one-letter words. *)
Definition ex_long (n : nat) : list Z := concat (replicate n [97; 32]).

Lemma arguments_limits_witness :
  ArgStack.tokenize ex_delim 0 ex_cmd (mk_args (ex_kernel (ex_long 1024)) (replicate 1024 0) 0) = Err OutOfBounds ∧
  ∃ g, ArgStack.tokenize ex_delim 0 ex_cmd (mk_args (ex_kernel (ex_long 700)) (replicate 1024 0) 0) = Ret (tt, g) ∧
     ∀ m2, with_stack (bytes g) m2 → no_page_below m2 → push_arguments (mk_args m2 (argv g) (argc g)) = Err BadPtr.
Proof.
  split.
  - assert (Hz : 0 ∉ ex_long 1024) by by_decision. destruct (ex_kernel_ok _ Hz) as [H1 H2].
    assert (Hb : Forall byte (ex_long 1024)) by (unfold byte; by_decision).
    assert (Hw : (1024 <= length (words (ex_long 1024)))%nat) by by_decision.
    assert (Hp : Z.of_nat (length (ex_long 1024)) < PGSIZE) by by_decision.
    refine (proj1 (arguments_limits _ _ _ _ (replicate 1024 0) 0 0 H1 H2 Hb (proj1 (ex_places (ex_long 1024)))
      (proj2 (ex_places (ex_long 1024))) (length_replicate 1024 0) Hp) Hw).
  - assert (Hz : 0 ∉ ex_long 700) by by_decision. destruct (ex_kernel_ok _ Hz) as [H1 H2].
    assert (Hb : Forall byte (ex_long 700)) by (unfold byte; by_decision).
    assert (Hw : (length (words (ex_long 700)) < 1024)%nat) by by_decision.
    assert (Hf : PGSIZE < frame_size (words (ex_long 700))) by by_decision.
    assert (Hp : Z.of_nat (length (ex_long 700)) < PGSIZE) by by_decision.
    refine (proj2 (arguments_limits _ _ _ _ (replicate 1024 0) 0 0 H1 H2 Hb (proj1 (ex_places (ex_long 700)))
      (proj2 (ex_places (ex_long 700))) (length_replicate 1024 0) Hp) Hw Hf).
Defined.
