(* ===== verification/Exec.v ===== *)
(** * Loading a program (userprog/process.c: [load] and its helpers)

    The state joins the file system, the page directories and the memory of
    the running thread.  A page of the user pool is its 4096 bytes at its
    kernel address until [install_page] maps it; from then on the same bytes
    are those at the user address, since no code reaches the page by its
    kernel address afterwards.

    Parameters: [user_page] is [palloc_get_page (PAL_USER)] of threads/palloc.c
    in the current state, [old_bytes] what such a page holds before it is
    written, and [pal] the page of the kernel pool that a new page table or
    directory gets. *)
From S2P Require Import Prelude Vaddr Bitmap Cache FsState Inode Directory Pagedir KString ArgStack.
Open Scope Z_scope.

(** ** ELF headers *)
Definition half_at (bs : list Z) (i : nat) : Z := nth i bs 0 + 2 ^ 8 * nth (S i) bs 0.
Definition elf_word_at (bs : list Z) (i : nat) : Z :=
  le_word (nth i bs 0) (nth (S i) bs 0) (nth (S (S i)) bs 0) (nth (S (S (S i))) bs 0).

Record Elf32_Ehdr : Set := mk_ehdr {
  e_ident : list Z; e_type : Z; e_machine : Z; e_version : Z; e_entry : Z; e_phoff : Z; e_shoff : Z;
  e_flags : Z; e_ehsize : Z; e_phentsize : Z; e_phnum : Z; e_shentsize : Z; e_shnum : Z; e_shstrndx : Z }.
Record Elf32_Phdr : Set := mk_phdr {
  p_type : Z; p_offset : Z; p_vaddr : Z; p_paddr : Z; p_filesz : Z; p_memsz : Z; p_flags : Z; p_align : Z }.

(** A buffer of [sizeof ehdr] or [sizeof phdr] bytes as the structure. *)
Definition EHDR_SIZE : Z := 52.
Definition PHDR_SIZE : Z := 32.
Definition ehdr_of (bs : list Z) : Elf32_Ehdr :=
  mk_ehdr (take 16 bs) (half_at bs 16) (half_at bs 18) (elf_word_at bs 20) (elf_word_at bs 24) (elf_word_at bs 28)
    (elf_word_at bs 32) (elf_word_at bs 36) (half_at bs 40) (half_at bs 42) (half_at bs 44) (half_at bs 46)
    (half_at bs 48) (half_at bs 50).
Definition phdr_of (bs : list Z) : Elf32_Phdr :=
  mk_phdr (elf_word_at bs 0) (elf_word_at bs 4) (elf_word_at bs 8) (elf_word_at bs 12) (elf_word_at bs 16)
    (elf_word_at bs 20) (elf_word_at bs 24) (elf_word_at bs 28).

Definition PT_NULL : Z := 0.
Definition PT_LOAD : Z := 1.
Definition PT_DYNAMIC : Z := 2.
Definition PT_INTERP : Z := 3.
Definition PT_SHLIB : Z := 5.
Definition PF_W : Z := 2.

(** "\177ELF\1\1\1" *)
Definition elf_magic : list Z := [127; 69; 76; 70; 1; 1; 1].

(** The conditions on the executable header that [load] tests after reading. *)
Definition ehdr_bad (h : Elf32_Ehdr) : bool :=
  negb (bool_decide (take 7 (e_ident h) = elf_magic)) || negb (e_type h =? 2) || negb (e_machine h =? 3)
  || negb (e_version h =? 1) || negb (e_phentsize h =? PHDR_SIZE) || (1024 <? e_phnum h).

(** [len] is [file_length (file)]. *)
Definition validate_segment (phdr : Elf32_Phdr) (len : Z) : bool :=
  if negb (Z.land (p_offset phdr) PGMASK =? Z.land (p_vaddr phdr) PGMASK) then false
  else if u32 len <? p_offset phdr then false
  else if p_memsz phdr <? p_filesz phdr then false
  else if p_memsz phdr =? 0 then false
  else if negb (is_user_vaddr (p_vaddr phdr)) then false
  else if negb (is_user_vaddr (u32 (p_vaddr phdr + p_memsz phdr))) then false
  else if u32 (p_vaddr phdr + p_memsz phdr) <? p_vaddr phdr then false
  else if p_vaddr phdr <? PGSIZE then false
  else true.

(** The arguments [load] passes to [load_segment]: file offset, user page,
    bytes to read and bytes to zero, and whether the pages are writable. *)
Record segment : Set := mk_segment {
  file_page : Z; mem_page : Z; read_bytes : Z; zero_bytes : Z; seg_writable : bool }.

(** [ROUND_UP] on unsigned 32-bit operands. *)
Definition round_up_u32 (x step : Z) : Z := u32 (u32 (x + step - 1) / step * step).

Definition segment_of (phdr : Elf32_Phdr) : segment :=
  let writable := negb (Z.land (p_flags phdr) PF_W =? 0) in
  let file_page := Z.land (p_offset phdr) (u32 (Z.lnot PGMASK)) in
  let mem_page := Z.land (p_vaddr phdr) (u32 (Z.lnot PGMASK)) in
  let page_offset := Z.land (p_vaddr phdr) PGMASK in
  if 0 <? p_filesz phdr then
    let read_bytes := u32 (page_offset + p_filesz phdr) in
    mk_segment file_page mem_page read_bytes
      (u32 (round_up_u32 (u32 (page_offset + p_memsz phdr)) PGSIZE - read_bytes)) writable
  else
    mk_segment file_page mem_page 0 (round_up_u32 (u32 (page_offset + p_memsz phdr)) PGSIZE) writable.

(** ** State *)
Record proc (St : Type) : Type := mk_proc {
  p_fs : fs St;
  p_vm : vm;
  p_pages : gmap Z (list Z);     (* user pool pages not mapped yet *)
  p_args : args;                 (* memory at virtual addresses, argv, argc *)
  p_pagedir : Z;                 (* thread_current ()->pagedir *)
  p_cwd : option addr;
  p_file : option addr
}.
Arguments mk_proc {St}.
Arguments p_fs {St}.
Arguments p_vm {St}.
Arguments p_pages {St}.
Arguments p_args {St}.
Arguments p_pagedir {St}.
Arguments p_cwd {St}.
Arguments p_file {St}.

Section exec.
Context {St : Type} `{SectorOps St}.
Context (pal : vm → option Z) (init_page_dir init_ram_pages : Z).
Context (user_page : proc St → option Z) (old_bytes : list Z).
Implicit Types s : proc St.

Definition set_pages (v : gmap Z (list Z)) s := mk_proc (p_fs s) (p_vm s) v (p_args s) (p_pagedir s) (p_cwd s) (p_file s).
Definition set_args (v : args) s := mk_proc (p_fs s) (p_vm s) (p_pages s) v (p_pagedir s) (p_cwd s) (p_file s).
Definition set_pagedir (v : Z) s := mk_proc (p_fs s) (p_vm s) (p_pages s) (p_args s) v (p_cwd s) (p_file s).
Definition set_file (v : option addr) s := mk_proc (p_fs s) (p_vm s) (p_pages s) (p_args s) (p_pagedir s) (p_cwd s) v.
Definition set_fs (v : fs St) s := mk_proc v (p_vm s) (p_pages s) (p_args s) (p_pagedir s) (p_cwd s) (p_file s).
Definition set_vm (v : vm) s := mk_proc (p_fs s) v (p_pages s) (p_args s) (p_pagedir s) (p_cwd s) (p_file s).

Definition on_fs {A} (f : cmd (fs St) A) : cmd (proc St) A := λ s,
  match f (p_fs s) with Ret (a, x) => Ret (a, set_fs x s) | Err e => Err e end.
Definition on_vm {A} (f : cmd vm A) : cmd (proc St) A := λ s,
  match f (p_vm s) with Ret (a, x) => Ret (a, set_vm x s) | Err e => Err e end.
Definition on_args {A} (f : cmd args A) : cmd (proc St) A := λ s,
  match f (p_args s) with Ret (a, x) => Ret (a, set_args x s) | Err e => Err e end.

(** [palloc_get_page (PAL_USER)] and [palloc_get_page (PAL_USER | PAL_ZERO)]. *)
Definition get_user_page (zero : bool) : cmd (proc St) Z := λ s,
  match user_page s with
  | None => Ret (0, s)
  | Some k => Ret (k, set_pages (<[k := if zero then replicate (Z.to_nat PGSIZE) 0 else old_bytes]> (p_pages s)) s)
  end.
Definition free_user_page (k : Z) : cmd (proc St) unit :=
  modify (λ s, set_pages (delete k (p_pages s)) s);; on_vm (palloc_free_page k).
(** Bytes stored from offset [i] of an unmapped page on. *)
Definition fill_page (k : Z) (i : nat) (bs : list Z) : cmd (proc St) unit := λ s,
  match p_pages s !! k with
  | None => Err BadPtr
  | Some old =>
      if (i + length bs <=? length old)%nat
      then Ret (tt, set_pages (<[k := take i old ++ bs ++ drop (i + length bs) old]> (p_pages s)) s)
      else Err BadPtr
  end.

(** The page's bytes at its user address. *)
Fixpoint place (m : mem) (p : Z) (bs : list Z) : mem :=
  match bs with [] => m | b :: bs => <[p := b]> (place m (p + 1) bs) end.
Definition show_page (upage kpage : Z) : cmd (proc St) unit := λ s,
  match p_pages s !! kpage with
  | None => Err BadPtr
  | Some bs =>
      let g := p_args s in
      Ret (tt, set_args (mk_args (place (bytes g) upage bs) (argv g) (argc g)) (set_pages (delete kpage (p_pages s)) s))
  end.

Definition install_page (upage kpage : Z) (writable : bool) : cmd (proc St) bool :=
  pd ← gets p_pagedir;
  old ← on_vm (pagedir_get_page pal pd upage);
  if negb (old =? 0) then mret false else
  ok ← on_vm (pagedir_set_page pal init_page_dir init_ram_pages pd upage kpage writable);
  if (ok : bool) then show_page upage kpage;; mret true else mret false.

(** ** [load_segment] *)
Fixpoint segment_loop (fuel : nat) (file : option addr) (upage read_bytes zero_bytes : Z) (writable : bool)
    : cmd (proc St) bool :=
  match fuel with
  | O => throw NoFuel
  | S fuel =>
      if (0 <? read_bytes) || (0 <? zero_bytes) then
        let page_read_bytes := if read_bytes <? PGSIZE then read_bytes else PGSIZE in
        let page_zero_bytes := PGSIZE - page_read_bytes in
        kpage ← get_user_page false;
        if kpage =? 0 then mret false else
        d ← on_fs (file_read file page_read_bytes);
        fill_page kpage 0 d;;
        if negb (Z.of_nat (length d) =? page_read_bytes) then free_user_page kpage;; mret false else
        fill_page kpage (Z.to_nat page_read_bytes) (replicate (Z.to_nat page_zero_bytes) 0);;
        ok ← install_page upage kpage writable;
        if negb ok then free_user_page kpage;; mret false else
        segment_loop fuel file (u32 (upage + PGSIZE)) (u32 (read_bytes - page_read_bytes))
          (u32 (zero_bytes - page_zero_bytes)) writable
      else mret true
  end.

(** The loop makes one round per page. *)
Definition load_segment (file : option addr) (ofs upage read_bytes zero_bytes : Z) (writable : bool)
    : cmd (proc St) bool :=
  ASSERT (u32 (read_bytes + zero_bytes) mod PGSIZE =? 0);;
  ASSERT (pg_ofs upage =? 0);;
  ASSERT (u32 ofs mod PGSIZE =? 0);;
  on_fs (file_seek file ofs);;
  segment_loop (S (Z.to_nat ((read_bytes + zero_bytes) / PGSIZE))) file upage read_bytes zero_bytes writable.

(** ** [setup_stack] *)
Definition setup_stack : cmd (proc St) (option Z) :=
  kpage ← get_user_page true;
  if kpage =? 0 then mret None else
  success ← install_page (PHYS_BASE - PGSIZE) kpage true;
  if (success : bool) then esp ← on_args push_arguments; mret (Some esp)
  else free_user_page kpage;; mret None.

(** ** [load] *)
(** [for (i = 0; i < ehdr.e_phnum; i++)], with [n] program headers left. *)
Fixpoint load_headers (n : nat) (file : option addr) (file_ofs : Z) : cmd (proc St) bool :=
  match n with
  | O => mret true
  | S n =>
      len ← (if file_ofs <? 0 then mret 0 else on_fs (file_length file));
      if (file_ofs <? 0) || (len <? file_ofs) then mret false else
      on_fs (file_seek file file_ofs);;
      d ← on_fs (file_read file PHDR_SIZE);
      if negb (Z.of_nat (length d) =? PHDR_SIZE) then mret false else
      let file_ofs := s32 (file_ofs + PHDR_SIZE) in
      let phdr := phdr_of d in
      if (p_type phdr =? PT_DYNAMIC) || (p_type phdr =? PT_INTERP) || (p_type phdr =? PT_SHLIB) then mret false
      else if p_type phdr =? PT_LOAD then
        len ← on_fs (file_length file);
        if validate_segment phdr len then
          let g := segment_of phdr in
          ok ← load_segment file (s32 (file_page g)) (mem_page g) (read_bytes g) (zero_bytes g) (seg_writable g);
          if (ok : bool) then load_headers n file file_ofs else mret false
        else mret false
      else load_headers n file file_ofs
  end.

(** The part of [load] after the executable is open: the entry point and the
    stack pointer, or nothing if the file is not a valid executable. *)
Definition load_image (file : option addr) : cmd (proc St) (option (Z * Z)) :=
  d ← on_fs (file_read file EHDR_SIZE);
  let ehdr := ehdr_of d in
  if negb (Z.of_nat (length d) =? EHDR_SIZE) || ehdr_bad ehdr then mret None else
  ok ← load_headers (Z.to_nat (e_phnum ehdr)) file (s32 (e_phoff ehdr));
  if negb ok then mret None else
  st ← setup_stack;
  match st with
  | None => mret None
  | Some esp =>
      on_fs (file_deny_write file);;
      modify (set_file file);;
      mret (Some (e_entry ehdr, esp))
  end.

Definition process_activate : cmd (proc St) unit :=
  pd ← gets p_pagedir;
  on_vm (pagedir_activate init_page_dir (if pd =? 0 then None else Some pd)).

(** [name]: the string [file_name]; [junk], [is_dir0]: the uninitialised
    buffers of the directory lookup. *)
Definition load (name junk : list Z) (is_dir0 : bool) : cmd (proc St) (option (Z * Z)) :=
  pd ← on_vm (pagedir_create pal init_page_dir);
  modify (set_pagedir (default 0 pd));;
  if bool_decide (pd = None) then mret None else
  process_activate;;
  cwd ← gets p_cwd;
  dir ← on_fs (dir_reopen cwd);
  r ← on_fs (filesys_open dir name junk is_dir0);
  on_fs (dir_close dir);;
  if isnull r.2 then mret None else load_image r.2.
End exec.
