(* ===== verification/ExecSpec.v ===== *)
(** Correctness of program loading: segments are mapped with the right bytes
    and rights, and no executable makes the kernel fail. *)
From S2P Require Import Prelude Bitmap Vaddr Cache FsState Inode InodeSpec FreeMapSpec FsTheorems Directory DirSpec KString KStringSpec Pagedir PagedirSpec PagedirTheorems ArgStack Exec.
Open Scope Z_scope.

(** ** The open executable *)
Section files.
Context {St : Type} `{SectorStore St}.
Implicit Types x : fs St.

(** File [fa] is open at position [p] on a well-formed inode with bytes [c]. *)
Record opened x (fa : addr) (c : list Z) (p : Z) : Prop := {
  op_file : ∃ a ino dw, files x !! fa = Some (mk_file (Some a) p dw) ∧ good_inode x a ino ∧
    file_bytes (sectors_of x) (i_sector ino) = c ∧ (dw = false → deny_write_cnt ino < open_cnt ino);
  op_mem : FsState.mem x = [];
  op_pos : 0 <= p }.

(** Nobody denies writes to the file. *)
Definition writable_file x (fa : addr) : Prop :=
  ∀ a p dw ino, files x !! fa = Some (mk_file (Some a) p dw) → inodes x !! a = Some ino → deny_write_cnt ino = 0.

Lemma writable_quiet x x' fa : quiet x x' → writable_file x fa → writable_file x' fa.
Proof. intros Q Hw a p dw ino. rewrite (st_fi _ _ _ Q), (st_in _ _ _ Q). apply Hw. Qed.

Lemma writable_move x fa a p q dw :
  files x !! fa = Some (mk_file (Some a) p dw) → writable_file x fa →
  writable_file (set_files (<[fa := mk_file (Some a) q dw]> (files x)) x) fa.
Proof.
  intros Hf Hw a' p' dw' ino. cbn [files set_files inodes]. rewrite lookup_insert_eq. intros [= <- <- <-]. by eapply Hw.
Qed.

Lemma opened_quiet x x' fa c p : quiet x x' → opened x fa c p → opened x' fa c p.
Proof.
  intros Q [(a & ino & dw & Hf & Hg & Hc & Hd) Hm Hp]. split; [|by apply (st_mem _ _ _ Q)|done].
  exists a, ino, dw. split_and!; [by rewrite (st_fi _ _ _ Q)|by apply (good_inode_quiet x)| |done].
  rewrite <- Hc. apply file_bytes_ext. intros t. by apply Q.
Qed.

(** Moving the position changes only the [struct file]. *)
Lemma opened_move x fa c p a dw q :
  opened x fa c p → files x !! fa = Some (mk_file (Some a) p dw) → 0 <= q →
  opened (set_files (<[fa := mk_file (Some a) q dw]> (files x)) x) fa c q.
Proof.
  intros [(a' & ino & dw' & Hf & Hg & Hc & Hd) Hm Hp] Hf' Hq. rewrite Hf in Hf'. injection Hf' as <- <-.
  split; [|done|done]. exists a', ino, dw'. split_and!; [apply lookup_insert_eq|by destruct Hg|done|done].
Qed.

Lemma file_seek_run x fa c p q :
  opened x fa c p → 0 <= q → ∃ x', file_seek (Some fa) q x = Ret (tt, x') ∧ opened x' fa c q ∧
    (writable_file x fa → writable_file x' fa).
Proof.
  intros Ho Hq. destruct (op_file _ _ _ _ Ho) as (a & ino & dw & Hf & _).
  unfold file_seek. rewrite !ASSERT_bind by (done || by apply Z.leb_le). rewrite (deref_bind _ _ _ _ _ Hf).
  eexists. split; [done|]. split; [by eapply opened_move|by eapply writable_move].
Qed.

Lemma file_read_run x fa c p n :
  opened x fa c p → let d := take (Z.to_nat n) (drop (Z.to_nat p) c) in
  ∃ x', file_read (Some fa) n x = Ret (d, x') ∧ opened x' fa c (p + Z.of_nat (length d)) ∧
    (writable_file x fa → writable_file x' fa).
Proof.
  intros Ho d. pose proof (op_pos _ _ _ _ Ho) as Hp. destruct (op_file _ _ _ _ Ho) as (a & ino & dw & Hf & Hg & Hc & _).
  destruct (inode_read_good x a ino n p Hg (op_mem _ _ _ _ Ho) Hp) as (x' & R & Q). rewrite Hc in R. fold d in R.
  unfold file_read. rewrite (deref_bind _ _ _ _ _ Hf). cbn [f_inode pos]. rewrite (bind_Ret _ _ _ _ _ R).
  assert (Hf' : files x' !! fa = Some (mk_file (Some a) p dw)) by by rewrite (st_fi _ _ _ Q).
  rewrite (deref_bind _ _ _ _ _ Hf'). cbn [f_inode pos deny_write].
  eexists. split; [done|]. split; [apply (opened_move x' fa c p); [by eapply opened_quiet|done|lia]|].
  intros Hw. eapply writable_move; [done|]. by eapply writable_quiet.
Qed.

Lemma file_length_run x fa c p :
  opened x fa c p → Z.of_nat (length c) < 2 ^ 30 ∧
  ∃ x', file_length (Some fa) x = Ret (Z.of_nat (length c), x') ∧ opened x' fa c p ∧
    (writable_file x fa → writable_file x' fa).
Proof.
  intros Ho. destruct (op_file _ _ _ _ Ho) as (a & ino & dw & Hf & Hg & Hc & _).
  pose proof (gi_len _ _ _ Hg) as Hl. pose proof (file_bytes_length x a ino Hg) as Hlen. rewrite Hc in Hlen.
  unfold MAX_INODE_SIZE in Hl. split; [lia|].
  destruct (inode_length_run x a ino (gi_store _ _ _ Hg) (gi_open _ _ _ Hg) (file_ok_sector _ _ _ _ (gi_file _ _ _ Hg)))
    as (x' & R & Q).
  unfold file_length. rewrite ASSERT_bind, (deref_bind _ _ _ _ _ Hf) by done. cbn [f_inode]. rewrite R.
  exists x'. split_and!; [do 2 f_equal; lia|by eapply opened_quiet|by eapply writable_quiet].
Qed.

Lemma file_deny_write_run x fa c p :
  opened x fa c p → ∃ x', file_deny_write (Some fa) x = Ret (tt, x').
Proof.
  intros Ho. destruct (op_file _ _ _ _ Ho) as (a & ino & dw & Hf & Hg & Hc & Hd).
  unfold file_deny_write. rewrite ASSERT_bind, (deref_bind _ _ _ _ _ Hf) by done. cbn [deny_write f_inode pos].
  destruct dw; [by eexists|]. cbn [negb]. unfold put_file, inode_deny_write.
  unfold mbind at 1, cmd_bind at 1.
  rewrite (deref_bind _ _ ino) by (by apply Hg). specialize (Hd eq_refl). eexists.
  unfold put_inode, mbind, cmd_bind. rewrite ?ASSERT_bind. unfold ASSERT. cbn.
  rewrite (proj2 (Z.leb_le _ _)) by lia. done.
Qed.
End files.

(** ** Reading headers *)
Lemma elf_word_u32 bs i : Forall byte bs → is_u32 (elf_word_at bs i).
Proof.
  intros Hb. assert (Hn : ∀ j, byte (nth j bs 0)).
  { intros j. destruct (le_lt_dec (length bs) j) as [Hj|Hj]; [by rewrite nth_overflow by done|].
    rewrite Forall_forall in Hb. apply Hb, list_elem_of_In, nth_In. done. }
  unfold elf_word_at, le_word, is_u32, byte in *. pose proof (Hn i). pose proof (Hn (S i)). pose proof (Hn (S (S i))).
  pose proof (Hn (S (S (S i)))). lia.
Qed.

(** ** Segments *)
Record phdr_wf (h : Elf32_Phdr) : Prop := {
  pw_offset : is_u32 (p_offset h);
  pw_vaddr : is_u32 (p_vaddr h);
  pw_filesz : is_u32 (p_filesz h);
  pw_memsz : is_u32 (p_memsz h) }.

Lemma phdr_of_wf bs : Forall byte bs → phdr_wf (phdr_of bs).
Proof. intros Hb. split; by apply elf_word_u32. Qed.

(** What [load_segment] asks of its arguments, for a file of [len] bytes. *)
Record segment_ok (g : segment) (len : Z) : Prop := {
  so_file : file_page g mod 4096 = 0 ∧ 0 <= file_page g <= len;
  so_mem : mem_page g mod 4096 = 0 ∧ PGSIZE <= mem_page g;
  so_size : 0 <= read_bytes g ∧ 0 <= zero_bytes g ∧ (read_bytes g + zero_bytes g) mod 4096 = 0;
  so_end : mem_page g + read_bytes g + zero_bytes g <= PHYS_BASE }.

Lemma round_up_u32_run z : 0 <= z <= PHYS_BASE → round_up_u32 z PGSIZE = (z + 4095) / 4096 * 4096.
Proof.
  intros Hz. unfold round_up_u32, PHYS_BASE in *. change PGSIZE with 4096.
  replace (z + 4096 - 1) with (z + 4095) by lia. rewrite (u32_small (z + 4095)) by lia. apply u32_small.
  Z.div_mod_to_equations. lia.
Qed.

(** The tests of [validate_segment], as propositions. *)
Lemma validate_segment_spec h len : phdr_wf h → 0 <= len < 2 ^ 31 →
  validate_segment h len = true ↔
    p_offset h mod 4096 = p_vaddr h mod 4096 ∧ p_offset h <= len ∧ p_filesz h <= p_memsz h ∧ 0 < p_memsz h ∧
    PGSIZE <= p_vaddr h ∧ p_vaddr h + p_memsz h < PHYS_BASE.
Proof.
  intros [H1 H2 H3 H4] Hl. unfold is_u32 in *. unfold validate_segment, is_user_vaddr.
  fold (pg_ofs (p_offset h)) (pg_ofs (p_vaddr h)). rewrite !pg_ofs_mod, (u32_small len) by lia.
  change PGSIZE with 4096. unfold PHYS_BASE.
  assert (Hu : p_vaddr h < 0xc0000000 → u32 (p_vaddr h + p_memsz h) = p_vaddr h + p_memsz h ∨
    p_vaddr h + p_memsz h >= 2 ^ 32 ∧ u32 (p_vaddr h + p_memsz h) < p_vaddr h).
  { intros Hv. destruct (decide (p_vaddr h + p_memsz h < 2 ^ 32)); [left; apply u32_small; lia|right].
    split; [lia|]. unfold u32. rewrite <- (Z.mod_unique _ _ 1 (p_vaddr h + p_memsz h - 2 ^ 32)) by lia. lia. }
  repeat match goal with
  | |- context [if negb ?b then _ else _] => destruct b eqn:?; simpl
  | |- context [if ?b then _ else _] => destruct b eqn:?; simpl
  end; split; (intros Hf || intros); try done; try lia.
Qed.

(** What the tests guarantee of the arguments computed from the header. *)
Lemma validated_segment h len : phdr_wf h → 0 <= len < 2 ^ 31 → validate_segment h len = true →
  let g := segment_of h in
  segment_ok g len ∧
  mem_page g <= p_vaddr h ∧ p_vaddr h + p_memsz h <= mem_page g + read_bytes g + zero_bytes g ∧
  (0 < p_filesz h → file_page g + (p_vaddr h - mem_page g) = p_offset h ∧
     read_bytes g = (p_vaddr h - mem_page g) + p_filesz h) ∧
  (p_filesz h = 0 → read_bytes g = 0).
Proof.
  intros Hw Hl Hv g. apply (validate_segment_spec h len Hw Hl) in Hv as (Ho & Hle & Hfm & Hm0 & Hpg & Hend).
  destruct Hw as [H1 H2 H3 H4]. unfold is_u32 in *. change PGSIZE with 4096 in Hpg. unfold PHYS_BASE in Hend.
  assert (Hpo : Z.land (p_vaddr h) PGMASK = p_vaddr h mod 4096) by apply pg_ofs_mod.
  pose proof (Z.mod_pos_bound (p_vaddr h) 4096 ltac:(lia)) as Hmod.
  assert (Hru : round_up_u32 (u32 (p_vaddr h mod 4096 + p_memsz h)) PGSIZE
                = (p_vaddr h mod 4096 + p_memsz h + 4095) / 4096 * 4096).
  { rewrite u32_small by lia. apply round_up_u32_run. unfold PHYS_BASE. Z.div_mod_to_equations. lia. }
  assert (Hg : g = mk_segment (p_offset h / 4096 * 4096) (p_vaddr h / 4096 * 4096)
     (if 0 <? p_filesz h then p_vaddr h mod 4096 + p_filesz h else 0)
     ((p_vaddr h mod 4096 + p_memsz h + 4095) / 4096 * 4096
        - if 0 <? p_filesz h then p_vaddr h mod 4096 + p_filesz h else 0) (seg_writable g)).
  { unfold g, segment_of. rewrite Hpo, Hru, !land_not_mask by lia. destruct (Z.ltb_spec 0 (p_filesz h)).
    - rewrite (u32_small (p_vaddr h mod 4096 + p_filesz h)) by lia. rewrite u32_small; [done|]. Z.div_mod_to_equations. lia.
    - by rewrite Z.sub_0_r. }
  rewrite Hg. clear Hg Hru Hpo. change PGSIZE with 4096. unfold PHYS_BASE.
  split_and!; [split; change PGSIZE with 4096; unfold PHYS_BASE|..]; cbn [file_page mem_page read_bytes zero_bytes];
    destruct (Z.ltb_spec 0 (p_filesz h)); Z.div_mod_to_equations; lia.
Qed.

(** ** The machine while a program is loaded *)
Lemma place_write m p bs : place m p bs = write m p bs.
Proof. revert p. induction bs as [|b bs IH]; intros p; simpl; [done|]. by rewrite IH. Qed.

Lemma page_addrs u va : user_va va → pg_ofs u = 0 → 0 <= u → pg_no va = pg_no u ↔ u <= va < u + 4096.
Proof. rewrite pg_ofs_mod, !pg_no_div. unfold user_va. intros Hva Hu Hu0. Z.div_mod_to_equations. lia. Qed.

Section load.
Context {St : Type} `{SectorStore St}.
Context (pal : vm → option Z) (init_page_dir init_ram_pages : Z) (dirs : gset Z).
Context (user_page : proc St → option Z) (old_bytes : list Z).
(** [palloc_get_page] returns a free page of the pool it is asked for, inside
    the physical memory. *)
Context (Hpal : ∀ v p, pal v = Some p → kpage_ok p ∧ tables v !! p = None).
Context (Huser : ∀ s k, user_page s = Some k →
  kpage_ok k ∧ Z.shiftr (k - PHYS_BASE) PTSHIFT < init_ram_pages ∧ tables (p_vm s) !! k = None).
Context (Hold : length old_bytes = Z.to_nat PGSIZE).
Implicit Types s : proc St.

Abbreviation pd s := (p_pagedir s).
Abbreviation umem s := (bytes (p_args s)).

(** The thread's directory is active; a user address holds a byte exactly when
    its page is mapped. *)
Record loading s (a : spaces) (fa : addr) (c : list Z) (p : Z) : Prop := {
  lo_vm : represents init_page_dir dirs (p_vm s) a;
  lo_pd : pd s ∈ dirs ∧ pd s ≠ init_page_dir ∧ active a = pd s;
  lo_view : ∀ va, user_va va → is_Some (umem s !! va) ↔ is_Some (pages a !! (pd s, pg_no va));
  lo_file : opened (p_fs s) fa c p }.

Lemma on_fs_run {A} (f : cmd (fs St) A) s x b : f (p_fs s) = Ret (b, x) → on_fs f s = Ret (b, set_fs x s).
Proof. intros E. unfold on_fs. by rewrite E. Qed.
Lemma on_vm_run {A} (f : cmd vm A) s x b : f (p_vm s) = Ret (b, x) → on_vm f s = Ret (b, set_vm x s).
Proof. intros E. unfold on_vm. by rewrite E. Qed.

Lemma loading_fs s a fa c p x q : loading s a fa c p → opened x fa c q → loading (set_fs x s) a fa c q.
Proof. intros [H1 H2 H3 H4] Ho. by split. Qed.
Lemma loading_pages s a fa c p v : loading s a fa c p → loading (set_pages v s) a fa c p.
Proof. intros [H1 H2 H3 H4]. by split. Qed.

Lemma same_vm s : set_vm (p_vm s) s = s.
Proof. by destruct s. Qed.

(** Freeing a page that was not mapped. *)
Lemma free_user_page_run s a fa c p k :
  loading s a fa c p → tables (p_vm s) !! k = None →
  ∃ s', free_user_page k s = Ret (tt, s') ∧ loading s' a fa c p ∧ p_args s' = p_args s ∧
    tables (p_vm s') = tables (p_vm s) ∧ p_pagedir s' = p_pagedir s.
Proof using.
  clear Hpal Huser Hold. intros [H1 H2 H3 H4] Hk. destruct s as [x v ps g d cw f]. cbn [p_vm] in *.
  exists (mk_proc x (mk_vm (tables v) (cr3 v) (tlb v) (freed v ++ [k])) (delete k ps) g d cw f). split_and!; [|split|done..].
  - unfold free_user_page, modify, mbind, cmd_bind, on_vm, palloc_free_page, modify. cbn. by rewrite delete_id.
  - destruct H1 as [[V1 V2 V3 V4 V5 V6 V7] R1 R2]. split; [by split|done..].
  - done.
  - done.
  - done.
Qed.

Lemma frame_pos s a va i :
  represents init_page_dir dirs (p_vm s) a → pd s ∈ dirs → user_va va → pages a !! (pd s, pg_no va) = Some i → 0 < frame i.
Proof using.
  clear Hpal Huser Hold. intros [_ _ Hpg] Hpd Hva Hi. rewrite <- (Hpg _ _ Hpd Hva) in Hi.
  apply fmap_Some in Hi as (e & _ & ->). cbn [info frame]. unfold pt_of, PHYS_BASE.
  assert (0 <= Z.land e PTE_ADDR) by (apply Z.land_nonneg; right; done). lia.
Qed.

(** [install_page] either maps the page and shows its bytes, or changes
    nothing: the address is taken or there is no memory for a page table. *)
Lemma install_page_run s a fa c p u k w bs :
  loading s a fa c p → p_pages s !! k = Some bs → length bs = Z.to_nat PGSIZE →
  kpage_ok k → Z.shiftr (k - PHYS_BASE) PTSHIFT < init_ram_pages → user_va u → pg_ofs u = 0 →
  (install_page pal init_page_dir init_ram_pages u k w s = Ret (false, s) ∧
     (is_Some (pages a !! (pd s, pg_no u)) ∨ pal (p_vm s) = None)) ∨
  ∃ s', install_page pal init_page_dir init_ram_pages u k w s = Ret (true, s') ∧
    pages a !! (pd s, pg_no u) = None ∧
    loading s' (mk_spaces (active a) (<[(pd s, pg_no u) := mk_info k w false false]> (pages a))) fa c p ∧
    pd s' = pd s ∧ p_args s' = mk_args (write (umem s) u bs) (argv (p_args s)) (argc (p_args s)) ∧ p_fs s' = p_fs s.
Proof using Hpal.
  clear Huser Hold. intros Hlo Hk Hlen Hkok Hram Hu Hofs. destruct (Hlo) as [Hrep (Hpd & Hni & Hact) Hview Hfile].
  unfold install_page. rewrite gets_bind.
  rewrite (bind_Ret _ _ _ _ _ (on_vm_run _ s _ _ (get_page_run pal init_page_dir dirs (p_vm s) a (pd s) u Hrep Hpd Hu))), same_vm.
  destruct (pages a !! (pd s, pg_no u)) as [i|] eqn:Ei.
  { left. pose proof (frame_pos s a u i Hrep Hpd Hu Ei). rewrite Hofs, Z.add_0_r, eqb_false by lia. split; [done|]. left. by eexists. }
  rewrite Z.eqb_refl. cbn [negb].
  destruct (set_page_cases pal init_page_dir init_ram_pages dirs Hpal (p_vm s) a (pd s) u k w Hrep)
    as [[Hrun Hno]|(v & Hrun & Hrep' & _)]; [by split_and!| |].
  { left. rewrite (bind_Ret _ _ _ _ _ (on_vm_run _ s _ _ Hrun)), same_vm. split; [done|by right]. }
  right. rewrite (bind_Ret _ _ _ _ _ (on_vm_run _ s _ _ Hrun)). unfold show_page, mbind, cmd_bind.
  cbn [set_vm p_pages]. rewrite Hk. eexists. split; [done|]. split; [done|].
  cbn [p_args set_args set_pages p_vm p_pagedir p_fs]. rewrite place_write.
  split_and!; [|done|done|done]. split; cbn [p_args p_vm p_pagedir p_fs set_args set_pages set_vm bytes pages active]; [done|done| |done].
  intros va Hva. destruct (decide (pg_no va = pg_no u)) as [E|Hne].
  - rewrite E, lookup_insert_eq. split; [by eexists|]. intros _.
    apply (page_addrs u va Hva Hofs (proj1 Hu)) in E.
    apply (bytes_at_mapped _ u bs (bytes_at_write (umem s) u bs)). rewrite Hlen. change PGSIZE with 4096. lia.
  - rewrite lookup_insert_ne by congruence. rewrite write_lookup_out; [by apply Hview|].
    pose proof (proj2 (page_addrs u va Hva Hofs (proj1 Hu))). rewrite Hlen. change PGSIZE with 4096. lia.
Qed.

(** ** One page of a segment *)
(** Memory ran out at this point. *)
Definition out_of_memory s : Prop :=
  user_page s = None ∨ ∃ v, pal v = None ∧ tables v = tables (p_vm s).

Lemma fill_page_run s k i bs old :
  p_pages s !! k = Some old → (i + length bs <= length old)%nat →
  fill_page k i bs s = Ret (tt, set_pages (<[k := take i old ++ bs ++ drop (i + length bs) old]> (p_pages s)) s).
Proof. intros E Hl. unfold fill_page. by rewrite E, (proj2 (Nat.leb_le _ _)). Qed.

Context (fa : addr) (c : list Z).

(** The body of the loop up to [install_page], with the contents of the page. *)
Lemma read_page_run s a p k prb :
  loading s a fa c p → user_page s = Some k → 0 <= prb <= PGSIZE →
  let d := take (Z.to_nat prb) (drop (Z.to_nat p) c) in
  ∃ s0 s1, get_user_page user_page old_bytes false s = Ret (k, s0) ∧
    (d' ← on_fs (file_read (Some fa) prb); fill_page k 0 d';; mret d') s0 = Ret (d, s1) ∧
    loading s1 a fa c (p + Z.of_nat (length d)) ∧ p_args s1 = p_args s ∧ pd s1 = pd s ∧ p_vm s1 = p_vm s ∧
    p_pages s1 !! k = Some (d ++ drop (length d) old_bytes).
Proof using Hold.
  clear Hpal Huser. intros Hlo Hk Hprb d. exists (set_pages (<[k := old_bytes]> (p_pages s)) s).
  destruct (file_read_run (p_fs s) fa c p prb (lo_file _ _ _ _ _ Hlo)) as (x' & R & Ho & _). fold d in R, Ho.
  assert (Hdl : (0 + length d <= length old_bytes)%nat) by (rewrite Hold; unfold d; rewrite length_take; lia).
  eexists. split_and!.
  - unfold get_user_page. by rewrite Hk.
  - rewrite (bind_Ret _ _ _ _ _ (on_fs_run _ (set_pages _ s) _ _ R)).
    rewrite (bind_Ret _ _ _ _ _ (fill_page_run _ k 0 d old_bytes (lookup_insert_eq _ _ _)
      Hdl)). done.
  - apply loading_pages. apply (loading_fs (set_pages _ s) a fa c p); [by apply loading_pages|done].
  - done.
  - done.
  - done.
  - cbn [p_pages set_pages]. rewrite lookup_insert_eq. by rewrite take_0.
Qed.

Lemma segment_step fuel s a p u rb zb w :
  loading s a fa c p → 0 < rb + zb → 0 <= rb → 0 <= zb → user_va u → pg_ofs u = 0 →
  let prb := if rb <? PGSIZE then rb else PGSIZE in
  let d := take (Z.to_nat prb) (drop (Z.to_nat p) c) in
  (∃ s', segment_loop pal init_page_dir init_ram_pages user_page old_bytes (S fuel) (Some fa) u rb zb w s = Ret (false, s') ∧
     (∃ q, loading s' a fa c q) ∧ p_args s' = p_args s ∧ pd s' = pd s ∧
     (out_of_memory s' ∨ Z.of_nat (length d) < prb ∨ is_Some (pages a !! (pd s, pg_no u)))) ∨
  ∃ s1 k, segment_loop pal init_page_dir init_ram_pages user_page old_bytes (S fuel) (Some fa) u rb zb w s =
      segment_loop pal init_page_dir init_ram_pages user_page old_bytes fuel (Some fa) (u32 (u + PGSIZE)) (u32 (rb - prb))
        (u32 (zb - (PGSIZE - prb))) w s1 ∧
    Z.of_nat (length d) = prb ∧ pages a !! (pd s, pg_no u) = None ∧
    loading s1 (mk_spaces (active a) (<[(pd s, pg_no u) := mk_info k w false false]> (pages a))) fa c (p + prb) ∧
    pd s1 = pd s ∧
    p_args s1 = mk_args (write (umem s) u (d ++ replicate (Z.to_nat (PGSIZE - prb)) 0)) (argv (p_args s)) (argc (p_args s)).
Proof using Hpal Huser Hold.
  intros Hlo Hsum Hrb Hzb Hu Hofs prb d.
  assert (Hprb : 0 <= prb <= PGSIZE) by (unfold prb; change PGSIZE with 4096 in *; destruct (Z.ltb_spec rb 4096); lia).
  cbn [segment_loop]. rewrite (proj2 (orb_true_iff _ _)) by (rewrite !Z.ltb_lt; lia). fold prb.
  destruct (user_page s) as [k|] eqn:Euser.
  2:{ left. exists s. unfold get_user_page at 1, mbind at 1, cmd_bind at 1. rewrite Euser.
      split_and!; [done|by exists p|done|done|]. left. by left. }
  destruct (Huser s k Euser) as (Hkok & Hram & Hktab).
  destruct (read_page_run s a p k prb Hlo Euser Hprb) as (s0 & s1 & Hget & Hread & Hlo1 & Ha1 & Hpd1 & Hvm1 & Hpg1).
  fold d in Hread, Hlo1, Hpg1. rewrite (bind_Ret _ _ _ _ _ Hget). rewrite eqb_false by (destruct Hkok; unfold PHYS_BASE in *; lia).
  cbv zeta.
  assert (Hcont : ∀ (A : Type) (f : list Z → cmd (proc St) A),
    (d' ← on_fs (file_read (Some fa) prb); fill_page k 0 d';; f d') s0 = f d s1).
  { intros A f. revert Hread. unfold mbind, cmd_bind. destruct (on_fs _ s0) as [[d' s2]|]; [|done].
    destruct (fill_page k 0 d' s2) as [[[] s3]|]; [|done]. by intros [= -> ->]. }
  rewrite Hcont. assert (Hdl : (length d <= Z.to_nat prb)%nat) by (unfold d; rewrite length_take; lia).
  destruct (Z.eqb_spec (Z.of_nat (length d)) prb) as [El|El]; cbn [negb].
  2:{ left. destruct (free_user_page_run s1 a fa c _ k Hlo1 ltac:(by rewrite Hvm1)) as (s' & Hrun & Hlo' & Ha' & _ & Hpd').
      exists s'. rewrite (bind_Ret _ _ _ _ _ Hrun). split_and!; [done|by eexists|congruence|congruence|]. right. left. lia. }
  set (z := replicate (Z.to_nat (PGSIZE - prb)) 0).
  rewrite (bind_Ret _ _ _ _ _ (fill_page_run s1 k (Z.to_nat prb) z _ Hpg1 ltac:(unfold z;
    rewrite length_app, length_drop, length_replicate, Hold; lia))).
  rewrite <- El, Nat2Z.id, take_app_length, drop_ge, app_nil_r
    by (unfold z; rewrite length_app, length_drop, length_replicate, Hold; lia).
  set (s2 := set_pages _ s1).
  assert (Hlo2 : loading s2 a fa c (p + Z.of_nat (length d))) by by apply loading_pages.
  destruct (install_page_run s2 a fa c _ u k w (d ++ z) Hlo2 (lookup_insert_eq _ _ _)
    ltac:(unfold z; rewrite length_app, length_replicate; lia) Hkok Hram Hu Hofs) as [[Hrun Hwhy]|(s3 & Hrun & Hnone & Hlo3 & Hpd3 & Ha3 & _)];
    rewrite (bind_Ret _ _ _ _ _ Hrun); cbn [negb].
  - left. destruct (free_user_page_run s2 a fa c _ k Hlo2 ltac:(by rewrite <- Hvm1 in Hktab)) as (s' & Hrun' & Hlo' & Ha' & Ht' & Hpd').
    exists s'. rewrite (bind_Ret _ _ _ _ _ Hrun'). split_and!; [done|by eexists|by rewrite Ha', <- Ha1|by rewrite Hpd', <- Hpd1|].
    destruct Hwhy as [Hm|Hno]; [right; right; by rewrite <- Hpd1|]. left. right. exists (p_vm s2). by rewrite Ht'.
  - right. exists s3, k. cbn [s2 set_pages p_pagedir p_args] in Hnone, Hlo3, Hpd3, Ha3. rewrite Hpd1, Ha1 in *. split_and!; done.
Qed.

(** ** The whole segment *)
(** The bytes a segment of [rb + zb] bytes gets, from position [p] of the file. *)
Definition segment_bytes (p rb zb : Z) : list Z :=
  take (Z.to_nat rb) (drop (Z.to_nat p) c) ++ replicate (Z.to_nat zb) 0.

Lemma segment_bytes_step p rb zb (prb := if rb <? PGSIZE then rb else PGSIZE) :
  0 <= p → 0 <= rb → 0 <= zb → 4096 <= rb + zb →
  segment_bytes p rb zb =
    (take (Z.to_nat prb) (drop (Z.to_nat p) c) ++ replicate (Z.to_nat (PGSIZE - prb)) 0)
      ++ segment_bytes (p + prb) (rb - prb) (zb - (PGSIZE - prb)).
Proof using.
  clear. intros Hp Hrb Hzb Hs. unfold segment_bytes, prb. change PGSIZE with 4096. destruct (Z.ltb_spec rb 4096).
  - rewrite Z.sub_diag. cbn [Z.to_nat take]. rewrite take_0, app_nil_l, <- (assoc_L (++)), <- replicate_add. do 2 f_equal. lia.
  - change (Z.to_nat (4096 - 4096)) with 0%nat. cbn [replicate]. rewrite app_nil_r, (assoc_L (++)). f_equal; [|f_equal; lia].
    replace (Z.to_nat (p + 4096)) with (Z.to_nat p + Z.to_nat 4096)%nat by lia. rewrite <- drop_drop.
    replace (Z.to_nat rb) with (Z.to_nat 4096 + Z.to_nat (rb - 4096))%nat by lia. by rewrite take_take_drop.
Qed.

(** After [b] from [load_segment]: on success the bytes and the page rights
    are there; on failure one of the three documented reasons holds. *)
Definition segment_result (b : bool) s a (p u rb zb : Z) (n : nat) (w : bool) s' a' : Prop :=
  if b then
    bytes_at (umem s') u (segment_bytes p rb zb) ∧ p + rb <= Z.of_nat (length c) `max` p ∧
    ∀ i, (i < n)%nat → pages a !! (pd s, pg_no u + Z.of_nat i) = None ∧
      ∃ k, pages a' !! (pd s, pg_no u + Z.of_nat i) = Some (mk_info k w false false)
  else out_of_memory s' ∨ Z.of_nat (length c) < p + rb ∨
    ∃ i, (i < n)%nat ∧ is_Some (pages a !! (pd s, pg_no u + Z.of_nat i)).

Record segment_frame s a u (n : nat) s' a' : Prop := {
  sf_pd : pd s' = pd s;
  sf_args : argv (p_args s') = argv (p_args s) ∧ argc (p_args s') = argc (p_args s);
  sf_bytes : ∀ x, x < u ∨ u + 4096 * Z.of_nat n <= x → umem s' !! x = umem s !! x;
  sf_pages : ∀ d pn, (d = pd s → pn < pg_no u ∨ pg_no u + Z.of_nat n <= pn) →
    pages a' !! (d, pn) = pages a !! (d, pn) }.

Lemma pg_no_next u : pg_no (u + 4096) = pg_no u + 1.
Proof using. clear. rewrite !pg_no_div. Z.div_mod_to_equations. lia. Qed.

Lemma segment_loop_run n fuel s a p u rb zb w :
  loading s a fa c p → (n < fuel)%nat → rb + zb = 4096 * Z.of_nat n → 0 <= rb → 0 <= zb →
  0 <= u → pg_ofs u = 0 → u + 4096 * Z.of_nat n <= PHYS_BASE →
  ∃ b s' a' q, segment_loop pal init_page_dir init_ram_pages user_page old_bytes fuel (Some fa) u rb zb w s = Ret (b, s') ∧
    loading s' a' fa c q ∧ segment_frame s a u n s' a' ∧ segment_result b s a p u rb zb n w s' a'.
Proof using Hpal Huser Hold.
  revert fuel s a p u rb zb. induction n as [|n IH]; intros [|fuel] s a p u rb zb Hlo Hf Hsum Hrb Hzb Hu Hofs Hend; try lia.
  { assert (rb = 0) as -> by lia. assert (zb = 0) as -> by lia. exists true, s, a, p. split_and!; [done|done|by split|].
    split_and!; [done|lia|lia]. }
  assert (Huv : user_va u) by (unfold user_va; lia). pose proof (op_pos _ _ _ _ (lo_file _ _ _ _ _ Hlo)) as Hp.
  pose proof (segment_bytes_step p rb zb Hp Hrb Hzb ltac:(lia)) as Hsb.
  set (prb := if rb <? PGSIZE then rb else PGSIZE) in *.
  assert (Hprb : 0 <= prb <= 4096 ∧ prb <= rb ∧ 4096 - prb <= zb).
  { unfold prb. change PGSIZE with 4096. destruct (Z.ltb_spec rb 4096); lia. }
  destruct (segment_step fuel s a p u rb zb w Hlo ltac:(lia) Hrb Hzb Huv Hofs)
    as [(s' & Hrun & [q Hlo'] & Ha' & Hpd' & Hwhy)|(s1 & k & Hrun & Hd & Hnone & Hlo1 & Hpd1 & Ha1)].
  { fold prb in Hwhy. exists false, s', a, q. split_and!; [exact Hrun|done|split; rewrite ?Ha'; done|].
    destruct Hwhy as [?|[Hs|Hs]]; [by left|right; left|right; right].
    - rewrite length_take, length_drop in Hs. lia.
    - exists 0%nat. rewrite Z.add_0_r. split; [lia|done]. }
  fold prb in Hrun, Hd, Hlo1, Ha1. rewrite Hrun. rewrite !u32_small by (change PGSIZE with 4096; unfold PHYS_BASE in *; lia). change PGSIZE with 4096 in *.
  set (a1 := mk_spaces (active a) _) in Hlo1. set (d := take (Z.to_nat prb) (drop (Z.to_nat p) c)) in *.
  destruct (IH fuel s1 a1 (p + prb) (u + 4096) (rb - prb) (zb - (4096 - prb)) Hlo1) as (b & s' & a' & q & Hrun' & Hlo' & Hfr & Hres);
    [lia|lia|lia|lia|lia| |lia|]; [rewrite pg_ofs_mod in *; Z.div_mod_to_equations; lia|].
  pose proof (pg_no_next u) as Hnx. destruct Hfr as [F1 [F2 F3] F4 F5].
  unfold segment_result in Hres. rewrite Ha1 in F2, F3, F4. rewrite Hpd1 in F1, F5, Hres. cbn [argv argc bytes] in F2, F3, F4.
  assert (Hpl : length (d ++ replicate (Z.to_nat (4096 - prb)) 0) = 4096%nat) by (rewrite length_app, length_replicate; lia).
  exists b, s', a', q. split_and!; [exact Hrun'|done| |].
  - split; [done|done| |].
    + intros x Hx. rewrite F4 by lia. apply write_lookup_out. rewrite Hpl. lia.
    + intros dd pn Hpn. rewrite F5 by lia. unfold a1. cbn [pages]. apply lookup_insert_ne. intros [= E1 E2].
      specialize (Hpn (eq_sym E1)). lia.
  - destruct b; unfold segment_result.
    + destruct Hres as (Hb & Hle & Hpages). split_and!.
      * rewrite Hsb. apply bytes_at_app. rewrite Hpl. change (Z.of_nat 4096) with 4096. split; [|done].
        eapply bytes_at_agree; [|apply (bytes_at_write (umem s))]. intros x Hx. rewrite Hpl in Hx. apply F4. lia.
      * unfold d in Hd. rewrite length_take, length_drop in Hd. lia.
      * intros [|i] Hi.
        -- rewrite Z.add_0_r. split; [done|]. exists k. rewrite F5 by lia. apply lookup_insert_eq.
        -- destruct (Hpages i ltac:(lia)) as [Hn' [k' Hk']].
           replace (pg_no u + Z.of_nat (S i)) with (pg_no (u + 4096) + Z.of_nat i) by lia. split; [|by exists k'].
           revert Hn'. unfold a1. cbn [pages]. by rewrite lookup_insert_ne by (intros [=]; lia).
    + destruct Hres as [?|[?|(i & Hi & Hm)]]; [by left|right; left; lia|right; right].
      exists (S i). split; [lia|]. revert Hm. unfold a1. cbn [pages]. rewrite lookup_insert_ne by (intros [=]; lia).
      by replace (pg_no u + Z.of_nat (S i)) with (pg_no (u + 4096) + Z.of_nat i) by lia.
Qed.

Definition page_cnt (g : segment) : nat := Z.to_nat ((read_bytes g + zero_bytes g) / 4096).

Lemma load_segment_run s a p g :
  loading s a fa c p → segment_ok g (Z.of_nat (length c)) → Z.of_nat (length c) < 2 ^ 31 →
  ∃ b s' a' q, load_segment pal init_page_dir init_ram_pages user_page old_bytes (Some fa) (s32 (file_page g)) (mem_page g)
      (read_bytes g) (zero_bytes g) (seg_writable g) s = Ret (b, s') ∧
    loading s' a' fa c q ∧ segment_frame s a (mem_page g) (page_cnt g) s' a' ∧
    segment_result b s a (file_page g) (mem_page g) (read_bytes g) (zero_bytes g) (page_cnt g) (seg_writable g) s' a'.
Proof using Hpal Huser Hold.
  intros Hlo [[F1 F2] [M1 M2] (S1 & S2 & S3) E1] Hlen. change PGSIZE with 4096 in M2. unfold PHYS_BASE in E1.
  rewrite s32_small by lia. unfold load_segment. change PGSIZE with 4096.
  rewrite (u32_small (read_bytes g + zero_bytes g)), (u32_small (file_page g)) by lia. rewrite F1, S3.
  rewrite !ASSERT_bind by (done || (rewrite pg_ofs_mod, M1; done)).
  destruct (file_seek_run (p_fs s) fa c p (file_page g) (lo_file _ _ _ _ _ Hlo) ltac:(lia)) as (x & R & Ho & _).
  rewrite (bind_Ret _ _ _ _ _ (on_fs_run _ s _ _ R)).
  destruct (segment_loop_run (page_cnt g) (S (page_cnt g)) (set_fs x s) a (file_page g) (mem_page g) (read_bytes g)
    (zero_bytes g) (seg_writable g)) as (b & s' & a' & q & Hrun & Hlo' & [G1 G2 G3 G4] & Hres).
  - by eapply loading_fs.
  - lia.
  - unfold page_cnt. Z.div_mod_to_equations. lia.
  - done.
  - done.
  - lia.
  - by rewrite pg_ofs_mod.
  - unfold page_cnt, PHYS_BASE. Z.div_mod_to_equations. lia.
  - exists b, s', a', q. split_and!; [exact Hrun|done|by split|exact Hres].
Qed.

(** ** Segments in memory *)
Record loaded s a (g : segment) : Prop := {
  ld_bytes : bytes_at (umem s) (mem_page g) (segment_bytes (file_page g) (read_bytes g) (zero_bytes g));
  ld_rights : ∀ i, (i < page_cnt g)%nat →
    ∃ k, pages a !! (pd s, pg_no (mem_page g) + Z.of_nat i) = Some (mk_info k (seg_writable g) false false) }.

Lemma segment_bytes_length p rb zb : 0 <= rb → 0 <= zb → Z.of_nat (length (segment_bytes p rb zb)) <= rb + zb.
Proof using. clear. intros. unfold segment_bytes. rewrite length_app, length_take, length_replicate. lia. Qed.

(** Mapping new pages leaves the segments already loaded alone. *)
Lemma loaded_frame s a u n s' a' g :
  loaded s a g → segment_frame s a u n s' a' → segment_ok g (Z.of_nat (length c)) → pg_ofs u = 0 → 0 <= u →
  u + 4096 * Z.of_nat n <= PHYS_BASE →
  (∀ i, (i < n)%nat → pages a !! (pd s, pg_no u + Z.of_nat i) = None) → loaded s' a' g.
Proof using.
  clear Hpal Huser Hold user_page. intros [L1 L2] [F1 F2 F3 F4] [_ [M1 M2] (S1 & S2 & S3) E1] Hu Hu0 Hend Hnew.
  assert (Hdis : ∀ i, (i < page_cnt g)%nat → pg_no (mem_page g) + Z.of_nat i < pg_no u ∨
                    pg_no u + Z.of_nat n <= pg_no (mem_page g) + Z.of_nat i).
  { intros i Hi. destruct (decide (pg_no u <= pg_no (mem_page g) + Z.of_nat i < pg_no u + Z.of_nat n)) as [Hin|]; [|lia].
    destruct (L2 i Hi) as [k Hk]. specialize (Hnew (Z.to_nat (pg_no (mem_page g) + Z.of_nat i - pg_no u)) ltac:(lia)).
    replace (pg_no u + Z.of_nat _) with (pg_no (mem_page g) + Z.of_nat i) in Hnew by lia. congruence. }
  split.
  - eapply bytes_at_agree; [|exact L1]. intros x Hx. apply F3.
    pose proof (segment_bytes_length (file_page g) (read_bytes g) (zero_bytes g) S1 S2) as Hbl.
    specialize (Hdis (Z.to_nat ((x - mem_page g) / 4096))). rewrite !pg_no_div, pg_ofs_mod in *. unfold page_cnt in Hdis.
    change PGSIZE with 4096 in M2. Z.div_mod_to_equations. lia.
  - intros i Hi. rewrite F1, F4; [by apply L2|]. intros _. by apply Hdis.
Qed.

(** ** The program headers *)
Context (Hc : Forall byte c).
Definition phdr_at (ofs : Z) : Elf32_Phdr := phdr_of (take (Z.to_nat PHDR_SIZE) (drop (Z.to_nat ofs) c)).

Lemma phdr_at_wf ofs : phdr_wf (phdr_at ofs).
Proof using Hc. apply phdr_of_wf. by apply Forall_take, Forall_drop. Qed.

(** Nothing of the kernel changes, and segments in memory stay. *)
Record unharmed s a s' a' : Prop := {
  kp_pd : pd s' = pd s;
  kp_args : argv (p_args s') = argv (p_args s) ∧ argc (p_args s') = argc (p_args s);
  kp_kernel : ∀ x, PHYS_BASE <= x → umem s' !! x = umem s !! x;
  kp_loaded : ∀ g, segment_ok g (Z.of_nat (length c)) → loaded s a g → loaded s' a' g }.

Lemma unharmed_fs s a x : unharmed s a (set_fs x s) a.
Proof using. clear. split; try done. intros g _ [L1 L2]. by split. Qed.

Lemma unharmed_trans s a s1 a1 s2 a2 : unharmed s a s1 a1 → unharmed s1 a1 s2 a2 → unharmed s a s2 a2.
Proof using.
  clear. intros [K1 [K2 K3] K4 K5] [J1 [J2 J3] J4 J5]. split; [congruence|split; congruence| |].
  - intros x Hx. rewrite J4 by done. by apply K4.
  - intros g Hg Hl. apply J5; [done|]. by apply K5.
Qed.

(** A program header the loader accepts: its segment, if it has one, is
    valid and in memory. *)
Definition header_done s a (h : Elf32_Phdr) : Prop :=
  p_type h ∉ [PT_DYNAMIC; PT_INTERP; PT_SHLIB] ∧
  (p_type h = PT_LOAD → validate_segment h (Z.of_nat (length c)) = true ∧ loaded s a (segment_of h)).

Lemma header_unharmed s a s' a' h :
  Z.of_nat (length c) < 2 ^ 31 → phdr_wf h → unharmed s a s' a' → header_done s a h → header_done s' a' h.
Proof using.
  clear Hpal Huser Hold Hc. intros Hl Hw K [H1 H2]. split; [done|]. intros E. destruct (H2 E) as [Hv Hd]. split; [done|].
  apply (kp_loaded _ _ _ _ K); [|done]. apply (validated_segment h); [done|lia|done].
Qed.

Lemma length_bound s a p : loading s a fa c p → Z.of_nat (length c) < 2 ^ 30.
Proof using. clear. intros Hlo. apply (file_length_run _ _ _ _ (lo_file _ _ _ _ _ Hlo)). Qed.

(** *** Why a header is refused *)
Definition seg_page (g : segment) (pn : Z) : Prop :=
  pg_no (mem_page g) <= pn < pg_no (mem_page g) + Z.of_nat (page_cnt g).
(** Page [pn] belongs to a segment of the first [n] headers. *)
Definition covered (ofs : Z) (n : nat) (pn : Z) : Prop :=
  ∃ i, (i < n)%nat ∧ let h := phdr_at (ofs + PHDR_SIZE * Z.of_nat i) in
    p_type h = PT_LOAD ∧ seg_page (segment_of h) pn.
(** The header at [ofs] is cut off, of a refused type, not valid, needs bytes
    the file does not have, or needs a page that is taken. *)
Definition header_refused (taken : Z → Prop) (ofs : Z) : Prop :=
  let len := Z.of_nat (length c) in let h := phdr_at ofs in let g := segment_of h in
  ofs < 0 ∨ len < ofs + PHDR_SIZE ∨ p_type h ∈ [PT_DYNAMIC; PT_INTERP; PT_SHLIB] ∨
  p_type h = PT_LOAD ∧
    (validate_segment h len = false ∨ len < file_page g + read_bytes g ∨ ∃ pn, seg_page g pn ∧ taken pn).
Definition headers_refused (taken : Z → Prop) (ofs : Z) (n : nat) : Prop :=
  ∃ i, (i < n)%nat ∧ header_refused (λ pn, taken pn ∨ covered ofs i pn) (ofs + PHDR_SIZE * Z.of_nat i).
Definition mapped_pages (d : Z) (a : spaces) (pn : Z) : Prop := is_Some (pages a !! (d, pn)).

Lemma header_refused_mono (T T' : Z → Prop) ofs : (∀ pn, T pn → T' pn) → header_refused T ofs → header_refused T' ofs.
Proof using. clear. unfold header_refused. naive_solver. Qed.

Lemma covered_shift ofs n pn : covered (ofs + PHDR_SIZE) n pn → covered ofs (S n) pn.
Proof using.
  clear. intros (i & Hi & Hc). exists (S i). split; [lia|].
  by replace (ofs + PHDR_SIZE * Z.of_nat (S i)) with (ofs + PHDR_SIZE + PHDR_SIZE * Z.of_nat i) by lia.
Qed.

Lemma covered_first ofs n pn :
  p_type (phdr_at ofs) = PT_LOAD → seg_page (segment_of (phdr_at ofs)) pn → covered ofs (S n) pn.
Proof using. clear. intros H1 H2. exists 0%nat. split; [lia|]. by rewrite Z.mul_0_r, Z.add_0_r. Qed.

Lemma headers_refused_first T ofs n : header_refused T ofs → headers_refused T ofs (S n).
Proof using.
  clear. intros H. exists 0%nat. split; [lia|]. rewrite Z.mul_0_r, Z.add_0_r. eapply header_refused_mono; [|exact H]. by left.
Qed.

Lemma headers_refused_shift (T T1 : Z → Prop) ofs n :
  (∀ pn, T1 pn → T pn ∨ p_type (phdr_at ofs) = PT_LOAD ∧ seg_page (segment_of (phdr_at ofs)) pn) →
  headers_refused T1 (ofs + PHDR_SIZE) n → headers_refused T ofs (S n).
Proof using.
  clear. intros HT (i & Hi & Hr). exists (S i). split; [lia|].
  replace (ofs + PHDR_SIZE * Z.of_nat (S i)) with (ofs + PHDR_SIZE + PHDR_SIZE * Z.of_nat i) by lia.
  eapply header_refused_mono; [|exact Hr]. cbv beta. intros pn [Ht|Hcov]; [|right; by apply covered_shift].
  destruct (HT pn Ht) as [?|[? ?]]; [by left|right; by apply covered_first].
Qed.

(** *** Loading one valid segment *)
Lemma load_valid_segment s a p h :
  loading s a fa c p → phdr_wf h → validate_segment h (Z.of_nat (length c)) = true →
  let g := segment_of h in
  ∃ b s' a' q, load_segment pal init_page_dir init_ram_pages user_page old_bytes (Some fa) (s32 (file_page g)) (mem_page g)
      (read_bytes g) (zero_bytes g) (seg_writable g) s = Ret (b, s') ∧
    loading s' a' fa c q ∧
    if b then unharmed s a s' a' ∧ loaded s' a' g ∧
      ∀ pn, mapped_pages (pd s) a' pn → mapped_pages (pd s) a pn ∨ seg_page g pn
    else out_of_memory s' ∨ Z.of_nat (length c) < file_page g + read_bytes g ∨
      ∃ pn, seg_page g pn ∧ mapped_pages (pd s) a pn.
Proof using Hpal Huser Hold.
  intros Hlo Hw Hv g. pose proof (length_bound _ _ _ Hlo) as Hl.
  destruct (validated_segment h (Z.of_nat (length c)) Hw ltac:(lia) Hv) as [Hso _]. fold g in Hso.
  destruct (load_segment_run s a p g Hlo Hso ltac:(lia)) as (b & s' & a' & q & Hrun & Hlo' & Hfr & Hres).
  exists b, s', a', q. split_and!; [exact Hrun|done|]. destruct b.
  2:{ destruct Hres as [?|[?|(i & Hi & Hm)]]; [by left|by right; left|right; right].
      exists (pg_no (mem_page g) + Z.of_nat i). split; [unfold seg_page; lia|done]. }
  destruct Hres as (Hb & _ & Hpg). pose proof Hso as [_ [M1 M2] (S1 & S2 & S3) E1]. change PGSIZE with 4096 in M2.
  assert (Hend : mem_page g + 4096 * Z.of_nat (page_cnt g) <= PHYS_BASE).
  { unfold page_cnt. Z.div_mod_to_equations. lia. }
  split_and!; [split| |]; try apply Hfr.
  - intros x Hx. apply Hfr. lia.
  - intros g' Hg' Hld. apply (loaded_frame s a (mem_page g) (page_cnt g) s' a' g'); try done; [by rewrite pg_ofs_mod|lia|].
    intros i Hi. apply Hpg. done.
  - split; [done|]. intros i Hi. rewrite (sf_pd _ _ _ _ _ _ Hfr). apply Hpg. done.
  - intros pn Hm. unfold seg_page.
    destruct (decide (pg_no (mem_page g) <= pn < pg_no (mem_page g) + Z.of_nat (page_cnt g))); [by right|left].
    unfold mapped_pages in *. rewrite (sf_pages _ _ _ _ _ _ Hfr) in Hm; [done|]. lia.
Qed.

(** What [load_headers] leaves after [n] headers from [ofs] on. *)
Definition headers_result (b : bool) s a (ofs : Z) (n : nat) s' a' : Prop :=
  if b then
    unharmed s a s' a' ∧ (∀ i, (i < n)%nat → header_done s' a' (phdr_at (ofs + PHDR_SIZE * Z.of_nat i))) ∧
    ∀ pn, mapped_pages (pd s) a' pn → mapped_pages (pd s) a pn ∨ covered ofs n pn
  else out_of_memory s' ∨ headers_refused (mapped_pages (pd s) a) ofs n.

Lemma headers_result_step b s a ofs n s4 a4 s' a' (h := phdr_at ofs) :
  Z.of_nat (length c) < 2 ^ 30 → unharmed s a s4 a4 → header_done s4 a4 h →
  (∀ pn, mapped_pages (pd s) a4 pn → mapped_pages (pd s) a pn ∨ p_type h = PT_LOAD ∧ seg_page (segment_of h) pn) →
  headers_result b s4 a4 (ofs + PHDR_SIZE) n s' a' → headers_result b s a ofs (S n) s' a'.
Proof using Hc.
  clear Hpal Huser Hold. intros Hlen K4 Hd Hm Hres. unfold headers_result in *. rewrite (kp_pd _ _ _ _ K4) in Hres. destruct b.
  - destruct Hres as (K & Hall & Hpg). split_and!; [by eapply unharmed_trans| |].
    + intros [|i] Hi.
      * rewrite Z.mul_0_r, Z.add_0_r. eapply header_unharmed; [lia|apply phdr_at_wf|done|done].
      * replace (ofs + PHDR_SIZE * Z.of_nat (S i)) with (ofs + PHDR_SIZE + PHDR_SIZE * Z.of_nat i) by lia. apply Hall. lia.
    + intros pn Hp. destruct (Hpg pn Hp) as [H1|H1]; [|right; by apply covered_shift].
      destruct (Hm pn H1) as [?|[? ?]]; [by left|right; by apply covered_first].
  - destruct Hres as [?|Hr]; [by left|right]. by eapply headers_refused_shift.
Qed.

Lemma load_headers_run n s a p ofs :
  loading s a fa c p →
  ∃ b s' a' q, load_headers pal init_page_dir init_ram_pages user_page old_bytes n (Some fa) ofs s = Ret (b, s') ∧
    loading s' a' fa c q ∧ headers_result b s a ofs n s' a'.
Proof using Hpal Huser Hold Hc.
  revert s a p ofs. induction n as [|n IH]; intros s a p ofs Hlo.
  { exists true, s, a, p. split_and!; [done|done|]. split_and!; [by split|lia|by left]. }
  pose proof (length_bound _ _ _ Hlo) as Hlen. cbn [load_headers].
  destruct (Z.ltb_spec ofs 0) as [Hneg|Hofs].
  { rewrite ret_bind. exists false, s, a, p. split_and!; [done|done|]. right. apply headers_refused_first. by left. }
  destruct (file_length_run _ _ _ _ (lo_file _ _ _ _ _ Hlo)) as (_ & x1 & R1 & O1 & _).
  rewrite (bind_Ret _ _ _ _ _ (on_fs_run _ s _ _ R1)). cbn [orb].
  pose proof (loading_fs _ _ _ _ _ _ _ Hlo O1) as Hlo1. set (s1 := set_fs x1 s) in *.
  destruct (Z.ltb_spec (Z.of_nat (length c)) ofs) as [Hpast|Hle].
  { exists false, s1, a, p. split_and!; [done|done|]. right. apply headers_refused_first. right. left. unfold PHDR_SIZE. lia. }
  destruct (file_seek_run _ _ _ _ ofs (lo_file _ _ _ _ _ Hlo1) Hofs) as (x2 & R2 & O2 & _).
  rewrite (bind_Ret _ _ _ _ _ (on_fs_run _ s1 _ _ R2)).
  destruct (file_read_run _ _ _ _ PHDR_SIZE O2) as (x3 & R3 & O3 & _).
  rewrite (bind_Ret _ _ _ _ _ (on_fs_run _ (set_fs x2 s1) _ _ R3)). fold (phdr_at ofs).
  pose proof (loading_fs _ _ _ _ _ _ _ Hlo1 O3) as Hlo3. change (set_fs x3 (set_fs x2 s1)) with (set_fs x3 s) in *.
  change (set_fs x3 s1) with (set_fs x3 s) in *. set (s3 := set_fs x3 s) in *.
  assert (K3 : unharmed s a s3 a) by apply unharmed_fs. set (q3 := ofs + _) in Hlo3.
  destruct (Z.eqb_spec (Z.of_nat (length (take (Z.to_nat PHDR_SIZE) (drop (Z.to_nat ofs) c)))) PHDR_SIZE) as [El|El]; cbn [negb].
  2:{ exists false, s3, a, q3. split_and!; [done|done|]. right. apply headers_refused_first. right. left.
      rewrite length_take, length_drop in El. unfold PHDR_SIZE in *. lia. }
  rewrite s32_small by (unfold PHDR_SIZE; lia). set (h := phdr_at ofs).
  assert (Hnext : ∀ s4 a4 q4, loading s4 a4 fa c q4 → unharmed s a s4 a4 → header_done s4 a4 h →
    (∀ pn, mapped_pages (pd s) a4 pn → mapped_pages (pd s) a pn ∨ p_type h = PT_LOAD ∧ seg_page (segment_of h) pn) →
    ∃ b s' a' q, load_headers pal init_page_dir init_ram_pages user_page old_bytes n (Some fa) (ofs + PHDR_SIZE) s4 = Ret (b, s') ∧
      loading s' a' fa c q ∧ headers_result b s a ofs (S n) s' a').
  { intros s4 a4 q4 Hlo4 K4 Hd Hm. destruct (IH s4 a4 q4 (ofs + PHDR_SIZE) Hlo4) as (b & s' & a' & q & Hrun & Hlo' & Hb).
    exists b, s', a', q. split_and!; [done|done|]. by apply (headers_result_step b s a ofs n s4 a4). }
  assert (Hfail : ∀ s' q, loading s' a fa c q → header_refused (mapped_pages (pd s) a) ofs →
    ∃ b s'' a' q, mret (M := cmd (proc St)) false s' = Ret (b, s'') ∧ loading s'' a' fa c q ∧ headers_result b s a ofs (S n) s'' a').
  { intros s' q Hl' Hr. exists false, s', a, q. split_and!; [done|done|]. right. by apply headers_refused_first. }
  destruct ((p_type h =? PT_DYNAMIC) || (p_type h =? PT_INTERP) || (p_type h =? PT_SHLIB)) eqn:Ebad.
  { apply (Hfail s3 q3 Hlo3). right. right. left. rewrite !orb_true_iff, !Z.eqb_eq in Ebad. rewrite !elem_of_cons. tauto. }
  assert (Hty : p_type h ∉ [PT_DYNAMIC; PT_INTERP; PT_SHLIB]).
  { rewrite !orb_false_iff, !Z.eqb_neq in Ebad. rewrite !not_elem_of_cons. destruct Ebad as [[? ?] ?].
    split_and!; try done. by apply not_elem_of_nil. }
  destruct (Z.eqb_spec (p_type h) PT_LOAD) as [Eld|Hno].
  2:{ apply (Hnext s3 a q3); [done|done|by split|by left]. }
  destruct (file_length_run _ _ _ _ (lo_file _ _ _ _ _ Hlo3)) as (_ & x4 & R4 & O4 & _).
  rewrite (bind_Ret _ _ _ _ _ (on_fs_run _ s3 _ _ R4)). pose proof (loading_fs _ _ _ _ _ _ _ Hlo3 O4) as Hlo4.
  set (s4 := set_fs x4 s3) in *. destruct (validate_segment h (Z.of_nat (length c))) eqn:Ev.
  2:{ apply (Hfail s4 q3 Hlo4). do 3 right. split; [done|by left]. }
  destruct (load_valid_segment s4 a q3 h Hlo4 (phdr_at_wf ofs) Ev) as (b & s5 & a5 & q5 & Hrun & Hlo5 & Hb).
  cbv zeta in Hrun |- *. rewrite (bind_Ret _ _ _ _ _ Hrun). destruct b.
  - destruct Hb as (K5 & Hld & Hm). apply (Hnext s5 a5 q5); [done| |by split|].
    + eapply unharmed_trans; [apply (unharmed_fs s a x4)|exact K5].
    + intros pn Hpn. destruct (Hm pn Hpn) as [?|?]; [by left|by right].
  - exists false, s5, a5, q5. split_and!; [done|done|]. destruct Hb as [?|Hb]; [by left|right].
    apply headers_refused_first. do 3 right. split; [done|]. by right.
Qed.

(** ** The stack and the whole image *)
(** [argv] and [argc] describe the strings [ss], in kernel memory. *)
Definition args_ready s (ss : list (list Z)) : Prop :=
  argc (p_args s) = Z.of_nat (length ss) ∧ ∃ ps, (∀ i q, ps !! i = Some q → argv (p_args s) !! i = Some q) ∧
    Forall (λ q, PHYS_BASE <= q) ps ∧ Forall2 (cstr (umem s)) ps ss.

Lemma args_ready_unharmed s a s' a' ss : unharmed s a s' a' → args_ready s ss → args_ready s' ss.
Proof using.
  clear. intros [_ [E1 E2] Ek _] [Hn (ps & Hav & Hk & Hss)]. unfold args_ready. rewrite E1, E2.
  split; [done|]. exists ps. split_and!; [done|done|]. by apply (strings_ok_agree ps ss Hk (umem s)).
Qed.

Lemma STACK_page : pg_ofs STACK = 0 ∧ 0 <= STACK ∧ user_va STACK ∧ STACK + 4096 * Z.of_nat 1 <= PHYS_BASE.
Proof using. clear. split_and!; by_decision. Qed.

Lemma setup_stack_run s a p ss :
  loading s a fa c p → args_ready s ss → frame_size ss <= PGSIZE →
  (∃ s', setup_stack pal init_page_dir init_ram_pages user_page old_bytes s = Ret (None, s') ∧
     (out_of_memory s' ∨ mapped_pages (pd s) a (pg_no STACK))) ∨
  ∃ s' a' k, setup_stack pal init_page_dir init_ram_pages user_page old_bytes s = Ret (Some (PHYS_BASE - frame_size ss), s') ∧
    main_frame (umem s') (PHYS_BASE - frame_size ss) ss ∧ represents init_page_dir dirs (p_vm s') a' ∧
    unharmed s a s' a' ∧ pages a' !! (pd s, pg_no STACK) = Some (mk_info k true false false) ∧ p_fs s' = p_fs s.
Proof using Hpal Huser.
  clear Hold Hc. intros Hlo Har Hfit. unfold setup_stack. destruct (user_page s) as [k|] eqn:Eu.
  2:{ left. exists s. unfold get_user_page, mbind, cmd_bind. rewrite Eu. split; [done|]. left. by left. }
  destruct (Huser s k Eu) as (Hk & Hram & Htab). destruct STACK_page as (U1 & U2 & U3 & U4).
  set (s0 := set_pages (<[k := replicate (Z.to_nat PGSIZE) 0]> (p_pages s)) s).
  assert (Eg : get_user_page user_page old_bytes true s = Ret (k, s0)) by (unfold get_user_page; by rewrite Eu).
  rewrite (bind_Ret _ _ _ _ _ Eg), eqb_false by (destruct Hk; unfold PHYS_BASE in *; lia). fold STACK.
  assert (Hlo0 : loading s0 a fa c p) by by apply loading_pages.
  destruct (install_page_run s0 a fa c p STACK k true _ Hlo0 (lookup_insert_eq _ _ _) (length_replicate _ _) Hk Hram U3 U1)
    as [[Hrun Hwhy]|(s1 & Hrun & Hnone & Hlo1 & Hpd1 & Ha1 & Hfs1)]; rewrite (bind_Ret _ _ _ _ _ Hrun).
  - left. destruct (free_user_page_run s0 a fa c p k Hlo0 Htab) as (s' & Hrun' & _ & _ & Ht & _).
    exists s'. rewrite (bind_Ret _ _ _ _ _ Hrun'). split; [done|]. destruct Hwhy as [?|?]; [by right|left; right].
    exists (p_vm s0). by rewrite Ht.
  - right. destruct Har as [Hn (ps & Hav & Hkern & Hss)]. cbn [s0 set_pages p_args p_pagedir] in Ha1, Hpd1, Hnone, Hlo1.
    set (m1 := write (umem s) STACK (replicate (Z.to_nat PGSIZE) 0)) in *.
    assert (Hout : ∀ x, x < STACK ∨ PHYS_BASE <= x → m1 !! x = umem s !! x).
    { intros x Hx. apply write_lookup_out. rewrite length_replicate. consts. lia. }
    destruct (push_arguments_run m1 (argv (p_args s)) ps ss Hav Hkern) as (m' & Hpush & Hmf & Hag).
    + apply (strings_ok_agree ps ss Hkern (umem s)); [|done]. intros x Hx. apply Hout. by right.
    + eapply mapped_sub; [apply bytes_at_mapped, bytes_at_write|lia|rewrite length_replicate; lia].
    + done.
    + rewrite Hn in Ha1. rewrite <- Ha1 in Hpush. unfold on_args, mbind, cmd_bind. rewrite Hpush.
      set (s' := set_args _ s1). set (a1 := mk_spaces _ _) in Hlo1. exists s', a1, k.
      assert (Hfr : segment_frame s a STACK 1 s' a1).
      { split; [done|done| |].
        - intros x Hx. change (umem s') with m'. rewrite Hag, Hout by (consts; lia). done.
        - intros d pn Hpn. apply lookup_insert_ne. intros [= E1 E2]. specialize (Hpn (eq_sym E1)). lia. }
      split_and!; [done|done|apply Hlo1| |apply lookup_insert_eq|done].
      split; [done|done|intros x Hx; apply Hfr; lia|]. intros g Hg Hld. apply (loaded_frame s a STACK 1 s' a1 g); try done.
      intros i Hi. by replace (pg_no STACK + Z.of_nat i) with (pg_no STACK) by lia.
Qed.

Lemma unharmed_same s a s' : pd s' = pd s → p_args s' = p_args s → unharmed s a s' a.
Proof using. clear. intros E1 E2. split; rewrite ?E1, ?E2; try done. intros g _ [L1 L2]. split; rewrite ?E1, ?E2; done. Qed.

(** The executable header of the file, and its table of program headers. *)
Definition ehdr : Elf32_Ehdr := ehdr_of (take (Z.to_nat EHDR_SIZE) c).
Definition table_ofs : Z := s32 (e_phoff ehdr).
Definition table_len : nat := Z.to_nat (e_phnum ehdr).

(** A program in memory, ready to run at [entry] with stack pointer [esp]. *)
Record ready s' (ss : list (list Z)) (entry esp : Z) : Prop := {
  rd_header : ehdr_bad ehdr = false ∧ entry = e_entry ehdr;
  rd_stack : main_frame (umem s') esp ss;
  rd_image : ∃ a' k, represents init_page_dir dirs (p_vm s') a' ∧
    (∀ i, (i < table_len)%nat → header_done s' a' (phdr_at (table_ofs + PHDR_SIZE * Z.of_nat i))) ∧
    pages a' !! (pd s', pg_no STACK) = Some (mk_info k true false false) }.

(** Why the file is not an executable, with pages mapped as in [a] before. *)
Definition not_executable s a : Prop :=
  Z.of_nat (length c) < EHDR_SIZE ∨ ehdr_bad ehdr = true ∨ headers_refused (mapped_pages (pd s) a) table_ofs table_len ∨
  mapped_pages (pd s) a (pg_no STACK) ∨ covered table_ofs table_len (pg_no STACK).

(** C6: [load] (from the open file on) copes with every file: whatever bytes
    the executable holds, no assertion fails and no address is out of range.
    If it succeeds, the header is valid, every loadable segment is in memory
    at its address with its file bytes followed by zeros and the rights its
    header asks for, the stack page is mapped writable, and the stack pointer
    is at the frame of the program's arguments.  If it fails, memory ran out
    or the file is not an executable for one of the listed reasons. *)
Theorem load_image_correct s a ss :
  loading s a fa c 0 → args_ready s ss → frame_size ss <= PGSIZE →
  ∃ r s', load_image pal init_page_dir init_ram_pages user_page old_bytes (Some fa) s = Ret (r, s') ∧
    match r with
    | Some (entry, esp) => ready s' ss entry esp
    | None => out_of_memory s' ∨ not_executable s a
    end.
Proof using Hpal Huser Hold Hc.
  intros Hlo Har Hfit. unfold load_image. destruct (file_read_run _ _ _ _ EHDR_SIZE (lo_file _ _ _ _ _ Hlo)) as (x & R & Ho & _).
  rewrite (bind_Ret _ _ _ _ _ (on_fs_run _ s _ _ R)). change (Z.to_nat 0) with 0%nat in *. rewrite drop_0 in *. fold ehdr.
  pose proof (loading_fs _ _ _ _ _ _ _ Hlo Ho) as Hlo0. set (s0 := set_fs x s) in *.
  assert (K0 : unharmed s a s0 a) by by apply unharmed_same.
  destruct (Z.eqb_spec (Z.of_nat (length (take (Z.to_nat EHDR_SIZE) c))) EHDR_SIZE) as [El|El]; cbn [negb orb].
  2:{ exists None, s0. split; [done|]. right. left. rewrite length_take in El. unfold EHDR_SIZE in *. lia. }
  destruct (ehdr_bad ehdr) eqn:Ebad; [exists None, s0; split; [done|]; right; by right; left|].
  fold table_len table_ofs.
  destruct (load_headers_run table_len s0 a _ table_ofs Hlo0) as (b & s1 & a1 & q & Hrun & Hlo1 & Hres).
  rewrite (bind_Ret _ _ _ _ _ Hrun). destruct b; cbn [negb].
  2:{ exists None, s1. split; [done|]. destruct Hres as [?|?]; [by left|right]. by right; right; left. }
  destruct Hres as (K1 & Hall & Hpg). pose proof (unharmed_trans _ _ _ _ _ _ K0 K1) as K01.
  destruct (setup_stack_run s1 a1 q ss Hlo1 (args_ready_unharmed _ _ _ _ _ K01 Har) Hfit)
    as [(s2 & Hst & Hwhy)|(s2 & a2 & k & Hst & Hmf & Hrep & K2 & Hsp & Hfs)]; rewrite (bind_Ret _ _ _ _ _ Hst).
  { exists None, s2. split; [done|]. destruct Hwhy as [?|Hm]; [by left|right]. do 3 right.
    rewrite (kp_pd _ _ _ _ K1) in Hm. destruct (Hpg _ Hm); [by left|by right]. }
  pose proof (lo_file _ _ _ _ _ Hlo1) as Ho1. rewrite <- Hfs in Ho1.
  destruct (file_deny_write_run _ _ _ _ Ho1) as (x3 & R3). rewrite (bind_Ret _ _ _ _ _ (on_fs_run _ s2 _ _ R3)).
  eexists _, (set_file (Some fa) (set_fs x3 s2)). split; [done|].
  split; [done|done|]. exists a2, k. split_and!; [done| |].
  - intros i Hi. assert (K3 : unharmed s1 a1 (set_file (Some fa) (set_fs x3 s2)) a2).
    { eapply unharmed_trans; [exact K2|by apply unharmed_same]. }
    eapply header_unharmed; [pose proof (length_bound _ _ _ Hlo1); lia|apply phdr_at_wf|exact K3|by apply Hall].
  - change (pd (set_file (Some fa) (set_fs x3 s2))) with (pd s2). by rewrite (kp_pd _ _ _ _ K2).
Qed.
End load.

(** A program header that passes [validate_segment] gives [load_segment]
    arguments that satisfy its assertions, that stay inside the user address
    space and above page 0, without any 32-bit overflow, and that cover the
    segment: the pages contain [p_vaddr .. p_vaddr + p_memsz), and the first
    [p_filesz] of these bytes come from offset [p_offset] of the file. *)
Theorem validated_segment_safe h len : phdr_wf h → 0 <= len < 2 ^ 31 → validate_segment h len = true →
  let g := segment_of h in
  segment_ok g len ∧
  mem_page g <= p_vaddr h ∧ p_vaddr h + p_memsz h <= mem_page g + read_bytes g + zero_bytes g ∧
  (0 < p_filesz h → file_page g + (p_vaddr h - mem_page g) = p_offset h ∧
     read_bytes g = (p_vaddr h - mem_page g) + p_filesz h) ∧
  (p_filesz h = 0 → read_bytes g = 0).
Proof. apply validated_segment. Qed.

(** A small executable on a formatted disk, loaded: the hypotheses of the
    loader's theorems hold and the load succeeds. *)

Definition half (h : Z) : list Z := [h mod 256; h / 256].
(** One segment of 100 bytes at 0x08048000, 5000 bytes in memory, writable. *)
Definition ex_elf : list Z :=
  [127; 69; 76; 70; 1; 1; 1] ++ replicate 9 0 ++ half 2 ++ half 3 ++ le_bytes 1 ++ le_bytes 0x8048054 ++ le_bytes 52
    ++ le_bytes 0 ++ le_bytes 0 ++ half 52 ++ half 32 ++ half 1 ++ half 0 ++ half 0 ++ half 0
    ++ (([1; 0; 0x8048000; 0; 100; 5000; 6; 4096] : list Z) ≫= le_bytes) ++ replicate 16 0x90.

Definition ex_write_elf : cmd (fs block) (option addr) :=
  f ← file_open (Some ex_addr);
  n ← file_write f ex_elf 100;
  file_seek f 0;;
  mret f.
Definition ex_exec_fs : fs block :=
  Eval vm_compute in match ex_write_elf ex_fs with Ret (_, x) => x | Err _ => ex_fs end.
Definition ex_exec_file : addr :=
  Eval vm_compute in match ex_write_elf ex_fs with Ret (Some f, _) => f | _ => 1%positive end.
Definition ex_content : list Z := ex_elf ++ replicate 500 0.

Lemma ex_exec_good : good_inode ex_exec_fs ex_addr ex_inode.
Proof.
  split; [apply block_ok_sectors; [done|by_decision]|by vm_compute| | |by_decision|].
  - split; by_decision.
  - split; [split|..]; by_decision.
  - intros E. by vm_compute in E.
Qed.

Lemma ex_exec_opened : opened ex_exec_fs ex_exec_file ex_content 0.
Proof.
  split; [|by vm_compute|lia]. exists ex_addr, ex_inode, false.
  split_and!; [by vm_compute|exact ex_exec_good|by vm_compute|by_decision].
Qed.

(** Allocators: the first page of a short list that is not in use. *)
Definition ex_kernel_pages : list Z := [0xc0300000; 0xc0301000; 0xc0302000].
Definition ex_user_pages : list Z := [0xc0400000; 0xc0401000; 0xc0402000; 0xc0403000].
Definition exec_pal (v : vm) : option Z := snd <$> list_find (λ p, tables v !! p = None) ex_kernel_pages.
Definition exec_user (s : proc block) : option Z :=
  k ← ex_user_pages !! (base.size (bytes (p_args s)) / 4096)%nat;
  if decide (tables (p_vm s) !! k = None) then Some k else None.

Lemma exec_pal_ok v p : exec_pal v = Some p → kpage_ok p ∧ tables v !! p = None.
Proof.
  unfold exec_pal. intros H. apply fmap_Some in H as ([i q] & Hf & ->). apply list_find_Some in Hf as (Hi & Hn & _).
  split; [|done]. apply list_elem_of_lookup_2 in Hi.
  assert (Hall : Forall kpage_ok ex_kernel_pages) by (unfold kpage_ok; by_decision). rewrite Forall_forall in Hall. by apply Hall.
Qed.

Lemma exec_user_ok s k : exec_user s = Some k →
  kpage_ok k ∧ Z.shiftr (k - PHYS_BASE) PTSHIFT < 8192 ∧ tables (p_vm s) !! k = None.
Proof.
  unfold exec_user, mbind, option_bind. destruct (ex_user_pages !! _) as [q|] eqn:Eq; [|done].
  destruct (decide _) as [Hn|]; [|done]. intros [= ->]. apply list_elem_of_lookup_2 in Eq.
  assert (Hall : Forall (λ k, kpage_ok k ∧ Z.shiftr (k - PHYS_BASE) PTSHIFT < 8192) ex_user_pages)
    by (unfold kpage_ok; by_decision).
  rewrite Forall_forall in Hall. destruct (Hall k Eq). done.
Qed.

(** The command line "p" in kernel memory. *)
Definition ex_args : args := mk_args (write ∅ ex_cmd [112; 0]) [ex_cmd; 0] 1.
Definition ex_proc : proc block := mk_proc ex_exec_fs ex_vm ∅ ex_args ex_pd None None.

Lemma ex_loading : loading ex_init ex_dirs ex_proc (mk_spaces ex_pd ∅) ex_exec_file ex_content 0.
Proof.
  split; [exact ex_represents|split_and!; by_decision| |exact ex_exec_opened].
  intros va Hva. cbn [ex_proc p_args bytes ex_args pages]. rewrite write_lookup_out; [rewrite !lookup_empty; done|].
  left. unfold user_va, PHYS_BASE, ex_cmd in *. lia.
Qed.

Lemma ex_args_ready : args_ready ex_proc [[112]].
Proof.
  split; [done|]. exists [ex_cmd]. split_and!.
  - intros [|i] q Hq; [exact Hq|by destruct i].
  - constructor; [by_decision|constructor].
  - constructor; [|constructor]. split_and!; [done|by_decision|apply bytes_at_write].
Qed.

Lemma ex_content_bytes : Forall byte ex_content.
Proof. unfold byte. by_decision. Qed.

Lemma load_image_correct_witness :
  ∃ r s', load_image exec_pal ex_init 8192 exec_user (replicate 4096 0) (Some ex_exec_file) ex_proc = Ret (r, s') ∧
    match r with
    | Some (entry, esp) => ready ex_init ex_dirs ex_content s' [[112]] entry esp
    | None => out_of_memory exec_pal exec_user s' ∨ not_executable ex_content ex_proc (mk_spaces ex_pd ∅)
    end.
Proof.
  assert (Hfit : frame_size [[112]] <= PGSIZE) by by_decision.
  exact (load_image_correct exec_pal ex_init 8192 ex_dirs exec_user (replicate 4096 0) exec_pal_ok exec_user_ok
    (length_replicate 4096 0) ex_exec_file ex_content ex_content_bytes ex_proc (mk_spaces ex_pd ∅) [[112]]
    ex_loading ex_args_ready Hfit).
Defined.

(** The load succeeds: entry point and stack pointer. *)
Example ex_load_succeeds :
  match load_image exec_pal ex_init 8192 exec_user (replicate 4096 0) (Some ex_exec_file) ex_proc with
  | Ret (r, _) => r = Some (0x8048054, PHYS_BASE - 24)
  | Err _ => False
  end.
Proof. by vm_compute. Qed.

Lemma validated_segment_safe_witness :
  let g := segment_of (phdr_at ex_content 52) in
  segment_ok g 600 ∧ mem_page g <= 0x8048000 ∧ 0x8048000 + 5000 <= mem_page g + read_bytes g + zero_bytes g.
Proof.
  assert (Hw : phdr_wf (phdr_at ex_content 52)) by (apply phdr_of_wf, Forall_take, Forall_drop, ex_content_bytes).
  destruct (validated_segment_safe (phdr_at ex_content 52) 600 Hw ltac:(lia) (eq_refl _)) as (H1 & H2 & H3 & _).
  split; [exact H1|]. split; [exact H2|exact H3].
Defined.
