(* ===== verification/Syscall.v ===== *)
(** * System calls on files and directories (userprog/syscall.c)

    A handler runs in the process that made the call.  Its state is the file
    system, the process's file descriptors, current directory and memory, the
    holder of [file_lock], and [f->eax], which holds the result.  A handler
    comes back ([Value]), ends the thread ([Exited]) or powers the machine off
    ([Halted]); a page fault inside the kernel is the fault [BadPtr], since
    userprog/exception.c panics on it.

    A string argument is read from user memory in full before it is used, and
    so is the buffer of a write.  [keys] is the sequence of characters
    [input_getc] delivers.  [k_exec] and [k_wait] are parameters of the
    dispatcher. *)
From S2P Require Import Prelude Vaddr Bitmap Cache FsState Inode Directory Pagedir KString.
Open Scope Z_scope.

Definition MAX_FILE_DESCRIPTORS : Z := 128.

Record fd_entry : Set := mk_fd { in_use : bool; is_dir : bool; ptr : option addr }.

(** What appears on the console: bytes of [putbuf], or an exit message. *)
Inductive output : Set := Out (bs : list Z) | ExitMessage (code : Z).

Record usr (St : Type) : Type := mk_usr {
  u_fs : fs St;
  u_vm : vm;
  u_pagedir : Z;
  u_mem : mem;
  fd_table : list fd_entry;
  num_fds : Z;
  cwd : option addr;
  file_lock : option positive;    (* the thread that holds it *)
  exit_code : option Z;           (* of my_wait_status, if there is one *)
  console : list output;
  keys_read : nat;
  eax : Z
}.
Arguments mk_usr {St}.
Arguments u_fs {St}.
Arguments u_vm {St}.
Arguments u_pagedir {St}.
Arguments u_mem {St}.
Arguments fd_table {St}.
Arguments num_fds {St}.
Arguments cwd {St}.
Arguments file_lock {St}.
Arguments exit_code {St}.
Arguments console {St}.
Arguments keys_read {St}.
Arguments eax {St}.

Inductive outcome (A : Type) : Type := Value (a : A) | Exited | Halted.
Arguments Value {A} a.
Arguments Exited {A}.
Arguments Halted {A}.

Section syscall.
Context {St : Type} `{SectorOps St}.
Context (pal : vm → option Z).
(** The running thread, the keyboard, and the uninitialised buffers of the
    directory routines. *)
Context (me : positive) (keys : nat → Z) (junk name0 : list Z) (is_dir0 : bool).
Implicit Types s : usr St.

(** ** The monad of handlers *)
Definition sys (A : Type) : Type := usr St → res (outcome A * usr St).
Definition call {A} (m : cmd (usr St) A) : sys A := λ s,
  match m s with Ret (a, s) => Ret (Value a, s) | Err e => Err e end.
Definition done {A} (a : A) : sys A := λ s, Ret (Value a, s).
Definition sbind {A B} (m : sys A) (k : A → sys B) : sys B := λ s,
  match m s with
  | Ret (Value a, s) => k a s
  | Ret (Exited, s) => Ret (Exited, s)
  | Ret (Halted, s) => Ret (Halted, s)
  | Err e => Err e
  end.
#[local] Notation "x <~ m ; k" := (sbind m (λ x, k)) (at level 20, m at level 100, k at level 200, right associativity).
#[local] Notation "m ;~ k" := (sbind m (λ _, k)) (at level 100, k at level 200, right associativity).

Definition set_ufs (v : fs St) s := mk_usr v (u_vm s) (u_pagedir s) (u_mem s) (fd_table s) (num_fds s) (cwd s) (file_lock s) (exit_code s) (console s) (keys_read s) (eax s).
Definition set_uvm (v : vm) s := mk_usr (u_fs s) v (u_pagedir s) (u_mem s) (fd_table s) (num_fds s) (cwd s) (file_lock s) (exit_code s) (console s) (keys_read s) (eax s).
Definition set_umem (v : mem) s := mk_usr (u_fs s) (u_vm s) (u_pagedir s) v (fd_table s) (num_fds s) (cwd s) (file_lock s) (exit_code s) (console s) (keys_read s) (eax s).
Definition set_table (v : list fd_entry) s := mk_usr (u_fs s) (u_vm s) (u_pagedir s) (u_mem s) v (num_fds s) (cwd s) (file_lock s) (exit_code s) (console s) (keys_read s) (eax s).
Definition set_num_fds (v : Z) s := mk_usr (u_fs s) (u_vm s) (u_pagedir s) (u_mem s) (fd_table s) v (cwd s) (file_lock s) (exit_code s) (console s) (keys_read s) (eax s).
Definition set_cwd (v : option addr) s := mk_usr (u_fs s) (u_vm s) (u_pagedir s) (u_mem s) (fd_table s) (num_fds s) v (file_lock s) (exit_code s) (console s) (keys_read s) (eax s).
Definition set_lock (v : option positive) s := mk_usr (u_fs s) (u_vm s) (u_pagedir s) (u_mem s) (fd_table s) (num_fds s) (cwd s) v (exit_code s) (console s) (keys_read s) (eax s).
Definition set_exit (v : option Z) s := mk_usr (u_fs s) (u_vm s) (u_pagedir s) (u_mem s) (fd_table s) (num_fds s) (cwd s) (file_lock s) v (console s) (keys_read s) (eax s).
Definition set_console (v : list output) s := mk_usr (u_fs s) (u_vm s) (u_pagedir s) (u_mem s) (fd_table s) (num_fds s) (cwd s) (file_lock s) (exit_code s) v (keys_read s) (eax s).
Definition set_keys (v : nat) s := mk_usr (u_fs s) (u_vm s) (u_pagedir s) (u_mem s) (fd_table s) (num_fds s) (cwd s) (file_lock s) (exit_code s) (console s) v (eax s).
Definition set_eax_ (v : Z) s := mk_usr (u_fs s) (u_vm s) (u_pagedir s) (u_mem s) (fd_table s) (num_fds s) (cwd s) (file_lock s) (exit_code s) (console s) (keys_read s) v.

Definition on_ufs {A} (f : cmd (fs St) A) : sys A := λ s,
  match f (u_fs s) with Ret (a, x) => Ret (Value a, set_ufs x s) | Err e => Err e end.
Definition on_uvm {A} (f : cmd vm A) : sys A := λ s,
  match f (u_vm s) with Ret (a, x) => Ret (Value a, set_uvm x s) | Err e => Err e end.
Definition on_umem {A} (f : cmd mem A) : sys A := λ s,
  match f (u_mem s) with Ret (a, x) => Ret (Value a, set_umem x s) | Err e => Err e end.
Definition get {A} (f : usr St → A) : sys A := call (gets f).
Definition put (f : usr St → usr St) : sys unit := call (modify f).
(** [f->eax = v]. *)
Definition set_eax (v : Z) : sys unit := put (set_eax_ (u32 v)).
Definition bool_z (b : bool) : Z := if b then 1 else 0.

(** ** User memory *)
Definition load32 (p : Z) : cmd mem Z :=
  b0 ← load8 p; b1 ← load8 (p + 1); b2 ← load8 (p + 2); b3 ← load8 (p + 3); mret (le_word b0 b1 b2 b3).
(** [args[i]]. *)
Definition arg (args : Z) (i : Z) : sys Z := on_umem (load32 (args + 4 * i)).
Fixpoint load_bytes (n : nat) (p : Z) : cmd mem (list Z) :=
  match n with O => mret [] | S n => b ← load8 p; bs ← load_bytes n (p + 1); mret (b :: bs) end.
Fixpoint store_all (p : Z) (bs : list Z) : cmd mem unit :=
  match bs with [] => mret tt | b :: bs => store8 p b;; store_all (p + 1) bs end.
Fixpoint string_loop (fuel : nat) (p : Z) : cmd mem (list Z) :=
  match fuel with
  | O => throw NoFuel
  | S fuel => b ← load8 p; if b =? 0 then mret [] else bs ← string_loop fuel (p + 1); mret (b :: bs)
  end.
Definition user_string (p : Z) : sys (list Z) := on_umem (fuel ← gets str_fuel; string_loop fuel p).

Definition check_esp (args : Z) : sys bool :=
  if (args =? 0) || negb (is_user_vaddr args) then done false else
  pd <~ get u_pagedir;
  k <~ on_uvm (pagedir_get_page pal pd args);
  done (negb (k =? 0)).
Definition check_arg (a : Z) : sys bool := if a =? 0 then done false else check_esp a.
Definition check_fd (fd : Z) : bool := (2 <=? fd) && (fd <? MAX_FILE_DESCRIPTORS).
Definition check_fd_read_write (fd : Z) : bool := (0 <=? fd) && (fd <? MAX_FILE_DESCRIPTORS).

(** ** Descriptors *)
Definition get_entry (i : Z) : sys fd_entry := λ s,
  if i <? 0 then Err OutOfBounds else
  match fd_table s !! Z.to_nat i with Some e => Ret (Value e, s) | None => Err OutOfBounds end.
Definition put_entry (i : Z) (e : fd_entry) : sys unit := λ s,
  if (i <? 0) || (Z.of_nat (length (fd_table s)) <=? i) then Err OutOfBounds
  else Ret (Value tt, set_table (<[Z.to_nat i := e]> (fd_table s)) s).

(** The search from [i], with [n] descriptors left. *)
Fixpoint next_fd_loop (n : nat) (i : Z) : sys Z :=
  match n with
  | O => done (-1)
  | S n => e <~ get_entry i; if negb (in_use e) then done i else next_fd_loop n (i + 1)
  end.
Definition get_next_fd : sys Z := next_fd_loop (Z.to_nat (MAX_FILE_DESCRIPTORS - 2)) 2.

(** ** Locking and leaving *)
Definition lock_file : sys unit := λ s,
  match file_lock s with None => Ret (Value tt, set_lock (Some me) s) | Some _ => Err Deadlock end.
Definition unlock_file : sys unit := λ s,
  if bool_decide (file_lock s = Some me) then Ret (Value tt, set_lock None s) else Err AssertFail.

(** The loop of [thread_exit] over the descriptors (threads/thread.c, the
    first part of the function); [process_exit], which comes next, is not part
    of this model. *)
Fixpoint close_loop (n : nat) (i : Z) : sys unit :=
  match n with
  | O => done tt
  | S n =>
      e <~ get_entry i;
      (if is_dir e then on_ufs (dir_close (ptr e)) else on_ufs (file_close (ptr e))) ;~
      close_loop n (i + 1)
  end.
Definition thread_exit {A} : sys A :=
  n <~ get num_fds;
  close_loop (Z.to_nat (n - 2)) 2 ;~
  λ s, Ret (Exited, s).

Definition error {A} : sys A :=
  set_eax (-1) ;~
  put (λ s, set_console (console s ++ [ExitMessage (-1)]) s) ;~
  thread_exit.

(** ** Handlers *)
Definition k_exit (args : Z) : sys unit :=
  code <~ arg args 1;
  put (λ s, set_exit (match exit_code s with Some _ => Some (s32 code) | None => None end) s) ;~
  set_eax code ;~
  put (λ s, set_console (console s ++ [ExitMessage (s32 code)]) s) ;~
  thread_exit.

Definition resolve (path : list Z) : sys (bool * option addr * list Z) :=
  c <~ get cwd; on_ufs (path_resolution c name0 path junk).

Definition k_open (args : Z) : sys unit :=
  a1 <~ arg args 1;
  ok <~ check_arg a1;
  if ok then
    lock_file ;~
    path <~ user_string a1;
    r <~ resolve path;
    let '(success, dir, _) := r in
    if negb success then set_eax (-1) else
    o <~ on_ufs (filesys_open dir path junk is_dir0);
    on_ufs (dir_close dir) ;~
    match o.2 with
    | Some p =>
        fd <~ get_next_fd;
        put_entry fd (mk_fd true o.1 (Some p)) ;~
        put (λ s, set_num_fds (u32 (num_fds s + 1)) s) ;~
        set_eax fd
    | None => set_eax (-1)
    end ;~
    unlock_file
  else error.

(** The part of a handler that uses an open file: [error] unless the
    descriptor is in use and not a directory and the pointer is not null. *)
Definition with_file {A} (fd : Z) (k : option addr → sys A) : sys A :=
  e <~ get_entry fd;
  (if negb (in_use e) || is_dir e then error else done tt) ;~
  if isnull (ptr e) then error else k (ptr e).

Definition k_write (args : Z) : sys unit :=
  a1 <~ arg args 1;
  if check_fd_read_write (s32 a1) then
    a3 <~ arg args 3;
    if a3 =? 0 then set_eax 0 else
    ok <~ (if 0 <? a1 then a2 <~ arg args 2; check_arg a2 else done false);
    if ok then
      lock_file ;~
      a2 <~ arg args 2;
      (if a1 =? 1 then
         bs <~ on_umem (load_bytes (Z.to_nat a3) a2);
         put (λ s, set_console (console s ++ [Out bs]) s)
       else with_file a1 (λ fl,
         bs <~ on_umem (load_bytes (Z.to_nat (s32 a3)) a2);
         n <~ on_ufs (file_write fl bs (s32 a3));
         set_eax n)) ;~
      unlock_file
    else error
  else error.

(** [new_buffer[i] = input_getc ()], [n] more times. *)
Fixpoint getc_loop (n : nat) (p : Z) : sys unit :=
  match n with
  | O => done tt
  | S n =>
      k <~ get keys_read;
      put (set_keys (S k)) ;~
      on_umem (store8 p (u8 (keys k))) ;~
      getc_loop n (p + 1)
  end.

Definition k_read (args : Z) : sys unit :=
  a1 <~ arg args 1;
  if check_fd_read_write (s32 a1) then
    a3 <~ arg args 3;
    if a3 =? 0 then set_eax 0 else
    a2 <~ arg args 2;
    ok <~ check_arg a2;
    if ok then
      lock_file ;~
      (if a1 =? 0 then
         getc_loop (Z.to_nat (s32 a3)) a2 ;~
         set_eax (Z.max 0 (s32 a3))
       else with_file a1 (λ fl,
         d <~ on_ufs (file_read fl (s32 a3));
         on_umem (store_all a2 d) ;~
         set_eax (Z.of_nat (length d)))) ;~
      unlock_file
    else error
  else error.

Definition k_create (args : Z) : sys unit :=
  a1 <~ arg args 1;
  ok <~ check_arg a1;
  if ok then
    lock_file ;~
    path <~ user_string a1;
    r <~ resolve path;
    let '(success, dir, name) := r in
    (if success then a2 <~ arg args 2; b <~ on_ufs (filesys_create (Directory.cstr name) (s32 a2) dir false junk); set_eax (bool_z b)
     else set_eax 0) ;~
    on_ufs (dir_close dir) ;~
    unlock_file
  else error.

Definition k_remove (args : Z) : sys unit :=
  a1 <~ arg args 1;
  ok <~ check_arg a1;
  if ok then
    lock_file ;~
    c <~ get cwd;
    dir <~ on_ufs (dir_reopen c);
    path <~ user_string a1;
    b <~ on_ufs (filesys_remove path dir junk);
    set_eax (bool_z b) ;~
    on_ufs (dir_close dir) ;~
    unlock_file
  else error.

Definition k_filesize (args : Z) : sys unit :=
  a1 <~ arg args 1;
  if check_fd (s32 a1) then
    with_file a1 (λ fl,
      lock_file ;~
      n <~ on_ufs (file_length fl);
      set_eax n ;~
      unlock_file)
  else error.

Definition k_seek (args : Z) : sys unit :=
  a1 <~ arg args 1;
  if check_fd (s32 a1) then
    with_file a1 (λ fl,
      lock_file ;~
      a2 <~ arg args 2;
      on_ufs (file_seek fl (s32 a2)) ;~
      unlock_file)
  else error.

Definition k_tell (args : Z) : sys unit :=
  a1 <~ arg args 1;
  if check_fd (s32 a1) then
    with_file a1 (λ fl,
      lock_file ;~
      n <~ on_ufs (file_tell fl);
      set_eax n ;~
      unlock_file)
  else error.

Definition k_close (args : Z) : sys unit :=
  a1 <~ arg args 1;
  if check_fd (s32 a1) then
    with_file a1 (λ fl,
      lock_file ;~
      on_ufs (file_close fl) ;~
      e <~ get_entry a1;
      put_entry a1 (mk_fd false (is_dir e) (ptr e)) ;~
      put (λ s, set_num_fds (u32 (num_fds s - 1)) s) ;~
      unlock_file)
  else error.

Definition k_chdir (args : Z) : sys unit :=
  a1 <~ arg args 1;
  ok <~ check_arg a1;
  (if negb ok then error else done tt) ;~
  path <~ user_string a1;
  r <~ resolve path;
  let '(success, dir, _) := r in
  (if success then
     c <~ get cwd;
     on_ufs (dir_close c) ;~
     d <~ on_ufs (dir_reopen dir);
     put (set_cwd d) ;~
     set_eax 1
   else set_eax 0) ;~
  on_ufs (dir_close dir).

Definition k_mkdir (args : Z) : sys unit :=
  lock_file ;~
  a1 <~ arg args 1;
  ok <~ check_arg a1;
  if ok then
    path <~ user_string a1;
    r <~ resolve path;
    let '(success, dir, name) := r in
    (if success then
       b <~ on_ufs (filesys_create (Directory.cstr name) 16 dir true junk);
       set_eax (bool_z b) ;~
       (if b then
          o <~ on_ufs (filesys_open dir (Directory.cstr name) junk is_dir0);
          on_ufs (init_dir dir o.2 junk) ;~
          on_ufs (dir_close o.2)
        else done tt)
     else done tt) ;~
    on_ufs (dir_close dir) ;~
    unlock_file
  else unlock_file ;~ error.

Definition k_readdir (args : Z) : sys unit :=
  a1 <~ arg args 1;
  (if negb (check_fd (s32 a1)) then error else done tt) ;~
  e <~ get_entry a1;
  if is_dir e && in_use e then
    a2 <~ arg args 2;
    old <~ on_umem (load_bytes (Z.to_nat (NAME_MAX + 1)) a2);
    r <~ on_ufs (dir_readdir (ptr e) old junk);
    on_umem (store_all a2 r.2) ;~
    set_eax (bool_z r.1)
  else set_eax 0.

Definition k_isdir (args : Z) : sys unit :=
  a1 <~ arg args 1;
  (if negb (check_fd (s32 a1)) then error else done tt) ;~
  e <~ get_entry a1;
  set_eax (bool_z (is_dir e)).

Definition k_inumber (args : Z) : sys unit :=
  a1 <~ arg args 1;
  (if negb (check_fd (s32 a1)) then error else done tt) ;~
  e <~ get_entry a1;
  i <~ (if is_dir e then on_ufs (dir_get_inode (ptr e)) else on_ufs (file_get_inode (ptr e)));
  n <~ on_ufs (inode_get_inumber i);
  set_eax n.

(** ** The dispatcher *)
Inductive syscall_nr : Set :=
  | SYS_HALT | SYS_EXIT | SYS_EXEC | SYS_WAIT | SYS_CREATE | SYS_REMOVE | SYS_OPEN | SYS_FILESIZE | SYS_READ
  | SYS_WRITE | SYS_SEEK | SYS_TELL | SYS_CLOSE | SYS_PRACTICE | SYS_MMAP | SYS_MUNMAP | SYS_CHDIR | SYS_MKDIR
  | SYS_READDIR | SYS_ISDIR | SYS_INUMBER.
Definition syscall_nrs : list syscall_nr :=
  [SYS_HALT; SYS_EXIT; SYS_EXEC; SYS_WAIT; SYS_CREATE; SYS_REMOVE; SYS_OPEN; SYS_FILESIZE; SYS_READ; SYS_WRITE;
   SYS_SEEK; SYS_TELL; SYS_CLOSE; SYS_PRACTICE; SYS_MMAP; SYS_MUNMAP; SYS_CHDIR; SYS_MKDIR; SYS_READDIR; SYS_ISDIR;
   SYS_INUMBER].

Definition syscall_handler (k_exec k_wait : Z → sys unit) (args : Z) : sys unit :=
  ok <~ check_esp args;
  let success := ok && negb (is_kernel_vaddr (u32 (args + 16))) in
  (if negb success then error else done tt) ;~
  nr <~ arg args 0;
  match (if nr <? 21 then syscall_nrs !! Z.to_nat nr else None) with
  | Some SYS_EXIT => k_exit args
  | Some SYS_OPEN => k_open args
  | Some SYS_WRITE => k_write args
  | Some SYS_READ => k_read args
  | Some SYS_CREATE => k_create args
  | Some SYS_REMOVE => k_remove args
  | Some SYS_FILESIZE => k_filesize args
  | Some SYS_SEEK => k_seek args
  | Some SYS_TELL => k_tell args
  | Some SYS_CLOSE => k_close args
  | Some SYS_PRACTICE => a1 <~ arg args 1; set_eax (a1 + 1)
  | Some SYS_HALT => λ s, Ret (Halted, s)
  | Some SYS_EXEC => k_exec args
  | Some SYS_WAIT => k_wait args
  | Some SYS_CHDIR => k_chdir args
  | Some SYS_MKDIR => k_mkdir args
  | Some SYS_READDIR => k_readdir args
  | Some SYS_ISDIR => k_isdir args
  | Some SYS_INUMBER => k_inumber args
  | Some SYS_MMAP | Some SYS_MUNMAP | None => error
  end.
End syscall.
