(* ===== verification/SyscallSpec.v ===== *)
(** What the file system calls promise: the lock protocol, and open files as
    byte sequences with a position. *)
From S2P Require Import Prelude Vaddr Bitmap Cache FsState Inode InodeSpec FsTheorems Directory DirSpec.
From S2P Require Import Pagedir PagedirSpec PagedirTheorems KString KStringSpec ExecSpec Syscall.
Open Scope Z_scope.

(** ** The lock of the file system *)
Section lock.
Context {St : Type} `{SectorOps St}.
Implicit Types s : usr St.

(** Run from a state where the lock is [l], [m] ends with outcome [o] and lock
    [l'] only if [Q o l']. *)
Definition locks {A} (l : option positive) (m : sys A) (Q : outcome A → option positive → Prop) : Prop :=
  ∀ s o s', file_lock s = l → m s = Ret (o, s') → Q o (file_lock s').

(** [m] comes back and leaves the lock alone. *)
Definition neutral {A} (m : sys (St := St) A) : Prop :=
  ∀ s o s', m s = Ret (o, s') → file_lock s' = file_lock s ∧ ∃ a, o = Value a.

Lemma locks_bind {A B} l (m : sys A) (k : A → sys B) Q :
  locks l m (λ o l', match o with Value a => locks l' (k a) Q | Exited => Q Exited l' | Halted => Q Halted l' end) →
  locks l (sbind m k) Q.
Proof.
  intros Hm s o s' Hl. unfold sbind. destruct (m s) as [[[a| |] s1]|] eqn:E; [|intros [= <- <-]|intros [= <- <-]|done].
  - intros Hk. by apply (Hm s _ s1 Hl E s1).
  - by apply (Hm s _ _ Hl E).
  - by apply (Hm s _ _ Hl E).
Qed.

Lemma locks_neutral {A} l (m : sys A) (Q : outcome A → option positive → Prop) :
  neutral m → (∀ a, Q (Value a) l) → locks l m Q.
Proof. intros Hm HQ s o s' Hl E. destruct (Hm s o s' E) as [E1 [a ->]]. rewrite E1, Hl. apply HQ. Qed.

Lemma neutral_bind {A B} (m : sys A) (k : A → sys B) :
  neutral m → (∀ a, neutral (k a)) → neutral (sbind m k).
Proof.
  intros Hm Hk s o s'. unfold sbind. destruct (m s) as [[o1 s1]|] eqn:E; [|done].
  destruct (Hm s o1 s1 E) as [E1 [a ->]]. intros E2. destruct (Hk a s1 o s' E2) as [E3 Ha]. split; [congruence|done].
Qed.

Lemma neutral_done {A} (a : A) : neutral (done a).
Proof. intros s o s' [= <- <-]. by split; [|exists a]. Qed.
Lemma neutral_get {A} (f : usr St → A) : neutral (get f).
Proof. intros s o s' [= <- <-]. by split; [|eexists]. Qed.
Lemma neutral_put (f : usr St → usr St) : (∀ s, file_lock (f s) = file_lock s) → neutral (put f).
Proof. intros Hf s o s' [= <- <-]. split; [apply Hf|by eexists]. Qed.
Lemma neutral_set_eax v : neutral (set_eax v).
Proof. by apply neutral_put. Qed.
Lemma neutral_ufs {A} (f : cmd (fs St) A) : neutral (on_ufs f).
Proof. intros s o s'. unfold on_ufs. destruct (f (u_fs s)) as [[a x]|]; [|done]. intros [= <- <-]. by split; [|eexists]. Qed.
Lemma neutral_uvm {A} (f : cmd vm A) : neutral (on_uvm f).
Proof. intros s o s'. unfold on_uvm. destruct (f (u_vm s)) as [[a x]|]; [|done]. intros [= <- <-]. by split; [|eexists]. Qed.
Lemma neutral_umem {A} (f : cmd mem A) : neutral (on_umem f).
Proof. intros s o s'. unfold on_umem. destruct (f (u_mem s)) as [[a x]|]; [|done]. intros [= <- <-]. by split; [|eexists]. Qed.
Lemma neutral_get_entry i : neutral (get_entry i).
Proof.
  intros s o s'. unfold get_entry. destruct (i <? 0); [done|]. destruct (_ !! _); [|done]. intros [= <- <-]. by split; [|eexists].
Qed.
Lemma neutral_put_entry i e : neutral (put_entry i e).
Proof. intros s o s'. unfold put_entry. destruct (_ || _); [done|]. intros [= <- <-]. by split; [|eexists]. Qed.
End lock.

Create HintDb sys.
#[export] Hint Resolve neutral_bind neutral_done neutral_get neutral_set_eax neutral_ufs neutral_uvm neutral_umem
  neutral_get_entry neutral_put_entry : sys.

(** Prove that a routine does not touch the lock, by its structure. *)
Ltac neutral_tac :=
  repeat lazymatch goal with
    | |- ∀ _, _ => intro
    | |- neutral (sbind _ _) => apply neutral_bind
    | |- neutral (put _) => apply neutral_put; intros; reflexivity
    | |- neutral (match ?x with _ => _ end) => destruct x
    | |- neutral _ => solve [eauto with sys]
    end.

Section discipline.
Context {St : Type} `{SectorOps St}.
Context (pal : vm → option Z) (me : positive) (keys : nat → Z) (junk name0 : list Z) (is_dir0 : bool).
Implicit Types s : usr St.

Lemma neutral_arg args i : neutral (St := St) (arg args i).
Proof. apply neutral_umem. Qed.
Lemma neutral_check_arg a : neutral (St := St) (check_arg pal a).
Proof. unfold check_arg, check_esp. neutral_tac. Qed.
Lemma neutral_user_string p : neutral (St := St) (user_string p).
Proof. apply neutral_umem. Qed.
Lemma neutral_resolve path : neutral (St := St) (resolve junk name0 path).
Proof. unfold resolve. neutral_tac. Qed.
Lemma neutral_close_loop n i : neutral (St := St) (close_loop n i).
Proof. revert i. induction n as [|n IH]; intros i; cbn [close_loop]; neutral_tac. Qed.
Lemma neutral_next_fd n i : neutral (St := St) (next_fd_loop n i).
Proof. revert i. induction n as [|n IH]; intros i; cbn [next_fd_loop]; neutral_tac. Qed.
Lemma neutral_getc n p : neutral (St := St) (getc_loop keys n p).
Proof. revert p. induction n as [|n IH]; intros p; cbn [getc_loop]; neutral_tac. Qed.
#[local] Hint Resolve neutral_arg neutral_check_arg neutral_user_string neutral_resolve neutral_next_fd
  neutral_getc : sys.

(** *** Stepping through a handler *)
Lemma locks_step {A B} l (m : sys (St := St) A) (k : A → sys B) Q :
  neutral m → (∀ a, locks l (k a) Q) → locks l (sbind m k) Q.
Proof. intros Hm Hk. apply locks_bind. by apply locks_neutral. Qed.

Lemma locks_acquire {B} (k : sys (St := St) B) Q :
  locks (Some me) k Q → locks None (sbind (lock_file me) (λ _, k)) Q.
Proof.
  intros Hk. apply locks_bind. intros s o s' Hl. unfold lock_file. rewrite Hl. intros [= <- <-]. exact Hk.
Qed.

Lemma locks_release Q : Q (Value tt) None → locks (St := St) (Some me) (unlock_file me) Q.
Proof. intros HQ s o s' Hl. unfold unlock_file. rewrite bool_decide_true by done. by intros [= <- <-]. Qed.

(** [thread_exit] and [error] never come back. *)
Lemma locks_exit {A} l (Q : outcome A → option positive → Prop) : Q Exited l → locks (St := St) l thread_exit Q.
Proof.
  intros HQ. unfold thread_exit. apply locks_step; [apply neutral_get|]. intros n.
  apply locks_step; [apply neutral_close_loop|]. by intros _ s o s' <- [= <- <-].
Qed.

Lemma locks_error {A} l (Q : outcome A → option positive → Prop) : Q Exited l → locks (St := St) l error Q.
Proof.
  intros HQ. unfold error. apply locks_step; [apply neutral_set_eax|]. intros _.
  apply locks_step; [by apply neutral_put|]. intros _. by apply locks_exit.
Qed.

Lemma locks_guard {B} l (b : bool) (k : sys (St := St) B) Q :
  Q Exited l → locks l k Q → locks l (sbind (if b then error else done tt) (λ _, k)) Q.
Proof.
  intros He Hk. apply locks_bind. destruct b; [by apply locks_error|]. apply locks_neutral; [apply neutral_done|].
  intros []. exact Hk.
Qed.

Lemma locks_with_file {A} l fd (k : option addr → sys (St := St) A) Q :
  Q Exited l → (∀ p, locks l (k p) Q) → locks l (with_file fd k) Q.
Proof.
  intros He Hk. unfold with_file. apply locks_step; [apply neutral_get_entry|]. intros e. apply locks_guard; [done|].
  destruct (isnull _); [by apply locks_error|apply Hk].
Qed.

(** Walk through a handler; what holds of the lock is decided at each end. *)
Ltac locks_tac :=
  repeat lazymatch goal with
    | |- ∀ _, _ => intro
    | |- locks None (sbind (lock_file _) _) _ => apply locks_acquire
    | |- locks _ (sbind (if _ then error else done tt) _) _ => apply locks_guard
    | |- locks _ (sbind (unlock_file _) _) _ => apply locks_bind
    | |- locks _ (sbind (with_file _ _) _) _ => apply locks_bind
    | |- locks _ (sbind _ _) _ =>
        first [apply locks_step; [solve [neutral_tac]|]
              |lazymatch goal with |- locks _ (sbind (match ?x with _ => _ end) _) _ => apply locks_bind; destruct x end]
    | |- locks _ (unlock_file _) _ => apply locks_release
    | |- locks _ error _ => apply locks_error
    | |- locks _ thread_exit _ => apply locks_exit
    | |- locks _ (with_file _ _) _ => apply locks_with_file
    | |- locks _ (match ?x with _ => _ end) _ => destruct x
    | |- locks _ _ _ => apply locks_neutral; [solve [neutral_tac]|]
    end; auto.

Abbreviation h_create := (k_create pal me junk name0).
Abbreviation h_remove := (k_remove pal me junk).
Abbreviation h_chdir := (k_chdir pal junk name0).
Abbreviation h_mkdir := (k_mkdir pal me junk name0 is_dir0).
Abbreviation h_open := (k_open pal me junk name0 is_dir0).
Abbreviation h_read := (k_read pal me keys).
Abbreviation h_write := (k_write pal me).

(** The handlers that give the lock back whatever happens. *)
Definition orderly : list (Z → sys (St := St) unit) :=
  [k_exit; h_create; h_remove; k_filesize me; k_seek me; k_tell me; k_close me; h_chdir; h_mkdir; k_readdir junk; k_isdir;
   k_inumber].

Lemma orderly_locks h args : h ∈ orderly → locks None (h args) (λ _ l, l = None).
Proof.
  unfold orderly. rewrite !elem_of_cons, elem_of_nil.
  intros [->|[->|[->|[->|[->|[->|[->|[->|[->|[->|[->|[->|[]]]]]]]]]]]]].
  - unfold k_exit. locks_tac.
  - unfold k_create. locks_tac.
  - unfold k_remove. locks_tac.
  - unfold k_filesize. locks_tac.
  - unfold k_seek. locks_tac.
  - unfold k_tell. locks_tac.
  - unfold k_close. locks_tac.
  - unfold k_chdir. locks_tac.
  - unfold k_mkdir. locks_tac.
  - unfold k_readdir. locks_tac.
  - unfold k_isdir. locks_tac.
  - unfold k_inumber. locks_tac.
Qed.

Lemma read_write_locks args :
  locks None (h_read args) (λ o l, l = None ∨ o = Exited ∧ l = Some me) ∧
  locks None (h_write args) (λ o l, l = None ∨ o = Exited ∧ l = Some me).
Proof. split; [unfold k_read|unfold k_write]; locks_tac. Qed.

Lemma open_locks args : locks None (h_open args) (λ o l, l = None ∨ o = Value tt ∧ l = Some me).
Proof. unfold k_open. locks_tac. right. split; [|done]. by match goal with |- Value ?a = _ => destruct a end. Qed.

(** C15: [file_lock] is given back: a handler that starts with the lock free
    ends with the lock free, in every outcome, with three exceptions that keep
    it: [k_read] and [k_write] when they end the process for a bad descriptor,
    and [k_open] when the path cannot be resolved. *)
Theorem file_lock_protocol args s o s' : file_lock s = None →
  ((∃ h, h ∈ orderly ∧ h args s = Ret (o, s')) → file_lock s' = None) ∧
  (h_read args s = Ret (o, s') ∨ h_write args s = Ret (o, s') →
     file_lock s' = None ∨ o = Exited ∧ file_lock s' = Some me) ∧
  (h_open args s = Ret (o, s') → file_lock s' = None ∨ o = Value tt ∧ file_lock s' = Some me).
Proof.
  intros Hl. split_and!.
  - intros (h & Hh & E). by apply (orderly_locks h args Hh s o s').
  - destruct (read_write_locks args) as [Hr Hw]. intros [E|E]; [by apply (Hr s o s')|by apply (Hw s o s')].
  - by apply (open_locks args s o s').
Qed.

(** Once a thread has kept the lock, handlers that need it do not come back. *)
Lemma lock_stuck {A B} (m : sys (St := St) A) (k : A → sys B) t :
  neutral m → (∀ a s o s', file_lock s = Some t → k a s = Ret (o, s') → o = Exited) →
  ∀ s o s', file_lock s = Some t → sbind m k s = Ret (o, s') → o = Exited.
Proof.
  intros Hm Hk s o s' Hl. unfold sbind. destruct (m s) as [[o1 s1]|] eqn:E; [|done].
  destruct (Hm _ _ _ E) as [E1 [a ->]]. apply Hk. congruence.
Qed.

Lemma held_lock_file {B} (k : sys (St := St) B) t s o s' :
  file_lock s = Some t → sbind (lock_file me) (λ _, k) s = Ret (o, s') → o = Exited.
Proof. intros Hl. unfold sbind, lock_file. by rewrite Hl. Qed.

Lemma held_error {A} t s (o : outcome A) s' : file_lock s = Some t → error (St := St) s = Ret (o, s') → o = Exited.
Proof. intros Hl. by apply (locks_error (Some t) (λ o _, o = Exited) eq_refl s o s'). Qed.

Lemma held_handlers h t args s o s' : h ∈ [h_open; h_create; h_remove; h_mkdir] →
  file_lock s = Some t → h args s = Ret (o, s') → o = Exited.
Proof.
  rewrite !elem_of_cons, elem_of_nil. intros [->|[->|[->|[->|[]]]]]; revert s o s'.
  4:{ intros s o s' Hl. unfold k_mkdir. by apply held_lock_file with t. }
  all: unfold k_open, k_create, k_remove; apply lock_stuck; [apply neutral_arg|]; intros a1;
    apply lock_stuck; [apply neutral_check_arg|]; intros [] s o s' Hl;
    [by apply held_lock_file with t|by apply held_error with t].
Qed.

(** Opening a path whose directory part cannot be resolved returns -1 with
    [file_lock] still held; from then on no thread comes back from opening,
    creating, removing or making anything. *)
Theorem open_unresolved_keeps_lock args s a1 s1 path s2 dir nm s3 :
  file_lock s = None → arg args 1 s = Ret (Value a1, s) → check_arg pal a1 s = Ret (Value true, s1) →
  user_string a1 (set_lock (Some me) s1) = Ret (Value path, s2) →
  resolve junk name0 path s2 = Ret (Value (false, dir, nm), s3) →
  h_open args s = Ret (Value tt, set_eax_ (2 ^ 32 - 1) s3) ∧ file_lock s3 = Some me ∧
  ∀ h args' s4 o s5, h ∈ [h_open; h_create; h_remove; h_mkdir] → file_lock s4 = file_lock s3 →
    h args' s4 = Ret (o, s5) → o = Exited.
Proof.
  intros Hl H1 H2 H3 H4. assert (Hl1 : file_lock s1 = None) by (destruct (neutral_check_arg a1 _ _ _ H2); congruence).
  assert (Hl3 : file_lock s3 = Some me).
  { destruct (neutral_user_string a1 _ _ _ H3) as [E3 _]. destruct (neutral_resolve path _ _ _ H4) as [E4 _]. by rewrite E4, E3. }
  split_and!; [|done|].
  - unfold k_open. unfold sbind at 1. rewrite H1. unfold sbind at 1. rewrite H2. unfold sbind at 1, lock_file. rewrite Hl1.
    unfold sbind at 1. rewrite H3. unfold sbind at 1. by rewrite H4.
  - intros h args' s4 o s5 Hh E. rewrite Hl3 in E. by apply (held_handlers h me args' s4 o s5).
Qed.
End discipline.
