(* ===== verification/SyscallFiles.v ===== *)
(** * Open files through their descriptors

    A descriptor of an ordinary file behaves like a sequence of bytes with a
    position: reads, writes inside the file, seeks, tells and size queries
    through the system call interface return what the same operations on that
    abstract file return. *)
From S2P Require Import Prelude Vaddr Bitmap Cache FsState Inode InodeSpec FsTheorems Directory DirSpec.
From S2P Require Import Pagedir PagedirSpec PagedirTheorems KString KStringSpec ExecSpec Syscall SyscallSpec.
Open Scope Z_scope.

(** ** Abstract files *)
Inductive fcall : Set :=
  | F_read (buf n : Z)
  | F_write (buf n : Z)
  | F_seek (q : Z)
  | F_tell
  | F_size.

Record afile : Set := mk_afile { contents : list Z; position : Z }.

(** The bytes of user memory from [buf] on. *)
Definition peek (m : KString.mem) (buf n : Z) : list Z :=
  (λ i, default 0 (m !! (buf + Z.of_nat i))) <$> seq 0 (Z.to_nat n).

(** The result in [eax] (none for a seek, which does not set it), the user's
    memory afterwards, and the file afterwards. *)
Definition fstep (f : fcall) (m : KString.mem) (a : afile) : option Z * KString.mem * afile :=
  let c := contents a in let p := position a in
  match f with
  | F_read buf n =>
      let d := take (Z.to_nat n) (drop (Z.to_nat p) c) in
      (Some (Z.of_nat (length d)), write m buf d, mk_afile c (p + Z.of_nat (length d)))
  | F_write buf n => (Some n, m, mk_afile (splice (Z.to_nat p) (peek m buf n) c) (p + n))
  | F_seek q => (None, m, mk_afile c q)
  | F_tell => (Some p, m, a)
  | F_size => (Some (Z.of_nat (length c)), m, a)
  end.

(** The words the user program pushes for the call on descriptor [fd]. *)
Definition call_words (fd : Z) (f : fcall) : list Z :=
  match f with
  | F_read buf n => [8; fd; buf; n]
  | F_write buf n => [9; fd; buf; n]
  | F_seek q => [10; fd; q]
  | F_tell => [11; fd]
  | F_size => [7; fd]
  end.
Definition words_at (m : KString.mem) (args : Z) (ws : list Z) : Prop :=
  ∀ i w, ws !! i = Some w → load32 (args + 4 * Z.of_nat i) m = Ret (w, m).

(** Words laid out in memory are read back. *)
Lemma words_at_bytes m p ws : Forall is_u32 ws → bytes_at m p (bytes_of ws) → words_at m p ws.
Proof.
  intros Hws. revert p. induction Hws as [|w ws Hw Hws IH]; intros p Hb i v Hi; [by destruct i|].
  change (bytes_of (w :: ws)) with (le_bytes w ++ bytes_of ws) in Hb. apply bytes_at_app in Hb as [(B0 & B1 & B2 & B3 & _) Hb].
  destruct i as [|i].
  - injection Hi as <-. rewrite Z.mul_0_r, Z.add_0_r. unfold load32. rewrite (load8_bind _ _ _ _ B0).
    rewrite (load8_bind _ _ _ _ B1). replace (p + 2) with (p + 1 + 1) by lia. rewrite (load8_bind _ _ _ _ B2).
    replace (p + 3) with (p + 1 + 1 + 1) by lia. rewrite (load8_bind _ _ _ _ B3). unfold mret, cmd_ret. by rewrite le_word_bytes.
  - replace (p + 4 * Z.of_nat (S i)) with (p + 4 + 4 * Z.of_nat i) by lia. by apply IH.
Qed.

(** ** File operations *)
Section files.
Context {St : Type} `{SectorStore St}.
Implicit Types x : fs St.

Lemma file_write_run x fa c p bs :
  opened x fa c p → writable_file x fa → p + Z.of_nat (length bs) <= Z.of_nat (length c) →
  ∃ x', file_write (Some fa) bs (Z.of_nat (length bs)) x = Ret (Z.of_nat (length bs), x') ∧
    opened x' fa (splice (Z.to_nat p) bs c) (p + Z.of_nat (length bs)) ∧ writable_file x' fa.
Proof.
  intros Ho Hw Hl. destruct (Ho) as [(a & ino & dw & Hf & Hg & Hc & Hd) Hm Hp].
  assert (Hlen : dlength (inode_at (sectors_of x) (i_sector ino)) = Z.of_nat (length c)).
  { pose proof (file_bytes_length x a ino Hg) as E. rewrite Hc in E. pose proof (gi_len _ _ _ Hg). lia. }
  destruct (inode_write_good x a ino bs (Z.of_nat (length bs)) p Hg Hm (Hw _ _ _ _ Hf (gi_open _ _ _ Hg)) Hp eq_refl ltac:(lia))
    as (x1 & R & B & _ & _ & Hg1 & Hi1 & _ & Hf1 & Hm1).
  unfold file_write. rewrite (deref_bind _ _ _ _ _ Hf). cbn [f_inode pos]. rewrite (bind_Ret _ _ _ _ _ R).
  rewrite <- Hf1 in Hf. rewrite (deref_bind _ _ _ _ _ Hf). cbn [f_inode pos deny_write].
  eexists. split; [done|]. split; [split|].
  - exists a, ino, dw. split_and!; [apply lookup_insert_eq|by destruct Hg1|by rewrite <- Hc, <- B|done].
  - done.
  - lia.
  - intros a' p' dw' ino'. cbn [files set_files inodes]. rewrite lookup_insert_eq. intros [= <- <- <-] Hi'.
    rewrite Hi1 in Hi'. apply (Hw a p dw); [by rewrite <- Hf1|done].
Qed.
End files.

(** ** Handlers on an open descriptor *)
Section calls.
Context {St : Type} `{SectorStore St}.
Context (pal : vm → option Z) (init_page_dir : Z) (dirs : gset Z).
Context (me : positive) (keys : nat → Z) (junk name0 : list Z) (is_dir0 : bool).
Context (k_exec k_wait : Z → sys (St := St) unit).
Context (sp : spaces) (fd : Z) (fa : addr).
Implicit Types s : usr St.

(** Descriptor [fd] is the ordinary file [fa], which represents [a]; the lock
    is free, and the user's memory is what the page tables map. *)
Record desc s (a : afile) : Prop := {
  ds_fd : 2 <= fd < 128;
  ds_entry : fd_table s !! Z.to_nat fd = Some (mk_fd true false (Some fa));
  ds_open : opened (u_fs s) fa (contents a) (position a);
  ds_pos : position a < 2 ^ 31;
  ds_write : writable_file (u_fs s) fa;
  ds_lock : file_lock s = None;
  ds_vm : represents init_page_dir dirs (u_vm s) sp;
  ds_pd : u_pagedir s ∈ dirs;
  ds_view : ∀ va, user_va va → is_Some (u_mem s !! va) ↔ is_Some (pages sp !! (u_pagedir s, pg_no va)) }.

Definition same_pages (m m' : KString.mem) : Prop := ∀ va, user_va va → is_Some (m' !! va) ↔ is_Some (m !! va).

(** The state a handler leaves: file system, memory and result. *)
Definition after s (x : fs St) (m : KString.mem) (v : Z) : usr St :=
  mk_usr x (u_vm s) (u_pagedir s) m (fd_table s) (num_fds s) (cwd s) None (exit_code s) (console s) (keys_read s) v.

Lemma desc_after s a x m v a' :
  desc s a → opened x fa (contents a') (position a') → writable_file x fa → position a' < 2 ^ 31 →
  same_pages (u_mem s) m → desc (after s x m v) a'.
Proof using.
  intros [D1 D2 D3 D4 D5 D6 D7 D8 D9] Ho Hw Hp Hm. split; try done. intros va Hva. cbn [after u_mem u_pagedir].
  rewrite (Hm va Hva). by apply D9.
Qed.

Lemma after_memory s a m : desc s a → after s (u_fs s) m (eax s) = set_umem m s.
Proof using. intros D. unfold after, set_umem. by rewrite (ds_lock _ _ D). Qed.

Lemma sbind_val {A B} (m : sys (St := St) A) (k : A → sys B) s b s1 : m s = Ret (Value b, s1) → sbind m k s = k b s1.
Proof using. intros E. unfold sbind. by rewrite E. Qed.

Lemma arg_run s args ws i w :
  words_at (u_mem s) args ws → ws !! i = Some w → arg args (Z.of_nat i) s = Ret (Value w, s).
Proof using. intros Hw Hi. unfold arg, on_umem. rewrite (Hw i w Hi). by destruct s. Qed.

(** A pointer to mapped user memory passes the check. *)
Lemma check_esp_run s a p :
  desc s a → 0 < p → user_va p → is_Some (u_mem s !! p) → check_esp pal p s = Ret (Value true, s).
Proof using.
  intros D Hp Hu Hm. unfold check_esp. rewrite eqb_false by lia. unfold is_user_vaddr.
  rewrite (proj2 (Z.ltb_lt _ _)) by (unfold user_va in Hu; lia). cbn [orb negb].
  apply (ds_view _ _ D p Hu) in Hm as [i Hi]. unfold sbind, get, call, gets, on_uvm.
  rewrite (get_page_run pal init_page_dir dirs _ sp _ _ (ds_vm _ _ D) (ds_pd _ _ D) Hu), Hi.
  pose proof (r_pages _ _ _ _ (ds_vm _ _ D) _ _ (ds_pd _ _ D) Hu) as Hr. rewrite Hi in Hr.
  apply fmap_Some in Hr as (e & _ & ->). cbn [info frame].
  assert (0 <= Z.land e PTE_ADDR) by (apply Z.land_nonneg; right; done).
  assert (0 <= pg_ofs p) by (rewrite pg_ofs_mod; apply Z.mod_pos_bound; lia).
  rewrite eqb_false by (unfold pt_of, PHYS_BASE; lia). by destruct s.
Qed.

Lemma check_arg_run s a p :
  desc s a → 0 < p → user_va p → is_Some (u_mem s !! p) → check_arg pal p s = Ret (Value true, s).
Proof using. intros D Hp Hu Hm. unfold check_arg. rewrite eqb_false by lia. by eapply check_esp_run. Qed.

Lemma check_esp_lock s a p :
  desc s a → 0 < p → user_va p → is_Some (u_mem s !! p) →
  check_esp pal p (set_lock (Some me) s) = Ret (Value true, set_lock (Some me) s).
Proof using.
  intros D Hp Hu Hm. pose proof (check_esp_run s a p D Hp Hu Hm) as E. revert E. unfold check_esp.
  destruct (_ || _); [by intros [=]|]. unfold sbind, get, call, gets, on_uvm. cbn [u_pagedir u_vm set_lock].
  destruct (pagedir_get_page pal (u_pagedir s) p (u_vm s)) as [[k v]|]; [|done]. cbn. intros [= E1 E2].
  rewrite E1. do 2 f_equal. unfold set_lock, set_uvm in *. cbn in *. by rewrite <- E2.
Qed.

Lemma lock_run s a : desc s a → lock_file me s = Ret (Value tt, set_lock (Some me) s).
Proof using. intros D. unfold lock_file. by rewrite (ds_lock _ _ D). Qed.

(** The entry of the descriptor is accepted. *)
Lemma with_file_run {A} s a (k : option addr → sys (St := St) A) s0 :
  desc s a → fd_table s0 = fd_table s → with_file fd k s0 = k (Some fa) s0.
Proof using.
  intros D E. unfold with_file. erewrite sbind_val; [|unfold get_entry; rewrite (proj2 (Z.ltb_ge _ _)) by (destruct (ds_fd _ _ D); lia);
    rewrite E, (ds_entry _ _ D); done]. cbn. done.
Qed.

Lemma fd_checks s a : desc s a → s32 fd = fd ∧ check_fd fd = true ∧ check_fd_read_write fd = true ∧ (fd =? 0) = false ∧ (fd =? 1) = false ∧ (0 <? fd) = true.
Proof using.
  intros D. pose proof (ds_fd _ _ D) as Hfd. unfold check_fd, check_fd_read_write, MAX_FILE_DESCRIPTORS.
  rewrite s32_small by lia. split_and!; lia.
Qed.

(** *** Moving bytes between the user's memory and the kernel *)
Lemma load_bytes_run m buf n : mapped m buf n → load_bytes n buf m = Ret (peek m buf (Z.of_nat n), m).
Proof using.
  clear. unfold peek. rewrite Nat2Z.id. intros Hm.
  assert (E : ∀ k b, mapped m b k → load_bytes k b m = Ret ((λ i, default 0 (m !! (b + Z.of_nat i))) <$> seq 0 k, m)); [|by apply E].
  induction k as [|k IH]; intros b Hb; [done|]. cbn [load_bytes]. destruct (Hb b ltac:(lia)) as [v Hv].
  rewrite (load8_bind _ _ _ v) by done. rewrite (bind_Ret _ _ _ _ _ (IH (b + 1) ltac:(intros y Hy; apply Hb; lia))).
  unfold mret, cmd_ret. cbn [seq]. rewrite fmap_cons, Z.add_0_r, Hv, <- fmap_S_seq, <- list_fmap_compose. cbn [default from_option].
  do 3 f_equal. apply list_fmap_ext. intros i j _. unfold compose. do 2 f_equal. lia.
Qed.

Lemma peek_length m buf n : length (peek m buf n) = Z.to_nat n.
Proof using. clear. unfold peek. by rewrite length_fmap, length_seq. Qed.

Lemma store_all_run m p d : mapped m p (length d) → store_all p d m = Ret (tt, write m p d).
Proof using.
  clear. revert m p. induction d as [|b d IH]; intros m p Hm; [done|]. cbn [store_all write length] in *.
  rewrite store8_bind by (apply Hm; lia). rewrite IH; [by rewrite write_insert_comm by lia|].
  intros y Hy. rewrite lookup_insert_ne by lia. apply Hm. lia.
Qed.

Lemma same_pages_write m p d : mapped m p (length d) → same_pages m (write m p d).
Proof using.
  clear. intros Hm va _. destruct (decide (va < p ∨ p + Z.of_nat (length d) <= va)) as [Ho|Hi].
  - by rewrite write_lookup_out.
  - split; intros _; [apply Hm; lia|]. apply (bytes_at_mapped _ p d (bytes_at_write m p d)). lia.
Qed.

(** *** The five calls *)
(** The arguments of the call, and its buffer, are the user's memory. *)
Record call_ok (m : KString.mem) (args : Z) (f : fcall) (a : afile) : Prop := {
  co_args : 0 < args ∧ args + 16 < PHYS_BASE;
  co_words : words_at m args (call_words fd f);
  co_call :
    match f with
    | F_read buf n => 0 < n < 2 ^ 31 ∧ 0 < buf ∧ buf + n <= PHYS_BASE ∧ mapped m buf (Z.to_nat n)
    | F_write buf n => (0 < n < 2 ^ 31 ∧ 0 < buf ∧ buf + n <= PHYS_BASE ∧ mapped m buf (Z.to_nat n)) ∧
        position a + n <= Z.of_nat (length (contents a))
    | F_seek q => 0 <= q < 2 ^ 31
    | F_tell | F_size => True
    end }.

(** What a call leaves, given the abstract result [r]. *)
Definition left_by s (r : option Z * KString.mem * afile) s' : Prop :=
  desc s' r.2 ∧ u_mem s' = r.1.2 ∧ (∀ v, r.1.1 = Some v → eax s' = v) ∧ same_pages (u_mem s) (u_mem s') ∧
  fd_table s' = fd_table s ∧ console s' = console s.

Lemma content_bound s a : desc s a → Z.of_nat (length (contents a)) < 2 ^ 30 ∧ 0 <= position a.
Proof using. intros D. split; [apply (file_length_run _ _ _ _ (ds_open _ _ D))|apply (op_pos _ _ _ _ (ds_open _ _ D))]. Qed.

Lemma read_run s a args buf n :
  desc s a → call_ok (u_mem s) args (F_read buf n) a →
  ∃ s', k_read pal me keys args s = Ret (Value tt, s') ∧ left_by s (fstep (F_read buf n) (u_mem s) a) s'.
Proof using.
  intros D [_ Hw (Hn & Hb & He & Hm)]. destruct (fd_checks _ _ D) as (E1 & E2 & E3 & E4 & E5 & E6).
  destruct (content_bound _ _ D) as [Hc Hp]. set (d := take (Z.to_nat n) (drop (Z.to_nat (position a)) (contents a))).
  destruct (file_read_run _ _ _ _ n (ds_open _ _ D)) as (x & R & Ho & Hwr). fold d in R, Ho.
  assert (Hdl : (length d <= Z.to_nat n)%nat ∧ position a + Z.of_nat (length d) < 2 ^ 31).
  { unfold d. rewrite length_take, length_drop. pose proof (ds_pos _ _ D). lia. }
  assert (Hmd : mapped (u_mem s) buf (length d)) by (intros y Hy; apply Hm; lia).
  exists (after s x (write (u_mem s) buf d) (Z.of_nat (length d))). split.
  - unfold k_read. rewrite (sbind_val _ _ _ _ _ (arg_run s args _ 1 fd Hw eq_refl)), E1, E3.
    rewrite (sbind_val _ _ _ _ _ (arg_run s args _ 3 n Hw eq_refl)), eqb_false by lia.
    rewrite (sbind_val _ _ _ _ _ (arg_run s args _ 2 buf Hw eq_refl)).
    rewrite (sbind_val _ _ _ _ _ (check_arg_run s a buf D Hb ltac:(unfold user_va, PHYS_BASE in *; lia) ltac:(apply Hm; lia))).
    rewrite (sbind_val _ _ _ _ _ (lock_run s a D)), E4.
    erewrite sbind_val; [|rewrite (with_file_run s a) by done; erewrite sbind_val; [|unfold on_ufs; cbn [u_fs set_lock]; rewrite s32_small by lia; rewrite R; done];
      erewrite sbind_val; [|unfold on_umem; cbn [u_mem set_ufs set_lock]; rewrite store_all_run by done; done]; done].
    unfold unlock_file. rewrite bool_decide_true by done. cbn. rewrite u32_small by lia. done.
  - cbn [fstep]. fold d. split_and!; try done.
    + apply (desc_after s a); try done; cbn [contents position snd]; [by apply Hwr, (ds_write _ _ D)|lia|by apply same_pages_write].
    + cbn. by intros v [= <-].
    + by apply same_pages_write.
Qed.

Lemma write_run s a args buf n :
  desc s a → call_ok (u_mem s) args (F_write buf n) a →
  ∃ s', k_write pal me args s = Ret (Value tt, s') ∧ left_by s (fstep (F_write buf n) (u_mem s) a) s'.
Proof using.
  intros D [_ Hw ((Hn & Hb & He & Hm) & Hin)]. destruct (fd_checks _ _ D) as (E1 & E2 & E3 & E4 & E5 & E6).
  destruct (content_bound _ _ D) as [Hc Hp]. set (bs := peek (u_mem s) buf n).
  assert (Hbl : Z.of_nat (length bs) = n) by (unfold bs; rewrite peek_length; lia).
  destruct (file_write_run (u_fs s) fa _ _ bs (ds_open _ _ D) (ds_write _ _ D) ltac:(lia)) as (x & R & Ho & Hwr).
  rewrite Hbl in R, Ho. exists (after s x (u_mem s) n). split.
  - unfold k_write. rewrite (sbind_val _ _ _ _ _ (arg_run s args _ 1 fd Hw eq_refl)), E1, E3.
    rewrite (sbind_val _ _ _ _ _ (arg_run s args _ 3 n Hw eq_refl)), eqb_false by lia. rewrite E6.
    erewrite sbind_val; [|rewrite (sbind_val _ _ _ _ _ (arg_run s args _ 2 buf Hw eq_refl));
      apply (check_arg_run s a buf D Hb ltac:(unfold user_va, PHYS_BASE in *; lia) ltac:(apply Hm; lia))].
    cbv beta iota. rewrite (sbind_val _ _ _ _ _ (lock_run s a D)).
    rewrite (sbind_val _ _ _ _ _ (arg_run (set_lock (Some me) s) args _ 2 buf Hw eq_refl)), E5.
    erewrite sbind_val; [|rewrite (with_file_run s a) by done; rewrite s32_small by lia;
      erewrite sbind_val; [|unfold on_umem; cbn [u_mem set_lock]; rewrite load_bytes_run by done; rewrite Z2Nat.id by lia; done];
      erewrite sbind_val; [|unfold on_ufs; cbn [u_fs set_umem set_lock]; fold bs; rewrite R; done]; done].
    unfold unlock_file. rewrite bool_decide_true by done. cbn. rewrite u32_small by lia. done.
  - cbn [fstep]. fold bs. split_and!; try done.
    + apply (desc_after s a); try done. cbn [contents position snd]. lia.
    + cbn. by intros v [= <-].
Qed.

Lemma seek_run s a args q :
  desc s a → call_ok (u_mem s) args (F_seek q) a →
  ∃ s', k_seek me args s = Ret (Value tt, s') ∧ left_by s (fstep (F_seek q) (u_mem s) a) s'.
Proof using.
  intros D [_ Hw Hq]. destruct (fd_checks _ _ D) as (E1 & E2 & _).
  destruct (file_seek_run _ _ _ _ q (ds_open _ _ D) ltac:(lia)) as (x & R & Ho & Hwr).
  exists (after s x (u_mem s) (eax s)). split.
  - unfold k_seek. rewrite (sbind_val _ _ _ _ _ (arg_run s args _ 1 fd Hw eq_refl)), E1, E2, (with_file_run s a) by done.
    rewrite (sbind_val _ _ _ _ _ (lock_run s a D)).
    rewrite (sbind_val _ _ _ _ _ (arg_run (set_lock (Some me) s) args _ 2 q Hw eq_refl)), s32_small by lia.
    erewrite sbind_val; [|unfold on_ufs; cbn [u_fs set_lock]; rewrite R; done].
    unfold unlock_file. by rewrite bool_decide_true by done.
  - cbn [fstep]. split_and!; try done. apply (desc_after s a); try done; cbn [contents position snd]; [by apply Hwr, (ds_write _ _ D)|lia].
Qed.

Lemma tell_run s a args :
  desc s a → call_ok (u_mem s) args F_tell a →
  ∃ s', k_tell me args s = Ret (Value tt, s') ∧ left_by s (fstep F_tell (u_mem s) a) s'.
Proof using.
  intros D [_ Hw _]. destruct (fd_checks _ _ D) as (E1 & E2 & _). destruct (content_bound _ _ D) as [Hc Hp].
  destruct (op_file _ _ _ _ (ds_open _ _ D)) as (ia & ino & dw & Hf & _).
  exists (after s (u_fs s) (u_mem s) (position a)). split.
  - unfold k_tell. rewrite (sbind_val _ _ _ _ _ (arg_run s args _ 1 fd Hw eq_refl)), E1, E2, (with_file_run s a) by done.
    rewrite (sbind_val _ _ _ _ _ (lock_run s a D)).
    erewrite sbind_val; [|unfold on_ufs, file_tell; cbn [u_fs set_lock]; rewrite ASSERT_bind, (deref_bind _ _ _ _ _ Hf) by done; done].
    cbn [pos]. erewrite sbind_val; [|done]. unfold unlock_file. rewrite bool_decide_true by done. cbn.
    rewrite u32_small by (pose proof (ds_pos _ _ D); lia). done.
  - cbn [fstep]. split_and!; try done; [|cbn; by intros v [= <-]].
    apply (desc_after s a); try done; cbn [contents position snd]; apply D.
Qed.

Lemma size_run s a args :
  desc s a → call_ok (u_mem s) args F_size a →
  ∃ s', k_filesize me args s = Ret (Value tt, s') ∧ left_by s (fstep F_size (u_mem s) a) s'.
Proof using.
  intros D [_ Hw _]. destruct (fd_checks _ _ D) as (E1 & E2 & _). destruct (content_bound _ _ D) as [Hc Hp].
  destruct (file_length_run _ _ _ _ (ds_open _ _ D)) as (_ & x & R & Ho & Hwr).
  exists (after s x (u_mem s) (Z.of_nat (length (contents a)))). split.
  - unfold k_filesize. rewrite (sbind_val _ _ _ _ _ (arg_run s args _ 1 fd Hw eq_refl)), E1, E2, (with_file_run s a) by done.
    rewrite (sbind_val _ _ _ _ _ (lock_run s a D)).
    erewrite sbind_val; [|unfold on_ufs; cbn [u_fs set_lock]; rewrite R; done].
    erewrite sbind_val; [|done]. unfold unlock_file. rewrite bool_decide_true by done. cbn. rewrite u32_small by lia. done.
  - cbn [fstep]. split_and!; try done; [|cbn; by intros v [= <-]].
    apply (desc_after s a); try done; cbn [contents position snd]; [by apply Hwr, (ds_write _ _ D)|apply D].
Qed.

(** The dispatcher finds the handler. *)
Lemma handler_run s a args f :
  desc s a → call_ok (u_mem s) args f a →
  ∃ s', syscall_handler pal me keys junk name0 is_dir0 k_exec k_wait args s = Ret (Value tt, s') ∧
    left_by s (fstep f (u_mem s) a) s'.
Proof using.
  intros D Hok. pose proof Hok as [[A1 A2] Hw _].
  assert (Hfirst : ∃ nr rest, call_words fd f = nr :: rest ∧ 7 <= nr < 12) by (destruct f; do 2 eexists; split; try done).
  destruct Hfirst as (nr & rest & Ews & Hnr). assert (Hz : call_words fd f !! 0%nat = Some nr) by by rewrite Ews.
  assert (Hm : is_Some (u_mem s !! args)).
  { pose proof (Hw 0%nat nr Hz) as E. rewrite Z.mul_0_r, Z.add_0_r in E.
    destruct (u_mem s !! args) as [v|] eqn:Ev; [by eexists|]. unfold load32, mbind, cmd_bind, load8 in E. by rewrite Ev in E. }
  unfold syscall_handler.
  rewrite (sbind_val _ _ _ _ _ (check_esp_run s a args D A1 ltac:(unfold user_va, PHYS_BASE in *; lia) Hm)).
  unfold is_kernel_vaddr, PHYS_BASE in *. rewrite u32_small, (proj2 (Z.leb_gt _ _)) by lia. cbn [andb negb].
  rewrite (sbind_val _ _ _ _ s eq_refl), (sbind_val _ _ _ _ _ (arg_run s args _ 0 nr Hw Hz)).
  rewrite (proj2 (Z.ltb_lt nr 21)) by lia. destruct f; injection Ews as <- <-; cbn [syscall_nrs Z.to_nat Pos.to_nat].
  - by apply read_run.
  - by apply write_run.
  - by apply seek_run.
  - by apply tell_run.
  - by apply size_run.
Qed.

(** *** Sequences of calls
    Before each call the program has run on its own and left the memory [m]
    with the call's arguments at [args]. *)
Definition result_of (f : fcall) (v : Z) : option Z := match f with F_seek _ => None | _ => Some v end.

Fixpoint run_session (cs : list (KString.mem * Z * fcall)) : sys (St := St) (list (option Z * KString.mem)) :=
  match cs with
  | [] => done []
  | (m, args, f) :: cs =>
      sbind (put (set_umem m)) (λ _,
      sbind (syscall_handler pal me keys junk name0 is_dir0 k_exec k_wait args) (λ _,
      sbind (get eax) (λ v,
      sbind (get u_mem) (λ m',
      sbind (run_session cs) (λ rs, done ((result_of f v, m') :: rs))))))
  end.

Fixpoint asession (cs : list (KString.mem * Z * fcall)) (a : afile) : list (option Z * KString.mem) * afile :=
  match cs with
  | [] => ([], a)
  | (m, args, f) :: cs => let r := fstep f m a in let rest := asession cs r.2 in (r.1 :: rest.1, rest.2)
  end.

Fixpoint session_ok (m0 : KString.mem) (cs : list (KString.mem * Z * fcall)) (a : afile) : Prop :=
  match cs with
  | [] => True
  | (m, args, f) :: cs =>
      same_pages m0 m ∧ call_ok m args f a ∧ session_ok (fstep f m a).1.2 cs (fstep f m a).2
  end.

Lemma session_run cs s a :
  desc s a → session_ok (u_mem s) cs a →
  ∃ s', run_session cs s = Ret (Value (asession cs a).1, s') ∧ desc s' (asession cs a).2.
Proof using.
  revert s a. induction cs as [|[[m args] f] cs IH]; intros s a D Hok; [by exists s|].
  destruct Hok as (Hp & Hc & Hrest). set (s0 := set_umem m s).
  assert (D0 : desc s0 a).
  { unfold s0. rewrite <- (after_memory s a m D). apply (desc_after s a); try done; apply D. }
  destruct (handler_run s0 a args f D0 Hc) as (s1 & Hrun & D1 & Em & Ev & _). cbn [u_mem s0 set_umem] in Em, D1, Ev.
  rewrite <- Em in Hrest. destruct (IH s1 _ D1 Hrest) as (s2 & Hrun2 & D2). exists s2. split; [|done].
  cbn [run_session]. rewrite (sbind_val _ _ _ _ s0 eq_refl), (sbind_val _ _ _ _ _ Hrun).
  rewrite (sbind_val _ _ _ _ s1 eq_refl), (sbind_val _ _ _ _ s1 eq_refl), (sbind_val _ _ _ _ _ Hrun2).
  unfold done. cbn [asession fst snd]. do 4 f_equal. rewrite Em.
  destruct f; cbn [fstep fst snd result_of] in *; rewrite ?(Ev _ eq_refl); done.
Qed.


Lemma splice_read p bs (c : list Z) :
  (p + length bs <= length c)%nat → take (length bs) (drop p (splice p bs c)) = bs.
Proof using.
  clear. intros Hl. unfold splice. rewrite drop_app_length' by (rewrite length_take; lia). by rewrite take_app_length.
Qed.

(** What a program writes to a file it can read back: a write inside the
    file, a seek to where it began and a read of the same length put the
    written bytes at the destination. *)
Theorem write_seek_read s a m1 m2 m3 args1 args2 args3 src dst n :
  desc s a →
  let cs := [(m1, args1, F_write src n); (m2, args2, F_seek (position a)); (m3, args3, F_read dst n)] in
  session_ok (u_mem s) cs a →
  ∃ s', run_session cs s
      = Ret (Value [(Some n, m1); (None, m2); (Some n, write m3 dst (peek m1 src n))], s').
Proof using.
  intros D cs Hok. destruct (session_run cs s a D Hok) as (s' & Hrun & _). exists s'. rewrite Hrun.
  destruct Hok as (_ & [_ _ [Hn Hin]] & _). destruct (content_bound _ _ D) as [Hc Hp].
  unfold cs. cbn [asession fstep fst snd contents position]. set (bs := peek m1 src n).
  assert (Hbl : length bs = Z.to_nat n) by apply peek_length.
  assert (E : take (Z.to_nat n) (drop (Z.to_nat (position a)) (splice (Z.to_nat (position a)) bs (contents a))) = bs).
  { rewrite <- Hbl. apply splice_read. lia. }
  rewrite E, Hbl, Z2Nat.id by lia. done.
Qed.
End calls.
