(* ===== verification/SyscallExamples.v ===== *)
(** A process with an open file and a page of memory: the hypotheses of the
    theorems on system calls hold, and small runs of the handlers. *)
From S2P Require Import Prelude Vaddr Bitmap Cache FsState Inode InodeSpec FreeMapSpec FsTheorems Directory DirSpec.
From S2P Require Import Pagedir PagedirSpec PagedirTheorems KString KStringSpec ArgStack ExecSpec.
From S2P Require Import Syscall SyscallSpec SyscallFiles.
Open Scope Z_scope.

(** ** One page at 0x08048000 *)
Definition ex_upage : Z := 0x8048000.
Definition ex_user_vm : vm :=
  Eval vm_compute in
    match pagedir_set_page exec_pal ex_init 8192 ex_pd ex_upage 0xc0400000 true ex_vm with Ret (_, v) => v | Err _ => ex_vm end.
Definition ex_user_space : spaces :=
  mk_spaces ex_pd (<[(ex_pd, pg_no ex_upage) := mk_info 0xc0400000 true false false]> ∅).

Lemma ex_user_represents : represents ex_init ex_dirs ex_user_vm ex_user_space.
Proof.
  destruct (set_page_cases exec_pal ex_init 8192 ex_dirs exec_pal_ok ex_vm (mk_spaces ex_pd ∅) ex_pd ex_upage 0xc0400000 true
    ex_represents) as [[Hrun _]|(v & Hrun & Hrep & _)].
  - split_and!; by_decision.
  - by vm_compute in Hrun.
  - assert (E : pagedir_set_page exec_pal ex_init 8192 ex_pd ex_upage 0xc0400000 true ex_vm = Ret (true, ex_user_vm)) by by vm_compute.
    rewrite E in Hrun. injection Hrun as <-. exact Hrep.
Qed.

(** The page with the words [ws] at its start and [bs] at offset 64. *)
Definition ex_page (ws bs : list Z) : KString.mem :=
  write (write (write ∅ ex_upage (replicate 4096 0)) ex_upage (ws ≫= le_bytes)) (ex_upage + 64) bs.

Lemma ex_page_dom ws bs va : (length ws <= 8)%nat → (length bs <= 64)%nat → user_va va →
  is_Some (ex_page ws bs !! va) ↔ ex_upage <= va < ex_upage + 4096.
Proof.
  intros Hw Hb Hva. unfold ex_page. set (m0 := write ∅ ex_upage (replicate 4096 0)).
  assert (Hm0 : mapped m0 ex_upage 4096).
  { pose proof (bytes_at_mapped _ _ _ (bytes_at_write ∅ ex_upage (replicate 4096 0))) as Hm. by rewrite length_replicate in Hm. }
  assert (Hlw : (length (ws ≫= le_bytes) <= 32)%nat) by (fold (bytes_of ws); rewrite bytes_of_length; lia).
  set (m1 := write m0 ex_upage (ws ≫= le_bytes)).
  assert (Hm1 : mapped m1 ex_upage 4096) by by apply mapped_write.
  transitivity (is_Some (m1 !! va)); [apply same_pages_write; [intros y Hy; apply Hm1; lia|done]|].
  transitivity (is_Some (m0 !! va)); [apply same_pages_write; [intros y Hy; apply Hm0; lia|done]|].
  split; [|intros Hin; apply Hm0; lia]. intros Hs.
  destruct (decide (ex_upage <= va < ex_upage + 4096)) as [|Ho]; [done|]. exfalso. unfold m0 in Hs.
  rewrite write_lookup_out, lookup_empty in Hs; [by destruct Hs|]. rewrite length_replicate. lia.
Qed.

(** ** A process with descriptor 2 open on the example file of ExecSpec *)
Definition ex_table : list fd_entry :=
  <[2%nat := mk_fd true false (Some ex_exec_file)]> (replicate 128 (mk_fd false false None)).
Definition ex_usr (m : KString.mem) : usr block :=
  mk_usr ex_exec_fs ex_user_vm ex_pd m ex_table 1 None None (Some 0) [] 0 0.
Definition ex_file : afile := mk_afile ex_content 0.

Lemma ex_writable : writable_file ex_exec_fs ex_exec_file.
Proof.
  intros a p dw ino. assert (E : files ex_exec_fs !! ex_exec_file = Some (mk_file (Some ex_addr) 0 false)) by by vm_compute.
  rewrite E. intros [= <- <- <-]. assert (Ei : inodes ex_exec_fs !! ex_addr = Some ex_inode) by by vm_compute.
  rewrite Ei. by intros [= <-].
Qed.

Lemma ex_view ws bs : (length ws <= 8)%nat → (length bs <= 64)%nat →
  ∀ va, user_va va → is_Some (ex_page ws bs !! va) ↔ is_Some (pages ex_user_space !! (ex_pd, pg_no va)).
Proof.
  intros Hw Hb va Hva. rewrite ex_page_dom by done. unfold ex_user_space. cbn [pages].
  rewrite <- (page_addrs ex_upage va Hva) by by_decision. destruct (decide (pg_no va = pg_no ex_upage)) as [->|Hne].
  - rewrite lookup_insert_eq. split; [by eexists|done].
  - rewrite lookup_insert_ne, lookup_empty by congruence. split; [done|by intros [? [=]]].
Qed.

Lemma ex_desc : desc ex_init ex_dirs ex_user_space 2 ex_exec_file (ex_usr (ex_page [] [])) ex_file.
Proof.
  split; [lia|reflexivity|exact ex_exec_opened|reflexivity|exact ex_writable|reflexivity|exact ex_user_represents| |].
  - change (ex_pd ∈ ex_dirs). by_decision.
  - apply (ex_view [] []); cbn [length]; lia.
Qed.

(** Write "abcd" from offset 64 of the page, seek back, read to offset 128. *)
Definition ex_m1 : KString.mem := ex_page [9; 2; ex_upage + 64; 4] [97; 98; 99; 100].
Definition ex_m2 : KString.mem := ex_page [10; 2; 0] [].
Definition ex_m3 : KString.mem := ex_page [8; 2; ex_upage + 128; 4] [].
Definition ex_session : list (KString.mem * Z * fcall) :=
  [(ex_m1, ex_upage, F_write (ex_upage + 64) 4); (ex_m2, ex_upage, F_seek 0); (ex_m3, ex_upage, F_read (ex_upage + 128) 4)].

Lemma ex_same ws bs ws' bs' : (length ws <= 8)%nat → (length bs <= 64)%nat → (length ws' <= 8)%nat → (length bs' <= 64)%nat →
  same_pages (ex_page ws bs) (ex_page ws' bs').
Proof. intros H1 H2 H3 H4 va Hva. by rewrite !ex_page_dom. Qed.

Lemma ex_mapped_page ws bs p n : (length ws <= 8)%nat → (length bs <= 64)%nat →
  ex_upage <= p → p + Z.of_nat n <= ex_upage + 4096 → mapped (ex_page ws bs) p n.
Proof. intros H1 H2 H3 H4 y Hy. apply ex_page_dom; [done|done| |lia]. unfold user_va, PHYS_BASE, ex_upage in *. lia. Qed.

Lemma ex_small {A} (ws : list A) n : bool_decide (length ws <= n)%nat = true → (length ws <= n)%nat.
Proof. apply bool_decide_eq_true. Qed.

(** The words are where the page says. *)
Lemma ex_words ws bs : (length ws <= 8)%nat → (length bs <= 64)%nat → Forall is_u32 ws → words_at (ex_page ws bs) ex_upage ws.
Proof.
  intros H1 H2 Hu. apply words_at_bytes; [done|]. unfold ex_page. generalize (write ∅ ex_upage (replicate 4096 0)). intros m0.
  eapply bytes_at_agree; [|apply bytes_at_write]. intros x Hx. rewrite bytes_of_length in Hx. apply write_lookup_out. lia.
Qed.
Ltac ex_words_ok := apply ex_words; [apply ex_small; reflexivity..|by_decision].

Ltac ex_page_ok := first [apply ex_same | apply ex_mapped_page]; try (apply ex_small; reflexivity); unfold ex_upage; lia.

Lemma ex_call1 : call_ok 2 ex_m1 ex_upage (F_write (ex_upage + 64) 4) ex_file.
Proof.
  split; [split; by_decision| |].
  - ex_words_ok.
  - split; [|by_decision]. split; [split; by_decision|]. split; [by_decision|]. split; [by_decision|]. ex_page_ok.
Qed.

Lemma ex_call2 a : call_ok 2 ex_m2 ex_upage (F_seek 0) a.
Proof.
  split; [split; by_decision| |split; by_decision].
  ex_words_ok.
Qed.

Lemma ex_call3 a : call_ok 2 ex_m3 ex_upage (F_read (ex_upage + 128) 4) a.
Proof.
  split; [split; by_decision| |].
  - ex_words_ok.
  - split; [split; by_decision|]. split; [by_decision|]. split; [by_decision|]. ex_page_ok.
Qed.

Lemma ex_session_ok : session_ok 2 (ex_page [] []) ex_session ex_file.
Proof.
  refine (conj _ (conj ex_call1 (conj _ (conj (ex_call2 _) (conj _ (conj (ex_call3 _) I)))))); ex_page_ok.
Qed.

Abbreviation ex_run := (run_session exec_pal 1%positive (λ _, 0) [] [] false (λ _, done tt) (λ _, done tt)).


Lemma write_seek_read_witness :
  ∃ s', ex_run ex_session (ex_usr (ex_page [] []))
    = Ret (Value [(Some 4, ex_m1); (None, ex_m2); (Some 4, write ex_m3 (ex_upage + 128) [97; 98; 99; 100])], s').
Proof.
  destruct (write_seek_read exec_pal ex_init ex_dirs 1%positive (λ _, 0) [] [] false (λ _, done tt) (λ _, done tt)
    ex_user_space 2 ex_exec_file (ex_usr (ex_page [] [])) ex_file ex_m1 ex_m2 ex_m3 ex_upage ex_upage ex_upage
    (ex_upage + 64) (ex_upage + 128) 4 ex_desc ex_session_ok) as [s' E].
  exists s'. refine (eq_trans E _). do 4 f_equal.
Defined.

(** ** The lock *)
(** A few bytes of user memory: words, then a string at offset 64. *)
Definition ex_bytes (ws bs : list Z) : KString.mem := write (write ∅ ex_upage (bytes_of ws)) (ex_upage + 64) bs.

Abbreviation ex_tell := (k_tell (St := block) 1 ex_upage).
Definition ex_told : usr block :=
  Eval vm_compute in match ex_tell (ex_usr (ex_bytes [11; 2] [])) with Ret (_, s) => s | Err _ => ex_usr ∅ end.

Lemma file_lock_protocol_witness :
  ex_tell (ex_usr (ex_bytes [11; 2] [])) = Ret (Value tt, ex_told) ∧ file_lock ex_told = None.
Proof.
  assert (E : ex_tell (ex_usr (ex_bytes [11; 2] [])) = Ret (Value tt, ex_told)) by (vm_compute; reflexivity). split; [exact E|].
  destruct (file_lock_protocol exec_pal 1%positive (λ _, 0) ex_junk [] false ex_upage
    (ex_usr (ex_bytes [11; 2] [])) (Value tt) ex_told eq_refl) as [Hs _].
  apply Hs. eexists. split; [|exact E]. unfold orderly. do 5 right. left.
Defined.

(** Opening "x/y" in a root directory without "x". *)
Definition ex_lost : usr block :=
  mk_usr ex_root_fs ex_user_vm ex_pd (ex_bytes [6; ex_upage + 64] [120; 47; 121; 0]) (replicate 128 (mk_fd false false None)) 0
    (Some ex_root) None (Some 0) [] 0 0.
Definition ex_checked : usr block :=
  Eval vm_compute in match check_arg exec_pal (ex_upage + 64) ex_lost with Ret (_, s) => s | Err _ => ex_lost end.
Definition ex_named : usr block :=
  Eval vm_compute in match user_string (ex_upage + 64) (set_lock (Some 1%positive) ex_checked) with Ret (_, s) => s | Err _ => ex_lost end.
Definition ex_resolved : res (outcome (bool * option addr * list Z) * usr block) :=
  Eval vm_compute in resolve ex_junk (replicate 15 0) [120; 47; 121] ex_named.
Definition ex_stuck : usr block := Eval vm_compute in match ex_resolved with Ret (_, s) => s | Err _ => ex_lost end.

Definition ex_stuck_dir : option addr :=
  Eval vm_compute in match ex_resolved with Ret (Value (_, d, _), _) => d | _ => None end.

Lemma open_unresolved_keeps_lock_witness :
  k_open exec_pal 1 ex_junk (replicate 15 0) false ex_upage ex_lost = Ret (Value tt, set_eax_ (2 ^ 32 - 1) ex_stuck) ∧
  file_lock ex_stuck = Some 1%positive.
Proof.
  destruct (open_unresolved_keeps_lock exec_pal 1%positive ex_junk (replicate 15 0) false ex_upage ex_lost (ex_upage + 64)
    ex_checked [120; 47; 121] ex_named ex_stuck_dir (120 :: replicate 14 0) ex_stuck) as (E & Hl & _);
    [reflexivity|vm_compute; reflexivity..|]. split; [exact E|exact Hl].
Defined.

(** Two files are open (descriptors 2 and 3, so [num_fds] is 2) and the process
    exits: the loop of [thread_exit] makes no round and both stay open. *)
Definition ex_two_open : usr block :=
  mk_usr ex_exec_fs ex_user_vm ex_pd (ex_bytes [1; 0] [])
    (<[2%nat := mk_fd true false (Some ex_exec_file)]> (<[3%nat := mk_fd true false (Some ex_exec_file)]> (replicate 128 (mk_fd false false None))))
    2 None None (Some 0) [] 0 0.
Example exit_leaks_two_files :
  match k_exit ex_upage ex_two_open with Ret (Exited, s) => files (u_fs s) !! ex_exec_file | _ => None end
  = files ex_exec_fs !! ex_exec_file ∧ is_Some (files ex_exec_fs !! ex_exec_file).
Proof. split; [vm_compute; reflexivity|by_decision]. Qed.
