(* ===== verification/UserSyscall.v ===== *)
(** * System calls as a user program makes them (lib/user/syscall.c,
      lib/user/entry.c)

    A stub pushes its arguments, the last one first, then the number of the
    call, and executes [int $0x30]; the kernel's handler gets the address of
    the number, and what it leaves in %eax is the result.  [esp] is the stack
    pointer of the program before the stub, which is also its value after it.
    The theorem joins the two sides: through the stubs a descriptor is a file
    with a position. *)
From S2P Require Import Prelude Vaddr Bitmap Cache FsState Inode InodeSpec FsTheorems Directory DirSpec.
From S2P Require Import Pagedir PagedirSpec PagedirTheorems KString KStringSpec ArgStack ExecSpec.
From S2P Require Import Syscall SyscallSpec SyscallFiles SyscallExamples.
Open Scope Z_scope.

Section stubs.
Context {St : Type} `{SectorOps St}.
Context (pal : vm → option Z) (me : positive) (keys : nat → Z) (junk name0 : list Z) (is_dir0 : bool).
Context (k_exec k_wait : Z → sys (St := St) unit).
Abbreviation sys := (sys (St := St)).
#[local] Notation "x <~ m ; k" := (sbind m (λ x, k)) (at level 20, m at level 100, k at level 200, right associativity).
#[local] Notation "m ;~ k" := (sbind m (λ _, k)) (at level 100, k at level 200, right associativity).

(** The value of a constant of lib/syscall-nr.h. *)
Definition nr_index (nr : syscall_nr) : Z :=
  match nr with
  | SYS_HALT => 0 | SYS_EXIT => 1 | SYS_EXEC => 2 | SYS_WAIT => 3 | SYS_CREATE => 4 | SYS_REMOVE => 5 | SYS_OPEN => 6
  | SYS_FILESIZE => 7 | SYS_READ => 8 | SYS_WRITE => 9 | SYS_SEEK => 10 | SYS_TELL => 11 | SYS_CLOSE => 12
  | SYS_PRACTICE => 13 | SYS_MMAP => 14 | SYS_MUNMAP => 15 | SYS_CHDIR => 16 | SYS_MKDIR => 17 | SYS_READDIR => 18
  | SYS_ISDIR => 19 | SYS_INUMBER => 20
  end.

(** [pushl v]: the new stack pointer. *)
Definition push (v esp : Z) : sys Z := on_umem (store_all (esp - 4) (le_bytes (u32 v))) ;~ done (esp - 4).
Fixpoint push_list (vs : list Z) (esp : Z) : sys Z :=
  match vs with [] => done esp | v :: vs => esp <~ push v esp; push_list vs esp end.
Definition int_0x30 (esp : Z) : sys Z :=
  syscall_handler pal me keys junk name0 is_dir0 k_exec k_wait esp ;~ get eax.

Definition syscall0 (nr : syscall_nr) (esp : Z) : sys Z := esp <~ push_list [nr_index nr] esp; int_0x30 esp.
Definition syscall1 (nr : syscall_nr) (a0 esp : Z) : sys Z := esp <~ push_list [a0; nr_index nr] esp; int_0x30 esp.
Definition syscall2 (nr : syscall_nr) (a0 a1 esp : Z) : sys Z := esp <~ push_list [a1; a0; nr_index nr] esp; int_0x30 esp.
Definition syscall3 (nr : syscall_nr) (a0 a1 a2 esp : Z) : sys Z := esp <~ push_list [a2; a1; a0; nr_index nr] esp; int_0x30 esp.
(** The result as an [int], a [bool], or not used. *)
Definition as_int (m : sys Z) : sys Z := v <~ m; done (s32 v).
Definition as_bool (m : sys Z) : sys bool := v <~ m; done (negb (s32 v =? 0)).
Definition as_void (m : sys Z) : sys unit := m ;~ done tt.
(** [NOT_REACHED]: a panic of the program. *)
Definition noreturn (m : sys Z) : sys unit := m ;~ λ _, Err KernelPanic.

Definition practice (i esp : Z) : sys Z := as_int (syscall1 SYS_PRACTICE i esp).
Definition halt (esp : Z) : sys unit := noreturn (syscall0 SYS_HALT esp).
Definition exit (status esp : Z) : sys unit := noreturn (syscall1 SYS_EXIT status esp).
Definition exec (file esp : Z) : sys Z := as_int (syscall1 SYS_EXEC file esp).
Definition wait (pid esp : Z) : sys Z := as_int (syscall1 SYS_WAIT pid esp).
Definition create (file initial_size esp : Z) : sys bool := as_bool (syscall2 SYS_CREATE file initial_size esp).
Definition remove (file esp : Z) : sys bool := as_bool (syscall1 SYS_REMOVE file esp).
Definition open (file esp : Z) : sys Z := as_int (syscall1 SYS_OPEN file esp).
Definition filesize (fd esp : Z) : sys Z := as_int (syscall1 SYS_FILESIZE fd esp).
Definition read (fd buffer size esp : Z) : sys Z := as_int (syscall3 SYS_READ fd buffer size esp).
Definition write (fd buffer size esp : Z) : sys Z := as_int (syscall3 SYS_WRITE fd buffer size esp).
Definition seek (fd position esp : Z) : sys unit := as_void (syscall2 SYS_SEEK fd position esp).
(** The result is unsigned. *)
Definition tell (fd esp : Z) : sys Z := v <~ syscall1 SYS_TELL fd esp; done (u32 (s32 v)).
Definition close (fd esp : Z) : sys unit := as_void (syscall1 SYS_CLOSE fd esp).
Definition mmap (fd va esp : Z) : sys Z := as_int (syscall2 SYS_MMAP fd va esp).
Definition munmap (mapid esp : Z) : sys unit := as_void (syscall1 SYS_MUNMAP mapid esp).
Definition chdir (dir esp : Z) : sys bool := as_bool (syscall1 SYS_CHDIR dir esp).
Definition mkdir (dir esp : Z) : sys bool := as_bool (syscall1 SYS_MKDIR dir esp).
Definition readdir (fd name esp : Z) : sys bool := as_bool (syscall2 SYS_READDIR fd name esp).
Definition isdir (fd esp : Z) : sys bool := as_bool (syscall1 SYS_ISDIR fd esp).
Definition inumber (fd esp : Z) : sys Z := as_int (syscall1 SYS_INUMBER fd esp).

(** entry.c: [main] runs with its own stack pointer below [_start]'s. *)
Definition _start (main : Z → Z → sys Z) (argc argv esp : Z) : sys unit := r <~ main argc argv; exit r esp.
End stubs.

(** ** Through the stubs *)
Section files.
Context {St : Type} `{SectorStore St}.
Context (pal : vm → option Z) (init_page_dir : Z) (dirs : gset Z).
Context (me : positive) (keys : nat → Z) (junk name0 : list Z) (is_dir0 : bool).
Context (k_exec k_wait : Z → sys (St := St) unit).
Context (sp : spaces) (fd : Z) (fa : addr).
Implicit Types s : usr St.
Abbreviation stub f := (f pal me keys junk name0 is_dir0 k_exec k_wait).
Abbreviation desc := (desc init_page_dir dirs sp fd fa).

(** The call of the user program for an operation on the descriptor; [None]
    when it returns nothing. *)
Definition user_call (f : fcall) (esp : Z) : sys (St := St) (option Z) :=
  match f with
  | F_read buf n => sbind (stub read fd buf n esp) (λ v, done (Some v))
  | F_write buf n => sbind (stub write fd buf n esp) (λ v, done (Some v))
  | F_seek q => sbind (stub seek fd q esp) (λ _, done None)
  | F_tell => sbind (stub tell fd esp) (λ v, done (Some v))
  | F_size => sbind (stub filesize fd esp) (λ v, done (Some v))
  end.
(** The memory and the stack pointer in the kernel. *)
Definition args_of (f : fcall) (esp : Z) : Z := esp - 4 * Z.of_nat (length (call_words fd f)).
Definition pushed (f : fcall) (esp : Z) (m : KString.mem) : KString.mem :=
  KStringSpec.write m (args_of f esp) (bytes_of (call_words fd f)).

Lemma write_app m p xs ys :
  KStringSpec.write (KStringSpec.write m (p + Z.of_nat (length xs)) ys) p xs = KStringSpec.write m p (xs ++ ys).
Proof using Type.
  revert p. induction xs as [|x xs IH]; intros p; simpl; [by rewrite Z.add_0_r|].
  f_equal. rewrite <- IH. do 2 f_equal. lia.
Qed.
Lemma set_umem_twice m m' s : set_umem m (set_umem m' s) = set_umem m s.
Proof using Type. done. Qed.
Lemma stub_push_run v esp s : is_u32 v → mapped (u_mem s) (esp - 4) 4 →
  push v esp s = Ret (Value (esp - 4), set_umem (KStringSpec.write (u_mem s) (esp - 4) (le_bytes v)) s).
Proof using Type.
  intros Hv Hm. unfold push, on_umem, sbind. rewrite u32_small by exact Hv. by rewrite store_all_run.
Qed.
Lemma push_list_run vs esp s : Forall is_u32 vs → mapped (u_mem s) (esp - 4 * Z.of_nat (length vs)) (4 * length vs) →
  push_list vs esp s = Ret (Value (esp - 4 * Z.of_nat (length vs)),
    set_umem (KStringSpec.write (u_mem s) (esp - 4 * Z.of_nat (length vs)) (bytes_of (rev vs))) s).
Proof using Type.
  intros Hv. revert esp s. induction Hv as [|v vs Hv Hvs IH]; intros esp s Hm; cbn [push_list length].
  - simpl. rewrite Z.sub_0_r. by destruct s.
  - cbn [length] in Hm.
    rewrite (sbind_val _ _ _ _ _ (stub_push_run v esp s Hv ltac:(apply (mapped_sub _ _ _ _ _ Hm); lia))).
    rewrite IH; [|cbn [u_mem set_umem]; apply mapped_write; apply (mapped_sub _ _ _ _ _ Hm); lia].
    rewrite set_umem_twice. cbn [u_mem set_umem rev].
    replace (esp - 4 - 4 * Z.of_nat (length vs)) with (esp - 4 * Z.of_nat (S (length vs))) by lia.
    rewrite bytes_of_app, <- write_app.
    replace (esp - 4 * Z.of_nat (S (length vs)) + Z.of_nat (length (bytes_of (rev vs)))) with (esp - 4)
      by (rewrite bytes_of_length, length_rev; lia).
    done.
Qed.

(** The buffer of the call and the bounds of the file. *)
Definition buffers_ok (m : KString.mem) (f : fcall) (a : afile) : Prop :=
  match f with
  | F_read buf n => 0 < n < 2 ^ 31 ∧ 0 < buf ∧ buf + n <= PHYS_BASE ∧ mapped m buf (Z.to_nat n)
  | F_write buf n => (0 < n < 2 ^ 31 ∧ 0 < buf ∧ buf + n <= PHYS_BASE ∧ mapped m buf (Z.to_nat n)) ∧
      position a + n <= Z.of_nat (length (contents a))
  | F_seek q => 0 <= q < 2 ^ 31
  | F_tell | F_size => True
  end.
(** There is room for the words on the stack. *)
Record stack_ok (m : KString.mem) (f : fcall) (esp : Z) : Prop := mk_stack_ok {
  so_low : 0 < args_of f esp;
  so_high : args_of f esp + 16 < PHYS_BASE;
  so_mapped : mapped m (args_of f esp) (4 * length (call_words fd f)) }.

Lemma call_words_u32 s a f m : desc s a → buffers_ok m f a → Forall is_u32 (call_words fd f).
Proof using Type.
  intros D Hm. pose proof (ds_fd _ _ _ _ _ _ _ D).
  destruct f; simpl in Hm; unfold PHYS_BASE in *; repeat constructor; unfold is_u32; simpl; lia.
Qed.

(** The state the handler finds. *)
Lemma in_kernel s a f esp : desc s a → stack_ok (u_mem s) f esp → buffers_ok (pushed f esp (u_mem s)) f a →
  push_list (rev (call_words fd f)) esp s = Ret (Value (args_of f esp), set_umem (pushed f esp (u_mem s)) s) ∧
  desc (set_umem (pushed f esp (u_mem s)) s) a ∧
  call_ok fd (u_mem (set_umem (pushed f esp (u_mem s)) s)) (args_of f esp) f a.
Proof using Type.
  intros D [Hl Hh Hm] Hb. assert (Hw : Forall is_u32 (call_words fd f)) by (by eapply call_words_u32).
  split_and!.
  - rewrite push_list_run; rewrite ?length_rev, ?rev_involutive; try done. by apply Forall_rev.
  - rewrite <- (after_memory init_page_dir dirs sp fd fa s a) by done.
    apply (desc_after init_page_dir dirs sp fd fa s a); try done; try apply D.
    apply same_pages_write. by rewrite bytes_of_length.
  - constructor; [done| |by destruct f]. apply words_at_bytes; [done|]. apply bytes_at_write.
Qed.

Lemma as_int_run (m : sys (St := St) Z) v s s' : m s = Ret (Value v, s') → as_int m s = Ret (Value (s32 v), s').
Proof using Type. intros E. unfold as_int. by rewrite (sbind_val _ _ _ _ _ E). Qed.

(** The stub of [f] up to its result. *)
Lemma stub_run s a f esp : desc s a → stack_ok (u_mem s) f esp → buffers_ok (pushed f esp (u_mem s)) f a →
  let r := fstep f (pushed f esp (u_mem s)) a in
  ∃ s', sbind (push_list (rev (call_words fd f)) esp) (int_0x30 pal me keys junk name0 is_dir0 k_exec k_wait) s = Ret (Value (eax s'), s') ∧
    desc s' r.2 ∧ u_mem s' = r.1.2 ∧ (∀ v, r.1.1 = Some v → eax s' = v).
Proof using Type.
  intros D Hst Hb r. destruct (in_kernel s a f esp D Hst Hb) as (Hp & D1 & C1).
  destruct (handler_run pal init_page_dir dirs me keys junk name0 is_dir0 k_exec k_wait sp fd fa _ a _ f D1 C1) as (s' & Hrun & D2 & Hm & Hv & _).
  exists s'. split; [|done]. rewrite (sbind_val _ _ _ _ _ Hp). unfold int_0x30. by rewrite (sbind_val _ _ _ _ _ Hrun).
Qed.
Lemma result_small s a f m v : desc s a → buffers_ok m f a → (fstep f m a).1.1 = Some v → 0 <= v < 2 ^ 31.
Proof using Type.
  intros D Hb. destruct (content_bound init_page_dir dirs sp fd fa s a D) as [Hc Hp]. pose proof (ds_pos _ _ _ _ _ _ _ D).
  destruct f; simpl in *; intros [= <-]; rewrite ?length_take, ?length_drop; lia.
Qed.

End files.

