(* ===== verification/Malloc.v ===== *)
(** * The kernel's block allocator (threads/malloc.c)

    A request is served from a page (an arena) cut into blocks of one size, or
    from whole pages when it is larger than the largest block.  The state joins
    the page allocator, the descriptors, the headers at the start of arenas by
    page address, the memory of list elements (a free block holds its list
    element at its start, so the element of the block at [b] is the node [b]),
    and the bytes of memory.  The page contents kept by the model of the page
    allocator are not read here; [palloc_free] below applies the fill of
    [palloc_free_multiple] to [bytes]. *)
From S2P Require Import Prelude Bitmap Vaddr Palloc KList KString.
Open Scope Z_scope.

Record desc : Set := mk_desc { block_size : Z; blocks_per_arena : Z; free_list : klist; d_lock : bool }.

Definition ARENA_MAGIC : Z := 0x9a548eed.
(** [desc]: the index of the descriptor, or none for a big block. *)
Record arena : Set := mk_arena { magic : Z; a_desc : option nat; free_cnt : Z }.
(** [sizeof (struct arena)]. *)
Definition ARENA_SIZE : Z := 12.

Record mstate : Set := mk_mstate {
  pages : palloc_state;
  descs : list desc;
  arenas : gmap Z arena;
  links : heap;
  bytes : mem
}.

Definition on_pages {A} (f : cmd palloc_state A) : cmd mstate A := λ s,
  match f (pages s) with Ret (a, x) => Ret (a, mk_mstate x (descs s) (arenas s) (links s) (bytes s)) | Err e => Err e end.
Definition on_links {A} (f : cmd heap A) : cmd mstate A := λ s,
  match f (links s) with Ret (a, x) => Ret (a, mk_mstate (pages s) (descs s) (arenas s) x (bytes s)) | Err e => Err e end.
Definition on_bytes {A} (f : cmd mem A) : cmd mstate A := λ s,
  match f (bytes s) with Ret (a, x) => Ret (a, mk_mstate (pages s) (descs s) (arenas s) (links s) x) | Err e => Err e end.
Definition set_descs (v : list desc) (s : mstate) : mstate := mk_mstate (pages s) v (arenas s) (links s) (bytes s).
Definition set_arenas (v : gmap Z arena) (s : mstate) : mstate := mk_mstate (pages s) (descs s) v (links s) (bytes s).

Definition get_arena (a : Z) : cmd mstate arena := λ s,
  match arenas s !! a with Some x => Ret (x, s) | None => Err BadPtr end.
Definition put_arena (a : Z) (x : arena) : cmd mstate unit := modify (λ s, set_arenas (<[a := x]> (arenas s)) s).
(** [*d] for the descriptor at index [i]. *)
Definition get_desc (i : nat) : cmd mstate desc := λ s,
  match descs s !! i with Some d => Ret (d, s) | None => Err OutOfBounds end.
Definition deref_desc (i : option nat) : cmd mstate desc :=
  match i with Some i => get_desc i | None => throw BadPtr end.

Definition set_d_lock (i : nat) (v : bool) : cmd mstate unit :=
  modify (λ s, set_descs (alter (λ d, mk_desc (block_size d) (blocks_per_arena d) (free_list d) v) i (descs s)) s).
Definition desc_acquire (i : nat) : cmd mstate unit :=
  d ← get_desc i; v ← lift_res (lock_acquire_seq (d_lock d)); set_d_lock i v.
Definition desc_release (i : nat) : cmd mstate unit :=
  d ← get_desc i; v ← lift_res (lock_release_seq (d_lock d)); set_d_lock i v.

(** Pages go back to the page allocator, which overwrites them: with the bytes
    goes the arena header. *)
Definition palloc_free (a cnt : Z) : cmd mstate unit :=
  on_pages (palloc_free_multiple a cnt);;
  on_bytes (memset_loop (Z.to_nat (PGSIZE * cnt)) a 0xcc);;
  modify (λ s, set_arenas (delete a (arenas s)) s).

(** ** Start-up
    [descs_base]: the address of the array [descs]; the sentinels of a free
    list are 8 and 16 bytes into its 48-byte descriptor. *)
Section malloc.
Context (descs_base : Z).

Definition desc_list (i : nat) : klist :=
  mk_list (Z.to_pos (descs_base + 48 * Z.of_nat i + 8)) (Z.to_pos (descs_base + 48 * Z.of_nat i + 16)).

(** The loop over block sizes; each round doubles the size. *)
Fixpoint malloc_init_loop (fuel : nat) (size : Z) : cmd mstate unit :=
  if size <? PGSIZE / 2 then
    match fuel with
    | O => throw NoFuel
    | S fuel =>
        i ← gets (λ s, length (descs s));
        ASSERT (S i <=? 10)%nat;;
        on_links (list_init (desc_list i));;
        modify (λ s, set_descs (descs s ++ [mk_desc size ((PGSIZE - ARENA_SIZE) / size) (desc_list i) false]) s);;
        malloc_init_loop fuel (u32 (size * 2))
    end
  else mret tt.
Definition malloc_init : cmd mstate unit := malloc_init_loop 32 16.

(** ** Arenas and blocks *)
Definition block_to_arena (b : Z) : cmd mstate Z :=
  let a := pg_round_down b in
  ASSERT (negb (a =? 0));;
  ar ← get_arena a;
  ASSERT (magic ar =? ARENA_MAGIC);;
  (match a_desc ar with
   | None => mret tt
   | Some i => d ← get_desc i; ASSERT (u32 (pg_ofs b - ARENA_SIZE) mod block_size d =? 0)
   end);;
  ASSERT (match a_desc ar with Some _ => true | None => pg_ofs b =? ARENA_SIZE end);;
  mret a.

Definition arena_to_block (a idx : Z) : cmd mstate Z :=
  ASSERT (negb (a =? 0));;
  ar ← get_arena a;
  ASSERT (magic ar =? ARENA_MAGIC);;
  d ← deref_desc (a_desc ar);
  ASSERT (idx <? blocks_per_arena d);;
  mret (u32 (a + ARENA_SIZE + idx * block_size d)).

(** [for (i = 0; i < d->blocks_per_arena; i++)] in [malloc]: [n] blocks left. *)
Fixpoint fill_loop (n : nat) (l : klist) (a i : Z) : cmd mstate unit :=
  match n with
  | O => mret tt
  | S n =>
      b ← arena_to_block a i;
      on_links (list_push_back l (Some (Z.to_pos b)));;
      fill_loop n l a (i + 1)
  end.

(** [for (d = descs; d < descs + desc_cnt; d++) if (d->block_size >= size) break;] *)
Fixpoint find_desc (ds : list desc) (size : Z) : nat :=
  match ds with
  | [] => O
  | d :: ds => if size <=? block_size d then O else S (find_desc ds size)
  end.

(** [DIV_ROUND_UP] on [size_t]. *)
Definition page_cnt_for (size : Z) : Z := u32 (u32 (size + ARENA_SIZE) + PGSIZE - 1) / PGSIZE.

(** A new arena for descriptor [i], all its blocks on the free list; [false] if
    there is no page. *)
Definition new_arena (i : nat) (d : desc) : cmd mstate bool :=
  a ← on_pages (palloc_get_page 0);
  if a =? 0 then desc_release i;; mret false else
  put_arena a (mk_arena ARENA_MAGIC (Some i) (blocks_per_arena d));;
  fill_loop (Z.to_nat (blocks_per_arena d)) (free_list d) a 0;;
  mret true.

(** A block from the free list. *)
Definition take_block (i : nat) (d : desc) : cmd mstate Z :=
  x ← on_links (list_pop_front (free_list d));
  let b := match x with Some x => Z.pos x | None => 0 end in
  a ← block_to_arena b;
  ar ← get_arena a;
  put_arena a (mk_arena (magic ar) (a_desc ar) (u32 (free_cnt ar - 1)));;
  desc_release i;;
  mret b.

Definition malloc (size : Z) : cmd mstate Z :=
  if size =? 0 then mret 0 else
  ds ← gets descs;
  let i := find_desc ds size in
  if (i =? length ds)%nat then
    let page_cnt := page_cnt_for size in
    a ← on_pages (palloc_get_multiple 0 page_cnt);
    if a =? 0 then mret 0 else
    put_arena a (mk_arena ARENA_MAGIC None page_cnt);;
    mret (u32 (a + ARENA_SIZE))
  else
    desc_acquire i;;
    d ← get_desc i;
    e ← on_links (list_empty (free_list d));
    ok ← (if (e : bool) then new_arena i d else mret true);
    if negb ok then mret 0 else take_block i d.

Definition calloc (a b : Z) : cmd mstate Z :=
  let size := u32 (a * b) in
  if (size <? a) || (size <? b) then mret 0 else
  p ← malloc size;
  (if negb (p =? 0) then on_bytes (memset p 0 (Z.to_nat size));; mret tt else mret tt);;
  mret p.

Definition block_size_of (block : Z) : cmd mstate Z :=
  a ← block_to_arena block;
  ar ← get_arena a;
  match a_desc ar with
  | Some i => d ← get_desc i; mret (block_size d)
  | None => mret (u32 (PGSIZE * free_cnt ar - pg_ofs block))
  end.

(** [for (i = 0; i < d->blocks_per_arena; i++)] in [free]. *)
Fixpoint unlink_loop (n : nat) (a i : Z) : cmd mstate unit :=
  match n with
  | O => mret tt
  | S n =>
      b ← arena_to_block a i;
      on_links (list_remove (Some (Z.to_pos b)));;
      unlink_loop n a (i + 1)
  end.

Definition free (p : Z) : cmd mstate unit :=
  if p =? 0 then mret tt else
  a ← block_to_arena p;
  ar ← get_arena a;
  match a_desc ar with
  | Some i =>
      d ← get_desc i;
      on_bytes (memset p 0xcc (Z.to_nat (block_size d)));;
      desc_acquire i;;
      on_links (list_push_front (free_list d) (Some (Z.to_pos p)));;
      put_arena a (mk_arena (magic ar) (a_desc ar) (u32 (free_cnt ar + 1)));;
      ar ← get_arena a;
      (if blocks_per_arena d <=? free_cnt ar then
         ASSERT (free_cnt ar =? blocks_per_arena d);;
         unlink_loop (Z.to_nat (blocks_per_arena d)) a 0;;
         palloc_free a 1
       else mret tt);;
      desc_release i
  | None => palloc_free a (free_cnt ar)
  end.

Definition realloc (old_block new_size : Z) : cmd mstate Z :=
  if new_size =? 0 then free old_block;; mret 0 else
  new_block ← malloc new_size;
  (if negb (old_block =? 0) && negb (new_block =? 0) then
     old_size ← block_size_of old_block;
     let min_size := if new_size <? old_size then new_size else old_size in
     on_bytes (memcpy new_block old_block (Z.to_nat min_size));;
     free old_block
   else mret tt);;
  mret new_block.
End malloc.
