(* ===== verification/MallocSpec.v ===== *)
(** * What the block allocator keeps true

    [inv s fr full] relates the state to the contents [fr] of the free lists:
    every element of a free list is a block of an arena of its size, arenas
    count their free blocks, no two arenas share a page, and the pages in use
    are the arenas' and those of others.  [heap_ok s C] adds the blocks handed
    out with their contents [C]. *)
From S2P Require Import Prelude Bitmap Vaddr Palloc KList KListFamily KString KStringSpec Malloc.
Open Scope Z_scope.

(** ** Geometry *)
Definition bsize (i : nat) : Z := 16 * 2 ^ Z.of_nat i.
Definition bpa (i : nat) : Z := (PGSIZE - ARENA_SIZE) / bsize i.
Definition blk (a : Z) (i : nat) (k : Z) : Z := a + ARENA_SIZE + k * bsize i.

Lemma geometry i : (i < 7)%nat →
  16 <= bsize i <= 1024 ∧ 3 <= bpa i <= 255 ∧ ARENA_SIZE + bpa i * bsize i <= 4096 ∧ ∃ j, bsize i = 16 * j ∧ 0 < j.
Proof.
  intros Hi. assert (E : i ∈ seq 0 7) by (apply elem_of_seq; lia).
  assert (Hall : Forall (λ i, 16 <= bsize i <= 1024 ∧ 3 <= bpa i <= 255 ∧ ARENA_SIZE + bpa i * bsize i <= 4096) (seq 0 7)) by by_decision.
  rewrite Forall_forall in Hall. destruct (Hall i E) as (H1 & H2 & H3). split_and!; try lia.
  exists (2 ^ Z.of_nat i). split; [done|]. apply Z.pow_pos_nonneg; lia.
Qed.

Definition aligned (a : Z) : Prop := a mod 4096 = 0.
Lemma aligned_div a : aligned a → a = 4096 * (a / 4096).
Proof. unfold aligned. intros Ha. pose proof (Z.div_mod a 4096 ltac:(lia)). lia. Qed.

Lemma in_page a o : aligned a → 0 <= o < 4096 → (a + o) / 4096 = a / 4096 ∧ (a + o) mod 4096 = o.
Proof.
  intros Ha Ho. rewrite (aligned_div a Ha). set (q := a / 4096). rewrite (Z.add_comm _ o), (Z.mul_comm 4096).
  rewrite Z.div_add, Z.mod_add, Z.div_mul, Z.div_small, Z.mod_small by lia. lia.
Qed.

(** The page a node of a free list lies in. *)
Definition page_of (x : loc) : Z := Z.pos x / 4096 * 4096.

Section blocks.
Context (a : Z) (i : nat) (Ha : aligned a) (Hp : 0 < a) (Hi : (i < 7)%nat).

Lemma blk_bounds k : 0 <= k < bpa i → a + 12 <= blk a i k ∧ blk a i k + bsize i <= a + 4096.
Proof using Hi.
  intros Hk. destruct (geometry i Hi) as (H1 & H2 & H3 & _). unfold blk, ARENA_SIZE in *. nia.
Qed.

Lemma blk_page k : 0 <= k < bpa i →
  blk a i k / 4096 * 4096 = a ∧ blk a i k mod 4096 = 12 + k * bsize i ∧ 0 < blk a i k.
Proof using Ha Hp Hi.
  intros Hk. pose proof (blk_bounds k Hk) as Hb. destruct (geometry i Hi) as (H1 & _).
  destruct (in_page a (12 + k * bsize i) Ha) as [E1 E2]; [unfold blk, ARENA_SIZE in *; nia|].
  replace (blk a i k) with (a + (12 + k * bsize i)) in * by (unfold blk, ARENA_SIZE; lia).
  rewrite E1, E2. pose proof (aligned_div a Ha). lia.
Qed.

Lemma page_of_blk k : 0 <= k < bpa i → page_of (Z.to_pos (blk a i k)) = a.
Proof using Ha Hp Hi. intros Hk. destruct (blk_page k Hk) as (E & _ & Hpos). unfold page_of. by rewrite Z2Pos.id. Qed.

Lemma blk_inj k k' : blk a i k = blk a i k' → k = k'.
Proof using Hi. destruct (geometry i Hi) as (H1 & _). unfold blk. nia. Qed.

(** The nodes of blocks [k] to [k + n - 1]. *)
Definition blocks (k : Z) (n : nat) : list loc := (λ j, Z.to_pos (blk a i (k + Z.of_nat j))) <$> seq 0 n.

Lemma blocks_S k n : blocks k (S n) = Z.to_pos (blk a i k) :: blocks (k + 1) n.
Proof using.
  clear Hi Ha Hp. unfold blocks. cbn [seq]. rewrite fmap_cons, Z.add_0_r, <- fmap_S_seq, <- list_fmap_compose. f_equal.
  apply list_fmap_ext. intros j x _. unfold compose. do 2 f_equal. lia.
Qed.

Lemma elem_of_blocks x k n : x ∈ blocks k n ↔ ∃ j, k <= j < k + Z.of_nat n ∧ x = Z.to_pos (blk a i j).
Proof using.
  clear Hi Ha Hp. unfold blocks. rewrite list_elem_of_fmap. setoid_rewrite elem_of_seq. split.
  - intros (j & -> & Hj). exists (k + Z.of_nat j). split; [lia|done].
  - intros (j & Hj & ->). exists (Z.to_nat (j - k)). split; [do 2 f_equal; lia|lia].
Qed.

Lemma blocks_NoDup k n : 0 <= k → k + Z.of_nat n <= bpa i → NoDup (blocks k n).
Proof using Ha Hp Hi.
  revert k. induction n as [|n IH]; intros k Hk Hn; [constructor|]. rewrite blocks_S. constructor; [|apply IH; lia].
  rewrite elem_of_blocks. intros (j & Hj & E). apply (f_equal Z.pos) in E.
  rewrite !Z2Pos.id in E by (apply blk_page; lia). apply blk_inj in E. lia.
Qed.

Lemma blocks_page k n x : 0 <= k → k + Z.of_nat n <= bpa i → x ∈ blocks k n → page_of x = a.
Proof using Ha Hp Hi. intros Hk Hn (j & Hj & ->)%elem_of_blocks. apply page_of_blk. lia. Qed.

Lemma blocks_length k n : length (blocks k n) = n.
Proof using. unfold blocks. by rewrite length_fmap, length_seq. Qed.
End blocks.

(** ** Lists and counting *)
Lemma filter_out_app {A} (P : A → Prop) `{∀ x, Decision (P x)} (xs : list A) e ys :
  ¬ P e → filter P (xs ++ e :: ys) = filter P (xs ++ ys).
Proof. intros He. rewrite !filter_app, filter_cons_False by done. done. Qed.

Lemma filter_id {A} (P : A → Prop) `{∀ x, Decision (P x)} (xs : list A) : (∀ x, x ∈ xs → P x) → filter P xs = xs.
Proof.
  induction xs as [|x xs IH]; intros Hx; [done|]. rewrite filter_cons_True by (apply Hx; left). f_equal. apply IH. intros y Hy.
  apply Hx. by right.
Qed.
Lemma filter_nil_all {A} (P : A → Prop) `{∀ x, Decision (P x)} (xs : list A) : (∀ x, x ∈ xs → ¬ P x) → filter P xs = [].
Proof.
  induction xs as [|x xs IH]; intros Hx; [done|]. rewrite filter_cons_False by (apply Hx; left). apply IH. intros y Hy.
  apply Hx. by right.
Qed.

(** The free blocks of the arena at [a] in a free list. *)
Definition count_at (a : Z) (xs : list loc) : Z := Z.of_nat (length (filter (λ x, page_of x = a) xs)).

Lemma count_at_cons a x xs : count_at a (x :: xs) = count_at a xs + if decide (page_of x = a) then 1 else 0.
Proof. unfold count_at. rewrite filter_cons. destruct (decide (page_of x = a)); cbn [length]; lia. Qed.

Lemma count_at_none a xs : (∀ x, x ∈ xs → page_of x ≠ a) → count_at a xs = 0.
Proof. intros Hx. unfold count_at. by rewrite filter_nil_all. Qed.

Lemma count_at_all a xs : (∀ x, x ∈ xs → page_of x = a) → count_at a xs = Z.of_nat (length xs).
Proof. intros Hx. unfold count_at. by rewrite filter_id. Qed.

Lemma count_at_filter_ne a a' xs : a' ≠ a → count_at a' (filter (λ x, page_of x ≠ a) xs) = count_at a' xs.
Proof.
  intros Hne. unfold count_at. do 2 f_equal. rewrite list_filter_filter. apply list_filter_iff.
  intros x. split; [tauto|]. intros ->. split; [done|congruence].
Qed.

(** With all its blocks on the list, an arena is free; otherwise a block is out. *)
Lemma count_at_bound a i xs : aligned a → 0 < a → (i < 7)%nat → NoDup xs →
  (∀ x, x ∈ xs → page_of x = a → x ∈ blocks a i 0 (Z.to_nat (bpa i))) →
  count_at a xs <= bpa i ∧ (bpa i <= count_at a xs → ∀ x, x ∈ blocks a i 0 (Z.to_nat (bpa i)) → x ∈ xs) ∧
  (count_at a xs < bpa i → ∃ k, 0 <= k < bpa i ∧ Z.to_pos (blk a i k) ∉ xs).
Proof.
  intros Ha Hp Hi Hnd Hx. destruct (geometry i Hi) as (_ & H2 & _). set (bs := blocks a i 0 (Z.to_nat (bpa i))) in *.
  set (ys := filter (λ x, page_of x = a) xs).
  assert (Hys : ys ⊆+ bs).
  { apply NoDup_submseteq; [by apply NoDup_filter|]. intros x [E Hin]%list_elem_of_filter. by apply Hx. }
  assert (Hbs : length bs = Z.to_nat (bpa i)) by apply blocks_length.
  assert (Hbn : NoDup bs) by (apply blocks_NoDup; try done; lia).
  assert (Hle : (length ys <= length bs)%nat) by by apply submseteq_length. unfold count_at. fold ys. split_and!; [lia| |].
  - intros Hge x Hxb. assert (E : ys ≡ₚ bs) by (apply submseteq_length_Permutation; [done|lia]).
    rewrite <- E in Hxb. by apply list_elem_of_filter in Hxb as [_ Hxb].
  - intros Hlt. destruct (decide (Exists (λ x, x ∉ xs) bs)) as [(x & Hxb & Hn)%Exists_exists|Hno].
    + apply elem_of_blocks in Hxb as (k & Hk & ->). exists k. split; [lia|done].
    + exfalso. assert (Hsub : bs ⊆+ ys).
      { apply NoDup_submseteq; [done|]. intros x Hxb. apply list_elem_of_filter.
        split; [eapply (blocks_page a i); [done..| | |exact Hxb]; lia|].
        destruct (decide (x ∈ xs)); [done|]. exfalso. apply Hno, Exists_exists. by exists x. }
      apply submseteq_length in Hsub. lia.
Qed.

(** ** The invariant *)
Definition span (ar : arena) : Z := match a_desc ar with Some _ => 1 | None => free_cnt ar end.
Definition covered (s : mstate) (pn : Z) : Prop :=
  ∃ a ar, arenas s !! a = Some ar ∧ a / 4096 <= pn < a / 4096 + span ar.

Definition unlocked : nat → bool := λ _, false.
Definition locked (i : nat) : nat → bool := λ j, bool_decide (j = i).

Section spec.
(** Where the descriptors are, and the kernel pages other code has taken. *)
Context {base : Z} {other : Z → Prop}.

Definition std_desc (lk : nat → bool) (i : nat) : desc := mk_desc (bsize i) (bpa i) (desc_list base i) (lk i).
Definition shape (lk : nat → bool) (s : mstate) : Prop := descs s = std_desc lk <$> seq 0 7.
Definition lists : list klist := desc_list base <$> seq 0 7.

(** [full a]: the arena at [a] may have no block in use. *)
Definition arena_ok (fr : list (list loc)) (full : Z → Prop) (a : Z) (ar : arena) : Prop :=
  magic ar = ARENA_MAGIC ∧ aligned a ∧
  match a_desc ar with
  | Some i => (i < 7)%nat ∧ free_cnt ar = count_at a (fr !!! i) ∧ (full a ∨ free_cnt ar < bpa i)
  | None => 0 < free_cnt ar
  end.

Record inv (s : mstate) (fr : list (list loc)) (full : Z → Prop) : Prop := {
  iv_pools : pools_ok (pages s);
  iv_len : length fr = 7%nat;
  iv_fam : family (links s) (zip lists fr);
  iv_free : ∀ i x, x ∈ fr !!! i → ∃ a ar k, arenas s !! a = Some ar ∧ a_desc ar = Some i ∧ 0 <= k < bpa i ∧ x = Z.to_pos (blk a i k);
  iv_arena : ∀ a ar, arenas s !! a = Some ar → arena_ok fr full a ar;
  iv_disj : ∀ a ar a' ar' pn, arenas s !! a = Some ar → arenas s !! a' = Some ar' →
    a / 4096 <= pn < a / 4096 + span ar → a' / 4096 <= pn < a' / 4096 + span ar' → a = a';
  iv_used : ∀ pn, in_use false (pages s) pn ↔ other pn ∨ covered s pn;
  iv_other : ∀ pn, other pn → ¬ covered s pn;
  iv_base : 0 < base ∧ base + 480 <= 4096 * pool_start (kernel_pool (pages s));
  iv_bytes : ∀ va, in_pool (kernel_pool (pages s)) (va / 4096) → is_Some (bytes s !! va);
  iv_elems : ∀ pn j, in_pool (kernel_pool (pages s)) pn → 0 <= j < 255 → is_Some (links s !! Z.to_pos (4096 * pn + 12 + 16 * j)) }.

(** A block in use, and its size. *)
Definition block_at (fr : list (list loc)) (a : Z) (ar : arena) (b sz : Z) : Prop :=
  match a_desc ar with
  | Some i => ∃ k, 0 <= k < bpa i ∧ b = blk a i k ∧ sz = bsize i ∧ Z.to_pos b ∉ fr !!! i
  | None => b = a + ARENA_SIZE ∧ sz = 4096 * free_cnt ar - ARENA_SIZE
  end.
Definition is_block (s : mstate) (fr : list (list loc)) (b sz : Z) : Prop :=
  ∃ a ar, arenas s !! a = Some ar ∧ block_at fr a ar b sz.

(** The blocks in use are those of [C], with the contents [C] gives. *)
Definition blocks_are (s : mstate) (fr : list (list loc)) (C : gmap Z (list Z)) : Prop :=
  ∀ b sz, is_block s fr b sz ↔ ∃ bs, C !! b = Some bs ∧ Z.of_nat (length bs) = sz.
Definition heap_ok (s : mstate) (C : gmap Z (list Z)) : Prop :=
  shape unlocked s ∧ ∃ fr, inv s fr (λ _, False) ∧
    blocks_are s fr C ∧
    (∀ b bs, C !! b = Some bs → bytes_at (bytes s) b bs).

(** *** Descriptors *)
Lemma shape_lookup lk s i : shape lk s → (i < 7)%nat → descs s !! i = Some (std_desc lk i).
Proof using. intros -> Hi. rewrite list_lookup_fmap, lookup_seq_lt by lia. done. Qed.

Lemma get_desc_bind {A} lk s i (k : desc → cmd mstate A) : shape lk s → (i < 7)%nat →
  (get_desc i ≫= k) s = k (std_desc lk i) s.
Proof using. intros Hs Hi. unfold mbind, cmd_bind, get_desc. by rewrite (shape_lookup lk s i). Qed.

Lemma alter_shape i (lk lk' : nat → bool) v : (i < 7)%nat → lk' i = v → (∀ j, j ≠ i → lk' j = lk j) →
  alter (λ d, mk_desc (block_size d) (blocks_per_arena d) (free_list d) v) i (std_desc lk <$> seq 0 7) = std_desc lk' <$> seq 0 7.
Proof using.
  intros Hi Hv Hj. apply list_eq. intros j. destruct (decide (j = i)) as [->|Hne].
  - rewrite list_lookup_alter_eq, !list_lookup_fmap, lookup_seq_lt by lia. cbn. unfold std_desc. by rewrite Hv.
  - rewrite list_lookup_alter_ne, !list_lookup_fmap by done. destruct (seq 0 7 !! j) as [n|] eqn:E; [|done].
    apply lookup_seq in E as [-> _]. cbn. unfold std_desc. by rewrite Hj.
Qed.

Lemma acquire_run s i : shape unlocked s → (i < 7)%nat →
  desc_acquire i s = Ret (tt, set_descs (std_desc (locked i) <$> seq 0 7) s).
Proof using.
  intros Hs Hi. unfold desc_acquire. rewrite (get_desc_bind _ _ _ _ Hs Hi). unfold set_d_lock, modify, mbind, cmd_bind, lift_res. cbn.
  rewrite Hs. do 3 f_equal. apply alter_shape; [done|by apply bool_decide_true|]. intros j Hj. by apply bool_decide_false.
Qed.

Lemma release_run s i : shape (locked i) s → (i < 7)%nat →
  desc_release i s = Ret (tt, set_descs (std_desc unlocked <$> seq 0 7) s).
Proof using.
  intros Hs Hi. unfold desc_release. rewrite (get_desc_bind _ _ _ _ Hs Hi). unfold set_d_lock, modify, mbind, cmd_bind, lift_res. cbn.
  unfold locked. rewrite bool_decide_true by done. cbn. rewrite Hs. do 3 f_equal. apply alter_shape; [done|done|].
  intros j Hj. symmetry. by apply bool_decide_false.
Qed.

Lemma get_arena_bind {A} s a ar (k : arena → cmd mstate A) : arenas s !! a = Some ar → (get_arena a ≫= k) s = k ar s.
Proof using. intros E. unfold mbind, cmd_bind, get_arena. by rewrite E. Qed.

(** *** Where arenas are *)
Lemma span_pos fr full a ar : arena_ok fr full a ar → 0 < span ar.
Proof using. unfold arena_ok, span. destruct (a_desc ar); lia. Qed.

Lemma arena_pool s fr full a ar pn : inv s fr full → arenas s !! a = Some ar →
  a / 4096 <= pn < a / 4096 + span ar → in_pool (kernel_pool (pages s)) pn.
Proof using.
  intros V Ha Hpn. assert (Hu : in_use false (pages s) pn) by (apply (iv_used _ _ _ V); right; by exists a, ar). apply Hu.
Qed.

Lemma pool_range s pn : pools_ok (pages s) → in_pool (kernel_pool (pages s)) pn →
  PHYS_BASE <= 4096 * pn ∧ 4096 * pn + 4096 <= 2 ^ 32.
Proof using.
  intros ([Hw _ Ha Hr] & _) [H1 H2]. rewrite (aligned_base _ Ha) in Hr. lia.
Qed.

Lemma arena_range s fr full a ar : inv s fr full → arenas s !! a = Some ar →
  aligned a ∧ PHYS_BASE <= a ∧ a + 4096 * span ar <= 2 ^ 32 ∧ 0 < span ar ∧
  base + 480 <= a.
Proof using.
  intros V Ha. pose proof (iv_arena _ _ _ V a ar Ha) as Hok. pose proof (span_pos _ _ _ _ Hok) as Hs.
  destruct Hok as (_ & Hal & _). pose proof (aligned_div a Hal) as E.
  pose proof (arena_pool s fr full a ar (a / 4096) V Ha ltac:(lia)) as H1.
  pose proof (pool_range s _ (iv_pools _ _ _ V) H1) as R1. pose proof (iv_base _ _ _ V). destruct H1 as [H1 _].
  pose proof (pool_range s _ (iv_pools _ _ _ V) (arena_pool s fr full a ar (a / 4096 + span ar - 1) V Ha ltac:(lia))) as R2.
  split_and!; [done|lia..].
Qed.

(** What an arena of small blocks gives. *)
Lemma small_facts s fr full a ar i : inv s fr full → arenas s !! a = Some ar → a_desc ar = Some i →
  aligned a ∧ PHYS_BASE <= a ∧ a + 4096 <= 2 ^ 32 ∧ base + 480 <= a ∧ (i < 7)%nat ∧ magic ar = ARENA_MAGIC ∧
  free_cnt ar = count_at a (fr !!! i) ∧ in_pool (kernel_pool (pages s)) (a / 4096).
Proof using.
  intros V Ha Hd. destruct (arena_range _ _ _ _ _ V Ha) as (H1 & H2 & H3 & H4 & H5).
  pose proof (iv_arena _ _ _ V a ar Ha) as (Hm & _ & Hk). rewrite Hd in Hk. unfold span in *. rewrite Hd in *.
  pose proof (arena_pool s fr full a ar (a / 4096) V Ha) as Hp. unfold span in Hp. rewrite Hd in Hp.
  split_and!; try done; try tauto; try lia. apply Hp. lia.
Qed.

Lemma block_to_arena_small lk s a ar i k :
  shape lk s → arenas s !! a = Some ar → magic ar = ARENA_MAGIC → a_desc ar = Some i → (i < 7)%nat →
  aligned a → 0 < a → a + 4096 <= 2 ^ 32 → 0 <= k < bpa i → block_to_arena (blk a i k) s = Ret (a, s).
Proof using.
  intros Hs Ha Hm Hd Hi Hal H1 H2 Hk. destruct (blk_page a i Hal ltac:(lia) Hi k Hk) as (E1 & E2 & E3).
  pose proof (blk_bounds a i Hi k Hk) as Hb. destruct (geometry i Hi) as (G1 & G2 & G3 & _).
  unfold block_to_arena. rewrite pg_round_down_div, E1 by lia. rewrite ASSERT_bind by (by rewrite (proj2 (Z.eqb_neq a 0)) by lia).
  rewrite (get_arena_bind _ _ _ _ Ha), ASSERT_bind by by rewrite Hm.
  rewrite Hd. rewrite bind_assoc, (get_desc_bind _ _ _ _ Hs Hi), ASSERT_bind; [by rewrite ASSERT_bind by done|].
  cbn [block_size std_desc]. rewrite pg_ofs_mod, E2. unfold ARENA_SIZE. rewrite u32_small by nia.
  replace (12 + k * bsize i - 12) with (k * bsize i) by lia. rewrite Z.mod_mul by lia. done.
Qed.

Lemma block_to_arena_big s fr full a ar :
  inv s fr full → arenas s !! a = Some ar → a_desc ar = None → block_to_arena (a + ARENA_SIZE) s = Ret (a, s).
Proof using.
  intros V Ha Hd. destruct (arena_range _ _ _ _ _ V Ha) as (Hal & H1 & H2 & H3 & _).
  unfold PHYS_BASE, ARENA_SIZE in *. destruct (in_page a 12 Hal ltac:(lia)) as [E1 E2]. pose proof (aligned_div a Hal).
  unfold block_to_arena. rewrite pg_round_down_div by lia. replace ((a + 12) / 4096 * 4096) with a by lia.
  rewrite ASSERT_bind by (by rewrite (proj2 (Z.eqb_neq a 0)) by lia).
  pose proof (iv_arena _ _ _ V a ar Ha) as (Hm & _ & _).
  rewrite (get_arena_bind _ _ _ _ Ha), ASSERT_bind by by rewrite Hm. rewrite Hd, ret_bind, ASSERT_bind; [done|].
  by rewrite pg_ofs_mod, E2.
Qed.

Lemma arena_to_block_run lk s a ar i k :
  shape lk s → arenas s !! a = Some ar → magic ar = ARENA_MAGIC → a_desc ar = Some i → (i < 7)%nat → 0 < a → a + 4096 <= 2 ^ 32 →
  0 <= k < bpa i → arena_to_block a k s = Ret (blk a i k, s).
Proof using.
  intros Hs Ha Hm Hd Hi Hp He Hk. pose proof (blk_bounds a i Hi k Hk) as Hb. destruct (geometry i Hi) as (G1 & _).
  unfold arena_to_block. rewrite ASSERT_bind by (by rewrite (proj2 (Z.eqb_neq a 0)) by lia).
  rewrite (get_arena_bind _ _ _ _ Ha), ASSERT_bind by by rewrite Hm. rewrite Hd. unfold deref_desc.
  rewrite (get_desc_bind _ _ _ _ Hs Hi), ASSERT_bind by (apply Z.ltb_lt; cbn; lia). unfold mret, cmd_ret. cbn [block_size std_desc].
  unfold blk in *. by rewrite u32_small by lia.
Qed.

Definition set_links (h : heap) (s : mstate) : mstate := mk_mstate (pages s) (descs s) (arenas s) h (bytes s).
Lemma on_links_bind {A B} (f : cmd heap A) (k : A → cmd mstate B) s a h :
  f (links s) = Ret (a, h) → (on_links f ≫= k) s = k a (set_links h s).
Proof using. intros E. unfold mbind, cmd_bind, on_links. by rewrite E. Qed.

(** The loops of [malloc] and [free] over the blocks of an arena. *)
Section loops.
Context (lk : nat → bool) (a : Z) (ar : arena) (i : nat) (A B : fam).
Context (Hm : magic ar = ARENA_MAGIC) (Hd : a_desc ar = Some i) (Hi : (i < 7)%nat) (Hal : aligned a) (Hp : 0 < a)
  (He : a + 4096 <= 2 ^ 32).

Lemma fill_run n k l ys s :
  shape lk s → arenas s !! a = Some ar → 0 <= k → k + Z.of_nat n <= bpa i →
  family (links s) (A ++ (l, ys) :: B) →
  (∀ x, x ∈ blocks a i k n → x ∉ fnodes (A ++ (l, ys) :: B) ∧ is_Some (links s !! x)) →
  ∃ h, fill_loop n l a k s = Ret (tt, set_links h s) ∧ family h (A ++ (l, ys ++ blocks a i k n) :: B) ∧ dom h = dom (links s).
Proof using Hm Hd Hi Hal Hp He.
  clear other.
  revert k ys s. induction n as [|n IH]; intros k ys s Hs Ha Hk Hn HF Hx.
  - exists (links s). unfold blocks. cbn. rewrite app_nil_r. by destruct s.
  - cbn [fill_loop]. rewrite (bind_Ret _ _ _ _ _ (arena_to_block_run lk s a ar i k Hs Ha Hm Hd Hi Hp He ltac:(lia))).
    rewrite blocks_S in Hx. destruct (Hx (Z.to_pos (blk a i k)) ltac:(left)) as [Hx1 Hx2].
    destruct (family_push_back (links s) A l B ys _ HF Hx1 Hx2) as (h1 & R1 & F1 & D1).
    rewrite (on_links_bind _ _ _ _ _ R1).
    destruct (IH (k + 1) (ys ++ [Z.to_pos (blk a i k)]) (set_links h1 s)) as (h & R & F & D); try done; try lia.
    + intros x Hin. destruct (Hx x ltac:(by right)) as [Hx3 Hx4]. split; [|apply elem_of_dom; cbn; rewrite D1; by apply elem_of_dom].
      pose proof (blocks_NoDup a i Hal Hp Hi k (S n) Hk Hn) as Hnd. rewrite blocks_S in Hnd. apply NoDup_cons in Hnd as [Hnd _].
      rewrite fnodes_app, fnodes_cons, !elem_of_app, elem_of_nodes, elem_of_app, list_elem_of_singleton in *.
      intros Hc. assert (x ≠ Z.to_pos (blk a i k)) by (intros ->; done). tauto.
    + exists h. split_and!; [exact R| |cbn in D; congruence]. rewrite blocks_S. by rewrite <- app_assoc in F.
Qed.

Lemma unlink_run n k l ys s :
  shape lk s → arenas s !! a = Some ar → 0 <= k → k + Z.of_nat n <= bpa i →
  family (links s) (A ++ (l, ys) :: B) → (∀ x, x ∈ blocks a i k n → x ∈ ys) →
  ∃ h, unlink_loop n a k s = Ret (tt, set_links h s) ∧ family h (A ++ (l, filter (λ x, x ∉ blocks a i k n) ys) :: B) ∧
    dom h = dom (links s).
Proof using Hm Hd Hi Hal Hp He.
  clear other.
  revert k ys s. induction n as [|n IH]; intros k ys s Hs Ha Hk Hn HF Hx.
  - exists (links s). cbn. rewrite filter_id by (intros x _; unfold blocks; cbn; apply not_elem_of_nil). by destruct s.
  - cbn [unlink_loop]. rewrite (bind_Ret _ _ _ _ _ (arena_to_block_run lk s a ar i k Hs Ha Hm Hd Hi Hp He ltac:(lia))).
    rewrite blocks_S in *. set (e := Z.to_pos (blk a i k)) in *.
    destruct (list_elem_of_split ys e) as (pre & post & ->); [apply Hx; left|].
    destruct (family_remove (links s) A l B pre e post HF) as (h1 & R1 & F1 & N1 & _ & [D1 _]).
    rewrite (on_links_bind _ _ _ _ _ R1).
    pose proof (blocks_NoDup a i Hal Hp Hi k (S n) Hk Hn) as Hnd. rewrite blocks_S in Hnd. apply NoDup_cons in Hnd as [Hnd _].
    destruct (IH (k + 1) (pre ++ post) (set_links h1 s)) as (h & R & F & D); try done; try lia.
    + intros x Hin. pose proof (Hx x ltac:(by right)) as Hxy. assert (x ≠ e) by (intros ->; done).
      rewrite elem_of_app, elem_of_cons in Hxy. rewrite elem_of_app. tauto.
    + exists h. split_and!; [exact R| |cbn in D; congruence].
      rewrite filter_out_app by (intros Hc; apply Hc; left).
      assert (Hno : ∀ x, x ∈ pre ++ post → x ≠ e).
      { intros x Hin ->. apply N1. rewrite fnodes_app, fnodes_cons, !elem_of_app, elem_of_nodes. right. left. tauto. }
      replace (filter (λ x, x ∉ e :: blocks a i (k + 1) n) (pre ++ post)) with (filter (λ x, x ∉ blocks a i (k + 1) n) (pre ++ post)); [done|].
      clear -Hno. induction (pre ++ post) as [|y zs IHz]; [done|]. rewrite !filter_cons.
      pose proof (Hno y ltac:(left)) as Hy. rewrite (IHz (λ x Hin, Hno x ltac:(by right))).
      destruct (decide (y ∉ blocks a i (k + 1) n)), (decide (y ∉ e :: blocks a i (k + 1) n)); try done; exfalso; set_solver.
Qed.
End loops.

(** *** Blocks in use *)
Lemma lookup_free (fr : list (list loc)) i ys : fr !! i = Some ys → fr !!! i = ys.
Proof using. clear. apply list_lookup_total_correct. Qed.

Lemma free_insert (fr : list (list loc)) i j zs : (i < length fr)%nat →
  <[i:=zs]> fr !!! j = if decide (j = i) then zs else fr !!! j.
Proof using.
  clear. intros Hi. destruct (decide (j = i)) as [->|Hne].
  - by apply list_lookup_total_insert_eq.
  - by apply list_lookup_total_insert_ne.
Qed.

(** The arena and the kind of a block are determined by its address. *)
Lemma block_at_page s fr full fr' a ar b sz : inv s fr full → arenas s !! a = Some ar → block_at fr' a ar b sz →
  0 < b ∧ b / 4096 * 4096 = a.
Proof using.
  intros V Ha Hb. destruct (arena_range _ _ _ _ _ V Ha) as (Hal & H1 & _). unfold PHYS_BASE in H1.
  unfold block_at in Hb. destruct (a_desc ar) as [i|] eqn:Hd.
  - destruct Hb as (k & Hk & -> & _). destruct (small_facts _ _ _ _ _ _ V Ha Hd) as (_ & _ & _ & _ & Hi & _).
    by destruct (blk_page a i Hal ltac:(lia) Hi k Hk) as (-> & _ & Hp).
  - destruct Hb as [-> _]. destruct (in_page a ARENA_SIZE Hal ltac:(unfold ARENA_SIZE; lia)) as [-> _].
    rewrite Z.mul_comm, <- aligned_div by done. unfold ARENA_SIZE. split; [lia|done].
Qed.

Lemma is_block_at s fr full fr' b sz a ar : inv s fr full → is_block s fr' b sz → arenas s !! a = Some ar → b / 4096 * 4096 = a →
  block_at fr' a ar b sz.
Proof using.
  intros V (a' & ar' & Ha' & Hb) Ha E. destruct (block_at_page _ _ _ _ _ _ _ _ V Ha' Hb) as [_ Ea].
  rewrite E in Ea. subst a'. rewrite Ha in Ha'. injection Ha' as <-. exact Hb.
Qed.

(** Nodes of free lists are at their addresses. *)
Lemma free_node s fr full i x : inv s fr full → x ∈ fr !!! i →
  ∃ a ar k, arenas s !! a = Some ar ∧ a_desc ar = Some i ∧ 0 <= k < bpa i ∧ Z.pos x = blk a i k ∧ page_of x = a ∧ (i < 7)%nat.
Proof using.
  intros V Hx. destruct (iv_free _ _ _ V i x Hx) as (a & ar & k & Ha & Hd & Hk & ->). exists a, ar, k.
  destruct (small_facts _ _ _ _ _ _ V Ha Hd) as (Hal & H1 & _ & _ & Hi & _). unfold PHYS_BASE in H1.
  destruct (blk_page a i Hal ltac:(lia) Hi k Hk) as (_ & _ & Hp). rewrite Z2Pos.id by done.
  split_and!; try done; try lia. apply page_of_blk; try done. lia.
Qed.

Lemma free_NoDup s fr full i : inv s fr full → NoDup (fr !!! i).
Proof using.
  intros V. destruct (fr !! i) as [ys|] eqn:E; [|rewrite list_lookup_total_alt, E; constructor].
  rewrite (lookup_free _ _ _ E). assert (Hi : (i < 7)%nat) by (rewrite <- (iv_len _ _ _ V); by eapply lookup_lt_Some).
  assert (Hl : lists !! i = Some (desc_list base i)) by (unfold lists; rewrite list_lookup_fmap, lookup_seq_lt by lia; done).
  destruct (zip_split lists fr i _ _ Hl E) as (A & B & EF & _). pose proof (iv_fam _ _ _ V) as HF. rewrite EF in HF.
  apply family_get in HF. destruct HF as [_ HF]. unfold nodes in HF. apply NoDup_cons in HF as [_ HF]. by apply NoDup_app in HF as (? & _).
Qed.

Definition set_state (s : mstate) (ars : gmap Z arena) (h : heap) (m : mem) : mstate := mk_mstate (pages s) (descs s) ars h m.

(** Changing one free list and the count of the arena concerned. *)
Lemma inv_update s fr full full' a ar i ys zs c h m :
  inv s fr full → arenas s !! a = Some ar → a_desc ar = Some i → fr !! i = Some ys →
  family h (zip lists (<[i:=zs]> fr)) → dom h = dom (links s) → dom m = dom (bytes s) →
  (∀ x, x ∈ zs → x ∈ ys ∨ ∃ k, 0 <= k < bpa i ∧ x = Z.to_pos (blk a i k)) →
  c = count_at a zs → (∀ a', a' ≠ a → count_at a' zs = count_at a' ys) →
  (full' a ∨ c < bpa i) → (∀ a', a' ≠ a → full a' → full' a') →
  inv (set_state s (<[a := mk_arena (magic ar) (Some i) c]> (arenas s)) h m) (<[i:=zs]> fr) full'.
Proof using.
  intros V Ha Hd Hy HF Dh Dm Hzs Hc Hca Hfa Hfull. destruct V as [P1 P2 P3 P4 P5 P6 P7 P8 P9 P10 P11].
  pose proof (lookup_free _ _ _ Hy) as Ey. assert (Hil : (i < length fr)%nat) by by eapply lookup_lt_Some.
  assert (Hspan : ∀ a' ar', <[a := mk_arena (magic ar) (Some i) c]> (arenas s) !! a' = Some ar' →
    ∃ ar0, arenas s !! a' = Some ar0 ∧ a_desc ar0 = a_desc ar' ∧ span ar0 = span ar' ∧ magic ar0 = magic ar' ∧
      (a' ≠ a → ar0 = ar') ∧ (a' = a → ar' = mk_arena (magic ar) (Some i) c)).
  { intros a' ar' [[<- <-]|[Hne E]]%lookup_insert_Some.
    - exists ar. unfold span. cbn. rewrite Hd. done.
    - exists ar'. done. }
  assert (Hcov : ∀ pn, covered (set_state s (<[a := mk_arena (magic ar) (Some i) c]> (arenas s)) h m) pn ↔ covered s pn).
  { intros pn. split; intros (a' & ar' & E & Hr).
    - destruct (Hspan _ _ E) as (ar0 & E0 & _ & Es & _). exists a', ar0. by rewrite Es.
    - destruct (decide (a' = a)) as [->|Hne].
      + exists a, (mk_arena (magic ar) (Some i) c). cbn. rewrite lookup_insert_eq. split; [done|]. rewrite Ha in E. injection E as <-.
        unfold span in *. by rewrite Hd in Hr.
      + exists a', ar'. cbn. by rewrite lookup_insert_ne. }
  split; cbn [pages arenas links bytes set_state]; try done.
  - by rewrite length_insert.
  - intros j x. rewrite free_insert by done. destruct (decide (j = i)) as [->|Hne]; intros Hx.
    + destruct (Hzs x Hx) as [Hx'|(k & Hk & ->)].
      * rewrite <- Ey in Hx'. destruct (P4 i x Hx') as (a' & ar' & k & E & Ed & Hk).
        destruct (decide (a' = a)) as [->|Hn]; [|exists a', ar', k; by rewrite lookup_insert_ne].
        exists a, (mk_arena (magic ar) (Some i) c), k. by rewrite lookup_insert_eq.
      * exists a, (mk_arena (magic ar) (Some i) c), k. by rewrite lookup_insert_eq.
    + destruct (P4 j x Hx) as (a' & ar' & k & E & Ed & Hk). exists a', ar', k. split; [|done].
      rewrite lookup_insert_ne; [done|]. intros <-. congruence.
  - intros a' ar' [[<- <-]|[Hne E]]%lookup_insert_Some.
    + destruct (P5 a ar Ha) as (Hm & Hal & Hk). rewrite Hd in Hk. split_and!; [done|done|]. cbn.
      rewrite free_insert, decide_True by done. split_and!; [tauto|done|done].
    + destruct (P5 a' ar' E) as (Hm & Hal & Hk). split_and!; [done|done|]. destruct (a_desc ar') as [j|]; [|done].
      rewrite free_insert by done. destruct Hk as (Hj & Ek & Hf). split_and!; [done| |].
      * destruct (decide (j = i)) as [->|]; [|done]. rewrite Hca by done. by rewrite <- Ey.
      * destruct Hf as [Hf|Hf]; [left; by apply Hfull|by right].
  - intros a1 ar1 a2 ar2 pn E1 E2. destruct (Hspan _ _ E1) as (ar1' & E1' & _ & <- & _), (Hspan _ _ E2) as (ar2' & E2' & _ & <- & _).
    by eapply P6.
  - intros pn. rewrite Hcov. apply P7.
  - intros pn. rewrite Hcov. apply P8.
  - intros va Hva. apply elem_of_dom. rewrite Dm. by apply elem_of_dom, P10.
  - intros pn j Hpn Hj. apply elem_of_dom. rewrite Dh. by apply elem_of_dom, P11.
Qed.

Lemma is_block_update s fr' a ar i c h m b sz : arenas s !! a = Some ar → a_desc ar = Some i →
  is_block (set_state s (<[a := mk_arena (magic ar) (Some i) c]> (arenas s)) h m) fr' b sz ↔ is_block s fr' b sz.
Proof using.
  clear. intros Ha Hd. split; intros (a' & ar' & E & Hb).
  - cbn in E. apply lookup_insert_Some in E as [[<- <-]|[Hne E]]; [|by exists a', ar'].
    exists a, ar. unfold block_at in *. by rewrite Hd.
  - destruct (decide (a' = a)) as [->|Hne].
    + rewrite Ha in E. injection E as <-. exists a, (mk_arena (magic ar) (Some i) c). unfold block_at in *. rewrite Hd in Hb.
      cbn. by rewrite lookup_insert_eq.
    + exists a', ar'. cbn. by rewrite lookup_insert_ne.
Qed.

(** A block taken off its free list is in use; one put on it is not. *)
Lemma is_block_pop s fr full i x xs b sz : inv s fr full → fr !! i = Some (x :: xs) →
  is_block s (<[i:=xs]> fr) b sz ↔ is_block s fr b sz ∨ (b = Z.pos x ∧ sz = bsize i).
Proof using.
  intros V Hf. pose proof (lookup_free _ _ _ Hf) as Ef. assert (Hil : (i < length fr)%nat) by by eapply lookup_lt_Some.
  pose proof (free_NoDup _ _ _ i V) as Hnd. rewrite Ef in Hnd. apply NoDup_cons in Hnd as [Hnx _].
  destruct (free_node s fr full i x V) as (a & ar & k & Ha & Hd & Hk & Ex & _ & Hi); [rewrite Ef; left|]. split.
  - intros (a' & ar' & Ha' & Hb). destruct (block_at_page _ _ _ _ _ _ _ _ V Ha' Hb) as [Hp _]. unfold block_at in Hb.
    destruct (a_desc ar') as [j|] eqn:Hd'; [|left; exists a', ar'; unfold block_at; by rewrite Hd'].
    destruct Hb as (k' & Hk' & Eb & Esz & Hn). rewrite free_insert in Hn by done.
    destruct (decide (j = i)) as [->|]; [|left; exists a', ar'; unfold block_at; rewrite Hd'; split; [done|]; by exists k'].
    destruct (decide (Z.to_pos b = x)) as [E|Hne]; [right; split; [rewrite <- E, Z2Pos.id; done|done]|].
    left. exists a', ar'. unfold block_at. rewrite Hd'. split; [done|]. exists k'. split_and!; try done; try lia. rewrite Ef.
    by apply not_elem_of_cons.
  - intros [(a' & ar' & Ha' & Hb)|[-> ->]].
    + exists a', ar'. split; [done|]. unfold block_at in *. destruct (a_desc ar') as [j|]; [|done].
      destruct Hb as (k' & Hk' & Eb & Esz & Hn). exists k'. split_and!; try done; try lia. rewrite free_insert by done.
      destruct (decide (j = i)) as [->|]; [|done]. rewrite Ef in Hn. by apply not_elem_of_cons in Hn as [_ Hn].
    + exists a, ar. unfold block_at. rewrite Hd. split; [done|]. exists k. split_and!; try done; try lia.
      rewrite free_insert, decide_True by done. by rewrite Pos2Z.id.
Qed.

Lemma is_block_push s fr full i a ar k b sz : inv s fr full → (i < length fr)%nat →
  arenas s !! a = Some ar → a_desc ar = Some i → 0 <= k < bpa i →
  is_block s (<[i := Z.to_pos (blk a i k) :: fr !!! i]> fr) b sz ↔ is_block s fr b sz ∧ b ≠ blk a i k.
Proof using.
  intros V Hil Ha Hd Hk. destruct (small_facts _ _ _ _ _ _ V Ha Hd) as (Hal & H1 & _ & _ & Hi & _). unfold PHYS_BASE in H1.
  destruct (blk_page a i Hal ltac:(lia) Hi k Hk) as (Ep & _ & Hp). split.
  - intros Hb. split.
    + destruct Hb as (a' & ar' & Ha' & Hb). exists a', ar'. split; [done|]. unfold block_at in *.
      destruct (a_desc ar') as [j|]; [|done]. destruct Hb as (k' & Hk' & Eb & Esz & Hn). exists k'. split_and!; try done; try lia.
      rewrite free_insert in Hn by done. destruct (decide (j = i)) as [->|]; [|done]. by apply not_elem_of_cons in Hn as [_ Hn].
    + intros ->. pose proof (is_block_at _ _ _ _ _ _ _ _ V Hb Ha Ep) as Hat. unfold block_at in Hat. rewrite Hd in Hat.
      destruct Hat as (_ & _ & _ & _ & Hn). rewrite free_insert, decide_True in Hn by done. apply Hn. left.
  - intros [(a' & ar' & Ha' & Hb) Hne]. destruct (block_at_page _ _ _ _ _ _ _ _ V Ha' Hb) as [Hpb _]. exists a', ar'.
    split; [done|]. unfold block_at in *. destruct (a_desc ar') as [j|] eqn:Hd'; [|done].
    destruct Hb as (k' & Hk' & Eb & Esz & Hn). exists k'. split_and!; try done; try lia. rewrite free_insert by done.
    destruct (decide (j = i)) as [->|]; [|done]. apply not_elem_of_cons. split; [|done]. intros E. apply Hne.
    apply (f_equal Z.pos) in E. by rewrite !Z2Pos.id in E.
Qed.

(** *** Pages from and to the page allocator *)
Lemma pages_taken p cnt : pools_ok p → 0 < cnt < 2 ^ 31 →
  (∃ a p', palloc_get_multiple 0 cnt p = Ret (a, p') ∧ a ≠ 0 ∧ aligned a ∧ pools_ok p' ∧
     pool_start (kernel_pool p') = pool_start (kernel_pool p) ∧ pool_pages (kernel_pool p') = pool_pages (kernel_pool p) ∧
     (∀ pn, in_use false p' pn ↔ in_use false p pn ∨ a / 4096 <= pn < a / 4096 + cnt) ∧
     (∀ pn, a / 4096 <= pn < a / 4096 + cnt → in_pool (kernel_pool p) pn ∧ ¬ in_use false p pn)) ∨
  (exhausted false p cnt ∧ palloc_get_multiple 0 cnt p = Ret (0, p)).
Proof using.
  clear. intros Hok Hc. destruct (palloc_get_cases 0 cnt p Hok Hc) as [(a & b' & m' & E & Hne & Hofs & Hw & Hbc & Hfree & Hbit & _)|[He E]];
    [left|by right]. change (has_flag 0 PAL_USER) with false in *.
  exists a, (with_map false b' m' p). pose proof (in_use_taken false b' m' p a cnt Hbc Hfree Hbit) as Hu.
  rewrite pg_no_div in *. rewrite pg_ofs_mod in Hofs. split_and!; try done.
  - by apply with_map_ok.
  - intros pn. rewrite Hu. naive_solver.
  - intros pn Hpn. destruct (Hfree (pn - a / 4096) ltac:(lia)) as [H1 H2]. by replace (a / 4096 + (pn - a / 4096)) with pn in * by lia.
Qed.

Lemma pages_given p a cnt : pools_ok p → aligned a → a ≠ 0 → 0 < cnt →
  (∀ pn, a / 4096 <= pn < a / 4096 + cnt → in_use false p pn) →
  ∃ p', palloc_free_multiple a cnt p = Ret (tt, p') ∧ pools_ok p' ∧
     pool_start (kernel_pool p') = pool_start (kernel_pool p) ∧ pool_pages (kernel_pool p') = pool_pages (kernel_pool p) ∧
     (∀ pn, in_use false p' pn ↔ in_use false p pn ∧ ¬ (a / 4096 <= pn < a / 4096 + cnt)).
Proof using.
  clear. intros Hok Hal Hne Hc Hu.
  destruct (palloc_free_run false a cnt p Hok ltac:(by rewrite pg_ofs_mod) Hne Hc) as (b' & E & Hw & Hbc & Hbit).
  { intros i Hi. rewrite pg_no_div. apply Hu. lia. }
  eexists. split; [exact E|]. split_and!; try done; [by apply with_map_ok|].
  intros pn. rewrite in_use_with_map by done. cbn [eqb]. unfold in_use. rewrite pg_no_div in Hbit. split.
  - intros [Hin Hb]. rewrite Hbit, andb_true_iff, negb_true_iff, andb_false_iff, Z.leb_gt, Z.ltb_ge in Hb by done. split; [tauto|lia].
  - intros [[Hin Hb] Hr]. split; [done|]. rewrite Hbit, Hb, andb_true_r by done.
    apply negb_true_iff, andb_false_iff. rewrite Z.leb_gt, Z.ltb_ge. lia.
Qed.

(** A new arena on pages nobody had. *)
Lemma inv_new s fr a ar fr' p' h full' :
  inv s fr (λ _, False) → pools_ok p' →
  pool_start (kernel_pool p') = pool_start (kernel_pool (pages s)) →
  pool_pages (kernel_pool p') = pool_pages (kernel_pool (pages s)) →
  (∀ pn, in_use false p' pn ↔ in_use false (pages s) pn ∨ a / 4096 <= pn < a / 4096 + span ar) →
  (∀ pn, a / 4096 <= pn < a / 4096 + span ar → in_pool (kernel_pool (pages s)) pn ∧ ¬ in_use false (pages s) pn) →
  arena_ok fr' full' a ar → length fr' = 7%nat → family h (zip lists fr') → dom h = dom (links s) →
  (∀ j x, x ∈ fr' !!! j → x ∈ fr !!! j ∨ a_desc ar = Some j ∧ ∃ k, 0 <= k < bpa j ∧ x = Z.to_pos (blk a j k)) →
  (∀ a' j, a' ≠ a → count_at a' (fr' !!! j) = count_at a' (fr !!! j)) →
  arenas s !! a = None ∧ inv (mk_mstate p' (descs s) (<[a := ar]> (arenas s)) h (bytes s)) fr' full'.
Proof using.
  intros V Hp Es Ep Hu Hf Hok Hl HF Dh Hx Hc. pose proof (span_pos _ _ _ _ Hok) as Hsp.
  assert (Hnc : ∀ pn, a / 4096 <= pn < a / 4096 + span ar → ¬ other pn ∧ ¬ covered s pn).
  { intros pn Hpn. destruct (Hf pn Hpn) as [_ Hn]. rewrite (iv_used _ _ _ V) in Hn. tauto. }
  assert (Hnone : arenas s !! a = None).
  { destruct (arenas s !! a) as [ar0|] eqn:E; [|done]. exfalso. apply (Hnc (a / 4096) ltac:(lia)). exists a, ar0. split; [done|].
    pose proof (span_pos _ _ _ _ (iv_arena _ _ _ V a ar0 E)). lia. }
  split; [done|]. destruct V as [P1 P2 P3 P4 P5 P6 P7 P8 P9 P10 P11].
  assert (Hcov : ∀ pn, covered (mk_mstate p' (descs s) (<[a := ar]> (arenas s)) h (bytes s)) pn ↔
    covered s pn ∨ a / 4096 <= pn < a / 4096 + span ar).
  { intros pn. split.
    - intros (a' & ar' & E & Hr). cbn in E. apply lookup_insert_Some in E as [[<- <-]|[Hne E]]; [by right|]. left. by exists a', ar'.
    - intros [(a' & ar' & E & Hr)|Hr].
      + exists a', ar'. cbn. rewrite lookup_insert_ne; [done|]. intros <-. congruence.
      + exists a, ar. cbn. by rewrite lookup_insert_eq. }
  assert (Hin : ∀ pn, in_pool (kernel_pool p') pn ↔ in_pool (kernel_pool (pages s)) pn) by (intros pn; unfold in_pool; by rewrite Es, Ep).
  split; cbn [pages arenas links bytes]; try done.
  - intros j x Hj. destruct (Hx j x Hj) as [Ho|(Hd & k & Hk)].
    + destruct (P4 j x Ho) as (a' & ar' & k & E & R). exists a', ar', k. rewrite lookup_insert_ne; [done|]. intros <-. congruence.
    + exists a, ar, k. by rewrite lookup_insert_eq.
  - intros a' ar' [[<- <-]|[Hne E]]%lookup_insert_Some; [done|]. destruct (P5 a' ar' E) as (Hm & Hal & Hk).
    split_and!; [done..|]. destruct (a_desc ar') as [j|]; [|done]. rewrite Hc by done. destruct Hk as (? & ? & [[]|?]). tauto.
  - intros a1 ar1 a2 ar2 pn [[<- <-]|[Hne1 E1]]%lookup_insert_Some [[<- <-]|[Hne2 E2]]%lookup_insert_Some R1 R2; try done.
    + exfalso. apply (Hnc pn R1). by exists a2, ar2.
    + exfalso. apply (Hnc pn R2). by exists a1, ar1.
    + by apply (P6 a1 ar1 a2 ar2 pn).
  - intros pn. rewrite Hu, Hcov, P7. tauto.
  - intros pn Ho. rewrite Hcov. intros [Hcv|Hr]; [by apply (P8 pn)|]. by destruct (Hnc pn Hr).
  - by rewrite Es.
  - intros va. rewrite Hin. apply P10.
  - intros pn j. rewrite Hin. intros Hpn Hj. apply elem_of_dom. rewrite Dh. by apply elem_of_dom, P11.
Qed.

Lemma is_block_new s fr fr' a ar p' h full' b sz : arenas s !! a = None →
  (∀ j x, x ∈ fr' !!! j ↔ x ∈ fr !!! j ∨ a_desc ar = Some j ∧ ∃ k, 0 <= k < bpa j ∧ x = Z.to_pos (blk a j k)) →
  inv s fr (λ _, False) → inv (mk_mstate p' (descs s) (<[a := ar]> (arenas s)) h (bytes s)) fr' full' →
  is_block (mk_mstate p' (descs s) (<[a := ar]> (arenas s)) h (bytes s)) fr' b sz ↔
    is_block s fr b sz ∨ (a_desc ar = None ∧ b = a + ARENA_SIZE ∧ sz = 4096 * free_cnt ar - ARENA_SIZE).
Proof using.
  intros Hn Hx V V'. split.
  - intros (a' & ar' & E & Hb). cbn in E. apply lookup_insert_Some in E as [[<- <-]|[Hne E]]; unfold block_at in Hb.
    + destruct (a_desc ar) as [i|] eqn:Hd; [|by right]. destruct Hb as (k & Hk & -> & _ & Hnot). exfalso. apply Hnot, Hx.
      right. split; [done|]. by exists k.
    + left. exists a', ar'. split; [done|]. unfold block_at. destruct (a_desc ar') as [j|]; [|done].
      destruct Hb as (k & Hk & -> & -> & Hnot). exists k. split_and!; try done; try lia. intros Hc. apply Hnot, Hx. by left.
  - intros [(a' & ar' & E & Hb)|(Hd & -> & ->)].
    + destruct (block_at_page _ _ _ _ _ _ _ _ V E Hb) as [Hp Epg]. assert (Hne : a ≠ a') by congruence.
      exists a', ar'. cbn. rewrite lookup_insert_ne by done. split; [done|]. unfold block_at in *.
      destruct (a_desc ar') as [j|] eqn:Hd; [|done].
      destruct Hb as (k & Hk & Eb & -> & Hnot). exists k. split_and!; try done; try lia. rewrite Hx. intros [Hc|(Hda & k' & Hk' & Ek)]; [done|].
      assert (Ha : <[a := ar]> (arenas s) !! a = Some ar) by apply lookup_insert_eq.
      destruct (small_facts _ _ _ a ar j V' Ha Hda) as (Hal & H1 & _ & _ & Hj & _). unfold PHYS_BASE in H1.
      destruct (blk_page a j Hal ltac:(lia) Hj k' Hk') as (Epa & _ & Hpa).
      apply (f_equal Z.pos) in Ek. rewrite !Z2Pos.id in Ek by done. rewrite Ek in Epg. congruence.
    + exists a, ar. cbn. rewrite lookup_insert_eq. split; [done|]. unfold block_at. by rewrite Hd.
Qed.

(** *** [malloc] *)
Lemma mapped_bytes m p n : mapped m p n → ∃ bs, length bs = n ∧ bytes_at m p bs.
Proof using.
  clear. revert p. induction n as [|n IH]; intros p Hm; [by exists []|]. destruct (Hm p ltac:(lia)) as [v Hv].
  destruct (IH (p + 1)) as (bs & Hl & Hb); [intros x Hx; apply Hm; lia|]. exists (v :: bs). cbn. by rewrite Hl.
Qed.

Lemma block_range s fr full fr' b sz : inv s fr full → is_block s fr' b sz →
  ∃ a ar, arenas s !! a = Some ar ∧ b / 4096 * 4096 = a ∧ 0 < sz ∧ a + 12 <= b ∧ b + sz <= a + 4096 * span ar.
Proof using.
  intros V (a & ar & Ha & Hb). destruct (block_at_page _ _ _ _ _ _ _ _ V Ha Hb) as [Hp E]. exists a, ar.
  destruct (arena_range _ _ _ _ _ V Ha) as (Hal & H1 & H2 & H3 & _). split; [done|]. split; [done|].
  unfold block_at, span in *. destruct (a_desc ar) as [i|] eqn:Hd.
  - destruct Hb as (k & Hk & -> & -> & _). destruct (small_facts _ _ _ _ _ _ V Ha Hd) as (_ & _ & _ & _ & Hi & _).
    pose proof (blk_bounds a i Hi k Hk). destruct (geometry i Hi) as (G & _). lia.
  - destruct Hb as [-> ->]. unfold ARENA_SIZE. lia.
Qed.

Lemma block_mapped s fr full fr' b sz : inv s fr full → is_block s fr' b sz → mapped (bytes s) b (Z.to_nat sz) ∧ 0 < sz ∧ 0 < b ∧ b + sz <= 2 ^ 32.
Proof using.
  intros V Hb. destruct (block_range _ _ _ _ _ _ V Hb) as (a & ar & Ha & _ & Hsz & H1 & H2).
  destruct (arena_range _ _ _ _ _ V Ha) as (Hal & Hl & Hu & _). unfold PHYS_BASE in Hl. split; [|lia].
  intros va Hva. apply (iv_bytes _ _ _ V), (arena_pool s fr full a ar); [done..|]. pose proof (aligned_div a Hal) as Ea.
  split; [apply Z.div_le_mono; lia|]. apply Z.div_lt_upper_bound; lia.
Qed.

(** The state with one more block in use. *)
Lemma heap_extend s C s' fr fr' b sz :
  heap_ok s C → shape unlocked s' → inv s fr (λ _, False) → blocks_are s fr C →
  inv s' fr' (λ _, False) → bytes s' = bytes s →
  (∀ b' sz', is_block s' fr' b' sz' ↔ is_block s fr b' sz' ∨ b' = b ∧ sz' = sz) → (∀ sz', ¬ is_block s fr b sz') →
  ∃ bs, C !! b = None ∧ Z.of_nat (length bs) = sz ∧ heap_ok s' (<[b := bs]> C).
Proof using.
  intros (_ & fr0 & V0 & Hc0 & Hb0) Hs V Hc V' Eb Hblk Hno.
  assert (Hb : is_block s' fr' b sz) by (apply Hblk; by right).
  destruct (block_mapped _ _ _ _ _ _ V' Hb) as (Hm & Hsz & _). destruct (mapped_bytes _ _ _ Hm) as (bs & Hl & Hbs). exists bs.
  assert (Hn : C !! b = None).
  { destruct (C !! b) as [bs'|] eqn:E; [|done]. exfalso. apply (Hno (Z.of_nat (length bs'))), Hc. by exists bs'. }
  split_and!; [done|lia|]. split; [done|]. exists fr'. split_and!; [done| |].
  - intros b' sz'. rewrite Hblk, (Hc b' sz'). destruct (decide (b' = b)) as [->|Hne].
    + rewrite lookup_insert_eq. split.
      * intros [(bs' & E & _)|[_ ->]]; [congruence|]. exists bs. split; [done|lia].
      * intros (bs' & [= <-] & <-). right. split; [done|lia].
    + rewrite lookup_insert_ne by done. naive_solver.
  - intros b' bs'. destruct (decide (b' = b)) as [->|Hne]; [rewrite lookup_insert_eq; by intros [= <-]|].
    rewrite lookup_insert_ne, Eb by done. apply Hb0.
Qed.

Lemma lists_lookup i : (i < 7)%nat → lists !! i = Some (desc_list base i).
Proof using. clear. intros Hi. unfold lists. rewrite list_lookup_fmap, lookup_seq_lt by lia. done. Qed.

Lemma take_block_run s fr full i x xs :
  shape (locked i) s → inv s fr full → fr !! i = Some (x :: xs) → (∀ a, full a → a = page_of x) →
  ∃ s', take_block i (std_desc (locked i) i) s = Ret (Z.pos x, s') ∧ shape unlocked s' ∧ inv s' (<[i:=xs]> fr) (λ _, False) ∧
    bytes s' = bytes s ∧ pages s' = pages s ∧
    (∀ b sz, is_block s' (<[i:=xs]> fr) b sz ↔ is_block s fr b sz ∨ b = Z.pos x ∧ sz = bsize i) ∧
    (∀ sz, ¬ is_block s fr (Z.pos x) sz).
Proof using.
  intros Hs V Hf Hfull. pose proof (lookup_free _ _ _ Hf) as Ef.
  destruct (free_node s fr full i x V) as (a & ar & k & Ha & Hd & Hk & Ex & Epg & Hi); [rewrite Ef; left|].
  destruct (small_facts _ _ _ _ _ _ V Ha Hd) as (Hal & H1 & H2 & _ & _ & Hm & Hcnt & _). unfold PHYS_BASE in H1.
  destruct (zip_split lists fr i _ _ (lists_lookup i Hi) Hf) as (A & B & EF & EF').
  pose proof (iv_fam _ _ _ V) as HF. rewrite EF in HF. destruct (family_pop_front _ _ _ _ _ _ HF) as (h & R & HF' & Dh).
  assert (Hlt : count_at a (x :: xs) = count_at a xs + 1) by by rewrite count_at_cons, decide_True.
  rewrite Ef in Hcnt. set (c := u32 (free_cnt ar - 1)).
  assert (Hc0 : 0 <= count_at a xs) by (unfold count_at; lia).
  destruct (count_at_bound a i (x :: xs) Hal ltac:(lia) Hi) as (Hle & _).
  { rewrite <- Ef. by eapply free_NoDup. }
  { intros y Hy Hpy. rewrite <- Ef in Hy. destruct (free_node _ _ _ _ _ V Hy) as (a' & ar' & k' & Ha' & Hd' & Hk' & Ey & Epy & _).
    apply elem_of_blocks. exists k'. split; [lia|]. assert (a' = a) as -> by congruence. rewrite <- Ey. by rewrite Pos2Z.id. }
  destruct (geometry i Hi) as (_ & G2 & _).
  assert (Ec : c = count_at a xs) by (unfold c; rewrite u32_small; lia).
  assert (Hs1 : shape (locked i) (set_links h s)) by exact Hs.
  assert (V' : inv (set_state s (<[a := mk_arena (magic ar) (Some i) c]> (arenas s)) h (bytes s)) (<[i:=xs]> fr) (λ _, False)).
  { eapply inv_update; [exact V|exact Ha|exact Hd|exact Hf|by rewrite EF'|done|done| |done| |right; lia|].
    - intros y Hy. left. by right.
    - intros a' Hne. rewrite count_at_cons, decide_False by congruence. lia.
    - intros a' Hne Hfa. apply Hfull in Hfa. congruence. }
  eexists. split.
  - unfold take_block. cbn [free_list std_desc]. rewrite (on_links_bind _ _ _ _ _ R). cbv beta iota. rewrite Ex.
    assert (Hba : block_to_arena (blk a i k) (set_links h s) = Ret (a, set_links h s)).
    { apply (block_to_arena_small (locked i) _ a ar); try done; lia. }
    rewrite (bind_Ret _ _ _ _ _ Hba), (get_arena_bind _ _ ar) by done. unfold put_arena. rewrite modify_bind.
    erewrite bind_Ret; [|by apply release_run]. rewrite Hd. fold c. reflexivity.
  - split_and!; try done.
    + destruct V'. split; done.
    + intros b sz. rewrite <- (is_block_pop s fr full i x xs b sz V Hf), <- (is_block_update s _ a ar i c h (bytes s) b sz Ha Hd). done.
    + intros sz Hb. pose proof (is_block_at _ _ _ _ _ _ _ _ V Hb Ha ltac:(rewrite <- Epg; done)) as Hat. unfold block_at in Hat.
      rewrite Hd in Hat. destruct Hat as (_ & _ & _ & _ & Hn). apply Hn. rewrite Ef, Pos2Z.id. left.
Qed.

Lemma node_fresh s fr full b : inv s fr full → base + 480 <= b → (∀ j, Z.to_pos b ∉ fr !!! j) → Z.to_pos b ∉ fnodes (zip lists fr).
Proof using.
  intros V Hb Hf. pose proof (iv_base _ _ _ V) as [Hb0 _].
  rewrite elem_of_fnodes_zip by (rewrite (iv_len _ _ _ V); unfold lists; by rewrite length_fmap, length_seq).
  intros [Hx|Hx].
  - unfold sentinels, lists in Hx. apply list_elem_of_bind in Hx as (l & Hx & Hl). apply list_elem_of_fmap in Hl as (j & -> & Hj).
    apply elem_of_seq in Hj. unfold desc_list in Hx. cbn [head tail] in Hx.
    rewrite !elem_of_cons, elem_of_nil in Hx. destruct Hx as [Hx|[Hx|[]]]; apply (f_equal Z.pos) in Hx; rewrite !Z2Pos.id in Hx; lia.
  - apply list_elem_of_In, in_concat in Hx as (ys & Hys & Hx). apply list_elem_of_In in Hys, Hx.
    apply list_elem_of_lookup in Hys as [j Hj]. apply (Hf j). by rewrite (lookup_free _ _ _ Hj).
Qed.

Lemma block_elem s fr full a i k : inv s fr full → aligned a → in_pool (kernel_pool (pages s)) (a / 4096) → (i < 7)%nat →
  0 <= k < bpa i → is_Some (links s !! Z.to_pos (blk a i k)).
Proof using.
  intros V Hal Hp Hi Hk. destruct (geometry i Hi) as (G1 & G2 & G3 & j & Ej & Hj). unfold ARENA_SIZE in G3.
  replace (blk a i k) with (4096 * (a / 4096) + 12 + 16 * (k * j)) by (rewrite <- (aligned_div a Hal); unfold blk, ARENA_SIZE; lia).
  apply (iv_elems _ _ _ V); [done|]. nia.
Qed.

Lemma on_pages_bind {A B} (f : cmd palloc_state A) (k : A → cmd mstate B) s a p :
  f (pages s) = Ret (a, p) → (on_pages f ≫= k) s = k a (mk_mstate p (descs s) (arenas s) (links s) (bytes s)).
Proof using. intros E. unfold mbind, cmd_bind, on_pages. by rewrite E. Qed.

Lemma new_arena_run s fr i :
  shape (locked i) s → inv s fr (λ _, False) → fr !! i = Some [] →
  (exhausted false (pages s) 1 ∧
   new_arena i (std_desc (locked i) i) s = Ret (false, set_descs (std_desc unlocked <$> seq 0 7) s)) ∨
  (∃ s' x xs, new_arena i (std_desc (locked i) i) s = Ret (true, s') ∧ shape (locked i) s' ∧
    inv s' (<[i := x :: xs]> fr) (λ a, a = page_of x) ∧ bytes s' = bytes s ∧
    ∀ b sz, is_block s' (<[i := x :: xs]> fr) b sz ↔ is_block s fr b sz).
Proof using.
  intros Hs V Hf. pose proof (lookup_free _ _ _ Hf) as Ef.
  assert (Hi : (i < 7)%nat) by (rewrite <- (iv_len _ _ _ V); by eapply lookup_lt_Some). destruct (geometry i Hi) as (G1 & G2 & G3 & _).
  unfold new_arena, palloc_get_page. destruct (pages_taken (pages s) 1 (iv_pools _ _ _ V) ltac:(lia))
    as [(a & p' & R & Hne & Hal & Hok & Es & Ep & Hu & Hfree)|[He R]]; [right|left].
  2:{ split; [done|]. rewrite (on_pages_bind _ _ _ _ _ R). rewrite Z.eqb_refl. destruct s as [p ds ars h m]. cbn.
      erewrite bind_Ret; [|by apply release_run]. done. }
  destruct (Hfree (a / 4096) ltac:(lia)) as [Hpool Hnu]. pose proof (pool_range s _ (iv_pools _ _ _ V) Hpool) as Hr.
  unfold PHYS_BASE in Hr. pose proof (aligned_div a Hal) as Ea. pose proof (iv_base _ _ _ V) as [_ Hb]. destruct Hpool as [Hps Hpe].
  set (ar := mk_arena ARENA_MAGIC (Some i) (bpa i)). set (n := Z.to_nat (bpa i)).
  assert (Hna : arenas s !! a = None).
  { destruct (arenas s !! a) as [ar0|] eqn:E; [|done]. exfalso. apply Hnu, (iv_used _ _ _ V). right. exists a, ar0.
    pose proof (span_pos _ _ _ _ (iv_arena _ _ _ V a ar0 E)). split; [done|lia]. }
  set (s1 := mk_mstate p' (descs s) (<[a := ar]> (arenas s)) (links s) (bytes s)).
  destruct (zip_split lists fr i _ _ (lists_lookup i Hi) Hf) as (A & B & EF & EF'). pose proof (iv_fam _ _ _ V) as HF. rewrite EF in HF.
  assert (Hpg : ∀ x, x ∈ blocks a i 0 n → page_of x = a) by (intros x Hx; eapply (blocks_page a i); [done|lia|done| | |exact Hx]; lia).
  destruct (fill_run (locked i) a ar i A B eq_refl eq_refl Hi Hal ltac:(lia) ltac:(lia) n 0 (desc_list base i) [] s1)
    as (h & Rf & Ff & Df); [done|apply lookup_insert_eq|lia|lia|done| |].
  { intros x Hx. pose proof (Hpg x Hx) as Epx. apply elem_of_blocks in Hx as (k & Hk & ->). rewrite <- EF. split.
    - apply (node_fresh s fr (λ _, False)); [done| |].
      + pose proof (blk_bounds a i Hi k ltac:(lia)). lia.
      + intros j Hj. destruct (free_node _ _ _ _ _ V Hj) as (a' & ar' & k' & Ha' & _ & _ & _ & Epg & _). congruence.
    - apply (block_elem s fr (λ _, False)); try done. lia. }
  rewrite app_nil_l in Ff. destruct n as [|n'] eqn:En; [lia|].
  destruct (blocks a i 0 (S n')) as [|x xs] eqn:Ebs; [by rewrite blocks_S in Ebs|].
  exists (set_links h s1), x, xs. assert (Ex : page_of x = a) by (apply Hpg; left).
  assert (Hfr' : ∀ j, <[i := x :: xs]> fr !!! j = if decide (j = i) then x :: xs else fr !!! j).
  { intros j. apply free_insert. by eapply lookup_lt_Some. }
  assert (Hmem : ∀ j y, y ∈ <[i := x :: xs]> fr !!! j ↔ y ∈ fr !!! j ∨ a_desc ar = Some j ∧ ∃ k, 0 <= k < bpa j ∧ y = Z.to_pos (blk a j k)).
  { intros j y. rewrite Hfr'. destruct (decide (j = i)) as [->|Hji].
    - rewrite Ef, elem_of_nil, <- Ebs, elem_of_blocks. split.
      + intros (k & Hk & ->). right. split; [done|]. exists k. split; [lia|done].
      + intros [[]|(_ & k & Hk & ->)]. exists k. split; [lia|done].
    - split; [by left|]. intros [?|[[= ->] _]]; done. }
  destruct (inv_new s fr a ar (<[i := x :: xs]> fr) p' h (λ a', a' = page_of x)) as [_ V']; try done.
  { split_and!; [done|done|]. cbn. split_and!; [done| |left; congruence]. rewrite Hfr', decide_True by done.
    rewrite count_at_all by (intros y Hy; by apply Hpg). rewrite <- Ebs, blocks_length. lia. }
  { rewrite length_insert. apply V. }
  { by rewrite EF'. }
  { intros j y. by rewrite Hmem. }
  { intros a' j Hne'. rewrite Hfr'. destruct (decide (j = i)) as [->|]; [|done]. rewrite Ef.
    rewrite !count_at_none; [done|intros y Hy; by apply elem_of_nil in Hy|]. intros y Hy. rewrite (Hpg y Hy). congruence. }
  split_and!; [| |exact V'|done|].
  - rewrite (on_pages_bind _ _ _ _ _ R), (proj2 (Z.eqb_neq a 0)) by done. unfold put_arena. rewrite modify_bind.
    cbn [blocks_per_arena free_list std_desc]. fold n. rewrite En. rewrite (bind_Ret _ _ _ _ _ Rf). done.
  - exact Hs.
  - intros b sz. unfold set_links, s1. cbn. rewrite (is_block_new s fr _ a ar p' h _ b sz Hna Hmem V V'). cbn.
    split; [|by left]. intros [?|[? _]]; done.
Qed.

(** Which descriptor serves a request. *)
Lemma find_desc_std lk n : 0 < n →
  (n <= 1024 ∧ (find_desc (std_desc lk <$> seq 0 7) n < 7)%nat ∧ n <= bsize (find_desc (std_desc lk <$> seq 0 7) n)) ∨
  (1024 < n ∧ find_desc (std_desc lk <$> seq 0 7) n = 7%nat).
Proof using.
  clear. intros Hn. cbn [seq fmap list_fmap find_desc block_size std_desc].
  repeat match goal with |- context [if ?a <=? ?b then _ else _] => destruct (Z.leb_spec a b) end;
    try (left; split_and!; [unfold bsize in *; cbn in *; lia|lia|done]).
  right. unfold bsize in *. cbn in *. split; [lia|done].
Qed.

(** Pages a request may need. *)
Definition pages_needed (n : Z) : Z := if n <=? 1024 then 1 else page_cnt_for n.

(** What a call of [malloc] for [n] bytes leaves. *)
Definition malloc_post (n : Z) (s : mstate) (C : gmap Z (list Z)) (b : Z) (s' : mstate) : Prop :=
  ((b = 0 ∧ heap_ok s' C ∧ (n = 0 ∨ exhausted false (pages s) (pages_needed n))) ∨
   (b ≠ 0 ∧ C !! b = None ∧ ∃ bs, n <= Z.of_nat (length bs) ∧ heap_ok s' (<[b := bs]> C))) ∧ bytes s' = bytes s.

Lemma shape_inv lk s fr full : inv s fr full → inv (set_descs (std_desc lk <$> seq 0 7) s) fr full.
Proof using. intros []. by split. Qed.

(** From the free list of descriptor [i], which is locked. *)
Lemma take_post s C fr i s1 fr1 full x xs n :
  heap_ok s C → inv s fr (λ _, False) → blocks_are s fr C →
  shape (locked i) s1 → inv s1 fr1 full → fr1 !! i = Some (x :: xs) → (∀ a, full a → a = page_of x) → bytes s1 = bytes s →
  (∀ b sz, is_block s1 fr1 b sz ↔ is_block s fr b sz) → n <= bsize i →
  ∃ b s', take_block i (std_desc (locked i) i) s1 = Ret (b, s') ∧ malloc_post n s C b s'.
Proof using.
  intros Hok V Hc Hs1 V1 Hf Hfull Eb Hbl Hn.
  destruct (take_block_run s1 fr1 full i x xs Hs1 V1 Hf Hfull) as (s3 & R3 & Hs3 & V3 & Eb3 & _ & Hbl3 & Hno).
  destruct (heap_extend s C s3 fr _ (Z.pos x) (bsize i) Hok Hs3 V Hc V3) as (bs & Hn1 & Hl & Hok3); [congruence| | |].
  - intros b sz. by rewrite Hbl3, Hbl.
  - intros sz. rewrite <- Hbl. apply Hno.
  - eexists _, s3. split; [exact R3|]. split; [right; split_and!; [done|done|]; exists bs; split; [lia|done]|congruence].
Qed.

Lemma malloc_small s C n : heap_ok s C → 0 < n <= 1024 → ∃ b s', malloc n s = Ret (b, s') ∧ malloc_post n s C b s'.
Proof using.
  intros Hok Hn. pose proof Hok as (Hs & fr & V & Hc & Hb). unfold malloc. rewrite (proj2 (Z.eqb_neq n 0)) by lia.
  rewrite gets_bind, Hs, length_fmap, length_seq.
  destruct (find_desc_std unlocked n ltac:(lia)) as [(Hle & Hi & Hsz)|[Hgt _]]; [|lia].
  set (i := find_desc _ n) in *. rewrite (proj2 (Nat.eqb_neq i 7)) by lia.
  rewrite (bind_Ret _ _ _ _ _ (acquire_run s i Hs Hi)). set (s1 := set_descs _ s).
  assert (Hs1 : shape (locked i) s1) by done. assert (V1 : inv s1 fr (λ _, False)) by by apply shape_inv.
  rewrite (get_desc_bind _ _ _ _ Hs1 Hi). destruct (lookup_lt_is_Some_2 fr i) as [ys Hys]; [rewrite (iv_len _ _ _ V); lia|].
  destruct (zip_split lists fr i _ _ (lists_lookup i Hi) Hys) as (A & B & EF & _). pose proof (iv_fam _ _ _ V) as HF.
  rewrite EF in HF. apply family_get in HF. cbn [free_list std_desc].
  rewrite (on_links_bind _ _ _ _ _ (list_empty_list (links s1) _ _ HF)).
  replace (set_links (links s1) s1) with s1 by by destruct s1.
  destruct ys as [|x xs]; [rewrite bool_decide_true by done|rewrite bool_decide_false, ret_bind by done].
  - destruct (new_arena_run s1 fr i Hs1 V1 Hys) as [[He R]|(s2 & x & xs & R & Hs2 & V2 & Eb & Hbl)]; rewrite (bind_Ret _ _ _ _ _ R).
    + eexists 0, _. split; [done|]. split; [|done]. left. split; [done|].
      split; [|right; unfold pages_needed; by rewrite (proj2 (Z.leb_le n 1024))]. split; [done|]. exists fr. split_and!; try done.
      by apply shape_inv, shape_inv.
    + apply (take_post s C fr i s2 _ _ x xs n Hok V Hc Hs2 V2); try done. apply list_lookup_insert_eq. by eapply lookup_lt_Some.
  - by apply (take_post s C fr i s1 fr _ x xs n Hok V Hc Hs1 V1 Hys).
Qed.

(** Whole pages: the number of pages decides the size of the block. *)
Lemma malloc_pages s C n : heap_ok s C → 1024 < n → 0 < page_cnt_for n < 2 ^ 31 →
  ∃ b s', malloc n s = Ret (b, s') ∧ bytes s' = bytes s ∧
    ((b = 0 ∧ heap_ok s' C ∧ exhausted false (pages s) (page_cnt_for n)) ∨
     (b ≠ 0 ∧ C !! b = None ∧ ∃ bs, Z.of_nat (length bs) = 4096 * page_cnt_for n - ARENA_SIZE ∧ heap_ok s' (<[b := bs]> C))).
Proof using.
  intros Hok Hn Hcnt. pose proof Hok as (Hs & fr & V & Hc & Hb). unfold malloc. rewrite (proj2 (Z.eqb_neq n 0)) by lia.
  rewrite gets_bind, Hs, length_fmap, length_seq. destruct (find_desc_std unlocked n ltac:(lia)) as [(Hle & _)|[_ ->]]; [lia|].
  cbn [Nat.eqb]. set (cnt := page_cnt_for n) in *.
  destruct (pages_taken (pages s) cnt (iv_pools _ _ _ V) ltac:(lia))
    as [(a & p' & R & Hne & Hal & Hpo & Es & Ep & Hu & Hfree)|[He R]]; rewrite (on_pages_bind _ _ _ _ _ R).
  2:{ rewrite Z.eqb_refl. eexists 0, _. split; [done|]. split; [done|]. left. split; [done|]. split; [by destruct s|done]. }
  rewrite (proj2 (Z.eqb_neq a 0)) by done. unfold put_arena. rewrite modify_bind.
  set (ar := mk_arena ARENA_MAGIC None cnt).
  destruct (inv_new s fr a ar fr p' (links s) (λ _, False)) as [Hna V']; try done; try apply (iv_len _ _ _ V); try apply (iv_fam _ _ _ V).
  { split_and!; [done|done|]. cbn. lia. } { intros j x Hx. by left. }
  pose proof (pool_range s (a / 4096) (iv_pools _ _ _ V) ltac:(apply Hfree; lia)) as Hr. unfold PHYS_BASE in Hr.
  pose proof (aligned_div a Hal) as Ea.
  destruct (heap_extend s C (mk_mstate p' (descs s) (<[a := ar]> (arenas s)) (links s) (bytes s)) fr fr (a + ARENA_SIZE)
    (4096 * cnt - ARENA_SIZE) Hok Hs V Hc V') as (bs & Hn1 & Hl & Hok3).
  { done. }
  { intros b sz. rewrite (is_block_new s fr fr a ar p' (links s) (λ _, False) b sz Hna); [cbn; naive_solver| |done|done].
    intros j x. split; [by left|]. intros [?|[? _]]; done. }
  { intros sz (a' & ar' & Ha' & Hb'). destruct (block_at_page _ _ _ _ _ _ _ _ V Ha' Hb') as [_ E'].
    destruct (in_page a ARENA_SIZE Hal ltac:(unfold ARENA_SIZE; lia)) as [E2 _]. rewrite E2 in E'.
    replace (a / 4096 * 4096) with a in E' by lia. congruence. }
  unfold ARENA_SIZE in *. eexists _, _. split; [unfold mret, cmd_ret; rewrite u32_small by lia; done|]. split; [done|].
  right. split_and!; [lia|done|]. by exists bs.
Qed.

Lemma malloc_big s C n : heap_ok s C → 1024 < n <= 2 ^ 32 - 4108 → ∃ b s', malloc n s = Ret (b, s') ∧ malloc_post n s C b s'.
Proof using.
  intros Hok Hn.
  assert (Hcnt : 0 < page_cnt_for n < 2 ^ 31 ∧ n + 12 <= 4096 * page_cnt_for n).
  { unfold page_cnt_for, ARENA_SIZE. change PGSIZE with 4096. rewrite !u32_small by (rewrite ?u32_small; lia).
    pose proof (Z.div_mod (n + 12 + 4096 - 1) 4096 ltac:(lia)). pose proof (Z.mod_pos_bound (n + 12 + 4096 - 1) 4096 ltac:(lia)). lia. }
  destruct (malloc_pages s C n Hok ltac:(lia) ltac:(lia)) as (b & s' & R & Eb & Hpost). exists b, s'. split; [done|]. split; [|done].
  destruct Hpost as [(-> & Hok' & He)|(Hne & Hn1 & bs & Hl & Hok')]; [left|right]; split_and!; try done.
  - right. unfold pages_needed. by rewrite (proj2 (Z.leb_gt n 1024)) by lia.
  - exists bs. unfold ARENA_SIZE in Hl. split; [lia|done].
Qed.

Lemma malloc_call_run s C n : heap_ok s C → 0 <= n <= 2 ^ 32 - 4108 → ∃ b s', malloc n s = Ret (b, s') ∧ malloc_post n s C b s'.
Proof using.
  intros Hok Hn. destruct (decide (n = 0)) as [->|Hnz]; [|destruct (decide (n <= 1024)); [apply malloc_small|apply malloc_big]; (done || lia)].
  exists 0, s. split; [done|]. split; [|done]. left. split_and!; [done..|by left].
Qed.
End spec.
Arguments std_desc : clear implicits.
Arguments shape : clear implicits.
Arguments lists : clear implicits.
Arguments inv : clear implicits.
Arguments heap_ok : clear implicits.
Arguments malloc_post : clear implicits.
