(* ===== verification/MallocFree.v ===== *)
(** The other half of the block allocator: blocks in use do not overlap, and
    [free] gives a block, and an unused arena, back. *)
From S2P Require Import Prelude Bitmap Vaddr Palloc KList KListFamily KString KStringSpec Malloc MallocSpec.
Open Scope Z_scope.

Section release.
Context {base : Z} {other : Z → Prop}.
Abbreviation inv := (inv base other).
Abbreviation heap_ok := (heap_ok base other).
Abbreviation shape := (shape base).
Abbreviation std_desc := (std_desc base).
Abbreviation lists := (lists base).

(** *** Disjointness *)
Lemma blocks_apart s fr full b sz b' sz' : inv s fr full → is_block s fr b sz → is_block s fr b' sz' → b ≠ b' →
  b + sz <= b' ∨ b' + sz' <= b.
Proof using.
  intros V Hb Hb' Hne. destruct (block_range _ _ _ _ _ _ V Hb) as (a & ar & Ha & E & Hs & H1 & H2).
  destruct (block_range _ _ _ _ _ _ V Hb') as (a' & ar' & Ha' & E' & Hs' & H1' & H2').
  destruct (arena_range _ _ _ _ _ V Ha) as (Hal & _). destruct (arena_range _ _ _ _ _ V Ha') as (Hal' & _).
  pose proof (aligned_div a Hal). pose proof (aligned_div a' Hal').
  destruct (decide (a = a')) as [<-|Hna].
  - pose proof (is_block_at _ _ _ _ _ _ _ _ V Hb Ha E) as Hat. pose proof (is_block_at _ _ _ _ _ _ _ _ V Hb' Ha E') as Hat'.
    unfold block_at in *. destruct (a_desc ar) as [i|] eqn:Hd; [|destruct Hat, Hat'; congruence].
    destruct (small_facts _ _ _ _ _ _ V Ha Hd) as (_ & _ & _ & _ & Hi & _). destruct (geometry i Hi) as (G & _).
    destruct Hat as (k & Hk & -> & -> & _), Hat' as (k' & Hk' & -> & -> & _). unfold blk in *.
    assert (k ≠ k') by congruence. nia.
  - destruct (decide (b + sz <= b')); [by left|]. destruct (decide (b' + sz' <= b)); [by right|]. exfalso. apply Hna.
    apply (iv_disj _ _ _ V a ar a' ar' (Z.max b b' / 4096)); [done|done| |];
      (split; [apply Z.div_le_mono; lia|apply Z.div_lt_upper_bound; lia]).
Qed.

(** A block of another arena is outside this one's pages. *)
Lemma block_outside s fr full b sz a ar : inv s fr full → is_block s fr b sz → arenas s !! a = Some ar → b / 4096 * 4096 ≠ a →
  b + sz <= a ∨ a + 4096 * span ar <= b.
Proof using.
  intros V Hb Ha Hne. destruct (block_range _ _ _ _ _ _ V Hb) as (a' & ar' & Ha' & E' & Hs' & H1' & H2').
  destruct (arena_range _ _ _ _ _ V Ha) as (Hal & _ & _ & Hsp & _). destruct (arena_range _ _ _ _ _ V Ha') as (Hal' & _).
  pose proof (aligned_div a Hal). pose proof (aligned_div a' Hal').
  destruct (decide (b + sz <= a)); [by left|]. destruct (decide (a + 4096 * span ar <= b)); [by right|]. exfalso. apply Hne.
  rewrite E'. apply (iv_disj _ _ _ V a' ar' a ar (Z.max b a / 4096)); [done|done| |];
      (split; [apply Z.div_le_mono; lia|apply Z.div_lt_upper_bound; lia]).
Qed.

Lemma write_dom m p bs : mapped m p (length bs) → dom (write m p bs) = dom m.
Proof using.
  clear. intros Hm. apply set_eq. intros x. rewrite !elem_of_dom. destruct (decide (p <= x < p + Z.of_nat (length bs))) as [Hi|Ho].
  - split; intros _; [by apply Hm|]. by apply (bytes_at_mapped _ _ _ (bytes_at_write m p bs)).
  - by rewrite write_lookup_out by lia.
Qed.

Lemma bytes_at_write_out m p bs q cs : q + Z.of_nat (length cs) <= p ∨ p + Z.of_nat (length bs) <= q →
  bytes_at m q cs → bytes_at (write m p bs) q cs.
Proof using. clear. intros Ho. apply bytes_at_agree. intros x Hx. apply write_lookup_out. lia. Qed.

(** *** Giving an arena back *)
Lemma inv_delete s fr full a ar fr' p' h m :
  inv s fr full → arenas s !! a = Some ar → (∀ a', a' ≠ a → ¬ full a') → pools_ok p' →
  pool_start (kernel_pool p') = pool_start (kernel_pool (pages s)) →
  pool_pages (kernel_pool p') = pool_pages (kernel_pool (pages s)) →
  (∀ pn, in_use false p' pn ↔ in_use false (pages s) pn ∧ ¬ (a / 4096 <= pn < a / 4096 + span ar)) →
  length fr' = 7%nat → family h (zip lists fr') → dom h = dom (links s) → dom m = dom (bytes s) →
  (∀ j x, x ∈ fr' !!! j → x ∈ fr !!! j ∧ page_of x ≠ a) →
  (∀ a' j, a' ≠ a → count_at a' (fr' !!! j) = count_at a' (fr !!! j)) →
  inv (mk_mstate p' (descs s) (delete a (arenas s)) h m) fr' (λ _, False).
Proof using.
  intros V Ha Hfull Hp Es Ep Hu Hl HF Dh Dm Hx Hc. pose proof V as V0. destruct V as [P1 P2 P3 P4 P5 P6 P7 P8 P9 P10 P11].
  assert (Hcov : ∀ pn, covered (mk_mstate p' (descs s) (delete a (arenas s)) h m) pn ↔
    covered s pn ∧ ¬ (a / 4096 <= pn < a / 4096 + span ar)).
  { intros pn. split.
    - intros (a' & ar' & E & Hr). cbn in E. apply lookup_delete_Some in E as [Hne E]. split; [by exists a', ar'|].
      intros Hr'. by apply Hne, (P6 a ar a' ar' pn).
    - intros [(a' & ar' & E & Hr) Hn]. exists a', ar'. cbn. rewrite lookup_delete_ne; [done|]. intros <-. apply Hn. congruence. }
  assert (Hin : ∀ pn, in_pool (kernel_pool p') pn ↔ in_pool (kernel_pool (pages s)) pn) by (intros pn; unfold in_pool; by rewrite Es, Ep).
  split; cbn [pages arenas links bytes]; try done.
  - intros j x Hj. destruct (Hx j x Hj) as [Ho Hne]. destruct (free_node _ _ _ _ _ V0 Ho) as (a' & ar' & k & E & Hd & Hk & Ex & Epg & _).
    exists a', ar', k. rewrite lookup_delete_ne by congruence. split_and!; try done; try lia.
  - intros a' ar' [Hne E]%lookup_delete_Some. destruct (P5 a' ar' E) as (Hm & Hal & Hk). split_and!; [done..|].
    destruct (a_desc ar') as [j|]; [|done]. rewrite Hc by done. destruct Hk as (Hj & Ek & [Hf|Hf]); [by apply Hfull in Hf|tauto].
  - intros a1 ar1 a2 ar2 pn [_ E1]%lookup_delete_Some [_ E2]%lookup_delete_Some. by apply P6.
  - intros pn. rewrite Hu, Hcov, P7. split; [tauto|]. intros [Ho|[Hcv Hn]]; [|tauto]. split; [by left|]. intros Hr.
    apply (P8 pn Ho). by exists a, ar.
  - intros pn Ho. rewrite Hcov. intros [Hcv _]. by apply (P8 pn).
  - by rewrite Es.
  - intros va. rewrite Hin. intros Hva. apply elem_of_dom. rewrite Dm. by apply elem_of_dom, P10.
  - intros pn j. rewrite Hin. intros Hpn Hj. apply elem_of_dom. rewrite Dh. by apply elem_of_dom, P11.
Qed.

Lemma is_block_delete s fr full a ar fr' p' h m b sz : inv s fr full → arenas s !! a = Some ar →
  (∀ j x, page_of x ≠ a → x ∈ fr' !!! j ↔ x ∈ fr !!! j) →
  is_block (mk_mstate p' (descs s) (delete a (arenas s)) h m) fr' b sz ↔ is_block s fr b sz ∧ b / 4096 * 4096 ≠ a.
Proof using.
  intros V Ha Hx.
  assert (Hiff : ∀ a' ar', a' ≠ a → arenas s !! a' = Some ar' → block_at fr' a' ar' b sz ↔ block_at fr a' ar' b sz).
  { intros a' ar' Hne E.
    assert (Hp : ∀ fr0, block_at fr0 a' ar' b sz → page_of (Z.to_pos b) = a').
    { intros fr0 Hb. destruct (block_at_page _ _ _ _ _ _ _ _ V E Hb) as [Hp Ep]. unfold page_of. by rewrite Z2Pos.id. }
    split; intros Hb; pose proof (Hp _ Hb) as Hpg; unfold block_at in *; destruct (a_desc ar') as [j|]; try done;
      destruct Hb as (k & Hk & Eb & Esz & Hn); exists k; split_and!; try done; try lia;
      [rewrite <- Hx by congruence|rewrite Hx by congruence]; done. }
  split.
  - intros (a' & ar' & E & Hb). cbn in E. apply lookup_delete_Some in E as [Hne E]. rewrite Hiff in Hb by done.
    split; [by exists a', ar'|]. destruct (block_at_page _ _ _ _ _ _ _ _ V E Hb) as [_ <-]. congruence.
  - intros [(a' & ar' & E & Hb) Hne]. destruct (block_at_page _ _ _ _ _ _ _ _ V E Hb) as [_ Ep]. rewrite Ep in Hne.
    exists a', ar'. cbn. rewrite lookup_delete_ne by done. by rewrite Hiff.
Qed.

(** *** [free] *)
Definition set_bytes (m : mem) (s : mstate) : mstate := mk_mstate (pages s) (descs s) (arenas s) (links s) m.
Lemma on_mbytes_bind {A B} (f : cmd mem A) (k : A → cmd mstate B) s a m :
  f (bytes s) = Ret (a, m) → (on_bytes f ≫= k) s = k a (set_bytes m s).
Proof using. intros E. unfold mbind, cmd_bind, on_bytes. by rewrite E. Qed.

Lemma memset_ret m p v n : 0 < p → mapped m p n → memset p v n m = Ret (p, write m p (replicate n (u8 v))).
Proof using.
  clear. intros Hp Hm. unfold memset. rewrite ASSERT_bind by by apply nonnull_or_empty. by rewrite (bind_Ret _ _ _ _ _ (memset_run _ _ _ _ Hm)).
Qed.

Lemma arena_mapped s fr full a ar : inv s fr full → arenas s !! a = Some ar → mapped (bytes s) a (Z.to_nat (4096 * span ar)).
Proof using.
  intros V Ha va Hva. destruct (arena_range _ _ _ _ _ V Ha) as (Hal & Hl & Hu & Hsp & _). pose proof (aligned_div a Hal).
  apply (iv_bytes _ _ _ V), (arena_pool s fr full a ar _ V Ha).
  split; [apply Z.div_le_mono; lia|apply Z.div_lt_upper_bound; lia].
Qed.

Lemma palloc_free_arena s fr full a ar h : inv s fr full → arenas s !! a = Some ar →
  ∃ p', palloc_free a (span ar) (set_links h s) =
      Ret (tt, mk_mstate p' (descs s) (delete a (arenas s)) h (write (bytes s) a (replicate (Z.to_nat (4096 * span ar)) 0xcc))) ∧
    pools_ok p' ∧ pool_start (kernel_pool p') = pool_start (kernel_pool (pages s)) ∧
    pool_pages (kernel_pool p') = pool_pages (kernel_pool (pages s)) ∧
    (∀ pn, in_use false p' pn ↔ in_use false (pages s) pn ∧ ¬ (a / 4096 <= pn < a / 4096 + span ar)).
Proof using.
  intros V Ha. destruct (arena_range _ _ _ _ _ V Ha) as (Hal & Hl & Hu & Hsp & _). unfold PHYS_BASE in Hl.
  destruct (pages_given (pages s) a (span ar) (iv_pools _ _ _ V) Hal ltac:(lia) Hsp) as (p' & R & Hrest).
  { intros pn Hpn. apply (iv_used _ _ _ V). right. by exists a, ar. }
  exists p'. split; [|done]. unfold palloc_free. rewrite (on_pages_bind _ _ (set_links h s) _ _ R). change PGSIZE with 4096.
  erewrite on_mbytes_bind; [|apply memset_run; exact (arena_mapped s fr full a ar V Ha)]. done.
Qed.

Lemma heap_shrink s C fr b s' fr' :
  blocks_are s fr C →
  shape unlocked s' → inv s' fr' (λ _, False) → (∀ b' sz', is_block s' fr' b' sz' ↔ is_block s fr b' sz' ∧ b' ≠ b) →
  (∀ b' bs, b' ≠ b → C !! b' = Some bs → bytes_at (bytes s') b' bs) → heap_ok s' (delete b C).
Proof using.
  intros Hc Hs V Hbl Hbytes. split; [done|]. exists fr'. split_and!; [done| |].
  - intros b' sz'. rewrite Hbl, (Hc b' sz'). setoid_rewrite lookup_delete_Some. naive_solver.
  - intros b' bs [Hne E]%lookup_delete_Some. by apply Hbytes.
Qed.

Lemma block_of s C b bs fr : blocks_are s fr C →
  C !! b = Some bs → is_block s fr b (Z.of_nat (length bs)).
Proof using. intros Hc E. apply Hc. by exists bs. Qed.

Lemma free_big s C fr a ar bs :
  heap_ok s C → inv s fr (λ _, False) → blocks_are s fr C →
  (∀ b bs, C !! b = Some bs → bytes_at (bytes s) b bs) →
  C !! (a + ARENA_SIZE) = Some bs → arenas s !! a = Some ar → a_desc ar = None →
  ∃ s', free (a + ARENA_SIZE) s = Ret (tt, s') ∧ heap_ok s' (delete (a + ARENA_SIZE) C).
Proof using.
  intros [Hs _] V Hc Hbytes HC Ha Hd. pose proof (block_of _ _ _ _ _ Hc HC) as Hb.
  destruct (arena_range _ _ _ _ _ V Ha) as (Hal & Hl & Hu & Hsp & _). unfold PHYS_BASE in Hl.
  destruct (palloc_free_arena s fr _ a ar (links s) V Ha) as (p' & R & Hp & Es & Ep & Hus).
  replace (set_links (links s) s) with s in R by by destruct s.
  assert (Esp : span ar = free_cnt ar) by (unfold span; by rewrite Hd).
  unfold free. rewrite (proj2 (Z.eqb_neq (a + ARENA_SIZE) 0)) by (unfold ARENA_SIZE; lia).
  rewrite (bind_Ret _ _ _ _ _ (block_to_arena_big s fr _ a ar V Ha Hd)), (get_arena_bind _ _ _ _ Ha), Hd, <- Esp.
  eexists. split; [exact R|].
  assert (Hnode : ∀ j x, x ∈ fr !!! j → page_of x ≠ a).
  { intros j x Hx E. destruct (free_node _ _ _ _ _ V Hx) as (a' & ar' & k & Ha' & Hd' & _ & _ & Epg & _).
    assert (a' = a) as -> by congruence. congruence. }
  assert (Epa : (a + ARENA_SIZE) / 4096 * 4096 = a).
  { destruct (in_page a ARENA_SIZE Hal ltac:(unfold ARENA_SIZE; lia)) as [-> _]. pose proof (aligned_div a Hal). lia. }
  assert (Hbl : ∀ b sz, is_block s fr b sz ∧ b / 4096 * 4096 ≠ a ↔ is_block s fr b sz ∧ b ≠ a + ARENA_SIZE).
  { intros b sz. split; intros [H1 H2]; (split; [done|]); [congruence|]. intros E. apply H2.
    pose proof (is_block_at _ _ _ _ _ _ _ _ V H1 Ha E) as Hat. unfold block_at in Hat. rewrite Hd in Hat. by destruct Hat. }
  apply (heap_shrink s C fr _ _ fr); [done|done| | |].
  - apply (inv_delete s fr (λ _, False) a ar); try done; try apply (iv_len _ _ _ V); try apply (iv_fam _ _ _ V);
      [by intros ? _ []| |by intros j x Hx; split; [|by apply (Hnode j)]].
    apply write_dom. rewrite length_replicate. by eapply arena_mapped.
  - intros b sz. rewrite (is_block_delete s fr (λ _, False) a ar); [|done|done|]; [apply Hbl|done].
  - intros b cs Hne HCb. apply bytes_at_write_out; [|by apply Hbytes]. rewrite length_replicate.
    pose proof (block_of _ _ _ _ _ Hc HCb) as Hb'. destruct (proj2 (Hbl b _) (conj Hb' Hne)) as [_ Hpg].
    destruct (block_outside _ _ _ _ _ _ _ V Hb' Ha Hpg); lia.
Qed.

(** The state of [free] once the block is back on its list. *)
Definition freed (s : mstate) (i : nat) (a p : Z) (ar : arena) (h : heap) : mstate :=
  mk_mstate (pages s) (std_desc (locked i) <$> seq 0 7) (<[a := mk_arena (magic ar) (Some i) (free_cnt ar + 1)]> (arenas s)) h
    (write (bytes s) p (replicate (Z.to_nat (bsize i)) 0xcc)).

Lemma freed_inv s fr a ar i k sz h :
  let p := blk a i k in
  inv s fr (λ _, False) → arenas s !! a = Some ar → a_desc ar = Some i → 0 <= k < bpa i → is_block s fr p sz →
  family h (zip lists (<[i := Z.to_pos p :: fr !!! i]> fr)) → dom h = dom (links s) →
  inv (freed s i a p ar h) (<[i := Z.to_pos p :: fr !!! i]> fr) (λ a', a' = a ∧ bpa i <= free_cnt ar + 1) ∧
  (∀ b sz', is_block (freed s i a p ar h) (<[i := Z.to_pos p :: fr !!! i]> fr) b sz' ↔ is_block s fr b sz' ∧ b ≠ p) ∧
  free_cnt ar + 1 <= bpa i.
Proof using.
  intros p V Ha Hd Hk Hb HF Dh. destruct (small_facts _ _ _ _ _ _ V Ha Hd) as (Hal & H1 & H2 & _ & Hi & Hm & Hcnt & _).
  unfold PHYS_BASE in H1. assert (Hil : (i < length fr)%nat) by (rewrite (iv_len _ _ _ V); lia).
  assert (Hpg : page_of (Z.to_pos p) = a) by (apply page_of_blk; try done; lia).
  assert (Hc : free_cnt ar + 1 = count_at a (Z.to_pos p :: fr !!! i)) by (rewrite count_at_cons, decide_True by done; lia).
  assert (Hf : fr !! i = Some (fr !!! i)) by by apply list_lookup_lookup_total_lt.
  assert (Hlt : free_cnt ar < bpa i) by (destruct (iv_arena _ _ _ V a ar Ha) as (_ & _ & Hk'); rewrite Hd in Hk'; destruct Hk' as (_ & _ & [[]|?]); done).
  destruct (block_mapped _ _ _ _ _ _ V Hb) as (Hmap & _). pose proof (is_block_at _ _ _ _ _ _ _ _ V Hb Ha) as Hat.
  assert (Esz : sz = bsize i).
  { specialize (Hat (proj1 (blk_page a i Hal ltac:(lia) Hi k Hk))). unfold block_at in Hat. rewrite Hd in Hat. by destruct Hat as (? & _ & _ & -> & _). }
  split_and!; [|intros b sz'|lia].
  - assert (V' : inv (set_state s (<[a := mk_arena (magic ar) (Some i) (free_cnt ar + 1)]> (arenas s)) h
      (write (bytes s) p (replicate (Z.to_nat (bsize i)) 0xcc))) (<[i := Z.to_pos p :: fr !!! i]> fr)
      (λ a', a' = a ∧ bpa i <= free_cnt ar + 1)); [|by destruct V'].
    eapply inv_update; [exact V|exact Ha|exact Hd|exact Hf|exact HF|exact Dh| | |exact Hc| | |done].
    + apply write_dom. rewrite length_replicate. by rewrite <- Esz.
    + intros x [->|Hx]%elem_of_cons; [right; by exists k|by left].
    + intros a' Hne. rewrite count_at_cons, decide_False by congruence. lia.
    + destruct (decide (bpa i <= free_cnt ar + 1)); [by left|right; lia].
  - unfold p. rewrite <- (is_block_push s fr _ i a ar k b sz' V Hil Ha Hd Hk).
    rewrite <- (is_block_update s _ a ar i (free_cnt ar + 1) h (write (bytes s) (blk a i k) (replicate (Z.to_nat (bsize i)) 0xcc)) b sz' Ha Hd). done.
Qed.

(** Taking all blocks of an arena off their list. *)
Lemma unlinked s fr full a ar i :
  inv s fr full → arenas s !! a = Some ar → a_desc ar = Some i →
  let ys := filter (λ x, x ∉ blocks a i 0 (Z.to_nat (bpa i))) (fr !!! i) in
  (∀ j x, x ∈ <[i := ys]> fr !!! j ↔ x ∈ fr !!! j ∧ page_of x ≠ a) ∧
  (∀ a' j, a' ≠ a → count_at a' (<[i := ys]> fr !!! j) = count_at a' (fr !!! j)).
Proof using.
  intros V Ha Hd ys. destruct (small_facts _ _ _ _ _ _ V Ha Hd) as (Hal & H1 & H2 & _ & Hi & _). unfold PHYS_BASE in H1.
  assert (Hil : (i < length fr)%nat) by (rewrite (iv_len _ _ _ V); lia).
  assert (Hon : ∀ j x, x ∈ fr !!! j → page_of x = a → j = i ∧ x ∈ blocks a i 0 (Z.to_nat (bpa i))).
  { intros j x Hx E. destruct (free_node _ _ _ _ _ V Hx) as (a' & ar' & k & Ha' & Hd' & Hk & Ex & Epg & _).
    assert (a' = a) as -> by congruence. assert (j = i) as -> by congruence. split; [done|]. apply elem_of_blocks. exists k.
    split; [lia|]. by rewrite <- Ex, Pos2Z.id. }
  assert (Hoff : ∀ x, x ∈ blocks a i 0 (Z.to_nat (bpa i)) → page_of x = a).
  { intros x Hx. destruct (geometry i Hi) as (_ & G2 & _). eapply (blocks_page a i); [done|lia|done| | |exact Hx]; lia. }
  split.
  - intros j x. rewrite free_insert by done. destruct (decide (j = i)) as [->|Hne].
    + unfold ys. rewrite list_elem_of_filter. split; intros [E1 E2].
      * split; [done|]. intros E. apply E1. by destruct (Hon i x E2 E).
      * split; [|done]. intros Hx. by apply E2, Hoff.
    + split; [|tauto]. intros Hx. split; [done|]. intros E. by destruct (Hon j x Hx E).
  - intros a' j Hne. rewrite free_insert by done. destruct (decide (j = i)) as [->|]; [|done].
    unfold count_at, ys. do 2 f_equal. rewrite list_filter_filter. apply list_filter_iff. intros x. split; [tauto|].
    intros E. split; [done|]. intros Hx. apply Hoff in Hx. congruence.
Qed.

(** [free] up to the test whether the arena is unused. *)
Lemma free_pushed s fr a ar i k sz :
  shape unlocked s → inv s fr (λ _, False) → is_block s fr (blk a i k) sz →
  arenas s !! a = Some ar → a_desc ar = Some i → 0 <= k < bpa i →
  ∃ h, free (blk a i k) s = ((if bpa i <=? free_cnt ar + 1 then
         ASSERT (free_cnt ar + 1 =? bpa i);; unlink_loop (Z.to_nat (bpa i)) a 0;; palloc_free a 1
       else mret tt);; desc_release i) (freed s i a (blk a i k) ar h) ∧ sz = bsize i ∧
    family h (zip lists (<[i := Z.to_pos (blk a i k) :: fr !!! i]> fr)) ∧ dom h = dom (links s).
Proof using.
  intros Hs V Hb Ha Hd Hk. destruct (small_facts _ _ _ _ _ _ V Ha Hd) as (Hal & H1 & H2 & H3 & Hi & Hm & Hcnt & Hpool).
  unfold PHYS_BASE in H1. destruct (geometry i Hi) as (_ & G2 & _). pose proof (blk_bounds a i Hi k Hk) as Hbb.
  destruct (blk_page a i Hal ltac:(lia) Hi k Hk) as (Epg & _ & Hp0).
  pose proof (is_block_at _ _ _ _ _ _ _ _ V Hb Ha Epg) as Hat. unfold block_at in Hat. rewrite Hd in Hat.
  destruct Hat as (_ & _ & _ & -> & Hnot). destruct (block_mapped _ _ _ _ _ _ V Hb) as (Hmap & Hsz & _).
  assert (Hil : (i < length fr)%nat) by (rewrite (iv_len _ _ _ V); lia).
  assert (Hf : fr !! i = Some (fr !!! i)) by by apply list_lookup_lookup_total_lt.
  assert (Hle : 0 <= free_cnt ar < bpa i).
  { destruct (iv_arena _ _ _ V a ar Ha) as (_ & _ & Hc). rewrite Hd in Hc. destruct Hc as (_ & E & [[]|?]). unfold count_at in E. lia. }
  destruct (zip_split lists fr i _ _ (lists_lookup i Hi) Hf) as (A & B & EF & EF'). pose proof (iv_fam _ _ _ V) as HF.
  assert (Hfresh : Z.to_pos (blk a i k) ∉ fnodes (zip lists fr)).
  { apply (node_fresh s fr (λ _, False) _ V); [lia|]. intros j Hj.
    destruct (free_node _ _ _ _ _ V Hj) as (a' & ar' & k' & Ha' & Hd' & Hk' & Ex & Ep & _). unfold page_of in Ep.
    rewrite Z2Pos.id, Epg in Ep by done. subst a'. assert (j = i) as -> by congruence. done. }
  rewrite EF in HF, Hfresh.
  destruct (family_push_front (links s) A (desc_list base i) B _ _ HF Hfresh) as (h & Rh & Fh & [Dh _]).
  { by apply (block_elem s fr (λ _, False) _ _ _ V). }
  rewrite <- EF' in Fh. exists h. split_and!; [|done..]. unfold free. rewrite (proj2 (Z.eqb_neq (blk a i k) 0)) by lia.
  rewrite (bind_Ret _ _ _ _ _ (block_to_arena_small unlocked s a ar i k Hs Ha Hm Hd Hi Hal ltac:(lia) H2 Hk)).
  rewrite (get_arena_bind _ _ _ _ Ha), Hd, (get_desc_bind _ _ _ _ Hs Hi). cbn [block_size std_desc blocks_per_arena free_list].
  rewrite (on_mbytes_bind _ _ _ _ _ (memset_ret _ _ 0xcc _ Hp0 Hmap)).
  rewrite (bind_Ret _ _ _ _ _ (acquire_run (set_bytes _ s) i Hs Hi)).
  rewrite (on_links_bind _ _ (set_descs _ (set_bytes _ s)) _ _ Rh). unfold put_arena. rewrite modify_bind.
  rewrite u32_small by lia. rewrite (get_arena_bind _ _ (mk_arena (magic ar) (Some i) (free_cnt ar + 1))) by apply lookup_insert_eq.
  reflexivity.
Qed.

(** An arena all of whose blocks are free goes back to the page allocator. *)
Lemma arena_released s fr full a ar i :
  shape (locked i) s → inv s fr full → (∀ a', a' ≠ a → ¬ full a') → arenas s !! a = Some ar → a_desc ar = Some i → bpa i <= free_cnt ar →
  ∃ s' fr', (ASSERT (free_cnt ar =? bpa i);; unlink_loop (Z.to_nat (bpa i)) a 0;; palloc_free a 1) s = Ret (tt, s') ∧
    shape (locked i) s' ∧ inv s' fr' (λ _, False) ∧ (∀ b sz, is_block s' fr' b sz ↔ is_block s fr b sz) ∧
    (∀ b cs, is_block s fr b (Z.of_nat (length cs)) → bytes_at (bytes s) b cs → bytes_at (bytes s') b cs).
Proof using.
  intros Hs V Hfu Ha Hd Hc. destruct (small_facts _ _ _ _ _ _ V Ha Hd) as (Hal & H1 & H2 & H3 & Hi & Hm & Hcnt & Hpool).
  unfold PHYS_BASE in H1. destruct (geometry i Hi) as (_ & G2 & _).
  destruct (count_at_bound a i (fr !!! i) Hal ltac:(lia) Hi (free_NoDup _ _ _ i V)) as (Hle & Hall & _).
  { intros y Hy Hpy. destruct (free_node _ _ _ _ _ V Hy) as (a' & ar' & k' & Ha' & Hd' & Hk' & Ey & Epy & _).
    apply elem_of_blocks. exists k'. split; [lia|]. assert (a' = a) as -> by congruence. by rewrite <- Ey, Pos2Z.id. }
  specialize (Hall ltac:(lia)). rewrite ASSERT_bind by (apply Z.eqb_eq; lia).
  assert (Hil : (i < length fr)%nat) by (rewrite (iv_len _ _ _ V); lia).
  assert (Hf : fr !! i = Some (fr !!! i)) by by apply list_lookup_lookup_total_lt.
  destruct (zip_split lists fr i _ _ (lists_lookup i Hi) Hf) as (A & B & EF & EF'). pose proof (iv_fam _ _ _ V) as HF. rewrite EF in HF.
  destruct (unlink_run (locked i) a ar i A B Hm Hd Hi Hal ltac:(lia) H2 (Z.to_nat (bpa i)) 0 _ _ s Hs Ha ltac:(lia) ltac:(lia) HF Hall)
    as (h & R & Fh & Dh). rewrite <- EF' in Fh. rewrite (bind_Ret _ _ _ _ _ R).
  assert (Esp : span ar = 1) by (unfold span; by rewrite Hd).
  destruct (palloc_free_arena s fr full a ar h V Ha) as (p' & Rp & Hp & Es & Ep & Hus). rewrite Esp in Rp.
  destruct (unlinked s fr full a ar i V Ha Hd) as [Hmem Hcount].
  assert (Hoff : ∀ b sz, is_block s fr b sz → b / 4096 * 4096 ≠ a).
  { intros b sz Hb E. pose proof (is_block_at _ _ _ _ _ _ _ _ V Hb Ha E) as Hat. unfold block_at in Hat. rewrite Hd in Hat.
    destruct Hat as (k & Hk & -> & _ & Hn). apply Hn, Hall, elem_of_blocks. exists k. split; [lia|done]. }
  eexists _, _. split; [exact Rp|]. split_and!; [exact Hs| | |].
  - apply (inv_delete s fr full a ar); try done; [by rewrite length_insert; apply (iv_len _ _ _ V)| |intros j x; by apply Hmem].
    apply write_dom. rewrite length_replicate. rewrite <- Esp. by eapply arena_mapped.
  - intros b sz. rewrite (is_block_delete s fr full a ar); [|done|done|]; [|intros j x Hx; rewrite Hmem; tauto].
    split; [tauto|]. intros Hb. split; [done|by apply (Hoff b sz)].
  - intros b cs Hb Hbs. apply bytes_at_write_out; [|done]. rewrite length_replicate.
    destruct (block_outside _ _ _ _ _ _ _ V Hb Ha (Hoff _ _ Hb)); rewrite Esp in *; lia.
Qed.

Lemma inv_strict s fr full : inv s fr full → (∀ a, ¬ full a) → inv s fr (λ _, False).
Proof using.
  intros [P1 P2 P3 P4 P5 P6 P7 P8 P9 P10 P11] Hno. split; try done. intros a ar Ha. destruct (P5 a ar Ha) as (M1 & M2 & M3).
  split_and!; [done..|]. destruct (a_desc ar); [|done]. destruct M3 as (? & ? & [Hf|?]); [by apply Hno in Hf|]. split_and!; [done..|by right].
Qed.

Lemma free_small s C fr a ar i k bs :
  heap_ok s C → inv s fr (λ _, False) → blocks_are s fr C → (∀ b bs, C !! b = Some bs → bytes_at (bytes s) b bs) →
  C !! blk a i k = Some bs → arenas s !! a = Some ar → a_desc ar = Some i → 0 <= k < bpa i →
  ∃ s', free (blk a i k) s = Ret (tt, s') ∧ heap_ok s' (delete (blk a i k) C).
Proof using.
  intros [Hs _] V Hc Hbytes HC Ha Hd Hk. pose proof (block_of _ _ _ _ _ Hc HC) as Hb.
  destruct (small_facts _ _ _ _ _ _ V Ha Hd) as (_ & _ & _ & _ & Hi & _).
  destruct (free_pushed s fr a ar i k _ Hs V Hb Ha Hd Hk) as (h & Hrun & Hlen & Fh & Dh).
  destruct (freed_inv s fr a ar i k _ h V Ha Hd Hk Hb Fh Dh) as (V2 & Hbl2 & Hle).
  set (p := blk a i k) in *. set (s2 := freed s i a p ar h) in *. set (fr2 := <[i := Z.to_pos p :: fr !!! i]> fr) in *.
  assert (Hb2 : ∀ b cs, b ≠ p → C !! b = Some cs → bytes_at (bytes s2) b cs).
  { intros b cs Hne HCb. apply bytes_at_write_out; [|by apply Hbytes]. rewrite length_replicate.
    destruct (blocks_apart _ _ _ _ _ _ _ V (block_of _ _ _ _ _ Hc HCb) Hb Hne); lia. }
  rewrite Hrun. destruct (Z.leb_spec (bpa i) (free_cnt ar + 1)) as [Hfull|Hnf].
  - destruct (arena_released s2 fr2 _ a (mk_arena (magic ar) (Some i) (free_cnt ar + 1)) i eq_refl V2)
      as (s3 & fr3 & R & Hs3 & V3 & Hbl3 & Hb3); [naive_solver|apply lookup_insert_eq|done|done|].
    cbn [free_cnt] in R. rewrite (bind_Ret _ _ _ _ _ R), (release_run s3 i Hs3 Hi). eexists. split; [done|].
    apply (heap_shrink s C fr p _ fr3); [done|done|by apply shape_inv|intros b sz; rewrite <- Hbl2, <- Hbl3; done|].
    intros b cs Hne HCb. apply Hb3; [|by apply Hb2]. apply Hbl2. split; [by apply (block_of _ _ _ _ _ Hc)|done].
  - rewrite ret_bind, (release_run s2 i eq_refl Hi). eexists. split; [done|].
    apply (heap_shrink s C fr p _ fr2); [done|done| |exact Hbl2|exact Hb2].
    apply shape_inv, (inv_strict _ _ _ V2). intros a' [_ ?]. lia.
Qed.

Lemma free_run s C b bs : heap_ok s C → C !! b = Some bs → ∃ s', free b s = Ret (tt, s') ∧ heap_ok s' (delete b C).
Proof using.
  intros Hok HC. pose proof Hok as (Hs & fr & V & Hc & Hbytes). pose proof (block_of _ _ _ _ _ Hc HC) as (a & ar & Ha & Hb).
  unfold block_at in Hb. destruct (a_desc ar) as [i|] eqn:Hd.
  - destruct Hb as (k & Hk & -> & _). by apply (free_small s C fr a ar i k bs).
  - destruct Hb as [-> _]. by apply (free_big s C fr a ar bs).
Qed.
End release.
