(* ===== verification/MallocTheorems.v ===== *)
(** * The block allocator seen by its clients

    A client allocates, resizes, frees and writes inside its blocks.  Whatever
    it does, the allocator behaves like a finite map from block addresses to
    contents: blocks never overlap, nobody else's bytes change, and pages go
    back when the last block in them is freed. *)
From S2P Require Import Prelude Bitmap Vaddr Palloc KList KListFamily KString KStringSpec Malloc MallocSpec MallocFree.
Open Scope Z_scope.

Section clients.
Context (base : Z) (other : Z → Prop).
Abbreviation inv := (inv base other).
Abbreviation heap_ok := (heap_ok base other).

(** ** Start-up *)
(** Memory before [malloc_init]: the pages in use belong to others. *)
Record fresh (s : mstate) : Prop := {
  fh_pools : pools_ok (pages s);
  fh_descs : descs s = [];
  fh_arenas : arenas s = ∅;
  fh_used : ∀ pn, in_use false (pages s) pn ↔ other pn;
  fh_base : 0 < base ∧ base + 480 <= 4096 * pool_start (kernel_pool (pages s));
  fh_sentinels : ∀ i, (i < 7)%nat → is_Some (links s !! head (desc_list base i)) ∧ is_Some (links s !! tail (desc_list base i));
  fh_bytes : ∀ va, in_pool (kernel_pool (pages s)) (va / 4096) → is_Some (bytes s !! va);
  fh_elems : ∀ pn j, in_pool (kernel_pool (pages s)) pn → 0 <= j < 255 → is_Some (links s !! Z.to_pos (4096 * pn + 12 + 16 * j)) }.

Lemma sentinel_ne i j : 0 < base → i ≠ j →
  head (desc_list base i) ≠ tail (desc_list base i) ∧ head (desc_list base i) ≠ head (desc_list base j) ∧
  head (desc_list base i) ≠ tail (desc_list base j) ∧ tail (desc_list base i) ≠ head (desc_list base j) ∧
  tail (desc_list base i) ≠ tail (desc_list base j).
Proof using. clear. intros Hb Hne. unfold desc_list. cbn [head tail]. split_and!; intros E; apply (f_equal Z.pos) in E; rewrite !Z2Pos.id in E; lia. Qed.

Lemma init_loop_run n i fuel s :
  (i + n = 7)%nat → (n <= fuel)%nat → 0 < base → descs s = std_desc base unlocked <$> seq 0 i →
  family (links s) (empties (desc_list base <$> seq 0 i)) →
  (∀ j, (j < 7)%nat → is_Some (links s !! head (desc_list base j)) ∧ is_Some (links s !! tail (desc_list base j))) →
  ∃ h, malloc_init_loop base fuel (bsize i) s = Ret (tt, mk_mstate (pages s) (std_desc base unlocked <$> seq 0 7) (arenas s) h (bytes s)) ∧
    family h (empties (lists base)) ∧ dom h = dom (links s).
Proof using.
  clear other. revert i fuel s. induction n as [|n IH]; intros i fuel s Hi Hf Hb Hd HF Hs.
  - assert (i = 7%nat) as -> by lia. exists (links s). rewrite <- Hd. destruct fuel; cbn; by destruct s.
  - destruct fuel as [|fuel]; [lia|]. destruct (geometry i ltac:(lia)) as (G1 & _). cbn [malloc_init_loop].
    rewrite (proj2 (Z.ltb_lt _ _)) by (change (PGSIZE / 2) with 2048; lia).
    rewrite gets_bind, Hd, length_fmap, length_seq, ASSERT_bind by (apply Nat.leb_le; lia).
    destruct (Hs i ltac:(lia)) as [Hs1 Hs2]. destruct (sentinel_ne i (S i) Hb ltac:(lia)) as (Hne & _).
    destruct (list_init_run (links s) (desc_list base i) Hs1 Hs2 Hne) as (h1 & R1 & L1 & F1).
    rewrite (on_links_bind _ _ _ _ _ R1), modify_bind.
    assert (Esz : u32 (bsize i * 2) = bsize (S i)).
    { unfold bsize in *. rewrite Nat2Z.inj_succ, Z.pow_succ_r, u32_small by lia. lia. }
    rewrite Esz. destruct (IH (S i) fuel (set_descs (std_desc base unlocked <$> seq 0 (S i)) (set_links h1 s))) as (h & R & F & D); try done; try lia.
    + cbn [links set_descs set_links]. rewrite seq_S, fmap_app. unfold empties. rewrite fmap_app. cbn.
      rewrite (family_middle h1 _ (desc_list base i) [] []), family_cons, app_nil_r.
      assert (Hdis : ∀ x, x ∈ fnodes (empties (desc_list base <$> seq 0 i)) → x ∉ [head (desc_list base i); tail (desc_list base i)]).
      { intros x. rewrite fnodes_empties. unfold sentinels. intros Hx. apply list_elem_of_bind in Hx as (l & Hx & Hl).
        apply list_elem_of_fmap in Hl as (j & -> & Hj). apply elem_of_seq in Hj.
        destruct (sentinel_ne i j Hb ltac:(lia)) as (_ & N1 & N2 & N3 & N4). set_solver. }
      split_and!; [done|by eapply family_frame|]. intros x Hx Hx'. apply (Hdis x Hx'). unfold nodes in Hx. done.
    + intros j Hj. destruct F1 as [D1 _]. cbn. rewrite <- !elem_of_dom, D1, !elem_of_dom. by apply Hs.
    + exists h. split_and!; [|done|]; [|cbn in D; destruct F1; congruence]. refine (eq_trans _ R). unfold set_descs.
      cbn [pages arenas links bytes set_links descs]. f_equal. f_equal. rewrite Hd, (seq_S i), fmap_app. done.
Qed.

Lemma malloc_init_run s : fresh s → ∃ s', malloc_init base s = Ret (tt, s') ∧ heap_ok s' ∅ ∧ pages s' = pages s ∧ bytes s' = bytes s.
Proof using.
  intros [F1 F2 F3 F4 F5 F6 F7 F8].
  destruct (init_loop_run 7 0 32 s eq_refl ltac:(lia) (proj1 F5) F2) as (h & R & HF & D); [split; [constructor|constructor]|done|].
  eexists. split; [exact R|]. split_and!; [|done..]. split; [done|]. exists (replicate 7 []).
  assert (Hnil : ∀ i, replicate 7 ([] : list loc) !!! i = []).
  { intros i. destruct (decide (i < 7)%nat); [by rewrite lookup_total_replicate_2|].
    rewrite list_lookup_total_alt, (lookup_ge_None_2 (replicate 7 []) i) by (rewrite length_replicate; lia). done. }
  assert (Hcov : ∀ pn, ¬ covered (mk_mstate (pages s) (std_desc base unlocked <$> seq 0 7) (arenas s) h (bytes s)) pn).
  { intros pn (a & ar & E & _). cbn in E. by rewrite F3 in E. }
  split_and!.
  - split; cbn [pages arenas links bytes]; try done.
    + intros i x. rewrite Hnil, elem_of_nil. done.
    + intros a ar. by rewrite F3.
    + intros a ar a' ar' pn. by rewrite F3.
    + intros pn. rewrite F4. split; [by left|]. intros [?|Hc]; [done|by apply Hcov in Hc].
    + intros pn j Hpn Hj. apply elem_of_dom. rewrite D. by apply elem_of_dom, F8.
  - intros b sz. split; [intros (a & ar & E & _); cbn in E; by rewrite F3 in E|by intros (bs & E & _)].
  - by intros b bs E.
Qed.

(** ** Writing inside a block *)
Lemma bytes_at_splice m p bs o ds : (o + length ds <= length bs)%nat → bytes_at m p bs →
  bytes_at (write m (p + Z.of_nat o) ds) p (splice o ds bs).
Proof using.
  clear. intros Hl Hb. rewrite <- (take_drop o bs) in Hb. apply bytes_at_app in Hb as [Hb1 Hb2].
  rewrite <- (take_drop (length ds) (drop o bs)) in Hb2. apply bytes_at_app in Hb2 as [_ Hb3]. rewrite drop_drop in Hb3.
  rewrite !length_take, length_drop in Hb3. unfold splice. rewrite !bytes_at_app, length_take. split_and!.
  - apply bytes_at_write_out; [|done]. rewrite length_take. lia.
  - replace (o `min` length bs)%nat with o by lia. apply bytes_at_write.
  - apply bytes_at_write_out; [rewrite length_drop; lia|].
    replace (p + Z.of_nat (o `min` length bs) + Z.of_nat (length ds))
      with (p + Z.of_nat (o `min` length bs) + Z.of_nat (length ds `min` (length bs - o))) by lia. done.
Qed.

Lemma heap_write s C b bs o ds : heap_ok s C → C !! b = Some bs → (o + length ds <= length bs)%nat →
  mapped (bytes s) (b + Z.of_nat o) (length ds) ∧ 0 < b ∧
  heap_ok (set_bytes (write (bytes s) (b + Z.of_nat o) ds) s) (<[b := splice o ds bs]> C).
Proof using.
  intros (Hs & fr & V & Hc & Hbytes) HC Hl. pose proof (block_of _ _ _ _ _ Hc HC) as Hb.
  destruct (block_mapped _ _ _ _ _ _ V Hb) as (Hm & _ & Hp & _). rewrite Nat2Z.id in Hm.
  assert (Hm' : mapped (bytes s) (b + Z.of_nat o) (length ds)) by (intros x Hx; apply Hm; lia).
  split_and!; [done|done|]. split; [done|]. exists fr. split_and!.
  - destruct V as [P1 P2 P3 P4 P5 P6 P7 P8 P9 P10 P11]. split; try done. intros va Hva. apply elem_of_dom. cbn.
    rewrite write_dom by done. by apply elem_of_dom, P10.
  - intros b' sz'. transitivity (is_block s fr b' sz'); [done|]. rewrite (Hc b' sz'). destruct (decide (b' = b)) as [->|Hne].
    + rewrite lookup_insert_eq, HC. split; intros (cs & [= <-] & <-); eexists; (split; [done|]); by rewrite length_splice.
    + by rewrite lookup_insert_ne.
  - intros b' cs. cbn. destruct (decide (b' = b)) as [->|Hne].
    + rewrite lookup_insert_eq. intros [= <-]. apply bytes_at_splice; [done|by apply Hbytes].
    + rewrite lookup_insert_ne by done. intros HC'. apply bytes_at_write_out; [|by apply Hbytes].
      destruct (blocks_apart _ _ _ _ _ _ _ V (block_of _ _ _ _ _ Hc HC') Hb Hne); lia.
Qed.

(** ** [calloc] and [realloc] *)
Lemma calloc_run s C x y : heap_ok s C → 0 <= x → 0 <= y → x * y <= 2 ^ 32 - 4108 →
  ∃ b s', calloc x y s = Ret (b, s') ∧
    ((b = 0 ∧ heap_ok s' C) ∨
     (b ≠ 0 ∧ C !! b = None ∧ ∃ bs, x * y <= Z.of_nat (length bs) ∧
        take (Z.to_nat (x * y)) bs = replicate (Z.to_nat (x * y)) 0 ∧ heap_ok s' (<[b := bs]> C))).
Proof using.
  intros Hok Hx Hy Hxy. unfold calloc. rewrite u32_small by lia.
  destruct ((x * y <? x) || (x * y <? y)); [exists 0, s; by split; [|left]|].
  destruct (malloc_call_run s C (x * y) Hok ltac:(lia)) as (b & s1 & R & [[(-> & Hok1 & _)|(Hne & Hn & bs & Hl & Hok1)] _]);
    rewrite (bind_Ret _ _ _ _ _ R).
  - rewrite Z.eqb_refl. cbn [negb]. rewrite ret_bind. exists 0, s1. by split; [|left].
  - rewrite (proj2 (Z.eqb_neq b 0)) by done. cbn [negb]. set (n := Z.to_nat (x * y)).
    destruct (heap_write s1 _ b bs 0 (replicate n 0) Hok1) as (Hm & Hp & Hok2); [apply lookup_insert_eq|rewrite length_replicate; lia|].
    rewrite Z.add_0_r, length_replicate in Hm. rewrite Z.add_0_r, insert_insert_eq in Hok2.
    rewrite bind_assoc, (on_mbytes_bind _ _ _ _ _ (memset_ret _ _ 0 n Hp Hm)), ret_bind. cbn [u8].
    eexists b, _. split; [done|]. right. split_and!; [done|done|]. exists (splice 0 (replicate n 0) bs).
    rewrite length_splice by (rewrite length_replicate; lia). split_and!; [done| |done].
    unfold splice. rewrite take_0, app_nil_l, take_app_length'; [done|by rewrite length_replicate].
Qed.

Lemma block_size_run s C b bs : heap_ok s C → C !! b = Some bs → block_size_of b s = Ret (Z.of_nat (length bs), s).
Proof using.
  intros (Hs & fr & V & Hc & _) HC. pose proof (block_of _ _ _ _ _ Hc HC) as Hb. destruct Hb as (a & ar & Ha & Hb).
  destruct (arena_range _ _ _ _ _ V Ha) as (Hal & H1 & H2 & H3 & _). unfold PHYS_BASE in H1.
  unfold block_at, block_size_of in *. destruct (a_desc ar) as [i|] eqn:Hd.
  - destruct Hb as (k & Hk & -> & -> & _). destruct (small_facts _ _ _ _ _ _ V Ha Hd) as (_ & _ & H4 & _ & Hi & Hm & _).
    rewrite (bind_Ret _ _ _ _ _ (block_to_arena_small _ s a ar i k Hs Ha Hm Hd Hi Hal ltac:(lia) H4 Hk)).
    by rewrite (get_arena_bind _ _ _ _ Ha), Hd, (get_desc_bind _ _ _ _ Hs Hi).
  - destruct Hb as [-> ->]. rewrite (bind_Ret _ _ _ _ _ (block_to_arena_big s fr _ a ar V Ha Hd)).
    rewrite (get_arena_bind _ _ _ _ Ha), Hd, pg_ofs_mod. destruct (in_page a ARENA_SIZE Hal ltac:(unfold ARENA_SIZE; lia)) as [_ ->].
    unfold mret, cmd_ret, span in *. rewrite Hd in *. change PGSIZE with 4096. by rewrite u32_small by (unfold ARENA_SIZE; lia).
Qed.

Lemma realloc_run s C p old n : heap_ok s C → 0 < n <= 2 ^ 32 - 4108 → C !! p = Some old →
  ∃ b s', realloc p n s = Ret (b, s') ∧
    ((b = 0 ∧ heap_ok s' C) ∨
     (b ≠ 0 ∧ C !! b = None ∧ ∃ bs, n <= Z.of_nat (length bs) ∧
        take (Z.to_nat n) (take (length old) bs) = take (Z.to_nat n) old ∧ heap_ok s' (<[b := bs]> (delete p C)))).
Proof using.
  intros Hok Hn HC. unfold realloc. rewrite (proj2 (Z.eqb_neq n 0)) by lia.
  assert (Hp : p ≠ 0) by (destruct (heap_write s C p old 0 [] Hok HC ltac:(cbn; lia)) as (_ & ? & _); lia).
  destruct (malloc_call_run s C n Hok ltac:(lia)) as (b & s1 & R & [[(-> & Hok1 & _)|(Hne & Hnew & bs & Hl & Hok1)] _]);
    rewrite (bind_Ret _ _ _ _ _ R), (proj2 (Z.eqb_neq p 0)) by done.
  - rewrite Z.eqb_refl. cbn [negb andb]. rewrite ret_bind. exists 0, s1. by split; [|left].
  - rewrite (proj2 (Z.eqb_neq b 0)) by done. cbn [negb andb].
    assert (Hpb : p ≠ b) by congruence. assert (HC1 : <[b := bs]> C !! p = Some old) by by rewrite lookup_insert_ne.
    rewrite !bind_assoc, (bind_Ret _ _ _ _ _ (block_size_run _ _ _ _ Hok1 HC1)).
    set (k := Z.to_nat (if n <? Z.of_nat (length old) then n else Z.of_nat (length old))).
    assert (Hk : k = (Z.to_nat n `min` length old)%nat) by (unfold k; destruct (Z.ltb_spec n (Z.of_nat (length old))); lia).
    destruct (heap_write s1 _ b bs 0 (take k old) Hok1) as (Hm & Hp1 & Hok2); [apply lookup_insert_eq|rewrite length_take; lia|].
    rewrite Z.add_0_r in Hm. rewrite Z.add_0_r, insert_insert_eq in Hok2.
    pose proof Hok1 as (_ & fr & V & Hc & Hbytes).
    assert (Hcpy : memcpy b p k (bytes s1) = Ret (b, write (bytes s1) b (take k old))).
    { destruct (heap_write s1 _ p old 0 [] Hok1 HC1 ltac:(cbn; lia)) as (_ & Hpp & _). rewrite <- (length_take_le old k) at 1 by lia.
      pose proof (Hbytes p old HC1) as Hbo. rewrite <- (take_drop k old) in Hbo. apply bytes_at_app in Hbo as [Hbo _].
      apply memcpy_run; try done. rewrite length_take. 
      destruct (blocks_apart _ _ _ _ _ _ _ V (block_of _ _ _ _ _ Hc (lookup_insert_eq _ b bs)) (block_of _ _ _ _ _ Hc HC1)); [done|left|right]; lia. }
    rewrite bind_assoc, (on_mbytes_bind _ _ _ _ _ Hcpy).
    destruct (free_run _ _ p old Hok2) as (s3 & R3 & Hok3); [by rewrite lookup_insert_ne|].
    rewrite (bind_Ret _ _ _ _ _ R3). eexists b, s3. split; [done|]. right. split_and!; [done|done|]. exists (splice 0 (take k old) bs).
    rewrite length_splice by (rewrite length_take; lia). split_and!; [done| |by rewrite delete_insert_ne in Hok3].
    unfold splice. rewrite take_0, app_nil_l, take_take. 
    rewrite take_app_le by (rewrite length_take; lia). rewrite take_take. rewrite <- Hk, Nat.min_id. subst k.
    rewrite Hk. rewrite <- take_take. by rewrite (take_ge old) by lia.
Qed.

(** ** Operations of a client *)
Inductive mop : Set :=
  | M_malloc (n : Z)
  | M_calloc (x y : Z)
  | M_realloc (p n : Z)
  | M_free (p : Z)
  | M_store (p off v : Z).

(** The pointer returned, or 0. *)
Definition run_op (op : mop) : cmd mstate Z :=
  match op with
  | M_malloc n => malloc n
  | M_calloc x y => calloc x y
  | M_realloc p n => realloc p n
  | M_free p => free p;; mret 0
  | M_store p off v => on_bytes (store8 (p + off) v);; mret 0
  end.

(** Largest request whose size plus the header, rounded up, fits [size_t]. *)
Definition max_request : Z := 2 ^ 32 - 4108.

(** What a client may ask for, given its blocks. *)
Definition allowed (op : mop) (C : gmap Z (list Z)) : Prop :=
  match op with
  | M_malloc n => 0 <= n <= max_request
  | M_calloc x y => 0 <= x ∧ 0 <= y ∧ x * y <= max_request
  | M_realloc p n => (p = 0 ∨ is_Some (C !! p)) ∧ 0 <= n <= max_request
  | M_free p => p = 0 ∨ is_Some (C !! p)
  | M_store p off v => ∃ bs, C !! p = Some bs ∧ 0 <= off < Z.of_nat (length bs)
  end.

(** A new block of at least [n] bytes, beginning with [ds], or a null pointer. *)
Definition allocated (n : Z) (ds : list Z) (C0 C : gmap Z (list Z)) (r : Z) (C' : gmap Z (list Z)) : Prop :=
  (r = 0 ∧ C' = C0) ∨
  (r ≠ 0 ∧ C0 !! r = None ∧ ∃ bs, n <= Z.of_nat (length bs) ∧ take (length ds) bs = ds ∧ C' = <[r := bs]> C).

Definition astep (op : mop) (C : gmap Z (list Z)) (r : Z) (C' : gmap Z (list Z)) : Prop :=
  match op with
  | M_malloc n => allocated n [] C C r C'
  | M_calloc x y => allocated (x * y) (replicate (Z.to_nat (x * y)) 0) C C r C'
  | M_realloc p n =>
      if n =? 0 then r = 0 ∧ C' = delete p C
      else allocated n (take (Z.to_nat n) (default [] (C !! p))) C (delete p C) r C'
  | M_free p => r = 0 ∧ C' = delete p C
  | M_store p off v => r = 0 ∧ ∃ bs, C !! p = Some bs ∧ C' = <[p := <[Z.to_nat off := v]> bs]> C
  end.
End clients.

(** What the allocator promises: [R s C] relates memory to the client's blocks. *)
Class Allocator (init : cmd mstate unit) (good : mstate → Prop) (other : Z → Prop)
    (R : mstate → gmap Z (list Z) → Prop) : Prop := {
  al_init : ∀ s, good s → ∃ s', init s = Ret (tt, s') ∧ R s' ∅;
  al_step : ∀ s C op, R s C → allowed op C → ∃ r s' C', run_op op s = Ret (r, s') ∧ astep op C r C' ∧ R s' C';
  al_contents : ∀ s C b bs, R s C → C !! b = Some bs → 0 < b ∧ b + Z.of_nat (length bs) <= 2 ^ 32 ∧ bytes_at (bytes s) b bs;
  al_apart : ∀ s C b bs b' bs', R s C → C !! b = Some bs → C !! b' = Some bs' → b ≠ b' →
    b + Z.of_nat (length bs) <= b' ∨ b' + Z.of_nat (length bs') <= b;
  al_pages : ∀ s pn, R s ∅ → in_use false (pages s) pn ↔ other pn }.

Section implementation.
Context (base : Z) (other : Z → Prop).
Abbreviation heap_ok := (heap_ok base other).

Lemma heap_null s C : heap_ok s C → C !! 0 = None.
Proof using.
  intros (Hs & fr & V & Hc & _). destruct (C !! 0) as [bs|] eqn:E; [|done].
  destruct (block_mapped _ _ _ _ _ _ V (block_of _ _ _ _ _ Hc E)) as (_ & _ & ? & _). lia.
Qed.

Lemma free_step s C p : heap_ok s C → p = 0 ∨ is_Some (C !! p) → ∃ s', free p s = Ret (tt, s') ∧ heap_ok s' (delete p C).
Proof using.
  intros Hok [->|[bs HC]]; [|by apply (free_run s C p bs)]. exists s. split; [done|]. by rewrite delete_id by by apply (heap_null s).
Qed.

Lemma heap_step s C op : heap_ok s C → allowed op C → ∃ r s' C', run_op op s = Ret (r, s') ∧ astep op C r C' ∧ heap_ok s' C'.
Proof using.
  intros Hok Hal. destruct op as [n|x y|p n|p|p off v]; cbn [run_op allowed astep] in *; unfold max_request in *.
  - destruct (malloc_call_run s C n Hok Hal) as (b & s1 & R & [[(-> & Hok1 & _)|(Hne & Hn & bs & Hl & Hok1)] _]).
    + exists 0, s1, C. refine (conj eq_refl (conj _ Hok1)) || refine (conj R (conj _ Hok1)). by left.
    + exists b, s1, (<[b := bs]> C). refine (conj eq_refl (conj _ Hok1)) || refine (conj R (conj _ Hok1)). right. refine (conj Hne (conj Hn _)). exists bs. by rewrite take_0.
  - destruct Hal as (Hx & Hy & Hxy). destruct (calloc_run base other s C x y Hok Hx Hy Hxy) as (b & s1 & R & [(-> & Hok1)|(Hne & Hn & bs & Hl & Hz & Hok1)]).
    + exists 0, s1, C. refine (conj eq_refl (conj _ Hok1)) || refine (conj R (conj _ Hok1)). by left.
    + exists b, s1, (<[b := bs]> C). refine (conj eq_refl (conj _ Hok1)) || refine (conj R (conj _ Hok1)). right. refine (conj Hne (conj Hn _)). exists bs. by rewrite length_replicate.
  - destruct Hal as [Hp Hn]. destruct (Z.eqb_spec n 0) as [->|Hnz].
    + destruct (free_step s C p Hok Hp) as (s1 & R & Hok1). exists 0, s1, (delete p C).
      unfold realloc. cbn [Z.eqb]. by rewrite (bind_Ret _ _ _ _ _ R).
    + destruct Hp as [->|[old HC]].
      * destruct (malloc_call_run s C n Hok ltac:(lia)) as (b & s1 & R & [[(-> & Hok1 & _)|(Hne & Hn1 & bs & Hl & Hok1)] _]);
          unfold realloc; rewrite (proj2 (Z.eqb_neq n 0)), (bind_Ret _ _ _ _ _ R) by done; cbn [Z.eqb negb andb]; rewrite ret_bind.
        -- exists 0, s1, C. refine (conj eq_refl (conj _ Hok1)) || refine (conj R (conj _ Hok1)). by left.
        -- exists b, s1, (<[b := bs]> C). refine (conj eq_refl (conj _ Hok1)) || refine (conj R (conj _ Hok1)). right. refine (conj Hne (conj Hn1 _)). exists bs.
           rewrite (heap_null s C Hok), delete_id by by apply (heap_null s). cbn. by rewrite take_nil, take_0.
      * destruct (realloc_run base other s C p old n Hok ltac:(lia) HC) as (b & s1 & R & [(-> & Hok1)|(Hne & Hn1 & bs & Hl & Hz & Hok1)]).
        -- exists 0, s1, C. refine (conj eq_refl (conj _ Hok1)) || refine (conj R (conj _ Hok1)). by left.
        -- exists b, s1, (<[b := bs]> (delete p C)). refine (conj eq_refl (conj _ Hok1)) || refine (conj R (conj _ Hok1)). right. refine (conj Hne (conj Hn1 _)). exists bs. split_and!; [done| |done].
           rewrite HC. cbn. rewrite length_take, <- Hz, take_take. done.
  - destruct (free_step s C p Hok Hal) as (s1 & R & Hok1). exists 0, s1, (delete p C). by rewrite (bind_Ret _ _ _ _ _ R).
  - destruct Hal as (bs & HC & Hoff). set (o := Z.to_nat off).
    destruct (heap_write base other s C p bs o [v] Hok HC ltac:(cbn; lia)) as (Hm & Hp & Hok1).
    replace (p + Z.of_nat o) with (p + off) in * by lia. eexists 0, _, _. refine (conj _ (conj _ Hok1)).
    + by rewrite (on_mbytes_bind _ _ _ _ _ (store8_run _ _ _ (Hm (p + off) ltac:(cbn; lia)))).
    + split; [done|]. exists bs. split; [done|]. f_equal. unfold splice. cbn [length]. rewrite Nat.add_1_r.
      symmetry. apply insert_take_drop. lia.
Qed.

(** With no block in use no arena is left. *)
Lemma heap_empty s pn : heap_ok s ∅ → in_use false (pages s) pn ↔ other pn.
Proof using.
  intros (Hs & fr & V & Hc & _). rewrite (iv_used _ _ _ V). split; [|by left]. intros [?|(a & ar & Ha & _)]; [done|].
  exfalso. assert (Hno : ∀ b sz, ¬ is_block s fr b sz) by (intros b sz Hb; apply (Hc b sz) in Hb as (bs & E & _); done).
  destruct (arena_range _ _ _ _ _ V Ha) as (Hal & H1 & _). unfold PHYS_BASE in H1.
  destruct (a_desc ar) as [i|] eqn:Hd.
  - destruct (small_facts _ _ _ _ _ _ V Ha Hd) as (_ & _ & _ & _ & Hi & _ & Hcnt & _).
    destruct (count_at_bound a i (fr !!! i) Hal ltac:(lia) Hi (free_NoDup _ _ _ i V)) as (_ & _ & Hout).
    { intros y Hy Hpy. destruct (free_node _ _ _ _ _ V Hy) as (a' & ar' & k' & Ha' & Hd' & Hk' & Ey & Epy & _).
      apply elem_of_blocks. exists k'. split; [lia|]. assert (a' = a) as -> by congruence. by rewrite <- Ey, Pos2Z.id. }
    destruct (iv_arena _ _ _ V a ar Ha) as (_ & _ & Hk). rewrite Hd in Hk. destruct Hk as (_ & _ & [[]|Hlt]).
    destruct Hout as (k & Hk & Hn); [lia|]. apply (Hno (blk a i k) (bsize i)). exists a, ar. split; [done|]. unfold block_at. rewrite Hd.
    exists k. by split_and!; try lia.
  - apply (Hno (a + ARENA_SIZE) (4096 * free_cnt ar - ARENA_SIZE)). exists a, ar. split; [done|]. unfold block_at. by rewrite Hd.
Qed.

#[export] Instance malloc_allocator : Allocator (malloc_init base) (fresh base other) other heap_ok.
Proof using.
  split.
  - intros s Hf. destruct (malloc_init_run base other s Hf) as (s' & R & Hok & _). by exists s'.
  - apply heap_step.
  - intros s C b bs (_ & fr & V & Hc & Hbytes) HC. destruct (block_mapped _ _ _ _ _ _ V (block_of _ _ _ _ _ Hc HC)) as (_ & _ & H1 & H2).
    split_and!; [done|done|by apply Hbytes].
  - intros s C b bs b' bs' (_ & fr & V & Hc & _) HC HC'. eapply blocks_apart; [done|by apply (block_of _ C)..].
  - apply heap_empty.
Qed.
End implementation.
