(* ===== verification/MallocClient.v ===== *)
(** * Programs that use the block allocator

    A client picks its next operation from the results of the earlier ones.
    The first theorem is proved from the promises of class [Allocator] alone. *)
From S2P Require Import Prelude Bitmap Vaddr Palloc KList KListFamily KString KStringSpec Malloc MallocSpec MallocFree MallocTheorems.
Open Scope Z_scope.

(** ** Runs *)
Section runs.
Context (strat : list Z → mop).

(** [n] more operations after the results [rs]. *)
Fixpoint run_client (n : nat) (rs : list Z) : cmd mstate (list Z) :=
  match n with
  | O => mret rs
  | S n => r ← run_op (strat rs); run_client n (rs ++ [r])
  end.

(** The results an abstract heap of blocks can give. *)
Inductive atrace : list Z → gmap Z (list Z) → Prop :=
  | atrace_nil : atrace [] ∅
  | atrace_snoc rs C r C' : atrace rs C → astep (strat rs) C r C' → atrace (rs ++ [r]) C'.

(** The client only frees, resizes and writes to blocks it owns, and asks for sizes that make sense. *)
Definition disciplined : Prop := ∀ rs C, atrace rs C → allowed (strat rs) C.

Section interface.
Context {init : cmd mstate unit} {good : mstate → Prop} {other : Z → Prop} {R : mstate → gmap Z (list Z) → Prop}.
Context `{!Allocator init good other R}.

Lemma client_run n rs s C : disciplined → atrace rs C → R s C →
  ∃ rs' s' C', run_client n rs s = Ret (rs', s') ∧ length rs' = (n + length rs)%nat ∧ atrace rs' C' ∧ R s' C'.
Proof using Allocator0.
  intros Hd. revert rs s C. induction n as [|n IH]; intros rs s C Ht HR; [by exists rs, s, C|].
  destruct (al_step s C (strat rs) HR (Hd rs C Ht)) as (r & s1 & C1 & Hrun & Ha & HR1).
  destruct (IH (rs ++ [r]) s1 C1) as (rs' & s' & C' & Hrun' & Hl & Ht' & HR'); [by econstructor|done|].
  exists rs', s', C'. cbn [run_client]. rewrite (bind_Ret _ _ _ _ _ Hrun). split_and!; try done.
  rewrite Hl, length_app. cbn. lia.
Qed.
End interface.
End runs.

Section theorems.
Context (base : Z) (other : Z → Prop).

(** C33: From start-up on, any client that only touches its own blocks runs
    without a fault of the allocator, and the allocator behaves like a finite
    map of blocks: every result is one the map allows (a null pointer, or a
    new block that is large enough, zeroed by [calloc], filled with the old
    contents by [realloc]), the blocks are disjoint ranges of memory that hold
    what the client wrote, and when all blocks are freed the pages in use are
    those others had taken before. *)
Theorem malloc_refines_blocks strat n s0 :
  fresh base other s0 → disciplined strat →
  ∃ s1 rs s C, malloc_init base s0 = Ret (tt, s1) ∧ run_client strat n [] s1 = Ret (rs, s) ∧ length rs = n ∧ atrace strat rs C ∧
    (∀ b bs, C !! b = Some bs → 0 < b ∧ b + Z.of_nat (length bs) <= 2 ^ 32 ∧ bytes_at (bytes s) b bs) ∧
    (∀ b bs b' bs', C !! b = Some bs → C !! b' = Some bs' → b ≠ b' →
       b + Z.of_nat (length bs) <= b' ∨ b' + Z.of_nat (length bs') <= b) ∧
    (C = ∅ → ∀ pn, in_use false (pages s) pn ↔ other pn).
Proof using.
  intros Hf Hd. destruct (al_init s0 Hf) as (s1 & Hinit & HR).
  destruct (client_run strat n [] s1 ∅ Hd (atrace_nil strat) HR) as (rs & s & C & Hrun & Hl & Ht & HR').
  rewrite Nat.add_0_r in Hl. exists s1, rs, s, C. split_and!; try done.
  - intros b bs HC. exact (al_contents s C b bs HR' HC).
  - intros b bs b' bs' HC HC'. exact (al_apart s C b bs b' bs' HR' HC HC').
  - intros -> pn. exact (al_pages s pn HR').
Qed.

(** The size computations wrap around: a request of more than 2^32 - 12
    bytes is given a block of one page (4084 bytes), and [calloc] can return a
    block smaller than the product it was asked for. *)
Theorem allocation_size_wraps s C :
  heap_ok base other s C →
  (∀ n, 2 ^ 32 - 12 < n < 2 ^ 32 → ∃ b s', malloc n s = Ret (b, s') ∧
     (b = 0 ∧ exhausted false (pages s) 1 ∨ ∃ bs, length bs = 4084%nat ∧ heap_ok base other s' (<[b := bs]> C))) ∧
  (∀ x y, 0 <= x → 0 <= y → 2 ^ 32 <= x * y → x <= u32 (x * y) → y <= u32 (x * y) → u32 (x * y) <= max_request →
     ∃ b s', calloc x y s = Ret (b, s') ∧
       (b = 0 ∨ ∃ bs, Z.of_nat (length bs) < x * y ∧ heap_ok base other s' (<[b := bs]> C))).
Proof using.
  intros Hok. split.
  - intros n Hn. assert (E : page_cnt_for n = 1).
    { unfold page_cnt_for, ARENA_SIZE. change PGSIZE with 4096.
      assert (E1 : u32 (n + 12) = n + 12 - 2 ^ 32).
      { unfold u32. replace (n + 12) with (n + 12 - 2 ^ 32 + 1 * 2 ^ 32) at 1 by lia. rewrite Z.mod_add by lia. apply Z.mod_small. lia. }
      rewrite E1, u32_small by lia. symmetry. apply (Z.div_unique _ _ _ (n + 12 - 2 ^ 32 - 1)); lia. }
    destruct (malloc_pages s C n Hok ltac:(lia) ltac:(lia)) as (b & s' & Hrun & _ & Hpost). rewrite E in Hpost. exists b, s'. split; [done|].
    destruct Hpost as [(-> & _ & He)|(_ & _ & bs & Hl & Hok')]; [by left|right]. exists bs. unfold ARENA_SIZE in Hl. split; [lia|done].
  - intros x y Hx Hy Hxy Hux Huy Hmax. unfold calloc, max_request in *.
    rewrite (proj2 (Z.ltb_ge _ _)), (proj2 (Z.ltb_ge (u32 (x * y)) y)) by lia. cbn [orb].
    pose proof (u32_range (x * y)).
    destruct (malloc_call_run s C (u32 (x * y)) Hok ltac:(lia)) as (b & s1 & Hrun & [[(-> & Hok1 & _)|(Hne & Hn & bs & Hl & Hok1)] _]);
      rewrite (bind_Ret _ _ _ _ _ Hrun).
    + rewrite Z.eqb_refl. cbn [negb]. rewrite ret_bind. exists 0, s1. split; [done|by left].
    + rewrite (proj2 (Z.eqb_neq b 0)) by done. cbn [negb]. set (m := Z.to_nat (u32 (x * y))).
      destruct (heap_write base other s1 _ b bs 0 (replicate m 0) Hok1) as (Hm & Hp & Hok2); [apply lookup_insert_eq|rewrite length_replicate; lia|].
      rewrite Z.add_0_r, length_replicate in Hm. rewrite Z.add_0_r, insert_insert_eq in Hok2.
      rewrite bind_assoc, (on_mbytes_bind _ _ _ _ _ (memset_ret _ _ 0 m Hp Hm)), ret_bind.
      eexists b, _. split; [done|]. right. eexists. split; [|exact Hok2].
      pose proof (al_contents _ _ _ _ Hok2 (lookup_insert_eq _ b _)) as (H1 & H2 & _). lia.
Qed.
End theorems.

(** ** An example: eight kernel pages, two of them taken by others *)
Definition ex_base : Z := 0xc0020000.
Definition ex_keys : list loc :=
  (seq 0 7 ≫= λ i, [head (desc_list ex_base i); tail (desc_list ex_base i)]) ++
  (seq 0 8 ≫= λ p, (λ j, Z.to_pos (4096 * (0xc0100 + Z.of_nat p) + 12 + 16 * Z.of_nat j)) <$> seq 0 255).
Definition ex_heap0 : mstate :=
  mk_mstate ex_pools [] ∅ (list_to_map ((λ k, (k, mk_elem None None)) <$> ex_keys))
    (write ∅ 0xc0100000 (replicate (Z.to_nat (8 * 4096)) 0)).
Definition ex_other (pn : Z) : Prop := in_use false ex_pools pn.

Lemma ex_key k : k ∈ ex_keys → is_Some (links ex_heap0 !! k).
Proof.
  intros Hk. apply elem_of_dom. cbn [links ex_heap0]. rewrite dom_list_to_map_L, <- list_fmap_compose, elem_of_list_to_set.
  apply list_elem_of_fmap. by exists k.
Qed.

Lemma ex_kernel_pool pn : in_pool (kernel_pool (pages ex_heap0)) pn ↔ 0xc0100 <= pn < 0xc0108.
Proof. done. Qed.

Lemma ex_fresh : fresh ex_base ex_other ex_heap0.
Proof.
  split; [exact ex_pools_ok|done|done|done|by vm_compute| | |].
  - intros i Hi. split; apply ex_key, elem_of_app; left; apply list_elem_of_bind; exists i;
      (split; [rewrite !elem_of_cons; tauto|apply elem_of_seq; lia]).
  - intros va Hva. rewrite ex_kernel_pool in Hva. apply (bytes_at_mapped _ _ _ (bytes_at_write ∅ 0xc0100000 _)).
    rewrite length_replicate. pose proof (Z.div_mod va 4096 ltac:(lia)). pose proof (Z.mod_pos_bound va 4096 ltac:(lia)). lia.
  - intros pn j Hpn Hj. rewrite ex_kernel_pool in Hpn. apply ex_key, elem_of_app. right. apply list_elem_of_bind.
    exists (Z.to_nat (pn - 0xc0100)). split; [|apply elem_of_seq; lia]. apply list_elem_of_fmap. exists (Z.to_nat j).
    split; [|apply elem_of_seq; lia]. f_equal. lia.
Qed.

(** Allocate 100 bytes, then free them. *)
Definition ex_strat (rs : list Z) : mop :=
  match rs with [] => M_malloc 100 | [b] => M_free b | _ => M_malloc 0 end.

Lemma ex_disciplined : disciplined ex_strat.
Proof.
  intros rs C Ht. destruct rs as [|b [|b' rs]]; [by vm_compute| |by vm_compute]. cbn [ex_strat allowed].
  remember [b] as l eqn:El. destruct Ht as [|rs C r C' Ht Hs]; [done|]. destruct rs as [|? [|??]]; [|done..]. injection El as ->.
  destruct Hs as [[-> _]|(_ & _ & bs & _ & _ & ->)]; [by left|right]. rewrite lookup_insert_eq. by eexists.
Qed.

Lemma malloc_refines_blocks_witness :
  ∃ s1 rs s, malloc_init ex_base ex_heap0 = Ret (tt, s1) ∧ run_client ex_strat 2 [] s1 = Ret (rs, s) ∧ length rs = 2%nat.
Proof.
  destruct (malloc_refines_blocks ex_base ex_other ex_strat 2 ex_heap0 ex_fresh ex_disciplined) as (s1 & rs & s & C & H1 & H2 & H3 & _).
  exists s1, rs, s. exact (conj H1 (conj H2 H3)).
Defined.

Lemma allocation_size_wraps_witness :
  ∃ s b s', heap_ok ex_base ex_other s ∅ ∧ calloc 65537 65537 s = Ret (b, s').
Proof.
  destruct (malloc_init_run ex_base ex_other ex_heap0 ex_fresh) as (s & _ & Hok & _).
  destruct (allocation_size_wraps ex_base ex_other s ∅ Hok) as [_ Hw].
  destruct (Hw 65537 65537) as (b & s' & Hrun & _); [by_decision..|]. exists s, b, s'. exact (conj Hok Hrun).
Defined.
