(* ===== verification/Stdio.v ===== *)
(** * Formatted output (lib/stdio.c) and the consoles that use it
      (lib/kernel/console.c, lib/user/console.c)

    A format is the list of its characters before the null byte: the empty list
    is a pointer to that byte, and moving past it is the fault [OutOfBounds].
    Arguments are the 32-bit words a [va_list] walks over; a 64-bit argument is
    two of them.  Strings that %s refers to are in the memory [m], which is not
    changed during the call.  [output] is the callback, in any state. *)
From S2P Require Import Prelude KString LibStd.
From stdpp Require Import strings.
Open Scope Z_scope.

Definition char_z (a : Ascii.ascii) : Z := Z.of_N (Ascii.N_of_ascii a).
Definition chars (s : string) : list Z := char_z <$> String.list_ascii_of_string s.
(** A character constant. *)
Definition chr (s : string) : Z := hd 0 (chars s).

(** ** Conversions *)
Definition MINUS : Z := 1.
Definition PLUS : Z := 2.
Definition SPACE : Z := 4.
Definition POUND : Z := 8.
Definition ZERO : Z := 16.
Definition GROUP : Z := 32.

Inductive ctype : Set := CHAR | SHORT | INT | INTMAX | LONG | LONGLONG | PTRDIFFT | SIZET.
Record printf_conversion : Set := mk_conv { flags : Z; width : Z; precision : Z; type : ctype }.
Definition has (f mask : Z) : bool := negb (Z.land f mask =? 0).

Record integer_base : Set := mk_base { base : Z; digits : list Z; xchar : Z; group : Z }.
Definition base_d : integer_base := mk_base 10 (chars "0123456789") 0 3.
Definition base_o : integer_base := mk_base 8 (chars "01234567") 0 3.
Definition base_x : integer_base := mk_base 16 (chars "0123456789abcdef") (chr "x") 4.
Definition base_X : integer_base := mk_base 16 (chars "0123456789ABCDEF") (chr "X") 4.

(** [va_arg] of a word and of two words. *)
Definition va_word (args : list Z) : res (Z * list Z) :=
  match args with w :: args => Ret (w, args) | [] => Err OutOfBounds end.
Definition va_long_long (args : list Z) : res (Z * list Z) :=
  match args with lo :: hi :: args => Ret (lo + 2 ^ 32 * hi, args) | _ => Err OutOfBounds end.

(** The flag a character sets, if any. *)
Definition flag_of (c : Z) : Z :=
  if c =? chr "-" then MINUS else if c =? chr "+" then PLUS else if c =? chr " " then SPACE
  else if c =? chr "#" then POUND else if c =? chr "0" then ZERO else if c =? chr "'" then GROUP else 0.
Fixpoint parse_flags (format : list Z) (flags : Z) : list Z * Z :=
  match format with
  | c :: rest => if flag_of c =? 0 then (format, flags) else parse_flags rest (Z.lor flags (flag_of c))
  | [] => (format, flags)
  end.
(** [for (; isdigit (...); format++) n = n * 10 + ...]. *)
Fixpoint parse_number (format : list Z) (n : Z) : list Z * Z :=
  match format with
  | c :: rest => if isdigit c then parse_number rest (s32 (n * 10 + c - 48)) else (format, n)
  | [] => (format, n)
  end.
Definition at_char (format : list Z) (s : string) : bool :=
  match format with c :: _ => c =? chr s | [] => false end.

Definition parse_type (format : list Z) : ctype * list Z :=
  if at_char format "h" then
    if at_char (tail format) "h" then (CHAR, tail (tail format)) else (SHORT, tail format)
  else if at_char format "j" then (INTMAX, tail format)
  else if at_char format "l" then
    if at_char (tail format) "l" then (LONGLONG, tail (tail format)) else (LONG, tail format)
  else if at_char format "t" then (PTRDIFFT, tail format)
  else if at_char format "z" then (SIZET, tail format)
  else (INT, format).

Definition parse_conversion (format args : list Z) : res (list Z * printf_conversion * list Z) :=
  let '(format, fl) := parse_flags format 0 in
  let fl := if has fl MINUS then Z.land fl (Z.lnot ZERO) else fl in
  let fl := if has fl PLUS then Z.land fl (Z.lnot SPACE) else fl in
  '(format, w, args) ←
    (if at_char format "*" then '(w, args) ← va_word args; mret (tail format, s32 w, args)
     else let '(format, w) := parse_number format 0 in mret (format, w, args));
  let '(w, fl) := if w <? 0 then (s32 (- w), Z.lor fl MINUS) else (w, fl) in
  '(format, p, args) ←
    (if at_char format "." then
       let format := tail format in
       '(format, p, args) ←
         (if at_char format "*" then '(p, args) ← va_word args; mret (tail format, s32 p, args)
          else let '(format, p) := parse_number format 0 in mret (format, p, args));
       mret (format, if p <? 0 then -1 else p, args)
     else mret (format, -1, args));
  let fl := if 0 <=? p then Z.land fl (Z.lnot ZERO) else fl in
  let '(ty, format) := parse_type format in
  mret (format, mk_conv fl w p ty, args).

Section output.
Context {S : Type} (m : mem) (output : Z → cmd S unit).

Fixpoint output_all (cs : list Z) : cmd S unit :=
  match cs with [] => mret tt | c :: cs => output c;; output_all cs end.
Definition output_dup (ch cnt : Z) : cmd S unit := output_all (replicate (Z.to_nat (u32 cnt)) ch).

(** ** Integers
    The buffer of 64 characters is a stack: its first element is at [cp - 1]. *)
Definition push (c : Z) (buf : list Z) : res (list Z) :=
  if (length buf <? 64)%nat then Ret (c :: buf) else Err OutOfBounds.

Fixpoint digit_loop (fuel : nat) (b : integer_base) (grouping : bool) (value digit_cnt : Z) (buf : list Z) : res (list Z) :=
  if 0 <? value then
    match fuel with
    | O => Err NoFuel
    | Datatypes.S fuel =>
        buf ← (if grouping && (0 <? digit_cnt) && (digit_cnt mod group b =? 0) then push (chr ",") buf else mret buf);
        d ← match digits b !! Z.to_nat (value mod base b) with Some d => Ret d | None => Err OutOfBounds end;
        buf ← push d buf;
        digit_loop fuel b grouping (value / base b) (digit_cnt + 1) buf
    end
  else mret buf.

(** [while (cp - buf < precision && cp < buf + sizeof buf - 1)], at most 63 rounds. *)
Fixpoint zero_loop (fuel : nat) (precision : Z) (buf : list Z) : res (list Z) :=
  let n := Z.of_nat (length buf) in
  if (n <? precision) && (n <? 63) then
    match fuel with O => Err NoFuel | Datatypes.S fuel => buf ← push (chr "0") buf; zero_loop fuel precision buf end
  else mret buf.

Definition format_integer (value : Z) (is_signed negative : bool) (b : integer_base) (c : printf_conversion) : cmd S unit :=
  let sign :=
    if is_signed then
      if has (flags c) PLUS then (if negative then chr "-" else chr "+")
      else if has (flags c) SPACE then (if negative then chr "-" else chr " ")
      else if negative then chr "-" else 0
    else 0 in
  let x := if has (flags c) POUND && negb (value =? 0) then xchar b else 0 in
  buf ← lift_res (digit_loop 64 b (has (flags c) GROUP) value 0 []);
  let precision := if precision c <? 0 then 1 else precision c in
  buf ← lift_res (zero_loop 64 precision buf);
  buf ← lift_res (if has (flags c) POUND && (base b =? 8) && negb (at_char buf "0") then push (chr "0") buf else mret buf);
  let pad_cnt := s32 (width c - Z.of_nat (length buf) - (if x =? 0 then 0 else 2) - (if sign =? 0 then 0 else 1)) in
  let pad_cnt := if pad_cnt <? 0 then 0 else pad_cnt in
  (if has (flags c) (Z.lor MINUS ZERO) then mret tt else output_dup (chr " ") pad_cnt);;
  (if sign =? 0 then mret tt else output sign);;
  (if x =? 0 then mret tt else output (chr "0");; output x);;
  (if has (flags c) ZERO then output_dup (chr "0") pad_cnt else mret tt);;
  output_all buf;;
  (if has (flags c) MINUS then output_dup (chr " ") pad_cnt else mret tt).

Definition format_string (string : list Z) (c : printf_conversion) : cmd S unit :=
  let length := Z.of_nat (length string) in
  (if (length <? width c) && negb (has (flags c) MINUS) then output_dup (chr " ") (width c - length) else mret tt);;
  output_all string;;
  (if (length <? width c) && has (flags c) MINUS then output_dup (chr " ") (width c - length) else mret tt).

(** ** Arguments *)
Definition s8 (z : Z) : Z := (z + 2 ^ 7) mod 2 ^ 8 - 2 ^ 7.
Definition s16 (z : Z) : Z := (z + 2 ^ 15) mod 2 ^ 16 - 2 ^ 15.
Definition SIZE_MAX : Z := 2 ^ 32 - 1.
Definition PTRDIFF_MAX : Z := 2 ^ 31 - 1.

Definition signed_arg (t : ctype) (args : list Z) : res (Z * list Z) :=
  match t with
  | INTMAX | LONGLONG => '(w, args) ← va_long_long args; mret (s64 w, args)
  | _ =>
      '(w, args) ← va_word args;
      mret (match t with
            | CHAR => s8 w
            | SHORT => s16 w
            | SIZET => if SIZE_MAX / 2 <? w then w - SIZE_MAX - 1 else w
            | _ => s32 w
            end, args)
  end.
Definition unsigned_arg (t : ctype) (args : list Z) : res (Z * list Z) :=
  match t with
  | INTMAX | LONGLONG => va_long_long args
  | _ =>
      '(w, args) ← va_word args;
      mret (match t with
            | CHAR => w mod 2 ^ 8
            | SHORT => w mod 2 ^ 16
            | PTRDIFFT => Z.land (u64 (s32 w)) (Z.lor (Z.shiftl PTRDIFF_MAX 1) 1)
            | _ => w
            end, args)
  end.

(** The [n] characters at [s]. *)
Fixpoint string_at (n : nat) (s : Z) : res (list Z) :=
  match n with
  | O => mret []
  | Datatypes.S n => match m !! s with Some c => cs ← string_at n (s + 1); mret (c :: cs) | None => Err BadPtr end
  end.

(** One conversion: [ch] is the conversion character; [again] formats the
    messages about characters that are none. *)
Definition convert (again : list Z → list Z → cmd S unit) (c : printf_conversion) (ch : Z) (args : list Z) : cmd S (list Z) :=
  if (ch =? chr "d") || (ch =? chr "i") then
    '(value, args) ← lift_res (signed_arg (type c) args);
    format_integer (u64 (if value <? 0 then - value else value)) true (value <? 0) base_d c;;
    mret args
  else if (ch =? chr "o") || (ch =? chr "u") || (ch =? chr "x") || (ch =? chr "X") then
    '(value, args) ← lift_res (unsigned_arg (type c) args);
    let b := if ch =? chr "o" then base_o else if ch =? chr "u" then base_d else if ch =? chr "x" then base_x else base_X in
    format_integer value false false b c;;
    mret args
  else if ch =? chr "c" then
    '(w, args) ← lift_res (va_word args);
    format_string [u8 w] c;;
    mret args
  else if ch =? chr "s" then
    '(s, args) ← lift_res (va_word args);
    string ← lift_res
      (if s =? 0 then
         let n := if precision c <? 0 then 6 else Z.min 6 (precision c) in mret (take (Z.to_nat n) (chars "(null)"))
       else '(n, _) ← strnlen s (u32 (precision c)) m; string_at (Z.to_nat n) s);
    format_string string c;;
    mret args
  else if ch =? chr "p" then
    '(p, args) ← lift_res (va_word args);
    format_integer p false false base_x (mk_conv POUND (width c) (precision c) (type c));;
    mret args
  else if bool_decide (ch ∈ chars "feEgGn") then
    again (chars "<<no %%%c in kernel>>") [ch];; mret args
  else
    again (chars "<<no %%%c conversion>>") [ch];; mret args.

(** ** [__vprintf] *)
Fixpoint vprintf_loop (fuel : nat) (format args : list Z) : cmd S unit :=
  match fuel with
  | O => throw NoFuel
  | Datatypes.S fuel =>
      match format with
      | [] => mret tt
      | ch :: format =>
          if negb (ch =? chr "%") then output ch;; vprintf_loop fuel format args else
          if at_char format "%" then output (chr "%");; vprintf_loop fuel (tail format) args else
          '(format, c, args) ← lift_res (parse_conversion format args);
          args ← convert (vprintf_loop fuel) c (hd 0 format) args;
          match format with
          | [] => throw OutOfBounds
          | _ :: format => vprintf_loop fuel format args
          end
      end
  end.
(** Each round takes a character of the format; a message about a conversion
    takes at most 24 rounds. *)
Definition __vprintf (format args : list Z) : cmd S unit := vprintf_loop (length format + 32) format args.
End output.

(** ** Output to a buffer *)
Record vsnprintf_aux : Set := mk_aux { p : Z; length_ : Z; max_length : Z }.

Definition vsnprintf_helper (ch : Z) : cmd (mem * vsnprintf_aux) unit := λ '(b, aux),
  let length' := s32 (length_ aux + 1) in
  if length_ aux <? max_length aux then
    match store8 (p aux) ch b with
    | Ret (_, b) => Ret (tt, (b, mk_aux (p aux + 1) length' (max_length aux)))
    | Err e => Err e
    end
  else Ret (tt, (b, mk_aux (p aux) length' (max_length aux))).

(** The buffer is in the memory that is the state. *)
Definition vsnprintf (m : mem) (buffer buf_size : Z) (format args : list Z) : cmd mem Z := λ b,
  let aux := mk_aux buffer 0 (s32 (if 0 <? buf_size then buf_size - 1 else 0)) in
  match __vprintf m vsnprintf_helper format args (b, aux) with
  | Err e => Err e
  | Ret (_, (b, aux)) =>
      if 0 <? buf_size then
        match store8 (p aux) 0 b with Ret (_, b) => Ret (length_ aux, b) | Err e => Err e end
      else Ret (length_ aux, b)
  end.
Definition snprintf (m : mem) (buffer buf_size : Z) (format : string) (args : list Z) : cmd mem Z :=
  vsnprintf m buffer buf_size (chars format) args.

(** ** The console of a user program
    [written]: what [write] was called with, in order. *)
Record vhprintf_aux : Set := mk_haux { buf : list Z; char_cnt : Z; handle : Z; written : list (Z * list Z) }.

Definition flush : cmd vhprintf_aux unit := λ aux,
  Ret (tt, mk_haux [] (char_cnt aux) (handle aux)
    (if (0 <? length (buf aux))%nat then written aux ++ [(handle aux, buf aux)] else written aux)).
Definition add_char (c : Z) : cmd vhprintf_aux unit := λ aux,
  if (64 <=? length (buf aux))%nat then Err OutOfBounds else
  let aux := mk_haux (buf aux ++ [c]) (char_cnt aux) (handle aux) (written aux) in
  match (if (64 <=? length (buf aux))%nat then flush aux else Ret (tt, aux)) with
  | Ret (_, aux) => Ret (tt, mk_haux (buf aux) (s32 (char_cnt aux + 1)) (handle aux) (written aux))
  | Err e => Err e
  end.
Definition vhprintf (m : mem) (handle : Z) (format args : list Z) : res (Z * list (Z * list Z)) :=
  match (__vprintf m add_char format args;; flush) (mk_haux [] 0 handle []) with
  | Ret (_, aux) => Ret (char_cnt aux, written aux)
  | Err e => Err e
  end.
Definition hprintf (m : mem) (handle : Z) (format : string) (args : list Z) : res (Z * list (Z * list Z)) :=
  vhprintf m handle (chars format) args.
