(* ===== verification/StdioSpec.v ===== *)
(** What formatted output promises: the same characters whatever the callback,
    numbers that can be read back, and buffers that do not overflow. *)
From S2P Require Import Prelude KString KStringSpec LibStd Stdio.
From stdpp Require Import strings.
Open Scope Z_scope.

(** ** Any callback sees the same characters *)
(** [g] outputs the characters [t] in order, then ends with [r]. *)
Definition finish {S A} (r : res A) : cmd S A := λ s, match r with Ret a => Ret (a, s) | Err e => Err e end.
Definition emits {A} (g : ∀ S : Type, (Z → cmd S unit) → cmd S A) (t : list Z) (r : res A) : Prop :=
  ∀ S out s, g S out s = (output_all out t;; finish r) s.

Lemma output_all_app {S} (out : Z → cmd S unit) t u s : output_all out (t ++ u) s = (output_all out t;; output_all out u) s.
Proof.
  revert s. induction t as [|c t IH]; intros s; [done|]. cbn [output_all app]. unfold mbind, cmd_bind in *.
  destruct (out c s) as [[[] s1]|]; [|done]. by rewrite IH.
Qed.

Lemma output_all_bind {S A} (out : Z → cmd S unit) t u (k : cmd S A) s :
  (output_all out (t ++ u);; k) s = (output_all out t;; output_all out u;; k) s.
Proof.
  unfold mbind, cmd_bind. rewrite output_all_app. unfold mbind, cmd_bind.
  destruct (output_all out t s) as [[[] s1]|]; [|done]. done.
Qed.

Lemma emits_bind {A B} (g : ∀ S, (Z → cmd S unit) → cmd S A) (k : A → ∀ S, (Z → cmd S unit) → cmd S B) t a u r :
  emits g t (Ret a) → emits (k a) u r → emits (λ S out, x ← g S out; k x S out) (t ++ u) r.
Proof.
  intros Hg Hk S out s. rewrite output_all_bind. unfold mbind at 1, cmd_bind at 1. rewrite Hg. unfold mbind, cmd_bind, finish.
  destruct (output_all out t s) as [[[] s1]|]; [|done]. by rewrite Hk.
Qed.

Lemma emits_bind_err {A B} (g : ∀ S, (Z → cmd S unit) → cmd S A) (k : A → ∀ S, (Z → cmd S unit) → cmd S B) t e :
  emits g t (Err e) → emits (λ S out, x ← g S out; k x S out) t (Err e).
Proof.
  intros Hg S out s. unfold mbind at 1, cmd_bind at 1. rewrite Hg. unfold mbind, cmd_bind, finish.
  by destruct (output_all out t s) as [[[] s1]|].
Qed.

(** A routine that outputs some text and ends somehow. *)
Definition emitter {A} (g : ∀ S : Type, (Z → cmd S unit) → cmd S A) : Prop := ∃ t r, emits g t r.

Lemma emitter_bind {A B} (g : ∀ S, (Z → cmd S unit) → cmd S A) (k : A → ∀ S, (Z → cmd S unit) → cmd S B) :
  emitter g → (∀ a, emitter (k a)) → emitter (λ S out, x ← g S out; k x S out).
Proof.
  intros (t & [a|e] & Hg) Hk.
  - destruct (Hk a) as (u & r & Hu). exists (t ++ u), r. by eapply emits_bind.
  - exists t, (Err e). by apply emits_bind_err.
Qed.

Lemma emitter_res {A} (r : res A) : emitter (λ S _, lift_res r).
Proof. exists [], r. intros S out s. unfold lift_res. by destruct r. Qed.
Lemma emitter_ret {A} (a : A) : emitter (λ S _, mret a).
Proof. exists [], (Ret a). by intros S out s. Qed.
Lemma emitter_throw {A} e : emitter (A := A) (λ S _, throw e).
Proof. exists [], (Err e). by intros S out s. Qed.
Lemma emits_all t : emits (λ S out, output_all out t) t (Ret tt).
Proof. intros S out s. unfold mbind, cmd_bind, finish. by destruct (output_all out t s) as [[[] s1]|]. Qed.
Lemma emitter_all t : emitter (λ S out, output_all out t).
Proof. exists t, (Ret tt). apply emits_all. Qed.
Lemma emitter_dup ch n : emitter (λ S out, output_dup out ch n).
Proof. apply emitter_all. Qed.
Lemma emitter_out c : emitter (λ S out, out c).
Proof. exists [c], (Ret tt). intros S out s. unfold mbind, cmd_bind. cbn. unfold mbind, cmd_bind. by destruct (out c s) as [[[] s1]|]. Qed.
#[local] Hint Resolve emitter_res emitter_ret emitter_throw emitter_all emitter_dup emitter_out : core.

Ltac emitter_tac :=
  repeat lazymatch goal with
    | |- ∀ _, _ => intro
    | |- emitter (λ S out, mbind _ _) => apply (emitter_bind (λ S out, _) (λ x S out, _))
    | |- emitter (λ S out, match ?x with _ => _ end) => destruct x
    | |- emitter _ => solve [auto]
    end.

Lemma emitter_integer v sg ng b c : emitter (λ S out, format_integer out v sg ng b c).
Proof. unfold format_integer. emitter_tac. Qed.
Lemma emitter_string str c : emitter (λ S out, format_string out str c).
Proof. unfold format_string. emitter_tac. Qed.
#[local] Hint Resolve emitter_integer emitter_string : core.

Lemma emitter_convert m (again : ∀ S, (Z → cmd S unit) → list Z → list Z → cmd S unit) c ch args :
  (∀ f a, emitter (λ S out, again S out f a)) → emitter (λ S out, convert m out (again S out) c ch args).
Proof. intros Ha. unfold convert. emitter_tac. Qed.

Lemma emitter_vprintf m fuel format args : emitter (λ S out, vprintf_loop m out fuel format args).
Proof.
  revert format args. induction fuel as [|fuel IH]; intros format args; [apply emitter_throw|].
  destruct format as [|ch format]; [apply emitter_ret|]. cbn [vprintf_loop].
  destruct (negb (ch =? chr "%")); [emitter_tac|]. destruct (at_char format "%"); [emitter_tac|].
  apply (emitter_bind (λ S out, _) (λ x S out, _)); [auto|]. intros [[f c] a].
  apply (emitter_bind (λ S out, convert m out (vprintf_loop m out fuel) c (hd 0 f) a) (λ x S out, _)); [|by destruct f; intros; auto].
  by apply (emitter_convert m (λ S out, vprintf_loop m out fuel)).
Qed.

(** The text a call produces. *)
Definition collect (c : Z) : cmd (list Z) unit := λ l, Ret (tt, l ++ [c]).
Definition text (m : mem) (format args : list Z) : res (list Z) :=
  match __vprintf m collect format args [] with Ret (_, t) => Ret t | Err e => Err e end.

Lemma collect_all t l : output_all collect t l = Ret (tt, l ++ t).
Proof.
  revert l. induction t as [|c t IH]; intros l; [by rewrite app_nil_r|]. cbn. unfold mbind, cmd_bind, collect at 1.
  by rewrite IH, <- app_assoc.
Qed.

Lemma vprintf_text m format args t : text m format args = Ret t →
  ∀ S (out : Z → cmd S unit) s, __vprintf m out format args s = output_all out t s.
Proof.
  unfold text. destruct (emitter_vprintf m (length format + 32) format args) as (u & r & Hu). unfold __vprintf.
  rewrite (Hu _ collect []). unfold mbind, cmd_bind. rewrite collect_all. unfold finish. destruct r as [[]|e]; [|done].
  intros [= <-] S out s. rewrite Hu. unfold mbind, cmd_bind. by destruct (output_all out u s) as [[[] s1]|].
Qed.

(** ** Output to a buffer *)
Lemma helper_all t b p len max :
  0 <= len → len + Z.of_nat (length t) < 2 ^ 31 → max < 2 ^ 31 → mapped b p (Z.to_nat (max - len)) →
  output_all vsnprintf_helper t (b, mk_aux p len max) =
    Ret (tt, (write b p (take (Z.to_nat (max - len)) t),
              mk_aux (p + Z.of_nat (length t `min` Z.to_nat (max - len))) (len + Z.of_nat (length t)) max)).
Proof.
  revert b p len. induction t as [|c t IH]; intros b p len Hl Ht Hx Hm.
  - cbn. rewrite take_nil. cbn. by rewrite !Z.add_0_r.
  - cbn [output_all length] in *. unfold mbind, cmd_bind, vsnprintf_helper at 1. cbn [length_ max_length Stdio.p]. rewrite s32_small by lia.
    destruct (Z.ltb_spec len max).
    + rewrite store8_run by (apply Hm; lia). rewrite IH by (lia || (intros x Hx'; rewrite lookup_insert_ne by lia; apply Hm; lia)).
      replace (Z.to_nat (max - len)) with (S (Z.to_nat (max - (len + 1)))) by lia. cbn [take write].
      rewrite write_insert_comm by lia. do 4 f_equal; lia.
    + rewrite IH by (lia || (intros x Hx'; lia)).
      replace (Z.to_nat (max - len)) with O by lia. replace (Z.to_nat (max - (len + 1))) with O by lia. cbn. do 4 f_equal; lia.
Qed.

Lemma vsnprintf_run m buffer n format args t b :
  text m format args = Ret t → 0 <= n < 2 ^ 31 → Z.of_nat (length t) < 2 ^ 31 → mapped b buffer (Z.to_nat n) →
  vsnprintf m buffer n format args b =
    Ret (Z.of_nat (length t), if 0 <? n then write b buffer (take (Z.to_nat (n - 1)) t ++ [0]) else b).
Proof.
  intros Ht Hn Hl Hm. unfold vsnprintf. rewrite (vprintf_text _ _ _ _ Ht).
  destruct (Z.ltb_spec 0 n) as [Hp|Hz].
  - rewrite s32_small by lia. rewrite helper_all by (lia || (intros x Hx; apply Hm; lia)). cbn [Stdio.p length_]. rewrite Z.sub_0_r, Z.add_0_l.
    set (d := take (Z.to_nat (n - 1)) t). assert (Hd : (length t `min` Z.to_nat (n - 1) = length d)%nat) by (unfold d; rewrite length_take; lia).
    assert (Hdl : (length d <= Z.to_nat (n - 1))%nat) by (unfold d; rewrite length_take; lia).
    rewrite Hd, store8_run; [|rewrite write_lookup_out by lia; apply Hm; lia]. do 2 f_equal.
    rewrite write_snoc, write_insert_comm by lia. done.
  - rewrite (s32_small 0), helper_all by (cbn; lia || (intros x Hx; lia)). cbn [length_]. rewrite Z.add_0_l. done.
Qed.

(** [vsnprintf] stores the first [buf_size - 1] characters of the text and a
    null byte, changes nothing else in memory, and returns the length of the
    whole text; the text is the one every other output function produces. *)
Theorem vsnprintf_truncates m buffer n format args t b :
  text m format args = Ret t → 0 <= n < 2 ^ 31 → Z.of_nat (length t) < 2 ^ 31 → mapped b buffer (Z.to_nat n) →
  ∃ b', vsnprintf m buffer n format args b = Ret (Z.of_nat (length t), b') ∧
    (n = 0 → b' = b) ∧ (0 < n → bytes_at b' buffer (take (Z.to_nat (n - 1)) t ++ [0])) ∧
    (∀ x, x < buffer ∨ buffer + n <= x → b' !! x = b !! x).
Proof.
  intros Ht Hn Hl Hm. eexists. split; [by apply vsnprintf_run|]. destruct (Z.ltb_spec 0 n); split_and!; try done; try lia.
  - intros _. apply bytes_at_write.
  - intros x Hx. apply write_lookup_out. rewrite length_app, length_take. cbn. lia.
Qed.

(** ** The console of a user program *)
Lemma add_char_run c aux : (length (buf aux) < 64)%nat → 0 <= char_cnt aux < 2 ^ 31 - 1 →
  ∃ buf' w, add_char c aux = Ret (tt, mk_haux buf' (char_cnt aux + 1) (handle aux) (written aux ++ w)) ∧
    (length buf' < 64)%nat ∧ concat (snd <$> w) ++ buf' = buf aux ++ [c] ∧
    Forall (λ x, x.1 = handle aux ∧ (0 < length x.2 <= 64)%nat) w.
Proof.
  intros Hb Hc. unfold add_char. rewrite (proj2 (Nat.leb_gt 64 _)) by done. cbn [buf char_cnt handle written].
  destruct (Nat.leb_spec 64 (length (buf aux ++ [c]))) as [Hf|Hf]; rewrite length_app in Hf; cbn [length] in Hf.
  - exists [], [(handle aux, buf aux ++ [c])]. unfold flush. cbn [buf char_cnt handle written].
    rewrite (proj2 (Nat.ltb_lt 0 _)) by (rewrite length_app; cbn; lia). cbn -[s32]. rewrite s32_small, !app_nil_r by lia. split_and!; [done|lia|done|].
    apply Forall_singleton. cbn. rewrite length_app. cbn. split; [done|lia].
  - exists (buf aux ++ [c]), []. cbn -[s32]. rewrite s32_small, app_nil_r, length_app by lia. cbn. split_and!; [done|lia|done|done].
Qed.

Lemma add_all_run t aux : (length (buf aux) < 64)%nat → 0 <= char_cnt aux → char_cnt aux + Z.of_nat (length t) < 2 ^ 31 →
  ∃ buf' w, output_all add_char t aux = Ret (tt, mk_haux buf' (char_cnt aux + Z.of_nat (length t)) (handle aux) (written aux ++ w)) ∧
    (length buf' < 64)%nat ∧ concat (snd <$> w) ++ buf' = buf aux ++ t ∧
    Forall (λ x, x.1 = handle aux ∧ (0 < length x.2 <= 64)%nat) w.
Proof.
  revert aux. induction t as [|c t IH]; intros aux Hb Hc Hl.
  - exists (buf aux), []. cbn. rewrite !app_nil_r, Z.add_0_r. destruct aux; by split_and!.
  - cbn [length] in Hl. destruct (add_char_run c aux Hb ltac:(lia)) as (b1 & w1 & R1 & Hb1 & E1 & F1).
    destruct (IH (mk_haux b1 (char_cnt aux + 1) (handle aux) (written aux ++ w1))) as (b2 & w2 & R2 & Hb2 & E2 & F2); cbn in *; [lia..|].
    exists b2, (w1 ++ w2). rewrite (bind_Ret _ _ _ _ _ R1), R2. split_and!; [|done| |by apply Forall_app].
    + do 3 f_equal; [lia|by rewrite app_assoc].
    + rewrite fmap_app, concat_app, <- app_assoc, E2, app_assoc, E1, <- app_assoc. done.
Qed.

(** Output of a user program: the buffered writes [vhprintf] makes to its
    handle are nonempty, at most 64 bytes long, and together the text, whose
    length it returns. *)
Theorem vhprintf_writes_text m handle format args t :
  text m format args = Ret t → Z.of_nat (length t) < 2 ^ 31 →
  ∃ w, vhprintf m handle format args = Ret (Z.of_nat (length t), w) ∧ concat (snd <$> w) = t ∧
    Forall (λ x, x.1 = handle ∧ (0 < length x.2 <= 64)%nat) w.
Proof.
  intros Ht Hl. unfold vhprintf. unfold mbind, cmd_bind. rewrite (vprintf_text _ _ _ _ Ht).
  destruct (add_all_run t (mk_haux [] 0 handle [])) as (b & w & R & Hb & E & F); [cbn; lia..|]. cbn in R, E, F. rewrite R.
  unfold flush. cbn [buf char_cnt Stdio.handle written]. destruct b as [|c b]; cbn [length Nat.ltb Nat.leb].
  - exists w. rewrite app_nil_r in E. done.
  - exists (w ++ [(handle, c :: b)]). split_and!; [done| |].
    + rewrite fmap_app, concat_app. cbn. by rewrite app_nil_r.
    + apply Forall_app. split; [done|]. apply Forall_singleton. cbn in *. split; [done|lia].
Qed.

(** Integer conversions: the digits are those of the number, the field has the
    requested shape, the buffer of 64 characters is large enough, and [atoi]
    reads back what %d prints. *)

(** ** Numbers as text *)
Definition comma : Z := chr ",".
Definition digit_val (c : Z) : Z := if isdigit c then c - 48 else if 97 <=? c then c - 87 else c - 55.
(** The number a run of digits stands for; separators do not count. *)
Definition decode (b : integer_base) (cs : list Z) : Z :=
  foldl (λ acc c, if c =? comma then acc else acc * base b + digit_val c) 0 cs.

Definition bases : list integer_base := [base_d; base_o; base_x; base_X].

(** The characters of a number in base [b]. *)
Definition numeric (b : integer_base) (grouping : bool) (c : Z) : Prop := c ∈ digits b ∨ grouping = true ∧ c = comma.

Lemma base_facts b : b ∈ bases → 8 <= base b <= 16 ∧ 0 < group b ∧
  (∀ i, 0 <= i < base b → ∃ d, digits b !! Z.to_nat i = Some d ∧ digit_val d = i ∧ d ≠ comma) ∧ chr "0" ∈ digits b.
Proof.
  intros Hb. assert (Hall : Forall (λ b, 8 <= base b <= 16 ∧ 0 < group b ∧ length (digits b) = Z.to_nat (base b) ∧
    Forall (λ i, ∃ d, digits b !! i = Some d ∧ digit_val d = Z.of_nat i ∧ d ≠ comma) (seq 0 (Z.to_nat (base b))) ∧ chr "0" ∈ digits b) bases).
  { repeat apply Forall_cons_2; try apply Forall_nil_2; (refine (conj _ (conj _ (conj _ (conj _ _)))); [by_decision..| |by_decision]);
      cbn [base Z.to_nat Pos.to_nat seq base_d base_o base_x base_X]; repeat apply Forall_cons_2; try apply Forall_nil_2; eexists; (split; [reflexivity|by split]). }
  rewrite Forall_forall in Hall. destruct (Hall b Hb) as (H1 & H2 & H3 & H4 & H5). split_and!; try done; try lia.
  intros i Hi. rewrite Forall_forall in H4. destruct (H4 (Z.to_nat i)) as (d & E1 & E2 & E3); [apply elem_of_seq; lia|].
  exists d. split_and!; [done|lia|done].
Qed.

Lemma decode_app b xs ys : decode b (xs ++ ys) = foldl (λ acc c, if c =? comma then acc else acc * base b + digit_val c) (decode b xs) ys.
Proof. unfold decode. by rewrite foldl_app. Qed.

Lemma push_run c buf : (length buf < 64)%nat → push c buf = Ret (c :: buf).
Proof. intros H. unfold push. by rewrite (proj2 (Nat.ltb_lt _ _)). Qed.

(** The digits of [v], which has at most [k] of them. *)
Lemma print_digits_run b g k fuel v cnt buf : b ∈ bases →
  0 <= v < base b ^ Z.of_nat k → (k <= fuel)%nat → (length buf + 2 * k <= 64)%nat →
  ∃ ds, digit_loop fuel b g v cnt buf = Ret (ds ++ buf) ∧ (length ds <= if g then 2 * k else k)%nat ∧ decode b ds = v ∧
    Forall (numeric b g) ds ∧ (0 < v → ∃ d ds', ds = d :: ds' ∧ 0 < digit_val d ∧ d ∈ digits b).
Proof.
  intros Hb. destruct (base_facts b Hb) as (B1 & B2 & B3 & _). revert fuel v cnt buf.
  induction k as [|k IH]; intros fuel v cnt buf Hv Hk Hl.
  - assert (v = 0) as -> by lia. exists []. destruct fuel; (split_and!; [done|destruct g; cbn; lia|done|constructor|lia]).
  - destruct fuel as [|fuel]; [lia|]. cbn [digit_loop]. destruct (Z.ltb_spec 0 v) as [Hp|Hz].
    2:{ assert (v = 0) as -> by lia. exists []. split_and!; [done|destruct g; cbn; lia|done|constructor|lia]. }
    destruct (B3 (v mod base b) ltac:(apply Z.mod_pos_bound; lia)) as (d & Hd & Ed & Nd).
    assert (Hdiv : 0 <= v / base b < base b ^ Z.of_nat k).
    { rewrite Nat2Z.inj_succ, Z.pow_succ_r in Hv by lia. split; [apply Z.div_pos; lia|apply Z.div_lt_upper_bound; lia]. }
    set (sep := g && (0 <? cnt) && (cnt mod group b =? 0)). set (cs := if sep then [comma] else []).
    assert (Hcs : (if sep then push (chr ",") buf else mret buf) = Ret (cs ++ buf)).
    { unfold cs. destruct sep; [|done]. by rewrite push_run by lia. }
    assert (Hlc : (length cs <= if g then 1 else 0)%nat) by (unfold cs, sep; destruct g; [destruct (_ && _)|]; cbn; lia).
    rewrite Hcs. cbn [mbind res_bind]. rewrite Hd. cbn [mbind res_bind]. rewrite push_run by (rewrite length_app; destruct g; lia).
    cbn [mbind res_bind].
    destruct (IH fuel (v / base b) (cnt + 1) (d :: cs ++ buf) Hdiv ltac:(lia)) as (ds & R & L & E & F & Hhd);
      [cbn; rewrite length_app; destruct g; lia|].
    exists (ds ++ d :: cs). split_and!.
    + rewrite R. by rewrite <- app_assoc.
    + rewrite length_app. cbn. destruct g; lia.
    + rewrite decode_app, E. cbn [foldl]. rewrite (proj2 (Z.eqb_neq d comma)) by done.
      assert (Ef : ∀ x, foldl (λ acc c, if c =? comma then acc else acc * base b + digit_val c) x cs = x) by (intros x; unfold cs; by destruct sep).
      rewrite Ef, Ed. pose proof (Z.div_mod v (base b) ltac:(lia)). lia.
    + apply Forall_app. split; [done|]. constructor; [left; by eapply list_elem_of_lookup_2|].
      unfold cs, sep. destruct g; [|constructor]. destruct (_ && _); [|constructor]. apply Forall_singleton. by right.
    + intros _. destruct (decide (0 < v / base b)) as [Hq|Hq].
      * destruct (Hhd Hq) as (d' & ds' & -> & H1 & H2). by exists d', (ds' ++ d :: cs).
      * exists d, cs. assert (Ez : v / base b = 0) by lia. rewrite Ez in R, E, Hhd.
        assert (ds = []) as ->; [|split_and!; [done| |by eapply list_elem_of_lookup_2]].
        { destruct fuel; cbn in R; injection R as R; by destruct ds; [|apply (f_equal length) in R; cbn in R; rewrite !length_app in R; cbn in R; rewrite ?length_app in R; lia]. }
        rewrite Ed. pose proof (Z.div_mod v (base b) ltac:(lia)). lia.
Qed.

Lemma print_zeros_run fuel p buf : (length buf <= 63)%nat → (64 <= fuel + length buf)%nat →
  zero_loop fuel p buf = Ret (replicate (Z.to_nat (Z.min p 63 - Z.of_nat (length buf))) (chr "0") ++ buf).
Proof.
  revert buf. induction fuel as [|fuel IH]; intros buf Hb Hf.
  - cbn [zero_loop]. assert (length buf = 63%nat) by lia. lia.
  - cbn [zero_loop]. destruct (Z.ltb_spec (Z.of_nat (length buf)) p), (Z.ltb_spec (Z.of_nat (length buf)) 63); cbn [andb];
      [|by replace (Z.to_nat _) with O by lia..].
    rewrite push_run by lia. cbn [mbind res_bind]. rewrite IH by (cbn; lia).
    replace (Z.to_nat (Z.min p 63 - Z.of_nat (length buf))) with (S (Z.to_nat (Z.min p 63 - Z.of_nat (length (chr "0" :: buf))))) by (cbn; lia).
    rewrite replicate_S_end, <- app_assoc. done.
Qed.

(** ** The shape of a field *)
Definition sign_of (sg ng : bool) (fl : Z) : list Z :=
  if negb sg then [] else if ng then [chr "-"] else if has fl PLUS then [chr "+"] else if has fl SPACE then [chr " "] else [].
Definition prefix_of (b : integer_base) (fl v : Z) : list Z :=
  if has fl POUND && negb (v =? 0) && negb (xchar b =? 0) then [chr "0"; xchar b] else [].
(** The parts of a field, filled up to [w] characters. *)
Definition layout (fl w : Z) (sign prefix body : list Z) : list Z :=
  let fill c := replicate (Z.to_nat (w - Z.of_nat (length (sign ++ prefix ++ body)))) c in
  if has fl MINUS then sign ++ prefix ++ body ++ fill (chr " ")
  else if has fl ZERO then sign ++ prefix ++ fill (chr "0") ++ body
  else fill (chr " ") ++ sign ++ prefix ++ body.

Lemma foldl_zeros b n acc : foldl (λ acc c, if c =? comma then acc else acc * base b + digit_val c) acc (replicate n (chr "0")) = acc * base b ^ Z.of_nat n.
Proof.
  revert acc. induction n as [|n IH]; intros acc; [cbn; lia|]. cbn [replicate foldl]. change (chr "0" =? comma) with false. cbv iota.
  change (digit_val (chr "0")) with 0. rewrite IH, Z.add_0_r, Nat2Z.inj_succ, Z.pow_succ_r by lia. lia.
Qed.

Lemma decode_zeros b n ds : decode b (replicate n (chr "0") ++ ds) = decode b ds.
Proof. rewrite decode_app. unfold decode at 1. rewrite foldl_zeros. done. Qed.

Lemma land_lor_zero fl a b : Z.land fl (Z.lor a b) = 0 ↔ Z.land fl a = 0 ∧ Z.land fl b = 0.
Proof. rewrite Z.land_lor_distr_r, Z.lor_eq_0_iff. done. Qed.

Lemma has_lor fl a b : has fl (Z.lor a b) = has fl a || has fl b.
Proof.
  unfold has. destruct (Z.eqb_spec (Z.land fl (Z.lor a b)) 0) as [E|E], (Z.eqb_spec (Z.land fl a) 0) as [E1|E1],
    (Z.eqb_spec (Z.land fl b) 0) as [E2|E2]; try done; rewrite land_lor_zero in E; tauto.
Qed.

(** The body: the digits, zeros up to the precision, and for octal with # a leading zero. *)
Lemma body_run b fl v prec : b ∈ bases → 0 <= v < 2 ^ 64 →
  ∃ body, (buf ← digit_loop 64 b (has fl GROUP) v 0 []; buf ← zero_loop 64 prec buf;
           if has fl POUND && (base b =? 8) && negb (at_char buf "0") then push (chr "0") buf else mret buf) = Ret body ∧
    decode b body = v ∧ Forall (numeric b (has fl GROUP)) body ∧ (length body <= 64)%nat ∧ Z.min prec 63 <= Z.of_nat (length body) ∧
    (has fl POUND = true → base b = 8 → hd 0 body = chr "0") ∧ (prec <= 1 → has fl POUND = false → 0 < v → hd 0 body ≠ chr "0").
Proof.
  intros Hb Hv. destruct (base_facts b Hb) as (B1 & _ & _ & B4).
  destruct (print_digits_run b (has fl GROUP) 22 64 v 0 [] Hb) as (ds & R & L & E & F & Hhd); [|lia|cbn; lia|].
  { split; [lia|]. apply Z.lt_le_trans with (8 ^ Z.of_nat 22); [|apply Z.pow_le_mono_l]; cbn; lia. }
  assert (L' : (length ds <= 44)%nat) by (destruct (has fl GROUP); lia).
  rewrite R, app_nil_r. cbn [mbind res_bind]. rewrite print_zeros_run by lia. cbn [mbind res_bind].
  set (k := Z.to_nat (Z.min prec 63 - Z.of_nat (length ds))). set (zs := replicate k (chr "0") ++ ds).
  assert (Hz : decode b zs = v ∧ Forall (numeric b (has fl GROUP)) zs ∧ (length zs <= 63)%nat ∧ Z.min prec 63 <= Z.of_nat (length zs)).
  { unfold zs. rewrite decode_zeros, length_app, length_replicate. split_and!; [done| |lia|lia]. apply Forall_app. split; [|done].
    apply Forall_replicate. by left. }
  destruct Hz as (Z1 & Z2 & Z3 & Z4).
  assert (Hn : prec <= 1 → 0 < v → ∃ d ds', zs = d :: ds' ∧ 0 < digit_val d).
  { intros Hp Hv0. destruct (Hhd Hv0) as (d & ds' & Eds & Hd & _). exists d, ds'. unfold zs, k. rewrite Eds.
    replace (Z.to_nat _) with O by (cbn; lia). done. }
  destruct (has fl POUND && (base b =? 8) && negb (at_char zs "0")) eqn:Ec.
  - exists (chr "0" :: zs). rewrite push_run by lia. split; [done|]. change (chr "0" :: zs) with (replicate 1 (chr "0") ++ zs).
    rewrite decode_zeros. split_and!; [done| |rewrite length_app, length_replicate; lia|rewrite length_app, length_replicate; lia|done|].
    + apply Forall_app. split; [|done]. apply Forall_replicate. by left.
    + intros _ Hf. by rewrite Hf in Ec.
  - exists zs. split_and!; try done; try lia.
    + intros Hf H8. rewrite Hf, (proj2 (Z.eqb_eq _ _) H8) in Ec. cbn in Ec. destruct zs as [|z zs']; [done|]. cbn in *.
      apply negb_false_iff, Z.eqb_eq in Ec. done.
    + intros Hp _ Hv0. destruct (Hn Hp Hv0) as (d & ds' & -> & Hd). cbn. intros ->. done.
Qed.

Lemma format_integer_field S (out : Z → cmd S unit) s v sg ng b c body :
  b ∈ bases → 0 <= width c < 2 ^ 31 → has (flags c) MINUS && has (flags c) ZERO = false → (length body <= 64)%nat →
  (buf ← digit_loop 64 b (has (flags c) GROUP) v 0 []; buf ← zero_loop 64 (if precision c <? 0 then 1 else precision c) buf;
     if has (flags c) POUND && (base b =? 8) && negb (at_char buf "0") then push (chr "0") buf else mret buf) = Ret body →
  format_integer out v sg ng b c s =
    output_all out (layout (flags c) (width c) (sign_of sg ng (flags c)) (prefix_of b (flags c) v) body) s.
Proof.
  intros Hb Hw Hmz Hl Hbody. unfold format_integer.
  set (sign := if sg then _ else 0). set (x := if has (flags c) POUND && _ then _ else 0).
  destruct (digit_loop _ _ _ _ _ _) as [b1|] eqn:E1; [|done]. cbn [mbind res_bind] in Hbody.
  destruct (zero_loop _ _ b1) as [b2|] eqn:E2; [|done]. cbn [mbind res_bind] in Hbody.
  rewrite lift_bind, E2, lift_bind, Hbody, lift_bind.
  assert (Hs : sign_of sg ng (flags c) = if sign =? 0 then [] else [sign]).
  { unfold sign_of, sign. destruct sg, ng, (has (flags c) PLUS), (has (flags c) SPACE); done. }
  assert (Hx : prefix_of b (flags c) v = if x =? 0 then [] else [chr "0"; x]).
  { unfold prefix_of, x. destruct (has (flags c) POUND && negb (v =? 0)); [|done]. cbn. by destruct (xchar b =? 0). }
  rewrite Hs, Hx. clearbody sign x. clear Hs Hx Hbody E1 E2.
  set (ss := if sign =? 0 then [] else [sign]). set (xs := if x =? 0 then [] else [chr "0"; x]).
  set (pad := s32 _). assert (Hpad : pad = width c - Z.of_nat (length (ss ++ xs ++ body))).
  { unfold pad. rewrite s32_small by (destruct (x =? 0), (sign =? 0); lia). unfold ss, xs. rewrite !length_app.
    destruct (x =? 0), (sign =? 0); cbn [length]; lia. }
  set (n := Z.to_nat (u32 (if pad <? 0 then 0 else pad))).
  assert (Hn : n = Z.to_nat (width c - Z.of_nat (length (ss ++ xs ++ body)))).
  { unfold n. rewrite <- Hpad. destruct (Z.ltb_spec pad 0); [rewrite u32_small by lia; lia|]. rewrite u32_small; [done|]. lia. }
  unfold output_dup, layout. fold n. rewrite <- Hn. rewrite has_lor.
  assert (Eo : ∀ t u (k : cmd S unit), (∀ s, k s = output_all out u s) → ∀ s, (output_all out t;; k) s = output_all out (t ++ u) s).
  { intros t u k Hk s0. rewrite output_all_app. unfold mbind, cmd_bind. by destruct (output_all out t s0) as [[[] s1]|]. }
  assert (Es : ∀ u (k : cmd S unit), (∀ s, k s = output_all out u s) → ∀ s, ((if sign =? 0 then mret tt else out sign);; k) s = output_all out (ss ++ u) s).
  { intros u k Hk s0. unfold ss. destruct (sign =? 0); [apply Hk|]. cbn. unfold mbind, cmd_bind. by destruct (out sign s0) as [[[] s1]|]. }
  assert (Ex : ∀ u (k : cmd S unit), (∀ s, k s = output_all out u s) → ∀ s, ((if x =? 0 then mret tt else out (chr "0");; out x);; k) s = output_all out (xs ++ u) s).
  { intros u k Hk s0. unfold xs. destruct (x =? 0); [apply Hk|]. cbn [app output_all]. unfold mbind, cmd_bind.
    destruct (out (chr "0") s0) as [[[] s1]|]; [|done]. by destruct (out x s1) as [[[] s2]|]. }
  destruct (has (flags c) MINUS) eqn:Em, (has (flags c) ZERO) eqn:Ez; try done; cbn [orb andb negb].
  - rewrite ret_bind. apply Es. intros s1. apply Ex. intros s2. rewrite ret_bind. by apply Eo.
  - rewrite ret_bind. apply Es. intros s1. apply Ex. intros s2. apply Eo. intros s3.
    rewrite (Eo body [] (mret tt)) by done. by rewrite app_nil_r.
  - apply Eo. intros s0. apply Es. intros s1. apply Ex. intros s2. rewrite ret_bind.
    rewrite (Eo body [] (mret tt)) by done. by rewrite app_nil_r.
Qed.

Definition effective_precision (c : printf_conversion) : Z := if precision c <? 0 then 1 else precision c.


(** ** Reading back what was printed *)
Lemma decode_decimal ds : Forall (λ c, isdigit c = true) ds → decode base_d ds = decimal ds.
Proof.
  intros Hd. unfold decode, decimal. generalize 0. induction Hd as [|c ds Hc Hd IH]; intros acc; [done|]. cbn [foldl].
  assert (Hr : 48 <= c <= 57) by (unfold isdigit in Hc; lia). rewrite (proj2 (Z.eqb_neq c comma)) by (change comma with 44; lia).
  unfold digit_val at 2. rewrite Hc. apply IH.
Qed.

Lemma vprintf_conversion {S} m (out : Z → cmd S unit) fuel format args s :
  at_char format "%" = false →
  vprintf_loop m out (Datatypes.S fuel) (chr "%" :: format) args s =
    ('(format, c, args) ← lift_res (parse_conversion format args);
     args ← convert m out (vprintf_loop m out fuel) c (hd 0 format) args;
     match format with [] => throw OutOfBounds | _ :: format => vprintf_loop m out fuel format args end) s.
Proof. intros E. cbn [vprintf_loop]. rewrite Z.eqb_refl, E. done. Qed.

(** The text of %d. *)
Lemma text_decimal m v : - 2 ^ 31 <= v < 2 ^ 31 →
  ∃ ds, text m (chars "%d") [u32 v] = Ret ((if v <? 0 then [chr "-"] else []) ++ ds) ∧ ds ≠ [] ∧ (length ds <= 10)%nat ∧
    Forall (λ c, isdigit c = true) ds ∧ decimal ds = Z.abs v.
Proof.
  intros Hv. set (c := mk_conv 0 0 (-1) INT). assert (Es : s32 (u32 v) = v).
  { unfold s32, u32. rewrite Z.add_mod_idemp_l by lia. apply s32_small. done. }
  destruct (print_digits_run base_d false 10 64 (Z.abs v) 0 []) as (ds & R & L & E & F & _); [by left|cbn; lia|lia|cbn; lia|].
  set (body := replicate (Z.to_nat (1 - Z.of_nat (length ds))) (chr "0") ++ ds). rewrite app_nil_r in R.
  assert (Hb : Forall (λ c, isdigit c = true) body).
  { apply Forall_app. split; [by apply Forall_replicate|]. eapply Forall_impl; [exact F|]. intros x [Hx|[[=] _]].
    assert (Hall : Forall (λ c, isdigit c = true) (digits base_d)) by by_decision. rewrite Forall_forall in Hall. by apply Hall. }
  exists body. split_and!; [| | |done|].
  - unfold text, __vprintf. change (chars "%d") with [chr "%"; 100]. change (length [chr "%"; 100%Z] + 32)%nat with (S 33).
    assert (Ep : parse_conversion [100] [u32 v] = Ret ([100], c, [u32 v])) by reflexivity.
    rewrite vprintf_conversion, Ep, lift_bind by done. cbv beta iota. change (hd 0 [100]) with (chr "d").
    assert (Ec : ∀ ag l, convert m collect ag c (chr "d") [u32 v] l = Ret ([], l ++ (if v <? 0 then [chr "-"] else []) ++ body)).
    { intros ag l. unfold convert. change ((chr "d" =? chr "d") || (chr "d" =? chr "i")) with true. cbv iota.
      change (signed_arg (type c) [u32 v]) with (Ret (s32 (u32 v), @nil Z)). rewrite lift_bind, Es. cbv beta iota.
      assert (Ev : u64 (if v <? 0 then - v else v) = Z.abs v).
      { unfold u64. rewrite Z.mod_small; destruct (Z.ltb_spec v 0); lia. }
      rewrite Ev. unfold mbind, cmd_bind. rewrite (format_integer_field _ collect l _ _ _ _ c body); [|by left|done|done| |].
      - rewrite collect_all. do 4 f_equal. unfold layout, sign_of, prefix_of. cbn [has flags c width]. change (has 0 MINUS) with false.
        change (has 0 ZERO) with false. change (has 0 POUND) with false. change (has 0 PLUS) with false. change (has 0 SPACE) with false.
        cbv iota. cbn [negb andb]. replace (Z.to_nat (0 - _)) with O by lia. by destruct (v <? 0).
      - unfold body. rewrite length_app, length_replicate. lia.
      - change (has (flags c) GROUP) with false. rewrite R. cbn [mbind res_bind]. change (precision c <? 0) with true. cbv iota.
        rewrite print_zeros_run by lia. cbn [mbind res_bind]. change (has (flags c) POUND) with false. cbn [andb]. done. }
    erewrite bind_Ret; [|apply Ec]. done.
  - unfold body. destruct ds; [done|by rewrite app_nil_r || (intros E'; apply (f_equal length) in E'; rewrite length_app in E'; cbn in E'; lia)].
  - unfold body. rewrite length_app, length_replicate. lia.
  - rewrite <- decode_decimal by done. unfold body. by rewrite decode_zeros.
Qed.

(** Printing an [int] with %d into a buffer of twelve characters and
    reading the buffer with [atoi] gives the number back. *)
Theorem decimal_roundtrip m b buffer v :
  - 2 ^ 31 <= v < 2 ^ 31 → 0 < buffer → mapped b buffer 12 →
  ∃ n b', vsnprintf m buffer 12 (chars "%d") [u32 v] b = Ret (n, b') ∧ atoi buffer b' = Ret (v, b').
Proof.
  intros Hv Hp Hm. destruct (text_decimal m v Hv) as (ds & Ht & Hne & Hl & Hd & Hval).
  set (t := (if v <? 0 then [chr "-"] else []) ++ ds) in *.
  assert (Htl : (length t <= 11)%nat) by (unfold t; rewrite length_app; destruct (v <? 0); cbn; lia).
  eexists _, _. split; [apply (vsnprintf_run m buffer 12 _ _ t b Ht); [lia|lia|done]|]. cbn [Z.ltb Z.compare].
  rewrite take_ge by (cbn; lia). set (b' := write b buffer (t ++ [0])).
  assert (Hdig : Forall (λ c, c ≠ 0) ds) by (eapply Forall_impl; [exact Hd|]; intros c Hc ->; done).
  destruct (atoi_correct b' buffer [] (if v <? 0 then [45] else []) ds []) as [_ Ha]; try done.
  - destruct (v <? 0); [right; right; left|left].
  - split; [done|]. rewrite app_nil_r. cbn [app]. split; [|unfold b'; apply bytes_at_write].
    rewrite not_elem_of_app. split; [destruct (v <? 0); by_decision|]. rewrite Forall_forall in Hdig. intros H0. by apply (Hdig 0 H0).
  - assert (Ev : (if bool_decide ((if v <? 0 then [45] else []) = [45]) then - decimal ds else decimal ds) = v)
      by (rewrite Hval; destruct (Z.ltb_spec v 0); [rewrite bool_decide_true by done|rewrite bool_decide_false by done]; lia).
    cbv zeta in Ha. rewrite Ev in Ha. by apply Ha.
Qed.

(** ** Examples *)
Definition ex_buf : mem := write ∅ 100 (replicate 16 0).
Lemma ex_buf_mapped n : (n <= 16)%nat → mapped ex_buf 100 n.
Proof. intros Hn x Hx. apply (bytes_at_mapped _ _ _ (bytes_at_write ∅ 100 (replicate 16 0))). rewrite length_replicate. lia. Qed.

Lemma decimal_roundtrip_witness : ∃ n b', vsnprintf ∅ 100 12 (chars "%d") [u32 (-42)] ex_buf = Ret (n, b') ∧ atoi 100 b' = Ret (-42, b').
Proof. exact (decimal_roundtrip ∅ ex_buf 100 (-42) ltac:(lia) ltac:(lia) (ex_buf_mapped 12 ltac:(lia))). Defined.


Lemma vsnprintf_truncates_witness :
  ∃ b', vsnprintf ∅ 100 4 (chars "%d|%x") [123; 255] ex_buf = Ret (6, b') ∧ bytes_at b' 100 (chars "123" ++ [0]).
Proof.
  destruct (vsnprintf_truncates ∅ 100 4 (chars "%d|%x") [123; 255] (chars "123|ff") ex_buf) as (b' & R & _ & Hb & _);
    [vm_compute; reflexivity|lia|by vm_compute|exact (ex_buf_mapped 4 ltac:(lia))|].
  exists b'. exact (conj R (Hb ltac:(lia))).
Defined.

Lemma vhprintf_writes_text_witness :
  ∃ w, vhprintf ∅ 1 (chars "%5d") [42] = Ret (5, w) ∧ concat (snd <$> w) = chars "   42".
Proof.
  destruct (vhprintf_writes_text ∅ 1 (chars "%5d") [42] (chars "   42")) as (w & R & E & _); [vm_compute; reflexivity|by vm_compute|].
  exists w. exact (conj R E).
Defined.

(** A negative width taken from an argument leaves both the zero and the minus
    flag set, and the field is filled on both sides. *)
Example negative_width_pads_twice : text ∅ (chars "%0*d|") [2 ^ 32 - 5; 42] = Ret (chars "00042   |").
Proof. vm_compute. reflexivity. Qed.

(** A format that ends in a percent sign is read past its end. *)
Example trailing_percent : text ∅ (chars "100%") [] = Err OutOfBounds.
Proof. vm_compute. reflexivity. Qed.
