(* ===== verification/Console.v ===== *)
(** * The kernel's console (lib/kernel/console.c) and the printing routines of
      lib/stdio.c that use it

    [shown] is what the serial port and the display have been sent.  The
    console lock can be taken again by its holder; [console_lock_depth] counts
    how often.  [me] is the running thread. *)
From S2P Require Import Prelude KString KStringSpec LibStd Stdio StdioSpec.
From stdpp Require Import strings.
Open Scope Z_scope.

Record console : Set := mk_console {
  console_lock : option positive;
  use_console_lock : bool;
  console_lock_depth : Z;
  write_cnt : Z;
  shown : list Z
}.

Definition isprint (c : Z) : bool := (32 <=? c) && (c <? 127).

Section console.
Context (m : mem) (me : positive) (intr_context : bool).

Definition console_init : cmd console unit :=
  modify (λ s, mk_console None true (console_lock_depth s) (write_cnt s) (shown s)).
Definition console_panic : cmd console unit :=
  modify (λ s, mk_console (console_lock s) false (console_lock_depth s) (write_cnt s) (shown s)).

(** A lock that another thread holds would make the running thread wait: a
    printing routine runs to its end here, so this is the error [Deadlock]. *)
Definition acquire_console : cmd console unit := λ s,
  if negb intr_context && use_console_lock s then
    match console_lock s with
    | Some t =>
        if bool_decide (t = me) then
          Ret (tt, mk_console (console_lock s) (use_console_lock s) (s32 (console_lock_depth s + 1)) (write_cnt s) (shown s))
        else Err Deadlock
    | None => Ret (tt, mk_console (Some me) (use_console_lock s) (console_lock_depth s) (write_cnt s) (shown s))
    end
  else Ret (tt, s).
Definition release_console : cmd console unit := λ s,
  if negb intr_context && use_console_lock s then
    if 0 <? console_lock_depth s then
      Ret (tt, mk_console (console_lock s) (use_console_lock s) (console_lock_depth s - 1) (write_cnt s) (shown s))
    else if bool_decide (console_lock s = Some me) then
      Ret (tt, mk_console None (use_console_lock s) (console_lock_depth s) (write_cnt s) (shown s))
    else Err AssertFail
  else Ret (tt, s).
Definition console_locked_by_current_thread (s : console) : bool :=
  intr_context || negb (use_console_lock s) || bool_decide (console_lock s = Some me).

Definition putchar_have_lock (c : Z) : cmd console unit := λ s,
  if console_locked_by_current_thread s then
    Ret (tt, mk_console (console_lock s) (use_console_lock s) (console_lock_depth s) (s64 (write_cnt s + 1)) (shown s ++ [u8 c]))
  else Err AssertFail.

(** The callback of [vprintf] also counts. *)
Definition vprintf_helper (c : Z) : cmd (console * Z) unit := λ '(s, char_cnt),
  match putchar_have_lock c s with Ret (_, s) => Ret (tt, (s, s32 (char_cnt + 1))) | Err e => Err e end.
Definition vprintf (format args : list Z) : cmd console Z :=
  acquire_console;;
  cnt ← (λ s, match __vprintf m vprintf_helper format args (s, 0) with
              | Ret (_, (s, cnt)) => Ret (cnt, s) | Err e => Err e end);
  release_console;;
  mret cnt.
(** [printf (format, ...)]. *)
Definition printf (format : string) (args : list Z) : cmd console Z := vprintf (chars format) args.
Definition console_print_stats : cmd console Z :=
  n ← gets write_cnt; printf "Console: %lld characters output
" [u64 n mod 2 ^ 32; u64 n / 2 ^ 32].

Fixpoint puts_loop (fuel : nat) (s : Z) : cmd console unit :=
  match fuel with
  | O => throw NoFuel
  | S fuel =>
      match m !! s with
      | None => throw BadPtr
      | Some c => if c =? 0 then mret tt else putchar_have_lock c;; puts_loop fuel (s + 1)
      end
  end.
Definition puts (s : Z) : cmd console Z :=
  acquire_console;;
  puts_loop (str_fuel m) s;;
  putchar_have_lock 10;;
  release_console;;
  mret 0.

Fixpoint putbuf_loop (n : nat) (buffer : Z) : cmd console unit :=
  match n with
  | O => mret tt
  | S n =>
      match m !! buffer with
      | None => throw BadPtr
      | Some c => putchar_have_lock c;; putbuf_loop n (buffer + 1)
      end
  end.
Definition putbuf (buffer n : Z) : cmd console unit :=
  acquire_console;; putbuf_loop (Z.to_nat n) buffer;; release_console.
Definition putchar (c : Z) : cmd console Z :=
  acquire_console;; putchar_have_lock c;; release_console;; mret c.

(** ** [hex_dump] *)
Fixpoint repeat_printf (n : nat) (format : string) : cmd console unit :=
  match n with O => mret tt | S n => printf format [];; repeat_printf n format end.
(** The bytes from position [i] of the line on, as hex. *)
Fixpoint dump_hex (bs : list Z) (i : Z) : cmd console unit :=
  match bs with
  | [] => mret tt
  | b :: bs => printf "%02hhx%c" [b; if i =? 16 / 2 - 1 then chr "-" else chr " "];; dump_hex bs (i + 1)
  end.
Fixpoint dump_chars (bs : list Z) : cmd console unit :=
  match bs with
  | [] => mret tt
  | b :: bs => printf "%c" [if isprint b then b else chr "."];; dump_chars bs
  end.
Definition dump_line (ofs start : Z) (bs : list Z) (ascii : bool) : cmd console unit :=
  let end_ := start + Z.of_nat (length bs) in
  printf "%08jx  " [ROUND_DOWN ofs 16; 0];;
  repeat_printf (Z.to_nat start) "   ";;
  dump_hex bs start;;
  (if ascii then
     repeat_printf (Z.to_nat (16 - end_)) "   ";;
     printf "|" [];;
     repeat_printf (Z.to_nat start) " ";;
     dump_chars bs;;
     repeat_printf (Z.to_nat (16 - end_)) " ";;
     printf "|" []
   else mret 0);;
  printf "
" [];;
  mret tt.
(** Each round takes at least one byte of the buffer. *)
Fixpoint hex_dump_loop (fuel : nat) (ofs : Z) (buf : list Z) (ascii : bool) : cmd console unit :=
  match buf with
  | [] => mret tt
  | _ =>
      match fuel with
      | O => throw NoFuel
      | S fuel =>
          let start := ofs mod 16 in
          let n := Z.to_nat (Z.min (16 - start) (Z.of_nat (length buf))) in
          dump_line ofs start (take n buf) ascii;;
          hex_dump_loop fuel (u32 (ofs + Z.of_nat n)) (drop n buf) ascii
      end
  end.
Definition hex_dump (ofs : Z) (buf : list Z) (ascii : bool) : cmd console unit := hex_dump_loop (length buf) ofs buf ascii.

(** ** [print_human_readable_size]
    The loop divides while a larger unit is left; [unit_] is an index of
    [factors]. *)
Definition factors : list string := ["bytes"; "kB"; "MB"; "GB"; "TB"].
Fixpoint human_loop (n : nat) (size : Z) (unit_ : nat) : Z * nat :=
  match n with
  | O => (size, unit_)
  | S n => if 1024 <=? size then human_loop n (size / 1024) (S unit_) else (size, unit_)
  end.
(** [names]: where the strings of [factors] are. *)
Definition print_human_readable_size (names : list Z) (size : Z) : cmd console Z :=
  if size =? 1 then printf "1 byte" [] else
  let '(size, u) := human_loop (length factors - 1) size 0 in
  match names !! u with
  | Some p => printf "%llu %s" [size mod 2 ^ 32; size / 2 ^ 32; p]
  | None => throw OutOfBounds
  end.
End console.

(** ** What the routines print *)
Section prints.
Context (m : mem) (me : positive) (intr : bool).
Implicit Types (s : console) (t : list Z).

(** The running thread does not have to wait for the lock. *)
Definition ready s : Prop :=
  negb intr && use_console_lock s = true →
  (console_lock s = None ∧ console_lock_depth s = 0) ∨ (console_lock s = Some me ∧ 0 <= console_lock_depth s < 2 ^ 31 - 1).
(** [s] after the characters [t]: the lock and its depth are as they were. *)
Definition wrote s t : console :=
  mk_console (console_lock s) (use_console_lock s) (console_lock_depth s) (write_cnt s + Z.of_nat (length t)) (shown s ++ (u8 <$> t)).
Definition may_count s (n : Z) : Prop := 0 <= write_cnt s ∧ write_cnt s + n < 2 ^ 63.

Lemma wrote_nil s : wrote s [] = s.
Proof. destruct s. unfold wrote. cbn. by rewrite Z.add_0_r, app_nil_r. Qed.
Lemma wrote_app s t u : wrote (wrote s t) u = wrote s (t ++ u).
Proof. unfold wrote. cbn. rewrite length_app, fmap_app, <- app_assoc. f_equal. lia. Qed.

Lemma putchar_run c s : console_locked_by_current_thread me intr s = true → may_count s 1 →
  putchar_have_lock me intr c s = Ret (tt, wrote s [c]).
Proof. intros Hl [??]. unfold putchar_have_lock. rewrite Hl, s64_small by lia. done. Qed.

Lemma putchars_run t s : console_locked_by_current_thread me intr s = true → may_count s (Z.of_nat (length t)) →
  output_all (putchar_have_lock me intr) t s = Ret (tt, wrote s t).
Proof.
  revert s. induction t as [|c t IH]; intros s Hl [H0 Hc]; cbn [length] in Hc; [by rewrite wrote_nil|]. cbn [output_all].
  rewrite (bind_Ret _ _ _ _ _ (putchar_run c s Hl ltac:(split; lia))), IH; [|done|split; cbn; lia]. by rewrite wrote_app.
Qed.

Lemma counted_run t s n : console_locked_by_current_thread me intr s = true → may_count s (Z.of_nat (length t)) →
  0 <= n → n + Z.of_nat (length t) < 2 ^ 31 →
  output_all (vprintf_helper me intr) t (s, n) = Ret (tt, (wrote s t, n + Z.of_nat (length t))).
Proof.
  revert s n. induction t as [|c t IH]; intros s n Hl [H0 Hc] Hn Hm; cbn [length] in Hc, Hm; [by rewrite wrote_nil, Z.add_0_r|].
  cbn [output_all]. unfold mbind, cmd_bind, vprintf_helper at 1. rewrite putchar_run by (done || (split; lia)). rewrite s32_small by lia.
  rewrite IH; [|done|split; cbn; lia|lia|lia]. rewrite wrote_app. do 3 f_equal. cbn. lia.
Qed.

(** A body that only prints, between acquiring and releasing the lock. *)
Lemma locked_run {A} (body : cmd console A) s t (a : A) : ready s →
  (∀ s', console_locked_by_current_thread me intr s' = true → write_cnt s' = write_cnt s → body s' = Ret (a, wrote s' t)) →
  (acquire_console me intr;; x ← body; release_console me intr;; mret x) s = Ret (a, wrote s t).
Proof.
  intros Hr Hb. unfold mbind, cmd_bind, acquire_console, release_console.
  destruct (negb intr && use_console_lock s) eqn:E.
  - pose proof (andb_prop _ _ E) as [Hi Hu]. destruct (Hr E) as [[El Ed]|[El Ed]]; rewrite El.
    + rewrite Hb; [|unfold console_locked_by_current_thread; cbn; by rewrite bool_decide_true, !orb_true_r|done].
      cbn. rewrite Hi, Hu, Ed. cbn. rewrite bool_decide_true by done. unfold wrote. by rewrite El, Hu, Ed.
    + rewrite bool_decide_true by done. rewrite s32_small by lia.
      rewrite Hb; [|unfold console_locked_by_current_thread; cbn; by rewrite bool_decide_true, !orb_true_r|done].
      cbn. rewrite Hi, Hu. cbn. rewrite (proj2 (Z.ltb_lt 0 _)) by lia. unfold wrote. rewrite El, Hu. cbn. by rewrite Z.add_simpl_r.
  - rewrite Hb; [|unfold console_locked_by_current_thread; by destruct intr, (use_console_lock s)|done]. cbn. by rewrite E.
Qed.

Lemma puts_loop_run t p fuel s : (length t < fuel)%nat → cstr m p t →
  console_locked_by_current_thread me intr s = true → may_count s (Z.of_nat (length t)) →
  puts_loop m me intr fuel p s = Ret (tt, wrote s t).
Proof.
  revert p fuel s. induction t as [|c t IH]; intros p [|fuel] s Hf Hp Hl [H0 Hc]; cbn [length] in *; try lia; cbn [puts_loop].
  - apply cstr_nil in Hp as [_ ->]. by rewrite wrote_nil.
  - apply cstr_cons in Hp as (_ & Hn & -> & Hp). rewrite eqb_false by done.
    rewrite (bind_Ret _ _ _ _ _ (putchar_run c s Hl ltac:(split; lia))), IH; [by rewrite wrote_app|lia|done|done|split; cbn; lia].
Qed.

Lemma putbuf_loop_run t p s : bytes_at m p t →
  console_locked_by_current_thread me intr s = true → may_count s (Z.of_nat (length t)) →
  putbuf_loop m me intr (length t) p s = Ret (tt, wrote s t).
Proof.
  revert p s. induction t as [|c t IH]; intros p s Hp Hl [H0 Hc]; cbn [length putbuf_loop bytes_at] in *; [by rewrite wrote_nil|].
  destruct Hp as [-> Hp].
  rewrite (bind_Ret _ _ _ _ _ (putchar_run c s Hl ltac:(split; lia))), IH; [by rewrite wrote_app|done|done|split; cbn; lia].
Qed.

Lemma vprintf_run format args t s : ready s → text m format args = Ret t → Z.of_nat (length t) < 2 ^ 31 →
  may_count s (Z.of_nat (length t)) → vprintf m me intr format args s = Ret (Z.of_nat (length t), wrote s t).
Proof.
  intros Hr Ht Hl [H0 Hc]. unfold vprintf. apply locked_run; [done|]. intros s' Hs Hw.
  rewrite (vprintf_text _ _ _ _ Ht), counted_run; [|done|split; rewrite Hw; lia|lia|lia]. by rewrite Z.add_0_l.
Qed.

(** C36: The console routines show exactly their text: [vprintf] the formatted
    text, whose length it returns, [puts] the string and a new line, [putbuf]
    the bytes of the buffer, [putchar] its character.  Each counts what it
    writes and leaves the console lock and its depth as it found them, whether
    the lock was free, was held by the caller, or is not in use because an
    interrupt is being handled or the kernel has panicked. *)
Theorem console_output_exact s : ready s →
  (∀ format args t, text m format args = Ret t → Z.of_nat (length t) < 2 ^ 31 → may_count s (Z.of_nat (length t)) →
     vprintf m me intr format args s = Ret (Z.of_nat (length t), wrote s t)) ∧
  (∀ p t, cstr m p t → may_count s (Z.of_nat (length t) + 1) → puts m me intr p s = Ret (0, wrote s (t ++ [10]))) ∧
  (∀ p t, bytes_at m p t → may_count s (Z.of_nat (length t)) → putbuf m me intr p (Z.of_nat (length t)) s = Ret (tt, wrote s t)) ∧
  (∀ c, may_count s 1 → putchar me intr c s = Ret (c, wrote s [c])).
Proof.
  intros Hr. split_and!.
  - intros. by apply vprintf_run.
  - intros p t Hp [H0 Hc].
    pose proof (locked_run (puts_loop m me intr (str_fuel m) p;; putchar_have_lock me intr 10;; mret 0) s (t ++ [10]) 0 Hr) as H.
    unfold puts. unfold mbind, cmd_bind in *. rewrite <- H; clear H.
    + destruct (acquire_console me intr s) as [[[] s1]|]; [|done].
      destruct (puts_loop m me intr (str_fuel m) p s1) as [[[] s2]|]; [|done].
      by destruct (putchar_have_lock me intr 10 s2) as [[[] s3]|].
    + intros s' Hs Hw. rewrite (puts_loop_run t); [|by eapply cstr_fuel|done|done|split; rewrite Hw; lia].
      rewrite putchar_run; [by rewrite wrote_app|done|split; cbn; lia].
  - intros p t Hp [H0 Hc]. unfold putbuf. rewrite Nat2Z.id.
    pose proof (locked_run (putbuf_loop m me intr (length t) p) s t tt Hr) as H.
    unfold mbind, cmd_bind in *. rewrite <- H.
    + destruct (acquire_console me intr s) as [[[] s1]|]; [|done].
      destruct (putbuf_loop m me intr (length t) p s1) as [[[] s2]|]; [|done].
      by destruct (release_console me intr s2) as [[[] s3]|].
    + intros s' Hs Hw. apply putbuf_loop_run; [done|done|split; rewrite Hw; lia].
  - intros c [H0 Hc].
    pose proof (locked_run (putchar_have_lock me intr c;; mret c) s [c] c Hr) as H.
    unfold putchar. unfold mbind, cmd_bind in *. rewrite <- H.
    + destruct (acquire_console me intr s) as [[[] s1]|]; [|done].
      by destruct (putchar_have_lock me intr c s1) as [[[] s2]|].
    + intros s' Hs Hw. rewrite putchar_run; [done|done|split; rewrite Hw; lia].
Qed.
End prints.

(** The unit is the largest one in which the size is at least 1, and the size
    is rounded down to it. *)
Lemma human_loop_correct n size u : 0 <= size →
  ∃ k, (k <= n)%nat ∧ human_loop n size u = (size / 1024 ^ Z.of_nat k, (u + k)%nat) ∧
    ((0 < k)%nat → 1024 ^ Z.of_nat k <= size) ∧ ((k < n)%nat → size < 1024 ^ Z.of_nat (S k)).
Proof.
  revert size u. induction n as [|n IH]; intros size u Hs; cbn [human_loop].
  - exists 0%nat. rewrite Z.pow_0_r, Z.div_1_r, Nat.add_0_r. split_and!; [lia|done|lia|lia].
  - destruct (Z.leb_spec 1024 size) as [Hb|Hb].
    + destruct (IH (size / 1024) (S u) ltac:(apply Z.div_pos; lia)) as (k & Hk & -> & H1 & H2).
      exists (S k). rewrite Nat2Z.inj_succ, Z.pow_succ_r, Z.div_div by lia.
      rewrite Nat.add_succ_r. split_and!; [lia|done| |].
      * intros _. apply (Z.le_trans _ (1024 * (size / 1024))); [|apply Z.mul_div_le; lia]. apply Z.mul_le_mono_nonneg_l; [lia|].
        destruct k as [|k]; [rewrite Z.pow_0_r; apply (Z.div_le_mono 1024 size 1024); lia|]. apply H1. lia.
      * intros Hn. specialize (H2 ltac:(lia)).
        rewrite Nat2Z.inj_succ, Z.pow_succ_r by lia. rewrite Nat2Z.inj_succ in H2.
        pose proof (Z.div_mod size 1024 ltac:(lia)). pose proof (Z.mod_pos_bound size 1024 ltac:(lia)). nia.
    + exists 0%nat. rewrite Z.pow_0_r, Z.div_1_r, Nat.add_0_r. split_and!; [lia|done|lia|]. intros _. done.
Qed.

Definition quiet : console := mk_console None true 0 0 [].
Definition memory0 : mem := write ∅ 100 (chars "ok" ++ [0]).
Lemma console_output_exact_witness :
  puts memory0 1%positive false 100 quiet = Ret (0, wrote quiet (chars "ok" ++ [10])) ∧
  vprintf memory0 1%positive false (chars "%d-%s") [7; 100] quiet = Ret (4, wrote quiet (chars "7-ok")).
Proof.
  destruct (console_output_exact memory0 1%positive false quiet) as (Hv & Hp & _ & _).
  { intros _. by left. }
  split.
  - apply (Hp 100 (chars "ok")); [|split; cbn; lia]. split_and!; [lia| |apply bytes_at_write].
    intros H. by vm_compute in H; set_solver.
  - apply (Hv (chars "%d-%s") [7; 100] (chars "7-ok")); [by vm_compute|cbn; lia|split; cbn; lia].
Defined.

Example hex_dump_example :
  match hex_dump ∅ 1%positive false 14 [72; 105; 10] true quiet with
  | Ret (_, s) => shown s = chars "00000000                                            48 69 |              Hi|
00000010  0a                                              |.               |
"
  | Err _ => False
  end.
Proof. by vm_compute. Qed.
Example human_readable_example :
  let m := write ∅ 100 (chars "kB" ++ [0]) in
  match print_human_readable_size m 1%positive false [0; 100; 0; 0; 0] (256 * 1024 + 5) quiet with
  | Ret (_, s) => shown s = chars "256 kB" | Err _ => False end.
Proof. by vm_compute. Qed.
