(* ===== verification/Ustar.v ===== *)
(** * The archive format of the file system utilities (lib/ustar.c, lib/ustar.h)

    A header is the list of its 512 bytes and a file name the list of its
    characters.  What [strlcpy] and [snprintf] store in a field is the text,
    cut to the field, and a null byte (KStringSpec and StdioSpec). *)
From S2P Require Import Prelude KString KStringSpec LibStd Stdio StdioSpec.
From stdpp Require Import strings.
Open Scope Z_scope.

Definition USTAR_HEADER_SIZE : nat := 512.
Inductive ustar_type : Set := USTAR_REGULAR | USTAR_DIRECTORY | USTAR_EOF.
#[global] Instance ustar_type_eq_dec : EqDecision ustar_type.
Proof. solve_decision. Defined.
(** The byte that stands for a type. *)
Definition type_byte (t : ustar_type) : Z :=
  match t with USTAR_REGULAR => chr "0" | USTAR_DIRECTORY => chr "5" | USTAR_EOF => -1 end.

(** ** The fields of a header: offset and size *)
Definition name : nat * nat := (0, 100)%nat.
Definition mode : nat * nat := (100, 8)%nat.
Definition uid : nat * nat := (108, 8)%nat.
Definition gid : nat * nat := (116, 8)%nat.
Definition size : nat * nat := (124, 12)%nat.
Definition mtime : nat * nat := (136, 12)%nat.
Definition chksum : nat * nat := (148, 8)%nat.
Definition typeflag : nat * nat := (156, 1)%nat.
Definition magic : nat * nat := (257, 6)%nat.
Definition version : nat * nat := (263, 2)%nat.
Definition uname : nat * nat := (265, 32)%nat.
Definition gname : nat * nat := (297, 32)%nat.
Definition prefix : nat * nat := (345, 155)%nat.

(** Bytes stored at the start of a field, and the bytes of a field. *)
Definition put (f : nat * nat) (bs h : list Z) : list Z := take f.1 h ++ bs ++ drop (f.1 + length bs) h.
Definition field (f : nat * nat) (h : list Z) : list Z := take f.2 (drop f.1 h).

(** [strlcpy (h->f, s, sizeof h->f)], and [snprintf (h->f, sizeof h->f, ...)] of
    a text [s]. *)
Definition put_string (f : nat * nat) (s h : list Z) : list Z := put f (take (f.2 - 1) s ++ [0]) h.

(** ** The operations *)
Definition in_chksum_field (i : nat) : bool := (chksum.1 <=? i)%nat && (i <? chksum.1 + chksum.2)%nat.
Fixpoint chksum_loop (i : nat) (h : list Z) (acc : Z) : Z :=
  match h with
  | [] => acc
  | b :: h => chksum_loop (S i) h (u32 (acc + if in_chksum_field i then chr " " else b))
  end.
Definition calculate_chksum (h : list Z) : Z := chksum_loop 0 h 0.

(** [memcmp (s, pre, strlen (pre)) == 0]. *)
Definition begins (pre : string) (s : list Z) : bool := bool_decide (take (length (chars pre)) s = chars pre).
(** [strchr (s, '/') + 1]. *)
Fixpoint after_slash (s : list Z) : list Z :=
  match s with [] => [] | c :: s => if c =? chr "/" then s else after_slash s end.
Fixpoint strip_loop (fuel : nat) (s : list Z) : list Z :=
  match fuel with
  | O => s
  | S fuel => if begins "/" s || begins "./" s || begins "../" s then strip_loop fuel (after_slash s) else s
  end.
(** Each round drops a character at least, so the length is enough. *)
Definition strip_antisocial_prefixes (file_name : list Z) : list Z :=
  let s := strip_loop (length file_name) file_name in
  if bool_decide (s = []) || bool_decide (s = chars "..") then chars "." else s.

(** The header except for the checksum; [m], [sz] and [mt] are the texts of the
    permissions, the size and the time. *)
Definition fill_header (file_name : list Z) (type : ustar_type) (m sz mt : list Z) : list Z :=
  let h := replicate USTAR_HEADER_SIZE 0 in
  let h := put_string name file_name h in
  let h := put_string mode m h in
  let h := put_string uid (chars "0000000") h in
  let h := put_string gid (chars "0000000") h in
  let h := put_string size sz h in
  let h := put_string mtime mt h in
  let h := put typeflag [type_byte type] h in
  let h := put_string magic (chars "ustar") h in
  let h := put version [chr "0"; chr "0"] h in
  let h := put_string gname (chars "root") h in
  put_string uname (chars "root") h.

(** What [snprintf] with the given format produces. *)
Definition sprint (format : string) (arg : Z) : res (list Z) := text ∅ (chars format) [arg].

(** [None]: the file name is too long. *)
Definition ustar_make_header (file_name : list Z) (type : ustar_type) (sz : Z) : res (option (list Z)) :=
  if bool_decide (type = USTAR_EOF) then Err AssertFail else
  let file_name := strip_antisocial_prefixes file_name in
  if (99 <? length file_name)%nat then Ret None else
  m ← sprint "%07o" (match type with USTAR_REGULAR => 0x1a4 | _ => 0x1ed end);
  s ← sprint "%011o" (u32 sz);
  t ← sprint "%011o" 1136102400;
  let h := fill_header file_name type m s t in
  c ← sprint "%07o" (calculate_chksum h);
  Ret (Some (put_string chksum c h)).

Definition ULONG_MAX : Z := 2 ^ 32 - 1.
Definition INT_MAX : Z := 2 ^ 31 - 1.
(** The value of an octal field, if it is one; [ofs] is the position. *)
Fixpoint octal_loop (ofs : nat) (s : list Z) (value : Z) : option Z :=
  match s with
  | [] => None
  | c :: s =>
      if (chr "0" <=? c) && (c <=? chr "7") then
        if ULONG_MAX / 8 <? value then None else octal_loop (S ofs) s (c - chr "0" + value * 8)
      else if (c =? chr " ") || (c =? 0) then (if (0 <? ofs)%nat then Some value else None)
      else None
  end.
Definition parse_octal_field (s : list Z) : option Z := octal_loop 0 s 0.
Definition is_all_zeros (block : list Z) : bool := forallb (λ b, b =? 0) block.

(** The string at the start of an array. *)
Fixpoint c_string (s : list Z) : list Z :=
  match s with [] => [] | c :: s => if c =? 0 then [] else c :: c_string s end.

Inductive parsed : Set := Entry (file_name : list Z) (type : ustar_type) (sz : Z) | EndOfArchive | Bad (message : string).

(** The type, name and size, once the header has been validated. *)
Definition parse_entry (h : list Z) (type : ustar_type) : parsed :=
  let file_name := strip_antisocial_prefixes (c_string (field name h)) in
  match type with
  | USTAR_REGULAR =>
      match parse_octal_field (field size h) with
      | None => Bad "corrupt file size field"
      | Some size_ul => if INT_MAX <? size_ul then Bad "file too large" else Entry file_name type size_ul
      end
  | _ => Entry file_name type 0
  end.

Definition ustar_parse_header (h : list Z) : parsed :=
  if is_all_zeros h then EndOfArchive
  else if negb (bool_decide (field magic h = chars "ustar" ++ [0])) then Bad "not a ustar archive"
  else if negb (bool_decide (field version h = [chr "0"; chr "0"])) then Bad "invalid ustar version"
  else match parse_octal_field (field chksum h) with
  | None => Bad "corrupt chksum field"
  | Some c =>
      if negb (c =? calculate_chksum h) then Bad "checksum mismatch"
      else if negb (bool_decide (last (field name h) = Some 0)) || negb (bool_decide (head (field prefix h) = Some 0)) then Bad "file name too long"
      else if bool_decide (field typeflag h = [chr "0"]) then parse_entry h USTAR_REGULAR
      else if bool_decide (field typeflag h = [chr "5"]) then parse_entry h USTAR_DIRECTORY
      else Bad "unimplemented file type"
  end.

Example header_example :
  match ustar_make_header (chars "/../dir/echo") USTAR_REGULAR 1234 with
  | Ret (Some h) => length h = 512%nat ∧ ustar_parse_header h = Entry (chars "dir/echo") USTAR_REGULAR 1234
  | _ => False
  end.
Proof. vm_compute. split; reflexivity. Qed.

(** * Archive headers: what is made can be parsed, and parsed names are safe *)

(** ** File names *)
Definition antisocial (s : list Z) : bool := begins "/" s || begins "./" s || begins "../" s.
(** A name an extractor may use: relative, and not the parent directory. *)
Definition safe_name (s : list Z) : Prop := s ≠ [] ∧ s ≠ chars ".." ∧ antisocial s = false.

Lemma after_slash_shorter s : s ≠ [] → (length (after_slash s) < length s)%nat.
Proof.
  induction s as [|c s IH]; [done|]. intros _. cbn [after_slash length]. destruct (c =? chr "/"); [lia|].
  destruct s as [|d s]; [cbn; lia|]. specialize (IH ltac:(done)). lia.
Qed.
Lemma after_slash_sub s c : c ∈ after_slash s → c ∈ s.
Proof. induction s as [|d s IH]; [done|]. cbn [after_slash]. intros H. apply elem_of_cons. right. destruct (d =? chr "/"); auto. Qed.

Lemma strip_loop_social n s : (length s <= n)%nat → antisocial (strip_loop n s) = false.
Proof.
  revert s. induction n as [|n IH]; intros s Hn.
  - destruct s; [done|cbn in Hn; lia].
  - cbn [strip_loop]. fold (antisocial s). destruct (antisocial s) eqn:E; [|done]. apply IH.
    assert (Hs : s ≠ []) by (by intros ->). pose proof (after_slash_shorter s Hs). lia.
Qed.
Lemma strip_loop_id n s : antisocial s = false → strip_loop n s = s.
Proof. intros E. destruct n; [done|]. cbn [strip_loop]. fold (antisocial s). by rewrite E. Qed.
Lemma strip_loop_sub n s c : c ∈ strip_loop n s → c ∈ s.
Proof.
  revert s. induction n as [|n IH]; intros s; [done|]. cbn [strip_loop]. destruct (begins "/" s || begins "./" s || begins "../" s); [|done].
  intros H. apply after_slash_sub. by apply IH.
Qed.

Lemma strip_safe s : safe_name (strip_antisocial_prefixes s).
Proof.
  unfold strip_antisocial_prefixes. set (r := strip_loop _ s).
  destruct (decide (r = [])) as [->|Hn]; [by split_and!|]. destruct (decide (r = chars "..")) as [->|Hd]; [by split_and!|].
  rewrite (bool_decide_false (r = [])), (bool_decide_false (r = _)) by done. split_and!; [done..|]. by apply strip_loop_social.
Qed.
Lemma strip_id s : safe_name s → strip_antisocial_prefixes s = s.
Proof.
  intros (Hn & Hd & Ha). unfold strip_antisocial_prefixes. rewrite strip_loop_id by done.
  by rewrite (bool_decide_false (s = [])), (bool_decide_false (s = _)) by done.
Qed.
Lemma strip_sub s c : c ∈ strip_antisocial_prefixes s → c ∈ s ∨ c = chr ".".
Proof.
  unfold strip_antisocial_prefixes. destruct (_ || _); [|intros H; left; by eapply strip_loop_sub].
  intros H%list_elem_of_singleton. by right.
Qed.

(** ** Octal numbers *)
Definition octal (c : Z) : bool := (chr "0" <=? c) && (c <=? chr "7").
Definition octal_value (ds : list Z) (v : Z) : Z := foldl (λ acc c, c - chr "0" + acc * 8) v ds.

Lemma octal_value_ge ds v : Forall (λ c, octal c = true) ds → 0 <= v → v <= octal_value ds v.
Proof.
  intros Hd. revert v. induction Hd as [|c ds Hc Hd IH]; intros v Hv; [done|].
  change (octal_value (c :: ds) v) with (octal_value ds (c - 48 + v * 8)). unfold octal in Hc. change (chr "0") with 48 in Hc.
  change (chr "7") with 55 in Hc. specialize (IH (c - 48 + v * 8)). lia.
Qed.
Lemma octal_loop_run ds v ofs r : Forall (λ c, octal c = true) ds → 0 <= v → octal_value ds v < 2 ^ 32 → (0 < ofs + length ds)%nat →
  octal_loop ofs (ds ++ 0 :: r) v = Some (octal_value ds v).
Proof.
  intros Hd. revert v ofs. induction Hd as [|c ds Hc Hd IH]; intros v ofs Hv Hb Hl; cbn [app octal_loop].
  - cbn in Hl. change ((chr "0" <=? 0) && _) with false. change ((0 =? chr " ") || (0 =? 0)) with true. cbv iota.
    by rewrite (proj2 (Nat.ltb_lt 0 ofs)) by lia.
  - fold (octal c). rewrite Hc. assert (Hc' : 48 <= c <= 55) by (unfold octal in Hc; change (chr "0") with 48 in Hc; change (chr "7") with 55 in Hc; lia).
    change (octal_value (c :: ds) v) with (octal_value ds (c - 48 + v * 8)) in Hb |- *. change (chr "0") with 48.
    pose proof (octal_value_ge ds (c - 48 + v * 8) Hd ltac:(lia)).
    rewrite (proj2 (Z.ltb_ge (ULONG_MAX / 8) v)) by (change (ULONG_MAX / 8) with 536870911; lia). apply IH; try done; [lia|]. cbn in Hl. lia.
Qed.
Lemma decode_octal ds : Forall (λ c, octal c = true) ds → decode base_o ds = octal_value ds 0.
Proof.
  unfold decode, octal_value. generalize 0. intros v Hd. revert v. induction Hd as [|c ds Hc Hd IH]; intros v; [done|]. cbn [foldl].
  assert (Hr : 48 <= c <= 55) by (unfold octal in Hc; change (chr "0") with 48 in Hc; change (chr "7") with 55 in Hc; lia).
  rewrite (proj2 (Z.eqb_neq c comma)) by (change comma with 44; lia).
  assert (E : v * base base_o + digit_val c = c - chr "0" + v * 8).
  { unfold digit_val, isdigit. replace ((48 <=? c) && (c <=? 57)) with true by lia. change (base base_o) with 8. change (chr "0") with 48. lia. }
  rewrite E. apply IH.
Qed.

(** The text of a zero-padded octal conversion. *)
Lemma octal_text w c v fmt : c = mk_conv ZERO (Z.of_nat w) (-1) INT → (0 < w <= 11)%nat →
  at_char fmt "%" = false → parse_conversion fmt [v] = Ret ([chr "o"], c, [v]) → 0 <= v < 8 ^ Z.of_nat w → v < 2 ^ 32 →
  ∃ ds, text ∅ (chr "%" :: fmt) [v] = Ret ds ∧ length ds = w ∧ Forall (λ c, octal c = true) ds ∧ octal_value ds 0 = v.
Proof.
  intros Hc Hw Hpct Hparse Hv Hv32.
  destruct (print_digits_run base_o false w 64 v 0 []) as (ds & R & L & E & F & _); [right; left|done|lia|cbn; lia|]. rewrite app_nil_r in R.
  set (body := replicate (Z.to_nat (1 - Z.of_nat (length ds))) (chr "0") ++ ds).
  set (all := replicate (Z.to_nat (Z.of_nat w - Z.of_nat (length body))) (chr "0") ++ body).
  assert (Hoct : Forall (λ c, octal c = true) all).
  { unfold all, body. repeat (apply Forall_app; split; [by apply Forall_replicate|]). eapply Forall_impl; [exact F|]. intros x [Hx|[[=] _]].
    assert (Hall : Forall (λ c, octal c = true) (digits base_o)) by by_decision. rewrite Forall_forall in Hall. by apply Hall. }
  assert (Hbl : (length body <= w)%nat) by (unfold body; rewrite length_app, length_replicate; lia).
  exists all. split_and!; [|unfold all; rewrite length_app, length_replicate; lia|done|].
  2:{ rewrite <- decode_octal by done. unfold all, body. by rewrite !decode_zeros. }
  unfold text, __vprintf. cbn [length Nat.add]. rewrite vprintf_conversion, Hparse, lift_bind by done. cbv beta iota. cbn [hd].
  assert (Ec : ∀ ag l, convert ∅ collect ag c (chr "o") [v] l = Ret ([], l ++ all)).
  { intros ag l. unfold convert. change ((chr "o" =? chr "d") || (chr "o" =? chr "i")) with false. cbv iota.
    change ((chr "o" =? chr "o") || (chr "o" =? chr "u") || (chr "o" =? chr "x") || (chr "o" =? chr "X")) with true. cbv iota. rewrite Hc.
    change (unsigned_arg (type (mk_conv ZERO (Z.of_nat w) (-1) INT)) [v]) with (Ret (v, @nil Z)). rewrite lift_bind.
    change (chr "o" =? chr "o") with true. cbv beta iota zeta. unfold mbind, cmd_bind.
    rewrite (format_integer_field _ collect l _ _ _ _ _ body); [|right; left|cbn; lia|done|lia|].
    - rewrite collect_all. do 4 f_equal.
    - change (has (flags _) GROUP) with false. rewrite R. cbn [mbind res_bind]. change (precision _ <? 0) with true. cbv iota.
      rewrite print_zeros_run by lia. cbn [mbind res_bind]. change (has (flags (mk_conv ZERO (Z.of_nat w) (-1) INT)) POUND) with false. cbn [andb]. done. }
  erewrite bind_Ret; [|apply Ec]. replace (length fmt + 32)%nat with (S (length fmt + 31)) by lia. done.
Qed.

Lemma text_07o v : 0 <= v < 8 ^ 7 → ∃ ds, sprint "%07o" v = Ret ds ∧ length ds = 7%nat ∧ Forall (λ c, octal c = true) ds ∧ octal_value ds 0 = v.
Proof. intros Hv. apply (octal_text 7 (mk_conv ZERO 7 (-1) INT) v (tail (chars "%07o"))); try done; lia. Qed.
Lemma text_011o v : 0 <= v < 2 ^ 32 → ∃ ds, sprint "%011o" v = Ret ds ∧ length ds = 11%nat ∧ Forall (λ c, octal c = true) ds ∧ octal_value ds 0 = v.
Proof. intros Hv. apply (octal_text 11 (mk_conv ZERO 11 (-1) INT) v (tail (chars "%011o"))); try done; lia. Qed.

(** ** Fields *)
Definition whole (h : list Z) : Prop := length h = 512%nat.
Lemma put_whole f bs h : whole h → (f.1 + length bs <= 512)%nat → whole (put f bs h).
Proof. unfold whole, put. intros Hh Hl. rewrite !length_app, length_take, length_drop. lia. Qed.
Lemma put_lookup f bs h i : whole h → (f.1 + length bs <= 512)%nat →
  put f bs h !! i = if (f.1 <=? i)%nat && (i <? f.1 + length bs)%nat then bs !! (i - f.1)%nat else h !! i.
Proof.
  unfold whole, put. intros Hh Hl. destruct (Nat.leb_spec f.1 i) as [H1|H1]; cbn [andb].
  - rewrite lookup_app_r by (rewrite length_take; lia). rewrite length_take, (Nat.min_l f.1) by lia. destruct (Nat.ltb_spec i (f.1 + length bs)) as [H2|H2].
    + by rewrite lookup_app_l by lia.
    + rewrite lookup_app_r, lookup_drop by lia. f_equal. lia.
  - rewrite lookup_app_l by (rewrite length_take; lia). by apply lookup_take_lt.
Qed.
Lemma field_ext f h h' : (∀ i, (f.1 <= i < f.1 + f.2)%nat → h !! i = h' !! i) → field f h = field f h'.
Proof.
  intros H. apply list_eq. intros i. unfold field. destruct (decide (i < f.2)%nat).
  - rewrite !lookup_take_lt, !lookup_drop by done. apply H. lia.
  - by rewrite !lookup_take_ge by lia.
Qed.
Lemma field_put_other f g bs h : whole h → (g.1 + length bs <= 512)%nat → (f.1 + f.2 <= g.1 ∨ g.1 + length bs <= f.1)%nat →
  field f (put g bs h) = field f h.
Proof.
  intros Hh Hg Hd. apply field_ext. intros i Hi. rewrite put_lookup by done.
  destruct (Nat.leb_spec g.1 i), (Nat.ltb_spec i (g.1 + length bs)); cbn [andb]; done || lia.
Qed.
Lemma field_put f bs h : whole h → length bs = f.2 → (f.1 + f.2 <= 512)%nat → field f (put f bs h) = bs.
Proof.
  intros Hh Hl Hf. apply list_eq. intros i. unfold field. destruct (decide (i < f.2)%nat).
  - rewrite lookup_take_lt, lookup_drop, put_lookup by (done || lia).
    replace ((f.1 <=? f.1 + i)%nat) with true by (symmetry; apply Nat.leb_le; lia).
    replace ((f.1 + i <? f.1 + length bs)%nat) with true by (symmetry; apply Nat.ltb_lt; lia). cbn [andb]. f_equal. lia.
  - rewrite lookup_take_ge, lookup_ge_None_2 by lia. done.
Qed.

(** ** The checksum *)
Lemma chksum_ext i h h' acc : length h = length h' → (∀ k, in_chksum_field (i + k) = false → h !! k = h' !! k) →
  chksum_loop i h acc = chksum_loop i h' acc.
Proof.
  revert i h' acc. induction h as [|b h IH]; intros i [|b' h'] acc Hl Hk; [done..|]. cbn [chksum_loop].
  assert (E : (if in_chksum_field i then chr " " else b) = (if in_chksum_field i then chr " " else b')).
  { destruct (in_chksum_field i) eqn:Ei; [done|]. specialize (Hk 0%nat). rewrite Nat.add_0_r in Hk. by injection (Hk Ei). }
  rewrite E. apply IH; [by injection Hl|]. intros k. replace (S i + k)%nat with (i + S k)%nat by lia. intros Hc. by apply (Hk (S k)).
Qed.
Lemma chksum_bound i h acc : Forall (λ b, 0 <= b < 256) h → 0 <= acc → acc + 255 * Z.of_nat (length h) < 2 ^ 32 →
  0 <= chksum_loop i h acc <= acc + 255 * Z.of_nat (length h).
Proof.
  intros Hf. revert i acc. induction Hf as [|b h Hb Hf IH]; intros i acc Ha Hl; cbn [chksum_loop length] in *; [lia|].
  set (x := if in_chksum_field i then chr " " else b). assert (Hx : 0 <= x < 256) by (unfold x; destruct (in_chksum_field i); [by vm_compute|done]).
  rewrite u32_small by lia. specialize (IH (S i) (acc + x)). lia.
Qed.

(** ** Headers *)
Lemma c_string_app s r : Forall (λ c, c ≠ 0) s → c_string (s ++ 0 :: r) = s.
Proof. induction 1 as [|c s Hc Hs IH]; [done|]. cbn. by rewrite eqb_false, IH. Qed.

(** The name field: the name, and zeros to the end. *)
Lemma field_name_string s : (length s <= 99)%nat →
  field name (put_string name s (replicate USTAR_HEADER_SIZE 0)) = s ++ 0 :: replicate (99 - length s) 0.
Proof.
  intros Hs. assert (Hw : whole (replicate USTAR_HEADER_SIZE 0)) by (unfold whole; by rewrite length_replicate).
  unfold put_string. rewrite take_ge by (cbn; lia). apply list_eq. intros i. unfold field. cbn [name fst snd].
  assert (Hl : length (s ++ [0]) = S (length s)) by (rewrite length_app; cbn; lia).
  destruct (decide (i < 100)%nat) as [Hi|Hi].
  - rewrite lookup_take_lt, lookup_drop, put_lookup by (done || (cbn; lia)). rewrite Hl. cbn [name fst Nat.add Nat.leb andb]. rewrite Nat.sub_0_r.
    destruct (Nat.ltb_spec i (S (length s))) as [Hlt|Hge].
    + destruct (decide (i < length s)%nat); [by rewrite !lookup_app_l by done|]. rewrite !lookup_app_r by lia. by replace (i - length s)%nat with O by lia.
    + rewrite lookup_app_r by lia. rewrite lookup_replicate_2 by (unfold USTAR_HEADER_SIZE; lia).
      destruct (i - length s)%nat as [|k] eqn:E; [lia|]. cbn. symmetry. apply lookup_replicate_2. lia.
  - rewrite lookup_take_ge by lia. symmetry. apply lookup_ge_None_2. rewrite length_app. cbn. rewrite length_replicate. lia.
Qed.

(** What the validation needs of a header. *)
Record header_ok (h : list Z) (s : list Z) (type : ustar_type) (sz : Z) : Prop := {
  hk_whole : whole h;
  hk_bytes : Forall (λ b, 0 <= b < 256) h;
  hk_name : field name h = s ++ 0 :: replicate (99 - length s) 0;
  hk_size : ∃ ds, field Ustar.size h = ds ++ [0] ∧ Forall (λ c, octal c = true) ds ∧ octal_value ds 0 = sz ∧ length ds = 11%nat;
  hk_type : field typeflag h = [type_byte type];
  hk_magic : field magic h = chars "ustar" ++ [0];
  hk_version : field version h = [chr "0"; chr "0"];
  hk_prefix : field Ustar.prefix h = replicate 155 0
}.

Lemma put_bytes f bs h : Forall (λ b, 0 <= b < 256) bs → Forall (λ b, 0 <= b < 256) h → Forall (λ b, 0 <= b < 256) (put f bs h).
Proof. intros Hb Hh. unfold put. repeat apply Forall_app_2; [by apply Forall_take|done|by apply Forall_drop]. Qed.
Lemma octal_bytes ds : Forall (λ c, octal c = true) ds → Forall (λ b, 0 <= b < 256) ds.
Proof.
  intros Hd. eapply Forall_impl; [exact Hd|]. intros c Hc. unfold octal in Hc. change (chr "0") with 48 in Hc. change (chr "7") with 55 in Hc. lia.
Qed.

(** The fields before the checksum is filled in. *)
Lemma make_fields s type sz m t11 t12 :
  (length s <= 99)%nat → Forall (λ c, 0 < c < 256) s → type ≠ USTAR_EOF →
  Forall (λ c, octal c = true) m → length m = 7%nat → Forall (λ c, octal c = true) t11 → length t11 = 11%nat → octal_value t11 0 = sz →
  Forall (λ c, octal c = true) t12 → length t12 = 11%nat →
  header_ok (fill_header s type m t11 t12) s type sz.
Proof.
  intros Hs Hsb Ht Hm Hml H11 Hl11 Hv H12 Hl12.
  assert (Hw0 : whole (replicate USTAR_HEADER_SIZE 0)) by (unfold whole; by rewrite length_replicate).
  assert (Hb0 : Forall (λ b, 0 <= b < 256) (replicate USTAR_HEADER_SIZE 0)) by (by apply Forall_replicate).
  unfold fill_header, put_string. cbn [fst snd name mode uid gid Ustar.size mtime magic uname gname Nat.sub].
  change (take 7 (chars "0000000")) with (chars "0000000"). change (take 31 (chars "root")) with (chars "root"). change (take 5 (chars "ustar")) with (chars "ustar").
  rewrite (take_ge m), (take_ge t11), (take_ge t12), (take_ge s) by lia.
  set (h1 := put name (s ++ [0]) _).
  assert (W1 : whole h1) by (apply put_whole; [done|rewrite length_app; cbn; lia]).
  assert (B1 : Forall (λ b, 0 <= b < 256) h1).
  { apply put_bytes; [|done]. apply Forall_app_2; [|by repeat constructor]. eapply Forall_impl; [exact Hsb|]. intros; cbn in *; lia. }
  assert (N1 : field name h1 = s ++ 0 :: replicate (99 - length s) 0).
  { pose proof (field_name_string s Hs) as H. unfold put_string in H. rewrite take_ge in H by (cbn; lia). exact H. }
  assert (P1 : field Ustar.prefix h1 = replicate 155 0).
  { unfold h1. rewrite field_put_other; [by vm_compute|done|rewrite length_app; cbn; lia|right; rewrite length_app; cbn; lia]. }
  clearbody h1. clear Hw0 Hb0 Hsb Hs.
  assert (Hlen : ∀ t, length (t ++ [0]) = S (length t)) by (intros t; rewrite length_app; cbn; lia).
  assert (Ho : ∀ ds, Forall (λ c, octal c = true) ds → Forall (λ b, 0 <= b < 256) (ds ++ [0])).
  { intros ds Hd. apply Forall_app_2; [by apply octal_bytes|by repeat constructor]. }
  assert (Hr : Forall (λ b, 0 <= b < 256) (chars "root" ++ [0])) by by_decision.
  assert (Hz : Forall (λ b, 0 <= b < 256) (chars "0000000" ++ [0])) by by_decision.
  assert (Hma : Forall (λ b, 0 <= b < 256) (chars "ustar" ++ [0])) by by_decision.
  assert (Hve : Forall (λ b, 0 <= b < 256) [chr "0"; chr "0"]) by by_decision.
  assert (Hty : Forall (λ b, 0 <= b < 256) [type_byte type]) by (by destruct type; [by_decision|by_decision|]).
  set (h2 := put mode _ h1). set (h3 := put uid _ h2). set (h4 := put gid _ h3). set (h5 := put Ustar.size _ h4).
  set (h6 := put mtime _ h5). set (h7 := put typeflag _ h6). set (h8 := put magic _ h7). set (h9 := put version _ h8).
  set (h10 := put gname _ h9). set (h11 := put uname _ h10).
  assert (W2 : whole h2 ∧ whole h3 ∧ whole h4 ∧ whole h5 ∧ whole h6 ∧ whole h7 ∧ whole h8 ∧ whole h9 ∧ whole h10 ∧ whole h11).
  { assert (whole h2) by (apply put_whole; [done|rewrite Hlen, Hml; cbn; lia]). split; [done|].
    assert (whole h3) by (apply put_whole; [done|cbn; lia]). split; [done|].
    assert (whole h4) by (apply put_whole; [done|cbn; lia]). split; [done|].
    assert (whole h5) by (apply put_whole; [done|rewrite Hlen, Hl11; cbn; lia]). split; [done|].
    assert (whole h6) by (apply put_whole; [done|rewrite Hlen, Hl12; cbn; lia]). split; [done|].
    assert (whole h7) by (apply put_whole; [done|cbn; lia]). split; [done|].
    assert (whole h8) by (apply put_whole; [done|cbn; lia]). split; [done|].
    assert (whole h9) by (apply put_whole; [done|cbn; lia]). split; [done|].
    assert (whole h10) by (apply put_whole; [done|cbn; lia]). split; [done|].
    apply put_whole; [done|cbn; lia]. }
  destruct W2 as (W2 & W3 & W4 & W5 & W6 & W7 & W8 & W9 & W10 & W11).
  assert (Hskip : ∀ f g bs h, whole h → (g.1 + length bs <= 512)%nat → (f.1 + f.2 <= g.1 ∨ g.1 + length bs <= f.1)%nat → field f (put g bs h) = field f h)
    by (intros; by apply field_put_other).
  constructor; try done.
  - repeat (apply put_bytes; [by auto|]). done.
  - unfold h11, h10, h9, h8, h7, h6, h5, h4, h3, h2. rewrite !Hskip by (try done; rewrite ?Hlen, ?Hml, ?Hl11, ?Hl12; cbn; lia). done.
  - exists t11. unfold h11, h10, h9, h8, h7, h6. rewrite !Hskip by (try done; rewrite ?Hlen, ?Hl12; cbn; lia). split_and!; try done.
    unfold h5. apply (field_put Ustar.size); [done|rewrite Hlen, Hl11; done|cbn; lia].
  - unfold h11, h10, h9, h8. rewrite !Hskip by (try done; cbn; lia). apply field_put; [done|done|cbn; lia].
  - unfold h11, h10, h9. rewrite !Hskip by (try done; cbn; lia). apply field_put; [done|done|cbn; lia].
  - unfold h11, h10. rewrite !Hskip by (try done; cbn; lia). apply field_put; [done|done|cbn; lia].
  - unfold h11, h10, h9, h8, h7, h6, h5, h4, h3, h2. rewrite !Hskip by (try done; rewrite ?Hlen, ?Hml, ?Hl11, ?Hl12; cbn; lia). done.
Qed.

(** Filling in the checksum keeps the other fields. *)
Lemma put_chksum h s type sz ds : header_ok h s type sz → Forall (λ c, octal c = true) ds → length ds = 7%nat →
  header_ok (put_string chksum ds h) s type sz ∧ field chksum (put_string chksum ds h) = ds ++ [0] ∧
  calculate_chksum (put_string chksum ds h) = calculate_chksum h.
Proof.
  intros [Hw Hb Hn Hs Ht Hm Hv Hp] Hd Hl. unfold put_string. cbn [chksum snd Nat.sub]. rewrite take_ge by lia.
  assert (Hlen : length (ds ++ [0]) = 8%nat) by (rewrite length_app, Hl; done).
  assert (Hskip : ∀ f, (f.1 + f.2 <= 148 ∨ 156 <= f.1)%nat → field f (put chksum (ds ++ [0]) h) = field f h)
    by (intros f Hf; apply field_put_other; [done|rewrite Hlen; cbn; lia|rewrite Hlen; cbn; lia]).
  assert (Hw' : whole (put chksum (ds ++ [0]) h)) by (apply put_whole; [done|rewrite Hlen; cbn; lia]).
  split_and!.
  - constructor; rewrite ?Hskip by (cbn; lia); try done. apply put_bytes; [|done]. apply Forall_app_2; [by apply octal_bytes|by repeat constructor].
  - apply field_put; [done|by rewrite Hlen|cbn; lia].
  - unfold calculate_chksum. apply chksum_ext; [unfold whole in *; congruence|]. intros k Hk. rewrite put_lookup by (done || (rewrite Hlen; cbn; lia)).
    unfold in_chksum_field in Hk. cbn [Nat.add] in Hk. rewrite Hlen. change 8%nat with chksum.2. by rewrite Hk.
Qed.

Lemma ok_chksum h s type sz : header_ok h s type sz → 0 <= calculate_chksum h < 8 ^ 7.
Proof.
  intros [Hw Hb _ _ _ _ _ _]. pose proof (chksum_bound 0 h 0 Hb) as H. unfold whole in Hw. rewrite Hw in H. unfold calculate_chksum. lia.
Qed.

Lemma parse_ok h s type sz ds : header_ok h s type sz → type ≠ USTAR_EOF → (length s <= 99)%nat → Forall (λ c, 0 < c < 256) s → 0 <= sz < 2 ^ 31 →
  field chksum h = ds ++ [0] → Forall (λ c, octal c = true) ds → (0 < length ds)%nat → octal_value ds 0 = calculate_chksum h →
  ustar_parse_header h = Entry (strip_antisocial_prefixes s) type (match type with USTAR_REGULAR => sz | _ => 0 end).
Proof.
  intros Hok Hty Hs Hsb Hsz Hc Hd Hl Hv. pose proof (ok_chksum _ _ _ _ Hok) as Hcb. destruct Hok as [Hw Hb Hn (ts & Hts & Hto & Htv & Htl) Ht Hm Hve Hp].
  unfold ustar_parse_header.
  assert (Hz : is_all_zeros h = false).
  { destruct (is_all_zeros h) eqn:E; [|done]. unfold is_all_zeros in E. rewrite forallb_forall in E. exfalso.
    assert (Hin : chr "u" ∈ field magic h) by (rewrite Hm; left).
    assert (Hin' : chr "u" ∈ h) by (unfold field in Hin; by apply elem_of_take in Hin as (i & ? & ?); eapply list_elem_of_lookup_2; rewrite lookup_drop in *; eauto).
    apply list_elem_of_In, E in Hin'. done. }
  rewrite Hz, Hm, Hve, Hc, (bool_decide_true (_ = _)), (bool_decide_true (_ = _)) by done. cbn [negb]. unfold parse_octal_field at 1.
  rewrite octal_loop_run; [|done|lia|lia|lia]. rewrite Hv, Z.eqb_refl. cbn [negb]. rewrite Hn, Hp.
  assert (Hlast : last (s ++ 0 :: replicate (99 - length s) 0) = Some 0).
  { rewrite last_app_cons. destruct (99 - length s)%nat as [|k]; [done|]. change (0 :: replicate (S k) 0) with (replicate (S (S k)) 0).
    rewrite replicate_S_end. by rewrite last_snoc. }
  rewrite (bool_decide_true _ Hlast), (bool_decide_true (head _ = _)) by done. cbn [negb orb].
  assert (Hcs : c_string (s ++ 0 :: replicate (99 - length s) 0) = s).
  { apply c_string_app. eapply Forall_impl; [exact Hsb|]. intros c Hc'. cbn in Hc'. lia. }
  rewrite Ht. destruct type; [| |done].
  - rewrite bool_decide_true by done. unfold parse_entry. rewrite Hn, Hcs, Hts. unfold parse_octal_field. rewrite octal_loop_run; [|done|lia|lia|lia].
    rewrite Htv. by rewrite (proj2 (Z.ltb_ge INT_MAX sz)) by (unfold INT_MAX; lia).
  - rewrite bool_decide_false by done. rewrite bool_decide_true by done. unfold parse_entry. by rewrite Hn, Hcs.
Qed.

Lemma res_bind_ret {A B} (a : A) (k : A → res B) : (Ret a ≫= k) = k a.
Proof. done. Qed.

Lemma make_run fn type sz (s := strip_antisocial_prefixes fn) : type ≠ USTAR_EOF → 0 <= sz < 2 ^ 31 → Forall (λ c, 0 < c < 256) s → (length s <= 99)%nat →
  ∃ h ds, ustar_make_header fn type sz = Ret (Some (put_string chksum ds h)) ∧ header_ok h s type sz ∧
    Forall (λ c, octal c = true) ds ∧ length ds = 7%nat ∧ octal_value ds 0 = calculate_chksum h.
Proof.
  intros Hty Hsz Hsb Hl. unfold ustar_make_header. rewrite bool_decide_false by done. fold s. rewrite (proj2 (Nat.ltb_ge _ _)) by done.
  set (v := match type with USTAR_REGULAR => 0x1a4 | _ => 0x1ed end).
  assert (Hv : 0 <= v < 8 ^ 7) by (unfold v; destruct type; lia). clearbody v. destruct (text_07o v Hv) as (m & -> & Lm & Om & _).
  destruct (text_011o (u32 sz)) as (t11 & -> & L11 & O11 & V11); [unfold u32; apply Z.mod_pos_bound; lia|]. rewrite (u32_small sz) in V11 by lia.
  rewrite !res_bind_ret. assert (H12 : 0 <= 1136102400 < 2 ^ 32) by lia. revert H12. generalize 1136102400. intros mt H12.
  destruct (text_011o mt H12) as (t12 & -> & L12 & O12 & _). rewrite res_bind_ret.
  pose proof (make_fields s type sz m t11 t12 Hl Hsb Hty Om Lm O11 L11 V11 O12 L12) as Hok.
  destruct (text_07o _ (ok_chksum _ _ _ _ Hok)) as (ds & -> & Ld & Od & Vd). rewrite res_bind_ret. eauto 10.
Qed.

(** C39: Archive headers: for a file name of characters whose stripped form has
    at most 99 of them, [ustar_make_header] makes a header of 512 bytes from
    which [ustar_parse_header] gets back the stripped name, the type and, for a
    regular file, the size; a longer name is refused. *)
Theorem ustar_roundtrip fn type sz : type ≠ USTAR_EOF → 0 <= sz < 2 ^ 31 → Forall (λ c, 0 < c < 256) fn →
  let s := strip_antisocial_prefixes fn in
  ((99 < length s)%nat → ustar_make_header fn type sz = Ret None) ∧
  ((length s <= 99)%nat → ∃ h, ustar_make_header fn type sz = Ret (Some h) ∧ length h = 512%nat ∧
     ustar_parse_header h = Entry s type (match type with USTAR_REGULAR => sz | _ => 0 end)).
Proof.
  intros Hty Hsz Hfn s. split.
  { intros Hl. unfold ustar_make_header. rewrite bool_decide_false by done. fold s. by rewrite (proj2 (Nat.ltb_lt _ _)). }
  intros Hl. assert (Hsb : Forall (λ c, 0 < c < 256) s).
  { rewrite Forall_forall in Hfn |- *. intros c [Hc| ->]%strip_sub; [by apply Hfn|]. by vm_compute. }
  destruct (make_run fn type sz Hty Hsz Hsb Hl) as (h & ds & -> & Hok & Od & Ld & Vd). fold s in Hok.
  destruct (put_chksum h s type sz ds Hok Od Ld) as (Hok' & Hc & Ec). eexists. split_and!; [done|apply (hk_whole _ _ _ _ Hok')|].
  rewrite (parse_ok _ s type sz ds Hok' Hty Hl Hsb Hsz Hc Od); [|lia|by rewrite Ec].
  f_equal. apply strip_id, strip_safe.
Qed.

Lemma ustar_roundtrip_witness : ∃ h, ustar_make_header (chars "../a/b") USTAR_REGULAR 77 = Ret (Some h) ∧ length h = 512%nat ∧
  ustar_parse_header h = Entry (chars "a/b") USTAR_REGULAR 77.
Proof.
  destruct (ustar_roundtrip (chars "../a/b") USTAR_REGULAR 77 ltac:(done) ltac:(lia) ltac:(by_decision)) as [_ H].
  destruct (H ltac:(by_decision)) as (h & E1 & E2 & E3). exists h. split; [exact E1|]. split; [exact E2|]. rewrite E3. reflexivity.
Defined.

Lemma octal_loop_nonneg n s v r : 0 <= v → octal_loop n s v = Some r → 0 <= r.
Proof.
  revert n v. induction s as [|c s IH]; intros n v Hv; [done|]. cbn [octal_loop]. fold (octal c). destruct (octal c) eqn:Hc.
  - destruct (_ <? v); [done|]. apply IH. unfold octal in Hc. change (chr "7") with 55 in Hc. change (chr "0") with 48 in *. lia.
  - destruct (_ || _); [|done]. destruct (0 <? n)%nat; [|done]. by intros [= <-].
Qed.
Lemma parse_entry_safe h type s t sz : parse_entry h type = Entry s t sz → safe_name s ∧ t = type ∧ 0 <= sz < 2 ^ 31.
Proof.
  unfold parse_entry. pose proof (strip_safe (c_string (field name h))) as Hs. destruct type; [|intros [= <- <- <-]; split_and!; done || lia..].
  destruct (parse_octal_field _) as [r|] eqn:E; [|done]. apply octal_loop_nonneg in E; [|lia].
  destruct (Z.ltb_spec INT_MAX r); [done|]. intros [= <- <- <-]. unfold INT_MAX in *. split_and!; done || lia.
Qed.

(** Whatever bytes are parsed, a header that is accepted names a regular
    file or a directory, its name is relative and not the parent directory, and
    its size is a nonnegative [int]. *)
Theorem ustar_parse_safe h s type sz : ustar_parse_header h = Entry s type sz → safe_name s ∧ type ≠ USTAR_EOF ∧ 0 <= sz < 2 ^ 31.
Proof.
  unfold ustar_parse_header. destruct (is_all_zeros h); [done|]. do 2 (destruct (negb _); [done|]).
  destruct (parse_octal_field _); [|done]. destruct (negb _); [done|]. destruct (_ || _); [done|].
  destruct (bool_decide _); [intros (? & -> & ?)%parse_entry_safe; done|].
  destruct (bool_decide _); [intros (? & -> & ?)%parse_entry_safe; done|done].
Qed.
