(* ===== verification/Tokenizer.v ===== *)
(** * The word splitter of the shell (code_162/personal/hw1/tokenizer.c)

    A line is split into words at white space; single and double quotes group
    characters, and a backslash takes the next character literally, inside
    quotes too.  Characters of the current word are collected in a static
    buffer of 4096 bytes; a write outside it is the fault [OutOfBounds] and a
    call of [abort] the fault [KernelPanic].  The pointers that [malloc] and
    [realloc] return are not modelled: a vector is the list of its elements. *)
From S2P Require Import Prelude LibStd Stdio.
From stdpp Require Import strings.
Open Scope Z_scope.

Record tokens : Set := mk_tokens { words : list (list Z) }.
Inductive mode : Set := MODE_NORMAL | MODE_SQUOTE | MODE_DQUOTE.

Definition n_max : nat := 4096.
Definition vector_push (pointer : list (list Z)) (elem : list Z) : list (list Z) := pointer ++ [elem].
(** [source[n] = '\0'], then a copy of the [n] characters before it. *)
Definition copy_word (source : list Z) : res (list Z) :=
  if (length source <? n_max)%nat then Ret source else Err OutOfBounds.
(** [token[n++] = c]. *)
Definition add (token : list Z) (c : Z) : res (list Z) :=
  if (length token <? n_max)%nat then Ret (token ++ [c]) else Err OutOfBounds.

Definition squote : Z := 39.
Definition dquote : Z := 34.
Definition backslash : Z := 92.

(** The word is finished, if there is one. *)
Definition finish (token : list Z) (ws : list (list Z)) : res (list (list Z)) :=
  if (0 <? length token)%nat then w ← copy_word token; Ret (vector_push ws w) else Ret ws.

(** One round of the loop: the mode, the word so far, the words, and the rest
    of the line after it. *)
Definition round (m : mode) (token : list Z) (ws : list (list Z)) (c : Z) (rest : list Z) :
    res (mode * list Z * list (list Z) * list Z) :=
  let literal :=
    match rest with
    | [] => Ret (m, token, ws, [])
    | d :: rest => token ← add token d; Ret (m, token, ws, rest)
    end in
  let plain := token ← add token c; Ret (m, token, ws, rest) in
  match m with
  | MODE_NORMAL =>
      if c =? squote then Ret (MODE_SQUOTE, token, ws, rest)
      else if c =? dquote then Ret (MODE_DQUOTE, token, ws, rest)
      else if c =? backslash then literal
      else if isspace c then ws ← finish token ws; Ret (m, [], ws, rest)
      else plain
  | MODE_SQUOTE =>
      if c =? squote then Ret (MODE_NORMAL, token, ws, rest) else if c =? backslash then literal else plain
  | MODE_DQUOTE =>
      if c =? dquote then Ret (MODE_NORMAL, token, ws, rest) else if c =? backslash then literal else plain
  end.

(** Each round takes one or two characters of the line. *)
Fixpoint tokenize_loop (fuel : nat) (m : mode) (token : list Z) (ws : list (list Z)) (line : list Z) : res (list Z * list (list Z)) :=
  match line with
  | [] => Ret (token, ws)
  | c :: rest =>
      match fuel with
      | O => Err NoFuel
      | S fuel =>
          '(m, token, ws, rest) ← round m token ws c rest;
          if (n_max <=? length token + 1)%nat then Err KernelPanic
          else tokenize_loop fuel m token ws rest
      end
  end.

Definition tokenize (line : list Z) : res tokens :=
  '(token, ws) ← tokenize_loop (length line) MODE_NORMAL [] [] line;
  ws ← finish token ws;
  Ret (mk_tokens ws).

Definition tokens_get_length (t : option tokens) : nat :=
  match t with None => O | Some t => length (words t) end.
(** [None] is a null pointer. *)
Definition tokens_get_token (t : option tokens) (n : nat) : option (list Z) :=
  match t with
  | None => None
  | Some t => if (length (words t) <=? n)%nat then None else words t !! n
  end.

(** ** Every line is split without leaving the buffer *)
Definition short (w : list Z) : Prop := (0 < length w < 4095)%nat.

Lemma add_run token c : (length token < 4095)%nat → add token c = Ret (token ++ [c]).
Proof. intros H. unfold add. by rewrite (proj2 (Nat.ltb_lt _ _)) by (unfold n_max; lia). Qed.
Lemma finish_run token ws : (length token < 4095)%nat → finish token ws = Ret (if bool_decide (token = []) then ws else ws ++ [token]).
Proof.
  intros H. unfold finish, copy_word. destruct token as [|c token]; [done|]. rewrite bool_decide_false by done.
  by rewrite (proj2 (Nat.ltb_lt _ _)), (proj2 (Nat.ltb_lt _ _)) by (unfold n_max; cbn in *; lia).
Qed.

Lemma round_run m token ws c rest : (length token < 4095)%nat → Forall short ws →
  ∃ m' token' ws' rest', round m token ws c rest = Ret (m', token', ws', rest') ∧ (length rest' <= length rest)%nat ∧
    (length token' <= S (length token))%nat ∧ Forall short ws'.
Proof.
  intros Ht Hw. assert (Hadd : ∀ d, add token d = Ret (token ++ [d])) by (intros; by apply add_run).
  assert (Hlit : ∃ m' token' ws' rest', (match rest with
    | [] => Ret (m, token, ws, []) | d :: rest => token ← add token d; Ret (m, token, ws, rest) end) = Ret (m', token', ws', rest') ∧
    (length rest' <= length rest)%nat ∧ (length token' <= S (length token))%nat ∧ Forall short ws').
  { destruct rest as [|d rest]; [eexists _, _, _, _; split_and!; [done|cbn; lia|lia|done]|].
    rewrite Hadd. eexists _, _, _, _. split_and!; [done|cbn; lia|rewrite length_app; cbn; lia|done]. }
  assert (Hplain : ∃ m' token' ws' rest', (token ← add token c; Ret (m, token, ws, rest)) = Ret (m', token', ws', rest') ∧
    (length rest' <= length rest)%nat ∧ (length token' <= S (length token))%nat ∧ Forall short ws').
  { rewrite Hadd. eexists _, _, _, _. split_and!; [done|lia|rewrite length_app; cbn; lia|done]. }
  assert (Hmode : ∀ m' : mode, ∃ m1 token' ws' rest', Ret (m', token, ws, rest) = Ret (m1, token', ws', rest') ∧
    (length rest' <= length rest)%nat ∧ (length token' <= S (length token))%nat ∧ Forall short ws').
  { intros m'. eexists _, _, _, _. split_and!; [done|lia|lia|done]. }
  unfold round. destruct m.
  - destruct (c =? squote); [apply Hmode|]. destruct (c =? dquote); [apply Hmode|]. destruct (c =? backslash); [exact Hlit|].
    destruct (isspace c); [|exact Hplain]. rewrite finish_run by done. eexists _, _, _, _. split_and!; [done|lia|cbn; lia|].
    destruct (bool_decide_reflect (token = [])); [done|]. apply Forall_app_2; [done|]. apply Forall_singleton. split; [|done].
    destruct token; [done|cbn; lia].
  - destruct (c =? squote); [apply Hmode|]. by destruct (c =? backslash).
  - destruct (c =? dquote); [apply Hmode|]. by destruct (c =? backslash).
Qed.

Lemma scan_words_run fuel m token ws line : (length line <= fuel)%nat → (length token < 4095)%nat → Forall short ws →
  (∃ token' ws', tokenize_loop fuel m token ws line = Ret (token', ws') ∧ (length token' < 4095)%nat ∧ Forall short ws') ∨
  tokenize_loop fuel m token ws line = Err KernelPanic.
Proof.
  revert m token ws line. induction fuel as [|fuel IH]; intros m token ws [|c line] Hf Ht Hw; cbn [length] in Hf; try lia.
  1-2: left; by exists token, ws.
  cbn [tokenize_loop]. destruct (round_run m token ws c line Ht Hw) as (m' & t' & ws' & rest & -> & Hr & Hl & Hw'). cbn [mbind res_bind].
  destruct (Nat.leb_spec n_max (length t' + 1)) as [Hn|Hn]; [by right|]. apply IH; [lia|unfold n_max in Hn; lia|done].
Qed.

(** Splitting a line always ends, never writes outside the buffer of 4096
    bytes, and either gives words of 1 to 4094 characters or stops with
    [abort]. *)
Theorem tokenize_bounded line :
  (∃ t, tokenize line = Ret t ∧ Forall short (words t)) ∨ tokenize line = Err KernelPanic.
Proof.
  unfold tokenize. destruct (scan_words_run (length line) MODE_NORMAL [] [] line) as [(token & ws & -> & Ht & Hw)| ->];
    [lia|cbn; lia|constructor| |by right]. left. cbn [mbind res_bind]. rewrite finish_run by done. eexists. split; [done|]. cbn.
  destruct (bool_decide_reflect (token = [])); [done|]. apply Forall_app_2; [done|]. apply Forall_singleton. split; [|done].
  destruct token; [done|cbn; lia].
Qed.

(** ** Quoting *)
Definition escape (w : list Z) : list Z := w ≫= λ c, if (c =? squote) || (c =? backslash) then [backslash; c] else [c].
Definition quote (w : list Z) : list Z := [squote] ++ escape w ++ [squote].
(** The words, quoted, with spaces between them. *)
Fixpoint command_line (ws : list (list Z)) : list Z :=
  match ws with [] => [] | [w] => quote w | w :: ws => quote w ++ [32] ++ command_line ws end.

Lemma round_rest m token ws c rest m' token' ws' rest' : round m token ws c rest = Ret (m', token', ws', rest') → (length rest' <= length rest)%nat.
Proof.
  unfold round, mbind, res_bind. intros E. destruct rest as [|d rest], m; repeat case_match; simplify_eq/=; lia.
Qed.
Lemma tokenize_fuel f f' m token ws line : (length line <= f)%nat → (length line <= f')%nat →
  tokenize_loop f m token ws line = tokenize_loop f' m token ws line.
Proof.
  revert f' m token ws line. induction f as [|f IH]; intros [|f'] m token ws [|c line] H H'; cbn [length] in *; try done; try lia.
  cbn [tokenize_loop]. destruct (round m token ws c line) as [[[[m1 t1] w1] r1]|] eqn:E; [|done]. cbn [mbind res_bind].
  apply round_rest in E. destruct (_ <=? _)%nat; [done|]. apply IH; lia.
Qed.

(** A run of the loop, with enough fuel. *)
Definition scan (m : mode) (token : list Z) (ws : list (list Z)) (line : list Z) := tokenize_loop (length line) m token ws line.
Lemma scan_cons m token ws c rest m' token' ws' rest' : round m token ws c rest = Ret (m', token', ws', rest') → (length token' < 4095)%nat →
  scan m token ws (c :: rest) = scan m' token' ws' rest'.
Proof.
  intros E Hl. unfold scan. cbn [length tokenize_loop]. rewrite E. cbn [mbind res_bind].
  rewrite (proj2 (Nat.leb_gt _ _)) by (unfold n_max; lia). apply tokenize_fuel; [|lia]. by eapply round_rest.
Qed.

Lemma scan_escape w token ws rest : (length token + length w < 4095)%nat →
  scan MODE_SQUOTE token ws (escape w ++ rest) = scan MODE_SQUOTE (token ++ w) ws rest.
Proof.
  revert token. induction w as [|c w IH]; intros token Hl; [by rewrite app_nil_r|]. cbn [length] in Hl.
  unfold escape. rewrite bind_cons. fold (escape w).
  assert (Hl' : (length (token ++ [c]) < 4095)%nat) by (rewrite length_app; cbn; lia).
  replace (token ++ c :: w) with ((token ++ [c]) ++ w) by (by rewrite <- app_assoc).
  rewrite <- IH by (rewrite length_app; cbn; lia). destruct ((c =? squote) || (c =? backslash)) eqn:E; cbn [app].
  - apply (scan_cons _ _ _ backslash (c :: escape w ++ rest)); [|done]. unfold round. change (backslash =? squote) with false.
    rewrite Z.eqb_refl, add_run by lia. done.
  - apply orb_false_iff in E as [E1 E2]. eapply scan_cons; [|done]. unfold round. rewrite E1, E2, add_run by lia. done.
Qed.

Lemma scan_quote w ws rest : short w → scan MODE_NORMAL [] ws (quote w ++ rest) = scan MODE_NORMAL w ws rest.
Proof.
  intros [Hn Hl]. unfold quote. cbn [app]. rewrite (scan_cons _ _ _ _ _ MODE_SQUOTE [] ws ((escape w ++ [squote]) ++ rest)) by (done || (cbn; lia)).
  rewrite <- app_assoc, scan_escape by (cbn; lia). cbn [app].
  by apply (scan_cons _ _ _ _ _ MODE_NORMAL w ws rest).
Qed.

Lemma scan_line ws acc : Forall short ws → ∃ token ws', scan MODE_NORMAL [] acc (command_line ws) = Ret (token, ws') ∧
  finish token ws' = Ret (acc ++ ws).
Proof.
  intros Hw. revert acc. induction Hw as [|w ws Hs Hw IH]; intros acc; [exists [], acc; by rewrite app_nil_r|].
  destruct ws as [|w2 ws].
  - change (command_line [w]) with (quote w). rewrite <- (app_nil_r (quote w)), scan_quote by done. exists w, acc. split; [done|].
    destruct Hs as [H0 H1]. rewrite finish_run by lia. rewrite bool_decide_false; [done|]. intros ->. cbn in H0. lia.
  - change (command_line (w :: w2 :: ws)) with (quote w ++ [32] ++ command_line (w2 :: ws)). rewrite scan_quote by done.
    destruct (IH (acc ++ [w])) as (token & ws' & E & Ef). exists token, ws'. rewrite <- app_assoc in Ef. split; [|done]. rewrite <- E.
    cbn [app]. apply scan_cons; [|cbn; lia]. unfold round. change (32 =? squote) with false. change (32 =? dquote) with false.
    change (32 =? backslash) with false. change (isspace 32) with true. cbv iota. destruct Hs as [H0 H1]. rewrite finish_run by lia.
    rewrite bool_decide_false; [done|]. intros ->. cbn in H0. lia.
Qed.

(** Quoting round trip: any sequence of nonempty words of fewer than 4095
    characters, each put in single quotes with a backslash before quotes and
    backslashes, is split into exactly these words, which [tokens_get_token]
    returns by position. *)
Theorem tokenize_quoted ws : Forall short ws →
  ∃ t, tokenize (command_line ws) = Ret t ∧ tokens_get_length (Some t) = length ws ∧ ∀ n, tokens_get_token (Some t) n = ws !! n.
Proof.
  intros Hw. destruct (scan_line ws [] Hw) as (token & ws' & E & Ef). unfold tokenize. unfold scan in E. rewrite E. cbn [mbind res_bind].
  rewrite Ef. cbn [mbind res_bind app]. eexists. split_and!; [done|done|]. intros n. cbn. destruct (Nat.leb_spec (length ws) n); [|done].
  symmetry. by apply lookup_ge_None_2.
Qed.

Lemma tokenize_quoted_witness : ∃ t, tokenize (command_line [chars "it's"; chars "a b"]) = Ret t ∧ tokens_get_token (Some t) 0 = Some (chars "it's").
Proof.
  destruct (tokenize_quoted [chars "it's"; chars "a b"]) as (t & E & _ & H); [repeat apply Forall_cons_2; try apply Forall_nil_2; (split; apply Nat.ltb_lt; reflexivity)|].
  exists t. split; [exact E|]. rewrite (H 0%nat). reflexivity.
Defined.

(** An empty argument in quotes gives no word, and a backslash at the end of the
    line is ignored. *)
Example empty_quotes : tokenize (chars "a '' b\") = Ret (mk_tokens [chars "a"; chars "b"]).
Proof. vm_compute. reflexivity. Qed.
