(* ===== verification/Intq.v ===== *)
(** * Interrupt queues (devices/intq.c, devices/intq.h)

    A circular buffer between threads and interrupt handlers.  Its routines
    run with interrupts off, so a thread leaves the processor inside them only
    in [lock_acquire], when another thread waits already, or in
    [thread_block].  A call therefore runs up to one of these places or to its
    end ([outcome]), and has an entry to go on from each of them.

    [env] is who calls: whether interrupts are off, whether an interrupt
    handler runs, and the running thread.  The lock is free or held by a
    thread (Synch.v has its implementation); [blocked] are the threads that
    are in [thread_block] and have not been unblocked. *)
From S2P Require Import Prelude.
Open Scope Z_scope.

Definition INTQ_BUFSIZE : Z := 64.
Record intq : Set := mk_intq {
  lock : option Z; not_full : option Z; not_empty : option Z; buf : list Z; head : Z; tail : Z }.
Record env : Set := mk_env { intr_off : bool; intr_context : bool; self : Z }.
Record qstate : Set := mk_qs { queue : intq; blocked : gset Z }.

(** [Done]: the call returned.  [Lock]: the thread waits in [lock_acquire].
    [Wait]: it is in [thread_block]. *)
Inductive outcome (A : Type) : Type := Done (a : A) | Lock | Wait.
Arguments Done {A} a.
Arguments Lock {A}.
Arguments Wait {A}.
(** The address of [not_empty] or of [not_full]. *)
Inductive condition : Set := NotEmpty | NotFull.

Definition set_lock v (q : intq) := mk_intq v (not_full q) (not_empty q) (buf q) (head q) (tail q).
Definition set_waiter (c : condition) v (q : intq) :=
  match c with
  | NotFull => mk_intq (lock q) v (not_empty q) (buf q) (head q) (tail q)
  | NotEmpty => mk_intq (lock q) (not_full q) v (buf q) (head q) (tail q)
  end.
Definition waiter (c : condition) (q : intq) : option Z :=
  match c with NotFull => not_full q | NotEmpty => not_empty q end.
Definition upd_queue (f : intq → intq) : cmd qstate unit := modify (λ s, mk_qs (f (queue s)) (blocked s)).

Definition intq_init (q : intq) : intq := mk_intq None None None (buf q) 0 0.
(** The position after [pos]; positions are not negative. *)
Definition next (pos : Z) : Z := (pos + 1) mod INTQ_BUFSIZE.

Definition intq_empty (e : env) : cmd qstate bool :=
  ASSERT (intr_off e);; gets (λ s, head (queue s) =? tail (queue s)).
Definition intq_full (e : env) : cmd qstate bool :=
  ASSERT (intr_off e);; gets (λ s, next (head (queue s)) =? tail (queue s)).
(** What a thread waits for not to hold any more. *)
Definition holds (e : env) (c : condition) : cmd qstate bool :=
  match c with NotEmpty => intq_empty e | NotFull => intq_full e end.

Definition thread_block (e : env) : cmd qstate unit :=
  ASSERT (negb (intr_context e));; ASSERT (intr_off e);;
  modify (λ s, mk_qs (queue s) ({[ self e ]} ∪ blocked s)).
Definition thread_unblock (t : Z) : cmd qstate unit :=
  b ← gets (λ s, bool_decide (t ∈ blocked s)); ASSERT b;;
  modify (λ s, mk_qs (queue s) (blocked s ∖ {[ t ]})).
(** [false]: another thread holds the lock, and the caller has to wait. *)
Definition lock_acquire (e : env) : cmd qstate bool :=
  ASSERT (negb (intr_context e));;
  holder ← gets (λ s, lock (queue s));
  ASSERT (bool_decide (holder ≠ Some (self e)));;
  match holder with
  | None => upd_queue (set_lock (Some (self e)));; mret true
  | Some _ => mret false
  end.
Definition lock_release (e : env) : cmd qstate unit :=
  holder ← gets (λ s, lock (queue s));
  ASSERT (bool_decide (holder = Some (self e)));;
  upd_queue (set_lock None).

Definition wait (e : env) (c : condition) : cmd qstate unit :=
  ASSERT (negb (intr_context e));; ASSERT (intr_off e);;
  b ← holds e c; ASSERT b;;
  upd_queue (set_waiter c (Some (self e)));;
  thread_block e.
Definition signal (e : env) (c : condition) : cmd qstate unit :=
  ASSERT (intr_off e);;
  b ← holds e c; ASSERT (negb b);;
  w ← gets (λ s, waiter c (queue s));
  match w with
  | None => mret tt
  | Some t => thread_unblock t;; upd_queue (set_waiter c None)
  end.

(** The body of the waiting loop from its [lock_acquire] on. *)
Definition wait_loop {A} (e : env) (c : condition) : cmd qstate (outcome A) :=
  ok ← lock_acquire e;
  if ok : bool then wait e c;; mret Wait else mret Lock.

Definition load_byte (i : Z) : cmd qstate Z := λ s,
  match buf (queue s) !! Z.to_nat i with Some b => Ret (b, s) | None => Err OutOfBounds end.
Definition store_byte (i b : Z) : cmd qstate unit := λ s,
  let q := queue s in
  if bool_decide (Z.to_nat i < length (buf q))%nat then
    Ret (tt, mk_qs (mk_intq (lock q) (not_full q) (not_empty q) (<[Z.to_nat i := b]> (buf q)) (head q) (tail q)) (blocked s))
  else Err OutOfBounds.

(** From the test of the loop on. *)
Definition getc_loop (e : env) : cmd qstate (outcome Z) :=
  empty ← intq_empty e;
  if empty : bool then ASSERT (negb (intr_context e));; wait_loop e NotEmpty
  else
    i ← gets (λ s, tail (queue s));
    byte ← load_byte i;
    upd_queue (λ q, mk_intq (lock q) (not_full q) (not_empty q) (buf q) (head q) (next (tail q)));;
    signal e NotFull;;
    mret (Done byte).
Definition intq_getc (e : env) : cmd qstate (outcome Z) := ASSERT (intr_off e);; getc_loop e.
(** The thread goes on in [lock_acquire], or after [thread_block]. *)
Definition getc_locked (e : env) : cmd qstate (outcome Z) := wait_loop e NotEmpty.
Definition getc_woken (e : env) : cmd qstate (outcome Z) := lock_release e;; getc_loop e.

Definition putc_loop (e : env) (byte : Z) : cmd qstate (outcome unit) :=
  full ← intq_full e;
  if full : bool then ASSERT (negb (intr_context e));; wait_loop e NotFull
  else
    i ← gets (λ s, head (queue s));
    store_byte i byte;;
    upd_queue (λ q, mk_intq (lock q) (not_full q) (not_empty q) (buf q) (next (head q)) (tail q));;
    signal e NotEmpty;;
    mret (Done tt).
Definition intq_putc (e : env) (byte : Z) : cmd qstate (outcome unit) := ASSERT (intr_off e);; putc_loop e byte.
Definition putc_locked (e : env) (byte : Z) : cmd qstate (outcome unit) := wait_loop e NotFull.
Definition putc_woken (e : env) (byte : Z) : cmd qstate (outcome unit) := lock_release e;; putc_loop e byte.

(** ** The queue as a sequence of bytes *)
Definition count (q : intq) : Z := (head q - tail q) mod 64.
Definition contents (q : intq) : list Z :=
  (λ i, default 0 (buf q !! Z.to_nat ((tail q + i) mod 64))) <$> seqZ 0 (count q).
Definition CAPACITY : Z := 63.
Definition wf (q : intq) : Prop := length (buf q) = 64%nat ∧ 0 <= head q < 64 ∧ 0 <= tail q < 64.

Ltac mod_lia := unfold next, INTQ_BUFSIZE, count, CAPACITY in *; cbn [head tail buf] in *; Z.div_mod_to_equations; lia.

Lemma length_contents q : Z.of_nat (length (contents q)) = count q.
Proof. unfold contents. rewrite length_fmap, length_seqZ. mod_lia. Qed.
Lemma count_le q : 0 <= count q <= CAPACITY.
Proof. mod_lia. Qed.

Lemma empty_iff q : wf q → (head q =? tail q) = bool_decide (contents q = []).
Proof.
  intros (_ & Hh & Ht). case_bool_decide as H.
  - apply Z.eqb_eq. pose proof (length_contents q) as L. rewrite H in L. simpl in L. mod_lia.
  - apply Z.eqb_neq. intros E. apply H. apply nil_length_inv. pose proof (length_contents q). mod_lia.
Qed.
Lemma full_iff q : wf q → (next (head q) =? tail q) = bool_decide (Z.of_nat (length (contents q)) = CAPACITY).
Proof.
  intros (_ & Hh & Ht). rewrite length_contents. case_bool_decide as H; [apply Z.eqb_eq|apply Z.eqb_neq]; mod_lia.
Qed.

(** The pieces of [getc] and [putc] on the buffer. *)
Definition taken (q : intq) : intq := mk_intq (lock q) (not_full q) (not_empty q) (buf q) (head q) (next (tail q)).
Definition added (b : Z) (q : intq) : intq :=
  mk_intq (lock q) (not_full q) (not_empty q) (<[Z.to_nat (head q) := b]> (buf q)) (next (head q)) (tail q).

Lemma wf_taken q : wf q → wf (taken q).
Proof. intros (? & ? & ?). unfold wf. simpl. split_and!; try done; mod_lia. Qed.
Lemma wf_added b q : wf q → wf (added b q).
Proof. intros (? & ? & ?). unfold wf. simpl. rewrite length_insert. split_and!; try done; mod_lia. Qed.

Lemma contents_taken q : wf q → contents q ≠ [] →
  ∃ b, buf q !! Z.to_nat (tail q) = Some b ∧ contents q = b :: contents (taken q).
Proof.
  intros (Hb & Hh & Ht) Hne.
  assert (Hc : 0 < count q).
  { pose proof (length_contents q). destruct (contents q); [done|simpl in *; lia]. }
  destruct (lookup_lt_is_Some_2 (buf q) (Z.to_nat (tail q))) as [b Hbt]; [lia|].
  exists b. split; [done|]. unfold contents. rewrite seqZ_cons by lia. rewrite fmap_cons. f_equal.
  { rewrite Z.add_0_r, Z.mod_small by lia. by rewrite Hbt. }
  replace (count (taken q)) with (Z.pred (count q)) by (unfold taken; mod_lia).
  change (Z.succ 0) with (1 + 0). rewrite <- fmap_add_seqZ. rewrite <- list_fmap_compose.
  apply list_fmap_ext. intros i x Hx. simpl. unfold taken, next. simpl. do 3 f_equal.
  unfold INTQ_BUFSIZE. Z.div_mod_to_equations; lia.
Qed.

Lemma contents_added b q : wf q → Z.of_nat (length (contents q)) ≠ CAPACITY →
  contents (added b q) = contents q ++ [b].
Proof.
  intros (Hb & Hh & Ht) Hne. rewrite length_contents in Hne.
  assert (Hc : count (added b q) = count q + 1) by (unfold added; mod_lia).
  unfold contents. rewrite Hc, seqZ_app by (pose proof (count_le q); lia). rewrite fmap_app. f_equal.
  - apply list_fmap_ext. intros i x Hx. apply lookup_seqZ in Hx as [-> Hi]. simpl.
    rewrite list_lookup_insert_ne; [done|]. pose proof (count_le q). mod_lia.
  - rewrite Z.add_0_l, seqZ_cons by lia. cbn [fmap list_fmap seqZ]. f_equal. unfold added; cbn [buf tail].
    replace ((tail q + count q) mod 64) with (head q) by mod_lia.
    rewrite list_lookup_insert_eq; [done|lia].
Qed.

(** ** What the routines do, in terms of the sequence *)
Definition woken (c : condition) (s : qstate) : qstate :=
  match waiter c (queue s) with
  | None => s
  | Some t => mk_qs (set_waiter c None (queue s)) (blocked s ∖ {[ t ]})
  end.
Definition waiting (e : env) (c : condition) (s : qstate) : qstate :=
  mk_qs (set_waiter c (Some (self e)) (set_lock (Some (self e)) (queue s))) ({[ self e ]} ∪ blocked s).
(** The state of the queue that [c] is the negation of. *)
Definition stuck (c : condition) (q : intq) : Prop :=
  match c with NotEmpty => contents q = [] | NotFull => Z.of_nat (length (contents q)) = CAPACITY end.
#[global] Instance stuck_dec c q : Decision (stuck c q).
Proof. destruct c; simpl; apply _. Defined.
(** Whoever is registered as waiting is blocked. *)
Definition waiters_blocked (s : qstate) : Prop := ∀ c t, waiter c (queue s) = Some t → t ∈ blocked s.

Lemma contents_set_waiter c v q : contents (set_waiter c v q) = contents q.
Proof. by destruct c. Qed.
Lemma contents_set_lock v q : contents (set_lock v q) = contents q.
Proof. done. Qed.
Lemma wf_set_waiter c v q : wf q → wf (set_waiter c v q).
Proof. by destruct c. Qed.
Lemma contents_woken c s : contents (queue (woken c s)) = contents (queue s).
Proof. unfold woken. destruct (waiter c (queue s)); [|done]. apply contents_set_waiter. Qed.
Lemma wf_woken c s : wf (queue s) → wf (queue (woken c s)).
Proof. unfold woken. destruct (waiter c (queue s)); [|done]. apply wf_set_waiter. Qed.
Lemma lock_woken c s : lock (queue (woken c s)) = lock (queue s).
Proof. unfold woken. destruct (waiter c (queue s)); [|done]. by destruct c. Qed.

Lemma empty_run e s : intr_off e = true → wf (queue s) →
  intq_empty e s = Ret (bool_decide (contents (queue s) = []), s).
Proof. intros He Hw. unfold intq_empty. rewrite ASSERT_bind, gets_run by done. by rewrite empty_iff. Qed.
Lemma full_run e s : intr_off e = true → wf (queue s) →
  intq_full e s = Ret (bool_decide (Z.of_nat (length (contents (queue s))) = CAPACITY), s).
Proof. intros He Hw. unfold intq_full. rewrite ASSERT_bind, gets_run by done. by rewrite full_iff. Qed.
Lemma holds_run e c s : intr_off e = true → wf (queue s) →
  holds e c s = Ret (bool_decide (stuck c (queue s)), s).
Proof. intros. destruct c; [by apply empty_run|by apply full_run]. Qed.

Lemma signal_run e c s : intr_off e = true → wf (queue s) → ¬ stuck c (queue s) → waiters_blocked s →
  signal e c s = Ret (tt, woken c s).
Proof.
  intros He Hw Hc Hb. unfold signal. rewrite ASSERT_bind by done.
  rewrite (bind_Ret _ _ _ _ _ (holds_run e c s He Hw)).
  rewrite ASSERT_bind by (by rewrite bool_decide_false by done). rewrite gets_bind.
  unfold woken. destruct (waiter c (queue s)) as [t|] eqn:Ew; [|done].
  unfold thread_unblock. rewrite bind_assoc, gets_bind, bind_assoc, ASSERT_bind; [done|].
  apply bool_decide_true. by eapply Hb.
Qed.

(** With a free lock the caller starts to wait; with a lock that another
    thread holds it waits for the lock. *)
Lemma wait_loop_run {A} e c s : intr_off e = true → intr_context e = false → wf (queue s) →
  stuck c (queue s) → lock (queue s) = None → wait_loop (A:=A) e c s = Ret (Wait, waiting e c s).
Proof.
  intros He Hx Hw Hc Hl. unfold wait_loop, lock_acquire, upd_queue. rewrite Hx. cbn [negb].
  rewrite bind_assoc, ASSERT_bind, bind_assoc, gets_bind, Hl, bind_assoc by done.
  rewrite ASSERT_bind by done. rewrite bind_assoc, modify_bind, ret_bind.
  unfold wait, upd_queue. rewrite Hx. cbn [negb]. rewrite bind_assoc, ASSERT_bind, bind_assoc, ASSERT_bind, bind_assoc by done.
  rewrite (bind_Ret _ _ _ _ _ (holds_run e c (mk_qs (set_lock (Some (self e)) (queue s)) (blocked s)) He Hw)).
  rewrite bind_assoc, ASSERT_bind by (apply bool_decide_true; by destruct c).
  rewrite bind_assoc, modify_bind.
  unfold thread_block. rewrite Hx, He. cbn [negb]. done.
Qed.
Lemma wait_loop_lock {A} e c s t : intr_context e = false → lock (queue s) = Some t → t ≠ self e →
  wait_loop (A:=A) e c s = Ret (Lock, s).
Proof.
  intros Hx Hl Ht. unfold wait_loop, lock_acquire, upd_queue. rewrite Hx. cbn [negb].
  rewrite bind_assoc, ASSERT_bind, bind_assoc, gets_bind, Hl, bind_assoc by done.
  rewrite ASSERT_bind; [done|]. apply bool_decide_true. congruence.
Qed.
(** A thread that comes out of [lock_acquire] when the reason to wait has gone
    fails the assertion in [wait]. *)
Lemma wait_loop_late {A} e c s : intr_off e = true → intr_context e = false → wf (queue s) →
  ¬ stuck c (queue s) → lock (queue s) = None → wait_loop (A:=A) e c s = Err AssertFail.
Proof.
  intros He Hx Hw Hc Hl. unfold wait_loop, lock_acquire, upd_queue. rewrite Hx. cbn [negb].
  rewrite bind_assoc, ASSERT_bind, bind_assoc, gets_bind, Hl, bind_assoc by done.
  rewrite ASSERT_bind by done. rewrite bind_assoc, modify_bind, ret_bind.
  unfold wait, upd_queue. rewrite Hx. cbn [negb]. rewrite bind_assoc, ASSERT_bind, bind_assoc, ASSERT_bind, bind_assoc by done.
  rewrite (bind_Ret _ _ _ _ _ (holds_run e c (mk_qs (set_lock (Some (self e)) (queue s)) (blocked s)) He Hw)).
  rewrite bind_assoc, ASSERT_bind_fail; [done|]. apply bool_decide_false. by destruct c.
Qed.

Lemma lock_release_run e s : lock (queue s) = Some (self e) →
  lock_release e s = Ret (tt, mk_qs (set_lock None (queue s)) (blocked s)).
Proof. intros Hl. unfold lock_release. rewrite gets_bind, ASSERT_bind; [done|]. by apply bool_decide_true. Qed.

Lemma getc_loop_some e s b r : intr_off e = true → wf (queue s) → waiters_blocked s → contents (queue s) = b :: r →
  getc_loop e s = Ret (Done b, woken NotFull (mk_qs (taken (queue s)) (blocked s))) ∧ contents (taken (queue s)) = r.
Proof.
  intros He Hw Hb Hc. destruct (contents_taken (queue s)) as (b' & Hl & Hc'); [done|by rewrite Hc|].
  assert (contents (taken (queue s)) = r ∧ b' = b) as [Hr ->] by (split; congruence). split; [|done].
  unfold getc_loop. rewrite (bind_Ret _ _ _ _ _ (empty_run e s He Hw)).
  rewrite bool_decide_false by (by rewrite Hc). rewrite gets_bind.
  rewrite (bind_Ret _ _ s b s) by (unfold load_byte; by rewrite Hl).
  unfold upd_queue. rewrite modify_bind. fold (taken (queue s)).
  rewrite (bind_Ret _ _ _ _ _ (signal_run e NotFull (mk_qs (taken (queue s)) (blocked s)) He (wf_taken _ Hw)
    ltac:(simpl; pose proof (length_contents (queue s)) as L; rewrite Hc in L; rewrite Hr; simpl in L; pose proof (count_le (queue s)); lia) Hb)). done.
Qed.
Lemma getc_loop_none e s : intr_off e = true → intr_context e = false → wf (queue s) → contents (queue s) = [] →
  getc_loop e s = wait_loop e NotEmpty s.
Proof.
  intros He Hx Hw Hc. unfold getc_loop. rewrite (bind_Ret _ _ _ _ _ (empty_run e s He Hw)).
  rewrite bool_decide_true by done. by rewrite Hx.
Qed.
Lemma putc_loop_room e s b : intr_off e = true → wf (queue s) → waiters_blocked s →
  Z.of_nat (length (contents (queue s))) ≠ CAPACITY →
  putc_loop e b s = Ret (Done tt, woken NotEmpty (mk_qs (added b (queue s)) (blocked s))).
Proof.
  intros He Hw Hb Hc. unfold putc_loop. rewrite (bind_Ret _ _ _ _ _ (full_run e s He Hw)).
  rewrite bool_decide_false by done. rewrite gets_bind.
  rewrite (bind_Ret _ _ s tt (mk_qs (mk_intq (lock (queue s)) (not_full (queue s)) (not_empty (queue s))
    (<[Z.to_nat (head (queue s)) := b]> (buf (queue s))) (head (queue s)) (tail (queue s))) (blocked s))).
  2: { unfold store_byte. rewrite bool_decide_true; [done|]. destruct Hw as (-> & ? & ?). lia. }
  unfold upd_queue. rewrite modify_bind. cbn [queue lock not_full not_empty buf head tail blocked]. fold (added b (queue s)).
  rewrite (bind_Ret _ _ _ _ _ (signal_run e NotEmpty (mk_qs (added b (queue s)) (blocked s)) He (wf_added _ _ Hw)
    ltac:(simpl; rewrite contents_added by done; by destruct (contents (queue s))) Hb)). done.
Qed.
Lemma putc_loop_full e s b : intr_off e = true → intr_context e = false → wf (queue s) →
  Z.of_nat (length (contents (queue s))) = CAPACITY → putc_loop e b s = wait_loop e NotFull s.
Proof.
  intros He Hx Hw Hc. unfold putc_loop. rewrite (bind_Ret _ _ _ _ _ (full_run e s He Hw)).
  rewrite bool_decide_true by done. by rewrite Hx.
Qed.
