(* ===== verification/CharIO.v ===== *)
(** * The input buffer and the serial port (devices/input.c, devices/serial.c)

    Both are built on interrupt queues (Intq.v): [txq] holds bytes to be sent,
    [buffer] keys and bytes that have come in.  [port p n] is what a read of
    port [p] gives when [n] ports have been read before, and [outs] records the
    writes.  [patience] bounds the polling of the transmitter.

    Interrupts are turned off inside every routine; the routines get the [env]
    of their caller, whose interrupt level is the one restored at the end.
    [given], [typed] and [got] are history variables that no routine reads: the
    bytes that [serial_putc] has passed on, the bytes that have been added to
    the input buffer, and the bytes that [input_getc] has returned.
    [serial_init_queue] also registers the interrupt handler. *)
From S2P Require Import Prelude Intq.
Open Scope Z_scope.

Definition IO_BASE : Z := 0x3f8.
Definition RBR_REG : Z := IO_BASE + 0.
Definition THR_REG : Z := IO_BASE + 0.
Definition IER_REG : Z := IO_BASE + 1.
Definition LS_REG : Z := IO_BASE + 0.
Definition MS_REG : Z := IO_BASE + 1.
Definition IIR_REG : Z := IO_BASE + 2.
Definition FCR_REG : Z := IO_BASE + 2.
Definition LCR_REG : Z := IO_BASE + 3.
Definition MCR_REG : Z := IO_BASE + 4.
Definition LSR_REG : Z := IO_BASE + 5.
Definition IER_RECV : Z := 0x01.
Definition IER_XMIT : Z := 0x02.
Definition LCR_N81 : Z := 0x03.
Definition LCR_DLAB : Z := 0x80.
Definition MCR_OUT2 : Z := 0x08.
Definition LSR_DR : Z := 0x01.
Definition LSR_THRE : Z := 0x20.

Inductive serial_mode : Set := UNINIT | POLL | QUEUE.
#[global] Instance serial_mode_eq_dec : EqDecision serial_mode.
Proof. solve_decision. Defined.

Record dev : Set := mk_dev {
  mode : serial_mode; txq : intq; buffer : intq; sleeping : gset Z; reads : nat; outs : list (Z * Z);
  given : list Z; typed : list Z; got : list Z }.

Definition set_mode v (d : dev) := mk_dev v (txq d) (buffer d) (sleeping d) (reads d) (outs d) (given d) (typed d) (got d).
Definition set_txq (s : qstate) (d : dev) := mk_dev (mode d) (queue s) (buffer d) (blocked s) (reads d) (outs d) (given d) (typed d) (got d).
Definition set_buffer (s : qstate) (d : dev) := mk_dev (mode d) (txq d) (queue s) (blocked s) (reads d) (outs d) (given d) (typed d) (got d).
Definition set_reads v (d : dev) := mk_dev (mode d) (txq d) (buffer d) (sleeping d) v (outs d) (given d) (typed d) (got d).
Definition add_out v (d : dev) := mk_dev (mode d) (txq d) (buffer d) (sleeping d) (reads d) (outs d ++ [v]) (given d) (typed d) (got d).
Definition add_given v (d : dev) := mk_dev (mode d) (txq d) (buffer d) (sleeping d) (reads d) (outs d) (given d ++ [v]) (typed d) (got d).
Definition add_typed v (d : dev) := mk_dev (mode d) (txq d) (buffer d) (sleeping d) (reads d) (outs d) (given d) (typed d ++ [v]) (got d).
Definition add_got v (d : dev) := mk_dev (mode d) (txq d) (buffer d) (sleeping d) (reads d) (outs d) (given d) (typed d) (got d ++ [v]).

(** A routine of intq.c on one of the two queues. *)
Definition on_txq {A} (m : cmd qstate A) : cmd dev A := λ d,
  match m (mk_qs (txq d) (sleeping d)) with Ret (a, s) => Ret (a, set_txq s d) | Err e => Err e end.
Definition on_buffer {A} (m : cmd qstate A) : cmd dev A := λ d,
  match m (mk_qs (buffer d) (sleeping d)) with Ret (a, s) => Ret (a, set_buffer s d) | Err e => Err e end.
(** A call that must not have to wait here. *)
Definition now {A} (m : cmd dev (outcome A)) : cmd dev A :=
  o ← m; match o with Done a => mret a | _ => throw Deadlock end.
(** The caller with interrupts turned off. *)
Definition disabled (e : env) : env := mk_env true (intr_context e) (self e).

Section ports.
Context (port : Z → nat → Z) (patience : nat).

Definition inb (p : Z) : cmd dev Z := λ d, Ret (u8 (port p (reads d)), set_reads (S (reads d)) d).
(** The values written are bytes already. *)
Definition outb (p v : Z) : cmd dev unit := modify (add_out (p, v)).

(** ** The parts of input.c and serial.c that use each other *)
Definition input_init : cmd dev unit :=
  modify (λ d, set_buffer (mk_qs (intq_init (buffer d)) (sleeping d)) d).
Definition input_full (e : env) : cmd dev bool :=
  ASSERT (intr_off e);; on_buffer (intq_full e).

Definition write_ier (e : env) : cmd dev unit :=
  ASSERT (intr_off e);;
  empty ← on_txq (intq_empty e);
  full ← input_full e;
  outb IER_REG (Z.lor (if empty : bool then 0 else IER_XMIT) (if full : bool then 0 else IER_RECV)).
Definition serial_notify (e : env) : cmd dev unit :=
  ASSERT (intr_off e);;
  md ← gets mode;
  if bool_decide (md = QUEUE) then write_ier e else mret tt.

Definition input_putc (e : env) (key : Z) : cmd dev unit :=
  ASSERT (intr_off e);;
  full ← on_buffer (intq_full e); ASSERT (negb full);;
  now (on_buffer (intq_putc e key));;
  modify (add_typed key);;
  serial_notify e.

(** The end of [input_getc], once the call of [intq_getc] has returned. *)
Definition finish_getc (e : env) (o : outcome Z) : cmd dev (outcome Z) :=
  match o with
  | Done key => modify (add_got key);; serial_notify e;; mret (Done key)
  | Lock => mret Lock
  | Wait => mret Wait
  end.
Definition input_getc (e : env) : cmd dev (outcome Z) :=
  o ← on_buffer (intq_getc (disabled e)); finish_getc (disabled e) o.
Definition input_getc_locked (e : env) : cmd dev (outcome Z) :=
  o ← on_buffer (getc_locked (disabled e)); finish_getc (disabled e) o.
Definition input_getc_woken (e : env) : cmd dev (outcome Z) :=
  o ← on_buffer (getc_woken (disabled e)); finish_getc (disabled e) o.

(** ** serial.c *)
Definition set_serial (bps : Z) : cmd dev unit :=
  let base_rate := 1843200 / 16 in
  let divisor := (base_rate / bps) mod 2 ^ 16 in
  ASSERT ((300 <=? bps) && (bps <=? 115200));;
  outb LCR_REG (Z.lor LCR_N81 LCR_DLAB);;
  outb LS_REG (Z.land divisor 0xff);;
  outb MS_REG (Z.shiftr divisor 8);;
  outb LCR_REG LCR_N81.

Definition init_poll : cmd dev unit :=
  md ← gets mode; ASSERT (bool_decide (md = UNINIT));;
  outb IER_REG 0;;
  outb FCR_REG 0;;
  set_serial 9600;;
  outb MCR_REG MCR_OUT2;;
  modify (λ d, set_txq (mk_qs (intq_init (txq d)) (sleeping d)) d);;
  modify (set_mode POLL).

Fixpoint poll_loop (fuel : nat) : cmd dev unit :=
  match fuel with
  | O => throw NoFuel
  | S fuel => st ← inb LSR_REG; if Z.land st LSR_THRE =? 0 then poll_loop fuel else mret tt
  end.
Definition putc_poll (e : env) (byte : Z) : cmd dev unit :=
  ASSERT (intr_off e);; poll_loop patience;; outb THR_REG byte.

Definition serial_init_queue (e : env) : cmd dev unit :=
  md ← gets mode;
  (if bool_decide (md = UNINIT) then init_poll else mret tt);;
  md ← gets mode; ASSERT (bool_decide (md = POLL));;
  modify (set_mode QUEUE);;
  write_ier (disabled e).

(** The end of [serial_putc], once [intq_putc] has returned. *)
Definition finish_putc (e : env) (byte : Z) (o : outcome unit) : cmd dev (outcome unit) :=
  match o with
  | Done _ => modify (add_given byte);; write_ier e;; mret (Done tt)
  | Lock => mret Lock
  | Wait => mret Wait
  end.
Definition serial_putc (e : env) (byte : Z) : cmd dev (outcome unit) :=
  md ← gets mode;
  if bool_decide (md ≠ QUEUE) then
    (if bool_decide (md = UNINIT) then init_poll else mret tt);;
    putc_poll (disabled e) byte;;
    modify (add_given byte);;
    mret (Done tt)
  else
    full ← (if intr_off e then on_txq (intq_full (disabled e)) else mret false);
    (if full : bool then b ← now (on_txq (intq_getc (disabled e))); putc_poll (disabled e) b else mret tt);;
    o ← on_txq (intq_putc (disabled e) byte);
    finish_putc (disabled e) byte o.
Definition serial_putc_locked (e : env) (byte : Z) : cmd dev (outcome unit) :=
  o ← on_txq (putc_locked (disabled e) byte); finish_putc (disabled e) byte o.
Definition serial_putc_woken (e : env) (byte : Z) : cmd dev (outcome unit) :=
  o ← on_txq (putc_woken (disabled e) byte); finish_putc (disabled e) byte o.

(** A queue holds fewer than [INTQ_BUFSIZE] bytes, which bounds these loops. *)
Fixpoint flush_loop (fuel : nat) (e : env) : cmd dev unit :=
  empty ← on_txq (intq_empty e);
  if empty : bool then mret tt
  else match fuel with
       | O => throw NoFuel
       | S fuel => b ← now (on_txq (intq_getc e)); putc_poll e b;; flush_loop fuel e
       end.
Definition serial_flush (e : env) : cmd dev unit := flush_loop (Z.to_nat INTQ_BUFSIZE) (disabled e).

Fixpoint receive_loop (fuel : nat) (e : env) : cmd dev unit :=
  full ← input_full e;
  if full : bool then mret tt
  else
    st ← inb LSR_REG;
    if Z.land st LSR_DR =? 0 then mret tt
    else match fuel with
         | O => throw NoFuel
         | S fuel => b ← inb RBR_REG; input_putc e b;; receive_loop fuel e
         end.
Fixpoint transmit_loop (fuel : nat) (e : env) : cmd dev unit :=
  empty ← on_txq (intq_empty e);
  if empty : bool then mret tt
  else
    st ← inb LSR_REG;
    if Z.land st LSR_THRE =? 0 then mret tt
    else match fuel with
         | O => throw NoFuel
         | S fuel => b ← now (on_txq (intq_getc e)); outb THR_REG b;; transmit_loop fuel e
         end.
Definition serial_interrupt (e : env) : cmd dev unit :=
  inb IIR_REG;;
  receive_loop (Z.to_nat INTQ_BUFSIZE) e;;
  transmit_loop (Z.to_nat INTQ_BUFSIZE) e;;
  write_ier e.
End ports.
