(* ===== verification/Kbd.v ===== *)
(** * The keyboard (devices/kbd.c)

    The state of the shift keys, and the interrupt handler that turns scan
    codes into characters for the input buffer.  [Rebooting] is the call of
    [shutdown_reboot], which does not return. *)
From S2P Require Import Prelude Stdio Intq CharIO.
From stdpp Require Import strings.
Open Scope Z_scope.

Definition DATA_REG : Z := 0x60.
Inductive shift_var : Set := left_shift | right_shift | left_alt | right_alt | left_ctrl | right_ctrl.
#[global] Instance shift_var_eq_dec : EqDecision shift_var.
Proof. solve_decision. Defined.
Record kbd : Set := mk_kbd { down : shift_var → bool; caps_lock : bool; key_cnt : Z }.
Record keyboard : Set := mk_keyboard { keys : kbd; line : dev }.
Inductive handled : Set := Returned | Rebooting.

Definition islower (c : Z) : bool := (chr "a" <=? c) && (c <=? chr "z").
Definition isupper (c : Z) : bool := (chr "A" <=? c) && (c <=? chr "Z").
Definition tolower (c : Z) : Z := if isupper c then c - chr "A" + chr "a" else c.

Record keymap : Set := mk_keymap { first_scancode : Z; key_chars : list Z }.
Definition invariant_keymap : list keymap :=
  [ mk_keymap 0x01 [27]; mk_keymap 0x0e [8]; mk_keymap 0x0f (9 :: chars "QWERTYUIOP"); mk_keymap 0x1c [13];
    mk_keymap 0x1e (chars "ASDFGHJKL"); mk_keymap 0x2c (chars "ZXCVBNM"); mk_keymap 0x37 (chars "*");
    mk_keymap 0x39 (chars " "); mk_keymap 0x53 [127] ].
Definition unshifted_keymap : list keymap :=
  [ mk_keymap 0x02 (chars "1234567890-="); mk_keymap 0x1a (chars "[]"); mk_keymap 0x27 (chars ";'`");
    mk_keymap 0x2b (chars "\"); mk_keymap 0x33 (chars ",./") ].
Definition shifted_keymap : list keymap :=
  [ mk_keymap 0x02 (chars "!@#$%^&*()_+"); mk_keymap 0x1a (chars "{}"); mk_keymap 0x27 [chr ":"; 34; chr "~"];
    mk_keymap 0x2b (chars "|"); mk_keymap 0x33 (chars "<>?") ].

Fixpoint map_key (k : list keymap) (scancode : Z) : option Z :=
  match k with
  | [] => None
  | m :: k =>
      if (first_scancode m <=? scancode) && (scancode <? first_scancode m + Z.of_nat (length (key_chars m)))
      then key_chars m !! Z.to_nat (scancode - first_scancode m)
      else map_key k scancode
  end.

Definition shift_keys : list (Z * shift_var) :=
  [ (0x2a, left_shift); (0x36, right_shift); (0x38, left_alt); (0xe038, right_alt); (0x1d, left_ctrl); (0xe01d, right_ctrl) ].
Fixpoint find_shift (l : list (Z * shift_var)) (code : Z) : option shift_var :=
  match l with [] => None | (c, v) :: l => if c =? code then Some v else find_shift l code end.

(** The character of an ordinary key, [None] when it is not one. *)
Definition key_char (shift : bool) (code : Z) : option Z :=
  match map_key invariant_keymap code with
  | Some c => Some c
  | None => if shift then map_key shifted_keymap code else map_key unshifted_keymap code
  end.
(** Ctrl, Shift and Alt applied to it. *)
Definition modified (shift ctrl alt caps : bool) (c : Z) : Z :=
  let c := if ctrl && (0x40 <=? c) && (c <? 0x60) then c - 0x40
           else if bool_decide (shift = caps) then tolower c else c in
  u8 (if alt then c + 0x80 else c).

Definition on_line {A} (m : cmd dev A) : cmd keyboard A := λ s,
  match m (line s) with Ret (a, d) => Ret (a, mk_keyboard (keys s) d) | Err e => Err e end.
Definition upd_keys (f : kbd → kbd) : cmd keyboard unit := modify (λ s, mk_keyboard (f (keys s)) (line s)).
Definition set_down (v : shift_var) (b : bool) (k : kbd) : kbd :=
  mk_kbd (λ w, if bool_decide (w = v) then b else down k w) (caps_lock k) (key_cnt k).

Section ports.
Context (port : Z → nat → Z).

(** The scan code with its prefix. *)
Definition read_code : cmd keyboard Z :=
  code ← on_line (inb port DATA_REG);
  if code =? 0xe0 then c ← on_line (inb port DATA_REG); mret (Z.lor (Z.shiftl code 8) c) else mret code.

(** [append_key]: the key goes to the input buffer, or is lost when it is full. *)
Definition append_key (e : env) (c : Z) : cmd keyboard unit :=
  full ← on_line (input_full e);
  if full : bool then mret tt
  else upd_keys (λ k, mk_kbd (down k) (caps_lock k) (s64 (key_cnt k + 1)));; on_line (input_putc e c).

Definition keyboard_interrupt (e : env) : cmd keyboard handled :=
  k ← gets keys;
  let shift := down k left_shift || down k right_shift in
  let alt := down k left_alt || down k right_alt in
  let ctrl := down k left_ctrl || down k right_ctrl in
  code ← read_code;
  let release := negb (Z.land code 0x80 =? 0) in
  let code := Z.ldiff code 0x80 in
  if code =? 0x3a then
    (if release then mret tt else upd_keys (λ k, mk_kbd (down k) (negb (caps_lock k)) (key_cnt k)));; mret Returned
  else
    match key_char shift code with
    | Some c =>
        if release then mret Returned
        else if (c =? 127) && ctrl && alt then mret Rebooting
        else append_key e (modified shift ctrl alt (caps_lock k) c);; mret Returned
    | None =>
        match find_shift shift_keys code with
        | Some v => upd_keys (set_down v (negb release));; mret Returned
        | None => mret Returned
        end
    end.
End ports.

(** Every printable ASCII character can be typed, with Shift or without. *)
Definition typable (c : Z) : bool :=
  existsb (λ shift, existsb (λ code,
    match key_char shift code with
    | Some k => (modified shift false false false k =? c) && bool_decide (find_shift shift_keys code = None)
    | None => false
    end) (seqZ 1 0x58)) [false; true].
Lemma ascii_typable : forallb typable (seqZ 32 95) = true.
Proof. vm_compute. reflexivity. Qed.
