(* ===== verification/CharIOSpec.v ===== *)
(** * Characters in and out: the queues between threads and interrupts

    [queue_ok c w q bl]: in a queue whose only waiting can be for [c], thread
    [w] is inside a call that has to wait, or no thread is.  The waiting thread
    holds the lock, and it is asleep only while there is a reason to wait.
    [dev_ok] says the same of the two queues of the character devices and ties
    them to the bytes that have passed through. *)
From S2P Require Import Prelude Intq CharIO Kbd.
Open Scope Z_scope.

Definition other (c : condition) : condition := match c with NotEmpty => NotFull | NotFull => NotEmpty end.
Definition queue_ok (c : condition) (w : option Z) (q : intq) (bl : gset Z) : Prop :=
  wf q ∧ waiter (other c) q = None ∧
  match w with
  | None => lock q = None ∧ waiter c q = None
  | Some t => lock q = Some t ∧ (t ∈ bl → waiter c q = Some t ∧ stuck c q) ∧ (t ∉ bl → waiter c q = None)
  end.

(** The threads asleep after the one that waited has been woken up. *)
Definition wake (w : option Z) (bl : gset Z) : gset Z := match w with Some t => bl ∖ {[ t ]} | None => bl end.

#[global] Instance condition_eq_dec : EqDecision condition.
Proof. solve_decision. Defined.
Lemma other_ne c : other c ≠ c.
Proof. by destruct c. Qed.
Lemma other_cases c c' : c' = c ∨ c' = other c.
Proof. destruct c, c'; auto. Qed.

Lemma queue_ok_blocked c w q bl : queue_ok c w q bl → waiters_blocked (mk_qs q bl).
Proof.
  intros (_ & Ho & Hw) c' t. simpl. intros Hc. destruct (other_cases c c') as [->| ->]; [|congruence].
  destruct w as [t'|]; [|destruct Hw; congruence]. destruct Hw as (_ & Hin & Hout).
  destruct (decide (t' ∈ bl)) as [H|H]; [destruct (Hin H)|specialize (Hout H)]; congruence.
Qed.
Lemma queue_ok_frame c w q bl bl' : queue_ok c w q bl → (∀ t, w = Some t → t ∈ bl ↔ t ∈ bl') → queue_ok c w q bl'.
Proof.
  intros (Hw & Ho & H) E. split_and!; [done..|]. destruct w as [t|]; [|done].
  specialize (E t eq_refl). destruct H as (? & Hin & Hout). split_and!; [done|tauto..].
Qed.
Lemma stuck_set_waiter c c' v q : stuck c (set_waiter c' v q) ↔ stuck c q.
Proof. by destruct c, c'. Qed.

(** The queue [q'] after a change of its bytes only. *)
Definition same_waiters (q q' : intq) : Prop := lock q' = lock q ∧ not_full q' = not_full q ∧ not_empty q' = not_empty q.
Lemma waiter_same c q q' : same_waiters q q' → waiter c q' = waiter c q.
Proof. intros (_ & ? & ?). by destruct c. Qed.

(** Signalling the condition nobody waits for. *)
Lemma signal_other c w q bl q' : queue_ok c w q bl → same_waiters q q' → wf q' →
  (∀ t, w = Some t → t ∉ bl) ∨ stuck c q' → woken (other c) (mk_qs q' bl) = mk_qs q' bl ∧ queue_ok c w q' bl.
Proof.
  intros (Hw & Ho & H) Hs Hw' Hq. pose proof (waiter_same c _ _ Hs) as E1. pose proof (waiter_same (other c) _ _ Hs) as E2.
  destruct Hs as (El & _). split; [unfold woken; simpl; by rewrite E2, Ho|].
  unfold queue_ok. rewrite El, E1, E2. split_and!; [done..|]. destruct w as [t|]; [|done].
  destruct H as (? & Hin & Hout). split_and!; [done| |done].
  intros Ht. destruct (Hin Ht). split; [done|]. destruct Hq as [Hq|Hq]; [by destruct (Hq t eq_refl)|done].
Qed.
(** Signalling the condition that a thread may wait for. *)
Lemma signal_waiter c w q bl q' : queue_ok c w q bl → same_waiters q q' → wf q' →
  ∃ q'', woken c (mk_qs q' bl) = mk_qs q'' (wake w bl) ∧ queue_ok c w q'' (wake w bl) ∧ contents q'' = contents q'.
Proof.
  intros (Hw & Ho & H) Hs Hw'. pose proof (waiter_same c _ _ Hs) as E1. pose proof (waiter_same (other c) _ _ Hs) as E2.
  destruct Hs as (El & _). unfold woken. simpl. rewrite E1. destruct w as [t|].
  - destruct H as (Hl & Hin & Hout). destruct (decide (t ∈ bl)) as [Ht|Ht].
    + destruct (Hin Ht) as [-> _]. eexists. split; [done|]. split; [|apply contents_set_waiter].
      refine (conj _ (conj _ (conj _ (conj _ _)))); [by apply wf_set_waiter|rewrite <- Ho, <- E2; by destruct c|rewrite <- Hl, <- El; by destruct c| |].
      * simpl. set_solver.
      * by destruct c.
    + rewrite (Hout Ht). exists q'. simpl. replace (bl ∖ {[t]}) with bl by set_solver.
      split_and!; [done| |done]. refine (conj _ (conj _ (conj _ (conj _ _)))); [done|congruence|congruence|done|intros _].
      rewrite E1. by apply Hout.
  - destruct H as [Hl Hn]. rewrite Hn. exists q'. split_and!; [done| |done]. refine (conj _ (conj _ (conj _ _))); [done|congruence|congruence|congruence].
Qed.

Section queue_rules.
Context (e : env) (He : intr_off e = true).

(** A byte is taken.  Only the queue to be sent has a thread waiting for room. *)
Lemma getc_ok w q bl b r : queue_ok NotFull w q bl → contents q = b :: r →
  ∃ q', getc_loop e (mk_qs q bl) = Ret (Done b, mk_qs q' (wake w bl)) ∧ queue_ok NotFull w q' (wake w bl) ∧ contents q' = r.
Proof using He.
  intros H Hc. destruct (getc_loop_some e (mk_qs q bl) b r) as [Hg Hr]; [done|apply H|by eapply queue_ok_blocked|done|].
  simpl in *. destruct (signal_waiter NotFull w q bl (taken q)) as (q' & Eq & Hok & Hc'); [done|done|apply wf_taken, H|].
  exists q'. rewrite Hg, Eq. split_and!; [done|done|congruence].
Qed.
Lemma getc_ok_reader w q bl b r : queue_ok NotEmpty w q bl → contents q = b :: r →
  ∃ q', getc_loop e (mk_qs q bl) = Ret (Done b, mk_qs q' bl) ∧ queue_ok NotEmpty w q' bl ∧ contents q' = r.
Proof using He.
  intros H Hc. destruct (getc_loop_some e (mk_qs q bl) b r) as [Hg Hr]; [done|apply H|by eapply queue_ok_blocked|done|].
  simpl in *. destruct (signal_other NotEmpty w q bl (taken q)) as [Eq Hok]; [done|done|apply wf_taken, H| |].
  { left. intros t -> Ht. destruct H as (_ & _ & _ & Hin & _). destruct (Hin Ht) as [_ Hs]. simpl in Hs. congruence. }
  exists (taken q). simpl in Eq. rewrite Hg, Eq. done.
Qed.
Lemma putc_ok w q bl b : queue_ok NotEmpty w q bl → Z.of_nat (length (contents q)) ≠ CAPACITY →
  ∃ q', putc_loop e b (mk_qs q bl) = Ret (Done tt, mk_qs q' (wake w bl)) ∧ queue_ok NotEmpty w q' (wake w bl) ∧
        contents q' = contents q ++ [b].
Proof using He.
  intros H Hc. pose proof (putc_loop_room e (mk_qs q bl) b He ltac:(apply H) ltac:(by eapply queue_ok_blocked) Hc) as Hg.
  simpl in *. destruct (signal_waiter NotEmpty w q bl (added b q)) as (q' & Eq & Hok & Hc'); [done|done|apply wf_added, H|].
  exists q'. rewrite Hg, Eq. split_and!; [done|done|]. rewrite Hc'. apply contents_added; [apply H|done].
Qed.
Lemma putc_ok_writer w q bl b : queue_ok NotFull w q bl → Z.of_nat (length (contents q)) ≠ CAPACITY →
  ∃ q', putc_loop e b (mk_qs q bl) = Ret (Done tt, mk_qs q' bl) ∧ queue_ok NotFull w q' bl ∧
        contents q' = contents q ++ [b].
Proof using He.
  intros H Hc. pose proof (putc_loop_room e (mk_qs q bl) b He ltac:(apply H) ltac:(by eapply queue_ok_blocked) Hc) as Hg.
  simpl in *. destruct (signal_other NotFull w q bl (added b q)) as [Eq Hok]; [done|done|apply wf_added, H| |].
  { left. intros t -> Ht. destruct H as (_ & _ & _ & Hin & _). destruct (Hin Ht) as [_ Hs]. simpl in Hs. congruence. }
  exists (added b q). simpl in Eq. rewrite Hg, Eq. split_and!; [done|done|]. apply contents_added; [apply H|done].
Qed.
(** Nothing can be done: the thread goes to sleep. *)
Lemma sleep_ok {A} c q bl : intr_context e = false → queue_ok c None q bl → stuck c q →
  ∃ q', wait_loop (A:=A) e c (mk_qs q bl) = Ret (Wait, mk_qs q' ({[ self e ]} ∪ bl)) ∧
        queue_ok c (Some (self e)) q' ({[ self e ]} ∪ bl) ∧ contents q' = contents q.
Proof using He.
  intros Hx (Hw & Ho & Hl & Hc) Hs.
  eexists. split; [exact (wait_loop_run e c (mk_qs q bl) He Hx Hw Hs Hl)|]. simpl.
  split; [|by rewrite contents_set_waiter]. split_and!.
  - by apply wf_set_waiter.
  - by destruct c.
  - by destruct c.
  - intros _. split; [by destruct c|]. by apply stuck_set_waiter.
  - set_solver.
Qed.
Lemma release_ok c q bl : queue_ok c (Some (self e)) q bl → self e ∉ bl →
  ∃ q', lock_release e (mk_qs q bl) = Ret (tt, mk_qs q' bl) ∧ queue_ok c None q' bl ∧ contents q' = contents q.
Proof using Type.
  intros (Hw & Ho & Hl & _ & Hout) Hb. eexists. split; [exact (lock_release_run e (mk_qs q bl) Hl)|].
  split; [|done]. split_and!; [done|by destruct c|done|]. specialize (Hout Hb). by destruct c.
Qed.
End queue_rules.

(** ** What the serial port makes of the writes
    The registers of the 16550A: while the divisor latch is open ([dlab]),
    the first two ports are the divisor; otherwise the first one transmits and
    the second one is the interrupt enable register. *)
Record uart : Set := mk_uart { dlab : bool; ier : Z; sent : list Z }.
Definition uart_out (u : uart) (w : Z * Z) : uart :=
  if w.1 =? LCR_REG then mk_uart (Z.testbit w.2 7) (ier u) (sent u)
  else if w.1 =? THR_REG then (if dlab u then u else mk_uart false (ier u) (sent u ++ [w.2]))
  else if w.1 =? IER_REG then (if dlab u then u else mk_uart false w.2 (sent u))
  else u.
Definition uart_of (d : dev) : uart := foldl uart_out (mk_uart false 0 []) (outs d).

Lemma uart_of_add w d : uart_of (add_out w d) = uart_out (uart_of d) w.
Proof. unfold uart_of. simpl. by rewrite foldl_app. Qed.
Lemma uart_send b d : dlab (uart_of d) = false →
  uart_of (add_out (THR_REG, b) d) = mk_uart false (ier (uart_of d)) (sent (uart_of d) ++ [b]).
Proof. intros H. rewrite uart_of_add. unfold uart_out. simpl. by rewrite H. Qed.
Lemma uart_ier v d : dlab (uart_of d) = false → uart_of (add_out (IER_REG, v) d) = mk_uart false v (sent (uart_of d)).
Proof. intros H. rewrite uart_of_add. unfold uart_out. simpl. by rewrite H. Qed.

Record dev_ok (pw gw : option Z) (d : dev) : Prop := mk_dev_ok {
  ok_txq : queue_ok NotFull pw (txq d) (sleeping d);
  ok_buffer : queue_ok NotEmpty gw (buffer d) (sleeping d);
  ok_distinct : ∀ t, pw = Some t → gw ≠ Some t;
  ok_sleeping : ∀ t, t ∈ sleeping d → pw = Some t ∨ gw = Some t;
  ok_dlab : dlab (uart_of d) = false;
  ok_sent : sent (uart_of d) ++ contents (txq d) = given d;
  ok_got : got d ++ contents (buffer d) = typed d;
  ok_mode : mode d ≠ QUEUE → contents (txq d) = [] ∧ pw = None }.

(** What [write_ier] stores in the interrupt enable register. *)
Definition ier_exact (d : dev) : Z :=
  Z.lor (if bool_decide (contents (txq d) = []) then 0 else IER_XMIT)
        (if bool_decide (Z.of_nat (length (contents (buffer d))) = CAPACITY) then 0 else IER_RECV).
(** No interrupt that is needed is masked: the transmit interrupt is on while
    there are bytes to send, and the receive interrupt exactly while there is
    room for a byte. *)
Definition ier_covers (v : Z) (d : dev) : Prop :=
  (contents (txq d) ≠ [] → Z.testbit v 1 = true) ∧
  Z.testbit v 0 = bool_decide (Z.of_nat (length (contents (buffer d))) ≠ CAPACITY).
Definition ier_ok (d : dev) : Prop := mode d = QUEUE → ier_covers (ier (uart_of d)) d.
Lemma ier_exact_covers d : ier_covers (ier_exact d) d.
Proof.
  unfold ier_covers, ier_exact. destruct (decide (contents (txq d) = [])) as [E|E];
    [rewrite (bool_decide_true (contents (txq d) = [])) by done|rewrite (bool_decide_false (contents (txq d) = [])) by done];
    repeat case_bool_decide; done.
Qed.

Lemma wake_apart w w' bl : (∀ t, w = Some t → w' ≠ Some t) → ∀ t, w = Some t → t ∈ bl ↔ t ∈ wake w' bl.
Proof. intros H t Ht. specialize (H t Ht). destruct w' as [t'|]; simpl; [|done]. assert (t ≠ t') by congruence. set_solver. Qed.
Lemma wake_sub w bl t : t ∈ wake w bl → t ∈ bl.
Proof. destruct w; simpl; set_solver. Qed.
Lemma on_txq_run {A} (m : cmd qstate A) d a s : m (mk_qs (txq d) (sleeping d)) = Ret (a, s) → on_txq m d = Ret (a, set_txq s d).
Proof. intros H. unfold on_txq. by rewrite H. Qed.
Lemma on_buffer_run {A} (m : cmd qstate A) d a s : m (mk_qs (buffer d) (sleeping d)) = Ret (a, s) → on_buffer m d = Ret (a, set_buffer s d).
Proof. intros H. unfold on_buffer. by rewrite H. Qed.
Lemma set_txq_same d : set_txq (mk_qs (txq d) (sleeping d)) d = d.
Proof. by destruct d. Qed.
Lemma set_buffer_same d : set_buffer (mk_qs (buffer d) (sleeping d)) d = d.
Proof. by destruct d. Qed.

Section dev_rules.
Context (port : Z → nat → Z) (patience : nat) (pw gw : option Z) (e : env) (He : intr_off e = true).

Lemma dev_ok_reads n d : dev_ok pw gw d → dev_ok pw gw (set_reads n d).
Proof using Type. intros []. by constructor. Qed.

Lemma txq_empty_run d : dev_ok pw gw d → on_txq (intq_empty e) d = Ret (bool_decide (contents (txq d) = []), d).
Proof using He.
  intros H. rewrite (on_txq_run _ d _ _ (empty_run e (mk_qs (txq d) (sleeping d)) He (proj1 (ok_txq _ _ _ H)))).
  by rewrite set_txq_same.
Qed.
Lemma txq_full_run d : dev_ok pw gw d →
  on_txq (intq_full e) d = Ret (bool_decide (Z.of_nat (length (contents (txq d))) = CAPACITY), d).
Proof using He.
  intros H. rewrite (on_txq_run _ d _ _ (full_run e (mk_qs (txq d) (sleeping d)) He (proj1 (ok_txq _ _ _ H)))).
  by rewrite set_txq_same.
Qed.
Lemma buffer_full_run d : dev_ok pw gw d →
  on_buffer (intq_full e) d = Ret (bool_decide (Z.of_nat (length (contents (buffer d))) = CAPACITY), d).
Proof using He.
  intros H. rewrite (on_buffer_run _ d _ _ (full_run e (mk_qs (buffer d) (sleeping d)) He (proj1 (ok_buffer _ _ _ H)))).
  by rewrite set_buffer_same.
Qed.
Lemma input_full_run d : dev_ok pw gw d →
  input_full e d = Ret (bool_decide (Z.of_nat (length (contents (buffer d))) = CAPACITY), d).
Proof using He. intros H. unfold input_full. rewrite ASSERT_bind by done. by apply buffer_full_run. Qed.

Lemma write_ier_run d : dev_ok pw gw d → write_ier e d = Ret (tt, add_out (IER_REG, ier_exact d) d).
Proof using He.
  intros H. unfold write_ier. rewrite ASSERT_bind by done.
  rewrite (bind_Ret _ _ _ _ _ (txq_empty_run d H)), (bind_Ret _ _ _ _ _ (input_full_run d H)). done.
Qed.
Lemma write_ier_ok d : dev_ok pw gw d → ∃ d', write_ier e d = Ret (tt, d') ∧ dev_ok pw gw d' ∧ ier_ok d' ∧ mode d' = mode d ∧
  contents (txq d') = contents (txq d) ∧ contents (buffer d') = contents (buffer d).
Proof using He.
  intros H. eexists. split; [by apply write_ier_run|]. pose proof (uart_ier (ier_exact d) d (ok_dlab _ _ _ H)) as U.
  split; [|split; [|done]].
  - destruct H. constructor; try done; by rewrite U.
  - intros _. rewrite U. apply (ier_exact_covers d).
Qed.
Lemma serial_notify_ok d : dev_ok pw gw d → ∃ d', serial_notify e d = Ret (tt, d') ∧ dev_ok pw gw d' ∧ ier_ok d' ∧ mode d' = mode d ∧
  contents (txq d') = contents (txq d) ∧ contents (buffer d') = contents (buffer d).
Proof using He.
  intros H. unfold serial_notify. rewrite ASSERT_bind, gets_bind by done. case_bool_decide as Hm; [by apply write_ier_ok|].
  exists d. unfold ier_ok. done.
Qed.

(** A byte comes in. *)
Lemma input_putc_ok d k : dev_ok pw gw d → Z.of_nat (length (contents (buffer d))) ≠ CAPACITY →
  ∃ d', input_putc e k d = Ret (tt, d') ∧ dev_ok pw gw d' ∧ ier_ok d' ∧ mode d' = mode d ∧
        contents (buffer d') = contents (buffer d) ++ [k].
Proof using He.
  intros H Hn. destruct (putc_ok e He gw (buffer d) (sleeping d) k (ok_buffer _ _ _ H) Hn) as (q' & Eq & Hq & Hc).
  set (d1 := add_typed k (set_buffer (mk_qs q' (wake gw (sleeping d))) d)).
  assert (H1 : dev_ok pw gw d1).
  { destruct H. constructor; simpl; try done.
    - eapply queue_ok_frame; [done|]. by apply wake_apart.
    - intros t Ht. apply ok_sleeping0. by eapply wake_sub.
    - rewrite Hc, <- ok_got0. by rewrite app_assoc. }
  destruct (serial_notify_ok d1 H1) as (d2 & E2 & H2 & Hi & Hm & _ & Hb). exists d2.
  split; [|split_and!; [done|done|done|by rewrite Hb, <- Hc]].
  unfold input_putc. rewrite ASSERT_bind by done. rewrite (bind_Ret _ _ _ _ _ (buffer_full_run d H)).
  rewrite bool_decide_false by done. rewrite ASSERT_bind by done.
  unfold now. rewrite bind_assoc.
  rewrite (bind_Ret _ _ d (Done tt) (set_buffer (mk_qs q' (wake gw (sleeping d))) d)).
  2: { apply on_buffer_run. unfold intq_putc. by rewrite ASSERT_bind. }
  cbv beta iota. rewrite ret_bind, modify_bind. done.
Qed.

(** The first byte of the queue is taken out, to be sent next. *)
Lemma take_byte_ok d b r : dev_ok pw gw d → contents (txq d) = b :: r →
  ∃ q', now (on_txq (intq_getc e)) d = Ret (b, set_txq (mk_qs q' (wake pw (sleeping d))) d) ∧ contents q' = r ∧
        ∀ n, dev_ok pw gw (add_out (THR_REG, b) (set_reads n (set_txq (mk_qs q' (wake pw (sleeping d))) d))).
Proof using He.
  intros H Hc. destruct (getc_ok e He pw (txq d) (sleeping d) b r (ok_txq _ _ _ H) Hc) as (q' & Eq & Hq & Hr).
  exists q'. split_and!; [|done|].
  - unfold now. rewrite (bind_Ret _ _ d (Done b) (set_txq (mk_qs q' (wake pw (sleeping d))) d)); [done|].
    apply on_txq_run. unfold intq_getc. by rewrite ASSERT_bind.
  - intros n. set (d1 := set_reads n _). assert (U : uart_of d1 = uart_of d) by done.
    assert (V := uart_send b d1). rewrite U in V. destruct H. specialize (V ok_dlab0).
    constructor; simpl; try done.
    + eapply queue_ok_frame; [done|]. apply wake_apart. intros t Hg Hp. by apply (ok_distinct0 t).
    + intros t Ht. apply ok_sleeping0. by eapply wake_sub.
    + by rewrite V.
    + rewrite V. simpl. rewrite <- ok_sent0, Hc, Hr. by rewrite <- app_assoc.
    + intros Hm. destruct (ok_mode0 Hm) as [E _]. congruence.
Qed.

(** ** The loops of the interrupt handler *)
Lemma receive_loop_ok fuel d : dev_ok pw gw d → ier_ok d → (63 - length (contents (buffer d)) <= fuel)%nat →
  ∃ d', receive_loop port fuel e d = Ret (tt, d') ∧ dev_ok pw gw d' ∧ ier_ok d' ∧ mode d' = mode d.
Proof using He.
  revert d. induction fuel as [|fuel IH]; intros d H Hi Hf; cbn [receive_loop];
    rewrite (bind_Ret _ _ _ _ _ (input_full_run d H)); case_bool_decide as Hn; try (exists d; by split_and!).
  all: set (d1 := set_reads (S (reads d)) d); assert (H1 : dev_ok pw gw d1) by (by apply dev_ok_reads).
  all: rewrite (bind_Ret _ _ d _ d1 eq_refl); case_match; [exists d1; split_and!; by try exact Hi|].
  { exfalso. pose proof (length_contents (buffer d)). pose proof (count_le (buffer d)). unfold CAPACITY in *. lia. }
  rewrite (bind_Ret _ _ d1 _ (set_reads (S (reads d1)) d1) eq_refl).
  destruct (input_putc_ok (set_reads (S (reads d1)) d1) (u8 (port RBR_REG (reads d1)))) as (d2 & E2 & H2 & Hi2 & Hm2 & Hc2);
    [by apply dev_ok_reads|done|].
  rewrite (bind_Ret _ _ _ _ _ E2).
  destruct (IH d2 H2 Hi2) as (d3 & E3 & H3 & Hi3 & Hm3).
  { rewrite Hc2, length_app. simpl. change (contents (buffer d1)) with (contents (buffer d)). lia. }
  exists d3. split_and!; [done|done|done|by rewrite Hm3, Hm2].
Qed.
Lemma transmit_loop_ok fuel d : dev_ok pw gw d → (length (contents (txq d)) <= fuel)%nat →
  ∃ d', transmit_loop port fuel e d = Ret (tt, d') ∧ dev_ok pw gw d' ∧ mode d' = mode d.
Proof using He.
  revert d. induction fuel as [|fuel IH]; intros d H Hf; cbn [transmit_loop];
    rewrite (bind_Ret _ _ _ _ _ (txq_empty_run d H)); case_bool_decide as Hn; try (exists d; by split_and!).
  { destruct (contents (txq d)); [done|simpl in Hf; lia]. }
  set (d1 := set_reads (S (reads d)) d). assert (H1 : dev_ok pw gw d1) by (by apply dev_ok_reads).
  rewrite (bind_Ret _ _ d _ d1 eq_refl). case_match; [by exists d1|].
  destruct (contents (txq d)) as [|b r] eqn:Hc; [done|].
  destruct (take_byte_ok d1 b r H1 Hc) as (q' & Eq & Hr & Hok).
  rewrite (bind_Ret _ _ _ _ _ Eq). unfold outb. rewrite modify_bind.
  specialize (Hok (reads d1)). set (d2 := add_out _ _) in Hok.
  destruct (IH d2 Hok) as (d3 & E3 & H3 & Hm3).
  { simpl. rewrite Hr. simpl in Hf. lia. }
  exists d3. by split_and!.
Qed.
Lemma contents_bound q : (length (contents q) <= 64)%nat.
Proof using Type. pose proof (length_contents q). pose proof (count_le q). unfold CAPACITY in *. lia. Qed.
Lemma serial_interrupt_ok d : dev_ok pw gw d → ier_ok d →
  ∃ d', serial_interrupt port e d = Ret (tt, d') ∧ dev_ok pw gw d' ∧ ier_ok d' ∧ mode d' = mode d.
Proof using He.
  intros H Hi. unfold serial_interrupt.
  rewrite (bind_Ret _ _ d _ (set_reads (S (reads d)) d) eq_refl).
  destruct (receive_loop_ok (Z.to_nat INTQ_BUFSIZE) (set_reads (S (reads d)) d)) as (d1 & E1 & H1 & Hi1 & Hm1);
    [by apply dev_ok_reads|done|change (Z.to_nat INTQ_BUFSIZE) with 64%nat; lia|].
  rewrite (bind_Ret _ _ _ _ _ E1).
  destruct (transmit_loop_ok (Z.to_nat INTQ_BUFSIZE) d1 H1 (contents_bound _)) as (d2 & E2 & H2 & Hm2).
  rewrite (bind_Ret _ _ _ _ _ E2).
  destruct (write_ier_ok d2 H2) as (d3 & E3 & H3 & Hi3 & Hm3 & _).
  exists d3. split_and!; [done..|]. by rewrite Hm3, Hm2.
Qed.

(** ** Polling
    The transmitter of the port becomes ready again within [patience] looks. *)
Hypothesis ready : ∀ n, ∃ k, (k < patience)%nat ∧ Z.land (u8 (port LSR_REG (n + k)%nat)) LSR_THRE ≠ 0.

Lemma poll_loop_ok d k fuel : (k < fuel)%nat → Z.land (u8 (port LSR_REG (reads d + k)%nat)) LSR_THRE ≠ 0 →
  ∃ n, poll_loop port fuel d = Ret (tt, set_reads n d).
Proof using Type.
  revert d fuel. induction k as [|k IH]; intros d [|fuel] Hf Hk; try lia; cbn [poll_loop];
    rewrite (bind_Ret _ _ d _ (set_reads (S (reads d)) d) eq_refl).
  - rewrite Nat.add_0_r in Hk. rewrite (proj2 (Z.eqb_neq _ _) Hk). by exists (S (reads d)).
  - case_match; [|by exists (S (reads d))].
    destruct (IH (set_reads (S (reads d)) d) fuel) as [n E]; [lia| |exists n; exact E].
    simpl. by replace (S (reads d + k)) with (reads d + S k)%nat by lia.
Qed.
Lemma putc_poll_run d b : ∃ n, putc_poll port patience e b d = Ret (tt, add_out (THR_REG, b) (set_reads n d)).
Proof using He ready.
  destruct (ready (reads d)) as (k & Hk & Hr). destruct (poll_loop_ok d k patience Hk Hr) as [n E].
  exists n. unfold putc_poll. rewrite ASSERT_bind by done. by rewrite (bind_Ret _ _ _ _ _ E).
Qed.
(** The oldest byte is sent by polling. *)
Lemma take_poll_ok d b r : dev_ok pw gw d → contents (txq d) = b :: r →
  ∃ d', (b ← now (on_txq (intq_getc e)); putc_poll port patience e b) d = Ret (tt, d') ∧ dev_ok pw gw d' ∧
        contents (txq d') = r ∧ mode d' = mode d ∧ buffer d' = buffer d ∧ ier (uart_of d') = ier (uart_of d).
Proof using He ready.
  intros H Hc. destruct (take_byte_ok d b r H Hc) as (q' & Eq & Hr & Hok). rewrite (bind_Ret _ _ _ _ _ Eq).
  destruct (putc_poll_run (set_txq (mk_qs q' (wake pw (sleeping d))) d) b) as [n En].
  eexists. split; [exact En|]. split; [exact (Hok n)|]. split_and!; [done..|].
  rewrite uart_send; [done|]. exact (ok_dlab _ _ _ H).
Qed.
Lemma flush_loop_ok fuel d : dev_ok pw gw d → (length (contents (txq d)) <= fuel)%nat →
  ∃ d', flush_loop port patience fuel e d = Ret (tt, d') ∧ dev_ok pw gw d' ∧ mode d' = mode d ∧ contents (txq d') = [] ∧
        buffer d' = buffer d ∧ ier (uart_of d') = ier (uart_of d).
Proof using He ready.
  revert d. induction fuel as [|fuel IH]; intros d H Hf; cbn [flush_loop];
    rewrite (bind_Ret _ _ _ _ _ (txq_empty_run d H)); case_bool_decide as Hn; try (exists d; by split_and!).
  { destruct (contents (txq d)); [done|simpl in Hf; lia]. }
  destruct (contents (txq d)) as [|b r] eqn:Hc; [done|].
  destruct (take_poll_ok d b r H Hc) as (d1 & E1 & H1 & Hr & Hm1 & Hb1 & Hi1).
  destruct (IH d1 H1) as (d2 & E2 & H2 & Hm2 & Hc2 & Hb2 & Hi2); [rewrite Hr; simpl in Hf; lia|].
  exists d2. split_and!; [|done|by rewrite Hm2|done|by rewrite Hb2|by rewrite Hi2].
  rewrite <- E2, <- (bind_Ret _ (λ _, flush_loop port patience fuel e) d tt d1 E1). by rewrite bind_assoc.
Qed.
Lemma flush_ok d : dev_ok pw gw d → ier_ok d →
  ∃ d', flush_loop port patience (Z.to_nat INTQ_BUFSIZE) e d = Ret (tt, d') ∧ dev_ok pw gw d' ∧ ier_ok d' ∧ mode d' = mode d.
Proof using He ready.
  intros H Hi. destruct (flush_loop_ok (Z.to_nat INTQ_BUFSIZE) d H (contents_bound _)) as (d' & E & H' & Hm & Hc & Hb & Hu).
  exists d'. split_and!; [done|done| |done]. intros Hq. rewrite Hm in Hq. destruct (Hi Hq) as [_ Hr].
  split; [done|]. by rewrite Hu, Hb.
Qed.
End dev_rules.

(** ** Starting up *)
Section start_rules.
Context (port : Z → nat → Z) (patience : nat) (gw : option Z) (e : env).

Lemma init_poll_ok d : dev_ok None gw d → mode d = UNINIT →
  ∃ d', init_poll d = Ret (tt, d') ∧ dev_ok None gw d' ∧ mode d' = POLL.
Proof using Type.
  intros H Hm. eexists. split; [unfold init_poll; rewrite gets_bind, Hm; done|].
  split; [|done]. destruct H. destruct (ok_mode0 ltac:(by rewrite Hm)) as [Hc _].
  assert (U : ∀ d1, outs d1 = ((((((outs d ++ [(IER_REG, 0)]) ++ [(FCR_REG, 0)]) ++ [(LCR_REG, Z.lor LCR_N81 LCR_DLAB)]) ++
      [(LS_REG, 12)]) ++ [(MS_REG, 0)]) ++ [(LCR_REG, LCR_N81)]) ++ [(MCR_REG, MCR_OUT2)] →
    uart_of d1 = mk_uart false 0 (sent (uart_of d))).
  { intros d1 E. unfold uart_of in *. rewrite E, !foldl_app. simpl. unfold uart_out at 7. simpl. rewrite ok_dlab0. done. }
  constructor; simpl; try done.
  - split; [|done]. destruct ok_txq0 as (Hw & _). destruct Hw as (? & _). repeat split; simpl; try done; lia.
  - by rewrite U.
  - rewrite U by done. simpl. rewrite <- ok_sent0, Hc. done.
Qed.
Lemma serial_init_queue_ok d : dev_ok None gw d → mode d ≠ QUEUE →
  ∃ d', serial_init_queue e d = Ret (tt, d') ∧ dev_ok None gw d' ∧ ier_ok d'.
Proof using Type.
  intros H Hm. unfold serial_init_queue. rewrite gets_bind.
  assert (∃ d1, (if bool_decide (mode d = UNINIT) then init_poll else mret tt) d = Ret (tt, d1) ∧ dev_ok None gw d1 ∧ mode d1 = POLL)
    as (d1 & E1 & H1 & Hm1).
  { case_bool_decide as Hu; [by apply init_poll_ok|]. exists d. split_and!; [done..|]. by destruct (mode d). }
  rewrite (bind_Ret _ _ _ _ _ E1), gets_bind, Hm1. rewrite ASSERT_bind, modify_bind by done.
  assert (H2 : dev_ok None gw (set_mode QUEUE d1)) by (destruct H1; by constructor).
  destruct (write_ier_ok None gw (disabled e) eq_refl _ H2) as (d3 & E3 & H3 & Hi3 & _). by exists d3.
Qed.
End start_rules.
