(* ===== verification/CharIOTheorems.v ===== *)
(** * Every interleaving of the character devices

    The machine has threads inside [serial_putc] and [input_getc], code that
    prints with interrupts off, and the interrupts of the serial port and the
    keyboard.  An execution is orderly when no two threads are inside
    [serial_putc] with interrupts on, and no two inside [input_getc]; in the
    kernel the console lock and the file system lock of the callers see to
    it. *)
From S2P Require Import Prelude Stdio Intq CharIO Kbd CharIOSpec.
From stdpp Require Import strings.
Open Scope Z_scope.

(** * Calls of [serial_putc] and [input_getc] by threads

    A call returns, or the thread goes to sleep inside it; in both cases the
    devices are as [dev_ok] says, with the thread among those that wait in the
    second. *)

(** How a call ended, with the thread that waits in it. *)
Definition ended {A} (e : env) (o : outcome A) (w w' : option Z) : Prop :=
  match o with Done _ => w' = w | Lock => False | Wait => w' = Some (self e) end.

Section put.
Context (pw pw' gw : option Z) (e : env) (d : dev) (b : Z) (m : cmd qstate (outcome unit)) (q : intq).
Context (He : intr_off e = true) (H : dev_ok pw gw d) (Hi : ier_ok d) (Hm : mode d = QUEUE).
Context (Hq : queue_ok NotFull pw' q (sleeping d)) (Hc : contents q = contents (txq d)).
Context (Hr : m (mk_qs (txq d) (sleeping d)) = putc_loop e b (mk_qs q (sleeping d))).
Context (Hsub : ∀ t, pw' = Some t → pw = Some t) (Hsl : ∀ t, t ∈ sleeping d → pw' = Some t ∨ gw = Some t).

Lemma put_room : Z.of_nat (length (contents (txq d))) ≠ CAPACITY →
  ∃ d', (o ← on_txq m; finish_putc e b o) d = Ret (Done tt, d') ∧ dev_ok pw' gw d' ∧ ier_ok d' ∧ mode d' = QUEUE.
Proof using All.
  intros Hroom. destruct (putc_ok_writer e He pw' q (sleeping d) b Hq) as (q' & Eq & Hq' & Hc'); [by rewrite Hc|].
  set (d1 := add_given b (set_txq (mk_qs q' (sleeping d)) d)).
  assert (H1 : dev_ok pw' gw d1).
  { destruct H. constructor; simpl; try done.
    - intros t Ht. apply ok_distinct. by apply Hsub.
    - change (uart_of d1) with (uart_of d). rewrite Hc', Hc, <- ok_sent. by rewrite app_assoc. }
  destruct (write_ier_ok pw' gw e He d1 H1) as (d2 & E2 & H2 & Hi2 & Hm2 & _). exists d2.
  split_and!; [|done|done|by rewrite Hm2].
  rewrite (bind_Ret _ _ d (Done tt) (set_txq (mk_qs q' (sleeping d)) d)) by (apply on_txq_run; by rewrite Hr).
  cbn [finish_putc]. rewrite modify_bind. by rewrite (bind_Ret _ _ _ _ _ E2).
Qed.
Lemma put_full : intr_context e = false → pw' = None → gw ≠ Some (self e) → Z.of_nat (length (contents (txq d))) = CAPACITY →
  ∃ d', (o ← on_txq m; finish_putc e b o) d = Ret (Wait, d') ∧ dev_ok (Some (self e)) gw d' ∧ ier_ok d' ∧ mode d' = QUEUE.
Proof using All.
  intros Hx Hp Hg Hfull.
  assert (Hq0 : queue_ok NotFull None q (sleeping d)) by (by rewrite <- Hp). assert (Hst : stuck NotFull q) by (simpl; by rewrite Hc).
  destruct (sleep_ok (A:=unit) e He NotFull q (sleeping d) Hx Hq0 Hst) as (q' & Eq & Hq' & Hc').
  set (d1 := set_txq (mk_qs q' ({[ self e ]} ∪ sleeping d)) d). exists d1.
  assert (Hcc : contents (txq d1) = contents (txq d)) by (simpl; by rewrite Hc', Hc).
  split_and!; [| |intros _; rewrite <- Hcc in Hfull; destruct (Hi Hm); split; rewrite ?Hcc; done|done].
  - rewrite (bind_Ret _ _ d Wait d1); [done|]. apply on_txq_run. rewrite Hr.
    rewrite (putc_loop_full e (mk_qs q (sleeping d)) b He Hx (proj1 Hq)); [done|]. simpl. by rewrite Hc.
  - destruct H. constructor; simpl; try done.
    + eapply queue_ok_frame; [done|]. intros t ->. assert (t ≠ self e) by congruence. set_solver.
    + congruence.
    + intros t [->%elem_of_singleton|Ht]%elem_of_union; [by left|]. destruct (Hsl t Ht); [congruence|by right].
    + change (uart_of d1) with (uart_of d). by rewrite Hc', Hc.
Qed.
End put.

Section get.
Context (pw gw gw' : option Z) (e : env) (d : dev) (m : cmd qstate (outcome Z)) (q : intq).
Context (He : intr_off e = true) (H : dev_ok pw gw d) (Hi : ier_ok d).
Context (Hq : queue_ok NotEmpty gw' q (sleeping d)) (Hc : contents q = contents (buffer d)).
Context (Hr : m (mk_qs (buffer d) (sleeping d)) = getc_loop e (mk_qs q (sleeping d))).
Context (Hsub : ∀ t, gw' = Some t → gw = Some t) (Hsl : ∀ t, t ∈ sleeping d → pw = Some t ∨ gw' = Some t).

Lemma get_some k r : contents (buffer d) = k :: r →
  ∃ d', (o ← on_buffer m; finish_getc e o) d = Ret (Done k, d') ∧ dev_ok pw gw' d' ∧ ier_ok d' ∧ mode d' = mode d.
Proof using All.
  intros Hk. destruct (getc_ok_reader e He gw' q (sleeping d) k r Hq) as (q' & Eq & Hq' & Hc'); [by rewrite Hc|].
  set (d1 := add_got k (set_buffer (mk_qs q' (sleeping d)) d)).
  assert (H1 : dev_ok pw gw' d1).
  { destruct H. constructor; simpl; try done.
    - intros t Ht Hg. by apply (ok_distinct t Ht), Hsub.
    - rewrite Hc', <- ok_got, Hk. by rewrite <- app_assoc. }
  destruct (serial_notify_ok pw gw' e He d1 H1) as (d2 & E2 & H2 & Hi2 & Hm2 & _). exists d2.
  split_and!; [|done|done|by rewrite Hm2].
  rewrite (bind_Ret _ _ d (Done k) (set_buffer (mk_qs q' (sleeping d)) d)) by (apply on_buffer_run; by rewrite Hr).
  cbn [finish_getc]. rewrite modify_bind. by rewrite (bind_Ret _ _ _ _ _ E2).
Qed.
Lemma get_none : intr_context e = false → gw' = None → pw ≠ Some (self e) → contents (buffer d) = [] →
  ∃ d', (o ← on_buffer m; finish_getc e o) d = Ret (Wait, d') ∧ dev_ok pw (Some (self e)) d' ∧ ier_ok d' ∧ mode d' = mode d.
Proof using All.
  intros Hx Hp Hg Hempty.
  assert (Hq0 : queue_ok NotEmpty None q (sleeping d)) by (by rewrite <- Hp). assert (Hst : stuck NotEmpty q) by (simpl; by rewrite Hc).
  destruct (sleep_ok (A:=Z) e He NotEmpty q (sleeping d) Hx Hq0 Hst) as (q' & Eq & Hq' & Hc').
  set (d1 := set_buffer (mk_qs q' ({[ self e ]} ∪ sleeping d)) d). exists d1.
  assert (Hcc : contents (buffer d1) = contents (buffer d)) by (simpl; by rewrite Hc', Hc).
  split_and!; [| |intros Hm; destruct (Hi Hm); split; rewrite ?Hcc; done|done].
  - rewrite (bind_Ret _ _ d Wait d1); [done|]. apply on_buffer_run. rewrite Hr.
    rewrite (getc_loop_none e (mk_qs q (sleeping d)) He Hx (proj1 Hq)); [done|]. simpl. by rewrite Hc.
  - destruct H. constructor; simpl; try done.
    + eapply queue_ok_frame; [done|]. intros t ->. assert (t ≠ self e) by congruence. set_solver.
    + congruence.
    + intros t [->%elem_of_singleton|Ht]%elem_of_union; [by right|]. destruct (Hsl t Ht); [by left|congruence].
    + by rewrite Hc', Hc.
Qed.
End get.

(** ** The calls *)
Section calls.
Context (port : Z → nat → Z) (patience : nat).
Hypothesis ready : ∀ n, ∃ k, (k < patience)%nat ∧ Z.land (u8 (port LSR_REG (n + k)%nat)) LSR_THRE ≠ 0.

(** Before [serial_init_queue] bytes are sent at once. *)
Lemma serial_putc_poll pw gw e d b : dev_ok pw gw d → mode d ≠ QUEUE →
  ∃ d', serial_putc port patience e b d = Ret (Done tt, d') ∧ dev_ok None gw d' ∧ mode d' ≠ QUEUE.
Proof using ready.
  intros H Hm. destruct (ok_mode _ _ _ H Hm) as [_ ->]. unfold serial_putc. rewrite gets_bind, bool_decide_true by done.
  assert (∃ d1, (if bool_decide (mode d = UNINIT) then init_poll else mret tt) d = Ret (tt, d1) ∧ dev_ok None gw d1 ∧ mode d1 ≠ QUEUE)
    as (d1 & E1 & H1 & Hm1).
  { case_bool_decide as Hu; [|by exists d]. destruct (init_poll_ok gw d H Hu) as (d1 & ? & ? & E). exists d1. by rewrite E. }
  rewrite (bind_Ret _ _ _ _ _ E1). destruct (putc_poll_run port patience (disabled e) eq_refl ready d1 b) as [n En].
  rewrite (bind_Ret _ _ _ _ _ En), modify_bind. eexists. split; [done|]. split; [|done].
  destruct H1. destruct (ok_mode Hm1) as [Hc _]. set (d2 := add_given b _).
  assert (U : uart_of d2 = mk_uart false (ier (uart_of d1)) (sent (uart_of d1) ++ [b])) by exact (uart_send b (set_reads n d1) ok_dlab).
  constructor; try done.
  - by rewrite U.
  - rewrite U. simpl. rewrite <- ok_sent, Hc, !app_nil_r. done.
Qed.

(** With interrupts off the oldest byte is sent at once when there is no room. *)
Lemma serial_putc_off pw gw e d b : intr_off e = true → dev_ok pw gw d → ier_ok d → mode d = QUEUE →
  ∃ d', serial_putc port patience e b d = Ret (Done tt, d') ∧ dev_ok pw gw d' ∧ ier_ok d' ∧ mode d' = QUEUE.
Proof using ready.
  intros He H Hi Hm. unfold serial_putc. rewrite gets_bind, Hm. rewrite bool_decide_false by (intros E; by apply E).
  rewrite He, (bind_Ret _ _ _ _ _ (txq_full_run pw gw (disabled e) eq_refl d H)).
  assert (∃ d1, (if bool_decide (Z.of_nat (length (contents (txq d))) = CAPACITY)
     then b0 ← now (on_txq (intq_getc (disabled e))); putc_poll port patience (disabled e) b0 else mret tt) d = Ret (tt, d1) ∧
     dev_ok pw gw d1 ∧ ier_ok d1 ∧ mode d1 = QUEUE ∧ Z.of_nat (length (contents (txq d1))) ≠ CAPACITY) as (d1 & E1 & H1 & Hi1 & Hm1 & Hr).
  { case_bool_decide as Hf; [|by exists d]. destruct (contents (txq d)) as [|c r] eqn:Hc; [done|].
    destruct (take_poll_ok port patience pw gw (disabled e) eq_refl ready d c r H Hc) as (d1 & E1 & H1 & Hr & Hm1 & Hb1 & Hu1).
    exists d1. split_and!; [done|done| |by rewrite Hm1|rewrite Hr; simpl in Hf; unfold CAPACITY in *; lia].
    intros _. destruct (Hi Hm) as [Ha Hb]. unfold ier_covers. rewrite Hu1, Hb1. split; [|done]. intros _. apply Ha. by rewrite Hc. }
  rewrite (bind_Ret _ _ _ _ _ E1).
  apply (put_room pw pw gw (disabled e) d1 b _ (txq d1)); try done; [apply H1|apply H1].
Qed.

(** With interrupts on the thread may have to wait. *)
Lemma serial_putc_on gw t d b : dev_ok None gw d → ier_ok d → mode d = QUEUE → gw ≠ Some t →
  ∃ o w d', serial_putc port patience (mk_env false false t) b d = Ret (o, d') ∧ ended (mk_env false false t) o None w ∧
    dev_ok w gw d' ∧ ier_ok d' ∧ mode d' = QUEUE.
Proof using Type.
  intros H Hi Hm Hg. unfold serial_putc. rewrite gets_bind, Hm. rewrite bool_decide_false by (intros E; by apply E).
  cbn [intr_off]. rewrite ret_bind, ret_bind. set (e := disabled (mk_env false false t)).
  destruct (decide (Z.of_nat (length (contents (txq d))) = CAPACITY)) as [Hf|Hf].
  - destruct (put_full None None gw e d b (intq_putc e b) (txq d)) as (d' & E & ?); try done; [apply H|apply H|].
    by exists Wait, (Some t), d'.
  - destruct (put_room None None gw e d b (intq_putc e b) (txq d)) as (d' & E & ?); try done; [apply H|apply H|].
    by exists (Done tt), None, d'.
Qed.
Lemma serial_putc_woken_ok gw t d b : dev_ok (Some t) gw d → ier_ok d → t ∉ sleeping d →
  ∃ o w d', serial_putc_woken (mk_env false false t) b d = Ret (o, d') ∧ ended (mk_env false false t) o None w ∧
    dev_ok w gw d' ∧ ier_ok d' ∧ mode d' = QUEUE.
Proof using Type.
  intros H Hi Ht. set (e := disabled (mk_env false false t)).
  assert (Hm : mode d = QUEUE). { destruct (decide (mode d = QUEUE)) as [|Hn]; [done|]. by destruct (ok_mode _ _ _ H Hn). }
  destruct (release_ok e NotFull (txq d) (sleeping d) (ok_txq _ _ _ H) Ht) as (q & Eq & Hq & Hc).
  assert (Hr : putc_woken e b (mk_qs (txq d) (sleeping d)) = putc_loop e b (mk_qs q (sleeping d))).
  { unfold putc_woken. by rewrite (bind_Ret _ _ _ _ _ Eq). }
  assert (Hsl : ∀ t', t' ∈ sleeping d → None = Some t' ∨ gw = Some t').
  { intros t' Ht'. right. destruct (ok_sleeping _ _ _ H t' Ht') as [|]; [congruence|done]. }
  unfold serial_putc_woken. fold e.
  destruct (decide (Z.of_nat (length (contents (txq d))) = CAPACITY)) as [Hf|Hf].
  - destruct (put_full (Some t) None gw e d b (putc_woken e b) q) as (d' & E & ?); try done; [by apply H|].
    by exists Wait, (Some t), d'.
  - destruct (put_room (Some t) None gw e d b (putc_woken e b) q) as (d' & E & ?); try done.
    by exists (Done tt), None, d'.
Qed.

Lemma input_getc_ok pw t d : dev_ok pw None d → ier_ok d → pw ≠ Some t →
  ∃ o w d', input_getc (mk_env false false t) d = Ret (o, d') ∧ ended (mk_env false false t) o None w ∧
    dev_ok pw w d' ∧ ier_ok d' ∧ mode d' = mode d.
Proof using Type.
  intros H Hi Hp. unfold input_getc. set (e := disabled (mk_env false false t)).
  destruct (contents (buffer d)) as [|k r] eqn:Hk.
  - destruct (get_none pw None None e d (intq_getc e) (buffer d)) as (d' & E & ?); try done; [apply H|apply H|].
    by exists Wait, (Some t), d'.
  - destruct (get_some pw None None e d (intq_getc e) (buffer d)) with k r as (d' & E & ?); try done; [apply H|apply H|].
    by exists (Done k), None, d'.
Qed.
Lemma input_getc_woken_ok pw t d : dev_ok pw (Some t) d → ier_ok d → t ∉ sleeping d →
  ∃ o w d', input_getc_woken (mk_env false false t) d = Ret (o, d') ∧ ended (mk_env false false t) o None w ∧
    dev_ok pw w d' ∧ ier_ok d' ∧ mode d' = mode d.
Proof using Type.
  intros H Hi Ht. set (e := disabled (mk_env false false t)).
  destruct (release_ok e NotEmpty (buffer d) (sleeping d) (ok_buffer _ _ _ H) Ht) as (q & Eq & Hq & Hc).
  assert (Hr : getc_woken e (mk_qs (buffer d) (sleeping d)) = getc_loop e (mk_qs q (sleeping d))).
  { unfold getc_woken. by rewrite (bind_Ret _ _ _ _ _ Eq). }
  assert (Hsl : ∀ t', t' ∈ sleeping d → pw = Some t' ∨ None = Some t').
  { intros t' Ht'. left. destruct (ok_sleeping _ _ _ H t' Ht') as [|]; [done|congruence]. }
  assert (Hp : pw ≠ Some t) by (intros E; by destruct (ok_distinct _ _ _ H t E)).
  unfold input_getc_woken. fold e. destruct (contents (buffer d)) as [|k r] eqn:Hk.
  - destruct (get_none pw (Some t) None e d (getc_woken e) q) as (d' & E & ?); try done; [by rewrite Hk|].
    by exists Wait, (Some t), d'.
  - destruct (get_some pw (Some t) None e d (getc_woken e) q) with k r as (d' & E & ?); try done; [by rewrite Hk|].
    by exists (Done k), None, d'.
Qed.
End calls.

Inductive call : Set := Putting (b : Z) | Getting.
Inductive place : Set := AtLock | AtBlock.
Record machine : Set := mk_machine { devices : keyboard; calls : gmap Z (call * place) }.
Definition io (m : machine) : dev := line (devices m).

Inductive label : Set :=
  | Call_putc (t b : Z)              (* a thread, with interrupts on *)
  | Call_getc (t : Z)
  | Resume (t : Z)                   (* the thread goes on in its call *)
  | Putc_off (t b : Z)               (* with interrupts off *)
  | Putc_handler (t b : Z)           (* in an interrupt handler *)
  | Flush (t : Z)
  | Init_queue (t : Z)
  | Serial_irq (t : Z)               (* interrupts; [t] is the running thread *)
  | Kbd_irq (t : Z).

Definition on_io {A} (c : cmd dev A) : cmd machine A := λ m,
  match on_line c (devices m) with Ret (a, k) => Ret (a, mk_machine k (calls m)) | Err e => Err e end.
Definition on_devices {A} (c : cmd keyboard A) : cmd machine A := λ m,
  match c (devices m) with Ret (a, k) => Ret (a, mk_machine k (calls m)) | Err e => Err e end.
(** Where a thread is after a part of its call. *)
Definition note {A} (t : Z) (c : call) (o : outcome A) : cmd machine handled :=
  modify (λ m, mk_machine (devices m) (match o with
    | Done _ => delete t (calls m) | Lock => <[t := (c, AtLock)]> (calls m) | Wait => <[t := (c, AtBlock)]> (calls m) end));;
  mret Returned.

Section machine.
Context (port : Z → nat → Z) (patience : nat).

Definition run (l : label) : cmd machine handled :=
  match l with
  | Call_putc t b => o ← on_io (serial_putc port patience (mk_env false false t) b); note t (Putting b) o
  | Call_getc t => o ← on_io (input_getc (mk_env false false t)); note t Getting o
  | Resume t =>
      c ← gets (λ m, calls m !! t);
      match c with
      | Some (Putting b, AtLock) => o ← on_io (serial_putc_locked (mk_env false false t) b); note t (Putting b) o
      | Some (Putting b, AtBlock) => o ← on_io (serial_putc_woken (mk_env false false t) b); note t (Putting b) o
      | Some (Getting, AtLock) => o ← on_io (input_getc_locked (mk_env false false t)); note t Getting o
      | Some (Getting, AtBlock) => o ← on_io (input_getc_woken (mk_env false false t)); note t Getting o
      | None => mret Returned
      end
  | Putc_off t b => on_io (now (serial_putc port patience (mk_env true false t) b));; mret Returned
  | Putc_handler t b => on_io (now (serial_putc port patience (mk_env true true t) b));; mret Returned
  | Flush t => on_io (serial_flush port patience (mk_env false false t));; mret Returned
  | Init_queue t => on_io (serial_init_queue (mk_env false false t));; mret Returned
  | Serial_irq t => on_io (serial_interrupt port (mk_env true true t));; mret Returned
  | Kbd_irq t => on_devices (keyboard_interrupt port (mk_env true true t))
  end.

(** What can happen next.  A thread that sleeps cannot go on; one that waits
    for the lock can always look again. *)
Definition enabled (l : label) (m : machine) : Prop :=
  match l with
  | Call_putc t _ | Call_getc t | Putc_off t _ | Flush t => calls m !! t = None
  | Init_queue t => calls m !! t = None ∧ mode (io m) ≠ QUEUE
  | Resume t => is_Some (calls m !! t) ∧ t ∉ sleeping (io m)
  | Serial_irq _ => mode (io m) = QUEUE
  | Putc_handler _ _ | Kbd_irq _ => True
  end.
Definition orderly (l : label) (m : machine) : Prop :=
  match l with
  | Call_putc _ _ => ∀ t b p, calls m !! t ≠ Some (Putting b, p)
  | Call_getc _ => ∀ t p, calls m !! t ≠ Some (Getting, p)
  | _ => True
  end.
(** The devices when the kernel starts. *)
Definition zero_queue : intq := mk_intq None None None (replicate 64 0) 0 0.
Definition boot : machine :=
  mk_machine (mk_keyboard (mk_kbd (λ _, false) false 0) (mk_dev UNINIT zero_queue zero_queue ∅ O [] [] [] [])) ∅.
(** The states that steps which [P] allows lead to. *)
Inductive reachable (P : label → machine → Prop) : machine → Prop :=
  | at_boot : reachable P boot
  | at_step m l m' : reachable P m → enabled l m → P l m → run l m = Ret (Returned, m') → reachable P m'.

(** ** The invariant *)
Definition sound (pw gw : option Z) (m : machine) : Prop :=
  dev_ok pw gw (io m) ∧ ier_ok (io m) ∧
  (∀ t c p, calls m !! t = Some (c, p) → p = AtBlock) ∧
  (∀ t, pw = Some t ↔ ∃ b, calls m !! t = Some (Putting b, AtBlock)) ∧
  (∀ t, gw = Some t ↔ calls m !! t = Some (Getting, AtBlock)).

Lemma sound_boot : sound None None boot.
Proof using Type.
  assert (Q : ∀ c, queue_ok c None zero_queue ∅) by (intros c; repeat split; try done; by destruct c).
  refine (conj _ (conj _ (conj _ (conj _ _)))); [constructor; simpl; try done; try apply Q; set_solver|done|..].
  - intros t c p. simpl. by rewrite lookup_empty.
  - intros t. simpl. split; [done|]. intros (b & E). by rewrite lookup_empty in E.
  - intros t. simpl. by rewrite lookup_empty.
Qed.

Hypothesis ready : ∀ n, ∃ k, (k < patience)%nat ∧ Z.land (u8 (port LSR_REG (n + k)%nat)) LSR_THRE ≠ 0.

Lemma keyboard_ok pw gw e s : intr_off e = true → dev_ok pw gw (line s) → ier_ok (line s) →
  ∃ r s', keyboard_interrupt port e s = Ret (r, s') ∧ dev_ok pw gw (line s') ∧ ier_ok (line s').
Proof using Type.
  intros He H Hi. unfold keyboard_interrupt. rewrite gets_bind.
  assert (∃ code n, read_code port s = Ret (code, mk_keyboard (keys s) (set_reads n (line s)))) as (code & n & E).
  { unfold read_code. rewrite (bind_Ret _ _ s _ (mk_keyboard (keys s) (set_reads (S (reads (line s))) (line s))) eq_refl).
    case_match; [|by eexists _, _]. eexists _, _. unfold mbind, cmd_bind. simpl. reflexivity. }
  rewrite (bind_Ret _ _ _ _ _ E). set (s1 := mk_keyboard _ _). assert (H1 : dev_ok pw gw (line s1)) by (by apply dev_ok_reads).
  assert (Hi1 : ier_ok (line s1)) by done. clearbody s1.
  case_match. { destruct (negb (Z.land code 128 =? 0)); eexists _, _; (split; [done|]); done. }
  destruct (key_char _ _) as [c0|]; [|case_match; eexists _, _; (split; [done|]); done].
  case_match; [by eexists _, _|]. case_match; [by eexists _, _|].
  match goal with |- context [append_key e ?x] => set (c := x) end. unfold append_key.
  rewrite bind_assoc, (bind_Ret _ _ s1 (bool_decide (Z.of_nat (length (contents (buffer (line s1)))) = CAPACITY)) s1).
  2: { unfold on_line. rewrite (input_full_run pw gw e He _ H1). by destruct s1. }
  case_bool_decide as Hf; [by eexists _, _|]. unfold upd_keys. rewrite bind_assoc, modify_bind.
  destruct (input_putc_ok pw gw e He (line s1) c H1 Hf) as (d & Ed & Hd & Hid & _).
  eexists _, _. split.
  { unfold mbind, cmd_bind, on_line. simpl. rewrite Ed. done. }
  done.
Qed.

Lemma on_io_run {A} (c : cmd dev A) m a d : c (io m) = Ret (a, d) →
  on_io c m = Ret (a, mk_machine (mk_keyboard (keys (devices m)) d) (calls m)).
Proof using Type. intros E. unfold on_io, on_line. unfold io in E. by rewrite E. Qed.

(** A step that ends outside of the two calls, or leaves the waiting threads
    where they are. *)
Lemma sound_same pw gw m k : sound pw gw m → dev_ok pw gw (line k) → ier_ok (line k) → sound pw gw (mk_machine k (calls m)).
Proof using Type. intros (_ & _ & H) ? ?. done. Qed.

(** The step of a thread inside [serial_putc]. *)
Lemma note_put {A} pw gw w t b (o : outcome A) m k : sound pw gw m → dev_ok w gw (line k) → ier_ok (line k) →
  ended (mk_env false false t) o None w → (∀ t', pw = Some t' → t' = t) → calls m !! t ≠ Some (Getting, AtBlock) →
  ∃ m', note t (Putting b) o (mk_machine k (calls m)) = Ret (Returned, m') ∧ sound w gw m'.
Proof using Type.
  intros (_ & _ & Hl & Hp & Hg) Hd Hi Ho Hn Ht.
  assert (Hother : ∀ t' b', t' ≠ t → calls m !! t' ≠ Some (Putting b', AtBlock)).
  { intros t' b' Hne E. apply Hne, Hn, Hp. by exists b'. }
  destruct o as [a| |]; simpl in Ho; [|done|]; subst w; (eexists; split; [done|]).
  all: refine (conj Hd (conj Hi (conj _ (conj _ _)))); simpl.
  - intros t' c p Hc. apply lookup_delete_Some in Hc as [_ Hc]. by eapply Hl.
  - intros t'. split; [done|]. intros (b' & Hc). apply lookup_delete_Some in Hc as [Hne Hc]. by destruct (Hother t' b').
  - intros t'. rewrite Hg. destruct (decide (t' = t)) as [->|Hne]; [|by rewrite lookup_delete_ne].
    split; [done|]. by rewrite lookup_delete_eq.
  - intros t' c p [[<- [= <- <-]]|[_ Hc]]%lookup_insert_Some; [done|]. by eapply Hl.
  - intros t'. split.
    + intros [= <-]. exists b. by rewrite lookup_insert_eq.
    + intros (b' & [[<- _]|[Hne Hc]]%lookup_insert_Some); [done|]. by destruct (Hother t' b').
  - intros t'. rewrite Hg. destruct (decide (t' = t)) as [->|Hne]; [|by rewrite lookup_insert_ne].
    rewrite lookup_insert_eq. split; [done|intros [=]].
Qed.
Lemma note_get {A} pw gw w t (o : outcome A) m k : sound pw gw m → dev_ok pw w (line k) → ier_ok (line k) →
  ended (mk_env false false t) o None w → (∀ t', gw = Some t' → t' = t) → (∀ b, calls m !! t ≠ Some (Putting b, AtBlock)) →
  ∃ m', note t Getting o (mk_machine k (calls m)) = Ret (Returned, m') ∧ sound pw w m'.
Proof using Type.
  intros (_ & _ & Hl & Hp & Hg) Hd Hi Ho Hn Ht.
  assert (Hother : ∀ t', t' ≠ t → calls m !! t' ≠ Some (Getting, AtBlock)).
  { intros t' Hne E. by apply Hne, Hn, Hg. }
  destruct o as [a| |]; simpl in Ho; [|done|]; subst w; (eexists; split; [done|]).
  all: refine (conj Hd (conj Hi (conj _ (conj _ _)))); simpl.
  - intros t' c p Hc. apply lookup_delete_Some in Hc as [_ Hc]. by eapply Hl.
  - intros t'. rewrite Hp. destruct (decide (t' = t)) as [->|Hne]; [|by rewrite lookup_delete_ne].
    split; intros (b & Hc); [by destruct (Ht b)|]. by rewrite lookup_delete_eq in Hc.
  - intros t'. split; [done|]. intros [Hne Hc]%lookup_delete_Some. by destruct (Hother t').
  - intros t' c p [[<- [= <- <-]]|[_ Hc]]%lookup_insert_Some; [done|]. by eapply Hl.
  - intros t'. rewrite Hp. destruct (decide (t' = t)) as [->|Hne]; [|by rewrite lookup_insert_ne].
    split; intros (b & Hc); [by destruct (Ht b)|]. by rewrite lookup_insert_eq in Hc.
  - intros t'. split.
    + intros [= <-]. by rewrite lookup_insert_eq.
    + intros [[<- _]|[Hne Hc]]%lookup_insert_Some; [done|]. by destruct (Hother t').
Qed.

Lemma sound_idle pw gw m t : sound pw gw m → calls m !! t = None → pw ≠ Some t ∧ gw ≠ Some t.
Proof using Type.
  intros (_ & _ & _ & Hp & Hg) Ht. split; [intros [b E]%Hp|intros E%Hg]; congruence.
Qed.
Lemma sound_no_putter pw gw m : sound pw gw m → (∀ t b p, calls m !! t ≠ Some (Putting b, p)) → pw = None.
Proof using Type. intros (_ & _ & _ & Hp & _) H. destruct pw as [t|]; [|done]. destruct (proj1 (Hp t) eq_refl) as [b E]. by destruct (H t b AtBlock). Qed.
Lemma sound_no_getter pw gw m : sound pw gw m → (∀ t p, calls m !! t ≠ Some (Getting, p)) → gw = None.
Proof using Type. intros (_ & _ & _ & _ & Hg) H. destruct gw as [t|]; [|done]. pose proof (proj1 (Hg t) eq_refl). by destruct (H t AtBlock). Qed.

Definition proceeds (l : label) (m : machine) : Prop :=
  ∃ r m' pw gw, run l m = Ret (r, m') ∧ sound pw gw m'.

Lemma putc_now_ok pw gw m e b : sound pw gw m → intr_off e = true →
  ∃ d pw', now (serial_putc port patience e b) (io m) = Ret (tt, d) ∧ sound pw' gw (mk_machine (mk_keyboard (keys (devices m)) d) (calls m)).
Proof using ready.
  intros H He. destruct (decide (mode (io m) = QUEUE)) as [Hm|Hm].
  - destruct (serial_putc_off port patience ready pw gw e (io m) b He) as (d & E & Hd & Hi & _); [apply H|apply H|done|].
    exists d, pw. unfold now. rewrite (bind_Ret _ _ _ _ _ E). split; [done|]. by apply (sound_same pw gw m).
  - destruct (serial_putc_poll port patience ready pw gw e (io m) b) as (d & E & Hd & Hm'); [apply H|done|].
    destruct (ok_mode _ _ _ (proj1 H) Hm) as [_ ->]. exists d, None. unfold now. rewrite (bind_Ret _ _ _ _ _ E). split; [done|].
    apply (sound_same None gw m); [done|done|]. by intros ?.
Qed.

Lemma call_ok l m pw gw : sound pw gw m → enabled l m → orderly l m →
  match l with Call_putc _ _ | Call_getc _ => True | _ => False end → proceeds l m.
Proof using ready.
  intros H He Ho Hl. destruct l as [t b|t| | | | | | |]; try done; unfold proceeds; cbn [run].
  - pose proof (sound_no_putter pw gw m H Ho) as ->. destruct (sound_idle _ _ _ t H He) as [_ Hg].
    assert (∃ o w d, serial_putc port patience (mk_env false false t) b (io m) = Ret (o, d) ∧
      ended (mk_env false false t) o None w ∧ dev_ok w gw d ∧ ier_ok d) as (o & w & d & E & Ho' & Hd & Hi).
    { destruct (decide (mode (io m) = QUEUE)) as [Hm|Hm].
      - destruct (serial_putc_on port patience gw t (io m) b) as (o & w & d & ? & ? & ? & ? & ?); [apply H|apply H|done|done|].
        by exists o, w, d.
      - destruct (serial_putc_poll port patience ready None gw (mk_env false false t) (io m) b) as (d & E & Hd & Hm'); [apply H|done|].
        exists (Done tt), None, d. split_and!; try done. }
    rewrite (bind_Ret _ _ _ _ _ (on_io_run _ _ _ _ E)).
    destruct (note_put None gw w t b o m (mk_keyboard (keys (devices m)) d)) as (m' & Em & Hm'); try done; [by simpl in He; rewrite He|].
    eexists _, m', w, gw. done.
  - pose proof (sound_no_getter pw gw m H Ho) as ->. destruct (sound_idle _ _ _ t H He) as [Hp _].
    destruct (input_getc_ok pw t (io m)) as (o & w & d & E & Ho' & Hd & Hi & _); [apply H|apply H|done|].
    rewrite (bind_Ret _ _ _ _ _ (on_io_run _ _ _ _ E)).
    destruct (note_get pw None w t o m (mk_keyboard (keys (devices m)) d)) as (m' & Em & Hm'); try done; [by simpl in He; rewrite He|].
    eexists _, m', pw, w. done.
Qed.
Lemma resume_ok t m pw gw : sound pw gw m → enabled (Resume t) m → proceeds (Resume t) m.
Proof using Type.
  intros H [[[c p] Hc] Hs]. unfold proceeds. cbn [run]. rewrite gets_bind, Hc.
  pose proof H as (_ & _ & Hl & Hp & Hg). pose proof (Hl _ _ _ Hc) as ->. destruct c as [b|].
  - assert (pw = Some t) as -> by (apply Hp; by exists b).
    destruct (serial_putc_woken_ok gw t (io m) b) as (o & w & d & E & Ho & Hd & Hi & _); [apply H|apply H|done|].
    rewrite (bind_Ret _ _ _ _ _ (on_io_run _ _ _ _ E)).
    destruct (note_put (Some t) gw w t b o m (mk_keyboard (keys (devices m)) d)) as (m' & Em & Hm'); try done; [congruence|congruence|].
    eexists _, m', w, gw. done.
  - assert (gw = Some t) as -> by (by apply Hg).
    destruct (input_getc_woken_ok pw t (io m)) as (o & w & d & E & Ho & Hd & Hi & _); [apply H|apply H|done|].
    rewrite (bind_Ret _ _ _ _ _ (on_io_run _ _ _ _ E)).
    destruct (note_get pw (Some t) w t o m (mk_keyboard (keys (devices m)) d)) as (m' & Em & Hm'); try done; [congruence|congruence|].
    eexists _, m', pw, w. done.
Qed.
Lemma step_ok l m pw gw : sound pw gw m → enabled l m → orderly l m → proceeds l m.
Proof using ready.
  intros H He Ho. destruct l as [t b|t|t|t b|t b|t|t|t|t]; [by eapply call_ok..|by eapply resume_ok| | | | | |]; unfold proceeds; cbn [run].
  - destruct (putc_now_ok pw gw m (mk_env true false t) b H eq_refl) as (d & pw' & E & Hd).
    rewrite (bind_Ret _ _ _ _ _ (on_io_run _ _ _ _ E)). eexists _, _, pw', gw. by split.
  - destruct (putc_now_ok pw gw m (mk_env true true t) b H eq_refl) as (d & pw' & E & Hd).
    rewrite (bind_Ret _ _ _ _ _ (on_io_run _ _ _ _ E)). eexists _, _, pw', gw. by split.
  - destruct (flush_ok port patience pw gw (disabled (mk_env false false t)) eq_refl ready (io m)) as (d & E & Hd & Hi & _); [apply H|apply H|].
    rewrite (bind_Ret _ _ _ _ _ (on_io_run _ _ _ _ E)). eexists _, _, pw, gw. split; [done|]. by apply (sound_same pw gw m).
  - destruct He as [_ Hm]. destruct (ok_mode _ _ _ (proj1 H) Hm) as [_ ->].
    destruct (serial_init_queue_ok gw (mk_env false false t) (io m)) as (d & E & Hd & Hi); [apply H|done|].
    rewrite (bind_Ret _ _ _ _ _ (on_io_run _ _ _ _ E)). eexists _, _, None, gw. split; [done|]. by apply (sound_same None gw m).
  - destruct (serial_interrupt_ok port pw gw (mk_env true true t) eq_refl (io m)) as (d & E & Hd & Hi & _); [apply H|apply H|].
    rewrite (bind_Ret _ _ _ _ _ (on_io_run _ _ _ _ E)). eexists _, _, pw, gw. split; [done|]. by apply (sound_same pw gw m).
  - destruct (keyboard_ok pw gw (mk_env true true t) (devices m)) as (r & s' & E & Hd & Hi); [done|apply H|apply H|].
    exists r, (mk_machine s' (calls m)), pw, gw. split; [unfold on_devices; by rewrite E|]. by apply (sound_same pw gw m).
Qed.
Lemma reachable_sound m : reachable orderly m → ∃ pw gw, sound pw gw m.
Proof using ready.
  induction 1 as [|m l m' Hr (pw & gw & H) He Ho E]; [exists None, None; apply sound_boot|].
  destruct (step_ok l m pw gw H He Ho) as (r & m'' & pw' & gw' & E' & H'). rewrite E in E'. injection E' as <- <-. by exists pw', gw'.
Qed.
End machine.


(** A port that always has the byte 0x61 and is always ready: 0x61 has the bits
    for both in the line status register, and is the scan code of no key. *)
Definition ready_port (p : Z) (n : nat) : Z := 0x61.

(** ** Two readers
    [wait] asserts that the queue is still empty, but the thread may have slept
    in [lock_acquire] since it looked. *)
Definition key_port (p : Z) (n : nat) : Z := 0x1e.
Lemma two_readers_panic : ∃ m, reachable key_port 1 (λ _ _, True) m ∧ enabled (Resume 2) m ∧
  contents (buffer (io m)) = [97] ∧ run key_port 1 (Resume 2) m = Err AssertFail.
Proof.
  eexists. split; [|split; [|split]].
  - eapply (at_step _ _ _ _ (Resume 1)); [eapply (at_step _ _ _ _ (Kbd_irq 3));
      [eapply (at_step _ _ _ _ (Kbd_irq 3)); [eapply (at_step _ _ _ _ (Call_getc 2));
        [eapply (at_step _ _ _ _ (Call_getc 1)); [apply at_boot| | |]| | |]| | |]| | |]| | |];
      lazymatch goal with |- run _ _ _ _ = _ => vm_compute; reflexivity | _ => idtac end; try done.
  - split; [by eexists|]. intros H%(bool_decide_eq_true_2 _). vm_compute in H. done.
  - vm_compute. reflexivity.
  - vm_compute. reflexivity.
Qed.
