(* ===== verification/Vga.v ===== *)
(** * The text display (devices/vga.c)

    [fb] are the rows of the frame buffer, each cell a character and an
    attribute.  The display controller has an index register and the two
    halves of the cursor position ([cursor_hi], [cursor_lo], its registers 0x0e
    and 0x0f); a 16-bit write to port 0x3d4 sets the index with its low byte
    and the register it selects with its high byte.  Interrupts are off in
    [vga_putc], so it is one step; the bell ([speaker_beep]) does not touch the
    display. *)
From S2P Require Import Prelude.
Open Scope Z_scope.

Definition COL_CNT : Z := 80.
Definition ROW_CNT : Z := 25.
Definition GRAY_ON_BLACK : Z := 0x07.
Definition cell : Set := (Z * Z)%type.
Definition blank : cell := (32, GRAY_ON_BLACK).

Record vga : Set := mk_vga {
  inited : bool; cx : Z; cy : Z; fb : list (list cell); index : Z; cursor_hi : Z; cursor_lo : Z }.
Definition set_cursor (x y : Z) (s : vga) := mk_vga (inited s) x y (fb s) (index s) (cursor_hi s) (cursor_lo s).
Definition set_fb f (s : vga) := mk_vga (inited s) (cx s) (cy s) f (index s) (cursor_hi s) (cursor_lo s).
Definition set_index i (s : vga) := mk_vga (inited s) (cx s) (cy s) (fb s) i (cursor_hi s) (cursor_lo s).
Definition set_inited (s : vga) := mk_vga true (cx s) (cy s) (fb s) (index s) (cursor_hi s) (cursor_lo s).

(** [outw (0x3d4, v)], [outb (0x3d4, v)] and [inb (0x3d5)]. *)
Definition outw_3d4 (v : Z) : cmd vga unit := modify (λ s,
  let i := Z.land v 0xff in let b := Z.shiftr v 8 in
  mk_vga (inited s) (cx s) (cy s) (fb s) i (if i =? 0x0e then b else cursor_hi s) (if i =? 0x0f then b else cursor_lo s)).
Definition outb_3d4 (v : Z) : cmd vga unit := modify (set_index v).
Definition inb_3d5 : cmd vga Z := gets (λ s,
  if index s =? 0x0e then cursor_hi s else if index s =? 0x0f then cursor_lo s else 0).

Definition move_cursor : cmd vga unit :=
  cp ← gets (λ s, (cx s + COL_CNT * cy s) mod 2 ^ 16);
  outw_3d4 (Z.lor 0x0e (Z.land cp 0xff00));;
  outw_3d4 (Z.lor 0x0f (Z.shiftl cp 8) mod 2 ^ 16).
Definition find_cursor : cmd vga (Z * Z) :=
  outb_3d4 0x0e;;
  hi ← inb_3d5;
  let cp := Z.shiftl hi 8 mod 2 ^ 16 in
  outb_3d4 0x0f;;
  lo ← inb_3d5;
  let cp := Z.lor cp lo in
  mret (cp mod COL_CNT, cp / COL_CNT).

(** [fb[y][x]]: a place outside the rows and columns is not in the frame
    buffer. *)
Definition put_cell (y x : Z) (c : cell) : cmd vga unit := λ s,
  match fb s !! Z.to_nat y with
  | Some row =>
      if bool_decide (Z.to_nat x < length row)%nat
      then Ret (tt, set_fb (<[Z.to_nat y := <[Z.to_nat x := c]> row]> (fb s)) s) else Err OutOfBounds
  | None => Err OutOfBounds
  end.

Fixpoint clear_row_loop (n : nat) (y x : Z) : cmd vga unit :=
  match n with O => mret tt | S n => put_cell y x blank;; clear_row_loop n y (x + 1) end.
Definition clear_row (y : Z) : cmd vga unit := clear_row_loop (Z.to_nat COL_CNT) y 0.
(** [memmove (&fb[0], &fb[1], sizeof fb[0] * (ROW_CNT - 1))]. *)
Definition scroll : cmd vga unit := λ s,
  if bool_decide (length (fb s) = Z.to_nat ROW_CNT)
  then Ret (tt, set_fb (drop 1 (fb s) ++ drop (length (fb s) - 1) (fb s)) s) else Err OutOfBounds.
Definition newline : cmd vga unit :=
  modify (λ s, set_cursor 0 (cy s + 1) s);;
  y ← gets cy;
  if ROW_CNT <=? y then
    modify (λ s, set_cursor (cx s) (ROW_CNT - 1) s);; scroll;; clear_row (ROW_CNT - 1)
  else mret tt.

Fixpoint cls_loop (n : nat) (y : Z) : cmd vga unit :=
  match n with O => mret tt | S n => clear_row y;; cls_loop n (y + 1) end.
Definition cls : cmd vga unit :=
  cls_loop (Z.to_nat ROW_CNT) 0;; modify (set_cursor 0 0);; move_cursor.

Definition init : cmd vga unit :=
  b ← gets inited;
  if b : bool then mret tt else '(x, y) ← find_cursor; modify (set_cursor x y);; modify set_inited.

Definition control (c : Z) : cmd vga unit :=
  if c =? 10 then newline                                     (* '\n' *)
  else if c =? 12 then cls                                    (* '\f' *)
  else if c =? 8 then                                         (* '\b' *)
    modify (λ s, set_cursor (if 0 <? cx s then cx s - 1 else cx s) (cy s) s)
  else if c =? 13 then modify (λ s, set_cursor 0 (cy s) s)    (* '\r' *)
  else if c =? 9 then                                         (* '\t' *)
    modify (λ s, set_cursor (ROUND_UP (cx s + 1) 8) (cy s) s);;
    x ← gets cx;
    if COL_CNT <=? x then newline else mret tt
  else if c =? 7 then mret tt                                 (* '\a' *)
  else
    x ← gets cx; y ← gets cy;
    put_cell y x (u8 c, GRAY_ON_BLACK);;
    modify (λ s, set_cursor (cx s + 1) (cy s) s);;
    x ← gets cx;
    if COL_CNT <=? x then newline else mret tt.
Definition vga_putc (c : Z) : cmd vga unit := init;; control c;; move_cursor.
Fixpoint vga_puts (cs : list Z) : cmd vga unit :=
  match cs with [] => mret tt | c :: cs => vga_putc c;; vga_puts cs end.

(** ** The document behind the screen
    The text printed since the last form feed: the rows that are complete, the
    row that is being written, and the column in it. *)
Record document : Set := mk_doc { above : list (list cell); current : list cell; column : Z }.
Definition blank_row : list cell := replicate 80 blank.
Definition empty_doc : document := mk_doc [] blank_row 0.
Definition end_row (d : document) : document := mk_doc (above d ++ [current d]) blank_row 0.
Definition advance (x : Z) (d : document) : document :=
  if 80 <=? x then end_row d else mk_doc (above d) (current d) x.
Definition feed (d : document) (c : Z) : document :=
  if c =? 10 then end_row d
  else if c =? 12 then empty_doc
  else if c =? 8 then mk_doc (above d) (current d) (Z.max 0 (column d - 1))
  else if c =? 13 then mk_doc (above d) (current d) 0
  else if c =? 9 then advance (8 * (column d / 8 + 1)) d
  else if c =? 7 then d
  else advance (column d + 1) (mk_doc (above d) (<[Z.to_nat (column d) := (u8 c, GRAY_ON_BLACK)]> (current d)) (column d)).

(** The screen shows the last rows that fit, and blank rows below. *)
Definition rows_shown (d : document) : list (list cell) :=
  let all := above d ++ [current d] in
  drop (length all - 25) all ++ replicate (25 - length all) blank_row.
Definition shows (d : document) (s : vga) : Prop :=
  fb s = rows_shown d ∧ cx s = column d ∧ cy s = Z.min (Z.of_nat (length (above d))) 24 ∧
  inited s = true ∧ 256 * cursor_hi s + cursor_lo s = cx s + 80 * cy s.

Definition full (r : list cell) : Prop := length r = 80%nat.
Definition doc_ok (d : document) : Prop := full (current d) ∧ 0 <= column d < 80 ∧ Forall full (above d).
(** As [shows], before the hardware cursor has been moved. *)
Definition frame (d : document) (s : vga) : Prop :=
  fb s = rows_shown d ∧ cx s = column d ∧ cy s = Z.min (Z.of_nat (length (above d))) 24 ∧ inited s = true.

Lemma end_row_ok d : full (current d) → Forall full (above d) → doc_ok (end_row d).
Proof. intros Hl Ha. split; [done|split; [done|]]. apply Forall_app. split; [done|]. by constructor. Qed.
Lemma advance_ok x d : 0 <= x → full (current d) → Forall full (above d) → doc_ok (advance x d).
Proof.
  intros Hx Hl Ha. unfold advance. case_match eqn:E; [by apply end_row_ok|]. apply Z.leb_gt in E. by split_and!.
Qed.
Lemma empty_ok : doc_ok empty_doc.
Proof. by split_and!. Qed.
Lemma feed_ok d c : doc_ok d → doc_ok (feed d c).
Proof.
  intros (Hl & Hc & Ha). unfold feed. repeat case_match; first [by apply end_row_ok|apply empty_ok|done|idtac].
  - split; [done|split; [simpl; lia|done]].
  - apply advance_ok; [Z.div_mod_to_equations; lia|done|done].
  - apply advance_ok; simpl; [lia| |done]. unfold full. by rewrite length_insert.
Qed.
Lemma rows_shown_full d : doc_ok d → Forall full (rows_shown d).
Proof.
  intros (Hl & _ & Ha). apply Forall_app. split; [apply Forall_drop, Forall_app; split; [done|by constructor]|].
  by apply Forall_replicate.
Qed.

Lemma length_rows_shown d : length (rows_shown d) = 25%nat.
Proof. unfold rows_shown. rewrite length_app, length_drop, length_replicate, length_app. simpl. lia. Qed.
Lemma row_current d : rows_shown d !! Z.to_nat (Z.min (Z.of_nat (length (above d))) 24) = Some (current d).
Proof.
  unfold rows_shown. rewrite lookup_app_l by (rewrite length_drop, length_app; simpl; lia).
  rewrite lookup_drop, length_app. simpl. apply list_lookup_middle. lia.
Qed.
(** Changing the row of the cursor on the screen and in the document. *)
Lemma rows_shown_current d r x :
  <[Z.to_nat (Z.min (Z.of_nat (length (above d))) 24) := r]> (rows_shown d) = rows_shown (mk_doc (above d) r x).
Proof.
  unfold rows_shown. simpl. rewrite !length_app. simpl.
  rewrite insert_app_l by (rewrite length_drop, length_app; simpl; lia). f_equal.
  replace (Z.to_nat _) with (length (above d) - (length (above d) + 1 - 25))%nat by lia.
  rewrite <- drop_insert_ge by lia. f_equal.
  replace (length (above d)) with (length (above d) + 0)%nat at 1 by lia. by rewrite insert_app_r.
Qed.

Lemma put_cell_run y x c s row : fb s !! Z.to_nat y = Some row → (Z.to_nat x < length row)%nat →
  put_cell y x c s = Ret (tt, set_fb (<[Z.to_nat y := <[Z.to_nat x := c]> row]> (fb s)) s).
Proof. intros Hr Hx. unfold put_cell. by rewrite Hr, bool_decide_true. Qed.

Lemma clear_row_loop_run n y x s rest : 0 <= x → fb s !! Z.to_nat y = Some (replicate (Z.to_nat x) blank ++ rest) → (n <= length rest)%nat →
  clear_row_loop n y x s = Ret (tt, set_fb (<[Z.to_nat y := replicate (Z.to_nat x + n) blank ++ drop n rest]> (fb s)) s).
Proof.
  revert x s rest. induction n as [|n IH]; intros x s rest Hx Hr Hn; cbn [clear_row_loop].
  - rewrite Nat.add_0_r, drop_0. rewrite list_insert_id by done. by destruct s.
  - destruct rest as [|c rest]; simpl in Hn; [lia|].
    rewrite (bind_Ret _ _ _ _ _ (put_cell_run y x blank s _ Hr ltac:(rewrite length_app, length_replicate; simpl; lia))).
    assert (E : <[Z.to_nat x := blank]> (replicate (Z.to_nat x) blank ++ c :: rest) = replicate (Z.to_nat (x + 1)) blank ++ rest).
    { replace (Z.to_nat x) with (length (replicate (Z.to_nat x) blank) + 0)%nat at 1 by (rewrite length_replicate; lia).
      rewrite insert_app_r. simpl. replace (Z.to_nat (x + 1)) with (Z.to_nat x + 1)%nat by lia.
      rewrite replicate_add. by rewrite <- app_assoc. }
    rewrite E, (IH (x + 1) _ rest); [|lia| |lia].
    + simpl. rewrite list_insert_insert_eq. replace (Z.to_nat (x + 1) + n)%nat with (Z.to_nat x + S n)%nat by lia. done.
    + simpl. rewrite list_lookup_insert_eq; [done|]. by apply lookup_lt_Some in Hr.
Qed.
Lemma clear_row_run y s row : fb s !! Z.to_nat y = Some row → length row = 80%nat →
  clear_row y s = Ret (tt, set_fb (<[Z.to_nat y := blank_row]> (fb s)) s).
Proof.
  intros Hr Hl. unfold clear_row. rewrite (clear_row_loop_run _ y 0 s row); [|lia|done|rewrite Hl; done].
  rewrite drop_ge by (rewrite Hl; done). by rewrite app_nil_r.
Qed.

Lemma rows_end d : rows_shown (end_row d) =
  if (length (above d) <? 24)%nat then rows_shown d
  else drop 1 (rows_shown d) ++ [blank_row].
Proof.
  unfold rows_shown, end_row. simpl. rewrite !length_app. simpl. case_match eqn:E.
  - apply Nat.ltb_lt in E. replace (length (above d) + 1 + 1 - 25)%nat with 0%nat by lia.
    replace (length (above d) + 1 - 25)%nat with 0%nat by lia. rewrite !drop_0.
    replace (25 - (length (above d) + 1))%nat with (S (25 - (length (above d) + 1 + 1))) by lia. simpl. by rewrite <- !app_assoc.
  - apply Nat.ltb_ge in E. replace (25 - (length (above d) + 1))%nat with 0%nat by lia.
    replace (25 - (length (above d) + 1 + 1))%nat with 0%nat by lia. simpl. rewrite !app_nil_r, drop_drop.
    rewrite (drop_app_le _ [blank_row]) by (rewrite length_app; simpl; lia). do 2 f_equal. lia.
Qed.

Lemma newline_run d x s : doc_ok d → fb s = rows_shown d → cx s = x → cy s = Z.min (Z.of_nat (length (above d))) 24 → inited s = true →
  ∃ s', newline s = Ret (tt, s') ∧ frame (end_row d) s'.
Proof.
  intros Hok Hf Hx Hy Hi. unfold newline. rewrite modify_bind, gets_bind. cbn [cy set_cursor]. rewrite Hy.
  pose proof (rows_end d) as Re. destruct (ROW_CNT <=? _) eqn:E.
  - apply Z.leb_le in E. unfold ROW_CNT in E. rewrite (proj2 (Nat.ltb_ge _ _)) in Re by lia.
    rewrite modify_bind. unfold scroll. set (s1 := set_cursor _ _ _).
    assert (F1 : fb s1 = rows_shown d) by done.
    rewrite (bind_Ret _ _ s1 tt (set_fb (drop 1 (rows_shown d) ++ drop 24 (rows_shown d)) s1)).
    2: { rewrite F1, length_rows_shown. by rewrite bool_decide_true. }
    pose proof (row_current d) as Rc. replace (Z.to_nat _) with 24%nat in Rc by lia.
    assert (D : drop 24 (rows_shown d) = [current d]).
    { rewrite (drop_S _ _ _ Rc). f_equal. apply drop_ge. by rewrite length_rows_shown. }
    assert (L : length (drop 1 (rows_shown d)) = 24%nat) by (rewrite length_drop, length_rows_shown; done).
    rewrite (clear_row_run _ _ (current d)); [|simpl; rewrite D; by rewrite lookup_app_r, L by (rewrite L; done)|apply Hok].
    eexists. split; [done|]. split_and!; try done.
    + simpl. rewrite Re, D. change (Pos.to_nat 24) with 24%nat. replace 24%nat with (length (drop 1 (rows_shown d)) + 0)%nat at 1 by lia.
      by rewrite insert_app_r.
    + simpl. rewrite length_app. simpl. unfold ROW_CNT. lia.
  - apply Z.leb_gt in E. unfold ROW_CNT in E. rewrite (proj2 (Nat.ltb_lt _ _)) in Re by lia.
    eexists. split; [done|]. split_and!; try done; simpl; [congruence|]. rewrite length_app. simpl. lia.
Qed.

Lemma advance_run d x y s : doc_ok d → fb s = rows_shown d → cx s = x → cy s = y → y = Z.min (Z.of_nat (length (above d))) 24 →
  inited s = true →
  ∃ s', (x ← gets cx; if COL_CNT <=? x then newline else mret tt) s = Ret (tt, s') ∧ frame (advance x d) s'.
Proof.
  intros Hok Hf Hx Hy -> Hi. rewrite gets_bind, Hx. unfold advance, COL_CNT. case_match.
  - by eapply newline_run.
  - eexists. split; [done|]. done.
Qed.

Lemma cls_loop_run n y s : 0 <= y → (Z.to_nat y + n = length (fb s))%nat → (∀ r, r ∈ fb s → length r = 80%nat) →
  cls_loop n y s = Ret (tt, set_fb (take (Z.to_nat y) (fb s) ++ replicate n blank_row) s).
Proof.
  revert y s. induction n as [|n IH]; intros y s Hy Hl Hr; cbn [cls_loop].
  - rewrite take_ge by lia. simpl. rewrite app_nil_r. by destruct s.
  - destruct (lookup_lt_is_Some_2 (fb s) (Z.to_nat y)) as [row Hrow]; [lia|].
    rewrite (bind_Ret _ _ _ _ _ (clear_row_run y s row Hrow ltac:(by eapply Hr, list_elem_of_lookup_2))).
    rewrite IH; [|lia|simpl; rewrite length_insert; lia|].
    + simpl. do 2 f_equal. unfold set_fb. simpl. f_equal. replace (Z.to_nat (y + 1)) with (S (Z.to_nat y)) by lia.
      rewrite (take_S_r _ _ blank_row) by (apply list_lookup_insert_eq; lia). rewrite take_insert_ge by lia. by rewrite <- app_assoc.
    + simpl. intros r Hin. apply list_elem_of_lookup in Hin as [i Hi]. apply list_lookup_insert_Some in Hi as [(_ & <- & _)|[_ Hi]]; [done|].
      by eapply Hr, list_elem_of_lookup_2.
Qed.

(** The hardware cursor. *)
Lemma cursor_bytes : forallb (λ cp,
  let a := Z.lor 0x0e (Z.land cp 0xff00) in let b := Z.lor 0x0f (Z.shiftl cp 8) mod 2 ^ 16 in
  (Z.land a 0xff =? 0x0e) && (Z.shiftr a 8 =? cp / 256) && (Z.land b 0xff =? 0x0f) && (Z.shiftr b 8 =? cp mod 256)) (seqZ 0 2000) = true.
Proof. vm_compute. reflexivity. Qed.
Lemma move_cursor_run s : 0 <= cx s < 80 → 0 <= cy s < 25 →
  ∃ s', move_cursor s = Ret (tt, s') ∧ fb s' = fb s ∧ cx s' = cx s ∧ cy s' = cy s ∧ inited s' = inited s ∧
        256 * cursor_hi s' + cursor_lo s' = cx s + 80 * cy s.
Proof.
  intros Hx Hy. unfold move_cursor. rewrite gets_bind. set (cp := cx s + COL_CNT * cy s).
  assert (Hcp : 0 <= cp < 2000) by (unfold cp, COL_CNT; lia). rewrite (Z.mod_small cp) by lia.
  pose proof cursor_bytes as B. rewrite forallb_forall in B. specialize (B cp). cbv zeta in B.
  rewrite !andb_true_iff, !Z.eqb_eq in B. destruct B as (((A1 & A2) & A3) & A4).
  { apply base.list_elem_of_In. apply elem_of_seqZ. lia. }
  unfold outw_3d4. rewrite modify_bind. eexists. split; [reflexivity|].
  cbn [fb cx cy inited cursor_hi cursor_lo]. rewrite A1, A2, A3, A4. simpl. split_and!; try done.
  unfold cp, COL_CNT in *. Z.div_mod_to_equations. lia.
Qed.
Lemma frame_shows d s : doc_ok d → frame d s → ∃ s', move_cursor s = Ret (tt, s') ∧ shows d s'.
Proof.
  intros (_ & Hc & _) (Hf & Hx & Hy & Hi). destruct (move_cursor_run s) as (s' & E & F & X & Y & I & C); [lia|lia|].
  exists s'. split; [done|]. split_and!; congruence.
Qed.

Lemma cls_run s : length (fb s) = 25%nat → Forall full (fb s) → inited s = true →
  ∃ s', cls s = Ret (tt, s') ∧ frame empty_doc s'.
Proof.
  intros Hl Hr Hi. unfold cls. rewrite (bind_Ret _ _ _ _ _ (cls_loop_run _ 0 s ltac:(lia) ltac:(by rewrite Hl) (proj1 (Forall_forall _ _) Hr))).
  rewrite modify_bind. set (s1 := set_cursor 0 0 _).
  destruct (move_cursor_run s1) as (s' & E & F & X & Y & I & _); [simpl; lia|simpl; lia|].
  exists s'. split; [done|]. split_and!; [|by rewrite X|by rewrite Y|by rewrite I].
  rewrite F. done.
Qed.
Lemma init_run s : ∃ s', init s = Ret (tt, s') ∧ fb s' = fb s ∧ inited s' = true ∧ (inited s = true → s' = s).
Proof.
  unfold init. rewrite gets_bind. destruct (inited s) eqn:E; [by exists s|]. eexists. split; [reflexivity|]. split_and!; done.
Qed.

Lemma control_run d c s : doc_ok d → frame d s → ∃ s', control c s = Ret (tt, s') ∧ frame (feed d c) s'.
Proof.
  intros Hok Hfr. pose proof Hfr as (Hf & Hx & Hy & Hi). pose proof Hok as (Hlen & Hcol & Ha). unfold control, feed.
  destruct (c =? 10); [by eapply newline_run|].
  destruct (c =? 12); [apply cls_run; rewrite ?Hf; [by rewrite length_rows_shown|by apply rows_shown_full|done]|].
  destruct (c =? 8).
  { eexists. split; [done|]. split_and!; try done. simpl. rewrite Hx. case_match eqn:E; [apply Z.ltb_lt in E|apply Z.ltb_ge in E]; lia. }
  destruct (c =? 13); [by eexists|].
  destruct (c =? 9).
  { rewrite modify_bind. eapply advance_run; try done. simpl. rewrite Hx. unfold ROUND_UP. Z.div_mod_to_equations. lia. }
  destruct (c =? 7); [by exists s|].
  rewrite !gets_bind. set (b := (u8 c, GRAY_ON_BLACK)).
  assert (Hrow : fb s !! Z.to_nat (cy s) = Some (current d)) by (rewrite Hf, Hy; apply row_current).
  rewrite (bind_Ret _ _ _ _ _ (put_cell_run (cy s) (cx s) b s _ Hrow ltac:(rewrite Hlen; lia))).
  rewrite modify_bind.
  eapply advance_run; try done; simpl; [| |by rewrite Hx].
  - split; [|done]. unfold full. simpl. by rewrite length_insert.
  - rewrite Hf, Hy, Hx. apply rows_shown_current.
Qed.
Lemma vga_putc_run d c s : doc_ok d → shows d s → ∃ s', vga_putc c s = Ret (tt, s') ∧ shows (feed d c) s'.
Proof.
  intros Hok (Hf & Hx & Hy & Hi & _). destruct (init_run s) as (s0 & E0 & _ & _ & Hs). rewrite (Hs Hi) in E0.
  unfold vga_putc. rewrite (bind_Ret _ _ _ _ _ E0).
  destruct (control_run d c s Hok ltac:(done)) as (s1 & E1 & F1). rewrite (bind_Ret _ _ _ _ _ E1).
  apply frame_shows; [by apply feed_ok|done].
Qed.
Lemma vga_form_feed s : length (fb s) = 25%nat → Forall full (fb s) → ∃ s', vga_putc 12 s = Ret (tt, s') ∧ shows empty_doc s'.
Proof.
  intros Hl Hr. destruct (init_run s) as (s0 & E0 & F0 & I0 & _).
  unfold vga_putc. rewrite (bind_Ret _ _ _ _ _ E0).
  destruct (cls_run s0) as (s1 & E1 & F1); [by rewrite F0|by rewrite F0|done|].
  change (control 12) with cls. rewrite (bind_Ret _ _ _ _ _ E1). apply frame_shows; [apply empty_ok|done].
Qed.

