(* ===== verification/BlockDev.v ===== *)
(** * The block devices of the machine (devices/block.c) and the partitions of
      a disk (devices/partition.c)

    Devices are never removed, so a device is named by its position in
    [all_blocks], the list in probe order (kernel lists are sequences,
    KListSpec.v).  The driver of a device is a disk, whose sectors are in
    [disks], or a partition of another device: that is the pair of
    [block_operations] and [aux].  [printed] are the messages, one constructor
    per call of [printf].  [fails n] says that the allocation number [n] finds
    no memory.  Cache.v has the same checks for the one device behind the
    file system. *)
From S2P Require Import Prelude Stdio StdioSpec Cache FsState.
From stdpp Require Import strings.
Open Scope Z_scope.

Inductive driver : Set := Disk (number : nat) | Partition (block : nat) (start : Z).
Record blockdev : Set := mk_bd {
  name : list Z; btype : block_type; nsectors : Z; ops : driver; read_cnt : Z; write_cnt : Z }.
Inductive message : Set :=
  | Registered (name : list Z) (size : Z) (extra_info : option (list Z))
  | NoPartitions (name : list Z)
  | TablePastEnd (name : list Z) (sector : Z)
  | BadSignature (name : list Z)
  | BadExtended (name : list Z) (sector : Z)
  | ExtendedIn (name : list Z) (sector : Z)
  | StartsPastEnd (name : list Z) (part_nr start : Z)
  | EndPastEnd (name : list Z) (part_nr finish size : Z)
  | Using (type_name : string) (name : list Z)
  | Statistics (name : list Z) (type_name : string) (reads writes : Z).
Record devices : Set := mk_devices {
  all_blocks : list blockdev; block_by_role : list (option nat); disks : gmap nat (gmap Z (list Z));
  mallocs : nat; printed : list message }.

Definition set_blocks f (s : devices) := mk_devices (f (all_blocks s)) (block_by_role s) (disks s) (mallocs s) (printed s).
Definition set_roles f (s : devices) := mk_devices (all_blocks s) (f (block_by_role s)) (disks s) (mallocs s) (printed s).
Definition set_disks f (s : devices) := mk_devices (all_blocks s) (block_by_role s) (f (disks s)) (mallocs s) (printed s).
Definition count_malloc (s : devices) := mk_devices (all_blocks s) (block_by_role s) (disks s) (S (mallocs s)) (printed s).
Definition say (m : message) : cmd devices unit :=
  modify (λ s, mk_devices (all_blocks s) (block_by_role s) (disks s) (mallocs s) (printed s ++ [m])).

(** ** block.c *)
Definition BLOCK_ROLE_CNT : nat := 4.
(** The value of a constant of [enum block_type]. *)
Definition type_index (t : block_type) : nat :=
  match t with BLOCK_KERNEL => 0 | BLOCK_FILESYS => 1 | BLOCK_SCRATCH => 2 | BLOCK_SWAP => 3 | BLOCK_RAW => 4 | BLOCK_FOREIGN => 5 end.
Definition block_type_name (t : block_type) : string :=
  match t with
  | BLOCK_KERNEL => "kernel" | BLOCK_FILESYS => "filesys" | BLOCK_SCRATCH => "scratch"
  | BLOCK_SWAP => "swap" | BLOCK_RAW => "raw" | BLOCK_FOREIGN => "foreign"
  end.
Definition get_dev (b : nat) : cmd devices blockdev := λ s,
  match all_blocks s !! b with Some d => Ret (d, s) | None => Err BadPtr end.

Definition block_get_role (role : block_type) : cmd devices (option nat) :=
  ASSERT (type_index role <? BLOCK_ROLE_CNT)%nat;; gets (λ s, default None (block_by_role s !! type_index role)).
Definition block_set_role (role : block_type) (b : option nat) : cmd devices unit :=
  ASSERT (type_index role <? BLOCK_ROLE_CNT)%nat;; modify (set_roles (<[type_index role := b]>)).
(** The device of a list element, or a null pointer at the end of the list. *)
Definition list_elem_to_block (e : nat) (s : devices) : option nat :=
  if (e <? length (all_blocks s))%nat then Some e else None.
Definition block_first (s : devices) : option nat := list_elem_to_block 0 s.
Definition block_next (b : nat) (s : devices) : option nat := list_elem_to_block (S b) s.
Fixpoint name_loop (l : list blockdev) (e : nat) (nm : list Z) : option nat :=
  match l with [] => None | d :: l => if bool_decide (nm = name d) then Some e else name_loop l (S e) nm end.
Definition block_get_by_name (nm : list Z) (s : devices) : option nat := name_loop (all_blocks s) 0 nm.
Definition block_size (b : nat) : cmd devices Z := d ← get_dev b; mret (nsectors d).
Definition block_name (b : nat) : cmd devices (list Z) := d ← get_dev b; mret (name d).
Definition block_type (b : nat) : cmd devices Cache.block_type := d ← get_dev b; mret (btype d).

Definition check_sector (b : nat) (sector : Z) : cmd devices unit :=
  d ← get_dev b; if nsectors d <=? sector then throw KernelPanic else mret tt.
Definition disk_read (number : nat) (sector : Z) : cmd devices (list Z) :=
  gets (λ s, default zero_sector (default ∅ (disks s !! number) !! sector)).
Definition disk_write (number : nat) (sector : Z) (buffer : list Z) : cmd devices unit :=
  modify (set_disks (λ m, <[number := <[sector := buffer]> (default ∅ (m !! number))]> m)).
Definition count_read (d : blockdev) := mk_bd (name d) (btype d) (nsectors d) (ops d) (u64 (read_cnt d + 1)) (write_cnt d).
Definition count_write (d : blockdev) := mk_bd (name d) (btype d) (nsectors d) (ops d) (read_cnt d) (u64 (write_cnt d + 1)).

(** [block->ops->read] of a partition is [partition_read], which calls
    [block_read] again; the fuel is the number of partitions inside each
    other. *)
Fixpoint block_read (fuel b : nat) (sector : Z) : cmd devices (list Z) :=
  match fuel with
  | O => throw NoFuel
  | S fuel =>
      check_sector b sector;;
      d ← get_dev b;
      buffer ← match ops d with
               | Disk number => disk_read number sector
               | Partition p_block p_start => block_read fuel p_block (u32 (p_start + sector))
               end;
      modify (set_blocks (alter count_read b));;
      mret buffer
  end.
Fixpoint block_write (fuel b : nat) (sector : Z) (buffer : list Z) : cmd devices unit :=
  match fuel with
  | O => throw NoFuel
  | S fuel =>
      check_sector b sector;;
      d ← get_dev b;
      ASSERT (negb (bool_decide (btype d = BLOCK_FOREIGN)));;
      match ops d with
      | Disk number => disk_write number sector buffer
      | Partition p_block p_start => block_write fuel p_block (u32 (p_start + sector)) buffer
      end;;
      modify (set_blocks (alter count_write b))
  end.

Fixpoint stats_loop (roles : list (option nat)) : cmd devices unit :=
  match roles with
  | [] => mret tt
  | Some b :: roles => d ← get_dev b; say (Statistics (name d) (block_type_name (btype d)) (read_cnt d) (write_cnt d));; stats_loop roles
  | None :: roles => stats_loop roles
  end.
Definition block_print_stats : cmd devices unit := roles ← gets block_by_role; stats_loop roles.

Section alloc.
Context (fails : nat → bool).

(** [malloc], and the panic when it returns a null pointer. *)
Definition must_malloc : cmd devices unit :=
  n ← gets mallocs; if fails n then throw KernelPanic else modify count_malloc.

Definition block_register (nm : list Z) (ty : Cache.block_type) (extra_info : option (list Z)) (size : Z) (dr : driver) : cmd devices nat :=
  must_malloc;;
  b ← gets (λ s, length (all_blocks s));
  modify (set_blocks (λ l, l ++ [mk_bd (take 15 nm) ty size dr 0 0]));;
  say (Registered (take 15 nm) size extra_info);;
  mret b.
End alloc.
