(* ===== verification/Partition.v ===== *)
(** * Partitions of a disk (devices/partition.c)

    [read_partition_table] is recursive, and nothing bounds its depth: the fuel
    is the depth of the calls.  The numbers in a sector are little-endian.
    [snprintf] into [name] and [extra_info] keeps what fits (StdioSpec.v). *)
From S2P Require Import Prelude Cache FsState Stdio StdioSpec BlockDev.
From stdpp Require Import strings.
Open Scope Z_scope.

Record partition_table_entry : Set := mk_entry { type : Z; offset : Z; size : Z }.
Definition byte_at (pt : list Z) (i : nat) : Z := nth i pt 0.
Definition word_at (pt : list Z) (i : nat) : Z :=
  le_word (byte_at pt i) (byte_at pt (S i)) (byte_at pt (S (S i))) (byte_at pt (S (S (S i)))).
(** [pt->partitions[i]]: 16 bytes after the 446 bytes of the loader. *)
Definition entry_at (pt : list Z) (i : nat) : partition_table_entry :=
  let o := (446 + 16 * i)%nat in mk_entry (byte_at pt (o + 4)) (word_at pt (o + 8)) (word_at pt (o + 12)).
Definition partitions (pt : list Z) : list partition_table_entry := entry_at pt <$> seq 0 4.
Definition signature (pt : list Z) : Z := byte_at pt 510 + 2 ^ 8 * byte_at pt 511.

Definition type_names : list (Z * string) :=
  [ (0x00, "Empty"); (0x01, "FAT12"); (0x02, "XENIX root"); (0x03, "XENIX usr"); (0x04, "FAT16 <32M");
    (0x05, "Extended"); (0x06, "FAT16"); (0x07, "HPFS/NTFS"); (0x08, "AIX"); (0x09, "AIX bootable");
    (0x0a, "OS/2 Boot Manager"); (0x0b, "W95 FAT32"); (0x0c, "W95 FAT32 (LBA)");
    (0x0e, "W95 FAT16 (LBA)"); (0x0f, "W95 Ext'd (LBA)"); (0x10, "OPUS"); (0x11, "Hidden FAT12");
    (0x12, "Compaq diagnostics"); (0x14, "Hidden FAT16 <32M"); (0x16, "Hidden FAT16");
    (0x17, "Hidden HPFS/NTFS"); (0x18, "AST SmartSleep"); (0x1b, "Hidden W95 FAT32");
    (0x1c, "Hidden W95 FAT32 (LBA)"); (0x1e, "Hidden W95 FAT16 (LBA)"); (0x20, "Pintos OS kernel");
    (0x21, "Pintos file system"); (0x22, "Pintos scratch"); (0x23, "Pintos swap"); (0x24, "NEC DOS");
    (0x39, "Plan 9"); (0x3c, "PartitionMagic recovery"); (0x40, "Venix 80286");
    (0x41, "PPC PReP Boot"); (0x42, "SFS"); (0x4d, "QNX4.x"); (0x4e, "QNX4.x 2nd part");
    (0x4f, "QNX4.x 3rd part"); (0x50, "OnTrack DM"); (0x51, "OnTrack DM6 Aux1"); (0x52, "CP/M");
    (0x53, "OnTrack DM6 Aux3"); (0x54, "OnTrackDM6"); (0x55, "EZ-Drive"); (0x56, "Golden Bow");
    (0x5c, "Priam Edisk"); (0x61, "SpeedStor"); (0x63, "GNU HURD or SysV");
    (0x64, "Novell Netware 286"); (0x65, "Novell Netware 386"); (0x70, "DiskSecure Multi-Boot");
    (0x75, "PC/IX"); (0x80, "Old Minix"); (0x81, "Minix / old Linux"); (0x82, "Linux swap / Solaris");
    (0x83, "Linux"); (0x84, "OS/2 hidden C: drive"); (0x85, "Linux extended");
    (0x86, "NTFS volume set"); (0x87, "NTFS volume set"); (0x88, "Linux plaintext");
    (0x8e, "Linux LVM"); (0x93, "Amoeba"); (0x94, "Amoeba BBT"); (0x9f, "BSD/OS");
    (0xa0, "IBM Thinkpad hibernation"); (0xa5, "FreeBSD"); (0xa6, "OpenBSD"); (0xa7, "NeXTSTEP");
    (0xa8, "Darwin UFS"); (0xa9, "NetBSD"); (0xab, "Darwin boot"); (0xb7, "BSDI fs");
    (0xb8, "BSDI swap"); (0xbb, "Boot Wizard hidden"); (0xbe, "Solaris boot"); (0xbf, "Solaris");
    (0xc1, "DRDOS/sec (FAT-12)"); (0xc4, "DRDOS/sec (FAT-16 < 32M)"); (0xc6, "DRDOS/sec (FAT-16)");
    (0xc7, "Syrinx"); (0xda, "Non-FS data"); (0xdb, "CP/M / CTOS / ..."); (0xde, "Dell Utility");
    (0xdf, "BootIt"); (0xe1, "DOS access"); (0xe3, "DOS R/O"); (0xe4, "SpeedStor"); (0xeb, "BeOS fs");
    (0xee, "EFI GPT"); (0xef, "EFI (FAT-12/16/32)"); (0xf0, "Linux/PA-RISC boot"); (0xf1, "SpeedStor");
    (0xf4, "SpeedStor"); (0xf2, "DOS secondary"); (0xfd, "Linux raid autodetect"); (0xfe, "LANstep");
    (0xff, "BBT") ].
Fixpoint find_name (l : list (Z * string)) (t : Z) : string :=
  match l with [] => "Unknown" | (u, nm) :: l => if u =? t then nm else find_name l t end.
Definition partition_type_name (t : Z) : string := find_name type_names t.
Definition is_extended (t : Z) : bool := (t =? 0x05) || (t =? 0x0f) || (t =? 0x85) || (t =? 0xc5).
Definition role_of (part_type : Z) : Cache.block_type :=
  if part_type =? 0x20 then BLOCK_KERNEL else if part_type =? 0x21 then BLOCK_FILESYS
  else if part_type =? 0x22 then BLOCK_SCRATCH else if part_type =? 0x23 then BLOCK_SWAP else BLOCK_FOREIGN.

(** The call of [block_read] on the whole device. *)
Definition read_sector (b : nat) (sector : Z) : cmd devices (list Z) :=
  n ← gets (λ s, S (length (all_blocks s))); block_read n b sector.

Section alloc.
Context (fails : nat → bool).

Definition found_partition (b : nat) (part_type start size part_nr : Z) : cmd devices unit :=
  bs ← block_size b; nm ← block_name b;
  if bs <=? start then say (StartsPastEnd nm part_nr start)
  else if (u32 (start + size) <? start) || (bs <? u32 (start + size)) then say (EndPastEnd nm part_nr (u32 (start + size)) bs)
  else
    must_malloc fails;;
    digits ← lift_res (text ∅ (chars "%d") [u32 part_nr]);
    hex ← lift_res (text ∅ (chars "%02x") [part_type]);
    block_register fails (take 15 (nm ++ digits)) (role_of part_type)
      (Some (take 127 (chars (partition_type_name part_type) ++ chars " (" ++ hex ++ [41]))) size (Partition b start);;
    mret tt.

(** The loop over the entries; [rec] is [read_partition_table] itself, and the
    result the number of partitions so far. *)
Fixpoint entries_loop (rec : Z → Z → Z → cmd devices Z) (b : nat) (sector primary_extended_sector : Z)
    (es : list partition_table_entry) (part_nr : Z) : cmd devices Z :=
  match es with
  | [] => mret part_nr
  | e :: es =>
      part_nr ←
        (if (size e =? 0) || (type e =? 0) then mret part_nr
         else if is_extended (type e) then
           nm ← block_name b; say (ExtendedIn nm sector);;
           if sector =? 0 then rec (offset e) (offset e) part_nr
           else rec (u32 (offset e + primary_extended_sector)) primary_extended_sector part_nr
         else
           found_partition b (type e) (u32 (offset e + sector)) (size e) (part_nr + 1);;
           mret (part_nr + 1));
      entries_loop rec b sector primary_extended_sector es part_nr
  end.

Fixpoint read_partition_table (fuel b : nat) (sector primary_extended_sector part_nr : Z) : cmd devices Z :=
  match fuel with
  | O => throw NoFuel
  | S fuel =>
      bs ← block_size b; nm ← block_name b;
      if bs <=? sector then say (TablePastEnd nm sector);; mret part_nr
      else
        must_malloc fails;;
        pt ← read_sector b 0;
        if negb (signature pt =? 0xaa55) then
          (if primary_extended_sector =? 0 then say (BadSignature nm) else say (BadExtended nm sector));; mret part_nr
        else
          entries_loop (read_partition_table fuel b) b sector primary_extended_sector (partitions pt) part_nr
  end.
Definition partition_scan (fuel b : nat) : cmd devices unit :=
  part_nr ← read_partition_table fuel b 0 0 0;
  if part_nr =? 0 then nm ← block_name b; say (NoPartitions nm) else mret tt.
End alloc.

(** * What scanning a disk for partitions gives, and what a partition is

    The specification of a scan numbers the entries in use and registers those
    that lie inside the disk; a partition is a window on the sectors of its
    disk. *)

Definition used (e : partition_table_entry) : bool := negb ((size e =? 0) || (type e =? 0)).
(** The entries in use, numbered from [n + 1] on. *)
Fixpoint numbered (n : Z) (es : list partition_table_entry) : list (Z * partition_table_entry) :=
  match es with
  | [] => []
  | e :: es => if used e then (n + 1, e) :: numbered (n + 1) es else numbered n es
  end.
Definition fits (bs : Z) (e : partition_table_entry) : Prop := offset e + size e <= bs.
#[global] Instance fits_dec bs e : Decision (fits bs e).
Proof. unfold fits. apply _. Defined.
Definition decimal_text (n : Z) : list Z := match text ∅ (chars "%d") [u32 n] with Ret ds => ds | Err _ => [] end.
Definition device_of (d : blockdev) (b : nat) (x : Z * partition_table_entry) : blockdev :=
  mk_bd (take 15 (name d ++ decimal_text x.1)) (role_of (type x.2)) (size x.2) (Partition b (offset x.2)) 0 0.
Definition registered (d : blockdev) (b : nat) (es : list (Z * partition_table_entry)) : list blockdev :=
  device_of d b <$> filter (λ x, fits (nsectors d) x.2) es.
Definition entry_ok (e : partition_table_entry) : Prop :=
  0 <= type e < 256 ∧ 0 <= offset e < 2 ^ 32 ∧ 0 <= size e < 2 ^ 32.

Lemma byte_nth pt i : Forall (λ b, 0 <= b < 256) pt → 0 <= byte_at pt i < 256.
Proof.
  intros H. unfold byte_at. destruct (decide (i < length pt)%nat) as [Hi|Hi]; [|rewrite nth_overflow by lia; lia].
  rewrite Forall_forall in H. apply H, base.list_elem_of_In, nth_In. lia.
Qed.
Lemma entries_ok pt : Forall (λ b, 0 <= b < 256) pt → Forall entry_ok (partitions pt).
Proof.
  intros H. unfold partitions. apply Forall_fmap, Forall_forall. intros i _. unfold entry_ok, entry_at, word_at, le_word. simpl.
  repeat match goal with |- context [byte_at pt ?k] => lazymatch goal with _ : 0 <= byte_at pt k < 256 |- _ => fail | _ => pose proof (byte_nth pt k H) end end.
  lia.
Qed.

Lemma hex_text : forallb (λ t, match text ∅ (chars "%02x") [t] with Ret _ => true | Err _ => false end) (seqZ 0 256) = true.
Proof. vm_compute. reflexivity. Qed.
Lemma hex_text_run t : 0 <= t < 256 → ∃ h, text ∅ (chars "%02x") [t] = Ret h.
Proof.
  intros Ht. pose proof hex_text as H. rewrite forallb_forall in H. specialize (H t).
  destruct (text ∅ (chars "%02x") [t]) as [h|]; [by exists h|]. discriminate H.
  apply base.list_elem_of_In, elem_of_seqZ. lia.
Qed.
Lemma decimal_text_run n : - 2 ^ 31 <= n < 2 ^ 31 → text ∅ (chars "%d") [u32 n] = Ret (decimal_text n).
Proof. intros Hn. unfold decimal_text. by destruct (text_decimal ∅ n Hn) as (ds & -> & _). Qed.

(** ** Scanning *)
Section scan.
Context (fails : nat → bool) (no_fail : ∀ n, fails n = false).

Lemma must_malloc_run s : must_malloc fails s = Ret (tt, count_malloc s).
Proof using no_fail. unfold must_malloc. by rewrite gets_bind, no_fail. Qed.
Lemma get_dev_run b s d : all_blocks s !! b = Some d → get_dev b s = Ret (d, s).
Proof using Type. intros H. unfold get_dev. by rewrite H. Qed.
Lemma dev_size_run b s d : all_blocks s !! b = Some d → block_size b s = Ret (nsectors d, s).
Proof using Type. intros H. unfold block_size. by rewrite (bind_Ret _ _ _ _ _ (get_dev_run b s d H)). Qed.
Lemma block_name_run b s d : all_blocks s !! b = Some d → block_name b s = Ret (name d, s).
Proof using Type. intros H. unfold block_name. by rewrite (bind_Ret _ _ _ _ _ (get_dev_run b s d H)). Qed.

(** [s'] has the devices of [s] and [new] ones, and nothing else changed but
    the messages. *)
Definition grown (new : list blockdev) (s s' : devices) : Prop :=
  all_blocks s' = all_blocks s ++ new ∧ block_by_role s' = block_by_role s ∧ disks s' = disks s.
Lemma grown_twice n1 n2 s1 s2 s3 : grown n1 s1 s2 → grown n2 s2 s3 → grown (n1 ++ n2) s1 s3.
Proof using Type. intros (A & B & C) (A' & B' & C'). split_and!; [|congruence..]. by rewrite A', A, app_assoc. Qed.

Lemma found_partition_run b s d e n : all_blocks s !! b = Some d → 0 <= nsectors d < 2 ^ 32 → entry_ok e → used e = true →
  - 2 ^ 31 <= n < 2 ^ 31 →
  ∃ s', found_partition fails b (type e) (offset e) (size e) n s = Ret (tt, s') ∧
        grown (registered d b [(n, e)]) s s'.
Proof using no_fail.
  intros Hb Hn (Ht & Ho & Hsz) Hu Hnr. unfold registered. cbn [filter list_filter snd]. unfold found_partition.
  rewrite (bind_Ret _ _ _ _ _ (dev_size_run b s d Hb)), (bind_Ret _ _ _ _ _ (block_name_run b s d Hb)).
  assert (Hs1 : size e ≠ 0). { unfold used in Hu. apply negb_true_iff, orb_false_iff in Hu as [H _]. by apply Z.eqb_neq. }
  destruct (decide (fits (nsectors d) e)) as [Hf|Hf].
  - unfold fits in Hf. rewrite (proj2 (Z.leb_gt _ _)) by lia. rewrite u32_small by lia.
    rewrite (proj2 (Z.ltb_ge (offset e + size e) (offset e))) by lia. rewrite (proj2 (Z.ltb_ge (nsectors d) (offset e + size e))) by lia. cbn [orb].
    rewrite (bind_Ret _ _ _ _ _ (must_malloc_run s)), (decimal_text_run n Hnr), lift_bind.
    destruct (hex_text_run (type e) Ht) as [h ->]. rewrite lift_bind.
    unfold block_register. rewrite bind_assoc, (bind_Ret _ _ _ _ _ (must_malloc_run _)), bind_assoc, gets_bind, bind_assoc, modify_bind.
    unfold say. rewrite bind_assoc, modify_bind. eexists. split; [reflexivity|]. split_and!; simpl; [|done..]. 
    f_equal. unfold device_of. cbn [fst snd]. by rewrite take_take.
  - unfold fits in Hf. destruct (Z.leb_spec (nsectors d) (offset e)).
    + eexists. split; [reflexivity|]. split_and!; simpl; [by rewrite app_nil_r|done..].
    + assert (((u32 (offset e + size e) <? offset e) || (nsectors d <? u32 (offset e + size e))) = true) as ->.
      { apply orb_true_iff. rewrite !Z.ltb_lt. unfold u32. Z.div_mod_to_equations. lia. }
      eexists. split; [reflexivity|]. split_and!; simpl; [by rewrite app_nil_r|done..].
Qed.

Lemma entries_loop_run rec b es n s d : all_blocks s !! b = Some d → 0 <= nsectors d < 2 ^ 32 → Forall entry_ok es →
  Forall (λ e, used e = true → is_extended (type e) = false) es → 0 <= n → n + Z.of_nat (length es) < 2 ^ 31 →
  ∃ s', entries_loop fails rec b 0 0 es n s = Ret (n + Z.of_nat (length (numbered n es)), s') ∧
        grown (registered d b (numbered n es)) s s'.
Proof using no_fail.
  revert n s. induction es as [|e es IH]; intros n s Hb Hn He Hx Hn0 Hlen; cbn [entries_loop numbered].
  - exists s. split; [by rewrite Z.add_0_r|]. split_and!; [by rewrite app_nil_r|done..].
  - apply Forall_cons in He as [He Hes]. apply Forall_cons in Hx as [Hxe Hxs]. cbn [length] in Hlen.
    pose proof He as (Ht & Ho & Hsz). unfold used in *. destruct ((size e =? 0) || (type e =? 0)) eqn:Hu; cbn [negb] in *.
    + rewrite ret_bind. apply IH; try done; lia.
    + rewrite (Hxe eq_refl).
      destruct (found_partition_run b s d e (n + 1)) as (s1 & E1 & G1); [done..|by unfold used; rewrite Hu|lia|].
      rewrite Z.add_0_r, u32_small by lia. rewrite bind_assoc, (bind_Ret _ _ _ _ _ E1), ret_bind.
      destruct (IH (n + 1) s1) as (s2 & E2 & G2); [|done|done|done|lia|lia|].
      { destruct G1 as (-> & _). by apply lookup_app_l_Some. }
      exists s2. split.
      { rewrite E2. cbn [length]. by replace (n + Z.of_nat (S (length (numbered (n + 1) es)))) with (n + 1 + Z.of_nat (length (numbered (n + 1) es))) by lia. }
      assert (R : registered d b ((n + 1, e) :: numbered (n + 1) es) = registered d b [(n + 1, e)] ++ registered d b (numbered (n + 1) es)).
      { unfold registered. rewrite <- fmap_app, <- filter_app. done. }
      rewrite R. by eapply grown_twice.
Qed.

Lemma disk_read_run fuel b s d u sector : all_blocks s !! b = Some d → ops d = Disk u → 0 <= sector < nsectors d →
  block_read (S fuel) b sector s =
    Ret (default zero_sector (default ∅ (disks s !! u) !! sector), set_blocks (alter count_read b) s).
Proof using Type.
  intros Hb Hop Hs. cbn [block_read]. unfold check_sector.
  rewrite bind_assoc, (bind_Ret _ _ _ _ _ (get_dev_run b s d Hb)). rewrite (proj2 (Z.leb_gt _ _)) by lia. rewrite ret_bind.
  rewrite (bind_Ret _ _ _ _ _ (get_dev_run b s d Hb)), Hop. unfold disk_read. rewrite gets_bind, modify_bind. done.
Qed.

Lemma scan_run b s d u : all_blocks s !! b = Some d → ops d = Disk u → 0 < nsectors d < 2 ^ 32 →
  let pt := default zero_sector (default ∅ (disks s !! u) !! 0) in
  Forall (λ x, 0 <= x < 256) pt → signature pt = 0xaa55 →
  Forall (λ e, used e = true → is_extended (type e) = false) (partitions pt) →
  ∃ s', partition_scan fails 1 b s = Ret (tt, s') ∧
    grown (registered d b (numbered 0 (partitions pt))) (set_blocks (alter count_read b) s) s'.
Proof using no_fail.
  intros Hb Hop Hn pt Hpt Hsig Hx. unfold partition_scan. cbn [read_partition_table].
  rewrite !bind_assoc, (bind_Ret _ _ _ _ _ (dev_size_run b s d Hb)), bind_assoc, (bind_Ret _ _ _ _ _ (block_name_run b s d Hb)).
  rewrite (proj2 (Z.leb_gt _ _)) by lia. rewrite !bind_assoc, (bind_Ret _ _ _ _ _ (must_malloc_run s)).
  unfold read_sector. rewrite !bind_assoc, gets_bind.
  rewrite (bind_Ret _ _ _ _ _ (disk_read_run _ b (count_malloc s) d u 0 Hb Hop ltac:(lia))).
  change (default zero_sector (default ∅ (disks (count_malloc s) !! u) !! 0)) with pt. rewrite Hsig. cbn [Z.eqb Pos.eqb negb].
  set (s1 := set_blocks _ _). set (d1 := count_read d).
  assert (H1 : all_blocks s1 !! b = Some d1) by (simpl; by rewrite list_lookup_alter_eq, Hb).
  destruct (entries_loop_run (read_partition_table fails 0 b) b (partitions pt) 0 s1 d1) as (s2 & E2 & G2);
    [done|simpl; lia|by apply entries_ok|done|lia|unfold partitions; rewrite length_fmap, length_seq; lia|].
  rewrite (bind_Ret _ _ _ _ _ E2). change (registered d1 b) with (registered d b) in G2.
  assert (G : grown (registered d b (numbered 0 (partitions pt))) (set_blocks (alter count_read b) s) s2) by exact G2.
  case_match; [|by exists s2]. assert (Hb2 : all_blocks s2 !! b = Some d1).
  { destruct G2 as (-> & _). by apply lookup_app_l_Some. }
  rewrite (bind_Ret _ _ _ _ _ (block_name_run b s2 d1 Hb2)). eexists. split; [reflexivity|].
  destruct G as (A & B & C). split_and!; [by rewrite <- A|by rewrite <- B|by rewrite <- C].
Qed.
End scan.

(** Scanning a disk whose partition table has no extended entry registers,
    in the order of the table, exactly the entries in use that lie inside the
    disk, each with its number, role, start and size, and changes no sector:
    sums that wrap around 2^32 are rejected. *)
Theorem partition_scan_correct fails b s d u :
  (∀ n, fails n = false) → all_blocks s !! b = Some d → ops d = Disk u → 0 < nsectors d < 2 ^ 32 →
  let pt := default zero_sector (default ∅ (disks s !! u) !! 0) in
  Forall (λ x, 0 <= x < 256) pt → signature pt = 0xaa55 →
  Forall (λ e, used e = true → is_extended (type e) = false) (partitions pt) →
  ∃ s', partition_scan fails 1 b s = Ret (tt, s') ∧
    all_blocks s' = alter count_read b (all_blocks s) ++ registered d b (numbered 0 (partitions pt)) ∧
    disks s' = disks s ∧ block_by_role s' = block_by_role s.
Proof.
  intros Hf Hb Hop Hn pt Hpt Hsig Hx. destruct (scan_run fails Hf b s d u Hb Hop Hn Hpt Hsig Hx) as (s' & E & A & B & C).
  by exists s'.
Qed.

(** A disk with a table of three entries: a kernel partition of 64 sectors, an
    entry whose end wraps around, and a file system partition. *)
Definition entry_bytes (t o1 o2 o3 o4 n1 n2 n3 n4 : Z) : list Z := [0; 0; 0; 0; t; 0; 0; 0; o1; o2; o3; o4; n1; n2; n3; n4].
Definition table_bytes (es : list Z) : list Z := replicate 446 0 ++ es ++ replicate (64 - length es) 0 ++ [0x55; 0xaa].
Definition example_table : list Z :=
  table_bytes (entry_bytes 0x20 1 0 0 0 64 0 0 0 ++ entry_bytes 0x83 100 0 0 0 255 255 255 255 ++ entry_bytes 0x21 65 0 0 0 0 1 0 0).
Definition example_disk (m : gmap Z (list Z)) (n : Z) : devices :=
  mk_devices [mk_bd (chars "hda") BLOCK_RAW n (Disk 0) 0 0] (replicate 4 None) {[ 0%nat := m ]} 0 [].

Lemma partition_scan_correct_witness :
  ∃ s', partition_scan (λ _, false) 1 0 (example_disk {[ 0 := example_table ]} 1000) = Ret (tt, s') ∧
    map (λ d, (name d, btype d, nsectors d, ops d)) (drop 1 (all_blocks s')) =
      [(chars "hda1", BLOCK_KERNEL, 64, Partition 0 1); (chars "hda3", BLOCK_FILESYS, 256, Partition 0 65)].
Proof.
  destruct (partition_scan_correct (λ _, false) 0 (example_disk {[ 0 := example_table ]} 1000) (mk_bd (chars "hda") BLOCK_RAW 1000 (Disk 0) 0 0) 0)
    as (s' & E & A & _); [done|reflexivity|reflexivity|simpl; lia| | | |].
  - apply (bool_decide_unpack _). vm_compute. exact I.
  - vm_compute. reflexivity.
  - apply (bool_decide_unpack _). vm_compute. exact I.
  - exists s'. split; [exact E|]. rewrite A. vm_compute. reflexivity.
Defined.

(** ** A partition is a window on its disk *)
Record window (s : devices) (b : nat) (d : blockdev) (p : nat) (start n : Z) : Prop := mk_window {
  w_dev : ∃ dp, all_blocks s !! p = Some dp ∧ ops dp = Partition b start ∧ nsectors dp = n ∧ btype dp ≠ BLOCK_FOREIGN;
  w_start : 0 <= start;
  w_inside : 0 <= n ∧ start + n <= nsectors d }.
Definition content (s : devices) (u : nat) (sector : Z) : list Z := default zero_sector (default ∅ (disks s !! u) !! sector).

(** The devices are those of [s], up to their counters. *)
Definition counted (s s' : devices) : Prop :=
  ∀ i d, all_blocks s !! i = Some d → ∃ d', all_blocks s' !! i = Some d' ∧
    name d' = name d ∧ btype d' = btype d ∧ nsectors d' = nsectors d ∧ ops d' = ops d.
Lemma counted_alter f b s : (∀ d, name (f d) = name d ∧ btype (f d) = btype d ∧ nsectors (f d) = nsectors d ∧ ops (f d) = ops d) →
  counted s (set_blocks (alter f b) s).
Proof.
  intros Hf i d Hi. simpl. rewrite list_lookup_alter. case_decide as E; [|by exists d].
  subst. rewrite Hi. eexists. split; [done|]. apply Hf.
Qed.
Lemma counted_trans s1 s2 s3 : counted s1 s2 → counted s2 s3 → counted s1 s3.
Proof.
  intros A B i d H. destruct (A i d H) as (d1 & H1 & ? & ? & ? & ?). destruct (B i d1 H1) as (d2 & ? & ? & ? & ? & ?).
  exists d2. split_and!; congruence.
Qed.
Lemma window_counted s s' b d p start n : counted s s' → window s b d p start n → window s' b d p start n.
Proof.
  intros C [(dp & Hp & Ho & Hn & Ht) ? ?]. constructor; [|done..]. destruct (C p dp Hp) as (d' & ? & ? & ? & ? & ?).
  exists d'. split_and!; congruence.
Qed.

Section io.
Context (s : devices) (b : nat) (d : blockdev) (u : nat).
Context (Hb : all_blocks s !! b = Some d) (Hop : ops d = Disk u) (Hn : nsectors d < 2 ^ 32).

Lemma window_read fuel p start n sector : window s b d p start n → 0 <= sector < n →
  ∃ s', block_read (S (S fuel)) p sector s = Ret (content s u (start + sector), s') ∧ counted s s' ∧ disks s' = disks s.
Proof using All.
  intros [(dp & Hp & Ho & Hdn & _) Hs Hi] Hsec. remember (S fuel) as f eqn:Ef. cbn [block_read]. unfold check_sector.
  rewrite bind_assoc, (bind_Ret _ _ _ _ _ (get_dev_run p s dp Hp)). rewrite (proj2 (Z.leb_gt _ _)) by lia. rewrite ret_bind.
  rewrite (bind_Ret _ _ _ _ _ (get_dev_run p s dp Hp)), Ho, u32_small by lia. subst f.
  rewrite (bind_Ret _ _ _ _ _ (disk_read_run fuel b s d u (start + sector) Hb Hop ltac:(lia))), modify_bind.
  eexists. split; [reflexivity|]. split; [|done]. eapply counted_trans; by apply counted_alter.
Qed.
Lemma window_read_past fuel p start n sector : window s b d p start n → n <= sector → block_read (S fuel) p sector s = Err KernelPanic.
Proof using Type.
  intros [(dp & Hp & Ho & Hdn & _) Hs Hi] Hsec. cbn [block_read]. unfold check_sector.
  rewrite bind_assoc, (bind_Ret _ _ _ _ _ (get_dev_run p s dp Hp)). by rewrite (proj2 (Z.leb_le _ _)) by lia.
Qed.
Lemma window_write_past fuel p start n sector buf : window s b d p start n → n <= sector → block_write (S fuel) p sector buf s = Err KernelPanic.
Proof using Type.
  intros [(dp & Hp & Ho & Hdn & _) Hs Hi] Hsec. cbn [block_write]. unfold check_sector.
  rewrite bind_assoc, (bind_Ret _ _ _ _ _ (get_dev_run p s dp Hp)). by rewrite (proj2 (Z.leb_le _ _)) by lia.
Qed.
Lemma disk_write_run fuel sector buf : btype d ≠ BLOCK_FOREIGN → 0 <= sector < nsectors d →
  ∃ s', block_write (S fuel) b sector buf s = Ret (tt, s') ∧ counted s s' ∧ content s' u sector = buf ∧
    (∀ sector', sector' ≠ sector → content s' u sector' = content s u sector').
Proof using Hb Hop.
  intros Ht Hs. cbn [block_write]. unfold check_sector.
  rewrite bind_assoc, (bind_Ret _ _ _ _ _ (get_dev_run b s d Hb)). rewrite (proj2 (Z.leb_gt _ _)) by lia. rewrite ret_bind.
  rewrite (bind_Ret _ _ _ _ _ (get_dev_run b s d Hb)), Hop. rewrite ASSERT_bind by (by rewrite bool_decide_false).
  unfold disk_write. rewrite modify_bind. eexists. split; [reflexivity|]. split; [|unfold content; simpl; rewrite lookup_insert_eq; simpl; split].
  - exact (counted_alter count_write b s ltac:(done)).
  - by rewrite lookup_insert_eq.
  - intros sector' Hne. by rewrite lookup_insert_ne.
Qed.
Lemma window_write fuel p start n sector buf : btype d ≠ BLOCK_FOREIGN → window s b d p start n → 0 <= sector < n →
  ∃ s', block_write (S (S fuel)) p sector buf s = Ret (tt, s') ∧ counted s s' ∧ content s' u (start + sector) = buf ∧
    (∀ sector', sector' ≠ start + sector → content s' u sector' = content s u sector').
Proof using All.
  intros Ht [(dp & Hp & Ho & Hdn & Hft) Hs Hi] Hsec. remember (S fuel) as f eqn:Ef. cbn [block_write]. unfold check_sector.
  rewrite bind_assoc, (bind_Ret _ _ _ _ _ (get_dev_run p s dp Hp)). rewrite (proj2 (Z.leb_gt _ _)) by lia. rewrite ret_bind.
  rewrite (bind_Ret _ _ _ _ _ (get_dev_run p s dp Hp)). rewrite ASSERT_bind by (by rewrite bool_decide_false). rewrite Ho, u32_small by lia. subst f.
  destruct (disk_write_run fuel (start + sector) buf Ht ltac:(lia)) as (s1 & E1 & C1 & V1 & O1).
  rewrite (bind_Ret _ _ _ _ _ E1). eexists. split; [reflexivity|]. split; [|done].
  eapply counted_trans; [exact C1|]. by apply counted_alter.
Qed.
End io.


(** ** Extended partitions
    The code that reads a nested table reads sector 0 of the disk instead. *)
Create HintDb blind.
Section blind.
Context (fails : nat → bool) (b u : nat) (v : list Z) (m : gmap nat (gmap Z (list Z))).
Context (Hm : default zero_sector (default ∅ (m !! u) !! 0) = v).

Definition replaced (s : devices) : devices := set_disks (λ _, m) s.
Definition same_start (s : devices) : Prop :=
  content s u 0 = v ∧ ∃ d, all_blocks s !! b = Some d ∧ ops d = Disk u.
(** [c] does the same whatever the disks hold behind their first sector. *)
Definition blind {A} (c : cmd devices A) : Prop := ∀ s, same_start s →
  c (replaced s) = match c s with Ret (a, s') => Ret (a, replaced s') | Err e => Err e end ∧
  (∀ a s', c s = Ret (a, s') → same_start s').

Lemma blind_bind {A B} (c : cmd devices A) (k : A → cmd devices B) : blind c → (∀ a, blind (k a)) → blind (c ≫= k).
Proof using Type.
  intros Hc Hk s Hs. destruct (Hc s Hs) as [E1 S1]. unfold mbind, cmd_bind. rewrite E1.
  destruct (c s) as [[a s1]|e]; [|done]. apply (Hk a s1). by eapply S1.
Qed.
Lemma blind_ret {A} (a : A) : blind (mret a).
Proof using Type. intros s Hs. split; [done|]. by intros ? ? [= <- <-]. Qed.
Lemma blind_throw {A} e : blind (throw (A:=A) e).
Proof using Type. intros s Hs. split; [done|]. by intros ? ?. Qed.
Lemma blind_lift {A} (r : res A) : blind (lift_res r).
Proof using Type. destruct r; [apply blind_ret|apply blind_throw]. Qed.
Lemma blind_say x : blind (say x).
Proof using Type. intros s Hs. split; [done|]. by intros ? ? [= <- <-]. Qed.
Lemma blind_get i : blind (get_dev i).
Proof using Type. intros s Hs. unfold get_dev. simpl. destruct (all_blocks s !! i); (split; [done|]); by intros ? ? [= <- <-]. Qed.
Lemma blind_malloc : blind (must_malloc fails).
Proof using Type.
  intros s Hs. unfold must_malloc. rewrite !gets_bind. simpl. destruct (fails (mallocs s)); (split; [done|]); by intros ? ? [= <- <-].
Qed.
Lemma blind_push d : blind (modify (set_blocks (λ l, l ++ [d]))).
Proof using Type.
  intros s Hs. split; [done|]. intros ? ? [= <- <-]. destruct Hs as (H1 & d' & H2 & H3). split; [done|]. exists d'. split; [|done].
  simpl. by apply lookup_app_l_Some.
Qed.
Lemma blind_read : blind (read_sector b 0).
Proof using Hm.
  intros s (Hv & d & Hb & Ho). unfold read_sector. rewrite !gets_bind. change (all_blocks (replaced s)) with (all_blocks s).
  destruct (Z.leb_spec (nsectors d) 0) as [Hn|Hn].
  - assert (P : ∀ s0, all_blocks s0 !! b = Some d → block_read (S (length (all_blocks s))) b 0 s0 = Err KernelPanic).
    { intros s0 H0. cbn [block_read]. unfold check_sector. rewrite bind_assoc, (bind_Ret _ _ _ _ _ (get_dev_run b s0 d H0)).
      by rewrite (proj2 (Z.leb_le _ _)) by lia. }
    rewrite !P by done. done.
  - rewrite (disk_read_run _ b s d u 0 Hb Ho), (disk_read_run _ b (replaced s) d u 0 Hb Ho) by lia.
    split; [unfold content in Hv; simpl; by rewrite Hm, Hv|]. intros ? ? [= <- <-]. split; [done|].
    exists (count_read d). simpl. by rewrite list_lookup_alter_eq, Hb.
Qed.
Hint Resolve blind_bind blind_ret blind_throw blind_lift blind_say blind_get blind_malloc blind_push blind_read : blind.

Lemma blind_register nm ty ex size dr : blind (block_register fails nm ty ex size dr).
Proof using Type.
  apply blind_bind; [apply blind_malloc|]. intros []. intros s Hs. rewrite !gets_bind.
  apply (blind_bind (modify (set_blocks (λ l, l ++ [mk_bd (take 15 nm) ty size dr 0 0])))
    (λ _, say (Registered (take 15 nm) size ex);; mret (length (all_blocks s)))); auto with blind.
Qed.
Hint Resolve blind_register : blind.
Lemma blind_found ty st n nr : blind (found_partition fails b ty st n nr).
Proof using Type.
  unfold found_partition, block_size, block_name. repeat first [solve [auto with blind]|apply blind_bind; [solve [auto with blind]|intros]|case_match].
Qed.
Hint Resolve blind_found : blind.
Lemma blind_entries rec sector pes es n : (∀ x y z, blind (rec x y z)) → blind (entries_loop fails rec b sector pes es n).
Proof using Type.
  intros Hrec. revert n. induction es as [|e es IH]; intros n; cbn [entries_loop]; [apply blind_ret|].
  apply blind_bind; [|auto]. unfold block_name. repeat case_match; repeat first [solve [auto with blind]|apply blind_bind; intros].
Qed.
Lemma blind_table fuel sector pes n : blind (read_partition_table fails fuel b sector pes n).
Proof using Hm.
  revert sector pes n. induction fuel as [|fuel IH]; intros sector pes n; cbn [read_partition_table]; [apply blind_throw|].
  unfold block_size, block_name.
  repeat first [solve [auto with blind]|apply blind_entries; exact IH|apply blind_bind; [solve [auto with blind]|intros]|case_match].
Qed.
Lemma blind_scan fuel : blind (partition_scan fails fuel b).
Proof using Hm.
  apply blind_bind; [apply blind_table|]. intros n. unfold block_name. case_match; auto with blind.
Qed.
End blind.

(** A table whose first entry is an extended partition in the middle of the
    32-bit range. *)
Definition nested_table : list Z := table_bytes (entry_bytes 0x05 0 0 0 128 1 0 0 0).

Lemma nested_loops fails b u d : (∀ n, fails n = false) → ∀ fuel s sector pes n,
  (∃ d', all_blocks s !! b = Some d' ∧ ops d' = Disk u ∧ nsectors d' = nsectors d) → 2 ^ 31 < nsectors d → content s u 0 = nested_table →
  sector = 0 ∨ sector = 2 ^ 31 ∧ pes = 2 ^ 31 → read_partition_table fails fuel b sector pes n s = Err NoFuel.
Proof.
  intros Hf fuel. induction fuel as [|fuel IH]; intros s sector pes n (d' & Hb & Hop & Hd) Hn Hc Hs; [done|]. cbn [read_partition_table].
  rewrite (bind_Ret _ _ _ _ _ (dev_size_run b s d' Hb)), (bind_Ret _ _ _ _ _ (block_name_run b s d' Hb)).
  rewrite (proj2 (Z.leb_gt _ _)) by lia. rewrite (bind_Ret _ _ _ _ _ (must_malloc_run fails Hf s)).
  unfold read_sector. rewrite bind_assoc, gets_bind.
  rewrite (bind_Ret _ _ _ _ _ (disk_read_run _ b (count_malloc s) d' u 0 Hb Hop ltac:(lia))).
  change (default zero_sector (default ∅ (disks (count_malloc s) !! u) !! 0)) with (content s u 0). rewrite Hc.
  change (signature nested_table =? 0xaa55) with true. cbn [negb].
  change (partitions nested_table) with [mk_entry 5 (2 ^ 31) 1; mk_entry 0 0 0; mk_entry 0 0 0; mk_entry 0 0 0].
  set (s1 := set_blocks _ _). assert (H1 : all_blocks s1 !! b = Some (count_read d')) by (simpl; by rewrite list_lookup_alter_eq, Hb).
  cbn [entries_loop]. apply bind_Err. change ((size (mk_entry 5 (2 ^ 31) 1) =? 0) || (type (mk_entry 5 (2 ^ 31) 1) =? 0)) with false.
  change (is_extended (type (mk_entry 5 (2 ^ 31) 1))) with true. cbv iota.
  rewrite (bind_Ret _ _ _ _ _ (block_name_run b s1 _ H1)). unfold say. rewrite modify_bind. cbn [offset].
  case_match eqn:E; (apply IH; [by exists (count_read d')|done|done|]); [by right|].
  left. apply Z.eqb_neq in E. destruct Hs as [|[_ ->]]; [lia|]. reflexivity.
Qed.

(** Tables of extended partitions are never read: a scan of a disk finds
    the same devices and prints the same messages whatever the sectors after
    the first hold, so logical partitions are not found; and there is a
    partition table on which the scan does not end. *)
Theorem extended_tables_misread :
  (∀ fails b d u s m fuel, all_blocks s !! b = Some d → ops d = Disk u →
    default zero_sector (default ∅ (m !! u) !! 0) = content s u 0 →
    partition_scan fails fuel b (set_disks (λ _, m) s) =
      match partition_scan fails fuel b s with Ret (a, s') => Ret (a, set_disks (λ _, m) s') | Err e => Err e end) ∧
  (∀ fuel n, 2 ^ 31 < n → partition_scan (λ _, false) fuel 0 (example_disk {[ 0 := nested_table ]} n) = Err NoFuel).
Proof.
  split.
  - intros fails b d u s m fuel Hb Hop Hm. apply (blind_scan fails b u (content s u 0) m Hm fuel s). split; [done|]. by exists d.
  - intros fuel n Hn. unfold partition_scan. apply bind_Err.
    apply (nested_loops (λ _, false) 0 0 (mk_bd (chars "hda") BLOCK_RAW n (Disk 0) 0 0)); try done; [by eexists|by left].
Qed.
