(* ===== verification/Ide.v ===== *)
(** * The driver of the ATA disks (devices/ide.c)

    The hardware is what the routines of threads/io.h reach, so the driver is
    written against the class [ports]: reads and writes of ports, time that
    passes, and interrupt requests.  IdeDisk.v is an implementation of the class
    by two channels with disks.

    A channel is named by its position in [channels] and a disk by its channel
    and its position there.  Whenever interrupts are on, a request of the
    hardware is served after the access or the delay that brought it about;
    [sema_down] blocks until the next request.  The lock of a channel is kept as
    the fact that it is held: the code is the critical section of one thread,
    and acquiring a held lock would block.  [patience] bounds the interrupts
    that one [sema_down] waits for.  A 16-bit unit is the pair of its bytes, the
    low one first.  The delays of timer.c are the time they ask for
    (Timer.v); of interrupt.c only the vectors that are registered are kept
    (Idt.v), and the semaphore is its counter (Synch.v). *)
From S2P Require Import Prelude LibStd Cache FsState Stdio BlockDev Partition.
From stdpp Require Import strings.
Open Scope Z_scope.

Class ports (H : Type) : Type := {
  in8 : Z → H → Z * H;
  out8 : Z → Z → H → H;
  in16 : Z → H → (Z * Z) * H;
  out16 : Z → Z * Z → H → H;
  pass : Z → H → H;                  (* so many nanoseconds *)
  request : H → option (Z * H);      (* the vector requested, and the hardware once it is acknowledged *)
  next_request : H → option H        (* the hardware when it next requests an interrupt *)
}.

(** ** Registers *)
Definition STA_BSY : Z := 0x80.
Definition STA_DRDY : Z := 0x40.
Definition STA_DRQ : Z := 0x08.
Definition CTL_SRST : Z := 0x04.
Definition DEV_MBS : Z := 0xa0.
Definition DEV_LBA : Z := 0x40.
Definition DEV_DEV : Z := 0x10.
Definition CMD_IDENTIFY_DEVICE : Z := 0xec.
Definition CMD_READ_SECTOR_RETRY : Z := 0x20.
Definition CMD_WRITE_SECTOR_RETRY : Z := 0x30.
Definition CHANNEL_CNT : nat := 2.

(** ** State *)
Record ata_disk : Set := mk_ata { d_name : list Z; d_channel : nat; dev_no : Z; is_ata : bool }.
Record channel : Set := mk_channel {
  c_name : list Z; reg_base : Z; irq : Z; lock : bool; expecting_interrupt : bool; completion_wait : Z;
  c_devices : list ata_disk }.
Inductive ide_message : Set :=
  | IdleTimeout (name : list Z)
  | BusyWaiting (name : list Z)
  | WaitOk
  | WaitFailed
  | UnexpectedInterrupt (name : list Z)
  | UnhandledVector (vec : Z)
  | IgnoringDisk (name : list Z) (size : Z).
(** [vectors]: the interrupts that [intr_register_ext] has been called for. *)
Record ide (H : Type) : Type := mk_ide {
  channels : list channel; hw : H; blocks : devices; intr_on : bool; vectors : list Z; messages : list ide_message }.
Arguments mk_ide {H} _ _ _ _ _ _.
Arguments channels {H} _.
Arguments hw {H} _.
Arguments blocks {H} _.
Arguments intr_on {H} _.
Arguments vectors {H} _.
Arguments messages {H} _.

Definition set_lock v (c : channel) := mk_channel (c_name c) (reg_base c) (irq c) v (expecting_interrupt c) (completion_wait c) (c_devices c).
Definition set_expecting v (c : channel) := mk_channel (c_name c) (reg_base c) (irq c) (lock c) v (completion_wait c) (c_devices c).
Definition set_completion v (c : channel) := mk_channel (c_name c) (reg_base c) (irq c) (lock c) (expecting_interrupt c) v (c_devices c).
Definition set_c_devices v (c : channel) := mk_channel (c_name c) (reg_base c) (irq c) (lock c) (expecting_interrupt c) (completion_wait c) v.
Definition set_is_ata v (d : ata_disk) := mk_ata (d_name d) (d_channel d) (dev_no d) v.

Definition reg_data (c : channel) : Z := reg_base c + 0.
Definition reg_error (c : channel) : Z := reg_base c + 1.
Definition reg_nsect (c : channel) : Z := reg_base c + 2.
Definition reg_lbal (c : channel) : Z := reg_base c + 3.
Definition reg_lbam (c : channel) : Z := reg_base c + 4.
Definition reg_lbah (c : channel) : Z := reg_base c + 5.
Definition reg_device (c : channel) : Z := reg_base c + 6.
Definition reg_status (c : channel) : Z := reg_base c + 7.
Definition reg_command (c : channel) : Z := reg_status c.
Definition reg_ctl (c : channel) : Z := reg_base c + 0x206.
Definition reg_alt_status (c : channel) : Z := reg_ctl c.

(** ** [descramble_ata_string], on the [size] bytes at [string] *)
Fixpoint swap_pairs (l : list Z) : list Z :=
  match l with a :: b :: l => b :: a :: swap_pairs l | l => l end.
(** The loop [for (size--; size > 0; size--)], from [size - 1] on. *)
Fixpoint last_char (l : list Z) (size : nat) : nat :=
  match size with
  | O => O
  | S n => if negb (nth n l 0 =? 0) && negb (isspace (nth n l 0)) then size else last_char l n
  end.
Definition descramble_ata_string (string : list Z) (size : nat) : list Z :=
  let l := swap_pairs string in <[last_char l (size - 1) := 0]> l.
(** The characters up to the first null byte. *)
Fixpoint c_string (l : list Z) : list Z :=
  match l with [] => [] | c :: l => if c =? 0 then [] else c :: c_string l end.

Section driver.
Context {H : Type} `{!ports H} (patience scan_fuel : nat) (fails : nat → bool).


Definition put_hw (h : H) (s : ide H) : ide H := mk_ide (channels s) h (blocks s) (intr_on s) (vectors s) (messages s).
Definition put_msg (m : ide_message) : cmd (ide H) unit :=
  modify (λ s, mk_ide (channels s) (hw s) (blocks s) (intr_on s) (vectors s) (messages s ++ [m])).
Definition get_channel (c : nat) : cmd (ide H) channel := λ s,
  match channels s !! c with Some ch => Ret (ch, s) | None => Err BadPtr end.
Definition alter_channel (f : channel → channel) (c : nat) : cmd (ide H) unit :=
  modify (λ s, mk_ide (alter f c (channels s)) (hw s) (blocks s) (intr_on s) (vectors s) (messages s)).
Definition get_disk (c d : nat) : cmd (ide H) ata_disk :=
  ch ← get_channel c; match c_devices ch !! d with Some a => mret a | None => throw BadPtr end.
Definition put_is_ata (c d : nat) (v : bool) : cmd (ide H) unit :=
  alter_channel (λ ch, set_c_devices (alter (set_is_ata v) d (c_devices ch)) ch) c.
(** A call of block.c or partition.c. *)
Definition on_blocks {A} (m : cmd devices A) : cmd (ide H) A := λ s,
  match m (blocks s) with
  | Ret (a, b) => Ret (a, mk_ide (channels s) (hw s) b (intr_on s) (vectors s) (messages s))
  | Err e => Err e
  end.

(** ** Interrupts *)
Definition inb_raw (p : Z) : cmd (ide H) Z := λ s, let '(v, h) := in8 p (hw s) in Ret (v, put_hw h s).
Definition sema_up (c : nat) : cmd (ide H) unit := alter_channel (λ ch, set_completion (completion_wait ch + 1) ch) c.
Fixpoint handler_loop (n c : nat) (vec_no : Z) : cmd (ide H) unit :=
  match n with
  | O => throw KernelPanic
  | S n =>
    ch ← get_channel c;
    if vec_no =? irq ch then
      if expecting_interrupt ch then inb_raw (reg_status ch);; sema_up c
      else put_msg (UnexpectedInterrupt (c_name ch))
    else handler_loop n (S c) vec_no
  end.
Definition interrupt_handler (vec_no : Z) : cmd (ide H) unit := handler_loop CHANNEL_CNT 0 vec_no.
(** The processor takes a request, if interrupts are on. *)
Definition serve : cmd (ide H) unit := λ s,
  if intr_on s then
    match request (hw s) with
    | None => Ret (tt, s)
    | Some (vec, h) =>
      (if bool_decide (vec ∈ vectors s) then interrupt_handler vec else put_msg (UnhandledVector vec)) (put_hw h s)
    end
  else Ret (tt, s).
Definition intr_register_ext (vec_no : Z) : cmd (ide H) unit :=
  ASSERT ((0x20 <=? vec_no) && (vec_no <=? 0x2f));;
  vs ← gets vectors; ASSERT (bool_decide (vec_no ∉ vs));;
  modify (λ s, mk_ide (channels s) (hw s) (blocks s) (intr_on s) (vec_no :: vectors s) (messages s)).

(** ** Accesses and delays *)
Definition inb (p : Z) : cmd (ide H) Z := v ← inb_raw p; serve;; mret v.
Definition outb (p v : Z) : cmd (ide H) unit := modify (λ s, put_hw (out8 p (u8 v) (hw s)) s);; serve.
Definition inw (p : Z) : cmd (ide H) (Z * Z) := λ s,
  let '(v, h) := in16 p (hw s) in (serve;; mret v) (put_hw h s).
Definition outw (p : Z) (v : Z * Z) : cmd (ide H) unit := modify (λ s, put_hw (out16 p v (hw s)) s);; serve.
Fixpoint insw (p : Z) (cnt : nat) : cmd (ide H) (list Z) :=
  match cnt with
  | O => mret []
  | S cnt => w ← inw p; l ← insw p cnt; mret (w.1 :: w.2 :: l)
  end.
Fixpoint outsw (p : Z) (buffer : list Z) (cnt : nat) : cmd (ide H) unit :=
  match cnt, buffer with
  | O, _ => mret tt
  | S cnt, lo :: hi :: buffer => outw p (lo, hi);; outsw p buffer cnt
  | S _, _ => throw OutOfBounds
  end.
Definition timer_nsleep (ns : Z) : cmd (ide H) unit := modify (λ s, put_hw (pass ns (hw s)) s);; serve.
Definition timer_usleep (us : Z) : cmd (ide H) unit := timer_nsleep (us * 1000).
Definition timer_msleep (ms : Z) : cmd (ide H) unit := timer_nsleep (ms * 1000000).

(** ** The lock and the semaphore of a channel *)
Definition lock_acquire (c : nat) : cmd (ide H) unit :=
  ch ← get_channel c; if lock ch then throw Deadlock else alter_channel (set_lock true) c.
Definition lock_release (c : nat) : cmd (ide H) unit :=
  ch ← get_channel c; ASSERT (lock ch);; alter_channel (set_lock false) c.
Definition block_until_request : cmd (ide H) unit := λ s,
  match next_request (hw s) with Some h => serve (put_hw h s) | None => Err Deadlock end.
Fixpoint sema_wait (n c : nat) : cmd (ide H) unit :=
  ch ← get_channel c;
  if completion_wait ch =? 0 then
    match n with O => throw NoFuel | S n => block_until_request;; sema_wait n c end
  else alter_channel (set_completion (completion_wait ch - 1)) c.
Definition sema_down (c : nat) : cmd (ide H) unit := sema_wait patience c.

(** ** Low-level primitives *)
Fixpoint idle_loop (n c d : nat) : cmd (ide H) unit :=
  match n with
  | O => a ← get_disk c d; put_msg (IdleTimeout (d_name a))
  | S n =>
    ch ← get_channel c; st ← inb (reg_status ch);
    if Z.land st (Z.lor STA_BSY STA_DRQ) =? 0 then mret tt else timer_usleep 10;; idle_loop n c d
  end.
Definition wait_until_idle (c d : nat) : cmd (ide H) unit := idle_loop 1000 c d.
(** [n] rounds are left of the 3000. *)
Fixpoint busy_loop (n c d : nat) : cmd (ide H) bool :=
  match n with
  | O => put_msg WaitFailed;; mret false
  | S n' =>
    (if (n =? 3000 - 700)%nat then a ← get_disk c d; put_msg (BusyWaiting (d_name a)) else mret tt);;
    ch ← get_channel c; st ← inb (reg_alt_status ch);
    if Z.land st STA_BSY =? 0 then
      (if (n <=? 3000 - 700)%nat then put_msg WaitOk else mret tt);;
      st ← inb (reg_alt_status ch); mret (negb (Z.land st STA_DRQ =? 0))
    else timer_msleep 10;; busy_loop n' c d
  end.
Definition wait_while_busy (c d : nat) : cmd (ide H) bool := busy_loop 3000 c d.
Definition select_device (c d : nat) : cmd (ide H) unit :=
  ch ← get_channel c; a ← get_disk c d;
  outb (reg_device ch) (if dev_no a =? 1 then Z.lor DEV_MBS DEV_DEV else DEV_MBS);;
  inb (reg_alt_status ch);;
  timer_nsleep 400.
Definition select_device_wait (c d : nat) : cmd (ide H) unit :=
  wait_until_idle c d;; select_device c d;; wait_until_idle c d.
Definition issue_pio_command (c : nat) (command : Z) : cmd (ide H) unit :=
  on ← gets intr_on; ASSERT on;;
  alter_channel (set_expecting true) c;;
  ch ← get_channel c; outb (reg_command ch) command.
Definition input_sector (c : nat) : cmd (ide H) (list Z) := ch ← get_channel c; insw (reg_data ch) 256.
Definition output_sector (c : nat) (sector : list Z) : cmd (ide H) unit := ch ← get_channel c; outsw (reg_data ch) sector 256.
Definition select_sector (c d : nat) (sec_no : Z) : cmd (ide H) unit :=
  ASSERT (sec_no <? 2 ^ 28);;
  select_device_wait c d;;
  ch ← get_channel c; a ← get_disk c d;
  outb (reg_nsect ch) 1;;
  outb (reg_lbal ch) sec_no;;
  outb (reg_lbam ch) (Z.shiftr sec_no 8);;
  outb (reg_lbah ch) (Z.shiftr sec_no 16);;
  outb (reg_device ch) (Z.lor (Z.lor (Z.lor DEV_MBS DEV_LBA) (if dev_no a =? 1 then DEV_DEV else 0)) (Z.shiftr sec_no 24)).

(** ** [ide_operations] *)
Definition ide_read (c d : nat) (sec_no : Z) : cmd (ide H) (list Z) :=
  lock_acquire c;;
  select_sector c d sec_no;;
  issue_pio_command c CMD_READ_SECTOR_RETRY;;
  sema_down c;;
  ok ← wait_while_busy c d;
  if (ok : bool) then buffer ← input_sector c; lock_release c;; mret buffer else throw KernelPanic.
Definition ide_write (c d : nat) (sec_no : Z) (buffer : list Z) : cmd (ide H) unit :=
  lock_acquire c;;
  select_sector c d sec_no;;
  issue_pio_command c CMD_WRITE_SECTOR_RETRY;;
  ok ← wait_while_busy c d;
  if (ok : bool) then output_sector c buffer;; sema_down c;; lock_release c else throw KernelPanic.

(** ** Detection and identification *)
Fixpoint slave_loop (n c : nat) : cmd (ide H) unit :=
  match n with
  | O => mret tt
  | S n =>
    ch ← get_channel c; x ← inb (reg_nsect ch);
    done_ ← (if x =? 1 then y ← inb (reg_lbal ch); mret (y =? 1) else mret false);
    if (done_ : bool) then mret tt else timer_msleep 10;; slave_loop n c
  end.
Definition detect (c d : nat) : cmd (ide H) bool :=
  select_device c d;;
  ch ← get_channel c;
  outb (reg_nsect ch) 0x55;; outb (reg_lbal ch) 0xaa;;
  outb (reg_nsect ch) 0xaa;; outb (reg_lbal ch) 0x55;;
  outb (reg_nsect ch) 0x55;; outb (reg_lbal ch) 0xaa;;
  x ← inb (reg_nsect ch);
  if x =? 0x55 then y ← inb (reg_lbal ch); mret (y =? 0xaa) else mret false.
Definition reset_channel (c : nat) : cmd (ide H) unit :=
  present0 ← detect c 0; present1 ← detect c 1;
  ch ← get_channel c;
  outb (reg_ctl ch) 0;; timer_usleep 10;;
  outb (reg_ctl ch) CTL_SRST;; timer_usleep 10;;
  outb (reg_ctl ch) 0;;
  timer_msleep 150;;
  (if (present0 : bool) then select_device c 0;; wait_while_busy c 0;; mret tt else mret tt);;
  if (present1 : bool) then select_device c 1;; slave_loop 3000 c;; wait_while_busy c 1;; mret tt else mret tt.
Definition check_device_type (c d : nat) : cmd (ide H) bool :=
  ch ← get_channel c; a ← get_disk c d;
  select_device c d;;
  error ← inb (reg_error ch); lbam ← inb (reg_lbam ch); lbah ← inb (reg_lbah ch); status ← inb (reg_status ch);
  if (negb (error =? 1) && (negb (error =? 0x81) || (dev_no a =? 1)))
     || (Z.land status STA_DRDY =? 0) || negb (Z.land status STA_BSY =? 0) then
    put_is_ata c d false;; mret (negb (error =? 0x81))
  else
    put_is_ata c d (((lbam =? 0) && (lbah =? 0)) || ((lbam =? 0x3c) && (lbah =? 0xc3)));; mret true.

Definition capacity_of (id : list Z) : Z := word_at id 120.
(** The text in [extra_info], which holds 127 characters. *)
Definition extra_info_of (id : list Z) : list Z :=
  let model := c_string (descramble_ata_string (take 20 (drop 20 id)) 20) in
  let serial := c_string (descramble_ata_string (take 40 (drop 54 id)) 40) in
  take 127 (chars "model " ++ [34] ++ model ++ [34] ++ chars ", serial " ++ [34] ++ serial ++ [34]).
Definition identify_ata_device (c d : nat) : cmd (ide H) unit :=
  a ← get_disk c d; ASSERT (is_ata a);;
  select_device_wait c d;;
  issue_pio_command c CMD_IDENTIFY_DEVICE;;
  sema_down c;;
  ok ← wait_while_busy c d;
  if negb ok then put_is_ata c d false else
  id ← input_sector c;
  let capacity := capacity_of id in
  if 1024 * 1024 * 1024 / BLOCK_SECTOR_SIZE <=? capacity then
    put_msg (IgnoringDisk (d_name a) (u32 (capacity * 512)));; put_is_ata c d false
  else
    block ← on_blocks (block_register fails (d_name a) BLOCK_RAW (Some (extra_info_of id)) capacity (Disk (2 * c + d)));
    on_blocks (partition_scan fails scan_fuel block).

(** ** [ide_init] *)
Definition channel_name (chan_no : nat) : list Z := chars "ide" ++ [48 + Z.of_nat chan_no].
Definition disk_name (chan_no dev_no : nat) : list Z := chars "hd" ++ [97 + Z.of_nat (chan_no * 2 + dev_no)].
Definition base_of (chan_no : nat) : Z := match chan_no with O => 0x1f0 | _ => 0x170 end.
Definition irq_of (chan_no : nat) : Z := match chan_no with O => 14 + 0x20 | _ => 15 + 0x20 end.
Definition new_channel (chan_no : nat) : channel :=
  mk_channel (channel_name chan_no) (base_of chan_no) (irq_of chan_no) false false 0
    [mk_ata (disk_name chan_no 0) chan_no 0 false; mk_ata (disk_name chan_no 1) chan_no 1 false].
Definition identify_if_ata (c d : nat) : cmd (ide H) unit :=
  a ← get_disk c d; if is_ata a then identify_ata_device c d else mret tt.
Definition init_channel (c : nat) : cmd (ide H) unit :=
  alter_channel (λ _, new_channel c) c;;
  intr_register_ext (irq_of c);;
  reset_channel c;;
  slave ← check_device_type c 0;
  (if (slave : bool) then check_device_type c 1;; mret tt else mret tt);;
  identify_if_ata c 0;; identify_if_ata c 1.
Definition ide_init : cmd (ide H) unit := init_channel 0;; init_channel 1.
End driver.
