(* ===== verification/IdeDisk.v ===== *)
(** * ATA disks, and the driver on them

    The first part is an implementation of the class [ports]: two channels of
    at most two disks, after ATA-3.  Every command takes a time of its own,
    [latency c k] nanoseconds for the [k]-th command of channel [c], so that its
    interrupt can come at any point of the driver's code.  A register may be
    written at any time, commands are taken when the channel is idle, and a
    transfer is of one sector.

    The rest shows what the driver of Ide.v makes of them: a disk behind the
    driver is a store of sectors ([SectorStore]), which is what the file system
    is proved against, and [ide_init] registers the disks that are there. *)
From S2P Require Import Prelude LibStd Cache FsState Stdio BlockDev Partition Ide.
From stdpp Require Import strings.
Open Scope Z_scope.

(** ** The hardware *)
Record disk : Set := mk_disk { d_sectors : gmap Z (list Z); d_size : Z; d_ident : list Z }.
Inductive job : Set := Identify | ReadJob (sec : Z) | AcceptWrite (sec : Z) | WriteJob (sec : Z) (data : list Z) | Reset.
Inductive phase : Set := Idle | Busy (t : Z) (j : job) | DataIn (l : list Z) | DataOut (sec : Z) (l : list Z).
(** [line]: the device asserts its interrupt line; [latched]: the rise of the
    line has not been taken by the processor yet. *)
Record chan : Set := mk_chan {
  master : option disk; slave : option disk;
  error : Z; nsect : Z; lbal : Z; lbam : Z; lbah : Z; device : Z;
  ph : phase; line : bool; latched : bool; srst : bool; commands : nat }.

Definition set_nsect v h := mk_chan (master h) (slave h) (error h) v (lbal h) (lbam h) (lbah h) (device h) (ph h) (line h) (latched h) (srst h) (commands h).
Definition set_lbal v h := mk_chan (master h) (slave h) (error h) (nsect h) v (lbam h) (lbah h) (device h) (ph h) (line h) (latched h) (srst h) (commands h).
Definition set_lbam v h := mk_chan (master h) (slave h) (error h) (nsect h) (lbal h) v (lbah h) (device h) (ph h) (line h) (latched h) (srst h) (commands h).
Definition set_lbah v h := mk_chan (master h) (slave h) (error h) (nsect h) (lbal h) (lbam h) v (device h) (ph h) (line h) (latched h) (srst h) (commands h).
Definition set_device v h := mk_chan (master h) (slave h) (error h) (nsect h) (lbal h) (lbam h) (lbah h) v (ph h) (line h) (latched h) (srst h) (commands h).
Definition set_ph v h := mk_chan (master h) (slave h) (error h) (nsect h) (lbal h) (lbam h) (lbah h) (device h) v (line h) (latched h) (srst h) (commands h).
Definition set_line v h := mk_chan (master h) (slave h) (error h) (nsect h) (lbal h) (lbam h) (lbah h) (device h) (ph h) v (latched h) (srst h) (commands h).
Definition set_latched v h := mk_chan (master h) (slave h) (error h) (nsect h) (lbal h) (lbam h) (lbah h) (device h) (ph h) (line h) v (srst h) (commands h).
Definition set_srst v h := mk_chan (master h) (slave h) (error h) (nsect h) (lbal h) (lbam h) (lbah h) (device h) (ph h) (line h) (latched h) v (commands h).
Definition set_error v h := mk_chan (master h) (slave h) v (nsect h) (lbal h) (lbam h) (lbah h) (device h) (ph h) (line h) (latched h) (srst h) (commands h).
Definition count_command h := mk_chan (master h) (slave h) (error h) (nsect h) (lbal h) (lbam h) (lbah h) (device h) (ph h) (line h) (latched h) (srst h) (S (commands h)).
Definition set_disk (d : nat) v h :=
  mk_chan (match d with O => v | _ => master h end) (match d with O => slave h | _ => v end)
    (error h) (nsect h) (lbal h) (lbam h) (lbah h) (device h) (ph h) (line h) (latched h) (srst h) (commands h).

(** The position of the selected disk, and the disk at a position. *)
Definition sel (h : chan) : nat := if Z.testbit (device h) 4 then 1 else 0.
Definition disk_at (d : nat) (h : chan) : option disk := match d with O => master h | _ => slave h end.
Definition absent (h : chan) : bool := match master h, slave h with None, None => true | _, _ => false end.
Definition status (h : chan) : Z :=
  match disk_at (sel h) h with
  | None => if absent h then 255 else 0
  | Some _ => match ph h with Idle => 0x40 | Busy _ _ => 0x80 | _ => 0x48 end
  end.
Definition lba (h : chan) : Z := lbal h + 2 ^ 8 * lbam h + 2 ^ 16 * lbah h + 2 ^ 24 * Z.land (device h) 15.
Definition sector_of (d : disk) (sec : Z) : list Z := default zero_sector (d_sectors d !! sec).

Definition raise (h : chan) : chan := set_line true (set_latched (latched h || negb (line h)) h).
Definition refuse (h : chan) : chan := raise (set_error 0x10 (set_ph Idle h)).
Definition finish (j : job) (h : chan) : chan :=
  match j, disk_at (sel h) h with
  | Reset, _ => set_error 1 (set_nsect 1 (set_lbal 1 (set_lbam 0 (set_lbah 0 (set_ph Idle h)))))
  | _, None => set_ph Idle h
  | Identify, Some d => raise (set_ph (DataIn (d_ident d)) h)
  | ReadJob sec, Some d => if sec <? d_size d then raise (set_ph (DataIn (sector_of d sec)) h) else refuse h
  | AcceptWrite sec, Some d => if sec <? d_size d then set_ph (DataOut sec []) h else refuse h
  | WriteJob sec data, Some d =>
      raise (set_ph Idle (set_disk (sel h) (Some (mk_disk (<[sec := data]> (d_sectors d)) (d_size d) (d_ident d))) h))
  end.
Definition advance (t : Z) (h : chan) : chan :=
  if srst h then h
  else match ph h with Busy t0 j => if t0 <=? t then finish j h else set_ph (Busy (t0 - t) j) h | _ => h end.
(** A command, or the end of a software reset, that takes [t]. *)
Definition start (t : Z) (j : job) (h : chan) : chan := advance 0 (count_command (set_line false (set_ph (Busy t j) h))).

Definition chan_in (off : Z) (h : chan) : Z * chan :=
  if off =? 7 then (status h, set_line false h)
  else (if absent h then 255
        else if off =? 1 then error h else if off =? 2 then nsect h else if off =? 3 then lbal h
        else if off =? 4 then lbam h else if off =? 5 then lbah h else if off =? 6 then device h
        else if off =? 0x206 then status h else 255, h).
Definition chan_out (lat : nat → Z) (off v : Z) (h : chan) : chan :=
  if absent h then h
  else if off =? 2 then set_nsect v h else if off =? 3 then set_lbal v h
  else if off =? 4 then set_lbam v h else if off =? 5 then set_lbah v h else if off =? 6 then set_device v h
  else if off =? 7 then
    match disk_at (sel h) h, ph h with
    | Some _, Idle =>
        if v =? CMD_IDENTIFY_DEVICE then start (lat (commands h)) Identify h
        else if (v =? CMD_READ_SECTOR_RETRY) && (nsect h =? 1) then start (lat (commands h)) (ReadJob (lba h)) h
        else if (v =? CMD_WRITE_SECTOR_RETRY) && (nsect h =? 1) then start (lat (commands h)) (AcceptWrite (lba h)) h
        else h
    | _, _ => h
    end
  else if off =? 0x206 then
    if Z.testbit v 2 then set_device 0 (set_line false (set_srst true (set_ph (Busy 0 Reset) h)))
    else if srst h then start (lat (commands h)) Reset (set_srst false h) else h
  else h.
Definition chan_in16 (h : chan) : (Z * Z) * chan :=
  match ph h with
  | DataIn (lo :: hi :: l) => ((lo, hi), set_ph (match l with [] => Idle | _ => DataIn l end) h)
  | _ => ((255, 255), h)
  end.
Definition chan_out16 (lat : nat → Z) (w : Z * Z) (h : chan) : chan :=
  match ph h with
  | DataOut sec l =>
      let l := l ++ [w.1; w.2] in
      if (length l =? 512)%nat then start (lat (commands h)) (WriteJob sec l) h else set_ph (DataOut sec l) h
  | _ => h
  end.

Record machine : Type := mk_machine { chans : list chan; latency : nat → nat → Z }.
Definition put_chan (c : nat) (h : chan) (m : machine) : machine := mk_machine (<[c := h]> (chans m)) (latency m).
(** The channel and the register of a port. *)
Definition locate (p : Z) : option (nat * Z) :=
  if ((0x1f0 <=? p) && (p <=? 0x1f7)) || (p =? 0x3f6) then Some (0%nat, p - 0x1f0)
  else if ((0x170 <=? p) && (p <=? 0x177)) || (p =? 0x376) then Some (1%nat, p - 0x170)
  else None.
(** Whether finishing a command raises an interrupt. *)
Definition will_raise (h : chan) : option Z :=
  match ph h with Busy t j => if negb (srst h) && line (finish j h) then Some t else None | _ => None end.
Definition earliest (a b : option Z) : option Z :=
  match a, b with Some x, Some y => Some (Z.min x y) | Some x, None => Some x | None, b => b end.
Definition take_request (c : nat) (m : machine) : option (Z * machine) :=
  match chans m !! c with
  | Some h => if latched h then Some (irq_of c, put_chan c (set_latched false h) m) else None
  | None => None
  end.

#[global] Instance ata_ports : ports machine := {
  in8 p m := match locate p with
    | Some (c, off) => match chans m !! c with Some h => let '(v, h) := chan_in off h in (v, put_chan c h m) | None => (255, m) end
    | None => (255, m) end;
  out8 p v m := match locate p with
    | Some (c, off) => match chans m !! c with Some h => put_chan c (chan_out (latency m c) off v h) m | None => m end
    | None => m end;
  in16 p m := match locate p with
    | Some (c, 0) => match chans m !! c with Some h => let '(v, h) := chan_in16 h in (v, put_chan c h m) | None => ((255, 255), m) end
    | _ => ((255, 255), m) end;
  out16 p w m := match locate p with
    | Some (c, 0) => match chans m !! c with Some h => put_chan c (chan_out16 (latency m c) w h) m | None => m end
    | _ => m end;
  pass t m := mk_machine (advance t <$> chans m) (latency m);
  request m := match take_request 0 m with Some r => Some r | None => take_request 1 m end;
  next_request m := match foldr (λ h, earliest (will_raise h)) None (chans m) with
    | Some t => Some (mk_machine (advance t <$> chans m) (latency m)) | None => None end }.

(** ** The driver's steps on one channel
    While the other channel is quiet, a step of the driver on channel [c]
    changes that channel, its hardware and the messages only. *)
Definition quiet (h : chan) : Prop := ph h = Idle ∧ latched h = false.
Definition calm (h : chan) : Prop := ph h = Idle ∧ latched h = false ∧ srst h = false.
(** What serving an interrupt request leaves. *)
Definition served (h : chan) : chan := if latched h then set_line false (set_latched false h) else h.
Definition upped (h : chan) (ch : channel) : channel := if latched h then set_completion (completion_wait ch + 1) ch else ch.

Lemma alter_insert_same {A} (f : A → A) (l : list A) i x : (i < length l)%nat → alter f i (<[i:=x]> l) = <[i:=f x]> l.
Proof. revert i. induction l as [|y l IH]; intros [|i] H; simpl in *; try lia; [done|]. f_equal. apply IH. lia. Qed.
Lemma fmap_insert_only {A} (f : A → A) (l : list A) i x :
  (∀ j y, j ≠ i → l !! j = Some y → f y = y) → f <$> <[i:=x]> l = <[i:=f x]> l.
Proof.
  intros H. apply list_eq. intros j. rewrite list_lookup_fmap. destruct (decide (j = i)) as [-> |Hj].
  - destruct (decide (i < length l)%nat); [by rewrite !list_lookup_insert_eq by done|].
    rewrite !list_insert_ge by lia. by rewrite lookup_ge_None_2 by lia.
  - rewrite !list_lookup_insert_ne by done. destruct (l !! j) eqn:E; simpl; [f_equal; eauto|done].
Qed.
Lemma advance_idle t h : ph h = Idle → advance t h = h.
Proof. intros H. unfold advance. rewrite H. by destruct (srst h). Qed.
Lemma served_calm h : latched h = false → served h = h.
Proof. unfold served. by intros ->. Qed.
Lemma upped_calm h ch : latched h = false → upped h ch = ch.
Proof. unfold upped. by intros ->. Qed.

Section registers.
Implicit Types h : chan.
(** *** Registers and commands *)
(** A write of one of the registers 2 to 6. *)
Definition store (off v : Z) (h : chan) : chan :=
  if off =? 2 then set_nsect v h else if off =? 3 then set_lbal v h else if off =? 4 then set_lbam v h
  else if off =? 5 then set_lbah v h else set_device v h.
Lemma chan_out_store lat off v h : absent h = false → 2 <= off <= 6 → chan_out lat off v h = store off v h.
Proof.
  intros Ha Ho. unfold chan_out, store. rewrite Ha. destruct (Z.eqb_spec off 2); [done|]. destruct (Z.eqb_spec off 3); [done|].
  destruct (Z.eqb_spec off 4); [done|]. destruct (Z.eqb_spec off 5); [done|]. destruct (Z.eqb_spec off 6); [done|lia].
Qed.
Lemma store_same off v h : absent (store off v h) = absent h ∧ latched (store off v h) = latched h ∧ ph (store off v h) = ph h ∧ srst (store off v h) = srst h.
Proof. unfold store. by repeat case_match. Qed.
Definition selection (d : nat) : Z := match d with O => DEV_MBS | _ => Z.lor DEV_MBS DEV_DEV end.
Definition selected (d : nat) (h : chan) : chan := if absent h then h else set_device (selection d) h.

Lemma selected_calm d h : calm h → calm (selected d h).
Proof. unfold selected. by destruct (absent h). Qed.
Definition address_of (d : nat) (x : Z) : Z := u8 (Z.lor (Z.lor (Z.lor DEV_MBS DEV_LBA) (match d with O => 0 | _ => DEV_DEV end)) x).
Definition address (d : nat) (sec : Z) : Z := address_of d (Z.shiftr sec 24).
Definition addressed (d : nat) (sec : Z) (h : chan) : chan :=
  set_device (address d sec) (set_lbah (u8 (Z.shiftr sec 16)) (set_lbam (u8 (Z.shiftr sec 8)) (set_lbal (u8 sec) (set_nsect 1
    (set_line false (set_device (selection d) h)))))).
Lemma address_bits d sec : (d < 2)%nat → 0 <= sec < 2 ^ 28 →
  Z.land (address d sec) 15 = Z.shiftr sec 24 ∧ Z.testbit (address d sec) 4 = bool_decide (d = 1%nat).
Proof.
  intros Hd Hs. unfold address. assert (Hx : Z.shiftr sec 24 ∈ seqZ 0 16).
  { apply elem_of_seqZ. rewrite Z.shiftr_div_pow2 by lia. Z.div_mod_to_equations. lia. }
  assert (D : Forall (λ d, Forall (λ x, Z.land (address_of d x) 15 = x ∧ Z.testbit (address_of d x) 4 = bool_decide (d = 1%nat))
    (seqZ 0 16)) [0%nat; 1%nat]) by by_decision.
  rewrite !Forall_forall in D. specialize (D d). rewrite Forall_forall in D. apply D; [|done].
  rewrite elem_of_cons, list_elem_of_singleton. lia.
Qed.
Lemma addressed_lba d sec h : (d < 2)%nat → 0 <= sec < 2 ^ 28 → lba (addressed d sec h) = sec.
Proof.
  intros Hd Hs. unfold lba. simpl. rewrite (proj1 (address_bits d sec Hd Hs)). rewrite !Z.shiftr_div_pow2 by lia. unfold u8.
  Z.div_mod_to_equations. lia.
Qed.
Lemma addressed_sel d sec h : (d < 2)%nat → 0 <= sec < 2 ^ 28 → sel (addressed d sec h) = d.
Proof.
  intros Hd Hs. unfold sel. change (device (addressed d sec h)) with (address d sec). rewrite (proj2 (address_bits d sec Hd Hs)). case_bool_decide; [done|lia].
Qed.
(** The channel once a command is taken, before any time has passed. *)
Definition taken (t : Z) (j : job) (h : chan) : chan := count_command (set_line false (set_ph (Busy t j) h)).
Lemma finish_cases (P : chan → Prop) j h :
  (j = Reset → P (set_error 1 (set_nsect 1 (set_lbal 1 (set_lbam 0 (set_lbah 0 (set_ph Idle h))))))) →
  (j ≠ Reset → disk_at (sel h) h = None → P (set_ph Idle h)) →
  (∀ d, j = Identify → disk_at (sel h) h = Some d → P (raise (set_ph (DataIn (d_ident d)) h))) →
  (∀ d sec, j = ReadJob sec → disk_at (sel h) h = Some d → sec < d_size d → P (raise (set_ph (DataIn (sector_of d sec)) h))) →
  (∀ d sec, j = AcceptWrite sec → disk_at (sel h) h = Some d → sec < d_size d → P (set_ph (DataOut sec []) h)) →
  (∀ d sec data, j = WriteJob sec data → disk_at (sel h) h = Some d →
     P (raise (set_ph Idle (set_disk (sel h) (Some (mk_disk (<[sec := data]> (d_sectors d)) (d_size d) (d_ident d))) h)))) →
  (∀ d sec, j = ReadJob sec ∨ j = AcceptWrite sec → disk_at (sel h) h = Some d → d_size d <= sec → P (refuse h)) →
  P (finish j h).
Proof.
  intros P1 P2 P3 P4 P5 P6 P7. unfold finish. destruct j as [|sec|sec|sec data|]; [..|by apply P1];
    destruct (disk_at (sel h) h) as [d|]; try (by apply P2); [by apply (P3 d)|..|by apply (P6 d)];
    (destruct (Z.ltb_spec sec (d_size d)); [first [by apply (P4 d sec)|by apply (P5 d sec)]|apply (P7 d sec); auto]).
Qed.
Lemma finish_taken t t' j h : finish j (set_ph (Busy t' j) (taken t j h)) = finish j (taken t j h).
Proof.
  unfold finish. change (disk_at (sel (set_ph (Busy t' j) (taken t j h))) (set_ph (Busy t' j) (taken t j h))) with (disk_at (sel h) h).
  change (disk_at (sel (taken t j h)) (taken t j h)) with (disk_at (sel h) h). destruct j; repeat case_match; done.
Qed.
(** A command raises an interrupt when it is done, unless it is a write to a
    sector that is there, which waits for the data. *)
Definition raises (j : job) (h : chan) : Prop :=
  ∃ d, disk_at (sel h) h = Some d ∧ match j with Reset => False | AcceptWrite sec => d_size d <= sec | _ => True end.
Lemma finish_raises t j h : latched h = false → raises j h →
  latched (finish j (taken t j h)) = true ∧ line (finish j (taken t j h)) = true.
Proof.
  intros Hl (d & Ed & Hj). assert (Ed' : disk_at (sel (taken t j h)) (taken t j h) = Some d) by done.
  apply finish_cases; [intros ->; done|congruence| | | | |]; try (by intros; simpl; rewrite Hl).
  intros d' sec -> E'. assert (d' = d) as -> by congruence. lia.
Qed.
Lemma start_cases t j h : 0 <= t → srst h = false → latched h = false →
  (start t j h = finish j (taken t j h) ∧ t = 0) ∨ (start t j h = taken t j h ∧ 0 < t).
Proof.
  intros Ht Hs Hl. unfold start, advance. change (srst (count_command _)) with (srst h). rewrite Hs. simpl.
  destruct (Z.leb_spec t 0); [left; split; [done|lia]|right]. split; [|done]. unfold taken, set_ph. simpl. by rewrite Z.sub_0_r.
Qed.
Lemma advance_taken t t' j h : srst h = false → t <= t' → advance t' (taken t j h) = finish j (taken t j h).
Proof. intros Hs Ht. unfold advance. simpl. rewrite Hs. by rewrite (proj2 (Z.leb_le _ _)). Qed.
End registers.

Lemma served_sel h : sel (served h) = sel h.
Proof. unfold served. by destruct (latched h). Qed.
Lemma served_disk k h : disk_at k (served h) = disk_at k h.
Proof. unfold served. destruct (latched h); [|done]. by destruct k. Qed.
Lemma served_ph h : ph (served h) = ph h.
Proof. unfold served. by destruct (latched h). Qed.

Section steps.
Context (patience scan_fuel : nat) (fails : nat → bool).
Context (c : nat) (chs : list channel) (hs : list chan) (lat : nat → nat → Z) (bl : devices) (vs : list Z).

Record layout : Prop := {
  l_c : (c < 2)%nat;
  l_chs : length chs = 2%nat;
  l_hs : length hs = 2%nat;
  l_vs : irq_of c ∈ vs;
  l_before : ∀ c' ch, (c' < c)%nat → chs !! c' = Some ch → irq ch = irq_of c';
  l_other : ∀ c' h, c' ≠ c → hs !! c' = Some h → quiet h }.
Context (L : layout).
Implicit Types (ch : channel) (h : chan) (ms : list ide_message).

Definition at_ (ch : channel) (h : chan) (ms : list ide_message) : ide machine :=
  mk_ide (<[c := ch]> chs) (mk_machine (<[c := h]> hs) lat) bl true vs ms.
Definition wired (ch : channel) : Prop := irq ch = irq_of c ∧ reg_base ch = base_of c.
Definition is_reg (off : Z) : Prop := 0 <= off <= 7 ∨ off = 0x206.

Lemma locate_reg off : is_reg off → locate (base_of c + off) = Some (c, off).
Proof using L.
  intros Ho. assert (Hin : off ∈ 0x206 :: seqZ 0 8).
  { destruct Ho as [Ho| ->]; apply elem_of_cons; [right; apply elem_of_seqZ; lia|by left]. }
  assert (D : Forall (λ c', Forall (λ off, locate (base_of c' + off) = Some (c', off)) (0x206 :: seqZ 0 8)) [0%nat; 1%nat]) by by_decision.
  pose proof (l_c L). rewrite !Forall_forall in D. specialize (D c). rewrite Forall_forall in D. apply D; [|done].
  rewrite elem_of_cons, list_elem_of_singleton. lia.
Qed.

Lemma get_channel_run ch h ms : get_channel c (at_ ch h ms) = Ret (ch, at_ ch h ms).
Proof using L. destruct L. unfold get_channel, at_. simpl. by rewrite list_lookup_insert_eq by lia. Qed.
Lemma get_disk_run ch h ms d a : c_devices ch !! d = Some a → get_disk c d (at_ ch h ms) = Ret (a, at_ ch h ms).
Proof using L. intros H. unfold get_disk. rewrite (bind_Ret _ _ _ _ _ (get_channel_run ch h ms)). by rewrite H. Qed.
Lemma alter_run f ch h ms : alter_channel f c (at_ ch h ms) = Ret (tt, at_ (f ch) h ms).
Proof using L. destruct L. unfold alter_channel, at_. rewrite modify_run. simpl. by rewrite alter_insert_same by lia. Qed.

Lemma other_calm c' h h' : c' ≠ c → <[c := h']> hs !! c' = Some h → quiet h.
Proof using L. intros Hc H. rewrite list_lookup_insert_ne in H by done. by eapply (l_other L). Qed.

Lemma inb_raw_run ch h ms off : wired ch → is_reg off →
  inb_raw (reg_base ch + off) (at_ ch h ms) = Ret ((chan_in off h).1, at_ ch (chan_in off h).2 ms).
Proof using L.
  intros [_ Hb] Ho. unfold inb_raw, at_, put_hw. simpl. rewrite Hb, locate_reg by done. pose proof (l_c L). pose proof (l_hs L).
  rewrite list_lookup_insert_eq by lia. destruct (chan_in off h) as [v h']. unfold put_chan. simpl. by rewrite list_insert_insert_eq.
Qed.
Lemma ide_handler_run ch h ms : wired ch → expecting_interrupt ch = true →
  interrupt_handler (irq_of c) (at_ ch h ms) = Ret (tt, at_ (set_completion (completion_wait ch + 1) ch) (set_line false h) ms).
Proof using L.
  intros Hw He. assert (K : ∀ n, handler_loop (S n) c (irq_of c) (at_ ch h ms) =
    Ret (tt, at_ (set_completion (completion_wait ch + 1) ch) (set_line false h) ms)).
  { intros n. cbn [handler_loop]. rewrite (bind_Ret _ _ _ _ _ (get_channel_run ch h ms)). pose proof Hw as [-> _].
    rewrite Z.eqb_refl, He. unfold reg_status.
    rewrite (bind_Ret _ _ _ _ _ (inb_raw_run ch h ms 7 Hw ltac:(left; lia))). unfold sema_up. by rewrite alter_run. }
  pose proof (l_c L). unfold interrupt_handler, CHANNEL_CNT. assert (E : c = 0%nat ∨ c = 1%nat) by lia.
  destruct E as [E|E]; rewrite E in *; [apply (K 1%nat)|]. cbn [handler_loop].
  destruct (chs !! 0%nat) as [ch0|] eqn:E0; [|apply lookup_ge_None_1 in E0; pose proof (l_chs L); lia].
  rewrite (bind_Ret _ _ _ ch0 (at_ ch h ms)). 2: { unfold get_channel, at_. simpl. rewrite E, list_lookup_insert_ne by done. by rewrite E0. }
  rewrite (l_before L 0 ch0) by (done || lia). apply (K 0%nat).
Qed.
Lemma serve_run ch h ms : wired ch → (latched h = true → expecting_interrupt ch = true) →
  serve (at_ ch h ms) = Ret (tt, at_ (upped h ch) (served h) ms).
Proof using L.
  intros Hw He. unfold serve, served, upped. cbn [intr_on at_]. pose proof (l_c L) as Hc. pose proof (l_hs L) as Hh.
  assert (R : request (hw (at_ ch h ms)) = if latched h then Some (irq_of c, hw (at_ ch (set_latched false h) ms)) else None).
  { assert (T : take_request c (hw (at_ ch h ms)) = if latched h then Some (irq_of c, hw (at_ ch (set_latched false h) ms)) else None).
    { unfold take_request. simpl. rewrite list_lookup_insert_eq by lia. unfold put_chan. simpl. by rewrite list_insert_insert_eq. }
    assert (N : ∀ c', c' ≠ c → take_request c' (hw (at_ ch h ms)) = None).
    { intros c' Hn. unfold take_request. simpl. destruct (<[c:=h]> hs !! c') eqn:E; [|done].
      by destruct (other_calm _ _ _ Hn E) as [_ ->]. }
    cbn [request ata_ports]. assert (E : c = 0%nat ∨ c = 1%nat) by lia. destruct E as [E|E]; rewrite E in *.
    - rewrite T. destruct (latched h); [done|]. by rewrite N.
    - by rewrite (N 0%nat), T by done. }
  rewrite R. destruct (latched h); [|done]. cbn [vectors at_]. rewrite bool_decide_true by apply (l_vs L).
  apply (ide_handler_run ch (set_latched false h) ms Hw). by apply He.
Qed.

(** Accesses and delays; the interrupt that one of them brings is served. *)
Definition expects (ch : channel) (h : chan) : Prop := latched h = true → expecting_interrupt ch = true.
Lemma inb_run ch h ms off : wired ch → is_reg off → expects ch (chan_in off h).2 →
  inb (reg_base ch + off) (at_ ch h ms) = Ret ((chan_in off h).1, at_ (upped (chan_in off h).2 ch) (served (chan_in off h).2) ms).
Proof using L.
  intros Hw Ho He. unfold inb. rewrite (bind_Ret _ _ _ _ _ (inb_raw_run ch h ms off Hw Ho)).
  by rewrite (bind_Ret _ _ _ _ _ (serve_run _ _ _ Hw He)).
Qed.
Lemma outb_run ch h ms off v : wired ch → is_reg off → expects ch (chan_out (lat c) off (u8 v) h) →
  outb (reg_base ch + off) v (at_ ch h ms) =
    Ret (tt, at_ (upped (chan_out (lat c) off (u8 v) h) ch) (served (chan_out (lat c) off (u8 v) h)) ms).
Proof using L.
  intros Hw Ho He. unfold outb. rewrite modify_bind. rewrite <- (serve_run _ _ _ Hw He). f_equal.
  unfold put_hw, at_. simpl. pose proof (proj2 Hw) as ->. rewrite locate_reg by done. pose proof (l_c L). pose proof (l_hs L).
  rewrite list_lookup_insert_eq by lia. unfold put_chan. simpl. by rewrite list_insert_insert_eq.
Qed.
Lemma inw_run ch h ms : wired ch → expects ch (chan_in16 h).2 →
  inw (reg_base ch + 0) (at_ ch h ms) = Ret ((chan_in16 h).1, at_ (upped (chan_in16 h).2 ch) (served (chan_in16 h).2) ms).
Proof using L.
  intros Hw He. unfold inw. cbn [in16 ata_ports hw at_]. pose proof (proj2 Hw) as ->. rewrite locate_reg by (left; lia).
  pose proof (l_c L). pose proof (l_hs L). cbn [chans]. rewrite list_lookup_insert_eq by lia. destruct (chan_in16 h) as [v h'] eqn:E.
  assert (P : put_hw (put_chan c h' (mk_machine (<[c:=h]> hs) lat)) (at_ ch h ms) = at_ ch h' ms).
  { unfold put_hw, put_chan, at_. simpl. by rewrite list_insert_insert_eq. }
  rewrite P. cbn [fst snd] in *. by rewrite (bind_Ret _ _ _ _ _ (serve_run _ _ _ Hw He)).
Qed.
Lemma outw_run ch h ms w : wired ch → expects ch (chan_out16 (lat c) w h) →
  outw (reg_base ch + 0) w (at_ ch h ms) =
    Ret (tt, at_ (upped (chan_out16 (lat c) w h) ch) (served (chan_out16 (lat c) w h)) ms).
Proof using L.
  intros Hw He. unfold outw. rewrite modify_bind. rewrite <- (serve_run _ _ _ Hw He). f_equal.
  unfold put_hw, at_. simpl. pose proof (proj2 Hw) as ->. rewrite locate_reg by (left; lia). pose proof (l_c L). pose proof (l_hs L).
  rewrite list_lookup_insert_eq by lia. unfold put_chan. simpl. by rewrite list_insert_insert_eq.
Qed.
Lemma advance_all t h : advance t <$> <[c := h]> hs = <[c := advance t h]> hs.
Proof using L. apply fmap_insert_only. intros j y Hj Hy. apply advance_idle. by apply (l_other L j y). Qed.
Lemma nsleep_run ch h ms t : wired ch → expects ch (advance t h) →
  timer_nsleep t (at_ ch h ms) = Ret (tt, at_ (upped (advance t h) ch) (served (advance t h)) ms).
Proof using L.
  intros Hw He. unfold timer_nsleep. rewrite modify_bind. rewrite <- (serve_run _ _ _ Hw He). f_equal.
  unfold put_hw, at_. simpl. by rewrite advance_all.
Qed.
Lemma block_run ch h ms t : wired ch → will_raise h = Some t → expects ch (advance t h) →
  block_until_request (at_ ch h ms) = Ret (tt, at_ (upped (advance t h) ch) (served (advance t h)) ms).
Proof using L.
  intros Hw Ht He. unfold block_until_request.
  assert (F : foldr (λ h, earliest (will_raise h)) None (<[c := h]> hs) = Some t).
  { assert (O : ∀ j y, j ≠ c → hs !! j = Some y → will_raise y = None).
    { intros j y Hj Hy. destruct (l_other L j y Hj Hy) as [Hp _]. unfold will_raise. by rewrite Hp. }
    revert O. pose proof (l_c L) as Hc. rewrite <- (l_hs L) in Hc. revert Hc. clear -Ht. revert c.
    assert (N : ∀ l : list chan, (∀ j y, l !! j = Some y → will_raise y = None) → foldr (λ h, earliest (will_raise h)) None l = None).
    { intros l. induction l as [|y l IH]; intros Hl; [done|]. simpl. rewrite (Hl 0%nat y) by done. apply IH. intros j z. apply (Hl (S j)). }
    induction hs as [|x l IH]; intros [|k] Hk O; simpl in *; try lia.
    - rewrite Ht, N; [done|]. intros j y. by apply (O (S j)).
    - rewrite (O 0%nat x) by done. apply IH; [lia|]. intros j y Hj. apply (O (S j)). lia. }
  cbn [next_request ata_ports hw at_ chans]. rewrite F. cbn [latency]. rewrite advance_all. by apply serve_run.
Qed.

(** *** Steps that bring no interrupt *)
Lemma inb_calm {B} ch h ms off (k : Z → cmd (ide machine) B) : wired ch → is_reg off → latched h = false →
  (inb (reg_base ch + off) ≫= k) (at_ ch h ms) = k (chan_in off h).1 (at_ ch (chan_in off h).2 ms).
Proof using L.
  intros Hw Ho Hl. assert (Hl' : latched (chan_in off h).2 = false) by (unfold chan_in; by destruct (off =? 7)).
  rewrite (bind_Ret _ _ _ _ _ (inb_run ch h ms off Hw Ho ltac:(unfold expects; congruence))).
  by rewrite upped_calm, served_calm.
Qed.
Lemma outb_calm {B} ch h ms off v (k : unit → cmd (ide machine) B) : wired ch → is_reg off →
  latched (chan_out (lat c) off (u8 v) h) = false →
  (outb (reg_base ch + off) v ≫= k) (at_ ch h ms) = k tt (at_ ch (chan_out (lat c) off (u8 v) h) ms).
Proof using L.
  intros Hw Ho Hl. rewrite (bind_Ret _ _ _ _ _ (outb_run ch h ms off v Hw Ho ltac:(unfold expects; congruence))).
  by rewrite upped_calm, served_calm.
Qed.
Lemma nsleep_calm {B} ch h ms t (k : unit → cmd (ide machine) B) : wired ch → latched (advance t h) = false →
  (timer_nsleep t ≫= k) (at_ ch h ms) = k tt (at_ ch (advance t h) ms).
Proof using L.
  intros Hw Hl. rewrite (bind_Ret _ _ _ _ _ (nsleep_run ch h ms t Hw ltac:(unfold expects; congruence))).
  by rewrite upped_calm, served_calm.
Qed.

(** *** Selecting a disk and a sector *)
Lemma outb_store {B} ch h ms off v (k : unit → cmd (ide machine) B) : wired ch → 2 <= off <= 6 → absent h = false → latched h = false →
  (outb (reg_base ch + off) v ≫= k) (at_ ch h ms) = k tt (at_ ch (store off (u8 v) h) ms).
Proof using L.
  intros Hw Ho Ha Hl. rewrite outb_calm; rewrite ?chan_out_store by done; [done|done|left; lia|].
  by destruct (store_same off (u8 v) h) as (_ & -> & _).
Qed.
Definition two_disks (ch : channel) : Prop := ∀ d, (d < 2)%nat → ∃ a, c_devices ch !! d = Some a ∧ dev_no a = Z.of_nat d.
Lemma select_device_run {B} ch h ms d (k : unit → cmd (ide machine) B) : wired ch → two_disks ch → (d < 2)%nat → latched h = false →
  latched (advance 400 (selected d h)) = false →
  (select_device c d ≫= k) (at_ ch h ms) = k tt (at_ ch (advance 400 (selected d h)) ms).
Proof using L.
  intros Hw H2 Hd Hl Ha. destruct (H2 d Hd) as (a & Ea & Na). unfold select_device, reg_device, reg_alt_status, reg_ctl.
  rewrite bind_assoc, (bind_Ret _ _ _ _ _ (get_channel_run ch h ms)), bind_assoc, (bind_Ret _ _ _ _ _ (get_disk_run ch h ms d a Ea)).
  assert (E : chan_out (lat c) 6 (u8 (if dev_no a =? 1 then Z.lor DEV_MBS DEV_DEV else DEV_MBS)) h = selected d h).
  { rewrite Na. unfold chan_out, selected. destruct (absent h); [done|]. destruct d as [|[|]]; [done|done|lia]. }
  rewrite bind_assoc, outb_calm; rewrite ?E; [|done|left; lia|by unfold selected; destruct (absent h)].
  rewrite bind_assoc, inb_calm; [|done|by right|by unfold selected; destruct (absent h)].
  by apply nsleep_calm.
Qed.
Lemma select_calm {B} ch h ms d (k : unit → cmd (ide machine) B) : wired ch → two_disks ch → (d < 2)%nat → calm h →
  (select_device c d ≫= k) (at_ ch h ms) = k tt (at_ ch (selected d h) ms).
Proof using L.
  intros Hw H2 Hd Hc. destruct (selected_calm d h Hc) as (Hp & Hl & _).
  rewrite select_device_run by (done || apply Hc || by rewrite advance_idle). by rewrite advance_idle.
Qed.
Lemma idle_calm {B} ch h ms d (k : unit → cmd (ide machine) B) : wired ch → calm h → absent h = false →
  (wait_until_idle c d ≫= k) (at_ ch h ms) = k tt (at_ ch (set_line false h) ms).
Proof using L.
  intros Hw (Hp & Hl & _) Ha. unfold wait_until_idle. change 1000%nat with (S 999). cbn [idle_loop]. unfold reg_status.
  rewrite bind_assoc, (bind_Ret _ _ _ _ _ (get_channel_run ch h ms)), bind_assoc, inb_calm by (done || left; lia).
  assert (S : Z.land (chan_in 7 h).1 (Z.lor STA_BSY STA_DRQ) =? 0 = true).
  { unfold chan_in, status. simpl. rewrite Hp, Ha. by destruct (disk_at (sel h) h). }
  by rewrite S, ret_bind.
Qed.
Lemma select_wait_calm {B} ch h ms d (k : unit → cmd (ide machine) B) : wired ch → two_disks ch → (d < 2)%nat → calm h → absent h = false →
  (select_device_wait c d ≫= k) (at_ ch h ms) = k tt (at_ ch (set_line false (set_device (selection d) h)) ms).
Proof using L.
  intros Hw H2 Hd Hc Ha. unfold select_device_wait. rewrite bind_assoc, idle_calm by done.
  rewrite bind_assoc, select_calm by done. unfold selected. change (absent (set_line false h)) with (absent h). rewrite Ha.
  by rewrite idle_calm.
Qed.
Lemma select_sector_run {B} ch h ms d sec (k : unit → cmd (ide machine) B) : wired ch → two_disks ch → (d < 2)%nat → calm h → absent h = false →
  sec < 2 ^ 28 → (select_sector c d sec ≫= k) (at_ ch h ms) = k tt (at_ ch (addressed d sec h) ms).
Proof using L.
  intros Hw H2 Hd Hc Ha Hs. unfold select_sector. rewrite bind_assoc, ASSERT_bind by (by apply Z.ltb_lt).
  rewrite bind_assoc, select_wait_calm by done. destruct (H2 d Hd) as (a & Ea & Na).
  rewrite bind_assoc, (bind_Ret _ _ _ _ _ (get_channel_run _ _ _)), bind_assoc, (bind_Ret _ _ _ _ _ (get_disk_run _ _ _ d a Ea)).
  unfold reg_nsect, reg_lbal, reg_lbam, reg_lbah, reg_device.
  do 4 (rewrite bind_assoc, outb_store; [|done|lia|done|apply Hc]). rewrite outb_store; [|done|lia|done|apply Hc].
  f_equal. unfold at_. do 3 f_equal. unfold addressed, address, address_of, store. simpl. rewrite Na. by destruct d as [|[|]]; [| |lia].
Qed.


(** *** Commands *)
Definition done_ (t : Z) (j : job) (h : chan) : chan := served (finish j (taken t j h)).
Lemma get_bind {B} ch h ms (k : channel → cmd (ide machine) B) : (get_channel c ≫= k) (at_ ch h ms) = k ch (at_ ch h ms).
Proof using L. apply bind_Ret, get_channel_run. Qed.
Lemma alter_bind {B} f ch h ms (k : unit → cmd (ide machine) B) : (alter_channel f c ≫= k) (at_ ch h ms) = k tt (at_ (f ch) h ms).
Proof using L. apply bind_Ret, alter_run. Qed.
Lemma completion_down ch : completion_wait ch = 0 → set_completion (completion_wait ch + 1 - 1) ch = ch.
Proof using Type. intros H. destruct ch. unfold set_completion. simpl in *. f_equal. lia. Qed.

(** The semaphore comes down once the command that has been started is done,
    whether its interrupt came before or comes while the thread waits. *)
Lemma sema_started {B} ch h ms t j (k : unit → cmd (ide machine) B) : (0 < patience)%nat → wired ch → expecting_interrupt ch = true →
  completion_wait ch = 0 → 0 <= t → srst h = false → latched h = false → raises j h →
  (sema_down patience c ≫= k) (at_ (upped (start t j h) ch) (served (start t j h)) ms) = k tt (at_ ch (done_ t j h) ms).
Proof using L.
  intros Hp Hw He Hz Ht Hs Hl Hr. destruct (finish_raises t j h Hl Hr) as [Fl Fn]. unfold sema_down.
  assert (U : ∀ n, (sema_wait n c ≫= k) (at_ (set_completion (completion_wait ch + 1) ch) (done_ t j h) ms) = k tt (at_ ch (done_ t j h) ms)).
  { intros n. destruct n; cbn [sema_wait]; rewrite bind_assoc, get_bind; cbn [completion_wait set_completion]; rewrite Hz; simpl;
      rewrite alter_bind; do 3 f_equal; rewrite <- (completion_down ch Hz) at 2; unfold set_completion; simpl; by rewrite Hz. }
  destruct (start_cases t j h Ht Hs Hl) as [[-> _]|[-> Htt]].
  - unfold upped. rewrite Fl. apply U.
  - assert (T : latched (taken t j h) = false) by done. rewrite (upped_calm _ _ T), (served_calm _ T).
    destruct patience as [|n]; [lia|]. cbn [sema_wait]. rewrite bind_assoc, get_bind. rewrite Hz. cbn [Z.eqb]. rewrite bind_assoc.
    assert (W : will_raise (taken t j h) = Some t).
    { unfold will_raise. change (ph (taken t j h)) with (Busy t j). change (srst (taken t j h)) with (srst h). by rewrite Hs, Fn. }
    assert (A : advance t (taken t j h) = finish j (taken t j h)) by (apply advance_taken; [done|lia]).
    rewrite (bind_Ret _ _ _ _ _ (block_run ch _ ms t Hw W ltac:(by intros _))). rewrite A. unfold upped. rewrite Fl. apply U.
Qed.

Lemma upped_wired h ch : wired ch → wired (upped h ch).
Proof using Type. unfold upped. destruct (latched h); [|done]. intros [? ?]. by split. Qed.
Lemma upped_two h ch : two_disks ch → two_disks (upped h ch).
Proof using Type. unfold upped. by destruct (latched h). Qed.
(** Polling until the device is not busy. *)
Lemma poll_done n d ch h ms : wired ch → two_disks ch → (d < 2)%nat → absent h = false → Z.land (status h) STA_BSY = 0 → latched h = false →
  ∃ ms', busy_loop (S n) c d (at_ ch h ms) = Ret (negb (Z.land (status h) STA_DRQ =? 0), at_ ch h ms').
Proof using L.
  intros Hw H2 Hd Ha Hb Hl. cbn [busy_loop]. destruct (H2 d Hd) as (a & Ea & Na).
  assert (M : ∃ ms1, (if (S n =? 3000 - 700)%nat then a ← get_disk c d; put_msg (BusyWaiting (d_name a)) else mret tt) (at_ ch h ms) =
    Ret (tt, at_ ch h ms1)).
  { destruct (_ =? _)%nat; [|by eexists]. rewrite (bind_Ret _ _ _ _ _ (get_disk_run ch h ms d a Ea)). by eexists. }
  destruct M as [ms1 ->%(bind_Ret _ (λ _, _))]. rewrite get_bind. unfold reg_alt_status, reg_ctl.
  assert (R : chan_in 0x206 h = (status h, h)) by (unfold chan_in; simpl; by rewrite Ha).
  rewrite inb_calm, R by (done || by right). cbn [fst snd]. rewrite Hb. cbn [Z.eqb].
  assert (M : ∃ ms2, (if (S n <=? 3000 - 700)%nat then put_msg WaitOk else mret tt) (at_ ch h ms1) = Ret (tt, at_ ch h ms2)).
  { destruct (_ <=? _)%nat; by eexists. }
  destruct M as [ms2 ->%(bind_Ret _ (λ _, _))]. exists ms2. rewrite inb_calm, R by (done || by right). done.
Qed.
Lemma status_busy t j h d : disk_at (sel h) h = Some d → ph h = Busy t j → status h = 0x80.
Proof using Type. intros Hd Hp. unfold status. by rewrite Hd, Hp. Qed.
Lemma present_not_absent d k h : disk_at k h = Some d → absent h = false.
Proof using Type. unfold absent. destruct k; simpl; intros ->; [done|]. by destruct (master h). Qed.
(** A device with a disk is not busy once it has finished. *)
Lemma finish_idle j h d : disk_at (sel h) h = Some d →
  absent (served (finish j h)) = false ∧ Z.land (status (served (finish j h))) STA_BSY = 0 ∧ latched (served (finish j h)) = false ∧
  srst (served (finish j h)) = srst h ∧ ∀ t j', ph (served (finish j h)) ≠ Busy t j'.
Proof using Type.
  intros Hd. assert (K : ∀ x d', disk_at (sel x) x = Some d' → srst x = srst h → (∀ t j, ph x ≠ Busy t j) →
    absent (served x) = false ∧ Z.land (status (served x)) STA_BSY = 0 ∧ latched (served x) = false ∧ srst (served x) = srst h ∧
    ∀ t j', ph (served x) ≠ Busy t j').
  { intros x d' Hx Hs Hp. assert (S : status (served x) = status x) by (unfold served; by destruct (latched x)).
    rewrite S. split_and!; [unfold served; destruct (latched x); by eapply present_not_absent| | | |].
    - unfold status. rewrite Hx. destruct (ph x) eqn:E; try done. by destruct (Hp t j0).
    - unfold served. by destruct (latched x) eqn:E.
    - unfold served. by destruct (latched x).
    - unfold served. by destruct (latched x). }
  apply finish_cases; try (by intros; apply (K _ d)). intros d0 sec data _ _.
  apply (K _ (mk_disk (<[sec:=data]> (d_sectors d0)) (d_size d0) (d_ident d0))); [|done|done].
  change (sel (raise _)) with (sel h). unfold sel. destruct (Z.testbit (device h) 4); done.
Qed.

Lemma busy_loop_run n d ch h t j ms : wired ch → two_disks ch → (d < 2)%nat → (∃ dk, disk_at (sel h) h = Some dk) → ph h = Busy t j →
  srst h = false → latched h = false → 0 < t <= (Z.of_nat n - 1) * 10000000 →
  (∀ h', h' = h ∨ (∃ t', h' = set_ph (Busy t' j) h) → expects ch (finish j h')) →
  ∃ ms' h', (h' = h ∨ ∃ t', h' = set_ph (Busy t' j) h) ∧ let f := finish j h' in
    busy_loop n c d (at_ ch h ms) = Ret (negb (Z.land (status (served f)) STA_DRQ =? 0), at_ (upped f ch) (served f) ms').
Proof using L.
  intros Hw H2 Hd [dk Hk]. revert h t ms Hk. induction n as [|n IH]; intros h t ms Hk Hp Hs Hl Ht He; [lia|].
  cbn [busy_loop]. destruct (H2 d Hd) as (a & Ea & Na).
  assert (M : ∃ ms1, (if (S n =? 3000 - 700)%nat then a ← get_disk c d; put_msg (BusyWaiting (d_name a)) else mret tt) (at_ ch h ms) =
    Ret (tt, at_ ch h ms1)).
  { destruct (_ =? _)%nat; [|by eexists]. rewrite (bind_Ret _ _ _ _ _ (get_disk_run ch h ms d a Ea)). by eexists. }
  destruct M as [ms1 E1]. rewrite (bind_Ret _ _ _ _ _ E1), get_bind. unfold reg_alt_status, reg_ctl.
  assert (R : chan_in 0x206 h = (0x80, h)).
  { unfold chan_in. simpl. by rewrite (present_not_absent _ _ _ Hk), (status_busy t j h dk). }
  rewrite inb_calm, R by (done || by right). cbn [fst snd]. change (Z.land 0x80 STA_BSY =? 0) with false. cbv iota.
  assert (A : advance (10 * 1000000) h = if t <=? 10000000 then finish j h else set_ph (Busy (t - 10000000) j) h).
  { unfold advance. by rewrite Hs, Hp. }
  unfold timer_msleep. destruct (Z.leb_spec t 10000000).
  - rewrite (bind_Ret _ _ _ _ _ (nsleep_run ch h ms1 _ Hw ltac:(rewrite A; by apply He; left))), A.
    destruct (finish_idle j h dk Hk) as (Fa & Fb & Fl & _). destruct n as [|n]; [lia|].
    destruct (poll_done n d (upped (finish j h) ch) (served (finish j h)) ms1) as [ms2 E2]; try done; [by apply upped_wired|by apply upped_two|].
    exists ms2, h. split; [by left|exact E2].
  - rewrite nsleep_calm by (done || by rewrite A). rewrite A.
    destruct (IH (set_ph (Busy (t - 10000000) j) h) (t - 10000000) ms1) as (ms2 & h' & Hh & E2); try done; [lia| |].
    { intros h' [-> |[t' ->]]; apply He; right; by eexists. }
    exists ms2, h'. split; [|exact E2]. right. destruct Hh as [-> |[t' ->]]; by eexists.
Qed.

(** Waiting for a command that has been started. *)
Lemma wait_started d ch h t j ms : wired ch → two_disks ch → (d < 2)%nat → (∃ dk, disk_at (sel h) h = Some dk) →
  srst h = false → latched h = false → 0 <= t <= 29990000000 → (∀ h', expects ch (finish j h')) →
  ∃ ms', wait_while_busy c d (at_ (upped (start t j h) ch) (served (start t j h)) ms) =
    Ret (negb (Z.land (status (done_ t j h)) STA_DRQ =? 0), at_ (upped (finish j (taken t j h)) ch) (done_ t j h) ms').
Proof using L.
  intros Hw H2 Hd [dk Hk] Hs Hl Ht He. unfold wait_while_busy. destruct (start_cases t j h ltac:(lia) Hs Hl) as [[-> _]|[-> Htt]].
  - destruct (finish_idle j (taken t j h) dk Hk) as (Fa & Fb & Fl & _).
    apply (poll_done 2999); try done; [by apply upped_wired|by apply upped_two].
  - assert (T : latched (taken t j h) = false) by done. rewrite (upped_calm _ _ T), (served_calm _ T).
    destruct (busy_loop_run 3000 d ch (taken t j h) t j ms) as (ms' & h' & Hh & E); try done; [by exists dk|lia|].
    exists ms'. unfold done_. assert (F : finish j h' = finish j (taken t j h)) by (destruct Hh as [-> |[t' ->]]; [done|apply finish_taken]).
    cbv zeta in E. by rewrite F in E.
Qed.

(** *** Transfers *)
Lemma insw_run ch h ms n l : wired ch → latched h = false → ph h = DataIn l → length l = (2 * S n)%nat →
  insw (reg_base ch + 0) (S n) (at_ ch h ms) = Ret (l, at_ ch (set_ph Idle h) ms).
Proof using L.
  intros Hw. revert h l. induction n as [|n IH]; intros h l Hl Hp Hn; destruct l as [|lo [|hi l]]; simpl in Hn; try lia.
  - destruct l; [|simpl in Hn; lia]. cbn [insw].
    assert (E : chan_in16 h = ((lo, hi), set_ph Idle h)) by (unfold chan_in16; by rewrite Hp).
    rewrite (bind_Ret _ _ _ _ _ (inw_run ch h ms Hw ltac:(unfold expects; rewrite E; simpl; congruence))).
    rewrite E. cbn [fst snd]. by rewrite upped_calm, served_calm.
  - destruct l as [|x l]; [simpl in Hn; lia|]. cbn [insw].
    assert (E : chan_in16 h = ((lo, hi), set_ph (DataIn (x :: l)) h)) by (unfold chan_in16; by rewrite Hp).
    rewrite (bind_Ret _ _ _ _ _ (inw_run ch h ms Hw ltac:(unfold expects; rewrite E; simpl; congruence))).
    rewrite E. cbn [fst snd]. rewrite upped_calm, served_calm by done.
    pose proof (IH (set_ph (DataIn (x :: l)) h) (x :: l) Hl eq_refl ltac:(simpl in *; lia)) as R. cbn [insw] in R.
    rewrite (bind_Ret _ _ _ _ _ R). done.
Qed.
Lemma outsw_run ch h ms sec n acc l t : wired ch → expecting_interrupt ch = true → srst h = false → latched h = false → ph h = DataOut sec acc →
  length l = (2 * S n)%nat → (length acc + length l = 512)%nat → t = lat c (commands h) → 
  outsw (reg_base ch + 0) l (S n) (at_ ch h ms) =
    Ret (tt, at_ (upped (start t (WriteJob sec (acc ++ l)) h) ch) (served (start t (WriteJob sec (acc ++ l)) h)) ms).
Proof using L.
  intros Hw Hx Hs. revert h acc l Hs. induction n as [|n IH]; intros h acc l Hs Hl Hp Hn Ha Ht; destruct l as [|lo [|hi l]]; simpl in Hn; try lia.
  - destruct l; [|simpl in Hn; lia]. cbn [outsw].
    assert (E : chan_out16 (lat c) (lo, hi) h = start t (WriteJob sec (acc ++ [lo; hi])) h).
    { unfold chan_out16. rewrite Hp. cbn [fst snd]. rewrite length_app. simpl in *. by rewrite (proj2 (Nat.eqb_eq _ _)), Ht by lia. }
    rewrite (bind_Ret _ _ _ _ _ (outw_run ch h ms _ Hw ltac:(by intros _))). by rewrite E.
  - destruct l as [|x l]; [simpl in Hn; lia|]. cbn [outsw].
    assert (E : chan_out16 (lat c) (lo, hi) h = set_ph (DataOut sec (acc ++ [lo; hi])) h).
    { unfold chan_out16. rewrite Hp. cbn [fst snd]. rewrite length_app. simpl in *. by rewrite (proj2 (Nat.eqb_neq _ _)) by lia. }
    rewrite (bind_Ret _ _ _ _ _ (outw_run ch h ms _ Hw ltac:(by intros _))). rewrite E, upped_calm, served_calm by done.
    pose proof (IH (set_ph (DataOut sec (acc ++ [lo; hi])) h) (acc ++ [lo; hi]) (x :: l) Hs Hl eq_refl) as R. cbn [outsw] in R.
    rewrite R; [|simpl in *; lia|rewrite length_app; simpl in *; lia|done]. rewrite <- !app_assoc. done.
Qed.

(** *** Reading and writing *)
Definition idle_channel (ch : channel) : Prop := lock ch = false ∧ completion_wait ch = 0.
Definition used_channel (ch : channel) : channel := set_expecting true ch.
Context (Hlat : ∀ k, 0 <= lat c k <= 29990000000).

Lemma chan_out_command v h t j d : disk_at (sel h) h = Some d → ph h = Idle → nsect h = 1 → t = lat c (commands h) →
  (v = CMD_IDENTIFY_DEVICE ∧ j = Identify ∨ v = CMD_READ_SECTOR_RETRY ∧ j = ReadJob (lba h) ∨ v = CMD_WRITE_SECTOR_RETRY ∧ j = AcceptWrite (lba h)) →
  chan_out (lat c) 7 (u8 v) h = start t j h.
Proof using Type.
  intros Hd Hp Hn -> Hv. unfold chan_out. rewrite (present_not_absent _ _ _ Hd), Hd, Hp, Hn. by destruct Hv as [[-> ->]|[[-> ->]|[-> ->]]].
Qed.
Lemma issue_run {B} v ch h ms t j (k : unit → cmd (ide machine) B) : wired ch → chan_out (lat c) 7 (u8 v) h = start t j h →
  (issue_pio_command c v ≫= k) (at_ ch h ms) = k tt (at_ (upped (start t j h) (used_channel ch)) (served (start t j h)) ms).
Proof using L.
  intros Hw E. unfold issue_pio_command. rewrite bind_assoc, gets_bind, bind_assoc, ASSERT_bind by done.
  rewrite bind_assoc, alter_bind, bind_assoc, get_bind. unfold reg_command, reg_status.
  change (reg_base (set_expecting true ch)) with (reg_base (used_channel ch)).
  rewrite (bind_Ret _ _ _ _ _ (outb_run (used_channel ch) h ms 7 v Hw ltac:(left; lia) ltac:(by intros _))). by rewrite E.
Qed.
Lemma ide_release_run ch h ms : lock_release c (at_ (set_lock true ch) h ms) = Ret (tt, at_ (set_lock false ch) h ms).
Proof using L. unfold lock_release. rewrite get_bind, ASSERT_bind by done. exact (alter_run (set_lock false) (set_lock true ch) h ms). Qed.
Lemma acquire_bind {B} ch h ms (k : unit → cmd (ide machine) B) : lock ch = false →
  (lock_acquire c ≫= k) (at_ ch h ms) = k tt (at_ (set_lock true ch) h ms).
Proof using L. intros Hl. unfold lock_acquire. rewrite bind_assoc, get_bind, Hl. apply alter_bind. Qed.

Definition after_read (d : nat) (sec : Z) (h : chan) : chan :=
  set_ph Idle (done_ (lat c (commands h)) (ReadJob sec) (addressed d sec h)).
Lemma ide_read_run d sec ch h ms dk : (0 < patience)%nat → wired ch → two_disks ch → idle_channel ch → (d < 2)%nat → calm h →
  disk_at d h = Some dk → 0 <= sec < 2 ^ 28 → sec < d_size dk → length (sector_of dk sec) = 512%nat →
  ∃ ms', ide_read patience c d sec (at_ ch h ms) = Ret (sector_of dk sec, at_ (used_channel ch) (after_read d sec h) ms').
Proof using L Hlat.
  intros Hp Hw H2 [Hk Hz] Hd Hc Hdk Hs Hsz Hlen. set (h1 := addressed d sec h). set (t := lat c (commands h)).
  assert (Hsel : sel h1 = d) by (by apply addressed_sel). assert (D1 : disk_at (sel h1) h1 = Some dk) by (rewrite Hsel; by destruct d).
  assert (E1 : chan_out (lat c) 7 (u8 CMD_READ_SECTOR_RETRY) h1 = start t (ReadJob sec) h1).
  { eapply chan_out_command; [done|apply Hc|done|done|]. right; left. split; [done|]. unfold h1. by rewrite addressed_lba. }
  unfold ide_read. rewrite acquire_bind by done. rewrite select_sector_run by (done || lia || by eapply present_not_absent).
  rewrite (issue_run _ (set_lock true ch) h1 ms t _ _ Hw E1). pose proof Hc as (Hc1 & Hc2 & Hc3).
  rewrite sema_started; [|done|done|done|done|apply Hlat|done|done|by exists dk]. 
  set (h2 := done_ t (ReadJob sec) h1).
  assert (F : finish (ReadJob sec) (taken t (ReadJob sec) h1) = raise (set_ph (DataIn (sector_of dk sec)) (taken t (ReadJob sec) h1))).
  { unfold finish. change (disk_at (sel (taken t (ReadJob sec) h1)) (taken t (ReadJob sec) h1)) with (disk_at (sel h1) h1). rewrite D1.
    by rewrite (proj2 (Z.ltb_lt _ _)). }
  destruct (finish_idle (ReadJob sec) (taken t (ReadJob sec) h1) dk D1) as (Fa & Fb & Fl & Fs & _).
  change (served (finish (ReadJob sec) (taken t (ReadJob sec) h1))) with h2 in *.
  assert (P2 : ph h2 = DataIn (sector_of dk sec)) by (unfold h2, done_; by rewrite served_ph, F).
  assert (S2 : disk_at (sel h2) h2 = Some dk) by (unfold h2, done_; rewrite served_sel, served_disk, F; exact D1).
  destruct (poll_done 2999 d (used_channel (set_lock true ch)) h2 ms) as [ms' E2]; try done.
  rewrite (bind_Ret _ _ _ _ _ E2).
  assert (St : negb (Z.land (status h2) STA_DRQ =? 0) = true) by (unfold status; by rewrite S2, P2).
  rewrite St. unfold input_sector. rewrite bind_assoc, get_bind. unfold reg_data.
  rewrite (bind_Ret _ _ _ _ _ (insw_run (used_channel (set_lock true ch)) h2 ms' 255 _ Hw Fl P2 Hlen)).
  change (used_channel (set_lock true ch)) with (set_lock true (used_channel ch)). rewrite (bind_Ret _ _ _ _ _ (ide_release_run _ _ _)).
  exists ms'. unfold after_read. fold t h1 h2. unfold mret, cmd_ret. do 3 f_equal. unfold used_channel, set_lock, set_expecting. by rewrite <- Hk.
Qed.

(** What a started read or write leaves, when it is done. *)
Lemma finish_at j t h dk : disk_at (sel h) h = Some dk →
  finish j (taken t j h) = match j with
    | Identify => raise (set_ph (DataIn (d_ident dk)) (taken t j h))
    | ReadJob sec => if sec <? d_size dk then raise (set_ph (DataIn (sector_of dk sec)) (taken t j h)) else refuse (taken t j h)
    | AcceptWrite sec => if sec <? d_size dk then set_ph (DataOut sec []) (taken t j h) else refuse (taken t j h)
    | WriteJob sec data =>
        raise (set_ph Idle (set_disk (sel h) (Some (mk_disk (<[sec := data]> (d_sectors dk)) (d_size dk) (d_ident dk))) (taken t j h)))
    | Reset => finish Reset (taken t j h)
    end.
Proof using Type.
  intros Hd. unfold finish. change (disk_at (sel (taken t j h)) (taken t j h)) with (disk_at (sel h) h). rewrite Hd. by destruct j.
Qed.
Definition accepted (d : nat) (sec : Z) (h : chan) : chan := done_ (lat c (commands h)) (AcceptWrite sec) (addressed d sec h).
Definition after_write (d : nat) (sec : Z) (data : list Z) (h : chan) : chan :=
  done_ (lat c (S (commands h))) (WriteJob sec data) (accepted d sec h).
Lemma accepted_run d sec h dk : (d < 2)%nat → calm h → disk_at d h = Some dk → 0 <= sec < 2 ^ 28 → sec < d_size dk →
  let h2 := accepted d sec h in sel h2 = d ∧ disk_at d h2 = Some dk ∧ ph h2 = DataOut sec [] ∧ latched h2 = false ∧ srst h2 = false ∧
    commands h2 = S (commands h) ∧ master h2 = master h ∧ slave h2 = slave h.
Proof using Type.
  intros Hd (Hp & Hl & Hr) Hdk Hs Hsz h2. set (h1 := addressed d sec h). set (t := lat c (commands h)).
  assert (Hsel : sel h1 = d) by (by apply addressed_sel). assert (D1 : disk_at (sel h1) h1 = Some dk) by (rewrite Hsel; by destruct d).
  assert (E : h2 = set_ph (DataOut sec []) (taken t (AcceptWrite sec) h1)).
  { unfold h2, accepted, done_. fold t h1. rewrite (finish_at _ _ _ dk D1), (proj2 (Z.ltb_lt _ _)) by done. by apply served_calm. }
  rewrite E. split_and!; done.
Qed.
Lemma ide_write_run d sec data ch h ms dk : (0 < patience)%nat → wired ch → two_disks ch → idle_channel ch → (d < 2)%nat → calm h →
  disk_at d h = Some dk → 0 <= sec < 2 ^ 28 → sec < d_size dk → length data = 512%nat →
  ∃ ms', ide_write patience c d sec data (at_ ch h ms) = Ret (tt, at_ (used_channel ch) (after_write d sec data h) ms').
Proof using L Hlat.
  intros Hp Hw H2 [Hk Hz] Hd Hc Hdk Hs Hsz Hlen. set (h1 := addressed d sec h). set (t := lat c (commands h)). set (h2 := accepted d sec h).
  assert (Hsel : sel h1 = d) by (by apply addressed_sel). assert (D1 : disk_at (sel h1) h1 = Some dk) by (rewrite Hsel; by destruct d).
  assert (E1 : chan_out (lat c) 7 (u8 CMD_WRITE_SECTOR_RETRY) h1 = start t (AcceptWrite sec) h1).
  { eapply chan_out_command; [done|apply Hc|done|done|]. right; right. split; [done|]. unfold h1. by rewrite addressed_lba. }
  unfold ide_write. rewrite acquire_bind by done. rewrite select_sector_run by (done || lia || by eapply present_not_absent).
  rewrite (issue_run _ (set_lock true ch) h1 ms t _ _ Hw E1). pose proof Hc as (Hc1 & Hc2 & Hc3).
  destruct (accepted_run d sec h dk Hd Hc Hdk Hs Hsz) as (A1 & A2 & A3 & A4 & A5 & A6 & _). fold h2 in A1, A2, A3, A4, A5, A6.
  destruct (wait_started d (used_channel (set_lock true ch)) h1 t (AcceptWrite sec) ms) as [ms1 W]; try done; [by exists dk|apply Hlat|].
  rewrite (bind_Ret _ _ _ _ _ W). assert (Eh : done_ t (AcceptWrite sec) h1 = h2) by (unfold h2, accepted; done). rewrite Eh.
  assert (U : latched (finish (AcceptWrite sec) (taken t (AcceptWrite sec) h1)) = false).
  { rewrite (finish_at _ _ _ dk D1), (proj2 (Z.ltb_lt _ _)) by done. done. }
  rewrite upped_calm by done.
  assert (St : negb (Z.land (status h2) STA_DRQ =? 0) = true) by (unfold status; by rewrite A1, A2, A3).
  rewrite St. unfold output_sector. rewrite bind_assoc, get_bind. unfold reg_data.
  rewrite (bind_Ret _ _ _ _ _ (outsw_run (used_channel (set_lock true ch)) h2 ms1 sec 255 [] data _ Hw eq_refl A5 A4 A3 Hlen ltac:(simpl; lia) eq_refl)).
  rewrite A6, sema_started; [|done|done|done|done|apply Hlat|done|done|by exists dk; rewrite A1].
  exists ms1. change (used_channel (set_lock true ch)) with (set_lock true (used_channel ch)). rewrite ide_release_run.
  unfold after_write. do 3 f_equal. unfold used_channel, set_lock, set_expecting. by rewrite <- Hk.
Qed.

(** A sector past the end of the disk stops the kernel, and so does an address
    of more than 28 bits. *)
Lemma refused_status t j h dk : disk_at (sel h) h = Some dk → finish j (taken t j h) = refuse (taken t j h) →
  negb (Z.land (status (done_ t j h)) STA_DRQ =? 0) = false.
Proof using Type.
  intros Hd E. unfold done_. rewrite E.
  assert (K : ∀ x, disk_at (sel x) x = Some dk → negb (Z.land (status (served (refuse x))) STA_DRQ =? 0) = false).
  { intros x Hx. unfold status. rewrite served_sel, served_disk, served_ph.
    change (disk_at (sel (refuse x)) (refuse x)) with (disk_at (sel x) x). by rewrite Hx. }
  by apply K.
Qed.
Lemma ide_past_end d sec data ch h ms dk : (0 < patience)%nat → wired ch → two_disks ch → idle_channel ch → (d < 2)%nat → calm h →
  disk_at d h = Some dk → d_size dk <= sec → 0 <= sec < 2 ^ 28 →
  ide_read patience c d sec (at_ ch h ms) = Err KernelPanic ∧ ide_write patience c d sec data (at_ ch h ms) = Err KernelPanic.
Proof using L Hlat.
  intros Hp Hw H2 [Hk Hz] Hd Hc Hdk Hsz Hs. assert (La : absent h = false) by (by eapply present_not_absent).
  set (ch1 := set_lock true ch). assert (Hw1 : wired ch1) by (destruct Hw; by split). assert (H21 : two_disks ch1) by exact H2.
  assert (Hz1 : completion_wait (used_channel ch1) = 0) by exact Hz.
  unfold ide_read, ide_write. rewrite !acquire_bind, !select_sector_run by (done || lia). fold ch1.
  assert (Hsel : sel (addressed d sec h) = d) by (by apply addressed_sel). pose proof (addressed_lba d sec h Hd Hs) as Hlba.
  assert (D1 : disk_at (sel (addressed d sec h)) (addressed d sec h) = Some dk) by (rewrite Hsel; by destruct d).
  assert (C1 : calm (addressed d sec h)) by exact Hc. assert (N1 : nsect (addressed d sec h) = 1) by done.
  revert Hsel Hlba D1 C1 N1. generalize (addressed d sec h). intros h1 Hsel Hlba D1 (C1 & C2 & C3) N1.
  pose proof (Hlat (commands h1)) as Ht. set (t := lat c (commands h1)) in *.
  assert (F : ∀ j, j = ReadJob sec ∨ j = AcceptWrite sec → finish j (taken t j h1) = refuse (taken t j h1)).
  { intros j Hj. rewrite (finish_at _ _ _ dk D1). destruct Hj as [-> | ->]; by rewrite (proj2 (Z.ltb_ge _ _)). }
  assert (E : ∀ v j, v = CMD_READ_SECTOR_RETRY ∧ j = ReadJob sec ∨ v = CMD_WRITE_SECTOR_RETRY ∧ j = AcceptWrite sec →
    chan_out (lat c) 7 (u8 v) h1 = start t j h1).
  { intros v j Hv. eapply chan_out_command; [done..|]. rewrite Hlba. by right. }
  rewrite (issue_run _ ch1 h1 ms t _ _ Hw1 (E _ (ReadJob sec) ltac:(by left))).
  rewrite (issue_run _ ch1 h1 ms t _ _ Hw1 (E _ (AcceptWrite sec) ltac:(by right))). clearbody t. split.
  - rewrite sema_started; [|done|done|done|done|lia|done|done|by exists dk].
    destruct (finish_idle (ReadJob sec) (taken t (ReadJob sec) h1) dk D1) as (Fa & Fb & Fl & _).
    destruct (poll_done 2999 d (used_channel ch1) (done_ t (ReadJob sec) h1) ms) as [ms' E2]; try done.
    rewrite (bind_Ret _ _ _ _ _ E2), (refused_status _ _ _ dk) by auto. done.
  - destruct (wait_started d (used_channel ch1) h1 t (AcceptWrite sec) ms) as [ms1 W]; try done; [by exists dk|].
    rewrite (bind_Ret _ _ _ _ _ W), (refused_status _ _ _ dk) by auto. done.
Qed.
Lemma ide_address d sec data ch h ms : idle_channel ch → 2 ^ 28 <= sec →
  ide_read patience c d sec (at_ ch h ms) = Err AssertFail ∧ ide_write patience c d sec data (at_ ch h ms) = Err AssertFail.
Proof using L.
  intros [Hk _] Hs. unfold ide_read, ide_write. rewrite !acquire_bind by done. unfold select_sector.
  by rewrite !bind_assoc, !ASSERT_bind_fail by (by apply Z.ltb_ge).
Qed.

Lemma after_read_same d sec h dk : (d < 2)%nat → calm h → disk_at d h = Some dk → 0 <= sec < 2 ^ 28 → sec < d_size dk →
  calm (after_read d sec h) ∧ master (after_read d sec h) = master h ∧ slave (after_read d sec h) = slave h.
Proof using Type.
  intros Hd (Hp & Hl & Hr) Hdk Hs Hsz. assert (Hsel : sel (addressed d sec h) = d) by (by apply addressed_sel).
  assert (D1 : disk_at (sel (addressed d sec h)) (addressed d sec h) = Some dk) by (rewrite Hsel; by destruct d).
  unfold after_read, done_. rewrite (finish_at _ _ _ dk D1), (proj2 (Z.ltb_lt _ _)) by done.
  set (r := raise _). assert (Lr : latched r = true) by (unfold r; simpl; by rewrite Hl). unfold served, calm. by rewrite Lr.
Qed.
Lemma written_disks t d sec data h dk : sel h = d → (d < 2)%nat → disk_at d h = Some dk → latched h = false → srst h = false →
  calm (done_ t (WriteJob sec data) h) ∧ ∀ d', disk_at d' (done_ t (WriteJob sec data) h) =
    if decide ((d' =? 0)%nat = (d =? 0)%nat) then Some (mk_disk (<[sec := data]> (d_sectors dk)) (d_size dk) (d_ident dk)) else disk_at d' h.
Proof using Type.
  intros Hsel Hd Hdk Hl Hr. unfold done_. rewrite (finish_at _ _ _ dk) by (by rewrite Hsel). rewrite Hsel. split.
  - set (r := raise _). assert (Lr : latched r = true) by (unfold r; simpl; by rewrite Hl). unfold served, calm. by rewrite Lr.
  - intros d'. rewrite served_disk. by destruct d as [|[|]]; [| |lia]; destruct d' as [|d'].
Qed.
Lemma after_write_disks d sec data h dk : (d < 2)%nat → calm h → disk_at d h = Some dk → 0 <= sec < 2 ^ 28 → sec < d_size dk →
  calm (after_write d sec data h) ∧ ∀ d', disk_at d' (after_write d sec data h) =
    if decide ((d' =? 0)%nat = (d =? 0)%nat) then Some (mk_disk (<[sec := data]> (d_sectors dk)) (d_size dk) (d_ident dk)) else disk_at d' h.
Proof using Type.
  intros Hd Hc Hdk Hs Hsz. destruct (accepted_run d sec h dk Hd Hc Hdk Hs Hsz) as (A1 & A2 & _ & A4 & A5 & _ & A7 & A8).
  destruct (written_disks (lat c (S (commands h))) d sec data (accepted d sec h) dk A1 Hd A2 A4 A5) as [W1 W2].
  split; [exact W1|]. intros d'. unfold after_write. rewrite W2. case_decide; [done|]. destruct d'; [exact A7|exact A8].
Qed.
End steps.

(** ** The driver and the disks *)
Record disk_ok (dk : disk) : Prop := {
  k_size : 0 <= d_size dk <= 2 ^ 28;
  k_sectors : ∀ sec, length (sector_of dk sec) = 512%nat;
  k_ident : length (d_ident dk) = 512%nat }.
Definition put_sector (sec : Z) (data : list Z) (dk : disk) : disk := mk_disk (<[sec := data]> (d_sectors dk)) (d_size dk) (d_ident dk).
Definition disk_of (c d : nat) (x : ide machine) : option disk := chans (hw x) !! c ≫= disk_at d.
(** Commands take at most 29.99 seconds. *)
Definition timely (m : machine) : Prop := ∀ c k, 0 <= latency m c k <= 29990000000.
(** Between two calls of the driver. *)
Record ready (x : ide machine) : Prop := {
  r_on : intr_on x = true;
  r_vs : ∀ c, (c < 2)%nat → irq_of c ∈ vectors x;
  r_chs : length (channels x) = 2%nat;
  r_hs : length (chans (hw x)) = 2%nat;
  r_lat : timely (hw x);
  r_ch : ∀ c ch, channels x !! c = Some ch → wired c ch ∧ two_disks ch ∧ idle_channel ch;
  r_hw : ∀ c h, chans (hw x) !! c = Some h → calm h;
  r_disk : ∀ c d dk, disk_of c d x = Some dk → disk_ok dk }.

Lemma put_sector_ok sec data dk : disk_ok dk → length data = 512%nat → disk_ok (put_sector sec data dk).
Proof.
  intros [Hs Hd Hi] Hl. split; [done| |done]. intros t. unfold sector_of, put_sector. simpl. rewrite lookup_insert.
  case_decide; [done|]. apply Hd.
Qed.
Lemma sector_of_put t sec data dk : sector_of (put_sector sec data dk) t = if decide (t = sec) then data else sector_of dk t.
Proof. unfold sector_of, put_sector. simpl. rewrite lookup_insert. repeat case_decide; naive_solver. Qed.

(** A ready machine seen from one of its channels. *)
Lemma ready_at x c d dk : ready x → disk_of c d x = Some dk → ∃ ch h,
  layout c (channels x) (chans (hw x)) (vectors x) ∧ wired c ch ∧ two_disks ch ∧ idle_channel ch ∧ calm h ∧ disk_at d h = Some dk ∧
  channels x !! c = Some ch ∧ chans (hw x) !! c = Some h ∧
  x = at_ c (channels x) (chans (hw x)) (latency (hw x)) (blocks x) (vectors x) ch h (messages x).
Proof.
  intros R Hd. pose proof Hd as (h & Hh & Hk)%bind_Some. pose proof (lookup_lt_Some _ _ _ Hh) as Hc. rewrite (r_hs _ R) in Hc.
  destruct (channels x !! c) as [ch|] eqn:Ech; [|apply lookup_ge_None_1 in Ech; rewrite (r_chs _ R) in Ech; lia].
  destruct (r_ch _ R c ch Ech) as (Hw & H2 & Hi). exists ch, h. split_and!; try done.
  - split; [done|apply R|apply R|by apply (r_vs _ R)| |].
    + intros c' ch' _ E. by destruct (r_ch _ R c' ch' E) as ([? _] & _).
    + intros c' h' _ E. by destruct (r_hw _ R c' h' E) as (? & ? & _).
  - by apply (r_hw _ R c).
  - pose proof (r_on _ R) as Ho. destruct x as [chs [hs lat] bl on vs ms]. unfold at_. simpl in *. by rewrite !list_insert_id, Ho by done.
Qed.
Lemma ready_put x c ch h ms : ready x → (c < 2)%nat → wired c ch → two_disks ch → idle_channel ch → calm h →
  (∀ d dk, disk_at d h = Some dk → disk_ok dk) →
  ready (at_ c (channels x) (chans (hw x)) (latency (hw x)) (blocks x) (vectors x) ch h ms).
Proof.
  intros R Hc Hw H2 Hi Hh Hd. pose proof R as [Ro Rv Rc Rh Rl Rch Rhw Rd]. split; try done.
  - by simpl; rewrite length_insert.
  - by simpl; rewrite length_insert.
  - intros c' ch' E. simpl in E. destruct (decide (c' = c)) as [-> |Hn].
    + rewrite list_lookup_insert_eq in E by lia. by injection E as <-.
    + rewrite list_lookup_insert_ne in E by done. by apply Rch.
  - intros c' h' E. simpl in E. destruct (decide (c' = c)) as [-> |Hn].
    + rewrite list_lookup_insert_eq in E by lia. by injection E as <-.
    + rewrite list_lookup_insert_ne in E by done. by eapply Rhw.
  - intros c' d dk E. unfold disk_of in E. simpl in E. destruct (decide (c' = c)) as [-> |Hn].
    + rewrite list_lookup_insert_eq in E by lia. by eapply Hd.
    + rewrite list_lookup_insert_ne in E by done. by apply (Rd c' d).
Qed.
Lemma disk_of_put x c ch h ms c' d : (c < 2)%nat → ready x →
  disk_of c' d (at_ c (channels x) (chans (hw x)) (latency (hw x)) (blocks x) (vectors x) ch h ms) =
    if decide (c' = c) then disk_at d h else disk_of c' d x.
Proof.
  intros Hc R. unfold disk_of. simpl. case_decide as E.
  - subst. by rewrite list_lookup_insert_eq by (rewrite (r_hs _ R); lia).
  - by rewrite list_lookup_insert_ne by done.
Qed.

Section requests.
Context (patience : nat) (Hp : (0 < patience)%nat).

Lemma read_ready x c d dk sec : ready x → (d < 2)%nat → disk_of c d x = Some dk → 0 <= sec < d_size dk →
  ∃ x', ide_read patience c d sec x = Ret (sector_of dk sec, x') ∧ ready x' ∧ blocks x' = blocks x ∧
    ∀ c' d', disk_of c' d' x' = disk_of c' d' x.
Proof using Hp.
  intros R Hd Hdk Hs. destruct (ready_at x c d dk R Hdk) as (ch & h & L & Hw & H2 & Hi & Hc & Hh & Ech & Eh & Ex).
  pose proof (r_disk _ R c d dk Hdk) as [Ks Kl _]. assert (Hs28 : 0 <= sec < 2 ^ 28) by lia.
  destruct (ide_read_run patience c _ _ (latency (hw x)) (blocks x) _ L (r_lat _ R c) d sec ch h (messages x) dk Hp Hw H2 Hi Hd Hc Hh Hs28 ltac:(lia) (Kl sec)) as [ms' E].
  destruct (after_read_same c (latency (hw x)) d sec h dk Hd Hc Hh Hs28 ltac:(lia)) as (Ac & Am & As).
  assert (Same : ∀ d', disk_at d' (after_read c (latency (hw x)) d sec h) = disk_at d' h) by (intros [|]; [exact Am|exact As]).
  eexists. split; [rewrite Ex at 1; exact E|]. split; [|split; [done|]].
  - apply ready_put; try done; [apply L|]. intros d' dk' E'. rewrite Same in E'. apply (r_disk _ R c d'). unfold disk_of. by rewrite Eh.
  - intros c' d'. rewrite disk_of_put by (apply L || done). case_decide as Ec; [|done]. subst. rewrite Same. unfold disk_of. by rewrite Eh.
Qed.
Lemma write_ready x c d dk sec data : ready x → (d < 2)%nat → disk_of c d x = Some dk → 0 <= sec < d_size dk → length data = 512%nat →
  ∃ x', ide_write patience c d sec data x = Ret (tt, x') ∧ ready x' ∧ blocks x' = blocks x ∧
    ∀ c' d', (d' < 2)%nat → disk_of c' d' x' = if decide (c' = c ∧ d' = d) then Some (put_sector sec data dk) else disk_of c' d' x.
Proof using Hp.
  intros R Hd Hdk Hs Hl. destruct (ready_at x c d dk R Hdk) as (ch & h & L & Hw & H2 & Hi & Hc & Hh & Ech & Eh & Ex).
  pose proof (r_disk _ R c d dk Hdk) as Kd. pose proof Kd as [Ks Kl _]. assert (Hs28 : 0 <= sec < 2 ^ 28) by lia.
  destruct (ide_write_run patience c _ _ (latency (hw x)) (blocks x) _ L (r_lat _ R c) d sec data ch h (messages x) dk Hp Hw H2 Hi Hd Hc Hh Hs28 ltac:(lia) Hl) as [ms' E].
  destruct (after_write_disks c (latency (hw x)) d sec data h dk Hd Hc Hh Hs28 ltac:(lia)) as [Ac Ad].
  eexists. split; [rewrite Ex at 1; exact E|]. split; [|split; [done|]].
  - apply ready_put; try done; [apply L|]. intros d' dk' E'. rewrite Ad in E'. case_decide as Ed.
    + injection E' as <-. by apply (put_sector_ok sec data dk).
    + apply (r_disk _ R c d'). unfold disk_of. by rewrite Eh.
  - intros c' d' Hd'. rewrite disk_of_put by (apply L || done). case_decide as Ec.
    + subst. rewrite Ad. destruct (decide (d' = d)) as [-> |Hn]; [by rewrite !decide_True|].
      rewrite !decide_False by (destruct d as [|[|]], d' as [|[|]]; simpl; done || lia || tauto). unfold disk_of. by rewrite Eh.
    + by rewrite decide_False by tauto.
Qed.
End requests.

(** *** A disk behind the driver is a store of sectors *)
Definition ata_store (patience c d : nat) : Type := ide machine.
Definition contents_of (c d : nat) (x : ide machine) (sec : Z) : list Z := from_option (λ dk, sector_of dk sec) zero_sector (disk_of c d x).
Definition usable (patience c d : nat) (x : ide machine) : Prop := (0 < patience)%nat ∧ (d < 2)%nat ∧ ready x ∧ is_Some (disk_of c d x).

#[global] Instance ata_sector_ops patience c d : SectorOps (ata_store patience c d) :=
  { st_read := ide_read patience c d; st_write := ide_write patience c d }.
#[global, program] Instance ata_sector_store patience c d : SectorStore (ata_store patience c d) :=
  { st_inv := usable patience c d; st_size x := from_option d_size 0 (disk_of c d x); st_contents := contents_of c d }.
Next Obligation.
  intros patience c d x s (_ & _ & R & [dk E]). unfold contents_of. rewrite E. by apply (r_disk _ R c d dk).
Qed.
Next Obligation.
  intros patience c d x s (Hp & Hd & R & [dk E]) Hs. rewrite E in Hs.
  destruct (read_ready patience Hp x c d dk s R Hd E Hs) as (x' & E' & R' & _ & D). exists x'. unfold contents_of, usable. rewrite !D, E.
  by split_and!.
Qed.
Next Obligation.
  intros patience c d x s data (Hp & Hd & R & [dk E]) Hs Hl. rewrite E in Hs.
  destruct (write_ready patience Hp x c d dk s data R Hd E Hs Hl) as (x' & E' & R' & _ & D). exists x'. unfold contents_of, usable.
  rewrite !(D c d Hd), E, decide_True by done. split_and!; try done. intros t. simpl. apply sector_of_put.
Qed.

(** *** Requests for several disks *)
Inductive sector_request : Set := RdSector (c d : nat) (sec : Z) | WrSector (c d : nat) (sec : Z) (data : list Z).
Definition ide_request (patience : nat) (r : sector_request) : cmd (ide machine) (list Z) :=
  match r with RdSector c d sec => ide_read patience c d sec | WrSector c d sec data => ide_write patience c d sec data;; mret [] end.
(** What block.c makes of the same request (BlockDev.v). *)
Definition disk_request (r : sector_request) : cmd devices (list Z) :=
  match r with RdSector c d sec => disk_read (2 * c + d) sec | WrSector c d sec data => disk_write (2 * c + d) sec data;; mret [] end.
Fixpoint run_requests {S} (f : sector_request → cmd S (list Z)) (rs : list sector_request) : cmd S (list (list Z)) :=
  match rs with [] => mret [] | r :: rs => x ← f r; l ← run_requests f rs; mret (x :: l) end.
Definition in_range (x : ide machine) (r : sector_request) : Prop :=
  match r with
  | RdSector c d sec => (d < 2)%nat ∧ ∃ dk, disk_of c d x = Some dk ∧ 0 <= sec < d_size dk
  | WrSector c d sec data => (d < 2)%nat ∧ length data = 512%nat ∧ ∃ dk, disk_of c d x = Some dk ∧ 0 <= sec < d_size dk
  end.
(** The sectors that block.c keeps for the disks are those of the hardware. *)
Definition mirrors (x : ide machine) (b : devices) : Prop :=
  ∀ c d dk sec, (d < 2)%nat → disk_of c d x = Some dk →
    default zero_sector (default ∅ (disks b !! (2 * c + d)%nat) !! sec) = sector_of dk sec.

Lemma in_range_step x x' r : (∀ c d dk, (d < 2)%nat → disk_of c d x = Some dk → ∃ dk', disk_of c d x' = Some dk' ∧ d_size dk' = d_size dk) →
  in_range x r → in_range x' r.
Proof.
  intros H. destruct r as [c d sec|c d sec data]; simpl.
  - intros (Hd & dk & E & Hs). destruct (H c d dk Hd E) as (dk' & E' & Es). split; [done|]. exists dk'. by rewrite Es.
  - intros (Hd & Hl & dk & E & Hs). destruct (H c d dk Hd E) as (dk' & E' & Es). split_and!; try done. exists dk'. by rewrite Es.
Qed.
Lemma sector_request_run patience x b r : (0 < patience)%nat → ready x → mirrors x b → in_range x r →
  ∃ out x' b', ide_request patience r x = Ret (out, x') ∧ disk_request r b = Ret (out, b') ∧ ready x' ∧ mirrors x' b' ∧
    ∀ c d dk, (d < 2)%nat → disk_of c d x = Some dk → ∃ dk', disk_of c d x' = Some dk' ∧ d_size dk' = d_size dk.
Proof.
  intros Hp R M. destruct r as [c d sec|c d sec data]; simpl.
  - intros (Hd & dk & E & Hs). destruct (read_ready patience Hp x c d dk sec R Hd E Hs) as (x' & E' & R' & _ & D).
    exists (sector_of dk sec), x', b. split_and!; [done| |done| |].
    + unfold disk_read. rewrite gets_run. simpl. by rewrite <- (M c d dk sec Hd E).
    + intros c' d' dk' sec' Hd'. rewrite D. by apply M.
    + intros c' d' dk' _. rewrite D. by exists dk'.
  - intros (Hd & Hl & dk & E & Hs). destruct (write_ready patience Hp x c d dk sec data R Hd E Hs Hl) as (x' & E' & R' & _ & D).
    eexists [], x', _. split_and!; [by rewrite (bind_Ret _ _ _ _ _ E')|done|done| |].
    + intros c' d' dk' sec' Hd'. rewrite (D c' d' Hd'). simpl. rewrite lookup_insert. case_decide as Ec.
      * destruct Ec as [-> ->]. intros [= <-]. rewrite decide_True by done. simpl. rewrite sector_of_put, lookup_insert.
        repeat case_decide; try (by subst); try done. by rewrite <- (M c d dk sec' Hd E).
      * rewrite decide_False by lia. intros E2. by apply M.
    + intros c' d' dk' Hd' E2. rewrite (D c' d' Hd'). case_decide as Ec; [|by exists dk'].
      destruct Ec as [-> ->]. assert (dk' = dk) as -> by congruence. by eexists.
Qed.

(** C22: The driver of an ATA channel implements the disks that block.c uses: for
    every sequence of reads and writes of sectors that are there, on the disks
    of both channels and whatever time every command takes (up to 29.99
    seconds, before or after the thread waits for the interrupt), [ide_read]
    and [ide_write] return, give the data that the array of sectors of block.c
    gives, and change the sector written and no other. *)
Theorem ide_refines_disks patience x b rs :
  (0 < patience)%nat → ready x → mirrors x b → Forall (in_range x) rs →
  ∃ out x' b', run_requests (ide_request patience) rs x = Ret (out, x') ∧ run_requests disk_request rs b = Ret (out, b') ∧
    ready x' ∧ mirrors x' b'.
Proof.
  intros Hp. revert x b. induction rs as [|r rs IH]; intros x b R M F; [by exists [], x, b|].
  apply Forall_cons in F as [Fr F]. destruct (sector_request_run patience x b r Hp R M Fr) as (o & x1 & b1 & E1 & E2 & R1 & M1 & S1).
  destruct (IH x1 b1 R1 M1) as (out & x2 & b2 & E3 & E4 & R2 & M2).
  { eapply Forall_impl; [exact F|]. intros r'. by apply in_range_step. }
  exists (o :: out), x2, b2. cbn [run_requests]. rewrite (bind_Ret _ _ _ _ _ E1), (bind_Ret _ _ _ _ _ E3).
  by rewrite (bind_Ret _ _ _ _ _ E2), (bind_Ret _ _ _ _ _ E4).
Qed.

(** A sector past the end of a disk, or beyond the 28 bits of an address, stops
    the kernel: the disk refuses the command, or the driver does. *)
Theorem ide_out_of_range patience x c d dk sec data :
  (0 < patience)%nat → ready x → (d < 2)%nat → disk_of c d x = Some dk → d_size dk <= sec →
  let e := if sec <? 2 ^ 28 then KernelPanic else AssertFail in
  ide_read patience c d sec x = Err e ∧ ide_write patience c d sec data x = Err e.
Proof.
  intros Hp R Hd E Hs e. destruct (ready_at x c d dk R E) as (ch & h & L & Hw & H2 & Hi & Hc & Hh & _ & _ & Ex).
  pose proof (r_disk _ R c d dk E) as [Ks _ _]. rewrite Ex. unfold e. destruct (Z.ltb_spec sec (2 ^ 28)).
  - apply (ide_past_end patience c _ _ _ _ _ L (r_lat _ R c) d sec data ch h _ dk); done || lia.
  - by apply (ide_address patience c _ _ _ _ _ L d sec data ch h).
Qed.

(** ** Detection *)
(** A channel in reset, with [u] nanoseconds to go. *)
Definition resetting (u : Z) (h : chan) : chan :=
  if u <=? 0 then finish Reset (taken 0 Reset h) else set_ph (Busy u Reset) (taken 0 Reset h).
Lemma resetting_start t h : srst h = false → start t Reset h = resetting t h.
Proof.
  intros Hs. unfold start, advance, resetting. change (srst (count_command _)) with (srst h). rewrite Hs. cbn [ph count_command set_line set_ph].
  destruct (t <=? 0); [done|]. by rewrite Z.sub_0_r.
Qed.
Lemma resetting_advance u s h : 0 <= s → srst h = false → advance s (resetting u h) = resetting (u - s) h.
Proof.
  intros H0 Hs. unfold resetting. destruct (Z.leb_spec u 0).
  - rewrite advance_idle by done. by rewrite (proj2 (Z.leb_le (u - s) 0)) by lia.
  - unfold advance. change (srst (set_ph (Busy u Reset) (taken 0 Reset h))) with (srst h). rewrite Hs. cbn [ph set_ph].
    destruct (Z.leb_spec u s); [rewrite (proj2 (Z.leb_le (u - s) 0)) by lia; done|by rewrite (proj2 (Z.leb_gt (u - s) 0)) by lia].
Qed.
Lemma resetting_selected u d h : absent h = false → selected d (resetting u h) = resetting u (set_device (selection d) h).
Proof.
  intros Ha. unfold selected. assert (E : absent (resetting u h) = absent h) by (unfold resetting; by destruct (u <=? 0)).
  rewrite E, Ha. unfold resetting. by destruct (u <=? 0).
Qed.
Lemma resetting_same u h : latched (resetting u h) = latched h ∧ srst (resetting u h) = srst h ∧ absent (resetting u h) = absent h ∧
  sel (resetting u h) = sel h ∧ (∀ d, disk_at d (resetting u h) = disk_at d h).
Proof. unfold resetting. destruct (u <=? 0); split_and!; try done; by intros [|]. Qed.

Section detection.
Context (patience scan_fuel : nat) (fails : nat → bool) (Hp : (0 < patience)%nat).
Context (c : nat) (chs : list channel) (hs : list chan) (lat : nat → nat → Z) (vs : list Z).
Context (L : layout c chs hs vs) (Hlat : ∀ k, 0 <= lat c k <= 29990000000).
Implicit Types (ch : channel) (h : chan) (ms : list ide_message) (bl : devices).

Lemma timed_bind {B} bl ch h ms t u (k : unit → cmd (ide machine) B) : wired c ch → 0 <= t → latched h = false → srst h = false →
  (timer_nsleep t ≫= k) (at_ c chs hs lat bl vs ch (resetting u h) ms) = k tt (at_ c chs hs lat bl vs ch (resetting (u - t) h) ms).
Proof using All.
  intros Hw Ht Hl Hs. rewrite nsleep_calm by (done || rewrite resetting_advance by done; by destruct (resetting_same (u - t) h) as [-> _]).
  by rewrite resetting_advance.
Qed.
(** What the presence test leaves in a channel that has a disk. *)
Definition tested (d : nat) (h : chan) : chan := set_lbal 0xaa (set_nsect 0x55 (set_device (selection d) h)).
Lemma detect_run bl ch h ms d : wired c ch → two_disks ch → (d < 2)%nat → calm h →
  detect c d (at_ c chs hs lat bl vs ch h ms) = Ret (negb (absent h), at_ c chs hs lat bl vs ch (if absent h then h else tested d h) ms).
Proof using All.
  intros Hw H2 Hd Hc. unfold detect. rewrite select_calm by done. rewrite get_bind by done. unfold selected, reg_nsect, reg_lbal.
  destruct (absent h) eqn:Ha.
  - assert (W : ∀ off v, chan_out (lat c) off v h = h) by (intros; unfold chan_out; by rewrite Ha).
    do 6 (rewrite outb_calm; rewrite ?W; [|done|done|left; lia|apply Hc]).
    assert (I : chan_in 2 h = (255, h)) by (unfold chan_in; simpl; by rewrite Ha).
    rewrite inb_calm, I by (done || (left; lia) || apply Hc). done.
  - do 6 (rewrite outb_store; [|done|done|lia|done|apply Hc]). unfold store. simpl.
    rewrite inb_calm; [|done|done|left; lia|apply Hc]. assert (Ha' : absent (tested d h) = false) by done.
    unfold chan_in at 1 2. cbn [Z.eqb Pos.eqb fst snd]. change (absent _) with (absent h). rewrite Ha.
    change (u8 0x55) with 0x55. cbn [nsect set_lbal set_nsect]. cbn [Z.eqb Pos.eqb]. rewrite inb_calm; [|done|done|left; lia|apply Hc].
    unfold chan_in. cbn [Z.eqb Pos.eqb fst snd]. change (absent _) with (absent h). by rewrite Ha.
Qed.

(** Waiting for the end of a reset. *)
Lemma wait_reset bl ch h ms u : wired c ch → two_disks ch → latched h = false → srst h = false → u <= 29990000000 → is_Some (disk_at (sel h) h) →
  ∃ ms' b, wait_while_busy c 0 (at_ c chs hs lat bl vs ch (resetting u h) ms) = Ret (b, at_ c chs hs lat bl vs ch (resetting 0 h) ms').
Proof using All.
  intros Hw H2 Hl Hs Hu [dk Hk]. destruct (resetting_same u h) as (Rl & Rs & Ra & Rsel & Rd).
  assert (F : ∀ t, finish Reset (set_ph (Busy t Reset) (taken 0 Reset h)) = resetting 0 h) by (intros t; apply finish_taken).
  assert (F0 : finish Reset (taken 0 Reset h) = resetting 0 h) by done.
  assert (N : latched (resetting 0 h) = false) by exact Hl.
  unfold wait_while_busy. destruct (Z.leb_spec u 0) as [H0|H0].
  - assert (E : resetting u h = resetting 0 h) by (unfold resetting; by rewrite (proj2 (Z.leb_le u 0))). rewrite E in *.
    destruct (finish_idle Reset (taken 0 Reset h) dk Hk) as (Fa & Fb & Fl & _). rewrite F0, served_calm in Fa, Fb, Fl by done.
    destruct (poll_done c chs hs lat bl vs L 2999 0 ch (resetting 0 h) ms Hw H2 ltac:(lia) Fa Fb N) as [ms' E']. by eexists _, _.
  - assert (E : resetting u h = set_ph (Busy u Reset) (taken 0 Reset h)) by (unfold resetting; by rewrite (proj2 (Z.leb_gt u 0))).
    assert (F' : ∀ h', h' = resetting u h ∨ (∃ t', h' = set_ph (Busy t' Reset) (resetting u h)) → finish Reset h' = resetting 0 h).
    { intros h' [-> |[t' ->]]; rewrite E; apply F. }
    destruct (busy_loop_run c chs hs lat bl vs L 3000 0 ch (resetting u h) u Reset ms) as (ms' & h' & Hh & E');
      [done|done|lia|by exists dk; rewrite Rsel, Rd|by rewrite E|by rewrite Rs|by rewrite Rl|lia| |].
    { intros h' Hh. unfold expects. rewrite (F' h' Hh), N. done. }
    cbv zeta in E'. rewrite (F' h' Hh), upped_calm, served_calm in E' by done. by eexists _, _.
Qed.

(** The signature of a channel with disks after a reset. *)
Record signed (h h' : chan) : Prop := {
  g_calm : calm h'; g_nsect : nsect h' = 1; g_error : error h' = 1; g_lbam : lbam h' = 0; g_lbah : lbah h' = 0;
  g_disks : ∀ d, disk_at d h' = disk_at d h }.
Lemma slave_ready {B} n bl ch h ms (k : unit → cmd (ide machine) B) : wired c ch → latched h = false → absent h = false → nsect h = 1 → lbal h = 1 →
  (slave_loop (S n) c ≫= k) (at_ c chs hs lat bl vs ch h ms) = k tt (at_ c chs hs lat bl vs ch h ms).
Proof using All.
  intros Hw Hl Ha Hn Hb. assert (I2 : chan_in 2 h = (1, h)) by (unfold chan_in; simpl; by rewrite Ha, Hn).
  assert (I3 : chan_in 3 h = (1, h)) by (unfold chan_in; simpl; by rewrite Ha, Hb). clear Ha Hn Hb. cbn [slave_loop]. unfold reg_nsect, reg_lbal.
  rewrite bind_assoc, get_bind by done. rewrite bind_assoc, inb_calm, I2 by (done || left; lia).
  cbn [fst snd Z.eqb Pos.eqb]. rewrite !bind_assoc, inb_calm, I3 by (done || left; lia). done.
Qed.
Lemma reset_absent bl ch h ms : wired c ch → two_disks ch → calm h → absent h = true →
  reset_channel c (at_ c chs hs lat bl vs ch h ms) = Ret (tt, at_ c chs hs lat bl vs ch h ms).
Proof using All.
  intros Hw H2 Hc Ha. unfold reset_channel.
  assert (D : ∀ d, (d < 2)%nat → detect c d (at_ c chs hs lat bl vs ch h ms) = Ret (false, at_ c chs hs lat bl vs ch h ms)).
  { intros d Hd. rewrite detect_run by done. by rewrite Ha. }
  rewrite (bind_Ret _ _ _ _ _ (D 0%nat ltac:(lia))), (bind_Ret _ _ _ _ _ (D 1%nat ltac:(lia))), get_bind by done. unfold reg_ctl.
  assert (W : ∀ v, chan_out (lat c) 0x206 v h = h) by (intros v; unfold chan_out; by rewrite Ha).
  assert (I : ∀ t, advance t h = h) by (intros t; apply advance_idle, Hc). unfold timer_usleep, timer_msleep.
  do 3 (rewrite outb_calm; rewrite ?W; [|done|done|by right|apply Hc]; rewrite nsleep_calm by (done || rewrite I; apply Hc); rewrite I). done.
Qed.
Lemma reset_present bl ch h ms dk : wired c ch → two_disks ch → calm h → master h = Some dk →
  ∃ h' ms', reset_channel c (at_ c chs hs lat bl vs ch h ms) = Ret (tt, at_ c chs hs lat bl vs ch h' ms') ∧ signed h h'.
Proof using All.
  intros Hw H2 Hc Hm. assert (Ha : absent h = false) by (unfold absent; by rewrite Hm). unfold reset_channel.
  rewrite (bind_Ret _ _ _ _ _ (detect_run bl ch h ms 0 Hw H2 ltac:(lia) Hc)), Ha.
  rewrite (bind_Ret _ _ _ _ _ (detect_run bl ch (tested 0 h) ms 1 Hw H2 ltac:(lia) Hc)). change (absent (tested 0 h)) with (absent h). rewrite Ha.
  rewrite get_bind by done. unfold reg_ctl, timer_usleep, timer_msleep. set (h0 := tested 1 (tested 0 h)).
  assert (C0 : calm h0) by exact Hc. assert (A0 : absent h0 = false) by exact Ha. assert (M0 : ∀ d, disk_at d h0 = disk_at d h) by (by intros [|]).
  clearbody h0. destruct C0 as (P0 & L0 & S0).
  assert (O0 : chan_out (lat c) 0x206 (u8 0) h0 = h0) by (unfold chan_out; simpl; by rewrite A0, S0).
  rewrite outb_calm; rewrite ?O0; [|done|done|by right|done]. rewrite nsleep_calm by (done || by rewrite advance_idle). rewrite advance_idle by done.
  set (h1 := set_device 0 (set_line false (set_srst true (set_ph (Busy 0 Reset) h0)))).
  assert (O1 : chan_out (lat c) 0x206 (u8 CTL_SRST) h0 = h1) by (unfold chan_out; simpl; by rewrite A0).
  rewrite outb_calm; rewrite ?O1; [|done|done|by right|done]. rewrite nsleep_calm by (done || exact L0). change (advance (10 * 1000) h1) with h1.
  set (h2 := set_srst false h1). pose proof (Hlat (commands h0)) as Ht. set (t := lat c (commands h0)) in *.
  assert (S2 : srst h2 = false) by done. assert (L2 : latched h2 = false) by exact L0. assert (A2 : absent h2 = false) by exact A0.
  assert (M2 : ∀ d, disk_at d h2 = disk_at d h) by (intros d; rewrite <- M0; by destruct d).
  assert (O2 : chan_out (lat c) 0x206 (u8 0) h1 = resetting t h2).
  { rewrite <- resetting_start by done. unfold chan_out. simpl. change (absent h1) with (absent h0). by rewrite A0. }
  clearbody h2 t. clear O1 O0. rewrite outb_calm; rewrite ?O2; [|done|done|by right|by destruct (resetting_same t h2) as [-> _]].
  rewrite timed_bind by (done || lia). cbn [negb]. rewrite bind_assoc. set (u := t - 150 * 1000000).
  assert (Eu : advance 400 (selected 0 (resetting u h2)) = resetting (u - 400) (set_device (selection 0) h2)).
  { rewrite resetting_selected by done. by apply resetting_advance. }
  rewrite select_device_run; rewrite ?Eu; [|done|done|done|lia|by destruct (resetting_same u h2) as [-> _]|by destruct (resetting_same (u - 400) (set_device (selection 0) h2)) as [-> _]].
  set (h3 := set_device (selection 0) h2).
  destruct (wait_reset bl ch h3 ms (u - 400) Hw H2 L2 S2 ltac:(lia)) as (ms1 & b1 & W1).
  { exists dk. change (sel h3) with 0%nat. change (disk_at 0 h3) with (disk_at 0 h2). by rewrite M2. }
  rewrite bind_assoc, (bind_Ret _ _ _ _ _ W1), ret_bind.
  assert (C3 : calm (resetting 0 h3)) by done. rewrite select_calm by (done || lia). rewrite resetting_selected by done.
  set (h4 := resetting 0 (set_device (selection 1) h3)). rewrite (slave_ready 2999) by done.
  destruct (poll_done c chs hs lat bl vs L 2999 1 ch h4 ms1 Hw H2 ltac:(lia) A2) as [ms2 W2]; [|done|].
  { unfold status. change (absent h4) with (absent h2). rewrite A2. by destruct (disk_at (sel h4) h4). }
  unfold wait_while_busy. rewrite (bind_Ret _ _ _ _ _ W2). exists h4, ms2. split; [done|]. split; try done.
Qed.

(** *** What the detection finds *)
Definition flag (d : nat) (v : bool) (ch : channel) : channel := set_c_devices (alter (set_is_ata v) d (c_devices ch)) ch.
Definition ata_of (d : nat) (ch : channel) : option bool := is_ata <$> c_devices ch !! d.
Record proper (ch : channel) : Prop := {
  p_wired : wired c ch; p_two : two_disks ch; p_idle : idle_channel ch;
  p_named : ∀ d a, c_devices ch !! d = Some a → d_name a = disk_name c d }.
Lemma flag_ata d v d' ch : ata_of d' (flag d v ch) = if decide (d' = d) then (λ _, v) <$> ata_of d' ch else ata_of d' ch.
Proof using Type.
  unfold ata_of, flag. simpl. case_decide as E; [subst|by rewrite list_lookup_alter_ne by done].
  rewrite list_lookup_alter_eq. by destruct (c_devices ch !! d).
Qed.
Lemma flag_proper d v ch : proper ch → proper (flag d v ch).
Proof using Type.
  intros [Hw H2 Hi Hn]. split; [done| |done|].
  - intros d' Hd'. destruct (H2 d' Hd') as (a & Ea & Na). unfold flag. simpl. destruct (decide (d' = d)) as [-> |Hd].
    + rewrite list_lookup_alter_eq, Ea. by eexists.
    + rewrite list_lookup_alter_ne by done. by exists a.
  - intros d' a. unfold flag. simpl. destruct (decide (d' = d)) as [-> |Hd].
    + rewrite list_lookup_alter_eq. destruct (c_devices ch !! d) as [a'|] eqn:E; [|done]. intros [= <-]. by apply (Hn d a').
    + rewrite list_lookup_alter_ne by done. apply Hn.
Qed.
Lemma used_proper ch : proper ch → proper (used_channel ch).
Proof using Type. by intros [[? ?] ? ? ?]. Qed.
Lemma new_channel_proper : proper (new_channel c).
Proof using All.
  split; [by split| |by split|].
  - intros d Hd. destruct d as [|[|]]; [by eexists|by eexists|lia].
  - intros [|[|]] a; simpl; [intros [= <-]; done|intros [= <-]; done|done].
Qed.
Lemma put_is_ata_run bl ch h ms d v :
  put_is_ata c d v (at_ c chs hs lat bl vs ch h ms) = Ret (tt, at_ c chs hs lat bl vs (flag d v ch) h ms).
Proof using All. unfold put_is_ata. by rewrite alter_run. Qed.

Definition signature_ok (h : chan) : Prop := absent h = false → error h = 1 ∧ lbam h = 0 ∧ lbah h = 0 ∧ nsect h = 1.
Definition checked (d : nat) (h : chan) : chan := set_line false (selected d h).
Lemma checked_same d h : (calm h → calm (checked d h)) ∧ (signature_ok h → signature_ok (checked d h)) ∧
  absent (checked d h) = absent h ∧ nsect (checked d h) = nsect h ∧ ∀ d', disk_at d' (checked d h) = disk_at d' h.
Proof using Type.
  unfold checked, selected. by destruct (absent h) eqn:E; split_and!.
Qed.
Lemma check_run bl ch h ms d : proper ch → calm h → (d < 2)%nat → signature_ok h →
  check_device_type c d (at_ c chs hs lat bl vs ch h ms) =
    Ret (true, at_ c chs hs lat bl vs (flag d (bool_decide (is_Some (disk_at d h))) ch) (checked d h) ms).
Proof using All.
  intros Hpr Hc Hd Hg. pose proof (p_wired _ Hpr) as Hw. pose proof (p_two _ Hpr) as H2. destruct (H2 d Hd) as (a & Ea & Na).
  unfold check_device_type, reg_error, reg_lbam, reg_lbah, reg_status. rewrite get_bind by done.
  rewrite (bind_Ret _ _ _ _ _ (get_disk_run c chs hs lat bl vs L ch h ms d a Ea)), select_calm by done.
  destruct (selected_calm d h Hc) as (Sp & Sl & Ss). set (h1 := selected d h) in *.
  assert (A1 : absent h1 = absent h) by (unfold h1, selected; by destruct (absent h) eqn:E).
  assert (I : ∀ off, off ≠ 7 → (chan_in off h1).2 = h1) by (intros off Ho; unfold chan_in; by rewrite (proj2 (Z.eqb_neq off 7))).
  do 3 (rewrite inb_calm by (done || left; lia); rewrite I by lia). rewrite inb_calm by (done || left; lia).
  change (chan_in 7 h1) with (status h1, checked d h). cbn [fst snd]. unfold chan_in. cbn [Z.eqb Pos.eqb fst]. rewrite A1.
  unfold status. rewrite A1. assert (D1 : ∀ k, disk_at k h1 = disk_at k h) by (intros k; unfold h1, selected; destruct (absent h); [done|by destruct k]).
  rewrite D1, Sp. destruct (absent h) eqn:Ha.
  - assert (N : ∀ k, disk_at k h = None) by (intros k; revert Ha; unfold absent; by destruct k; simpl; repeat case_match).
    rewrite !N. cbn -[put_is_ata]. rewrite (bind_Ret _ _ _ _ _ (put_is_ata_run _ _ _ _ _ _)). done.
  - destruct (Hg Ha) as (Ge & Gm & Gh & _). assert (E1 : error h1 = 1 ∧ lbam h1 = 0 ∧ lbah h1 = 0) by (unfold h1, selected; by rewrite Ha).
    destruct E1 as (-> & -> & ->). assert (Sd : sel h1 = d).
    { unfold h1, selected. rewrite Ha. destruct d as [|[|]]; [done|done|lia]. }
    rewrite Sd. destruct (disk_at d h) eqn:E.
    + change (Z.land 0x40 STA_DRDY =? 0) with false. change (Z.land 0x40 STA_BSY =? 0) with true. cbn [negb Z.eqb Pos.eqb andb orb].
      rewrite (bind_Ret _ _ _ _ _ (put_is_ata_run _ _ _ _ _ _)). by rewrite bool_decide_true.
    + change (Z.land 0 STA_DRDY =? 0) with true. cbn [negb Z.eqb Pos.eqb andb orb].
      rewrite (bind_Ret _ _ _ _ _ (put_is_ata_run _ _ _ _ _ _)). done.
Qed.

(** What is done with a disk that identifies itself: disks of 1 GB and more
    are left alone. *)
Definition probe (d : nat) (id : list Z) : cmd devices unit :=
  if 1024 * 1024 * 1024 / BLOCK_SECTOR_SIZE <=? capacity_of id then mret tt
  else
    block ← block_register fails (disk_name c d) BLOCK_RAW (Some (extra_info_of id)) (capacity_of id) (Disk (2 * c + d));
    partition_scan fails scan_fuel block.
(** [bl'] is what the block layer makes of the disk at [d], if there is one. *)
Definition probed (d : nat) (h : chan) (bl bl' : devices) : Prop :=
  match disk_at d h with Some dk => probe d (d_ident dk) bl = Ret (tt, bl') | None => bl' = bl end.
(** The channel is as good as before, with the same disks. *)
Record kept (h : chan) (ch' : channel) (h' : chan) : Prop := {
  e_proper : proper ch'; e_calm : calm h'; e_signature : signature_ok h'; e_disks : ∀ d, disk_at d h' = disk_at d h }.

Lemma on_blocks_run {A} (m : cmd devices A) bl bl' ch h ms a : m bl = Ret (a, bl') →
  on_blocks m (at_ c chs hs lat bl vs ch h ms) = Ret (a, at_ c chs hs lat bl' vs ch h ms).
Proof using Type. intros E. unfold on_blocks, at_. simpl. by rewrite E. Qed.
Definition identified (d : nat) (h : chan) : chan :=
  set_ph Idle (done_ (lat c (commands h)) Identify (set_line false (set_device (selection d) h))).
Lemma identified_run bl ch h ms d dk (k : list Z → cmd (ide machine) unit) : proper ch → calm h → (d < 2)%nat → disk_at d h = Some dk → nsect h = 1 →
  length (d_ident dk) = 512%nat →
  ∃ ms', (select_device_wait c d;; issue_pio_command c CMD_IDENTIFY_DEVICE;; sema_down patience c;; ok ← wait_while_busy c d;
     if negb ok then put_is_ata c d false else id ← input_sector c; k id) (at_ c chs hs lat bl vs ch h ms) =
    k (d_ident dk) (at_ c chs hs lat bl vs (used_channel ch) (identified d h) ms').
Proof using All.
  intros [Hw H2 [Hk Hz] _] Hc Hd Hdk Hn Hlen. rewrite select_wait_calm by (done || by eapply present_not_absent).
  unfold identified. set (h1 := set_line false (set_device (selection d) h)).
  assert (Sd : sel h1 = d) by (destruct d as [|[|]]; [done|done|lia]).
  assert (D1 : disk_at (sel h1) h1 = Some dk) by (rewrite Sd; by destruct d). pose proof Hc as (Hc1 & Hc2 & Hc3).
  set (t := lat c (commands h)). pose proof (Hlat (commands h)) as Ht. fold t in Ht.
  assert (C1 : ph h1 = Idle ∧ latched h1 = false ∧ srst h1 = false ∧ nsect h1 = 1 ∧ lat c (commands h1) = t) by done. clearbody h1 t.
  destruct C1 as (P1 & L1 & S1 & N1 & T1).
  assert (E1 : chan_out (lat c) 7 (u8 CMD_IDENTIFY_DEVICE) h1 = start t Identify h1) by (eapply chan_out_command; [done..|by left]).
  rewrite (issue_run c chs hs lat bl vs L _ ch h1 ms t _ _ Hw E1).
  rewrite sema_started; [|done|done|done|done|done|lia|done|done|by exists dk].
  destruct (finish_idle Identify (taken t Identify h1) dk D1) as (Fa & Fb & Fl & _).
  assert (P2 : ph (done_ t Identify h1) = DataIn (d_ident dk)) by (unfold done_; by rewrite served_ph, (finish_at _ _ _ dk D1)).
  assert (S2 : disk_at (sel (done_ t Identify h1)) (done_ t Identify h1) = Some dk).
  { unfold done_. rewrite served_sel, served_disk, (finish_at _ _ _ dk D1). exact D1. }
  change (served (finish Identify (taken t Identify h1))) with (done_ t Identify h1) in *. set (h2 := done_ t Identify h1) in *. clearbody h2.
  destruct (poll_done c chs hs lat bl vs L 2999 d (used_channel ch) h2 ms) as [ms' E2]; [done..|].
  unfold wait_while_busy. rewrite (bind_Ret _ _ _ _ _ E2).
  assert (St : negb (Z.land (status h2) STA_DRQ =? 0) = true) by (unfold status; by rewrite S2, P2).
  rewrite St. cbn [negb]. unfold input_sector. rewrite bind_assoc, get_bind by done. unfold reg_data.
  exists ms'. by rewrite (bind_Ret _ _ _ _ _ (insw_run c chs hs lat bl vs L (used_channel ch) h2 ms' 255 _ Hw Fl P2 Hlen)).
Qed.
Lemma identified_same d h dk : (d < 2)%nat → calm h → disk_at d h = Some dk → calm (identified d h) ∧ (signature_ok h → signature_ok (identified d h)) ∧
  ∀ d', disk_at d' (identified d h) = disk_at d' h.
Proof using All.
  intros Hd Hc Hdk. assert (Ha : absent h = false) by (by eapply present_not_absent).
  unfold identified. set (h1 := set_line false (set_device (selection d) h)).
  assert (Sd : sel h1 = d) by (destruct d as [|[|]]; [done|done|lia]).
  assert (D1 : disk_at (sel h1) h1 = Some dk) by (rewrite Sd; by destruct d).
  unfold done_. rewrite (finish_at _ _ _ dk D1). set (r := raise _).
  assert (Lr : latched r = true) by (unfold r; simpl; by rewrite (proj1 (proj2 Hc))). unfold served. rewrite Lr. split_and!.
  - split; [done|]. split; [done|]. apply Hc.
  - intros Hg _. exact (Hg Ha).
  - by intros [|].
Qed.
Lemma identify_run bl bl' ch h ms d : proper ch → calm h → (d < 2)%nat → signature_ok h →
  ata_of d ch = Some (bool_decide (is_Some (disk_at d h))) → (∀ dk, disk_at d h = Some dk → length (d_ident dk) = 512%nat) → probed d h bl bl' →
  ∃ ch' h' ms', identify_if_ata patience scan_fuel fails c d (at_ c chs hs lat bl vs ch h ms) = Ret (tt, at_ c chs hs lat bl' vs ch' h' ms') ∧
    kept h ch' h' ∧ ∀ d', d' ≠ d → ata_of d' ch' = ata_of d' ch.
Proof using All.
  intros Hpr Hc Hd Hg Hat Hid Hpb. destruct (p_two _ Hpr d Hd) as (a & Ea & Na). pose proof (p_named _ Hpr d a Ea) as Nm.
  assert (Ia : is_ata a = bool_decide (is_Some (disk_at d h))) by (unfold ata_of in Hat; rewrite Ea in Hat; by injection Hat as ->).
  unfold identify_if_ata. rewrite (bind_Ret _ _ _ _ _ (get_disk_run c chs hs lat bl vs L ch h ms d a Ea)), Ia. unfold probed in Hpb.
  destruct (disk_at d h) as [dk|] eqn:E; [|subst; by exists ch, h, ms].
  rewrite bool_decide_true by done. unfold identify_ata_device.
  rewrite (bind_Ret _ _ _ _ _ (get_disk_run c chs hs lat bl vs L ch h ms d a Ea)), ASSERT_bind by (by rewrite Ia, bool_decide_true).
  assert (Hn : nsect h = 1) by (apply Hg; by eapply present_not_absent).
  destruct (identified_same d h dk Hd Hc E) as (Ic & Is & Idk).
  destruct (identified_run bl ch h ms d dk (λ id, if 1024 * 1024 * 1024 / BLOCK_SECTOR_SIZE <=? capacity_of id then
      put_msg (IgnoringDisk (d_name a) (u32 (capacity_of id * 512)));; put_is_ata c d false else
    block ← on_blocks (block_register fails (d_name a) BLOCK_RAW (Some (extra_info_of id)) (capacity_of id) (Disk (2 * c + d)));
    on_blocks (partition_scan fails scan_fuel block)) Hpr Hc Hd E Hn (Hid dk eq_refl)) as [ms' R].
  rewrite R. clear R. unfold probe in Hpb. destruct (_ <=? _).
  - injection Hpb as <-. eexists (flag d false (used_channel ch)), (identified d h), _. split; [apply put_is_ata_run|]. split.
    + split; [by apply flag_proper, used_proper|done|by apply Is|done].
    + intros d' Hd'. rewrite flag_ata. by rewrite decide_False.
  - apply bind_inv in Hpb as (b & bl1 & B1 & B2). exists (used_channel ch), (identified d h), ms'. split; [|split; [|done]].
    + rewrite Nm, (bind_Ret _ _ _ _ _ (on_blocks_run _ _ _ _ _ _ _ B1)). by apply on_blocks_run.
    + split; [by apply used_proper|done|by apply Is|done].
Qed.

(** [init_channel] once the channel is set up and its interrupt registered. *)
Definition detect_disks : cmd (ide machine) unit :=
  reset_channel c;;
  slave ← check_device_type c 0;
  (if (slave : bool) then check_device_type c 1;; mret tt else mret tt);;
  identify_if_ata patience scan_fuel fails c 0;; identify_if_ata patience scan_fuel fails c 1.
Lemma probed_same d h h' bl bl' : disk_at d h' = disk_at d h → probed d h bl bl' → probed d h' bl bl'.
Proof using Type. unfold probed. by intros ->. Qed.
Lemma reset_run bl ch h ms : proper ch → calm h → (is_Some (slave h) → is_Some (master h)) →
  ∃ h' ms', reset_channel c (at_ c chs hs lat bl vs ch h ms) = Ret (tt, at_ c chs hs lat bl vs ch h' ms') ∧
    calm h' ∧ signature_ok h' ∧ ∀ d, disk_at d h' = disk_at d h.
Proof using All.
  intros [Hw H2 _ _] Hc Hms. destruct (master h) as [dk|] eqn:Em.
  - destruct (reset_present bl ch h ms dk Hw H2 Hc Em) as (h' & ms' & E & [G1 G2 G3 G4 G5 G6]). exists h', ms'. by split_and!.
  - assert (Es : slave h = None) by (destruct (slave h); [by destruct Hms|done]).
    assert (Ha : absent h = true) by (unfold absent; by rewrite Em, Es). exists h, ms.
    split; [by apply reset_absent|]. split_and!; try done. intros Ha'. congruence.
Qed.
Lemma detect_disks_run bl bl1 bl2 ch h ms : proper ch → calm h → (is_Some (slave h) → is_Some (master h)) →
  (∀ d, (d < 2)%nat → is_Some (c_devices ch !! d)) → (∀ d dk, disk_at d h = Some dk → length (d_ident dk) = 512%nat) →
  probed 0 h bl bl1 → probed 1 h bl1 bl2 →
  ∃ ch' h' ms', detect_disks (at_ c chs hs lat bl vs ch h ms) = Ret (tt, at_ c chs hs lat bl2 vs ch' h' ms') ∧ kept h ch' h'.
Proof using All.
  intros Hpr Hc Hms Hdv Hid P1 P2. unfold detect_disks.
  destruct (reset_run bl ch h ms Hpr Hc Hms) as (h1 & ms1 & E1 & C1 & G1 & D1). rewrite (bind_Ret _ _ _ _ _ E1).
  rewrite (bind_Ret _ _ _ _ _ (check_run bl ch h1 ms1 0 Hpr C1 ltac:(lia) G1)).
  set (ch1 := flag 0 _ ch). destruct (checked_same 0 h1) as (C2 & G2 & A2 & _ & D2). specialize (C2 C1). specialize (G2 G1).
  rewrite bind_assoc, (bind_Ret _ _ _ _ _ (check_run bl ch1 (checked 0 h1) ms1 1 (flag_proper _ _ _ Hpr) C2 ltac:(lia) G2)), ret_bind.
  set (ch2 := flag 1 _ ch1). destruct (checked_same 1 (checked 0 h1)) as (C3 & G3 & A3 & _ & D3). specialize (C3 C2). specialize (G3 G2).
  set (h3 := checked 1 (checked 0 h1)) in *. assert (D : ∀ d, disk_at d h3 = disk_at d h) by (intros d; by rewrite D3, D2, D1).
  assert (Pr2 : proper ch2) by (by apply flag_proper, flag_proper).
  assert (T : ∀ d, (d < 2)%nat → ata_of d ch2 = Some (bool_decide (is_Some (disk_at d h)))).
  { intros d Hd. destruct (Hdv d Hd) as [a Ea]. unfold ch2, ch1. rewrite !flag_ata, D2, !D1. unfold ata_of. rewrite Ea.
    destruct d as [|[|]]; [done|done|lia]. }
  destruct (identify_run bl bl1 ch2 h3 ms1 0) as (ch4 & h4 & ms4 & E4 & K4 & T4); [done|done|lia|done|by rewrite D; apply T; lia|
    intros dk; rewrite D; apply Hid|by eapply probed_same; [apply D|]|]. destruct K4 as [Pr4 C4 G4 D4].
  rewrite (bind_Ret _ _ _ _ _ E4).
  destruct (identify_run bl1 bl2 ch4 h4 ms4 1) as (ch5 & h5 & ms5 & E5 & K5 & _); [done|done|lia|done| |
    intros dk; rewrite D4, D; apply Hid|eapply probed_same; [|exact P2]; by rewrite D4|].
  { rewrite T4 by done. rewrite D4, D. apply T. lia. }
  destruct K5 as [Pr5 C5 G5 D5]. exists ch5, h5, ms5. split; [exact E5|]. split; try done. intros d. by rewrite D5, D4.
Qed.
End detection.

Definition probe_disks (scan_fuel : nat) (fails : nat → bool) (x : ide machine) : cmd devices unit :=
  let probe_at c d := match disk_of c d x with Some dk => probe scan_fuel fails c d (d_ident dk) | None => mret tt end in
  probe_at 0%nat 0%nat;; probe_at 0%nat 1%nat;; probe_at 1%nat 0%nat;; probe_at 1%nat 1%nat.
(** The machine before [ide_init]: the channels have no command under way, a
    second disk comes with a first one, and no interrupt handler is registered
    for the channels. *)
Record powered (x : ide machine) : Prop := {
  w_on : intr_on x = true;
  w_vs : ∀ c, (c < 2)%nat → irq_of c ∉ vectors x;
  w_chs : length (channels x) = 2%nat;
  w_hs : length (chans (hw x)) = 2%nat;
  w_lat : timely (hw x);
  w_hw : ∀ c h, chans (hw x) !! c = Some h → calm h ∧ (is_Some (slave h) → is_Some (master h));
  w_disk : ∀ c d dk, disk_of c d x = Some dk → disk_ok dk }.

Lemma init_channel_run patience scan_fuel fails c x h bl1 bl2 : (0 < patience)%nat → (c < 2)%nat → chans (hw x) !! c = Some h →
  intr_on x = true → irq_of c ∉ vectors x → length (channels x) = 2%nat → length (chans (hw x)) = 2%nat → timely (hw x) →
  (∀ c' ch, (c' < c)%nat → channels x !! c' = Some ch → irq ch = irq_of c') → (∀ c' h', c' ≠ c → chans (hw x) !! c' = Some h' → quiet h') →
  calm h → (is_Some (slave h) → is_Some (master h)) → (∀ d dk, disk_at d h = Some dk → length (d_ident dk) = 512%nat) →
  probed scan_fuel fails c 0 h (blocks x) bl1 → probed scan_fuel fails c 1 h bl1 bl2 →
  ∃ ch' h' ms', init_channel patience scan_fuel fails c x =
    Ret (tt, at_ c (channels x) (chans (hw x)) (latency (hw x)) bl2 (irq_of c :: vectors x) ch' h' ms') ∧ kept c h ch' h'.
Proof.
  intros Hp Hc Hh Hon Hv Hlc Hlh Ht Hb Ho Hcalm Hms Hid P1 P2. unfold init_channel.
  set (st0 := at_ c (channels x) (chans (hw x)) (latency (hw x)) (blocks x) (irq_of c :: vectors x) (new_channel c) h (messages x)).
  assert (L : layout c (channels x) (chans (hw x)) (irq_of c :: vectors x)) by (split; try done; left).
  assert (E : (alter_channel (λ _, new_channel c) c;; intr_register_ext (irq_of c)) x = Ret (tt, st0)).
  { unfold alter_channel, intr_register_ext. rewrite modify_bind, ASSERT_bind by (destruct c as [|[|]]; done || lia).
    rewrite gets_bind, ASSERT_bind by (by apply bool_decide_true). rewrite modify_run. unfold st0, at_. cbn [channels hw blocks intr_on vectors messages].
    assert (Ea : alter (λ _, new_channel c) c (channels x) = <[c := new_channel c]> (channels x)) by (by rewrite list_insert_alter).
    rewrite Ea, Hon, (list_insert_id _ _ _ Hh). by destruct (hw x). }
  destruct (detect_disks_run patience scan_fuel fails Hp c (channels x) (chans (hw x)) (latency (hw x)) (irq_of c :: vectors x) L (Ht c)
    (blocks x) bl1 bl2 (new_channel c) h (messages x)) as (ch' & h' & ms' & E2 & K); try done.
  { by eapply new_channel_proper. }
  { intros [|[|]] Hd; [by eexists|by eexists|lia]. }
  exists ch', h', ms'. split; [|done]. unfold detect_disks in E2. fold st0 in E2. rewrite <- E2.
  unfold mbind, cmd_bind in E |- *. destruct (alter_channel _ c x) as [[[] y]|]; [|done]. by rewrite E.
Qed.


(** ** An example: two disks on the first channel, one on the second *)
Definition example_ident (capacity : Z) : list Z :=
  replicate 20 66 ++ replicate 100 65 ++
    [capacity mod 256; Z.shiftr capacity 8 mod 256; Z.shiftr capacity 16 mod 256; Z.shiftr capacity 24 mod 256] ++ replicate 388 0.
Definition ata (capacity : Z) : disk := mk_disk {[0 := replicate 512 1]} capacity (example_ident capacity).
Definition powered_channel (m s : option disk) : chan := mk_chan m s 0 0 0 0 0 0 Idle false false false 0.
(** The [k]-th command takes up to 20 seconds. *)
Definition example_latency (c k : nat) : Z := 10000000000 * Z.of_nat (k mod 3).
Definition example_machine : machine :=
  mk_machine [powered_channel (Some (ata 100)) (Some (ata 200)); powered_channel (Some (ata 4000000)) None] example_latency.
Definition example_blocks : devices := mk_devices [] (replicate 4 None) {[0%nat := {[0 := replicate 512 1]}; 1%nat := {[0 := replicate 512 1]}; 2%nat := {[0 := replicate 512 1]}]} 0 [].
Definition cold : ide machine := mk_ide [new_channel 1; new_channel 1] example_machine example_blocks true [] [].
Definition warm : ide machine := mk_ide [new_channel 0; new_channel 1] example_machine example_blocks true [0x2e; 0x2f] [].

Lemma example_timely : timely example_machine.
Proof. intros c k. simpl. unfold example_latency. pose proof (Nat.mod_upper_bound k 3). lia. Qed.
Lemma ata_ok capacity : 0 <= capacity <= 2 ^ 28 → disk_ok (ata capacity).
Proof.
  intros Hc. split; [done| |].
  - intros sec. unfold sector_of, ata. cbn [d_sectors]. rewrite lookup_singleton. by case_decide.
  - done.
Qed.
Lemma example_disks s c d dk : hw s = example_machine → disk_of c d s = Some dk → disk_ok dk.
Proof.
  intros E. unfold disk_of. rewrite E. destruct c as [|[|]]; [| |done]; destruct d; simpl; intros [= <-]; by apply ata_ok.
Qed.
Lemma warm_ready : ready warm.
Proof.
  split; try done.
  - intros [|[|]] Hc; [left|right; left|lia].
  - apply example_timely.
  - intros c ch. destruct c as [|[|]]; [intros [= <-]|intros [= <-]|done]; (split; [done|split; [|done]]);
      intros [|[|]] Hd; [by eexists|by eexists|lia|by eexists|by eexists|lia].
  - intros c h. by destruct c as [|[|]]; [intros [= <-]|intros [= <-]|].
  - intros c d dk. by apply example_disks.
Qed.
Lemma warm_mirrors : mirrors warm example_blocks.
Proof.
  intros c d dk sec Hd. unfold disk_of. destruct c as [|[|]]; [| |done]; (destruct d as [|[|]]; [| |lia]); simpl; intros [= <-]; done.
Qed.
Lemma cold_powered : powered cold.
Proof.
  split; try done.
  - intros c _. by apply not_elem_of_nil.
  - apply example_timely.
  - intros c h. destruct c as [|[|]]; [intros [= <-]|intros [= <-]|done]; split; [done..|]; intros [? ?]; done.
  - intros c d dk. by apply example_disks.
Qed.

Lemma ide_refines_disks_witness :
  let rs := [WrSector 0 1 5 (replicate 512 7); RdSector 0 1 5; RdSector 0 0 5; RdSector 1 0 0; WrSector 1 0 0 (replicate 512 9); RdSector 1 0 0] in
  ∃ out x' b', run_requests (ide_request 1) rs warm = Ret (out, x') ∧ run_requests disk_request rs example_blocks = Ret (out, b') ∧
    ready x' ∧ mirrors x' b'.
Proof.
  intros rs. apply (ide_refines_disks 1 warm example_blocks rs); [lia|exact warm_ready|exact warm_mirrors|].
  repeat constructor; eexists; (split; [reflexivity|split; [lia|reflexivity]]).
Defined.

(** ** What the driver gets wrong *)
(** [expecting_interrupt] stays set after a command, so an interrupt that
    comes later is taken for the completion of the next command: the next
    [ide_write] returns while the disk is still busy with its sector, and no
    message says that the interrupt was unexpected. *)
Definition stray_interrupt (x : ide machine) : ide machine :=
  put_hw (mk_machine (alter raise 0%nat (chans (hw x))) (latency (hw x))) x.
Lemma late_interrupt_taken_for_completion :
  match (ide_read 1 0 0 0;; modify stray_interrupt;; timer_nsleep 0;; ide_write 1 0 0 5 (replicate 512 7)) warm with
  | Ret (_, x) => messages x = [BusyWaiting (disk_name 0 0); WaitOk] ∧ ∃ t h, chans (hw x) !! 0%nat = Some h ∧ ph h = Busy t (WriteJob 5 (replicate 512 7)) ∧
      disk_at 0 h = Some (ata 100)
  | Err _ => False
  end.
Proof. vm_compute. split; [reflexivity|]. do 2 eexists. split; [reflexivity|]. split; reflexivity. Qed.
(** The wait for an idle channel gives up after 10 milliseconds. *)
Lemma idle_wait_is_short :
  match wait_until_idle 0 0 (put_hw (mk_machine [taken 11000000 Identify (powered_channel (Some (ata 100)) None); powered_channel None None] example_latency) warm) with
  | Ret (_, x) => messages x = [IdleTimeout (disk_name 0 0)] ∧ ph <$> head (chans (hw x)) = Some (Busy 1000000 Identify)
  | Err _ => False
  end.
Proof. vm_compute. split; reflexivity. Qed.
(** The terminator overwrites the last of 20 characters. *)
Lemma last_character_lost :
  c_string (descramble_ata_string (chars "BADCFEHGJILKNMPORQTS") 20) = chars "ABCDEFGHIJKLMNOPQRS".
Proof. reflexivity. Qed.
(** A disk of 4 GB is reported as one of 0 bytes. *)
Lemma ignored_size_wraps :
  match ide_init 1 2 (λ _, false) (put_hw (mk_machine [powered_channel (Some (ata (8 * 1024 * 1024))) None; powered_channel None None] example_latency) cold) with
  | Ret (_, x) => messages x = [IgnoringDisk (disk_name 0 0) 0]
  | Err _ => False
  end.
Proof. vm_compute. reflexivity. Qed.
