(* ===== verification/Descriptors.v ===== *)
(** * The processor's descriptors and the task-state segment (userprog/gdt.c,
      userprog/tss.c, and the gates of threads/interrupt.c)

    A descriptor is a 64-bit number that the processor takes apart.  The
    functions [seg_*] and [gate_*] are the processor's reading of it (the
    formats of the IA-32 manual, volume 3a); the theorems say that it reads
    what the kernel meant. *)
From S2P Require Import Prelude Vaddr.
Open Scope Z_scope.

Definition SEL_NULL : Z := 0x00.
Definition SEL_KCSEG : Z := 0x08.
Definition SEL_KDSEG : Z := 0x10.
Definition SEL_UCSEG : Z := 0x1B.
Definition SEL_UDSEG : Z := 0x23.
Definition SEL_TSS : Z := 0x28.
Definition SEL_CNT : Z := 6.

Inductive seg_class : Set := CLS_SYSTEM | CLS_CODE_DATA.
#[global] Instance seg_class_eq_dec : EqDecision seg_class.
Proof. solve_decision. Defined.
Inductive seg_granularity : Set := GRAN_BYTE | GRAN_PAGE.
#[global] Instance seg_granularity_eq_dec : EqDecision seg_granularity.
Proof. solve_decision. Defined.
Definition class_bit (c : seg_class) : Z := match c with CLS_SYSTEM => 0 | CLS_CODE_DATA => 1 end.
Definition gran_bit (g : seg_granularity) : Z := match g with GRAN_BYTE => 0 | GRAN_PAGE => 1 end.

Definition make_seg_desc (base limit : Z) (class : seg_class) (type dpl : Z) (granularity : seg_granularity) : res Z :=
  RASSERT (limit <=? 0xfffff);;
  RASSERT ((0 <=? type) && (type <=? 15));;
  RASSERT ((0 <=? dpl) && (dpl <=? 3));;
  let e0 := Z.lor (Z.land limit 0xffff) (u32 (Z.shiftl base 16)) in
  let e1 :=
    Z.lor (Z.lor (Z.lor (Z.lor (Z.lor (Z.lor (Z.lor (Z.lor
      (Z.land (Z.shiftr base 16) 0xff) (Z.shiftl type 8)) (Z.shiftl (class_bit class) 12)) (Z.shiftl dpl 13))
      (Z.shiftl 1 15)) (Z.land limit 0xf0000)) (Z.shiftl 1 22)) (Z.shiftl (gran_bit granularity) 23)) (Z.land base 0xff000000) in
  Ret (Z.lor e0 (Z.shiftl e1 32)).
Definition make_code_desc (dpl : Z) : res Z := make_seg_desc 0 0xfffff CLS_CODE_DATA 10 dpl GRAN_PAGE.
Definition make_data_desc (dpl : Z) : res Z := make_seg_desc 0 0xfffff CLS_CODE_DATA 2 dpl GRAN_PAGE.
Definition make_tss_desc (laddr : Z) : res Z := make_seg_desc laddr 0x67 CLS_SYSTEM 9 0 GRAN_BYTE.
Definition make_gdtr_operand (limit base : Z) : Z := Z.lor limit (Z.shiftl base 16).

(** The fields of [struct tss] that are set; the others are zero. *)
Record tss : Set := mk_tss { esp0 : Z; ss0 : Z; bitmap : Z }.
(** [gdtr] and [tr] are the processor's registers, [cur] the page of the
    running thread. *)
Record tables : Set := mk_tables { the_tss : option (Z * tss); gdt : list Z; gdtr : Z; tr : Z; cur : Z }.

Definition tss_update : cmd tables unit := λ s,
  match the_tss s with
  | Some (a, t) => Ret (tt, mk_tables (Some (a, mk_tss (u32 (cur s + PGSIZE)) (ss0 t) (bitmap t))) (gdt s) (gdtr s) (tr s) (cur s))
  | None => Err AssertFail
  end.
(** [page] is the zeroed page that [palloc_get_page] gives; with [PAL_ASSERT]
    it panics when there is none. *)
Definition tss_init (page : option Z) : cmd tables unit :=
  match page with
  | None => throw KernelPanic
  | Some a => modify (λ s, mk_tables (Some (a, mk_tss 0 SEL_KDSEG 0xdfff)) (gdt s) (gdtr s) (tr s) (cur s));; tss_update
  end.
Definition tss_get : cmd tables Z := λ s,
  match the_tss s with Some (a, _) => Ret (a, s) | None => Err AssertFail end.

(** The entry of a selector; its low three bits are not part of the index. *)
Definition set_gdt (sel d : Z) : cmd tables unit :=
  modify (λ s, mk_tables (the_tss s) (<[Z.to_nat (sel / 8) := d]> (gdt s)) (gdtr s) (tr s) (cur s)).
Definition gdt_init (gdt_addr : Z) : cmd tables unit :=
  set_gdt SEL_NULL 0;;
  kc ← lift_res (make_code_desc 0); set_gdt SEL_KCSEG kc;;
  kd ← lift_res (make_data_desc 0); set_gdt SEL_KDSEG kd;;
  uc ← lift_res (make_code_desc 3); set_gdt SEL_UCSEG uc;;
  ud ← lift_res (make_data_desc 3); set_gdt SEL_UDSEG ud;;
  a ← tss_get; td ← lift_res (make_tss_desc a); set_gdt SEL_TSS td;;
  modify (λ s, mk_tables (the_tss s) (gdt s) (make_gdtr_operand (SEL_CNT * 8 - 1) gdt_addr) SEL_TSS (cur s)).

(** Gates of the interrupt descriptor table. *)
Definition make_gate (function dpl type : Z) : res Z :=
  RASSERT (negb (function =? 0));;
  RASSERT ((0 <=? dpl) && (dpl <=? 3));;
  RASSERT ((0 <=? type) && (type <=? 15));;
  let e0 := Z.lor (Z.land function 0xffff) (Z.shiftl SEL_KCSEG 16) in
  let e1 := Z.lor (Z.lor (Z.lor (Z.lor (Z.land function 0xffff0000) (Z.shiftl 1 15)) (Z.shiftl dpl 13)) (Z.shiftl 0 12)) (Z.shiftl type 8) in
  Ret (Z.lor e0 (Z.shiftl e1 32)).
Definition make_intr_gate (function dpl : Z) : res Z := make_gate function dpl 14.
Definition make_trap_gate (function dpl : Z) : res Z := make_gate function dpl 15.
Definition make_idtr_operand (limit base : Z) : Z := Z.lor limit (Z.shiftl base 16).

(** ** The processor's reading *)
Definition bits (d : Z) (from n : Z) : Z := Z.land (Z.shiftr d from) (Z.ones n).
Definition seg_base (d : Z) : Z := Z.lor (bits d 16 24) (Z.shiftl (bits d 56 8) 24).
Definition seg_limit (d : Z) : Z := Z.lor (bits d 0 16) (Z.shiftl (bits d 48 4) 16).
Definition desc_type (d : Z) : Z := bits d 40 4.
Definition desc_class (d : Z) : Z := bits d 44 1.
Definition desc_dpl (d : Z) : Z := bits d 45 2.
Definition desc_present (d : Z) : bool := Z.testbit d 47.
Definition seg_big (d : Z) : bool := Z.testbit d 54.
Definition seg_gran (d : Z) : Z := bits d 55 1.
Definition gate_offset (g : Z) : Z := Z.lor (bits g 0 16) (Z.shiftl (bits g 48 16) 16).
Definition gate_selector (g : Z) : Z := bits g 16 16.
Definition table_limit (op : Z) : Z := bits op 0 16.
Definition table_base (op : Z) : Z := bits op 16 32.

(** ** Bits as digits *)
Lemma lor_add a b k : 0 <= k → 0 <= a < 2 ^ k → b mod 2 ^ k = 0 → Z.lor a b = a + b.
Proof.
  intros Hk Ha Hb. assert (L : Z.land a b = 0).
  { apply Z.bits_inj'. intros n Hn. rewrite Z.land_spec, Z.bits_0. destruct (Z.lt_ge_cases n k).
    - replace (Z.testbit b n) with false; [by rewrite andb_false_r|].
      rewrite <- (Z.mod_pow2_bits_low b k n), Hb, Z.bits_0 by lia. done.
    - rewrite <- (Z.mod_small a (2 ^ k)) by done. by rewrite Z.mod_pow2_bits_high by lia. }
  by rewrite Z.add_nocarry_lxor, <- Z.lxor_lor by done.
Qed.
Lemma lor_add' a b k : 0 <= k → 0 <= b < 2 ^ k → a mod 2 ^ k = 0 → Z.lor a b = a + b.
Proof. intros. rewrite Z.lor_comm, (lor_add b a k) by done. lia. Qed.
Lemma land_field a k n : 0 <= k → 0 <= n → Z.land a (Z.shiftl (Z.ones n) k) = 2 ^ k * (a / 2 ^ k mod 2 ^ n).
Proof.
  intros Hk Hn. rewrite <- Z.land_ones, <- Z.shiftr_div_pow2, Z.mul_comm, <- Z.shiftl_mul_pow2 by done.
  apply Z.bits_inj'. intros i Hi. rewrite Z.land_spec. destruct (Z.lt_ge_cases i k).
  - rewrite !Z.shiftl_spec_low by done. by rewrite andb_false_r.
  - rewrite !Z.shiftl_spec_high, Z.land_spec, Z.shiftr_spec by lia. f_equal. f_equal. lia.
Qed.
Lemma bits_div d from n : 0 <= from → 0 <= n → bits d from n = d / 2 ^ from mod 2 ^ n.
Proof. intros. unfold bits. by rewrite Z.land_ones, Z.shiftr_div_pow2. Qed.

Ltac digits_lia := Z.div_mod_to_equations; lia.

Section segment.
Context (base limit type dpl : Z) (class : seg_class) (granularity : seg_granularity).
Context (Hb : 0 <= base < 2 ^ 32) (Hl : 0 <= limit < 2 ^ 20) (Ht : 0 <= type < 2 ^ 4) (Hd : 0 <= dpl < 2 ^ 2).

Lemma class_range : 0 <= class_bit class < 2.
Proof using Type. destruct class; simpl; lia. Qed.
Lemma gran_range : 0 <= gran_bit granularity < 2.
Proof using Type. destruct granularity; simpl; lia. Qed.

(** The descriptor as a sum of its fields. *)
Definition seg_sum : Z :=
  limit mod 2 ^ 16 + 2 ^ 16 * (base mod 2 ^ 16) + 2 ^ 32 * (base / 2 ^ 16 mod 2 ^ 8 + 2 ^ 8 * type + 2 ^ 12 * class_bit class +
    2 ^ 13 * dpl + 2 ^ 15 + 2 ^ 16 * (limit / 2 ^ 16) + 2 ^ 22 + 2 ^ 23 * gran_bit granularity + 2 ^ 24 * (base / 2 ^ 24)).
Lemma make_seg_desc_sum : make_seg_desc base limit class type dpl granularity = Ret seg_sum.
Proof using Hb Hl Ht Hd.
  unfold make_seg_desc, RASSERT. rewrite (proj2 (Z.leb_le limit _)) by lia.
  rewrite (proj2 (Z.leb_le 0 type)), (proj2 (Z.leb_le type 15)), (proj2 (Z.leb_le 0 dpl)), (proj2 (Z.leb_le dpl 3)) by lia.
  cbn [andb mbind res_bind]. f_equal. unfold seg_sum. pose proof class_range as Hc. pose proof gran_range as Hg.
  change 0xffff with (Z.ones 16). change 0xff with (Z.ones 8). rewrite !Z.land_ones by lia.
  change 0xf0000 with (Z.shiftl (Z.ones 4) 16). change 0xff000000 with (Z.shiftl (Z.ones 8) 24). rewrite !land_field by lia.
  rewrite !Z.shiftl_mul_pow2, !Z.shiftr_div_pow2 by lia. unfold u32.
  set (cb := class_bit class) in *. set (gb := gran_bit granularity) in *. clearbody cb gb.
  rewrite (lor_add (limit mod 2 ^ 16) _ 16) by (lia || digits_lia).
  rewrite (lor_add (base / 2 ^ 16 mod 2 ^ 8) _ 8) by digits_lia.
  rewrite (lor_add _ (cb * 2 ^ 12) 12) by digits_lia.
  rewrite (lor_add _ (dpl * 2 ^ 13) 13) by digits_lia.
  rewrite (lor_add _ (1 * 2 ^ 15) 15) by digits_lia.
  rewrite (lor_add _ (2 ^ 16 * (limit / 2 ^ 16 mod 2 ^ 4)) 16) by digits_lia.
  rewrite (lor_add _ (1 * 2 ^ 22) 22) by digits_lia.
  rewrite (lor_add _ (gb * 2 ^ 23) 23) by digits_lia.
  rewrite (lor_add _ (2 ^ 24 * (base / 2 ^ 24 mod 2 ^ 8)) 24) by digits_lia.
  rewrite (lor_add (limit mod 2 ^ 16 + base * 2 ^ 16 mod 2 ^ 32) _ 32) by digits_lia.
  digits_lia.
Qed.

Lemma seg_decode : seg_base seg_sum = base ∧ seg_limit seg_sum = limit ∧ desc_type seg_sum = type ∧
  desc_class seg_sum = class_bit class ∧ desc_dpl seg_sum = dpl ∧ seg_gran seg_sum = gran_bit granularity ∧
  desc_present seg_sum = true ∧ seg_big seg_sum = true.
Proof using Hb Hl Ht Hd.
  pose proof class_range as Hc. pose proof gran_range as Hg. unfold seg_base, seg_limit, desc_type, desc_class, desc_dpl, seg_gran, desc_present, seg_big.
  rewrite !bits_div, !Z.shiftl_mul_pow2 by lia. unfold seg_sum.
  set (cb := class_bit class) in *. set (gb := gran_bit granularity) in *. clearbody cb gb.
  split_and!; [rewrite (lor_add _ _ 24) by digits_lia|rewrite (lor_add _ _ 16) by digits_lia|..]; try digits_lia.
  all: apply Z.testbit_true; [lia|digits_lia].
Qed.
End segment.

(** ** Gates *)
Section gate.
Context (function dpl type : Z).
Context (Hf : 0 < function < 2 ^ 32) (Hd : 0 <= dpl < 2 ^ 2) (Ht : 0 <= type < 2 ^ 4).

Definition gate_sum : Z :=
  function mod 2 ^ 16 + 2 ^ 16 * SEL_KCSEG + 2 ^ 32 * (2 ^ 8 * type + 2 ^ 13 * dpl + 2 ^ 15 + 2 ^ 16 * (function / 2 ^ 16)).
Lemma make_gate_sum : make_gate function dpl type = Ret gate_sum.
Proof using Hf Hd Ht.
  unfold make_gate, RASSERT. rewrite (proj2 (Z.eqb_neq function 0)) by lia.
  rewrite (proj2 (Z.leb_le 0 type)), (proj2 (Z.leb_le type 15)), (proj2 (Z.leb_le 0 dpl)), (proj2 (Z.leb_le dpl 3)) by lia.
  cbn [negb andb mbind res_bind]. f_equal. unfold gate_sum, SEL_KCSEG.
  change 0xffff with (Z.ones 16). rewrite !Z.land_ones by lia.
  change 0xffff0000 with (Z.shiftl (Z.ones 16) 16). rewrite !land_field by lia. rewrite Z.shiftl_0_l, Z.lor_0_r.
  rewrite !Z.shiftl_mul_pow2 by lia.
  rewrite (lor_add (function mod 2 ^ 16) _ 16) by digits_lia.
  rewrite (lor_add' (2 ^ 16 * (function / 2 ^ 16 mod 2 ^ 16)) _ 16) by digits_lia.
  rewrite (lor_add' _ (dpl * 2 ^ 13) 15) by digits_lia.
  rewrite (lor_add' _ (type * 2 ^ 8) 13) by digits_lia.
  rewrite (lor_add (function mod 2 ^ 16 + 8 * 2 ^ 16) _ 32) by digits_lia.
  digits_lia.
Qed.
Lemma gate_decode : gate_offset gate_sum = function ∧ gate_selector gate_sum = SEL_KCSEG ∧ desc_type gate_sum = type ∧
  desc_class gate_sum = 0 ∧ desc_dpl gate_sum = dpl ∧ desc_present gate_sum = true.
Proof using Hf Hd Ht.
  unfold gate_offset, gate_selector, desc_type, desc_class, desc_dpl, desc_present.
  rewrite !bits_div, !Z.shiftl_mul_pow2 by lia. unfold gate_sum, SEL_KCSEG.
  split_and!; [rewrite (lor_add _ _ 16) by digits_lia|..]; try digits_lia.
  apply Z.testbit_true; [lia|digits_lia].
Qed.
End gate.

Lemma operand_decode limit base : 0 <= limit < 2 ^ 16 → 0 <= base < 2 ^ 32 →
  table_limit (make_gdtr_operand limit base) = limit ∧ table_base (make_gdtr_operand limit base) = base.
Proof.
  intros Hl Hb. unfold table_limit, table_base, make_gdtr_operand. rewrite !bits_div, Z.shiftl_mul_pow2, (lor_add limit _ 16) by digits_lia.
  split; digits_lia.
Qed.

(** ** The global descriptor table *)
(** What the processor knows about a segment. *)
Record segment : Set := mk_segment { g_base : Z; g_limit : Z; g_type : Z; g_code_data : bool; g_dpl : Z; g_pages : bool; g_usable : bool }.
Definition segment_of (d : Z) : segment :=
  mk_segment (seg_base d) (seg_limit d) (desc_type d) (desc_class d =? 1) (desc_dpl d) (seg_gran d =? 1) (desc_present d && seg_big d).
(** The segment a selector stands for in a table. *)
Definition lookup_segment (s : tables) (sel : Z) : option segment := segment_of <$> gdt s !! Z.to_nat (sel / 8).

Lemma make_segment base limit type dpl class g : 0 <= base < 2 ^ 32 → 0 <= limit < 2 ^ 20 → 0 <= type < 2 ^ 4 → 0 <= dpl < 2 ^ 2 →
  ∃ d, make_seg_desc base limit class type dpl g = Ret d ∧
    segment_of d = mk_segment base limit type (bool_decide (class = CLS_CODE_DATA)) dpl (bool_decide (g = GRAN_PAGE)) true.
Proof.
  intros Hb Hl Ht Hd. eexists. split; [by apply make_seg_desc_sum|].
  destruct (seg_decode base limit type dpl class g Hb Hl Ht Hd) as (E1 & E2 & E3 & E4 & E5 & E6 & E7 & E8).
  unfold segment_of. rewrite E1, E2, E3, E4, E5, E6, E7, E8. by destruct class, g.
Qed.

Definition code_segment (dpl : Z) : segment := mk_segment 0 0xfffff 10 true dpl true true.
Definition data_segment (dpl : Z) : segment := mk_segment 0 0xfffff 2 true dpl true true.
Definition tss_segment (a : Z) : segment := mk_segment a 0x67 9 false 0 false true.

Lemma set_gdt_run sel d s : set_gdt sel d s = Ret (tt, mk_tables (the_tss s) (<[Z.to_nat (sel / 8) := d]> (gdt s)) (gdtr s) (tr s) (cur s)).
Proof. done. Qed.

Lemma gdt_init_run gdt_addr kc kd uc ud td page t old_gdtr old_tr c g0 g1 g2 g3 g4 g5 :
  make_code_desc 0 = Ret kc → make_data_desc 0 = Ret kd → make_code_desc 3 = Ret uc → make_data_desc 3 = Ret ud →
  make_tss_desc page = Ret td →
  gdt_init gdt_addr (mk_tables (Some (page, t)) [g0; g1; g2; g3; g4; g5] old_gdtr old_tr c) =
  Ret (tt, mk_tables (Some (page, t)) [0; kc; kd; uc; ud; td] (make_gdtr_operand (SEL_CNT * 8 - 1) gdt_addr) SEL_TSS c).
Proof.
  intros Ekc Ekd Euc Eud Etd. unfold gdt_init. rewrite Ekc, Ekd, Euc, Eud. unfold set_gdt.
  rewrite !modify_bind, lift_bind, modify_bind, lift_bind, modify_bind, lift_bind, modify_bind, lift_bind, modify_bind.
  erewrite bind_Ret by (unfold tss_get; cbn [the_tss]; reflexivity). rewrite Etd, lift_bind, modify_bind. reflexivity.
Qed.
Lemma tss_init_run page s : 0 <= cur s → cur s + PGSIZE < 2 ^ 32 →
  tss_init (Some page) s = Ret (tt, mk_tables (Some (page, mk_tss (cur s + PGSIZE) SEL_KDSEG 0xdfff)) (gdt s) (gdtr s) (tr s) (cur s)).
Proof.
  intros H1 H2. unfold tss_init. rewrite modify_bind. unfold tss_update. cbn [the_tss gdt gdtr tr cur ss0 bitmap].
  rewrite u32_small; [done|]. change PGSIZE with 4096 in *. lia.
Qed.

(** After [tss_init] and [gdt_init] the processor sees flat 4 GB code and
    data segments for the kernel (ring 0) and for user programs (ring 3), a
    task-state segment of 0x67 bytes at the page that was allocated for it,
    whose ring 0 stack is the top of the running thread's page, and a null first
    entry; the table register covers exactly the six entries. *)
Theorem segments_correct page s gdt_addr :
  0 <= page < 2 ^ 32 → length (gdt s) = 6%nat → 0 <= gdt_addr < 2 ^ 32 → 0 <= cur s → cur s + PGSIZE < 2 ^ 32 →
  ∃ s', (tss_init (Some page);; gdt_init gdt_addr) s = Ret (tt, s') ∧
    gdt s' !! 0%nat = Some 0 ∧
    lookup_segment s' SEL_KCSEG = Some (code_segment 0) ∧ lookup_segment s' SEL_KDSEG = Some (data_segment 0) ∧
    lookup_segment s' SEL_UCSEG = Some (code_segment 3) ∧ lookup_segment s' SEL_UDSEG = Some (data_segment 3) ∧
    lookup_segment s' SEL_TSS = Some (tss_segment page) ∧ tr s' = SEL_TSS ∧
    the_tss s' = Some (page, mk_tss (cur s + PGSIZE) SEL_KDSEG 0xdfff) ∧
    table_base (gdtr s') = gdt_addr ∧ table_limit (gdtr s') = 8 * Z.of_nat (length (gdt s')) - 1.
Proof.
  intros Hp Hlen Hg Hc1 Hc2.
  destruct (make_segment 0 0xfffff 10 0 CLS_CODE_DATA GRAN_PAGE) as (kc & Ekc & Dkc); [lia..|].
  destruct (make_segment 0 0xfffff 2 0 CLS_CODE_DATA GRAN_PAGE) as (kd & Ekd & Dkd); [lia..|].
  destruct (make_segment 0 0xfffff 10 3 CLS_CODE_DATA GRAN_PAGE) as (uc & Euc & Duc); [lia..|].
  destruct (make_segment 0 0xfffff 2 3 CLS_CODE_DATA GRAN_PAGE) as (ud & Eud & Dud); [lia..|].
  destruct (make_segment page 0x67 9 0 CLS_SYSTEM GRAN_BYTE) as (td & Etd & Dtd); [lia..|].
  destruct (operand_decode (SEL_CNT * 8 - 1) gdt_addr) as [El Eb]; [unfold SEL_CNT; lia|done|].
  eexists. split.
  { rewrite (bind_Ret _ _ _ _ _ (tss_init_run page s Hc1 Hc2)).
    destruct (gdt s) as [|? [|? [|? [|? [|? [|? [|]]]]]]]; try discriminate.
    exact (gdt_init_run gdt_addr _ _ _ _ _ _ _ _ _ _ _ _ _ _ _ _ Ekc Ekd Euc Eud Etd). }
  unfold lookup_segment. cbn [gdt the_tss gdtr tr cur]. rewrite El, Eb.
  split; [reflexivity|]. split; [exact (f_equal Some Dkc)|]. split; [exact (f_equal Some Dkd)|].
  split; [exact (f_equal Some Duc)|]. split; [exact (f_equal Some Dud)|]. split; [exact (f_equal Some Dtd)|].
  repeat (split; [reflexivity|]). reflexivity.
Qed.
Lemma segments_correct_witness :
  ∃ s', (tss_init (Some 0xc0106000);; gdt_init 0xc0030000) (mk_tables None (replicate 6 0) 0 0 0xc000e000) = Ret (tt, s') ∧
    lookup_segment s' SEL_UCSEG = Some (code_segment 3).
Proof.
  destruct (segments_correct 0xc0106000 (mk_tables None (replicate 6 0) 0 0 0xc000e000) 0xc0030000) as (s' & E & _ & _ & _ & U & _);
    [lia|done|lia|simpl; lia|change PGSIZE with 4096; simpl; lia|].
  exists s'. split; [exact E|exact U].
Defined.
