(* ===== verification/Idt.v ===== *)
(** * Interrupt descriptor table, interrupt controller and exceptions
      (threads/interrupt.c, userprog/exception.c)

    The state of interrupt.c, the interrupt flag, and the ordered record of what
    the code does to the outside: writes to I/O ports, messages on the console,
    the load of the table register and yields.  The addresses of the assembly
    stubs (threads/intr-stubs.S) and the handlers of the devices and of system
    calls, which other files model, are parameters. *)
From stdpp Require Import strings.
From S2P Require Import Prelude Vaddr Descriptors.
Open Scope Z_scope.

Definition INTR_CNT : nat := 256.
Definition PIC0_CTRL : Z := 0x20.
Definition PIC0_DATA : Z := 0x21.
Definition PIC1_CTRL : Z := 0xa0.
Definition PIC1_DATA : Z := 0xa1.
Definition PF_P : Z := 0x1.
Definition PF_W : Z := 0x2.
Definition PF_U : Z := 0x4.

Inductive intr_level : Set := INTR_OFF | INTR_ON.
#[global] Instance intr_level_eq_dec : EqDecision intr_level.
Proof. solve_decision. Defined.

(** The handlers the kernel registers. *)
Inductive intr_handler_func : Set :=
  | timer_interrupt | keyboard_interrupt | serial_interrupt | ide_interrupt
  | kill | page_fault | syscall_handler.
#[global] Instance handler_eq_dec : EqDecision intr_handler_func.
Proof. solve_decision. Defined.

Record intr_frame : Set := mk_frame {
  edi : Z; esi : Z; ebp : Z; ebx : Z; edx : Z; ecx : Z; eax : Z; es : Z; ds : Z;
  vec_no : Z; error_code : Z; eip : Z; cs : Z; eflags : Z; esp : Z; ss : Z }.
Definition set_eax (v : Z) (f : intr_frame) : intr_frame :=
  mk_frame (edi f) (esi f) (ebp f) (ebx f) (edx f) (ecx f) v (es f) (ds f) (vec_no f) (error_code f) (eip f) (cs f) (eflags f) (esp f) (ss f).

Inductive event : Set :=
  | Outb (port value : Z)
  | Lidt (operand : Z)
  | Yield
  | Unexpected (vec : Z) (name : string)
  | Dump (name : string) (cr2 : Z) (f : intr_frame)
  | DyingDueTo (thread : string) (vec : Z) (name : string)
  | ExitMessage (thread : string) (status : Z)
  | UnknownSegment (vec : Z) (name : string) (segment : Z)
  | PageFault (addr : Z) (not_present write user : bool).

Record intr : Set := mk_intr {
  idt : list Z; intr_handlers : list (option intr_handler_func); intr_names : list string; unexpected_cnt : list Z;
  in_external_intr : bool; yield_on_return : bool; level : intr_level; page_fault_cnt : Z; log : list event }.

(** The static arrays before [intr_init]; interrupts are off. *)
Definition zeroed : intr :=
  mk_intr (replicate INTR_CNT 0) (replicate INTR_CNT None) (replicate INTR_CNT EmptyString) (replicate INTR_CNT 0) false false INTR_OFF 0 [].

Definition set_gate (v : nat) (g : Z) : cmd intr unit := modify (λ s,
  mk_intr (<[v := g]> (idt s)) (intr_handlers s) (intr_names s) (unexpected_cnt s) (in_external_intr s) (yield_on_return s) (level s) (page_fault_cnt s) (log s)).
Definition set_handler (v : nat) (h : intr_handler_func) : cmd intr unit := modify (λ s,
  mk_intr (idt s) (<[v := Some h]> (intr_handlers s)) (intr_names s) (unexpected_cnt s) (in_external_intr s) (yield_on_return s) (level s) (page_fault_cnt s) (log s)).
Definition set_name (v : nat) (n : string) : cmd intr unit := modify (λ s,
  mk_intr (idt s) (intr_handlers s) (<[v := n]> (intr_names s)) (unexpected_cnt s) (in_external_intr s) (yield_on_return s) (level s) (page_fault_cnt s) (log s)).
Definition set_count (v : nat) (n : Z) : cmd intr unit := modify (λ s,
  mk_intr (idt s) (intr_handlers s) (intr_names s) (<[v := n]> (unexpected_cnt s)) (in_external_intr s) (yield_on_return s) (level s) (page_fault_cnt s) (log s)).
Definition set_external (b : bool) : cmd intr unit := modify (λ s,
  mk_intr (idt s) (intr_handlers s) (intr_names s) (unexpected_cnt s) b (yield_on_return s) (level s) (page_fault_cnt s) (log s)).
Definition set_yield (b : bool) : cmd intr unit := modify (λ s,
  mk_intr (idt s) (intr_handlers s) (intr_names s) (unexpected_cnt s) (in_external_intr s) b (level s) (page_fault_cnt s) (log s)).
Definition set_level (l : intr_level) : cmd intr unit := modify (λ s,
  mk_intr (idt s) (intr_handlers s) (intr_names s) (unexpected_cnt s) (in_external_intr s) (yield_on_return s) l (page_fault_cnt s) (log s)).
Definition count_fault : cmd intr unit := modify (λ s,
  mk_intr (idt s) (intr_handlers s) (intr_names s) (unexpected_cnt s) (in_external_intr s) (yield_on_return s) (level s) (page_fault_cnt s + 1) (log s)).
Definition emit (e : event) : cmd intr unit := modify (λ s,
  mk_intr (idt s) (intr_handlers s) (intr_names s) (unexpected_cnt s) (in_external_intr s) (yield_on_return s) (level s) (page_fault_cnt s) (log s ++ [e])).
Definition outb (p v : Z) : cmd intr unit := emit (Outb p v).

(** ** Interrupt controller *)
Definition pic_init : cmd intr unit :=
  outb PIC0_DATA 0xff;; outb PIC1_DATA 0xff;;
  outb PIC0_CTRL 0x11;; outb PIC0_DATA 0x20;; outb PIC0_DATA 0x04;; outb PIC0_DATA 0x01;;
  outb PIC1_CTRL 0x11;; outb PIC1_DATA 0x28;; outb PIC1_DATA 0x02;; outb PIC1_DATA 0x01;;
  outb PIC0_DATA 0x00;; outb PIC1_DATA 0x00.
Definition pic_end_of_interrupt (irq : Z) : cmd intr unit :=
  ASSERT ((0x20 <=? irq) && (irq <? 0x30));;
  outb 0x20 0x20;;
  if 0x28 <=? irq then outb 0xa0 0x20 else mret tt.

(** ** Messages of unexpected interrupts *)
Definition intr_name (vec : nat) : cmd intr string := gets (λ s, intr_names s !!! vec).
Definition unexpected_interrupt (vec : nat) : cmd intr unit :=
  n ← gets (λ s, u32 (unexpected_cnt s !!! vec + 1)); set_count vec n;;
  if Z.land n (u32 (n - 1)) =? 0 then name ← intr_name vec; emit (Unexpected (Z.of_nat vec) name) else mret tt.

Section tables.
(** [intr_stubs] of intr-stubs.S, and the address of [idt]. *)
Context (intr_stubs : nat → Z) (idt_addr : Z).

Fixpoint gate_loop (n : nat) (i : nat) : cmd intr unit :=
  match n with
  | O => mret tt
  | S n => g ← lift_res (make_intr_gate (intr_stubs i) 0); set_gate i g;; gate_loop n (S i)
  end.
Fixpoint name_loop (n : nat) (i : nat) : cmd intr unit :=
  match n with O => mret tt | S n => set_name i "unknown";; name_loop n (S i) end.
Definition exception_names : list (nat * string) :=
  [(0%nat, "#DE Divide Error"); (1%nat, "#DB Debug Exception"); (2%nat, "NMI Interrupt"); (3%nat, "#BP Breakpoint Exception");
   (4%nat, "#OF Overflow Exception"); (5%nat, "#BR BOUND Range Exceeded Exception"); (6%nat, "#UD Invalid Opcode Exception");
   (7%nat, "#NM Device Not Available Exception"); (8%nat, "#DF Double Fault Exception"); (9%nat, "Coprocessor Segment Overrun");
   (10%nat, "#TS Invalid TSS Exception"); (11%nat, "#NP Segment Not Present"); (12%nat, "#SS Stack Fault Exception");
   (13%nat, "#GP General Protection Exception"); (14%nat, "#PF Page-Fault Exception"); (16%nat, "#MF x87 FPU Floating-Point Error");
   (17%nat, "#AC Alignment Check Exception"); (18%nat, "#MC Machine-Check Exception"); (19%nat, "#XF SIMD Floating-Point Exception")].
Fixpoint set_names (l : list (nat * string)) : cmd intr unit :=
  match l with [] => mret tt | (v, n) :: l => set_name v n;; set_names l end.
Definition intr_init : cmd intr unit :=
  pic_init;;
  gate_loop INTR_CNT 0;;
  emit (Lidt (make_idtr_operand (8 * Z.of_nat INTR_CNT - 1) idt_addr));;
  name_loop INTR_CNT 0;;
  set_names exception_names.

(** A vector number is a [uint8_t]. *)
Definition register_handler (vec_no : Z) (dpl : Z) (level : intr_level) (handler : intr_handler_func) (name : string) : cmd intr unit :=
  let v := Z.to_nat vec_no in
  h ← gets (λ s, intr_handlers s !!! v);
  ASSERT (bool_decide (h = None));;
  g ← lift_res (match level with INTR_ON => make_trap_gate (intr_stubs v) dpl | INTR_OFF => make_intr_gate (intr_stubs v) dpl end);
  set_gate v g;;
  set_handler v handler;;
  set_name v name.
Definition intr_register_ext (vec_no : Z) (handler : intr_handler_func) (name : string) : cmd intr unit :=
  ASSERT ((0x20 <=? vec_no) && (vec_no <=? 0x2f));;
  register_handler vec_no 0 INTR_OFF handler name.
Definition intr_register_int (vec_no : Z) (dpl : Z) (level : intr_level) (handler : intr_handler_func) (name : string) : cmd intr unit :=
  ASSERT ((vec_no <? 0x20) || (0x2f <? vec_no));;
  register_handler vec_no dpl level handler name.

Definition exception_init : cmd intr unit :=
  intr_register_int 3 3 INTR_ON kill "#BP Breakpoint Exception";;
  intr_register_int 4 3 INTR_ON kill "#OF Overflow Exception";;
  intr_register_int 5 3 INTR_ON kill "#BR BOUND Range Exceeded Exception";;
  intr_register_int 0 0 INTR_ON kill "#DE Divide Error";;
  intr_register_int 1 0 INTR_ON kill "#DB Debug Exception";;
  intr_register_int 6 0 INTR_ON kill "#UD Invalid Opcode Exception";;
  intr_register_int 7 0 INTR_ON kill "#NM Device Not Available Exception";;
  intr_register_int 11 0 INTR_ON kill "#NP Segment Not Present";;
  intr_register_int 12 0 INTR_ON kill "#SS Stack Fault Exception";;
  intr_register_int 13 0 INTR_ON kill "#GP General Protection Exception";;
  intr_register_int 16 0 INTR_ON kill "#MF x87 FPU Floating-Point Error";;
  intr_register_int 19 0 INTR_ON kill "#XF SIMD Floating-Point Exception";;
  intr_register_int 14 0 INTR_OFF page_fault "#PF Page-Fault Exception".
Definition syscall_init : cmd intr unit := intr_register_int 0x30 3 INTR_ON syscall_handler "syscall".
(** The registrations of [timer_init], [kbd_init], [serial_init_queue] and, for
    the two channels, [ide_init]. *)
Definition register_timer : cmd intr unit := intr_register_ext 0x20 timer_interrupt "8254 Timer".
Definition register_kbd : cmd intr unit := intr_register_ext 0x21 keyboard_interrupt "8042 Keyboard".
Definition register_serial : cmd intr unit := intr_register_ext (0x20 + 4) serial_interrupt "serial".
Definition register_ide : cmd intr unit :=
  intr_register_ext (14 + 0x20) ide_interrupt "ide0";; intr_register_ext (15 + 0x20) ide_interrupt "ide1".
(** The order of [main]. *)
Definition boot : cmd intr unit :=
  intr_init;; register_timer;; register_kbd;; exception_init;; syscall_init;; register_serial;; register_ide.
End tables.

(** ** Handling an interrupt *)
(** A handler returns with the frame the thread resumes with, or ends the
    thread ([thread_exit] does not return). *)
Inductive ended : Set := Returned (f : intr_frame) | Exited (f : intr_frame).
Definition intr_context : cmd intr bool := gets in_external_intr.
Definition intr_get_level : cmd intr intr_level := gets level.
Definition intr_enable : cmd intr intr_level :=
  old ← intr_get_level; c ← intr_context; ASSERT (negb c);; set_level INTR_ON;; mret old.
Definition intr_disable : cmd intr intr_level := old ← intr_get_level; set_level INTR_OFF;; mret old.
Definition intr_set_level (l : intr_level) : cmd intr intr_level := match l with INTR_ON => intr_enable | INTR_OFF => intr_disable end.
Definition intr_yield_on_return : cmd intr unit := c ← intr_context; ASSERT c;; set_yield true.

Section handling.
(** The name of the running thread, the faulting address in [cr2], and the
    handlers modelled elsewhere. *)
Context (thread_name : string) (cr2 : Z) (device : intr_handler_func → intr_frame → cmd intr ended).

Definition intr_dump_frame (f : intr_frame) : cmd intr unit :=
  name ← intr_name (Z.to_nat (vec_no f)); emit (Dump name cr2 f).

(** [thread_exit] asserts that no external interrupt is being processed. *)
Definition thread_exit (f : intr_frame) : cmd intr ended :=
  c ← intr_context; ASSERT (negb c);; mret (Exited f).

Definition do_kill (f : intr_frame) : cmd intr ended :=
  name ← intr_name (Z.to_nat (vec_no f));
  if cs f =? SEL_UCSEG then
    emit (DyingDueTo thread_name (vec_no f) name);;
    intr_dump_frame f;;
    let f := set_eax (2 ^ 32 - 1) f in
    emit (ExitMessage thread_name (-1));;
    thread_exit f
  else if cs f =? SEL_KCSEG then
    intr_dump_frame f;; throw KernelPanic
  else
    emit (UnknownSegment (vec_no f) name (cs f));;
    thread_exit f.

Definition do_page_fault (f : intr_frame) : cmd intr ended :=
  intr_enable;;
  count_fault;;
  let not_present := Z.land (error_code f) PF_P =? 0 in
  let write := negb (Z.land (error_code f) PF_W =? 0) in
  let user := negb (Z.land (error_code f) PF_U =? 0) in
  emit (PageFault cr2 not_present write user);;
  do_kill f.

Definition run_handler (h : intr_handler_func) : intr_frame → cmd intr ended :=
  match h with kill => do_kill | page_fault => do_page_fault | _ => device h end.

Definition finish_external (f : intr_frame) : cmd intr unit :=
  l ← intr_get_level; ASSERT (bool_decide (l = INTR_OFF));;
  c ← intr_context; ASSERT c;;
  set_external false;;
  pic_end_of_interrupt (vec_no f);;
  y ← gets yield_on_return;
  if (y : bool) then emit Yield else mret tt.

Definition intr_handler (frame : intr_frame) : cmd intr ended :=
  let external := (0x20 <=? vec_no frame) && (vec_no frame <? 0x30) in
  (if external then
     l ← intr_get_level; ASSERT (bool_decide (l = INTR_OFF));;
     c ← intr_context; ASSERT (negb c);;
     set_external true;; set_yield false
   else mret tt);;
  handler ← gets (λ s, intr_handlers s !!! Z.to_nat (vec_no frame));
  r ← match handler with
      | Some h => run_handler h frame
      | None =>
        if (vec_no frame =? 0x27) || (vec_no frame =? 0x2f) then mret (Returned frame)
        else unexpected_interrupt (Z.to_nat (vec_no frame));; mret (Returned frame)
      end;
  match r with
  | Exited f => mret (Exited f)
  | Returned f => (if external then finish_external f else mret tt);; mret (Returned f)
  end.
End handling.

(** * Interrupts: the table, the controller and the handling of an interrupt

    The descriptor table is compared with an abstract table of entries (ring,
    interrupt state, handler, name); the controller with a model of the two
    8259A chips that reads the bytes the kernel writes to their ports. *)

(** ** The abstract table *)
Record entry : Set := mk_entry { e_dpl : Z; e_level : intr_level; e_handler : option intr_handler_func; e_name : string }.
Definition gate_type (l : intr_level) : Z := match l with INTR_ON => 15 | INTR_OFF => 14 end.
Inductive request : Set :=
  | Ext (v : Z) (h : intr_handler_func) (n : string)
  | Int (v dpl : Z) (l : intr_level) (h : intr_handler_func) (n : string).
Definition vector (r : request) : Z := match r with Ext v _ _ => v | Int v _ _ _ _ => v end.
Definition external (v : Z) : bool := (0x20 <=? v) && (v <=? 0x2f).
Definition entry_of (r : request) : entry :=
  match r with Ext _ h n => mk_entry 0 INTR_OFF (Some h) n | Int _ dpl l h n => mk_entry dpl l (Some h) n end.
(** A registration is accepted when the vector is free, on the right side of
    the external range, and the ring exists. *)
Definition accepted (r : request) (t : list entry) : bool :=
  bool_decide (e_handler <$> t !! Z.to_nat (vector r) = Some None) &&
  match r with Ext v _ _ => external v | Int v dpl _ _ _ => negb (external v) && (0 <=? dpl) && (dpl <=? 3) end.
Definition add_request (t : list entry) (r : request) : option (list entry) :=
  if accepted r t then Some (<[Z.to_nat (vector r) := entry_of r]> t) else None.
Fixpoint add_requests (rs : list request) (t : list entry) : option (list entry) :=
  match rs with [] => Some t | r :: rs => t ← add_request t r; add_requests rs t end.
Definition valid (r : request) : Prop := 0 <= vector r < 256.
#[global] Instance valid_dec r : Decision (valid r).
Proof. unfold valid. apply _. Defined.

Section table.
Context (stub : nat → Z) (idt_addr : Z).
Context (stubs_ok : ∀ v, (v < INTR_CNT)%nat → 0 < stub v < 2 ^ 32).
Context (addr_ok : 0 <= idt_addr < 2 ^ 32).

Definition do_request (r : request) : cmd intr unit :=
  match r with Ext v h n => intr_register_ext stub v h n | Int v dpl l h n => intr_register_int stub v dpl l h n end.
Fixpoint do_requests (rs : list request) : cmd intr unit :=
  match rs with [] => mret tt | r :: rs => do_request r;; do_requests rs end.

Definition gate_of (v : nat) (e : entry) : Z := gate_sum (stub v) (e_dpl e) (gate_type (e_level e)).
(** The state whose tables are those of [t]. *)
Definition with_table (t : list entry) (s : intr) : intr :=
  mk_intr (imap gate_of t) (e_handler <$> t) (e_name <$> t) (unexpected_cnt s) (in_external_intr s) (yield_on_return s) (level s) (page_fault_cnt s) (log s).

Lemma imap_insert {A B} (f : nat → A → B) (l : list A) i x : imap f (<[i := x]> l) = <[i := f i x]> (imap f l).
Proof.
  apply list_eq. intros j. rewrite list_lookup_imap. destruct (decide (i = j)) as [<-|Hne].
  - destruct (decide (i < length l)%nat) as [Hi|Hi].
    + by rewrite !list_lookup_insert_eq by (rewrite ?length_imap; done).
    + rewrite !list_insert_ge by (rewrite ?length_imap; lia). by rewrite list_lookup_imap.
  - by rewrite !list_lookup_insert_ne, list_lookup_imap by done.
Qed.

Lemma register_handler_run v dpl l h n t s : 0 <= v < 256 → length t = INTR_CNT → 0 <= dpl <= 3 →
  register_handler stub v dpl l h n (with_table t s) =
  if bool_decide (e_handler <$> t !! Z.to_nat v = Some None)
  then Ret (tt, with_table (<[Z.to_nat v := mk_entry dpl l (Some h) n]> t) s) else Err AssertFail.
Proof using stubs_ok.
  intros Hv Ht Hd. unfold register_handler. rewrite gets_bind. cbn [with_table intr_handlers].
  destruct (lookup_lt_is_Some_2 t (Z.to_nat v)) as [e E]; [rewrite Ht; unfold INTR_CNT; lia|].
  rewrite (list_lookup_total_correct _ _ (e_handler e)) by (by rewrite list_lookup_fmap, E).
  rewrite E. cbn [fmap option_fmap option_map].
  rewrite (bool_decide_ext (Some (e_handler e) = Some None) (e_handler e = None)) by (split; congruence).
  case_bool_decide as D; [rewrite ASSERT_bind by done|by rewrite ASSERT_bind_fail].
  assert (G : (match l with INTR_ON => make_trap_gate (stub (Z.to_nat v)) dpl | INTR_OFF => make_intr_gate (stub (Z.to_nat v)) dpl end)
    = Ret (gate_of (Z.to_nat v) (mk_entry dpl l (Some h) n))).
  { destruct l; apply make_gate_sum; try lia; apply stubs_ok; unfold INTR_CNT; lia. }
  rewrite G, lift_bind. unfold set_gate, set_handler, set_name, with_table.
  rewrite !modify_bind, modify_run. cbn. by rewrite imap_insert, !list_fmap_insert.
Qed.

(** Registration does what the abstract table says, or fails an assertion. *)
Lemma do_request_run r t s : valid r → length t = INTR_CNT →
  do_request r (with_table t s) =
  match add_request t r with Some t' => Ret (tt, with_table t' s) | None => Err AssertFail end.
Proof using stubs_ok.
  unfold valid, add_request, accepted. destruct r as [v h n|v dpl l h n]; cbn [vector do_request entry_of]; intros Hv Ht.
  - unfold intr_register_ext, external. destruct ((0x20 <=? v) && (v <=? 0x2f)) eqn:E.
    + rewrite ASSERT_bind, register_handler_run, andb_true_r by (done || lia). by case_bool_decide.
    + by rewrite ASSERT_bind_fail, andb_false_r.
  - unfold intr_register_int, external.
    replace ((v <? 0x20) || (0x2f <? v)) with (negb ((0x20 <=? v) && (v <=? 0x2f))) by (destruct (Z.leb_spec 0x20 v), (Z.leb_spec v 0x2f), (Z.ltb_spec v 0x20), (Z.ltb_spec 0x2f v); cbn; done || lia).
    destruct ((0x20 <=? v) && (v <=? 0x2f)) eqn:E; cbn [negb]; [by rewrite ASSERT_bind_fail, andb_false_r|].
    rewrite ASSERT_bind by done. cbn [andb].
    destruct ((0 <=? dpl) && (dpl <=? 3)) eqn:D.
    + rewrite register_handler_run, andb_true_r by (done || lia). by case_bool_decide.
    + rewrite andb_false_r. unfold register_handler. rewrite gets_bind.
      destruct (bool_decide _); [rewrite ASSERT_bind by done|by rewrite ASSERT_bind_fail].
      assert (G : (match l with INTR_ON => make_trap_gate (stub (Z.to_nat v)) dpl | INTR_OFF => make_intr_gate (stub (Z.to_nat v)) dpl end) = Err AssertFail).
      { pose proof (stubs_ok (Z.to_nat v) ltac:(unfold INTR_CNT; lia)) as Hs.
        destruct l; unfold make_trap_gate, make_intr_gate, make_gate, RASSERT;
          rewrite (proj2 (Z.eqb_neq (stub (Z.to_nat v)) 0)), D by lia; done. }
      by rewrite G.
Qed.

Lemma add_request_length t r t' : add_request t r = Some t' → length t' = length t.
Proof. unfold add_request. intros H. case_match; simplify_eq. apply length_insert. Qed.
Lemma do_requests_run rs t s : Forall valid rs → length t = INTR_CNT →
  do_requests rs (with_table t s) =
  match add_requests rs t with Some t' => Ret (tt, with_table t' s) | None => Err AssertFail end.
Proof using stubs_ok.
  intros Hv. revert t. induction Hv as [|r rs Hr Hv IH]; intros t Ht; [done|]. cbn [do_requests add_requests].
  pose proof (do_request_run r t s Hr Ht) as E. destruct (add_request t r) as [t'|] eqn:A; cbn [mbind option_bind].
  - rewrite (bind_Ret _ _ _ _ _ E). apply IH. by rewrite (add_request_length _ _ _ A).
  - by rewrite (bind_Err _ _ _ _ E).
Qed.

(** *** The table [intr_init] builds *)
Definition set_idt (l : list Z) (s : intr) : intr :=
  mk_intr l (intr_handlers s) (intr_names s) (unexpected_cnt s) (in_external_intr s) (yield_on_return s) (level s) (page_fault_cnt s) (log s).
Definition set_all_names (l : list string) (s : intr) : intr :=
  mk_intr (idt s) (intr_handlers s) l (unexpected_cnt s) (in_external_intr s) (yield_on_return s) (level s) (page_fault_cnt s) (log s).
Definition add_log (l : list event) (s : intr) : intr :=
  mk_intr (idt s) (intr_handlers s) (intr_names s) (unexpected_cnt s) (in_external_intr s) (yield_on_return s) (level s) (page_fault_cnt s) (log s ++ l).

Lemma gate_loop_run n i s rest : (i + n <= INTR_CNT)%nat → length rest = n →
  idt s = ((λ v, gate_sum (stub v) 0 14) <$> seq 0 i) ++ rest →
  gate_loop stub n i s = Ret (tt, set_idt ((λ v, gate_sum (stub v) 0 14) <$> seq 0 (i + n)) s).
Proof using stubs_ok.
  revert i s rest. induction n as [|n IH]; intros i s rest Hi Hl E; cbn [gate_loop].
  { destruct rest; [|done]. rewrite app_nil_r in E. rewrite Nat.add_0_r, ret_run. unfold set_idt. rewrite <- E. by destruct s. }
  assert (G : make_intr_gate (stub i) 0 = Ret (gate_sum (stub i) 0 14)) by (apply make_gate_sum; [apply stubs_ok; lia|lia..]).
  rewrite G, lift_bind. unfold set_gate. rewrite modify_bind.
  destruct rest as [|x rest]; [done|]. simpl in Hl.
  rewrite (IH (S i) _ rest); [|lia|lia|].
  - unfold set_idt. cbn. by rewrite Nat.add_succ_r.
  - cbn [idt]. rewrite E, seq_S, fmap_app, <- app_assoc, insert_app_r_alt by (rewrite length_fmap, length_seq; lia).
    by rewrite length_fmap, length_seq, Nat.sub_diag.
Qed.
Lemma name_loop_run n i s rest : length rest = n → intr_names s = replicate i "unknown" ++ rest →
  name_loop n i s = Ret (tt, set_all_names (replicate (i + n) "unknown") s).
Proof using.
  revert i s rest. induction n as [|n IH]; intros i s rest Hl E; cbn [name_loop].
  { destruct rest; [|done]. rewrite app_nil_r in E. rewrite Nat.add_0_r, ret_run. unfold set_all_names. rewrite <- E. by destruct s. }
  unfold set_name. rewrite modify_bind. destruct rest as [|x rest]; [done|]. simpl in Hl.
  rewrite (IH (S i) _ rest); [|lia|].
  - unfold set_all_names. cbn [idt intr_handlers unexpected_cnt in_external_intr yield_on_return level page_fault_cnt log]. by rewrite Nat.add_succ_r.
  - cbn [intr_names]. rewrite E, insert_app_r_alt, length_replicate, Nat.sub_diag by (rewrite length_replicate; lia).
    rewrite replicate_S_end, <- app_assoc. done.
Qed.
Definition named (l : list (nat * string)) (names : list string) : list string := foldl (λ a p, <[p.1 := p.2]> a) names l.
Lemma set_names_run l s : set_names l s = Ret (tt, set_all_names (named l (intr_names s)) s).
Proof using.
  revert s. induction l as [|[v n] l IH]; intros s; cbn [set_names]; [by destruct s|].
  unfold set_name. rewrite modify_bind, IH. done.
Qed.
End table.

Definition initial_names : list string := named exception_names (replicate INTR_CNT "unknown").
Definition initial_table : list entry := mk_entry 0 INTR_OFF None <$> initial_names.
Definition pic_bytes : list event :=
  [Outb 0x21 0xff; Outb 0xa1 0xff; Outb 0x20 0x11; Outb 0x21 0x20; Outb 0x21 0x04; Outb 0x21 0x01;
   Outb 0xa0 0x11; Outb 0xa1 0x28; Outb 0xa1 0x02; Outb 0xa1 0x01; Outb 0x21 0x00; Outb 0xa1 0x00].
Definition boot_log (idt_addr : Z) : list event := pic_bytes ++ [Lidt (make_idtr_operand 2047 idt_addr)].

Lemma initial_table_length : length initial_table = INTR_CNT.
Proof. vm_compute. reflexivity. Qed.
Lemma initial_gates stub :
  imap (gate_of stub) initial_table = (λ v, gate_sum (stub v) 0 14) <$> seq 0 INTR_CNT.
Proof.
  apply list_eq. intros i. rewrite list_lookup_imap, list_lookup_fmap.
  destruct (decide (i < INTR_CNT)%nat) as [H|H].
  - rewrite lookup_seq_lt by done. unfold initial_table. rewrite list_lookup_fmap.
    destruct (lookup_lt_is_Some_2 initial_names i) as [n E]; [|by rewrite E].
    pose proof initial_table_length as L. unfold initial_table in L. rewrite length_fmap in L. lia.
  - rewrite lookup_seq_ge, lookup_ge_None_2 by (rewrite ?initial_table_length; lia). done.
Qed.
Lemma add_log_add l1 l2 s : add_log l2 (add_log l1 s) = add_log (l1 ++ l2) s.
Proof. unfold add_log. cbn. by rewrite <- app_assoc. Qed.
Lemma emit_bind {B} e (k : unit → cmd intr B) s : (emit e ≫= k) s = k tt (add_log [e] s).
Proof. done. Qed.
Lemma pic_init_run s : pic_init s = Ret (tt, add_log pic_bytes s).
Proof. unfold pic_init, outb. rewrite !emit_bind. change (emit (Outb PIC1_DATA 0)) with (modify (add_log [Outb PIC1_DATA 0])). rewrite modify_run, !add_log_add. reflexivity. Qed.

Lemma intr_init_run stub idt_addr : (∀ v, (v < INTR_CNT)%nat → 0 < stub v < 2 ^ 32) →
  intr_init stub idt_addr zeroed = Ret (tt, with_table stub initial_table (add_log (boot_log idt_addr) zeroed)).
Proof.
  intros Hs. unfold intr_init. rewrite (bind_Ret _ _ _ _ _ (pic_init_run _)).
  set (s1 := add_log pic_bytes zeroed). set (g := (λ v, gate_sum (stub v) 0 14) <$> seq 0 INTR_CNT).
  assert (E1 : gate_loop stub INTR_CNT 0 s1 = Ret (tt, set_idt g s1)).
  { exact (gate_loop_run stub Hs INTR_CNT 0 s1 (replicate INTR_CNT 0) (le_n _) (length_replicate _ _) eq_refl). }
  rewrite (bind_Ret _ _ _ _ _ E1), emit_bind.
  set (s2 := add_log [Lidt (make_idtr_operand (8 * Z.of_nat INTR_CNT - 1) idt_addr)] (set_idt g s1)).
  assert (E2 : name_loop INTR_CNT 0 s2 = Ret (tt, set_all_names (replicate INTR_CNT "unknown") s2)).
  { exact (name_loop_run INTR_CNT 0 s2 (replicate INTR_CNT EmptyString) (length_replicate _ _) eq_refl). }
  rewrite (bind_Ret _ _ _ _ _ E2), set_names_run. unfold with_table. rewrite initial_gates. fold g.
  assert (E3 : e_handler <$> initial_table = replicate INTR_CNT None) by (vm_compute; reflexivity).
  assert (E4 : e_name <$> initial_table = initial_names) by (vm_compute; reflexivity).
  rewrite E3, E4. reflexivity.
Qed.

(** *** Well-formed tables *)
Definition entry_ok (v : nat) (e : entry) : Prop :=
  0 <= e_dpl e <= 3 ∧
  (external (Z.of_nat v) = true ∨ e_handler e = None → e_dpl e = 0 ∧ e_level e = INTR_OFF).
Definition table_ok (t : list entry) : Prop := ∀ v e, t !! v = Some e → entry_ok v e.

Lemma initial_table_ok : table_ok initial_table.
Proof.
  intros v e. unfold initial_table. rewrite list_lookup_fmap, fmap_Some. intros (n & _ & ->). split; [simpl; lia|done].
Qed.
Lemma add_request_ok t r t' : valid r → add_request t r = Some t' → table_ok t → table_ok t'.
Proof.
  intros Hv E Ht v e. unfold add_request in E. destruct (accepted r t) eqn:A; [|done]. injection E as <-.
  rewrite list_lookup_insert_Some. intros [(<- & <- & _)|[_ Hl]]; [|by apply Ht].
  apply andb_true_iff in A as [_ A]. unfold valid in Hv. destruct r as [x h n|x dpl l h n]; cbn in *.
  - split; [simpl; lia|done].
  - apply andb_true_iff in A as [A ?]. apply andb_true_iff in A as [A ?]. split; [cbn; lia|].
    rewrite Z2Nat.id by lia. intros [E|]; [|done]. by rewrite E in A.
Qed.
Lemma add_requests_ok rs t t' : Forall valid rs → add_requests rs t = Some t' → table_ok t → table_ok t'.
Proof.
  intros Hv. revert t. induction Hv as [|r rs Hr Hv IH]; intros t E Ht; cbn [add_requests] in E; [by simplify_eq|].
  destruct (add_request t r) as [t1|] eqn:A; [|done]. cbn in E. eapply IH; [done|]. by eapply add_request_ok.
Qed.
Lemma add_requests_length rs t t' : add_requests rs t = Some t' → length t' = length t.
Proof.
  revert t. induction rs as [|r rs IH]; intros t E; cbn [add_requests] in E; [by simplify_eq|].
  destruct (add_request t r) as [t1|] eqn:A; [|done]. cbn in E. rewrite (IH _ E). by eapply add_request_length.
Qed.

(** What the processor reads in an entry of the table. *)
Record gate_view : Set := mk_gate_view { v_target : Z; v_selector : Z; v_type : Z; v_dpl : Z; v_present : bool }.
Definition view (g : Z) : gate_view := mk_gate_view (gate_offset g) (gate_selector g) (desc_type g) (desc_dpl g) (desc_present g && (desc_class g =? 0)).
Lemma gate_of_view stub v e : 0 < stub v < 2 ^ 32 → entry_ok v e →
  view (gate_of stub v e) = mk_gate_view (stub v) SEL_KCSEG (gate_type (e_level e)) (e_dpl e) true.
Proof.
  intros Hs [Hd _]. assert (Hg : 0 <= gate_type (e_level e) < 2 ^ 4) by (destruct (e_level e); simpl; lia).
  destruct (gate_decode (stub v) (e_dpl e) (gate_type (e_level e)) Hs ltac:(lia) Hg) as (E1 & E2 & E3 & E4 & E5 & E6).
  unfold view, gate_of. by rewrite E1, E2, E3, E4, E5, E6.
Qed.
