(* ===== verification/IdtTheorems.v ===== *)
(** * Interrupts: theorems

    The table the kernel boots with, the controller it programs, and what the
    handling of an interrupt does. *)
From stdpp Require Import strings.
From S2P Require Import Prelude Vaddr Descriptors Idt.
Open Scope Z_scope.

(** C8: Whatever the drivers register after [intr_init], in any order, every
    entry of the interrupt table is a present gate to its stub in the kernel's
    code segment; the vectors of external interrupts, and the vectors without a
    handler, have interrupt gates (handlers start with interrupts off) that user
    programs cannot invoke. *)
Theorem interrupt_table_well_formed stub idt_addr rs s :
  (∀ v, (v < INTR_CNT)%nat → 0 < stub v < 2 ^ 32) → Forall valid rs →
  (intr_init stub idt_addr;; do_requests stub rs) zeroed = Ret (tt, s) →
  ∀ v, (v < INTR_CNT)%nat → ∃ g h, idt s !! v = Some g ∧ intr_handlers s !! v = Some h ∧
    ∃ dpl type, view g = mk_gate_view (stub v) SEL_KCSEG type dpl true ∧ 0 <= dpl <= 3 ∧ (type = 14 ∨ type = 15) ∧
      (external (Z.of_nat v) = true ∨ h = None → dpl = 0 ∧ type = 14).
Proof.
  intros Hs Hv E v Hlt. rewrite (bind_Ret _ _ _ _ _ (intr_init_run stub idt_addr Hs)) in E.
  rewrite do_requests_run in E by (done || apply initial_table_length).
  destruct (add_requests rs initial_table) as [t|] eqn:A; [|done]. injection E as <-.
  pose proof (add_requests_ok _ _ _ Hv A initial_table_ok) as Ht. pose proof (add_requests_length _ _ _ A) as Hl.
  rewrite initial_table_length in Hl.
  destruct (lookup_lt_is_Some_2 t v) as [e Ee]; [by rewrite Hl|]. destruct (Ht v e Ee) as [Hd Hx].
  exists (gate_of stub v e), (e_handler e). cbn [with_table idt intr_handlers]. rewrite list_lookup_imap, list_lookup_fmap, Ee.
  split; [done|]. split; [done|]. exists (e_dpl e), (gate_type (e_level e)). split; [by apply gate_of_view; [apply Hs|split]|].
  split; [done|]. split; [destruct (e_level e); auto|]. intros [?|?]; destruct Hx as [-> ->]; auto.
Qed.
Definition example_stub (v : nat) : Z := 0xc0100000 + 16 * Z.of_nat v.
Lemma example_stub_ok v : (v < INTR_CNT)%nat → 0 < example_stub v < 2 ^ 32.
Proof. unfold example_stub, INTR_CNT. lia. Qed.
Definition example_table : list entry := <[0x30%nat := mk_entry 3 INTR_ON (Some syscall_handler) "syscall"]> initial_table.
Lemma interrupt_table_well_formed_witness :
  ∃ g h, imap (gate_of example_stub) example_table !! 0x27%nat = Some g ∧ (e_handler <$> example_table) !! 0x27%nat = Some h ∧
    ∃ dpl type, view g = mk_gate_view (example_stub 0x27) SEL_KCSEG type dpl true ∧ 0 <= dpl <= 3 ∧ (type = 14 ∨ type = 15) ∧
      (external 0x27 = true ∨ h = None → dpl = 0 ∧ type = 14).
Proof.
  apply (interrupt_table_well_formed example_stub 0xc0030000 [Int 0x30 3 INTR_ON syscall_handler "syscall"]
    (with_table example_stub example_table (add_log (boot_log 0xc0030000) zeroed)));
    [exact example_stub_ok|repeat constructor; discriminate| |unfold INTR_CNT; lia].
  rewrite (bind_Ret _ _ _ _ _ (intr_init_run example_stub 0xc0030000 example_stub_ok)).
  rewrite (do_requests_run example_stub example_stub_ok) by (repeat constructor || apply initial_table_length || (unfold valid; simpl; lia)).
  assert (A : add_requests [Int 0x30 3 INTR_ON syscall_handler "syscall"] initial_table = Some example_table) by (vm_compute; reflexivity).
  by rewrite A.
Defined.

(** ** The 8259A controllers

    A chip takes the bytes written to its control and data ports: a control
    byte with bit 4 starts the initialization sequence (its bits 0 and 1 say
    whether a fourth word follows and whether there is a single chip), the next
    data bytes are the base vector, the cascade word and the mode; later data
    bytes set the mask, and control byte 0x20 ends the interrupt in service with
    the highest priority. *)
Record chip : Set := mk_chip { awaits : Z; single : bool; needs4 : bool; base : Z; cascade : Z; imr : Z; isr : Z }.
#[global] Instance chip_eq_dec : EqDecision chip.
Proof. solve_decision. Defined.
Definition write_ctrl (v : Z) (c : chip) : chip :=
  if Z.testbit v 4 then mk_chip 2 (Z.testbit v 1) (Z.testbit v 0) (base c) (cascade c) 0 0
  else if v =? 0x20 then mk_chip (awaits c) (single c) (needs4 c) (base c) (cascade c) (imr c) (Z.land (isr c) (isr c - 1))
  else c.
Definition write_data (v : Z) (c : chip) : chip :=
  let fourth := if needs4 c then 4 else 0 in
  if awaits c =? 2 then mk_chip (if single c then fourth else 3) (single c) (needs4 c) (Z.land v 0xf8) (cascade c) (imr c) (isr c)
  else if awaits c =? 3 then mk_chip fourth (single c) (needs4 c) (base c) v (imr c) (isr c)
  else if awaits c =? 4 then mk_chip 0 (single c) (needs4 c) (base c) (cascade c) (imr c) (isr c)
  else mk_chip 0 (single c) (needs4 c) (base c) (cascade c) v (isr c).
(** The master at ports 0x20 and 0x21, the slave at 0xa0 and 0xa1. *)
Abbreviation chips := (chip * chip)%type.
Definition observe (c : chips) (e : event) : chips :=
  match e with
  | Outb p v =>
    if p =? 0x20 then (write_ctrl v c.1, c.2) else if p =? 0x21 then (write_data v c.1, c.2)
    else if p =? 0xa0 then (c.1, write_ctrl v c.2) else if p =? 0xa1 then (c.1, write_data v c.2) else c
  | _ => c
  end.
Definition observe_all (l : list event) (c : chips) : chips := foldl observe c l.
(** The vector for a request on one of the sixteen lines: the slave's lines
    reach the processor through line 2 of the master. *)
Definition ready (c : chip) (line : Z) : bool := (awaits c =? 0) && negb (Z.testbit (imr c) line).
Definition delivered (c : chips) (line : Z) : option Z :=
  if line <? 8 then if ready c.1 line then Some (base c.1 + line) else None
  else if ready c.1 2 && ready c.2 (line - 8) && Z.testbit (cascade c.1) 2 && (cascade c.2 =? 2) then Some (base c.2 + (line - 8)) else None.
Definition serve (line : Z) (c : chip) : chip :=
  mk_chip (awaits c) (single c) (needs4 c) (base c) (cascade c) (imr c) (Z.setbit (isr c) line).
(** The chips while a request is in service. *)
Definition in_service (line : Z) (c : chips) : chips :=
  if line <? 8 then (serve line c.1, c.2) else (serve 2 c.1, serve (line - 8) c.2).
(** The chips as [pic_init] leaves them: nothing masked, nothing in service. *)
Definition programmed : chips := (mk_chip 0 false true 0x20 0x04 0 0, mk_chip 0 false true 0x28 0x02 0 0).

Lemma pic_programmed c : observe_all pic_bytes c = programmed.
Proof. destruct c as [[] []]. reflexivity. Qed.
Lemma programmed_delivers line : 0 <= line < 16 → delivered programmed line = Some (0x20 + line).
Proof.
  intros H. unfold delivered, ready, programmed. cbn [fst snd awaits imr base cascade]. rewrite !Z.testbit_0_l.
  change (Z.testbit 4 2) with true. cbn. destruct (Z.ltb_spec line 8); f_equal; lia.
Qed.
Lemma programmed_lines_ok : Forall (λ line, 
  observe_all (Outb 0x20 0x20 :: if 8 <=? line then [Outb 0xa0 0x20] else []) (in_service line programmed) = programmed) (seqZ 0 16).
Proof. by_decision. Qed.

(** ** Boot *)
Definition boot_requests : list request :=
  [Ext 0x20 timer_interrupt "8254 Timer"; Ext 0x21 keyboard_interrupt "8042 Keyboard";
   Int 3 3 INTR_ON kill "#BP Breakpoint Exception"; Int 4 3 INTR_ON kill "#OF Overflow Exception";
   Int 5 3 INTR_ON kill "#BR BOUND Range Exceeded Exception"; Int 0 0 INTR_ON kill "#DE Divide Error";
   Int 1 0 INTR_ON kill "#DB Debug Exception"; Int 6 0 INTR_ON kill "#UD Invalid Opcode Exception";
   Int 7 0 INTR_ON kill "#NM Device Not Available Exception"; Int 11 0 INTR_ON kill "#NP Segment Not Present";
   Int 12 0 INTR_ON kill "#SS Stack Fault Exception"; Int 13 0 INTR_ON kill "#GP General Protection Exception";
   Int 16 0 INTR_ON kill "#MF x87 FPU Floating-Point Error"; Int 19 0 INTR_ON kill "#XF SIMD Floating-Point Exception";
   Int 14 0 INTR_OFF page_fault "#PF Page-Fault Exception"; Int 0x30 3 INTR_ON syscall_handler "syscall";
   Ext 0x24 serial_interrupt "serial"; Ext 0x2e ide_interrupt "ide0"; Ext 0x2f ide_interrupt "ide1"].
Definition boot_table : list entry := default [] (add_requests boot_requests initial_table).

Lemma unit_tail {S} (m : cmd S unit) s : (m;; mret tt) s = m s.
Proof. unfold mbind, cmd_bind. by destruct (m s) as [[[] s']|]. Qed.
Lemma bind_ext {S A B} (m : cmd S A) (k k' : A → cmd S B) s : (∀ a s', k a s' = k' a s') → (m ≫= k) s = (m ≫= k') s.
Proof. intros H. unfold mbind, cmd_bind. by destruct (m s) as [[a s']|]. Qed.
(** The calls of [main], [exception_init] and [ide_init] in one row. *)
Lemma boot_requests_run stub idt_addr s : boot stub idt_addr s = (intr_init stub idt_addr;; do_requests stub boot_requests) s.
Proof.
  unfold boot. apply bind_ext. intros _ s1. cbn [boot_requests do_requests do_request].
  apply bind_ext; intros _ s2. apply bind_ext; intros _ s3. unfold exception_init. rewrite bind_assoc.
  do 12 (apply bind_ext; intros _ ?; try rewrite bind_assoc).
  apply bind_ext; intros _ s4. apply bind_ext; intros _ s5. apply bind_ext; intros _ s6.
  unfold register_ide. apply bind_ext; intros _ s7. by rewrite unit_tail.
Qed.

Lemma boot_table_eq : add_requests boot_requests initial_table = Some boot_table.
Proof. vm_compute. reflexivity. Qed.
Lemma boot_requests_valid : Forall valid boot_requests.
Proof. by_decision. Qed.
Lemma boot_table_ok : table_ok boot_table.
Proof. exact (add_requests_ok _ _ _ boot_requests_valid boot_table_eq initial_table_ok). Qed.
Lemma boot_table_length : length boot_table = INTR_CNT.
Proof. vm_compute. reflexivity. Qed.
Lemma boot_run stub idt_addr : (∀ v, (v < INTR_CNT)%nat → 0 < stub v < 2 ^ 32) →
  boot stub idt_addr zeroed = Ret (tt, with_table stub boot_table (add_log (boot_log idt_addr) zeroed)).
Proof.
  intros Hs. rewrite boot_requests_run, (bind_Ret _ _ _ _ _ (intr_init_run stub idt_addr Hs)).
  rewrite (do_requests_run stub Hs _ _ _ boot_requests_valid initial_table_length). by rewrite boot_table_eq.
Qed.

(** The registered handlers with their vectors. *)
Definition handlers_of (l : list (option intr_handler_func)) : list (nat * intr_handler_func) :=
  omap id (imap (λ v h, pair v <$> h) l).
(** The gates a user program may invoke. *)
Definition user_gates (l : list Z) : list nat :=
  omap id (imap (λ v g, if desc_dpl g =? 3 then Some v else None) l).
Lemma boot_table_user_gates stub : (∀ v, (v < INTR_CNT)%nat → 0 < stub v < 2 ^ 32) →
  user_gates (imap (gate_of stub) boot_table) = [3; 4; 5; 0x30]%nat.
Proof.
  intros Hs. unfold user_gates.
  assert (E : imap (λ v g, if desc_dpl g =? 3 then Some v else None) (imap (gate_of stub) boot_table)
            = imap (λ v e, if e_dpl e =? 3 then Some v else None) boot_table).
  { apply list_eq. intros v. rewrite !list_lookup_imap. destruct (boot_table !! v) as [e|] eqn:Ev; [|done]. cbn [fmap option_fmap option_map].
    pose proof (gate_of_view stub v e (Hs v ltac:(rewrite <- boot_table_length; by eapply lookup_lt_Some)) (boot_table_ok v e Ev)) as G.
    apply (f_equal v_dpl) in G. cbn [view v_dpl] in G. by rewrite G. }
  rewrite E. vm_compute. reflexivity.
Qed.

(** The start-up sequence of the kernel succeeds.  Afterwards user programs
    can invoke exactly the breakpoint, overflow and bound gates and the system
    call gate 0x30; each handler is installed at its vector; the table register
    covers the 256 entries at [idt]; and, whatever state they were in, the
    interrupt controllers deliver the requests of all sixteen lines at vectors
    0x20 to 0x2f. *)
Theorem boot_interrupts stub idt_addr :
  (∀ v, (v < INTR_CNT)%nat → 0 < stub v < 2 ^ 32) → 0 <= idt_addr < 2 ^ 32 →
  ∃ s op, boot stub idt_addr zeroed = Ret (tt, s) ∧
    user_gates (idt s) = [3; 4; 5; 0x30]%nat ∧
    handlers_of (intr_handlers s) =
      [(0, kill); (1, kill); (3, kill); (4, kill); (5, kill); (6, kill); (7, kill); (11, kill); (12, kill); (13, kill);
       (14, page_fault); (16, kill); (19, kill); (0x20, timer_interrupt); (0x21, keyboard_interrupt); (0x24, serial_interrupt);
       (0x2e, ide_interrupt); (0x2f, ide_interrupt); (0x30, syscall_handler)]%nat ∧
    Lidt op ∈ log s ∧ table_base op = idt_addr ∧ table_limit op = 8 * Z.of_nat INTR_CNT - 1 ∧
    (∀ c line, 0 <= line < 16 → delivered (observe_all (log s) c) line = Some (0x20 + line)).
Proof.
  intros Hs Ha. eexists _, (make_idtr_operand 2047 idt_addr). split; [by apply boot_run|]. cbn [with_table idt intr_handlers log add_log zeroed].
  split; [by apply boot_table_user_gates|]. split; [vm_compute; reflexivity|].
  split; [unfold boot_log; set_solver|].
  destruct (operand_decode 2047 idt_addr ltac:(lia) Ha) as [El Eb].
  split; [exact Eb|]. split; [exact El|]. intros c line Hl. unfold boot_log. rewrite app_nil_l.
  unfold observe_all. rewrite foldl_app. change (foldl observe c pic_bytes) with (observe_all pic_bytes c).
  rewrite pic_programmed. by apply programmed_delivers.
Qed.
Lemma boot_interrupts_witness :
  ∃ s op, boot example_stub 0xc0030000 zeroed = Ret (tt, s) ∧ user_gates (idt s) = [3; 4; 5; 0x30]%nat ∧ table_base op = 0xc0030000.
Proof.
  destruct (boot_interrupts example_stub 0xc0030000 example_stub_ok ltac:(lia)) as (s & op & E & U & _ & _ & B & _).
  exists s, op. by split.
Defined.

(** * Handling an interrupt: acknowledgement and the end of a faulting thread *)

Definition pic_port (p : Z) : bool := bool_decide (p ∈ [0x20; 0x21; 0xa0; 0xa1]).
Definition own_event (e : event) : bool := match e with Outb p _ => negb (pic_port p) | Yield => false | _ => true end.
Definition end_external (b : bool) (s : intr) : intr :=
  mk_intr (idt s) (intr_handlers s) (intr_names s) (unexpected_cnt s) b (yield_on_return s) (level s) (page_fault_cnt s) (log s).
Definition ask_yield (y : bool) (s : intr) : intr :=
  mk_intr (idt s) (intr_handlers s) (intr_names s) (unexpected_cnt s) (in_external_intr s) y (level s) (page_fault_cnt s) (log s).
Definition with_count (v : nat) (n : Z) (s : intr) : intr :=
  mk_intr (idt s) (intr_handlers s) (intr_names s) (<[v := n]> (unexpected_cnt s)) (in_external_intr s) (yield_on_return s) (level s) (page_fault_cnt s) (log s).
Definition enabled (s : intr) : intr :=
  mk_intr (idt s) (intr_handlers s) (intr_names s) (unexpected_cnt s) (in_external_intr s) (yield_on_return s) INTR_ON (page_fault_cnt s) (log s).
Definition faulted (s : intr) : intr :=
  mk_intr (idt s) (intr_handlers s) (intr_names s) (unexpected_cnt s) (in_external_intr s) (yield_on_return s) (level s) (page_fault_cnt s + 1) (log s).

(** What a device's handler may do (threads/interrupt.h): it returns, keeps
    interrupts off, leaves the controllers alone, and may ask for a yield. *)
Definition well_behaved (h : intr_frame → cmd intr ended) : Prop :=
  ∀ f s, in_external_intr s = true → level s = INTR_OFF →
    ∃ f' l y, h f s = Ret (Returned f', ask_yield (yield_on_return s || y) (add_log l s)) ∧ vec_no f' = vec_no f ∧ Forall own_event l.

Definition eoi (line : Z) : list event := Outb 0x20 0x20 :: if 8 <=? line then [Outb 0xa0 0x20] else [].
Lemma own_observed l c : Forall own_event l → observe_all l c = c.
Proof.
  unfold observe_all. induction 1 as [|e l He Hl IH]; [done|]. cbn [foldl].
  replace (observe c e) with c; [exact IH|]. destruct e as [p v| | | | | | | |]; try done. cbn in He |- *.
  unfold pic_port in He. apply negb_prop_elim, Is_true_false in He. apply bool_decide_eq_false in He.
  destruct (Z.eqb_spec p 0x20), (Z.eqb_spec p 0x21), (Z.eqb_spec p 0xa0), (Z.eqb_spec p 0xa1); try done; exfalso; apply He; set_solver.
Qed.

Lemma observe_all_app l1 l2 c : observe_all (l1 ++ l2) c = observe_all l2 (observe_all l1 c).
Proof. apply foldl_app. Qed.

Lemma eoi_run line s : 0 <= line < 16 → pic_end_of_interrupt (0x20 + line) s = Ret (tt, add_log (eoi line) s).
Proof.
  intros H. unfold pic_end_of_interrupt. rewrite ASSERT_bind by lia. unfold outb. rewrite emit_bind. unfold eoi.
  replace (0x28 <=? 0x20 + line) with (8 <=? line) by (destruct (Z.leb_spec 8 line), (Z.leb_spec 0x28 (0x20 + line)); done || lia).
  destruct (8 <=? line); [|done]. change (emit ?e) with (modify (add_log [e])). by rewrite modify_run, add_log_add.
Qed.

Definition message_due (n : Z) : bool := Z.land n (u32 (n - 1)) =? 0.
Lemma unexpected_run v s :
  unexpected_interrupt v s =
  Ret (tt, let n := u32 (unexpected_cnt s !!! v + 1) in
    add_log (if message_due n then [Unexpected (Z.of_nat v) (intr_names s !!! v)] else []) (with_count v n s)).
Proof.
  unfold unexpected_interrupt. rewrite gets_bind. unfold set_count. rewrite modify_bind. cbv zeta. unfold message_due.
  destruct (Z.land _ _ =? 0); [done|]. unfold add_log, with_count. cbn. by rewrite app_nil_r.
Qed.

Section external.
Context (thread_name : string) (cr2 : Z) (device : intr_handler_func → intr_frame → cmd intr ended).

Lemma finish_external_run f s line : 0 <= line < 16 → vec_no f = 0x20 + line → in_external_intr s = true → level s = INTR_OFF →
  finish_external f s = Ret (tt, add_log (eoi line ++ if yield_on_return s then [Yield] else []) (end_external false s)).
Proof.
  intros Hl Hf Hx Ho. unfold finish_external, intr_get_level, intr_context. rewrite gets_bind, Ho, ASSERT_bind, gets_bind, ASSERT_bind by done.
  change (set_external false) with (modify (end_external false)). rewrite modify_bind, Hf.
  rewrite (bind_Ret _ _ _ _ _ (eoi_run line _ Hl)), gets_bind. cbn [end_external add_log yield_on_return].
  destruct (yield_on_return s); [|by rewrite app_nil_r].
  change (emit ?e) with (modify (add_log [e])). by rewrite modify_run, add_log_add.
Qed.

(** The middle of [intr_handler] on a device's vector. *)
Lemma handler_body_run h f s line : 0 <= line < 16 → vec_no f = 0x20 + line → in_external_intr s = true → level s = INTR_OFF →
  (∀ d, h = Some d → run_handler thread_name cr2 device d = device d ∧ well_behaved (device d)) →
  ∃ f' l y cnt,
    match h with
    | Some d => run_handler thread_name cr2 device d f
    | None => if (vec_no f =? 0x27) || (vec_no f =? 0x2f) then mret (Returned f)
              else unexpected_interrupt (Z.to_nat (vec_no f));; mret (Returned f)
    end s = Ret (Returned f', ask_yield (yield_on_return s || y) (add_log l
      (mk_intr (idt s) (intr_handlers s) (intr_names s) cnt (in_external_intr s) (yield_on_return s) (level s) (page_fault_cnt s) (log s)))) ∧
    vec_no f' = vec_no f ∧ Forall own_event l ∧ (h ≠ None → cnt = unexpected_cnt s) ∧ (h = None → y = false).
Proof.
  intros Hl Hf Hx Ho Hh. destruct h as [d|].
  - destruct (Hh d eq_refl) as [-> W]. destruct (W f s Hx Ho) as (f' & l & y & -> & V & O).
    exists f', l, y, (unexpected_cnt s). split; [by destruct s|]. done.
  - destruct ((vec_no f =? 0x27) || (vec_no f =? 0x2f)).
    + exists f, [], false, (unexpected_cnt s). rewrite orb_false_r. split; [|done].
      rewrite ret_run. unfold ask_yield, add_log. cbn. rewrite app_nil_r. by destruct s.
    + rewrite (bind_Ret _ _ _ _ _ (unexpected_run _ s)), ret_run. cbv zeta. do 4 eexists. rewrite (orb_false_r (yield_on_return s)).
      split; [unfold add_log, with_count, ask_yield; cbn; reflexivity|]. split; [done|]. split; [|done].
      by case_match; repeat constructor.
Qed.

End external.

(** A timer handler that ends the running thread's time slice. *)
Definition example_device (h : intr_handler_func) (f : intr_frame) : cmd intr ended := intr_yield_on_return;; mret (Returned f).
Lemma example_well_behaved h : well_behaved (example_device h).
Proof.
  intros f s Hx Ho. exists f, [], true. split; [|done]. unfold example_device, intr_yield_on_return, intr_context.
  rewrite bind_assoc, gets_bind, Hx, bind_assoc, ASSERT_bind by done. rewrite orb_true_r. unfold add_log, ask_yield. cbn. by rewrite app_nil_r.
Qed.
Definition example_frame (v segment : Z) : intr_frame := mk_frame 0 0 0 0 0 0 0 0 0 v 0 0x8048000 segment 0x202 0xbffffff0 SEL_UDSEG.
Definition example_state : intr := with_table example_stub boot_table (add_log (boot_log 0xc0030000) zeroed).

(** ** Exceptions *)
Section exceptions.
Context (thread_name : string) (cr2 : Z) (device : intr_handler_func → intr_frame → cmd intr ended).

Definition exit_messages (f : intr_frame) (s : intr) : list event :=
  let name := intr_names s !!! Z.to_nat (vec_no f) in
  [DyingDueTo thread_name (vec_no f) name; Dump name cr2 f; ExitMessage thread_name (-1)].
Lemma kill_user f s : cs f = SEL_UCSEG → in_external_intr s = false →
  do_kill thread_name cr2 f s = Ret (Exited (set_eax (2 ^ 32 - 1) f), add_log (exit_messages f s) s).
Proof.
  intros Hc Hx. unfold do_kill, intr_name. rewrite gets_bind, Hc, Z.eqb_refl, emit_bind.
  unfold intr_dump_frame, intr_name. rewrite bind_assoc, gets_bind, emit_bind. cbv zeta.
  rewrite emit_bind, !add_log_add. unfold thread_exit, intr_context. rewrite gets_bind, ASSERT_bind; [done|]. cbn. by rewrite Hx.
Qed.
Lemma kill_kernel f s : cs f = SEL_KCSEG → do_kill thread_name cr2 f s = Err KernelPanic.
Proof.
  intros Hc. unfold do_kill, intr_name. rewrite gets_bind, Hc. cbn [Z.eqb]. 
  change (SEL_KCSEG =? SEL_UCSEG) with false. change (SEL_KCSEG =? SEL_KCSEG) with true.
  unfold intr_dump_frame, intr_name. by rewrite bind_assoc, gets_bind, emit_bind.
Qed.
Definition fault_message (f : intr_frame) : event :=
  PageFault cr2 (negb (Z.testbit (error_code f) 0)) (Z.testbit (error_code f) 1) (Z.testbit (error_code f) 2).

Lemma land_bit a i : 0 <= i → Z.land a (2 ^ i) = 0 ↔ Z.testbit a i = false.
Proof.
  intros Hi. split; intros H.
  - apply (f_equal (λ z, Z.testbit z i)) in H. by rewrite Z.land_spec, Z.pow2_bits_true, andb_true_r, Z.bits_0 in H.
  - apply Z.bits_inj'. intros n Hn. rewrite Z.land_spec, Z.bits_0. destruct (decide (n = i)) as [->|Hne]; [by rewrite H|].
    by rewrite Z.pow2_bits_false, andb_false_r by done.
Qed.
Lemma land_bit_eqb a i : 0 <= i → (Z.land a (2 ^ i) =? 0) = negb (Z.testbit a i).
Proof.
  intros Hi. pose proof (land_bit a i Hi) as H. destruct (Z.eqb_spec (Z.land a (2 ^ i)) 0) as [E|E], (Z.testbit a i); try done.
  - by apply H in E.
  - by destruct E; apply H.
Qed.
Lemma page_fault_run f s : in_external_intr s = false →
  do_page_fault thread_name cr2 f s = do_kill thread_name cr2 f (add_log [fault_message f] (faulted (enabled s))).
Proof.
  intros Hx. unfold do_page_fault, intr_enable, intr_get_level, intr_context.
  rewrite bind_assoc, gets_bind, bind_assoc, gets_bind, Hx, bind_assoc, ASSERT_bind by done.
  change (set_level INTR_ON) with (modify enabled). rewrite bind_assoc, modify_bind, ret_bind.
  change count_fault with (modify faulted). rewrite modify_bind. cbv zeta. rewrite emit_bind. unfold fault_message.
  pose proof (land_bit_eqb (error_code f) 0 ltac:(lia)) as E0. pose proof (land_bit_eqb (error_code f) 1 ltac:(lia)) as E1.
  pose proof (land_bit_eqb (error_code f) 2 ltac:(lia)) as E2. change (2 ^ 0) with PF_P in E0. change (2 ^ 1) with PF_W in E1. change (2 ^ 2) with PF_U in E2.
  by rewrite E0, E1, E2, !negb_involutive.
Qed.

(** C10: With the handlers the kernel boots with, an exception of a user program
    (any vector [exception_init] registers) ends the running thread with exit
    code -1 after the messages that say so, and nothing else of the kernel
    changes, except that a page fault is counted, its cause printed and
    interrupts turned back on; the same exception in kernel code panics. *)
Theorem exceptions_end_the_thread f s :
  intr_handlers s = e_handler <$> boot_table → in_external_intr s = false →
  vec_no f ∈ [0; 1; 3; 4; 5; 6; 7; 11; 12; 13; 14; 16; 19] →
  let s1 := if vec_no f =? 14 then add_log [fault_message f] (faulted (enabled s)) else s in
  (cs f = SEL_UCSEG → intr_handler thread_name cr2 device f s = Ret (Exited (set_eax (2 ^ 32 - 1) f), add_log (exit_messages f s) s1)) ∧
  (cs f = SEL_KCSEG → intr_handler thread_name cr2 device f s = Err KernelPanic).
Proof.
  intros Hh Hx Hv s1.
  assert (B : ∀ r, do_kill thread_name cr2 f s1 = r → intr_handler thread_name cr2 device f s =
    match r with Ret (Exited f', s') => Ret (Exited f', s') | Ret (Returned f', s') => Ret (Returned f', s') | Err e => Err e end).
  { intros r <-. unfold intr_handler. cbv zeta.
    assert (X : (0x20 <=? vec_no f) && (vec_no f <? 0x30) = false ∧
      (intr_handlers s !!! Z.to_nat (vec_no f) = Some (if vec_no f =? 14 then page_fault else kill))).
    { rewrite Hh. do 13 (apply elem_of_cons in Hv as [Hv|Hv]; [rewrite Hv; split; vm_compute; reflexivity|]). by apply not_elem_of_nil in Hv. }
    destruct X as [-> E]. rewrite ret_bind, gets_bind, E.
    assert (R : run_handler thread_name cr2 device (if vec_no f =? 14 then page_fault else kill) f s = do_kill thread_name cr2 f s1).
    { unfold s1. destruct (vec_no f =? 14); [by apply page_fault_run|done]. }
    unfold mbind, cmd_bind. rewrite R. by destruct (do_kill thread_name cr2 f s1) as [[[f'|f'] s']|]. }
  assert (Hx1 : in_external_intr s1 = false) by (unfold s1; by destruct (vec_no f =? 14)).
  assert (Hn : exit_messages f s1 = exit_messages f s) by (unfold s1; by destruct (vec_no f =? 14)).
  split; intros Hc.
  - rewrite (B _ (kill_user f s1 Hc Hx1)). by rewrite Hn.
  - by rewrite (B _ (kill_kernel f s1 Hc)).
Qed.
End exceptions.
Lemma exceptions_end_the_thread_witness :
  let f := example_frame 14 SEL_UCSEG in
  intr_handler "echo" 0x1000 example_device f example_state =
    Ret (Exited (set_eax (2 ^ 32 - 1) f),
      add_log (exit_messages "echo" 0x1000 f example_state) (add_log [fault_message 0x1000 f] (faulted (enabled example_state)))).
Proof.
  intros f.
  apply (exceptions_end_the_thread "echo" 0x1000 example_device f example_state); [reflexivity|reflexivity|by_decision|reflexivity].
Defined.
