(* ===== verification/KernelMap.v ===== *)
(** * The kernel's own mapping of memory (paging_init of threads/init.c)

    The page directory is that of Pagedir.v; [start] and [end_text] are the
    linker's symbols around the kernel's code.  [palloc_get_page] is asked with
    PAL_ASSERT, so that a missing page is a panic. *)
From S2P Require Import Prelude Vaddr Pagedir PagedirSpec.
Open Scope Z_scope.

Section paging.
Context (palloc_get_page : vm → option Z) (start end_text : Z).

Definition get_zeroed_page : cmd vm Z :=
  p ← get_page_with palloc_get_page zero_page; match p with None => throw KernelPanic | Some p => mret p end.
(** The page table of entry [pde_idx], made when there is none; [pt] is the one
    used last. *)
Definition current_table (pd pde_idx pt : Z) : cmd vm Z :=
  pde ← load_word pd pde_idx;
  if pde =? 0 then
    pt ← get_zeroed_page;
    e ← lift_res (pde_create pt); store_word pd pde_idx e;; mret pt
  else mret pt.
(** From page [page] on; [pt] is the current page table, 0 for a null pointer. *)
Fixpoint paging_loop (n : nat) (page pd pt : Z) : cmd vm unit :=
  match n with
  | O => mret tt
  | S n =>
    vaddr ← lift_res (ptov (page * PGSIZE));
    let pde_idx := pd_no vaddr in
    let pte_idx := pt_no vaddr in
    let in_kernel_text := (start <=? vaddr) && (vaddr <? end_text) in
    pt ← current_table pd pde_idx pt;
    e ← lift_res (pte_create_kernel vaddr (negb in_kernel_text));
    store_word pt pte_idx e;;
    paging_loop n (page + 1) pd pt
  end.
(** Returns the page directory, [init_page_dir]. *)
Definition paging_init (init_ram_pages : nat) : cmd vm Z :=
  pd ← get_zeroed_page;
  paging_loop init_ram_pages 0 pd 0;;
  a ← lift_res (vtop pd);
  modify (λ s, mk_vm (tables s) a ∅ (freed s));;
  mret pd.

(** ** The mapping after the first [n] pages *)
Definition text_page (page : Z) : bool := (start <=? PHYS_BASE + page * 4096) && (PHYS_BASE + page * 4096 <? end_text).
Definition kernel_pte (page : Z) : Z := Z.lor (Z.lor (page * 4096) PTE_P) (if text_page page then 0 else PTE_W).
Definition entry_at (n k : nat) : Z := if (k <? n)%nat then kernel_pte (Z.of_nat k) else 0.

Record mapping (s : vm) (pd : Z) (n : nat) (pts : list Z) : Prop := {
  k_pd : kpage_ok pd;
  k_dir : ∃ wsd, tables s !! pd = Some wsd ∧ length wsd = 1024%nat ∧
    (∀ i, (i < 1024)%nat → (i < 768 ∨ 768 + length pts <= i)%nat → wsd !! i = Some 0) ∧
    (∀ j pt, pts !! j = Some pt → ∃ e, wsd !! (768 + j)%nat = Some e ∧ e ≠ 0 ∧ flag e PTE_P = true ∧ Z.land e PTE_ADDR = pt - PHYS_BASE);
  k_pts : NoDup (pd :: pts) ∧ Forall kpage_ok pts;
  k_tables : ∀ j pt, pts !! j = Some pt → ∃ ws, tables s !! pt = Some ws ∧ length ws = 1024%nat ∧
    ∀ i, (i < 1024)%nat → ws !! i = Some (entry_at n (1024 * j + i)) }.

Lemma kernel_page_index page : 0 <= page < 2 ^ 18 →
  ptov (page * PGSIZE) = Ret (PHYS_BASE + page * 4096) ∧ kpage_ok (PHYS_BASE + page * 4096) ∧
  pd_no (PHYS_BASE + page * 4096) = 768 + page / 1024 ∧ pt_no (PHYS_BASE + page * 4096) = page mod 1024.
Proof using.
  intros H. unfold PHYS_BASE. change PGSIZE with 4096. split; [|split; [|split]].
  - unfold ptov, RASSERT, PHYS_BASE. rewrite (proj2 (Z.ltb_lt _ _)) by lia. cbn [mbind res_bind]. unfold mret, res_ret. f_equal. rewrite u32_small; lia.
  - split; [unfold PHYS_BASE; lia|]. rewrite Z.add_mod, Z.mod_mul by lia. done.
  - rewrite pd_no_div. change (2 ^ 22) with 4194304. Z.div_mod_to_equations. lia.
  - rewrite pt_no_mod. change (2 ^ 12) with 4096. change (2 ^ 10) with 1024. Z.div_mod_to_equations. lia.
Qed.
Lemma pte_create_kernel_run page : 0 <= page < 2 ^ 18 →
  pte_create_kernel (PHYS_BASE + page * 4096) (negb (text_page page)) = Ret (kernel_pte page).
Proof using.
  intros H. destruct (kernel_page_index page H) as (_ & K & _). unfold pte_create_kernel, RASSERT. rewrite kpage_ofs by done.
  cbn [mbind res_bind]. rewrite vtop_run by done. cbn [mbind res_bind]. unfold mret, res_ret, kernel_pte.
  replace (PHYS_BASE + page * 4096 - PHYS_BASE) with (page * 4096) by lia. by destruct (text_page page).
Qed.
Lemma kernel_pte_fields page : 0 <= page < 2 ^ 18 →
  Z.land (kernel_pte page) PTE_ADDR = page * 4096 ∧ flag (kernel_pte page) PTE_P = true ∧
  flag (kernel_pte page) PTE_W = negb (text_page page) ∧ flag (kernel_pte page) PTE_U = false.
Proof using.
  intros H. destruct (kernel_page_index page H) as (_ & K & _). unfold kernel_pte.
  replace (page * 4096) with (PHYS_BASE + page * 4096 - PHYS_BASE) by lia. rewrite <- Z.lor_assoc.
  assert (U : ∀ e, flag e PTE_U = Z.testbit e 2) by (intros e; apply (flag_bit e 2); lia).
  rewrite flag_P, flag_W, U, !flag_of_page by (done || lia). destruct (text_page page); (split; [|done]);
    (rewrite addr_of_page; [done|done|]); intros n Hn; by apply small_bits.
Qed.

(** A new page table for the next 4 MB. *)
Lemma mapping_new_table s pd n pts p e : mapping s pd n pts → (1024 * length pts = n)%nat → (length pts < 256)%nat →
  kpage_ok p → tables s !! p = None → e ≠ 0 → flag e PTE_P = true → Z.land e PTE_ADDR = p - PHYS_BASE →
  ∃ wsd, tables s !! pd = Some wsd ∧ length wsd = 1024%nat ∧ wsd !! (768 + length pts)%nat = Some 0 ∧
    mapping (put (mk_vm (<[p := zero_page]> (tables s)) (cr3 s) (tlb s) (freed s)) pd (768 + Z.of_nat (length pts)) e wsd) pd n (pts ++ [p]).
Proof using.
  intros [Hpd (wsd & Ew & Lw & Z0 & Zp) [Hnd Hk] Ht] Hn Hlen Hp Hf He HP HA. exists wsd. split; [done|]. split; [done|].
  split; [apply Z0; lia|].
  assert (Hne : p ≠ pd) by (intros ->; congruence).
  assert (Hni : p ∉ pts). { intros Hin. apply list_elem_of_lookup in Hin as [j Hj]. destruct (Ht j p Hj) as (ws & E & _). congruence. }
  unfold put. cbn [tables cr3 tlb freed]. replace (Z.to_nat (768 + Z.of_nat (length pts))) with (768 + length pts)%nat by lia.
  split; [done| | |]; cbn [tables].
  - eexists. rewrite lookup_insert_eq. split; [reflexivity|]. rewrite length_insert. split; [done|]. rewrite length_app. cbn [length]. split.
    + intros i Hi Hc. rewrite list_lookup_insert_ne by lia. apply Z0; lia.
    + intros j pt Hj. apply lookup_app_Some in Hj as [Hj|[Hge Hj]].
      * pose proof (lookup_lt_Some _ _ _ Hj). rewrite list_lookup_insert_ne by lia. by apply Zp.
      * apply list_lookup_singleton_Some in Hj as [Hj <-]. replace (768 + j)%nat with (768 + length pts)%nat by lia.
        rewrite list_lookup_insert_eq by lia. by exists e.
  - split; [|apply Forall_app; split; [done|by apply Forall_singleton]]. apply NoDup_cons in Hnd as [H1 H2]. apply NoDup_cons. split.
    + rewrite elem_of_app, list_elem_of_singleton. intros [?|?]; [done|congruence].
    + apply NoDup_app. split; [done|]. split; [|by apply NoDup_singleton]. intros x Hx. rewrite list_elem_of_singleton. congruence.
  - intros j pt Hj. apply lookup_app_Some in Hj as [Hj|[Hge Hj]].
    + assert (pt ∈ pts) by by eapply list_elem_of_lookup_2. apply NoDup_cons in Hnd as [H1 _].
      rewrite !lookup_insert_ne by congruence. by apply Ht.
    + apply list_lookup_singleton_Some in Hj as [Hj <-]. rewrite lookup_insert_ne by done. rewrite lookup_insert_eq.
      exists zero_page. split; [done|]. split; [done|]. intros i Hi. unfold entry_at. rewrite (proj2 (Nat.ltb_ge _ _)) by lia.
      by apply lookup_replicate_2.
Qed.
(** The entry of page [n]. *)
Lemma mapping_next_page s pd n pts pt : mapping s pd n pts → Z.of_nat n < 2 ^ 18 → pts !! (n / 1024)%nat = Some pt →
  ∃ ws, tables s !! pt = Some ws ∧ length ws = 1024%nat ∧
    mapping (put s pt (Z.of_nat (n mod 1024)) (kernel_pte (Z.of_nat n)) ws) pd (S n) pts.
Proof using.
  intros [Hpd (wsd & Ew & Lw & Z0 & Zp) [Hnd Hk] Ht] Hn Hj. destruct (Ht _ _ Hj) as (ws & E & L & W). exists ws. split; [done|]. split; [done|].
  assert (Hne : pt ≠ pd). { intros ->. apply NoDup_cons in Hnd as [H1 _]. apply H1. by eapply list_elem_of_lookup_2. }
  pose proof (Nat.div_mod_eq n 1024) as D. pose proof (Nat.mod_upper_bound n 1024 ltac:(lia)) as M.
  unfold put. rewrite Nat2Z.id. split; cbn [tables]; [done| |done|].
  - exists wsd. rewrite lookup_insert_ne by done. done.
  - intros j pt' Hj'. destruct (decide (pt' = pt)) as [->|Hpt].
    + assert (j = (n / 1024)%nat) as ->. { apply NoDup_cons in Hnd as [_ H2]. by eapply NoDup_lookup. }
      rewrite lookup_insert_eq. eexists. split; [reflexivity|]. rewrite length_insert. split; [done|]. intros i Hi.
      destruct (decide (i = n mod 1024)%nat) as [->|Hi'].
      * rewrite list_lookup_insert_eq by lia. unfold entry_at. rewrite <- D. by rewrite (proj2 (Nat.ltb_lt _ _)) by lia.
      * rewrite list_lookup_insert_ne by done. rewrite W by done. unfold entry_at.
        destruct (Nat.ltb_spec (1024 * (n / 1024) + i) n), (Nat.ltb_spec (1024 * (n / 1024) + i) (S n)); done || lia.
    + rewrite lookup_insert_ne by done. destruct (Ht _ _ Hj') as (ws' & E' & L' & W'). exists ws'. split; [done|]. split; [done|].
      intros i Hi. rewrite W' by done. unfold entry_at.
      destruct (Nat.ltb_spec (1024 * j + i) n), (Nat.ltb_spec (1024 * j + i) (S n)); try done; try lia.
      exfalso. apply Hpt. assert (j = (n / 1024)%nat) as ->; [|congruence].
      apply (Nat.div_unique n 1024 j i); lia.
Qed.

(** The allocator never hands out a page that is in use; it may run out. *)
Context (fresh : ∀ s p, palloc_get_page s = Some p → kpage_ok p ∧ tables s !! p = None).

Lemma get_zeroed_cases s :
  (∃ p, palloc_get_page s = Some p ∧ get_zeroed_page s = Ret (p, mk_vm (<[p := zero_page]> (tables s)) (cr3 s) (tlb s) (freed s))) ∨
  (palloc_get_page s = None ∧ get_zeroed_page s = Err KernelPanic).
Proof using.
  unfold get_zeroed_page, get_page_with, mbind, cmd_bind. destruct (palloc_get_page s) as [p|] eqn:E; [left|right]; [by exists p|done].
Qed.
Lemma lift_run {A B} (r : res A) a (k : A → cmd vm B) s : r = Ret a → (lift_res r ≫= k) s = k a s.
Proof using. by intros ->. Qed.

Lemma current_table_run n pd pt pts s : mapping s pd n pts → Z.of_nat n < 2 ^ 18 →
  (n <= 1024 * length pts)%nat → (1024 * length pts < n + 1024)%nat → ((n < 1024 * length pts)%nat → pts !! (n / 1024)%nat = Some pt) →
  (∃ s1 pt1 pts1, current_table pd (768 + Z.of_nat (n / 1024)) pt s = Ret (pt1, s1) ∧
    mapping s1 pd n pts1 ∧ (n < 1024 * length pts1)%nat ∧ (1024 * length pts1 < n + 1025)%nat ∧ pts1 !! (n / 1024)%nat = Some pt1) ∨
  (palloc_get_page s = None ∧ current_table pd (768 + Z.of_nat (n / 1024)) pt s = Err KernelPanic).
Proof using fresh.
  intros Hm Hn' H1 H2 Hpt. unfold current_table. destruct (k_dir _ _ _ _ Hm) as (wsd & Ew & Lw & Z0 & Zp).
  assert (Ei : Z.to_nat (768 + Z.of_nat (n / 1024)) = (768 + n / 1024)%nat) by lia.
  destruct (decide (n < 1024 * length pts)%nat) as [C|C].
  - left. exists s, pt, pts. split; [|split; [done|split; [lia|split; [lia|by apply Hpt]]]].
    destruct (Zp _ _ (Hpt C)) as (e & Ee & Hne & _). rewrite (load_word_bind _ _ _ _ _ e Ew) by by rewrite Ei.
    by rewrite (proj2 (Z.eqb_neq e 0)).
  - assert (En : (1024 * length pts = n)%nat) by lia.
    assert (Ed : (n / 1024 = length pts)%nat) by (rewrite <- En, Nat.mul_comm; apply Nat.div_mul; lia).
    assert (E0 : wsd !! Z.to_nat (768 + Z.of_nat (n / 1024)) = Some 0) by (apply Z0; lia).
    rewrite (load_word_bind _ _ _ _ _ 0 Ew E0). cbn [Z.eqb].
    destruct (get_zeroed_cases s) as [(p & Ep & Eg)|[Ep Eg]]; [left|right; split; [done|by rewrite (bind_Err _ _ _ _ Eg)]].
    destruct (fresh _ _ Ep) as [Hp Hf]. destruct (pde_create_run p Hp) as (e & Ec & He & HP & HA).
    destruct (mapping_new_table s pd n pts p e Hm En ltac:(lia) Hp Hf He HP HA) as (wsd' & Ew' & Lw' & _ & Hm').
    rewrite Ew in Ew'. injection Ew' as <-. rewrite <- Ed in Hm'. eexists _, p, (pts ++ [p]). split; [|split; [exact Hm'|]].
    + rewrite (bind_Ret _ _ _ _ _ Eg), (lift_run _ _ _ _ Ec).
      erewrite bind_Ret; [reflexivity|]. apply store_word_run; [|lia]. cbn [tables].
      rewrite lookup_insert_ne; [done|]. intros ->. congruence.
    + rewrite length_app. cbn [length]. split; [lia|]. split; [lia|]. rewrite Ed, lookup_app_r, Nat.sub_diag by lia. done.
Qed.
Lemma paging_loop_run k n pd pt pts s : mapping s pd n pts → Z.of_nat (n + k) <= 2 ^ 18 →
  (n <= 1024 * length pts)%nat → (1024 * length pts < n + 1024)%nat → ((n < 1024 * length pts)%nat → pts !! (n / 1024)%nat = Some pt) →
  (∃ s' pts', paging_loop k (Z.of_nat n) pd pt s = Ret (tt, s') ∧ mapping s' pd (n + k) pts' ∧
    (n + k <= 1024 * length pts')%nat ∧ (1024 * length pts' < n + k + 1024)%nat) ∨
  (∃ s', palloc_get_page s' = None ∧ paging_loop k (Z.of_nat n) pd pt s = Err KernelPanic).
Proof using fresh.
  revert n pt pts s. induction k as [|k IH]; intros n pt pts s Hm Hk H1 H2 Hpt.
  { left. exists s, pts. rewrite Nat.add_0_r. done. }
  cbn [paging_loop]. assert (Hn : 0 <= Z.of_nat n < 2 ^ 18) by lia.
  destruct (kernel_page_index _ Hn) as (Ev & _ & Epd & Ept). rewrite (lift_run _ _ _ _ Ev). cbv zeta. rewrite Epd, Ept.
  change ((start <=? PHYS_BASE + Z.of_nat n * 4096) && (PHYS_BASE + Z.of_nat n * 4096 <? end_text)) with (text_page (Z.of_nat n)).
  change 1024 with (Z.of_nat 1024). rewrite <- Nat2Z.inj_div, <- Nat2Z.inj_mod.
  pose proof (Nat.div_mod_eq n 1024) as D. pose proof (Nat.mod_upper_bound n 1024 ltac:(lia)) as M.
  destruct (current_table_run n pd pt pts s Hm ltac:(lia) H1 H2 Hpt) as [(s1 & pt1 & pts1 & T & Hm1 & Hl1 & Hl2 & Hj1)|[Ep T]];
    [|right; exists s; split; [done|]; by rewrite (bind_Err _ _ _ _ T)].
  rewrite (bind_Ret _ _ _ _ _ T), (lift_run _ _ _ _ (pte_create_kernel_run _ Hn)).
  destruct (mapping_next_page s1 pd n pts1 pt1 Hm1 ltac:(lia) Hj1) as (ws & Ews & Lws & Hm2).
  erewrite bind_Ret; [|apply store_word_run; [exact Ews|rewrite Nat2Z.id, Lws; lia]].
  replace (Z.of_nat n + 1) with (Z.of_nat (S n)) by lia. rewrite <- Nat.add_succ_comm in Hk |- *. apply (IH (S n) pt1 pts1); [exact Hm2|lia..|].
  intros C. replace (S n / 1024)%nat with (n / 1024)%nat; [done|].
  apply (Nat.div_unique (S n) 1024 (n / 1024) (S (n mod 1024))); [|lia].
  destruct (decide (S (n mod 1024) = 1024)%nat) as [E|]; [|lia].
  assert (length pts1 <= S (n / 1024))%nat; [|lia]. lia.
Qed.

Lemma mapping_empty s p : kpage_ok p → mapping (mk_vm (<[p := zero_page]> (tables s)) (cr3 s) (tlb s) (freed s)) p 0 [].
Proof using.
  intros Hp. split; [done| |split; [by apply NoDup_singleton|done]|done]. cbn [tables]. exists zero_page. rewrite lookup_insert_eq.
  split; [done|]. split; [done|]. split; [|done]. intros i Hi _. by apply lookup_replicate_2.
Qed.
(** What the processor finds at an address, from the number [q] of its page. *)
Lemma mapping_kernel s pd n pts va q : mapping s pd n pts → (n <= 1024 * length pts)%nat → PHYS_BASE <= va < 2 ^ 32 →
  q = Z.to_nat ((va - PHYS_BASE) / 4096) →
  translate s pd va = if (q <? n)%nat then Some (kernel_pte (Z.of_nat q)) else None.
Proof using.
  intros Hm Hl Hva ->. set (q := Z.to_nat ((va - PHYS_BASE) / 4096)).
  destruct (k_dir _ _ _ _ Hm) as (wsd & Ew & Lw & Z0 & Zp).
  assert (Hq : Z.of_nat q = (va - PHYS_BASE) / 4096) by (unfold q; rewrite Z2Nat.id; [done|]; apply Z.div_pos; lia).
  assert (Hlt : Z.of_nat q < 2 ^ 18) by (rewrite Hq; apply Z.div_lt_upper_bound; unfold PHYS_BASE; lia).
  assert (Epd : Z.to_nat (pd_no va) = (768 + q / 1024)%nat).
  { rewrite pd_no_div. apply Nat2Z.inj. rewrite Nat2Z.inj_add, Nat2Z.inj_div, Hq. unfold PHYS_BASE in *. rewrite Z2Nat.id by (apply Z.div_pos; lia).
    change (2 ^ 22) with 4194304. change (Z.of_nat 1024) with 1024. change (Z.of_nat 768) with 768. clear -Hva. Z.div_mod_to_equations. lia. }
  assert (Ept : Z.to_nat (pt_no va) = (q mod 1024)%nat).
  { rewrite pt_no_mod. apply Nat2Z.inj. rewrite Nat2Z.inj_mod, Hq. unfold PHYS_BASE in *. rewrite Z2Nat.id by (apply Z.mod_pos_bound; lia).
    change (2 ^ 12) with 4096. change (2 ^ 10) with 1024. change (Z.of_nat 1024) with 1024. clear -Hva. Z.div_mod_to_equations. lia. }
  pose proof (Nat.div_mod_eq q 1024) as D. pose proof (Nat.mod_upper_bound q 1024 ltac:(lia)) as M.
  destruct (decide (q / 1024 < length pts)%nat) as [C|C].
  - destruct (lookup_lt_is_Some_2 pts _ C) as [pt Hj]. destruct (Zp _ _ Hj) as (e & Ee & He & HP & HA).
    destruct (k_tables _ _ _ _ Hm _ _ Hj) as (ws & Ews & _ & W).
    rewrite (translate_eq _ _ _ wsd e Ew) by by rewrite Epd. unfold pt_of. rewrite HP, HA.
    replace (pt - PHYS_BASE + PHYS_BASE) with pt by lia. rewrite Ews, Ept, W by done. rewrite <- D. unfold entry_at.
    destruct (q <? n)%nat; [|done]. destruct (kernel_pte_fields (Z.of_nat q) ltac:(lia)) as (_ & P & _). by rewrite P.
  - rewrite (proj2 (Nat.ltb_ge q n)) by lia. rewrite (translate_eq _ _ _ wsd 0 Ew); [done|]. rewrite Epd. apply Z0; [|lia].
    change (2 ^ 18) with 262144 in Hlt. lia.
Qed.
Lemma mapping_user s pd n pts va : mapping s pd n pts → user_va va → translate s pd va = None.
Proof using.
  intros Hm Hva. destruct (k_dir _ _ _ _ Hm) as (wsd & Ew & Lw & Z0 & _). destruct (index_range va Hva) as [H _].
  rewrite (translate_eq _ _ _ wsd 0 Ew); [done|]. apply Z0; lia.
Qed.

(** C11: [paging_init] maps the first [n] pages of physical memory at PHYS_BASE
    and nothing else: page [i] at its own kernel address, present, closed to
    user programs, and writable unless it holds the kernel's code; no user
    address is mapped; the new directory is active with an empty translation
    cache.  It returns unless the allocator runs out of pages, when it panics. *)
Theorem paging_init_maps_memory n s : Z.of_nat n <= 2 ^ 18 →
  (∃ pd s', paging_init n s = Ret (pd, s') ∧ cr3 s' + PHYS_BASE = pd ∧ tlb s' = ∅ ∧
    (∀ page ofs, 0 <= page < Z.of_nat n → 0 <= ofs < 4096 → ∃ e, translate s' pd (PHYS_BASE + page * 4096 + ofs) = Some e ∧
      Z.land e PTE_ADDR = page * 4096 ∧ flag e PTE_U = false ∧ flag e PTE_W = negb (text_page page)) ∧
    (∀ va, 0 <= va < 2 ^ 32 → va < PHYS_BASE ∨ PHYS_BASE + Z.of_nat n * 4096 <= va → translate s' pd va = None)) ∨
  (∃ s', palloc_get_page s' = None ∧ paging_init n s = Err KernelPanic).
Proof using fresh.
  intros Hn. unfold paging_init. destruct (get_zeroed_cases s) as [(pd & Ep & Eg)|[Ep Eg]];
    [|right; exists s; split; [done|]; by rewrite (bind_Err _ _ _ _ Eg)].
  rewrite (bind_Ret _ _ _ _ _ Eg). destruct (fresh _ _ Ep) as [Hp _].
  destruct (paging_loop_run n 0 pd 0 [] _ (mapping_empty s pd Hp)) as [(s1 & pts & E & Hm & Hl & _)|(s1 & En & E)]; [done|cbn; lia..| |].
  2: { right. exists s1. split; [done|]. change (Z.of_nat 0) with 0 in E. by rewrite (bind_Err _ _ _ _ E). }
  left. change (Z.of_nat 0) with 0 in E. rewrite (bind_Ret _ _ _ _ _ E), (lift_run _ _ _ _ (vtop_run pd Hp)), modify_bind, ret_run.
  eexists pd, _. split; [reflexivity|]. cbn [cr3 tlb]. split; [lia|]. split; [done|].
  assert (T : ∀ va, translate (mk_vm (tables s1) (pd - PHYS_BASE) ∅ (freed s1)) pd va = translate s1 pd va) by done.
  setoid_rewrite T. cbn [Nat.add] in Hm, Hl. split.
  - intros page ofs Hpage Hofs. exists (kernel_pte page).
    rewrite (mapping_kernel s1 pd n pts _ (Z.to_nat page) Hm Hl).
    + rewrite (proj2 (Nat.ltb_lt _ _)), Z2Nat.id by lia. destruct (kernel_pte_fields page ltac:(lia)) as (A & P & W & U). done.
    + unfold PHYS_BASE. lia.
    + f_equal. unfold PHYS_BASE. Z.div_mod_to_equations. lia.
  - intros va Hva [Hu|Hk]; [apply (mapping_user s1 pd n pts); [done|unfold user_va; lia]|].
    rewrite (mapping_kernel s1 pd n pts va (Z.to_nat ((va - PHYS_BASE) / 4096)) Hm Hl); [|unfold PHYS_BASE in *; lia|reflexivity].
    rewrite (proj2 (Nat.ltb_ge _ _)); [done|]. apply Nat2Z.inj_le. rewrite Z2Nat.id by (apply Z.div_pos; lia).
    apply Z.div_le_lower_bound; lia.
Qed.
End paging.

(** An allocator that hands out the pages from 1 MB up, as long as they are
    free. *)
Definition example_pages : list Z := (λ i, 0xc0100000 + 4096 * i) <$> seqZ 0 64.
Definition example_alloc (s : vm) : option Z := snd <$> list_find (λ p, tables s !! p = None) example_pages.
Lemma example_alloc_fresh s p : example_alloc s = Some p → kpage_ok p ∧ tables s !! p = None.
Proof.
  unfold example_alloc. rewrite fmap_Some. intros ([i x] & E & ->). apply list_find_Some in E as (E & H & _). split; [|done].
  apply list_elem_of_lookup_2 in E. unfold example_pages in E. apply list_elem_of_fmap in E as (k & -> & Hk). apply elem_of_seqZ in Hk.
  cbn [snd]. split; [unfold PHYS_BASE; lia|]. replace (3222274048 + 4096 * k) with ((786688 + k) * 4096) by lia. apply Z.mod_mul. lia.
Qed.
Lemma paging_init_maps_memory_witness :
  ∃ pd s', paging_init example_alloc 0xc0020000 0xc0030000 5 (mk_vm ∅ 0 ∅ []) = Ret (pd, s') ∧ cr3 s' + PHYS_BASE = pd.
Proof.
  destruct (paging_init_maps_memory example_alloc 0xc0020000 0xc0030000 example_alloc_fresh 5 (mk_vm ∅ 0 ∅ [])) as [(pd & s' & E & C & _)|(s' & _ & E)]; [lia| |].
  - exists pd, s'. by split.
  - vm_compute in E. discriminate E.
Defined.
