(* ===== verification/Random.v ===== *)
(** * The pseudo-random number generator (lib/random.c)

    RC4 over the array [s]; bytes and indexes are [uint8_t]. *)
From S2P Require Import Prelude.
Open Scope Z_scope.

Record rng : Set := mk_rng { s : list Z; s_i : Z; s_j : Z; inited : bool }.
Definition at_ (l : list Z) (i : Z) : Z := l !!! Z.to_nat i.

(** [swap_byte (s + a, s + b)] *)
Definition swap_byte (a b : Z) (l : list Z) : list Z :=
  let t := at_ l a in
  let l := <[Z.to_nat a := at_ l b]> l in
  <[Z.to_nat b := t]> l.

(** The bytes of the seed in memory, least significant first. *)
Definition seedp (seed : Z) (i : Z) : Z := Z.land (Z.shiftr seed (8 * (i mod 4))) 0xff.
Fixpoint schedule_loop (n : nat) (seed i j : Z) (l : list Z) : list Z :=
  match n with
  | O => l
  | S n => let j := u8 (j + (at_ l i + seedp seed i)) in schedule_loop n seed (i + 1) j (swap_byte i j l)
  end.
Definition random_init (seed : Z) : rng :=
  mk_rng (schedule_loop 256 seed 0 0 (seqZ 0 256)) 0 0 true.

Definition next_byte (r : rng) : Z * rng :=
  let i := u8 (s_i r + 1) in
  let j := u8 (s_j r + at_ (s r) i) in
  let l := swap_byte i j (s r) in
  let k := u8 (at_ l i + at_ l j) in
  (at_ l k, mk_rng l i j (inited r)).
Fixpoint bytes_loop (size : nat) (r : rng) : list Z * rng :=
  match size with
  | O => ([], r)
  | S size => let '(b, r) := next_byte r in let '(l, r) := bytes_loop size r in (b :: l, r)
  end.
Definition random_bytes (size : nat) (r : rng) : list Z * rng :=
  bytes_loop size (if inited r then r else random_init 0).
Definition random_ulong (r : rng) : Z * rng :=
  let '(l, r) := random_bytes 4 r in
  (foldr (λ b n, b + 256 * n) 0 l, r).

(** ** The state is a permutation of the bytes *)
Definition bytes : list Z := seqZ 0 256.
Definition rng_ok (r : rng) : Prop := inited r = true → s r ≡ₚ bytes ∧ 0 <= s_i r < 256 ∧ 0 <= s_j r < 256.

Lemma u8_range z : 0 <= u8 z < 256.
Proof. apply Z.mod_pos_bound. lia. Qed.
Lemma swap_Permutation a b l : 0 <= a < Z.of_nat (length l) → 0 <= b < Z.of_nat (length l) → swap_byte a b l ≡ₚ l.
Proof.
  intros Ha Hb. unfold swap_byte, at_. set (i := Z.to_nat a). set (j := Z.to_nat b).
  destruct (lookup_lt_is_Some_2 l i) as [x Ex]; [lia|]. destruct (lookup_lt_is_Some_2 l j) as [y Ey]; [lia|].
  rewrite (list_lookup_total_correct _ _ _ Ex), (list_lookup_total_correct _ _ _ Ey).
  destruct (decide (i = j)) as [Eij|Hij].
  - rewrite <- Eij in Ey |- *. rewrite list_insert_insert_eq, list_insert_id; [done|by rewrite <- Ex].
  - by apply Permutation_insert_swap.
Qed.
Lemma length_swap a b l : length (swap_byte a b l) = length l.
Proof. unfold swap_byte. by rewrite !length_insert. Qed.
Lemma swap_swap a b l : 0 <= a < Z.of_nat (length l) → 0 <= b < Z.of_nat (length l) → swap_byte a b (swap_byte a b l) = l.
Proof.
  intros Ha Hb. unfold swap_byte, at_. set (i := Z.to_nat a). set (j := Z.to_nat b).
  destruct (lookup_lt_is_Some_2 l i) as [x Ex]; [lia|]. destruct (lookup_lt_is_Some_2 l j) as [y Ey]; [lia|].
  rewrite (list_lookup_total_correct l i x Ex), (list_lookup_total_correct l j y Ey).
  assert (Ej : <[j := x]> (<[i := y]> l) !!! j = x).
  { apply list_lookup_total_correct, list_lookup_insert_eq. rewrite length_insert. lia. }
  assert (Ei : <[j := x]> (<[i := y]> l) !!! i = y).
  { destruct (decide (i = j)) as [E|E]; [rewrite E in Ex |- *; congruence|].
    apply list_lookup_total_correct. rewrite list_lookup_insert_ne by done. apply list_lookup_insert_eq. lia. }
  rewrite Ei, Ej. apply list_eq. intros k. destruct (decide (k = j)) as [->|Hj].
  - rewrite list_lookup_insert_eq by (rewrite !length_insert; lia). done.
  - rewrite list_lookup_insert_ne by done. destruct (decide (k = i)) as [->|Hi].
    + rewrite list_lookup_insert_eq by (rewrite !length_insert; lia). done.
    + by rewrite !list_lookup_insert_ne by done.
Qed.
Lemma permutation_length l : l ≡ₚ bytes → Z.of_nat (length l) = 256.
Proof. intros ->. reflexivity. Qed.
Lemma bytes_at l i : l ≡ₚ bytes → 0 <= i < 256 → 0 <= at_ l i < 256.
Proof.
  intros Hl Hi. pose proof (permutation_length l Hl) as L. unfold at_.
  destruct (lookup_lt_is_Some_2 l (Z.to_nat i)) as [x Ex]; [lia|]. rewrite (list_lookup_total_correct _ _ _ Ex).
  apply list_elem_of_lookup_2 in Ex. rewrite Hl in Ex. unfold bytes in Ex. apply elem_of_seqZ in Ex. lia.
Qed.
Lemma schedule_ok n seed i j l : l ≡ₚ bytes → 0 <= i → i + Z.of_nat n <= 256 → schedule_loop n seed i j l ≡ₚ bytes.
Proof.
  revert i j l. induction n as [|n IH]; intros i j l Hl H0 Hi; [done|]. cbn [schedule_loop]. cbv zeta.
  apply IH; [|lia|lia]. pose proof (permutation_length l Hl). rewrite swap_Permutation; [done|lia|].
  pose proof (u8_range (j + (at_ l i + seedp seed i))). lia.
Qed.
Lemma random_init_ok seed : rng_ok (random_init seed).
Proof. intros _. split; [apply schedule_ok; [reflexivity|lia|lia]|cbn; lia]. Qed.
Lemma next_ok r : rng_ok r → inited r = true → 0 <= (next_byte r).1 < 256 ∧ rng_ok (next_byte r).2 ∧ inited (next_byte r).2 = true.
Proof.
  intros H Hi. destruct (H Hi) as (Hp & H1 & H2). unfold next_byte. cbv zeta. cbn [fst snd inited].
  set (i := u8 (s_i r + 1)). set (j := u8 (s_j r + at_ (s r) i)). pose proof (u8_range (s_i r + 1)) as Ri. pose proof (u8_range (s_j r + at_ (s r) i)) as Rj.
  fold i in Ri. fold j in Rj. pose proof (permutation_length _ Hp) as L.
  assert (P : swap_byte i j (s r) ≡ₚ bytes) by (rewrite swap_Permutation; [done|lia|lia]).
  split; [apply bytes_at; [done|apply u8_range]|]. split; [|done]. intros _. done.
Qed.
Lemma bytes_loop_ok n r : rng_ok r → inited r = true →
  length (bytes_loop n r).1 = n ∧ Forall (λ b, 0 <= b < 256) (bytes_loop n r).1 ∧ rng_ok (bytes_loop n r).2 ∧ inited (bytes_loop n r).2 = true.
Proof.
  revert r. induction n as [|n IH]; intros r H Hi; [done|]. cbn [bytes_loop].
  destruct (next_ok r H Hi) as (Hb & H' & Hi'). destruct (next_byte r) as [b r']. cbn [fst snd] in *.
  destruct (IH r' H' Hi') as (L & F & R & I). destruct (bytes_loop n r') as [l r'']. cbn [fst snd] in *. cbn. auto.
Qed.
Lemma bytes_loop_app n m r :
  bytes_loop (n + m) r = ((bytes_loop n r).1 ++ (bytes_loop m (bytes_loop n r).2).1, (bytes_loop m (bytes_loop n r).2).2).
Proof.
  revert r. induction n as [|n IH]; intros r; cbn [Nat.add bytes_loop]; [cbn [fst snd app]; by destruct (bytes_loop m r)|].
  destruct (next_byte r) as [b r']. rewrite IH. destruct (bytes_loop n r') as [l r'']. reflexivity.
Qed.

(** A step can be undone: the generator never runs into the cycle of another state. *)
Lemma next_injective r1 r2 : rng_ok r1 → rng_ok r2 → inited r1 = true → inited r2 = true →
  (next_byte r1).2 = (next_byte r2).2 → r1 = r2.
Proof.
  intros H1 H2 I1 I2. destruct (H1 I1) as (P1 & Ri1 & Rj1), (H2 I2) as (P2 & Ri2 & Rj2).
  pose proof (permutation_length _ P1) as L1. pose proof (permutation_length _ P2) as L2.
  unfold next_byte. cbv zeta. cbn [snd]. intros E. injection E as El Ei Ej.
  destruct r1 as [l1 i1 j1 b1], r2 as [l2 i2 j2 b2]. cbn [s s_i s_j inited] in *.
  assert (Hi : i1 = i2) by (unfold u8 in Ei; Z.div_mod_to_equations; lia). subst i2.
  set (i := u8 (i1 + 1)) in *. rewrite <- Ej in El. set (j := u8 (j1 + at_ l1 i)) in *.
  pose proof (u8_range (i1 + 1)) as Ri. fold i in Ri. pose proof (u8_range (j1 + at_ l1 i)) as Rj. fold j in Rj.
  apply (f_equal (swap_byte i j)) in El. rewrite !swap_swap in El by lia. subst l2.
  pose proof (bytes_at l1 i P1 Ri). assert (j1 = j2); [|by subst].
  unfold j, u8 in Ej. Z.div_mod_to_equations. lia.
Qed.
Lemma bytes_loop_injective n r1 r2 : rng_ok r1 → rng_ok r2 → inited r1 = true → inited r2 = true →
  (bytes_loop n r1).2 = (bytes_loop n r2).2 → r1 = r2.
Proof.
  revert r1 r2. induction n as [|n IH]; intros r1 r2 H1 H2 I1 I2 E; [done|]. cbn [bytes_loop] in E.
  apply next_injective; try done. destruct (next_ok r1 H1 I1) as (_ & H1' & I1'), (next_ok r2 H2 I2) as (_ & H2' & I2').
  destruct (next_byte r1) as [b1 r1'], (next_byte r2) as [b2 r2']. cbn [snd] in *. apply IH; try done.
  by destruct (bytes_loop n r1'), (bytes_loop n r2').
Qed.

(** The generator keeps [s] a permutation of the 256 byte values and its
    indexes bytes, from any seed and across any sequence of calls; a request of
    [n + m] bytes is a request of [n] followed by one of [m]; every value
    written is a byte; and a state is never reached from two different states,
    so that two initialized generators that end alike started alike. *)
Theorem random_generator r n m : rng_ok r →
  let '(l, r') := random_bytes n r in
  length l = n ∧ Forall (λ b, 0 <= b < 256) l ∧ rng_ok r' ∧ inited r' = true ∧
  random_bytes (n + m) r = (l ++ (random_bytes m r').1, (random_bytes m r').2) ∧
  (∀ q, rng_ok q → inited q = true → inited r = true → (random_bytes n q).2 = r' → q = r).
Proof.
  intros Hr. unfold random_bytes. set (r0 := if inited r then r else random_init 0).
  assert (H0 : rng_ok r0 ∧ inited r0 = true).
  { unfold r0. destruct (inited r) eqn:I; [done|]. split; [apply random_init_ok|done]. }
  destruct H0 as [H0 I0]. destruct (bytes_loop_ok n r0 H0 I0) as (L & F & R & I). pose proof (bytes_loop_app n m r0) as A.
  pose proof (λ q Hq Iq, bytes_loop_injective n q r0 Hq H0 Iq I0) as J.
  destruct (bytes_loop n r0) as [l r']. cbn [fst snd] in *. rewrite I. split; [done|]. split; [done|]. split; [done|]. split; [done|].
  split; [done|]. intros q Hq Iq Ir. rewrite Iq. intros E. rewrite (J q Hq Iq E). unfold r0. by rewrite Ir.
Qed.
Lemma random_generator_witness :
  let '(l, r') := random_bytes 16 (random_init 162) in length l = 16%nat ∧ rng_ok r'.
Proof.
  pose proof (random_generator (random_init 162) 16 4 (random_init_ok 162)) as H.
  destruct (random_bytes 16 (random_init 162)) as [l r']. destruct H as (L & _ & R & _). exact (conj L R).
Defined.
