(* ===== verification/CmdLine.v ===== *)
(** * The kernel command line (threads/init.c)

    The loader leaves the arguments, one null-terminated string after the
    other, in the 128 bytes at LOADER_ARGS; [area] is the memory from there on.
    An argument is the list of its characters.  The strings [strtok_r] and
    [strcmp] work on are short and unshared, so their result is written here
    directly (KStringSpec has the routines themselves); [atoi] is that of
    LibStd. *)
From S2P Require Import Prelude Cache KString KStringSpec LibStd Stdio BlockDev Random.
From stdpp Require Import strings.
Open Scope Z_scope.

Definition LOADER_ARGS_LEN : nat := 128.
(** The length of [argv] in [read_command_line]. *)
Definition ARGV_LEN : nat := 65.

(** ** [read_command_line] *)
(** [strnlen (p, maxlen)] *)
Fixpoint strnlen (l : list Z) (maxlen : nat) : nat :=
  match maxlen, l with
  | S n, c :: l => if c =? 0 then O else S (strnlen l n)
  | _, _ => O
  end.
(** The string at the start of [l]; running off the memory is a fault. *)
Fixpoint string_at (l : list Z) : res (list Z) :=
  match l with
  | [] => Err BadPtr
  | c :: l => if c =? 0 then Ret [] else s ← string_at l; Ret (c :: s)
  end.
(** [argc - i = n] arguments are left, the next one at offset [p]. *)
Fixpoint argv_loop (n i p : nat) (area : list Z) : res (list nat) :=
  match n with
  | O => Ret []
  | S n =>
    if (LOADER_ARGS_LEN <=? p)%nat then Err KernelPanic
    else if (ARGV_LEN <=? i)%nat then Err OutOfBounds
    else
      let p' := (p + strnlen (drop p area) (LOADER_ARGS_LEN - p) + 1)%nat in
      ps ← argv_loop n (S i) p' area; Ret (p :: ps)
  end.
Fixpoint strings_at (ps : list nat) (area : list Z) : res (list (list Z)) :=
  match ps with
  | [] => Ret []
  | p :: ps => s ← string_at (drop p area); ss ← strings_at ps area; Ret (s :: ss)
  end.
Definition space : Z := 32.
Definition print_arg (s : list Z) : list Z :=
  if bool_decide (space ∈ s) then chars " '" ++ s ++ chars "'" else chars " " ++ s.
(** The arguments, and the line printed. *)
Definition read_command_line (argc : Z) (area : list Z) : res (list (list Z) * list Z) :=
  let argc := s32 argc in
  ps ← argv_loop (Z.to_nat argc) 0 0 area;
  if (argc <? 0) || (Z.of_nat ARGV_LEN <=? argc) then Err OutOfBounds
  else
    argv ← strings_at ps area;
    Ret (argv, chars "Kernel command line:" ++ concat (print_arg <$> argv) ++ [10]).

(** ** [parse_options] *)
Inductive shutdown_type : Set := SHUTDOWN_NONE | SHUTDOWN_POWER_OFF | SHUTDOWN_REBOOT.
Record settings : Set := mk_settings {
  how : shutdown_type; format_filesys : bool; filesys_bdev_name : option (list Z); scratch_bdev_name : option (list Z);
  thread_mlfqs : bool; user_page_limit : Z; generator : rng }.
Definition defaults : settings :=
  mk_settings SHUTDOWN_NONE false None None false (2 ^ 32 - 1) (mk_rng (replicate 256 0) 0 0 false).
Definition set_how v o := mk_settings v (format_filesys o) (filesys_bdev_name o) (scratch_bdev_name o) (thread_mlfqs o) (user_page_limit o) (generator o).
Definition set_format o := mk_settings (how o) true (filesys_bdev_name o) (scratch_bdev_name o) (thread_mlfqs o) (user_page_limit o) (generator o).
Definition set_filesys v o := mk_settings (how o) (format_filesys o) v (scratch_bdev_name o) (thread_mlfqs o) (user_page_limit o) (generator o).
Definition set_scratch v o := mk_settings (how o) (format_filesys o) (filesys_bdev_name o) v (thread_mlfqs o) (user_page_limit o) (generator o).
Definition set_mlfqs o := mk_settings (how o) (format_filesys o) (filesys_bdev_name o) (scratch_bdev_name o) true (user_page_limit o) (generator o).
Definition set_limit v o := mk_settings (how o) (format_filesys o) (filesys_bdev_name o) (scratch_bdev_name o) (thread_mlfqs o) v (generator o).
Definition set_generator v o := mk_settings (how o) (format_filesys o) (filesys_bdev_name o) (scratch_bdev_name o) (thread_mlfqs o) (user_page_limit o) v.

Definition equals : Z := 61.
Definition dash : Z := 45.
(** [strtok_r (arg, "=", &save_ptr)] and [strtok_r (NULL, "", &save_ptr)] of an
    argument that starts with a dash. *)
Fixpoint split_option (arg : list Z) : list Z * option (list Z) :=
  match arg with
  | [] => ([], None)
  | c :: rest =>
    if c =? equals then ([], match rest with [] => None | _ => Some rest end)
    else let '(name, value) := split_option rest in (c :: name, value)
  end.
(** The bytes of a string placed in memory. *)
Definition place (s : list Z) : mem := KStringSpec.write ∅ 1 (s ++ [0]).
(** [atoi (value)]; a missing value is a null pointer, which [atoi] refuses. *)
Definition atoi (value : option (list Z)) : res Z :=
  match value with
  | None => Err AssertFail
  | Some s => match LibStd.atoi 1 (place s) with Ret (n, _) => Ret n | Err e => Err e end
  end.

Inductive parsed : Type := Parsed (o : settings) (rest : list (list Z)) | PoweredOff.
Fixpoint options_loop (argv : list (list Z)) (o : settings) : res parsed :=
  match argv with
  | arg :: rest =>
    if bool_decide (head arg = Some dash) then
      let '(name, value) := split_option arg in
      if bool_decide (name = chars "-h") then Ret PoweredOff
      else if bool_decide (name = chars "-q") then options_loop rest (set_how SHUTDOWN_POWER_OFF o)
      else if bool_decide (name = chars "-r") then options_loop rest (set_how SHUTDOWN_REBOOT o)
      else if bool_decide (name = chars "-f") then options_loop rest (set_format o)
      else if bool_decide (name = chars "-filesys") then options_loop rest (set_filesys value o)
      else if bool_decide (name = chars "-scratch") then options_loop rest (set_scratch value o)
      else if bool_decide (name = chars "-rs") then n ← atoi value; options_loop rest (set_generator (random_init (u32 n)) o)
      else if bool_decide (name = chars "-mlfqs") then options_loop rest (set_mlfqs o)
      else if bool_decide (name = chars "-ul") then n ← atoi value; options_loop rest (set_limit (u32 n) o)
      else Err KernelPanic
    else Ret (Parsed o argv)
  | [] => Ret (Parsed o [])
  end.
(** [now] is what [rtc_get_time] returns (Rtc.v). *)
Definition parse_options (now : Z) (argv : list (list Z)) : res parsed :=
  p ← options_loop argv defaults;
  match p with
  | PoweredOff => Ret PoweredOff
  | Parsed o rest => Ret (Parsed (set_generator (random_init now) o) rest)
  end.

(** ** [run_actions] *)
Inductive action_function : Set := run_task | fsutil_ls | fsutil_cat | fsutil_rm | fsutil_extract | fsutil_append.
#[global] Instance action_function_eq_dec : EqDecision action_function.
Proof. solve_decision. Defined.
Record action : Set := mk_action { a_name : string; a_argc : nat; a_function : action_function }.
Definition actions : list action :=
  [mk_action "run" 2 run_task; mk_action "ls" 1 fsutil_ls; mk_action "cat" 2 fsutil_cat; mk_action "rm" 2 fsutil_rm;
   mk_action "extract" 1 fsutil_extract; mk_action "append" 2 fsutil_append].
Fixpoint find_action (l : list action) (word : list Z) : option action :=
  match l with [] => None | a :: l => if bool_decide (word = chars (a_name a)) then Some a else find_action l word end.
(** How the loop over the actions ends. *)
Inductive ending : Set := AllRun | UnknownAction (word : list Z) | MissingArgument (word : list Z) (required : nat).
(** The calls made, each with its arguments, and the ending.  [fuel] is at
    least the number of words. *)
Fixpoint actions_loop (fuel : nat) (argv : list (list Z)) : list (action_function * list (list Z)) * ending :=
  match fuel, argv with
  | S fuel, word :: _ =>
    match find_action actions word with
    | None => ([], UnknownAction word)
    | Some a =>
      if (length argv <? a_argc a)%nat then ([], MissingArgument word (a_argc a - 1))
      else
        let '(calls, e) := actions_loop fuel (drop (a_argc a) argv) in
        ((a_function a, take (a_argc a - 1) (drop 1 argv)) :: calls, e)
    end
  | _, _ => ([], AllRun)
  end.
Definition run_actions (argv : list (list Z)) := actions_loop (length argv) argv.

(** ** [locate_block_device] *)
Fixpoint locate_loop (fuel : nat) (b : option nat) (role : Cache.block_type) : cmd devices (option nat) :=
  match fuel, b with
  | S fuel, Some b =>
    t ← BlockDev.block_type b;
    if bool_decide (t = role) then mret (Some b)
    else next ← gets (block_next b); locate_loop fuel next role
  | _, _ => mret None
  end.
Definition locate_block_device (role : Cache.block_type) (name : option (list Z)) : cmd devices unit :=
  block ← match name with
          | Some name =>
            b ← gets (block_get_by_name name);
            match b with None => throw KernelPanic | Some b => mret (Some b) end
          | None =>
            n ← gets (λ s, length (all_blocks s)); b ← gets block_first; locate_loop n b role
          end;
  match block with
  | Some b => nm ← block_name b; say (Using (block_type_name role) nm);; block_set_role role (Some b)
  | None => mret tt
  end.
Definition locate_block_devices (o : settings) : cmd devices unit :=
  locate_block_device BLOCK_FILESYS (filesys_bdev_name o);;
  locate_block_device BLOCK_SCRATCH (scratch_bdev_name o).

(** * The kernel command line: what the boot program writes is what is run *)

(** ** Reading the arguments *)
(** The bytes of the arguments in memory. *)
Definition bytes (ws : list (list Z)) : list Z := ws ≫= (λ w, w ++ [0]).
Lemma strnlen_word w rest n : 0 ∉ w → (length w < n)%nat → strnlen (w ++ 0 :: rest) n = length w.
Proof.
  revert n. induction w as [|c w IH]; intros [|n] Hw Hn; simpl in *; try lia. apply not_elem_of_cons in Hw as [Hc Hw].
  rewrite (proj2 (Z.eqb_neq c 0)) by done. f_equal. apply IH; [done|lia].
Qed.
Lemma string_at_word w rest : 0 ∉ w → string_at (w ++ 0 :: rest) = Ret w.
Proof.
  induction w as [|c w IH]; intros Hw; [done|]. apply not_elem_of_cons in Hw as [Hc Hw]. simpl.
  rewrite (proj2 (Z.eqb_neq c 0)) by done. by rewrite (IH Hw).
Qed.
Lemma bytes_cons w ws : bytes (w :: ws) = w ++ 0 :: bytes ws.
Proof. unfold bytes. cbn. by rewrite <- app_assoc. Qed.

Lemma argv_loop_words ws i pre tail area :
  area = pre ++ bytes ws ++ tail → Forall (λ w, 0 ∉ w) ws → (length pre + length (bytes ws) <= LOADER_ARGS_LEN)%nat →
  (i + length ws <= ARGV_LEN)%nat →
  ∃ ps, argv_loop (length ws) i (length pre) area = Ret ps ∧ strings_at ps area = Ret ws.
Proof.
  intros Ea Hw. revert i pre Ea. induction Hw as [|w ws Hw Hws IH]; intros i pre Ea Hl Hi; [by exists []|].
  rewrite bytes_cons in Ea, Hl. rewrite length_app in Hl. cbn [length argv_loop] in *.
  rewrite (proj2 (Nat.leb_gt _ _)), (proj2 (Nat.leb_gt _ _)) by lia.
  assert (Ed : drop (length pre) area = w ++ 0 :: (bytes ws ++ tail)).
  { rewrite Ea, drop_app_length, <- app_assoc. done. }
  rewrite Ed, strnlen_word by (done || lia).
  destruct (IH (S i) (pre ++ w ++ [0])) as (ps & E1 & E2).
  - rewrite Ea, <- !app_assoc. done.
  - rewrite !length_app. cbn [length]. lia.
  - lia.
  - rewrite !length_app in E1. cbn [length] in E1. replace (length pre + length w + 1)%nat with (length pre + (length w + 1))%nat by lia.
    exists (length pre :: ps). rewrite E1. split; [done|]. cbn [strings_at]. by rewrite Ed, (string_at_word w _ Hw), E2.
Qed.

(** ** Options *)
Inductive option_word : Set :=
  | Quit | Reboot | Format | Mlfqs | Filesys (v : list Z) | Scratch (v : list Z) | Seed (ds : list Z) | Limit (ds : list Z).
Definition word_of_option (o : option_word) : list Z :=
  match o with
  | Quit => chars "-q" | Reboot => chars "-r" | Format => chars "-f" | Mlfqs => chars "-mlfqs"
  | Filesys v => chars "-filesys=" ++ v | Scratch v => chars "-scratch=" ++ v
  | Seed ds => chars "-rs=" ++ ds | Limit ds => chars "-ul=" ++ ds
  end.
(** A decimal number of at most 31 bits. *)
Definition number_ok (ds : list Z) : Prop := ds ≠ [] ∧ Forall (λ c, isdigit c = true) ds ∧ decimal ds < 2 ^ 31.
Definition option_ok (o : option_word) : Prop :=
  match o with Filesys v | Scratch v => v ≠ [] | Seed ds | Limit ds => number_ok ds | _ => True end.
Definition apply_option (s : settings) (o : option_word) : settings :=
  match o with
  | Quit => set_how SHUTDOWN_POWER_OFF s | Reboot => set_how SHUTDOWN_REBOOT s | Format => set_format s | Mlfqs => set_mlfqs s
  | Filesys v => set_filesys (Some v) s | Scratch v => set_scratch (Some v) s
  | Seed ds => set_generator (random_init (decimal ds)) s | Limit ds => set_limit (decimal ds) s
  end.

Lemma split_plain w : equals ∉ w → split_option w = (w, None).
Proof.
  induction w as [|c w IH]; intros Hw; [done|]. apply not_elem_of_cons in Hw as [Hc Hw]. cbn [split_option].
  rewrite (proj2 (Z.eqb_neq c equals)) by done. by rewrite (IH Hw).
Qed.
Lemma split_value w v : equals ∉ w → v ≠ [] → split_option (w ++ equals :: v) = (w, Some v).
Proof.
  intros Hw Hv. induction w as [|c w IH]; cbn [app split_option].
  - rewrite Z.eqb_refl. by destruct v.
  - apply not_elem_of_cons in Hw as [Hc Hw]. rewrite (proj2 (Z.eqb_neq c equals)) by done. by rewrite (IH Hw).
Qed.

Lemma decimal_nonneg ds : Forall (λ c, isdigit c = true) ds → 0 <= decimal ds.
Proof.
  unfold decimal. intros H. assert (G : ∀ v, 0 <= v → 0 <= foldl (λ v c, v * 10 + (c - 48)) v ds); [|by apply G].
  induction H as [|c ds Hc H IH]; intros v Hv; [done|]. cbn. apply IH. unfold isdigit in Hc. lia.
Qed.
Lemma digit_not_nul ds : Forall (λ c, isdigit c = true) ds → 0 ∉ ds.
Proof. rewrite Forall_forall. intros H H0. specialize (H 0 H0). done. Qed.
Lemma atoi_digits ds : number_ok ds → atoi (Some ds) = Ret (decimal ds).
Proof.
  intros (Hne & Hd & Hlt). unfold atoi.
  assert (C : cstr (place ds) 1 ds) by (apply write_cstr; [lia|by apply digit_not_nul]).
  destruct (atoi_correct (place ds) 1 [] [] ds []) as [_ E]; [constructor|set_solver|done|done|done|by rewrite app_nil_r|].
  rewrite bool_decide_false in E by done. rewrite E; [done|]. pose proof (decimal_nonneg ds Hd). lia.
Qed.

Ltac names := repeat (rewrite bool_decide_false by (vm_compute; discriminate)); rewrite bool_decide_true by reflexivity.
Lemma option_step o rest s : option_ok o → options_loop (word_of_option o :: rest) s = options_loop rest (apply_option s o).
Proof.
  intros Ho.
  assert (H : ∃ name value, split_option (word_of_option o) = (name, value) ∧ head (word_of_option o) = Some dash ∧
    match o with
    | Quit => name = chars "-q" | Reboot => name = chars "-r" | Format => name = chars "-f" | Mlfqs => name = chars "-mlfqs"
    | Filesys v => name = chars "-filesys" ∧ value = Some v | Scratch v => name = chars "-scratch" ∧ value = Some v
    | Seed ds => name = chars "-rs" ∧ value = Some ds | Limit ds => name = chars "-ul" ∧ value = Some ds
    end).
  { destruct o as [| | | |v|v|ds|ds]; cbn [word_of_option] in *.
    1-4: do 2 eexists; split; [vm_compute; reflexivity|split; vm_compute; reflexivity].
    1: exists (chars "-filesys"), (Some v). 2: exists (chars "-scratch"), (Some v). 3: exists (chars "-rs"), (Some ds). 4: exists (chars "-ul"), (Some ds).
    all: split; [|split; [vm_compute; reflexivity|done]].
    1: change (chars "-filesys=") with (chars "-filesys" ++ [equals]). 2: change (chars "-scratch=") with (chars "-scratch" ++ [equals]).
    3: change (chars "-rs=") with (chars "-rs" ++ [equals]). 4: change (chars "-ul=") with (chars "-ul" ++ [equals]).
    all: rewrite <- app_assoc; apply split_value; [by_decision|by apply Ho || by destruct Ho]. }
  destruct H as (name & value & E & Hh & Hn). cbn [options_loop]. rewrite E, bool_decide_true by done.
  destruct o as [| | | |v|v|ds|ds]; cbn [apply_option option_ok] in *.
  1-4: rewrite Hn. 5-8: destruct Hn as [-> ->].
  all: names; try done.
  all: rewrite atoi_digits by done; cbn [mbind res_bind]; rewrite u32_small; [done|]; destruct Ho as (_ & Hd & Hlt); pose proof (decimal_nonneg ds Hd); lia.
Qed.
Lemma options_run os rest s : Forall option_ok os → head (default [] (head rest)) ≠ Some dash →
  options_loop ((word_of_option <$> os) ++ rest) s = Ret (Parsed (foldl apply_option s os) rest).
Proof.
  intros Ho Hr. revert s. induction Ho as [|o os Ho Hos IH]; intros s.
  - cbn. destruct rest as [|w rest]; [done|]. cbn in *. by rewrite bool_decide_false.
  - rewrite fmap_cons, <- app_comm_cons, option_step by done. apply IH.
Qed.

(** ** Actions *)
Abbreviation call := (action_function * list (list Z))%type.
Definition action_of (f : action_function) : action :=
  match f with
  | run_task => mk_action "run" 2 run_task | fsutil_ls => mk_action "ls" 1 fsutil_ls | fsutil_cat => mk_action "cat" 2 fsutil_cat
  | fsutil_rm => mk_action "rm" 2 fsutil_rm | fsutil_extract => mk_action "extract" 1 fsutil_extract | fsutil_append => mk_action "append" 2 fsutil_append
  end.
Definition words_of_call (c : call) : list (list Z) := chars (a_name (action_of c.1)) :: c.2.
Definition call_ok (c : call) : Prop := S (length c.2) = a_argc (action_of c.1).
Lemma find_action_of f : find_action actions (chars (a_name (action_of f))) = Some (action_of f).
Proof. by destruct f. Qed.
Lemma action_of_function f : a_function (action_of f) = f.
Proof. by destruct f. Qed.
Lemma actions_run cs fuel : Forall call_ok cs → (length (cs ≫= words_of_call) <= fuel)%nat →
  actions_loop fuel (cs ≫= words_of_call) = (cs, AllRun).
Proof.
  intros Hc. revert fuel. induction Hc as [|[f args] cs Hc Hcs IH]; intros fuel Hf; [by destruct fuel|].
  rewrite bind_cons in Hf |- *. unfold words_of_call in Hf |- *. fold words_of_call in Hf |- *. cbn [fst snd] in *. unfold call_ok in Hc. cbn [fst snd] in Hc.
  destruct fuel as [|fuel]; [cbn in Hf; lia|]. rewrite <- app_comm_cons in Hf |- *. cbn [actions_loop]. rewrite find_action_of, <- Hc.
  rewrite (proj2 (Nat.ltb_ge _ _)) by (cbn; rewrite length_app; lia). cbn [drop Nat.sub].
  rewrite drop_app_length, IH by (cbn in Hf; rewrite length_app in Hf; lia).
  rewrite Nat.sub_0_r, drop_0, take_app_length, action_of_function. done.
Qed.
Lemma actions_head cs : head (default [] (head (cs ≫= words_of_call))) ≠ Some dash.
Proof. destruct cs as [|[f args] cs]; [done|]. rewrite bind_cons. by destruct f. Qed.

(** C12: The command line written as the boot program writes it is run as meant:
    for any options and actions whose words fit in the loader's 128 bytes,
    [read_command_line] finds the words, [parse_options] applies the options in
    order and stops at the first action, and [run_actions] makes exactly the
    calls, in order, with their arguments.  The one exception is -rs: the
    generator is always seeded from the clock in the end. *)
Theorem command_line_runs_as_written now os cs area tail :
  let ws := (word_of_option <$> os) ++ (cs ≫= words_of_call) in
  Forall option_ok os → Forall call_ok cs → Forall (λ w, 0 ∉ w) ws →
  (length (bytes ws) <= LOADER_ARGS_LEN)%nat → (length ws < ARGV_LEN)%nat → area = bytes ws ++ tail →
  ∃ text, read_command_line (Z.of_nat (length ws)) area = Ret (ws, text) ∧
    parse_options now ws = Ret (Parsed (set_generator (random_init now) (foldl apply_option defaults os)) (cs ≫= words_of_call)) ∧
    run_actions (cs ≫= words_of_call) = (cs, AllRun).
Proof.
  intros ws Ho Hc Hw Hl Hn Ha. destruct (argv_loop_words ws 0 [] tail area Ha Hw Hl ltac:(lia)) as (ps & E1 & E2).
  eexists. split; [|split].
  - unfold read_command_line. rewrite s32_small by (unfold ARGV_LEN in Hn; lia). cbv zeta. rewrite Nat2Z.id. cbn [length] in E1. rewrite E1. cbn [mbind res_bind].
    rewrite (proj2 (Z.ltb_ge _ _)), (proj2 (Z.leb_gt _ _)) by lia. cbn [orb]. rewrite E2. reflexivity.
  - unfold parse_options. unfold ws. rewrite options_run by (done || apply actions_head). done.
  - by apply actions_run.
Qed.
Lemma command_line_runs_as_written_witness :
  let ws := [chars "-q"; chars "-rs=42"; chars "-ul=100"; chars "run"; chars "echo x"; chars "ls"] in
  ∃ text, read_command_line 6 (bytes ws ++ replicate 128 0) = Ret (ws, text) ∧
    run_actions [chars "run"; chars "echo x"; chars "ls"] = ([(run_task, [chars "echo x"]); (fsutil_ls, [])], AllRun).
Proof.
  intros ws.
  destruct (command_line_runs_as_written 0 [Quit; Seed (chars "42"); Limit (chars "100")] [(run_task, [chars "echo x"]); (fsutil_ls, [])]
    (bytes ws ++ replicate 128 0) (replicate 128 0)) as (text & E1 & _ & E3).
  - repeat constructor; by_decision || discriminate.
  - repeat constructor.
  - repeat constructor; by_decision.
  - vm_compute. lia.
  - vm_compute. lia.
  - reflexivity.
  - exists text. split; [exact E1|exact E3].
Defined.

(** An option -rs has no effect: the generator is seeded again from the clock. *)
Lemma seed_option_ignored now argv o rest : parse_options now argv = Ret (Parsed o rest) → generator o = random_init now.
Proof.
  unfold parse_options. destruct (options_loop argv defaults) as [[o' rest'|]|]; [|done..]. by intros [= <- _].
Qed.
(** Empty arguments need one byte each, so more of them than [argv] has room
    for pass the check of the loader's space. *)
Lemma empty_arguments_overflow tail : read_command_line 66 (replicate 128 0 ++ tail) = Err OutOfBounds.
Proof. by vm_compute. Qed.

(** ** Block devices for the roles *)
Lemma locate_loop_run n e role s : (length (all_blocks s) = e + n)%nat →
  locate_loop n (list_elem_to_block e s) role s =
  Ret ((λ p, (e + p.1)%nat) <$> list_find (λ d, btype d = role) (drop e (all_blocks s)), s).
Proof.
  revert e. induction n as [|n IH]; intros e Hl; [by rewrite drop_ge by lia|].
  unfold list_elem_to_block. rewrite (proj2 (Nat.ltb_lt _ _)) by lia. cbn [locate_loop].
  destruct (lookup_lt_is_Some_2 (all_blocks s) e) as [d Ed]; [lia|].
  rewrite (bind_Ret (BlockDev.block_type e) _ s (btype d) s) by (unfold BlockDev.block_type, get_dev, mbind, cmd_bind; by rewrite Ed).
  rewrite (drop_S _ _ _ Ed). cbn [list_find]. destruct (decide (btype d = role)) as [E|E].
  - rewrite bool_decide_true by done. cbn. by rewrite Nat.add_0_r.
  - rewrite bool_decide_false by done. rewrite gets_bind. unfold block_next. rewrite (IH (S e)) by lia. f_equal. f_equal.
    rewrite <- option_fmap_compose. destruct (list_find _ (drop (S e) (all_blocks s))) as [[i x]|]; [|done]. cbn. f_equal. lia.
Qed.
(** Without a name the role goes to the first device of its type in probe
    order, if there is one; with a name to that device, and a name that no device
    has is a panic. *)
Theorem block_roles_located role name s : (type_index role < BLOCK_ROLE_CNT)%nat →
  let chosen := match name with Some nm => block_get_by_name nm s | None => fst <$> list_find (λ d, btype d = role) (all_blocks s) end in
  match chosen with
  | Some b => ∀ d, all_blocks s !! b = Some d → ∃ s', locate_block_device role name s = Ret (tt, s') ∧
      all_blocks s' = all_blocks s ∧ block_by_role s' = <[type_index role := Some b]> (block_by_role s) ∧
      printed s' = printed s ++ [Using (block_type_name role) (BlockDev.name d)]
  | None => locate_block_device role name s = match name with Some _ => Err KernelPanic | None => Ret (tt, s) end
  end.
Proof.
  intros Hr chosen. unfold locate_block_device.
  assert (E : (match name with
    | Some name => b ← gets (block_get_by_name name); match b with None => throw KernelPanic | Some b => mret (Some b) end
    | None => n ← gets (λ s, length (all_blocks s)); b ← gets block_first; locate_loop n b role end) s =
    match chosen, name with None, Some _ => Err KernelPanic | _, _ => Ret (chosen, s) end).
  { unfold chosen. destruct name as [nm|].
    - rewrite gets_bind. by destruct (block_get_by_name nm s).
    - rewrite !gets_bind. unfold block_first. rewrite locate_loop_run by done. rewrite drop_0.
      by destruct (list_find _ _) as [[i x]|]. }
  clearbody chosen. destruct chosen as [b|].
  - intros d Hd. rewrite (bind_Ret _ _ _ _ _ E). 
    rewrite (bind_Ret (block_name b) _ s (BlockDev.name d) s) by (unfold block_name, get_dev, mbind, cmd_bind; by rewrite Hd).
    unfold say, block_set_role. rewrite modify_bind, ASSERT_bind by (by apply Nat.ltb_lt). rewrite modify_run. eexists. split; [reflexivity|]. done.
  - destruct name; [by rewrite (bind_Err _ _ _ _ E)|by rewrite (bind_Ret _ _ _ _ _ E)].
Qed.
