(* ===== verification/Timer.v ===== *)
(** * The timer and its chip (devices/timer.c, devices/pit.c)

    Time passes by itself: [passes l] is the number of timer ticks that occur
    during [busy_wait (l)] started right after a tick, and [yield_ticks k] the
    number that occur while the thread has yielded for the [k]-th time; both are
    properties of the machine.  Messages on the console are not modelled here. *)
From S2P Require Import Prelude Descriptors.
Open Scope Z_scope.

Definition TIMER_FREQ : Z := 100.
Definition PIT_HZ : Z := 1193180.
Definition PIT_PORT_CONTROL : Z := 0x43.
Definition PIT_PORT_COUNTER (channel : Z) : Z := 0x40 + channel.

(** ** Programming the chip *)
Definition u16 (z : Z) : Z := z mod 2 ^ 16.
Definition pit_count (frequency : Z) : Z :=
  if frequency <? 19 then 0
  else if PIT_HZ <? frequency then 2
  else u16 (Z.quot (PIT_HZ + Z.quot frequency 2) frequency).
(** The bytes written, with their ports; interrupts are off meanwhile. *)
Definition pit_configure_channel (channel mode frequency : Z) : res (list (Z * Z)) :=
  RASSERT ((channel =? 0) || (channel =? 2));;
  RASSERT ((mode =? 2) || (mode =? 3));;
  let count := pit_count frequency in
  Ret [(PIT_PORT_CONTROL, u8 (Z.lor (Z.lor (Z.shiftl channel 6) 0x30) (Z.shiftl mode 1)));
       (PIT_PORT_COUNTER channel, u8 count); (PIT_PORT_COUNTER channel, u8 (Z.shiftr count 8))].
Definition timer_init : res (list (Z * Z)) := pit_configure_channel 0 2 TIMER_FREQ.

(** ** Ticks *)
Record timer : Set := mk_timer { ticks : Z; loops_per_tick : Z; intr_on : bool; yields : nat }.
Definition set_loops (l : Z) : cmd timer unit := modify (λ t, mk_timer (ticks t) l (intr_on t) (yields t)).
Definition add_ticks (n : Z) : cmd timer unit := modify (λ t, mk_timer (ticks t + n) (loops_per_tick t) (intr_on t) (yields t)).
Definition timer_ticks : cmd timer Z := gets ticks.
Definition timer_elapsed (then_ : Z) : cmd timer Z := t ← timer_ticks; mret (t - then_).
(** The part of [timer_interrupt] that keeps the time. *)
Definition timer_interrupt : cmd timer unit := add_ticks 1.

Section machine.
Context (passes : Z → Z) (yield_ticks : nat → Z).

Definition thread_yield : cmd timer unit := λ t,
  Ret (tt, mk_timer (ticks t + yield_ticks (yields t)) (loops_per_tick t) (intr_on t) (S (yields t))).
(** [loops] is an [int64_t]; a negative count does not wait. *)
Definition busy_wait (loops : Z) : cmd timer unit := add_ticks (if 0 <? loops then passes loops else 0).

Definition too_many_loops (loops : Z) : cmd timer bool :=
  add_ticks 1;;
  start ← gets ticks;
  busy_wait loops;;
  now ← gets ticks;
  mret (negb (start =? now)).

Fixpoint double_loop (fuel : nat) : cmd timer unit :=
  match fuel with
  | O => throw NoFuel
  | S fuel =>
    l ← gets loops_per_tick;
    b ← too_many_loops (u32 (Z.shiftl l 1));
    if (b : bool) then mret tt
    else
      set_loops (u32 (Z.shiftl l 1));;
      l ← gets loops_per_tick; ASSERT (negb (l =? 0));;
      double_loop fuel
  end.
Fixpoint refine_loop (fuel : nat) (high_bit test_bit : Z) : cmd timer unit :=
  match fuel with
  | O => throw NoFuel
  | S fuel =>
    if test_bit =? Z.shiftr high_bit 10 then mret tt
    else
      b ← too_many_loops (Z.lor high_bit test_bit);
      (if (b : bool) then mret tt else l ← gets loops_per_tick; set_loops (Z.lor l test_bit));;
      refine_loop fuel high_bit (Z.shiftr test_bit 1)
  end.
Definition timer_calibrate : cmd timer unit :=
  on ← gets intr_on; ASSERT on;;
  set_loops (Z.shiftl 1 10);;
  double_loop 23;;
  high_bit ← gets loops_per_tick;
  refine_loop 10 high_bit (Z.shiftr high_bit 1).

Fixpoint sleep_loop (fuel : nat) (start n : Z) : cmd timer unit :=
  match fuel with
  | O => throw NoFuel
  | S fuel =>
    e ← timer_elapsed start;
    if e <? n then thread_yield;; sleep_loop fuel start n else mret tt
  end.
Definition timer_sleep (fuel : nat) (n : Z) : cmd timer unit :=
  start ← timer_ticks;
  on ← gets intr_on; ASSERT on;;
  sleep_loop fuel start n.

(** [int64_t] arithmetic; [loops_per_tick] is converted to it. *)
Definition real_time_delay (num denom : Z) : cmd timer unit :=
  ASSERT (Z.rem denom 1000 =? 0);;
  l ← gets loops_per_tick;
  busy_wait (s64 (Z.quot (s64 (Z.quot (s64 (l * num)) 1000 * TIMER_FREQ)) (Z.quot denom 1000))).
Definition real_time_sleep (fuel : nat) (num denom : Z) : cmd timer unit :=
  let n := Z.quot (s64 (num * TIMER_FREQ)) denom in
  on ← gets intr_on; ASSERT on;;
  if 0 <? n then timer_sleep fuel n else real_time_delay num denom.
Definition timer_msleep (fuel : nat) (ms : Z) := real_time_sleep fuel ms 1000.
Definition timer_usleep (fuel : nat) (us : Z) := real_time_sleep fuel us (1000 * 1000).
Definition timer_nsleep (fuel : nat) (ns : Z) := real_time_sleep fuel ns (1000 * 1000 * 1000).
Definition timer_mdelay (ms : Z) := real_time_delay ms 1000.
Definition timer_udelay (us : Z) := real_time_delay us (1000 * 1000).
Definition timer_ndelay (ns : Z) := real_time_delay ns (1000 * 1000 * 1000).
End machine.

(** ** Calibration on a machine of a given speed *)
Section calibration.
Context (passes : Z → Z) (speed : Z).
(** More than [speed] loops take more than a tick. *)
Context (passes_speed : ∀ l, (passes l = 0 ↔ l <= speed) ∧ 0 <= passes l).

Definition waited (l : Z) (t : timer) : timer :=
  mk_timer (ticks t + 1 + (if 0 <? l then passes l else 0)) (loops_per_tick t) (intr_on t) (yields t).
Lemma too_many_run l t : 0 < speed → too_many_loops passes l t = Ret (bool_decide (speed < l), waited l t).
Proof using passes_speed.
  intros Hs. unfold too_many_loops, busy_wait, add_ticks. rewrite modify_bind, gets_bind, modify_bind, gets_bind, ret_run. cbn [ticks loops_per_tick intr_on yields].
  unfold waited. f_equal. f_equal. destruct (passes_speed l) as [Hp H0]. case_bool_decide as D.
  - rewrite (proj2 (Z.ltb_lt 0 l)) by lia. apply negb_true_iff, Z.eqb_neq. intros E. assert (passes l = 0) by lia. apply Hp in H. lia.
  - apply negb_false_iff, Z.eqb_eq. destruct (Z.ltb_spec 0 l); [|lia]. assert (passes l = 0) by (apply Hp; lia). lia.
Qed.

Lemma double_run n k t : (0 < n)%nat → 0 <= k → 2 ^ k <= speed < 2 ^ 31 → k < 31 → 31 <= k + Z.of_nat n → loops_per_tick t = 2 ^ k →
  ∃ t', double_loop passes n t = Ret (tt, t') ∧ loops_per_tick t' = 2 ^ Z.log2 speed ∧ ticks t <= ticks t'.
Proof using passes_speed.
  revert k t. induction n as [|n IH]; intros k t Hn Hk Hs Hk31 Hf El; [lia|]. cbn [double_loop].
  rewrite gets_bind, El, Z.shiftl_mul_pow2 by lia. change (2 ^ 1) with 2.
  pose proof (Z.pow_pos_nonneg 2 k ltac:(lia) Hk) as Hpos.
  assert (E2 : 2 ^ k * 2 = 2 ^ (k + 1)) by (rewrite Z.pow_add_r by lia; lia). 
  assert (B2 : 2 ^ (k + 1) <= 2 ^ 31) by (apply Z.pow_le_mono_r; lia).
  rewrite E2, u32_small by (change (2 ^ 32) with 4294967296; change (2 ^ 31) with 2147483648 in *; lia).
  rewrite (bind_Ret _ _ _ _ _ (too_many_run _ t ltac:(lia))).
  destruct (passes_speed (2 ^ (k + 1))) as [_ Hp0]. case_bool_decide as D.
  - eexists. split; [reflexivity|]. cbn. split.
    + rewrite El. f_equal. symmetry. apply Z.log2_unique; [lia|]. split; [lia|]. rewrite <- Z.add_1_r. lia.
    + case_match; lia.
  - unfold set_loops. rewrite modify_bind, gets_bind. cbn [loops_per_tick waited].
    rewrite ASSERT_bind by (apply negb_true_iff, Z.eqb_neq; lia).
    assert (k + 1 < 31). { destruct (Z.eq_dec (k + 1) 31) as [E|]; [|lia]. rewrite E in D. lia. }
    destruct (IH (k + 1) (mk_timer (ticks (waited (2 ^ (k + 1)) t)) (2 ^ (k + 1)) (intr_on (waited (2 ^ (k + 1)) t)) (yields (waited (2 ^ (k + 1)) t))))
      as (t' & E & L & T); [lia|lia|lia|lia|lia|done|].
    exists t'. split; [exact E|]. split; [done|]. cbn in T. case_match; lia.
Qed.

(** The bits from [i] up to [m]. *)
Definition ones_from (i m : Z) : Z := if i <=? m then 2 ^ (m + 1) - 2 ^ i else 0.
Lemma ones_from_step i m : 0 <= i → ones_from i m = ones_from (i + 1) m + if i <=? m then 2 ^ i else 0.
Proof using.
  intros Hi. unfold ones_from. pose proof (Z.pow_succ_r 2 i Hi) as P. rewrite <- Z.add_1_r in P.
  destruct (Z.leb_spec i m), (Z.leb_spec (i + 1) m); try lia. replace m with i by lia. lia.
Qed.
Lemma ones_from_multiple i m : 0 <= i → ones_from i m mod 2 ^ i = 0.
Proof using.
  intros Hi. unfold ones_from. destruct (Z.leb_spec i m); [|by rewrite Zmod_0_l].
  replace (m + 1) with ((m + 1 - i) + i) by lia. rewrite Z.pow_add_r by lia.
  replace (2 ^ (m + 1 - i) * 2 ^ i - 2 ^ i) with ((2 ^ (m + 1 - i) - 1) * 2 ^ i) by lia. apply Z_mod_mult.
Qed.

Lemma refine_run n k j t : (0 < n)%nat → 0 < speed → 10 <= k → k - 10 <= j < k → j - (k - 10) < Z.of_nat n →
  loops_per_tick t = 2 ^ k + ones_from (j + 1) (Z.log2 (speed - 2 ^ k)) → 2 ^ k <= speed →
  ∃ t', refine_loop passes n (2 ^ k) (2 ^ j) t = Ret (tt, t') ∧
    loops_per_tick t' = 2 ^ k + ones_from (k - 9) (Z.log2 (speed - 2 ^ k)) ∧ ticks t <= ticks t'.
Proof using passes_speed.
  revert j t. induction n as [|n IH]; intros j t Hn Hs Hk Hj Hf El Hsp; [lia|]. cbn [refine_loop].
  assert (E10 : Z.shiftr (2 ^ k) 10 = 2 ^ (k - 10)) by (rewrite Z.shiftr_div_pow2, <- Z.pow_sub_r by lia; done).
  rewrite E10. destruct (Z.eqb_spec (2 ^ j) (2 ^ (k - 10))) as [E|E].
  { apply Z.pow_inj_r in E; [|lia..]. exists t. split; [done|]. split; [|lia]. rewrite El. do 2 f_equal. lia. }
  assert (Hj' : k - 10 < j) by (destruct (Z.eq_dec j (k - 10)) as [->|]; [done|lia]).
  assert (L1 : Z.lor (2 ^ k) (2 ^ j) = 2 ^ k + 2 ^ j).
  { apply (lor_add' _ _ k); [lia| |by rewrite Z_mod_same_full]. pose proof (Z.pow_lt_mono_r 2 j k). pose proof (Z.pow_nonneg 2 j). lia. }
  set (m := Z.log2 (speed - 2 ^ k)) in *. rewrite L1, (bind_Ret _ _ _ _ _ (too_many_run _ t Hs)).
  assert (Hd : bool_decide (speed < 2 ^ k + 2 ^ j) = negb (j <=? m)).
  { pose proof (Z.pow_pos_nonneg 2 j ltac:(lia) ltac:(lia)). destruct (Z.leb_spec j m) as [Hm|Hm].
    - apply bool_decide_eq_false. intros C. assert (0 < speed - 2 ^ k).
      { destruct (Z.eq_dec (speed - 2 ^ k) 0) as [Ez|]; [|lia]. unfold m in Hm. rewrite Ez in Hm. cbn in Hm. lia. }
      apply Z.log2_le_pow2 in Hm; lia.
    - apply bool_decide_eq_true. destruct (Z.eq_dec (speed - 2 ^ k) 0); [lia|]. apply Z.log2_lt_pow2 in Hm; lia. }
  rewrite Hd. clear Hd.
  assert (S1 : Z.shiftr (2 ^ j) 1 = 2 ^ (j - 1)) by (rewrite Z.shiftr_div_pow2, <- Z.pow_sub_r by lia; done).
  assert (W : ticks t <= ticks (waited (2 ^ k + 2 ^ j) t)).
  { cbn. destruct (passes_speed (2 ^ k + 2 ^ j)) as [_ H0]. case_match; lia. }
  assert (R : ∃ t2, (if negb (j <=? m) then mret tt else l ← gets loops_per_tick; set_loops (Z.lor l (2 ^ j))) (waited (2 ^ k + 2 ^ j) t) = Ret (tt, t2)
    ∧ loops_per_tick t2 = 2 ^ k + ones_from (j - 1 + 1) m ∧ ticks t2 = ticks (waited (2 ^ k + 2 ^ j) t)).
  { replace (j - 1 + 1) with j by lia. rewrite ones_from_step by lia. destruct (j <=? m) eqn:Ej; cbn [negb].
    - eexists. rewrite gets_bind. split; [reflexivity|]. split; [|done]. cbn [loops_per_tick waited]. rewrite El, (lor_add' _ _ (j + 1)); [lia|lia| |].
      + rewrite Z.pow_add_r by lia. pose proof (Z.pow_pos_nonneg 2 j). lia.
      + replace (2 ^ k) with (2 ^ (k - (j + 1)) * 2 ^ (j + 1)) by (rewrite <- Z.pow_add_r by lia; f_equal; lia).
        rewrite Z.add_comm, Z_mod_plus_full. apply ones_from_multiple. lia.
    - eexists. split; [reflexivity|]. split; [|done]. cbn [loops_per_tick waited]. rewrite El. lia. }
  destruct R as (t2 & R & L2 & T2). rewrite (bind_Ret _ _ _ _ _ R), S1.
  destruct (IH (j - 1) t2) as (t' & E' & L' & T'); try lia; try done. exists t'. split; [done|]. split; [done|]. lia.
Qed.

Lemma calibrate_run t : 2 ^ 10 <= speed < 2 ^ 31 → intr_on t = true →
  ∃ t', timer_calibrate passes t = Ret (tt, t') ∧ ticks t <= ticks t' ∧
    loops_per_tick t' = 2 ^ Z.log2 speed + ones_from (Z.log2 speed - 9) (Z.log2 (speed - 2 ^ Z.log2 speed)).
Proof using passes_speed.
  intros Hs Hon. unfold timer_calibrate. rewrite gets_bind, Hon, ASSERT_bind by done. unfold set_loops. rewrite modify_bind.
  change (Z.shiftl 1 10) with (2 ^ 10).
  destruct (double_run 23 10 (mk_timer (ticks t) (2 ^ 10) (intr_on t) (yields t))) as (t1 & E1 & L1 & T1); [lia..|done|].
  rewrite (bind_Ret _ _ _ _ _ E1), gets_bind, L1. set (k := Z.log2 speed) in *.
  assert (Hk : 10 <= k) by (apply Z.log2_le_pow2; lia). destruct (Z.log2_spec speed ltac:(lia)) as [Hlo Hhi]. fold k in Hlo, Hhi.
  assert (S1 : Z.shiftr (2 ^ k) 1 = 2 ^ (k - 1)) by (rewrite Z.shiftr_div_pow2, <- Z.pow_sub_r by lia; done). rewrite S1.
  destruct (refine_run 10 k (k - 1) t1) as (t2 & E2 & L2 & T2); try lia.
  { rewrite L1. unfold ones_from. destruct (Z.leb_spec (k - 1 + 1) (Z.log2 (speed - 2 ^ k))) as [C|C]; [|lia].
    exfalso. assert (0 < speed - 2 ^ k).
    { destruct (Z.eq_dec (speed - 2 ^ k) 0) as [Ez|]; [|lia]. rewrite Ez in C. cbn in C. lia. }
    apply Z.log2_le_pow2 in C; [|done]. replace (k - 1 + 1) with k in C by lia. rewrite Z.pow_succ_r in Hhi by lia. lia. }
  exists t2. split; [done|]. split; [|done]. cbn in T1. lia.
Qed.
End calibration.


(** ** Sleeping *)
Section sleep.
Context (yield_ticks : nat → Z).
(** Ticks that occur during [m] yields after [y] earlier ones. *)
Fixpoint passed (y m : nat) : Z := match m with O => 0 | S m => yield_ticks y + passed (S y) m end.
Definition after (m : nat) (t : timer) : timer := mk_timer (ticks t + passed (yields t) m) (loops_per_tick t) (intr_on t) (yields t + m).

Lemma sleep_loop_S fuel start n t : sleep_loop yield_ticks (S fuel) start n t =
  if ticks t - start <? n then (thread_yield yield_ticks;; sleep_loop yield_ticks fuel start n) t else Ret (tt, t).
Proof using. cbn [sleep_loop]. unfold timer_elapsed, timer_ticks. rewrite bind_assoc, gets_bind, ret_bind. by destruct (_ <? _). Qed.
Lemma sleep_run fuel start n t : n <= ticks t - start + passed (yields t) fuel →
  ∃ m, (m <= fuel)%nat ∧ sleep_loop yield_ticks (S fuel) start n t = Ret (tt, after m t) ∧
    n <= ticks t - start + passed (yields t) m ∧ ∀ m', (m' < m)%nat → ticks t - start + passed (yields t) m' < n.
Proof using.
  revert t. induction fuel as [|fuel IH]; intros t H; rewrite sleep_loop_S;
    destruct (Z.ltb_spec (ticks t - start) n) as [C|C].
  - cbn in H. lia.
  - exists 0%nat. split; [lia|]. split; [unfold after; cbn; rewrite Z.add_0_r, Nat.add_0_r; by destruct t|]. cbn. split; lia.
  - set (t1 := mk_timer (ticks t + yield_ticks (yields t)) (loops_per_tick t) (intr_on t) (S (yields t))).
    destruct (IH t1) as (m & Hm & E & L & F); [subst t1; cbn [ticks yields passed] in *; lia|]. exists (S m). split; [lia|].
    split. { rewrite (bind_Ret (thread_yield yield_ticks) _ t tt t1 eq_refl), E. unfold after, t1. cbn [ticks loops_per_tick intr_on yields passed].
      rewrite Z.add_assoc. by rewrite Nat.add_succ_r. }
    split; [subst t1; cbn [ticks yields passed] in *; lia|]. intros [|m'] Hm'; [cbn; lia|]. specialize (F m' ltac:(lia)). subst t1. cbn [ticks yields passed] in *. lia.
  - exists 0%nat. split; [lia|]. split; [unfold after; cbn; rewrite Z.add_0_r, Nat.add_0_r; by destruct t|]. cbn. split; lia.
Qed.

(** [timer_sleep (n)] terminates on every machine whose clock goes on while
    the thread has yielded, after the first yield at whose end at least [n] ticks
    have passed, and changes nothing else. *)
Theorem timer_sleep_waits n k t : n <= passed (yields t) k → intr_on t = true →
  ∃ m, (m <= k)%nat ∧ timer_sleep yield_ticks (S k) n t = Ret (tt, after m t) ∧
    n <= ticks (after m t) - ticks t ∧ ∀ m', (m' < m)%nat → ticks (after m' t) - ticks t < n.
Proof using.
  intros H Hon. unfold timer_sleep, timer_ticks. rewrite gets_bind, gets_bind, Hon, ASSERT_bind by done.
  destruct (sleep_run k (ticks t) n t) as (m & Hm & E & L & F); [lia|]. exists m. split; [done|]. split; [done|].
  cbn [after ticks]. split; [lia|]. intros m' Hm'. specialize (F m' Hm'). lia.
Qed.
End sleep.
Lemma timer_sleep_waits_witness :
  ∃ m, (m <= 5)%nat ∧ timer_sleep (λ _, 2) 6 9 (mk_timer 100 1024 true 3) = Ret (tt, after (λ _, 2) m (mk_timer 100 1024 true 3)).
Proof.
  destruct (timer_sleep_waits (λ _, 2) 9 5 (mk_timer 100 1024 true 3)) as (m & Hm & E & _); [cbn; lia|done|]. by exists m.
Defined.

(** ** The chip's divisor *)
Definition divisor (bytes : list (Z * Z)) : Z :=
  match bytes with [_; (_, lo); (_, hi)] => lo + 256 * hi | _ => 0 end.

(** The two bytes written after the control byte are the divisor nearest to
    the clock rate over the frequency, between 2 and 65535, for frequencies from
    19 Hz up to two thirds of the clock rate; lower frequencies get 65536
    (written as 0) and those above the clock rate get 2; in between the divisor
    is 1, which the chip does not allow in mode 2. *)
Theorem pit_divisor channel mode frequency :
  channel = 0 ∨ channel = 2 → mode = 2 ∨ mode = 3 →
  ∃ l, pit_configure_channel channel mode frequency = Ret l ∧ l.*1 = [PIT_PORT_CONTROL; PIT_PORT_COUNTER channel; PIT_PORT_COUNTER channel] ∧
    (frequency < 19 → divisor l = 0) ∧ (PIT_HZ < frequency → divisor l = 2) ∧
    (19 <= frequency <= 795453 → 2 <= divisor l < 2 ^ 16 ∧ 2 * Z.abs (divisor l * frequency - PIT_HZ) <= frequency) ∧
    (795453 < frequency <= PIT_HZ → divisor l = 1).
Proof.
  intros Hc Hm. eexists. split.
  { unfold pit_configure_channel, RASSERT. replace ((channel =? 0) || (channel =? 2)) with true by (destruct Hc as [-> | ->]; done).
    replace ((mode =? 2) || (mode =? 3)) with true by (destruct Hm as [-> | ->]; done). reflexivity. }
  split; [done|].
  assert (D : ∀ x, 0 <= x < 2 ^ 16 → u8 x + 256 * u8 (Z.shiftr x 8) = x).
  { intros x Hx. rewrite Z.shiftr_div_pow2 by lia. unfold u8. Z.div_mod_to_equations. lia. }
  unfold divisor, pit_count, u16, PIT_HZ. change (2 ^ 16) with 65536 in *.
  destruct (Z.ltb_spec frequency 19) as [H1|H1]; [rewrite D by lia; lia|].
  destruct (Z.ltb_spec 1193180 frequency) as [H2|H2]; [rewrite D by lia; lia|].
  assert (Hq : 1 <= Z.quot (1193180 + Z.quot frequency 2) frequency < 65536 ∧
    2 * Z.abs (Z.quot (1193180 + Z.quot frequency 2) frequency * frequency - 1193180) <= frequency).
  { rewrite (Z.quot_div_nonneg frequency) by lia. rewrite Z.quot_div_nonneg by (try apply Z.add_nonneg_nonneg; try apply Z.div_pos; lia).
    pose proof (Z.div_mod frequency 2). pose proof (Z.mod_pos_bound frequency 2). set (h := frequency / 2) in *.
    pose proof (Z.div_mod (1193180 + h) frequency). pose proof (Z.mod_pos_bound (1193180 + h) frequency). set (q := (1193180 + h) / frequency) in *.
    assert (1 <= q) by (apply Z.div_le_lower_bound; lia).
    assert ((2 * q - 1) * 19 <= (2 * q - 1) * frequency) by (apply Z.mul_le_mono_nonneg_l; lia). lia. }
  destruct Hq as [Hq1 Hq2]. rewrite Z.mod_small by lia. rewrite D by lia.
  set (q := Z.quot _ _) in *. clearbody q. split; [lia|]. split; [lia|].
  destruct (Z.eq_dec q 1) as [->|Hne]; [split; lia|].
  assert (0 <= (q - 2) * frequency) by (apply Z.mul_nonneg_nonneg; lia). split; [lia|]. intros Hf. exfalso. lia.
Qed.
Lemma pit_divisor_witness : ∃ l, timer_init = Ret l ∧ 2 <= divisor l < 2 ^ 16.
Proof.
  destruct (pit_divisor 0 2 TIMER_FREQ) as (l & E & _ & _ & _ & D & _); [by left|by left|].
  exists l. split; [exact E|]. apply D. unfold TIMER_FREQ. lia.
Defined.
