(* ===== verification/Rtc.v ===== *)
(** * The real-time clock (devices/rtc.c)

    [cmos k r] is what the [k]-th read gives when it selects register [r]; the
    state is the number of reads made.  [int] is kept at 32 bits, [time_t] is an
    unsigned 32-bit number. *)
From S2P Require Import Prelude.
Open Scope Z_scope.

Definition RTC_REG_SEC : Z := 0.
Definition RTC_REG_MIN : Z := 2.
Definition RTC_REG_HOUR : Z := 4.
Definition RTC_REG_MDAY : Z := 7.
Definition RTC_REG_MON : Z := 8.
Definition RTC_REG_YEAR : Z := 9.
Definition bcd_to_bin (x : Z) : Z := Z.land x 0x0f + Z.shiftr x 4 * 10.
Definition days_per_month : list Z := [31; 28; 31; 30; 31; 30; 31; 31; 30; 31; 30; 31].

(** The sum over the months [i] to [mon], outside the table when [mon > 12]. *)
Fixpoint month_loop (n : nat) (i mon time : Z) : res Z :=
  match n with
  | O => Err NoFuel
  | S n =>
    if i <=? mon then
      match days_per_month !! Z.to_nat (i - 1) with
      | Some d => month_loop n (i + 1) mon (u32 (time + d * 24 * 60 * 60))
      | None => Err OutOfBounds
      end
    else Ret time
  end.
Definition seconds (sec min hour mday mon year : Z) : res Z :=
  let year := if year <? 70 then year + 100 else year in
  let year := year - 70 in
  let time := u32 (s32 (s32 (s32 (s32 (year * 365 + Z.quot (year - 1) 4) * 24) * 60) * 60)) in
  time ← month_loop 14 1 mon time;
  let time := if (2 <? mon) && (Z.rem year 4 =? 0) then u32 (time + 24 * 60 * 60) else time in
  let time := u32 (time + (mday - 1) * 24 * 60 * 60) in
  let time := u32 (time + hour * 60 * 60) in
  let time := u32 (time + min * 60) in
  Ret (u32 (time + sec)).

Section clock.
Context (cmos : nat → Z → Z).
Definition cmos_read (index : Z) : cmd nat Z := λ k, Ret (u8 (cmos k index), S k).
Definition read_bin (index : Z) : cmd nat Z := x ← cmos_read index; mret (bcd_to_bin x).
Fixpoint read_loop (fuel : nat) : cmd nat (Z * Z * Z * Z * Z * Z) :=
  match fuel with
  | O => throw NoFuel
  | S fuel =>
    sec ← read_bin RTC_REG_SEC; min ← read_bin RTC_REG_MIN; hour ← read_bin RTC_REG_HOUR;
    mday ← read_bin RTC_REG_MDAY; mon ← read_bin RTC_REG_MON; year ← read_bin RTC_REG_YEAR;
    again ← read_bin RTC_REG_SEC;
    if sec =? again then mret (sec, min, hour, mday, mon, year) else read_loop fuel
  end.
Definition rtc_get_time (fuel : nat) : cmd nat Z :=
  '(sec, min, hour, mday, mon, year) ← read_loop fuel;
  lift_res (seconds sec min hour mday mon year).
End clock.

(** ** The calendar *)
Definition leap (y : Z) : bool := (y mod 4 =? 0) && (negb (y mod 100 =? 0) || (y mod 400 =? 0)).
Definition leaps_before (y : Z) : Z := Z.of_nat (length (filter (λ x, leap x = true) (seqZ 1970 (y - 1970)))).
Definition days_before_month (y m : Z) : Z := foldr Z.add 0 (take (Z.to_nat (m - 1)) days_per_month) + if (2 <? m) && leap y then 1 else 0.
(** Days from 1 January 1970 to the given date. *)
Definition true_days (y m d : Z) : Z := 365 * (y - 1970) + leaps_before y + days_before_month y m + (d - 1).
Definition true_time (y m d h min s : Z) : Z := ((true_days y m d * 24 + h) * 60 + min) * 60 + s.
Definition bcd (x : Z) : Z := 16 * (x / 10) + x mod 10.
(** The registers at a moment of a year 1970 to 2037. *)
Definition registers (y m d h min s : Z) (r : Z) : Z :=
  if r =? RTC_REG_SEC then bcd s else if r =? RTC_REG_MIN then bcd min else if r =? RTC_REG_HOUR then bcd h
  else if r =? RTC_REG_MDAY then bcd d else if r =? RTC_REG_MON then bcd m else bcd (y mod 100).

Lemma bcd_round x : 0 <= x < 100 → bcd_to_bin (u8 (bcd x)) = x.
Proof.
  intros H. unfold bcd_to_bin, bcd, u8. change 0x0f with (Z.ones 4). rewrite Z.land_ones, Z.shiftr_div_pow2 by lia. Z.div_mod_to_equations. lia.
Qed.

(** The days the code counts up to the start of a month, when nothing wraps. *)
Definition code_days (y m : Z) : Z :=
  y * 365 + Z.quot (y - 1) 4 + foldr Z.add 0 (take (Z.to_nat m) days_per_month) + if (2 <? m) && (Z.rem y 4 =? 0) then 1 else 0.
Definition fast_by (y m : Z) : Z := code_days (y - 1970) m - true_days y m 1.

Lemma fast_by_table : Forall (λ y, Forall (λ m, 27 <= fast_by y m <= 32) (seqZ 1 12)) (seqZ 1970 68).
Proof. by_decision. Qed.
Lemma fast_by_bounds y m : 1970 <= y < 2038 → 1 <= m <= 12 → 27 <= fast_by y m <= 32.
Proof.
  intros Hy Hm. pose proof fast_by_table as H. rewrite Forall_forall in H. specialize (H y ltac:(apply elem_of_seqZ; lia)).
  rewrite Forall_forall in H. apply H. apply elem_of_seqZ. lia.
Qed.

Lemma u32_add a b : u32 (u32 a + b) = u32 (a + b).
Proof. unfold u32. by rewrite Zplus_mod_idemp_l. Qed.
Lemma month_loop_from n i m t : (0 < n)%nat → 1 <= i → m <= 12 → m - i + 1 < Z.of_nat n → 0 <= t < 2 ^ 32 →
  month_loop n i m t = Ret (u32 (t + 86400 * foldr Z.add 0 (take (Z.to_nat (m - i + 1)) (drop (Z.to_nat (i - 1)) days_per_month)))).
Proof.
  revert i t. induction n as [|n IH]; intros i t H0 Hi Hm Hn Ht; [lia|].
  cbn [month_loop]. destruct (Z.leb_spec i m) as [C|C].
  - destruct (lookup_lt_is_Some_2 days_per_month (Z.to_nat (i - 1))) as [d E]; [change (length days_per_month) with 12%nat; lia|].
    rewrite E, IH by (try apply u32_range; lia). rewrite u32_add, (drop_S _ _ _ E).
    replace (Z.to_nat (m - i + 1)) with (S (Z.to_nat (m - (i + 1) + 1))) by lia. cbn [take foldr].
    replace (S (Z.to_nat (i - 1))) with (Z.to_nat (i + 1 - 1)) by lia. f_equal. f_equal. lia.
  - replace (Z.to_nat (m - i + 1)) with 0%nat by lia. cbn [take foldr]. rewrite Z.mul_0_r, Z.add_0_r, u32_small by done. done.
Qed.
Lemma month_loop_sum m t : 1 <= m <= 12 → 0 <= t < 2 ^ 32 →
  month_loop 14 1 m t = Ret (u32 (t + 86400 * foldr Z.add 0 (take (Z.to_nat m) days_per_month))).
Proof.
  intros Hm Ht. rewrite month_loop_from by lia. replace (m - 1 + 1) with m by lia. reflexivity.
Qed.

Lemma true_days_table : Forall (λ y, Forall (λ m, 0 <= true_days y m 1 < 24838) (seqZ 1 12)) (seqZ 1970 68).
Proof. by_decision. Qed.
Lemma true_days_bounds y m : 1970 <= y < 2038 → 1 <= m <= 12 → 0 <= true_days y m 1 < 24838.
Proof.
  intros Hy Hm. pose proof true_days_table as H. rewrite Forall_forall in H. specialize (H y ltac:(apply elem_of_seqZ; lia)).
  rewrite Forall_forall in H. apply H. apply elem_of_seqZ. lia.
Qed.

Lemma seconds_run y m d h min s : 1970 <= y < 2038 → 1 <= m <= 12 → 1 <= d <= 31 → 0 <= h < 24 → 0 <= min < 60 → 0 <= s < 60 →
  seconds s min h d m (y mod 100) = Ret (true_time y m d h min s + 86400 * fast_by y m).
Proof.
  intros Hy Hm Hd Hh Hmin Hs. unfold seconds. cbv zeta.
  assert (Ey : (if y mod 100 <? 70 then y mod 100 + 100 else y mod 100) - 70 = y - 1970).
  { destruct (Z.ltb_spec (y mod 100) 70); Z.div_mod_to_equations; lia. }
  rewrite Ey. pose proof (fast_by_bounds y m Hy Hm) as Hf. pose proof (true_days_bounds y m Hy Hm) as Ht.
  assert (Ec : code_days (y - 1970) m = true_days y m 1 + fast_by y m) by (unfold fast_by; lia).
  assert (Eq : true_days y m d = true_days y m 1 + (d - 1)) by (unfold true_days; lia).
  assert (E24 : 0 <= (y - 1970) * 365 + Z.quot (y - 1970 - 1) 4 < 24840) by (Z.quot_rem_to_equations; lia).
  assert (B : ∀ a, 0 <= a < 24840 → s32 (s32 (s32 (s32 a * 24) * 60) * 60) = 86400 * a).
  { intros a Ha. rewrite (s32_small a), (s32_small (a * 24)), (s32_small (a * 24 * 60)), s32_small by lia. lia. }
  rewrite B, u32_small by (done || lia). rewrite month_loop_sum by lia. cbn [mbind res_bind].
  unfold code_days in Ec. unfold true_time. rewrite Eq.
  set (a := (y - 1970) * 365 + Z.quot (y - 1970 - 1) 4) in *. set (b := foldr Z.add 0 (take (Z.to_nat m) days_per_month)) in *.
  clearbody a b. revert Ec. destruct ((2 <? m) && (Z.rem (y - 1970) 4 =? 0)); intros Ec; repeat (rewrite u32_add || rewrite <- Z.add_assoc); f_equal; rewrite u32_small by lia; lia.
Qed.

(** With the registers of a moment in the years 1970 to 2037, standing
    still during the reads, [rtc_get_time] returns after seven reads a time that
    is ahead of the true one by 27 to 32 whole days: the days of the current
    month are added, and the leap days are those of years counted from 1970. *)
Theorem rtc_runs_ahead cmos y m d h min s fuel k :
  (∀ i r, cmos i r = registers y m d h min s r) →
  1970 <= y < 2038 → 1 <= m <= 12 → 1 <= d <= 31 → 0 <= h < 24 → 0 <= min < 60 → 0 <= s < 60 →
  ∃ days, 27 <= days <= 32 ∧
    rtc_get_time cmos (S fuel) k = Ret (true_time y m d h min s + 24 * 60 * 60 * days, (k + 7)%nat).
Proof.
  intros Hc Hy Hm Hd Hh Hmin Hs. exists (fast_by y m). split; [by apply fast_by_bounds|].
  assert (R : ∀ r i, read_bin cmos r i = Ret (bcd_to_bin (u8 (registers y m d h min s r)), S i)) by (intros r i; unfold read_bin, cmos_read, mbind, cmd_bind, mret, cmd_ret; by rewrite Hc).
  assert (L : read_loop cmos (S fuel) k = Ret ((s, min, h, d, m, y mod 100), S (S (S (S (S (S (S k)))))))).
  { cbn [read_loop]. rewrite !(bind_Ret _ _ _ _ _ (R _ _)).
    change (registers y m d h min s RTC_REG_SEC) with (bcd s). change (registers y m d h min s RTC_REG_MIN) with (bcd min).
    change (registers y m d h min s RTC_REG_HOUR) with (bcd h). change (registers y m d h min s RTC_REG_MDAY) with (bcd d).
    change (registers y m d h min s RTC_REG_MON) with (bcd m). change (registers y m d h min s RTC_REG_YEAR) with (bcd (y mod 100)).
    rewrite Z.eqb_refl, ret_run. rewrite !bcd_round by (lia || (Z.div_mod_to_equations; lia)). done. }
  unfold rtc_get_time. rewrite (bind_Ret _ _ _ _ _ L). unfold lift_res.
  rewrite (seconds_run y m d h min s) by done. f_equal. f_equal; lia.
Qed.
Lemma rtc_runs_ahead_witness : ∃ days, 27 <= days <= 32 ∧
  rtc_get_time (λ _, registers 2017 3 20 12 30 5) 1%nat 0%nat = Ret (true_time 2017 3 20 12 30 5 + 24 * 60 * 60 * days, 7%nat).
Proof. apply (rtc_runs_ahead (λ _, registers 2017 3 20 12 30 5) 2017 3 20 12 30 5 0%nat 0%nat); (done || lia). Defined.
