(* ===== verification/FixedPoint.v ===== *)
(** * Fixed-point arithmetic (threads/fixed-point.h)

    A [fixed_point_t] is its 32-bit integer [f], worth [f / FIX_F].  Results
    are brought back to 32 bits; products and quotients are computed in 64 bits,
    which the operands cannot exceed ([products_fit]).  Division truncates
    toward zero. *)
From S2P Require Import Prelude.
Open Scope Z_scope.

Definition FIX_P : Z := 16.
Definition FIX_Q : Z := 16.
Definition FIX_F : Z := Z.shiftl 1 FIX_Q.
Definition FIX_MAX_INT : Z := Z.shiftl 1 FIX_P - 1.
Definition FIX_MIN_INT : Z := - FIX_MAX_INT.

Definition __mk_fix (f : Z) : Z := s32 f.
Definition fix_int (n : Z) : res Z :=
  RASSERT ((FIX_MIN_INT <=? n) && (n <=? FIX_MAX_INT));; Ret (__mk_fix (n * FIX_F)).
Definition fix_frac (n d : Z) : res Z :=
  RASSERT (negb (d =? 0));;
  RASSERT ((FIX_MIN_INT <=? Z.quot n d) && (Z.quot n d <=? FIX_MAX_INT));;
  Ret (__mk_fix (Z.quot (n * FIX_F) d)).
Definition fix_round (x : Z) : Z := Z.quot (s32 (x + FIX_F / 2)) FIX_F.
Definition fix_trunc (x : Z) : Z := Z.quot x FIX_F.
Definition fix_add (x y : Z) : Z := __mk_fix (x + y).
Definition fix_sub (x y : Z) : Z := __mk_fix (x - y).
Definition fix_mul (x y : Z) : Z := __mk_fix (Z.quot (x * y) FIX_F).
Definition fix_scale (x n : Z) : res Z := RASSERT (0 <=? n);; Ret (__mk_fix (x * n)).
(** Division by zero is a divide error of the processor. *)
Definition fix_div (x y : Z) : res Z :=
  if y =? 0 then Err DivideError else Ret (__mk_fix (Z.quot (x * FIX_F) y)).
Definition fix_unscale (x n : Z) : res Z := RASSERT (0 <? n);; Ret (__mk_fix (Z.quot x n)).
Definition fix_inv (x : Z) : res Z := one ← fix_int 1; fix_div one x.
Definition fix_compare (x y : Z) : Z := if x <? y then -1 else if y <? x then 1 else 0.

Definition int32 (x : Z) : Prop := - 2 ^ 31 <= x < 2 ^ 31.

Lemma FIX_F_value : FIX_F = 65536.
Proof. reflexivity. Qed.
Lemma products_fit x y : int32 x → int32 y → - 2 ^ 63 <= x * y < 2 ^ 63 ∧ - 2 ^ 63 <= x * FIX_F < 2 ^ 63.
Proof. unfold int32. rewrite FIX_F_value. nia. Qed.
Lemma quot_error a b : b ≠ 0 → Z.abs (b * Z.quot a b - a) < Z.abs b.
Proof. intros Hb. pose proof (Z.quot_rem a b Hb) as E. pose proof (Z.rem_bound_abs a b Hb). lia. Qed.
Lemma mk_fix_small f : int32 f → __mk_fix f = f.
Proof. apply s32_small. Qed.

(** Conversion of an integer is exact, and converts back, for integers of
    the 16-bit range; the other integers the assertion lets through (up to
    65535) are not represented.  Products and quotients are within one unit of
    the last place whenever they fit; an arithmetic error is reported for a zero
    divisor.  [fix_round] is within a half for numbers above -1/2, but below it
    rounds up by a half to one and a half. *)
Theorem fixed_point_errors x y n :
  int32 x → int32 y →
  (FIX_MIN_INT <= n <= FIX_MAX_INT →
     ∃ f, fix_int n = Ret f ∧ (f = n * FIX_F ↔ - 2 ^ 15 <= n < 2 ^ 15) ∧ (fix_trunc f = n ↔ - 2 ^ 15 <= n < 2 ^ 15)) ∧
  (int32 (Z.quot (x * y) FIX_F) → Z.abs (FIX_F * fix_mul x y - x * y) < FIX_F) ∧
  (y ≠ 0 → int32 (Z.quot (x * FIX_F) y) → ∃ q, fix_div x y = Ret q ∧ Z.abs (y * q - x * FIX_F) < Z.abs y) ∧
  (fix_div x 0 = Err DivideError) ∧
  (- (FIX_F / 2) <= x → x + FIX_F / 2 < 2 ^ 31 → Z.abs (2 * (FIX_F * fix_round x - x)) <= FIX_F) ∧
  (x < - (FIX_F / 2) → FIX_F <= 2 * (FIX_F * fix_round x - x) < 3 * FIX_F).
Proof.
  intros Hx Hy. unfold int32 in *. pose proof FIX_F_value as F. split; [|split; [|split; [|split; [|split]]]].
  - intros Hn. unfold fix_int, RASSERT. rewrite (proj2 (Z.leb_le _ _) (proj1 Hn)), (proj2 (Z.leb_le _ _) (proj2 Hn)). cbn [andb mbind res_bind].
    eexists. split; [reflexivity|]. unfold fix_trunc, __mk_fix. rewrite F. change FIX_MIN_INT with (-65535) in Hn. change FIX_MAX_INT with 65535 in Hn.
    pose proof (s32_range (n * 65536)) as R. split.
    + split; [lia|]. intros. apply s32_small. lia.
    + split; [|intros; rewrite s32_small by lia; by apply Z.quot_mul].
      intros E. assert (B : - 2 ^ 15 <= Z.quot (s32 (n * 65536)) 65536 < 2 ^ 15); [|lia].
      pose proof (quot_error (s32 (n * 65536)) 65536). split; [apply Z.quot_le_lower_bound|]; Z.quot_rem_to_equations; lia.
  - intros Hq. unfold fix_mul, __mk_fix. rewrite s32_small by done. pose proof (quot_error (x * y) FIX_F). rewrite F in *. lia.
  - intros Hy0 Hq. unfold fix_div. rewrite (proj2 (Z.eqb_neq y 0)) by done. eexists. split; [reflexivity|].
    unfold __mk_fix. rewrite s32_small by done. by apply quot_error.
  - done.
  - intros H1 H2. unfold fix_round. rewrite F in *. change (65536 / 2) with 32768 in *. rewrite s32_small by lia. Z.quot_rem_to_equations. lia.
  - intros H1. unfold fix_round. rewrite F in *. change (65536 / 2) with 32768 in *. rewrite s32_small by lia. Z.quot_rem_to_equations. lia.
Qed.
Lemma fixed_point_errors_witness :
  (∃ q, fix_div FIX_F (3 * FIX_F) = Ret q ∧ Z.abs (3 * FIX_F * q - FIX_F * FIX_F) < Z.abs (3 * FIX_F)) ∧
  FIX_F <= 2 * (FIX_F * fix_round (- FIX_F) - (- FIX_F)) < 3 * FIX_F.
Proof.
  split.
  - apply (fixed_point_errors FIX_F (3 * FIX_F) 0); vm_compute; intuition congruence.
  - apply (fixed_point_errors (- FIX_F) 0 0); vm_compute; intuition congruence.
Defined.
