(* ===== verification/Process.v ===== *)
(** * Creating, waiting for and ending processes (userprog/process.c:
      [process_execute], [start_process], [process_wait], [process_exit];
      userprog/syscall.c: [k_exec], [k_wait], [k_exit])

    Every process runs these routines with interrupts on, so they interleave.
    A process is at a [point] of a routine; a step runs it from there to the
    next point at which another process can do something that matters: a step
    contains at most one operation that can block ([lock_acquire] or
    [sema_down]), and it does that operation first.  The semaphores and locks
    are those of Synch.v, at the level of their contract: a blocked operation
    is a step that does not happen yet.

    Processes are named by their tid.  [children] keeps the list of a process
    after its page was freed, because the wait statuses in it still have links
    into that page.  [w_parent] of a wait status stands for its list pointers:
    it says whose list it is made for.  The [log] is a history variable that no
    routine reads. *)
From S2P Require Import Prelude KStringSpec ArgStack.
Open Scope Z_scope.

Record wait_status : Set := mk_ws {
  exit_code : Z; w_tid : Z; sema : Z; ref_count : Z; ref_count_lock : option Z; w_parent : Z }.
(** [load_success] is [None] until it is written. *)
Record exec_stuff : Set := mk_exec { load_success : option bool; load_sema : Z }.

(** Where a process is.  [e] is the [exec_stuff] of [k_exec], or [None] when
    [process_execute] is called by the kernel's [run_task]. *)
Inductive point : Set :=
  | User                                             (* no routine is running *)
  | K_exec (fn : list Z)                             (* k_exec: allocations *)
  | PE_tokenize (e : option positive) (fn : list Z)
  | PE_lock_init (e : option positive)               (* and malloc of the wait status *)
  | PE_acquire (e : option positive) (w : positive)
  | PE_push (e : option positive) (w : positive)     (* list_push_front, lock_release *)
  | PE_create (e : option positive)                  (* thread_create *)
  | K_loaded (e : positive) (pid : Z)                (* sema_down, then the result *)
  | PW_acquire (c : Z)
  | PW_find (c : Z)                                  (* the search, lock_release *)
  | PW_down (c : Z) (w : positive)                   (* sema_down, exit_code is read *)
  | PW_ref (c : Z) (w : positive) (v : Z)            (* acquire ref_count_lock *)
  | PW_dec (c : Z) (w : positive) (v : Z)
  | PW_list (c : Z) (w : positive) (v : Z)           (* acquire child_list_lock *)
  | PW_unlink (c : Z) (w : positive) (v : Z)         (* list_remove, release, free *)
  | SP_load
  | SP_up (success : bool)
  | TE_mine                                          (* acquire my ref_count_lock *)
  | TE_dec (w : positive)
  | TE_list (w : positive)
  | TE_unlink (w : positive)
  | TE_up (w : positive)
  | TE_acquire
  | TE_loop (l : list positive)                      (* acquire the next ref_count_lock *)
  | TE_child (w : positive) (l : list positive)
  | TE_die.

Record process : Set := mk_process {
  pc : point; my_wait_status : option positive; child_loaded : option positive;
  parent_load : option positive; eax : Z; image : option (list (list Z)); in_kernel : bool }.

(** [child_list_lock] is not initialised until the first [process_execute]. *)
Inductive list_lock : Set := Uninit | Free | Held (t : Z).
Inductive event : Set :=
  | Created (parent child : Z)
  | Exited (child status : Z)
  | Reaped (parent child status : Z)                 (* process_wait returned it *)
  | Refused (parent child : Z).                      (* process_wait found no child *)

Record pstate : Set := mk_pstate {
  procs : gmap Z process; children : gmap Z (list positive);
  waits : gmap positive wait_status; execs : gmap positive exec_stuff;
  child_list_lock : list_lock; argv : list (list Z); next_tid : Z; log : list event }.

(** ** Updates *)
Definition set_procs f (s : pstate) := mk_pstate (f (procs s)) (children s) (waits s) (execs s) (child_list_lock s) (argv s) (next_tid s) (log s).
Definition set_children f (s : pstate) := mk_pstate (procs s) (f (children s)) (waits s) (execs s) (child_list_lock s) (argv s) (next_tid s) (log s).
Definition set_waits f (s : pstate) := mk_pstate (procs s) (children s) (f (waits s)) (execs s) (child_list_lock s) (argv s) (next_tid s) (log s).
Definition set_execs f (s : pstate) := mk_pstate (procs s) (children s) (waits s) (f (execs s)) (child_list_lock s) (argv s) (next_tid s) (log s).
Definition set_list_lock v (s : pstate) := mk_pstate (procs s) (children s) (waits s) (execs s) v (argv s) (next_tid s) (log s).
Definition set_argv v (s : pstate) := mk_pstate (procs s) (children s) (waits s) (execs s) (child_list_lock s) v (next_tid s) (log s).
Definition set_next_tid v (s : pstate) := mk_pstate (procs s) (children s) (waits s) (execs s) (child_list_lock s) (argv s) v (log s).
Definition add_log v (s : pstate) := mk_pstate (procs s) (children s) (waits s) (execs s) (child_list_lock s) (argv s) (next_tid s) (log s ++ [v]).

Definition with_pc (x : point) (p : process) : process :=
  mk_process x (my_wait_status p) (child_loaded p) (parent_load p) (eax p) (image p) (in_kernel p).
Definition with_eax (v : Z) (p : process) : process :=
  mk_process (pc p) (my_wait_status p) (child_loaded p) (parent_load p) v (image p) (in_kernel p).
Definition with_child_loaded (e : option positive) (p : process) : process :=
  mk_process (pc p) (my_wait_status p) e (parent_load p) (eax p) (image p) (in_kernel p).
Definition with_image (i : option (list (list Z))) (p : process) : process :=
  mk_process (pc p) (my_wait_status p) (child_loaded p) (parent_load p) (eax p) i (in_kernel p).

Definition with_sema (v : Z) (w : wait_status) := mk_ws (exit_code w) (w_tid w) v (ref_count w) (ref_count_lock w) (w_parent w).
Definition with_ref (v : Z) (w : wait_status) := mk_ws (exit_code w) (w_tid w) (sema w) v (ref_count_lock w) (w_parent w).
Definition with_ref_lock (v : option Z) (w : wait_status) := mk_ws (exit_code w) (w_tid w) (sema w) (ref_count w) v (w_parent w).
Definition with_exit_code (v : Z) (w : wait_status) := mk_ws v (w_tid w) (sema w) (ref_count w) (ref_count_lock w) (w_parent w).

(** ** Operations
    Freed memory is no longer in [waits] or [execs], so an access to it is a
    fault.  A [bool] result says whether the operation went through; [false]
    is a process that has to wait. *)
Definition upd_proc (t : Z) (f : process → process) : cmd pstate unit := modify (set_procs (alter f t)).
Definition goto (t : Z) (x : point) : cmd pstate unit := upd_proc t (with_pc x).
Definition load_wait (w : positive) : cmd pstate wait_status := λ s,
  match waits s !! w with Some x => Ret (x, s) | None => Err BadPtr end.
Definition store_wait (w : positive) (x : wait_status) : cmd pstate unit := modify (set_waits (<[w := x]>)).
Definition free_wait (w : positive) : cmd pstate unit := modify (set_waits (delete w)).
Definition load_exec (e : positive) : cmd pstate exec_stuff := λ s,
  match execs s !! e with Some x => Ret (x, s) | None => Err BadPtr end.
Definition store_exec (e : positive) (x : exec_stuff) : cmd pstate unit := modify (set_execs (<[e := x]>)).
Definition free_exec (e : positive) : cmd pstate unit := modify (set_execs (delete e)).

(** [lock_acquire (&child_list_lock)]; in a lock that was never initialised
    the list of waiters has null links. *)
Definition acquire_list (t : Z) : cmd pstate bool := λ s,
  match child_list_lock s with
  | Uninit => Err BadPtr
  | Free => Ret (true, set_list_lock (Held t) s)
  | Held h => if h =? t then Err AssertFail else Ret (false, s)
  end.
Definition release_list (t : Z) : cmd pstate unit := λ s,
  match child_list_lock s with
  | Held h => if h =? t then Ret (tt, set_list_lock Free s) else Err AssertFail
  | _ => Err AssertFail
  end.
Definition acquire_ref (t : Z) (w : positive) : cmd pstate bool :=
  x ← load_wait w;
  match ref_count_lock x with
  | None => store_wait w (with_ref_lock (Some t) x);; mret true
  | Some h => if h =? t then throw AssertFail else mret false
  end.
Definition release_ref (t : Z) (w : positive) : cmd pstate unit :=
  x ← load_wait w;
  if bool_decide (ref_count_lock x = Some t) then store_wait w (with_ref_lock None x) else throw AssertFail.

(** [list_remove (&w->elem)]: its neighbours are other wait statuses, or the
    ends of the list inside the parent's thread, which may be gone. *)
Definition list_remove (w : positive) : cmd pstate unit := λ s,
  match waits s !! w with
  | None => Err BadPtr
  | Some x =>
      match children s !! w_parent x with
      | None => Err BadPtr
      | Some l =>
          if bool_decide (w ∈ l) &&
             (bool_decide (is_Some (procs s !! w_parent x)) || negb (bool_decide (head l = Some w ∨ last l = Some w)))
          then Ret (tt, set_children (<[w_parent x := filter (λ v, v ≠ w) l]>) s)
          else Err BadPtr
      end
  end.

(** The words [tokenize] finds in the copy of the command line, which
    [strlcpy] cuts to a page. *)
Definition words (fn : list Z) : list (list Z) := fields (λ c, c =? 32) (take 4095 fn).

(** What the environment decides in a step: whether memory is available, where
    it is and what it holds; whether the program can be loaded. *)
Inductive choice : Set := NoMem | Got (a : positive) (junk : Z) | Loaded (b : bool).
Definition available (a : positive) (s : pstate) : bool :=
  bool_decide (waits s !! a = None ∧ execs s !! a = None).

(** [process_execute] returns [pid] to [run_task], or to [k_exec]. *)
Definition executed (t : Z) (e : option positive) (pid : Z) : cmd pstate unit :=
  match e with
  | None => upd_proc t (with_eax pid);; goto t User
  | Some e =>
      if pid =? -1 then upd_proc t (with_eax (-1));; free_exec e;; goto t User
      else goto t (K_loaded e pid)
  end.

(** The part of [thread_create] about processes. *)
Definition create_process (t : Z) (e : option positive) : cmd pstate unit :=
  tid ← gets next_tid;
  modify (set_next_tid (tid + 1));;
  p ← gets (λ s, procs s !! t);
  l ← gets (λ s, children s !! t);
  match p, l with
  | Some p, Some l =>
      my ← match head l with
           | None => mret None
           | Some w =>
               x ← load_wait w;
               if ref_count x =? -1 then
                 store_wait w (mk_ws (-1) tid (sema x) 2 (ref_count_lock x) (w_parent x));; mret (Some w)
               else mret None
           end;
      modify (set_procs (<[tid := mk_process SP_load my None (child_loaded p) 0 None false]>));;
      modify (set_children (<[tid := []]>));;
      modify (add_log (Created t tid));;
      executed t e tid
  | _, _ => throw BadPtr
  end.

Fixpoint find_child (s : pstate) (c : Z) (l : list positive) : res (option positive) :=
  match l with
  | [] => Ret None
  | w :: l =>
      match waits s !! w with
      | None => Err BadPtr
      | Some x => if w_tid x =? c then Ret (Some w) else find_child s c l
      end
  end.

Definition thread_exit (t : Z) : cmd pstate unit := goto t TE_mine.

(** Do [k] if the operation went through. *)
Definition when (c : cmd pstate bool) (k : cmd pstate unit) : cmd pstate bool :=
  b ← c; if (b : bool) then k;; mret true else mret false.
Definition down_wait (w : positive) : cmd pstate bool :=
  x ← load_wait w;
  if sema x =? 0 then mret false else store_wait w (with_sema (sema x - 1) x);; mret true.
Definition down_exec (e : positive) : cmd pstate bool :=
  x ← load_exec e;
  if load_sema x =? 0 then mret false else store_exec e (mk_exec (load_success x) (load_sema x - 1));; mret true.

(** ** The routines, from each of their points *)
Definition k_exec (t : Z) (o : choice) (p : process) : cmd pstate bool :=
  match pc p with
  | K_exec fn =>
      match o with
      | NoMem => upd_proc t (with_eax (-1));; goto t User;; mret true
      | Got a _ =>
          ok ← gets (available a);
          if (ok : bool) then
            store_exec a (mk_exec None 0);; upd_proc t (with_child_loaded (Some a));; goto t (PE_tokenize (Some a) fn);; mret true
          else mret false
      | _ => mret false
      end
  | K_loaded e pid =>
      when (down_exec e)
        (x ← load_exec e;
         match load_success x with
         | None => throw BadPtr
         | Some b => upd_proc t (with_eax (if b : bool then pid else -1));; free_exec e;; goto t User
         end)
  | _ => mret false
  end.

Definition process_execute (t : Z) (o : choice) (p : process) : cmd pstate bool :=
  match pc p with
  | PE_tokenize e fn =>
      match o with
      | NoMem => executed t e (-1);; mret true
      | _ =>
          if Z.of_nat (length (words fn)) <? ARG_LIMIT
          then modify (set_argv (words fn));; goto t (PE_lock_init e);; mret true
          else throw OutOfBounds
      end
  | PE_lock_init e =>
      match o with
      | NoMem => modify (set_list_lock Free);; executed t e (-1);; mret true
      | Got a junk =>
          ok ← gets (available a);
          if (ok : bool) then
            modify (set_list_lock Free);;
            store_wait a (mk_ws junk junk 0 (-1) None t);; goto t (PE_acquire e a);; mret true
          else mret false
      | _ => mret false
      end
  | PE_acquire e w => when (acquire_list t) (goto t (PE_push e w))
  | PE_push e w => modify (set_children (alter (cons w) t));; release_list t;; goto t (PE_create e);; mret true
  | PE_create e =>
      a ← gets argv;
      match o with
      | NoMem => executed t e (-1);; mret true
      | _ => match a with [] => throw AssertFail | _ => create_process t e;; mret true end
      end
  | _ => mret false
  end.

Definition start_process (t : Z) (o : choice) (p : process) : cmd pstate bool :=
  match pc p with
  | SP_load =>
      match o with
      | Loaded b => a ← gets argv; upd_proc t (with_image (if b : bool then Some a else None));; goto t (SP_up b);; mret true
      | _ => mret false
      end
  | SP_up b =>
      (match parent_load p with
       | None => mret tt
       | Some e => x ← load_exec e; store_exec e (mk_exec (Some b) (load_sema x + 1))
       end);;
      (if b : bool then goto t User else modify (add_log (Exited t (-1)));; thread_exit t);;
      mret true
  | _ => mret false
  end.

(** [k_wait] returns what [process_wait] returns. *)
Definition process_wait (t : Z) (p : process) : cmd pstate bool :=
  match pc p with
  | PW_acquire c => when (acquire_list t) (goto t (PW_find c))
  | PW_find c =>
      s ← gets (λ s, s);
      match children s !! t with
      | None => throw BadPtr
      | Some l =>
          r ← lift_res (find_child s c l);
          release_list t;;
          match r with
          | None => modify (add_log (Refused t c));; upd_proc t (with_eax (-1));; goto t User;; mret true
          | Some w => goto t (PW_down c w);; mret true
          end
      end
  | PW_down c w => when (down_wait w) (x ← load_wait w; goto t (PW_ref c w (exit_code x)))
  | PW_ref c w v => when (acquire_ref t w) (goto t (PW_dec c w v))
  | PW_dec c w v =>
      x ← load_wait w;
      store_wait w (with_ref (ref_count x - 1) x);;
      (if ref_count x - 1 =? 0 then goto t (PW_list c w v)
       else release_ref t w;; modify (add_log (Reaped t c v));; upd_proc t (with_eax v);; goto t User);;
      mret true
  | PW_list c w v => when (acquire_list t) (goto t (PW_unlink c w v))
  | PW_unlink c w v =>
      list_remove w;; release_list t;; free_wait w;;
      modify (add_log (Reaped t c v));; upd_proc t (with_eax v);; goto t User;; mret true
  | _ => mret false
  end.

(** From [process_exit] on: before it [thread_exit] only closes files, after it
    the thread goes away. *)
Definition process_exit (t : Z) (p : process) : cmd pstate bool :=
  match pc p with
  | TE_mine =>
      match my_wait_status p with
      | None => goto t TE_acquire;; mret true
      | Some w => when (acquire_ref t w) (goto t (TE_dec w))
      end
  | TE_dec w =>
      x ← load_wait w;
      store_wait w (with_ref (ref_count x - 1) x);;
      (if ref_count x - 1 =? 0 then goto t (TE_list w) else release_ref t w;; goto t (TE_up w));;
      mret true
  | TE_list w => when (acquire_list t) (goto t (TE_unlink w))
  | TE_unlink w => list_remove w;; release_list t;; free_wait w;; goto t (TE_up w);; mret true
  | TE_up w => x ← load_wait w; store_wait w (with_sema (sema x + 1) x);; goto t TE_acquire;; mret true
  | TE_acquire =>
      when (acquire_list t)
        (l ← gets (λ s, children s !! t); match l with None => throw BadPtr | Some l => goto t (TE_loop l) end)
  | TE_loop [] => release_list t;; goto t TE_die;; mret true
  | TE_loop (w :: l) => when (acquire_ref t w) (goto t (TE_child w l))
  | TE_child w l =>
      x ← load_wait w;
      store_wait w (with_ref (ref_count x - 1) x);;
      (if ref_count x - 1 =? 0 then list_remove w;; free_wait w else release_ref t w);;
      goto t (TE_loop l);; mret true
  | TE_die => modify (set_procs (delete t));; mret true
  | _ => mret false
  end.

(** One step of process [t]. *)
Definition step (t : Z) (o : choice) (p : process) : cmd pstate bool :=
  match pc p with
  | User => mret false
  | K_exec _ | K_loaded _ _ => k_exec t o p
  | PE_tokenize _ _ | PE_lock_init _ | PE_acquire _ _ | PE_push _ _ | PE_create _ => process_execute t o p
  | PW_acquire _ | PW_find _ | PW_down _ _ | PW_ref _ _ _ | PW_dec _ _ _ | PW_list _ _ _ | PW_unlink _ _ _ => process_wait t p
  | SP_load | SP_up _ => start_process t o p
  | TE_mine | TE_dec _ | TE_list _ | TE_unlink _ | TE_up _ | TE_acquire | TE_loop _ | TE_child _ _ | TE_die => process_exit t p
  end.

(** ** Calls of a process that is at [User] *)
Inductive call : Set :=
  | C_exec (fn : list Z)        (* system call exec *)
  | C_run (fn : list Z)         (* process_execute in run_task *)
  | C_wait (c : Z)
  | C_exit (v : Z)              (* system call exit *)
  | C_killed.                   (* thread_exit without a status *)

(** [k_exit] writes the status, then ends the thread. *)
Definition k_exit (t : Z) (v : Z) (p : process) : cmd pstate unit :=
  (match my_wait_status p with
   | None => mret tt
   | Some w => x ← load_wait w; store_wait w (with_exit_code v x)
   end);;
  modify (add_log (Exited t v));; thread_exit t.

Definition start (t : Z) (c : call) (p : process) : cmd pstate bool :=
  match pc p, c with
  | User, C_exec fn => if in_kernel p then mret false else goto t (K_exec fn);; mret true
  | User, C_run fn => if in_kernel p then goto t (PE_tokenize None fn);; mret true else mret false
  | User, C_wait c => goto t (PW_acquire c);; mret true
  | User, C_exit v => k_exit t v p;; mret true
  | User, C_killed => modify (add_log (Exited t (-1)));; thread_exit t;; mret true
  | _, _ => mret false
  end.

Inductive label : Set := Call (t : Z) (c : call) | Step (t : Z) (o : choice).
Definition act (l : label) : cmd pstate bool := λ s,
  match l with
  | Call t c => match procs s !! t with Some p => start t c p s | None => Ret (false, s) end
  | Step t o => match procs s !! t with Some p => step t o p s | None => Ret (false, s) end
  end.

(** The main thread of the kernel, before it runs the first program. *)
Definition boot : pstate :=
  mk_pstate {[1 := mk_process User None None None 0 None true]} {[1 := []]} ∅ ∅ Uninit [] 2 [].
