(* ===== verification/ProcessInv.v ===== *)
(** * The protocol of processes in every interleaving: orderly executions and
      the invariant *)
From S2P Require Import Prelude KStringSpec ArgStack Process.
Open Scope Z_scope.

(** ** Orderly executions
    The routines rely on three things that they do not ensure: nobody uses
    [child_list_lock] before the first [process_execute]; nobody holds it when
    [process_execute] initialises it again; and a process does not end before
    its children have raised their semaphores.  A command line must also have
    a word, and fewer than [ARG_LIMIT]. *)
Definition after_up (x : point) : bool :=
  match x with TE_acquire | TE_loop _ | TE_child _ _ | TE_die => true | _ => false end.
Definition attached (s : pstate) (w : positive) : Prop :=
  ∃ c p, procs s !! c = Some p ∧ my_wait_status p = Some w ∧ after_up (pc p) = false.
Definition good_line (fn : list Z) : Prop := words fn ≠ [] ∧ Z.of_nat (length (words fn)) < ARG_LIMIT.
Definition children_done (s : pstate) (t : Z) : Prop :=
  ∀ l w, children s !! t = Some l → w ∈ l → ¬ attached s w.

Definition orderly (s : pstate) (l : label) : Prop :=
  match l with
  | Call t c =>
      match c with
      | C_exec fn | C_run fn => good_line fn
      | C_wait _ => child_list_lock s ≠ Uninit
      | C_exit _ | C_killed => child_list_lock s ≠ Uninit ∧ children_done s t
      end
  | Step t _ =>
      match procs s !! t with
      | Some p => match pc p with PE_lock_init _ => ∀ h, child_list_lock s ≠ Held h | _ => True end
      | None => True
      end
  end.

Inductive runs : pstate → list label → pstate → Prop :=
  | runs_nil s : runs s [] s
  | runs_cons s l s' ls s'' : orderly s l → act l s = Ret (true, s') → runs s' ls s'' → runs s (l :: ls) s''.

(** ** What a point says about locks and wait statuses *)
Definition holds_list (x : point) : bool :=
  match x with PE_push _ _ | PW_find _ | PW_unlink _ _ _ | TE_unlink _ | TE_loop _ | TE_child _ _ => true | _ => false end.
Definition holds_ref (x : point) : option positive :=
  match x with
  | PW_dec _ w _ | PW_list _ w _ | PW_unlink _ w _ | TE_dec w | TE_list w | TE_unlink w | TE_child w _ => Some w
  | _ => None
  end.
(** [child_list_lock] has been initialised by now. *)
Definition needs_lock (x : point) : bool :=
  match x with User | K_exec _ | PE_tokenize _ _ | PE_lock_init _ => false | _ => true end.
Definition has_argv (x : point) : bool :=
  match x with PE_lock_init _ | PE_acquire _ _ | PE_push _ _ | PE_create _ => true | _ => false end.
(** The process is ending. *)
Definition exiting (x : point) : bool :=
  match x with
  | TE_mine | TE_dec _ | TE_list _ | TE_unlink _ | TE_up _ | TE_acquire | TE_loop _ | TE_child _ _ | TE_die => true
  | _ => false
  end.
Definition exec_of (x : point) : option positive :=
  match x with
  | PE_tokenize e _ | PE_lock_init e | PE_acquire e _ | PE_push e _ | PE_create e => e
  | K_loaded e _ => Some e
  | _ => None
  end.
Definition loading (x : point) : bool := match x with SP_load | SP_up _ => true | _ => false end.

(** What holds at each point of process [t]. *)
Section invariant.
Context (s : pstate).

Definition kid (t : Z) (w : positive) (x : wait_status) : Prop :=
  ∃ l, children s !! t = Some l ∧ w ∈ l ∧ waits s !! w = Some x ∧ w_parent x = t.
Definition fresh_exec (p : process) (e : option positive) : Prop :=
  match e with
  | Some a => child_loaded p = Some a ∧ execs s !! a = Some (mk_exec None 0)
  | None => child_loaded p = None
  end.
(** The child of [w] has raised its semaphore and the parent has taken it. *)
Definition claimed (t c : Z) (w : positive) (v n : Z) : Prop :=
  ∃ x, kid t w x ∧ w_tid x = c ∧ sema x = 0 ∧ ref_count x = n ∧ exit_code x = v ∧ ¬ attached s w ∧
    Created t c ∈ log s ∧ Exited c v ∈ log s.

Definition point_ok (t : Z) (p : process) : Prop :=
  match pc p with
  | K_exec fn => good_line fn ∧ in_kernel p = false
  | PE_tokenize e fn => good_line fn ∧ fresh_exec p e
  | PE_lock_init e => fresh_exec p e
  | PE_acquire e w | PE_push e w =>
      fresh_exec p e ∧ ¬ attached s w ∧ (∃ l, children s !! t = Some l ∧ w ∉ l) ∧
      ∃ x, waits s !! w = Some x ∧ ref_count x = -1 ∧ sema x = 0 ∧ w_parent x = t
  | PE_create e =>
      fresh_exec p e ∧ ∃ w l x, children s !! t = Some (w :: l) ∧ waits s !! w = Some x ∧ ref_count x = -1 ∧ ¬ attached s w
  | K_loaded e pid =>
      ∃ x, execs s !! e = Some x ∧ match load_success x with Some _ => load_sema x = 1 | None => load_sema x = 0 end
  | PW_down c w => ∃ x, kid t w x ∧ w_tid x = c
  | PW_ref c w v | PW_dec c w v => claimed t c w v 1
  | PW_list c w v | PW_unlink c w v => claimed t c w v 0
  | SP_load | SP_up _ =>
      children s !! t = Some [] ∧
      match parent_load p with
      | Some e => ∃ q pq, procs s !! q = Some pq ∧ pc pq = K_loaded e t ∧ execs s !! e = Some (mk_exec None 0)
      | None => True
      end
  | TE_dec w | TE_up w => my_wait_status p = Some w
  | TE_list _ | TE_unlink _ => False
  | TE_loop l => NoDup l ∧ ∀ w, w ∈ l → ∃ x, kid t w x
  | TE_child w l => NoDup (w :: l) ∧ ∀ w', w' ∈ w :: l → ∃ x, kid t w' x
  | _ => True
  end.

(** The wait status [w] of a process [t] that has not raised its semaphore. *)
Definition mine_ok (t : Z) (p : process) (w : positive) : Prop :=
  ∃ x pp, kid (w_parent x) w x ∧ procs s !! w_parent x = Some pp ∧ w_tid x = t ∧ sema x = 0 ∧
    ref_count x = (match pc p with TE_up _ => 1 | _ => 2 end) ∧ Created (w_parent x) t ∈ log s ∧
    (if exiting (pc p) then Exited t (exit_code x) ∈ log s else exit_code x = -1).

Record inv : Prop := {
  i_next : ∀ t p, procs s !! t = Some p → 0 < t < next_tid s;
  i_kids : ∀ t p, procs s !! t = Some p →
    ∃ l, children s !! t = Some l ∧ NoDup l ∧ ∀ w, w ∈ l → ∃ x, waits s !! w = Some x ∧ w_parent x = t;
  i_point : ∀ t p, procs s !! t = Some p → point_ok t p;
  i_mine : ∀ t p w, procs s !! t = Some p → my_wait_status p = Some w → after_up (pc p) = false → mine_ok t p w;
  i_exit : ∀ t p, procs s !! t = Some p → exiting (pc p) = true → children_done s t;
  i_list : ∀ t p, procs s !! t = Some p → (holds_list (pc p) = true ↔ child_list_lock s = Held t);
  i_list_live : ∀ t, child_list_lock s = Held t → is_Some (procs s !! t);
  i_init : ∀ t p, procs s !! t = Some p → needs_lock (pc p) = true → child_list_lock s ≠ Uninit;
  i_argv : ∀ t p, procs s !! t = Some p → has_argv (pc p) = true → argv s ≠ [];
  i_ref : ∀ w x t, waits s !! w = Some x →
    (ref_count_lock x = Some t ↔ ∃ p, procs s !! t = Some p ∧ holds_ref (pc p) = Some w);
  i_exec : ∀ t p q r a, procs s !! t = Some p → procs s !! q = Some r →
    exec_of (pc p) = Some a → exec_of (pc r) = Some a → t = q;
  i_kernel : ∀ t p, procs s !! t = Some p → in_kernel p = true → child_loaded p = None;
  i_sema : ∀ w x, waits s !! w = Some x → sema x = 0 ∨ (sema x = 1 ∧ ref_count x = 1 ∧ ¬ attached s w ∧
    Created (w_parent x) (w_tid x) ∈ log s ∧ Exited (w_tid x) (exit_code x) ∈ log s);
  i_tid : ∀ w x, waits s !! w = Some x → 0 <= ref_count x → w_tid x < next_tid s;
  i_uniq : ∀ w x w' x', waits s !! w = Some x → waits s !! w' = Some x' → 0 <= ref_count x → 0 <= ref_count x' → w_tid x = w_tid x' → w = w';
  i_log : ∀ q c, Created q c ∈ log s → q < next_tid s ∧ c < next_tid s;
  i_log_reaped : ∀ q c v, Reaped q c v ∈ log s → c < next_tid s;
  i_reaped : ∀ q c v w x, Reaped q c v ∈ log s → waits s !! w = Some x → 0 <= ref_count x → w_tid x ≠ c;
  i_created : ∀ q c p, Created q c ∈ log s → procs s !! q = Some p → after_up (pc p) = false →
    (∃ v, Reaped q c v ∈ log s) ∨ ∃ w x, kid q w x ∧ w_tid x = c ∧ 0 <= ref_count x
}.
End invariant.

(** ** A step of one process as a change of the state
    [change s s' t p p']: the process [t] goes from [p] to [p'], everything
    else changes only as the protocol allows it. *)
Definition owns (p : process) (w : positive) : Prop := my_wait_status p = Some w ∧ after_up (pc p) = false.

Record change (s s' : pstate) (t : Z) (p p' : process) : Prop := {
  c_procs : procs s' = <[t := p']> (procs s);
  c_next : next_tid s' = next_tid s;
  c_my : my_wait_status p' = my_wait_status p;
  c_kernel : in_kernel p' = true → child_loaded p' = None;
  c_after : after_up (pc p) = true → after_up (pc p') = true;
  c_list : holds_list (pc p') = true ↔ child_list_lock s' = Held t;
  c_list_others : ∀ q, q ≠ t → child_list_lock s' = Held q ↔ child_list_lock s = Held q;
  c_init : child_list_lock s' = Uninit → child_list_lock s = Uninit ∧ needs_lock (pc p') = false;
  c_argv : argv s ≠ [] → argv s' ≠ [];
  c_has_argv : has_argv (pc p') = true → argv s' ≠ [];
  c_exec_of : ∀ a, exec_of (pc p') = Some a → exec_of (pc p) = Some a ∨ execs s !! a = None;
  c_kids_others : ∀ q, q ≠ t → children s' !! q = children s !! q;
  c_kids : ∃ l, children s' !! t = Some l ∧ NoDup l ∧ ∀ w, w ∈ l → ∃ x, waits s' !! w = Some x ∧ w_parent x = t;
  c_kids_attached : ∀ l w, children s !! t = Some l → w ∈ l → attached s w → ∃ l', children s' !! t = Some l' ∧ w ∈ l';
  c_waits : ∀ w x, waits s !! w = Some x → ¬ owns p w → w_parent x ≠ t ∨ attached s w → waits s' !! w = Some x;
  c_own : ∀ w x, waits s !! w = Some x → owns p w →
    ∃ x', waits s' !! w = Some x' ∧ w_tid x' = w_tid x ∧ w_parent x' = w_parent x ∧ 0 <= ref_count x';
  c_waits_inv : ∀ w x', waits s' !! w = Some x' → 0 <= ref_count x' →
    ∃ x, waits s !! w = Some x ∧ 0 <= ref_count x ∧ w_tid x' = w_tid x;
  c_mine : ∀ w, owns p' w → mine_ok s' t p' w;
  c_ref : ∀ w x', waits s' !! w = Some x' →
    (ref_count_lock x' = Some t ↔ holds_ref (pc p') = Some w) ∧
    (∀ q, q ≠ t → ref_count_lock x' = Some q ↔ ∃ x, waits s !! w = Some x ∧ ref_count_lock x = Some q);
  c_sema : ∀ w x', waits s' !! w = Some x' → waits s !! w = Some x' ∨ sema x' = 0 ∨
    (sema x' = 1 ∧ ref_count x' = 1 ∧ ¬ attached s' w ∧ Created (w_parent x') (w_tid x') ∈ log s' ∧ Exited (w_tid x') (exit_code x') ∈ log s');
  c_log : log s ⊆ log s';
  c_created : ∀ q c, Created q c ∈ log s' → Created q c ∈ log s;
  c_reaped : ∀ q c v, Reaped q c v ∈ log s' → Reaped q c v ∈ log s ∨
    (c < next_tid s ∧ ∀ w x', waits s' !! w = Some x' → 0 <= ref_count x' → w_tid x' ≠ c);
  c_kept : after_up (pc p') = false → ∀ w x, kid s t w x → 0 <= ref_count x →
    (∃ x', kid s' t w x' ∧ w_tid x' = w_tid x ∧ 0 <= ref_count x') ∨ ∃ v, Reaped t (w_tid x) v ∈ log s';
  c_exit : exiting (pc p') = true → (exiting (pc p) = true ∨ children_done s t) ∧
    ∀ l l' w, children s !! t = Some l → children s' !! t = Some l' → w ∈ l' → w ∈ l;
  c_execs : ∀ e x, execs s !! e = Some x → exec_of (pc p) ≠ Some e →
    (loading (pc p) = true → parent_load p ≠ Some e) → execs s' !! e = Some x;
  c_loading : ∀ e, loading (pc p) = true → parent_load p = Some e →
    execs s' !! e = execs s !! e ∨ ∃ b, execs s' !! e = Some (mk_exec (Some b) 1);
  c_loaded : ∀ e c, pc p = K_loaded e c → execs s !! e ≠ Some (mk_exec None 0);
  c_point : point_ok s' t p'
}.
