(* ===== verification/ProcessStep.v ===== *)
(** * Every allowed change of the state keeps the invariant of the processes *)
From S2P Require Import Prelude KStringSpec ArgStack Process ProcessInv.
Open Scope Z_scope.

Section kept.
Context (s s' : pstate) (t : Z) (p p' : process).
Context (I : inv s) (Hp : procs s !! t = Some p) (C : change s s' t p p').

Lemma procs_other q r : q ≠ t → procs s' !! q = Some r ↔ procs s !! q = Some r.
Proof using C. intros Hq. rewrite (c_procs _ _ _ _ _ C), lookup_insert_ne by done. done. Qed.
Lemma procs_self : procs s' !! t = Some p'.
Proof using C. by rewrite (c_procs _ _ _ _ _ C), lookup_insert_eq. Qed.

Lemma procs_cases q r : procs s' !! q = Some r → (q = t ∧ r = p') ∨ (q ≠ t ∧ procs s !! q = Some r).
Proof using C.
  intros Hr. destruct (decide (q = t)) as [->|Hq]; [|rewrite procs_other in Hr by done; by right].
  rewrite procs_self in Hr. left. by simplify_eq.
Qed.

Lemma attached_mono w : attached s' w → attached s w.
Proof using C Hp.
  intros (c & r & Hr & Hm & Ha). destruct (procs_cases c r Hr) as [[-> ->]|[Hc Hr']]; [|by exists c, r].
  exists t, p. rewrite <- (c_my _ _ _ _ _ C). split_and!; [done..|].
  destruct (after_up (pc p)) eqn:E; [|done]. by rewrite (c_after _ _ _ _ _ C E) in Ha.
Qed.

Lemma owns_dec w : Decision (owns p w).
Proof. unfold owns. apply _. Defined.

(** Somebody else's wait status stays, with its child and its parent. *)
Lemma wait_kept w x : waits s !! w = Some x → w_parent x ≠ t →
  ∃ x', waits s' !! w = Some x' ∧ w_tid x' = w_tid x ∧ w_parent x' = w_parent x ∧ (0 <= ref_count x → 0 <= ref_count x').
Proof using C.
  intros Hx Hq. destruct (owns_dec w) as [Ho|Ho].
  - destruct (c_own _ _ _ _ _ C w x Hx Ho) as (x' & ? & ? & ? & ?). eauto.
  - exists x. rewrite (c_waits _ _ _ _ _ C w x Hx Ho) by auto. done.
Qed.

Lemma kid_kept q w x : q ≠ t → kid s q w x → ∃ x', kid s' q w x' ∧ w_tid x' = w_tid x ∧ (0 <= ref_count x → 0 <= ref_count x').
Proof using C.
  intros Hq (l & Hl & Hw & Hx & <-). destruct (wait_kept w x Hx Hq) as (x' & Hx' & Et & Ep & Hr).
  exists x'. split; [|done]. exists l. by rewrite (c_kids_others _ _ _ _ _ C).
Qed.

(** A wait status whose child has raised its semaphore does not change. *)
Lemma unattached_kept w x : waits s !! w = Some x → w_parent x ≠ t → ¬ attached s w → waits s' !! w = Some x ∧ ¬ attached s' w.
Proof using C Hp.
  intros Hx Hq Ha. split; [|by intros ?%attached_mono]. apply (c_waits _ _ _ _ _ C); [done| |by left].
  intros [Hm Hu]. apply Ha. by exists t, p.
Qed.

Lemma kid_unattached q w x : q ≠ t → kid s q w x → ¬ attached s w → kid s' q w x ∧ ¬ attached s' w.
Proof using C Hp.
  intros Hq (l & Hl & Hw & Hx & <-) Ha. destruct (unattached_kept w x Hx Hq Ha). split; [|done].
  exists l. by rewrite (c_kids_others _ _ _ _ _ C).
Qed.

Lemma claimed_kept q c w v n : q ≠ t → claimed s q c w v n → claimed s' q c w v n.
Proof using C Hp.
  intros Hq (x & Hk & ? & ? & ? & ? & Ha & ? & ?). destruct (kid_unattached q w x Hq Hk Ha) as [Hk' Ha'].
  exists x. split_and!; auto; by apply (c_log _ _ _ _ _ C).
Qed.

Lemma exec_kept q r a x : q ≠ t → procs s !! q = Some r → exec_of (pc r) = Some a →
  execs s !! a = Some x → (loading (pc p) = true → parent_load p ≠ Some a) → execs s' !! a = Some x.
Proof using C I Hp.
  intros Hq Hr He Hx Hl. apply (c_execs _ _ _ _ _ C); [done| |done]. intros He'. by destruct (Hq (i_exec _ I _ _ _ _ _ Hr Hp He He')).
Qed.

(** The [exec_stuff] of a process that is still loading belongs to a parent
    that waits for it. *)
Lemma loading_parent a : loading (pc p) = true → parent_load p = Some a →
  ∃ q pq, procs s !! q = Some pq ∧ pc pq = K_loaded a t ∧ execs s !! a = Some (mk_exec None 0).
Proof using I Hp.
  intros Hl Ha. pose proof (i_point _ I t p Hp) as H. unfold point_ok in H. rewrite Ha in H.
  destruct (pc p); try done; apply H.
Qed.

Lemma fresh_exec_kept q r e : q ≠ t → procs s !! q = Some r → exec_of (pc r) = e → (∀ a c, pc r ≠ K_loaded a c) →
  fresh_exec s r e → fresh_exec s' r e.
Proof using C I Hp.
  intros Hq Hr He Hn. destruct e as [a|]; [|done]. intros [Hc Hx]. split; [done|].
  apply (exec_kept q r); try done. intros Hl Ha. destruct (loading_parent a Hl Ha) as (q' & pq & Hq' & Epc & _).
  assert (q' = q) as -> by (eapply (i_exec _ I q' pq q r); [done..|by rewrite Epc|done]). simplify_eq. by eapply Hn.
Qed.

Lemma load_kept q r : q ≠ t → procs s !! q = Some r → loading (pc r) = true → point_ok s q r →
  children s !! q = Some [] ∧ match parent_load r with
      | Some e => ∃ q' pq, procs s' !! q' = Some pq ∧ pc pq = K_loaded e q ∧ execs s' !! e = Some (mk_exec None 0)
      | None => True
      end.
Proof using C I Hp.
  intros Hq Hr Hl Hpt.
  assert (H : children s !! q = Some [] ∧ match parent_load r with
      | Some e => ∃ q' pq, procs s !! q' = Some pq ∧ pc pq = K_loaded e q ∧ execs s !! e = Some (mk_exec None 0)
      | None => True end) by (unfold point_ok in Hpt; destruct (pc r); done).
  destruct H as [? H]. split; [done|]. destruct (parent_load r) as [e|] eqn:Er; [|done].
  destruct H as (q' & pq & Hq' & Epc & He).
  assert (Ht : q' ≠ t).
  { intros ->. rewrite Hp in Hq'. simplify_eq. by apply (c_loaded _ _ _ _ _ C e q). }
  exists q', pq. rewrite procs_other by done. split_and!; [done..|].
  apply (exec_kept q' pq); try done; [by rewrite Epc|]. intros Hl' Ha. destruct (loading_parent e Hl' Ha) as (q'' & pq' & Hq'' & Epc' & _).
  assert (q'' = q') as -> by (eapply (i_exec _ I q'' pq' q' pq); [done..|by rewrite Epc'|by rewrite Epc]). congruence.
Qed.

Lemma point_kept q r : q ≠ t → procs s !! q = Some r → point_ok s q r → point_ok s' q r.
Proof using C I Hp.
  intros Hq Hr Hpt. pose proof (load_kept q r Hq Hr) as Hload. pose proof (fresh_exec_kept q r) as Hfe. revert Hpt Hload Hfe. unfold point_ok.
  rewrite (c_kids_others _ _ _ _ _ C) by done.
  destruct (pc r) eqn:Epc; cbn [loading exec_of]; intros Hpt Hload Hfe; try done.
  - destruct Hpt as [? He]. split; [done|]. by apply Hfe.
  - by apply Hfe.
  - destruct Hpt as (He & Ha & Hl & x & Hx & Hn & Hs & Hpar). split; [by apply Hfe|].
    destruct (unattached_kept w x Hx) as [Hx' Ha']; [congruence|done|]. split_and!; [done..|]. by exists x.
  - destruct Hpt as (He & Ha & Hl & x & Hx & Hn & Hs & Hpar). split; [by apply Hfe|].
    destruct (unattached_kept w x Hx) as [Hx' Ha']; [congruence|done|]. split_and!; [done..|]. by exists x.
  - destruct Hpt as (He & w & l & x & Hl & Hx & Hn & Ha). split; [by apply Hfe|].
    destruct (i_kids _ I q r Hr) as (l' & Hl' & _ & Hw). rewrite Hl in Hl'. simplify_eq.
    destruct (Hw w ltac:(left)) as (y & Hy & Hpar). rewrite Hx in Hy. simplify_eq.
    destruct (unattached_kept w y Hx) as [Hx' Ha']; [congruence|done|]. by exists w, l, y.
  - destruct Hpt as (x & Hx & Hs).
    destruct (decide (loading (pc p) = true ∧ parent_load p = Some e)) as [[Hl Ha]|Hn].
    + destruct (c_loading _ _ _ _ _ C e Hl Ha) as [->|[b ->]]; [by exists x|]. by eexists.
    + exists x. split; [|done]. apply (exec_kept q r); try done; [by rewrite Epc|]. intros ? ?. by apply Hn.
  - destruct Hpt as (x & Hk & Et). destruct (kid_kept q w x Hq Hk) as (x' & ? & ? & _). exists x'. split; [done|congruence].
  - by apply claimed_kept.
  - by apply claimed_kept.
  - by apply claimed_kept.
  - by apply claimed_kept.
  - by apply Hload.
  - by apply Hload.
  - destruct Hpt as [? Hk]. split; [done|]. intros w Hw. destruct (Hk w Hw) as [x Hx].
    destruct (kid_kept q w x Hq Hx) as (x' & ? & _). by exists x'.
  - destruct Hpt as [? Hk]. split; [done|]. intros w' Hw. destruct (Hk w' Hw) as [x Hx].
    destruct (kid_kept q w' x Hq Hx) as (x' & ? & _). by exists x'.
Qed.

Lemma mine_kept q r w : q ≠ t → procs s !! q = Some r → owns r w → mine_ok s' q r w.
Proof using C I Hp.
  intros Hq Hr [Hm Hu]. destruct (i_mine _ I q r w Hr Hm Hu) as (x & pp & (l & Hl & Hw & Hx & _) & Hpp & Et & Es & En & Hc & He).
  assert (Ha : attached s w) by (by exists q, r).
  assert (Ho : ¬ owns p w).
  { intros [Hm' Hu']. destruct (i_mine _ I t p w Hp Hm' Hu') as (y & _ & (_ & _ & _ & Hy & _) & _ & Et' & _). congruence. }
  pose proof (c_waits _ _ _ _ _ C w x Hx Ho ltac:(by right)) as Hx'.
  assert (Hk : kid s' (w_parent x) w x ∧ ∃ pp', procs s' !! w_parent x = Some pp').
  { destruct (decide (w_parent x = t)) as [E|E].
    - rewrite E in Hl |- *. destruct (c_kids_attached _ _ _ _ _ C l w Hl Hw Ha) as (l' & Hl' & Hw').
      split; [by exists l'|]. exists p'. apply procs_self.
    - split; [exists l; by rewrite (c_kids_others _ _ _ _ _ C)|]. exists pp. by rewrite procs_other. }
  destruct Hk as [Hk [pp' Hpp']]. exists x, pp'. split_and!; try done; [by apply (c_log _ _ _ _ _ C)|].
  destruct (exiting (pc r)); [by apply (c_log _ _ _ _ _ C)|done].
Qed.

Lemma holds_ref_alloc q r w : procs s !! q = Some r → holds_ref (pc r) = Some w → is_Some (waits s !! w).
Proof using I.
  clear C Hp. intros Hr Hh. pose proof (i_point _ I q r Hr) as Hpt. unfold point_ok in Hpt.
  destruct (pc r) eqn:Epc; cbn in Hh; simplify_eq; try done.
  1-3: destruct Hpt as (x & (l & _ & _ & Hx & _) & _); by exists x.
  - destruct (i_mine _ I q r w Hr Hpt) as (x & _ & (_ & _ & _ & Hx & _) & _); [by rewrite Epc|by exists x].
  - destruct Hpt as [_ Hk]. destruct (Hk w ltac:(left)) as (x & _ & _ & _ & Hx & _). by exists x.
Qed.

Lemma change_keeps_inv : inv s'.
Proof using C I Hp.
  constructor.
  - intros q r Hr. rewrite (c_next _ _ _ _ _ C). destruct (procs_cases q r Hr) as [[-> ->]|[Hq Hr']]; eapply (i_next _ I); eauto.
  - intros q r Hr. destruct (procs_cases q r Hr) as [[-> ->]|[Hq Hr']]; [apply (c_kids _ _ _ _ _ C)|].
    destruct (i_kids _ I q r Hr') as (l & Hl & Hn & Hw). exists l. rewrite (c_kids_others _ _ _ _ _ C) by done.
    split_and!; [done..|]. intros w Hin. destruct (Hw w Hin) as (x & Hx & <-). destruct (wait_kept w x Hx Hq) as (x' & ? & _ & ? & _). by exists x'.
  - intros q r Hr. destruct (procs_cases q r Hr) as [[-> ->]|[Hq Hr']]; [apply (c_point _ _ _ _ _ C)|].
    apply point_kept; try done. by apply (i_point _ I).
  - intros q r w Hr Hm Hu. destruct (procs_cases q r Hr) as [[-> ->]|[Hq Hr']]; [by apply (c_mine _ _ _ _ _ C)|]. by apply mine_kept.
  - intros q r Hr He. destruct (procs_cases q r Hr) as [[-> ->]|[Hq Hr']].
    + destruct (c_exit _ _ _ _ _ C He) as [Hd Hsub]. assert (Hd' : children_done s t) by (destruct Hd; [by eapply (i_exit _ I)|done]).
      intros l w Hl Hw ?%attached_mono. destruct (i_kids _ I t p Hp) as (l0 & Hl0 & _). eapply Hd'; [exact Hl0|by eapply Hsub|done].
    + intros l w Hl Hw ?%attached_mono. rewrite (c_kids_others _ _ _ _ _ C) in Hl by done. by eapply (i_exit _ I q r Hr' He).
  - intros q r Hr. destruct (procs_cases q r Hr) as [[-> ->]|[Hq Hr']]; [apply (c_list _ _ _ _ _ C)|].
    rewrite (c_list_others _ _ _ _ _ C) by done. by apply (i_list _ I).
  - intros q Hl. destruct (decide (q = t)) as [->|Hq]; [rewrite procs_self; eauto|].
    rewrite (c_list_others _ _ _ _ _ C) in Hl by done. destruct (i_list_live _ I q Hl) as [r Hr]. exists r. by rewrite procs_other.
  - intros q r Hr Hn Hu. destruct (c_init _ _ _ _ _ C Hu) as [Hu' Hn']. destruct (procs_cases q r Hr) as [[-> ->]|[Hq Hr']]; [congruence|].
    by apply (i_init _ I q r Hr' Hn).
  - intros q r Hr Hh. destruct (procs_cases q r Hr) as [[-> ->]|[Hq Hr']]; [by apply (c_has_argv _ _ _ _ _ C)|].
    apply (c_argv _ _ _ _ _ C). by eapply (i_argv _ I).
  - intros w x' q Hx'. destruct (c_ref _ _ _ _ _ C w x' Hx') as [H1 H2]. destruct (decide (q = t)) as [->|Hq].
    + rewrite H1. split; [intros; exists p'; by rewrite procs_self|]. intros (r & Hr & Hh). rewrite procs_self in Hr. by simplify_eq.
    + rewrite H2 by done. split.
      * intros (x & Hx & Hl). apply (i_ref _ I w x q Hx) in Hl as (r & Hr & Hh). exists r. by rewrite procs_other.
      * intros (r & Hr & Hh). rewrite procs_other in Hr by done. destruct (holds_ref_alloc q r w Hr Hh) as [x Hx].
        exists x. split; [done|]. apply (i_ref _ I w x q Hx). by exists r.
  - intros q r q' r' a Hr Hr' He He'.
    assert (Hal : ∀ q r, procs s !! q = Some r → exec_of (pc r) = Some a → is_Some (execs s !! a)).
    { clear -I. intros q r Hr He. pose proof (i_point _ I q r Hr) as Hpt. unfold point_ok in Hpt.
      destruct (pc r); cbn in He; simplify_eq; try destruct Hpt as [? Hpt]; naive_solver. }
    destruct (procs_cases q r Hr) as [[-> ->]|[Hq Hr1]], (procs_cases q' r' Hr') as [[-> ->]|[Hq' Hr1']]; [done| | |].
    + destruct (c_exec_of _ _ _ _ _ C a He) as [?|Hn]; [by eapply (i_exec _ I)|]. destruct (Hal q' r' Hr1' He'). congruence.
    + destruct (c_exec_of _ _ _ _ _ C a He') as [?|Hn]; [by eapply (i_exec _ I)|]. destruct (Hal q r Hr1 He). congruence.
    + by eapply (i_exec _ I).
  - intros q r Hr Hk. destruct (procs_cases q r Hr) as [[-> ->]|[Hq Hr']]; [by apply (c_kernel _ _ _ _ _ C)|by eapply (i_kernel _ I)].
  - intros w x' Hx'. destruct (c_sema _ _ _ _ _ C w x' Hx') as [Hx|[?|?]]; [|by left|by right].
    destruct (i_sema _ I w x' Hx) as [?|(? & ? & Ha & ? & ?)]; [by left|]. right.
    split_and!; [done..|by intros ?%attached_mono|by apply (c_log _ _ _ _ _ C)|by apply (c_log _ _ _ _ _ C)].
  - intros w x' Hx' Hn. rewrite (c_next _ _ _ _ _ C). destruct (c_waits_inv _ _ _ _ _ C w x' Hx' Hn) as (x & Hx & Hnn & ->). by eapply (i_tid _ I).
  - intros w x' w' y' Hx' Hy' Hn Hm E. destruct (c_waits_inv _ _ _ _ _ C w x' Hx' Hn) as (x & Hx & ? & ?).
    destruct (c_waits_inv _ _ _ _ _ C w' y' Hy' Hm) as (y & Hy & ? & ?). eapply (i_uniq _ I w x w' y); try done. congruence.
  - intros q c Hc. rewrite (c_next _ _ _ _ _ C). eapply (i_log _ I q c). by apply (c_created _ _ _ _ _ C).
  - intros q c v Hc. rewrite (c_next _ _ _ _ _ C). destruct (c_reaped _ _ _ _ _ C q c v Hc) as [?|[? _]]; [by eapply (i_log_reaped _ I)|done].
  - intros q c v w x' Hr Hx' Hn. destruct (c_reaped _ _ _ _ _ C q c v Hr) as [Hr'|[_ H]]; [|by eapply H].
    destruct (c_waits_inv _ _ _ _ _ C w x' Hx' Hn) as (x & Hx & ? & ->). by eapply (i_reaped _ I).
  - intros q c r Hc Hr Hu. apply (c_created _ _ _ _ _ C) in Hc. destruct (procs_cases q r Hr) as [[-> ->]|[Hq Hr']].
    + destruct (i_created _ I t c p Hc Hp) as [[v Hv]|(w & x & Hk & <- & Hn)].
      { destruct (after_up (pc p)) eqn:E; [|done]. by rewrite (c_after _ _ _ _ _ C E) in Hu. }
      * left. exists v. by apply (c_log _ _ _ _ _ C).
      * destruct (c_kept _ _ _ _ _ C Hu w x Hk Hn) as [(x' & ? & ? & ?)|?]; [right; by exists w, x'|by left].
    + destruct (i_created _ I q c r Hc Hr' Hu) as [[v Hv]|(w & x & Hk & <- & Hn)].
      * left. exists v. by apply (c_log _ _ _ _ _ C).
      * right. destruct (kid_kept q w x Hq Hk) as (x' & ? & ? & Hr2). exists w, x'. auto.
Qed.
End kept.
