(* ===== verification/ProcessRun.v ===== *)
(** * Every step of an orderly execution succeeds and keeps the invariant *)
From S2P Require Import Prelude KStringSpec ArgStack Process ProcessInv ProcessStep.
Open Scope Z_scope.

(** ** The log
    [event_ok l e]: [e] may happen after the events [l]. *)
Definition event_ok (l : list event) (e : event) : Prop :=
  match e with
  | Reaped q c v => Created q c ∈ l ∧ Exited c v ∈ l ∧ ∀ q' v', Reaped q' c v' ∉ l
  | Refused q c => Created q c ∈ l → ∃ v, Reaped q c v ∈ l
  | _ => True
  end.
Definition log_ok (l : list event) : Prop := ∀ l1 e l2, l = l1 ++ e :: l2 → event_ok l1 e.
Definition logged (s s' : pstate) : Prop := log s' = log s ∨ ∃ e, log s' = log s ++ [e] ∧ event_ok (log s) e.

Lemma log_ok_nil : log_ok [].
Proof. intros [|] ? ? ?; done. Qed.
Lemma log_ok_snoc l e : log_ok l → event_ok l e → log_ok (l ++ [e]).
Proof.
  intros Hl He l1 e' l2 E. destruct l2 as [|e2 l2 _] using rev_ind.
  - by apply app_inj_tail in E as [-> ->].
  - rewrite app_comm_cons, app_assoc in E. apply app_inj_tail in E as [-> _]. by eapply Hl.
Qed.
Lemma log_ok_logged s s' : log_ok (log s) → logged s s' → log_ok (log s').
Proof. intros Hl [->|(e & -> & He)]; [done|by apply log_ok_snoc]. Qed.

(** At most an event that creates or reaps no process is added. *)
Definition plain_log (s s' : pstate) : Prop :=
  log s' = log s ∨ ∃ e, log s' = log s ++ [e] ∧ match e with Created _ _ | Reaped _ _ _ => False | _ => True end.
Lemma plain_log_spec s s' : plain_log s s' →
  log s ⊆ log s' ∧ (∀ q c, Created q c ∈ log s' → Created q c ∈ log s) ∧ (∀ q c v, Reaped q c v ∈ log s' → Reaped q c v ∈ log s).
Proof.
  intros [->|(e & -> & He)]; [split_and!; done|]. split_and!; [set_solver|..]; intros * H; apply elem_of_app in H as [?|H%list_elem_of_singleton]; try done; by subst e.
Qed.

Section moves.
Context (s : pstate) (t : Z) (p : process) (I : inv s) (Hp : procs s !! t = Some p).

Lemma own_ref w x : waits s !! w = Some x → owns p w → 0 < ref_count x.
Proof using I Hp.
  intros Hx [Hm Hu]. destruct (i_mine _ I t p w Hp Hm Hu) as (y & _ & (_ & _ & _ & Hy & _) & _ & _ & _ & En & _).
  simplify_eq. rewrite En. destruct (pc p); lia.
Qed.
Lemma own_attached w : owns p w → attached s w.
Proof using Hp. intros [Hm Hu]. by exists t, p. Qed.
Lemma my_kids : ∃ l, children s !! t = Some l ∧ NoDup l ∧ ∀ w, w ∈ l → ∃ x, waits s !! w = Some x ∧ w_parent x = t.
Proof using I Hp. exact (i_kids _ I t p Hp). Qed.

(** The reference count locks after a step that leaves the wait statuses
    alone. *)
Lemma ref_same p' w x : waits s !! w = Some x → holds_ref (pc p') = holds_ref (pc p) →
  (ref_count_lock x = Some t ↔ holds_ref (pc p') = Some w) ∧
  (∀ q, q ≠ t → ref_count_lock x = Some q ↔ ∃ y, waits s !! w = Some y ∧ ref_count_lock y = Some q).
Proof using I Hp.
  intros Hx E. split.
  - rewrite (i_ref _ I w x t Hx), E. split; [intros (r & Hr & Hh); by simplify_eq|]. intros Hh. by exists p.
  - intros q Hq. split; [by exists x|]. intros (y & Hy & Hl). by simplify_eq.
Qed.

(** The process's own wait status when only its point changes. *)
Lemma mine_same s' p' w : waits s' !! w = waits s !! w → children s' = children s → procs s' = <[t := p']> (procs s) → log s ⊆ log s' →
  my_wait_status p' = my_wait_status p → owns p' w → after_up (pc p) = false → exiting (pc p') = exiting (pc p) →
  match pc p' with TE_up _ => 1 | _ => 2 end = match pc p with TE_up _ => 1 | _ => 2 end → mine_ok s' t p' w.
Proof using I Hp.
  intros Ew Ek Ep Hlog Em [Hm Hu] Hu' Ee En. rewrite Em in Hm.
  destruct (i_mine _ I t p w Hp Hm Hu') as (x & pp & Hk & Hpp & Et & Es & Er & Hc & He).
  exists x. assert (∃ pp', procs s' !! w_parent x = Some pp') as [pp' Hpp'].
  { rewrite Ep. destruct (decide (w_parent x = t)) as [->|Hn]; [by rewrite lookup_insert_eq; eauto|by rewrite lookup_insert_ne; eauto]. }
  exists pp'. unfold kid. rewrite Ew, Ek. split_and!; try done; [congruence|by apply Hlog|].
  rewrite Ee. destruct (exiting (pc p)); [by apply Hlog|done].
Qed.

(** A step that changes no wait status and no list. *)
Lemma change_point s' p' :
  procs s' = <[t := p']> (procs s) →
  waits s' = waits s → children s' = children s → plain_log s s' → next_tid s' = next_tid s →
  my_wait_status p' = my_wait_status p →
  (in_kernel p' = true → child_loaded p' = None) →
  (after_up (pc p) = true → after_up (pc p') = true) → holds_ref (pc p') = holds_ref (pc p) →
  (exiting (pc p') = true → exiting (pc p) = true ∨ children_done s t) → (∀ w, owns p' w → mine_ok s' t p' w) →
  (holds_list (pc p') = true ↔ child_list_lock s' = Held t) →
  (∀ q, q ≠ t → child_list_lock s' = Held q ↔ child_list_lock s = Held q) →
  (child_list_lock s' = Uninit → child_list_lock s = Uninit ∧ needs_lock (pc p') = false) →
  (argv s ≠ [] → argv s' ≠ []) → (has_argv (pc p') = true → argv s' ≠ []) →
  (∀ a, exec_of (pc p') = Some a → exec_of (pc p) = Some a ∨ execs s !! a = None) →
  (∀ e x, execs s !! e = Some x → exec_of (pc p) ≠ Some e → (loading (pc p) = true → parent_load p ≠ Some e) → execs s' !! e = Some x) →
  (∀ e, loading (pc p) = true → parent_load p = Some e → execs s' !! e = execs s !! e ∨ ∃ b, execs s' !! e = Some (mk_exec (Some b) 1)) →
  (∀ e c, pc p = K_loaded e c → execs s !! e ≠ Some (mk_exec None 0)) →
  point_ok s' t p' → inv s'.
Proof using I Hp.
  intros Ep Ew Ek (Hlog & Hcr & Hre)%plain_log_spec Enx Em Hker Ea Eh Hexit Hmine Hl1 Hl2 Hl3 Hv1 Hv2 He1 He2 He3 He4 Hpt. apply (change_keeps_inv s s' t p p' I Hp).
  constructor; auto.
  - by rewrite Ek.
  - rewrite Ek, Ew. apply my_kids.
  - intros l w Hl Hw _. exists l. by rewrite Ek.
  - intros w x Hx _ _. by rewrite Ew.
  - intros w x Hx Ho. exists x. rewrite Ew. pose proof (own_ref w x Hx Ho). split_and!; try done. lia.
  - intros w x' Hx' Hn. rewrite Ew in Hx'. by exists x'.
  - intros w x' Hx'. rewrite Ew in Hx'. by apply ref_same.
  - intros w x' Hx'. rewrite Ew in Hx'. by left.
  - intros _ w x Hk Hn. left. exists x. unfold kid in *. by rewrite Ek, Ew.
  - intros He. split; [by apply Hexit|]. intros l l' w Hl Hl'. rewrite Ek in Hl'. by simplify_eq.
Qed.

Lemma change_quiet s' p' :
  procs s' = <[t := p']> (procs s) →
  waits s' = waits s → children s' = children s → plain_log s s' → next_tid s' = next_tid s →
  my_wait_status p' = my_wait_status p →
  (in_kernel p' = true → child_loaded p' = None) →
  after_up (pc p') = after_up (pc p) → exiting (pc p') = exiting (pc p) → holds_ref (pc p') = holds_ref (pc p) →
  match pc p' with TE_up _ => 1 | _ => 2 end = match pc p with TE_up _ => 1 | _ => 2 end →
  (holds_list (pc p') = true ↔ child_list_lock s' = Held t) →
  (∀ q, q ≠ t → child_list_lock s' = Held q ↔ child_list_lock s = Held q) →
  (child_list_lock s' = Uninit → child_list_lock s = Uninit ∧ needs_lock (pc p') = false) →
  (argv s ≠ [] → argv s' ≠ []) → (has_argv (pc p') = true → argv s' ≠ []) →
  (∀ a, exec_of (pc p') = Some a → exec_of (pc p) = Some a ∨ execs s !! a = None) →
  (∀ e x, execs s !! e = Some x → exec_of (pc p) ≠ Some e → (loading (pc p) = true → parent_load p ≠ Some e) → execs s' !! e = Some x) →
  (∀ e, loading (pc p) = true → parent_load p = Some e → execs s' !! e = execs s !! e ∨ ∃ b, execs s' !! e = Some (mk_exec (Some b) 1)) →
  (∀ e c, pc p = K_loaded e c → execs s !! e ≠ Some (mk_exec None 0)) →
  point_ok s' t p' → inv s'.
Proof using I Hp.
  intros Ep Ew Ek Hlog Enx Em Hker Ea Ee Eh Eu. apply change_point; try done; [by rewrite Ea|rewrite Ee; by left|].
  intros w Ho. apply mine_same; try done; [by rewrite Ew|by apply plain_log_spec|]. destruct Ho. congruence.
Qed.

(** A step that changes one wait status, the process's own or one of a child
    that is done. *)
Lemma change_wait s' p' w x x' :
  procs s' = <[t := p']> (procs s) →
  waits s !! w = Some x → waits s' = <[w := x']> (waits s) → w_tid x' = w_tid x → w_parent x' = w_parent x →
  children s' = children s → execs s' = execs s → argv s' = argv s → next_tid s' = next_tid s → child_list_lock s' = child_list_lock s →
  plain_log s s' →
  my_wait_status p' = my_wait_status p → in_kernel p' = in_kernel p → child_loaded p' = child_loaded p →
  (after_up (pc p) = true → after_up (pc p') = true) → holds_list (pc p') = holds_list (pc p) → needs_lock (pc p') = false ∨ child_list_lock s ≠ Uninit →
  has_argv (pc p') = false → exec_of (pc p') = None → exec_of (pc p) = None → loading (pc p) = false →
  owns p w ∨ (w_parent x = t ∧ ¬ attached s w) →
  (owns p w → 0 <= ref_count x') → (0 <= ref_count x' → 0 <= ref_count x) → (after_up (pc p') = false → 0 <= ref_count x → 0 <= ref_count x') →
  (ref_count_lock x' = Some t ↔ holds_ref (pc p') = Some w) → (∀ q, q ≠ t → ref_count_lock x' = Some q ↔ ref_count_lock x = Some q) →
  (∀ v, holds_ref (pc p') = Some v → v = w) → (∀ v, holds_ref (pc p) = Some v → v = w) →
  (sema x' = 0 ∨ (sema x' = 1 ∧ ref_count x' = 1 ∧ ¬ attached s' w ∧ Created (w_parent x') (w_tid x') ∈ log s' ∧ Exited (w_tid x') (exit_code x') ∈ log s')) →
  (∀ v, owns p' v → mine_ok s' t p' v) →
  (exiting (pc p') = true → exiting (pc p) = true ∨ children_done s t) →
  point_ok s' t p' → inv s'.
Proof using I Hp.
  intros Ep Hx Ew Et Epar Ek Ee Ea Enx El (Hlog & Hcr & Hre)%plain_log_spec Em Eker Ecl Hau Ehl Hnl Hha Hex' Hex Hld Hown Hown' Hsign Hsign' Hr1 Hr2 Hr3 Hr4 Hs Hmine Hexit Hpt.
  apply (change_keeps_inv s s' t p p' I Hp). constructor; auto.
  - rewrite Eker, Ecl. by apply (i_kernel _ I t p Hp).
  - rewrite Ehl, El. by apply (i_list _ I t p Hp).
  - by rewrite El.
  - rewrite El. by intros Hu; destruct Hnl as [?|[]].
  - by rewrite Ea.
  - by rewrite Hha.
  - rewrite Hex'. done.
  - by rewrite Ek.
  - rewrite Ek, Ew. destruct my_kids as (l & Hl & Hn & Hw). exists l. split_and!; [done..|]. intros v Hv. destruct (Hw v Hv) as (y & Hy & Hyp).
    destruct (decide (v = w)) as [->|Hne]; [rewrite lookup_insert_eq; exists x'; split; [done|congruence]|rewrite lookup_insert_ne by done; eauto].
  - intros l v Hl Hv _. exists l. by rewrite Ek.
  - intros v y Hy Ho Hv. rewrite Ew, lookup_insert_ne; [done|]. intros <-. simplify_eq. destruct Hown as [?|[? ?]]; [done|]. by destruct Hv.
  - intros v y Hy Ho. rewrite Ew. destruct (decide (v = w)) as [->|Hne].
    + rewrite lookup_insert_eq. simplify_eq. exists x'. auto.
    + rewrite lookup_insert_ne by done. pose proof (own_ref v y Hy Ho). exists y. split_and!; try done; lia.
  - intros v y Hy Hn. rewrite Ew in Hy. apply lookup_insert_Some in Hy as [[<- <-]|[Hne Hy]]; [|by exists y]. exists x. split_and!; [done|by apply Hsign|done].
  - intros v y Hy. rewrite Ew in Hy. apply lookup_insert_Some in Hy as [[<- <-]|[Hne Hy]].
    + split; [done|]. intros q Hq. rewrite Hr2 by done. split; [by exists x|]. intros (y & ? & ?). by simplify_eq.
    + split.
      * rewrite (i_ref _ I v y t Hy). split.
        -- intros (r & Hr & Hh). simplify_eq. by destruct (Hne (eq_sym (Hr4 v Hh))).
        -- intros Hh. by destruct (Hne (eq_sym (Hr3 v Hh))).
      * intros q Hq. split; [by exists y|]. intros (z & ? & ?). by simplify_eq.
  - intros v y Hy. rewrite Ew in Hy. apply lookup_insert_Some in Hy as [[<- <-]|[Hne Hy]]; [by right|by left].
  - intros Hau' v y (l & Hl & Hv & Hy & Hyp) Hn. left. unfold kid. rewrite Ek, Ew.
    destruct (decide (v = w)) as [->|Hne].
    + simplify_eq. exists x'. split_and!; [|done|by apply Hsign']. exists l. rewrite lookup_insert_eq. split_and!; done.
    + exists y. split_and!; [|done|done]. exists l. by rewrite lookup_insert_ne.
  - intros He. split; [by apply Hexit|]. intros l l' v Hl Hl'. rewrite Ek in Hl'. by simplify_eq.
  - intros e y Hy _ _. by rewrite Ee.
  - by rewrite Hld.
  - intros e c Hpc. by rewrite Hpc in Hex.
Qed.

(** A step that removes the wait status of a child that is done. *)
Lemma change_remove s' p' w x l :
  procs s' = <[t := p']> (procs s) → children s !! t = Some l → w ∈ l → waits s !! w = Some x → w_parent x = t → ¬ attached s w →
  waits s' = delete w (waits s) → children s' = <[t := filter (λ v, v ≠ w) l]> (children s) →
  execs s' = execs s → argv s' = argv s → next_tid s' = next_tid s →
  log s ⊆ log s' → (∀ q c, Created q c ∈ log s' → Created q c ∈ log s) →
  (∀ q c v, Reaped q c v ∈ log s' → Reaped q c v ∈ log s ∨ (c = w_tid x ∧ 0 <= ref_count x)) →
  my_wait_status p' = my_wait_status p → in_kernel p' = in_kernel p → child_loaded p' = child_loaded p →
  after_up (pc p') = after_up (pc p) → exiting (pc p') = exiting (pc p) →
  match pc p' with TE_up _ => 1 | _ => 2 end = match pc p with TE_up _ => 1 | _ => 2 end →
  (holds_list (pc p') = true ↔ child_list_lock s' = Held t) →
  (∀ q, q ≠ t → child_list_lock s' = Held q ↔ child_list_lock s = Held q) →
  child_list_lock s' ≠ Uninit →
  has_argv (pc p') = false → exec_of (pc p') = None → exec_of (pc p) = None → loading (pc p) = false →
  holds_ref (pc p) = Some w → holds_ref (pc p') = None →
  (after_up (pc p') = false → ∃ v, Reaped t (w_tid x) v ∈ log s') →
  point_ok s' t p' → inv s'.
Proof using I Hp.
  intros Ep Hl Hw Hx Hxp Ha Ew Ek Ee Ea Enx Hlog Hcr Hre Em Eker Ecl Hau Hex' Hup Hl1 Hl2 Hl3 Hha Heo' Heo Hld Hr Hr' Hkept Hpt.
  assert (Hown : ∀ v, owns p v → v ≠ w) by (intros v Ho ->; by apply Ha, own_attached).
  destruct my_kids as (l0 & Hl0 & Hnd & Hkw). rewrite Hl in Hl0. injection Hl0 as <-.
  apply (change_keeps_inv s s' t p p' I Hp). constructor; auto.
  - rewrite Eker, Ecl. by apply (i_kernel _ I t p Hp).
  - congruence.
  - by intros ?%Hl3.
  - by rewrite Ea.
  - by rewrite Hha.
  - by rewrite Heo'.
  - intros q Hq. by rewrite Ek, lookup_insert_ne.
  - exists (filter (λ v, v ≠ w) l). rewrite Ek, lookup_insert_eq. split_and!; [done|by apply NoDup_filter|].
    intros v [Hne Hv]%list_elem_of_filter. rewrite Ew, lookup_delete_ne by done. by apply Hkw.
  - intros l1 v Hl1' Hv Hat. rewrite Hl in Hl1'. injection Hl1' as <-. eexists. rewrite Ek, lookup_insert_eq. split; [done|].
    apply list_elem_of_filter. split; [|done]. by intros ->.
  - intros v y Hy Ho Hv. rewrite Ew, lookup_delete_ne; [done|]. intros <-. simplify_eq. by destruct Hv.
  - intros v y Hy Ho. pose proof (own_ref v y Hy Ho). exists y. rewrite Ew, lookup_delete_ne by (by apply not_eq_sym, Hown). split_and!; try done; lia.
  - intros v y Hy Hn. rewrite Ew in Hy. apply lookup_delete_Some in Hy as [_ Hy]. by exists y.
  - intros v Ho. assert (Ho' : owns p v) by (destruct Ho; split; congruence).
    pose proof (Hown v Ho') as Hne. destruct Ho' as [Hm Hu].
    destruct (i_mine _ I t p v Hp Hm Hu) as (y & pp & (lp & Hlp & Hvp & Hy & _) & Hpp & Et & Es & Er & Hc & He).
    exists y. rewrite Ep, Hup, Hex'. destruct (decide (w_parent y = t)) as [E|E].
    + exists p'. rewrite E, lookup_insert_eq. rewrite E in Hlp, Hc. rewrite Hl in Hlp. injection Hlp as <-.
      split_and!; auto; [|destruct (exiting (pc p)); auto].
      exists (filter (λ v, v ≠ w) l). rewrite Ek, Ew, lookup_insert_eq, lookup_delete_ne by done. split_and!; try done. by apply list_elem_of_filter.
    + exists pp. rewrite lookup_insert_ne by done. split_and!; auto; [|destruct (exiting (pc p)); auto].
      exists lp. by rewrite Ek, Ew, lookup_insert_ne, lookup_delete_ne by done.
  - intros v y Hy. rewrite Ew in Hy. apply lookup_delete_Some in Hy as [Hne Hy]. split.
    + rewrite (i_ref _ I v y t Hy), Hr'. split; [|done]. intros (r & Hr0 & Hh). simplify_eq.
    + intros q Hq. split; [by exists y|]. intros (z & ? & ?). by simplify_eq.
  - intros v y Hy. rewrite Ew in Hy. apply lookup_delete_Some in Hy as [_ Hy]. by left.
  - intros q c v Hc. destruct (Hre q c v Hc) as [?|[-> Hn]]; [by left|]. right. split; [by apply (i_tid _ I w x)|].
    intros u y Hy Hyn E. rewrite Ew in Hy. apply lookup_delete_Some in Hy as [Hne Hy]. by destruct (Hne (i_uniq _ I w x u y Hx Hy Hn Hyn (eq_sym E))).
  - intros Hu v y (lk & Hlk & Hvk & Hy & Hyp) Hn. rewrite Hl in Hlk. injection Hlk as <-. destruct (decide (v = w)) as [->|Hne].
    + right. simplify_eq. by apply Hkept.
    + left. exists y. split_and!; try done. exists (filter (λ v, v ≠ w) l). rewrite Ek, Ew, lookup_insert_eq, lookup_delete_ne by done.
      split_and!; try done. by apply list_elem_of_filter.
  - rewrite Hex'. intros He. split; [by left|]. intros l1 l2 v Hl1' Hl2' Hv. rewrite Ek, lookup_insert_eq in Hl2'. rewrite Hl in Hl1'. simplify_eq.
    by apply list_elem_of_filter in Hv as [_ ?].
  - intros e y Hy _ _. by rewrite Ee.
  - by rewrite Hld.
  - intros e c Hpc. by rewrite Hpc in Heo.
Qed.
End moves.
