(* ===== verification/ProcessPoints.v ===== *)
(** * Each point of the routines: its step succeeds and keeps the invariant *)
From S2P Require Import Prelude KStringSpec ArgStack Process ProcessInv ProcessStep ProcessRun.
Open Scope Z_scope.

(** The step goes through or has to wait; it does not fail. *)
Definition fine (s : pstate) (r : res (bool * pstate)) : Prop := ∃ b s', r = Ret (b, s') ∧ inv s' ∧ logged s s'.

Lemma fine_same s b : inv s → fine s (Ret (b, s)).
Proof. intros I. exists b, s. split_and!; [done..|by left]. Qed.
Lemma fine_quiet s s' : inv s' → log s' = log s → fine s (Ret (true, s')).
Proof. intros I E. exists true, s'. split_and!; [done..|by left]. Qed.

Lemma alter_self (m : gmap Z process) t p f : m !! t = Some p → alter f t m = <[t := f p]> m.
Proof.
  intros E. apply map_eq. intros i. destruct (decide (i = t)) as [->|Hi].
  - by rewrite lookup_alter_eq, lookup_insert_eq, E.
  - by rewrite lookup_alter_ne, lookup_insert_ne by done.
Qed.
Lemma alter_insert (m : gmap Z process) t p f : alter f t (<[t := p]> m) = <[t := f p]> m.
Proof. rewrite (alter_self _ t p) by apply lookup_insert_eq. apply insert_insert_eq. Qed.

(** Run the operations of a step on the current state. *)
Ltac run_step :=
  unfold step, k_exec, process_execute, start_process, process_wait, process_exit, start, when, executed, goto, upd_proc, thread_exit, k_exit, store_wait, free_wait, store_exec, free_exec, modify, gets, lift_res,
    throw, mret, cmd_ret, mbind, cmd_bind; cbn -[words ARG_LIMIT].
(** The processes after a step, as one insertion. *)
Ltac one_proc Hp := cbn; rewrite ?(alter_self _ _ _ _ Hp), ?alter_insert, ?insert_insert_eq; reflexivity.

Ltac quiet I Hp := apply fine_quiet; [|done]; eapply (change_quiet _ _ _ I Hp); [one_proc Hp|done|done|by left|..]; cbn; try done.

Section points.
Context (s : pstate) (t : Z) (o : choice) (I : inv s).

Lemma acquire_list_cases x r : procs s !! t = Some r → needs_lock (pc r) = true → holds_list (pc r) = false →
  acquire_list t s = x →
  (child_list_lock s = Free ∧ x = Ret (true, set_list_lock (Held t) s)) ∨ (∃ h, h ≠ t ∧ child_list_lock s = Held h ∧ x = Ret (false, s)).
Proof using I.
  intros Hr Hn Hh <-. unfold acquire_list. destruct (child_list_lock s) as [| |h] eqn:E.
  - by destruct (i_init _ I _ _ Hr Hn).
  - by left.
  - right. exists h. destruct (Z.eqb_spec h t) as [->|?]; [|done]. apply (i_list _ I _ _ Hr) in E. congruence.
Qed.

Lemma release_list_run s' r : procs s !! t = Some r → holds_list (pc r) = true → child_list_lock s' = child_list_lock s →
  release_list t s' = Ret (tt, set_list_lock Free s').
Proof using I.
  intros Hr Hh E. unfold release_list. apply (i_list _ I _ _ Hr) in Hh. by rewrite E, Hh, Z.eqb_refl.
Qed.

(** Taking [child_list_lock] and only moving on. *)
Lemma acquired_lock r x : procs s !! t = Some r → child_list_lock s = Free →
  (holds_list (pc (with_pc x r)) = true) → ∀ q, q ≠ t → child_list_lock (set_list_lock (Held t) s) = Held q ↔ child_list_lock s = Held q.
Proof. intros _ E _ q Hq. rewrite E. cbn. split; congruence. Qed.

Lemma attached_alter s' p f w : procs s !! t = Some p → procs s' = alter f t (procs s) →
  my_wait_status (f p) = my_wait_status p → (after_up (pc p) = true → after_up (pc (f p)) = true) → attached s' w → attached s w.
Proof using.
  clear I. intros Hp E Em Hu (c & r & Hr & Hm & Ha). rewrite E in Hr. destruct (decide (c = t)) as [->|Hne].
  - rewrite lookup_alter_eq, Hp in Hr. cbn in Hr. simplify_eq. exists t, p. split_and!; [done|congruence|].
    destruct (after_up (pc p)); [|done]. by rewrite Hu in Ha.
  - rewrite lookup_alter_ne in Hr by done. by exists c, r.
Qed.
Lemma procs_alter q r f : procs s !! q = Some r → ∃ r', alter f t (procs s) !! q = Some r'.
Proof using.
  clear I. intros Hr. destruct (decide (q = t)) as [->|?]; [rewrite lookup_alter_eq, Hr; cbn; eauto|rewrite lookup_alter_ne by done; eauto].
Qed.

Section with_process.
Context (my cl pl : option positive) (ea : Z) (im : option (list (list Z))) (ker : bool).
Let proc x := mk_process x my cl pl ea im ker.

Lemma step_K_exec fn : procs s !! t = Some (proc (K_exec fn)) → fine s (step t o (proc (K_exec fn)) s).
Proof using I.
  intros Hp. pose proof (i_point _ I _ _ Hp) as [Hg Hk]. pose proof (i_list _ I _ _ Hp) as Hl. cbn in Hk. subst ker. run_step.
  destruct o as [|a junk|b]; [| |by apply fine_same].
  - quiet I Hp.
  - destruct (available a s) eqn:Ha; [|by apply fine_same].
    apply bool_decide_eq_true in Ha as [Hw He]. quiet I Hp.
    + intros b [= <-]. by right.
    + intros e x Hx _ _. rewrite lookup_insert_ne; congruence.
    + split; [done|]. split; [done|]. by rewrite lookup_insert_eq.
Qed.

(** [process_execute] returns an error. *)
Lemma executed_error x e s1 : procs s !! t = Some (proc x) → fresh_exec s (proc x) e → exec_of x = e →
  match x with PE_tokenize _ _ | PE_lock_init _ | PE_create _ => True | _ => False end →
  (s1 = s ∨ (s1 = set_list_lock Free s ∧ ∀ h, child_list_lock s ≠ Held h)) →
  fine s (match executed t e (-1) s1 with Ret (_, s') => Ret (true, s') | Err f => Err f end).
Proof using I.
  intros Hp Hf He Hx Hs1. pose proof (i_list _ I _ _ Hp) as Hl. pose proof (i_kernel _ I _ _ Hp) as Hk. pose proof (i_init _ I _ _ Hp) as Hi.
  assert (Hlk : ∀ q, child_list_lock s1 = Held q ↔ child_list_lock s = Held q).
  { destruct Hs1 as [->|[-> Hn]]; [done|]. intros q. split; [done|]. intros ?%Hn. done. }
  assert (Hun : child_list_lock s1 = Uninit → child_list_lock s = Uninit) by (by destruct Hs1 as [->|[-> _]]).
  assert (E1 : procs s1 = procs s ∧ waits s1 = waits s ∧ children s1 = children s ∧ log s1 = log s ∧ next_tid s1 = next_tid s ∧ argv s1 = argv s ∧ execs s1 = execs s)
    by (by destruct Hs1 as [->|[-> _]]).
  destruct E1 as (E1 & E2 & E3 & E4 & E5 & E6 & E7).
  assert (Hh : holds_list x = false) by (by destruct x).
  unfold executed. destruct e as [e|]; run_step; apply fine_quiet; try done;
    (eapply (change_quiet _ _ _ I Hp); [cbn; rewrite E1; one_proc Hp|done|done|by left|..]); cbn; try done; rewrite ?Hlk, ?E6, ?E7; try done;
    try (by destruct x); try (by rewrite <- Hl; cbn; rewrite Hh).
  - auto.
  - intros e' y Hy Hne _. rewrite lookup_delete_ne; [done|]. intros ->. cbn in Hne. congruence.
  - auto.
Qed.

Lemma step_PE_tokenize e fn : procs s !! t = Some (proc (PE_tokenize e fn)) → fine s (step t o (proc (PE_tokenize e fn)) s).
Proof using I.
  intros Hp. pose proof (i_point _ I _ _ Hp) as [[Hg Hn] Hf]. pose proof (i_list _ I _ _ Hp) as Hl. pose proof (i_kernel _ I _ _ Hp) as Hk.
  assert (Hok : fine s ((if Z.of_nat (length (words fn)) <? ARG_LIMIT
    then modify (set_argv (words fn));; goto t (PE_lock_init e);; mret true else throw OutOfBounds) s)).
  { rewrite (proj2 (Z.ltb_lt _ _) Hn). run_step. quiet I Hp. auto. }
  destruct o; [|exact Hok..]. by eapply executed_error; eauto.
Qed.

Lemma step_PE_lock_init e : procs s !! t = Some (proc (PE_lock_init e)) → (∀ h, child_list_lock s ≠ Held h) →
  fine s (step t o (proc (PE_lock_init e)) s).
Proof using I.
  intros Hp Hh. pose proof (i_point _ I _ _ Hp) as Hf. pose proof (i_list _ I _ _ Hp) as Hl. pose proof (i_kernel _ I _ _ Hp) as Hk.
  pose proof (i_argv _ I _ _ Hp eq_refl) as Hv. pose proof (i_kids _ I _ _ Hp) as (l & Hkl & Hnd & Hkw).
  destruct o as [|a junk|b]; [| |by apply fine_same].
  - change (fine s (match executed t e (-1) (set_list_lock Free s) with Ret (_, s') => Ret (true, s') | Err f => Err f end)).
    eapply (executed_error (PE_lock_init e)); [exact Hp|exact Hf|done|done|by right].
  - run_step. destruct (available a s) eqn:Ha; [|by apply fine_same].
    apply bool_decide_eq_true in Ha as [Hw He]. apply fine_quiet; [|done].
    assert (Hat : ¬ attached s a).
    { intros (c & r & Hr & Hm & Hu). destruct (i_mine _ I _ _ _ Hr Hm Hu) as (x & _ & (_ & _ & _ & Hx & _) & _). congruence. }
    eapply (change_keeps_inv s _ t _ _ I Hp). eapply (Build_change _ _ _ _ (proc (PE_acquire e a))); cbn; try done; try one_proc Hp.
    + intros q Hq. split; [done|]. intros ?%Hh. done.
    + intros b Hb. by left.
    + exists l. split_and!; [done..|]. intros v Hv'. destruct (Hkw v Hv') as (x & Hx & Hxp). rewrite lookup_insert_ne by congruence. eauto.
    + intros l0 v Hl0 Hv0 _. by exists l0.
    + intros v x Hx _ _. rewrite lookup_insert_ne by congruence. done.
    + intros v x Hx Ho. pose proof (own_ref s t _ I Hp v x Hx Ho). rewrite lookup_insert_ne by congruence. exists x. split_and!; try done. lia.
    + intros v x' Hx' Hr. apply lookup_insert_Some in Hx' as [[<- <-]|[Hne Hx']]; [cbn in Hr; lia|by exists x'].
    + intros v [Hm Hu]. destruct (i_mine _ I _ _ _ Hp Hm eq_refl) as (x & pp & (lp & Hlp & Hwp & Hx & _) & Hpp & Hx2 & Hx3 & Hx4 & Hx5 & Hx6).
      exists x. destruct (procs_alter _ _ (with_pc (PE_acquire e a)) Hpp) as [pp' Hpp']. exists pp'. split_and!; try done. exists lp. cbn. rewrite lookup_insert_ne by congruence. done.
    + intros v x' Hx'. apply lookup_insert_Some in Hx' as [[<- <-]|[Hne Hx']].
      * cbn. split; [done|]. intros q Hq. split; [done|]. intros (x & ? & _). congruence.
      * by apply (ref_same s t _ I Hp (proc (PE_acquire e a)) v x').
    + intros v x' Hx'. apply lookup_insert_Some in Hx' as [[<- <-]|[Hne Hx']]; [right; by left|by left].
    + intros q c v ?. by left.
    + intros _ v x (lk & Hlk & Hvk & Hx & Hxp) Hn. left. exists x. split_and!; try done. exists lk. cbn. by rewrite lookup_insert_ne by congruence.
    + split; [done|]. split_and!.
      * intros Hat'. apply Hat. by eapply (attached_alter _ _ (with_pc (PE_acquire e a)) a Hp); [..|exact Hat'].
      * exists l. split; [done|]. intros Hin. destruct (Hkw a Hin) as (x & ? & _). congruence.
      * rewrite lookup_insert_eq. by eexists.
Qed.

Lemma step_PE_acquire e w : procs s !! t = Some (proc (PE_acquire e w)) → fine s (step t o (proc (PE_acquire e w)) s).
Proof using I.
  intros Hp. pose proof (i_point _ I _ _ Hp) as Hpt. pose proof (i_kernel _ I _ _ Hp) as Hk. pose proof (i_argv _ I _ _ Hp eq_refl) as Hv.
  run_step. destruct (acquire_list_cases _ _ Hp eq_refl eq_refl eq_refl) as [[Hf ->]|(h & Hh & Hf & ->)]; [|by apply fine_same].
  quiet I Hp; rewrite ?Hf.
  - intros q Hq. split; congruence.
  - by left.
  - destruct Hpt as (He & Ha & Hl & x & Hx). split; [done|]. split_and!; [|done|by exists x].
    intros Ha'. apply Ha. by eapply (attached_alter _ _ (with_pc (PE_push e w)) w Hp); [..|exact Ha'].
Qed.

Lemma step_PE_push e w : procs s !! t = Some (proc (PE_push e w)) → fine s (step t o (proc (PE_push e w)) s).
Proof using I.
  intros Hp. pose proof (i_point _ I _ _ Hp) as (Hf & Ha & (l & Hl & Hwl) & x & Hx & Hr & Hs & Hxp).
  pose proof (i_kernel _ I _ _ Hp) as Hk. pose proof (i_argv _ I _ _ Hp eq_refl) as Hv. pose proof (i_kids _ I _ _ Hp) as (l' & Hl' & Hnd & Hkw).
  rewrite Hl in Hl'. injection Hl' as <-. pose proof (proj1 (i_list _ I _ _ Hp) eq_refl) as Hlock. run_step.
  rewrite (release_list_run _ _ Hp eq_refl) by done. apply fine_quiet; [|done].
  eapply (change_keeps_inv s _ t _ _ I Hp). eapply (Build_change _ _ _ _ (proc (PE_create e))); cbn; try done; try one_proc Hp.
  - intros q Hq. rewrite Hlock. split; congruence.
  - intros b Hb. by left.
  - intros q Hq. by rewrite lookup_alter_ne.
  - exists (w :: l). rewrite lookup_alter_eq, Hl. cbn. split_and!; [done|by constructor|]. intros v Hv'. apply elem_of_cons in Hv' as [->|Hv']; [by exists x|by apply Hkw].
  - intros l0 v Hl0 Hv0 _. exists (w :: l0). rewrite lookup_alter_eq, Hl0. split; [done|by right].
  - intros v y Hy Ho. pose proof (own_ref s t _ I Hp v y Hy Ho). exists y. split_and!; try done. lia.
  - intros v y Hy Hn. by exists y.
  - intros v [Hm Hu]. destruct (i_mine _ I _ _ _ Hp Hm eq_refl) as (y & pp & (lp & Hlp & Hwp & Hy & _) & Hpp & Hx2 & Hx3 & Hx4 & Hx5 & Hx6).
    exists y. destruct (procs_alter _ _ (with_pc (PE_create e)) Hpp) as [pp' Hpp']. exists pp'. split_and!; try done.
    destruct (decide (w_parent y = t)) as [E|E].
    + exists (w :: lp). cbn. rewrite E, lookup_alter_eq, <- E, Hlp. cbn. split_and!; try done. by right.
    + exists lp. cbn. by rewrite lookup_alter_ne.
  - intros v y Hy. by apply (ref_same s t _ I Hp (proc (PE_create e)) v y).
  - intros v y Hy. by left.
  - intros q c v ?. by left.
  - intros _ v y (lk & Hlk & Hvk & Hy & Hyp) Hn. left. exists y. split_and!; try done. exists (w :: lk). cbn. rewrite lookup_alter_eq, Hlk. split_and!; try done. by right.
  - split; [done|]. exists w, l, x. rewrite lookup_alter_eq, Hl. split_and!; try done.
    intros Ha'. apply Ha. by eapply (attached_alter _ _ (with_pc (PE_create e)) w Hp); [..|exact Ha'].
Qed.

Lemma step_K_loaded e pid : procs s !! t = Some (proc (K_loaded e pid)) → fine s (step t o (proc (K_loaded e pid)) s).
Proof using I.
  intros Hp. pose proof (i_point _ I _ _ Hp) as (x & Hx & Hs). pose proof (i_list _ I _ _ Hp) as Hl. pose proof (i_kernel _ I _ _ Hp) as Hk.
  pose proof (i_init _ I _ _ Hp eq_refl) as Hi.
  run_step. unfold down_exec, load_exec, store_exec, modify, mbind, cmd_bind, mret, cmd_ret, throw. cbn. rewrite Hx.
  destruct (load_success x) as [b|] eqn:Eb; rewrite Hs; cbn; [|by apply fine_same].
  rewrite lookup_insert_eq. cbn. quiet I Hp.
  - intros e' y Hy Hne _. rewrite lookup_delete_ne, lookup_insert_ne by congruence. done.
  - intros e' c [= <- <-]. rewrite Hx. intros [= ->]. by cbn in Eb.
Qed.

Lemma step_PW_acquire c : procs s !! t = Some (proc (PW_acquire c)) → fine s (step t o (proc (PW_acquire c)) s).
Proof using I.
  intros Hp. pose proof (i_kernel _ I _ _ Hp) as Hk.
  run_step. destruct (acquire_list_cases _ _ Hp eq_refl eq_refl eq_refl) as [[Hf ->]|(h & Hh & Hf & ->)]; [|by apply fine_same].
  quiet I Hp; rewrite ?Hf. intros q Hq. split; congruence.
Qed.

Lemma find_child_run c l : (∀ w, w ∈ l → ∃ x, waits s !! w = Some x ∧ w_parent x = t) →
  (find_child s c l = Ret None ∧ ∀ w x, w ∈ l → waits s !! w = Some x → w_tid x ≠ c) ∨
  (∃ w x, find_child s c l = Ret (Some w) ∧ w ∈ l ∧ waits s !! w = Some x ∧ w_tid x = c ∧ w_parent x = t).
Proof using.
  clear I. induction l as [|w l IH]; intros Hl; [left; split; [done|]; intros w x Hw; by apply elem_of_nil in Hw|].
  cbn. destruct (Hl w ltac:(left)) as (x & Hx & Hp). rewrite Hx. destruct (Z.eqb_spec (w_tid x) c) as [E|E].
  - right. exists w, x. split_and!; try done. left.
  - destruct IH as [[-> IH]|(w' & x' & -> & Hw' & H)]; [by intros; apply Hl; right| |right; exists w', x'; split_and!; try done; try apply H; by right].
    left. split; [done|]. intros v y Hv Hy. apply elem_of_cons in Hv as [->|Hv]; [congruence|by eapply IH].
Qed.

Lemma step_PW_find c : procs s !! t = Some (proc (PW_find c)) → fine s (step t o (proc (PW_find c)) s).
Proof using I.
  intros Hp. pose proof (i_kernel _ I _ _ Hp) as Hk. pose proof (i_kids _ I _ _ Hp) as (l & Hl & Hnd & Hkw).
  pose proof (proj1 (i_list _ I _ _ Hp) eq_refl) as Hlock. run_step. rewrite Hl.
  assert (Hq : ∀ q, q ≠ t → Free = Held q ↔ child_list_lock s = Held q) by (intros q Hq; rewrite Hlock; split; congruence).
  destruct (find_child_run c l Hkw) as [[-> Hno]|(w & x & -> & Hw & Hx & Ht & Hxp)]; rewrite (release_list_run _ _ Hp eq_refl) by done; run_step.
  - eexists _, _. split_and!; [done| |].
    + eapply (change_quiet _ _ _ I Hp); [one_proc Hp|done|done|by right; eexists|..]; cbn; done.
    + right. eexists. split; [done|]. intros Hc. destruct (i_created _ I _ _ _ Hc Hp eq_refl) as [?|(w & x & (l' & Hl' & Hw & Hx & _) & Ht & _)]; [done|].
      rewrite Hl in Hl'. injection Hl' as <-. by destruct (Hno w x Hw Hx).
  - quiet I Hp. exists x. split; [|done]. exists l. done.
Qed.

(** The state of a claimed wait status after a step of its parent. *)
Lemma claimed_set s' c w v n x x' : kid s t w x → ¬ attached s w →
  (∀ u, attached s' u → attached s u) → children s' = children s → log s' = log s → waits s' !! w = Some x' →
  w_parent x' = w_parent x → w_tid x' = c → sema x' = 0 → ref_count x' = n → exit_code x' = v →
  Created t c ∈ log s → Exited c v ∈ log s → claimed s' t c w v n.
Proof using.
  clear I. intros (l & Hl & Hw & Hx & Hxp) Ha Hmono Ek El Hx' ? ? ? ? ? ? ?. exists x'. rewrite El. split_and!; try done; [|auto].
  exists l. rewrite Ek. split_and!; try done. congruence.
Qed.

Lemma step_PW_down c w : procs s !! t = Some (proc (PW_down c w)) → fine s (step t o (proc (PW_down c w)) s).
Proof using I.
  intros Hp. pose proof (i_point _ I _ _ Hp) as (x & Hkid & Ht). pose proof Hkid as (l & Hl & Hw & Hx & Hxp).
  pose proof (i_init _ I _ _ Hp eq_refl) as Hi.
  run_step. unfold down_wait, load_wait, store_wait, modify, mbind, cmd_bind, mret, cmd_ret. cbn. rewrite Hx.
  destruct (i_sema _ I w x Hx) as [Hs|(Hs & Hr & Ha & Hc & He)]; rewrite Hs; cbn; [by apply fine_same|].
  rewrite lookup_insert_eq. cbn. apply fine_quiet; [|done].
  assert (Hmono : ∀ u, attached (set_procs (alter (with_pc (PW_ref c w (exit_code x))) t) (set_waits <[w := with_sema 0 x]> s)) u → attached s u).
  { intros u Hu. by eapply (attached_alter _ _ (with_pc (PW_ref c w (exit_code x))) u Hp); [..|exact Hu]. }
  eapply (change_wait _ _ _ I Hp _ _ w x (with_sema 0 x)); [one_proc Hp|..]; cbn; try done.
  - by left.
  - by right.
  - by right.
  - intros [Hm Hu]. destruct Ha. by exists t, (proc (PW_down c w)).
  - rewrite (i_ref _ I w x t Hx). split; [|done]. intros (r & Hr' & Hh). simplify_eq.
  - by left.
  - intros v Ho. eapply (mine_same _ _ _ I Hp); try done; cbn; [|one_proc Hp].
    rewrite lookup_insert_ne; [done|]. intros <-. destruct Ha, Ho. by exists t, (proc (PW_down c w)).
  - eapply (claimed_set _ _ _ _ _ x (with_sema 0 x)); try done; cbn; [by rewrite lookup_insert_eq|congruence|congruence].
Qed.

(** Taking the lock of a wait status that is not locked by this process. *)
Lemma acquire_ref_cases r w x : procs s !! t = Some r → waits s !! w = Some x → holds_ref (pc r) ≠ Some w →
  (ref_count_lock x = None ∧ acquire_ref t w s = Ret (true, set_waits (<[w := with_ref_lock (Some t) x]>) s)) ∨
  acquire_ref t w s = Ret (false, s).
Proof using I.
  intros Hr Hx Hn. unfold acquire_ref, load_wait, store_wait, modify, mbind, cmd_bind, mret, cmd_ret. rewrite Hx.
  destruct (ref_count_lock x) as [h|] eqn:E; [|by left]. right. destruct (Z.eqb_spec h t) as [->|?]; [|done].
  apply (i_ref _ I w x t Hx) in E as (r' & Hr' & Hh). by simplify_eq.
Qed.

Lemma step_PW_ref c w v : procs s !! t = Some (proc (PW_ref c w v)) → fine s (step t o (proc (PW_ref c w v)) s).
Proof using I.
  intros Hp. pose proof (i_point _ I _ _ Hp) as (x & Hkid & Ht & Hs & Hr & Hv & Ha & Hc & He). pose proof Hkid as (l & Hl & Hw & Hx & Hxp).
  pose proof (i_init _ I _ _ Hp eq_refl) as Hi. run_step.
  destruct (acquire_ref_cases _ w x Hp Hx ltac:(done)) as [[Hlk ->]| ->]; [|by apply fine_same]. apply fine_quiet; [|done].
  eapply (change_wait _ _ _ I Hp _ _ w x (with_ref_lock (Some t) x)); [one_proc Hp|..]; cbn; try done.
  - by left.
  - by right.
  - by right.
  - lia.
  - intros q Hq. rewrite Hlk. split; congruence.
  - congruence.
  - by left.
  - intros u Ho. eapply (mine_same _ _ _ I Hp); try done; cbn; [|one_proc Hp].
    rewrite lookup_insert_ne; [done|]. intros <-. destruct Ha, Ho. by exists t, (proc (PW_ref c w v)).
  - eapply (claimed_set _ _ _ _ _ x (with_ref_lock (Some t) x)); try done; cbn; [|by rewrite lookup_insert_eq].
    intros u Hu. by eapply (attached_alter _ _ (with_pc (PW_dec c w v)) u Hp); [..|exact Hu].
Qed.

Lemma step_PW_dec c w v : procs s !! t = Some (proc (PW_dec c w v)) → fine s (step t o (proc (PW_dec c w v)) s).
Proof using I.
  intros Hp. pose proof (i_point _ I _ _ Hp) as (x & Hkid & Ht & Hs & Hr & Hv & Ha & Hc & He). pose proof Hkid as (l & Hl & Hw & Hx & Hxp).
  pose proof (i_init _ I _ _ Hp eq_refl) as Hi. run_step. unfold load_wait. rewrite Hx, Hr. cbn. apply fine_quiet; [|done].
  eapply (change_wait _ _ _ I Hp _ _ w x (with_ref 0 x)); [one_proc Hp|..]; cbn; try done.
  - by left.
  - by right.
  - by right.
  - rewrite Hr. lia.
  - rewrite (i_ref _ I w x t Hx). split; [done|]. intros _. by eexists.
  - congruence.
  - congruence.
  - by left.
  - intros u Ho. eapply (mine_same _ _ _ I Hp); try done; cbn; [|one_proc Hp].
    rewrite lookup_insert_ne; [done|]. intros <-. destruct Ha, Ho. by exists t, (proc (PW_dec c w v)).
  - eapply (claimed_set _ _ _ _ _ x (with_ref 0 x)); try done; cbn; [|by rewrite lookup_insert_eq].
    intros u Hu. by eapply (attached_alter _ _ (with_pc (PW_list c w v)) u Hp); [..|exact Hu].
Qed.

Lemma step_PW_list c w v : procs s !! t = Some (proc (PW_list c w v)) → fine s (step t o (proc (PW_list c w v)) s).
Proof using I.
  intros Hp. pose proof (i_kernel _ I _ _ Hp) as Hk. pose proof (i_point _ I _ _ Hp) as (x & Hkid & Ht & Hs & Hr & Hv & Ha & Hc & He).
  run_step. destruct (acquire_list_cases _ _ Hp eq_refl eq_refl eq_refl) as [[Hf ->]|(h & Hh & Hf & ->)]; [|by apply fine_same].
  quiet I Hp; rewrite ?Hf.
  - intros q Hq. split; congruence.
  - eapply (claimed_set _ _ _ _ _ x x); try done; cbn; [|by destruct Hkid as (? & ? & ? & ? & ?)].
    intros u Hu. by eapply (attached_alter _ _ (with_pc (PW_unlink c w v)) u Hp); [..|exact Hu].
Qed.

(** [list_remove] of a wait status in the list of a live process. *)
Lemma wait_list_remove_run r w x l : procs s !! w_parent x = Some r → waits s !! w = Some x → children s !! w_parent x = Some l → w ∈ l →
  list_remove w s = Ret (tt, set_children (<[w_parent x := filter (λ v, v ≠ w) l]>) s).
Proof using. clear I. intros Hr Hx Hl Hw. unfold list_remove. rewrite Hx, Hl, !bool_decide_true by eauto. done. Qed.

Lemma step_PW_unlink c w v : procs s !! t = Some (proc (PW_unlink c w v)) → fine s (step t o (proc (PW_unlink c w v)) s).
Proof using I.
  intros Hp. pose proof (i_point _ I _ _ Hp) as (x & (l & Hl & Hw & Hx & Hxp) & Ht & Hs & Hr & Hv & Ha & Hc & He).
  pose proof (i_kernel _ I _ _ Hp) as Hk. pose proof (proj1 (i_list _ I _ _ Hp) eq_refl) as Hlock. run_step.
  pose proof (wait_list_remove_run (proc (PW_unlink c w v)) w x l) as E. rewrite Hxp in E. rewrite (E Hp Hx Hl Hw).
  rewrite (release_list_run _ _ Hp eq_refl) by done. cbn. eexists _, _. split_and!; [done| |].
  - eapply (change_remove s t _ I Hp _ _ w x l); [one_proc Hp|..]; cbn; try done.
    + set_solver.
    + intros q c'. rewrite elem_of_app, list_elem_of_singleton. by intros [?|?].
    + intros q c' v'. rewrite elem_of_app, list_elem_of_singleton. intros [?|[= -> -> ->]]; [by left|]. right. split; [done|lia].
    + intros q Hq. rewrite Hlock. split; congruence.
    + intros _. exists v. rewrite Ht. set_solver.
  - right. eexists. split; [done|]. split_and!; [done..|]. intros q' v' Hrp. apply (i_reaped _ I _ _ _ w x Hrp Hx); [lia|done].
Qed.

Lemma step_SP_load : procs s !! t = Some (proc SP_load) → fine s (step t o (proc SP_load) s).
Proof using I.
  intros Hp. pose proof (i_point _ I _ _ Hp) as Hpt. pose proof (i_list _ I _ _ Hp) as Hl. pose proof (i_kernel _ I _ _ Hp) as Hk.
  pose proof (i_init _ I _ _ Hp eq_refl) as Hi. run_step. destruct o as [|a j|b]; [by apply fine_same..|]. quiet I Hp.
  - by left.
  - destruct Hpt as [Hch Hpt]. split; [done|]. cbn in Hpt. destruct pl as [e|]; [|done]. destruct Hpt as (q & pq & Hq & Epc & He).
    exists q, pq. split_and!; try done. rewrite lookup_alter_ne; [by rewrite lookup_alter_ne by (intros ->; simplify_eq)|]. intros ->. simplify_eq.
Qed.

(** The end of the load, apart from the process itself. *)
Lemma load_done : match pl with
  | None => True
  | Some e => ∃ q pq, procs s !! q = Some pq ∧ pc pq = K_loaded e t ∧ execs s !! e = Some (mk_exec None 0) end → ∀ b,
  ∃ s1, (match pl with None => mret tt | Some e => x ← load_exec e; store_exec e (mk_exec (Some b) (load_sema x + 1)) end) s = Ret (tt, s1) ∧
    procs s1 = procs s ∧ waits s1 = waits s ∧ children s1 = children s ∧ log s1 = log s ∧ next_tid s1 = next_tid s ∧ argv s1 = argv s ∧
    child_list_lock s1 = child_list_lock s ∧
    (∀ e x, execs s !! e = Some x → pl ≠ Some e → execs s1 !! e = Some x) ∧
    (∀ e, pl = Some e → execs s1 !! e = Some (mk_exec (Some b) 1)).
Proof using.
  clear I proc my cl ea im ker. intros H b. destruct pl as [e|]; [|exists s; by split_and!]. destruct H as (q & pq & _ & _ & He).
  unfold load_exec, store_exec, modify, mbind, cmd_bind. rewrite He. eexists. split_and!; [done..| |]; cbn.
  - intros e' x Hx Hne. rewrite lookup_insert_ne by congruence. done.
  - intros e' [= <-]. by rewrite lookup_insert_eq.
Qed.

(** A process that begins to exit with the status in its wait status. *)
Lemma mine_exit x s' w v : procs s !! t = Some (proc x) → exiting x = false → waits s' = waits s → children s' = children s →
  procs s' = <[t := proc TE_mine]> (procs s) → log s' = log s ++ [Exited t v] → v = -1 →
  owns (proc TE_mine) w → mine_ok s' t (proc TE_mine) w.
Proof using I.
  intros Hp Hx Ew Ek Ep El -> [Hm _].
  destruct (i_mine _ I _ _ _ Hp Hm) as (y & pp & Hkid & Hpp & Et & Es & Er & Hc & He); [by destruct x|].
  cbn in Er, He. rewrite Hx in He. exists y.
  assert (∃ pp', procs s' !! w_parent y = Some pp') as [pp' Hpp'].
  { rewrite Ep. destruct (decide (w_parent y = t)) as [->|?]; [rewrite lookup_insert_eq; eauto|rewrite lookup_insert_ne by done; eauto]. }
  exists pp'. unfold kid. rewrite Ew, Ek, El. split_and!; try done; cbn; [by rewrite Er; destruct x|apply elem_of_app; by left|rewrite He; apply elem_of_app; right; by left].
Qed.

Lemma step_SP_up b : procs s !! t = Some (proc (SP_up b)) → fine s (step t o (proc (SP_up b)) s).
Proof using I.
  intros Hp. pose proof (i_point _ I _ _ Hp) as [Hch Hpt]. pose proof (i_list _ I _ _ Hp) as Hl. pose proof (i_kernel _ I _ _ Hp) as Hk.
  pose proof (i_init _ I _ _ Hp eq_refl) as Hi. cbn in Hpt.
  destruct (load_done Hpt b) as (s1 & E & E1 & E2 & E3 & E4 & E5 & E6 & E7 & He1 & He2).
  change (step t o (proc (SP_up b)) s) with ((match pl with None => mret tt | Some e => x ← load_exec e; store_exec e (mk_exec (Some b) (load_sema x + 1)) end ;;
    (if b then goto t User else modify (add_log (Exited t (-1)));; thread_exit t);; mret true) s).
  unfold mbind at 1, cmd_bind at 1. rewrite E. destruct b; run_step.
  - apply fine_quiet; [|done]. eapply (change_quiet _ _ _ I Hp); [cbn; rewrite E1; one_proc Hp|done|done|by left|..]; cbn; rewrite ?E5, ?E6, ?E7; try done.
    + intros e x Hx _ Hne. by apply He1; auto.
    + intros e _ Hpl. right. exists true. auto.
  - eexists _, _. split_and!; [done| |by right; rewrite <- E4; eexists].
    eapply (change_point _ _ _ I Hp _ (proc TE_mine)); [cbn; rewrite E1; one_proc Hp|done|done|by right; cbn; rewrite E4; eexists|..]; cbn; rewrite ?E5, ?E6, ?E7; try done.
    + intros _. right. intros l w Hl' Hw. rewrite Hch in Hl'. simplify_eq. by apply elem_of_nil in Hw.
    + intros w Ho. eapply (mine_exit (SP_up false) _ _ (-1) Hp); try done; cbn; [rewrite E1; one_proc Hp|by rewrite E4].
    + intros e x Hx _ Hne. by apply He1; auto.
    + intros e _ Hpl. right. exists false. auto.
Qed.

Lemma step_TE_mine : procs s !! t = Some (proc TE_mine) → fine s (step t o (proc TE_mine) s).
Proof using I.
  intros Hp. pose proof (i_list _ I _ _ Hp) as Hl. pose proof (i_kernel _ I _ _ Hp) as Hk. pose proof (i_init _ I _ _ Hp eq_refl) as Hi.
  unfold step, process_exit. cbn [pc proc my_wait_status]. destruct my as [w|] eqn:Em.
  - destruct (i_mine _ I _ _ w Hp eq_refl eq_refl) as (x & pp & (lp & Hlp & Hwp & Hx & _) & Hpp & Et & Es & Er & Hc & He). cbn in Er, He.
    run_step. destruct (acquire_ref_cases _ w x Hp Hx ltac:(done)) as [[Hlk ->]| ->]; [|by apply fine_same]. apply fine_quiet; [|done].
    eapply (change_wait _ _ _ I Hp _ _ w x (with_ref_lock (Some t) x)); [one_proc Hp|..]; cbn; try done.
    + by left.
    + by right.
    + by left.
    + rewrite Er. lia.
    + intros q Hq. rewrite Hlk. split; congruence.
    + congruence.
    + by left.
    + intros v [[= <-] _]. destruct (procs_alter _ _ (with_pc (TE_dec w)) Hpp) as [pp' Hpp']. exists (with_ref_lock (Some t) x), pp'. cbn.
      split_and!; try done. exists lp. cbn. by rewrite lookup_insert_eq.
    + by left.
  - run_step. apply fine_quiet; [|done].
    eapply (change_point _ _ _ I Hp); [one_proc Hp|done|done|by left|..]; cbn; try done; [by left|by intros w [? _]].
Qed.

Lemma step_TE_dec w : procs s !! t = Some (proc (TE_dec w)) → fine s (step t o (proc (TE_dec w)) s).
Proof using I.
  intros Hp. pose proof (i_point _ I _ _ Hp) as Hm. cbn in Hm. pose proof (i_init _ I _ _ Hp eq_refl) as Hi.
  destruct (i_mine _ I _ _ w Hp Hm eq_refl) as (x & pp & (lp & Hlp & Hwp & Hx & _) & Hpp & Et & Es & Er & Hc & He). cbn in Er, He.
  run_step. unfold load_wait. rewrite Hx, Er. change (2 - 1) with 1. cbn. unfold release_ref, load_wait, store_wait, modify, mbind, cmd_bind. cbn. rewrite lookup_insert_eq. cbn.
  rewrite bool_decide_true by (apply (i_ref _ I w x t Hx); by eexists). cbn. apply fine_quiet; [|done].
  eapply (change_wait _ _ _ I Hp _ _ w x (with_ref_lock None (with_ref 1 x))); [one_proc Hp|..]; cbn; try done.
  - by rewrite insert_insert_eq.
  - by left.
  - by right.
  - by left.
  - rewrite Er. lia.
  - intros q Hq. split; [done|]. intros Hlk. apply (i_ref _ I w x q Hx) in Hlk as (r & Hr & Hh).
    assert (Hlt : ref_count_lock x = Some t) by (apply (i_ref _ I w x t Hx); by eexists).
    assert (ref_count_lock x = Some q) by (apply (i_ref _ I w x q Hx); by eexists). congruence.
  - congruence.
  - by left.
  - intros v [Hv _]. cbn in Hv. rewrite Hm in Hv. injection Hv as <-. destruct (procs_alter _ _ (with_pc (TE_up w)) Hpp) as [pp' Hpp'].
    exists (with_ref_lock None (with_ref 1 x)), pp'. cbn. split_and!; try done. exists lp. cbn. by rewrite insert_insert_eq, lookup_insert_eq.
  - by left.
Qed.

Lemma step_TE_up w : procs s !! t = Some (proc (TE_up w)) → fine s (step t o (proc (TE_up w)) s).
Proof using I.
  intros Hp. pose proof (i_point _ I _ _ Hp) as Hm. cbn in Hm. pose proof (i_init _ I _ _ Hp eq_refl) as Hi.
  destruct (i_mine _ I _ _ w Hp Hm eq_refl) as (x & pp & (lp & Hlp & Hwp & Hx & _) & Hpp & Et & Es & Er & Hc & He). cbn in Er, He.
  run_step. unfold load_wait. rewrite Hx, Es. cbn. apply fine_quiet; [|done].
  eapply (change_wait _ _ _ I Hp _ _ w x (with_sema 1 x)); [one_proc Hp|..]; cbn; try done.
  - by left.
  - by right.
  - by left.
  - rewrite Er. lia.
  - rewrite (i_ref _ I w x t Hx). split; [|done]. intros (r & Hr & Hh). simplify_eq.
  - right. split_and!; try done; [|by rewrite Et..].
    intros (c & r & Hr & Hmr & Hu). cbn in Hr. destruct (decide (c = t)) as [->|Hne].
    + rewrite lookup_alter_eq, Hp in Hr. cbn in Hr. by simplify_eq.
    + rewrite lookup_alter_ne in Hr by done. destruct (i_mine _ I _ _ w Hr Hmr Hu) as (y & _ & (_ & _ & _ & Hy & _) & _ & Ety & _). congruence.
  - by intros v [_ ?].
  - by left.
Qed.

Lemma step_TE_acquire : procs s !! t = Some (proc TE_acquire) → fine s (step t o (proc TE_acquire) s).
Proof using I.
  intros Hp. pose proof (i_kernel _ I _ _ Hp) as Hk. pose proof (i_kids _ I _ _ Hp) as (l & Hl & Hnd & Hkw).
  run_step. destruct (acquire_list_cases _ _ Hp eq_refl eq_refl eq_refl) as [[Hf ->]|(h & Hh & Hf & ->)]; [|by apply fine_same].
  cbn. rewrite Hl. quiet I Hp; rewrite ?Hf.
  - intros q Hq. split; congruence.
  - split; [done|]. intros w Hw. destruct (Hkw w Hw) as (x & Hx & Hxp). exists x, l. done.
Qed.

Lemma step_TE_loop l : procs s !! t = Some (proc (TE_loop l)) → fine s (step t o (proc (TE_loop l)) s).
Proof using I.
  intros Hp. pose proof (i_point _ I _ _ Hp) as [Hnd Hkids]. pose proof (i_kernel _ I _ _ Hp) as Hk. pose proof (i_init _ I _ _ Hp eq_refl) as Hi.
  pose proof (proj1 (i_list _ I _ _ Hp) eq_refl) as Hlock. destruct l as [|w l]; run_step.
  - rewrite (release_list_run _ _ Hp eq_refl) by done. quiet I Hp. intros q Hq. rewrite Hlock. split; congruence.
  - destruct (Hkids w ltac:(left)) as (x & Hkid). pose proof Hkid as (lk & Hlk & Hw & Hx & Hxp).
    pose proof (i_exit _ I _ _ Hp eq_refl lk w Hlk Hw) as Ha.
    destruct (acquire_ref_cases _ w x Hp Hx ltac:(done)) as [[Hl ->]| ->]; [|by apply fine_same]. apply fine_quiet; [|done].
    eapply (change_wait _ _ _ I Hp _ _ w x (with_ref_lock (Some t) x)); [one_proc Hp|..]; cbn; try done.
    + by left.
    + by right.
    + by right.
    + by intros [_ ?].
    + intros q Hq. rewrite Hl. split; congruence.
    + congruence.
    + destruct (i_sema _ I w x Hx) as [?|(? & ? & _ & ? & ?)]; [by left|]. right. split_and!; try done.
      intros Hu. by eapply Ha, (attached_alter _ _ (with_pc (TE_child w l)) w Hp); [..|exact Hu].
    + by intros v [_ ?].
    + by left.
    + split; [done|]. intros v Hv. destruct (Hkids v Hv) as (y & l2 & Hl2 & Hv2 & Hy & Hyp). destruct (decide (v = w)) as [->|Hne].
      * exists (with_ref_lock (Some t) x), l2. cbn. rewrite lookup_insert_eq. split_and!; done.
      * exists y, l2. cbn. by rewrite lookup_insert_ne.
Qed.

Lemma step_TE_child w l : procs s !! t = Some (proc (TE_child w l)) → fine s (step t o (proc (TE_child w l)) s).
Proof using I.
  intros Hp. pose proof (i_point _ I _ _ Hp) as [Hnd Hkids]. apply NoDup_cons in Hnd as [Hwl Hnd].
  pose proof (i_kernel _ I _ _ Hp) as Hk. pose proof (i_init _ I _ _ Hp eq_refl) as Hi.
  pose proof (proj1 (i_list _ I _ _ Hp) eq_refl) as Hlock.
  destruct (Hkids w ltac:(left)) as (x & Hkid). pose proof Hkid as (lk & Hlk & Hw & Hx & Hxp).
  pose proof (i_exit _ I _ _ Hp eq_refl lk w Hlk Hw) as Ha.
  run_step. unfold load_wait. rewrite Hx. cbn. destruct (Z.eqb_spec (ref_count x - 1) 0) as [E|E]; cbn.
  - unfold list_remove. cbn. rewrite lookup_insert_eq. cbn. rewrite Hxp, Hlk, (bool_decide_true (w ∈ lk)), (bool_decide_true (is_Some _)) by eauto.
    cbn. apply fine_quiet; [|done].
    eapply (change_remove s t _ I Hp _ _ w x lk); [one_proc Hp|..]; cbn; try done.
    + by rewrite delete_insert_eq.
    + intros q c v ?. by left.
    + split; [done|]. intros v Hv. destruct (Hkids v ltac:(by right)) as (y & l2 & Hl2 & Hv2 & Hy & Hyp). rewrite Hlk in Hl2. injection Hl2 as <-.
      assert (v ≠ w) by (by intros ->). exists y, (filter (λ u, u ≠ w) lk). cbn. rewrite lookup_insert_eq, delete_insert_eq, lookup_delete_ne by done.
      split_and!; try done. by apply list_elem_of_filter.
  - assert (Hlx : ref_count_lock x = Some t) by (apply (i_ref _ I w x t Hx); by eexists).
    unfold release_ref, load_wait, store_wait, modify, mbind, cmd_bind. cbn. rewrite lookup_insert_eq. cbn.
    rewrite bool_decide_true by done. cbn. apply fine_quiet; [|done].
    assert (Hs : sema x = 0) by (destruct (i_sema _ I w x Hx) as [?|(? & ? & _)]; [done|lia]).
    eapply (change_wait _ _ _ I Hp _ _ w x (with_ref_lock None (with_ref (ref_count x - 1) x))); [one_proc Hp|..]; cbn; try done.
    + by rewrite insert_insert_eq.
    + by left.
    + by right.
    + by right.
    + by intros [_ ?].
    + lia.
    + intros q Hq. split; [done|]. congruence.
    + congruence.
    + by left.
    + by intros v [_ ?].
    + by left.
    + split; [done|]. intros v Hv. destruct (Hkids v ltac:(by right)) as (y & l2 & Hl2 & Hv2 & Hy & Hyp).
      exists y, l2. cbn. rewrite insert_insert_eq, lookup_insert_ne by (by intros <-). done.
Qed.
End with_process.
End points.

(** * The birth and the death of a process keep the invariant *)

Section die.
Context (s : pstate) (t : Z) (p : process) (I : inv s) (Hp : procs s !! t = Some p) (Hpc : pc p = TE_die).
Let s' := set_procs (delete t) s.

Lemma die_procs q r : procs s' !! q = Some r ↔ q ≠ t ∧ procs s !! q = Some r.
Proof using. unfold s'. cbn. rewrite lookup_delete_Some. intuition congruence. Qed.
Lemma die_attached w : attached s' w ↔ attached s w.
Proof using Hp Hpc.
  split; intros (c & r & Hr & Hm & Hu).
  - apply die_procs in Hr as [_ Hr]. by exists c, r.
  - exists c, r. split_and!; [|done..]. apply die_procs. split; [|done]. intros ->. simplify_eq. by rewrite Hpc in Hu.
Qed.

Lemma die_point q r : q ≠ t → procs s !! q = Some r → point_ok s' q r.
Proof using I Hp Hpc.
  intros Hq Hr. pose proof (i_point _ I q r Hr) as H. revert H. unfold point_ok, claimed, kid. destruct (pc r); try done; cbn; intros H;
    try (setoid_rewrite die_attached; exact H).
  - destruct H as [? H]. split; [done|]. destruct (parent_load r); [|done]. destruct H as (q' & pq & Hq' & Epc & He).
    exists q', pq. rewrite lookup_delete_ne by (intros ->; congruence). done.
  - destruct H as [? H]. split; [done|]. destruct (parent_load r); [|done]. destruct H as (q' & pq & Hq' & Epc & He).
    exists q', pq. rewrite lookup_delete_ne by (intros ->; congruence). done.
Qed.

Lemma die_keeps_inv : inv s'.
Proof using I Hp Hpc.
  constructor; try (intros q r [Hq Hr]%die_procs); try (intros q r w [Hq Hr]%die_procs).
  - by apply (i_next _ I _ _ Hr).
  - by apply (i_kids _ I _ _ Hr).
  - by apply die_point.
  - intros Hm Hu. destruct (i_mine _ I _ _ _ Hr Hm Hu) as (x & pp & Hkid & Hpp & H). exists x, pp. split; [done|]. split; [|done].
    apply die_procs. split; [|done]. intros E. destruct Hkid as (l & Hl & Hw & _). rewrite E in Hl.
    assert (Hd : children_done s t) by (apply (i_exit _ I _ _ Hp); by rewrite Hpc). apply (Hd l w Hl Hw). by exists q, r.
  - intros He l w Hl Hw. rewrite die_attached. by apply (i_exit _ I _ _ Hr He l).
  - by apply (i_list _ I _ _ Hr).
  - intros q Hq. destruct (i_list_live _ I q Hq) as [r Hr]. exists r. apply die_procs. split; [|done]. intros ->.
    simplify_eq. apply (i_list _ I _ _ Hp) in Hq. by rewrite Hpc in Hq.
  - by apply (i_init _ I _ _ Hr).
  - by apply (i_argv _ I _ _ Hr).
  - intros w x q Hx. rewrite (i_ref _ I w x q Hx). split; intros (r & Hr & Hh).
    + exists r. rewrite die_procs. split_and!; try done. intros ->. simplify_eq. by rewrite Hpc in Hh.
    + exists r. by apply die_procs in Hr as [_ Hr].
  - intros q r q' r' a [_ Hr]%die_procs [_ Hr']%die_procs. by apply (i_exec _ I).
  - by apply (i_kernel _ I _ _ Hr).
  - intros w x Hx. rewrite die_attached. by apply (i_sema _ I).
  - by apply (i_tid _ I).
  - by apply (i_uniq _ I).
  - by apply (i_log _ I).
  - by apply (i_log_reaped _ I).
  - by apply (i_reaped _ I).
  - intros q c r Hc [_ Hr]%die_procs. by apply (i_created _ I q c r).
Qed.
End die.

(** ** [thread_create] *)
Section create.
Context (s : pstate) (t : Z) (e : option positive) (p : process) (I : inv s) (Hp : procs s !! t = Some p) (Hpc : pc p = PE_create e).
Context (w : positive) (l : list positive) (x : wait_status).
Context (Hf : fresh_exec s p e) (Hl : children s !! t = Some (w :: l)) (Hx : waits s !! w = Some x) (Hr : ref_count x = -1) (Ha : ¬ attached s w).
Let c := next_tid s.
Let x' := mk_ws (-1) c (sema x) 2 (ref_count_lock x) (w_parent x).
Let child := mk_process SP_load (Some w) None (child_loaded p) 0 None false.
Let p' := match e with Some a => with_pc (K_loaded a c) p | None => with_pc User (with_eax c p) end.
Let s' := mk_pstate (<[t := p']> (<[c := child]> (procs s))) (<[c := []]> (children s)) (<[w := x']> (waits s))
  (execs s) (child_list_lock s) (argv s) (c + 1) (log s ++ [Created t c]).

Lemma c_fresh : 0 < t < c ∧ procs s !! c = None.
Proof using All.
  split; [apply (i_next _ I _ _ Hp)|]. destruct (procs s !! c) as [r|] eqn:E; [|done]. pose proof (i_next _ I _ _ E). unfold c in *. lia.
Qed.

Lemma create_run : create_process t e s = Ret (tt, s').
Proof using All.
  pose proof c_fresh as [Hlt _]. assert (Hne : c ≠ t) by lia.
  unfold create_process, gets, modify, load_wait, store_wait, executed, goto, upd_proc, free_exec, modify, mbind, cmd_bind, mret, cmd_ret. cbn.
  rewrite Hp, Hl. cbn. rewrite Hx, Hr. cbn. fold c.
  assert (Hp1 : (<[c := child]> (procs s) : gmap Z process) !! t = Some p) by (by rewrite lookup_insert_ne).
  unfold s', p'. destruct e as [a|]; cbn.
  - rewrite (proj2 (Z.eqb_neq c (-1))) by lia. cbn. unfold set_procs. cbn. fold child. by rewrite (alter_self _ _ _ _ Hp1).
  - unfold set_procs. cbn. fold child. by rewrite (alter_self _ _ _ _ Hp1), alter_insert.
Qed.

Lemma create_procs q r : procs s' !! q = Some r ↔ (q = t ∧ r = p') ∨ (q = c ∧ r = child) ∨ (q ≠ t ∧ q ≠ c ∧ procs s !! q = Some r).
Proof using All.
  pose proof c_fresh as [Hlt Hnone]. unfold s'. cbn. rewrite lookup_insert_Some, lookup_insert_Some.
  split; [intuition (subst; auto)|]. intros [[-> ->]|[[-> ->]|(? & ? & ?)]]; [by left|right; split; [lia|by left]|auto].
Qed.

Lemma p'_facts : my_wait_status p' = my_wait_status p ∧ after_up (pc p') = false ∧ exiting (pc p') = false ∧ holds_list (pc p') = false ∧
  holds_ref (pc p') = None ∧ has_argv (pc p') = false ∧ exec_of (pc p') = e ∧ in_kernel p' = in_kernel p ∧ child_loaded p' = child_loaded p ∧
  loading (pc p') = false ∧ (∀ u, pc p' ≠ TE_up u).
Proof using All. unfold p'. destruct e; by split_and!. Qed.

Lemma create_attached u : attached s' u ↔ attached s u ∨ u = w.
Proof using All.
  destruct p'_facts as (Em & Ea & _). pose proof c_fresh as [Hlt Hnone]. split.
  - intros (q & r & Hq & Hm & Hu). apply create_procs in Hq as [[-> ->]|[[-> ->]|(? & ? & Hq)]].
    + left. exists t, p. rewrite Hpc. split_and!; try done. congruence.
    + right. cbn in Hm. congruence.
    + left. by exists q, r.
  - intros [(q & r & Hq & Hm & Hu)| ->].
    + destruct (decide (q = t)) as [->|Hqt].
      * exists t, p'. rewrite create_procs. simplify_eq. split_and!; [by left|congruence|done].
      * exists q, r. rewrite create_procs. split_and!; try done. right. right. split_and!; try done. congruence.
    + exists c, child. rewrite create_procs. split_and!; try done. auto.
Qed.

Lemma w_mine : w_parent x = t ∧ sema x = 0.
Proof using All.
  split.
  - destruct (i_kids _ I _ _ Hp) as (l' & Hl' & _ & Hw). rewrite Hl in Hl'. injection Hl' as <-. destruct (Hw w ltac:(left)) as (y & Hy & <-). congruence.
  - destruct (i_sema _ I w x Hx) as [?|(_ & ? & _)]; [done|lia].
Qed.

Lemma create_kid q v y : q ≠ t → is_Some (procs s !! q) → kid s q v y → kid s' q v y ∧ v ≠ w.
Proof using All.
  intros Hq [r Hq'] (lq & Hlq & Hv & Hy & Hyp). pose proof w_mine as [Hwp _]. pose proof c_fresh as [_ Hnone].
  assert (v ≠ w) by (intros ->; simplify_eq). split; [|done]. exists lq. unfold s'. cbn.
  rewrite lookup_insert_ne by congruence. rewrite lookup_insert_ne by done. done.
Qed.

Lemma create_point_other q r : q ≠ t → q ≠ c → procs s !! q = Some r → point_ok s' q r.
Proof using All.
  intros Hq Hqc Hr'. pose proof (i_point _ I q r Hr') as H. pose proof w_mine as [Hwp _]. pose proof c_fresh as [_ Hnone].
  assert (Hk : ∀ v y, kid s q v y → kid s' q v y ∧ v ≠ w) by (intros v y; apply create_kid; eauto).
  assert (Hch : children s' !! q = children s !! q) by (unfold s'; cbn; by rewrite lookup_insert_ne).
  assert (Hat : ∀ u, ¬ attached s u → u ≠ w → ¬ attached s' u) by (intros u ? ?; rewrite create_attached; tauto).
  assert (Hcl : ∀ k u v n, claimed s q k u v n → claimed s' q k u v n).
  { intros k u v n (y & Hy & ? & ? & ? & ? & ? & ? & ?). destruct (Hk u y Hy). exists y. split_and!; auto; unfold s'; cbn; set_solver. }
  assert (Hld : children s !! q = Some [] ∧ match parent_load r with
      | Some a => ∃ q' pq, procs s !! q' = Some pq ∧ pc pq = K_loaded a q ∧ execs s !! a = Some (mk_exec None 0) | None => True end →
      children s !! q = Some [] ∧ match parent_load r with
      | Some a => ∃ q' pq, procs s' !! q' = Some pq ∧ pc pq = K_loaded a q ∧ execs s' !! a = Some (mk_exec None 0) | None => True end).
  { intros [? H']. split; [done|]. destruct (parent_load r); [|done]. destruct H' as (q' & pq & Hq' & Epc & He).
    exists q', pq. split_and!; try done. apply create_procs. right. right. split_and!; [congruence|congruence|done]. }
  revert H. unfold point_ok. rewrite Hch. destruct (pc r); try done; auto.
  - intros (? & Hau & Hlu & y & Hy & Hyr & Hys & Hyp). assert (w0 ≠ w) by congruence.
    split_and!; auto. exists y. unfold s'. cbn. by rewrite lookup_insert_ne.
  - intros (? & Hau & Hlu & y & Hy & Hyr & Hys & Hyp). assert (w0 ≠ w) by congruence.
    split_and!; auto. exists y. unfold s'. cbn. by rewrite lookup_insert_ne.
  - intros (? & u & lu & y & Hlu & Hy & Hyr & Hau). split; [done|].
    destruct (i_kids _ I _ _ Hr') as (l0 & Hl0 & _ & Hw0). rewrite Hlu in Hl0. injection Hl0 as <-.
    destruct (Hw0 u ltac:(left)) as (y' & Hy' & Hyp). assert (u ≠ w) by congruence.
    exists u, lu, y. split_and!; auto. unfold s'. cbn. by rewrite lookup_insert_ne.
  - intros (y & Hy & ?). exists y. split; [by apply Hk|done].
  - intros [? Hks]. split; [done|]. intros u Hu. destruct (Hks u Hu) as [y Hy]. exists y. by apply Hk.
  - intros [? Hks]. split; [done|]. intros u Hu. destruct (Hks u Hu) as [y Hy]. exists y. by apply Hk.
Qed.

Lemma create_waits v y : waits s' !! v = Some y ↔ (v = w ∧ y = x') ∨ (v ≠ w ∧ waits s !! v = Some y).
Proof using All. unfold s'. cbn. rewrite lookup_insert_Some. intuition congruence. Qed.

Lemma create_point_self : point_ok s' t p' ∧ point_ok s' c child.
Proof using All.
  pose proof c_fresh as [Hlt Hnone]. unfold p', point_ok. destruct e as [a|]; cbn; rewrite lookup_insert_eq.
  - destruct Hf as [Hcl He]. rewrite Hcl. split; [by eexists|]. split; [done|]. exists t, (with_pc (K_loaded a c) p). by rewrite lookup_insert_eq.
  - rewrite Hf. done.
Qed.

Lemma create_mine q r v : procs s' !! q = Some r → owns r v → mine_ok s' q r v.
Proof using All.
  destruct p'_facts as (Em & Ea & Ee & _ & _ & _ & _ & _ & _ & _ & Eu). pose proof c_fresh as [Hlt Hnone]. pose proof w_mine as [Hwp Hws].
  assert (Hold : ∀ q r, q ≠ c → procs s !! q = Some r → owns r v → mine_ok s q r v ∧ v ≠ w).
  { intros q0 r0 _ Hr0 [Hm Hu]. split; [by apply (i_mine _ I)|]. intros ->. apply Ha. by exists q0, r0. }
  assert (Hlift : ∀ q r r', mine_ok s q r v → v ≠ w → exiting (pc r') = exiting (pc r) →
    match pc r' with TE_up _ => 1 | _ => 2 end = match pc r with TE_up _ => 1 | _ => 2 end → mine_ok s' q r' v).
  { intros q0 r0 r' (y & pp & (lp & Hlp & Hvp & Hy & _) & Hpp & Et & Es & Er & Hc & He) Hne E1 E2.
    assert (∃ pp', procs s' !! w_parent y = Some pp') as [pp' Hpp'].
    { destruct (decide (w_parent y = t)) as [->|?]; [exists p'|exists pp]; rewrite create_procs; [by left|]. right. right. split_and!; try done. congruence. }
    exists y, pp'. rewrite E1, E2. split_and!; try done.
    - exists lp. unfold s'. cbn. rewrite lookup_insert_ne by congruence. by rewrite lookup_insert_ne.
    - unfold s'. cbn. set_solver.
    - unfold s'. cbn. destruct (exiting (pc r0)); [set_solver|done]. }
  intros Hq Ho. apply create_procs in Hq as [[-> ->]|[[-> ->]|(Hqt & Hqc & Hq)]].
  - assert (Hop : owns p v) by (destruct Ho; split; [congruence|by rewrite Hpc]).
    destruct (Hold t p ltac:(lia) Hp Hop) as [Hm Hne]. apply (Hlift t p); try done; rewrite Hpc; [done|].
    destruct (pc p') eqn:E; try done.
  - destruct Ho as [[= <-] _]. exists x', p'. cbn. rewrite Hwp. split_and!; try done.
    + exists (w :: l). unfold s'. cbn. rewrite lookup_insert_ne by lia. rewrite lookup_insert_eq, Hl. split_and!; try done. left.
    + by rewrite lookup_insert_eq.
    + apply elem_of_app. right. by left.
  - destruct (Hold q r Hqc Hq Ho). by apply (Hlift q r).
Qed.

Lemma create_keeps_inv : inv s'.
Proof using All.
  destruct p'_facts as (Em & Ea & Ee & Ehl & Ehr & Eha & Eex & Eker & Ecl & Eld & Eu). pose proof c_fresh as [Hlt Hnone]. pose proof w_mine as [Hwp Hws].
  assert (Hlog : ∀ e, e ∈ log s' ↔ e ∈ log s ∨ e = Created t c) by (intros ev; unfold s'; cbn; rewrite elem_of_app, list_elem_of_singleton; done).
  constructor.
  - intros q r [[-> ->]|[[-> ->]|(_ & _ & Hq)]]%create_procs; unfold s'; cbn; [lia|lia|]. pose proof (i_next _ I _ _ Hq). unfold c in *. lia.
  - intros q r Hq. assert (Hw : ∀ v y, waits s !! v = Some y → ∃ y', waits s' !! v = Some y' ∧ w_parent y' = w_parent y).
    { intros v y Hy. destruct (decide (v = w)) as [->|?]; [exists x'|exists y]; rewrite create_waits; [|auto]. simplify_eq. auto. }
    apply create_procs in Hq as [[-> ->]|[[-> ->]|(Hqt & Hqc & Hq)]].
    + destruct (i_kids _ I _ _ Hp) as (l0 & Hl0 & Hnd & Hk). exists l0. unfold s' at 1. cbn. rewrite lookup_insert_ne by lia. split_and!; try done.
      intros v Hv. destruct (Hk v Hv) as (y & Hy & <-). apply Hw. done.
    + exists []. unfold s' at 1. cbn. rewrite lookup_insert_eq. split_and!; [done|constructor|]. intros v Hv. by apply elem_of_nil in Hv.
    + destruct (i_kids _ I _ _ Hq) as (l0 & Hl0 & Hnd & Hk). exists l0. unfold s' at 1. cbn. rewrite lookup_insert_ne by done. split_and!; try done.
      intros v Hv. destruct (Hk v Hv) as (y & Hy & <-). apply Hw. done.
  - destruct create_point_self as [H1 H2]. intros q r [[-> ->]|[[-> ->]|(? & ? & Hq)]]%create_procs; [done|done|]. by apply create_point_other.
  - intros q r v Hq Hm Hu. by apply create_mine.
  - intros q r Hq He lq v Hlq Hv. rewrite create_attached.
    apply create_procs in Hq as [[-> ->]|[[-> ->]|(Hqt & Hqc & Hq)]]; [congruence|done|]. unfold s' in Hlq. cbn in Hlq.
    rewrite lookup_insert_ne in Hlq by done. intros [Hat| ->]; [by apply (i_exit _ I _ _ Hq He lq v)|].
    destruct (i_kids _ I _ _ Hq) as (l0 & Hl0 & _ & Hk). rewrite Hlq in Hl0. injection Hl0 as <-. destruct (Hk w Hv) as (y & Hy & Hyp). congruence.
  - intros q r Hq. unfold s'. cbn. apply create_procs in Hq as [[-> ->]|[[-> ->]|(Hqt & Hqc & Hq)]].
    + rewrite Ehl. pose proof (i_list _ I _ _ Hp) as H. rewrite Hpc in H. exact H.
    + cbn. split; [done|]. intros H. destruct (i_list_live _ I _ H). congruence.
    + by apply (i_list _ I _ _ Hq).
  - intros q Hq. destruct (i_list_live _ I q Hq) as [r Hr']. destruct (decide (q = t)) as [->|?]; [exists p'|exists r]; rewrite create_procs; [by left|].
    right. right. split_and!; try done. congruence.
  - intros q r Hq _. unfold s'. cbn. apply (i_init _ I t p Hp). by rewrite Hpc.
  - intros q r Hq Hh. unfold s'. cbn. apply create_procs in Hq as [[-> ->]|[[-> ->]|(Hqt & Hqc & Hq)]]; [congruence|done|]. by eapply (i_argv _ I).
  - intros v y q Hy. assert (∃ y0, waits s !! v = Some y0 ∧ ref_count_lock y = ref_count_lock y0) as (y0 & Hy0 & ->).
    { apply create_waits in Hy as [[-> ->]|[_ Hy]]; eauto. }
    rewrite (i_ref _ I v y0 q Hy0). split; intros (r & Hq & Hh).
    + exists r. rewrite create_procs. split; [|done]. destruct (decide (q = t)) as [->|?]; [simplify_eq; by rewrite Hpc in Hh|].
      right. right. split_and!; try done. congruence.
    + apply create_procs in Hq as [[-> ->]|[[-> ->]|(Hqt & Hqc & Hq)]]; [congruence|done|]. by exists r.
  - assert (Hx0 : ∀ q r a, procs s' !! q = Some r → exec_of (pc r) = Some a → ∃ r0, procs s !! q = Some r0 ∧ exec_of (pc r0) = Some a).
    { intros q r a [[-> ->]|[[-> ->]|(Hqt & Hqc & Hq)]]%create_procs He; [|done|eauto]. exists p. rewrite Hpc. split; [done|]. cbn. congruence. }
    intros q r q' r' a Hq Hq' He He'. destruct (Hx0 _ _ _ Hq He) as (r0 & ? & ?), (Hx0 _ _ _ Hq' He') as (r0' & ? & ?). by eapply (i_exec _ I).
  - intros q r [[-> ->]|[[-> ->]|(Hqt & Hqc & Hq)]]%create_procs; [|done|by apply (i_kernel _ I _ _ Hq)]. rewrite Eker, Ecl. by apply (i_kernel _ I _ _ Hp).
  - intros v y Hy. apply create_waits in Hy as [[-> ->]|[Hne Hy]]; [by left|].
    destruct (i_sema _ I v y Hy) as [?|(? & ? & ? & ? & ?)]; [by left|]. right. rewrite create_attached, !Hlog. split_and!; try done; [tauto|by left|by left].
  - intros v y Hy Hn. unfold s'. cbn. apply create_waits in Hy as [[-> ->]|[Hne Hy]]; [cbn; lia|]. pose proof (i_tid _ I v y Hy Hn). unfold c. lia.
  - intros v y v' z Hy Hz Hn Hm E. apply create_waits in Hy as [[-> ->]|[Hne Hy]]; apply create_waits in Hz as [[-> ->]|[Hne' Hz]]; [done| | |by eapply (i_uniq _ I)].
    + pose proof (i_tid _ I _ _ Hz Hm). cbn in E. unfold c in *. lia.
    + pose proof (i_tid _ I _ _ Hy Hn). cbn in E. unfold c in *. lia.
  - intros q k [Hq|[= -> ->]]%Hlog; unfold s'; cbn; [pose proof (i_log _ I _ _ Hq)|]; unfold c in *; lia.
  - intros q k v [Hq|?]%Hlog; [|done]. unfold s'. cbn. pose proof (i_log_reaped _ I _ _ _ Hq). unfold c. lia.
  - intros q k v u y [Hq|?]%Hlog Hy Hn; [|done]. apply create_waits in Hy as [[-> ->]|[Hne Hy]]; [|by eapply (i_reaped _ I)].
    pose proof (i_log_reaped _ I _ _ _ Hq). cbn. unfold c. lia.
  - intros q k r [Hk|[= -> ->]]%Hlog Hq Hu; [|right; exists w, x'; split_and!; try done].
    + assert (Hqc : q ≠ c) by (pose proof (i_log _ I _ _ Hk); unfold c; lia).
      assert (∃ r0, procs s !! q = Some r0 ∧ after_up (pc r0) = false) as (r0 & Hr0 & Hu0).
      { apply create_procs in Hq as [[-> ->]|[[-> ->]|(? & ? & Hq)]]; [exists p; by rewrite Hpc|done|by exists r]. }
      destruct (i_created _ I q k r0 Hk Hr0 Hu0) as [[v Hv]|(u & y & (lu & Hlu & Hin & Hy & Hyp) & Et & Hn)]; [left; exists v; rewrite Hlog; by left|].
      right. assert (u ≠ w) by (intros ->; simplify_eq; lia). exists u, y. split_and!; try done. exists lu. unfold s'. cbn.
      rewrite lookup_insert_ne by done. by rewrite lookup_insert_ne.
    + exists (w :: l). unfold s'. cbn. rewrite lookup_insert_ne by lia. rewrite lookup_insert_eq. split_and!; try done. left.
Qed.
End create.
