(* ===== verification/ProcessTheorems.v ===== *)
(** * What holds in every orderly execution of processes *)
From S2P Require Import Prelude KStringSpec ArgStack Process ProcessInv ProcessStep ProcessRun ProcessPoints.
Open Scope Z_scope.

Section labels.
Context (s : pstate) (I : inv s).

Lemma step_PE_create t o e my cl pl ea im ker (p := mk_process (PE_create e) my cl pl ea im ker) :
  procs s !! t = Some p → fine s (step t o p s).
Proof using I.
  intros Hp. pose proof (i_point _ I _ _ Hp) as (Hf & w & l & x & Hl & Hx & Hr & Ha). pose proof (i_argv _ I _ _ Hp eq_refl) as Hv.
  assert (Hok : fine s (match create_process t e s with Ret (_, s') => Ret (true, s') | Err f => Err f end)).
  { rewrite (create_run s t e p I Hp eq_refl w l x Hf Hl Hx Hr Ha). eexists _, _. split_and!; [done| |].
    - by apply (create_keeps_inv s t e p I Hp eq_refl w l x).
    - right. by eexists. }
  unfold step, process_execute, gets, mbind, cmd_bind, mret, cmd_ret. cbn. destruct o.
  - by eapply (executed_error s t I _ _ _ _ _ _ _ _ s Hp Hf); eauto.
  - destruct (argv s); [done|exact Hok].
  - destruct (argv s); [done|exact Hok].
Qed.

Lemma step_fine t o p : procs s !! t = Some p → orderly s (Step t o) → fine s (step t o p s).
Proof using I.
  intros Hp Ho. unfold orderly in Ho. rewrite Hp in Ho. destruct p as [x my cl pl ea im ker]. cbn in Ho. destruct x.
  - by apply fine_same.
  - by apply step_K_exec.
  - by apply step_PE_tokenize.
  - by apply step_PE_lock_init.
  - by apply step_PE_acquire.
  - by apply step_PE_push.
  - by apply step_PE_create.
  - by apply step_K_loaded.
  - by apply step_PW_acquire.
  - by apply step_PW_find.
  - by apply step_PW_down.
  - by apply step_PW_ref.
  - by apply step_PW_dec.
  - by apply step_PW_list.
  - by apply step_PW_unlink.
  - by apply step_SP_load.
  - by apply step_SP_up.
  - by apply step_TE_mine.
  - by apply step_TE_dec.
  - by destruct (i_point _ I _ _ Hp).
  - by destruct (i_point _ I _ _ Hp).
  - by apply step_TE_up.
  - by apply step_TE_acquire.
  - by apply step_TE_loop.
  - by apply step_TE_child.
  - apply fine_quiet; [|done]. by eapply die_keeps_inv.
Qed.

Lemma start_fine t c p : procs s !! t = Some p → orderly s (Call t c) → fine s (start t c p s).
Proof using I.
  intros Hp Ho. destruct p as [x my cl pl ea im ker]. destruct x; [|by apply fine_same..].
  pose proof (i_list _ I _ _ Hp) as Hl. pose proof (i_kernel _ I _ _ Hp) as Hk. destruct c as [fn|fn|c|v|]; run_step.
  - destruct ker; [by apply fine_same|]. quiet I Hp.
  - destruct ker; [|by apply fine_same]. quiet I Hp. split; [done|]. by apply Hk.
  - quiet I Hp.
  - destruct Ho as [Hu Hd]. destruct my as [w|].
    + destruct (i_mine _ I _ _ w Hp eq_refl eq_refl) as (y & pp & (lp & Hlp & Hwp & Hy & _) & Hpp & Et & Es & Er & Hc & He). cbn in Er, He.
      unfold load_wait. rewrite Hy. cbn. eexists _, _. split_and!; [done| |by right; eexists].
      eapply (change_wait _ _ _ I Hp _ _ w y (with_exit_code v y)); [one_proc Hp|..]; cbn; try done.
      * right. by eexists.
      * by right.
      * by left.
      * rewrite Er. lia.
      * rewrite (i_ref _ I w y t Hy). split; [|done]. intros (r & Hr & Hh). simplify_eq.
      * by left.
      * intros u [[= <-] _]. destruct (procs_alter s t _ _ (with_pc TE_mine) Hpp) as [pp' Hpp']. exists (with_exit_code v y), pp'. cbn.
        split_and!; try done; [|set_solver|set_solver]. exists lp. cbn. by rewrite lookup_insert_eq.
      * by right.
    + eexists _, _. split_and!; [done| |by right; eexists].
      eapply (change_point _ _ _ I Hp); [one_proc Hp|done|done|by right; eexists|..]; cbn; try done; [by right|by intros w [? _]].
  - destruct Ho as [Hu Hd]. eexists _, _. split_and!; [done| |by right; eexists].
    eapply (change_point _ _ _ I Hp); [one_proc Hp|done|done|by right; eexists|..]; cbn; try done; [by right|].
    intros w Hown. eapply (mine_exit s t I my cl pl ea im ker User _ w (-1) Hp); try done. one_proc Hp.
Qed.

Lemma act_fine l : orderly s l → fine s (act l s).
Proof using I.
  intros Ho. unfold act. destruct l as [t c|t o]; (destruct (procs s !! t) as [p|] eqn:Hp; [|by apply fine_same]).
  - by apply start_fine.
  - by apply step_fine.
Qed.
End labels.

Lemma boot_inv : inv boot.
Proof.
  assert (Hb : ∀ q r, procs boot !! q = Some r → q = 1 ∧ r = mk_process User None None None 0 None true).
  { intros q r Hr. unfold boot in Hr. cbn [procs] in Hr. by apply lookup_singleton_Some in Hr as [<- <-]. }
  constructor; try (by intros * ?%elem_of_nil); try done; try (intros q r Hr; destruct (Hb _ _ Hr) as [-> ->]; try done).
  - exists []. split_and!; [done|constructor|]. intros w Hw. by apply elem_of_nil in Hw.
  - intros q r w Hr. by destruct (Hb _ _ Hr) as [-> ->].
  - intros q r q' r' a Hr. by destruct (Hb _ _ Hr) as [-> ->].
Qed.

Lemma runs_inv s ls s' : runs s ls s' → inv s → log_ok (log s) → inv s' ∧ log_ok (log s').
Proof.
  induction 1 as [|s l s' ls s'' Ho Ha _ IH]; [done|]. intros I Hl.
  destruct (act_fine s I l Ho) as (b & s1 & E & I1 & L1). rewrite Ha in E. simplify_eq. apply IH; [done|]. by eapply log_ok_logged.
Qed.

(** C5: Processes are created, waited for and ended safely: in every
    interleaving of [exec], [wait] and [exit] calls that starts from the
    kernel's main thread and is orderly (no process ends before its children
    have raised their semaphores, and [process_execute] does not initialise
    [child_list_lock] while somebody holds it), no step touches freed memory,
    fails an assertion or releases a lock it does not hold.  Whenever
    [process_wait] returns a status, the child was created by the caller, the
    status is the one the child ended with, and nobody has received it before;
    it refuses only what is not a child or has been waited for. *)
Theorem process_protocol ls s : runs boot ls s →
  (∀ l, orderly s l → ∃ b s', act l s = Ret (b, s')) ∧
  (∀ l1 q c v l2, log s = l1 ++ Reaped q c v :: l2 → Created q c ∈ l1 ∧ Exited c v ∈ l1 ∧ ∀ q' v', Reaped q' c v' ∉ l1) ∧
  (∀ l1 q c l2, log s = l1 ++ Refused q c :: l2 → Created q c ∈ l1 → ∃ v, Reaped q c v ∈ l1).
Proof.
  intros Hr. destruct (runs_inv _ _ _ Hr boot_inv log_ok_nil) as [I Hl]. split_and!.
  - intros l Ho. destruct (act_fine s I l Ho) as (b & s' & E & _). eauto.
  - intros l1 q c v l2 E. exact (Hl _ _ _ E).
  - intros l1 q c l2 E. exact (Hl _ _ _ E).
Qed.
