(* ===== verification/ProcessExamples.v ===== *)
(** * Executions of processes: an orderly one, and what the conditions rule out *)
From S2P Require Import Prelude KStringSpec ArgStack Process ProcessInv ProcessStep ProcessRun ProcessPoints ProcessTheorems Stdio.
From stdpp Require Import strings.
Open Scope Z_scope.

(** ** Checking that an execution is orderly *)
Definition attachedb (s : pstate) (w : positive) : bool :=
  existsb (λ '(c, p), bool_decide (my_wait_status p = Some w) && negb (after_up (pc p))) (map_to_list (procs s)).
Definition good_lineb (fn : list Z) : bool := bool_decide (words fn ≠ []) && (Z.of_nat (length (words fn)) <? ARG_LIMIT).
Definition initialised (s : pstate) : bool := match child_list_lock s with Uninit => false | _ => true end.
Definition orderlyb (s : pstate) (l : label) : bool :=
  match l with
  | Call t (C_exec fn) | Call t (C_run fn) => good_lineb fn
  | Call t (C_wait _) => initialised s
  | Call t _ => initialised s && forallb (λ w, negb (attachedb s w)) (default [] (children s !! t))
  | Step t _ =>
      match procs s !! t with
      | Some p => match pc p with PE_lock_init _ => match child_list_lock s with Held _ => false | _ => true end | _ => true end
      | None => true
      end
  end.

Lemma attachedb_spec s w : attachedb s w = false → ¬ attached s w.
Proof.
  intros Hb (c & p & Hp & Hm & Hu). apply elem_of_map_to_list, list_elem_of_In in Hp.
  assert (Hx : attachedb s w = true); [|congruence]. apply existsb_exists. exists (c, p). split; [done|]. by rewrite bool_decide_true, Hu.
Qed.
Lemma orderlyb_spec s l : orderlyb s l = true → orderly s l.
Proof.
  assert (Hi : initialised s = true → child_list_lock s ≠ Uninit) by (unfold initialised; by destruct (child_list_lock s)).
  assert (Hg : ∀ fn, good_lineb fn = true → good_line fn).
  { intros fn [H1%bool_decide_eq_true H2%Z.ltb_lt]%andb_prop. done. }
  assert (Hd : ∀ t, forallb (λ w, negb (attachedb s w)) (default [] (children s !! t)) = true → children_done s t).
  { intros t Hf l0 w Hl Hw. rewrite Hl in Hf. cbn in Hf. apply attachedb_spec. apply list_elem_of_In in Hw.
    pose proof (proj1 (forallb_forall _ _) Hf w Hw) as Hn. by apply negb_true_iff in Hn. }
  destruct l as [t [fn|fn|c|v|]|t o]; unfold orderlyb, orderly.
  1-3: auto.
  1-2: intros [? ?]%andb_prop; auto.
  destruct (procs s !! t) as [p|]; [|done]. destruct (pc p); try done. by destruct (child_list_lock s).
Qed.

(** Run an orderly execution in which every step goes through. *)
Fixpoint perform (ls : list label) (s : pstate) : option pstate :=
  match ls with
  | [] => Some s
  | l :: ls => if orderlyb s l then match act l s with Ret (true, s) => perform ls s | _ => None end else None
  end.
Lemma perform_runs ls s s' : perform ls s = Some s' → runs s ls s'.
Proof.
  revert s. induction ls as [|l ls IH]; intros s; cbn; [intros [= ->]; constructor|].
  destruct (orderlyb s l) eqn:Ho; [|done]. destruct (act l s) as [[[] s1]|] eqn:Ha; try done. intros H. econstructor; eauto. by apply orderlyb_spec.
Qed.
(** Run any execution up to its first fault. *)
Fixpoint attempt (ls : list label) (s : pstate) : res pstate :=
  match ls with
  | [] => Ret s
  | l :: ls => match act l s with Ret (_, s) => attempt ls s | Err e => Err e end
  end.

(** ** Pieces of executions *)
Definition steps (t : Z) (n : nat) : list label := replicate n (Step t (Loaded true)).
(** [t] runs [process_execute] with its wait status at [a], up to the point at
    which it waits for the load, or to the end when [t] is in the kernel. *)
Definition execute (t : Z) (a : positive) : list label := [Step t (Loaded true); Step t (Got a 0)] ++ steps t 3.
Definition run_task (t : Z) (fn : string) (a : positive) : list label := Call t (C_run (chars fn)) :: execute t a.
Definition exec (t : Z) (fn : string) (e a : positive) : list label := [Call t (C_exec (chars fn)); Step t (Got e 0)] ++ execute t a.

Definition demo : list label :=
  run_task 1 "prog x" 10 ++ steps 2 2 ++ Call 1 (C_wait 2) :: steps 1 2 ++ Call 2 (C_exit 7) :: steps 2 6 ++ steps 1 5 ++
  Call 1 (C_wait 2) :: steps 1 2.

Lemma process_protocol_witness : ∃ s, runs boot demo s ∧
  log s = [Created 1 2; Exited 2 7; Reaped 1 2 7; Refused 1 2] ∧ waits s = ∅ ∧
  (∃ b s', act (Call 1 (C_wait 3)) s = Ret (b, s')) ∧ Exited 2 7 ∈ [Created 1 2; Exited 2 7].
Proof.
  destruct (perform demo boot) as [s|] eqn:E; [|by vm_compute in E].
  pose proof (perform_runs _ _ _ E) as Hr. destruct (process_protocol demo s Hr) as (Hok & Hre & _).
  assert (El : log s = [Created 1 2; Exited 2 7; Reaped 1 2 7; Refused 1 2]) by (vm_compute in E; by simplify_eq).
  exists s. split_and!; [done|done|vm_compute in E; by simplify_eq| |].
  - apply Hok. vm_compute in E. simplify_eq. done.
  - by destruct (Hre [Created 1 2; Exited 2 7] 1 2 7 [Refused 1 2] El) as (_ & H & _).
Defined.

(** ** Without the conditions *)
Definition family : list label := run_task 1 "a" 10 ++ steps 2 2 ++ exec 2 "b" 20 21 ++ steps 3 2 ++ steps 2 1.
(** The parent, 2, ends first; then the child, 3, drops the last reference. *)
Definition orphan : list label := family ++ Call 2 (C_exit 0) :: steps 2 8 ++ Call 3 (C_exit 0) :: steps 3 4.
(** The same, but the parent's page is still there: the child frees its wait
    status and then raises the semaphore in it. *)
Definition orphan_early : list label := family ++ Call 2 (C_exit 0) :: steps 2 7 ++ Call 3 (C_exit 0) :: steps 3 5.
(** 3 holds [child_list_lock] when 2 initialises it. *)
Definition reinit : list label := family ++ Call 3 (C_wait 9) :: steps 3 1 ++ exec 2 "c" 30 31 ++ steps 3 1.
(** The main thread ends without having run a program. *)
Definition early : list label := Call 1 C_killed :: steps 1 2.
(** 3 executes "c" between [tokenize] and the load of the program "d" that 2
    executes. *)
Definition mixed : list label := family ++ Call 2 (C_exec (chars "d")) :: [Step 2 (Got 30%positive 0); Step 2 (Loaded true)] ++
  exec 3 "c" 40 41 ++ Step 2 (Got 31%positive 0) :: steps 2 3 ++ steps 5 2.

